(* ===== verification/_CoqProject ===== *)
-Q . S2P
Prelude.v
Dbutil.v
Buffer.v
CircBuffer.v
Queue.v
MList.v
Timing.v
Cipher.v
Hmac.v
MdHash.v
AesTab.v
Aes.v
AesFips.v
AesKey.v
Sha1.v
Md5.v
Hashes.v
Mpint.v
Bignum.v
Ssh.v
Algo.v
Packet.v
PacketRecv.v
Transport.v
Channel.v
ChannelSafe.v
ChannelSelect.v
Compress.v
Kex.v
KexKeys.v
KexHash.v
Digits.v
Redux.v
Exptmod.v
KexNegotiate.v
KexSafe.v
SignCommon.v
Dss.v
Rsa.v
SignKey.v
HostKey.v
Base64.v
AuthKeys.v
KnownHosts.v
SvrAuth.v
CliAuth.v
CliLogin.v
Pendulum.v
Mbox.v
PendulumMain.v
MboxPutGet.v
