(* ===== verification/Prelude.v ===== *)
(** * A verification library for the C programs of this repository

    The repository holds Mehari (a high-level synthesis flow for ReconOS,
    mostly C++, Groovy and VHDL), the test programs that run on the systems it
    generates, and the SSH implementation dropbear that is installed on them.
    The library models the C code: dropbear's protocol core with the parts of
    libtomcrypt and libtommath it runs on (src/reconos/dropbear), and the two
    ReconOS test programs (src/single-pendulum-vhdl/reconos/linux and
    src/reconos/reconos-perftest/mbox_put_get/linux).

    ** How the code is modelled

    A C function is a program [prog S A = S -> res (A * S)] over the state it
    mutates, or a function on its arguments when it has no state.  Its result
    is [Ok], [Exit] for a call of [dropbear_exit] (or of [exit], or a failed
    assertion) or [Fault] for what the C standard leaves undefined: an access
    out of bounds, a null or dangling pointer, a division by zero; no fault is
    hidden behind a default.  Machine integers are [Z] with the
    wrap-around of their width written out; bytes are [Z] in [0, 256); a
    pointer into a buffer is an offset; linked cells and channels are indices
    into a heap or table.  [zoom] runs a program on a part of a larger state.
    The predicates [wp] (no fault) and [twp] (no fault and no exit) give the
    safety theorems, equations of the form [f s = Ok (a, s')] the functional
    ones.

    ** The files

    _Foundations._ Prelude (this file): outcomes, the state monad, integers,
    byte strings, [wp].  Dbutil (dbutil.c): allocation and comparison.

    _Data structures._ Buffer (buffer.c): the packet buffer; the relation
    [repr] states what bytes lie before and after the read position, and each
    put and get has its law against it.  CircBuffer (circbuffer.c) refines a
    FIFO of bytes.  Queue (queue.c): linked cells in a heap, refining a list
    through the classes QueueOps and QueueLaws, against which packet.c is
    verified.  MList (list.c): doubly linked cells, many lists in one heap,
    refining sequences through MListOps and MListLaws.  Mpint (buffer.c, libtommath): numbers in packets.

    _Cryptography._ Cipher: CBC, CTR and the void cipher over the class
    BlockCipher, promising [CipherMode] to the packet layer.  Aes, AesTab,
    AesFips, AesKey (aes.c, aes_tab.c): AES with its tables, equal to FIPS
    197, an instance of BlockCipher.  Hmac (hmac and hash_memory) over the
    class HashDescriptors, equal to RFC 2104.  MdHash, Sha1, Md5 (sha1.c,
    md5.c, tomcrypt_hash.h): both compression variants, equal to FIPS 180 and
    RFC 1321.  Hashes: the descriptor tables and crypto_init.  Bignum
    (libtommath): reduction and the modular inverse with its two loops.
    Digits, Redux, Exptmod (libtommath): the partial products on arrays of
    digits, the Montgomery, diminished radix, power-of-two and Barrett
    reductions, and the sliding-window exponentiation over them, which
    implements the class Kex.ExptMod (Exptmod.libtommath_exptmod).
    SignCommon, Dss, Rsa, SignKey (dss.c, rsa.c, signkey.c): keys and
    signatures.  Base64 (base64_encode.c, base64_decode.c, cmp_base64_key).

    _The protocol._ Ssh (ssh.h, session.h, sysoptions.h): numbers and limits.
    Algo (common-algo.c): lists of algorithms and matching.  Packet,
    PacketRecv, Transport, Compress (packet.c): both directions of the packet
    layer and two connected sessions.  Channel, ChannelSafe, ChannelSelect
    (common-channel.c): the multiplexer.  Kex, KexKeys, KexHash, KexNegotiate,
    KexSafe (common-kex.c, svr-kex.c, cli-kex.c, process-packet.c): the key
    exchange.  HostKey: signkey.c as an instance of the class Kex.SignKey, and
    the authentication of the server in the exchange.  AuthKeys, SvrAuth
    (svr-auth.c, svr-authpasswd.c, svr-authpubkey.c, svr-authpubkeyoptions.c,
    svr-service.c): the server's authentication of users.  KnownHosts
    (checkhostkey of cli-kex.c): the client's file of host keys.  CliAuth
    (cli-auth.c, cli-authpubkey.c, cli-authpasswd.c, cli-authinteract.c, the
    agent of cli-agentfwd.c, the login part of cli-session.c): the client's.
    CliLogin: a client and a server in one conversation.

    _The test programs._ Timing (timing.c), Pendulum (data.c, the evaluation),
    Mbox (the interface of ReconOS mailboxes), PendulumMain
    (single_pendulum_simple.c) and MboxPutGet (mbox_put_get.c): threads as
    transition systems in which every interleaving of mailbox calls is a path.

    ** How the parts interact

    Packet uses Buffer for every packet, Queue for those that wait for the
    socket, Cipher, Hmac and zlib through classes.  Kex builds its messages
    with Buffer and Mpint, takes algorithms from Algo, and switches the keys
    that Packet uses; its operations on host keys are the class Kex.SignKey,
    which the functions of SignKey.v implement (HostKey.dropbear_signkey) and
    whose check of a host key is KnownHosts.checkhostkey (KnownHosts.checking);
    mp_exptmod is the class Kex.ExptMod, implemented in Exptmod.v; the random
    generator and zlib are classes with the laws the code relies on.
    Kex and Channel see of encrypt_packet what it does for its callers (it
    takes the payload and clears the buffer), which Packet.encrypt_packet_ok
    and Packet.encrypt_packet_gated prove of the detailed function.  The
    handlers of a channel type are functions on the session with the laws
    Channel.type_ok, as struct ChanType holds function pointers.  SvrAuth
    verifies signatures with SignKey, finds keys with AuthKeys and Base64, and
    draws its delay from the random generator.  CliAuth keeps the user's keys in
    a list it sees through the interface of MList and signs with SignKey; the
    terminal and the environment are part of its state, the agent is the class
    ClientSystem.  CliLogin hands the messages that CliAuth sends to the
    handlers of SvrAuth and the answers back.

    ** What the theorems show

    - memory safety: buffers (Buffer.buffer_operations_safe), the channel
      table (ChannelSafe.channels_safe), a server's session through the key
      exchange for any packets received (KexSafe.server_session_safe, with
      the packets excluded that do crash it), algorithm lists;
    - refinement of an abstract data type: CircBuffer.cbuf_fifo,
      Queue.queue_refines_list, MList.lists_refine;
    - equality with the standards: AES, SHA-1, MD5, HMAC, the keys of RFC
      4253, the exchange hash;
    - round trips: buffer fields, mpints, cipher streams, public keys,
      signatures, base64;
    - modular exponentiation: mp_exptmod is the power for every modulus its
      reductions are right for, the moduli of the Diffie-Hellman groups
      included, with the two-digit moduli for which it is not;
    - authentication of the server: an honest reply is accepted and leaves
      both sides with one secret, and an accepted reply carries a signature
      of the exchange hash under the host key shown, which known_hosts lists
      first for the host or the user accepted; a key accepted once is known
      from then on;
    - authentication of users: a server lets nobody in without credentials;
      a client with a listed key among others, or whose user types the right
      password before the tenth failure, ends up logged in on both sides, in
      the number of rounds stated; of a banner the client shows what cannot
      control the terminal;
    - composition of two sides: packets are delivered in order through any
      fragmentation, both sides negotiate the same algorithms, agree on the
      exchange hash and derive the same keys;
    - the mailbox programs: no deadlock, the results of every interleaving,
      and termination;
    - behaviour at the edges: errors of verification, loops that do not end,
      and reads past a buffer, each with the input that reaches it.

    ** Fuel and bounds

    A loop over a buffer or list is structural or runs for its length.
    mp_invmod runs its binary Euclidean loops for a number of rounds that
    Bignum.invmod_enough proves sufficient whenever the C loop ends, and
    Bignum.invmod_hangs is the case in which it does not.  Rejection sampling
    (gen_random_mpint) runs over a sequence of draws; a claim about its
    result names the draw that is accepted.  The diminished radix and power-of-two
    reductions of x repeat [rounds x] = log2 x + 6 times and the final
    subtractions of Barrett's reduction [um + 5] times, both proved enough.  buf_decompress consumes output
    per turn and runs for the bound of the payload; reading from a file
    (buf_getline) runs for the length of the file.  A walk along a list
    (MList.walk) runs for the number of cells in the heap, which
    MList.stretch_size proves enough; freeing the keys (CliAuth.free_keys) for
    the number of keys.

    ** What is not modelled

    Operating-system work: sockets, pseudo-terminals, processes, login
    records, command lines, prompts and files, apart from what a modelled
    function takes from them as an argument.  The digits of
    libtommath's addition, subtraction, shifts, full products and division: an
    mp_int is the number it stands for outside the partial products and the
    reductions, which Digits.v and Redux.v run on arrays of 28-bit digits.
    The random generator's pool.  zlib (a library the sources only call).
    The block ciphers other than AES, of which the code uses the interface
    that AES implements.  libtomcrypt's hashes, modes and public-key code that
    dropbear does not call.  buffer and key freeing, where no state is left to
    describe.  The askpass helper (off in the configuration), forwarding and
    the channel types, the session's set-up and key files.  Mehari's LLVM passes (C++), build tasks (Groovy) and VHDL. *)

(** ** Shared vocabulary

    C outcomes and the state monad the operations are written in,
    machine-width integers, byte strings addressed by Z, big-endian words, and
    the weakest-precondition calculus the components' safety proofs use. *)

From stdpp Require Export base tactics numbers list relations.
From Stdlib Require Export ZArith Lia String.
From stdpp Require Export strings.

#[export] Set Default Goal Selector "!".

Open Scope Z_scope.

(** ** Outcomes of a C call

    [Ok] is a normal return, [Exit] is a call of [dropbear_exit] (or of
    [exit]) and [Fault] is an access the C standard leaves undefined: an
    out-of-bounds read or write, a null pointer dereference or a division by
    zero.  The model never hides a fault behind a default value. *)

Inductive res (A : Type) : Type :=
| Ok (a : A)
| Exit (msg : string)
| Fault (what : string).
Arguments Ok {A} a.
Arguments Exit {A} msg.
Arguments Fault {A} what.

(** A computation over a mutable state [S]. *)
Definition prog (S A : Type) : Type := S -> res (A * S).

Declare Scope prog_scope.
Delimit Scope prog_scope with prog.
Bind Scope prog_scope with prog.

Definition ret {S A} (a : A) : prog S A := fun s => Ok (a, s).

Definition bind {S A B} (m : prog S A) (k : A -> prog S B) : prog S B :=
  fun s =>
    match m s with
    | Ok (a, s') => k a s'
    | Exit e => Exit e
    | Fault e => Fault e
    end.

Notation "x <- m ;; k" := (bind m (fun x => k))
  (at level 100, m at next level, right associativity) : prog_scope.
Notation "m ;;; k" := (bind m (fun _ => k))
  (at level 100, right associativity) : prog_scope.

Definition dropbear_exit {S A} (msg : string) : prog S A := fun _ => Exit msg.
Definition fault {S A} (what : string) : prog S A := fun _ => Fault what.
Definition gets {S A} (f : S -> A) : prog S A := fun s => Ok (f s, s).
Definition modify {S} (f : S -> S) : prog S unit := fun s => Ok (tt, f s).

(** [if (c) { m }] *)
Definition when {S} (c : bool) (m : prog S unit) : prog S unit :=
  if c then m else ret tt.

(** [dropbear_assert(c)]: a failed assertion calls [dropbear_exit]. *)
Definition dropbear_assert {S} (c : bool) : prog S unit :=
  if c then ret tt else dropbear_exit "Failed assertion".

(** Run a computation on a part of the state. *)
Definition zoom {S T A} (get : S -> T) (set : T -> S -> S) (m : prog T A) : prog S A :=
  fun s =>
    match m (get s) with
    | Ok (a, t) => Ok (a, set t s)
    | Exit e => Exit e
    | Fault e => Fault e
    end.

(** A pointer that may be null, followed by a dereference. *)
Definition deref {S A} (o : option A) : prog S A :=
  match o with
  | Some a => ret a
  | None => fault "null pointer"
  end.

(** ** Machine integers *)

Definition u8 (x : Z) : Z := x mod 2 ^ 8.
Definition u32 (x : Z) : Z := x mod 2 ^ 32.

(** Two's complement reading of the low 32 bits, the value of [(int) x]. *)
Definition s32 (x : Z) : Z :=
  let y := x mod 2 ^ 32 in if y <? 2 ^ 31 then y else y - 2 ^ 32.

Arguments u8 : simpl never.
Arguments u32 : simpl never.
Arguments s32 : simpl never.

Definition is_byte (x : Z) : Prop := 0 <= x < 256.
Definition is_u32 (x : Z) : Prop := 0 <= x < 2 ^ 32.

#[export] Instance is_byte_dec x : Decision (is_byte x).
Proof. unfold is_byte; apply _. Defined.
#[export] Instance is_u32_dec x : Decision (is_u32 x).
Proof. unfold is_u32; apply _. Defined.

Lemma u32_small x : is_u32 x -> u32 x = x.
Proof. intros H. apply Z.mod_small. exact H. Qed.

Lemma u32_range x : is_u32 (u32 x).
Proof. apply Z.mod_pos_bound. lia. Qed.

Lemma u32_idemp x : u32 (u32 x) = u32 x.
Proof. apply u32_small, u32_range. Qed.

Lemma u8_small x : is_byte x -> u8 x = x.
Proof. intros H. apply Z.mod_small. exact H. Qed.

Lemma u8_range x : is_byte (u8 x).
Proof. apply Z.mod_pos_bound. lia. Qed.

Lemma s32_small x : - 2 ^ 31 <= x < 2 ^ 31 -> s32 x = x.
Proof.
  intros H. unfold s32.
  destruct (Z.ltb_spec (x mod 2 ^ 32) (2 ^ 31)) as [Hl|Hl];
    Z.div_mod_to_equations; lia.
Qed.

(** The wrap-around of an addition of two 32-bit unsigned values. *)
Lemma u32_add_overflow x y :
  is_u32 x -> is_u32 y -> u32 (x + y) = if x + y <? 2 ^ 32 then x + y else x + y - 2 ^ 32.
Proof.
  unfold is_u32, u32. intros Hx Hy.
  destruct (Z.ltb_spec (x + y) (2 ^ 32)); Z.div_mod_to_equations; lia.
Qed.

Create HintDb mach.
#[export] Hint Resolve u32_range u8_range : mach.

(** ** Lists addressed by Z, as C addresses an array *)

Section ZList.
Context {A : Type}.
Implicit Types (l k : list A) (i n off : Z).

(** [l[i]], absent when [i] is outside the array. *)
Definition zget (l : list A) (i : Z) : option A :=
  if 0 <=? i then l !! Z.to_nat i else None.

(** The array with [l[i] = x] stored; callers check the bound first. *)
Definition zset (l : list A) (i : Z) (x : A) : list A :=
  if 0 <=? i then <[Z.to_nat i := x]> l else l.

Definition zlen (l : list A) : Z := Z.of_nat (length l).
Definition ztake (n : Z) (l : list A) : list A := take (Z.to_nat n) l.
Definition zdrop (n : Z) (l : list A) : list A := drop (Z.to_nat n) l.

(** The [n] cells starting at [off]. *)
Definition zslice (off n : Z) (l : list A) : list A := ztake n (zdrop off l).

(** [memcpy (l + off, bs, |bs|)] into an array that has the room. *)
Definition splice (off : Z) (bs l : list A) : list A :=
  ztake off l ++ bs ++ zdrop (off + zlen bs) l.

Lemma zlen_nonneg l : 0 <= zlen l.
Proof. unfold zlen. lia. Qed.

Lemma zlen_nil : zlen (@nil A) = 0.
Proof. reflexivity. Qed.

Lemma zlen_cons x l : zlen (x :: l) = 1 + zlen l.
Proof. unfold zlen. simpl. lia. Qed.

Lemma zlen_0_inv l : zlen l = 0 -> l = [].
Proof. destruct l; [done|]. unfold zlen. cbn. lia. Qed.

Lemma zlen_app l k : zlen (l ++ k) = zlen l + zlen k.
Proof. unfold zlen. rewrite length_app. lia. Qed.

Lemma zlen_ztake n l : 0 <= n <= zlen l -> zlen (ztake n l) = n.
Proof. unfold zlen, ztake. intros. rewrite length_take. lia. Qed.

Lemma zlen_zdrop n l : 0 <= n <= zlen l -> zlen (zdrop n l) = zlen l - n.
Proof. unfold zlen, zdrop. intros. rewrite length_drop. lia. Qed.

Lemma zlen_zslice off n l :
  0 <= off -> 0 <= n -> off + n <= zlen l -> zlen (zslice off n l) = n.
Proof. intros. unfold zslice. rewrite zlen_ztake; [done|]. rewrite zlen_zdrop; lia. Qed.

Lemma zlen_splice off (bs : list A) l :
  0 <= off -> off + zlen bs <= zlen l -> zlen (splice off bs l) = zlen l.
Proof.
  intros. unfold splice. pose proof (zlen_nonneg bs).
  rewrite !zlen_app, zlen_ztake, zlen_zdrop; lia.
Qed.

Lemma zlen_zset l i x : zlen (zset l i x) = zlen l.
Proof. unfold zlen, zset. case_match; [by rewrite length_insert|done]. Qed.

Lemma zlen_zero_inv l : zlen l = 0 -> l = [].
Proof. destruct l; [done|]. rewrite zlen_cons. pose proof (zlen_nonneg l). lia. Qed.

Lemma ztake_zdrop n l : ztake n l ++ zdrop n l = l.
Proof. apply take_drop. Qed.

Lemma ztake_all l : ztake (zlen l) l = l.
Proof. unfold ztake, zlen. by rewrite Nat2Z.id, firstn_all. Qed.

Lemma ztake_ge n l : zlen l <= n -> ztake n l = l.
Proof. unfold zlen, ztake. intros Hn. apply take_ge. lia. Qed.

Lemma zdrop_0 l : zdrop 0 l = l.
Proof. reflexivity. Qed.

Lemma ztake_0 l : ztake 0 l = [].
Proof. reflexivity. Qed.

Lemma zdrop_all l : zdrop (zlen l) l = [].
Proof. unfold zdrop, zlen. by rewrite Nat2Z.id, drop_all. Qed.

Lemma ztake_app_zlen l k : ztake (zlen l) (l ++ k) = l.
Proof. unfold ztake, zlen. by rewrite Nat2Z.id, take_app_length. Qed.

Lemma zdrop_app_zlen l k : zdrop (zlen l) (l ++ k) = k.
Proof. unfold zdrop, zlen. by rewrite Nat2Z.id, drop_app_length. Qed.

Lemma ztake_app_le n l k : n <= zlen l -> ztake n (l ++ k) = ztake n l.
Proof. unfold ztake, zlen. intros. apply take_app_le. lia. Qed.

Lemma zdrop_app_le n l k : n <= zlen l -> zdrop n (l ++ k) = zdrop n l ++ k.
Proof. unfold zdrop, zlen. intros. apply drop_app_le. lia. Qed.

Lemma ztake_app_ge n l k : zlen l <= n -> ztake n (l ++ k) = l ++ ztake (n - zlen l) k.
Proof. unfold zlen, ztake. intros Hn. rewrite take_app_ge by lia. do 2 f_equal. lia. Qed.

Lemma zdrop_app_ge n l k :
  zlen l <= n -> zdrop n (l ++ k) = zdrop (n - zlen l) k.
Proof.
  unfold zdrop, zlen. intros. rewrite drop_app_ge by lia. f_equal. lia.
Qed.

Lemma app_inj_zlen l1 l2 k1 k2 : l1 ++ k1 = l2 ++ k2 -> zlen l1 = zlen l2 -> l1 = l2.
Proof. unfold zlen. intros E Hz. by apply app_inj_1 in E as [? _]; [|lia]. Qed.

Lemma ztake_ztake a b l : a <= b -> ztake a (ztake b l) = ztake a l.
Proof. intros. unfold ztake. rewrite take_take. f_equal. lia. Qed.

Lemma zdrop_zdrop a b l : 0 <= a -> 0 <= b -> zdrop a (zdrop b l) = zdrop (a + b) l.
Proof. intros. unfold zdrop. rewrite drop_drop. f_equal. lia. Qed.

Lemma zget_Some_range l i x : zget l i = Some x -> 0 <= i < zlen l.
Proof.
  unfold zget, zlen. case_match; [|done]. intros Hl%lookup_lt_Some. lia.
Qed.

Lemma zget_is_Some l i : 0 <= i < zlen l -> is_Some (zget l i).
Proof.
  unfold zget, zlen. intros. rewrite Zle_imp_le_bool by lia.
  apply lookup_lt_is_Some. lia.
Qed.

Lemma zget_mid l x k : zget (l ++ x :: k) (zlen l) = Some x.
Proof.
  unfold zget, zlen. rewrite Zle_imp_le_bool by lia.
  rewrite Nat2Z.id. apply list_lookup_middle. done.
Qed.

Lemma zset_mid l x y k : zset (l ++ x :: k) (zlen l) y = l ++ y :: k.
Proof.
  unfold zset, zlen. rewrite Zle_imp_le_bool by lia. rewrite Nat2Z.id.
  rewrite insert_app_r_alt by lia. by rewrite Nat.sub_diag.
Qed.

Lemma zget_split l i x :
  zget l i = Some x -> l = ztake i l ++ x :: zdrop (i + 1) l /\ zlen (ztake i l) = i.
Proof.
  intros Hx. pose proof (zget_Some_range _ _ _ Hx) as Hi.
  split; [|apply zlen_ztake; lia].
  unfold zget in Hx. case_match; [|done].
  rewrite <-(ztake_zdrop i l) at 1. f_equal.
  unfold zdrop. rewrite (drop_S _ _ _ Hx). do 2 f_equal. lia.
Qed.

Lemma zget_zset_eq l i x : 0 <= i < zlen l -> zget (zset l i x) i = Some x.
Proof.
  unfold zget, zset, zlen. intros. rewrite Zle_imp_le_bool by lia. apply list_lookup_insert_eq. lia.
Qed.

Lemma zget_zset_ne l i j x : i <> j -> zget (zset l i x) j = zget l j.
Proof.
  unfold zget, zset. intros. destruct (Z.leb_spec 0 i), (Z.leb_spec 0 j); try done.
  apply list_lookup_insert_ne. lia.
Qed.

Lemma zset_zset l i x y : zset (zset l i x) i y = zset l i y.
Proof. unfold zset. destruct (0 <=? i); [|done]. apply list_insert_insert_eq. Qed.

Lemma zset_splice l i x : 0 <= i < zlen l -> zset l i x = splice i [x] l.
Proof.
  intros Hi. destruct (zget_is_Some l i Hi) as [y Hy].
  destruct (zget_split _ _ _ Hy) as [Hl Hn].
  pose proof (zset_mid (ztake i l) y x (zdrop (i + 1) l)) as Hs.
  rewrite Hn, <-Hl in Hs. exact Hs.
Qed.

Lemma zslice_app l m k : zslice (zlen l) (zlen m) (l ++ m ++ k) = m.
Proof. unfold zslice. rewrite zdrop_app_zlen. apply ztake_app_zlen. Qed.

Lemma splice_app l (bs m : list A) k :
  zlen bs = zlen m -> splice (zlen l) bs (l ++ m ++ k) = l ++ bs ++ k.
Proof.
  intros Hm. unfold splice. rewrite ztake_app_zlen, Hm.
  by rewrite <-zlen_app, (app_assoc l m k), zdrop_app_zlen.
Qed.

Lemma Forall_ztake (P : A -> Prop) n l : Forall P l -> Forall P (ztake n l).
Proof. apply Forall_take. Qed.

Lemma Forall_zdrop (P : A -> Prop) n l : Forall P l -> Forall P (zdrop n l).
Proof. apply Forall_drop. Qed.

Lemma Forall_zslice (P : A -> Prop) off n l : Forall P l -> Forall P (zslice off n l).
Proof. intros. by apply Forall_ztake, Forall_zdrop. Qed.

Lemma Forall_splice (P : A -> Prop) off bs l :
  Forall P bs -> Forall P l -> Forall P (splice off bs l).
Proof.
  intros. unfold splice.
  apply Forall_app_2; [by apply Forall_ztake|].
  apply Forall_app_2; [done|by apply Forall_zdrop].
Qed.

Lemma Forall_zget (P : A -> Prop) l i x : Forall P l -> zget l i = Some x -> P x.
Proof.
  unfold zget. case_match; [|done]. intros Hl Hi.
  by eapply Forall_lookup_1.
Qed.

Lemma zget_ztake n l i : zget (ztake n l) i = if i <? n then zget l i else None.
Proof.
  unfold zget, ztake. destruct (Z.leb_spec 0 i), (Z.ltb_spec i n); try done.
  - apply lookup_take_lt. lia.
  - apply lookup_take_ge. lia.
Qed.

Lemma zget_zdrop n l i : 0 <= n -> 0 <= i -> zget (zdrop n l) i = zget l (n + i).
Proof.
  intros. unfold zget, zdrop.
  rewrite (proj2 (Z.leb_le 0 i)), (proj2 (Z.leb_le 0 (n + i))) by lia.
  rewrite lookup_drop. f_equal. lia.
Qed.

Lemma zget_app l k i : 0 <= i -> zget (l ++ k) i = if i <? zlen l then zget l i else zget k (i - zlen l).
Proof.
  intros. unfold zget, zlen. rewrite (proj2 (Z.leb_le 0 i)) by lia.
  destruct (Z.ltb_spec i (Z.of_nat (length l))).
  - apply lookup_app_l. lia.
  - rewrite (proj2 (Z.leb_le _ _)) by lia. rewrite lookup_app_r by lia. f_equal. lia.
Qed.

Lemma zget_splice off (bs : list A) l i :
  0 <= off -> off + zlen bs <= zlen l -> 0 <= i ->
  zget (splice off bs l) i =
  if (off <=? i) && (i <? off + zlen bs) then zget bs (i - off) else zget l i.
Proof.
  intros Ho Hb Hi. pose proof (zlen_nonneg bs). unfold splice.
  rewrite zget_app, zlen_ztake, zget_ztake by lia.
  destruct (Z.leb_spec off i), (Z.ltb_spec i off); try lia; simpl; [|done].
  rewrite zget_app by lia.
  destruct (Z.ltb_spec i (off + zlen bs)), (Z.ltb_spec (i - off) (zlen bs)); try lia; [done|].
  rewrite zget_zdrop by lia. f_equal. lia.
Qed.

Lemma zlist_eq l k :
  zlen l = zlen k -> (forall i, 0 <= i < zlen l -> zget l i = zget k i) -> l = k.
Proof.
  intros Hl Hi. apply list_eq. intros i. unfold zlen in *.
  destruct (decide (i < length l)%nat).
  - specialize (Hi (Z.of_nat i) ltac:(lia)). unfold zget in Hi.
    by rewrite (proj2 (Z.leb_le 0 (Z.of_nat i))), Nat2Z.id in Hi by lia.
  - rewrite !lookup_ge_None_2 by lia. done.
Qed.
End ZList.

Create HintDb zlist.
Create Rewrite HintDb zlist.
#[export] Hint Rewrite @zlen_nil @zlen_cons @zlen_app : zlist.
#[export] Hint Rewrite @zlen_zset @zdrop_0 @ztake_0 : zlist.
#[export] Hint Resolve zlen_nonneg : zlist.
#[export] Hint Resolve Forall_ztake Forall_zdrop Forall_zslice Forall_splice : zlist.

(** Normalise list lengths, then linear arithmetic. *)
Ltac zlia :=
  autorewrite with zlist in *;
  repeat match goal with
         | |- context [zlen ?l] =>
             lazymatch goal with
             | _ : 0 <= zlen l |- _ => fail
             | _ => pose proof (zlen_nonneg l)
             end
         | H : context [zlen ?l] |- _ =>
             lazymatch goal with
             | _ : 0 <= zlen l |- _ => fail
             | _ => pose proof (zlen_nonneg l)
             end
         end; lia.

(** ** Byte strings and 32-bit big-endian words *)

Abbreviation bytes := (Forall is_byte).

(** [STORE32H] of libtomcrypt's tomcrypt_macros.h. *)
Definition store32h (x : Z) : list Z :=
  [Z.land (Z.shiftr x 24) 255; Z.land (Z.shiftr x 16) 255;
   Z.land (Z.shiftr x 8) 255; Z.land x 255].

(** [LOAD32H] of four bytes. *)
Definition load32h (b0 b1 b2 b3 : Z) : Z :=
  Z.lor (Z.lor (Z.shiftl (Z.land b0 255) 24) (Z.shiftl (Z.land b1 255) 16))
        (Z.lor (Z.shiftl (Z.land b2 255) 8) (Z.land b3 255)).

Lemma land_255 x : Z.land x 255 = x mod 256.
Proof. exact (Z.land_ones x 8 ltac:(lia)). Qed.

Lemma store32h_bytes x : bytes (store32h x).
Proof.
  unfold store32h. repeat constructor; rewrite ?land_255;
    apply Z.mod_pos_bound; lia.
Qed.

Lemma zlen_store32h x : zlen (store32h x) = 4.
Proof. reflexivity. Qed.

(** Disjoint bit fields: [or] is addition. *)
Lemma lor_add_shift a b k : 0 <= k -> 0 <= b < 2 ^ k -> Z.lor (Z.shiftl a k) b = a * 2 ^ k + b.
Proof.
  intros Hk Hb. rewrite Z.shiftl_mul_pow2 by lia.
  pose proof (Z.add_lor_land (a * 2 ^ k) b) as Hadd.
  replace (Z.land (a * 2 ^ k) b) with 0 in Hadd; [lia|].
  symmetry. rewrite <-Z.shiftl_mul_pow2 by lia.
  apply Z.bits_inj'. intros i Hi. rewrite Z.land_spec, Z.bits_0.
  destruct (Z.ltb_spec i k).
  - by rewrite Z.shiftl_spec_low by lia.
  - rewrite <-(Z.mod_small b (2 ^ k)) by done.
    rewrite Z.mod_pow2_bits_high by lia. apply andb_false_r.
Qed.

Lemma load32h_val b0 b1 b2 b3 :
  is_byte b0 -> is_byte b1 -> is_byte b2 -> is_byte b3 ->
  load32h b0 b1 b2 b3 = b0 * 2 ^ 24 + b1 * 2 ^ 16 + b2 * 2 ^ 8 + b3.
Proof.
  unfold is_byte. intros. unfold load32h. rewrite !land_255, !Z.mod_small by lia.
  rewrite (lor_add_shift b2 b3 8) by lia.
  rewrite <-Z.lor_assoc, (lor_add_shift b1 _ 16) by lia.
  rewrite (lor_add_shift b0 _ 24); lia.
Qed.

Lemma load32h_range b0 b1 b2 b3 :
  is_byte b0 -> is_byte b1 -> is_byte b2 -> is_byte b3 -> is_u32 (load32h b0 b1 b2 b3).
Proof.
  intros. rewrite load32h_val by done. unfold is_byte, is_u32 in *. lia.
Qed.

(** An array access that is known to be in bounds. *)
Definition znth (l : list Z) (i : Z) : Z := default 0 (zget l i).

(** The C string at the start of [l]: what comes before the first zero.
    [strcmp(a, b) == 0] is equality of the C strings. *)
Fixpoint c_string (l : list Z) : list Z :=
  match l with
  | [] => []
  | x :: l => if x =? 0 then [] else x :: c_string l
  end.

Lemma c_string_terminated m l : 0 ∉ m -> c_string (m ++ 0 :: l) = m.
Proof.
  induction m as [|x m IH]; intros Hm; [done|]. apply not_elem_of_cons in Hm as [Hx Hm].
  cbn. rewrite (proj2 (Z.eqb_neq x 0)) by done. by rewrite IH.
Qed.

Lemma c_string_id m : 0 ∉ m -> c_string m = m.
Proof.
  induction m as [|x m IH]; intros Hm; [done|]. apply not_elem_of_cons in Hm as [Hx Hm].
  cbn. rewrite (proj2 (Z.eqb_neq x 0)) by done. by rewrite IH.
Qed.

(** The value [LOAD32H] reads from the first four bytes of a string. *)
Definition load32h_list (l : list Z) : option Z :=
  match l with
  | b0 :: b1 :: b2 :: b3 :: _ => Some (load32h b0 b1 b2 b3)
  | _ => None
  end.

Lemma load32h_store32h x l : is_u32 x -> load32h_list (store32h x ++ l) = Some x.
Proof.
  intros Hx. unfold store32h, load32h_list. cbn [app]. f_equal.
  rewrite !land_255, !Z.shiftr_div_pow2 by lia.
  rewrite load32h_val by (apply Z.mod_pos_bound; lia).
  unfold is_u32 in Hx. Z.div_mod_to_equations. lia.
Qed.

Lemma load32h_store32h_nil x : is_u32 x -> load32h_list (store32h x) = Some x.
Proof. intros Hx. by rewrite <-(load32h_store32h x [] Hx), app_nil_r. Qed.

Lemma store32h_inj x y : is_u32 x -> is_u32 y -> store32h x = store32h y -> x = y.
Proof.
  intros Hx Hy E. pose proof (load32h_store32h x [] Hx) as H1.
  rewrite E, load32h_store32h in H1 by done. congruence.
Qed.

Lemma load32h_list_4 l :
  bytes l -> zlen l = 4 -> exists v, load32h_list l = Some v /\ is_u32 v /\ l = store32h v.
Proof.
  intros Hb Hl. destruct l as [|b0 [|b1 [|b2 [|b3 [|]]]]];
    try (exfalso; zlia).
  repeat match goal with H : bytes (_ :: _) |- _ => apply Forall_cons_1 in H as [? H] end.
  exists (load32h b0 b1 b2 b3). split; [done|]. split; [by apply load32h_range|].
  rewrite load32h_val by done. unfold store32h, is_byte in *.
  rewrite !land_255, !Z.shiftr_div_pow2 by lia.
  repeat f_equal; Z.div_mod_to_equations; lia.
Qed.

(** ** Weakest preconditions

    [wp m Q s]: run from [s], [m] does not fault, and a normal return
    satisfies [Q]; a deliberate exit is allowed.  [twp] also excludes exits. *)

Definition wp {S A} (m : prog S A) (Q : A -> S -> Prop) (s : S) : Prop :=
  match m s with
  | Ok (a, s') => Q a s'
  | Exit _ => True
  | Fault _ => False
  end.

Definition twp {S A} (m : prog S A) (Q : A -> S -> Prop) (s : S) : Prop :=
  match m s with
  | Ok (a, s') => Q a s'
  | _ => False
  end.

Section WP.
Context {S : Type}.
Implicit Types s : S.

Lemma wp_ret {A} (a : A) Q s : Q a s -> wp (ret a) Q s.
Proof. done. Qed.

Lemma wp_bind {A B} (m : prog S A) (k : A -> prog S B) Q s :
  wp m (fun a s' => wp (k a) Q s') s -> wp (bind m k) Q s.
Proof. unfold wp, bind. destruct (m s) as [[a s']| |]; done. Qed.

Lemma wp_exit {A} msg (Q : A -> S -> Prop) s : wp (dropbear_exit msg) Q s.
Proof. done. Qed.

Lemma wp_gets {A} (f : S -> A) Q s : Q (f s) s -> wp (gets f) Q s.
Proof. done. Qed.

Lemma wp_modify (f : S -> S) Q s : Q tt (f s) -> wp (modify f) Q s.
Proof. done. Qed.

Lemma wp_when c (m : prog S unit) Q s :
  (c = true -> wp m Q s) -> (c = false -> Q tt s) -> wp (when c m) Q s.
Proof. destruct c; [intros H _|intros _ H]; by apply H. Qed.

Lemma wp_assert c Q s : (c = true -> Q tt s) -> wp (dropbear_assert c) Q s.
Proof. destruct c; [|done]. intros H. by apply H. Qed.

Lemma wp_mono {A} (m : prog S A) (Q Q' : A -> S -> Prop) s :
  wp m Q s -> (forall a s', Q a s' -> Q' a s') -> wp m Q' s.
Proof. unfold wp. destruct (m s) as [[a s']| |]; auto. Qed.

Lemma wp_zoom {T A} get set (m : prog T A) Q s :
  wp m (fun a t => Q a (set t s)) (get s) -> wp (@zoom S T A get set m) Q s.
Proof. unfold wp, zoom. destruct (m (get s)) as [[a t]| |]; done. Qed.

(** A safe computation that returns has its postcondition. *)
Lemma wp_ok {A} (m : prog S A) Q s a s' : wp m Q s -> m s = Ok (a, s') -> Q a s'.
Proof. unfold wp. intros H E. by rewrite E in H. Qed.

Lemma wp_no_fault {A} (m : prog S A) Q s e : wp m Q s -> m s <> Fault e.
Proof. unfold wp. intros H E. by rewrite E in H. Qed.
End WP.

Lemma bind_ok {S A B} (m : prog S A) (k : A -> prog S B) s a s' :
  m s = Ok (a, s') -> bind m k s = k a s'.
Proof. unfold bind. by intros ->. Qed.

Lemma bind_exit {S A B} (m : prog S A) (k : A -> prog S B) s e :
  m s = Exit e -> bind m k s = Exit e.
Proof. unfold bind. by intros ->. Qed.

Lemma bind_fault {S A B} (m : prog S A) (k : A -> prog S B) s e :
  m s = Fault e -> bind m k s = Fault e.
Proof. unfold bind. by intros ->. Qed.

Lemma bind_inv {S A B} (m : prog S A) (k : A -> prog S B) s b s'' :
  bind m k s = Ok (b, s'') -> exists a s', m s = Ok (a, s') /\ k a s' = Ok (b, s'').
Proof. unfold bind. destruct (m s) as [[a s']| |]; try done. eauto. Qed.

Lemma zoom_ok {S T A} get set (m : prog T A) (s : S) a t :
  m (get s) = Ok (a, t) -> zoom get set m s = Ok (a, set t s).
Proof. unfold zoom. by intros ->. Qed.

(** ** Total correctness *)

Section TWP.
Context {S : Type}.
Implicit Types s : S.

Lemma twp_ret {A} (a : A) Q s : Q a s -> twp (ret a) Q s.
Proof. done. Qed.

Lemma twp_bind {A B} (m : prog S A) (k : A -> prog S B) Q s :
  twp m (fun a s' => twp (k a) Q s') s -> twp (bind m k) Q s.
Proof. unfold twp, bind. destruct (m s) as [[a s']| |]; done. Qed.

Lemma twp_gets {A} (f : S -> A) Q s : Q (f s) s -> twp (gets f) Q s.
Proof. done. Qed.

Lemma twp_modify (f : S -> S) Q s : Q tt (f s) -> twp (modify f) Q s.
Proof. done. Qed.

Lemma twp_mono {A} (m : prog S A) (Q Q' : A -> S -> Prop) s :
  twp m Q s -> (forall a s', Q a s' -> Q' a s') -> twp m Q' s.
Proof. unfold twp. destruct (m s) as [[a s']| |]; auto. Qed.

Lemma twp_zoom {T A} get set (m : prog T A) Q s :
  twp m (fun a t => Q a (set t s)) (get s) -> twp (@zoom S T A get set m) Q s.
Proof. unfold twp, zoom. destruct (m (get s)) as [[a t]| |]; done. Qed.

Lemma twp_deref {A} (a : A) Q s : Q a s -> twp (deref (Some a)) Q s.
Proof. done. Qed.

(** A computation with a known result. *)
Lemma twp_ok {A} (m : prog S A) Q s a s' : m s = Ok (a, s') -> Q a s' -> twp m Q s.
Proof. unfold twp. by intros ->. Qed.

Lemma twp_ex {A} (m : prog S A) Q s : twp m Q s -> exists a s', m s = Ok (a, s') /\ Q a s'.
Proof. unfold twp. destruct (m s) as [[a s']| |]; [|done..]. by exists a, s'. Qed.
End TWP.

Ltac twp_step :=
  lazymatch goal with
  | |- twp (bind _ _) _ _ => apply twp_bind
  | |- twp (ret _) _ _ => apply twp_ret
  | |- twp (gets _) _ _ => apply twp_gets
  | |- twp (modify _) _ _ => apply twp_modify
  | |- twp (deref (Some _)) _ _ => apply twp_deref
  | |- twp (zoom _ _ _) _ _ => apply twp_zoom
  end.
Ltac twp_steps := repeat (twp_step; cbn beta).

(** ** Partial correctness

    [pc m Q s]: a normal return of [m] from [s] satisfies [Q]; [m] may also
    fault. *)

Definition pc {S A} (m : prog S A) (Q : A -> S -> Prop) (s : S) : Prop :=
  match m s with Ok (a, s') => Q a s' | _ => True end.

Section PC.
Context {S : Type}.
Implicit Types s : S.

Lemma pc_ret {A} (a : A) Q s : Q a s -> pc (ret a) Q s.
Proof. done. Qed.

Lemma pc_bind {A B} (m : prog S A) (k : A -> prog S B) Q s : pc m (fun a s' => pc (k a) Q s') s -> pc (bind m k) Q s.
Proof. unfold pc, bind. destruct (m s) as [[a s']| |]; done. Qed.

Lemma pc_exit {A} msg (Q : A -> S -> Prop) s : pc (dropbear_exit msg) Q s.
Proof. done. Qed.

Lemma pc_fault {A} msg (Q : A -> S -> Prop) s : pc (fault msg) Q s.
Proof. done. Qed.

Lemma pc_gets {A} (f : S -> A) Q s : Q (f s) s -> pc (gets f) Q s.
Proof. done. Qed.

Lemma pc_modify (f : S -> S) Q s : Q tt (f s) -> pc (modify f) Q s.
Proof. done. Qed.

Lemma pc_when c (m : prog S unit) Q s : (c = true -> pc m Q s) -> (c = false -> Q tt s) -> pc (when c m) Q s.
Proof. destruct c; [intros H _|intros _ H]; by apply H. Qed.

Lemma pc_deref {A} (o : option A) Q s : (forall a, o = Some a -> Q a s) -> pc (deref o) Q s.
Proof. destruct o as [a|]; [|done]. intros H. by apply H. Qed.

Lemma pc_mono {A} (m : prog S A) (Q Q' : A -> S -> Prop) s : pc m Q s -> (forall a s', Q a s' -> Q' a s') -> pc m Q' s.
Proof. unfold pc. destruct (m s) as [[a s']| |]; auto. Qed.

(** What a run of the part says of the whole. *)
Lemma pc_zoom {T A} get set (m : prog T A) Q s : (forall a t, m (get s) = Ok (a, t) -> Q a (set t s)) -> pc (@zoom S T A get set m) Q s.
Proof. unfold pc, zoom. destruct (m (get s)) as [[a t]| |]; intros H; [|done|done]. by apply H. Qed.

Lemma pc_ok {A} (m : prog S A) Q s a s' : pc m Q s -> m s = Ok (a, s') -> Q a s'.
Proof. unfold pc. intros H E. by rewrite E in H. Qed.
End PC.

Ltac pc_step :=
  lazymatch goal with
  | |- pc (bind _ _) _ _ => apply pc_bind
  | |- pc (ret _) _ _ => apply pc_ret
  | |- pc (dropbear_exit _) _ _ => apply pc_exit
  | |- pc (fault _) _ _ => apply pc_fault
  | |- pc (gets _) _ _ => apply pc_gets
  | |- pc (modify _) _ _ => apply pc_modify
  | |- pc (when _ _) _ _ => apply pc_when; intros
  | |- pc (deref _) _ _ => apply pc_deref; intros
  | |- pc (zoom _ _ _) _ _ => apply pc_zoom; intros
  | |- pc (if ?c then _ else _) _ _ => destruct c eqn:?
  | |- pc (match ?x with _ => _ end) _ _ => destruct x eqn:?
  end.
Ltac pc_steps := repeat (pc_step; cbn beta).

(** Open one layer of a wp goal. *)
Ltac wp_step :=
  lazymatch goal with
  | |- wp (bind _ _) _ _ => apply wp_bind
  | |- wp (ret _) _ _ => apply wp_ret
  | |- wp (gets _) _ _ => apply wp_gets
  | |- wp (modify _) _ _ => apply wp_modify
  | |- wp (dropbear_exit _) _ _ => apply wp_exit
  | |- wp (when _ _) _ _ => apply wp_when; intros ?
  | |- wp (dropbear_assert _) _ _ => apply wp_assert; intros ?
  | |- wp (if ?c then _ else _) _ _ => destruct c eqn:?
  | |- wp (zoom _ _ _) _ _ => apply wp_zoom
  end.
Ltac wp_steps := repeat (wp_step; cbn beta).

(** Turn boolean tests of the code into propositions. *)
Ltac bool_hyps :=
  repeat match goal with
         | H : (_ && _)%bool = true |- _ => apply andb_true_iff in H as [? ?]
         | H : (_ && _)%bool = false |- _ => apply andb_false_iff in H
         | H : (_ || _)%bool = true |- _ => apply orb_true_iff in H
         | H : (_ || _)%bool = false |- _ => apply orb_false_iff in H as [? ?]
         | H : negb _ = true |- _ => apply negb_true_iff in H
         | H : negb _ = false |- _ => apply negb_false_iff in H
         | H : (_ <? _) = true |- _ => apply Z.ltb_lt in H
         | H : (_ <? _) = false |- _ => apply Z.ltb_ge in H
         | H : (_ <=? _) = true |- _ => apply Z.leb_le in H
         | H : (_ <=? _) = false |- _ => apply Z.leb_gt in H
         | H : (_ >? _) = true |- _ => rewrite Z.gtb_ltb in H
         | H : (_ >? _) = false |- _ => rewrite Z.gtb_ltb in H
         | H : (_ >=? _) = true |- _ => rewrite Z.geb_leb in H
         | H : (_ >=? _) = false |- _ => rewrite Z.geb_leb in H
         | H : (_ =? _) = true |- _ => apply Z.eqb_eq in H
         | H : (_ =? _) = false |- _ => apply Z.eqb_neq in H
         end.

(** Resolve the guard of a C [if] by arithmetic. *)
Ltac z_guards :=
  repeat match goal with
         | |- context [?a >? ?b] => rewrite (Z.gtb_ltb a b)
         | |- context [?a >=? ?b] => rewrite (Z.geb_leb a b)
         | |- context [?a <? ?b] =>
             first [ rewrite (proj2 (Z.ltb_lt a b)) by zlia
                   | rewrite (proj2 (Z.ltb_ge a b)) by zlia ]
         | |- context [?a <=? ?b] =>
             first [ rewrite (proj2 (Z.leb_le a b)) by zlia
                   | rewrite (proj2 (Z.leb_gt a b)) by zlia ]
         | |- context [?a =? ?b] =>
             first [ rewrite (proj2 (Z.eqb_eq a b)) by zlia
                   | rewrite (proj2 (Z.eqb_neq a b)) by zlia ]
         end.

(** ** Scripts and sums over lists *)

Lemma concat_map_const {A B} (x : list B) (l : list A) :
  concat (map (fun _ => x) l) = concat (replicate (length l) x).
Proof. induction l as [|a l IH]; simpl; [done|by rewrite IH]. Qed.

Lemma concat_replicate_one {A} k (x : A) : concat (replicate k [x]) = replicate k x.
Proof. induction k as [|k IH]; simpl; [done|by rewrite IH]. Qed.

Lemma concat_map_one {A B} (f : A -> B) (l : list A) : concat (map (fun a => [f a]) l) = map f l.
Proof. induction l as [|a l IH]; simpl; [done|by rewrite IH]. Qed.

Lemma concat_map_ext {A B} (f g : A -> list B) (l : list A) :
  (forall a, a ∈ l -> f a = g a) -> concat (map f l) = concat (map g l).
Proof.
  induction l as [|a l IH]; intros Hfg; simpl; [done|].
  rewrite Hfg by left. f_equal. apply IH. intros. apply Hfg. by right.
Qed.

Lemma list_split_at {A} (l : list A) i x y :
  l !! i = Some x ->
  exists l1 l2, l = l1 ++ x :: l2 /\ <[i := y]> l = l1 ++ y :: l2.
Proof.
  intros Hx. exists (take i l), (drop (S i) l). split; [by rewrite take_drop_middle|].
  rewrite insert_take_drop; [done|]. by apply lookup_lt_Some in Hx.
Qed.

Lemma sum_insert {A} (f : A -> nat) l i x y :
  l !! i = Some x -> (sum_list_with f (<[i := y]> l) + f x = sum_list_with f l + f y)%nat.
Proof.
  intros Hx. destruct (list_split_at l i x y Hx) as (l1 & l2 & -> & ->).
  rewrite !sum_list_with_app. simpl. lia.
Qed.
