(* ===== verification/Dbutil.v ===== *)
(** The allocation and comparison helpers of dropbear's dbutil.c that the
    other components call. *)

From S2P Require Import Prelude.

(** Largest object a 32-bit C program can hold (PTRDIFF_MAX). *)
Definition OBJECT_MAX : Z := 2 ^ 31 - 1.

(** [m_malloc]: zero-filled memory; a request of no bytes exits.  A failing
    [calloc] also exits and is not modelled: memory suffices. *)
Definition m_malloc {S} (size : Z) : prog S (list Z) :=
  if size =? 0 then dropbear_exit "m_malloc failed"
  else ret (replicate (Z.to_nat size) 0).

(** [m_realloc]: keeps the common prefix; what the new tail holds is not
    specified by C, it is the argument [fresh]. *)
Definition m_realloc {S} (fresh : Z -> Z) (ptr : list Z) (size : Z) : prog S (list Z) :=
  if size =? 0 then dropbear_exit "m_realloc failed"
  else ret (ztake size ptr ++
            map (fun i => u8 (fresh (Z.of_nat i)))
                (seq (length ptr) (Z.to_nat size - length ptr))).

(** The loop of [m_burn]: [while (len--) *p++ = 0x0], on the memory from [p]. *)
Fixpoint m_burn_loop (len : nat) (p : list Z) : list Z :=
  match len, p with
  | O, _ => p
  | S n, [] => []
  | S n, _ :: p' => 0 :: m_burn_loop n p'
  end.

(** [m_burn (data, len)]; running past the object is a fault. *)
Definition m_burn {S} (data : list Z) (len : Z) : prog S (list Z) :=
  if zlen data =? 0 then ret data (* data == NULL *)
  else if len <=? zlen data then ret (m_burn_loop (Z.to_nat len) data)
  else fault "m_burn out of bounds".

(** The accumulation of [constant_time_memcmp] over [n] positions. *)
Fixpoint memcmp_loop (n : nat) (xa xb : list Z) (c : Z) : option Z :=
  match n with
  | O => Some c
  | S n' =>
      match xa, xb with
      | a :: xa', b :: xb' => memcmp_loop n' xa' xb' (u8 (Z.lor c (Z.lxor a b)))
      | _, _ => None
      end
  end.

Definition constant_time_memcmp {S} (a b : list Z) (n : Z) : prog S Z :=
  match memcmp_loop (Z.to_nat n) a b 0 with
  | Some c => ret c
  | None => fault "constant_time_memcmp out of bounds"
  end.

(** ** Lemmas *)

Lemma m_realloc_spec {S} fresh ptr size (s : S) :
  0 < size -> bytes ptr ->
  exists p, m_realloc fresh ptr size s = Ok (p, s) /\ zlen p = size /\ bytes p /\
            ztake (Z.min size (zlen ptr)) p = ztake (Z.min size (zlen ptr)) ptr.
Proof.
  intros Hs Hb. unfold m_realloc. rewrite (proj2 (Z.eqb_neq _ _)) by lia.
  eexists. split; [reflexivity|]. split_and!.
  - unfold zlen, ztake. rewrite length_app, length_take, length_map, length_seq. lia.
  - apply Forall_app_2; [by apply Forall_ztake|].
    apply Forall_forall. intros x Hx. apply list_elem_of_In in Hx.
    apply in_map_iff in Hx as (i & <- & _). apply u8_range.
  - assert (Hz : zlen (ztake size ptr) = Z.min size (zlen ptr)).
    { unfold zlen, ztake. rewrite length_take. lia. }
    rewrite <-Hz, ztake_app_zlen, Hz. unfold ztake. 
    destruct (Z.le_ge_cases size (zlen ptr)); [by rewrite Z.min_l by done|].
    rewrite Z.min_r by done. unfold zlen in *. rewrite !take_ge; [done|lia|lia].
Qed.

Lemma m_burn_loop_spec n p :
  (n <= length p)%nat -> m_burn_loop n p = replicate n 0 ++ drop n p.
Proof.
  revert p. induction n as [|n IH]; intros [|x p] Hn; try done; [simpl in Hn; lia|].
  simpl in *. by rewrite IH by lia.
Qed.

Lemma lor_zero_iff a b : 0 <= a -> 0 <= b -> Z.lor a b = 0 <-> a = 0 /\ b = 0.
Proof. intros. apply Z.lor_eq_0_iff. Qed.

Lemma byte_log2 a : is_byte a -> forall i, 8 <= i -> Z.testbit a i = false.
Proof.
  intros Ha i Hi. rewrite <-(Z.mod_small a (2 ^ 8)) by exact Ha.
  apply Z.mod_pow2_bits_high. lia.
Qed.

Lemma byte_bits_closed a :
  0 <= a -> (forall i, 8 <= i -> Z.testbit a i = false) -> is_byte a.
Proof.
  intros Ha Hi. cut (a = a mod 2 ^ 8).
  { intros ->. apply Z.mod_pos_bound. lia. }
  apply Z.bits_inj'. intros i Hi0. destruct (Z.le_gt_cases 8 i).
  - by rewrite Hi, Z.mod_pow2_bits_high by lia.
  - by rewrite Z.mod_pow2_bits_low by lia.
Qed.

Lemma lor_byte a b : is_byte a -> is_byte b -> is_byte (Z.lor a b).
Proof.
  intros Ha Hb. apply byte_bits_closed; [apply Z.lor_nonneg; unfold is_byte in *; lia|].
  intros i Hi. by rewrite Z.lor_spec, !byte_log2 by done.
Qed.

Lemma lxor_byte a b : is_byte a -> is_byte b -> is_byte (Z.lxor a b).
Proof.
  intros Ha Hb. apply byte_bits_closed; [apply Z.lxor_nonneg; unfold is_byte in *; lia|].
  intros i Hi. by rewrite Z.lxor_spec, !byte_log2 by done.
Qed.

Lemma memcmp_loop_spec n xa xb c :
  bytes xa -> bytes xb -> is_byte c ->
  (n <= length xa)%nat -> (n <= length xb)%nat ->
  exists r, memcmp_loop n xa xb c = Some r /\
            (r = 0 <-> c = 0 /\ take n xa = take n xb).
Proof.
  revert xa xb c. induction n as [|n IH]; intros xa xb c Ha Hb Hc Hla Hlb.
  { exists c. simpl. tauto. }
  destruct xa as [|a xa], xb as [|b xb]; simpl in *; try lia.
  apply Forall_cons_1 in Ha as [Ha Hxa]. apply Forall_cons_1 in Hb as [Hb Hxb].
  assert (Hab : is_byte (Z.lor c (Z.lxor a b))) by auto using lor_byte, lxor_byte.
  rewrite u8_small by done.
  destruct (IH xa xb (Z.lor c (Z.lxor a b))) as (r & Hr & Hiff); [done..|lia|lia|].
  exists r. split; [done|]. rewrite Hiff, Z.lor_eq_0_iff, Z.lxor_eq_0_iff.
  split; [by intros [[-> ->] ->]|]. by intros [-> [= -> ->]].
Qed.

(** The comparison answers 0 exactly when the first [n] bytes agree. *)
Lemma constant_time_memcmp_spec {S} a b n (s : S) :
  bytes a -> bytes b -> 0 <= n <= zlen a -> n <= zlen b ->
  exists r, constant_time_memcmp a b n s = Ok (r, s) /\ (r = 0 <-> ztake n a = ztake n b).
Proof.
  unfold zlen. intros Ha Hb Hn Hn'. unfold constant_time_memcmp.
  destruct (memcmp_loop_spec (Z.to_nat n) a b 0) as (r & -> & Hr); [done..|by vm_compute|lia|lia|].
  exists r. split; [done|]. rewrite Hr. unfold ztake. by split; [intros [_ ?]|intros ?].
Qed.
