(* ===== verification/Buffer.v ===== *)
(** Model of dropbear's buffer.c: the growable byte buffer every packet is
    read from and written to.  One definition per C function, with the
    unsigned 32-bit arithmetic of its guards; pointers into the buffer are
    offsets, and every access goes through a bounds check that faults. *)

From S2P Require Import Prelude Dbutil.

Local Open Scope prog_scope.

Definition BUF_MAX_INCR : Z := 1000000000.
Definition BUF_MAX_SIZE : Z := 1000000000.
Definition MAX_STRING_LEN : Z := 1400.

(** [struct buf]; [b_data] is the allocated memory. *)
Record buffer := mkbuf { b_data : list Z; b_len : Z; b_pos : Z; b_size : Z }.

Definition set_data d b := mkbuf d (b_len b) (b_pos b) (b_size b).
Definition set_len l b := mkbuf (b_data b) l (b_pos b) (b_size b).
Definition set_pos p b := mkbuf (b_data b) (b_len b) p (b_size b).

(** Reading and writing through a pointer [data + off]. *)
Definition load_bytes (off n : Z) : prog buffer (list Z) := fun b =>
  if (0 <=? off) && (0 <=? n) && (off + n <=? zlen (b_data b))
  then Ok (zslice off n (b_data b), b)
  else Fault "buffer read out of bounds".

Definition store_bytes (off : Z) (bs : list Z) : prog buffer unit := fun b =>
  if (0 <=? off) && (off + zlen bs <=? zlen (b_data b))
  then Ok (tt, set_data (splice off bs (b_data b)) b)
  else Fault "buffer write out of bounds".

(** The source operand of a [memcpy] of [n] bytes. *)
Definition src_bytes {S} (bytes : list Z) (n : Z) : prog S (list Z) :=
  if (0 <=? n) && (n <=? zlen bytes) then ret (ztake n bytes)
  else fault "memcpy source out of bounds".

Definition buf_new {S} (size : Z) : prog S buffer :=
  if size >? BUF_MAX_SIZE then dropbear_exit "buf->size too big"
  else
    data <- (if size >? 0 then m_malloc size else ret []) ;;
    ret (mkbuf data 0 0 size).

Definition buf_burn : prog buffer unit := fun b =>
  (data <- m_burn (b_data b) (b_size b) ;; modify (set_data data)) b.

Definition buf_resize (fresh : Z -> Z) (newsize : Z) : prog buffer unit := fun b =>
  (if newsize >? BUF_MAX_SIZE then dropbear_exit "buf->size too big"
   else
     data <- m_realloc fresh (b_data b) newsize ;;
     modify (fun b => mkbuf data (Z.min newsize (b_len b))
                            (Z.min newsize (b_pos b)) newsize)) b.

Definition buf_newcopy {S} (buf : buffer) : prog S buffer :=
  r <- buf_new (b_len buf) ;;
  let r := set_len (b_len buf) r in
  src <- src_bytes (b_data buf) (b_len buf) ;;
  fun s => match store_bytes 0 src r with
           | Ok (_, r') => Ok (r', s)
           | Exit e => Exit e
           | Fault e => Fault e
           end.

Definition buf_setlen (len : Z) : prog buffer unit :=
  size <- gets b_size ;;
  if len >? size then dropbear_exit "Bad buf_setlen" else modify (set_len len).

Definition buf_incrlen (incr : Z) : prog buffer unit :=
  b <- gets id ;;
  if (incr >? BUF_MAX_INCR) || (u32 (b_len b + incr) >? b_size b)
  then dropbear_exit "Bad buf_incrlen"
  else modify (set_len (u32 (b_len b + incr))).

Definition buf_setpos (pos : Z) : prog buffer unit :=
  len <- gets b_len ;;
  if pos >? len then dropbear_exit "Bad buf_setpos" else modify (set_pos pos).

Definition buf_incrwritepos (incr : Z) : prog buffer unit :=
  b <- gets id ;;
  if (incr >? BUF_MAX_INCR) || (u32 (b_pos b + incr) >? b_size b)
  then dropbear_exit "Bad buf_incrwritepos"
  else
    modify (set_pos (u32 (b_pos b + incr))) ;;;
    b <- gets id ;;
    when (b_pos b >? b_len b) (modify (set_len (b_pos b))).

(** [incr] is a C [int]: callers that pass an unsigned convert it by [s32]. *)
Definition buf_incrpos (incr : Z) : prog buffer unit :=
  b <- gets id ;;
  if (incr >? BUF_MAX_INCR)
     || (u32 (s32 (b_pos b) + incr) >? b_len b)
     || (s32 (b_pos b) + incr <? 0)
  then dropbear_exit "Bad buf_incrpos"
  else modify (set_pos (u32 (b_pos b + incr))).

Definition buf_getbyte : prog buffer Z :=
  b <- gets id ;;
  if b_pos b >=? b_len b then dropbear_exit "Bad buf_getbyte"
  else
    match zget (b_data b) (b_pos b) with
    | Some v => modify (set_pos (u32 (b_pos b + 1))) ;;; ret v
    | None => fault "buffer read out of bounds"
    end.

Definition buf_getbool : prog buffer Z :=
  b <- buf_getbyte ;;
  ret (if b =? 0 then b else 1).

Definition buf_putbyte (val : Z) : prog buffer unit :=
  b <- gets id ;;
  when (b_pos b >=? b_len b) (buf_incrlen 1) ;;;
  pos <- gets b_pos ;;
  store_bytes pos [val] ;;;
  modify (set_pos (u32 (pos + 1))).

(** Both return the pointer [data + pos], here the offset [pos]. *)
Definition buf_getptr (len : Z) : prog buffer Z :=
  b <- gets id ;;
  if u32 (b_pos b + len) >? b_len b then dropbear_exit "Bad buf_getptr"
  else ret (b_pos b).

Definition buf_getwriteptr (len : Z) : prog buffer Z :=
  b <- gets id ;;
  if u32 (b_pos b + len) >? b_size b then dropbear_exit "Bad buf_getwriteptr"
  else ret (b_pos b).

Definition buf_getint : prog buffer Z :=
  p <- buf_getptr 4 ;;
  bs <- load_bytes p 4 ;;
  match load32h_list bs with
  | Some v => buf_incrpos 4 ;;; ret v
  | None => fault "LOAD32H"
  end.

Definition buf_putint (val : Z) : prog buffer unit :=
  p <- buf_getwriteptr 4 ;;
  store_bytes p (store32h val) ;;;
  buf_incrwritepos 4.

(** The string (with its terminating zero byte) and [*retlen]. *)
Definition buf_getstring : prog buffer (list Z * Z) :=
  len <- buf_getint ;;
  if len >? MAX_STRING_LEN then dropbear_exit "String too long"
  else
    mem <- m_malloc (u32 (len + 1)) ;;
    p <- buf_getptr len ;;
    src <- load_bytes p len ;;
    let ret_ := splice 0 src mem in
    buf_incrpos (s32 len) ;;;
    ret (zset ret_ len 0, len).

Definition buf_getstringbuf : prog buffer buffer :=
  x <- buf_getstring ;;
  let '(str, len) := x in
  ret (mkbuf str len 0 len).

Definition buf_eatstring : prog buffer unit :=
  n <- buf_getint ;;
  buf_incrpos (s32 n).

Definition buf_putbytes (bytes : list Z) (len : Z) : prog buffer unit :=
  p <- buf_getwriteptr len ;;
  src <- src_bytes bytes len ;;
  store_bytes p src ;;;
  buf_incrwritepos len.

Definition buf_putstring (str : list Z) (len : Z) : prog buffer unit :=
  buf_putint len ;;;
  buf_putbytes str len.

Lemma src_bytes_ok {S} bs n (s : S) :
  0 <= n <= zlen bs -> src_bytes bs n s = Ok (ztake n bs, s).
Proof. intros. unfold src_bytes. by z_guards. Qed.

(** ** The abstract buffer

    A buffer is a cursor between the bytes already consumed or written
    ([pre]) and the used bytes after the position ([post]), with [room] more
    bytes before the end of the allocated size. *)

Record buf_repr (b : buffer) (pre post : list Z) (room : Z) : Prop := {
  br_data : exists rest, b_data b = pre ++ post ++ rest /\ room <= zlen rest;
  br_pos : b_pos b = zlen pre;
  br_len : b_len b = zlen pre + zlen post;
  br_size : b_size b = zlen pre + zlen post + room;
  br_room : 0 <= room;
  br_max : b_size b <= BUF_MAX_SIZE;
  br_bytes : bytes (b_data b)
}.

(** The invariant the C code relies on, stated on the concrete fields. *)
Definition wf_buffer (b : buffer) : Prop :=
  0 <= b_pos b <= b_len b /\ b_len b <= b_size b /\ b_size b <= BUF_MAX_SIZE /\
  b_size b <= zlen (b_data b) /\ bytes (b_data b).

Lemma buf_repr_wf b pre post room : buf_repr b pre post room -> wf_buffer b.
Proof.
  intros [(rest & Hd & Hr) Hp Hl Hs ? ? ?]. unfold wf_buffer. rewrite Hd in *.
  split_and!; zlia || done.
Qed.

Lemma wf_buf_repr b :
  wf_buffer b ->
  buf_repr b (ztake (b_pos b) (b_data b))
           (zslice (b_pos b) (b_len b - b_pos b) (b_data b)) (b_size b - b_len b).
Proof.
  intros (Hp & Hl & Hs & Ha & Hb).
  assert (H1 : zlen (ztake (b_pos b) (b_data b)) = b_pos b) by (apply zlen_ztake; lia).
  assert (H2 : zlen (zslice (b_pos b) (b_len b - b_pos b) (b_data b)) = b_len b - b_pos b)
    by (apply zlen_zslice; lia).
  split; try done; try lia.
  exists (zdrop (b_len b - b_pos b) (zdrop (b_pos b) (b_data b))). split.
  - unfold zslice. by rewrite !ztake_zdrop.
  - rewrite !zlen_zdrop; try lia. rewrite zlen_zdrop; lia.
Qed.

Lemma buf_repr_bytes b pre post room :
  buf_repr b pre post room -> bytes pre /\ bytes post.
Proof.
  intros [(rest & Hd & _) _ _ _ _ _ Hb]. rewrite Hd in Hb.
  apply Forall_app in Hb as [? Hb]. by apply Forall_app in Hb as [? ?].
Qed.

(** Arithmetic facts of a represented buffer, and the small constants. *)
Ltac repr_facts H :=
  let Hp := fresh "Hpos" in let Hl := fresh "Hlen" in let Hs := fresh "Hsize" in
  let Hr := fresh "Hroom" in let Hm := fresh "Hmax" in
  pose proof (br_pos _ _ _ _ H) as Hp; pose proof (br_len _ _ _ _ H) as Hl;
  pose proof (br_size _ _ _ _ H) as Hs; pose proof (br_room _ _ _ _ H) as Hr;
  pose proof (br_max _ _ _ _ H) as Hm; unfold BUF_MAX_SIZE, BUF_MAX_INCR in *.

Section Repr.
Implicit Types (b : buffer) (pre post bs : list Z) (room n : Z).

Lemma repr_set_pos b pre m post room :
  buf_repr b pre (m ++ post) room ->
  buf_repr (set_pos (zlen (pre ++ m)) b) (pre ++ m) post room.
Proof.
  intros [(rest & Hd & Hr) Hp Hl Hs H1 H2 H3].
  split; simpl; try done; try zlia.
  exists rest. by rewrite Hd, <-!app_assoc.
Qed.

Lemma repr_incrpos b pre m post room n :
  n = zlen m ->
  buf_repr b pre (m ++ post) room ->
  exists b', buf_incrpos n b = Ok (tt, b') /\ buf_repr b' (pre ++ m) post room.
Proof.
  intros -> H. repr_facts H. pose proof (zlen_nonneg pre). 
  assert (Hs : s32 (b_pos b) = b_pos b) by (apply s32_small; zlia).
  assert (Hu : u32 (b_pos b + zlen m) = b_pos b + zlen m)
    by (apply u32_small; unfold is_u32; zlia).
  exists (set_pos (zlen (pre ++ m)) b). split; [|by apply repr_set_pos].
  unfold buf_incrpos, bind, gets, id. rewrite Hs, Hu.
  unfold BUF_MAX_INCR. z_guards. cbn. unfold modify. do 3 f_equal. zlia.
Qed.

Lemma repr_load b pre m post room n :
  n = zlen m ->
  buf_repr b pre (m ++ post) room ->
  load_bytes (b_pos b) n b = Ok (m, b).
Proof.
  intros -> H. repr_facts H. destruct (br_data _ _ _ _ H) as (rest & Hd & Hr).
  unfold load_bytes. rewrite Hd, Hpos. z_guards. cbn.
  by rewrite <-app_assoc, zslice_app.
Qed.

Lemma repr_getptr b pre m post room n :
  n = zlen m ->
  buf_repr b pre (m ++ post) room ->
  buf_getptr n b = Ok (b_pos b, b).
Proof.
  intros -> H. repr_facts H. pose proof (zlen_nonneg pre).
  unfold buf_getptr, bind, gets, id.
  rewrite u32_small by (unfold is_u32; zlia). by z_guards.
Qed.

Lemma repr_getwriteptr b pre post room n :
  buf_repr b pre post room -> 0 <= n <= zlen post + room ->
  buf_getwriteptr n b = Ok (b_pos b, b).
Proof.
  intros H Hn. repr_facts H. pose proof (zlen_nonneg pre).
  unfold buf_getwriteptr, bind, gets, id.
  rewrite u32_small by (unfold is_u32; zlia). by z_guards.
Qed.

Lemma repr_getbyte b pre v post room :
  buf_repr b pre (v :: post) room ->
  exists b', buf_getbyte b = Ok (v, b') /\ buf_repr b' (pre ++ [v]) post room.
Proof.
  intros H. repr_facts H. destruct (br_data _ _ _ _ H) as (rest & Hd & Hr).
  exists (set_pos (zlen (pre ++ [v])) b).
  split; [|apply (repr_set_pos b pre [v] post); exact H].
  unfold buf_getbyte, bind, gets, id. z_guards.
  rewrite Hd, Hpos. cbn [app]. rewrite zget_mid. unfold modify, ret, set_pos.
  rewrite u32_small by (unfold is_u32; zlia). do 3 f_equal. zlia.
Qed.

Lemma repr_getint b pre v post room :
  is_u32 v ->
  buf_repr b pre (store32h v ++ post) room ->
  exists b', buf_getint b = Ok (v, b') /\ buf_repr b' (pre ++ store32h v) post room.
Proof.
  intros Hv H. destruct (repr_incrpos _ _ _ _ _ 4 (eq_sym (zlen_store32h v)) H) as (b' & Hi & Hb').
  exists b'. split; [|done]. unfold buf_getint.
  erewrite bind_ok by (by apply (repr_getptr _ _ _ _ _ 4 (eq_sym (zlen_store32h v)) H)).
  erewrite bind_ok by (by apply (repr_load _ _ _ _ _ 4 (eq_sym (zlen_store32h v)) H)).
  rewrite load32h_store32h_nil by done.
  by erewrite bind_ok by exact Hi.
Qed.

(** What remains of [post] and [room] after [n] bytes are written over it. *)
Definition post_after n post := zdrop n post.
Definition room_after n post room := room - Z.max 0 (n - zlen post).

Lemma repr_store b pre post room bs :
  buf_repr b pre post room -> bytes bs -> zlen bs <= zlen post + room ->
  exists b', store_bytes (b_pos b) bs b = Ok (tt, b') /\
             b_pos b' = b_pos b /\ b_len b' = b_len b /\ b_size b' = b_size b /\
             bytes (b_data b') /\
             exists rest, b_data b' = pre ++ bs ++ zdrop (zlen bs) post ++ rest /\
                          room_after (zlen bs) post room <= zlen rest.
Proof.
  intros H Hbs Hn. repr_facts H. destruct (br_data _ _ _ _ H) as (rest & Hd & Hr).
  exists (set_data (splice (b_pos b) bs (b_data b)) b).
  split; [unfold store_bytes; rewrite Hd; z_guards; done|].
  split_and!; try done.
  { simpl. apply Forall_splice; [done|apply H]. }
  exists (zdrop (zlen bs - zlen post) rest). split.
  - simpl. rewrite Hd, Hpos. unfold splice. rewrite ztake_app_zlen. do 2 f_equal.
    rewrite zdrop_app_ge by zlia.
    replace (zlen pre + zlen bs - zlen pre) with (zlen bs) by lia.
    destruct (Z.le_ge_cases (zlen bs) (zlen post)).
    + rewrite zdrop_app_le by done. unfold zdrop at 3.
      by replace (Z.to_nat (zlen bs - zlen post)) with O by lia.
    + rewrite zdrop_app_ge by done.
      rewrite <-(app_nil_l (zdrop (_ - _) _)) at 1. f_equal.
      unfold zdrop. symmetry. apply drop_ge. unfold zlen in *. lia.
  - unfold room_after. pose proof (zlen_nonneg rest).
    unfold zlen, zdrop in *. rewrite length_drop. lia.
Qed.

Lemma zlen_zdrop_max n (l : list Z) : 0 <= n -> zlen (zdrop n l) = Z.max 0 (zlen l - n).
Proof. intros. unfold zlen, zdrop. rewrite length_drop. lia. Qed.

Lemma repr_incrwritepos b pre post room n m :
  b_pos b = zlen pre -> b_len b = zlen pre + zlen post ->
  b_size b = zlen pre + zlen post + room -> 0 <= room -> b_size b <= BUF_MAX_SIZE ->
  n = zlen m -> n <= zlen post + room -> bytes (b_data b) ->
  (exists rest, b_data b = pre ++ m ++ zdrop n post ++ rest /\ room_after n post room <= zlen rest) ->
  exists b', buf_incrwritepos n b = Ok (tt, b') /\
             buf_repr b' (pre ++ m) (post_after n post) (room_after n post room).
Proof.
  intros Hp Hl Hs Hroom Hmax Hm Hn Hb (rest & Hd & Hr).
  unfold BUF_MAX_SIZE in *.
  pose proof (zlen_nonneg pre). pose proof (zlen_nonneg post). pose proof (zlen_nonneg m).
  exists (mkbuf (b_data b) (Z.max (b_len b) (zlen pre + n)) (zlen pre + n) (b_size b)).
  split.
  - unfold buf_incrwritepos, bind, gets, id, modify, when, BUF_MAX_INCR.
    rewrite u32_small by (unfold is_u32; zlia). z_guards. cbn.
    rewrite Hp. destruct (Z.max_spec (b_len b) (zlen pre + n)) as [[? ->]|[? ->]]; by z_guards.
  - unfold room_after, post_after in *. split; simpl; rewrite ?zlen_app, ?zlen_zdrop_max by zlia;
      unfold BUF_MAX_SIZE; try done; try zlia.
    exists rest. split; [by rewrite Hd, <-app_assoc|done].
Qed.

(** A write of [bs] at the position, whatever the primitive. *)
Lemma repr_write b pre post room bs :
  buf_repr b pre post room -> bytes bs -> zlen bs <= zlen post + room ->
  exists b1 b', store_bytes (b_pos b) bs b = Ok (tt, b1) /\
    buf_incrwritepos (zlen bs) b1 = Ok (tt, b') /\
    buf_repr b' (pre ++ bs) (post_after (zlen bs) post) (room_after (zlen bs) post room).
Proof.
  intros H Hbs Hn. repr_facts H.
  destruct (repr_store _ _ _ _ _ H Hbs Hn) as (b1 & Hst & Hp & Hl & Hs & Hby & Hrest).
  destruct (repr_incrwritepos b1 pre post room (zlen bs) bs) as (b' & Hi & Hr');
    try done; try (unfold BUF_MAX_SIZE; lia).
  exists b1, b'. done.
Qed.

Lemma repr_putint b pre post room v :
  buf_repr b pre post room -> 4 <= zlen post + room ->
  exists b', buf_putint v b = Ok (tt, b') /\
    buf_repr b' (pre ++ store32h v) (post_after 4 post) (room_after 4 post room).
Proof.
  intros H Hn.
  destruct (repr_write _ _ _ _ (store32h v) H (store32h_bytes v) Hn) as (b1 & b' & H1 & H2 & H3).
  exists b'. split; [|exact H3]. unfold buf_putint.
  erewrite bind_ok by (apply (repr_getwriteptr _ _ _ _ 4 H); lia).
  by erewrite bind_ok by exact H1.
Qed.

Lemma repr_putbytes b pre post room bs n :
  n = zlen bs -> buf_repr b pre post room -> bytes bs -> n <= zlen post + room ->
  exists b', buf_putbytes bs n b = Ok (tt, b') /\
    buf_repr b' (pre ++ bs) (post_after n post) (room_after n post room).
Proof.
  intros -> H Hb Hn. pose proof (zlen_nonneg bs).
  destruct (repr_write _ _ _ _ bs H Hb Hn) as (b1 & b' & H1 & H2 & H3).
  exists b'. split; [|exact H3]. unfold buf_putbytes.
  erewrite bind_ok by (apply (repr_getwriteptr _ _ _ _ _ H); lia).
  erewrite bind_ok by (apply src_bytes_ok; lia).
  rewrite ztake_all. by erewrite bind_ok by exact H1.
Qed.

Lemma repr_putstring b pre post room bs n :
  n = zlen bs -> buf_repr b pre post room -> bytes bs -> 4 + n <= zlen post + room ->
  exists b', buf_putstring bs n b = Ok (tt, b') /\
    buf_repr b' (pre ++ store32h n ++ bs)
      (post_after n (post_after 4 post)) (room_after n (post_after 4 post) (room_after 4 post room)).
Proof.
  intros -> H Hb Hn. pose proof (zlen_nonneg bs).
  destruct (repr_putint _ _ _ _ (zlen bs) H) as (b1 & E1 & H1); [lia|].
  destruct (repr_putbytes _ _ _ _ bs (zlen bs) eq_refl H1) as (b2 & E2 & H2); [done| |].
  { unfold room_after, post_after. rewrite zlen_zdrop_max by lia. lia. }
  exists b2. rewrite app_assoc. split; [|exact H2].
  unfold buf_putstring. by erewrite bind_ok by exact E1.
Qed.

Lemma repr_putbyte b pre post room v :
  buf_repr b pre post room -> is_byte v -> 1 <= zlen post + room ->
  exists b', buf_putbyte v b = Ok (tt, b') /\
    buf_repr b' (pre ++ [v]) (post_after 1 post) (room_after 1 post room).
Proof.
  intros H Hv Hn. repr_facts H. pose proof (zlen_nonneg pre). pose proof (zlen_nonneg post).
  assert (Hvb : bytes [v]) by by constructor.
  destruct (repr_store _ _ _ _ [v] H Hvb) as (b1 & Hst & Hp & Hl & Hs & Hby & rest & Hd & Hr);
    [done|]. change (zlen [v]) with 1 in *.
  assert (Hb1 : b1 = set_data (splice (b_pos b) [v] (b_data b)) b).
  { unfold store_bytes in Hst. case_match; congruence. }
  set (l' := Z.max (b_len b) (zlen pre + 1)).
  exists (mkbuf (b_data b1) l' (zlen pre + 1) (b_size b)). split.
  - unfold buf_putbyte, bind, gets, id.
    assert (Hinc : when (b_pos b >=? b_len b) (buf_incrlen 1) b = Ok (tt, set_len l' b)).
    { unfold when. rewrite Z.geb_leb. destruct (Z.leb_spec (b_len b) (b_pos b)).
      - unfold buf_incrlen, bind, gets, id, modify, BUF_MAX_INCR.
        rewrite u32_small by (unfold is_u32; zlia). z_guards. cbn.
        unfold set_len, l'. do 3 f_equal. lia.
      - unfold ret, l'. rewrite Z.max_l by lia. by destruct b. }
    rewrite Hinc. cbn.
    assert (Hst' : store_bytes (b_pos b) [v] (set_len l' b) = Ok (tt, set_len l' b1)).
    { unfold store_bytes in *. simpl. case_match; [|congruence].
      by rewrite Hb1. }
    rewrite Hst'. unfold modify. rewrite u32_small by (unfold is_u32; zlia).
    rewrite Hpos. unfold set_pos. by rewrite Hb1.
  - unfold room_after, post_after in *. split; simpl; subst l';
      rewrite ?zlen_app, ?zlen_zdrop_max by zlia; unfold BUF_MAX_SIZE;
      change (zlen [v]) with 1; try done; try zlia.
    exists rest. split; [by rewrite Hd, <-app_assoc|done].
Qed.

Lemma repr_setpos b pre post room p :
  buf_repr b pre post room -> 0 <= p <= zlen pre + zlen post ->
  exists b', buf_setpos p b = Ok (tt, b') /\
    buf_repr b' (ztake p (pre ++ post)) (zdrop p (pre ++ post)) room.
Proof.
  intros H Hp. repr_facts H. exists (set_pos p b). split.
  - unfold buf_setpos, bind, gets, modify. by z_guards.
  - destruct (br_data _ _ _ _ H) as (rest & Hd & Hr).
    split; simpl; rewrite ?zlen_ztake, ?zlen_zdrop by zlia; try apply H; try zlia.
    exists rest. by rewrite (app_assoc (ztake _ _)), ztake_zdrop, <-app_assoc.
Qed.

(** [buf_setpos (buf, 0)]: everything used becomes readable again. *)
(** Setting the position to a point given by the contents. *)
Lemma repr_seek b pre post room x y p :
  buf_repr b pre post room -> pre ++ post = x ++ y -> p = zlen x ->
  exists b', buf_setpos p b = Ok (tt, b') /\ buf_repr b' x y room.
Proof.
  intros H E ->. pose proof (zlen_nonneg x). pose proof (zlen_nonneg y).
  destruct (repr_setpos b pre post room (zlen x) H) as (b' & Es & H').
  { rewrite <-zlen_app, E, zlen_app. lia. }
  exists b'. split; [done|]. by rewrite E, ztake_app_zlen, zdrop_app_zlen in H'.
Qed.

Lemma repr_rewind b pre post room :
  buf_repr b pre post room ->
  exists b', buf_setpos 0 b = Ok (tt, b') /\ buf_repr b' [] (pre ++ post) room.
Proof. intros H. apply (repr_setpos b pre post room 0); [done|zlia]. Qed.

(** Shrinking keeps a prefix of [post]; growing exposes what the memory
    past the used length holds ([ext]). *)
Lemma repr_setlen b pre post room n :
  buf_repr b pre post room -> zlen pre <= n <= b_size b ->
  exists b' ext, buf_setlen n b = Ok (tt, b') /\
    buf_repr b' pre (ztake (n - zlen pre) (post ++ ext)) (b_size b - n) /\
    room <= zlen ext.
Proof.
  intros H Hn. repr_facts H. destruct (br_data _ _ _ _ H) as (rest & Hd & Hr).
  assert (Hz : zlen (ztake (n - zlen pre) (post ++ rest)) = n - zlen pre)
    by (apply zlen_ztake; zlia).
  exists (set_len n b), rest. split_and!; [|split|done]; simpl.
  - unfold buf_setlen, bind, gets, modify. by z_guards.
  - exists (zdrop (n - zlen pre) (post ++ rest)). split.
    + by rewrite ztake_zdrop.
    + rewrite zlen_zdrop; zlia.
  - done.
  - lia.
  - lia.
  - lia.
  - done.
  - apply H.
Qed.

(** Growing the used length by [n] exposes [n] bytes of the memory. *)
Lemma repr_incrlen b pre post room n :
  buf_repr b pre post room -> 0 <= n <= room ->
  exists b' ext, buf_incrlen n b = Ok (tt, b') /\ zlen ext = n /\
    buf_repr b' pre (post ++ ext) (room - n).
Proof.
  intros H Hn. repr_facts H. pose proof (zlen_nonneg pre). pose proof (zlen_nonneg post).
  destruct (br_data _ _ _ _ H) as (rest & Hd & Hr).
  exists (set_len (b_len b + n) b), (ztake n rest).
  assert (Hz : zlen (ztake n rest) = n) by (apply zlen_ztake; lia).
  split_and!; [|done|].
  - unfold buf_incrlen, bind, gets, id, BUF_MAX_INCR.
    rewrite u32_small by (unfold is_u32; lia). by z_guards.
  - split; simpl; try apply H; rewrite ?zlen_app, ?Hz; try lia.
    exists (zdrop n rest). split; [|rewrite zlen_zdrop by lia; lia].
    by rewrite <-app_assoc, ztake_zdrop.
Qed.

(** Overwriting used bytes in place. *)
Lemma repr_overwrite b pre post room bs :
  buf_repr b pre post room -> bytes bs -> zlen bs <= zlen post ->
  exists b', store_bytes (b_pos b) bs b = Ok (tt, b') /\ b_pos b' = b_pos b /\
    buf_repr b' pre (bs ++ zdrop (zlen bs) post) room.
Proof.
  intros H Hbs Hn. repr_facts H. pose proof (zlen_nonneg bs).
  destruct (repr_store b pre post room bs H Hbs) as (b' & E & Hp' & Hl' & Hs' & Hb' & rest & Hd & Hr); [lia|].
  exists b'. split; [done|]. split; [done|].
  assert (Hz : zlen (zdrop (zlen bs) post) = zlen post - zlen bs) by (apply zlen_zdrop; lia).
  split; try done; rewrite ?zlen_app, ?Hz; unfold BUF_MAX_SIZE; try lia.
  exists rest. rewrite Hd, <-app_assoc. split; [done|]. unfold room_after in Hr. lia.
Qed.

(** Writing the first [n] bytes of a longer source. *)
Lemma repr_putprefix b pre post room bs n :
  0 <= n <= zlen bs -> buf_repr b pre post room -> bytes bs -> n <= zlen post + room ->
  exists b', buf_putbytes bs n b = Ok (tt, b') /\
    buf_repr b' (pre ++ ztake n bs) (post_after n post) (room_after n post room).
Proof.
  intros Hn H Hb Hr. assert (Hz : zlen (ztake n bs) = n) by (apply zlen_ztake; lia).
  destruct (repr_putbytes b pre post room (ztake n bs) n) as (b' & E & H'); [done|done|by apply Forall_ztake|done|].
  exists b'. split; [|done]. unfold buf_putbytes in *. rewrite <-E. unfold bind.
  destruct (buf_getwriteptr n b) as [[p b1]| |]; try done. unfold src_bytes.
  rewrite Hz. rewrite !(proj2 (Z.leb_le _ _)) by lia. cbn.
  by rewrite <-Hz at 2; rewrite ztake_all.
Qed.

(** Enlarging keeps the contents. *)
Lemma repr_resize fresh b pre post room n :
  buf_repr b pre post room -> b_size b <= n <= BUF_MAX_SIZE -> 0 < n ->
  exists b', buf_resize fresh n b = Ok (tt, b') /\
    buf_repr b' pre post (n - zlen pre - zlen post).
Proof.
  intros H Hn Hpos. repr_facts H. pose proof (zlen_nonneg pre). pose proof (zlen_nonneg post).
  destruct (br_data _ _ _ _ H) as (rest & Hd & Hr).
  destruct (m_realloc_spec fresh (b_data b) n b Hpos (br_bytes _ _ _ _ H)) as (p & E & Hp & Hpb & Htake).
  exists (mkbuf p (b_len b) (b_pos b) n). split.
  - unfold buf_resize. rewrite Z.gtb_ltb, (proj2 (Z.ltb_ge BUF_MAX_SIZE n)) by (unfold BUF_MAX_SIZE; lia).
    rewrite (bind_ok _ _ _ _ _ E). unfold modify. rewrite !Z.min_r by lia. done.
  - assert (Hk : zlen (pre ++ post) <= Z.min n (zlen (b_data b)))
      by (rewrite Hd, !zlen_app; pose proof (zlen_nonneg rest); lia).
    split; simpl; unfold BUF_MAX_SIZE; try lia; try done.
    exists (zdrop (zlen (pre ++ post)) p). split; [|rewrite zlen_zdrop; rewrite zlen_app in *; lia].
    rewrite <-(ztake_zdrop (zlen (pre ++ post)) p) at 1. rewrite app_assoc. f_equal.
    assert (E2 : ztake (zlen (pre ++ post)) p = ztake (zlen (pre ++ post)) (ztake (Z.min n (zlen (b_data b))) p))
      by (unfold ztake; rewrite take_take; f_equal; pose proof (zlen_nonneg (pre ++ post)); lia).
    rewrite E2, Htake. unfold ztake at 1 2. rewrite take_take.
    replace (Z.to_nat (zlen (pre ++ post)) `min` Z.to_nat (Z.min n (zlen (b_data b))))%nat
      with (Z.to_nat (zlen (pre ++ post))) by (pose proof (zlen_nonneg (pre ++ post)); lia).
    change (ztake (zlen (pre ++ post)) (b_data b) = pre ++ post). rewrite Hd, app_assoc. apply ztake_app_zlen.
Qed.

Lemma repr_getstring b pre s post room n :
  n = zlen s -> n <= MAX_STRING_LEN ->
  buf_repr b pre (store32h n ++ s ++ post) room ->
  exists b', buf_getstring b = Ok ((s ++ [0], n), b') /\
             buf_repr b' (pre ++ store32h n ++ s) post room.
Proof.
  intros -> Hn H. pose proof (zlen_nonneg s). unfold MAX_STRING_LEN in *.
  destruct (repr_getint b pre (zlen s) (s ++ post) room) as (b1 & E1 & H1);
    [unfold is_u32; lia|done|].
  destruct (repr_incrpos _ _ _ _ _ _ eq_refl H1) as (b2 & E2 & H2).
  exists b2. rewrite app_assoc. split; [|done].
  unfold buf_getstring. erewrite bind_ok by exact E1.
  unfold MAX_STRING_LEN. rewrite u32_small by (unfold is_u32; lia). 
  rewrite s32_small by lia. z_guards.
  erewrite bind_ok; [|by unfold m_malloc; z_guards].
  erewrite bind_ok by (by apply (repr_getptr _ _ _ _ _ _ eq_refl H1)).
  erewrite bind_ok by (by apply (repr_load _ _ _ _ _ _ eq_refl H1)).
  cbn beta zeta. erewrite bind_ok by exact E2. unfold ret. do 3 f_equal.
  assert (Hrep : splice 0 s (replicate (Z.to_nat (zlen s + 1)) 0) = s ++ [0]).
  { unfold splice. rewrite ztake_0. cbn [app]. f_equal. unfold zdrop.
    rewrite drop_replicate. replace (_ - _)%nat with 1%nat by lia. done. }
  rewrite Hrep. apply (zset_mid s 0 0 []).
Qed.

(** [buf_eatstring] on a string of sane length skips what [buf_getstring]
    would have returned. *)
Lemma repr_eatstring b pre s post room n :
  n = zlen s ->
  buf_repr b pre (store32h n ++ s ++ post) room ->
  exists b', buf_eatstring b = Ok (tt, b') /\ buf_repr b' (pre ++ store32h n ++ s) post room.
Proof.
  intros -> H. pose proof (zlen_nonneg s). repr_facts H.
  destruct (repr_getint b pre (zlen s) (s ++ post) room) as (b1 & E1 & H1);
    [unfold is_u32; zlia|done|].
  destruct (repr_incrpos _ _ _ _ _ _ eq_refl H1) as (b2 & E2 & H2).
  exists b2. rewrite app_assoc. split; [|done].
  unfold buf_eatstring. erewrite bind_ok by exact E1.
  by rewrite s32_small by zlia.
Qed.
End Repr.

(** ** Safety of every operation from a well-formed buffer *)

Section Safety.
Implicit Types b : buffer.
Abbreviation keeps_wf m b := (wp m (fun _ b' => wf_buffer b') b).

Lemma wf_set_pos b p : wf_buffer b -> 0 <= p <= b_len b -> wf_buffer (set_pos p b).
Proof. unfold wf_buffer. simpl. intuition lia. Qed.

Lemma wf_set_len b n : wf_buffer b -> b_pos b <= n <= b_size b -> wf_buffer (set_len n b).
Proof. unfold wf_buffer. simpl. intuition lia. Qed.

Lemma wp_load_bytes b off n (Q : list Z -> buffer -> Prop) :
  wf_buffer b -> 0 <= off -> 0 <= n -> off + n <= b_size b ->
  (forall l, zlen l = n -> bytes l -> Q l b) -> wp (load_bytes off n) Q b.
Proof.
  intros (Hp & Hl & Hs & Ha & Hb) ? ? ? HQ. unfold wp, load_bytes. z_guards. cbn.
  apply HQ; [apply zlen_zslice; lia|by apply Forall_zslice].
Qed.

Lemma wp_store_bytes b off bs (Q : unit -> buffer -> Prop) :
  wf_buffer b -> bytes bs -> 0 <= off -> off + zlen bs <= b_size b ->
  (forall b', wf_buffer b' -> b_pos b' = b_pos b -> b_len b' = b_len b ->
              b_size b' = b_size b -> Q tt b') ->
  wp (store_bytes off bs) Q b.
Proof.
  intros Hwf Hbs ? ? HQ. pose proof Hwf as (Hp & Hl & Hs & Ha & Hb).
  unfold wp, store_bytes. z_guards. cbn. apply HQ; try done.
  unfold wf_buffer. simpl. rewrite zlen_splice by lia.
  split_and!; try lia. by apply Forall_splice.
Qed.

Lemma wp_setlen b n :
  wf_buffer b -> b_pos b <= n -> keeps_wf (buf_setlen n) b.
Proof. intros Hwf Hn. unfold buf_setlen. wp_steps. bool_hyps. apply wf_set_len; [done|lia]. Qed.

Lemma wp_incrlen b n : wf_buffer b -> is_u32 n -> keeps_wf (buf_incrlen n) b.
Proof.
  intros Hwf Hn. pose proof Hwf as (Hp & Hl & Hs & _). unfold buf_incrlen, id.
  unfold BUF_MAX_INCR, BUF_MAX_SIZE, is_u32 in *.
  wp_steps. bool_hyps. rewrite u32_small in * by (unfold is_u32; lia).
  apply wf_set_len; [done|lia].
Qed.

Lemma wp_setpos b n : wf_buffer b -> 0 <= n -> keeps_wf (buf_setpos n) b.
Proof. intros Hwf Hn. unfold buf_setpos. wp_steps. bool_hyps. by apply wf_set_pos. Qed.

Lemma wp_incrwritepos b n : wf_buffer b -> is_u32 n -> keeps_wf (buf_incrwritepos n) b.
Proof.
  intros Hwf Hn. pose proof Hwf as (Hp & Hl & Hs & Ha & Hb). unfold buf_incrwritepos, id.
  unfold BUF_MAX_INCR, BUF_MAX_SIZE, is_u32 in *.
  wp_steps; bool_hyps; rewrite u32_small in * by (unfold is_u32; lia);
    simpl in *; unfold wf_buffer; simpl; rewrite ?u32_small by (unfold is_u32; lia);
    unfold BUF_MAX_SIZE; split_and!; try done; lia.
Qed.

(** The cursor move is exact: no wrap-around hides in the guard. *)
Lemma wp_incrpos_exact b n :
  wf_buffer b -> - 2 ^ 31 <= n < 2 ^ 31 ->
  wp (buf_incrpos n)
     (fun _ b' => wf_buffer b' /\ b' = set_pos (b_pos b + n) b /\ 0 <= b_pos b + n <= b_len b) b.
Proof.
  intros Hwf Hn. pose proof Hwf as (Hp & Hl & Hs & _). unfold buf_incrpos, id.
  unfold BUF_MAX_INCR, BUF_MAX_SIZE in *.
  wp_steps. bool_hyps. rewrite s32_small in * by lia.
  rewrite (u32_small (b_pos b + n)) in * by (unfold is_u32; lia).
  split_and!; try done; try lia. apply wf_set_pos; [done|lia].
Qed.

Lemma wp_incrpos b n : wf_buffer b -> - 2 ^ 31 <= n < 2 ^ 31 -> keeps_wf (buf_incrpos n) b.
Proof. intros. eapply wp_mono; [by apply wp_incrpos_exact|].
  by intros ? ? [? _]. Qed.

Lemma wp_getbyte b :
  wf_buffer b -> wp buf_getbyte (fun v b' => is_byte v /\ wf_buffer b') b.
Proof.
  intros Hwf. pose proof Hwf as (Hp & Hl & Hs & Ha & Hb). unfold buf_getbyte, id.
  unfold BUF_MAX_SIZE in *.
  wp_step. wp_step. cbn beta. wp_step; [done|]. bool_hyps.
  destruct (zget_is_Some (b_data b) (b_pos b)) as [v Hv]; [lia|]. rewrite Hv.
  wp_steps. rewrite u32_small by (unfold is_u32; lia).
  split; [by eapply (Forall_zget is_byte)|]. apply wf_set_pos; [done|lia].
Qed.

Lemma wp_getbool b :
  wf_buffer b -> wp buf_getbool (fun v b' => (v = 0 \/ v = 1) /\ wf_buffer b') b.
Proof.
  intros Hwf. unfold buf_getbool. wp_step. eapply wp_mono; [by apply wp_getbyte|].
  cbn. intros v b' [_ Hwf']. wp_steps. destruct (v =? 0) eqn:?; bool_hyps; auto.
Qed.

Lemma wp_putbyte b v : wf_buffer b -> is_byte v -> keeps_wf (buf_putbyte v) b.
Proof.
  intros Hwf Hv. pose proof Hwf as (Hp & Hl & Hs & Ha & Hb). unfold buf_putbyte, id.
  wp_step. wp_step. cbn beta. wp_step.
  apply (wp_mono _ (fun _ b' => wf_buffer b' /\ b_pos b' < b_len b' /\ b_pos b' = b_pos b)).
  { wp_step; bool_hyps; [|split; [done|lia]].
    unfold buf_incrlen, id, BUF_MAX_INCR, BUF_MAX_SIZE in *.
    wp_steps. bool_hyps. rewrite u32_small in * by (unfold is_u32; lia).
    split; [apply wf_set_len; [done|lia]|]. simpl. lia. }
  intros [] b1 (Hwf1 & Hlt & Hpos). pose proof Hwf1 as (Hp1 & Hl1 & Hs1 & _).
  wp_steps. apply wp_store_bytes; [done|by constructor|lia|change (zlen [v]) with 1; lia|].
  intros b2 Hwf2 Hp2 Hl2 Hs2. wp_steps. unfold BUF_MAX_SIZE in *.
  rewrite u32_small by (unfold is_u32; lia). apply wf_set_pos; [done|lia].
Qed.

Lemma wp_getptr b n :
  wf_buffer b -> is_u32 n -> n <= OBJECT_MAX ->
  wp (buf_getptr n) (fun p b' => b' = b /\ p = b_pos b /\ p + n <= b_len b) b.
Proof.
  intros Hwf Hn Hmax. pose proof Hwf as (Hp & Hl & Hs & _). unfold buf_getptr, id.
  unfold OBJECT_MAX, BUF_MAX_SIZE, is_u32 in *. wp_steps. bool_hyps.
  rewrite u32_small in * by (unfold is_u32; lia). split_and!; done || lia.
Qed.

Lemma wp_getwriteptr b n :
  wf_buffer b -> is_u32 n -> n <= OBJECT_MAX ->
  wp (buf_getwriteptr n) (fun p b' => b' = b /\ p = b_pos b /\ p + n <= b_size b) b.
Proof.
  intros Hwf Hn Hmax. pose proof Hwf as (Hp & Hl & Hs & _). unfold buf_getwriteptr, id.
  unfold OBJECT_MAX, BUF_MAX_SIZE, is_u32 in *. wp_steps. bool_hyps.
  rewrite u32_small in * by (unfold is_u32; lia). split_and!; done || lia.
Qed.

Lemma wp_getint b :
  wf_buffer b -> wp buf_getint (fun v b' => is_u32 v /\ wf_buffer b') b.
Proof.
  intros Hwf. pose proof Hwf as (Hp & Hl & Hs & _). unfold buf_getint. wp_step.
  eapply wp_mono; [apply wp_getptr; [done|by vm_compute|by vm_compute]|].
  cbn. intros p ? (-> & -> & Hle). wp_step. apply wp_load_bytes; [done|lia|lia|lia|].
  intros l Hl4 Hlb. destruct (load32h_list_4 l Hlb Hl4) as (v & -> & Hv & _).
  wp_step. eapply wp_mono; [apply wp_incrpos; [done|lia]|]. cbn. intros. by wp_steps.
Qed.

(** A write of [bs] through [buf_getwriteptr] and [buf_incrwritepos]. *)
Lemma wp_write b bs n :
  wf_buffer b -> bytes bs -> n = zlen bs -> n <= OBJECT_MAX ->
  keeps_wf (p <- buf_getwriteptr n ;; store_bytes p bs ;;; buf_incrwritepos n) b.
Proof.
  intros Hwf Hbs -> Hn. pose proof Hwf as (Hp & Hl & Hs & _). pose proof (zlen_nonneg bs).
  assert (Hu : is_u32 (zlen bs)) by (unfold is_u32, OBJECT_MAX in *; lia).
  wp_step. eapply wp_mono; [by apply wp_getwriteptr|].
  cbn. intros p ? (-> & -> & Hle). wp_step.
  apply wp_store_bytes; [done..|lia|lia|]. intros b' Hwf' _ _ _. by apply wp_incrwritepos.
Qed.

Lemma wp_putint b v : wf_buffer b -> keeps_wf (buf_putint v) b.
Proof. intros. apply wp_write; [done|apply store32h_bytes|done|by vm_compute]. Qed.

Lemma wp_putbytes b bs :
  wf_buffer b -> bytes bs -> zlen bs <= OBJECT_MAX -> keeps_wf (buf_putbytes bs (zlen bs)) b.
Proof.
  intros Hwf Hbs Hn. pose proof (zlen_nonneg bs).
  assert (E : src_bytes bs (zlen bs) = @ret buffer _ bs).
  { unfold src_bytes. z_guards. by rewrite ztake_all. }
  unfold buf_putbytes. rewrite E. by apply wp_write.
Qed.

Lemma wp_putstring b bs :
  wf_buffer b -> bytes bs -> zlen bs <= OBJECT_MAX -> keeps_wf (buf_putstring bs (zlen bs)) b.
Proof.
  intros. unfold buf_putstring. wp_step. eapply wp_mono; [by apply wp_putint|].
  cbn. intros _ b' Hwf'. by apply wp_putbytes.
Qed.

Lemma wp_getstring b :
  wf_buffer b ->
  wp buf_getstring (fun '(str, len) b' => wf_buffer b' /\ bytes str /\
                      0 <= len <= MAX_STRING_LEN /\ zlen str = len + 1) b.
Proof.
  intros Hwf. unfold buf_getstring, MAX_STRING_LEN. wp_step.
  eapply wp_mono; [by apply wp_getint|]. cbn. intros len b1 [Hlen Hwf1].
  unfold is_u32 in Hlen. wp_step; [done|]. bool_hyps.
  rewrite u32_small by (unfold is_u32; lia). rewrite s32_small by lia.
  unfold m_malloc. z_guards. do 2 wp_step. cbn beta. wp_step.
  eapply wp_mono; [apply wp_getptr; [done|unfold is_u32; lia|unfold OBJECT_MAX; lia]|].
  cbn. intros p ? (-> & -> & Hle). pose proof Hwf1 as (Hp & Hl & Hs & _).
  wp_step. apply wp_load_bytes; [done|lia..|]. intros l Hl' Hlb.
  wp_step. eapply wp_mono; [apply wp_incrpos; [done|lia]|]. cbn. intros _ b2 Hwf2.
  wp_steps.
  set (mem := replicate (Z.to_nat (len + 1)) 0).
  assert (Hm : zlen mem = len + 1) by (unfold zlen, mem; rewrite length_replicate; lia).
  assert (Hmb : bytes mem) by (apply Forall_replicate; by vm_compute).
  split_and!; [done| |lia..|].
  - rewrite zset_splice by (rewrite zlen_splice; lia).
    apply Forall_splice; [by repeat constructor; vm_compute|by apply Forall_splice].
  - rewrite zlen_zset, zlen_splice; lia.
Qed.

Lemma wp_eatstring b : wf_buffer b -> keeps_wf buf_eatstring b.
Proof.
  intros Hwf. unfold buf_eatstring. wp_step. eapply wp_mono; [by apply wp_getint|].
  cbn. intros n b' [Hn Hwf']. apply wp_incrpos; [done|].
  unfold s32, is_u32 in *. rewrite Z.mod_small by lia. case_match; bool_hyps; lia.
Qed.
End Safety.

(** ** Reachable buffers

    Every buffer the program can hold: made by a constructor and changed by
    any sequence of the operations.  [op_ok] is what callers owe: C objects
    fit in memory, and [buf_setlen] does not cut below the position. *)

Inductive buf_op :=
| OpSetlen (n : Z) | OpIncrlen (n : Z) | OpSetpos (n : Z) | OpIncrwritepos (n : Z)
| OpIncrpos (n : Z) | OpGetbyte | OpGetbool | OpPutbyte (v : Z) | OpGetint
| OpPutint (v : Z) | OpGetstring | OpEatstring | OpPutbytes (bs : list Z)
| OpPutstring (bs : list Z) | OpResize (fresh : Z -> Z) (n : Z) | OpBurn.

Definition run_op (op : buf_op) : prog buffer unit :=
  match op with
  | OpSetlen n => buf_setlen n
  | OpIncrlen n => buf_incrlen n
  | OpSetpos n => buf_setpos n
  | OpIncrwritepos n => buf_incrwritepos n
  | OpIncrpos n => buf_incrpos n
  | OpGetbyte => buf_getbyte ;;; ret tt
  | OpGetbool => buf_getbool ;;; ret tt
  | OpPutbyte v => buf_putbyte v
  | OpGetint => buf_getint ;;; ret tt
  | OpPutint v => buf_putint v
  | OpGetstring => buf_getstring ;;; ret tt
  | OpEatstring => buf_eatstring
  | OpPutbytes bs => buf_putbytes bs (zlen bs)
  | OpPutstring bs => buf_putstring bs (zlen bs)
  | OpResize fresh n => buf_resize fresh n
  | OpBurn => buf_burn
  end.

Definition op_ok (b : buffer) (op : buf_op) : Prop :=
  match op with
  | OpSetlen n => is_u32 n /\ b_pos b <= n
  | OpIncrlen n | OpSetpos n | OpIncrwritepos n | OpResize _ n => is_u32 n
  | OpIncrpos n => - 2 ^ 31 <= n < 2 ^ 31
  | OpPutbyte v => is_byte v
  | OpPutbytes bs | OpPutstring bs => bytes bs /\ zlen bs <= OBJECT_MAX
  | _ => True
  end.

Inductive buf_reachable : buffer -> Prop :=
| reach_new size b (s s' : unit) :
    is_u32 size -> buf_new size s = Ok (b, s') -> buf_reachable b
| reach_newcopy b b' (s s' : unit) :
    buf_reachable b -> buf_newcopy b s = Ok (b', s') -> buf_reachable b'
| reach_stringbuf b r b' :
    buf_reachable b -> buf_getstringbuf b = Ok (r, b') -> buf_reachable r
| reach_op op b b' :
    buf_reachable b -> op_ok b op -> run_op op b = Ok (tt, b') -> buf_reachable b'.

(** Values a packet is built from. *)
Inductive item :=
| IByte (v : Z) | IBool (v : Z) | IInt (v : Z) | IString (s : list Z).

Inductive kind := KByte | KBool | KInt | KString.

Definition kind_of (i : item) : kind :=
  match i with IByte _ => KByte | IBool _ => KBool | IInt _ => KInt | IString _ => KString end.

Definition wf_item (i : item) : Prop :=
  match i with
  | IByte v => is_byte v
  | IBool v => v = 0 \/ v = 1
  | IInt v => is_u32 v
  | IString s => bytes s /\ zlen s <= MAX_STRING_LEN
  end.

(** The wire encoding, RFC 4251 section 5. *)
Definition encode_item (i : item) : list Z :=
  match i with
  | IByte v | IBool v => [v]
  | IInt v => store32h v
  | IString s => store32h (zlen s) ++ s
  end.

Definition put_item (i : item) : prog buffer unit :=
  match i with
  | IByte v | IBool v => buf_putbyte v
  | IInt v => buf_putint v
  | IString s => buf_putstring s (zlen s)
  end.

Definition get_item (k : kind) : prog buffer item :=
  match k with
  | KByte => v <- buf_getbyte ;; ret (IByte v)
  | KBool => v <- buf_getbool ;; ret (IBool v)
  | KInt => v <- buf_getint ;; ret (IInt v)
  | KString => x <- buf_getstring ;; ret (IString (ztake (snd x) (fst x)))
  end.

Fixpoint put_items (l : list item) : prog buffer unit :=
  match l with
  | [] => ret tt
  | i :: l => put_item i ;;; put_items l
  end.

Fixpoint get_items (l : list kind) : prog buffer (list item) :=
  match l with
  | [] => ret []
  | k :: l => i <- get_item k ;; r <- get_items l ;; ret (i :: r)
  end.

(** ** Constructors *)

Lemma repr_buf_new {S} size (s : S) :
  0 <= size <= BUF_MAX_SIZE ->
  exists b, buf_new size s = Ok (b, s) /\ buf_repr b [] [] size.
Proof.
  intros Hs. unfold buf_new, bind, m_malloc. rewrite Z.gtb_ltb.
  exists (mkbuf (replicate (Z.to_nat size) 0) 0 0 size). split.
  - z_guards. destruct (Z.ltb_spec 0 size); z_guards; [done|].
    by replace size with 0 by lia.
  - split; simpl; try done; try lia; [|apply Forall_replicate; by vm_compute].
    exists (replicate (Z.to_nat size) 0). split; [done|].
    unfold zlen. rewrite length_replicate. lia.
Qed.

(** Storing [m] at the start of an empty buffer and making it used. *)
Lemma repr_fill b room m n :
  buf_repr b [] [] room -> bytes m -> n = zlen m -> n <= room ->
  exists b', (store_bytes 0 m ;;; buf_incrlen n) b = Ok (tt, b') /\ buf_repr b' [] m (room - n).
Proof.
  intros H Hm -> Hn. repr_facts H. change (zlen (@nil Z)) with 0 in *. pose proof (zlen_nonneg m).
  destruct (repr_store b [] [] room m H Hm) as (b1 & E & Hp1 & Hl1 & Hs1 & Hby & rest & Hd & Hr);
    [change (zlen (@nil Z)) with 0; lia|].
  rewrite Hpos in E. exists (set_len (b_len b1 + zlen m) b1). split.
  - rewrite (bind_ok _ _ _ _ _ E). unfold buf_incrlen, bind, gets, id, BUF_MAX_INCR.
    rewrite u32_small by (unfold is_u32; lia). by z_guards.
  - unfold room_after in Hr. change (zlen (@nil Z)) with 0 in *.
    split; simpl; rewrite ?Hp1, ?Hl1, ?Hs1; change (zlen (@nil Z)) with 0; try (unfold BUF_MAX_SIZE; lia); [|done].
    exists rest. rewrite Hd. split; [|lia]. unfold zdrop. by rewrite drop_nil.
Qed.

Lemma repr_newcopy {S} b pre post room (s : S) :
  buf_repr b pre post room ->
  exists b', buf_newcopy b s = Ok (b', s) /\ buf_repr b' [] (pre ++ post) 0.
Proof.
  intros H. repr_facts H. destruct (buf_repr_bytes _ _ _ _ H) as [Hpre Hpost].
  destruct (br_data _ _ _ _ H) as (rest & Hd & Hrest).
  destruct (repr_buf_new (b_len b) s) as (r & Er & Hr); [unfold BUF_MAX_SIZE; zlia|].
  assert (Hsrc : ztake (b_len b) (b_data b) = pre ++ post).
  { rewrite Hd, Hlen, <-zlen_app, app_assoc. apply ztake_app_zlen. }
  destruct (br_data _ _ _ _ Hr) as (rest' & Hd' & Hrest'). cbn [app] in Hd'.
  assert (Hst : store_bytes 0 (pre ++ post) (set_len (b_len b) r)
                = Ok (tt, set_data (splice 0 (pre ++ post) rest') (set_len (b_len b) r))).
  { unfold store_bytes. simpl. rewrite Hd'. by z_guards. }
  exists (set_data (splice 0 (pre ++ post) rest') (set_len (b_len b) r)). split.
  - unfold buf_newcopy. erewrite bind_ok by exact Er. cbn beta zeta.
    assert (Esrc : src_bytes (b_data b) (b_len b) s = Ok (pre ++ post, s)).
    { rewrite src_bytes_ok, Hsrc; [done|]. rewrite Hd. zlia. }
    erewrite bind_ok by exact Esrc. by rewrite Hst.
  - repr_facts Hr. split; simpl; unfold BUF_MAX_SIZE; try zlia.
    + exists (zdrop (zlen (pre ++ post)) rest'). split; [done|apply zlen_nonneg].
    + apply Forall_splice; [by apply Forall_app_2|]. pose proof (br_bytes _ _ _ _ Hr) as Hb.
      by rewrite Hd' in Hb.
Qed.

Lemma wf_resize fresh b n : wf_buffer b -> is_u32 n -> wp (buf_resize fresh n) (fun _ b' => wf_buffer b') b.
Proof.
  intros (Hp & Hl & Hs & Ha & Hb) Hn. unfold is_u32 in Hn. unfold buf_resize, wp.
  rewrite Z.gtb_ltb. destruct (Z.ltb_spec BUF_MAX_SIZE n); [done|].
  destruct (Z.eqb_spec n 0) as [->|]; [done|].
  destruct (m_realloc_spec fresh (b_data b) n b) as (p & E & Hz & Hpb & _); [lia|done|].
  erewrite bind_ok by exact E. simpl. unfold wf_buffer. simpl. split_and!; try done; lia.
Qed.

Lemma wf_burn b : wf_buffer b -> wp buf_burn (fun _ b' => wf_buffer b') b.
Proof.
  intros (Hp & Hl & Hs & Ha & Hb). unfold wp, buf_burn, bind, m_burn.
  assert (forall l, bytes l -> bytes (m_burn_loop (Z.to_nat (b_size b)) l) /\
                    length (m_burn_loop (Z.to_nat (b_size b)) l) = length l) as Hburn.
  { generalize (Z.to_nat (b_size b)). intros n. induction n as [|n IH]; intros [|x l] Hl';
      try done; simpl. apply Forall_cons_1 in Hl' as [_ Hl']. destruct (IH _ Hl') as [? ->].
    split; [|done]. by constructor; [vm_compute|]. }
  destruct (Hburn _ Hb) as [Hb' Hlen].
  destruct (zlen (b_data b) =? 0); [by unfold wf_buffer; simpl|]. z_guards. simpl.
  unfold wf_buffer, zlen in *. simpl. rewrite Hlen. done.
Qed.

Lemma run_op_safe op b :
  wf_buffer b -> op_ok b op -> wp (run_op op) (fun _ b' => wf_buffer b') b.
Proof.
  intros Hwf Hok. destruct op; simpl in *; destruct_and?;
    eauto using wp_setlen, wp_incrlen, wp_incrwritepos, wp_incrpos, wp_putbyte, wp_putint,
      wp_putbytes, wp_putstring, wp_eatstring, wf_resize, wf_burn.
  - apply wp_setpos; [done|]. unfold is_u32 in *. lia.
  - wp_step. eapply wp_mono; [by apply wp_getbyte|]. cbn. by intros ? ? [? ?].
  - wp_step. eapply wp_mono; [by apply wp_getbool|]. cbn. by intros ? ? [? ?].
  - wp_step. eapply wp_mono; [by apply wp_getint|]. cbn. by intros ? ? [? ?].
  - wp_step. eapply wp_mono; [by apply wp_getstring|]. cbn. by intros [] ? [? ?].
Qed.

Lemma reachable_wf b : buf_reachable b -> wf_buffer b.
Proof.
  induction 1 as [size b s s' Hs E|b b' s s' _ IH E|b r b' _ IH E|op b b' _ IH Hok E].
  - unfold is_u32 in Hs. destruct (Z.le_gt_cases size BUF_MAX_SIZE).
    + destruct (repr_buf_new size s) as (b0 & E0 & H0); [lia|].
      rewrite E in E0. injection E0 as -> ->. by eapply buf_repr_wf.
    + unfold buf_new in E. rewrite Z.gtb_ltb in E.
      by rewrite (proj2 (Z.ltb_lt _ _)) in E by done.
  - destruct (repr_newcopy b _ _ _ s (wf_buf_repr b IH)) as (b0 & E0 & H0).
    rewrite E in E0. injection E0 as -> ->. by eapply buf_repr_wf.
  - unfold buf_getstringbuf in E.
    apply bind_inv in E as ([str len] & b1 & E1 & E2).
    pose proof (wp_ok _ _ _ _ _ (wp_getstring b IH) E1) as (Hwf & Hb & Hlen & Hz).
    injection E2 as <- _. unfold wf_buffer, MAX_STRING_LEN, BUF_MAX_SIZE in *. simpl.
    split_and!; done || lia.
  - eapply (wp_ok _ (fun _ b' => wf_buffer b')); [|exact E]. by apply run_op_safe.
Qed.

Lemma repr_put_item i b pre room :
  wf_item i -> buf_repr b pre [] room -> zlen (encode_item i) <= room ->
  exists b', put_item i b = Ok (tt, b') /\
             buf_repr b' (pre ++ encode_item i) [] (room - zlen (encode_item i)).
Proof.
  intros Hi H Hn. pose proof (zlen_nonneg (encode_item i)).
  assert (Hnil : forall n, post_after n [] = []) by (intros; apply drop_nil).
  assert (Hroom : forall n r, 0 <= n -> room_after n [] r = r - n)
    by (intros; unfold room_after, zlen; simpl; lia).
  destruct i as [v|v|v|s]; cbn [put_item encode_item wf_item] in *.
  - change (zlen [v]) with 1 in *.
    destruct (repr_putbyte _ _ _ _ v H) as (b' & E & H'); [done|rewrite zlen_nil; lia|].
    rewrite Hnil, Hroom in H' by lia. eauto.
  - change (zlen [v]) with 1 in *.
    destruct (repr_putbyte _ _ _ _ v H) as (b' & E & H');
      [destruct Hi as [->| ->]; by vm_compute|rewrite zlen_nil; lia|].
    rewrite Hnil, Hroom in H' by lia. eauto.
  - rewrite zlen_store32h in *.
    destruct (repr_putint _ _ _ _ v H) as (b' & E & H'); [rewrite zlen_nil; lia|].
    rewrite Hnil, Hroom in H' by lia. eauto.
  - destruct Hi as [Hs Hlen]. rewrite zlen_app, zlen_store32h in *. pose proof (zlen_nonneg s).
    destruct (repr_putstring _ _ _ _ s _ eq_refl H) as (b' & E & H');
      [done|rewrite zlen_nil; lia|].
    rewrite !Hnil in H'. rewrite (Hroom 4), (Hroom (zlen s)) in H' by lia. exists b'. split; [done|].
    by replace (room - (4 + zlen s)) with (room - 4 - zlen s) by lia.
Qed.

Lemma repr_put_items l b pre room :
  Forall wf_item l -> buf_repr b pre [] room -> zlen (concat (map encode_item l)) <= room ->
  exists b', put_items l b = Ok (tt, b') /\
             buf_repr b' (pre ++ concat (map encode_item l)) []
                      (room - zlen (concat (map encode_item l))).
Proof.
  revert b pre room. induction l as [|i l IH]; intros b pre room Hl H Hn; simpl in *.
  { exists b. rewrite app_nil_r, zlen_nil, Z.sub_0_r. done. }
  apply Forall_cons_1 in Hl as [Hi Hl]. rewrite zlen_app in *.
  pose proof (zlen_nonneg (concat (map encode_item l))).
  destruct (repr_put_item i _ _ _ Hi H) as (b1 & E1 & H1); [lia|].
  destruct (IH _ _ _ Hl H1) as (b2 & E2 & H2); [lia|].
  exists b2. split; [by erewrite bind_ok by exact E1|].
  rewrite <-app_assoc in H2. by rewrite Z.sub_add_distr.
Qed.

Lemma repr_get_item i b pre post room :
  wf_item i -> buf_repr b pre (encode_item i ++ post) room ->
  exists b', get_item (kind_of i) b = Ok (i, b') /\ buf_repr b' (pre ++ encode_item i) post room.
Proof.
  intros Hi H. destruct i as [v|v|v|s]; cbn [get_item kind_of encode_item wf_item] in *.
  - destruct (repr_getbyte _ _ _ _ _ H) as (b' & E & H'). exists b'.
    by erewrite bind_ok by exact E.
  - destruct (repr_getbyte _ _ _ _ _ H) as (b' & E & H'). exists b'. split; [|done].
    unfold buf_getbool. erewrite bind_ok; [|erewrite bind_ok by exact E; reflexivity].
    by destruct Hi as [->| ->].
  - destruct (repr_getint _ _ _ _ _ Hi H) as (b' & E & H'). exists b'.
    by erewrite bind_ok by exact E.
  - destruct Hi as [Hs Hlen]. rewrite <-app_assoc in H.
    destruct (repr_getstring _ _ _ _ _ _ eq_refl Hlen H) as (b' & E & H'). exists b'.
    erewrite bind_ok by exact E. cbn [fst snd]. by rewrite ztake_app_zlen.
Qed.

Lemma repr_get_items l b pre post room :
  Forall wf_item l -> buf_repr b pre (concat (map encode_item l) ++ post) room ->
  exists b', get_items (map kind_of l) b = Ok (l, b') /\
             buf_repr b' (pre ++ concat (map encode_item l)) post room.
Proof.
  revert b pre. induction l as [|i l IH]; intros b pre Hl H; simpl in *.
  { exists b. by rewrite app_nil_r. }
  apply Forall_cons_1 in Hl as [Hi Hl]. rewrite <-app_assoc in H.
  destruct (repr_get_item i _ _ _ _ Hi H) as (b1 & E1 & H1).
  destruct (IH _ _ Hl H1) as (b2 & E2 & H2). exists b2.
  rewrite <-app_assoc in H2. split; [|done].
  erewrite bind_ok by exact E1. by erewrite bind_ok by exact E2.
Qed.

(** ** Appending *)

(** A buffer that is being filled: [pre] is written, [room] is left. *)
Section Append.
Implicit Types (b : buffer) (pre bs : list Z) (room n : Z) (Q : unit -> buffer -> Prop).

Lemma append_post n : post_after n [] = [].
Proof. apply drop_nil. Qed.

Lemma append_room n room : 0 <= n -> room_after n [] room = room - n.
Proof. intros Hn. unfold room_after. change (zlen (@nil Z)) with 0. lia. Qed.

Lemma append_putbyte b pre room v Q : buf_repr b pre [] room -> is_byte v -> 1 <= room ->
  (forall b', buf_repr b' (pre ++ [v]) [] (room - 1) -> Q tt b') -> twp (buf_putbyte v) Q b.
Proof.
  intros H Hv Hr HQ. destruct (repr_putbyte b pre [] room v H Hv) as (b' & E & H'); [zlia|].
  rewrite append_post, append_room in H' by lia. by eapply twp_ok; [exact E|apply HQ].
Qed.

Lemma append_putint b pre room v Q : buf_repr b pre [] room -> 4 <= room ->
  (forall b', buf_repr b' (pre ++ store32h v) [] (room - 4) -> Q tt b') -> twp (buf_putint v) Q b.
Proof.
  intros H Hr HQ. destruct (repr_putint b pre [] room v H) as (b' & E & H'); [zlia|].
  rewrite append_post, append_room in H' by lia. by eapply twp_ok; [exact E|apply HQ].
Qed.

Lemma append_putstring b pre room bs n Q : buf_repr b pre [] room -> n = zlen bs -> bytes bs -> 4 + n <= room ->
  (forall b', buf_repr b' (pre ++ store32h n ++ bs) [] (room - 4 - n) -> Q tt b') -> twp (buf_putstring bs n) Q b.
Proof.
  intros H Hn Hb Hr HQ. destruct (repr_putstring b pre [] room bs n Hn H Hb) as (b' & E & H'); [zlia|].
  pose proof (zlen_nonneg bs). rewrite !append_post, !append_room in H' by lia. by eapply twp_ok; [exact E|apply HQ].
Qed.
End Append.

(** What the constructors give, for any size; a copy has the contents. *)
Lemma wp_buf_new {S} n (s : S) (Q : buffer -> S -> Prop) : 0 <= n -> (forall b, wf_buffer b -> b_pos b = 0 -> Q b s) -> wp (buf_new n) Q s.
Proof.
  intros Hn HQ. destruct (Z.le_gt_cases n BUF_MAX_SIZE).
  - destruct (repr_buf_new n s) as (b & E & Hb); [lia|]. unfold wp. rewrite E. apply HQ; [by eapply buf_repr_wf|apply Hb].
  - unfold buf_new, wp. rewrite Z.gtb_ltb, (proj2 (Z.ltb_lt _ _)) by done. done.
Qed.

Lemma wp_newcopy {S} b (s : S) (Q : buffer -> S -> Prop) : wf_buffer b -> (forall b', wf_buffer b' -> Q b' s) -> wp (buf_newcopy b) Q s.
Proof.
  intros Hwf HQ. pose proof (wf_buf_repr b Hwf) as Hb.
  destruct (repr_newcopy b _ _ _ s Hb) as (b' & E & Hb'). unfold wp. rewrite E. apply HQ. by eapply buf_repr_wf.
Qed.

(** The first [n] bytes of an array. *)
Lemma wp_putprefix b bs n : wf_buffer b -> bytes bs -> 0 <= n <= zlen bs -> n <= OBJECT_MAX ->
  wp (buf_putbytes bs n) (fun _ b' => wf_buffer b') b.
Proof.
  intros Hwf Hb Hn Hm. assert (E : src_bytes bs n = @ret buffer _ (ztake n bs)) by (unfold src_bytes; by z_guards).
  unfold buf_putbytes. rewrite E. apply wp_write; [done|by apply Forall_ztake|by rewrite zlen_ztake|done].
Qed.

(** ** Properties *)



(** C3: the wire codec round-trips.  Bytes, booleans, 32-bit integers and
    strings written one after the other into a fresh buffer produce their RFC
    4251 encoding, and after [buf_setpos (buf, 0)] the matching reads return
    the same values and consume exactly what was written. *)
Theorem buffer_codec_roundtrip (l : list item) (size : Z) :
  Forall wf_item l -> zlen (concat (map encode_item l)) <= size <= BUF_MAX_SIZE ->
  exists b0 b1 b2 b3,
    buf_new size tt = Ok (b0, tt) /\
    put_items l b0 = Ok (tt, b1) /\
    ztake (b_len b1) (b_data b1) = concat (map encode_item l) /\
    buf_setpos 0 b1 = Ok (tt, b2) /\
    get_items (map kind_of l) b2 = Ok (l, b3) /\
    b_pos b3 = b_len b1.
Proof.
  intros Hl Hs. pose proof (zlen_nonneg (concat (map encode_item l))).
  destruct (repr_buf_new size tt) as (b0 & E0 & H0); [lia|].
  destruct (repr_put_items l b0 _ _ Hl H0) as (b1 & E1 & H1); [lia|].
  destruct (repr_rewind _ _ _ _ H1) as (b2 & E2 & H2). rewrite app_nil_l in H2.
  destruct (repr_get_items l b2 _ _ _ Hl H2) as (b3 & E3 & H3).
  exists b0, b1, b2, b3. split_and!; try done.
  - rewrite (br_len _ _ _ _ H1). destruct (br_data _ _ _ _ H1) as (rest & -> & _).
    rewrite zlen_nil, Z.add_0_r. apply ztake_app_zlen.
  - rewrite (br_pos _ _ _ _ H3), (br_len _ _ _ _ H1). zlia.
Qed.

Lemma buffer_codec_roundtrip_witness :
  exists b0 b1 b2 b3,
    buf_new 20 tt = Ok (b0, tt) /\
    put_items [IByte 94; IInt 65536; IString [1; 2; 3]; IBool 1] b0 = Ok (tt, b1) /\
    ztake (b_len b1) (b_data b1) = [94; 0; 1; 0; 0; 0; 0; 0; 3; 1; 2; 3; 1] /\
    buf_setpos 0 b1 = Ok (tt, b2) /\
    get_items [KByte; KInt; KString; KBool] b2
      = Ok ([IByte 94; IInt 65536; IString [1; 2; 3]; IBool 1], b3) /\
    b_pos b3 = b_len b1.
Proof.
  apply (buffer_codec_roundtrip [IByte 94; IInt 65536; IString [1; 2; 3]; IBool 1] 20).
  - repeat constructor; (by vm_compute) || (by right).
  - by vm_compute.
Defined.

(** [buf_eatstring] is not [buf_getstring] without the copy: a length
    word of [2^32 - k] is refused by [buf_getstring], but [buf_eatstring]
    converts it to the negative increment [-k] and moves the position
    backwards, before the bytes it has just read. *)
Theorem buf_eatstring_rewinds (b : buffer) (pre post : list Z) (room k : Z) :
  0 < k <= zlen pre + 4 ->
  buf_repr b pre (store32h (2 ^ 32 - k) ++ post) room ->
  buf_getstring b = Exit "String too long" /\
  exists b', buf_eatstring b = Ok (tt, b') /\ b_pos b' = b_pos b + 4 - k.
Proof.
  intros Hk H. repr_facts H. 
  destruct (repr_getint b pre (2 ^ 32 - k) post room) as (b1 & E1 & H1);
    [unfold is_u32; zlia|done|].
  pose proof (br_pos _ _ _ _ H1) as Hp1. pose proof (br_len _ _ _ _ H1) as Hl1.
  split.
  - unfold buf_getstring. erewrite bind_ok by exact E1.
    unfold MAX_STRING_LEN. by z_guards.
  - unfold buf_eatstring. erewrite bind_ok by exact E1.
    assert (Hk' : s32 (2 ^ 32 - k) = - k).
    { unfold s32. rewrite Z.mod_small by zlia. z_guards. lia. }
    rewrite Hk'. pose proof (br_max _ _ _ _ H1). pose proof (br_size _ _ _ _ H1).
    pose proof (br_room _ _ _ _ H1). unfold BUF_MAX_SIZE in *.
    autorewrite with zlist in *. rewrite zlen_store32h in *.
    exists (set_pos (b_pos b1 - k) b1). split; [|simpl; lia].
    unfold buf_incrpos, bind, gets, id, BUF_MAX_INCR.
    rewrite s32_small by zlia. rewrite u32_small by (unfold is_u32; zlia).
    z_guards. unfold modify. reflexivity.
Qed.

Lemma buf_eatstring_rewinds_witness :
  let b := mkbuf [255; 255; 255; 252; 7] 5 0 5 in
  buf_getstring b = Exit "String too long" /\
  exists b', buf_eatstring b = Ok (tt, b') /\ b_pos b' = 0.
Proof.
  apply (buf_eatstring_rewinds (mkbuf [255; 255; 255; 252; 7] 5 0 5) [] [7] 0 4);
    [by vm_compute|].
  split; try done.
  - by exists [].
  - repeat constructor; by vm_compute.
Defined.

(** What the guard of [buf_getptr] admits.  The pointer is handed out
    exactly when the [n] bytes lie within the used part or when [pos + n]
    wraps around 2^32, so the check is a bound only for sizes that leave no
    wrap-around (every object a 32-bit program can hold). *)
Theorem buf_getptr_bounds (b : buffer) (n : Z) :
  wf_buffer b -> is_u32 n ->
  (buf_getptr n b = Ok (b_pos b, b) <-> b_pos b + n <= b_len b \/ 2 ^ 32 <= b_pos b + n) /\
  (n <= OBJECT_MAX -> buf_getptr n b = Ok (b_pos b, b) -> b_pos b + n <= b_len b).
Proof.
  intros (Hp & Hl & Hs & _) Hn. unfold is_u32, BUF_MAX_SIZE, OBJECT_MAX in *.
  assert (Hiff : buf_getptr n b = Ok (b_pos b, b) <->
                 b_pos b + n <= b_len b \/ 2 ^ 32 <= b_pos b + n).
  { unfold buf_getptr, bind, gets, id.
    rewrite u32_add_overflow by (unfold is_u32; lia). rewrite Z.gtb_ltb.
    destruct (Z.ltb_spec (b_pos b + n) (2 ^ 32)) as [Hlt|Hge].
    - destruct (Z.ltb_spec (b_len b) (b_pos b + n)); split; try done; lia.
    - z_guards. split; [lia|done]. }
  split; [done|]. intros Hmax E. apply Hiff in E. lia.
Qed.

Lemma buf_getptr_bounds_witness :
  let b := mkbuf [5; 6] 2 1 2 in
  (buf_getptr (2 ^ 32 - 1) b = Ok (1, b) <-> 1 + (2 ^ 32 - 1) <= 2 \/ 2 ^ 32 <= 1 + (2 ^ 32 - 1)) /\
  (2 ^ 32 - 1 <= OBJECT_MAX -> buf_getptr (2 ^ 32 - 1) b = Ok (1, b) -> 1 + (2 ^ 32 - 1) <= 2).
Proof.
  apply (buf_getptr_bounds (mkbuf [5; 6] 2 1 2) (2 ^ 32 - 1)).
  - unfold wf_buffer, BUF_MAX_SIZE. simpl. split_and!; try lia; [by vm_compute|].
    repeat constructor; by vm_compute.
  - by vm_compute.
Defined.
