(* ===== verification/CircBuffer.v ===== *)
(** Model of dropbear's circbuffer.c, the ring buffer that holds channel data
    between the wire and a local file descriptor, with its refinement to a
    FIFO byte queue. *)

From S2P Require Import Prelude Dbutil.

Local Open Scope prog_scope.

Definition MAX_CBUF_SIZE : Z := 100000000.

(** [struct circbuf]. *)
Record circbuffer := mkcbuf {
  c_size : Z; c_readpos : Z; c_writepos : Z; c_used : Z; c_data : list Z }.

Definition set_used u c := mkcbuf (c_size c) (c_readpos c) (c_writepos c) u (c_data c).
Definition set_readpos r c := mkcbuf (c_size c) r (c_writepos c) (c_used c) (c_data c).
Definition set_writepos w c := mkcbuf (c_size c) (c_readpos c) w (c_used c) (c_data c).
Definition set_cdata d c := mkcbuf (c_size c) (c_readpos c) (c_writepos c) (c_used c) d.

(** The C operator [%] on unsigned values. *)
Definition c_mod {S} (a b : Z) : prog S Z :=
  if b =? 0 then fault "division by zero" else ret (a mod b).

Definition cbuf_new {S} (size : Z) : prog S circbuffer :=
  if size >? MAX_CBUF_SIZE then dropbear_exit "Bad cbuf size"
  else
    data <- (if size >? 0 then m_malloc size else ret []) ;;
    ret (mkcbuf size 0 0 0 data).

Definition cbuf_getused (c : circbuffer) : Z := c_used c.

Definition cbuf_getavail (c : circbuffer) : Z := u32 (c_size c - c_used c).

(** The two consistency assertions both length functions start with. *)
Definition cbuf_assert_positions : prog circbuffer unit :=
  c <- gets id ;;
  a <- c_mod (u32 (u32 (2 * c_size c) + c_writepos c - c_readpos c)) (c_size c) ;;
  b <- c_mod (c_used c) (c_size c) ;;
  dropbear_assert (a =? b) ;;;
  a <- c_mod (u32 (u32 (2 * c_size c) + c_readpos c - c_writepos c)) (c_size c) ;;
  b <- c_mod (u32 (c_size c - c_used c)) (c_size c) ;;
  dropbear_assert (a =? b).

Definition cbuf_readlen : prog circbuffer Z :=
  cbuf_assert_positions ;;;
  c <- gets id ;;
  if c_used c =? 0 then ret 0
  else if c_readpos c <? c_writepos c then ret (u32 (c_writepos c - c_readpos c))
  else ret (u32 (c_size c - c_readpos c)).

Definition cbuf_writelen : prog circbuffer Z :=
  c <- gets id ;;
  dropbear_assert (c_used c <=? c_size c) ;;;
  cbuf_assert_positions ;;;
  c <- gets id ;;
  if c_used c =? c_size c then ret 0
  else if c_writepos c <? c_readpos c then ret (u32 (c_readpos c - c_writepos c))
  else ret (u32 (c_size c - c_writepos c)).

(** Both return a pointer into [data], here its offset. *)
Definition cbuf_readptr (len : Z) : prog circbuffer Z :=
  n <- cbuf_readlen ;;
  if len >? n then dropbear_exit "Bad cbuf read" else gets c_readpos.

Definition cbuf_writeptr (len : Z) : prog circbuffer Z :=
  n <- cbuf_writelen ;;
  if len >? n then dropbear_exit "Bad cbuf write" else gets c_writepos.

Definition cbuf_incrwrite (len : Z) : prog circbuffer unit :=
  n <- cbuf_writelen ;;
  if len >? n then dropbear_exit "Bad cbuf write"
  else
    modify (fun c => set_used (u32 (c_used c + len)) c) ;;;
    c <- gets id ;;
    dropbear_assert (c_used c <=? c_size c) ;;;
    w <- c_mod (u32 (c_writepos c + len)) (c_size c) ;;
    modify (set_writepos w).

Definition cbuf_incrread (len : Z) : prog circbuffer unit :=
  n <- cbuf_readlen ;;
  if len >? n then dropbear_exit "Bad cbuf read"
  else
    c <- gets id ;;
    dropbear_assert (c_used c >=? len) ;;;
    modify (fun c => set_used (u32 (c_used c - len)) c) ;;;
    r <- c_mod (u32 (c_readpos c + len)) (c_size c) ;;
    modify (set_readpos r).

(** Memory accesses of the clients through the returned pointers. *)
Definition cbuf_load (off n : Z) : prog circbuffer (list Z) := fun c =>
  if (0 <=? off) && (0 <=? n) && (off + n <=? zlen (c_data c))
  then Ok (zslice off n (c_data c), c) else Fault "cbuf read out of bounds".

Definition cbuf_store (off : Z) (bs : list Z) : prog circbuffer unit := fun c =>
  if (0 <=? off) && (off + zlen bs <=? zlen (c_data c))
  then Ok (tt, set_cdata (splice off bs (c_data c)) c) else Fault "cbuf write out of bounds".

(** ** The FIFO a ring buffer stands for *)

Definition contents (c : circbuffer) : list Z :=
  map (fun i => znth (c_data c) ((c_readpos c + Z.of_nat i) mod c_size c))
      (seq 0 (Z.to_nat (c_used c))).

Definition wf_cbuf (c : circbuffer) : Prop :=
  0 < c_size c <= MAX_CBUF_SIZE /\ 0 <= c_readpos c < c_size c /\
  0 <= c_used c <= c_size c /\
  c_writepos c = (c_readpos c + c_used c) mod c_size c /\
  zlen (c_data c) = c_size c /\ bytes (c_data c).

Lemma wrap_mod a s : 0 < s -> 0 <= a < 2 * s -> a mod s = if a <? s then a else a - s.
Proof.
  intros. destruct (Z.ltb_spec a s); [apply Z.mod_small; lia|].
  rewrite <-(Z.mod_small (a - s) s) by lia.
  rewrite <-(Z.mod_add (a - s) 1 s) by lia. f_equal. lia.
Qed.

Lemma zlen_contents c : 0 <= c_used c -> zlen (contents c) = c_used c.
Proof. intros. unfold zlen, contents. rewrite length_map, length_seq. lia. Qed.

Lemma zget_contents c i :
  0 <= i < c_used c ->
  zget (contents c) i = Some (znth (c_data c) ((c_readpos c + i) mod c_size c)).
Proof.
  intros. unfold zget, contents. rewrite (proj2 (Z.leb_le 0 i)) by lia.
  change (@map nat Z) with (@fmap list _ nat Z).
  rewrite list_lookup_fmap, lookup_seq_lt by lia. simpl. do 4 f_equal. lia.
Qed.

(** Positions are below 2^32, so the ring arithmetic never wraps. *)
Ltac cbuf_facts H :=
  let Hs := fresh "Hsize" in let Hr := fresh "Hread" in let Hu := fresh "Hused" in
  let Hw := fresh "Hwrite" in let Hd := fresh "Hdata" in let Hb := fresh "Hbytes" in
  pose proof H as (Hs & Hr & Hu & Hw & Hd & Hb); unfold MAX_CBUF_SIZE in *;
  rewrite wrap_mod in Hw by lia.

Lemma assert_positions_ok c : wf_cbuf c -> cbuf_assert_positions c = Ok (tt, c).
Proof.
  intros H. cbuf_facts H.
  unfold cbuf_assert_positions, bind, gets, c_mod, id, dropbear_assert, ret.
  rewrite (u32_small (2 * c_size c)) by (unfold is_u32; lia).
  rewrite (u32_small (c_size c - c_used c)) by (unfold is_u32; lia).
  assert (Hwr : 0 <= c_writepos c < c_size c) by (destruct (Z.ltb_spec (c_readpos c + c_used c) (c_size c)); lia).
  rewrite !u32_small by (unfold is_u32; lia).
  rewrite (proj2 (Z.eqb_neq (c_size c) 0)) by lia.
  replace (2 * c_size c + c_writepos c - c_readpos c)
    with (c_writepos c - c_readpos c + 2 * c_size c) by lia.
  replace (2 * c_size c + c_readpos c - c_writepos c)
    with (c_readpos c - c_writepos c + 2 * c_size c) by lia.
  rewrite !Z.mod_add by lia.
  pose proof (proj1 (proj2 (proj2 (proj2 H)))) as Hw.
  rewrite Hw. rewrite Zminus_mod_idemp_l, Zminus_mod_idemp_r.
  replace (c_readpos c + c_used c - c_readpos c) with (c_used c) by lia.
  replace (c_readpos c - (c_readpos c + c_used c)) with (c_size c - c_used c + (-1) * c_size c) by lia.
  rewrite Z.mod_add by lia. by rewrite !Z.eqb_refl.
Qed.

(** The linear stretch that can be read, resp. written, without wrapping. *)
Definition readlen_spec (c : circbuffer) : Z := Z.min (c_used c) (c_size c - c_readpos c).
Definition writelen_spec (c : circbuffer) : Z :=
  Z.min (c_size c - c_used c) (c_size c - c_writepos c).

Lemma cbuf_readlen_ok c : wf_cbuf c -> cbuf_readlen c = Ok (readlen_spec c, c).
Proof.
  intros H. cbuf_facts H. unfold cbuf_readlen.
  rewrite (bind_ok _ _ _ _ _ (assert_positions_ok c H)). unfold bind, gets, id, readlen_spec.
  destruct (Z.ltb_spec (c_readpos c + c_used c) (c_size c)) as [Hc|Hc];
    destruct (Z.eqb_spec (c_used c) 0); destruct (Z.ltb_spec (c_readpos c) (c_writepos c));
    unfold ret; rewrite ?u32_small by (unfold is_u32; lia); do 2 f_equal; lia.
Qed.

Lemma cbuf_writelen_ok c : wf_cbuf c -> cbuf_writelen c = Ok (writelen_spec c, c).
Proof.
  intros H. cbuf_facts H. unfold cbuf_writelen, id.
  assert (E : dropbear_assert (c_used c <=? c_size c) = @ret circbuffer _ tt)
    by (unfold dropbear_assert; by z_guards).
  erewrite bind_ok by reflexivity. rewrite E. erewrite bind_ok by reflexivity.
  rewrite (bind_ok _ _ _ _ _ (assert_positions_ok c H)). unfold bind, gets, writelen_spec.
  destruct (Z.ltb_spec (c_readpos c + c_used c) (c_size c)) as [Hc|Hc];
    destruct (Z.eqb_spec (c_used c) (c_size c)); destruct (Z.ltb_spec (c_writepos c) (c_readpos c));
    unfold ret; rewrite ?u32_small by (unfold is_u32; lia); do 2 f_equal; lia.
Qed.

Lemma wf_cbuf_new {S} size (s : S) :
  0 < size <= MAX_CBUF_SIZE ->
  exists c, cbuf_new size s = Ok (c, s) /\ wf_cbuf c /\ contents c = [] /\ c_size c = size.
Proof.
  intros Hs. unfold cbuf_new, bind, m_malloc. z_guards. eexists. split; [reflexivity|].
  split_and!; try done. unfold wf_cbuf. simpl. split_and!; try lia.
  - by rewrite Z.mod_0_l by lia.
  - unfold zlen. rewrite length_replicate. lia.
  - apply Forall_replicate. by vm_compute.
Qed.

(** Storing a chunk at the write pointer and advancing appends it. *)
Lemma cbuf_write_chunk c bs :
  wf_cbuf c -> bytes bs -> zlen bs <= writelen_spec c ->
  exists c1 c2,
    cbuf_writeptr (zlen bs) c = Ok (c_writepos c, c) /\
    cbuf_store (c_writepos c) bs c = Ok (tt, c1) /\
    cbuf_incrwrite (zlen bs) c1 = Ok (tt, c2) /\
    wf_cbuf c2 /\ c_size c2 = c_size c /\ c_used c2 = c_used c + zlen bs /\
    contents c2 = contents c ++ bs.
Proof.
  intros H Hbs Hle. pose proof (zlen_nonneg bs). cbuf_facts H. unfold writelen_spec in Hle.
  assert (Hwr : 0 <= c_writepos c < c_size c)
    by (destruct (Z.ltb_spec (c_readpos c + c_used c) (c_size c)); lia).
  set (c1 := set_cdata (splice (c_writepos c) bs (c_data c)) c).
  assert (Hc1 : wf_cbuf c1).
  { destruct H as (? & ? & ? & ? & ? & ?). unfold wf_cbuf, c1. simpl.
    rewrite zlen_splice by lia. split_and!; try done; try lia. by apply Forall_splice. }
  set (c2 := mkcbuf (c_size c) (c_readpos c) ((c_writepos c + zlen bs) mod c_size c)
                    (c_used c + zlen bs) (c_data c1)).
  assert (Hc2 : wf_cbuf c2).
  { destruct Hc1 as (? & ? & ? & ? & ? & ?). unfold wf_cbuf, c2. simpl in *.
    split_and!; try done; try lia.
    destruct H as (_ & _ & _ & -> & _). rewrite Zplus_mod_idemp_l. f_equal. lia. }
  exists c1, c2. split_and!; try done.
  - unfold cbuf_writeptr. rewrite (bind_ok _ _ _ _ _ (cbuf_writelen_ok c H)).
    unfold writelen_spec. by z_guards.
  - unfold cbuf_store. by z_guards.
  - unfold cbuf_incrwrite. rewrite (bind_ok _ _ _ _ _ (cbuf_writelen_ok c1 Hc1)).
    unfold writelen_spec, bind, modify, gets, id, dropbear_assert, c_mod. simpl.
    z_guards. simpl. rewrite !u32_small by (unfold is_u32; lia). by z_guards.
  - apply zlist_eq; [rewrite zlen_app, !zlen_contents; simpl; lia|].
    rewrite zlen_contents by (simpl; lia). simpl. intros i Hi.
    rewrite zget_contents, zget_app, zlen_contents by (simpl; lia). simpl.
    unfold znth. rewrite (wrap_mod (c_readpos c + i)) by lia.
    rewrite zget_splice by (destruct (Z.ltb_spec (c_readpos c + i) (c_size c)); lia).
    destruct (Z.ltb_spec i (c_used c)).
    + rewrite zget_contents by lia. unfold znth. rewrite (wrap_mod (c_readpos c + i)) by lia.
      destruct (Z.ltb_spec (c_readpos c + i) (c_size c));
        destruct (Z.ltb_spec (c_readpos c + c_used c) (c_size c));
        try (exfalso; lia); z_guards; done.
    + destruct (zget_is_Some bs (i - c_used c)) as [v Hv]; [lia|]. rewrite Hv.
      destruct (Z.ltb_spec (c_readpos c + i) (c_size c));
        destruct (Z.ltb_spec (c_readpos c + c_used c) (c_size c));
        try (exfalso; lia); z_guards; cbn [andb];
        (replace (_ - c_writepos c) with (i - c_used c) by lia); by rewrite Hv.
Qed.

(** Reading a chunk at the read pointer and advancing removes a prefix. *)
Lemma cbuf_read_chunk c n :
  wf_cbuf c -> 0 <= n <= readlen_spec c ->
  exists c2,
    cbuf_readptr n c = Ok (c_readpos c, c) /\
    cbuf_load (c_readpos c) n c = Ok (ztake n (contents c), c) /\
    cbuf_incrread n c = Ok (tt, c2) /\
    wf_cbuf c2 /\ c_size c2 = c_size c /\ c_used c2 = c_used c - n /\
    contents c = ztake n (contents c) ++ contents c2.
Proof.
  intros H Hn. cbuf_facts H. unfold readlen_spec in Hn.
  set (c2 := mkcbuf (c_size c) ((c_readpos c + n) mod c_size c) (c_writepos c)
                    (c_used c - n) (c_data c)).
  assert (Hc2 : wf_cbuf c2).
  { destruct H as (? & ? & ? & Hw & ? & ?). unfold wf_cbuf, c2. simpl.
    pose proof (Z.mod_pos_bound (c_readpos c + n) (c_size c)).
    split_and!; try done; try lia.
    rewrite Zplus_mod_idemp_l, Hw. f_equal. lia. }
  exists c2. split_and!; try done.
  - unfold cbuf_readptr. rewrite (bind_ok _ _ _ _ _ (cbuf_readlen_ok c H)).
    unfold readlen_spec. by z_guards.
  - unfold cbuf_load. z_guards. cbn. do 2 f_equal.
    apply zlist_eq; [rewrite zlen_zslice, zlen_ztake by (rewrite ?zlen_contents; lia); done|].
    rewrite zlen_zslice by lia. intros i Hi.
    unfold zslice. rewrite !zget_ztake. z_guards. rewrite zget_zdrop by lia.
    rewrite zget_contents by lia. rewrite Z.mod_small by lia. unfold znth.
    destruct (zget_is_Some (c_data c) (c_readpos c + i)) as [v Hv]; [lia|]. by rewrite Hv.
  - unfold cbuf_incrread. rewrite (bind_ok _ _ _ _ _ (cbuf_readlen_ok c H)).
    unfold readlen_spec, bind, modify, gets, id, dropbear_assert, c_mod. z_guards. simpl.
    rewrite !u32_small by (unfold is_u32; lia). by z_guards.
  - apply zlist_eq; rewrite ?zlen_app, ?zlen_ztake, ?zlen_contents by (rewrite ?zlen_contents; simpl; lia);
      [simpl; lia|].
    intros i Hi. rewrite zget_app, zlen_ztake, zget_ztake by (rewrite ?zlen_contents; lia).
    destruct (Z.ltb_spec i n); [done|].
    rewrite !zget_contents by (simpl; lia). simpl. rewrite Zplus_mod_idemp_l. do 3 f_equal. lia.
Qed.

(** ** Sequences of chunk operations

    [CPut bs] offers bytes, of which the linear stretch takes a prefix;
    [CTake n] asks for up to [n] bytes of the linear stretch.  These are the
    two ways the channel code uses the ring. *)

Inductive cop := CPut (bs : list Z) | CTake (n : Z).

Definition cop_ok (o : cop) : Prop :=
  match o with CPut bs => bytes bs | CTake n => 0 <= n end.

Definition cbuf_put (bs : list Z) : prog circbuffer (list Z) :=
  m <- cbuf_writelen ;;
  let k := Z.min m (zlen bs) in
  p <- cbuf_writeptr k ;;
  cbuf_store p (ztake k bs) ;;;
  cbuf_incrwrite k ;;;
  ret (ztake k bs).

Definition cbuf_take (n : Z) : prog circbuffer (list Z) :=
  m <- cbuf_readlen ;;
  let k := Z.min m n in
  p <- cbuf_readptr k ;;
  bs <- cbuf_load p k ;;
  cbuf_incrread k ;;;
  ret bs.

(** The bytes accepted and the bytes delivered by a sequence. *)
Fixpoint run_cops (l : list cop) : prog circbuffer (list Z * list Z) :=
  match l with
  | [] => ret ([], [])
  | CPut bs :: l =>
      a <- cbuf_put bs ;; r <- run_cops l ;; ret (a ++ fst r, snd r)
  | CTake n :: l =>
      o <- cbuf_take n ;; r <- run_cops l ;; ret (fst r, o ++ snd r)
  end.

Lemma cbuf_put_ok c bs :
  wf_cbuf c -> bytes bs ->
  exists c', cbuf_put bs c = Ok (ztake (Z.min (writelen_spec c) (zlen bs)) bs, c') /\
    wf_cbuf c' /\ c_size c' = c_size c /\
    contents c' = contents c ++ ztake (Z.min (writelen_spec c) (zlen bs)) bs.
Proof.
  intros H Hbs. set (k := Z.min (writelen_spec c) (zlen bs)).
  pose proof (zlen_nonneg bs).
  assert (Hk : 0 <= writelen_spec c).
  { cbuf_facts H. unfold writelen_spec.
    destruct (Z.ltb_spec (c_readpos c + c_used c) (c_size c)); lia. }
  assert (Hz : zlen (ztake k bs) = k) by (apply zlen_ztake; lia).
  destruct (cbuf_write_chunk c (ztake k bs)) as (c1 & c2 & E1 & E2 & E3 & H1 & H2 & H3 & H4);
    [done|by apply Forall_ztake|lia|].
  rewrite Hz in E1, E3. exists c2. split_and!; try done.
  unfold cbuf_put. rewrite (bind_ok _ _ _ _ _ (cbuf_writelen_ok c H)). cbn beta zeta.
  rewrite (bind_ok _ _ _ _ _ E1), (bind_ok _ _ _ _ _ E2). by rewrite (bind_ok _ _ _ _ _ E3).
Qed.

Lemma cbuf_take_ok c n :
  wf_cbuf c -> 0 <= n ->
  exists out c', cbuf_take n c = Ok (out, c') /\ out = ztake (Z.min (readlen_spec c) n) (contents c) /\
    wf_cbuf c' /\ c_size c' = c_size c /\ contents c = out ++ contents c'.
Proof.
  intros H Hn. set (k := Z.min (readlen_spec c) n).
  assert (Hk : 0 <= readlen_spec c) by (cbuf_facts H; unfold readlen_spec; lia).
  destruct (cbuf_read_chunk c k H) as (c2 & E1 & E2 & E3 & H1 & H2 & H3 & H4); [lia|].
  exists (ztake k (contents c)), c2. split_and!; try done.
  unfold cbuf_take. rewrite (bind_ok _ _ _ _ _ (cbuf_readlen_ok c H)). cbn beta zeta.
  rewrite (bind_ok _ _ _ _ _ E1), (bind_ok _ _ _ _ _ E2). by rewrite (bind_ok _ _ _ _ _ E3).
Qed.

Lemma run_cops_ok l c :
  wf_cbuf c -> Forall cop_ok l ->
  exists acc out c', run_cops l c = Ok ((acc, out), c') /\ wf_cbuf c' /\ c_size c' = c_size c /\
    contents c ++ acc = out ++ contents c'.
Proof.
  revert c. induction l as [|o l IH]; intros c H Hl.
  { exists [], [], c. rewrite app_nil_r. done. }
  apply Forall_cons_1 in Hl as [Ho Hl]. destruct o as [bs|n]; simpl in *.
  - destruct (cbuf_put_ok c bs H Ho) as (c1 & E & H1 & Hs & Hc).
    destruct (IH c1 H1 Hl) as (acc & out & c2 & E2 & H2 & Hs2 & Hc2).
    eexists _, _, c2. split_and!; [|done|congruence|].
    + rewrite (bind_ok _ _ _ _ _ E), (bind_ok _ _ _ _ _ E2). reflexivity.
    + cbn [fst snd]. by rewrite app_assoc, <-Hc.
  - destruct (cbuf_take_ok c n H Ho) as (o & c1 & E & _ & H1 & Hs & Hc).
    destruct (IH c1 H1 Hl) as (acc & out & c2 & E2 & H2 & Hs2 & Hc2).
    eexists _, _, c2. split_and!; [|done|congruence|].
    + rewrite (bind_ok _ _ _ _ _ E), (bind_ok _ _ _ _ _ E2). reflexivity.
    + cbn [fst snd]. rewrite Hc, <-!app_assoc. by f_equal.
Qed.

(** ** Properties *)

(** C38: the ring buffer is a FIFO.  From a new ring, any sequence of chunk
    writes and chunk reads runs without a fault, without tripping one of the
    consistency assertions and without an exit; the bytes delivered followed
    by the bytes still stored are exactly the bytes accepted, in order, and
    the byte count never exceeds the size. *)
Theorem cbuf_fifo (size : Z) (l : list cop) :
  0 < size <= MAX_CBUF_SIZE -> Forall cop_ok l ->
  exists c0 acc out c,
    cbuf_new size tt = Ok (c0, tt) /\
    run_cops l c0 = Ok ((acc, out), c) /\
    acc = out ++ contents c /\
    zlen (contents c) = cbuf_getused c /\
    cbuf_getused c + cbuf_getavail c = size.
Proof.
  intros Hs Hl. destruct (wf_cbuf_new size tt Hs) as (c0 & E0 & H0 & Hc0 & Hsz).
  destruct (run_cops_ok l c0 H0 Hl) as (acc & out & c & E & H & Hsz' & Hc).
  rewrite Hc0 in Hc. exists c0, acc, out, c.
  cbuf_facts H. unfold cbuf_getused, cbuf_getavail.
  rewrite zlen_contents by lia. rewrite u32_small by (unfold is_u32; lia).
  split_and!; done || lia.
Qed.

Lemma cbuf_fifo_witness :
  exists c0 acc out c,
    cbuf_new 4 tt = Ok (c0, tt) /\
    run_cops [CPut [1; 2; 3]; CTake 2; CPut [4; 5; 6]; CPut [6]; CTake 9; CTake 1] c0
      = Ok ((acc, out), c) /\
    acc = out ++ contents c /\
    zlen (contents c) = cbuf_getused c /\
    cbuf_getused c + cbuf_getavail c = 4.
Proof.
  apply (cbuf_fifo 4 [CPut [1; 2; 3]; CTake 2; CPut [4; 5; 6]; CPut [6]; CTake 9; CTake 1]).
  - by vm_compute.
  - repeat constructor; by vm_compute.
Defined.
