(* ===== verification/Queue.v ===== *)
(** Model of dropbear's queue.c at the level of its linked cells, and the
    interface the packet layer uses it through.  The cells live in a heap of
    their own; enqueue mutates the cell the tail points at, dequeue frees the
    head cell. *)

From S2P Require Import Prelude.
From stdpp Require Import gmap fin_sets.

Local Open Scope Z_scope.
Local Open Scope prog_scope.

(** ** The interface

    What a queue implementation promises: [q_repr q l] relates it to the list
    of items, oldest first, and each operation acts on the list. *)

Class QueueOps (Q A : Type) := {
  q_init : Q;
  q_isempty : Q -> bool;
  q_dequeue : prog Q A;
  q_examine : prog Q A;
  q_enqueue : A -> prog Q unit;
  q_walk : prog Q (list A)
}.

Class QueueLaws (Q A : Type) `{QueueOps Q A} := {
  q_repr : Q -> list A -> Prop;
  q_init_repr : q_repr q_init [];
  q_isempty_spec q l : q_repr q l -> q_isempty q = bool_decide (l = []);
  q_dequeue_nil q : q_repr q [] -> q_dequeue q = Exit "Failed assertion";
  q_dequeue_cons q a l :
    q_repr q (a :: l) -> exists q', q_dequeue q = Ok (a, q') /\ q_repr q' l;
  q_examine_nil q : q_repr q [] -> q_examine q = Exit "Failed assertion";
  q_examine_cons q a l : q_repr q (a :: l) -> q_examine q = Ok (a, q);
  q_enqueue_spec q a l :
    q_repr q l -> zlen l + 1 < 2 ^ 32 ->
    exists q', q_enqueue a q = Ok (tt, q') /\ q_repr q' (l ++ [a]);
  q_walk_spec q l : q_repr q l -> q_walk q = Ok (l, q)
}.

(** ** The implementation *)

Abbreviation loc := positive.

(** [struct Link]. *)
Record Link (A : Type) := mkLink { item : A; link : option loc }.
Arguments mkLink {A} item link.
Arguments item {A}.
Arguments link {A}.

(** [struct Queue], together with the heap its cells live in. *)
Record Queue (A : Type) := mkQueue {
  head : option loc; tail : option loc; count : Z; cells : gmap loc (Link A) }.
Arguments mkQueue {A}.
Arguments head {A}.
Arguments tail {A}.
Arguments count {A}.
Arguments cells {A}.

Section Queue.
Context {A : Type}.
Implicit Types (q : Queue A) (l : list A).

(** [p->...] on a cell pointer. *)
Definition cell (p : option loc) : prog (Queue A) (Link A) := fun q =>
  match p with
  | None => Fault "null pointer"
  | Some a => match cells q !! a with
              | None => Fault "dangling pointer"
              | Some c => Ok (c, q)
              end
  end.

Definition initqueue : Queue A := mkQueue None None 0 ∅.

Definition isempty (q : Queue A) : bool :=
  match head q with None => true | Some _ => false end.

Definition set_head (p : option loc) (q : Queue A) : Queue A :=
  mkQueue p (tail q) (count q) (cells q).
Definition set_tail (p : option loc) (q : Queue A) : Queue A :=
  mkQueue (head q) p (count q) (cells q).
Definition set_count (n : Z) (q : Queue A) : Queue A :=
  mkQueue (head q) (tail q) n (cells q).
Definition set_cells (h : gmap loc (Link A)) (q : Queue A) : Queue A :=
  mkQueue (head q) (tail q) (count q) h.

Definition dequeue : prog (Queue A) A :=
  q <- gets id ;;
  dropbear_assert (negb (isempty q)) ;;;
  c <- cell (head q) ;;
  let oldhead := head q in
  (match link c with
   | Some _ => modify (set_head (link c))
   | None => modify (set_head None) ;;; modify (set_tail None)
   end) ;;;
  modify (fun q => set_cells (match oldhead with
                              | Some a => delete a (cells q)
                              | None => cells q
                              end) q) ;;;
  modify (fun q => set_count (u32 (count q - 1)) q) ;;;
  ret (item c).

Definition examine : prog (Queue A) A :=
  q <- gets id ;;
  dropbear_assert (negb (isempty q)) ;;;
  c <- cell (head q) ;;
  ret (item c).

(** [m_malloc] returns an address that is not in use. *)
Definition enqueue (a : A) : prog (Queue A) unit :=
  q <- gets id ;;
  let newlink := fresh (dom (cells q)) in
  modify (set_cells (<[newlink := mkLink a None]> (cells q))) ;;;
  (match tail q with
   | Some t =>
       c <- cell (Some t) ;;
       modify (fun q => set_cells (<[t := mkLink (item c) (Some newlink)]> (cells q)) q)
   | None => ret tt
   end) ;;;
  modify (set_tail (Some newlink)) ;;;
  q <- gets id ;;
  (match head q with
   | None => modify (set_head (Some newlink))
   | Some _ => ret tt
   end) ;;;
  modify (fun q => set_count (u32 (count q + 1)) q).

(** The loop [for (l = queue.head, i = 0; l; l = l->link, i++)] of
    write_packet, which stores into an array of [count] entries. *)
Fixpoint walk (fuel : nat) (p : option loc) (i : Z) : prog (Queue A) (list A) :=
  match p with
  | None => ret []
  | Some _ =>
      match fuel with
      | O => fault "cyclic list"
      | S fuel =>
          q <- gets id ;;
          c <- cell p ;;
          if i <? count q
          then r <- walk fuel (link c) (i + 1) ;; ret (item c :: r)
          else fault "iov write out of bounds"
      end
  end.

Definition walk_queue : prog (Queue A) (list A) := fun q =>
  walk (size (cells q)) (head q) 0 q.

(** ** The representation invariant: a non-cyclic chain that owns the heap *)

Fixpoint chain (h : gmap loc (Link A)) (p : option loc) (l : list A) (last : option loc) : Prop :=
  match l with
  | [] => p = None
  | a :: l' =>
      exists x c, p = Some x /\ h !! x = Some c /\ item c = a /\
        match l' with
        | [] => link c = None /\ last = Some x
        | _ => chain (delete x h) (link c) l' last
        end
  end.

Definition queue_repr (q : Queue A) (l : list A) : Prop :=
  count q = zlen l /\ is_u32 (zlen l) /\
  match l with
  | [] => head q = None /\ tail q = None
  | _ => chain (cells q) (head q) l (tail q)
  end.

Lemma chain_insert_other h p l last x c :
  chain h p l last -> h !! x = None -> chain (<[x := c]> h) p l last.
Proof.
  revert h p. induction l as [|a l IH]; intros h p; [done|].
  intros (y & d & -> & Hy & <- & Hl) Hx. exists y, d.
  assert (x <> y) by congruence.
  split_and!; [done|by rewrite lookup_insert_ne|done|].
  destruct l as [|b l]; [done|]. rewrite delete_insert_ne by done.
  apply IH; [done|]. by rewrite lookup_delete_ne by done.
Qed.

(** Appending: the last cell's link is set to the new cell. *)
Lemma chain_snoc h p l t a n :
  chain h p l (Some t) -> l <> [] -> h !! n = None ->
  exists c, h !! t = Some c /\ n <> t /\
    chain (<[t := mkLink (item c) (Some n)]> (<[n := mkLink a None]> h)) p (l ++ [a]) (Some n).
Proof.
  revert h p. induction l as [|b l IH]; intros h p Hc Hne Hn; [done|].
  destruct Hc as (x & c & -> & Hx & <- & Hl). assert (n <> x) by congruence.
  destruct l as [|b' l].
  - destruct Hl as [Hlink [= ->]]. exists c. split_and!; [done|done|].
    exists x, (mkLink (item c) (Some n)). split_and!; [done|by rewrite lookup_insert_eq|done|].
    simpl. rewrite delete_insert_eq. exists n, (mkLink a None).
    split_and!; try done. rewrite lookup_delete_ne, lookup_insert_eq by done. done.
  - destruct (IH (delete x h) (link c) Hl ltac:(done)) as (d & Hd & Hnt & Hc');
      [by rewrite lookup_delete_ne|].
    assert (t <> x) by (intros ->; by rewrite lookup_delete_eq in Hd).
    rewrite lookup_delete_ne in Hd by done. exists d. split_and!; [done..|].
    exists x, c. split_and!; try done.
    + by rewrite !lookup_insert_ne by done.
    + cbn [app]. by rewrite !delete_insert_ne by done.
Qed.

Lemma chain_walk h p l last q fuel i :
  chain h p l last -> (forall x c, h !! x = Some c -> cells q !! x = Some c) ->
  (length l <= fuel)%nat -> i + zlen l <= count q ->
  walk fuel p i q = Ok (l, q).
Proof.
  revert h p fuel i. induction l as [|a l IH]; intros h p fuel i Hc Hsub Hf Hi.
  { simpl in Hc. subst p. by destruct fuel. }
  destruct Hc as (x & c & -> & Hx & <- & Hl). pose proof (zlen_nonneg l).
  rewrite zlen_cons in Hi. destruct fuel as [|fuel]; simpl in Hf; [lia|].
  assert (Hrec : walk fuel (link c) (i + 1) q = Ok (l, q)).
  { destruct l as [|b l].
    - destruct Hl as [-> _]. by destruct fuel.
    - eapply IH; [done| |simpl in *; lia|lia].
      intros y d Hy. apply Hsub. by apply lookup_delete_Some in Hy as [_ ?]. }
  cbn [walk]. unfold bind at 1. cbn [gets]. unfold bind at 1, cell.
  rewrite (Hsub _ _ Hx). unfold id. z_guards. unfold bind. by rewrite Hrec.
Qed.

Lemma chain_size h p l last : chain h p l last -> (length l <= size h)%nat.
Proof.
  revert h p. induction l as [|a l IH]; intros h p Hc; simpl; [lia|].
  destruct Hc as (x & c & -> & Hx & _ & Hl).
  rewrite <-(insert_delete_id _ _ _ Hx), map_size_insert_None by apply lookup_delete_eq.
  destruct l as [|b l]; simpl; [lia|]. apply IH in Hl. simpl in *. lia.
Qed.

Lemma queue_repr_init : queue_repr initqueue [].
Proof. split_and!; try done. Qed.

Lemma queue_repr_isempty q l : queue_repr q l -> isempty q = bool_decide (l = []).
Proof.
  intros (_ & _ & H). unfold isempty. destruct l as [|a l].
  - destruct H as [-> _]. done.
  - destruct H as (x & c & -> & _). done.
Qed.

Lemma queue_repr_dequeue_nil q : queue_repr q [] -> dequeue q = Exit "Failed assertion".
Proof.
  intros (_ & _ & Hh & _). unfold dequeue, bind, gets, id, isempty, dropbear_assert.
  by rewrite Hh.
Qed.

Lemma queue_repr_dequeue q a l :
  queue_repr q (a :: l) -> exists q', dequeue q = Ok (a, q') /\ queue_repr q' l.
Proof.
  intros (Hn & Hu & x & c & Hh & Hx & Ha & Hl). subst a.
  rewrite zlen_cons in *. pose proof (zlen_nonneg l). unfold is_u32 in Hu.
  assert (Hcell : forall q', cells q' = cells q -> cell (Some x) q' = Ok (c, q')).
  { intros q' E. unfold cell. by rewrite E, Hx. }
  exists (mkQueue (link c) (match link c with Some _ => tail q | None => None end)
                  (zlen l) (delete x (cells q))). split.
  - unfold dequeue. erewrite bind_ok by reflexivity. unfold id, isempty. rewrite Hh.
    erewrite bind_ok by reflexivity. erewrite bind_ok by by apply Hcell.
    destruct (link c) as [y|]; unfold bind, modify, ret; cbn;
      rewrite Hn, Z.add_simpl_l, u32_small by (unfold is_u32; lia); done.
  - split_and!; [done|unfold is_u32; lia|]. destruct l as [|b l]; simpl in *.
    + destruct Hl as [-> _]. done.
    + destruct Hl as (y & d & -> & Hl). exists y, d. done.
Qed.

Lemma queue_repr_examine_nil q : queue_repr q [] -> examine q = Exit "Failed assertion".
Proof.
  intros (_ & _ & Hh & _). unfold examine, bind, gets, id, isempty, dropbear_assert.
  by rewrite Hh.
Qed.

Lemma queue_repr_examine q a l : queue_repr q (a :: l) -> examine q = Ok (a, q).
Proof.
  intros (_ & _ & x & c & Hh & Hx & <- & _).
  unfold examine, bind, gets, id, isempty, dropbear_assert. rewrite Hh. cbn. by rewrite Hx.
Qed.

Lemma chain_fresh h p l last (n : loc) :
  chain h p l last -> l <> [] -> h !! n = None -> exists t, last = Some t /\ n <> t /\ is_Some (h !! t).
Proof.
  revert h p. induction l as [|a l IH]; intros h p Hc Hne Hn; [done|].
  destruct Hc as (x & c & -> & Hx & <- & Hl). destruct l as [|b l].
  - destruct Hl as [_ ->]. exists x. split_and!; [done|congruence|by eexists].
  - destruct (IH _ _ Hl ltac:(done)) as (t & -> & Hnt & [d Hd]);
      [apply lookup_delete_None; by right|].
    exists t. apply lookup_delete_Some in Hd as [_ Hd]. split_and!; [done|done|by eexists].
Qed.

Lemma queue_repr_enqueue q a l :
  queue_repr q l -> zlen l + 1 < 2 ^ 32 ->
  exists q', enqueue a q = Ok (tt, q') /\ queue_repr q' (l ++ [a]).
Proof.
  intros (Hn & Hu & H) Hmax. set (n := fresh (dom (cells q))).
  assert (Hfresh : cells q !! n = None) by apply not_elem_of_dom, is_fresh.
  pose proof (zlen_nonneg l). 
  assert (Hcount : u32 (count q + 1) = zlen (l ++ [a]))
    by (rewrite u32_small, zlen_app by (unfold is_u32; lia); change (zlen [a]) with 1; lia).
  assert (Hu' : is_u32 (zlen (l ++ [a])))
    by (rewrite zlen_app; change (zlen [a]) with 1; unfold is_u32; lia).
  destruct l as [|b l].
  - destruct H as [Hh Ht].
    exists (mkQueue (Some n) (Some n) (zlen [a]) (<[n := mkLink a None]> (cells q))). split.
    + unfold enqueue, bind, gets, id, modify, ret. fold n. rewrite Ht. cbn. rewrite Hh. cbn.
      by rewrite Hcount.
    + split_and!; [done..|]. exists n, (mkLink a None).
      split_and!; try done. apply lookup_insert_eq.
  - destruct (chain_fresh _ _ _ _ n H ltac:(done) Hfresh) as (t & Ht & Hnt & _).
    rewrite Ht in H. destruct (chain_snoc _ _ _ _ a n H ltac:(done) Hfresh) as (c & Hc & _ & Hch).
    exists (mkQueue (head q) (Some n) (zlen ((b :: l) ++ [a]))
              (<[t := mkLink (item c) (Some n)]> (<[n := mkLink a None]> (cells q)))). split.
    + assert (Hhd : exists x, head q = Some x) by (destruct H as (x & d & -> & _); eauto).
      destruct Hhd as [x Hx].
      unfold enqueue. erewrite bind_ok by reflexivity. unfold id. fold n. rewrite Ht.
      erewrite bind_ok by reflexivity. erewrite bind_ok; cycle 1.
      { unfold bind, cell, modify. cbn. rewrite lookup_insert_ne, Hc by done. reflexivity. }
      unfold bind, gets, modify. cbn. rewrite Hx. cbn.
      rewrite Hcount. unfold set_count, set_tail, set_cells. cbn. by rewrite Hx.
    + split_and!; [done..|]. exact Hch.
Qed.

Lemma walk_null fuel i q : walk fuel None i q = Ok ([], q).
Proof. by destruct fuel. Qed.

Lemma queue_repr_walk q l : queue_repr q l -> walk_queue q = Ok (l, q).
Proof.
  intros (Hn & Hu & H). unfold walk_queue. destruct l as [|a l].
  - destruct H as [-> _]. apply walk_null.
  - eapply chain_walk; [done|done| |lia]. by eapply chain_size.
Qed.

#[export] Instance link_queue_ops : QueueOps (Queue A) A := {
  q_init := initqueue; q_isempty := isempty; q_dequeue := dequeue;
  q_examine := examine; q_enqueue := enqueue; q_walk := walk_queue }.

#[export] Instance link_queue_laws : QueueLaws (Queue A) A := {
  q_repr := queue_repr;
  q_init_repr := queue_repr_init;
  q_isempty_spec := queue_repr_isempty;
  q_dequeue_nil := queue_repr_dequeue_nil;
  q_dequeue_cons := queue_repr_dequeue;
  q_examine_nil := queue_repr_examine_nil;
  q_examine_cons := queue_repr_examine;
  q_enqueue_spec := queue_repr_enqueue;
  q_walk_spec := queue_repr_walk }.
End Queue.

(** ** Refinement of the abstract queue *)

Inductive qop (A : Type) := QEnqueue (a : A) | QDequeue | QExamine | QIsempty | QWalk.
Arguments QEnqueue {A} a.
Arguments QDequeue {A}.
Arguments QExamine {A}.
Arguments QIsempty {A}.
Arguments QWalk {A}.

(** What an operation shows to its caller. *)
Inductive qobs (A : Type) := ODone | OItem (a : A) | OBool (b : bool) | OList (l : list A).
Arguments ODone {A}.
Arguments OItem {A} a.
Arguments OBool {A} b.
Arguments OList {A} l.

Definition run_qop {Q A} `{QueueOps Q A} (o : qop A) : prog Q (qobs A) :=
  match o with
  | QEnqueue a => q_enqueue a ;;; ret ODone
  | QDequeue => a <- q_dequeue ;; ret (OItem a)
  | QExamine => a <- q_examine ;; ret (OItem a)
  | QIsempty => b <- gets q_isempty ;; ret (OBool b)
  | QWalk => l <- q_walk ;; ret (OList l)
  end.

Fixpoint run_qops {Q A} `{QueueOps Q A} (l : list (qop A)) : prog Q (list (qobs A)) :=
  match l with
  | [] => ret []
  | o :: l => r <- run_qop o ;; rs <- run_qops l ;; ret (r :: rs)
  end.

(** The specification: the state is the list of items, oldest first. *)
#[export] Instance list_queue_ops {A} : QueueOps (list A) A := {
  q_init := [];
  q_isempty l := bool_decide (l = []);
  q_dequeue l := match l with [] => Exit "Failed assertion" | a :: l => Ok (a, l) end;
  q_examine l := match l with [] => Exit "Failed assertion" | a :: _ => Ok (a, l) end;
  q_enqueue a l := Ok (tt, l ++ [a]);
  q_walk l := Ok (l, l) }.

Section Refinement.
Context {Q A : Type} `{QueueLaws Q A}.

(** Same answer, and the new states are related again. *)
Definition sim_res {B} (r : res (B * Q)) (r' : res (B * list A)) : Prop :=
  match r, r' with
  | Ok (b, q), Ok (b', l) => b = b' /\ q_repr q l
  | Exit e, Exit e' => e = e'
  | _, _ => False
  end.

Lemma run_qop_sim (o : qop A) q l :
  q_repr q l -> zlen l + 1 < 2 ^ 32 -> sim_res (run_qop o q) (run_qop o l).
Proof.
  intros Hq Hl. destruct o; unfold run_qop, bind, gets, ret; simpl.
  - destruct (q_enqueue_spec q a l Hq Hl) as (q' & -> & Hq'). done.
  - destruct l as [|a l]; [by rewrite (q_dequeue_nil q Hq)|].
    destruct (q_dequeue_cons q a l Hq) as (q' & -> & Hq'). done.
  - destruct l as [|a l]; [by rewrite (q_examine_nil q Hq)|].
    by rewrite (q_examine_cons q a l Hq).
  - by rewrite (q_isempty_spec q l Hq).
  - by rewrite (q_walk_spec q l Hq).
Qed.

Lemma run_qop_growth (o : qop A) (l l' : list A) r :
  run_qop o l = Ok (r, l') -> zlen l' <= zlen l + 1.
Proof.
  destruct o; unfold run_qop, bind, gets, ret; simpl; try destruct l as [|x l];
    intros E; inversion E; subst; zlia.
Qed.

Lemma run_qops_sim (ops : list (qop A)) q l :
  q_repr q l -> zlen l + zlen ops < 2 ^ 32 -> sim_res (run_qops ops q) (run_qops ops l).
Proof.
  revert q l. induction ops as [|o ops IH]; intros q l Hq Hl; [by split|].
  rewrite zlen_cons in Hl. pose proof (zlen_nonneg ops). cbn [run_qops].
  pose proof (run_qop_sim o q l Hq ltac:(lia)) as Hsim. unfold bind.
  destruct (run_qop o q) as [[r q']|e|e] eqn:E1, (run_qop o l) as [[r' l']|e'|e'] eqn:E2;
    simpl in Hsim; try done.
  destruct Hsim as [-> Hq']. pose proof (run_qop_growth _ _ _ _ E2).
  specialize (IH q' l' Hq' ltac:(lia)).
  destruct (run_qops ops q') as [[rs q'']|e|e], (run_qops ops l') as [[rs' l'']|e'|e'];
    simpl in *; try done. by destruct IH as [-> ?].
Qed.
End Refinement.

(** ** Properties *)

(** C39: queue.c refines the FIFO list.  For every sequence of enqueue,
    dequeue, examine, isempty and of the link traversal write_packet does,
    the linked cells answer what the list of items answers, operation by
    operation; dequeue and examine of an empty queue take the assertion exit,
    and no null or freed cell is ever followed. *)
Theorem queue_refines_list {A} (ops : list (qop A)) :
  zlen ops < 2 ^ 32 ->
  match run_qops ops (q_init : list A) with
  | Ok (obs, l) =>
      exists q : Queue A, run_qops ops initqueue = Ok (obs, q) /\
                          queue_repr q l /\ count q = zlen l
  | Exit e => run_qops ops (initqueue : Queue A) = Exit e
  | Fault _ => False
  end.
Proof.
  intros Hn. pose proof (run_qops_sim ops initqueue [] queue_repr_init) as Hsim.
  rewrite zlen_nil in Hsim. specialize (Hsim ltac:(lia)). change q_init with (@nil A).
  destruct (run_qops ops (@nil A)) as [[obs l]|e|e];
    destruct (run_qops ops (initqueue : Queue A)) as [[obs' q]|e'|e'] eqn:E;
    simpl in Hsim; try done; [|by subst].
  destruct Hsim as [-> Hq]. exists q. split_and!; try done. apply Hq.
Qed.

Lemma queue_refines_list_witness :
  exists q : Queue Z,
    run_qops [QEnqueue 5; QEnqueue 6; QDequeue; QEnqueue 7; QWalk; QExamine] initqueue
      = Ok ([ODone; ODone; OItem 5; ODone; OList [6; 7]; OItem 6], q) /\
    queue_repr q [6; 7] /\ count q = zlen [6; 7].
Proof.
  apply (queue_refines_list [QEnqueue 5; QEnqueue 6; QDequeue; QEnqueue 7; QWalk; QExamine]).
  by vm_compute.
Defined.
