(* ===== verification/MList.v ===== *)
(** dropbear's doubly linked lists (list.c, list.h) at the level of their
    cells, and the interface the client's authentication uses them through.
    All lists and elements live in one heap; an element points at its
    neighbours and at its list. *)

From S2P Require Import Prelude.
From stdpp Require Import gmap fin_sets.

Local Open Scope Z_scope.
Local Open Scope prog_scope.

(** ** The interface

    [l_repr s l] relates a list to its elements in order, each with its
    address; an element is removed by its address. *)

Abbreviation addr := positive.

Class MListOps (L A : Type) := {
  l_append : A -> prog L unit;
  l_remove : addr -> prog L A;
  l_first : prog L (option (addr * A));
  l_walk : prog L (list (addr * A))
}.

Class MListLaws (L A : Type) `{MListOps L A} := {
  l_repr : L -> list (addr * A) -> Prop;
  l_append_spec a s xs : l_repr s xs -> exists p s', l_append a s = Ok (tt, s') /\ l_repr s' (xs ++ [(p, a)]);
  l_remove_spec p a xs ys s : l_repr s (xs ++ (p, a) :: ys) -> exists s', l_remove p s = Ok (a, s') /\ l_repr s' (xs ++ ys);
  l_first_spec s xs : l_repr s xs -> l_first s = Ok (head xs, s);
  l_walk_spec s xs : l_repr s xs -> l_walk s = Ok (xs, s);
  l_nodup s xs : l_repr s xs -> NoDup xs.*1
}.

(** ** The implementation *)

(** [struct _m_list_elem] and [struct _m_list]. *)
Record m_list_elem (A : Type) := mkelem { e_item : A; e_next : option addr; e_prev : option addr; e_list : addr }.
Arguments mkelem {A}.
Arguments e_item {A}.
Arguments e_next {A}.
Arguments e_prev {A}.
Arguments e_list {A}.

Record m_list := mklist { m_first : option addr; m_last : option addr }.

Record heap (A : Type) := mkheap { elems : gmap addr (m_list_elem A); lists : gmap addr m_list }.
Arguments mkheap {A}.
Arguments elems {A}.
Arguments lists {A}.

Section MList.
Context {A : Type}.
Implicit Types (h : heap A) (e : m_list_elem A).

Definition set_next (n : option addr) e : m_list_elem A := mkelem (e_item e) n (e_prev e) (e_list e).
Definition set_prev (p : option addr) e : m_list_elem A := mkelem (e_item e) (e_next e) p (e_list e).
Definition set_first (p : option addr) (l : m_list) : m_list := mklist p (m_last l).
Definition set_last (p : option addr) (l : m_list) : m_list := mklist (m_first l) p.

(** [p->...] on a pointer to an element and to a list. *)
Definition elem (p : option addr) : prog (heap A) (m_list_elem A) := fun h =>
  match p with
  | None => Fault "null pointer"
  | Some p => match elems h !! p with None => Fault "dangling pointer" | Some e => Ok (e, h) end
  end.

Definition the_list (l : addr) : prog (heap A) m_list := fun h =>
  match lists h !! l with None => Fault "dangling pointer" | Some m => Ok (m, h) end.

(** [p->field = v]. *)
Definition upd_elem (p : option addr) (f : m_list_elem A -> m_list_elem A) : prog (heap A) unit := fun h =>
  match p with
  | None => Fault "null pointer"
  | Some p => match elems h !! p with
              | None => Fault "dangling pointer"
              | Some e => Ok (tt, mkheap (<[p := f e]> (elems h)) (lists h))
              end
  end.

Definition upd_list (l : addr) (f : m_list -> m_list) : prog (heap A) unit := fun h =>
  match lists h !! l with
  | None => Fault "dangling pointer"
  | Some m => Ok (tt, mkheap (elems h) (<[l := f m]> (lists h)))
  end.

(** [m_malloc] gives an address that is not in use, and zeroed memory. *)
Definition new_elem (i : A) (l : addr) : prog (heap A) addr := fun h =>
  let p := fresh (dom (elems h)) in Ok (p, mkheap (<[p := mkelem i None None l]> (elems h)) (lists h)).

Definition free_elem (p : addr) : prog (heap A) unit := modify (fun h => mkheap (delete p (elems h)) (lists h)).

Definition list_new : prog (heap A) addr := fun h =>
  let l := fresh (dom (lists h)) in Ok (l, mkheap (elems h) (<[l := mklist None None]> (lists h))).

Definition list_append (l : addr) (i : A) : prog (heap A) unit :=
  p <- new_elem i l ;;
  m <- the_list l ;;
  (match m_first m with
   | None => upd_list l (set_first (Some p)) ;;; upd_elem (Some p) (set_prev None)
   | Some _ => upd_elem (Some p) (set_prev (m_last m)) ;;; upd_elem (m_last m) (set_next (Some p))
   end) ;;;
  upd_list l (set_last (Some p)).

Definition list_remove (p : addr) : prog (heap A) A :=
  e <- elem (Some p) ;;
  m <- the_list (e_list e) ;;
  when (bool_decide (m_first m = Some p)) (upd_list (e_list e) (set_first (e_next e))) ;;;
  when (bool_decide (m_last m = Some p)) (upd_list (e_list e) (set_last (e_prev e))) ;;;
  when (bool_decide (is_Some (e_prev e))) (upd_elem (e_prev e) (set_next (e_next e))) ;;;
  when (bool_decide (is_Some (e_next e))) (upd_elem (e_next e) (set_prev (e_prev e))) ;;;
  free_elem p ;;;
  ret (e_item e).

(** [for (iter = list->first; iter; iter = iter->next)]: the elements that are
    visited, with their addresses. *)
Fixpoint walk (fuel : nat) (p : option addr) : prog (heap A) (list (addr * A)) :=
  match p with
  | None => ret []
  | Some q =>
      match fuel with
      | O => fault "cyclic list"
      | S fuel => e <- elem p ;; r <- walk fuel (e_next e) ;; ret ((q, e_item e) :: r)
      end
  end.

Definition list_walk (l : addr) : prog (heap A) (list (addr * A)) := fun h =>
  (m <- the_list l ;; walk (size (elems h)) (m_first m)) h.

Definition list_first (l : addr) : prog (heap A) (option (addr * A)) :=
  m <- the_list l ;;
  match m_first m with
  | None => ret None
  | Some p => e <- elem (Some p) ;; ret (Some (p, e_item e))
  end.

(** ** The representation

    The cells of a stretch of the list between the element before it and the
    one after it. *)

Definition headp (xs : list (addr * A)) (n : option addr) : option addr :=
  match xs with [] => n | x :: _ => Some x.1 end.

Fixpoint lastp (p : option addr) (xs : list (addr * A)) : option addr :=
  match xs with [] => p | x :: xs => lastp (Some x.1) xs end.

Fixpoint stretch (m : gmap addr (m_list_elem A)) (l : addr) (p : option addr) (xs : list (addr * A)) (n : option addr) : Prop :=
  match xs with
  | [] => True
  | x :: xs => m !! x.1 = Some (mkelem x.2 (headp xs n) p l) /\ stretch m l (Some x.1) xs n
  end.

Definition mlist_repr (l : addr) (h : heap A) (xs : list (addr * A)) : Prop :=
  lists h !! l = Some (mklist (headp xs None) (lastp None xs)) /\ NoDup xs.*1 /\ stretch (elems h) l None xs None.

Lemma stretch_app m l p xs ys n : stretch m l p (xs ++ ys) n <-> stretch m l p xs (headp ys n) /\ stretch m l (lastp p xs) ys n.
Proof.
  revert p. induction xs as [|x xs IH]; intros p; cbn [app stretch lastp]; [tauto|]. rewrite IH.
  assert (headp (xs ++ ys) n = headp xs (headp ys n)) as -> by (by destruct xs). tauto.
Qed.

Lemma headp_app xs ys n : headp (xs ++ ys) n = headp xs (headp ys n).
Proof. by destruct xs. Qed.

Lemma lastp_app p xs ys : lastp p (xs ++ ys) = lastp (lastp p xs) ys.
Proof. revert p. induction xs as [|x xs IH]; intros p; [done|]. apply IH. Qed.

(** Other cells do not matter. *)
Lemma stretch_other m l p xs n q e : stretch m l p xs n -> q ∉ xs.*1 -> stretch (<[q := e]> m) l p xs n.
Proof.
  revert p. induction xs as [|x xs IH]; intros p; [done|]. intros [Hx Hs] Hq. cbn in Hq. apply not_elem_of_cons in Hq as [Hne Hq].
  split; [by rewrite lookup_insert_ne by congruence|by apply IH].
Qed.

Lemma stretch_delete m l p xs n q : stretch m l p xs n -> q ∉ xs.*1 -> stretch (delete q m) l p xs n.
Proof.
  revert p. induction xs as [|x xs IH]; intros p; [done|]. intros [Hx Hs] Hq. cbn in Hq. apply not_elem_of_cons in Hq as [Hne Hq].
  split; [by rewrite lookup_delete_ne by congruence|by apply IH].
Qed.

Lemma stretch_fresh m l p xs n q : stretch m l p xs n -> m !! q = None -> q ∉ xs.*1.
Proof.
  revert p. induction xs as [|x xs IH]; intros p Hs Hq; [by apply not_elem_of_nil|]. destruct Hs as [Hx Hs]. cbn.
  apply not_elem_of_cons. split; [congruence|by eapply IH].
Qed.

(** The last cell's successor, and the first cell's predecessor, are changed. *)
Lemma stretch_set_next m l p xs n n' q : stretch m l p xs n -> NoDup xs.*1 -> lastp None xs = Some q ->
  exists e, m !! q = Some e /\ stretch (<[q := set_next n' e]> m) l p xs n' /\ q ∈ xs.*1.
Proof.
  revert p. induction xs as [|x xs IH]; intros p; [done|]. intros [Hx Hs] [Hn Hd]%NoDup_cons Hl. cbn in Hn.
  destruct xs as [|y xs].
  - injection Hl as <-. eexists. split; [exact Hx|]. split; [|by left]. split; [|done]. by rewrite lookup_insert_eq.
  - cbn [lastp] in Hl. destruct (IH (Some x.1) Hs Hd Hl) as (e & He & Hs' & Hin). exists e. split; [done|]. split; [|by right].
    split; [|done]. rewrite lookup_insert_ne; [done|]. intros ->. by apply Hn.
Qed.

Lemma stretch_set_prev m l p x xs n p' : stretch m l p (x :: xs) n -> NoDup (x :: xs).*1 ->
  exists e, m !! x.1 = Some e /\ stretch (<[x.1 := set_prev p' e]> m) l p' (x :: xs) n.
Proof.
  intros [Hx Hs] [Hn _]%NoDup_cons. eexists. split; [exact Hx|]. split; [by rewrite lookup_insert_eq|]. by apply stretch_other.
Qed.

Lemma lastp_none xs : xs <> [] -> exists q, lastp None xs = Some q.
Proof.
  destruct xs as [|x xs]; [done|]. intros _. cbn. generalize (x.1). induction xs as [|y xs IH]; intros q; [by exists q|]. apply IH.
Qed.

Lemma lastp_in xs q : lastp None xs = Some q -> q ∈ xs.*1.
Proof.
  destruct xs as [|x xs]; [done|]. cbn [lastp fmap list_fmap]. generalize (x.1). induction xs as [|y xs IH]; intros r; cbn [lastp fmap list_fmap].
  - intros [= ->]. by left.
  - intros Hl%IH. by right.
Qed.

Lemma lastp_any p q xs : xs <> [] -> lastp p xs = lastp q xs.
Proof. by destruct xs. Qed.

Lemma stretch_cell m l p xs n q : stretch m l p xs n -> q ∈ xs.*1 -> exists e, m !! q = Some e /\ e_list e = l.
Proof.
  intros Hs (x & -> & (i1 & i2 & ->)%list_elem_of_split)%list_elem_of_fmap. apply stretch_app in Hs as [_ [Hs _]]. by eexists.
Qed.

(** *** The operations *)

Lemma bind_run {S B C} (m : prog S B) (k : B -> prog S C) s b s1 c s2 :
  m s = Ok (b, s1) -> k b s1 = Ok (c, s2) -> (x <- m ;; k x) s = Ok (c, s2).
Proof. intros E1 E2. by rewrite (bind_ok _ _ _ _ _ E1). Qed.

Lemma upd_elem_ok p f m ls e : m !! p = Some e -> upd_elem (Some p) f (mkheap m ls) = Ok (tt, mkheap (<[p := f e]> m) ls).
Proof. intros E. unfold upd_elem. cbn [elems]. by rewrite E. Qed.

Lemma upd_list_ok l f m ls c : ls !! l = Some c -> upd_list l f (mkheap m ls) = Ok (tt, mkheap m (<[l := f c]> ls)).
Proof. intros E. unfold upd_list. cbn [lists]. by rewrite E. Qed.

(** What an operation on one list does to the others: nothing. *)
Definition others (l : addr) h h' : Prop :=
  (forall l', l' <> l -> lists h' !! l' = lists h !! l') /\ (forall q e, elems h !! q = Some e -> e_list e <> l -> elems h' !! q = Some e).

Lemma others_repr l l' h h' ys : others l h h' -> l' <> l -> mlist_repr l' h ys -> mlist_repr l' h' ys.
Proof.
  intros [Hls Hes] Hne (Hf & Hn & Hs). split_and!; [by rewrite Hls|done|]. clear Hf Hn. revert Hs. generalize (None (A := addr)) at 1 3.
  induction ys as [|y ys IH]; intros p; [done|]. intros [Hy Hs]. split; [by apply Hes|by apply IH].
Qed.

Lemma list_new_ok h : exists l h', list_new h = Ok (l, h') /\ mlist_repr l h' [] /\ lists h !! l = None /\
  forall l' xs, mlist_repr l' h xs -> mlist_repr l' h' xs.
Proof.
  set (l := fresh (dom (lists h))). assert (Hl : lists h !! l = None) by apply not_elem_of_dom, is_fresh.
  exists l, (mkheap (elems h) (<[l := mklist None None]> (lists h))). split; [done|]. split; [split_and!; [apply lookup_insert_eq|constructor|done]|].
  split; [done|]. intros l' xs (Hf & Hn & Hs). split_and!; [|done..]. cbn. rewrite lookup_insert_ne; [done|congruence].
Qed.

Lemma append_ok l i h xs : mlist_repr l h xs -> exists p h', list_append l i h = Ok (tt, h') /\ mlist_repr l h' (xs ++ [(p, i)]) /\ others l h h'.
Proof.
  intros (Hf & Hn & Hs). set (p := fresh (dom (elems h))). assert (Hp : elems h !! p = None) by apply not_elem_of_dom, is_fresh.
  pose proof (stretch_fresh _ _ _ _ _ p Hs Hp) as Hpx. set (m1 := <[p := mkelem i None None l]> (elems h)).
  assert (Hm1 : m1 !! p = Some (mkelem i None None l)) by apply lookup_insert_eq.
  assert (Hnd : NoDup (xs ++ [(p, i)]).*1).
  { rewrite fmap_app. apply NoDup_app. split; [done|]. split; [|apply NoDup_singleton]. intros q Hq Hqp%list_elem_of_singleton. cbn in Hqp. congruence. }
  unfold list_append. rewrite (bind_ok _ _ _ p (mkheap m1 (lists h))) by reflexivity.
  rewrite (bind_ok _ _ _ (mklist (headp xs None) (lastp None xs)) (mkheap m1 (lists h))) by (unfold the_list; cbn [lists]; by rewrite Hf).
  exists p. destruct (decide (xs = [])) as [->|Hne].
  - cbn [headp lastp m_first]. eexists. split.
    { rewrite (bind_ok _ _ _ _ _ (bind_run _ _ _ _ _ _ _ (upd_list_ok l _ m1 _ _ Hf) (upd_elem_ok p _ _ _ _ Hm1))).
      apply (upd_list_ok l _ _ _ (mklist (Some p) None)). apply lookup_insert_eq. }
    unfold m1. rewrite !insert_insert_eq. repeat split; [by apply lookup_insert_eq|done|by apply lookup_insert_eq| |].
    + intros l' Hl. by apply lookup_insert_ne.
    + intros q e Hq _. cbn. rewrite lookup_insert_ne; [done|congruence].
  - destruct (lastp_none xs Hne) as [q Hq]. rewrite Hq. assert (exists x, headp xs None = Some x) as [x Hx] by (destruct xs; [done|by eexists]). rewrite Hx. cbn [m_first m_last].
    set (m2 := <[p := mkelem i None (Some q) l]> m1). assert (Hs2 : stretch m2 l None xs None) by (unfold m2, m1; apply stretch_other; [by apply stretch_other|done]).
    destruct (stretch_set_next m2 l None xs None (Some p) q Hs2 Hn Hq) as (e & He & Hs3 & Hqx). assert (Hqp : q <> p) by congruence.
    assert (Hqh : elems h !! q = Some e) by (unfold m2, m1 in He; by rewrite !lookup_insert_ne in He).
    eexists. split.
    { rewrite (bind_ok _ _ _ _ _ (bind_run _ _ _ _ _ _ _ (upd_elem_ok p _ m1 _ _ Hm1) (upd_elem_ok q (set_next (Some p)) m2 (lists h) e He))).
      exact (upd_list_ok l _ _ _ _ Hf). }
    split; [|split].
    + split_and!; [|done|].
      * cbn. rewrite lookup_insert_eq, headp_app, lastp_app. unfold set_last. cbn. by destruct xs.
      * apply stretch_app. split; [done|]. split; [|done]. cbn. rewrite lookup_insert_ne by done. unfold m2. by rewrite lookup_insert_eq, Hq.
    + intros l' Hl. by apply lookup_insert_ne.
    + intros q' e' Hq' Hl'. destruct (stretch_cell _ _ _ _ _ q Hs Hqx) as (e2 & He2 & Hle2). cbn. unfold m2, m1. rewrite !lookup_insert_ne; congruence.
Qed.

Lemma headp_is xs p : p ∉ xs.*1 -> headp xs (Some p) = Some p <-> xs = [].
Proof. destruct xs as [|x xs]; [done|]. intros Hp. split; [|done]. intros [= E]. destruct Hp. cbn. rewrite E. by left. Qed.

Lemma lastp_is ys p : p ∉ ys.*1 -> lastp (Some p) ys = Some p <-> ys = [].
Proof.
  destruct ys as [|y ys]; [done|]. intros Hp. split; [|done]. rewrite (lastp_any _ None) by done. intros E%lastp_in. done.
Qed.

(** The first and the last element of the list are set. *)
Lemma unlink_ends p e xs ys m ls l : p ∉ xs.*1 -> p ∉ ys.*1 -> e_list e = l -> e_next e = headp ys None -> e_prev e = lastp None xs ->
  let c := mklist (headp xs (Some p)) (lastp (Some p) ys) in
  ls !! l = Some c -> exists ls',
    (when (bool_decide (m_first c = Some p)) (upd_list l (set_first (e_next e))) ;;;
     when (bool_decide (m_last c = Some p)) (upd_list l (set_last (e_prev e)))) (mkheap m ls) = Ok (tt, mkheap (A := A) m ls') /\
    ls' !! l = Some (mklist (headp xs (headp ys None)) (lastp (lastp None xs) ys)) /\ forall l', l' <> l -> ls' !! l' = ls !! l'.
Proof.
  intros Hx Hy Hl Hn Hp c Hc. cbn [c m_first m_last]. rewrite (bool_decide_ext _ _ (headp_is xs p Hx)), (bool_decide_ext _ _ (lastp_is ys p Hy)), Hn, Hp.
  set (ls1 := if bool_decide (xs = []) then <[l := set_first (headp ys None) c]> ls else ls).
  assert (E1 : when (bool_decide (xs = [])) (upd_list l (set_first (headp ys None))) (mkheap m ls) = Ok (tt, mkheap m ls1))
    by (unfold ls1; case_bool_decide; [by apply upd_list_ok|done]).
  assert (H1 : ls1 !! l = Some (mklist (headp xs (headp ys None)) (lastp (Some p) ys))).
  { unfold ls1. case_bool_decide as Hb; [by rewrite lookup_insert_eq, Hb|]. rewrite Hc. unfold c. by destruct xs. }
  set (ls2 := if bool_decide (ys = []) then <[l := set_last (lastp None xs) (mklist (headp xs (headp ys None)) (lastp (Some p) ys))]> ls1 else ls1).
  exists ls2. split; [|split].
  - rewrite (bind_ok _ _ _ _ _ E1). unfold ls2. destruct (bool_decide (ys = [])); [by apply upd_list_ok|done].
  - unfold ls2. destruct (bool_decide_reflect (ys = [])) as [Hb|Hb]; [by rewrite lookup_insert_eq, Hb|]. rewrite H1. by rewrite (lastp_any (Some p) (lastp None xs) ys Hb).
  - intros l' Hne. unfold ls2, ls1. repeat case_bool_decide; by rewrite ?lookup_insert_ne by done.
Qed.

(** The neighbours of the element point at each other. *)
Lemma unlink_neighbours p e xs ys m ls l : NoDup (xs ++ ys).*1 -> e_next e = headp ys None -> e_prev e = lastp None xs ->
  stretch m l None xs (Some p) -> stretch m l (Some p) ys None -> exists m',
    (when (bool_decide (is_Some (e_prev e))) (upd_elem (e_prev e) (set_next (e_next e))) ;;;
     when (bool_decide (is_Some (e_next e))) (upd_elem (e_next e) (set_prev (e_prev e)))) (mkheap m ls) = Ok (tt, mkheap m' ls) /\
    stretch m' l None (xs ++ ys) None /\ forall q c, m !! q = Some c -> e_list c <> l -> m' !! q = Some c.
Proof.
  intros Hnd Hn Hp Hxs Hys. rewrite Hn, Hp. rewrite fmap_app in Hnd. apply NoDup_app in Hnd as (Hdx & Hxy & Hdy).
  assert (H1 : exists m1, when (bool_decide (is_Some (lastp None xs))) (upd_elem (lastp None xs) (set_next (headp ys None))) (mkheap m ls) = Ok (tt, mkheap m1 ls) /\
    stretch m1 l None xs (headp ys None) /\ stretch m1 l (Some p) ys None /\ forall q c, m !! q = Some c -> e_list c <> l -> m1 !! q = Some c).
  { destruct (decide (xs = [])) as [->|Hne]; [by exists m|]. destruct (lastp_none xs Hne) as [q Hq]. rewrite Hq.
    destruct (stretch_set_next m l None xs (Some p) (headp ys None) q Hxs Hdx Hq) as (c & Hc & Hs & Hin). eexists. split; [by apply upd_elem_ok|].
    split; [done|]. split; [apply stretch_other; [done|by apply Hxy]|]. intros q' c' Hc' Hl. rewrite lookup_insert_ne; [done|]. intros ->.
    destruct (stretch_cell _ _ _ _ _ _ Hxs Hin) as (c2 & Hc2 & Hl2). congruence. }
  destruct H1 as (m1 & E1 & Hx1 & Hy1 & Ho1). rewrite (bind_ok _ _ _ _ _ E1). destruct ys as [|y ys]; [exists m1; rewrite app_nil_r; by split_and!|].
  cbn [headp]. destruct (stretch_set_prev m1 l (Some p) y ys None (lastp None xs) Hy1 Hdy) as (c & Hc & Hs). eexists. split; [by apply upd_elem_ok|]. split.
  - apply stretch_app. split; [|done]. apply stretch_other; [done|]. intros Hin. apply (Hxy y.1 Hin). by left.
  - intros q' c' Hc' Hl. rewrite lookup_insert_ne; [by apply Ho1|]. intros <-. destruct (stretch_cell _ _ _ _ _ y.1 Hy1) as (c2 & Hc2 & Hl2); [by left|].
    rewrite (Ho1 _ _ Hc' Hl) in Hc2. congruence.
Qed.

Lemma remove_ok p a l h xs ys : mlist_repr l h (xs ++ (p, a) :: ys) ->
  exists h', list_remove p h = Ok (a, h') /\ mlist_repr l h' (xs ++ ys) /\ others l h h'.
Proof.
  destruct h as [m ls]. intros (Hf & Hnd & Hs). cbn in Hf, Hs. apply stretch_app in Hs as [Hxs [Hp Hys]]. cbn in Hp, Hxs, Hys.
  rewrite headp_app, lastp_app in Hf. cbn in Hf. assert (Hnd' : NoDup ((xs ++ ys).*1) /\ (p ∉ xs.*1) /\ (p ∉ ys.*1)).
  { rewrite fmap_app in *. cbn in Hnd. apply NoDup_app in Hnd as (Hdx & Hxy & [Hpy Hdy]%NoDup_cons). split_and!; [|intros Hin; by destruct (Hxy p Hin); left|done].
    apply NoDup_app. split_and!; [done| |done]. intros q Hq Hqy. apply (Hxy q Hq). by right. }
  destruct Hnd' as (Hd & Hpx & Hpy). set (e := mkelem a (headp ys None) (lastp None xs) l).
  destruct (unlink_ends p e xs ys m ls l Hpx Hpy eq_refl eq_refl eq_refl Hf) as (ls' & E1 & Hl' & Hls).
  destruct (unlink_neighbours p e xs ys m ls' l Hd eq_refl eq_refl Hxs Hys) as (m' & E2 & Hs' & Hm').
  exists (mkheap (delete p m') ls'). split; [|split].
  - unfold list_remove. rewrite (bind_ok _ _ _ e (mkheap m ls)) by (unfold elem; cbn; by rewrite Hp). cbn [e e_list]. fold e.
    rewrite (bind_ok _ _ _ (mklist (headp xs (Some p)) (lastp (Some p) ys)) (mkheap m ls)) by (unfold the_list; cbn; by rewrite Hf).
    apply bind_inv in E1 as ([] & h1 & E1 & E1'). rewrite (bind_ok _ _ _ _ _ E1), (bind_ok _ _ _ _ _ E1').
    apply bind_inv in E2 as ([] & h2 & E2 & E2'). by rewrite (bind_ok _ _ _ _ _ E2), (bind_ok _ _ _ _ _ E2').
  - split_and!; [by rewrite headp_app, lastp_app|done|]. apply stretch_delete; [done|]. rewrite fmap_app, elem_of_app. tauto.
  - split; [exact Hls|]. intros q c Hq Hl. cbn. rewrite lookup_delete_ne; [by apply Hm'|]. intros ->. cbn in Hq. rewrite Hp in Hq. by injection Hq as <-.
Qed.

Lemma first_ok l h xs : mlist_repr l h xs -> list_first l h = Ok (head xs, h).
Proof.
  intros (Hf & _ & Hs). unfold list_first. rewrite (bind_ok _ _ _ (mklist (headp xs None) (lastp None xs)) h) by (unfold the_list; by rewrite Hf).
  destruct xs as [|[p a] xs]; [done|]. cbn [m_first headp fst]. destruct Hs as [Hp _]. cbn in Hp.
  rewrite (bind_ok _ _ _ (mkelem a (headp xs None) None l) h) by (unfold elem; by rewrite Hp). done.
Qed.

Lemma walk_stretch m ls l p xs fuel : stretch m l p xs None -> (length xs <= fuel)%nat -> walk fuel (headp xs None) (mkheap m ls) = Ok (xs, mkheap m ls).
Proof.
  revert p fuel. induction xs as [|[q a] xs IH]; intros p fuel Hs Hf; [by destruct fuel|]. destruct fuel as [|fuel]; [cbn in Hf; lia|].
  destruct Hs as [Hq Hs]. cbn in Hq, Hs. cbn [headp fst walk]. rewrite (bind_ok _ _ _ (mkelem a (headp xs None) p l) (mkheap m ls)) by (unfold elem; cbn; by rewrite Hq).
  cbn [e_next e_item]. rewrite (bind_ok _ _ _ _ _ (IH (Some q) fuel Hs ltac:(cbn in Hf; lia))). done.
Qed.

(** The addresses of a list are cells of the heap, so the walk has enough fuel. *)
Lemma stretch_size m l p xs n : stretch m l p xs n -> NoDup xs.*1 -> (length xs <= size m)%nat.
Proof.
  intros Hs Hn. assert (Hsub : list_to_set (C := gset addr) xs.*1 ⊆ dom m).
  { intros q Hq%elem_of_list_to_set. destruct (stretch_cell _ _ _ _ _ _ Hs Hq) as (e & He & _). by apply elem_of_dom_2 in He. }
  apply subseteq_size in Hsub. rewrite size_dom, size_list_to_set, length_fmap in Hsub by done. done.
Qed.

Lemma walk_ok l h xs : mlist_repr l h xs -> list_walk l h = Ok (xs, h).
Proof.
  destruct h as [m ls]. intros (Hf & Hn & Hs). cbn in Hf, Hs. unfold list_walk. rewrite (bind_ok _ _ _ (mklist (headp xs None) (lastp None xs)) (mkheap m ls)) by (unfold the_list; cbn; by rewrite Hf).
  cbn [m_first]. eapply walk_stretch; [done|]. by eapply stretch_size.
Qed.

(** ** The heap as lists

    Abstractly the heap is a map from the addresses of lists to their elements;
    the operations act on one list each. *)

Abbreviation lists_state := (gmap addr (list (addr * A))).

Inductive list_op := New | Append (l : addr) (i : A) | Remove (p : addr).

Inductive list_step (m : lists_state) : list_op -> lists_state -> Prop :=
| step_new l : m !! l = None -> list_step m New (<[l := []]> m)
| step_append l i xs p : m !! l = Some xs -> list_step m (Append l i) (<[l := xs ++ [(p, i)]]> m)
| step_remove l xs p a ys : m !! l = Some (xs ++ (p, a) :: ys) -> list_step m (Remove p) (<[l := xs ++ ys]> m).

Definition enabled (m : lists_state) (o : list_op) : Prop :=
  match o with
  | New => True
  | Append l _ => is_Some (m !! l)
  | Remove p => exists l xs, m !! l = Some xs /\ p ∈ xs.*1
  end.

Definition run_op (o : list_op) : prog (heap A) unit :=
  match o with
  | New => list_new ;;; ret tt
  | Append l i => list_append l i
  | Remove p => list_remove p ;;; ret tt
  end.

Definition represents h (m : lists_state) : Prop := forall l xs, m !! l = Some xs -> mlist_repr l h xs.

Lemma represents_insert l xs h h' m : represents h m -> mlist_repr l h' xs -> others l h h' -> represents h' (<[l := xs]> m).
Proof.
  intros Hr Hl Ho l' ys [[<- <-]|[Hne Hm]]%lookup_insert_Some; [done|]. apply (others_repr l l' h); [done|congruence|]. by apply Hr.
Qed.

Lemma run_op_ok o h m : represents h m -> enabled m o ->
  exists h' m', run_op o h = Ok (tt, h') /\ list_step m o m' /\ represents h' m'.
Proof.
  intros Hr. destruct o as [|l i|p]; cbn [enabled run_op].
  - intros _. destruct (list_new_ok h) as (l & h' & E & Hl & Hnone & Hkeep). exists h', (<[l := []]> m).
    split; [by rewrite (bind_ok _ _ _ _ _ E)|]. split.
    + constructor. destruct (m !! l) as [xs|] eqn:Em; [|done]. destruct (Hr _ _ Em) as [Hf _]. congruence.
    + intros l' ys [[<- <-]|[Hne Hm]]%lookup_insert_Some; [done|]. by apply Hkeep, Hr.
  - intros [xs Em]. destruct (append_ok l i h xs (Hr _ _ Em)) as (p & h' & E & Hl & Ho). exists h', (<[l := xs ++ [(p, i)]]> m).
    split; [done|]. split; [by constructor|]. by eapply represents_insert.
  - intros (l & zs & Em & (x & -> & (xs & ys & ->)%list_elem_of_split)%list_elem_of_fmap). destruct x as [p a].
    destruct (remove_ok p a l h xs ys (Hr _ _ Em)) as (h' & E & Hl & Ho). exists h', (<[l := xs ++ ys]> m).
    split; [cbn [fst]; by rewrite (bind_ok _ _ _ _ _ E)|]. split; [by econstructor|]. by eapply represents_insert.
Qed.
End MList.

(** A list of the heap implements the interface. *)
#[export] Instance heap_list_ops {A} (l : addr) : MListOps (heap A) A := {
  l_append := list_append l; l_remove := list_remove; l_first := list_first l; l_walk := list_walk l }.

#[export] Program Instance heap_list_laws {A} (l : addr) : MListLaws (heap A) A (H := heap_list_ops l) := {
  l_repr := mlist_repr l }.
Next Obligation. intros A l a s xs Hs. destruct (append_ok l a s xs Hs) as (p & s' & E & Hs' & _). by exists p, s'. Qed.
Next Obligation. intros A l p a xs ys s Hs. destruct (remove_ok p a l s xs ys Hs) as (s' & E & Hs' & _). by exists s'. Qed.
Next Obligation. intros A l s xs. apply first_ok. Qed.
Next Obligation. intros A l s xs. apply walk_ok. Qed.
Next Obligation. intros A l s xs (_ & Hn & _). exact Hn. Qed.

(** ** Property *)

(** C37: Lists refine lists.  A heap of doubly linked lists, any number of them
    sharing it, behaves as a map from lists to sequences: the empty heap holds
    none; whenever a new list is made, an item is appended to a list, or an
    element is removed from whichever list it is in, the operation returns
    without touching a null or freed cell and changes the sequence of that list
    in the way its name says and no other; and going along a list from its
    first element visits the elements of its sequence in order and stops. *)
Theorem lists_refine {A} :
  represents (A := A) (mkheap ∅ ∅) ∅ /\
  forall h m, represents (A := A) h m ->
    (forall o, enabled m o -> exists h' m', run_op o h = Ok (tt, h') /\ list_step m o m' /\ represents h' m') /\
    (forall l xs, m !! l = Some xs -> list_walk l h = Ok (xs, h) /\ list_first l h = Ok (head xs, h) /\ NoDup xs.*1).
Proof.
  split; [by intros l xs|]. intros h m Hr. split; [intros o; by apply run_op_ok|]. intros l xs Em. pose proof (Hr l xs Em) as Hl.
  split_and!; [by apply walk_ok|by apply first_ok|apply Hl].
Qed.

(** Two lists in one heap; an element is taken out of the middle of the first. *)
Definition sample_heap : res (list Z * list Z) :=
  match (l <- list_new ;; list_append l 10 ;;; list_append l 20 ;;; list_append l 30 ;;;
         l2 <- list_new ;; list_append l2 7 ;;;
         xs <- list_walk l ;;
         list_remove (nth 1 xs.*1 xH) ;;;
         a <- list_walk l ;; b <- list_walk l2 ;; ret (a.*2, b.*2))%prog (mkheap ∅ ∅) with
  | Ok (r, _) => Ok r
  | Exit e => Exit e
  | Fault e => Fault e
  end.

Example sample_heap_runs : sample_heap = Ok ([10; 30], [7]).
Proof. by vm_compute. Qed.

(** Removing the first element of a list in the heap with the list of one
    element. *)
Lemma lists_refine_witness : exists h (m : gmap addr (list (addr * Z))), represents h m /\ exists h' m', run_op (Remove 1%positive) h = Ok (tt, h') /\ list_step m (Remove 1%positive) m'.
Proof.
  destruct (lists_refine (A := Z)) as [H0 Hstep].
  set (h := mkheap {[1%positive := mkelem 5 None None 1%positive]} {[1%positive := mklist (Some 1%positive) (Some 1%positive)]} : heap Z).
  set (m := {[1%positive := [(1%positive, 5)]]} : gmap addr (list (addr * Z))).
  assert (Hr : represents h m).
  { intros l xs Em. unfold m in Em. apply lookup_singleton_Some in Em as [<- <-]. split_and!; [by vm_compute|by apply NoDup_singleton|]. split; [by vm_compute|done]. }
  exists h, m. split; [done|]. destruct (Hstep h m Hr) as [Ho _]. destruct (Ho (Remove 1%positive)) as (h' & m' & E & Hs & _); [|by exists h', m'].
  exists 1%positive, [(1%positive, 5)]. split; [by vm_compute|by left].
Defined.
