(* ===== verification/Timing.v ===== *)
(** Model of timing.c of the two ReconOS test programs: the elapsed time in
    milliseconds between two [gettimeofday] readings (the configuration that
    timing.h selects). *)

From S2P Require Import Prelude.

Local Open Scope prog_scope.

(** [struct timeval]; [tv_sec] and [tv_usec] are 32-bit [long]s. *)
Record timing_t := mktime { tv_sec : Z; tv_usec : Z }.

(** A signed 32-bit result, or the undefined behaviour of an overflow. *)
Definition long_result {S} (x : Z) : prog S Z :=
  if (- 2 ^ 31 <=? x) && (x <? 2 ^ 31) then ret x else fault "signed overflow".

(** The [timersub] macro of <sys/time.h>: [a - b] with a microsecond borrow. *)
Definition timersub {S} (a b : timing_t) : prog S timing_t :=
  sec <- long_result (tv_sec a - tv_sec b) ;;
  usec <- long_result (tv_usec a - tv_usec b) ;;
  if usec <? 0 then
    sec <- long_result (sec - 1) ;;
    usec <- long_result (usec + 1000000) ;;
    ret (mktime sec usec)
  else ret (mktime sec usec).

Definition calc_timediff_ms {S} (start stop : timing_t) : prog S Z :=
  diff <- timersub stop start ;;
  p <- long_result (tv_sec diff * 1000) ;;
  ms <- long_result (p + Z.quot (tv_usec diff) 1000) ;;
  ret (u32 ms).

(** A reading [gettimeofday] can return. *)
Definition wf_time (t : timing_t) : Prop :=
  0 <= tv_sec t < 2 ^ 31 /\ 0 <= tv_usec t < 1000000.

Definition micros (t : timing_t) : Z := tv_sec t * 1000000 + tv_usec t.

Lemma long_result_ok {S} x (s : S) :
  - 2 ^ 31 <= x < 2 ^ 31 -> long_result x s = Ok (x, s).
Proof. intros. unfold long_result. by z_guards. Qed.

Lemma timersub_ok {S} a b (s : S) :
  wf_time a -> wf_time b ->
  exists d, timersub a b s = Ok (d, s) /\
    micros d = micros a - micros b /\ 0 <= tv_usec d < 1000000 /\
    - 2 ^ 31 <= tv_sec d < 2 ^ 31.
Proof.
  intros [Ha Ha'] [Hb Hb']. unfold timersub, micros.
  rewrite (bind_ok _ _ _ _ _ (long_result_ok (tv_sec a - tv_sec b) s ltac:(lia))).
  rewrite (bind_ok _ _ _ _ _ (long_result_ok (tv_usec a - tv_usec b) s ltac:(lia))).
  destruct (Z.ltb_spec (tv_usec a - tv_usec b) 0).
  - rewrite (bind_ok _ _ _ _ _ (long_result_ok (tv_sec a - tv_sec b - 1) s ltac:(lia))).
    rewrite (bind_ok _ _ _ _ _ (long_result_ok (tv_usec a - tv_usec b + 1000000) s ltac:(lia))).
    eexists. split; [reflexivity|]. simpl. lia.
  - eexists. split; [reflexivity|]. simpl. lia.
Qed.

(** The reported running time.  For two readings less than 2^31 - 1000
    milliseconds apart, in order, [calc_timediff_ms] neither overflows nor
    loses a borrow: it is the elapsed time in microseconds divided by 1000,
    rounded down. *)
Theorem calc_timediff_ms_exact (start stop : timing_t) :
  wf_time start -> wf_time stop ->
  0 <= micros stop - micros start < (2 ^ 31 - 1000) * 1000 ->
  calc_timediff_ms start stop tt = Ok ((micros stop - micros start) / 1000, tt).
Proof.
  intros Ha Hb Hd. destruct (timersub_ok stop start tt Hb Ha) as (d & E & Hm & Hu & Hs).
  unfold calc_timediff_ms. rewrite (bind_ok _ _ _ _ _ E).
  rewrite Z.quot_div_nonneg by lia. rewrite <-Hm in *. unfold micros in *.
  assert (Hq : 0 <= tv_usec d / 1000 < 1000) by (Z.div_mod_to_equations; lia).
  rewrite (bind_ok _ _ _ _ _ (long_result_ok (tv_sec d * 1000) tt ltac:(lia))).
  rewrite (bind_ok _ _ _ _ _ (long_result_ok (tv_sec d * 1000 + tv_usec d / 1000) tt ltac:(lia))).
  unfold ret. rewrite u32_small by (unfold is_u32; lia).
  replace (tv_sec d * 1000000 + tv_usec d) with (tv_usec d + tv_sec d * 1000 * 1000) by lia.
  rewrite Z.div_add by lia. do 2 f_equal. lia.
Qed.

Lemma calc_timediff_ms_exact_witness :
  calc_timediff_ms (mktime 7 999500) (mktime 9 1000) tt = Ok (1001, tt).
Proof.
  apply (calc_timediff_ms_exact (mktime 7 999500) (mktime 9 1000)); by vm_compute.
Defined.
