(* ===== verification/Cipher.v ===== *)
(** The chaining modes packets are encrypted with (libtomcrypt's cbc and ctr
    modes and dropbear's void cipher), over an interface for the block cipher,
    and the interface [CipherMode] the packet layer is verified against.  The
    operations return [None] where the C functions return an error code. *)

From S2P Require Import Prelude Dbutil.

Local Open Scope Z_scope.

Definition MAXBLOCKSIZE : Z := 128.

(** ** Interfaces *)

(** A scheduled key of the block cipher [cipher_descriptor[cipher]]; the
    ciphers themselves (aes.c, des.c, twofish.c, blowfish.c) are not modelled. *)
Class BlockCipher (K : Type) := {
  block_length : Z;
  setup : list Z -> option K;
  ecb_encrypt : K -> list Z -> option (list Z);
  ecb_decrypt : K -> list Z -> option (list Z)
}.
Arguments block_length K {_}.

(** What a block cipher promises: block lengths that fit the chaining state,
    and, for the keys its setup produces, decryption undoing encryption. *)
Class BlockCipherLaws (K : Type) `{BlockCipher K} := {
  block_length_range : 1 <= block_length K <= MAXBLOCKSIZE;
  key_ok : K -> Prop;
  setup_key_ok key k : bytes key -> setup key = Some k -> key_ok k;
  ecb_inverse k b : key_ok k -> zlen b = block_length K -> bytes b ->
    exists c, ecb_encrypt k b = Some c /\ zlen c = block_length K /\ bytes c /\
              ecb_decrypt k c = Some b
}.

(** A mode with its chaining state, [struct dropbear_cipher_mode]. *)
Class CipherMode (St : Type) := {
  cm_encrypt : list Z -> St -> option (list Z * St);
  cm_decrypt : list Z -> St -> option (list Z * St)
}.

(** What a mode promises for blocks of [blocksize] bytes: sender and receiver
    stay synchronised over a block, and a call over several blocks is the
    calls over the parts. *)
Class CipherModeLaws (St : Type) `{CipherMode St} (blocksize : Z) := {
  cm_sync : St -> St -> Prop;
  cm_block s r b : cm_sync s r -> zlen b = blocksize -> bytes b ->
    exists c s' r', cm_encrypt b s = Some (c, s') /\ cm_decrypt c r = Some (b, r') /\
      cm_sync s' r' /\ zlen c = blocksize /\ bytes c;
  cm_encrypt_nil s r : cm_sync s r -> cm_encrypt [] s = Some ([], s);
  cm_decrypt_nil s r : cm_sync s r -> cm_decrypt [] r = Some ([], r);
  cm_encrypt_app a b ca cb s s1 s2 :
    zlen a mod blocksize = 0 -> zlen b mod blocksize = 0 ->
    cm_encrypt a s = Some (ca, s1) -> cm_encrypt b s1 = Some (cb, s2) ->
    cm_encrypt (a ++ b) s = Some (ca ++ cb, s2);
  cm_decrypt_app a b pa pb r r1 r2 :
    zlen a mod blocksize = 0 -> zlen b mod blocksize = 0 ->
    cm_decrypt a r = Some (pa, r1) -> cm_decrypt b r1 = Some (pb, r2) ->
    cm_decrypt (a ++ b) r = Some (pa ++ pb, r2)
}.

(** ** void_cipher *)

Record void_state := mkvoid {}.

Definition void_cipher (input : list Z) (st : void_state) : option (list Z * void_state) :=
  Some (input, st).

Definition void_start (IV key : list Z) : option void_state := Some mkvoid.

(** ** CBC *)

(** [while (len)], a block at a time; [n] is at least the number of blocks. *)
Fixpoint block_loop {St : Type} (blocklen : Z) (body : list Z -> St -> option (list Z * St))
    (n : nat) (input : list Z) (st : St) : option (list Z * St) :=
  match input with
  | [] => Some ([], st)
  | _ =>
      match n with
      | O => None
      | S n =>
          '(output, st) ← body (ztake blocklen input) st;
          '(rest, st) ← block_loop blocklen body n (zdrop blocklen input) st;
          Some (output ++ rest, st)
      end
  end.

Section Modes.
Context {K : Type} `{BlockCipher K}.

Record symmetric_CBC := mkcbc { cbc_blocklen : Z; cbc_IV : list Z; cbc_key : K }.

Definition cbc_start (IV key : list Z) : option symmetric_CBC :=
  k ← setup key;
  Some (mkcbc (block_length K) (ztake (block_length K) IV) k).

(** The bodies of the block loops, without the pointer increments. *)
Definition cbc_encrypt_block (pt : list Z) (cbc : symmetric_CBC) : option (list Z * symmetric_CBC) :=
  let IV := zip_with Z.lxor (cbc_IV cbc) pt in
  ct ← ecb_encrypt (cbc_key cbc) IV;
  Some (ct, mkcbc (cbc_blocklen cbc) ct (cbc_key cbc)).

Definition cbc_decrypt_block (ct : list Z) (cbc : symmetric_CBC) : option (list Z * symmetric_CBC) :=
  tmp ← ecb_decrypt (cbc_key cbc) ct;
  Some (zip_with Z.lxor tmp (cbc_IV cbc), mkcbc (cbc_blocklen cbc) ct (cbc_key cbc)).

Definition cbc_encrypt (pt : list Z) (cbc : symmetric_CBC) : option (list Z * symmetric_CBC) :=
  if (cbc_blocklen cbc <? 1) || (cbc_blocklen cbc >? MAXBLOCKSIZE) then None
  else if negb (zlen pt mod cbc_blocklen cbc =? 0) then None
  else block_loop (cbc_blocklen cbc) cbc_encrypt_block (length pt) pt cbc.

Definition cbc_decrypt (ct : list Z) (cbc : symmetric_CBC) : option (list Z * symmetric_CBC) :=
  if (cbc_blocklen cbc <? 1) || (cbc_blocklen cbc >? MAXBLOCKSIZE) then None
  else if negb (zlen ct mod cbc_blocklen cbc =? 0) then None
  else block_loop (cbc_blocklen cbc) cbc_decrypt_block (length ct) ct cbc.

(** ** CTR *)

Record symmetric_CTR := mkctr {
  ctr_blocklen : Z; ctr_padlen : Z; ctr_ctr : list Z; ctr_pad : list Z; ctr_key : K }.

(** The increment loop, on the counter read from its last byte
    (CTR_COUNTER_BIG_ENDIAN, the mode dropbear starts). *)
Fixpoint ctr_incr_loop (ctr : list Z) : list Z :=
  match ctr with
  | [] => []
  | b :: rest =>
      let b := Z.land (b + 1) 255 in
      if b =? 0 then b :: ctr_incr_loop rest else b :: rest
  end.

Definition ctr_incr (ctr : list Z) : list Z := rev (ctr_incr_loop (rev ctr)).

Definition dropbear_big_endian_ctr_start (IV key : list Z) : option symmetric_CTR :=
  k ← setup key;
  let ctr := ztake (block_length K) IV in
  pad ← ecb_encrypt k ctr;
  Some (mkctr (block_length K) 0 ctr pad k).

(** A fresh pad when the current one is used up. *)
Definition ctr_refill (st : symmetric_CTR) : option symmetric_CTR :=
  if ctr_padlen st =? ctr_blocklen st then
    let ctr := ctr_incr (ctr_ctr st) in
    pad ← ecb_encrypt (ctr_key st) ctr;
    Some (mkctr (ctr_blocklen st) 0 ctr pad (ctr_key st))
  else Some st.

Fixpoint ctr_encrypt_loop (pt : list Z) (st : symmetric_CTR) : option (list Z * symmetric_CTR) :=
  match pt with
  | [] => Some ([], st)
  | p :: pt =>
      st ← ctr_refill st;
      x ← zget (ctr_pad st) (ctr_padlen st);
      '(rest, st') ← ctr_encrypt_loop pt
        (mkctr (ctr_blocklen st) (ctr_padlen st + 1) (ctr_ctr st) (ctr_pad st) (ctr_key st));
      Some (Z.lxor p x :: rest, st')
  end.

Definition ctr_encrypt (pt : list Z) (st : symmetric_CTR) : option (list Z * symmetric_CTR) :=
  if (ctr_blocklen st <? 1) || (ctr_blocklen st >? MAXBLOCKSIZE) ||
     (ctr_padlen st <? 0) || (ctr_padlen st >? MAXBLOCKSIZE) then None
  else ctr_encrypt_loop pt st.

Definition ctr_decrypt (ct : list Z) (st : symmetric_CTR) : option (list Z * symmetric_CTR) :=
  ctr_encrypt ct st.

(** ** The union [cipher_state] with the mode that owns it *)

Inductive cipher_state :=
| ModeNone (st : void_state)
| ModeCbc (cbc : symmetric_CBC)
| ModeCtr (ctr : symmetric_CTR).

#[export] Instance dropbear_modes : CipherMode cipher_state := {
  cm_encrypt pt st :=
    match st with
    | ModeNone st => '(ct, st) ← void_cipher pt st; Some (ct, ModeNone st)
    | ModeCbc cbc => '(ct, cbc) ← cbc_encrypt pt cbc; Some (ct, ModeCbc cbc)
    | ModeCtr ctr => '(ct, ctr) ← ctr_encrypt pt ctr; Some (ct, ModeCtr ctr)
    end;
  cm_decrypt ct st :=
    match st with
    | ModeNone st => '(pt, st) ← void_cipher ct st; Some (pt, ModeNone st)
    | ModeCbc cbc => '(pt, cbc) ← cbc_decrypt ct cbc; Some (pt, ModeCbc cbc)
    | ModeCtr ctr => '(pt, ctr) ← ctr_decrypt ct ctr; Some (pt, ModeCtr ctr)
    end }.

Inductive mode := MNone | MCbc | MCtr.

(** [crypt_mode->start]. *)
Definition mode_start (m : mode) (IV key : list Z) : option cipher_state :=
  match m with
  | MNone => st ← void_start IV key; Some (ModeNone st)
  | MCbc => cbc ← cbc_start IV key; Some (ModeCbc cbc)
  | MCtr => ctr ← dropbear_big_endian_ctr_start IV key; Some (ModeCtr ctr)
  end.
End Modes.
Arguments symmetric_CBC : clear implicits.
Arguments symmetric_CTR : clear implicits.
Arguments cipher_state : clear implicits.

(** ** Lemmas on the block loop *)

Section BlockLoop.
Context {St : Type} (bl : Z) (body : list Z -> St -> option (list Z * St)).

Lemma block_loop_mono n n' x s r :
  block_loop bl body n x s = Some r -> (n <= n')%nat -> block_loop bl body n' x s = Some r.
Proof.
  revert n' x s r. induction n as [|n IH]; intros n' x s r E Hn; destruct x as [|b x];
    [by destruct n'|done|by destruct n'|].
  destruct n' as [|n']; [lia|]. cbn [block_loop] in *.
  destruct (body _ s) as [[o st]|]; [|done]. simpl in *.
  destruct (block_loop bl body n _ st) as [[rest st']|] eqn:El; [|done].
  by rewrite (IH n' _ _ _ El) by lia.
Qed.

Lemma multiple_cons_le (x : Z) (l : list Z) : 0 < bl -> zlen (x :: l) mod bl = 0 -> bl <= zlen (x :: l).
Proof.
  intros Hbl Hm. apply Z.mod_divide in Hm as [k Hk]; [|lia].
  assert (Hp : 0 < zlen (x :: l)) by zlia. rewrite Hk in *. clear Hk.
  assert (0 < k) by nia. nia.
Qed.

Lemma zdrop_multiple (l : list Z) : 0 < bl -> zlen l mod bl = 0 -> bl <= zlen l -> zlen (zdrop bl l) mod bl = 0.
Proof.
  intros Hbl Hm Hle. rewrite zlen_zdrop by lia.
  replace (zlen l - bl) with (zlen l + (-1) * bl) by lia. by rewrite Z.mod_add by lia.
Qed.

Lemma block_loop_app n m a b ca cb s s1 s2 :
  0 < bl -> zlen a mod bl = 0 ->
  block_loop bl body n a s = Some (ca, s1) -> block_loop bl body m b s1 = Some (cb, s2) ->
  block_loop bl body (n + m) (a ++ b) s = Some (ca ++ cb, s2).
Proof.
  intros Hbl. revert a ca s. induction n as [|n IH]; intros a ca s Ha E1 E2.
  - destruct a; [|done]. simpl in E1. simplify_eq. exact E2.
  - destruct a as [|x a].
    + simpl in E1. simplify_eq. cbn [app]. eapply block_loop_mono; [exact E2|lia].
    + pose proof (multiple_cons_le x a Hbl Ha) as Hle.
      pose proof (zdrop_multiple _ Hbl Ha Hle) as Hd.
      cbn [block_loop Nat.add] in *. rewrite <-app_comm_cons, app_comm_cons.
      change ((x :: a) ++ b) with ((x :: a) ++ b) in *.
      rewrite ztake_app_le, zdrop_app_le by done.
      destruct (body _ s) as [[o st]|]; [|done]. simpl in *.
      destruct (block_loop bl body n _ st) as [[rest st']|] eqn:El; [|done]. simpl in E1. simplify_eq.
      rewrite (IH _ _ _ Hd El E2). simpl. by rewrite app_assoc.
Qed.

Lemma block_loop_one n b s o s1 :
  (0 < n)%nat -> zlen b = bl -> 0 < bl -> body b s = Some (o, s1) -> block_loop bl body n b s = Some (o, s1).
Proof.
  intros Hn Hb Hbl E. destruct b as [|x b]; [rewrite zlen_nil in Hb; lia|].
  destruct n as [|n]; [lia|]. cbn [block_loop]. rewrite <-Hb, ztake_all, zdrop_all, E. simpl.
  by destruct n; simpl; rewrite app_nil_r.
Qed.
End BlockLoop.

(** ** The modes keep the promises of the interface *)

Section Laws.
Context {K : Type} `{BlockCipherLaws K}.

Definition wf_cbc (bs : Z) (cbc : symmetric_CBC K) : Prop :=
  cbc_blocklen cbc = bs /\ bs = block_length K /\ zlen (cbc_IV cbc) = bs /\ bytes (cbc_IV cbc) /\
  key_ok (cbc_key cbc).

Definition wf_ctr (bs : Z) (st : symmetric_CTR K) : Prop :=
  ctr_blocklen st = bs /\ bs = block_length K /\ 0 <= ctr_padlen st <= bs /\
  zlen (ctr_ctr st) = bs /\ bytes (ctr_ctr st) /\ zlen (ctr_pad st) = bs /\ bytes (ctr_pad st) /\
  key_ok (ctr_key st).

(** Both ends hold the same state. *)
Definition modes_sync (bs : Z) (s r : cipher_state K) : Prop :=
  match s, r with
  | ModeNone _, ModeNone _ => True
  | ModeCbc a, ModeCbc b => a = b /\ wf_cbc bs a
  | ModeCtr a, ModeCtr b => a = b /\ wf_ctr bs a
  | _, _ => False
  end.

Lemma xor_block_bytes a b : bytes a -> bytes b -> bytes (zip_with Z.lxor a b).
Proof.
  intros Ha. revert b. induction Ha as [|x a Hx _ IH]; intros b Hb; [constructor|].
  destruct Hb as [|y b Hy Hb]; constructor; [by apply lxor_byte|by apply IH].
Qed.

Lemma xor_block_zlen a b : zlen a = zlen b -> zlen (zip_with Z.lxor a b) = zlen a.
Proof. unfold zlen. intros E. rewrite length_zip_with. lia. Qed.

Lemma xor_block_undo a b :
  zlen a = zlen b -> zip_with Z.lxor (zip_with Z.lxor a b) a = b.
Proof.
  unfold zlen. revert b. induction a as [|x a IH]; intros [|y b] E; simpl in *; try done; try lia.
  f_equal; [|apply IH; lia]. by rewrite (Z.lxor_comm x y), Z.lxor_assoc, Z.lxor_nilpotent, Z.lxor_0_r.
Qed.

Lemma block_length_pos : 0 < block_length K.
Proof. pose proof block_length_range. lia. Qed.

Lemma cbc_block bs cbc b :
  wf_cbc bs cbc -> zlen b = bs -> bytes b ->
  exists c cbc', cbc_encrypt b cbc = Some (c, cbc') /\ cbc_decrypt c cbc = Some (b, cbc') /\
    wf_cbc bs cbc' /\ zlen c = bs /\ bytes c.
Proof.
  intros (Hbl & Hbs & HIV & Hby & Hk) Hb Hbytes. pose proof block_length_range as Hr.
  assert (Hx : zlen (cbc_IV cbc) = zlen b) by lia.
  destruct (ecb_inverse (cbc_key cbc) (zip_with Z.lxor (cbc_IV cbc) b)) as (c & Ee & Hc & Hcb & Ed);
    [exact Hk|rewrite xor_block_zlen; lia|by apply xor_block_bytes|].
  exists c, (mkcbc (cbc_blocklen cbc) c (cbc_key cbc)).
  unfold cbc_encrypt, cbc_decrypt. rewrite Hbl, Hb, Hc, <-Hbs, Z.mod_same by lia.
  rewrite (proj2 (Z.ltb_ge bs 1)), Z.gtb_ltb, (proj2 (Z.ltb_ge MAXBLOCKSIZE bs)) by lia. cbn [orb negb Z.eqb].
  split_and!.
  - apply block_loop_one; [apply Nat2Z.inj_lt; unfold zlen in Hb; lia|done|lia|].
    unfold cbc_encrypt_block. rewrite Ee, Hbl. done.
  - apply block_loop_one; [apply Nat2Z.inj_lt; unfold zlen in Hc; lia|lia|lia|].
    unfold cbc_decrypt_block. rewrite Ed, Hbl. simpl. rewrite xor_block_undo by done. done.
  - split_and!; simpl; done || lia.
  - lia.
  - done.
Qed.

Lemma cbc_guards (x : list Z) (cbc : symmetric_CBC K) body r :
  (if (cbc_blocklen cbc <? 1) || (cbc_blocklen cbc >? MAXBLOCKSIZE) then None
   else if negb (zlen x mod cbc_blocklen cbc =? 0) then None
   else block_loop (cbc_blocklen cbc) body (length x) x cbc) = Some r ->
  1 <= cbc_blocklen cbc <= MAXBLOCKSIZE /\ zlen x mod cbc_blocklen cbc = 0 /\
  block_loop (cbc_blocklen cbc) body (length x) x cbc = Some r.
Proof.
  destruct (_ || _) eqn:E; [done|]. destruct (negb _) eqn:E2; [done|]. bool_hyps. done.
Qed.

(** A loop body that keeps the block length composes over concatenation. *)
Lemma cbc_app body a b ca cb (s s1 s2 : symmetric_CBC K) :
  (forall x st o st', body x st = Some (o, st') -> cbc_blocklen st' = cbc_blocklen st) ->
  let run x (cbc : symmetric_CBC K) :=
    (if (cbc_blocklen cbc <? 1) || (cbc_blocklen cbc >? MAXBLOCKSIZE) then None
     else if negb (zlen x mod cbc_blocklen cbc =? 0) then None
     else block_loop (cbc_blocklen cbc) body (length x) x cbc) in
  run a s = Some (ca, s1) -> run b s1 = Some (cb, s2) -> run (a ++ b) s = Some (ca ++ cb, s2).
Proof.
  intros Hbody run E1 E2. unfold run in *.
  assert (Hkeep : forall n x st o st', block_loop (cbc_blocklen s) body n x st = Some (o, st') ->
                  cbc_blocklen st' = cbc_blocklen st).
  { induction n as [|n IH]; intros x st o st' E; destruct x as [|z x]; simpl in E; simplify_eq; try done.
    destruct (body _ st) as [[o1 st1]|] eqn:Eb; [|done]. simpl in E.
    destruct (block_loop _ body n _ st1) as [[o2 st2]|] eqn:El; [|done]. simpl in E. simplify_eq.
    rewrite (IH _ _ _ _ El). by eapply Hbody. }
  apply cbc_guards in E1 as (Hbl & Ha & E1). apply cbc_guards in E2 as (_ & Hb & E2).
  pose proof (Hkeep _ _ _ _ _ E1) as Hs1. rewrite Hs1 in *.
  rewrite (proj2 (Z.ltb_ge _ 1)), Z.gtb_ltb, (proj2 (Z.ltb_ge MAXBLOCKSIZE _)) by lia. cbn [orb].
  assert (Hab : zlen (a ++ b) mod cbc_blocklen s = 0)
    by (rewrite zlen_app, Z.add_mod, Ha, Hb by lia; by rewrite Z.mod_0_l by lia).
  rewrite Hab, length_app. cbn [Z.eqb negb].
  by apply (block_loop_app _ _ _ _ _ _ _ _ _ s1); [lia| | |].
Qed.

Lemma ctr_incr_loop_ok l : bytes l -> zlen (ctr_incr_loop l) = zlen l /\ bytes (ctr_incr_loop l).
Proof.
  induction 1 as [|b l Hb Hl [IH1 IH2]]; [done|]. cbn [ctr_incr_loop].
  assert (Hb' : is_byte (Z.land (b + 1) 255)) by (rewrite land_255; apply Z.mod_pos_bound; lia).
  destruct (_ =? 0); split; try (by constructor); zlia.
Qed.

Lemma ctr_incr_ok l : bytes l -> zlen (ctr_incr l) = zlen l /\ bytes (ctr_incr l).
Proof.
  intros Hl. unfold ctr_incr, zlen. rewrite !length_rev.
  destruct (ctr_incr_loop_ok (rev l)) as [E Hb]; [by apply Forall_rev|].
  unfold zlen in E. rewrite length_rev in E. split; [done|by apply Forall_rev].
Qed.

Lemma ctr_refill_ok bs st :
  wf_ctr bs st -> exists st', ctr_refill st = Some st' /\ wf_ctr bs st' /\ ctr_padlen st' < bs.
Proof.
  intros (Hbl & Hbs & Hp & Hc & Hcb & Hpad & Hpb & Hk). unfold ctr_refill. rewrite Hbl.
  destruct (ctr_padlen st =? bs) eqn:E; bool_hyps.
  - destruct (ctr_incr_ok (ctr_ctr st) Hcb) as [Hil Hib].
    destruct (ecb_inverse (ctr_key st) (ctr_incr (ctr_ctr st))) as (c & -> & Hcl & Hcby & _); [exact Hk|lia|done|].
    pose proof block_length_pos. eexists. split; [done|]. split; [|simpl; lia].
    unfold wf_ctr. simpl. split_and!; done || lia.
  - exists st. split; [done|]. split; [done|lia].
Qed.

Lemma ctr_loop_ok bs pt st :
  wf_ctr bs st -> bytes pt ->
  exists ct st', ctr_encrypt_loop pt st = Some (ct, st') /\ ctr_encrypt_loop ct st = Some (pt, st') /\
    wf_ctr bs st' /\ zlen ct = zlen pt /\ bytes ct.
Proof.
  intros Hwf Hpt. revert st Hwf. induction Hpt as [|p pt Hp _ IH]; intros st Hwf; [by exists [], st|].
  destruct (ctr_refill_ok bs st Hwf) as (st1 & Er & Hwf1 & Hlt).
  destruct Hwf1 as (Hbl & Hbs & Hpl & Hc & Hcb & Hpad & Hpb & Hk).
  destruct (zget_is_Some (ctr_pad st1) (ctr_padlen st1)) as [x Hx]; [lia|].
  destruct (IH (mkctr (ctr_blocklen st1) (ctr_padlen st1 + 1) (ctr_ctr st1) (ctr_pad st1) (ctr_key st1)))
    as (ct & st' & E1 & E2 & Hwf' & Hl & Hb).
  { unfold wf_ctr; simpl; split_and!; done || lia. }
  exists (Z.lxor p x :: ct), st'. cbn [ctr_encrypt_loop]. rewrite Er. simpl. rewrite Hx. simpl.
  rewrite E1, E2. simpl. split_and!; try done.
  - by rewrite Z.lxor_assoc, Z.lxor_nilpotent, Z.lxor_0_r.
  - by rewrite !zlen_cons, Hl.
  - constructor; [|done]. apply lxor_byte; [done|]. eapply Forall_zget; [exact Hpb|exact Hx].
Qed.

Lemma ctr_loop_app a b ca cb (s s1 s2 : symmetric_CTR K) :
  ctr_encrypt_loop a s = Some (ca, s1) -> ctr_encrypt_loop b s1 = Some (cb, s2) ->
  ctr_encrypt_loop (a ++ b) s = Some (ca ++ cb, s2).
Proof.
  revert ca s. induction a as [|x a IH]; intros ca s E1 E2; cbn [ctr_encrypt_loop app] in *; [by simplify_eq|].
  destruct (ctr_refill s) as [st|]; [|done]. simpl in *.
  destruct (zget _ _) as [z|]; [|done]. simpl in *.
  destruct (ctr_encrypt_loop a _) as [[rest st']|] eqn:E; [|done]. simpl in E1. simplify_eq.
  rewrite (IH _ _ E E2). done.
Qed.

Lemma ctr_guard bs st pt : wf_ctr bs st -> ctr_encrypt pt st = ctr_encrypt_loop pt st.
Proof.
  intros (Hbl & Hbs & Hp & _). pose proof block_length_range. unfold ctr_encrypt. rewrite Hbl, !Z.gtb_ltb.
  rewrite (proj2 (Z.ltb_ge bs 1)), (proj2 (Z.ltb_ge MAXBLOCKSIZE bs)), (proj2 (Z.ltb_ge (ctr_padlen st) 0)),
    (proj2 (Z.ltb_ge MAXBLOCKSIZE (ctr_padlen st))) by lia. done.
Qed.

Lemma ctr_app a b ca cb (s s1 s2 : symmetric_CTR K) :
  ctr_encrypt a s = Some (ca, s1) -> ctr_encrypt b s1 = Some (cb, s2) ->
  ctr_encrypt (a ++ b) s = Some (ca ++ cb, s2).
Proof.
  unfold ctr_encrypt. destruct (_ || _); [done|]. intros E1 E2. destruct (_ || _); [done|].
  by eapply ctr_loop_app.
Qed.

#[export] Program Instance dropbear_modes_laws (bs : Z) : CipherModeLaws (cipher_state K) bs := {
  cm_sync := modes_sync bs }.
Next Obligation.
  intros bs [v|s|s] [v'|r|r] b Hs Hb Hby; try done.
  - exists b, (ModeNone v), (ModeNone v'). done.
  - destruct Hs as [<- Hwf]. destruct (cbc_block bs s b Hwf Hb Hby) as (c & s' & E1 & E2 & Hwf' & Hc & Hcb).
    exists c, (ModeCbc s'), (ModeCbc s'). cbn. by rewrite E1, E2.
  - destruct Hs as [<- Hwf]. destruct (ctr_loop_ok bs b s Hwf Hby) as (c & s' & E1 & E2 & Hwf' & Hc & Hcb).
    exists c, (ModeCtr s'), (ModeCtr s'). cbn. unfold ctr_decrypt.
    rewrite !(ctr_guard bs s) by done. rewrite E1, E2. split_and!; done || lia.
Qed.
Next Obligation.
  intros bs [v|s|s] [v'|r|r] Hs; try done; destruct Hs as [<- Hwf]; cbn.
  - destruct Hwf as (Hbl & Hbs & _). pose proof block_length_range. unfold cbc_encrypt. rewrite Hbl, Z.gtb_ltb.
    rewrite (proj2 (Z.ltb_ge bs 1)), (proj2 (Z.ltb_ge MAXBLOCKSIZE bs)) by lia. cbn [orb].
    by change (zlen (@nil Z)) with 0; rewrite Z.mod_0_l by lia.
  - by rewrite (ctr_guard bs).
Qed.
Next Obligation.
  intros bs [v|s|s] [v'|r|r] Hs; try done; destruct Hs as [<- Hwf]; cbn.
  - destruct Hwf as (Hbl & Hbs & _). pose proof block_length_range. unfold cbc_decrypt. rewrite Hbl, Z.gtb_ltb.
    rewrite (proj2 (Z.ltb_ge bs 1)), (proj2 (Z.ltb_ge MAXBLOCKSIZE bs)) by lia. cbn [orb].
    by change (zlen (@nil Z)) with 0; rewrite Z.mod_0_l by lia.
  - unfold ctr_decrypt. by rewrite (ctr_guard bs).
Qed.
Next Obligation.
  intros bs a b ca cb [v|s|s] s1 s2 _ _ E1 E2; cbn in *; [by simplify_eq| |].
  - destruct (cbc_encrypt a s) as [[c st]|] eqn:Ea; [|done]. simpl in E1. simplify_eq. cbn in E2.
    destruct (cbc_encrypt b st) as [[c' st']|] eqn:Eb; [|done]. simpl in E2. simplify_eq.
    assert (E : cbc_encrypt (a ++ b) s = Some (ca ++ cb, st')).
    { apply (cbc_app cbc_encrypt_block a b ca cb s st st'); [|exact Ea|exact Eb].
      unfold cbc_encrypt_block. intros x st0 o st1 E. destruct (ecb_encrypt _ _); [|done]. by simplify_eq/=. }
    by rewrite E.
  - destruct (ctr_encrypt a s) as [[c st]|] eqn:Ea; [|done]. simpl in E1. simplify_eq. cbn in E2.
    destruct (ctr_encrypt b st) as [[c' st']|] eqn:Eb; [|done]. simpl in E2. simplify_eq.
    by rewrite (ctr_app _ _ _ _ _ _ _ Ea Eb).
Qed.
Next Obligation.
  intros bs a b ca cb [v|s|s] s1 s2 _ _ E1 E2; cbn in *; [by simplify_eq| |].
  - destruct (cbc_decrypt a s) as [[c st]|] eqn:Ea; [|done]. simpl in E1. simplify_eq. cbn in E2.
    destruct (cbc_decrypt b st) as [[c' st']|] eqn:Eb; [|done]. simpl in E2. simplify_eq.
    assert (E : cbc_decrypt (a ++ b) s = Some (ca ++ cb, st')).
    { apply (cbc_app cbc_decrypt_block a b ca cb s st st'); [|exact Ea|exact Eb].
      unfold cbc_decrypt_block. intros x st0 o st1 E. destruct (ecb_decrypt _ _); [|done]. by simplify_eq/=. }
    by rewrite E.
  - unfold ctr_decrypt in *.
    destruct (ctr_encrypt a s) as [[c st]|] eqn:Ea; [|done]. simpl in E1. simplify_eq. cbn in E2.
    unfold ctr_decrypt in E2.
    destruct (ctr_encrypt b st) as [[c' st']|] eqn:Eb; [|done]. simpl in E2. simplify_eq.
    by rewrite (ctr_app _ _ _ _ _ _ _ Ea Eb).
Qed.

(** Both ends start in the same state. *)
Lemma mode_start_sync m IV key st :
  bytes IV -> bytes key -> block_length K <= zlen IV -> mode_start m IV key = Some st ->
  modes_sync (block_length K) st st.
Proof.
  intros HIV Hkey Hl E. pose proof block_length_range.
  assert (Hz : zlen (ztake (block_length K) IV) = block_length K) by (apply zlen_ztake; lia).
  assert (Hb : bytes (ztake (block_length K) IV)) by (by apply Forall_ztake).
  destruct m; simpl in E; [by simplify_eq| |].
  - unfold cbc_start in E. destruct (setup key) as [k|] eqn:Ek; [|done]. simplify_eq/=. split; [done|]. unfold wf_cbc; simpl. split_and!; try done. exact (setup_key_ok key k Hkey Ek).
  - unfold dropbear_big_endian_ctr_start in E. destruct (setup key) as [k|] eqn:Ek; [|done]. simpl in E. pose proof (setup_key_ok key k Hkey Ek) as Hk.
    destruct (ecb_inverse k (ztake (block_length K) IV) Hk Hz Hb) as (pad & Ep & Hp & Hpb & _).
    rewrite Ep in E. simplify_eq/=. split; [done|]. unfold wf_ctr; simpl. split_and!; done || lia.
Qed.
End Laws.

(** ** Streams over an arbitrary mode *)

Section Stream.
Context {St : Type} (bs : Z) `{CipherModeLaws St bs} (Hbs : 0 < bs).

Lemma cm_stream pt s r :
  cm_sync s r -> zlen pt mod bs = 0 -> bytes pt ->
  exists ct s' r', cm_encrypt pt s = Some (ct, s') /\ cm_decrypt ct r = Some (pt, r') /\
    cm_sync s' r' /\ zlen ct = zlen pt /\ bytes ct.
Proof.
  intros Hs Hm Hb. remember (length pt) as n eqn:Hn. assert (Hle : (length pt <= n)%nat) by lia. clear Hn.
  revert pt s r Hs Hm Hb Hle. induction n as [|n IH]; intros pt s r Hs Hm Hb Hle.
  - destruct pt; [|simpl in Hle; lia]. exists [], s, r.
    by rewrite (cm_encrypt_nil s r), (cm_decrypt_nil s r).
  - destruct pt as [|x pt'].
    { exists [], s, r. by rewrite (cm_encrypt_nil s r), (cm_decrypt_nil s r). }
    remember (x :: pt') as pt eqn:Ept.
    assert (Hge : bs <= zlen pt) by (rewrite Ept in *; by apply multiple_cons_le).
    assert (Hz : zlen (ztake bs pt) = bs) by (apply zlen_ztake; lia).
    destruct (cm_block s r (ztake bs pt) Hs Hz) as (c & s1 & r1 & E1 & D1 & Hs1 & Hc & Hcb);
      [by apply Forall_ztake|].
    destruct (IH (zdrop bs pt) s1 r1 Hs1) as (ct & s2 & r2 & E2 & D2 & Hs2 & Hct & Hctb).
    { by apply zdrop_multiple. }
    { by apply Forall_zdrop. }
    { unfold zdrop. rewrite length_drop. lia. }
    assert (Hd : zlen (zdrop bs pt) = zlen pt - bs) by (apply zlen_zdrop; lia).
    assert (Hdm : zlen (zdrop bs pt) mod bs = 0) by (by apply zdrop_multiple).
    assert (Hbb : bs mod bs = 0) by (apply Z.mod_same; lia).
    exists (c ++ ct), s2, r2. rewrite <-(ztake_zdrop bs pt).
    rewrite (cm_encrypt_app _ _ c ct s s1 s2), (cm_decrypt_app c ct (ztake bs pt) (zdrop bs pt) r r1 r2)
      by (done || congruence).
    rewrite !zlen_app. split_and!; try done; [lia|by apply Forall_app].
Qed.

(** Any cut of the ciphertext at a block boundary is a cut of the plaintext. *)
Lemma cm_split pt s r ct s' c1 c2 :
  cm_sync s r -> zlen pt mod bs = 0 -> bytes pt -> cm_encrypt pt s = Some (ct, s') ->
  ct = c1 ++ c2 -> zlen c1 mod bs = 0 ->
  exists s1 r1, cm_decrypt c1 r = Some (ztake (zlen c1) pt, r1) /\ cm_sync s1 r1 /\
    cm_encrypt (zdrop (zlen c1) pt) s1 = Some (c2, s') /\ zlen (zdrop (zlen c1) pt) mod bs = 0.
Proof.
  intros Hs Hm Hb E -> H1. set (k := zlen c1) in *. 
  destruct (cm_stream pt s r Hs Hm Hb) as (ct & s0 & r0 & E0 & _ & _ & Hl & _).
  rewrite E in E0. injection E0 as <- <-. rewrite zlen_app in Hl. fold k in Hl.
  pose proof (zlen_nonneg c2). assert (Hk : 0 <= k) by apply zlen_nonneg.
  assert (Ht : zlen (ztake k pt) = k) by (apply zlen_ztake; lia).
  assert (Hd : zlen (zdrop k pt) = zlen pt - k) by (apply zlen_zdrop; lia).
  assert (Hdm : zlen (zdrop k pt) mod bs = 0).
  { rewrite Hd. apply Z.mod_divide in Hm as [a Ha]; [|lia]. apply Z.mod_divide in H1 as [b Hb1]; [|lia].
    replace (zlen pt - k) with ((a - b) * bs) by lia. apply Z.mod_mul. lia. }
  destruct (cm_stream (ztake k pt) s r Hs) as (d1 & s1 & r1 & E1 & D1 & Hs1 & Hd1 & _);
    [by rewrite Ht|by apply Forall_ztake|].
  destruct (cm_stream (zdrop k pt) s1 r1 Hs1 Hdm) as (d2 & s2 & r2 & E2 & _ & _ & Hd2 & _);
    [by apply Forall_zdrop|].
  pose proof (cm_encrypt_app (ztake k pt) (zdrop k pt) d1 d2 s s1 s2) as Ea.
  rewrite ztake_zdrop, E in Ea. specialize (Ea ltac:(by rewrite Ht) Hdm E1 E2). injection Ea as Ea <-.
  apply app_inj_1 in Ea as [<- <-]; [|unfold zlen in *; lia].
  by exists s1, r1.
Qed.

(** Successive calls on the parts of a message. *)
Fixpoint run_chunks (f : list Z -> St -> option (list Z * St)) (l : list (list Z)) (st : St)
    : option (list Z * St) :=
  match l with
  | [] => Some ([], st)
  | x :: l => '(o, st) ← f x st; '(os, st) ← run_chunks f l st; Some (o ++ os, st)
  end.

Lemma run_encrypt l s r :
  cm_sync s r -> Forall (fun x => zlen x mod bs = 0 /\ bytes x) l ->
  exists ct s', run_chunks cm_encrypt l s = Some (ct, s') /\
    cm_encrypt (concat l) s = Some (ct, s') /\ zlen (concat l) mod bs = 0 /\ bytes (concat l) /\
    zlen ct = zlen (concat l).
Proof.
  intros Hs Hl. revert s r Hs. induction Hl as [|x l [Hx Hb] _ IH]; intros s r Hs.
  - exists [], s. cbn. rewrite (cm_encrypt_nil s r), Z.mod_0_l by (done || lia). done.
  - destruct (cm_stream x s r Hs Hx Hb) as (c & s1 & r1 & E1 & _ & Hs1 & Hc & _).
    destruct (IH s1 r1 Hs1) as (ct & s2 & E2 & E3 & Hm & Hbl & Hct).
    exists (c ++ ct), s2. cbn [run_chunks concat]. rewrite E1. simpl. rewrite E2. simpl.
    rewrite (cm_encrypt_app x (concat l) c ct s s1 s2), !zlen_app by done. split_and!; try done.
    + rewrite Z.add_mod, Hx, Hm by lia. by rewrite Z.mod_0_l by lia.
    + by apply Forall_app.
    + lia.
Qed.

Lemma run_decrypt l pt s r s' :
  cm_sync s r -> zlen pt mod bs = 0 -> bytes pt -> cm_encrypt pt s = Some (concat l, s') ->
  Forall (fun x => zlen x mod bs = 0) l ->
  exists r', run_chunks cm_decrypt l r = Some (pt, r') /\ cm_sync s' r'.
Proof.
  intros Hs Hm Hb E Hl. revert pt s r Hs Hm Hb E. induction Hl as [|c l Hc _ IH]; intros pt s r Hs Hm Hb E.
  - destruct (cm_stream pt s r Hs Hm Hb) as (ct & s0 & r0 & E0 & D0 & Hs0 & Hl & _).
    rewrite E in E0. injection E0 as <- <-. cbn [concat] in *.
    rewrite (cm_decrypt_nil s r Hs) in D0. injection D0 as <- <-. by exists r.
  - destruct (cm_split pt s r _ s' c (concat l) Hs Hm Hb E eq_refl Hc) as (s1 & r1 & D1 & Hs1 & E1 & Hd).
    destruct (IH _ s1 r1 Hs1 Hd (Forall_zdrop _ _ _ Hb) E1) as (r' & R & Hs').
    exists r'. split; [|done]. cbn [run_chunks]. rewrite D1. simpl. rewrite R. simpl. by rewrite ztake_zdrop.
Qed.
End Stream.

(** A cipher the interface can be instantiated with: every byte is combined
    with the first key byte. *)
#[export] Instance xor_cipher : BlockCipher Z := {
  block_length := 8;
  setup key := k ← zget key 0; Some (u8 k);
  ecb_encrypt k b := Some (map (Z.lxor (u8 k)) b);
  ecb_decrypt k b := Some (map (Z.lxor (u8 k)) b) }.

#[export] Program Instance xor_cipher_laws : BlockCipherLaws Z := { key_ok k := True }.
Next Obligation. simpl. by vm_compute. Qed.
Next Obligation. done. Qed.
Next Obligation.
  intros k b _ Hl Hb. exists (map (Z.lxor (u8 k)) b). split; [done|].
  assert (Hz : forall l, zlen (map (Z.lxor (u8 k)) l) = zlen l) by (intros; unfold zlen; by rewrite length_map).
  split_and!; [by rewrite Hz| |].
  - apply Forall_map. eapply Forall_impl; [exact Hb|]. intros x Hx. apply lxor_byte; [apply u8_range|done].
  - simpl. f_equal. rewrite map_map. rewrite <-(map_id b) at 2. apply map_ext. intros x.
    by rewrite <-Z.lxor_assoc, Z.lxor_nilpotent, Z.lxor_0_l.
Qed.

(** ** Properties *)


