(* ===== verification/Hmac.v ===== *)
(** The message authentication code of packets: libtomcrypt's hash_memory and
    hmac functions over an interface for the hash, and their equality with the
    definition of RFC 2104.  The operations return [None] where the C functions
    return an error code. *)

From S2P Require Import Prelude Dbutil.

Local Open Scope Z_scope.

(** The table [hash_descriptor], over the union [hash_state]; Hashes.v has the
    instance with SHA-1 and MD5. *)
Class HashDescriptors (H : Type) := {
  hash_is_valid : Z -> bool;
  hash_blocksize : Z -> Z;
  hash_size : Z -> Z;
  hash_init : Z -> option H;
  hash_process : Z -> H -> list Z -> option H;
  hash_done : Z -> H -> option (list Z)
}.

(** What a hash promises: [hash_of] is its one-shot function, and the state
    holds all bytes processed since init. *)
Class HashLaws (H : Type) `{HashDescriptors H} := {
  hash_of : Z -> list Z -> list Z;
  md_repr : Z -> H -> list Z -> Prop;
  hash_size_range h : hash_is_valid h = true -> 0 < hash_size h <= hash_blocksize h;
  hash_init_ok h : hash_is_valid h = true -> exists md, hash_init h = Some md /\ md_repr h md [];
  hash_process_ok h md l x : hash_is_valid h = true -> md_repr h md l -> bytes x ->
    exists md', hash_process h md x = Some md' /\ md_repr h md' (l ++ x);
  hash_done_ok h md l : hash_is_valid h = true -> md_repr h md l -> hash_done h md = Some (hash_of h l);
  hash_of_ok h l : hash_is_valid h = true -> zlen (hash_of h l) = hash_size h /\ bytes (hash_of h l)
}.

Section Hmac.
Context {H : Type} `{HashDescriptors H}.

(** [Hmac_state]. *)
Record hmac_state := mkhmac { hs_md : H; hs_hash : Z; hs_key : list Z }.

Definition hash_memory (hash : Z) (input : list Z) (outlen : Z) : option (list Z) :=
  if negb (hash_is_valid hash) then None
  else if outlen <? hash_size hash then None
  else
    md ← hash_init hash;
    md ← hash_process hash md input;
    hash_done hash md.

(** The key filled up with zeros to the block size. *)
Definition pad_key (hash : Z) (key : list Z) : list Z :=
  key ++ replicate (Z.to_nat (hash_blocksize hash - zlen key)) 0.

Definition hmac_init (hash : Z) (key : list Z) (keylen : Z) : option hmac_state :=
  if negb (hash_is_valid hash) then None
  else if keylen =? 0 then None
  else
    key ← (if keylen >? hash_blocksize hash
           then k ← hash_memory hash (ztake keylen key) (hash_blocksize hash); Some (pad_key hash k)
           else Some (pad_key hash (ztake keylen key)));
    let buf := map (fun b => Z.lxor b 0x36) key in
    md ← hash_init hash;
    md ← hash_process hash md buf;
    Some (mkhmac md hash key).

Definition hmac_process (hmac : hmac_state) (input : list Z) : option hmac_state :=
  if negb (hash_is_valid (hs_hash hmac)) then None
  else
    md ← hash_process (hs_hash hmac) (hs_md hmac) input;
    Some (mkhmac md (hs_hash hmac) (hs_key hmac)).

(** The tag, at most [outlen] bytes of it. *)
Definition hmac_done (hmac : hmac_state) (outlen : Z) : option (list Z) :=
  let hash := hs_hash hmac in
  if negb (hash_is_valid hash) then None
  else
    isha ← hash_done hash (hs_md hmac);
    let buf := map (fun b => Z.lxor b 0x5c) (hs_key hmac) in
    md ← hash_init hash;
    md ← hash_process hash md buf;
    md ← hash_process hash md isha;
    buf ← hash_done hash md;
    Some (ztake (Z.min (hash_size hash) outlen) buf).
End Hmac.
Arguments hmac_state : clear implicits.

(** ** RFC 2104 *)

Section Spec.
Context {H : Type} `{HashLaws H}.

Definition hmac_key (h : Z) (key : list Z) : list Z :=
  pad_key h (if zlen key >? hash_blocksize h then hash_of h key else key).

(** H(K XOR opad, H(K XOR ipad, text)). *)
Definition hmac (h : Z) (key text : list Z) : list Z :=
  let k := hmac_key h key in
  hash_of h (map (fun b => Z.lxor b 0x5c) k ++ hash_of h (map (fun b => Z.lxor b 0x36) k ++ text)).

Lemma xor_pad_bytes l x : is_byte x -> bytes l -> bytes (map (fun b => Z.lxor b x) l).
Proof. intros Hx Hl. apply Forall_map. eapply Forall_impl; [exact Hl|]. intros b Hb. by apply lxor_byte. Qed.

Lemma pad_key_bytes h l : bytes l -> bytes (pad_key h l).
Proof. intros Hl. apply Forall_app. split; [done|]. by apply Forall_replicate. Qed.

Lemma hash_memory_ok h l n :
  hash_is_valid h = true -> bytes l -> hash_size h <= n -> hash_memory h l n = Some (hash_of h l).
Proof.
  intros Hv Hl Hn. unfold hash_memory. rewrite Hv, (proj2 (Z.ltb_ge n _)) by done. cbn [negb].
  destruct (hash_init_ok h Hv) as (md & -> & Hmd).
  destruct (hash_process_ok h md [] l Hv Hmd Hl) as (md' & E & Hmd'). simpl. rewrite E. simpl.
  by rewrite (hash_done_ok h md' ([] ++ l)).
Qed.

(** An hmac state that has been given [text]. *)
Definition hmac_repr (s : hmac_state H) (h : Z) (key text : list Z) : Prop :=
  hash_is_valid h = true /\ hs_hash s = h /\ hs_key s = hmac_key h key /\ bytes (hs_key s) /\
  md_repr h (hs_md s) (map (fun b => Z.lxor b 0x36) (hmac_key h key) ++ text).

Lemma hmac_init_ok h key keylen :
  hash_is_valid h = true -> bytes key -> 0 < keylen <= zlen key ->
  exists s, hmac_init h key keylen = Some s /\ hmac_repr s h (ztake keylen key) [].
Proof.
  intros Hv Hk Hl. pose proof (hash_size_range h Hv) as Hr.
  assert (Hz : zlen (ztake keylen key) = keylen) by (apply zlen_ztake; lia).
  assert (Hkb : bytes (ztake keylen key)) by (by apply Forall_ztake).
  assert (Hpk : bytes (hmac_key h (ztake keylen key))).
  { unfold hmac_key. apply pad_key_bytes. destruct (_ >? _); [by apply hash_of_ok|done]. }
  unfold hmac_init. rewrite Hv, (proj2 (Z.eqb_neq keylen 0)) by lia. cbn [negb].
  assert (Ek : (if keylen >? hash_blocksize h
           then k ← hash_memory h (ztake keylen key) (hash_blocksize h); Some (pad_key h k)
           else Some (pad_key h (ztake keylen key))) = Some (hmac_key h (ztake keylen key))).
  { unfold hmac_key. rewrite Hz. destruct (keylen >? hash_blocksize h); [|done].
    by rewrite hash_memory_ok by (done || lia). }
  rewrite Ek. cbn. destruct (hash_init_ok h Hv) as (md & -> & Hmd). cbn.
  destruct (hash_process_ok h md [] (map (fun b => Z.lxor b 0x36) (hmac_key h (ztake keylen key))) Hv Hmd)
    as (md' & E & Hmd'); [by apply xor_pad_bytes|].
  rewrite E. cbn. eexists. split; [done|]. unfold hmac_repr; cbn. by rewrite app_nil_r.
Qed.

Lemma hmac_process_ok s h key text x :
  hmac_repr s h key text -> bytes x ->
  exists s', hmac_process s x = Some s' /\ hmac_repr s' h key (text ++ x).
Proof.
  intros (Hv & Hh & Hk & Hkb & Hmd) Hx. unfold hmac_process. rewrite Hh, Hv. cbn [negb].
  destruct (hash_process_ok h _ _ x Hv Hmd Hx) as (md & -> & Hmd'). cbn. eexists. split; [done|].
  unfold hmac_repr; cbn. by rewrite app_assoc.
Qed.

Lemma hmac_done_ok s h key text outlen :
  hmac_repr s h key text -> 0 <= outlen -> hmac_done s outlen = Some (ztake outlen (hmac h key text)).
Proof.
  intros (Hv & Hh & Hk & Hkb & Hmd) Ho. unfold hmac_done. rewrite Hh, Hv. cbn [negb].
  rewrite (hash_done_ok h _ _ Hv Hmd). cbn. destruct (hash_init_ok h Hv) as (md & -> & Hmd0). cbn.
  destruct (hash_process_ok h md [] (map (fun b => Z.lxor b 0x5c) (hs_key s)) Hv Hmd0)
    as (md1 & -> & Hmd1); [by apply xor_pad_bytes|]. cbn.
  destruct (hash_of_ok h (map (fun b => Z.lxor b 0x36) (hmac_key h key) ++ text) Hv) as [_ Hb].
  destruct (hash_process_ok h md1 _ _ Hv Hmd1 Hb) as (md2 & -> & Hmd2). cbn.
  rewrite (hash_done_ok h md2 _ Hv Hmd2). cbn. rewrite Hk. cbn [app].
  f_equal. change (hash_of h _) with (hmac h key text).
  destruct (hash_of_ok h (map (fun b => Z.lxor b 0x5c) (hmac_key h key) ++
    hash_of h (map (fun b => Z.lxor b 0x36) (hmac_key h key) ++ text)) Hv) as [Hl _].
  change (zlen (hmac h key text) = hash_size h) in Hl.
  destruct (Z.min_spec (hash_size h) outlen) as [[Hlt ->]|[Hge ->]]; [|done].
  rewrite <-Hl at 1. rewrite ztake_all. unfold ztake. symmetry. apply take_ge. unfold zlen in Hl. lia.
Qed.

Lemma hmac_ok h key text : hash_is_valid h = true -> zlen (hmac h key text) = hash_size h /\ bytes (hmac h key text).
Proof. intros Hv. by apply hash_of_ok. Qed.
End Spec.

(** Successive hmac_process calls. *)
Fixpoint hmac_feed {H} `{HashDescriptors H} (s : hmac_state H) (l : list (list Z)) : option (hmac_state H) :=
  match l with
  | [] => Some s
  | x :: l => s ← hmac_process s x; hmac_feed s l
  end.

Lemma hmac_feed_ok {H} `{HashLaws H} l s h key text :
  hmac_repr s h key text -> Forall bytes l ->
  exists s', hmac_feed s l = Some s' /\ hmac_repr s' h key (text ++ concat l).
Proof.
  intros Hs Hl. revert s text Hs. induction Hl as [|x l Hx _ IH]; intros s text Hs.
  - exists s. cbn. by rewrite app_nil_r.
  - destruct (hmac_process_ok s h key text x Hs Hx) as (s1 & E & Hs1).
    destruct (IH s1 _ Hs1) as (s2 & E2 & Hs2). exists s2. cbn. rewrite E. cbn. by rewrite app_assoc.
Qed.

(** A hash the interface can be instantiated with: the sum of all bytes, as
    one 32-bit word; its state holds the bytes. *)
#[export] Instance sum_hash : HashDescriptors (list Z) := {
  hash_is_valid h := h =? 0;
  hash_blocksize _ := 8;
  hash_size _ := 4;
  hash_init _ := Some [];
  hash_process _ md x := Some (md ++ x);
  hash_done _ md := Some (store32h (u32 (foldr Z.add 0 md))) }.

#[export] Program Instance sum_hash_laws : HashLaws (list Z) := {
  hash_of _ l := store32h (u32 (foldr Z.add 0 l));
  md_repr _ md l := md = l }.
Next Obligation. done. Qed.
Next Obligation. intros. simpl. eauto. Qed.
Next Obligation. intros h md l x _ -> _. simpl. eauto. Qed.
Next Obligation. intros h md l _ ->. done. Qed.
Next Obligation. intros h l _. split; [apply zlen_store32h|apply store32h_bytes]. Qed.

(** ** Properties *)


