(* ===== verification/MdHash.v ===== *)
(** The part of libtomcrypt's hashes that sha1.c and md5.c share: the state,
    the macro HASH_PROCESS of tomcrypt_hash.h that defines their process
    functions, and their done functions, over a compression function for blocks
    of 64 bytes.  The reference is the iteration of the compression function
    over the padded message. *)

From S2P Require Import Prelude.

Local Open Scope Z_scope.

(** [ulong64] *)
Definition u64 (x : Z) : Z := x mod 2 ^ 64.
Arguments u64 : simpl never.

(** [ROL(x, y)], rotation "the hard way". *)
Definition ROL (x y : Z) : Z :=
  Z.land (Z.lor (Z.shiftl x (Z.land y 31)) (Z.shiftr (Z.land x 0xFFFFFFFF) (32 - Z.land y 31))) 0xFFFFFFFF.

(** FIPS 180's rotation of a 32-bit word. *)
Definition ROTL (x n : Z) : Z := Z.lor (u32 (Z.shiftl x n)) (Z.shiftr x (32 - n)).

Lemma u32_land x : u32 x = Z.land x 0xFFFFFFFF.
Proof. unfold u32. symmetry. exact (Z.land_ones x 32 ltac:(lia)). Qed.

Lemma u32_lxor x y : u32 (Z.lxor x y) = Z.lxor (u32 x) (u32 y).
Proof. rewrite !u32_land. apply Z.bits_inj'. intros n _. rewrite !Z.land_spec, !Z.lxor_spec, !Z.land_spec. by repeat destruct (Z.testbit _ _). Qed.

Lemma lxor_u32 x y : is_u32 x -> is_u32 y -> is_u32 (Z.lxor x y).
Proof. intros Hx Hy. rewrite <-(u32_small x Hx), <-(u32_small y Hy), <-u32_lxor. apply u32_range. Qed.

Lemma ROL_u32 x n : is_u32 (ROL x n).
Proof. unfold ROL. rewrite <-u32_land. apply u32_range. Qed.

Lemma ROL_ROTL x n : is_u32 x -> 0 < n < 32 -> ROL x n = ROTL x n.
Proof.
  intros Hx Hn. unfold ROL, ROTL. assert (En : Z.land n 31 = n).
  { change 31 with (Z.ones 5). rewrite Z.land_ones by lia. apply Z.mod_small. lia. }
  rewrite En, <-!u32_land, (u32_small x Hx), !u32_land, Z.land_lor_distr_l. f_equal.
  rewrite <-u32_land. apply u32_small. unfold is_u32 in *. rewrite Z.shiftr_div_pow2 by lia.
  pose proof (Z.pow_pos_nonneg 2 (32 - n) ltac:(lia) ltac:(lia)). split; [apply Z.div_pos; lia|].
  apply Z.div_lt_upper_bound; nia.
Qed.

Lemma load32h_u32 b0 b1 b2 b3 : is_u32 (load32h b0 b1 b2 b3).
Proof.
  pose proof (load32h_range (Z.land b0 255) (Z.land b1 255) (Z.land b2 255) (Z.land b3 255)) as H.
  unfold load32h in *. rewrite <-!Z.land_assoc, Z.land_diag in H. apply H; rewrite land_255; unfold is_byte; apply Z.mod_pos_bound; lia.
Qed.

Lemma znth_u32 l i : Forall is_u32 l -> is_u32 (znth l i).
Proof.
  intros Hl. unfold znth. destruct (zget l i) as [x|] eqn:E; [|by split].
  unfold zget in E. case_match; [|done]. by eapply Forall_lookup_1.
Qed.

(** STORE64H and STORE64L. *)
Definition STORE64H (x : Z) : list Z :=
  map (fun i => Z.land (Z.shiftr x (8 * i)) 255) [7; 6; 5; 4; 3; 2; 1; 0].
Definition STORE64L (x : Z) : list Z :=
  map (fun i => Z.land (Z.shiftr x (8 * i)) 255) [0; 1; 2; 3; 4; 5; 6; 7].

(** [struct sha1_state] and [struct md5_state]. *)
Record md_state := mkmd { md_length : Z; md_words : list Z; md_curlen : Z; md_buf : list Z }.

Section Engine.
(** The compression function, and how the length and the digest are stored. *)
Context (compress : list Z -> list Z -> list Z) (store64 : Z -> list Z) (digest : list Z -> list Z) (init : list Z).

Definition md_init (buf : list Z) : md_state := mkmd 0 init 0 buf.

(** HASH_PROCESS; each pass of the loop consumes input. *)
Fixpoint md_process_loop (n : nat) (md : md_state) (inp : list Z) : option md_state :=
  if zlen inp >? 0 then
    match n with
    | O => None
    | S n =>
        if (md_curlen md =? 0) && (zlen inp >=? 64) then
          let words := compress (md_words md) (ztake 64 inp) in
          md_process_loop n (mkmd (u64 (md_length md + 64 * 8)) words (md_curlen md) (md_buf md)) (zdrop 64 inp)
        else
          let k := Z.min (zlen inp) (64 - md_curlen md) in
          let buf := splice (md_curlen md) (ztake k inp) (md_buf md) in
          let curlen := md_curlen md + k in
          let md :=
            if curlen =? 64 then mkmd (u64 (md_length md + 8 * 64)) (compress (md_words md) buf) 0 buf
            else mkmd (md_length md) (md_words md) curlen buf in
          md_process_loop n md (zdrop k inp)
    end
  else Some md.

Definition md_process (md : md_state) (inp : list Z) : option md_state :=
  if md_curlen md >? 64 then None else md_process_loop (length inp) md inp.

(** [while (curlen < limit) buf[curlen++] = 0;] *)
Definition pad_zeros (limit curlen : Z) (buf : list Z) : list Z :=
  splice curlen (replicate (Z.to_nat (limit - curlen)) 0) buf.

Definition md_done (md : md_state) : option (list Z) :=
  if md_curlen md >=? 64 then None
  else
    let length := u64 (md_length md + md_curlen md * 8) in
    let buf := zset (md_buf md) (md_curlen md) 0x80 in
    let curlen := md_curlen md + 1 in
    let '(words, buf, curlen) :=
      if curlen >? 56 then
        let buf := pad_zeros 64 curlen buf in (compress (md_words md) buf, buf, 0)
      else (md_words md, buf, curlen) in
    let buf := pad_zeros 56 curlen buf in
    let buf := splice 56 (store64 length) buf in
    Some (digest (compress words buf)).

(** ** The reference *)

(** [n] blocks of the message. *)
Fixpoint absorb (n : nat) (words l : list Z) : list Z :=
  match n with
  | O => words
  | S n => absorb n (compress words (ztake 64 l)) (zdrop 64 l)
  end.

(** The message with a one bit, zeros up to 8 bytes below a block boundary,
    and its length in bits. *)
Definition padded (l : list Z) : list Z :=
  l ++ [0x80] ++ replicate (Z.to_nat ((55 - zlen l) mod 64)) 0 ++ store64 (u64 (8 * zlen l)).

Definition md_hash (l : list Z) : list Z :=
  digest (absorb (Z.to_nat (zlen (padded l) / 64)) init (padded l)).

(** A state that has processed [l]: [full] is its full blocks, [rest] is in the
    buffer. *)
Definition md_of (md : md_state) (l : list Z) : Prop :=
  exists n full rest tail, l = full ++ rest /\ zlen full = 64 * Z.of_nat n /\ zlen rest = md_curlen md /\ md_curlen md < 64 /\
    md_buf md = rest ++ tail /\ zlen (rest ++ tail) = 64 /\
    md_words md = absorb n init full /\ md_length md = u64 (8 * zlen full).

Context (store64_len : forall x, zlen (store64 x) = 8).

Lemma absorb_app n m words a b : zlen a = 64 * Z.of_nat n -> absorb (n + m) words (a ++ b) = absorb m (absorb n words a) b.
Proof.
  revert words a. induction n as [|n IH]; intros words a Ha.
  - change (64 * Z.of_nat 0) with 0 in Ha. apply zlen_0_inv in Ha. by subst.
  - cbn [Nat.add absorb]. rewrite ztake_app_le, zdrop_app_le by lia. apply IH. rewrite zlen_zdrop; lia.
Qed.

Lemma absorb_one words b : zlen b = 64 -> absorb 1 words b = compress words b.
Proof. intros Hb. cbn. by rewrite <-Hb, ztake_all. Qed.

Lemma u64_add a b : u64 (u64 a + b) = u64 (a + b).
Proof. unfold u64. by rewrite Zplus_mod_idemp_l. Qed.

(** One more full block. *)
Lemma absorb_block n full b : zlen full = 64 * Z.of_nat n -> zlen b = 64 ->
  absorb (n + 1) init (full ++ b) = compress (absorb n init full) b /\
  zlen (full ++ b) = 64 * Z.of_nat (n + 1) /\ u64 (u64 (8 * zlen full) + 512) = u64 (8 * zlen (full ++ b)).
Proof.
  intros Hf Hb. rewrite absorb_app, absorb_one by done. split; [done|]. rewrite zlen_app, u64_add, Hb. split; [lia|f_equal; lia].
Qed.

Lemma md_process_loop_ok n md inp l :
  md_of md l -> (length inp <= n)%nat -> exists md', md_process_loop n md inp = Some md' /\ md_of md' (l ++ inp).
Proof.
  revert md inp l. induction n as [|n IH]; intros md inp l Hmd Hn; cbn [md_process_loop].
  { destruct inp; [|cbn in Hn; lia]. exists md. by rewrite app_nil_r. }
  rewrite Z.gtb_ltb. destruct (Z.ltb_spec 0 (zlen inp)) as [Hpos|Hz].
  2: { assert (inp = []) as -> by (apply zlen_0_inv; pose proof (zlen_nonneg inp); lia). exists md. by rewrite app_nil_r. }
  destruct Hmd as (m & full & rest & tail & -> & Hfull & Hrest & Hcur & Hbuf & Hlen & Hw & Hl).
  assert (Hc0 : 0 <= md_curlen md) by (rewrite <-Hrest; apply zlen_nonneg). rewrite zlen_app in Hlen.
  assert (Hnext : forall k md', 1 <= k <= zlen inp -> md_of md' ((full ++ rest) ++ ztake k inp) ->
    exists md'', md_process_loop n md' (zdrop k inp) = Some md'' /\ md_of md'' ((full ++ rest) ++ inp)).
  { intros k md' Hk Hmd'. destruct (IH md' (zdrop k inp) _ Hmd') as (md'' & E & H).
    { unfold zdrop. rewrite length_drop. unfold zlen in Hk. lia. }
    exists md''. split; [done|]. by rewrite <-app_assoc, ztake_zdrop in H. }
  match goal with |- context [if ?b then md_process_loop n _ _ else _] => destruct b eqn:Eb end.
  - apply andb_prop in Eb as [E0 Eb]. apply Z.eqb_eq in E0. apply Z.geb_le in Eb. apply Hnext; [lia|].
    assert (Ht : zlen (ztake 64 inp) = 64) by (apply zlen_ztake; lia).
    assert (rest = []) as -> by (apply zlen_0_inv; lia).
    destruct (absorb_block m full (ztake 64 inp) Hfull Ht) as (Ha & Hz & Hu).
    exists (m + 1)%nat, (full ++ ztake 64 inp), [], tail. rewrite !app_nil_r. cbn.
    rewrite Ha, Hw, Hl. split_and!; try done.
  - clear Eb. cbv zeta. set (k := Z.min (zlen inp) (64 - md_curlen md)). assert (Hk : 1 <= k <= zlen inp /\ k <= 64 - md_curlen md) by lia.
    apply Hnext; [lia|]. set (t := ztake k inp). assert (Ht : zlen t = k) by (apply zlen_ztake; lia).
    assert (Htt : zlen (ztake k tail) = k) by (apply zlen_ztake; lia).
    assert (Es : splice (md_curlen md) t (md_buf md) = (rest ++ t) ++ zdrop k tail).
    { rewrite Hbuf, <-Hrest, <-(ztake_zdrop k tail) at 1. rewrite splice_app by congruence. by rewrite <-app_assoc. }
    rewrite Es. assert (Hd : zlen (zdrop k tail) = zlen tail - k) by (apply zlen_zdrop; lia).
    assert (Hlen' : zlen ((rest ++ t) ++ zdrop k tail) = 64) by (rewrite !zlen_app; lia).
    destruct (Z.eqb_spec (md_curlen md + k) 64) as [E64|E64].
    + assert (Hnil : zdrop k tail = []) by (apply zlen_0_inv; lia). rewrite Hnil, app_nil_r in *.
      destruct (absorb_block m full (rest ++ t) Hfull Hlen') as (Ha & Hz & Hu).
      exists (m + 1)%nat, (full ++ rest ++ t), [], (rest ++ t). rewrite app_nil_r, <-app_assoc. cbn.
      rewrite Ha, Hw, Hl. split_and!; done.
    + exists m, full, (rest ++ t), (zdrop k tail). rewrite <-app_assoc. cbn. split_and!; try done.
      * rewrite zlen_app. lia.
      * lia.
Qed.

Lemma md_init_ok buf : zlen buf = 64 -> md_of (md_init buf) [].
Proof. intros Hb. exists 0%nat, [], [], buf. by split_and!. Qed.

Lemma md_process_ok md inp l : md_of md l -> exists md', md_process md inp = Some md' /\ md_of md' (l ++ inp).
Proof.
  intros Hmd. unfold md_process. pose proof Hmd as (_ & _ & _ & _ & _ & _ & _ & Hcur & _).
  rewrite Z.gtb_ltb, (proj2 (Z.ltb_ge _ _)) by lia. by apply md_process_loop_ok.
Qed.

Lemma zlen_zeros n : 0 <= n -> zlen (replicate (Z.to_nat n) 0) = n.
Proof. intros Hn. unfold zlen. rewrite length_replicate. lia. Qed.

Lemma pad_zeros_ok limit pre tail :
  zlen pre <= limit -> limit - zlen pre <= zlen tail ->
  pad_zeros limit (zlen pre) (pre ++ tail) =
    pre ++ replicate (Z.to_nat (limit - zlen pre)) 0 ++ zdrop (limit - zlen pre) tail.
Proof.
  intros H1 H2. unfold pad_zeros. rewrite <-(ztake_zdrop (limit - zlen pre) tail) at 1.
  apply splice_app. rewrite zlen_zeros, zlen_ztake by lia. done.
Qed.

(** The buffer once its gap up to the length field is filled: a block. *)
Lemma last_block_ok words len pre tl : zlen pre <= 56 -> zlen pre + zlen tl = 64 ->
  compress words (splice 56 (store64 len) (pad_zeros 56 (zlen pre) (pre ++ tl))) =
    absorb 1 words (pre ++ replicate (Z.to_nat (56 - zlen pre)) 0 ++ store64 len).
Proof.
  intros Hp Ht. pose proof (zlen_nonneg pre) as Hp0.
  assert (E56 : zlen (pre ++ replicate (Z.to_nat (56 - zlen pre)) 0) = 56) by (rewrite zlen_app, zlen_zeros by lia; lia).
  rewrite absorb_one by (rewrite app_assoc, zlen_app, E56, store64_len; done).
  rewrite pad_zeros_ok by lia. f_equal. rewrite app_assoc.
  rewrite <-E56 at 1. rewrite <-(app_nil_r (zdrop _ tl)), splice_app; [by rewrite app_nil_r, <-app_assoc|].
  rewrite store64_len, zlen_zdrop by lia. lia.
Qed.

(** The reference over a message whose first [n] blocks are [full]. *)
Lemma md_hash_split n full rest last : zlen full = 64 * Z.of_nat n ->
  padded (full ++ rest) = full ++ last -> forall m, zlen last = 64 * Z.of_nat m ->
  md_hash (full ++ rest) = digest (absorb m (absorb n init full) last).
Proof.
  intros Hf Ep m Hm. unfold md_hash. rewrite Ep. f_equal. rewrite zlen_app, Hf, Hm.
  replace (Z.to_nat _) with (n + m)%nat; [by apply absorb_app|].
  replace (64 * Z.of_nat n + 64 * Z.of_nat m) with (Z.of_nat (n + m) * 64) by lia. rewrite Z.div_mul by done. lia.
Qed.

Lemma md_done_ok md l : md_of md l -> md_done md = Some (md_hash l).
Proof.
  intros (n & full & rest & tail & -> & Hfull & Hrest & Hcur & Hbuf & Hlen & Hw & Hl).
  pose proof (zlen_nonneg rest) as Hr0. rewrite zlen_app in Hlen.
  unfold md_done. rewrite Z.geb_leb, (proj2 (Z.leb_gt _ _)) by lia. cbv zeta.
  set (len := u64 (md_length md + md_curlen md * 8)).
  assert (Elen : len = u64 (8 * zlen (full ++ rest))).
  { unfold len. rewrite Hl, u64_add, zlen_app. f_equal. lia. }
  set (r1 := rest ++ [128]). assert (Hr1 : zlen r1 = md_curlen md + 1) by (unfold r1; rewrite zlen_app, Hrest; done).
  assert (Eset : zset (md_buf md) (md_curlen md) 128 = r1 ++ zdrop 1 tail).
  { destruct tail as [|x tail]; [rewrite zlen_nil in Hlen; lia|]. rewrite Hbuf, <-Hrest, zset_mid. unfold r1. by rewrite <-app_assoc. }
  assert (Hd1 : zlen (zdrop 1 tail) = zlen tail - 1) by (apply zlen_zdrop; lia).
  assert (Ep : forall k, 0 <= k < 64 -> zlen r1 + k = 56 \/ zlen r1 + k = 120 ->
    padded (full ++ rest) = full ++ r1 ++ replicate (Z.to_nat k) 0 ++ store64 len).
  { intros k Hk E. unfold padded. rewrite <-Elen. unfold r1 at 1. rewrite <-!app_assoc. do 4 f_equal. f_equal. f_equal.
    rewrite zlen_app, Hfull. Z.div_mod_to_equations. lia. }
  rewrite Eset, <-Hr1. clearbody len r1. f_equal.
  rewrite Z.gtb_ltb. destruct (Z.ltb_spec 56 (zlen r1)) as [Hbig|Hsmall].
  - rewrite pad_zeros_ok by lia. rewrite (zlen_0_inv (zdrop _ (zdrop 1 tail))), app_nil_r by (rewrite zlen_zdrop; lia).
    set (b1 := r1 ++ _). assert (Hb1 : zlen b1 = 64) by (unfold b1; rewrite zlen_app, zlen_zeros; lia).
    change 0 with (zlen (@nil Z)) at 1. rewrite <-(app_nil_l b1) at 2.
    rewrite last_block_ok by (change (zlen (@nil Z)) with 0; lia). change (zlen (@nil Z)) with 0. cbn [app].
    rewrite <-(absorb_one _ b1), Hw, <-(absorb_app 1 1) by done.
    rewrite (md_hash_split n full rest (b1 ++ replicate (Z.to_nat (56 - 0)) 0 ++ store64 len) Hfull) with (m := 2%nat).
    + done.
    + rewrite (Ep (64 - zlen r1 + 56)) by lia. unfold b1. rewrite <-!app_assoc. do 2 f_equal. rewrite app_assoc. f_equal.
      rewrite <-replicate_add. f_equal. lia.
    + rewrite !zlen_app, zlen_zeros, Hb1, store64_len by lia. lia.
  - rewrite last_block_ok by lia. rewrite Hw. symmetry. f_equal.
    apply md_hash_split; [done|apply Ep; lia|]. rewrite !zlen_app, zlen_zeros, store64_len by lia. lia.
Qed.

(** Successive calls of the process function. *)
Fixpoint md_feed (md : md_state) (ls : list (list Z)) : option md_state :=
  match ls with
  | [] => Some md
  | x :: ls => md ← md_process md x; md_feed md ls
  end.

Lemma md_feed_ok ls md l : md_of md l -> exists md', md_feed md ls = Some md' /\ md_of md' (l ++ concat ls).
Proof.
  revert md l. induction ls as [|x ls IH]; intros md l Hmd; cbn [md_feed concat].
  - exists md. by rewrite app_nil_r.
  - destruct (md_process_ok md x l Hmd) as (md1 & E1 & H1). destruct (IH md1 _ H1) as (md2 & E2 & H2).
    exists md2. rewrite E1, app_assoc. by split.
Qed.

Lemma md_stream_ok buf ls : zlen buf = 64 ->
  exists md, md_feed (md_init buf) ls = Some md /\ md_done md = Some (md_hash (concat ls)).
Proof.
  intros Hb. destruct (md_feed_ok ls (md_init buf) [] (md_init_ok buf Hb)) as (md & E & H).
  exists md. split; [done|]. by apply md_done_ok.
Qed.
End Engine.

(** Compression functions that agree on the chaining values give the same
    hash. *)
Lemma md_hash_ext compress compress' store64 digest init (P : list Z -> Prop) l :
  P init -> (forall w b, P w -> P (compress w b) /\ compress w b = compress' w b) ->
  md_hash compress store64 digest init l = md_hash compress' store64 digest init l.
Proof.
  intros Hi Hc. unfold md_hash. f_equal. generalize (Z.to_nat (zlen (padded store64 l) / 64)) as n.
  generalize (padded store64 l) as m. intros m n. revert init Hi m. induction n as [|n IH]; intros w Hw m; [done|]. cbn [absorb].
  destruct (Hc w (ztake 64 m) Hw) as [Hp <-]. by apply IH.
Qed.

(** The hash is the digest of a chaining value. *)
Lemma md_hash_inv compress store64 digest init (P : list Z -> Prop) l :
  P init -> (forall w b, P w -> P (compress w b)) -> exists w, P w /\ md_hash compress store64 digest init l = digest w.
Proof.
  intros Hi Hc. unfold md_hash. generalize (Z.to_nat (zlen (padded store64 l) / 64)) as n. generalize (padded store64 l) as m.
  intros m n. revert init Hi m. induction n as [|n IH]; intros w Hw m; cbn [absorb]; [by exists w|]. by apply IH, Hc.
Qed.
