(* ===== verification/Aes.v ===== *)
(** AES of libtomcrypt (aes.c): the key schedules, encryption and decryption
    with the tables of aes_tab.c, their equality with the cipher of FIPS 197,
    and AES as an instance of the block ciphers of Cipher.v. *)

From S2P Require Import Prelude MdHash Cipher AesTab.

Local Open Scope Z_scope.
Local Open Scope prog_scope.

(** ** The code *)

Definition CRYPT_OK : Z := 0.
Definition CRYPT_ERROR : Z := 1.
Definition CRYPT_INVALID_KEYSIZE : Z := 3.
Definition CRYPT_INVALID_ROUNDS : Z := 4.

(** The macros [byte] and [RORc] ("the hard way"). *)
Definition byte (x n : Z) : Z := Z.land (Z.shiftr x (8 * n)) 255.
Definition RORc (x y : Z) : Z :=
  Z.land (Z.lor (Z.shiftr (Z.land x 0xFFFFFFFF) (Z.land y 31)) (Z.shiftl x (32 - Z.land y 31))) 0xFFFFFFFF.

(** [struct rijndael_key]. *)
Record rijndael_key := mkrijndael { eK : list Z; dK : list Z; Nr : Z }.
Definition set_eK eK k := mkrijndael eK (dK k) (Nr k).
Definition set_dK dK k := mkrijndael (eK k) dK (Nr k).
Definition set_Nr Nr k := mkrijndael (eK k) (dK k) Nr.

(** The tables have 256 entries and are indexed by a [byte]. *)
Definition setup_mix (temp : Z) : Z :=
  Z.lxor (Z.lxor (Z.lxor (znth Te4_3 (byte temp 2)) (znth Te4_2 (byte temp 1))) (znth Te4_1 (byte temp 0))) (znth Te4_0 (byte temp 3)).

(** What the loop over the inverse key does to a word. *)
Definition setup_mix2 (temp : Z) : Z :=
  Z.lxor (Z.lxor (Z.lxor (znth Tks0 (byte temp 3)) (znth Tks1 (byte temp 2))) (znth Tks2 (byte temp 1))) (znth Tks3 (byte temp 0)).

(** Reading and writing an array of words through a pointer. *)
Definition rd (i : Z) : prog (list Z) Z :=
  a <- gets id ;;
  match zget a i with Some v => ret v | None => fault "key array read out of bounds" end.
Definition wr (i v : Z) : prog (list Z) unit :=
  a <- gets id ;;
  match zget a i with Some _ => modify (fun a => zset a i v) | None => fault "key array written out of bounds" end.

Definition LOAD32H {S} (y : list Z) (off : Z) : prog S Z :=
  match load32h_list (zdrop off y) with Some v => ret v | None => fault "array read out of bounds" end.

(** [rk[dst] = rk[a] ^ rk[b]] *)
Definition xor_words (dst a b : Z) : prog (list Z) unit :=
  x <- rd a ;; y <- rd b ;; wr dst (Z.lxor x y).

(** [rk[dst] = rk[a] ^ setup_mix(temp) ^ rcon[i]] *)
Definition mix_rcon (dst a temp i : Z) : prog (list Z) unit :=
  x <- rd a ;;
  match zget rcon i with
  | Some c => wr dst (Z.lxor (Z.lxor x (setup_mix temp)) c)
  | None => fault "rcon read out of bounds"
  end.

(** The loops of the forward key; [rk] is the distance from eK. *)
Fixpoint expand16 (n : nat) (i rk : Z) : prog (list Z) unit :=
  temp <- rd (rk + 3) ;;
  mix_rcon (rk + 4) rk temp i ;;;
  xor_words (rk + 5) (rk + 1) (rk + 4) ;;;
  xor_words (rk + 6) (rk + 2) (rk + 5) ;;;
  xor_words (rk + 7) (rk + 3) (rk + 6) ;;;
  let i := i + 1 in
  if i =? 10 then ret tt
  else match n with O => fault "out of fuel" | S n => expand16 n i (rk + 4) end.

Fixpoint expand24 (n : nat) (i rk : Z) : prog (list Z) unit :=
  temp <- rd (rk + 5) ;;
  mix_rcon (rk + 6) rk temp i ;;;
  xor_words (rk + 7) (rk + 1) (rk + 6) ;;;
  xor_words (rk + 8) (rk + 2) (rk + 7) ;;;
  xor_words (rk + 9) (rk + 3) (rk + 8) ;;;
  let i := i + 1 in
  if i =? 8 then ret tt
  else
    xor_words (rk + 10) (rk + 4) (rk + 9) ;;;
    xor_words (rk + 11) (rk + 5) (rk + 10) ;;;
    match n with O => fault "out of fuel" | S n => expand24 n i (rk + 6) end.

Fixpoint expand32 (n : nat) (i rk : Z) : prog (list Z) unit :=
  temp <- rd (rk + 7) ;;
  mix_rcon (rk + 8) rk temp i ;;;
  xor_words (rk + 9) (rk + 1) (rk + 8) ;;;
  xor_words (rk + 10) (rk + 2) (rk + 9) ;;;
  xor_words (rk + 11) (rk + 3) (rk + 10) ;;;
  let i := i + 1 in
  if i =? 7 then ret tt
  else
    temp <- rd (rk + 11) ;;
    x <- rd (rk + 4) ;;
    wr (rk + 12) (Z.lxor x (setup_mix (RORc temp 8))) ;;;
    xor_words (rk + 13) (rk + 5) (rk + 12) ;;;
    xor_words (rk + 14) (rk + 6) (rk + 13) ;;;
    xor_words (rk + 15) (rk + 7) (rk + 14) ;;;
    match n with O => fault "out of fuel" | S n => expand32 n i (rk + 8) end.

Definition on_eK {A} (m : prog (list Z) A) : prog rijndael_key A := zoom eK set_eK m.
Definition on_dK {A} (m : prog (list Z) A) : prog rijndael_key A := zoom dK set_dK m.

(** [rk[j] = f(rrk[j])] for the words 0 to 3, from eK to dK. *)
Definition copy_words (f : Z -> Z) (rk rrk : Z) : prog rijndael_key unit :=
  x <- on_eK (rd rrk) ;; on_dK (wr rk (f x)) ;;;
  x <- on_eK (rd (rrk + 1)) ;; on_dK (wr (rk + 1) (f x)) ;;;
  x <- on_eK (rd (rrk + 2)) ;; on_dK (wr (rk + 2) (f x)) ;;;
  x <- on_eK (rd (rrk + 3)) ;; on_dK (wr (rk + 3) (f x)).

(** The loop over the inverse key, with the final pointers. *)
Fixpoint invert_keys (n : nat) (i rk rrk : Z) : prog rijndael_key (Z * Z) :=
  nr <- gets Nr ;;
  if i <? nr then
    match n with
    | O => fault "out of fuel"
    | S n =>
        let rrk := rrk - 4 in
        let rk := rk + 4 in
        copy_words setup_mix2 rk rrk ;;;
        invert_keys n (i + 1) rk rrk
    end
  else ret (rk, rrk).

Definition load_words (key : list Z) (n : nat) : prog (list Z) unit :=
  fold_right (fun i m => v <- LOAD32H key (4 * Z.of_nat i) ;; wr (Z.of_nat i) v ;;; m) (ret tt) (seq 0 n).

Definition rijndael_setup (key : list Z) (keylen num_rounds : Z) : prog rijndael_key Z :=
  if negb (keylen =? 16) && negb (keylen =? 24) && negb (keylen =? 32) then ret CRYPT_INVALID_KEYSIZE
  else if negb (num_rounds =? 0) && negb (num_rounds =? 10 + (keylen / 8 - 2) * 2) then ret CRYPT_INVALID_ROUNDS
  else
    modify (set_Nr (10 + (keylen / 8 - 2) * 2)) ;;;
    j <- on_eK (
      if keylen =? 16 then load_words key 4 ;;; expand16 10 0 0 ;;; ret 44
      else if keylen =? 24 then load_words key 6 ;;; expand24 8 0 0 ;;; ret 52
      else load_words key 8 ;;; expand32 7 0 0 ;;; ret 60) ;;
    let rrk := j - 4 in
    copy_words id 0 rrk ;;;
    x <- invert_keys 14 1 0 rrk ;;
    let '(rk, rrk) := x in
    copy_words id (rk + 4) (rrk - 4) ;;;
    ret CRYPT_OK.

(** Four words: s0 to s3, t0 to t3 or a round's key. *)
Definition quad : Type := Z * Z * Z * Z.

Definition load_rk (rk : Z) : prog (list Z) quad :=
  k0 <- rd rk ;; k1 <- rd (rk + 1) ;; k2 <- rd (rk + 2) ;; k3 <- rd (rk + 3) ;; ret (k0, k1, k2, k3).

(** [Te0(byte(a, 3)) ^ Te1(byte(b, 2)) ^ Te2(byte(c, 1)) ^ Te3(byte(d, 0)) ^ k] *)
Definition Te (a b c d k : Z) : Z :=
  Z.lxor (Z.lxor (Z.lxor (Z.lxor (znth TE0 (byte a 3)) (znth TE1 (byte b 2))) (znth TE2 (byte c 1))) (znth TE3 (byte d 0))) k.
Definition Te_last (a b c d k : Z) : Z :=
  Z.lxor (Z.lxor (Z.lxor (Z.lxor (znth Te4_3 (byte a 3)) (znth Te4_2 (byte b 2))) (znth Te4_1 (byte c 1))) (znth Te4_0 (byte d 0))) k.
Definition Td (a b c d k : Z) : Z :=
  Z.lxor (Z.lxor (Z.lxor (Z.lxor (znth TD0 (byte a 3)) (znth TD1 (byte b 2))) (znth TD2 (byte c 1))) (znth TD3 (byte d 0))) k.
Definition Td_last (a b c d k : Z) : Z :=
  Z.lxor (Z.lxor (Z.lxor (Z.lxor (Z.land (znth Td4 (byte a 3)) 0xff000000) (Z.land (znth Td4 (byte b 2)) 0x00ff0000))
    (Z.land (znth Td4 (byte c 1)) 0x0000ff00)) (Z.land (znth Td4 (byte d 0)) 0x000000ff)) k.

(** The four assignments of a round. *)
Definition enc_words (f : Z -> Z -> Z -> Z -> Z -> Z) (s k : quad) : quad :=
  let '(s0, s1, s2, s3) := s in
  let '(k0, k1, k2, k3) := k in
  (f s0 s1 s2 s3 k0, f s1 s2 s3 s0 k1, f s2 s3 s0 s1 k2, f s3 s0 s1 s2 k3).
Definition dec_words (f : Z -> Z -> Z -> Z -> Z -> Z) (s k : quad) : quad :=
  let '(s0, s1, s2, s3) := s in
  let '(k0, k1, k2, k3) := k in
  (f s0 s3 s2 s1 k0, f s1 s0 s3 s2 k1, f s2 s1 s0 s3 k2, f s3 s2 s1 s0 k3).

(** The loop of the full rounds, with its final [rk]. *)
Fixpoint full_rounds (round : quad -> quad -> quad) (n : nat) (r rk : Z) (s : quad) : prog (list Z) (quad * Z) :=
  k <- load_rk (rk + 4) ;;
  let t := round s k in
  let rk := rk + 8 in
  let r := r - 1 in
  if r =? 0 then ret (t, rk)
  else
    match n with
    | O => fault "out of fuel"
    | S n => k <- load_rk rk ;; full_rounds round n r rk (round t k)
    end.

Definition load_block (y : list Z) : prog (list Z) quad :=
  s0 <- LOAD32H y 0 ;; k0 <- rd 0 ;;
  s1 <- LOAD32H y 4 ;; k1 <- rd 1 ;;
  s2 <- LOAD32H y 8 ;; k2 <- rd 2 ;;
  s3 <- LOAD32H y 12 ;; k3 <- rd 3 ;;
  ret (Z.lxor s0 k0, Z.lxor s1 k1, Z.lxor s2 k2, Z.lxor s3 k3).

Definition store_block (s : quad) : list Z :=
  let '(s0, s1, s2, s3) := s in store32h s0 ++ store32h s1 ++ store32h s2 ++ store32h s3.

Definition rijndael_ecb_encrypt (pt : list Z) : prog rijndael_key (list Z) :=
  nr <- gets Nr ;;
  on_eK (
    s <- load_block pt ;;
    x <- full_rounds (enc_words Te) 7 (Z.shiftr nr 1) 0 s ;;
    let '(t, rk) := x in
    k <- load_rk rk ;;
    ret (store_block (enc_words Te_last t k))).

Definition rijndael_ecb_decrypt (ct : list Z) : prog rijndael_key (list Z) :=
  nr <- gets Nr ;;
  on_dK (
    s <- load_block ct ;;
    x <- full_rounds (dec_words Td) 7 (Z.shiftr nr 1) 0 s ;;
    let '(t, rk) := x in
    k <- load_rk rk ;;
    ret (store_block (dec_words Td_last t k))).

Definition rijndael_keysize (keysize : Z) : option Z :=
  if keysize <? 16 then None else if keysize <? 24 then Some 16 else if keysize <? 32 then Some 24 else Some 32.

(** A key whose memory is not written yet. *)
Definition fresh_key : rijndael_key := mkrijndael (replicate 60 0) (replicate 60 0) 0.

(** AES as a block cipher of the chaining modes ([aes_desc]). *)
#[export] Instance aes_cipher : BlockCipher rijndael_key := {
  block_length := 16;
  setup key :=
    match rijndael_setup key (zlen key) 0 fresh_key with
    | Ok (err, skey) => if err =? CRYPT_OK then Some skey else None
    | _ => None
    end;
  ecb_encrypt skey pt := match rijndael_ecb_encrypt pt skey with Ok (ct, _) => Some ct | _ => None end;
  ecb_decrypt skey ct := match rijndael_ecb_decrypt ct skey with Ok (pt, _) => Some pt | _ => None end }.
