(* ===== verification/AesFips.v ===== *)
(** The Advanced Encryption Standard of FIPS 197, and the proof that
    libtomcrypt's AES (Aes.v) is it: the tables are the byte operations, the
    key schedules are the key expansion, a round is a round, and decryption by
    the equivalent inverse cipher undoes encryption. *)

From Stdlib Require Import Btauto.
From S2P Require Import Prelude Dbutil MdHash Cipher AesTab Aes.

Local Open Scope Z_scope.
Local Open Scope prog_scope.

(** ** The standard *)

Module Fips.

(** Multiplication in GF(2^8) modulo x^8 + x^4 + x^3 + x + 1 (section 4.2). *)
Definition xtime (a : Z) : Z := if a <? 128 then 2 * a else Z.lxor (2 * a) 0x11b.

Fixpoint gmul_bits (n : nat) (a b : Z) : Z :=
  match n with
  | O => 0
  | S n => Z.lxor (if Z.odd b then a else 0) (gmul_bits n (xtime a) (Z.div2 b))
  end.
Definition gmul (a b : Z) : Z := gmul_bits 8 a b.

(** The inverse is the power 254 = 2 + 4 + ... + 128; that of 0 is 0. *)
Fixpoint squares_product (n : nat) (x : Z) : Z :=
  match n with
  | O => 1
  | S n => let y := gmul x x in gmul y (squares_product n y)
  end.
Definition ginv (x : Z) : Z := squares_product 7 x.

Definition rotl8 (x k : Z) : Z := Z.land (Z.lor (Z.shiftl x k) (Z.shiftr x (8 - k))) 255.

(** Sections 5.1.1 and 5.3.2. *)
Definition sbox (x : Z) : Z :=
  let b := ginv x in
  Z.lxor (Z.lxor (Z.lxor (Z.lxor (Z.lxor b (rotl8 b 1)) (rotl8 b 2)) (rotl8 b 3)) (rotl8 b 4)) 0x63.
Definition inv_sbox (y : Z) : Z := ginv (Z.lxor (Z.lxor (Z.lxor (rotl8 y 1) (rotl8 y 3)) (rotl8 y 6)) 0x05).

(** The state, column by column: byte (r, c) is at 4c + r. *)
Definition sub_bytes (s : list Z) : list Z := map sbox s.
Definition inv_sub_bytes (s : list Z) : list Z := map inv_sbox s.

Definition permute (f : nat -> nat -> nat) (s : list Z) : list Z :=
  map (fun i => nth (4 * f (i mod 4) (i / 4) + i mod 4)%nat s 0) (seq 0 16).
Definition shift_rows : list Z -> list Z := permute (fun r c => (c + r) mod 4)%nat.
Definition inv_shift_rows : list Z -> list Z := permute (fun r c => (c + 4 - r) mod 4)%nat.

Definition mix_column (a b c d : Z) : list Z :=
  [Z.lxor (Z.lxor (Z.lxor (gmul 2 a) (gmul 3 b)) c) d; Z.lxor (Z.lxor (Z.lxor a (gmul 2 b)) (gmul 3 c)) d;
   Z.lxor (Z.lxor (Z.lxor a b) (gmul 2 c)) (gmul 3 d); Z.lxor (Z.lxor (Z.lxor (gmul 3 a) b) c) (gmul 2 d)].
Definition inv_mix_column (a b c d : Z) : list Z :=
  [Z.lxor (Z.lxor (Z.lxor (gmul 14 a) (gmul 11 b)) (gmul 13 c)) (gmul 9 d);
   Z.lxor (Z.lxor (Z.lxor (gmul 9 a) (gmul 14 b)) (gmul 11 c)) (gmul 13 d);
   Z.lxor (Z.lxor (Z.lxor (gmul 13 a) (gmul 9 b)) (gmul 14 c)) (gmul 11 d);
   Z.lxor (Z.lxor (Z.lxor (gmul 11 a) (gmul 13 b)) (gmul 9 c)) (gmul 14 d)].

Fixpoint columns (f : Z -> Z -> Z -> Z -> list Z) (s : list Z) : list Z :=
  match s with
  | a :: b :: c :: d :: s => f a b c d ++ columns f s
  | _ => []
  end.
Definition mix_columns : list Z -> list Z := columns mix_column.
Definition inv_mix_columns : list Z -> list Z := columns inv_mix_column.

Definition add_round_key (s k : list Z) : list Z := zip_with Z.lxor s k.

(** The cipher (section 5.1) and the inverse cipher (5.3) with the round keys
    [w]. *)
Definition round (w : nat -> list Z) (s : list Z) (i : nat) : list Z :=
  add_round_key (mix_columns (shift_rows (sub_bytes s))) (w i).
Definition cipher (nr : nat) (w : nat -> list Z) (input : list Z) : list Z :=
  let s := fold_left (round w) (seq 1 (nr - 1)) (add_round_key input (w 0%nat)) in
  add_round_key (shift_rows (sub_bytes s)) (w nr).

Definition inv_round (w : nat -> list Z) (s : list Z) (i : nat) : list Z :=
  inv_mix_columns (add_round_key (inv_sub_bytes (inv_shift_rows s)) (w i)).
Definition inv_cipher (nr : nat) (w : nat -> list Z) (input : list Z) : list Z :=
  let s := fold_left (inv_round w) (rev (seq 1 (nr - 1))) (add_round_key input (w nr)) in
  add_round_key (inv_sub_bytes (inv_shift_rows s)) (w 0%nat).

(** The key expansion (section 5.2), over words of four bytes. *)
Definition sub_word (w : list Z) : list Z := map sbox w.
Definition rot_word (w : list Z) : list Z := match w with [a; b; c; d] => [b; c; d; a] | _ => w end.
Definition rcon_word (j : nat) : list Z := [Nat.iter (j - 1) xtime 1; 0; 0; 0].

Definition next_word (nk : nat) (w : list (list Z)) : list Z :=
  let i := length w in
  let temp := List.last w [] in
  let temp :=
    if (i mod nk =? 0)%nat then zip_with Z.lxor (sub_word (rot_word temp)) (rcon_word (i / nk))
    else if (6 <? nk)%nat && (i mod nk =? 4)%nat then sub_word temp else temp in
  zip_with Z.lxor (nth (i - nk) w []) temp.

Fixpoint expand (nk n : nat) (w : list (list Z)) : list (list Z) :=
  match n with
  | O => w
  | S n => expand nk n (w ++ [next_word nk w])
  end.

Fixpoint words (n : nat) (key : list Z) : list (list Z) :=
  match n with
  | O => []
  | S n => take 4 key :: words n (drop 4 key)
  end.

Definition key_expansion (nk : nat) (key : list Z) : list (list Z) := expand nk (4 * (nk + 7) - nk) (words nk key).
Definition round_key (w : list (list Z)) (i : nat) : list Z := concat (take 4 (drop (4 * i) w)).

(** AES with a key of 4 nk bytes. *)
Definition aes (nk : nat) (key : list Z) : list Z -> list Z := cipher (nk + 6) (round_key (key_expansion nk key)).
Definition aes_inv (nk : nat) (key : list Z) : list Z -> list Z := inv_cipher (nk + 6) (round_key (key_expansion nk key)).
End Fips.

Import Fips.

(** ** Bytes *)

Lemma byte_forall (P : Z -> bool) : forallb P (map Z.of_nat (seq 0 256)) = true -> forall x, is_byte x -> P x = true.
Proof.
  intros HP x Hx. rewrite forallb_forall in HP. apply HP. apply in_map_iff. exists (Z.to_nat x).
  unfold is_byte in Hx. split; [lia|]. apply in_seq. lia.
Qed.

(** Facts about all bytes, by enumeration. *)
Ltac all_bytes :=
  let x := fresh "x" in let Hx := fresh "Hx" in
  intros x Hx; pattern x;
  lazymatch goal with |- (fun y => @?l y = @?r y) _ =>
    apply Z.eqb_eq; apply (byte_forall (fun y => l y =? r y)); [vm_compute; reflexivity|exact Hx] end.

Lemma is_byte_bool x : (0 <=? x) && (x <? 256) = true -> is_byte x.
Proof. unfold is_byte. intros Hb. bool_hyps. lia. Qed.

Lemma sbox_byte x : is_byte x -> is_byte (sbox x).
Proof. intros Hx. apply is_byte_bool. revert x Hx. apply byte_forall. vm_compute. reflexivity. Qed.
Lemma inv_sbox_byte x : is_byte x -> is_byte (inv_sbox x).
Proof. intros Hx. apply is_byte_bool. revert x Hx. apply byte_forall. vm_compute. reflexivity. Qed.
Lemma inv_sbox_sbox x : is_byte x -> inv_sbox (sbox x) = x.
Proof. revert x. all_bytes. Qed.

Lemma gmul_byte c x : c = 2 \/ c = 3 \/ c = 9 \/ c = 11 \/ c = 13 \/ c = 14 -> is_byte x -> is_byte (gmul c x).
Proof.
  intros Hc Hx. apply is_byte_bool. revert x Hx.
  destruct Hc as [->|[->|[->|[->|[->| ->]]]]]; apply byte_forall; vm_compute; reflexivity.
Qed.

Lemma gmul_lxor c x y : gmul c (Z.lxor x y) = Z.lxor (gmul c x) (gmul c y).
Proof.
  unfold gmul. generalize 8%nat. intros n. revert c x y. induction n as [|n IH]; intros c x y; [done|]. cbn [gmul_bits].
  assert (Ediv : Z.div2 (Z.lxor x y) = Z.lxor (Z.div2 x) (Z.div2 y)) by (rewrite !Z.div2_spec; apply Z.shiftr_lxor).
  rewrite Ediv, IH. rewrite <-!Z.bit0_odd, Z.lxor_spec.
  destruct (Z.testbit x 0), (Z.testbit y 0); cbn [xorb]; rewrite ?Z.lxor_0_l.
  - rewrite <-!Z.lxor_assoc. f_equal. by rewrite Z.lxor_assoc, (Z.lxor_comm _ c), <-Z.lxor_assoc, Z.lxor_nilpotent, Z.lxor_0_l.
  - by rewrite Z.lxor_assoc.
  - rewrite <-!Z.lxor_assoc. f_equal. apply Z.lxor_comm.
  - done.
Qed.

(** ** Words *)

Lemma land_byte x : is_byte x -> Z.land x 255 = x.
Proof. intros Hx. rewrite land_255. by apply Z.mod_small. Qed.

(** Equality up to the order of exclusive ors. *)
Ltac lxor_ac := apply Z.bits_inj'; let i := fresh "i" in intros i _; rewrite ?Z.lxor_spec; btauto.

Lemma lor_lxor_shift a b k : 0 <= k -> 0 <= b < 2 ^ k -> Z.lor (Z.shiftl a k) b = Z.lxor (Z.shiftl a k) b.
Proof.
  intros Hk Hb. pose proof (lor_add_shift a b k Hk Hb) as E. pose proof (Z.add_lor_land (Z.shiftl a k) b) as Hadd.
  rewrite Z.shiftl_mul_pow2 in * by lia. symmetry. apply Z.lxor_lor. lia.
Qed.

Lemma load32h_shifts a b c d : is_byte a -> is_byte b -> is_byte c -> is_byte d ->
  load32h a b c d = Z.lxor (Z.shiftl a 24) (Z.lxor (Z.shiftl b 16) (Z.lxor (Z.shiftl c 8) d)).
Proof.
  intros Ha Hb Hc Hd. unfold load32h. rewrite !land_byte by done. unfold is_byte in *.
  pose proof (lor_add_shift c d 8 ltac:(lia) ltac:(lia)) as E2.
  pose proof (lor_add_shift b (Z.lor (Z.shiftl c 8) d) 16 ltac:(lia) ltac:(lia)) as E3.
  rewrite <-Z.lor_assoc, (lor_lxor_shift a) by lia. by rewrite (lor_lxor_shift b), (lor_lxor_shift c) by lia.
Qed.

Lemma load32h_lxor a b c d a' b' c' d' :
  is_byte a -> is_byte b -> is_byte c -> is_byte d -> is_byte a' -> is_byte b' -> is_byte c' -> is_byte d' ->
  Z.lxor (load32h a b c d) (load32h a' b' c' d') = load32h (Z.lxor a a') (Z.lxor b b') (Z.lxor c c') (Z.lxor d d').
Proof. intros. rewrite !load32h_shifts by (done || by apply lxor_byte). rewrite !Z.shiftl_lxor. lxor_ac. Qed.

Lemma byte_load32h a b c d : is_byte a -> is_byte b -> is_byte c -> is_byte d ->
  byte (load32h a b c d) 3 = a /\ byte (load32h a b c d) 2 = b /\ byte (load32h a b c d) 1 = c /\ byte (load32h a b c d) 0 = d.
Proof.
  intros Ha Hb Hc Hd. rewrite load32h_val by done. unfold byte, is_byte in *. rewrite !land_255, !Z.shiftr_div_pow2 by lia.
  split_and!; Z.div_mod_to_equations; lia.
Qed.

Lemma store32h_load32h a b c d : is_byte a -> is_byte b -> is_byte c -> is_byte d -> store32h (load32h a b c d) = [a; b; c; d].
Proof.
  intros. destruct (load32h_list_4 [a; b; c; d]) as (v & E & _ & ->); [by repeat (apply Forall_cons_2; [done|])|done|]. by injection E as <-.
Qed.

(** ** The tables *)

Lemma TE_ok x : is_byte x ->
  znth TE0 x = load32h (gmul 2 (sbox x)) (sbox x) (sbox x) (gmul 3 (sbox x)) /\
  znth TE1 x = load32h (gmul 3 (sbox x)) (gmul 2 (sbox x)) (sbox x) (sbox x) /\
  znth TE2 x = load32h (sbox x) (gmul 3 (sbox x)) (gmul 2 (sbox x)) (sbox x) /\
  znth TE3 x = load32h (sbox x) (sbox x) (gmul 3 (sbox x)) (gmul 2 (sbox x)).
Proof. intros Hx. split_and!; revert x Hx; all_bytes. Qed.

Lemma Te4_ok x : is_byte x ->
  znth Te4_3 x = load32h (sbox x) 0 0 0 /\ znth Te4_2 x = load32h 0 (sbox x) 0 0 /\
  znth Te4_1 x = load32h 0 0 (sbox x) 0 /\ znth Te4_0 x = load32h 0 0 0 (sbox x).
Proof. intros Hx. split_and!; revert x Hx; all_bytes. Qed.

Lemma TD_ok x : is_byte x ->
  znth TD0 x = load32h (gmul 14 (inv_sbox x)) (gmul 9 (inv_sbox x)) (gmul 13 (inv_sbox x)) (gmul 11 (inv_sbox x)) /\
  znth TD1 x = load32h (gmul 11 (inv_sbox x)) (gmul 14 (inv_sbox x)) (gmul 9 (inv_sbox x)) (gmul 13 (inv_sbox x)) /\
  znth TD2 x = load32h (gmul 13 (inv_sbox x)) (gmul 11 (inv_sbox x)) (gmul 14 (inv_sbox x)) (gmul 9 (inv_sbox x)) /\
  znth TD3 x = load32h (gmul 9 (inv_sbox x)) (gmul 13 (inv_sbox x)) (gmul 11 (inv_sbox x)) (gmul 14 (inv_sbox x)).
Proof. intros Hx. split_and!; revert x Hx; all_bytes. Qed.

Lemma Td4_ok x : is_byte x ->
  Z.land (znth Td4 x) 0xff000000 = load32h (inv_sbox x) 0 0 0 /\ Z.land (znth Td4 x) 0x00ff0000 = load32h 0 (inv_sbox x) 0 0 /\
  Z.land (znth Td4 x) 0x0000ff00 = load32h 0 0 (inv_sbox x) 0 /\ Z.land (znth Td4 x) 0x000000ff = load32h 0 0 0 (inv_sbox x).
Proof. intros Hx. split_and!; revert x Hx; all_bytes. Qed.

Lemma Tks_ok x : is_byte x ->
  znth Tks0 x = load32h (gmul 14 x) (gmul 9 x) (gmul 13 x) (gmul 11 x) /\
  znth Tks1 x = load32h (gmul 11 x) (gmul 14 x) (gmul 9 x) (gmul 13 x) /\
  znth Tks2 x = load32h (gmul 13 x) (gmul 11 x) (gmul 14 x) (gmul 9 x) /\
  znth Tks3 x = load32h (gmul 9 x) (gmul 13 x) (gmul 11 x) (gmul 14 x).
Proof. intros Hx. split_and!; revert x Hx; all_bytes. Qed.

(** The inverse is one. *)
Lemma ginv_inverse x : is_byte x -> x <> 0 -> gmul x (ginv x) = 1.
Proof.
  intros Hx H0. assert (E : (x =? 0) || (gmul x (ginv x) =? 1) = true).
  { revert x Hx H0. intros x Hx _. revert x Hx. apply byte_forall. vm_compute. reflexivity. }
  bool_hyps. lia.
Qed.

(** ** A round *)

Ltac byte_side := repeat first [assumption | apply lxor_byte | apply sbox_byte | apply inv_sbox_byte
  | (apply gmul_byte; [tauto|]) | (unfold is_byte; lia)].

Definition word_of (l : list Z) : Z := match l with [a; b; c; d] => load32h a b c d | _ => 0 end.
Definition quad_of (s : list Z) : quad :=
  (word_of (take 4 s), word_of (take 4 (drop 4 s)), word_of (take 4 (drop 8 s)), word_of (take 4 (drop 12 s))).
Definition state (s : list Z) : Prop := length s = 16%nat /\ bytes s.

Opaque sbox inv_sbox gmul load32h.

(** Split a state into its bytes. *)
Ltac explode H :=
  let Hl := fresh in let Hb := fresh in
  destruct H as [Hl Hb];
  lazymatch type of Hl with length ?s = _ => do 16 (destruct s as [|? s]; [discriminate Hl|]); destruct s; [|discriminate Hl] end;
  clear Hl; repeat (apply Forall_cons in Hb as [? Hb]); clear Hb.

Section Word.
Context (a0 a1 a2 a3 b0 b1 b2 b3 c0 c1 c2 c3 d0 d1 d2 d3 k0 k1 k2 k3 : Z).
Context (Ha : bytes [a0; a1; a2; a3]) (Hb : bytes [b0; b1; b2; b3]) (Hc : bytes [c0; c1; c2; c3]) (Hd : bytes [d0; d1; d2; d3])
  (Hk : bytes [k0; k1; k2; k3]).

Ltac open_bytes :=
  repeat match goal with H : bytes (_ :: _) |- _ => apply Forall_cons in H as [? H] end;
  destruct (byte_load32h a0 a1 a2 a3) as (Ea3 & Ea2 & Ea1 & Ea0); [done..|];
  destruct (byte_load32h b0 b1 b2 b3) as (Eb3 & Eb2 & Eb1 & Eb0); [done..|];
  destruct (byte_load32h c0 c1 c2 c3) as (Ec3 & Ec2 & Ec1 & Ec0); [done..|];
  destruct (byte_load32h d0 d1 d2 d3) as (Ed3 & Ed2 & Ed1 & Ed0); [done..|].

Lemma Te_word : Te (load32h a0 a1 a2 a3) (load32h b0 b1 b2 b3) (load32h c0 c1 c2 c3) (load32h d0 d1 d2 d3) (load32h k0 k1 k2 k3) =
  word_of (zip_with Z.lxor (mix_column (sbox a0) (sbox b1) (sbox c2) (sbox d3)) [k0; k1; k2; k3]).
Proof.
  open_bytes. unfold Te. rewrite Ea3, Eb2, Ec1, Ed0.
  destruct (TE_ok a0) as (-> & _); [done|]. destruct (TE_ok b1) as (_ & -> & _); [done|].
  destruct (TE_ok c2) as (_ & _ & -> & _); [done|]. destruct (TE_ok d3) as (_ & _ & _ & ->); [done|].
  by rewrite !load32h_lxor by byte_side.
Qed.

Lemma Te_last_word : Te_last (load32h a0 a1 a2 a3) (load32h b0 b1 b2 b3) (load32h c0 c1 c2 c3) (load32h d0 d1 d2 d3) (load32h k0 k1 k2 k3) =
  word_of (zip_with Z.lxor [sbox a0; sbox b1; sbox c2; sbox d3] [k0; k1; k2; k3]).
Proof.
  open_bytes. unfold Te_last. rewrite Ea3, Eb2, Ec1, Ed0.
  destruct (Te4_ok a0) as (-> & _); [done|]. destruct (Te4_ok b1) as (_ & -> & _); [done|].
  destruct (Te4_ok c2) as (_ & _ & -> & _); [done|]. destruct (Te4_ok d3) as (_ & _ & _ & ->); [done|].
  rewrite !load32h_lxor by byte_side. by rewrite ?Z.lxor_0_l, ?Z.lxor_0_r.
Qed.

Lemma Td_word : Td (load32h a0 a1 a2 a3) (load32h b0 b1 b2 b3) (load32h c0 c1 c2 c3) (load32h d0 d1 d2 d3) (load32h k0 k1 k2 k3) =
  word_of (zip_with Z.lxor (inv_mix_column (inv_sbox a0) (inv_sbox b1) (inv_sbox c2) (inv_sbox d3)) [k0; k1; k2; k3]).
Proof.
  open_bytes. unfold Td. rewrite Ea3, Eb2, Ec1, Ed0.
  destruct (TD_ok a0) as (-> & _); [done|]. destruct (TD_ok b1) as (_ & -> & _); [done|].
  destruct (TD_ok c2) as (_ & _ & -> & _); [done|]. destruct (TD_ok d3) as (_ & _ & _ & ->); [done|].
  by rewrite !load32h_lxor by byte_side.
Qed.

Lemma Td_last_word : Td_last (load32h a0 a1 a2 a3) (load32h b0 b1 b2 b3) (load32h c0 c1 c2 c3) (load32h d0 d1 d2 d3) (load32h k0 k1 k2 k3) =
  word_of (zip_with Z.lxor [inv_sbox a0; inv_sbox b1; inv_sbox c2; inv_sbox d3] [k0; k1; k2; k3]).
Proof.
  open_bytes. unfold Td_last. rewrite Ea3, Eb2, Ec1, Ed0.
  destruct (Td4_ok a0) as (-> & _); [done|]. destruct (Td4_ok b1) as (_ & -> & _); [done|].
  destruct (Td4_ok c2) as (_ & _ & -> & _); [done|]. destruct (Td4_ok d3) as (_ & _ & _ & ->); [done|].
  rewrite !load32h_lxor by byte_side. by rewrite ?Z.lxor_0_l, ?Z.lxor_0_r.
Qed.
End Word.

Ltac bytes_of_list := repeat (apply Forall_cons_2; [assumption|]); apply Forall_nil_2.

Lemma enc_round_ok s k : state s -> state k ->
  enc_words Te (quad_of s) (quad_of k) = quad_of (add_round_key (mix_columns (shift_rows (sub_bytes s))) k).
Proof. intros Hs Hk. explode Hs. explode Hk. cbn -[Te]. by rewrite !Te_word by bytes_of_list. Qed.

Lemma enc_last_ok s k : state s -> state k ->
  enc_words Te_last (quad_of s) (quad_of k) = quad_of (add_round_key (shift_rows (sub_bytes s)) k).
Proof. intros Hs Hk. explode Hs. explode Hk. cbn -[Te_last]. by rewrite !Te_last_word by bytes_of_list. Qed.

Lemma dec_round_ok s k : state s -> state k ->
  dec_words Td (quad_of s) (quad_of k) = quad_of (add_round_key (inv_mix_columns (inv_sub_bytes (inv_shift_rows s))) k).
Proof. intros Hs Hk. explode Hs. explode Hk. cbn -[Td]. by rewrite !Td_word by bytes_of_list. Qed.

Lemma dec_last_ok s k : state s -> state k ->
  dec_words Td_last (quad_of s) (quad_of k) = quad_of (add_round_key (inv_sub_bytes (inv_shift_rows s)) k).
Proof. intros Hs Hk. explode Hs. explode Hk. cbn -[Td_last]. by rewrite !Td_last_word by bytes_of_list. Qed.

(** ** The steps keep states and have their inverses *)

Ltac state_of := split; [reflexivity|]; repeat (apply Forall_cons_2; [byte_side|]); apply Forall_nil_2.

Lemma state_sub_bytes s : state s -> state (sub_bytes s).
Proof. intros Hs. explode Hs. state_of. Qed.
Lemma state_inv_sub_bytes s : state s -> state (inv_sub_bytes s).
Proof. intros Hs. explode Hs. state_of. Qed.
Lemma state_shift_rows s : state s -> state (shift_rows s).
Proof. intros Hs. explode Hs. state_of. Qed.
Lemma state_inv_shift_rows s : state s -> state (inv_shift_rows s).
Proof. intros Hs. explode Hs. state_of. Qed.
Lemma state_mix_columns s : state s -> state (mix_columns s).
Proof. intros Hs. explode Hs. state_of. Qed.
Lemma state_inv_mix_columns s : state s -> state (inv_mix_columns s).
Proof. intros Hs. explode Hs. state_of. Qed.
Lemma state_add_round_key s k : state s -> state k -> state (add_round_key s k).
Proof. intros Hs Hk. explode Hs. explode Hk. state_of. Qed.

Create HintDb aes.
#[export] Hint Resolve state_sub_bytes state_inv_sub_bytes state_shift_rows state_inv_shift_rows state_mix_columns
  state_inv_mix_columns state_add_round_key : aes.

Lemma inv_sub_bytes_sub s : state s -> inv_sub_bytes (sub_bytes s) = s.
Proof. intros Hs. explode Hs. cbn. by rewrite !inv_sbox_sbox by done. Qed.

Lemma inv_shift_rows_shift s : state s -> inv_shift_rows (shift_rows s) = s.
Proof. intros Hs. by explode Hs. Qed.

Lemma inv_sub_shift_comm s : state s -> inv_sub_bytes (inv_shift_rows s) = inv_shift_rows (inv_sub_bytes s).
Proof. intros Hs. by explode Hs. Qed.

Lemma add_round_key_undo s k : state s -> state k -> add_round_key (add_round_key s k) k = s.
Proof. intros Hs Hk. explode Hs. explode Hk. cbn. by rewrite !Z.lxor_assoc, !Z.lxor_nilpotent, !Z.lxor_0_r. Qed.

(** The products of the two matrices: a byte's share in each row. *)
Lemma mix_diagonal x : is_byte x -> Z.lxor (Z.lxor (Z.lxor (gmul 14 (gmul 2 x)) (gmul 11 x)) (gmul 13 x)) (gmul 9 (gmul 3 x)) = x.
Proof. revert x. all_bytes. Qed.
Lemma mix_cancel x : is_byte x ->
  Z.lxor (Z.lxor (Z.lxor (gmul 14 (gmul 3 x)) (gmul 11 (gmul 2 x))) (gmul 13 x)) (gmul 9 x) = 0 /\
  Z.lxor (Z.lxor (Z.lxor (gmul 14 x) (gmul 11 (gmul 3 x))) (gmul 13 (gmul 2 x))) (gmul 9 x) = 0 /\
  Z.lxor (Z.lxor (Z.lxor (gmul 14 x) (gmul 11 x)) (gmul 13 (gmul 3 x))) (gmul 9 (gmul 2 x)) = 0.
Proof. intros Hx. split_and!; revert x Hx; all_bytes. Qed.

Lemma lxor_rows a b c d (a1 a2 a3 a4 b1 b2 b3 b4 c1 c2 c3 c4 d1 d2 d3 d4 : Z) :
  Z.lxor (Z.lxor (Z.lxor a1 a2) a3) a4 = a -> Z.lxor (Z.lxor (Z.lxor b1 b2) b3) b4 = b ->
  Z.lxor (Z.lxor (Z.lxor c1 c2) c3) c4 = c -> Z.lxor (Z.lxor (Z.lxor d1 d2) d3) d4 = d ->
  Z.lxor (Z.lxor (Z.lxor (Z.lxor (Z.lxor (Z.lxor a1 b1) c1) d1) (Z.lxor (Z.lxor (Z.lxor a2 b2) c2) d2))
    (Z.lxor (Z.lxor (Z.lxor a3 b3) c3) d3)) (Z.lxor (Z.lxor (Z.lxor a4 b4) c4) d4) = Z.lxor (Z.lxor (Z.lxor a b) c) d.
Proof. intros <- <- <- <-. lxor_ac. Qed.

Ltac by_ac H := etransitivity; [|exact H]; lxor_ac.

Lemma inv_mix_column_mix a b c d : is_byte a -> is_byte b -> is_byte c -> is_byte d ->
  columns inv_mix_column (mix_column a b c d) = [a; b; c; d].
Proof.
  intros Ha Hb Hc Hd. cbn. rewrite !gmul_lxor.
  pose proof (mix_diagonal a Ha) as Da. pose proof (mix_diagonal b Hb) as Db. pose proof (mix_diagonal c Hc) as Dc. pose proof (mix_diagonal d Hd) as Dd.
  destruct (mix_cancel a Ha) as (A1 & A2 & A3). destruct (mix_cancel b Hb) as (B1 & B2 & B3).
  destruct (mix_cancel c Hc) as (C1 & C2 & C3). destruct (mix_cancel d Hd) as (D1 & D2 & D3).
  repeat f_equal.
  - rewrite (lxor_rows a 0 0 0) by assumption. by rewrite !Z.lxor_0_r.
  - rewrite (lxor_rows 0 b 0 0);
      [by rewrite !Z.lxor_0_r|by_ac A3|by_ac Db|by_ac C1|by_ac D2].
  - rewrite (lxor_rows 0 0 c 0); [by rewrite !Z.lxor_0_r|by_ac A2|by_ac B3|by_ac Dc|by_ac D1].
  - rewrite (lxor_rows 0 0 0 d); [done|by_ac A1|by_ac B2|by_ac C3|by_ac Dd].
Qed.

(** The columns of a state. *)
Lemma columns_4 f a b c d s : columns f (a :: b :: c :: d :: s) = f a b c d ++ columns f s.
Proof. done. Qed.

Lemma columns_app f g a b c d s : columns f (columns g [a; b; c; d]) = [a; b; c; d] -> length (g a b c d) = 4%nat ->
  columns f (columns g s) = s -> columns f (columns g (a :: b :: c :: d :: s)) = a :: b :: c :: d :: s.
Proof.
  intros E Hl Es. rewrite columns_4. cbn in E. rewrite app_nil_r in E. destruct (g a b c d) as [|x [|y [|z [|w [|]]]]]; try done.
  cbn [app columns]. rewrite Es. cbn in E. rewrite app_nil_r in E. by rewrite E.
Qed.

Lemma inv_mix_columns_mix s : state s -> inv_mix_columns (mix_columns s) = s.
Proof.
  intros Hs. explode Hs. unfold inv_mix_columns, mix_columns.
  repeat (apply columns_app; [rewrite columns_4, app_nil_r; by apply inv_mix_column_mix|done|]). done.
Qed.

Lemma inv_mix_column_lxor a b c d a' b' c' d' :
  inv_mix_column (Z.lxor a a') (Z.lxor b b') (Z.lxor c c') (Z.lxor d d') =
  zip_with Z.lxor (inv_mix_column a b c d) (inv_mix_column a' b' c' d').
Proof. unfold inv_mix_column. cbn. rewrite !gmul_lxor. repeat (apply (f_equal2 cons); [lxor_ac|]). done. Qed.

Lemma inv_mix_columns_add s k : state s -> state k ->
  inv_mix_columns (add_round_key s k) = add_round_key (inv_mix_columns s) (inv_mix_columns k).
Proof.
  intros Hs Hk. explode Hs. explode Hk. unfold inv_mix_columns, add_round_key. cbn [zip_with].
  rewrite !columns_4, !inv_mix_column_lxor. done.
Qed.

(** ** The inverse cipher of the standard undoes the cipher *)

Section Cipher.
Context (nr : nat) (w : nat -> list Z) (Hw : forall i, (i <= nr)%nat -> state (w i)).

Lemma state_round s i : (i <= nr)%nat -> state s -> state (round w s i).
Proof. intros Hi Hs. unfold round. auto with aes. Qed.

Lemma state_rounds l s : Forall (fun i => i <= nr)%nat l -> state s -> state (fold_left (round w) l s).
Proof. intros Hl. revert s. induction Hl as [|i l Hi _ IH]; intros s Hs; [done|]. by apply IH, state_round. Qed.

Lemma inv_rounds_rounds l s : Forall (fun i => i <= nr)%nat l -> state s ->
  fold_left (inv_round w) (rev l) (shift_rows (sub_bytes (fold_left (round w) l s))) = shift_rows (sub_bytes s).
Proof.
  induction l as [|i l IH] using rev_ind; intros Hl Hs; [done|]. apply Forall_app in Hl as [Hl Hi]. apply Forall_cons in Hi as [Hi _].
  pose proof (state_rounds l s Hl Hs) as Hf. rewrite rev_unit, fold_left_app. cbn [fold_left]. rewrite <-(IH Hl Hs). f_equal.
  unfold inv_round. rewrite inv_shift_rows_shift, inv_sub_bytes_sub by auto using state_round with aes. unfold round.
  rewrite add_round_key_undo by auto with aes. by rewrite inv_mix_columns_mix by auto with aes.
Qed.

Lemma seq_le n : (1 <= nr)%nat -> n = (nr - 1)%nat -> Forall (fun i => i <= nr)%nat (seq 1 n).
Proof. intros H1 ->. apply Forall_forall. intros i Hi%list_elem_of_In%in_seq. lia. Qed.

Lemma state_cipher s : (1 <= nr)%nat -> state s -> state (cipher nr w s).
Proof.
  intros H1 Hs. unfold cipher. apply state_add_round_key; [|by apply Hw].
  apply state_shift_rows, state_sub_bytes, state_rounds; [by apply seq_le|]. apply state_add_round_key; [done|apply Hw; lia].
Qed.

Lemma inv_cipher_cipher s : (1 <= nr)%nat -> state s -> inv_cipher nr w (cipher nr w s) = s.
Proof.
  intros H1 Hs. unfold inv_cipher, cipher.
  assert (H0 : state (w 0%nat)) by (apply Hw; lia). assert (Hn : state (w nr)) by by apply Hw.
  assert (Hl : Forall (fun i => i <= nr)%nat (seq 1 (nr - 1))) by by apply seq_le.
  assert (Hf := state_rounds _ _ Hl (state_add_round_key _ _ Hs H0)).
  rewrite add_round_key_undo by auto with aes. rewrite inv_rounds_rounds by auto with aes.
  rewrite inv_shift_rows_shift, inv_sub_bytes_sub by auto with aes. by apply add_round_key_undo.
Qed.

(** The key of round [i] of the equivalent inverse cipher (section 5.3.5). *)
Definition inv_key (i : nat) : list Z :=
  if (i =? 0)%nat || (i =? nr)%nat then w (nr - i) else inv_mix_columns (w (nr - i)).

Definition eq_inv_round (s : list Z) (i : nat) : list Z :=
  add_round_key (inv_mix_columns (inv_sub_bytes (inv_shift_rows s))) (inv_key i).

Lemma state_inv_key i : (i <= nr)%nat -> state (inv_key i).
Proof. intros Hi. unfold inv_key. assert (Hs : state (w (nr - i))) by (apply Hw; lia). destruct (_ || _); auto with aes. Qed.

Lemma rev_seq_1 n : rev (seq 1 n) = map (fun i => S n - i)%nat (seq 1 n).
Proof.
  induction n as [|n IH]; [done|]. rewrite seq_S at 1. rewrite rev_unit, IH. cbn [seq map]. f_equal.
  rewrite <-(seq_shift n 1), map_map. apply map_ext. done.
Qed.

Lemma state_eq_inv_round s i : (i <= nr)%nat -> state s -> state (eq_inv_round s i).
Proof. intros Hi Hs. unfold eq_inv_round. auto using state_inv_key with aes. Qed.

Lemma eq_inv_rounds l s : Forall (fun i => 1 <= i < nr)%nat l -> state s ->
  fold_left eq_inv_round l s = fold_left (inv_round w) (map (fun i => nr - i)%nat l) s.
Proof.
  intros Hl. revert s. induction Hl as [|i l Hi _ IH]; intros s Hs; [done|]. cbn [fold_left map].
  rewrite IH by (apply state_eq_inv_round; [lia|done]). f_equal. unfold eq_inv_round, inv_round, inv_key.
  assert (Hk : state (w (nr - i))) by (apply Hw; lia).
  rewrite (proj2 (Nat.eqb_neq i 0)), (proj2 (Nat.eqb_neq i nr)) by lia. cbn [orb]. symmetry. apply inv_mix_columns_add; auto with aes.
Qed.

Lemma eq_inv_cipher s : (1 <= nr)%nat -> state s ->
  add_round_key (inv_sub_bytes (inv_shift_rows (fold_left eq_inv_round (seq 1 (nr - 1)) (add_round_key s (w nr))))) (w 0%nat) = inv_cipher nr w s.
Proof.
  intros H1 Hs. assert (Hn : state (w nr)) by by apply Hw. unfold inv_cipher. rewrite eq_inv_rounds; [|apply Forall_forall|by auto with aes].
  - rewrite rev_seq_1. do 4 f_equal. apply map_ext. intros. lia.
  - intros i Hi%list_elem_of_In%in_seq. lia.
Qed.
End Cipher.

(** ** Encryption and decryption with a key schedule *)

(** A schedule of the round keys [w]. *)
Record sched (nr : nat) (w : nat -> list Z) (k : rijndael_key) : Prop := {
  sc_Nr : Nr k = Z.of_nat nr;
  sc_rounds : exists m, nr = (2 * S m)%nat /\ (m <= 7)%nat;
  sc_w : forall i, (i <= nr)%nat -> state (w i);
  sc_eK : forall i, (i <= nr)%nat -> load_rk (4 * Z.of_nat i) (eK k) = Ok (quad_of (w i), eK k);
  sc_dK : forall i, (i <= nr)%nat -> load_rk (4 * Z.of_nat i) (dK k) = Ok (quad_of (inv_key nr w i), dK k)
}.

Lemma rd_state i arr v arr' : rd i arr = Ok (v, arr') -> arr' = arr.
Proof. unfold rd, bind, gets, id, ret, fault. destruct (zget arr i); [by intros [= _ <-]|done]. Qed.

Lemma load_rk_inv rk arr k0 k1 k2 k3 arr' : load_rk rk arr = Ok ((k0, k1, k2, k3), arr') ->
  rd rk arr = Ok (k0, arr) /\ rd (rk + 1) arr = Ok (k1, arr) /\ rd (rk + 2) arr = Ok (k2, arr) /\ rd (rk + 3) arr = Ok (k3, arr).
Proof.
  unfold load_rk. intros E. apply bind_inv in E as (? & ? & R0 & E). pose proof (rd_state _ _ _ _ R0); subst.
  apply bind_inv in E as (? & ? & R1 & E). pose proof (rd_state _ _ _ _ R1); subst.
  apply bind_inv in E as (? & ? & R2 & E). pose proof (rd_state _ _ _ _ R2); subst.
  apply bind_inv in E as (? & ? & R3 & E). pose proof (rd_state _ _ _ _ R3); subst. unfold ret in E. by simplify_eq.
Qed.

Lemma LOAD32H_ok {S} y off a b c d rest (s : S) : zdrop off y = a :: b :: c :: d :: rest -> LOAD32H y off s = Ok (load32h a b c d, s).
Proof. unfold LOAD32H. by intros ->. Qed.

Lemma load_block_ok arr pt k : state pt -> state k -> load_rk 0 arr = Ok (quad_of k, arr) ->
  load_block pt arr = Ok (quad_of (add_round_key pt k), arr).
Proof.
  intros Hp Hk E. explode Hp. explode Hk. cbn in E. apply load_rk_inv in E as (E0 & E1 & E2 & E3). unfold load_block.
  cbn in E0, E1, E2, E3.
  erewrite bind_ok by (eapply LOAD32H_ok; reflexivity). erewrite (bind_ok (rd 0)) by exact E0.
  erewrite bind_ok by (eapply LOAD32H_ok; reflexivity). erewrite (bind_ok (rd 1)) by exact E1.
  erewrite bind_ok by (eapply LOAD32H_ok; reflexivity). erewrite (bind_ok (rd 2)) by exact E2.
  erewrite bind_ok by (eapply LOAD32H_ok; reflexivity). erewrite (bind_ok (rd 3)) by exact E3.
  unfold ret. by rewrite !load32h_lxor by done.
Qed.

Lemma store_block_quad s : state s -> store_block (quad_of s) = s.
Proof. intros Hs. explode Hs. cbn -[store32h]. by rewrite !store32h_load32h by done. Qed.

Section Rounds.
Context (round : quad -> quad -> quad) (step : list Z -> list Z -> list Z) (q : nat -> list Z) (nr : nat) (arr : list Z).
Context (Hround : forall s k, state s -> state k -> round (quad_of s) (quad_of k) = quad_of (step s k))
  (Hstep : forall s k, state s -> state k -> state (step s k))
  (Hq : forall i, (i <= nr)%nat -> state (q i))
  (Harr : forall i, (i <= nr)%nat -> load_rk (4 * Z.of_nat i) arr = Ok (quad_of (q i), arr)).

Lemma full_rounds_ok m : forall n j s, (m <= n)%nat -> (j + 2 * S m = nr)%nat -> state s ->
  full_rounds round n (Z.of_nat (S m)) (4 * Z.of_nat j) (quad_of s) arr =
    Ok (quad_of (fold_left (fun s i => step s (q i)) (seq (j + 1) (2 * m + 1)) s), 4 * Z.of_nat nr, arr).
Proof.
  induction m as [|m IH]; intros n j s Hn Hj Hs.
  - assert (E1 : load_rk (4 * Z.of_nat j + 4) arr = Ok (quad_of (q (j + 1)%nat), arr)) by (rewrite <-Harr by lia; f_equal; lia).
    assert (E8 : 4 * Z.of_nat j + 8 = 4 * Z.of_nat nr) by lia.
    destruct n; cbn [full_rounds]; rewrite (bind_ok _ _ _ _ _ E1), E8, Hround by (done || apply Hq; lia); done.
  - destruct n as [|n]; [lia|]. cbn [full_rounds]. rewrite (bind_ok _ _ _ (quad_of (q (j + 1)%nat)) arr);
      [|rewrite <-Harr by lia; f_equal; lia].
    rewrite Hround by (done || apply Hq; lia). rewrite (proj2 (Z.eqb_neq _ 0)) by lia.
    rewrite (bind_ok _ _ _ (quad_of (q (j + 2)%nat)) arr); [|rewrite <-Harr by lia; f_equal; lia].
    assert (Hs1 : state (step s (q (j + 1)%nat))) by (apply Hstep; [done|apply Hq; lia]).
    rewrite Hround by (done || apply Hq; lia).
    replace (Z.of_nat (S (S m)) - 1) with (Z.of_nat (S m)) by lia. replace (4 * Z.of_nat j + 8) with (4 * Z.of_nat (j + 2)) by lia.
    rewrite IH; [|lia|lia|apply Hstep; [done|apply Hq; lia]].
    replace (2 * S m + 1)%nat with (S (S (2 * m + 1))) by lia. cbn [seq fold_left].
    by replace (S (S (j + 1))) with (j + 2 + 1)%nat by lia; replace (S (j + 1)) with (j + 2)%nat by lia.
Qed.
End Rounds.

Lemma half_rounds nr m : nr = (2 * S m)%nat -> Z.shiftr (Z.of_nat nr) 1 = Z.of_nat (S m).
Proof. intros ->. rewrite Z.shiftr_div_pow2 by lia. Z.div_mod_to_equations. lia. Qed.

Lemma set_eK_same k : set_eK (eK k) k = k. Proof. by destruct k. Qed.
Lemma set_dK_same k : set_dK (dK k) k = k. Proof. by destruct k. Qed.

Section Sched.
Context (nr : nat) (w : nat -> list Z) (k : rijndael_key) (Hk : sched nr w k).

Lemma rijndael_ecb_encrypt_ok pt : state pt -> rijndael_ecb_encrypt pt k = Ok (cipher nr w pt, k).
Proof.
  intros Hp. destruct Hk as [Enr (m & Em & Hm) Hw HeK _]. unfold rijndael_ecb_encrypt. rewrite (bind_ok _ _ k (Nr k) k eq_refl).
  unfold on_eK. rewrite <-(set_eK_same k) at 2. apply zoom_ok.
  assert (H0 : state (w 0%nat)) by (apply Hw; lia). pose proof (state_add_round_key pt _ Hp H0) as Hs.
  rewrite (bind_ok _ _ _ _ _ (load_block_ok _ pt _ Hp H0 (HeK 0%nat ltac:(lia)))).
  rewrite Enr, (half_rounds nr m Em).
  pose proof (full_rounds_ok (enc_words Te) (fun s q => add_round_key (mix_columns (shift_rows (sub_bytes s))) q) w nr (eK k)
    enc_round_ok
    (fun s q Hs Hq => state_add_round_key _ _ (state_mix_columns _ (state_shift_rows _ (state_sub_bytes _ Hs))) Hq) Hw HeK m 7 0 _ Hm ltac:(lia) Hs) as Ef.
  change (4 * Z.of_nat 0) with 0 in Ef. cbv beta in Ef.
  change (fun s i => add_round_key (mix_columns (shift_rows (sub_bytes s))) (w i)) with (round w) in Ef.
  rewrite (bind_ok _ _ _ _ _ Ef). rewrite (bind_ok _ _ _ _ _ (HeK nr ltac:(lia))).
  assert (Hl : Forall (fun i => i <= nr)%nat (seq 1 (2 * m + 1))) by (apply (seq_le nr); lia).
  assert (Hf := state_rounds nr w Hw _ _ Hl Hs). assert (Hn : state (w nr)) by (apply Hw; lia). change (0 + 1)%nat with 1%nat.
  unfold ret. rewrite enc_last_ok, store_block_quad by auto with aes.
  unfold cipher. by replace (nr - 1)%nat with (2 * m + 1)%nat by lia.
Qed.

Lemma rijndael_ecb_decrypt_ok ct : state ct -> rijndael_ecb_decrypt ct k = Ok (inv_cipher nr w ct, k).
Proof.
  intros Hc. destruct Hk as [Enr (m & Em & Hm) Hw _ HdK]. unfold rijndael_ecb_decrypt. rewrite (bind_ok _ _ k (Nr k) k eq_refl).
  unfold on_dK. rewrite <-(set_dK_same k) at 2. apply zoom_ok.
  assert (Hn : state (w nr)) by (apply Hw; lia). pose proof (state_add_round_key ct _ Hc Hn) as Hs.
  assert (E0 : inv_key nr w 0 = w nr) by (unfold inv_key; cbn; f_equal; lia).
  assert (En : inv_key nr w nr = w 0%nat) by (unfold inv_key; rewrite Nat.eqb_refl, orb_true_r; f_equal; lia).
  pose proof (HdK 0%nat ltac:(lia)) as Ed. rewrite E0 in Ed.
  rewrite (bind_ok _ _ _ _ _ (load_block_ok _ ct _ Hc Hn Ed)).
  rewrite Enr, (half_rounds nr m Em).
  pose proof (full_rounds_ok (dec_words Td) (fun s q => add_round_key (inv_mix_columns (inv_sub_bytes (inv_shift_rows s))) q) (inv_key nr w) nr
    (dK k) dec_round_ok
    (fun s q Hs Hq => state_add_round_key _ _ (state_inv_mix_columns _ (state_inv_sub_bytes _ (state_inv_shift_rows _ Hs))) Hq) (state_inv_key nr w Hw) HdK m 7 0 _ Hm ltac:(lia) Hs) as Ef.
  change (4 * Z.of_nat 0) with 0 in Ef. cbv beta in Ef.
  change (fun s i => add_round_key (inv_mix_columns (inv_sub_bytes (inv_shift_rows s))) (inv_key nr w i)) with (eq_inv_round nr w) in Ef.
  rewrite (bind_ok _ _ _ _ _ Ef).
  pose proof (HdK nr ltac:(lia)) as Ed2. rewrite En in Ed2. rewrite (bind_ok _ _ _ _ _ Ed2). change (0 + 1)%nat with 1%nat.
  assert (Hf : state (fold_left (eq_inv_round nr w) (seq 1 (2 * m + 1)) (add_round_key ct (w nr)))).
  { assert (Hl : Forall (fun i => i <= nr)%nat (seq 1 (2 * m + 1))) by (apply (seq_le nr); lia). clear -Hl Hs Hw. revert Hs.
    generalize (add_round_key ct (w nr)). induction Hl as [|i l Hi _ IH]; intros s Hs; [done|]. by apply IH, state_eq_inv_round. }
  assert (H0 : state (w 0%nat)) by (apply Hw; lia). unfold ret.
  rewrite dec_last_ok, store_block_quad by auto with aes.
  rewrite <-(eq_inv_cipher nr w Hw) by (done || lia). by replace (nr - 1)%nat with (2 * m + 1)%nat by lia.
Qed.
End Sched.
