(* ===== verification/AesKey.v ===== *)
(** The key schedules of libtomcrypt's AES: rijndael_setup computes the key
    expansion of FIPS 197 and the keys of the equivalent inverse cipher, so AES
    is an instance of the block ciphers of Cipher.v. *)

From S2P Require Import Prelude Dbutil MdHash Cipher AesTab Aes AesFips.
Import Fips.

Local Open Scope Z_scope.
Local Open Scope prog_scope.

Opaque sbox inv_sbox gmul load32h.

(** ** Words of the key *)

Definition word4 (l : list Z) : Prop := length l = 4%nat /\ bytes l.

(** Split a word into its bytes. *)
Ltac open_word H :=
  let Hl := fresh in let Hb := fresh in
  destruct H as [Hl Hb];
  lazymatch type of Hl with length ?s = _ => do 4 (destruct s as [|? s]; [discriminate Hl|]); destruct s; [|discriminate Hl] end;
  clear Hl; repeat (apply Forall_cons in Hb as [? Hb]); clear Hb.
Ltac open_bytes H := let Hb := fresh in destruct H as [_ Hb]; repeat (apply Forall_cons in Hb as [? Hb]); clear Hb.
Ltac word_of_bytes := split; [reflexivity|]; repeat (apply Forall_cons_2; [byte_side|]); apply Forall_nil_2.

Lemma word4_xor a b : word4 a -> word4 b -> word4 (zip_with Z.lxor a b).
Proof. intros Ha Hb. open_word Ha. open_word Hb. word_of_bytes. Qed.
Lemma word4_sub a : word4 a -> word4 (sub_word a).
Proof. intros Ha. open_word Ha. word_of_bytes. Qed.
Lemma word4_rot a : word4 a -> word4 (rot_word a).
Proof. intros Ha. open_word Ha. word_of_bytes. Qed.
#[export] Hint Resolve word4_xor word4_sub word4_rot : aes.

Lemma word_of_xor a b : word4 a -> word4 b -> word_of (zip_with Z.lxor a b) = Z.lxor (word_of a) (word_of b).
Proof. intros Ha Hb. open_word Ha. open_word Hb. cbn. by rewrite load32h_lxor by done. Qed.

Lemma setup_mix_ok l : word4 l -> setup_mix (word_of l) = word_of (sub_word (rot_word l)).
Proof.
  intros Hl. open_word Hl. cbn. unfold setup_mix.
  match goal with |- context [load32h ?a ?b ?c ?d] => destruct (byte_load32h a b c d) as (-> & -> & -> & ->); [done..|];
    destruct (Te4_ok b) as (-> & _); [done|]; destruct (Te4_ok c) as (_ & -> & _); [done|];
    destruct (Te4_ok d) as (_ & _ & -> & _); [done|]; destruct (Te4_ok a) as (_ & _ & _ & ->); [done|] end.
  rewrite !load32h_lxor by byte_side. by rewrite ?Z.lxor_0_l, ?Z.lxor_0_r.
Qed.

Lemma setup_mix2_ok a b c d : word4 [a; b; c; d] -> setup_mix2 (load32h a b c d) = word_of (inv_mix_column a b c d).
Proof.
  intros Hl. open_bytes Hl. unfold setup_mix2.
  destruct (byte_load32h a b c d) as (-> & -> & -> & ->); [done..|].
  destruct (Tks_ok a) as (-> & _); [done|]. destruct (Tks_ok b) as (_ & -> & _); [done|].
  destruct (Tks_ok c) as (_ & _ & -> & _); [done|]. destruct (Tks_ok d) as (_ & _ & _ & ->); [done|].
  by rewrite !load32h_lxor by byte_side.
Qed.

Lemma RORc_ok a b c d : word4 [a; b; c; d] -> RORc (load32h a b c d) 8 = load32h d a b c.
Proof.
  intros Hl. open_bytes Hl. rewrite !load32h_val by done. unfold RORc, is_byte in *.
  set (x := a * 2 ^ 24 + b * 2 ^ 16 + c * 2 ^ 8 + d). assert (Hx : 0 <= x < 2 ^ 32) by lia.
  change (Z.land 8 31) with 8. change 0xFFFFFFFF with (Z.ones 32). rewrite !Z.land_ones by lia.
  rewrite (Z.mod_small x) by lia. rewrite Z.lor_comm, Z.shiftr_div_pow2 by lia. change (32 - 8) with 24.
  rewrite lor_add_shift; [|lia|]; subst x; Z.div_mod_to_equations; lia.
Qed.

Lemma rcon_ok i : 0 <= i < 10 -> zget rcon i = Some (word_of (rcon_word (Z.to_nat i + 1))) /\ word4 (rcon_word (Z.to_nat i + 1)).
Proof.
  intros Hi. assert (Hn : (Z.to_nat i < 10)%nat) by lia. rewrite <-(Z2Nat.id i) at 1 by lia. revert Hn. generalize (Z.to_nat i). clear.
  intros n Hn. do 10 (destruct n as [|n]; [split; [vm_compute; reflexivity|split; [reflexivity|apply (bool_decide_eq_true_1 _); vm_compute; reflexivity]]|]). lia.
Qed.

(** ** The expansion *)

(** The array starts with the words [w]. *)
Definition key_words (w : list (list Z)) (arr : list Z) : Prop :=
  Forall word4 w /\ zlen arr = 60 /\ exists rest, arr = map word_of w ++ rest.

Lemma key_words_nth w arr i : key_words w arr -> (i < length w)%nat -> word4 (nth i w []).
Proof. intros (Hw & _) Hi. rewrite Forall_forall in Hw. apply Hw, list_elem_of_In. by apply nth_In. Qed.

Lemma rd_word w arr i z : key_words w arr -> (i < length w)%nat -> z = Z.of_nat i -> rd z arr = Ok (word_of (nth i w []), arr).
Proof.
  intros (_ & _ & rest & ->) Hi ->. unfold rd, bind, gets, id. unfold zget. rewrite Zle_imp_le_bool, Nat2Z.id by lia.
  rewrite lookup_app_l by (by rewrite length_map). rewrite list_lookup_fmap.
  destruct (nth_lookup_or_length w i []) as [->|]; [done|lia].
Qed.

Lemma wr_word w arr v z : key_words w arr -> word4 v -> (length w < 60)%nat -> z = Z.of_nat (length w) ->
  exists arr', wr z (word_of v) arr = Ok (tt, arr') /\ key_words (w ++ [v]) arr'.
Proof.
  intros (Hw & Hl & rest & ->) Hv Hlt ->. destruct rest as [|x rest].
  - rewrite app_nil_r in Hl. unfold zlen in Hl. rewrite length_map in Hl. lia.
  - assert (Ez : Z.of_nat (length w) = zlen (map word_of w)) by (unfold zlen; by rewrite length_map).
    exists (map word_of w ++ word_of v :: rest). unfold wr, bind, gets, id, modify. rewrite Ez, zget_mid, zset_mid.
    split; [done|]. split; [apply Forall_app; split; [done|by apply Forall_cons_2]|]. split; [by rewrite zlen_app, zlen_cons in *|].
    exists rest. by rewrite map_app, <-app_assoc.
Qed.

Lemma last_nth (w : list (list Z)) : w <> [] -> List.last w [] = nth (length w - 1) w [].
Proof.
  intros Hw. destruct w as [|x w] using rev_ind; [done|]. rewrite last_last, length_app, app_nth2 by (cbn; lia).
  cbn. by replace (length w + 1 - 1 - length w)%nat with 0%nat by lia.
Qed.

Lemma expand_add nk n m w : expand nk (n + m) w = expand nk m (expand nk n w).
Proof. revert w. induction n as [|n IH]; intros w; [done|]. cbn [Nat.add expand]. by rewrite IH. Qed.

Lemma length_expand nk n w : length (expand nk n w) = (length w + n)%nat.
Proof. revert w. induction n as [|n IH]; intros w; cbn [expand]; [lia|]. rewrite IH, length_app. cbn. lia. Qed.

Section Expand.
Context (nk : nat) (Hnk : (0 < nk)%nat).

Lemma next_plain w q c : length w = (nk * q + c)%nat -> (0 < c < nk)%nat -> (6 < nk -> c <> 4)%nat ->
  next_word nk w = zip_with Z.lxor (nth (length w - nk) w []) (List.last w []).
Proof.
  intros El Hc H4. unfold next_word. assert (Em : (length w mod nk = c)%nat) by (rewrite El; symmetry; apply (Nat.mod_unique _ _ q); lia).
  rewrite Em. destruct (Nat.eqb_spec c 0); [lia|]. destruct (Nat.ltb_spec 6 nk), (Nat.eqb_spec c 4); cbn; try done. tauto.
Qed.

Lemma next_rcon w q : length w = (nk * q)%nat ->
  next_word nk w = zip_with Z.lxor (nth (length w - nk) w []) (zip_with Z.lxor (sub_word (rot_word (List.last w []))) (rcon_word q)).
Proof.
  intros El. unfold next_word. assert (Em : (length w mod nk = 0)%nat) by (rewrite El, Nat.mul_comm; apply Nat.Div0.mod_mul).
  rewrite Em. cbn. rewrite El at 2. by rewrite Nat.mul_comm, Nat.div_mul by lia.
Qed.

Lemma next_sub w q : (6 < nk)%nat -> length w = (nk * q + 4)%nat ->
  next_word nk w = zip_with Z.lxor (nth (length w - nk) w []) (sub_word (List.last w [])).
Proof.
  intros H6 El. unfold next_word. assert (Em : (length w mod nk = 4)%nat) by (rewrite El; symmetry; apply (Nat.mod_unique _ _ q); lia).
  rewrite Em, (proj2 (Nat.ltb_lt 6 nk) H6). done.
Qed.

(** One more word of the expansion. *)
Definition extends (w : list (list Z)) (m : prog (list Z) unit) (arr : list Z) : Prop :=
  exists arr', m arr = Ok (tt, arr') /\ key_words (w ++ [next_word nk w]) arr'.

Lemma xor_words_next w arr q c dst a b : key_words w arr -> length w = (nk * q + c)%nat -> (0 < c < nk)%nat -> (6 < nk -> c <> 4)%nat ->
  (nk <= length w < 60)%nat -> dst = Z.of_nat (length w) -> a = dst - Z.of_nat nk -> b = dst - 1 -> extends w (xor_words dst a b) arr.
Proof.
  intros Hw El Hc H4 Hl -> -> ->. unfold extends. rewrite (next_plain w q c El Hc H4), last_nth by (intros ->; cbn in *; lia).
  unfold xor_words. rewrite (bind_ok _ _ _ _ _ (rd_word w arr (length w - nk) (Z.of_nat (length w) - Z.of_nat nk) Hw ltac:(lia) ltac:(lia))).
  rewrite (bind_ok _ _ _ _ _ (rd_word w arr (length w - 1) (Z.of_nat (length w) - 1) Hw ltac:(lia) ltac:(lia))).
  pose proof (key_words_nth w arr (length w - nk) Hw ltac:(lia)). pose proof (key_words_nth w arr (length w - 1) Hw ltac:(lia)).
  rewrite <-word_of_xor by done. apply wr_word; auto with aes lia.
Qed.

Lemma mix_rcon_next w arr q dst a temp i : key_words w arr -> length w = (nk * q)%nat -> (nk <= length w < 60)%nat ->
  dst = Z.of_nat (length w) -> a = dst - Z.of_nat nk -> temp = word_of (nth (length w - 1) w []) -> i = Z.of_nat q - 1 -> 0 <= i < 10 ->
  extends w (mix_rcon dst a temp i) arr.
Proof.
  intros Hw El Hl -> -> -> -> Hi. unfold extends. rewrite (next_rcon w q El), last_nth by (intros ->; cbn in *; lia).
  unfold mix_rcon. rewrite (bind_ok _ _ _ _ _ (rd_word w arr (length w - nk) (Z.of_nat (length w) - Z.of_nat nk) Hw ltac:(lia) ltac:(lia))).
  destruct (rcon_ok _ Hi) as [-> Hr]. replace (Z.to_nat (Z.of_nat q - 1) + 1)%nat with q in * by lia.
  pose proof (key_words_nth w arr (length w - nk) Hw ltac:(lia)). pose proof (key_words_nth w arr (length w - 1) Hw ltac:(lia)).
  rewrite setup_mix_ok by done. rewrite Z.lxor_assoc, <-!word_of_xor by auto with aes. apply wr_word; auto with aes lia.
Qed.

Lemma extends_bind w m arr : extends w m arr ->
  exists arr', (forall B (k : prog (list Z) B), (m ;;; k) arr = k arr') /\ key_words (expand nk 1 w) arr'.
Proof. intros (arr' & E & Hw). exists arr'. split; [|done]. intros. by rewrite (bind_ok _ _ _ _ _ E). Qed.

(** Three words in a row without a special case. *)
Lemma xor_three w arr q c d0 a0 b0 d1 a1 b1 d2 a2 b2 :
  key_words w arr -> length w = (nk * q + c)%nat -> (0 < c)%nat -> (c + 2 < nk)%nat -> (6 < nk -> c + 2 < 4 \/ 4 < c)%nat ->
  (nk <= length w)%nat -> (length w + 3 <= 60)%nat ->
  d0 = Z.of_nat (length w) -> a0 = d0 - Z.of_nat nk -> b0 = d0 - 1 -> d1 = d0 + 1 -> a1 = a0 + 1 -> b1 = d0 -> d2 = d0 + 2 -> a2 = a0 + 2 -> b2 = d1 ->
  exists arr', (forall B (k : prog (list Z) B), (xor_words d0 a0 b0 ;;; xor_words d1 a1 b1 ;;; xor_words d2 a2 b2 ;;; k) arr = k arr') /\ key_words (expand nk 3 w) arr'.
Proof.
  intros Hw El Hc Hc2 H4 Hl Hr -> -> -> -> -> -> -> -> ->.
  set (d := Z.of_nat (length w)). set (a := d - Z.of_nat nk).
  destruct (extends_bind w (xor_words d a (d - 1)) arr) as (arr1 & E1 & Hw1); [apply (xor_words_next w arr q c); (done || lia)|].
  pose proof (length_expand nk 1 w) as L1.
  destruct (extends_bind (expand nk 1 w) (xor_words (d + 1) (a + 1) d) arr1) as (arr2 & E2 & Hw2);
    [apply (xor_words_next _ arr1 q (c + 1)); (done || lia)|].
  pose proof (length_expand nk 2 w) as L2.
  destruct (extends_bind (expand nk 2 w) (xor_words (d + 2) (a + 2) (d + 1)) arr2) as (arr3 & E3 & Hw3);
    [apply (xor_words_next _ arr2 q (c + 2)); (done || lia)|].
  exists arr3. split; [|done]. intros. by rewrite E1, E2, E3.
Qed.
End Expand.

Ltac side := done || lia.

(** The last word, read into [temp]. *)
Lemma rd_last {B} w arr z (k : Z -> prog (list Z) B) : key_words w arr -> (0 < length w)%nat -> z = Z.of_nat (length w) - 1 ->
  (temp <- rd z ;; k temp) arr = k (word_of (nth (length w - 1) w [])) arr.
Proof. intros Hw Hl ->. apply bind_ok. apply rd_word; [done|lia|lia]. Qed.

Lemma expand16_ok m : forall n i rk q w arr, (m <= n)%nat -> (q + m = 10)%nat -> (1 <= q)%nat -> key_words w arr -> length w = (4 * q)%nat ->
  i = Z.of_nat q - 1 -> rk = 4 * i ->
  exists arr', expand16 n i rk arr = Ok (tt, arr') /\ key_words (expand 4 (4 * S m) w) arr'.
Proof.
  induction m as [|m IH]; intros n i rk q w arr Hn Hq H1 Hw El Ei Erk.
  all: destruct n as [|n]; [try lia|]; cbn [expand16].
  all: rewrite (rd_last w) by side.
  all: destruct (extends_bind 4 w (mix_rcon (rk + 4) rk (word_of (nth (length w - 1) w [])) i) arr) as (arr1 & E1 & Hw1);
    [apply (mix_rcon_next 4 ltac:(lia) w arr q); side|]; rewrite E1.
  all: pose proof (length_expand 4 1 w) as L1.
  all: destruct (xor_three 4 ltac:(lia) (expand 4 1 w) arr1 q 1 (rk + 5) (rk + 1) (rk + 4) (rk + 6) (rk + 2) (rk + 5) (rk + 7) (rk + 3) (rk + 6))
    as (arr2 & E2 & Hw2); [side..|]; rewrite E2.
  all: rewrite <-expand_add in Hw2; cbn [Nat.add] in Hw2.
  - rewrite (proj2 (Z.eqb_eq _ 10)) by lia. by exists arr2.
  - rewrite (proj2 (Z.eqb_eq _ 10)) by lia. by exists arr2.
  - rewrite (proj2 (Z.eqb_neq _ 10)) by lia. replace (4 * S (S m))%nat with (4 + 4 * S m)%nat by lia. rewrite expand_add.
    apply (IH n _ _ (S q)); side || rewrite length_expand; lia.
Qed.

Lemma expand24_ok m : forall n i rk q w arr, (m <= n)%nat -> (q + m = 8)%nat -> (1 <= q)%nat -> key_words w arr -> length w = (6 * q)%nat ->
  i = Z.of_nat q - 1 -> rk = 6 * i ->
  exists arr', expand24 n i rk arr = Ok (tt, arr') /\ key_words (expand 6 (6 * m + 4) w) arr'.
Proof.
  induction m as [|m IH]; intros n i rk q w arr Hn Hq H1 Hw El Ei Erk.
  all: destruct n as [|n]; [try lia|]; cbn [expand24].
  all: rewrite (rd_last w) by side.
  all: destruct (extends_bind 6 w (mix_rcon (rk + 6) rk (word_of (nth (length w - 1) w [])) i) arr) as (arr1 & E1 & Hw1);
    [apply (mix_rcon_next 6 ltac:(lia) w arr q); side|]; rewrite E1.
  all: pose proof (length_expand 6 1 w) as L1.
  all: destruct (xor_three 6 ltac:(lia) (expand 6 1 w) arr1 q 1 (rk + 7) (rk + 1) (rk + 6) (rk + 8) (rk + 2) (rk + 7) (rk + 9) (rk + 3) (rk + 8))
    as (arr2 & E2 & Hw2); [side..|]; rewrite E2.
  all: rewrite <-expand_add in Hw2; cbn [Nat.add] in Hw2.
  - rewrite (proj2 (Z.eqb_eq _ 8)) by lia. by exists arr2.
  - rewrite (proj2 (Z.eqb_eq _ 8)) by lia. by exists arr2.
  - rewrite (proj2 (Z.eqb_neq _ 8)) by lia. pose proof (length_expand 6 4 w) as L4.
    destruct (extends_bind 6 (expand 6 4 w) (xor_words (rk + 10) (rk + 4) (rk + 9)) arr2) as (arr3 & E3 & Hw3);
      [apply (xor_words_next 6 ltac:(lia) _ arr2 q 4); side|]; rewrite E3.
    rewrite <-expand_add in Hw3; cbn [Nat.add] in Hw3. pose proof (length_expand 6 5 w) as L5.
    destruct (extends_bind 6 (expand 6 5 w) (xor_words (rk + 11) (rk + 5) (rk + 10)) arr3) as (arr4 & E4 & Hw4);
      [apply (xor_words_next 6 ltac:(lia) _ arr3 q 5); side|]; rewrite E4.
    rewrite <-expand_add in Hw4; cbn [Nat.add] in Hw4. replace (6 * S m + 4)%nat with (6 + (6 * m + 4))%nat by lia. rewrite expand_add.
    apply (IH n _ _ (S q)); side || rewrite length_expand; lia.
Qed.

(** The word in the middle of an expansion for 32 bytes. *)
Lemma middle_next w arr q dst a temp : key_words w arr -> length w = (8 * q + 4)%nat -> (8 <= length w < 60)%nat ->
  dst = Z.of_nat (length w) -> a = dst - 8 -> temp = word_of (nth (length w - 1) w []) ->
  extends 8 w (x <- rd a ;; wr dst (Z.lxor x (setup_mix (RORc temp 8)))) arr.
Proof.
  intros Hw El Hl -> -> ->. unfold extends. rewrite (next_sub 8 ltac:(lia) w q) by lia. rewrite last_nth by (intros ->; cbn in *; lia).
  rewrite (bind_ok _ _ _ _ _ (rd_word w arr (length w - 8) (Z.of_nat (length w) - 8) Hw ltac:(lia) ltac:(lia))).
  pose proof (key_words_nth w arr (length w - 8) Hw ltac:(lia)) as H8. pose proof (key_words_nth w arr (length w - 1) Hw ltac:(lia)) as H1.
  assert (E : setup_mix (RORc (word_of (nth (length w - 1) w [])) 8) = word_of (sub_word (nth (length w - 1) w []))).
  { revert H1. generalize (nth (length w - 1) w []). intros l Hl1. open_word Hl1. cbn [word_of]. rewrite RORc_ok by word_of_bytes.
    match goal with |- setup_mix (load32h ?a ?b ?c ?d) = _ => change (load32h a b c d) with (word_of [a; b; c; d]) end.
    by rewrite setup_mix_ok by word_of_bytes. }
  rewrite E, <-word_of_xor by auto with aes. apply wr_word; auto with aes lia.
Qed.

Lemma expand32_ok m : forall n i rk q w arr, (m <= n)%nat -> (q + m = 7)%nat -> (1 <= q)%nat -> key_words w arr -> length w = (8 * q)%nat ->
  i = Z.of_nat q - 1 -> rk = 8 * i ->
  exists arr', expand32 n i rk arr = Ok (tt, arr') /\ key_words (expand 8 (8 * m + 4) w) arr'.
Proof.
  induction m as [|m IH]; intros n i rk q w arr Hn Hq H1 Hw El Ei Erk.
  all: destruct n as [|n]; [try lia|]; cbn [expand32].
  all: rewrite (rd_last w) by side.
  all: destruct (extends_bind 8 w (mix_rcon (rk + 8) rk (word_of (nth (length w - 1) w [])) i) arr) as (arr1 & E1 & Hw1);
    [apply (mix_rcon_next 8 ltac:(lia) w arr q); side|]; rewrite E1.
  all: pose proof (length_expand 8 1 w) as L1.
  all: destruct (xor_three 8 ltac:(lia) (expand 8 1 w) arr1 q 1 (rk + 9) (rk + 1) (rk + 8) (rk + 10) (rk + 2) (rk + 9) (rk + 11) (rk + 3) (rk + 10))
    as (arr2 & E2 & Hw2); [side..|]; rewrite E2.
  all: rewrite <-expand_add in Hw2; cbn [Nat.add] in Hw2.
  - rewrite (proj2 (Z.eqb_eq _ 7)) by lia. by exists arr2.
  - rewrite (proj2 (Z.eqb_eq _ 7)) by lia. by exists arr2.
  - rewrite (proj2 (Z.eqb_neq _ 7)) by lia. pose proof (length_expand 8 4 w) as L4. rewrite (rd_last (expand 8 4 w)) by side.
    destruct (middle_next (expand 8 4 w) arr2 q (rk + 12) (rk + 4) (word_of (nth (length (expand 8 4 w) - 1) (expand 8 4 w) [])))
      as (arr3 & E3 & Hw3); [side..|].
    apply bind_inv in E3 as (x & arrx & Ex & E3). rewrite (bind_ok _ _ _ _ _ Ex), (bind_ok _ _ _ _ _ E3).
    change (expand 8 4 w ++ [next_word 8 (expand 8 4 w)]) with (expand 8 1 (expand 8 4 w)) in Hw3.
    rewrite <-expand_add in Hw3; cbn [Nat.add] in Hw3. pose proof (length_expand 8 5 w) as L5.
    destruct (xor_three 8 ltac:(lia) (expand 8 5 w) arr3 q 5 (rk + 13) (rk + 5) (rk + 12) (rk + 14) (rk + 6) (rk + 13) (rk + 15) (rk + 7) (rk + 14))
      as (arr4 & E4 & Hw4); [side..|]; rewrite E4.
    rewrite <-expand_add in Hw4; cbn [Nat.add] in Hw4. replace (8 * S m + 4)%nat with (8 + (8 * m + 4))%nat by lia. rewrite expand_add.
    apply (IH n _ _ (S q)); side || rewrite length_expand; lia.
Qed.

(** ** The words of the key itself *)

Lemma words_length n key : length (words n key) = n.
Proof. revert key. induction n as [|n IH]; intros key; [done|]. cbn [words length]. by rewrite IH. Qed.

Lemma load_words_from n : forall j w key arr, bytes key -> length key = (4 * (j + n))%nat -> (j + n < 60)%nat -> key_words w arr -> length w = j ->
  exists arr', fold_right (fun i m => v <- LOAD32H key (4 * Z.of_nat i) ;; wr (Z.of_nat i) v ;;; m) (ret tt) (seq j n) arr = Ok (tt, arr') /\
    key_words (w ++ words n (drop (4 * j) key)) arr'.
Proof.
  induction n as [|n IH]; intros j w key arr Hb Hl Hj Hw El; [exists arr; by rewrite app_nil_r|].
  cbn [seq fold_right words]. assert (Hd : length (drop (4 * j) key) = (4 * S n)%nat) by (rewrite length_drop; lia).
  assert (Hbd : bytes (drop (4 * j) key)) by by apply Forall_drop.
  assert (Ez : zdrop (4 * Z.of_nat j) key = drop (4 * j) key) by (unfold zdrop; f_equal; lia).
  destruct (drop (4 * j) key) as [|a [|b [|c [|d rest]]]] eqn:Ed; cbn in Hd; try lia.
  rewrite (bind_ok _ _ _ _ _ (LOAD32H_ok key _ a b c d rest arr Ez)).
  assert (H4 : word4 [a; b; c; d]).
  { split; [done|]. repeat (apply Forall_cons in Hbd as [? Hbd]). repeat (apply Forall_cons_2; [done|]). apply Forall_nil_2. }
  destruct (wr_word w arr [a; b; c; d] (Z.of_nat j) Hw H4) as (arr1 & E1 & Hw1); [lia|by rewrite El|]. cbn [word_of] in E1.
  rewrite (bind_ok _ _ _ _ _ E1).
  destruct (IH (S j) (w ++ [[a; b; c; d]]) key arr1) as (arr2 & E2 & Hw2); [done|lia|lia|done|rewrite length_app; cbn; lia|].
  exists arr2. split; [exact E2|]. replace (4 * S j)%nat with (4 * j + 4)%nat in Hw2 by lia.
  rewrite <-drop_drop, Ed, <-app_assoc in Hw2. exact Hw2.
Qed.

Lemma load_words_ok n key arr : bytes key -> length key = (4 * n)%nat -> (n < 60)%nat -> zlen arr = 60 ->
  exists arr', load_words key n arr = Ok (tt, arr') /\ key_words (words n key) arr'.
Proof.
  intros Hb Hl Hn Ha. destruct (load_words_from n 0 [] key arr) as (arr' & E & Hw); [done|lia|lia| |done|].
  - split; [constructor|]. split; [done|]. by exists arr.
  - exists arr'. split; [exact E|exact Hw].
Qed.

(** The schedule loop chosen by the key's length. *)
Lemma schedule_loop_ok nk key arr : nk = 4%nat \/ nk = 6%nat \/ nk = 8%nat -> bytes key -> zlen key = 4 * Z.of_nat nk -> zlen arr = 60 ->
  exists arr', (if zlen key =? 16 then load_words key 4 ;;; expand16 10 0 0 ;;; ret 44
      else if zlen key =? 24 then load_words key 6 ;;; expand24 8 0 0 ;;; ret 52
      else load_words key 8 ;;; expand32 7 0 0 ;;; ret 60) arr = Ok (4 * (Z.of_nat nk + 7), arr') /\ key_words (key_expansion nk key) arr'.
Proof.
  intros Hnk Hb Hl Ha. assert (Hl' : length key = (4 * nk)%nat) by (unfold zlen in Hl; lia).
  destruct (load_words_ok nk key arr Hb Hl' ltac:(lia) Ha) as (arr1 & E1 & Hw1). pose proof (words_length nk key) as L. rewrite Hl.
  destruct Hnk as [->|[->| ->]].
  - change (4 * Z.of_nat 4 =? 16) with true. cbv iota. rewrite (bind_ok _ _ _ _ _ E1). destruct (expand16_ok 9 10 0 0 1 (words 4 key) arr1) as (arr2 & E2 & Hw2); [side..|]. exists arr2. by rewrite (bind_ok _ _ _ _ _ E2).
  - change (4 * Z.of_nat 6 =? 16) with false. change (4 * Z.of_nat 6 =? 24) with true. cbv iota. rewrite (bind_ok _ _ _ _ _ E1).
    destruct (expand24_ok 7 8 0 0 1 (words 6 key) arr1) as (arr2 & E2 & Hw2); [side..|]. exists arr2. by rewrite (bind_ok _ _ _ _ _ E2).
  - change (4 * Z.of_nat 8 =? 16) with false. change (4 * Z.of_nat 8 =? 24) with false. cbv iota. rewrite (bind_ok _ _ _ _ _ E1).
    destruct (expand32_ok 6 7 0 0 1 (words 8 key) arr1) as (arr2 & E2 & Hw2); [side..|]. exists arr2. by rewrite (bind_ok _ _ _ _ _ E2).
Qed.

(** ** Round keys *)

Lemma take_4_nth {A} (l : list A) n x : (n + 4 <= length l)%nat ->
  take 4 (drop n l) = [nth n l x; nth (n + 1) l x; nth (n + 2) l x; nth (n + 3) l x].
Proof.
  revert l. induction n as [|n IH]; intros l Hl.
  - do 4 (destruct l as [|? l]; [cbn in Hl; lia|]). done.
  - destruct l as [|y l]; [cbn in Hl; lia|]. cbn in Hl. cbn [drop Nat.add nth]. apply IH. lia.
Qed.

Lemma quad_of_words a b c d : word4 a -> word4 b -> word4 c -> word4 d ->
  quad_of (concat [a; b; c; d]) = (word_of a, word_of b, word_of c, word_of d) /\ state (concat [a; b; c; d]).
Proof.
  intros Ha Hb Hc Hd. open_word Ha. open_word Hb. open_word Hc. open_word Hd. split; [done|]. split; [done|].
  cbn. repeat (apply Forall_cons_2; [done|]). apply Forall_nil_2.
Qed.

Lemma load_rk_words w arr i : key_words w arr -> (4 * i + 4 <= length w)%nat ->
  load_rk (4 * Z.of_nat i) arr = Ok (quad_of (round_key w i), arr) /\ state (round_key w i).
Proof.
  intros Hw Hi. unfold round_key. rewrite (take_4_nth w _ []) by done.
  destruct (quad_of_words (nth (4 * i) w []) (nth (4 * i + 1) w []) (nth (4 * i + 2) w []) (nth (4 * i + 3) w [])) as [-> Hs];
    [apply (key_words_nth w arr); (done || lia)..|]. split; [|exact Hs].
  unfold load_rk. rewrite (bind_ok _ _ _ _ _ (rd_word w arr (4 * i) (4 * Z.of_nat i) Hw ltac:(lia) ltac:(lia))).
  rewrite (bind_ok _ _ _ _ _ (rd_word w arr (4 * i + 1) (4 * Z.of_nat i + 1) Hw ltac:(lia) ltac:(lia))).
  rewrite (bind_ok _ _ _ _ _ (rd_word w arr (4 * i + 2) (4 * Z.of_nat i + 2) Hw ltac:(lia) ltac:(lia))).
  by rewrite (bind_ok _ _ _ _ _ (rd_word w arr (4 * i + 3) (4 * Z.of_nat i + 3) Hw ltac:(lia) ltac:(lia))).
Qed.

(** ** The inverse key *)

Definition quad_list (q : quad) : list Z := let '(a, b, c, d) := q in [a; b; c; d].
Definition map_quad (f : Z -> Z) (q : quad) : quad := let '(a, b, c, d) := q in (f a, f b, f c, f d).

Lemma wr_at pre x rest v z : z = zlen pre -> wr z v (pre ++ x :: rest) = Ok (tt, pre ++ v :: rest).
Proof. intros ->. unfold wr, bind, gets, id, modify. by rewrite zget_mid, zset_mid. Qed.

Lemma on_eK_rd z v e d n : rd z e = Ok (v, e) -> on_eK (rd z) (mkrijndael e d n) = Ok (v, mkrijndael e d n).
Proof. intros E. exact (zoom_ok eK set_eK (rd z) (mkrijndael e d n) v e E). Qed.

Lemma copy_words_ok f rk rrk e n q pre a b c d rest : load_rk rrk e = Ok (q, e) -> zlen pre = rk ->
  copy_words f rk rrk (mkrijndael e (pre ++ a :: b :: c :: d :: rest) n) =
    Ok (tt, mkrijndael e (pre ++ quad_list (map_quad f q) ++ rest) n).
Proof.
  intros E Hrk. destruct q as [[[q0 q1] q2] q3]. apply load_rk_inv in E as (E0 & E1 & E2 & E3). unfold copy_words. cbn [quad_list map_quad app].
  assert (Hw : forall z (v x : Z) pr re, z = zlen pr -> on_dK (wr z v) (mkrijndael e (pr ++ x :: re) n) = Ok (tt, mkrijndael e (pr ++ v :: re) n)).
  { intros z v x pr re Hz. exact (zoom_ok dK set_dK (wr z v) (mkrijndael e (pr ++ x :: re) n) tt _ (wr_at pr x re v z Hz)). }
  rewrite (bind_ok _ _ _ _ _ (on_eK_rd rrk q0 e _ n E0)), (bind_ok _ _ _ _ _ (Hw rk (f q0) a pre _ (eq_sym Hrk))).
  rewrite (bind_ok _ _ _ _ _ (on_eK_rd (rrk + 1) q1 e _ n E1)).
  replace (pre ++ f q0 :: b :: c :: d :: rest) with ((pre ++ [f q0]) ++ b :: c :: d :: rest) by by rewrite <-app_assoc.
  rewrite (bind_ok _ _ _ _ _ (Hw (rk + 1) (f q1) b (pre ++ [f q0]) (c :: d :: rest) ltac:(zlia))).
  rewrite (bind_ok _ _ _ _ _ (on_eK_rd (rrk + 2) q2 e _ n E2)).
  replace ((pre ++ [f q0]) ++ f q1 :: c :: d :: rest) with ((pre ++ [f q0; f q1]) ++ c :: d :: rest) by by rewrite <-!app_assoc.
  rewrite (bind_ok _ _ _ _ _ (Hw (rk + 2) (f q2) c (pre ++ [f q0; f q1]) (d :: rest) ltac:(zlia))).
  rewrite (bind_ok _ _ _ _ _ (on_eK_rd (rrk + 3) q3 e _ n E3)).
  replace ((pre ++ [f q0; f q1]) ++ f q2 :: d :: rest) with ((pre ++ [f q0; f q1; f q2]) ++ d :: rest) by by rewrite <-!app_assoc.
  rewrite (Hw (rk + 3) (f q3) d (pre ++ [f q0; f q1; f q2]) rest ltac:(zlia)). by rewrite <-app_assoc.
Qed.

Lemma map_setup_mix2 s : state s -> map_quad setup_mix2 (quad_of s) = quad_of (inv_mix_columns s).
Proof. intros Hs. explode Hs. cbn -[setup_mix2]. by rewrite !setup_mix2_ok by word_of_bytes. Qed.

Lemma load_rk_at pre q rest rk : rk = zlen pre -> load_rk rk (pre ++ quad_list q ++ rest) = Ok (q, pre ++ quad_list q ++ rest).
Proof.
  intros ->. destruct q as [[[a b] c] d]. cbn [quad_list app].
  assert (Hr : forall z (l1 : list Z) x l2, z = zlen l1 -> rd z (l1 ++ x :: l2) = Ok (x, l1 ++ x :: l2)).
  { intros z l1 x l2 ->. unfold rd, bind, gets, id. by rewrite zget_mid. }
  assert (Hrd : rd (zlen pre) (pre ++ a :: b :: c :: d :: rest) = Ok (a, pre ++ a :: b :: c :: d :: rest) /\
    rd (zlen pre + 1) (pre ++ a :: b :: c :: d :: rest) = Ok (b, pre ++ a :: b :: c :: d :: rest) /\
    rd (zlen pre + 2) (pre ++ a :: b :: c :: d :: rest) = Ok (c, pre ++ a :: b :: c :: d :: rest) /\
    rd (zlen pre + 3) (pre ++ a :: b :: c :: d :: rest) = Ok (d, pre ++ a :: b :: c :: d :: rest)).
  { split; [by apply Hr|]. split; [|split].
    - pose proof (Hr (zlen pre + 1) (pre ++ [a]) b (c :: d :: rest) ltac:(zlia)) as E. by rewrite <-app_assoc in E.
    - pose proof (Hr (zlen pre + 2) (pre ++ [a; b]) c (d :: rest) ltac:(zlia)) as E. by rewrite <-app_assoc in E.
    - pose proof (Hr (zlen pre + 3) (pre ++ [a; b; c]) d rest ltac:(zlia)) as E. by rewrite <-app_assoc in E. }
  destruct Hrd as (R0 & R1 & R2 & R3). unfold load_rk. rewrite (bind_ok _ _ _ _ _ R0), (bind_ok _ _ _ _ _ R1), (bind_ok _ _ _ _ _ R2).
  by rewrite (bind_ok _ _ _ _ _ R3).
Qed.

Section Invert.
Context (nr : nat) (w : nat -> list Z) (e : list Z).
Context (Hnr : (2 <= nr <= 14)%nat) (Hw : forall i, (i <= nr)%nat -> state (w i))
  (He : forall i, (i <= nr)%nat -> load_rk (4 * Z.of_nat i) e = Ok (quad_of (w i), e)).

(** The first [i] keys of the inverse schedule. *)
Definition dprefix (i : nat) : list Z := concat (map (fun j => quad_list (quad_of (inv_key nr w j))) (seq 0 i)).

Lemma dprefix_S i : dprefix (S i) = dprefix i ++ quad_list (quad_of (inv_key nr w i)).
Proof. unfold dprefix. by rewrite seq_S, map_app, concat_app. Qed.

Lemma zlen_dprefix i : zlen (dprefix i) = 4 * Z.of_nat i.
Proof. induction i as [|i IH]; [done|]. rewrite dprefix_S, zlen_app, IH. cbn [quad_list]. unfold quad_of. cbn [quad_list]. zlia. Qed.

(** Writing the next key. *)
Lemma copy_key f i rk rrk d : (i <= nr)%nat -> zlen d = 60 -> (exists rest, d = dprefix i ++ rest) ->
  rk = 4 * Z.of_nat i -> rrk = 4 * Z.of_nat (nr - i) -> map_quad f (quad_of (w (nr - i))) = quad_of (inv_key nr w i) ->
  exists d', copy_words f rk rrk (mkrijndael e d (Z.of_nat nr)) = Ok (tt, mkrijndael e d' (Z.of_nat nr)) /\ zlen d' = 60 /\
    exists rest, d' = dprefix (S i) ++ rest.
Proof.
  intros Hi Hd (rest & ->) -> -> Hf. rewrite zlen_app, zlen_dprefix in Hd.
  destruct rest as [|x0 [|x1 [|x2 [|x3 rest]]]]; try (rewrite ?zlen_cons, zlen_nil in Hd; lia).
  eexists. split; [apply copy_words_ok; [apply He; lia|apply zlen_dprefix]|]. rewrite Hf. split.
  - rewrite !zlen_app, zlen_dprefix. unfold quad_of. cbn [quad_list]. rewrite !zlen_cons, zlen_nil in *. lia.
  - exists rest. by rewrite dprefix_S, <-app_assoc.
Qed.

Lemma map_quad_id q : map_quad id q = q.
Proof. by destruct q as [[[? ?] ?] ?]. Qed.

Lemma invert_keys_ok m : forall n i d, (m <= n)%nat -> (i + m = nr)%nat -> (1 <= i)%nat -> zlen d = 60 -> (exists rest, d = dprefix i ++ rest) ->
  exists d', invert_keys n (Z.of_nat i) (4 * (Z.of_nat i - 1)) (4 * (Z.of_nat (nr - i) + 1)) (mkrijndael e d (Z.of_nat nr)) =
    Ok ((4 * (Z.of_nat nr - 1), 4), mkrijndael e d' (Z.of_nat nr)) /\ zlen d' = 60 /\ exists rest, d' = dprefix nr ++ rest.
Proof.
  induction m as [|m IH]; intros n i d Hn Hi H1 Hd Hp.
  - assert (i = nr) as -> by lia. exists d. split; [|done]. assert (E : (Z.of_nat nr <? Z.of_nat nr) = false) by lia.
    replace (nr - nr)%nat with 0%nat by lia. destruct n; cbn [invert_keys]; unfold bind at 1, gets; cbn [Nr]; by rewrite E.
  - destruct n as [|n]; [lia|]. cbn [invert_keys]. unfold bind at 1, gets. cbn [Nr]. rewrite (proj2 (Z.ltb_lt _ _)) by lia.
    destruct (copy_key setup_mix2 i (4 * (Z.of_nat i - 1) + 4) (4 * (Z.of_nat (nr - i) + 1) - 4) d) as (d1 & E1 & Hd1 & Hp1); [lia|done|done|lia|lia| |].
    { rewrite map_setup_mix2 by (apply Hw; lia). unfold inv_key.
      by rewrite (proj2 (Nat.eqb_neq i 0)), (proj2 (Nat.eqb_neq i nr)) by lia. }
    rewrite (bind_ok _ _ _ _ _ E1). destruct (IH n (S i) d1) as (d2 & E2 & Hd2); [lia|lia|lia|done|done|].
    exists d2. split; [|exact Hd2]. rewrite <-E2. f_equal; lia.
Qed.

(** The whole of the second half of rijndael_setup. *)
Lemma inverse_schedule_ok d : zlen d = 60 ->
  exists d', (copy_words id 0 (4 * Z.of_nat nr) ;;; x <- invert_keys 14 1 0 (4 * Z.of_nat nr) ;;
      let '(rk, rrk) := x in copy_words id (rk + 4) (rrk - 4) ;;; ret CRYPT_OK) (mkrijndael e d (Z.of_nat nr)) =
    Ok (CRYPT_OK, mkrijndael e d' (Z.of_nat nr)) /\
    forall i, (i <= nr)%nat -> load_rk (4 * Z.of_nat i) d' = Ok (quad_of (inv_key nr w i), d').
Proof.
  intros Hd.
  destruct (copy_key id 0 0 (4 * Z.of_nat nr) d) as (d1 & E1 & Hd1 & Hp1); [lia|done|by exists d|lia|lia|by rewrite map_quad_id|].
  rewrite (bind_ok _ _ _ _ _ E1).
  destruct (invert_keys_ok (nr - 1) 14 1 d1) as (d2 & E2 & Hd2 & Hp2); [lia|lia|lia|done|done|].
  assert (E2' : invert_keys 14 1 0 (4 * Z.of_nat nr) (mkrijndael e d1 (Z.of_nat nr)) =
    Ok ((4 * (Z.of_nat nr - 1), 4), mkrijndael e d2 (Z.of_nat nr))) by (rewrite <-E2; f_equal; lia).
  rewrite (bind_ok _ _ _ _ _ E2').
  destruct (copy_key id nr (4 * (Z.of_nat nr - 1) + 4) (4 - 4) d2) as (d3 & E3 & Hd3 & rest & ->); [lia|done|done|lia|lia| |].
  { rewrite map_quad_id. unfold inv_key. by rewrite Nat.eqb_refl, orb_true_r. }
  rewrite (bind_ok _ _ _ _ _ E3). eexists. split; [done|]. intros i Hi.
  assert (Es : dprefix (S nr) ++ rest = dprefix i ++ quad_list (quad_of (inv_key nr w i)) ++
    concat (map (fun j => quad_list (quad_of (inv_key nr w j))) (seq (S i) (nr - i))) ++ rest).
  { unfold dprefix. replace (S nr) with (i + S (nr - i))%nat by lia. rewrite seq_app, map_app, concat_app. cbn [seq map concat Nat.add].
    by rewrite <-!app_assoc. }
  rewrite Es. apply load_rk_at. by rewrite zlen_dprefix.
Qed.
End Invert.

(** ** rijndael_setup *)

Lemma rijndael_setup_ok nk key k : nk = 4%nat \/ nk = 6%nat \/ nk = 8%nat -> bytes key -> zlen key = 4 * Z.of_nat nk ->
  zlen (eK k) = 60 -> zlen (dK k) = 60 ->
  exists k', rijndael_setup key (zlen key) 0 k = Ok (CRYPT_OK, k') /\ sched (nk + 6) (round_key (key_expansion nk key)) k'.
Proof.
  intros Hnk Hb Hl He Hd. unfold rijndael_setup.
  assert (Hg : negb (zlen key =? 16) && negb (zlen key =? 24) && negb (zlen key =? 32) = false) by (rewrite Hl; by destruct Hnk as [->|[->| ->]]).
  assert (En : 10 + (zlen key / 8 - 2) * 2 = Z.of_nat (nk + 6)) by (rewrite Hl; by destruct Hnk as [->|[->| ->]]).
  rewrite Hg. cbn [negb andb Z.eqb]. rewrite En. set (k1 := set_Nr (Z.of_nat (nk + 6)) k).
  rewrite (bind_ok (modify (set_Nr (Z.of_nat (nk + 6)))) _ k tt k1 eq_refl).
  destruct (schedule_loop_ok nk key (eK k) Hnk Hb Hl He) as (e & Ee & Hw). change (eK k) with (eK k1) in Ee.
  rewrite (bind_ok _ _ _ _ _ (zoom_ok eK set_eK _ k1 _ _ Ee)). change (set_eK e k1) with (mkrijndael e (dK k) (Z.of_nat (nk + 6))).
  assert (Hlen : length (key_expansion nk key) = (4 * (nk + 7))%nat).
  { unfold key_expansion. rewrite length_expand, words_length. destruct Hnk as [->|[->| ->]]; lia. }
  set (w := round_key (key_expansion nk key)).
  assert (Hrk : forall i, (i <= nk + 6)%nat -> load_rk (4 * Z.of_nat i) e = Ok (quad_of (w i), e) /\ state (w i)).
  { intros i Hi. apply load_rk_words; [done|lia]. }
  replace (4 * (Z.of_nat nk + 7) - 4) with (4 * Z.of_nat (nk + 6)) by lia.
  destruct (inverse_schedule_ok (nk + 6) w e ltac:(lia) (fun i Hi => proj2 (Hrk i Hi)) (fun i Hi => proj1 (Hrk i Hi)) (dK k) Hd) as (d' & E & Hd').
  exists (mkrijndael e d' (Z.of_nat (nk + 6))). split; [exact E|]. split; [done| |intros i Hi; by apply Hrk|intros i Hi; by apply Hrk|exact Hd'].
  clear -Hnk. exists (Nat.div2 nk + 2)%nat. destruct Hnk as [->|[->| ->]]; cbn; lia.
Qed.

Lemma rijndael_setup_size key r k : zlen key <> 16 -> zlen key <> 24 -> zlen key <> 32 -> rijndael_setup key (zlen key) r k = Ok (CRYPT_INVALID_KEYSIZE, k).
Proof. intros H1 H2 H3. unfold rijndael_setup. by rewrite !(proj2 (Z.eqb_neq (zlen key) _)) by done. Qed.

(** ** AES keeps the promises of a block cipher *)

#[export] Program Instance aes_laws : BlockCipherLaws rijndael_key := { key_ok k := exists nr w, sched nr w k }.
Next Obligation. by vm_compute. Qed.
Next Obligation.
  intros key k Hb E. cbn [setup aes_cipher] in E.
  assert (Hok : forall nk, nk = 4%nat \/ nk = 6%nat \/ nk = 8%nat -> zlen key = 4 * Z.of_nat nk -> exists nr w, sched nr w k).
  { intros nk Hnk Hl. destruct (rijndael_setup_ok nk key fresh_key Hnk Hb Hl eq_refl eq_refl) as (k' & Ek & Hs). rewrite Ek in E.
    injection E as ->. by eexists _, _. }
  destruct (Z.eq_dec (zlen key) 16); [by apply (Hok 4%nat); [left|lia]|]. destruct (Z.eq_dec (zlen key) 24); [by apply (Hok 6%nat); [right; left|lia]|].
  destruct (Z.eq_dec (zlen key) 32); [by apply (Hok 8%nat); [right; right|lia]|]. by rewrite rijndael_setup_size in E.
Qed.
Next Obligation.
  intros k b (nr & w & Hs) Hl Hb. assert (Hst : state b) by (split; [cbn in Hl; unfold zlen in Hl; lia|done]).
  assert (H1 : (1 <= nr)%nat) by (destruct (sc_rounds _ _ _ Hs) as (m & -> & _); lia). pose proof (sc_w _ _ _ Hs) as Hw.
  pose proof (state_cipher nr w Hw b H1 Hst) as Hc. exists (cipher nr w b). cbn [ecb_encrypt ecb_decrypt aes_cipher].
  rewrite (rijndael_ecb_encrypt_ok nr w k Hs b Hst), (rijndael_ecb_decrypt_ok nr w k Hs _ Hc), (inv_cipher_cipher nr w Hw b H1 Hst).
  destruct Hc as [Hlen Hbytes]. split_and!; [done|unfold zlen; by rewrite Hlen|done|done].
Qed.

(** The test vectors of rijndael_test. *)
Example aes_vectors :
  let pt := map (fun i => 17 * i) (seqZ 0 16) in
  map (fun n => k ← setup (K := rijndael_key) (seqZ 0 n); c ← ecb_encrypt k pt; p ← ecb_decrypt k c; Some (c, bool_decide (p = pt))) [16; 24; 32; 20] =
  [Some ([0x69; 0xc4; 0xe0; 0xd8; 0x6a; 0x7b; 0x04; 0x30; 0xd8; 0xcd; 0xb7; 0x80; 0x70; 0xb4; 0xc5; 0x5a], true);
   Some ([0xdd; 0xa9; 0x7c; 0xa4; 0x86; 0x4c; 0xdf; 0xe0; 0x6e; 0xaf; 0x70; 0xa0; 0xec; 0x0d; 0x71; 0x91], true);
   Some ([0x8e; 0xa2; 0xb7; 0xca; 0x51; 0x67; 0x45; 0xbf; 0xea; 0xfc; 0x49; 0x90; 0x4b; 0x49; 0x60; 0x89], true); None].
Proof. vm_compute. reflexivity. Qed.

(** ** Properties *)

(** C26: AES is the cipher of FIPS 197.  For every key of 16, 24 or 32 bytes,
    whatever the key structure held before, rijndael_setup succeeds, and with
    the schedule it leaves, rijndael_ecb_encrypt is the standard's cipher
    with its key expansion, computed with the tables, rijndael_ecb_decrypt is
    the standard's inverse cipher, computed in the form of the equivalent
    inverse cipher with a transformed key schedule, and decryption undoes
    encryption.  No table, key array or block is accessed out of bounds.
    Keys of other lengths are refused and the structure is left alone. *)
Theorem aes_is_fips197 (key : list Z) (k : rijndael_key) : bytes key -> zlen (eK k) = 60 -> zlen (dK k) = 60 ->
  (forall nk, nk = 4%nat \/ nk = 6%nat \/ nk = 8%nat -> zlen key = 4 * Z.of_nat nk ->
     exists k', rijndael_setup key (zlen key) 0 k = Ok (CRYPT_OK, k') /\
       forall b, bytes b -> zlen b = 16 ->
         rijndael_ecb_encrypt b k' = Ok (aes nk key b, k') /\ rijndael_ecb_decrypt b k' = Ok (aes_inv nk key b, k') /\
         aes_inv nk key (aes nk key b) = b) /\
  (zlen key <> 16 -> zlen key <> 24 -> zlen key <> 32 -> rijndael_setup key (zlen key) 0 k = Ok (CRYPT_INVALID_KEYSIZE, k)).
Proof.
  intros Hb He Hd. split; [|apply rijndael_setup_size]. intros nk Hnk Hl.
  destruct (rijndael_setup_ok nk key k Hnk Hb Hl He Hd) as (k' & E & Hs). exists k'. split; [done|]. intros b Hbb Hbl.
  assert (Hst : state b) by (split; [unfold zlen in Hbl; lia|done]).
  split; [by apply rijndael_ecb_encrypt_ok|]. split; [by apply rijndael_ecb_decrypt_ok|].
  apply inv_cipher_cipher; [exact (sc_w _ _ _ Hs)|lia|done].
Qed.

Lemma aes_is_fips197_witness :
  (forall nk, nk = 4%nat \/ nk = 6%nat \/ nk = 8%nat -> zlen (seqZ 0 16) = 4 * Z.of_nat nk ->
     exists k', rijndael_setup (seqZ 0 16) (zlen (seqZ 0 16)) 0 fresh_key = Ok (CRYPT_OK, k') /\
       forall b, bytes b -> zlen b = 16 ->
         rijndael_ecb_encrypt b k' = Ok (aes nk (seqZ 0 16) b, k') /\ rijndael_ecb_decrypt b k' = Ok (aes_inv nk (seqZ 0 16) b, k') /\
         aes_inv nk (seqZ 0 16) (aes nk (seqZ 0 16) b) = b) /\
  (zlen (seqZ 0 16) <> 16 -> zlen (seqZ 0 16) <> 24 -> zlen (seqZ 0 16) <> 32 ->
     rijndael_setup (seqZ 0 16) (zlen (seqZ 0 16)) 0 fresh_key = Ok (CRYPT_INVALID_KEYSIZE, fresh_key)).
Proof. apply (aes_is_fips197 (seqZ 0 16) fresh_key); [apply (bool_decide_eq_true_1 _); vm_compute; reflexivity|reflexivity|reflexivity]. Defined.
