(* ===== verification/Sha1.v ===== *)
(** SHA-1 of libtomcrypt (sha1.c): the compression function as it is unrolled
    and in the variant for small code, the operations on the state, and their
    equality with the definition of FIPS 180. *)

From S2P Require Import Prelude MdHash.

Local Open Scope Z_scope.

Module Sha1.

Definition F0 (x y z : Z) : Z := Z.lxor z (Z.land x (Z.lxor y z)).
Definition F1 (x y z : Z) : Z := Z.lxor (Z.lxor x y) z.
Definition F2 (x y z : Z) : Z := Z.lor (Z.land x y) (Z.land z (Z.lor x y)).
Definition F3 (x y z : Z) : Z := Z.lxor (Z.lxor x y) z.

(** The words a, b, c, d, e. *)
Definition regs : Type := Z * Z * Z * Z * Z.

(** The macros FF0 to FF3, as the new values of [e] and [b]. *)
Definition FF (F : Z -> Z -> Z -> Z) (K : Z) (W : list Z) (a b c d e i : Z) : Z * Z :=
  (u32 (ROL a 5 + F b c d + e + znth W i + K), ROL b 30).

Definition load_block (buf : list Z) : list Z :=
  map (fun i => load32h (znth buf (4 * i)) (znth buf (4 * i + 1)) (znth buf (4 * i + 2)) (znth buf (4 * i + 3))) (seqZ 0 16).

(** [for (i = 16; i < 80; i++) W[i] = ...], where [i] is the length of [W]. *)
Fixpoint expand (n : nat) (W : list Z) : list Z :=
  match n with
  | O => W
  | S n =>
      let i := zlen W in
      expand n (W ++ [ROL (Z.lxor (Z.lxor (Z.lxor (znth W (i - 3)) (znth W (i - 8))) (znth W (i - 14))) (znth W (i - 16))) 1])
  end.

(** A loop [for (; i < limit; )] over five rounds, and its number. *)
Fixpoint rounds (F : Z -> Z -> Z -> Z) (K : Z) (W : list Z) (n : nat) (limit i : Z) (r : regs) : Z * regs :=
  if i <? limit then
    match n with
    | O => (i, r)
    | S n =>
        let '(a, b, c, d, e) := r in
        let '(e, b) := FF F K W a b c d e i in
        let '(d, a) := FF F K W e a b c d (i + 1) in
        let '(c, e) := FF F K W d e a b c (i + 2) in
        let '(b, d) := FF F K W c d e a b (i + 3) in
        let '(a, c) := FF F K W b c d e a (i + 4) in
        rounds F K W n limit (i + 5) (a, b, c, d, e)
    end
  else (i, r).

(** The loop of LTC_SMALL_CODE. *)
Fixpoint small_rounds (F : Z -> Z -> Z -> Z) (K : Z) (W : list Z) (n : nat) (limit i : Z) (r : regs) : Z * regs :=
  if i <? limit then
    match n with
    | O => (i, r)
    | S n =>
        let '(a, b, c, d, e) := r in
        let '(e, b) := FF F K W a b c d e i in
        let i := i + 1 in
        let t := e in let e := d in let d := c in let c := b in let b := a in let a := t in
        small_rounds F K W n limit i (a, b, c, d, e)
    end
  else (i, r).

(** What the four loops are applied to. *)
Section Compress.
Context (loop : (Z -> Z -> Z -> Z) -> Z -> list Z -> nat -> Z -> Z -> regs -> Z * regs).

Definition four_loops (W : list Z) (r : regs) : regs :=
  let '(i, r) := loop F0 0x5a827999 W 20 20 0 r in
  let '(i, r) := loop F1 0x6ed9eba1 W 20 40 i r in
  let '(i, r) := loop F2 0x8f1bbcdc W 20 60 i r in
  let '(_, r) := loop F3 0xca62c1d6 W 20 80 i r in
  r.

Definition compress_with (state buf : list Z) : list Z :=
  let W := expand 64 (load_block buf) in
  match state with
  | [s0; s1; s2; s3; s4] =>
      let '(a, b, c, d, e) := four_loops W (s0, s1, s2, s3, s4) in
      [u32 (s0 + a); u32 (s1 + b); u32 (s2 + c); u32 (s3 + d); u32 (s4 + e)]
  | _ => state
  end.
End Compress.

Definition sha1_compress : list Z -> list Z -> list Z := compress_with rounds.
Definition sha1_compress_small : list Z -> list Z -> list Z := compress_with small_rounds.

Definition sha1_state0 : list Z := [0x67452301; 0xefcdab89; 0x98badcfe; 0x10325476; 0xc3d2e1f0].

Definition sha1_digest (state : list Z) : list Z := concat (map store32h state).

Definition sha1_init (buf : list Z) : md_state := md_init sha1_state0 buf.
Definition sha1_process : md_state -> list Z -> option md_state := md_process sha1_compress.
Definition sha1_done : md_state -> option (list Z) := md_done sha1_compress STORE64H sha1_digest.

(** ** FIPS 180 *)

Definition Ch (x y z : Z) : Z := Z.lxor (Z.land x y) (Z.land (Z.lnot x) z).
Definition Parity (x y z : Z) : Z := Z.lxor (Z.lxor x y) z.
Definition Maj (x y z : Z) : Z := Z.lxor (Z.lxor (Z.land x y) (Z.land x z)) (Z.land y z).

Definition fips_f (t : Z) : Z -> Z -> Z -> Z :=
  if t <? 20 then Ch else if t <? 40 then Parity else if t <? 60 then Maj else Parity.
Definition fips_K (t : Z) : Z :=
  if t <? 20 then 0x5a827999 else if t <? 40 then 0x6ed9eba1 else if t <? 60 then 0x8f1bbcdc else 0xca62c1d6.

(** Message schedule, extended by [n] words. *)
Fixpoint fips_schedule (n : nat) (W : list Z) : list Z :=
  match n with
  | O => W
  | S n =>
      let w k := znth W (zlen W - k) in
      fips_schedule n (W ++ [ROTL (Z.lxor (Z.lxor (Z.lxor (w 3) (w 8)) (w 14)) (w 16)) 1])
  end.

Definition fips_round (W : list Z) (r : regs) (t : Z) : regs :=
  let '(a, b, c, d, e) := r in
  let T := u32 (ROTL a 5 + fips_f t b c d + e + fips_K t + znth W t) in
  (T, a, ROTL b 30, c, d).

Definition fips_compress (H M : list Z) : list Z :=
  let W := fips_schedule 64 (load_block M) in
  match H with
  | [h0; h1; h2; h3; h4] =>
      let '(a, b, c, d, e) := foldl (fips_round W) (h0, h1, h2, h3, h4) (seqZ 0 80) in
      [u32 (a + h0); u32 (b + h1); u32 (c + h2); u32 (d + h3); u32 (e + h4)]
  | _ => H
  end.

(** The SHA-1 hash of a message. *)
Definition fips_sha1 (l : list Z) : list Z := md_hash fips_compress STORE64H sha1_digest sha1_state0 l.

(** ** The loops *)

Definition small_step (F : Z -> Z -> Z -> Z) (K : Z) (W : list Z) (r : regs) (i : Z) : regs :=
  let '(a, b, c, d, e) := r in (u32 (ROL a 5 + F b c d + e + znth W i + K), a, ROL b 30, c, d).

Lemma small_rounds_foldl F K W n m i r : (m <= n)%nat ->
  small_rounds F K W n (i + Z.of_nat m) i r = (i + Z.of_nat m, foldl (small_step F K W) r (seqZ i (Z.of_nat m))).
Proof.
  revert n i r. induction m as [|m IH]; intros n i r Hn.
  - assert (E : i + Z.of_nat 0 = i) by lia. rewrite E. destruct n; cbn [small_rounds]; by rewrite (proj2 (Z.ltb_ge i i)) by lia.
  - destruct n as [|n]; [lia|]. cbn [small_rounds]. rewrite (proj2 (Z.ltb_lt i _)) by lia.
    destruct r as [[[[a b] c] d] e]. cbv beta iota zeta delta [FF]. replace (i + Z.of_nat (S m)) with ((i + 1) + Z.of_nat m) by lia.
    rewrite IH by lia. rewrite (seqZ_cons i) by lia. replace (Z.pred (Z.of_nat (S m))) with (Z.of_nat m) by lia. done.
Qed.

Lemma seqZ_five i : seqZ i 5 = [i; i + 1; i + 2; i + 3; i + 4].
Proof. rewrite !seqZ_cons by lia. change (seqZ _ (Z.pred _)) with (@nil Z). rewrite <-!Z.add_1_r, <-!Z.add_assoc. done. Qed.

Lemma rounds_foldl F K W n m i r : (m <= n)%nat ->
  rounds F K W n (i + 5 * Z.of_nat m) i r = (i + 5 * Z.of_nat m, foldl (small_step F K W) r (seqZ i (5 * Z.of_nat m))).
Proof.
  revert n i r. induction m as [|m IH]; intros n i r Hn.
  - assert (E : i + 5 * Z.of_nat 0 = i) by lia. rewrite E. destruct n; cbn [rounds]; by rewrite (proj2 (Z.ltb_ge i i)) by lia.
  - destruct n as [|n]; [lia|]. cbn [rounds]. rewrite (proj2 (Z.ltb_lt i _)) by lia.
    destruct r as [[[[a b] c] d] e]. cbv beta iota zeta delta [FF]. replace (i + 5 * Z.of_nat (S m)) with ((i + 5) + 5 * Z.of_nat m) by lia.
    rewrite IH by lia. replace (5 * Z.of_nat (S m)) with (5 + 5 * Z.of_nat m) by lia.
    by rewrite (seqZ_app i 5), foldl_app, seqZ_five by lia.
Qed.

(** ** The compression function *)

(** Both variants: one fold over the steps 0 to 79. *)
Definition step (W : list Z) (r : regs) (i : Z) : regs :=
  if i <? 20 then small_step F0 0x5a827999 W r i
  else if i <? 40 then small_step F1 0x6ed9eba1 W r i
  else if i <? 60 then small_step F2 0x8f1bbcdc W r i
  else small_step F3 0xca62c1d6 W r i.

Lemma foldl_step W F K i r :
  (forall r j, i <= j < i + 20 -> step W r j = small_step F K W r j) ->
  foldl (small_step F K W) r (seqZ i 20) = foldl (step W) r (seqZ i 20).
Proof.
  intros Hs. assert (Hin : Forall (fun j => i <= j < i + 20) (seqZ i 20)) by (apply Forall_seqZ; lia).
  revert r. induction Hin as [|j l Hj _ IH]; intros r; [done|]. cbn. by rewrite Hs, IH.
Qed.

Lemma four_loops_step loop W r :
  (forall F K i r, loop F K W 20%nat (i + 20) i r = (i + 20, foldl (small_step F K W) r (seqZ i 20))) ->
  four_loops loop W r = foldl (step W) r (seqZ 0 80).
Proof.
  intros Hl. unfold four_loops.
  pose proof (Hl F0 0x5a827999 0) as E0. pose proof (Hl F1 0x6ed9eba1 20) as E1.
  pose proof (Hl F2 0x8f1bbcdc 40) as E2. pose proof (Hl F3 0xca62c1d6 60) as E3. cbn [Z.add Pos.add] in *.
  rewrite E0, E1, E2, E3. change 80 with (20 + (20 + (20 + 20))) at 1. rewrite !seqZ_app, !foldl_app by lia.
  cbn [Z.add Pos.add].
  rewrite !foldl_step; [done|..]; unfold step; intros r' j Hj;
    repeat match goal with |- context [j <? ?n] => destruct (Z.ltb_spec j n); [try lia|try lia] end; done.
Qed.

Lemma sha1_compress_steps W r : four_loops rounds W r = foldl (step W) r (seqZ 0 80).
Proof. apply four_loops_step. intros F K i r'. exact (rounds_foldl F K W 20 4 i r' ltac:(lia)). Qed.

Lemma sha1_small_steps W r : four_loops small_rounds W r = foldl (step W) r (seqZ 0 80).
Proof. apply four_loops_step. intros F K i r'. exact (small_rounds_foldl F K W 20 20 i r' ltac:(lia)). Qed.

Ltac bitwise := apply Z.bits_inj'; intros ? ?;
  rewrite ?Z.lxor_spec, ?Z.lor_spec, ?Z.land_spec, ?Z.lxor_spec, ?Z.lor_spec, ?Z.land_spec, ?Z.lnot_spec by lia;
  repeat match goal with |- context [Z.testbit ?x ?n] => destruct (Z.testbit x n) end; reflexivity.

Lemma F0_Ch x y z : F0 x y z = Ch x y z.
Proof. unfold F0, Ch. bitwise. Qed.
Lemma F2_Maj x y z : F2 x y z = Maj x y z.
Proof. unfold F2, Maj. bitwise. Qed.

Definition regs_u32 (r : regs) : Prop :=
  let '(a, b, c, d, e) := r in is_u32 a /\ is_u32 b /\ is_u32 c /\ is_u32 d /\ is_u32 e.

Lemma small_step_u32 F K W r i : regs_u32 r -> regs_u32 (small_step F K W r i).
Proof.
  destruct r as [[[[a b] c] d] e]. intros (Ha & Hb & Hc & Hd & He). cbn.
  split_and!; [apply u32_range|done|apply ROL_u32|done|done].
Qed.

Lemma small_step_fips F K W r i : regs_u32 r -> (forall x y z, F x y z = fips_f i x y z) -> K = fips_K i ->
  small_step F K W r i = fips_round W r i.
Proof.
  destruct r as [[[[a b] c] d] e]. intros (Ha & Hb & _) HF ->. cbn.
  rewrite HF, !ROL_ROTL by (done || lia). by rewrite Z.add_shuffle0.
Qed.

Lemma step_ok W r i : regs_u32 r -> regs_u32 (step W r i) /\ step W r i = fips_round W r i.
Proof.
  intros Hr. unfold step.
  destruct (i <? 20) eqn:E1; [|destruct (i <? 40) eqn:E2; [|destruct (i <? 60) eqn:E3]];
    (split; [by apply small_step_u32|]); apply small_step_fips; try done;
    unfold fips_f, fips_K; rewrite ?E1, ?E2, ?E3; try done; intros; [apply F0_Ch|apply F2_Maj].
Qed.

Lemma steps_ok W l r : regs_u32 r -> foldl (step W) r l = foldl (fips_round W) r l.
Proof.
  revert r. induction l as [|i l IH]; intros r Hr; [done|]. cbn. destruct (step_ok W r i Hr) as [Hr' <-]. by apply IH.
Qed.

Lemma load_block_u32 buf : Forall is_u32 (load_block buf).
Proof. apply Forall_map, Forall_true. intros i. apply load32h_u32. Qed.

Lemma expand_ok n W : Forall is_u32 W -> expand n W = fips_schedule n W.
Proof.
  revert W. induction n as [|n IH]; intros W HW; [done|]. cbn [expand fips_schedule]. cbv zeta.
  set (x := Z.lxor _ _). assert (Hx : is_u32 x) by (repeat apply lxor_u32; by apply znth_u32).
  rewrite <-(ROL_ROTL x) by (done || lia). apply IH.
  apply Forall_app. split; [done|]. repeat constructor; apply ROL_u32.
Qed.

Definition state_ok (w : list Z) : Prop := zlen w = 5 /\ Forall is_u32 w.

Lemma state_ok_inv w : state_ok w -> exists a b c d e, w = [a; b; c; d; e] /\ regs_u32 (a, b, c, d, e).
Proof.
  intros [Hl Hw]. unfold zlen in Hl. destruct w as [|a [|b [|c [|d [|e [|]]]]]]; try (cbn in Hl; lia).
  exists a, b, c, d, e. split; [done|]. rewrite !Forall_cons in Hw. cbn. tauto.
Qed.

Lemma sha1_compress_ok w b : state_ok w -> state_ok (sha1_compress w b) /\ sha1_compress w b = fips_compress w b.
Proof.
  intros Hw. apply state_ok_inv in Hw as (s0 & s1 & s2 & s3 & s4 & -> & Hr).
  unfold sha1_compress, compress_with, fips_compress. rewrite expand_ok by apply load_block_u32.
  rewrite sha1_compress_steps, steps_ok by done. destruct (foldl _ _ _) as [[[[a b'] c] d] e]. split.
  - split; [done|]. repeat (apply Forall_cons; split; [apply u32_range|]). constructor.
  - by rewrite (Z.add_comm s0), (Z.add_comm s1), (Z.add_comm s2), (Z.add_comm s3), (Z.add_comm s4).
Qed.

Lemma sha1_hash_fips l : md_hash sha1_compress STORE64H sha1_digest sha1_state0 l = fips_sha1 l.
Proof.
  apply md_hash_ext with (P := state_ok); [|by apply sha1_compress_ok].
  split; [done|]. repeat (apply Forall_cons; split; [by split|]). constructor.
Qed.

(** ** Properties *)

(** C27: sha1_init, any sequence of sha1_process calls and sha1_done succeed
    and compute the SHA-1 hash of FIPS 180 over the bytes of all calls, whatever
    the buffer of the state held before and however the calls cut the message;
    the message length is counted modulo 2^64 bits. *)
Theorem sha1_is_fips180 (buf : list Z) (ls : list (list Z)) : zlen buf = 64 ->
  exists md, md_feed sha1_compress (sha1_init buf) ls = Some md /\ sha1_done md = Some (fips_sha1 (concat ls)).
Proof.
  intros Hb. rewrite <-sha1_hash_fips. apply md_stream_ok; done.
Qed.

Lemma sha1_is_fips180_witness :
  exists md, md_feed sha1_compress (sha1_init (replicate 64 9)) [[97]; []; [98; 99]] = Some md /\
    sha1_done md = Some (fips_sha1 (concat [[97]; []; [98; 99]])).
Proof. apply (sha1_is_fips180 (replicate 64 9) [[97]; []; [98; 99]]). reflexivity. Defined.

(** The compression function as it is compiled, with five rounds in each
    pass of its loops and the registers renamed, and the one for small code,
    with one round in each pass and the registers moved, are equal on every
    state and every block. *)
Theorem sha1_small_code_equiv (state buf : list Z) : sha1_compress state buf = sha1_compress_small state buf.
Proof.
  unfold sha1_compress, sha1_compress_small, compress_with.
  destruct state as [|s0 [|s1 [|s2 [|s3 [|s4 [|? ?]]]]]]; [reflexivity..| |reflexivity].
  rewrite sha1_compress_steps, sha1_small_steps. reflexivity.
Qed.

(** The test vectors of sha1_test. *)
Example sha1_test_1 : fips_sha1 [97; 98; 99] =
  [0xa9; 0x99; 0x3e; 0x36; 0x47; 0x06; 0x81; 0x6a; 0xba; 0x3e; 0x25; 0x71; 0x78; 0x50; 0xc2; 0x6c; 0x9c; 0xd0; 0xd8; 0x9d].
Proof. vm_compute. reflexivity. Qed.

(** [abcdbcdecdefdefgefghfghighijhijkijkljklmklmnlmnomnopnopq] *)
Example sha1_test_2 : fips_sha1 (concat (map (fun i => seqZ i 4) (seqZ 97 14))) =
  [0x84; 0x98; 0x3E; 0x44; 0x1C; 0x3B; 0xD2; 0x6E; 0xBA; 0xAE; 0x4A; 0xA1; 0xF9; 0x51; 0x29; 0xE5; 0xE5; 0x46; 0x70; 0xF1].
Proof. vm_compute. reflexivity. Qed.
End Sha1.
