(* ===== verification/Md5.v ===== *)
(** MD5 of libtomcrypt (md5.c): the compression function as it is unrolled and
    in the variant for small code, the operations on the state, and their
    equality with the definition of RFC 1321. *)

From S2P Require Import Prelude MdHash.

Local Open Scope Z_scope.

Module Md5.

Definition not32 (x : Z) : Z := u32 (Z.lnot x).

Definition F (x y z : Z) : Z := Z.lxor z (Z.land x (Z.lxor y z)).
Definition G (x y z : Z) : Z := Z.lxor y (Z.land z (Z.lxor y x)).
Definition H (x y z : Z) : Z := Z.lxor (Z.lxor x y) z.
Definition I (x y z : Z) : Z := Z.lxor y (Z.lor x (not32 z)).

(** The macros FF, GG, HH, II, as the new value of [a]. *)
Definition FF (a b c d M s t : Z) : Z := let a := u32 (a + F b c d + M + t) in u32 (ROL a s + b).
Definition GG (a b c d M s t : Z) : Z := let a := u32 (a + G b c d + M + t) in u32 (ROL a s + b).
Definition HH (a b c d M s t : Z) : Z := let a := u32 (a + H b c d + M + t) in u32 (ROL a s + b).
Definition II (a b c d M s t : Z) : Z := let a := u32 (a + I b c d + M + t) in u32 (ROL a s + b).

Definition Worder : list Z := [
   0; 1; 2; 3; 4; 5; 6; 7;
   8; 9; 10; 11; 12; 13; 14; 15;
   1; 6; 11; 0; 5; 10; 15; 4;
   9; 14; 3; 8; 13; 2; 7; 12;
   5; 8; 11; 14; 1; 4; 7; 10;
   13; 0; 3; 6; 9; 12; 15; 2;
   0; 7; 14; 5; 12; 3; 10; 1;
   8; 15; 6; 13; 4; 11; 2; 9].
Definition Rorder : list Z := [
   7; 12; 17; 22; 7; 12; 17; 22;
   7; 12; 17; 22; 7; 12; 17; 22;
   5; 9; 14; 20; 5; 9; 14; 20;
   5; 9; 14; 20; 5; 9; 14; 20;
   4; 11; 16; 23; 4; 11; 16; 23;
   4; 11; 16; 23; 4; 11; 16; 23;
   6; 10; 15; 21; 6; 10; 15; 21;
   6; 10; 15; 21; 6; 10; 15; 21].
Definition Korder : list Z := [
   0xd76aa478; 0xe8c7b756; 0x242070db; 0xc1bdceee; 0xf57c0faf; 0x4787c62a; 0xa8304613; 0xfd469501;
   0x698098d8; 0x8b44f7af; 0xffff5bb1; 0x895cd7be; 0x6b901122; 0xfd987193; 0xa679438e; 0x49b40821;
   0xf61e2562; 0xc040b340; 0x265e5a51; 0xe9b6c7aa; 0xd62f105d; 0x02441453; 0xd8a1e681; 0xe7d3fbc8;
   0x21e1cde6; 0xc33707d6; 0xf4d50d87; 0x455a14ed; 0xa9e3e905; 0xfcefa3f8; 0x676f02d9; 0x8d2a4c8a;
   0xfffa3942; 0x8771f681; 0x6d9d6122; 0xfde5380c; 0xa4beea44; 0x4bdecfa9; 0xf6bb4b60; 0xbebfbc70;
   0x289b7ec6; 0xeaa127fa; 0xd4ef3085; 0x04881d05; 0xd9d4d039; 0xe6db99e5; 0x1fa27cf8; 0xc4ac5665;
   0xf4292244; 0x432aff97; 0xab9423a7; 0xfc93a039; 0x655b59c3; 0x8f0ccc92; 0xffeff47d; 0x85845dd1;
   0x6fa87e4f; 0xfe2ce6e0; 0xa3014314; 0x4e0811a1; 0xf7537e82; 0xbd3af235; 0x2ad7d2bb; 0xeb86d391].

(** The words a, b, c, d. *)
Definition regs : Type := Z * Z * Z * Z.

(** [LOAD32L] *)
Definition load_block (buf : list Z) : list Z :=
  map (fun i => load32h (znth buf (4 * i + 3)) (znth buf (4 * i + 2)) (znth buf (4 * i + 1)) (znth buf (4 * i))) (seqZ 0 16).

(** The order of the registers in a macro call; the first is assigned. *)
Inductive order := abcd | dabc | cdab | bcda.

Definition macro : Type := Z -> Z -> Z -> Z -> Z -> Z -> Z -> Z.

(** A macro call: the macro, its registers, the index of W, s and t. *)
Definition call : Type := macro * order * Z * Z * Z.

Definition exec (W : list Z) (r : regs) (i : call) : regs :=
  let '(a, b, c, d) := r in
  let '(f, o, w, s, t) := i in
  match o with
  | abcd => (f a b c d (znth W w) s t, b, c, d)
  | dabc => (a, b, c, f d a b c (znth W w) s t)
  | cdab => (a, b, f c d a b (znth W w) s t, d)
  | bcda => (a, f b c d a (znth W w) s t, c, d)
  end.

(** The calls of md5_compress, in their order. *)
Definition md5_calls : list call := [
   (FF, abcd, 0, 7, 0xd76aa478);
   (FF, dabc, 1, 12, 0xe8c7b756);
   (FF, cdab, 2, 17, 0x242070db);
   (FF, bcda, 3, 22, 0xc1bdceee);
   (FF, abcd, 4, 7, 0xf57c0faf);
   (FF, dabc, 5, 12, 0x4787c62a);
   (FF, cdab, 6, 17, 0xa8304613);
   (FF, bcda, 7, 22, 0xfd469501);
   (FF, abcd, 8, 7, 0x698098d8);
   (FF, dabc, 9, 12, 0x8b44f7af);
   (FF, cdab, 10, 17, 0xffff5bb1);
   (FF, bcda, 11, 22, 0x895cd7be);
   (FF, abcd, 12, 7, 0x6b901122);
   (FF, dabc, 13, 12, 0xfd987193);
   (FF, cdab, 14, 17, 0xa679438e);
   (FF, bcda, 15, 22, 0x49b40821);
   (GG, abcd, 1, 5, 0xf61e2562);
   (GG, dabc, 6, 9, 0xc040b340);
   (GG, cdab, 11, 14, 0x265e5a51);
   (GG, bcda, 0, 20, 0xe9b6c7aa);
   (GG, abcd, 5, 5, 0xd62f105d);
   (GG, dabc, 10, 9, 0x02441453);
   (GG, cdab, 15, 14, 0xd8a1e681);
   (GG, bcda, 4, 20, 0xe7d3fbc8);
   (GG, abcd, 9, 5, 0x21e1cde6);
   (GG, dabc, 14, 9, 0xc33707d6);
   (GG, cdab, 3, 14, 0xf4d50d87);
   (GG, bcda, 8, 20, 0x455a14ed);
   (GG, abcd, 13, 5, 0xa9e3e905);
   (GG, dabc, 2, 9, 0xfcefa3f8);
   (GG, cdab, 7, 14, 0x676f02d9);
   (GG, bcda, 12, 20, 0x8d2a4c8a);
   (HH, abcd, 5, 4, 0xfffa3942);
   (HH, dabc, 8, 11, 0x8771f681);
   (HH, cdab, 11, 16, 0x6d9d6122);
   (HH, bcda, 14, 23, 0xfde5380c);
   (HH, abcd, 1, 4, 0xa4beea44);
   (HH, dabc, 4, 11, 0x4bdecfa9);
   (HH, cdab, 7, 16, 0xf6bb4b60);
   (HH, bcda, 10, 23, 0xbebfbc70);
   (HH, abcd, 13, 4, 0x289b7ec6);
   (HH, dabc, 0, 11, 0xeaa127fa);
   (HH, cdab, 3, 16, 0xd4ef3085);
   (HH, bcda, 6, 23, 0x04881d05);
   (HH, abcd, 9, 4, 0xd9d4d039);
   (HH, dabc, 12, 11, 0xe6db99e5);
   (HH, cdab, 15, 16, 0x1fa27cf8);
   (HH, bcda, 2, 23, 0xc4ac5665);
   (II, abcd, 0, 6, 0xf4292244);
   (II, dabc, 7, 10, 0x432aff97);
   (II, cdab, 14, 15, 0xab9423a7);
   (II, bcda, 5, 21, 0xfc93a039);
   (II, abcd, 12, 6, 0x655b59c3);
   (II, dabc, 3, 10, 0x8f0ccc92);
   (II, cdab, 10, 15, 0xffeff47d);
   (II, bcda, 1, 21, 0x85845dd1);
   (II, abcd, 8, 6, 0x6fa87e4f);
   (II, dabc, 15, 10, 0xfe2ce6e0);
   (II, cdab, 6, 15, 0xa3014314);
   (II, bcda, 13, 21, 0x4e0811a1);
   (II, abcd, 4, 6, 0xf7537e82);
   (II, dabc, 11, 10, 0xbd3af235);
   (II, cdab, 2, 15, 0x2ad7d2bb);
   (II, bcda, 9, 21, 0xeb86d391)].

Definition unrolled (W : list Z) (r : regs) : regs := foldl (exec W) r md5_calls.

(** A loop [for (; i < limit; ++i)] of LTC_SMALL_CODE. *)
Fixpoint small_rounds (FF : Z -> Z -> Z -> Z -> Z -> Z -> Z -> Z) (W : list Z) (n : nat) (limit i : Z) (r : regs) : Z * regs :=
  if i <? limit then
    match n with
    | O => (i, r)
    | S n =>
        let '(a, b, c, d) := r in
        let a := FF a b c d (znth W (znth Worder i)) (znth Rorder i) (znth Korder i) in
        let t := d in let d := c in let c := b in let b := a in let a := t in
        small_rounds FF W n limit (i + 1) (a, b, c, d)
    end
  else (i, r).

Definition small (W : list Z) (r : regs) : regs :=
  let '(i, r) := small_rounds FF W 16 16 0 r in
  let '(i, r) := small_rounds GG W 16 32 i r in
  let '(i, r) := small_rounds HH W 16 48 i r in
  let '(_, r) := small_rounds II W 16 64 i r in
  r.

Definition compress_with (rounds : list Z -> regs -> regs) (state buf : list Z) : list Z :=
  let W := load_block buf in
  match state with
  | [s0; s1; s2; s3] =>
      let '(a, b, c, d) := rounds W (s0, s1, s2, s3) in
      [u32 (s0 + a); u32 (s1 + b); u32 (s2 + c); u32 (s3 + d)]
  | _ => state
  end.

Definition md5_compress : list Z -> list Z -> list Z := compress_with unrolled.
Definition md5_compress_small : list Z -> list Z -> list Z := compress_with small.

Definition md5_state0 : list Z := [0x67452301; 0xefcdab89; 0x98badcfe; 0x10325476].

(** [STORE32L] *)
Definition md5_digest (state : list Z) : list Z := concat (map (fun x => rev (store32h x)) state).

Definition md5_init (buf : list Z) : md_state := md_init md5_state0 buf.
Definition md5_process : md_state -> list Z -> option md_state := md_process md5_compress.
Definition md5_done : md_state -> option (list Z) := md_done md5_compress STORE64L md5_digest.

(** ** RFC 1321 *)

Definition rfc_F (x y z : Z) : Z := Z.lor (Z.land x y) (Z.land (not32 x) z).
Definition rfc_G (x y z : Z) : Z := Z.lor (Z.land x z) (Z.land y (not32 z)).

(** Operation [i]: the function, the word of the block, the rotation. *)
Definition rfc_f (i : Z) : Z -> Z -> Z -> Z :=
  if i <? 16 then rfc_F else if i <? 32 then rfc_G else if i <? 48 then H else I.
Definition rfc_k (i : Z) : Z :=
  if i <? 16 then i else if i <? 32 then (5 * i + 1) mod 16 else if i <? 48 then (3 * i + 5) mod 16 else (7 * i) mod 16.
Definition rfc_s (i : Z) : Z :=
  znth (if i <? 16 then [7; 12; 17; 22] else if i <? 32 then [5; 9; 14; 20]
        else if i <? 48 then [4; 11; 16; 23] else [6; 10; 15; 21]) (i mod 4).

(** a = b + ((a + f(b,c,d) + X[k] + T[i]) <<< s); the registers rotate. *)
Definition rfc_step (X : list Z) (r : regs) (i : Z) : regs :=
  let '(a, b, c, d) := r in
  (d, u32 (b + ROTL (u32 (a + rfc_f i b c d + znth X (rfc_k i) + znth Korder i)) (rfc_s i)), b, c).

Definition rfc_compress (state M : list Z) : list Z :=
  match state with
  | [s0; s1; s2; s3] =>
      let '(a, b, c, d) := foldl (rfc_step (load_block M)) (s0, s1, s2, s3) (seqZ 0 64) in
      [u32 (a + s0); u32 (b + s1); u32 (c + s2); u32 (d + s3)]
  | _ => state
  end.

Definition rfc_md5 (l : list Z) : list Z := md_hash rfc_compress STORE64L md5_digest md5_state0 l.

(** ** The steps *)

Definition op (i : Z) : macro := if i <? 16 then FF else if i <? 32 then GG else if i <? 48 then HH else II.

Definition step (W : list Z) (r : regs) (i : Z) : regs :=
  let '(a, b, c, d) := r in (d, op i a b c d (znth W (znth Worder i)) (znth Rorder i) (znth Korder i), b, c).

(** The call of step [i], which rotates no registers. *)
Definition call_of (o : order) (i : Z) : call := (op i, o, znth Worder i, znth Rorder i, znth Korder i).

Definition four_calls (i : Z) : list call :=
  [call_of abcd i; call_of dabc (i + 1); call_of cdab (i + 2); call_of bcda (i + 3)].

Lemma md5_calls_ok : md5_calls = concat (map (fun j => four_calls (4 * j)) (seqZ 0 16)).
Proof. reflexivity. Qed.

Lemma four_calls_ok W r i : foldl (exec W) r (four_calls i) = foldl (step W) r [i; i + 1; i + 2; i + 3].
Proof. destruct r as [[[a b] c] d]. reflexivity. Qed.

Lemma unrolled_steps W r : unrolled W r = foldl (step W) r (seqZ 0 64).
Proof.
  unfold unrolled. rewrite md5_calls_ok. change (seqZ 0 64) with (concat (map (fun j => [4 * j; 4 * j + 1; 4 * j + 2; 4 * j + 3]) (seqZ 0 16))).
  revert r. generalize (seqZ 0 16) as l. induction l as [|j l IH]; intros r; [done|].
  cbn [map concat]. by rewrite !foldl_app, four_calls_ok, IH.
Qed.

Lemma md5_small_rounds_foldl f W n m i r : (m <= n)%nat -> (forall j, i <= j < i + Z.of_nat m -> op j = f) ->
  small_rounds f W n (i + Z.of_nat m) i r = (i + Z.of_nat m, foldl (step W) r (seqZ i (Z.of_nat m))).
Proof.
  revert n i r. induction m as [|m IH]; intros n i r Hn Hf.
  - assert (E : i + Z.of_nat 0 = i) by lia. rewrite E. destruct n; cbn [small_rounds]; by rewrite (proj2 (Z.ltb_ge i i)) by lia.
  - destruct n as [|n]; [lia|]. cbn [small_rounds]. rewrite (proj2 (Z.ltb_lt i _)) by lia.
    destruct r as [[[a b] c] d]. cbv beta iota zeta. replace (i + Z.of_nat (S m)) with ((i + 1) + Z.of_nat m) by lia.
    rewrite IH by (lia || (intros j Hj; apply Hf; lia)). rewrite (seqZ_cons i) by lia.
    replace (Z.pred (Z.of_nat (S m))) with (Z.of_nat m) by lia. cbn [foldl step]. rewrite (Hf i) by lia. done.
Qed.

Lemma small_steps W r : small W r = foldl (step W) r (seqZ 0 64).
Proof.
  unfold small.
  assert (Hl : forall f i r, (forall j, i <= j < i + 16 -> op j = f) ->
    small_rounds f W 16 (i + 16) i r = (i + 16, foldl (step W) r (seqZ i 16))).
  { intros f i r' Hf. exact (md5_small_rounds_foldl f W 16 16 i r' ltac:(lia) Hf). }
  assert (Hop : forall j, (0 <= j < 16 -> op j = FF) /\ (16 <= j < 32 -> op j = GG) /\
    (32 <= j < 48 -> op j = HH) /\ (48 <= j < 64 -> op j = II)).
  { intros j. unfold op. repeat split; intros Hj;
      repeat match goal with |- context [j <? ?n] => destruct (Z.ltb_spec j n); try lia end; done. }
  pose proof (Hl FF 0) as E0. pose proof (Hl GG 16) as E1. pose proof (Hl HH 32) as E2. pose proof (Hl II 48) as E3.
  cbn [Z.add Pos.add Pos.succ] in *.
  rewrite E0, E1, E2, E3 by apply Hop. change 64 with (16 + (16 + (16 + 16))) at 1. rewrite !seqZ_app, !foldl_app by lia. done.
Qed.

(** ** The definition of RFC 1321 *)

Ltac bitwise := apply Z.bits_inj'; intros ? ?;
  rewrite ?Z.lxor_spec, ?Z.lor_spec, ?Z.land_spec, ?Z.lxor_spec, ?Z.lor_spec, ?Z.land_spec, ?Z.lxor_spec, ?Z.land_spec, ?Z.lnot_spec by lia;
  repeat match goal with |- context [Z.testbit ?x ?n] => destruct (Z.testbit x n) end; reflexivity.

Lemma F_rfc x y z : is_u32 z -> F x y z = rfc_F x y z.
Proof.
  intros Hz. unfold F, rfc_F, not32. rewrite <-(u32_small z Hz), !u32_land. bitwise.
Qed.

Lemma G_rfc x y z : is_u32 y -> G x y z = rfc_G x y z.
Proof.
  intros Hy. unfold G, rfc_G, not32. rewrite <-(u32_small y Hy), !u32_land. bitwise.
Qed.

Definition regs_u32 (r : regs) : Prop := let '(a, b, c, d) := r in is_u32 a /\ is_u32 b /\ is_u32 c /\ is_u32 d.

Lemma tables_ok : Forall (fun i => znth Worder i = rfc_k i /\ znth Rorder i = rfc_s i /\ 0 < rfc_s i < 32) (seqZ 0 64).
Proof. apply (bool_decide_eq_true_1 _). vm_compute. reflexivity. Qed.

Lemma op_rfc i a b c d M s t : is_u32 c -> is_u32 d -> 0 < s < 32 ->
  op i a b c d M s t = u32 (b + ROTL (u32 (a + rfc_f i b c d + M + t)) s).
Proof.
  intros Hc Hd Hs. rewrite <-ROL_ROTL by (apply u32_range || done). rewrite (Z.add_comm b).
  unfold op, rfc_f. destruct (i <? 16); [by rewrite <-F_rfc|].
  destruct (i <? 32); [by rewrite <-G_rfc|]. by destruct (i <? 48).
Qed.

Lemma md5_step_ok W r i : regs_u32 r -> znth Worder i = rfc_k i /\ znth Rorder i = rfc_s i /\ 0 < rfc_s i < 32 ->
  regs_u32 (step W r i) /\ step W r i = rfc_step W r i.
Proof.
  destruct r as [[[a b] c] d]. intros (Ha & Hb & Hc & Hd) (Ew & Er & Hs). cbn.
  rewrite Ew, Er, op_rfc by done. split; [|done]. split_and!; [done|apply u32_range|done|done].
Qed.

Lemma md5_steps_ok W l r : regs_u32 r -> Forall (fun i => znth Worder i = rfc_k i /\ znth Rorder i = rfc_s i /\ 0 < rfc_s i < 32) l ->
  foldl (step W) r l = foldl (rfc_step W) r l.
Proof.
  intros Hr Hl. revert r Hr. induction Hl as [|i l Hi _ IH]; intros r Hr; [done|]. cbn.
  destruct (md5_step_ok W r i Hr Hi) as [Hr' <-]. by apply IH.
Qed.

Definition state_ok (w : list Z) : Prop := zlen w = 4 /\ Forall is_u32 w.

Lemma md5_state_ok_inv w : state_ok w -> exists a b c d, w = [a; b; c; d] /\ regs_u32 (a, b, c, d).
Proof.
  intros [Hl Hw]. unfold zlen in Hl. destruct w as [|a [|b [|c [|d [|]]]]]; try (cbn in Hl; lia).
  exists a, b, c, d. split; [done|]. rewrite !Forall_cons in Hw. cbn. tauto.
Qed.

Lemma md5_compress_ok w b : state_ok w -> state_ok (md5_compress w b) /\ md5_compress w b = rfc_compress w b.
Proof.
  intros Hw. apply md5_state_ok_inv in Hw as (s0 & s1 & s2 & s3 & -> & Hr).
  unfold md5_compress, compress_with, rfc_compress.
  rewrite unrolled_steps, md5_steps_ok by (done || apply tables_ok). destruct (foldl _ _ _) as [[[a b'] c] d]. split.
  - split; [done|]. repeat (apply Forall_cons; split; [apply u32_range|]). constructor.
  - by rewrite (Z.add_comm s0), (Z.add_comm s1), (Z.add_comm s2), (Z.add_comm s3).
Qed.

Lemma md5_hash_rfc l : md_hash md5_compress STORE64L md5_digest md5_state0 l = rfc_md5 l.
Proof.
  apply md_hash_ext with (P := state_ok); [|by apply md5_compress_ok].
  split; [done|]. repeat (apply Forall_cons; split; [by split|]). constructor.
Qed.

(** ** Properties *)

(** C28: md5_init, any sequence of md5_process calls and md5_done succeed and
    compute the MD5 hash of RFC 1321 over the bytes of all calls, whatever the
    buffer of the state held before and however the calls cut the message; the
    message length is counted modulo 2^64 bits. *)
Theorem md5_is_rfc1321 (buf : list Z) (ls : list (list Z)) : zlen buf = 64 ->
  exists md, md_feed md5_compress (md5_init buf) ls = Some md /\ md5_done md = Some (rfc_md5 (concat ls)).
Proof. intros Hb. rewrite <-md5_hash_rfc. apply md_stream_ok; done. Qed.

Lemma md5_is_rfc1321_witness :
  exists md, md_feed md5_compress (md5_init (replicate 64 9)) [[97]; []; [98; 99]] = Some md /\
    md5_done md = Some (rfc_md5 (concat [[97]; []; [98; 99]])).
Proof. apply (md5_is_rfc1321 (replicate 64 9) [[97]; []; [98; 99]]). reflexivity. Defined.

(** The 64 macro calls of the compression function as it is compiled, with
    their registers, words, shifts and constants written out, and the loops for
    small code over the tables Worder, Rorder and Korder are equal on every
    state and every block. *)
Theorem md5_small_code_equiv (state buf : list Z) : md5_compress state buf = md5_compress_small state buf.
Proof.
  unfold md5_compress, md5_compress_small, compress_with.
  destruct state as [|s0 [|s1 [|s2 [|s3 [|? ?]]]]]; [reflexivity..| |reflexivity].
  rewrite unrolled_steps, small_steps. reflexivity.
Qed.

(** Test vectors of md5_test: the empty message, [abc], and the eight times
    repeated digits. *)
Example md5_test_1 : rfc_md5 [] =
  [0xd4; 0x1d; 0x8c; 0xd9; 0x8f; 0x00; 0xb2; 0x04; 0xe9; 0x80; 0x09; 0x98; 0xec; 0xf8; 0x42; 0x7e].
Proof. vm_compute. reflexivity. Qed.
Example md5_test_2 : rfc_md5 [97; 98; 99] =
  [0x90; 0x01; 0x50; 0x98; 0x3c; 0xd2; 0x4f; 0xb0; 0xd6; 0x96; 0x3f; 0x7d; 0x28; 0xe1; 0x7f; 0x72].
Proof. vm_compute. reflexivity. Qed.
Example md5_test_3 : rfc_md5 (concat (replicate 8 [49; 50; 51; 52; 53; 54; 55; 56; 57; 48])) =
  [0x57; 0xed; 0xf4; 0xa2; 0x2b; 0xe3; 0xc9; 0x55; 0xac; 0x49; 0xda; 0x2e; 0x21; 0x07; 0xb6; 0x7a].
Proof. vm_compute. reflexivity. Qed.
End Md5.
