(* ===== verification/Hashes.v ===== *)
(** The descriptor tables of libtomcrypt (register, find, is_valid for hashes
    and ciphers), crypto_init of common-algo.c, and SHA-1 and MD5 as instances
    of the hash interface of Hmac.v. *)

From S2P Require Import Prelude MdHash Sha1 Md5 Hmac.

Local Open Scope Z_scope.

(** ** The descriptor tables *)

Definition TAB_SIZE : Z := 4.

(** The functions a descriptor points to. *)
Inductive hash_funcs := sha1_funcs | md5_funcs.
Inductive cipher_funcs := aes_funcs | twofish_funcs | des3_funcs.
#[export] Instance hash_funcs_eq_dec : EqDecision hash_funcs.
Proof. solve_decision. Defined.
#[export] Instance cipher_funcs_eq_dec : EqDecision cipher_funcs.
Proof. solve_decision. Defined.

(** [struct ltc_hash_descriptor] and [struct ltc_cipher_descriptor]. *)
Record ltc_hash_descriptor := mkhd {
  hd_name : string; hd_ID : Z; hd_hashsize : Z; hd_blocksize : Z; hd_OID : list Z; hd_funcs : hash_funcs }.
Record ltc_cipher_descriptor := mkcd {
  cd_name : string; cd_ID : Z; cd_min_key_length : Z; cd_max_key_length : Z; cd_block_length : Z;
  cd_default_rounds : Z; cd_funcs : cipher_funcs }.
#[export] Instance hash_descriptor_eq_dec : EqDecision ltc_hash_descriptor.
Proof. solve_decision. Defined.
#[export] Instance cipher_descriptor_eq_dec : EqDecision ltc_cipher_descriptor.
Proof. solve_decision. Defined.

(** A table; a slot whose name is NULL is [None]. *)
Abbreviation table D := (list (option D)).

(** What the two tables differ in: when a slot counts as holding a descriptor
    already. *)
Class Descriptor (D : Type) := { desc_name : D -> string; same_desc : D -> D -> bool }.

#[export] Instance hash_desc : Descriptor ltc_hash_descriptor :=
  { desc_name := hd_name; same_desc x y := bool_decide (x = y) }.
#[export] Instance cipher_desc : Descriptor ltc_cipher_descriptor :=
  { desc_name := cd_name; same_desc x y := cd_ID x =? cd_ID y }.

Section Registry.
Context {D : Type} `{Descriptor D}.

(** [for (x = 0; x < TAB_SIZE; x++) if (...) return x;] *)
Fixpoint find_slot (p : option D -> bool) (t : table D) (x : Z) : option Z :=
  match t with
  | [] => None
  | o :: t => if p o then Some x else find_slot p t (x + 1)
  end.

Definition holds (d : D) (o : option D) : bool := match o with Some d' => same_desc d' d | None => false end.
Definition blank (o : option D) : bool := match o with Some _ => false | None => true end.
Definition named (name : string) (o : option D) : bool :=
  match o with Some d => String.eqb (desc_name d) name | None => false end.

(** register_hash, register_cipher. *)
Definition register (d : D) (t : table D) : Z * table D :=
  match find_slot (holds d) t 0 with
  | Some x => (x, t)
  | None =>
      match find_slot blank t 0 with
      | Some x => (x, zset t x (Some d))
      | None => (-1, t)
      end
  end.

(** find_hash, find_cipher. *)
Definition find_named (name : string) (t : table D) : Z := default (-1) (find_slot (named name) t 0).

(** hash_is_valid, cipher_is_valid. *)
Definition is_valid (t : table D) (idx : Z) : bool :=
  negb ((idx <? 0) || (idx >=? TAB_SIZE) || blank (mjoin (zget t idx))).

(** The loop of crypto_init over one list; [None] where it exits. *)
Fixpoint register_all (ds : list D) (t : table D) : option (table D) :=
  match ds with
  | [] => Some t
  | d :: ds => let '(x, t) := register d t in if x =? -1 then None else register_all ds t
  end.
End Registry.

Definition sha1_desc : ltc_hash_descriptor := mkhd "sha1" 2 20 64 [1; 3; 14; 3; 2; 26] sha1_funcs.
Definition md5_desc : ltc_hash_descriptor := mkhd "md5" 3 16 64 [1; 2; 840; 113549; 2; 5] md5_funcs.
Definition aes_desc : ltc_cipher_descriptor := mkcd "aes" 6 16 32 16 10 aes_funcs.
Definition twofish_desc : ltc_cipher_descriptor := mkcd "twofish" 7 16 32 16 16 twofish_funcs.
Definition des3_desc : ltc_cipher_descriptor := mkcd "3des" 14 24 24 8 16 des3_funcs.

Definition empty_table {D} : table D := replicate (Z.to_nat TAB_SIZE) None.

Definition crypto_init (ciphers : table ltc_cipher_descriptor) (hashes : table ltc_hash_descriptor) :
    option (table ltc_cipher_descriptor * table ltc_hash_descriptor) :=
  ciphers ← register_all [aes_desc; twofish_desc; des3_desc] ciphers;
  hashes ← register_all [sha1_desc; md5_desc] hashes;
  Some (ciphers, hashes).

(** ** Tables *)

Section RegistryFacts.
Context {D : Type} `{Descriptor D}.
Implicit Types (p : option D -> bool) (t : table D) (d : D).

Lemma find_slot_None p t x : find_slot p t x = None -> Forall (fun o => p o = false) t.
Proof.
  revert x. induction t as [|o t IH]; intros x; cbn; [constructor|].
  destruct (p o) eqn:E; [done|]. intros Hf. constructor; [done|by eapply IH].
Qed.

Lemma find_slot_Some p t x y : find_slot p t x = Some y ->
  exists i o, y = x + Z.of_nat i /\ t !! i = Some o /\ p o = true /\ forall j o', (j < i)%nat -> t !! j = Some o' -> p o' = false.
Proof.
  revert x. induction t as [|o t IH]; intros x; cbn; [done|]. destruct (p o) eqn:E.
  - intros [= <-]. exists 0%nat, o. split_and!; [lia|done|done|lia].
  - intros Hf. destruct (IH _ Hf) as (i & o' & -> & Hi & Hp & Hb). exists (S i), o'. split_and!; [lia|done|done|].
    intros [|j] o'' Hj; cbn; [by intros [= <-]|]. apply Hb. lia.
Qed.

Lemma find_slot_intro p t x i o : t !! i = Some o -> p o = true ->
  (forall j o', (j < i)%nat -> t !! j = Some o' -> p o' = false) -> find_slot p t x = Some (x + Z.of_nat i).
Proof.
  revert x i. induction t as [|o' t IH]; intros x i Hi Hp Hb; [done|]. destruct i as [|i]; cbn in *.
  - simplify_eq. rewrite Hp. f_equal. lia.
  - rewrite (Hb 0%nat o') by (done || lia). rewrite (IH (x + 1) i) by (done || intros j o'' Hj; apply (Hb (S j)); lia). f_equal. lia.
Qed.

Lemma find_slot_ext p q t x : (forall o, o ∈ t -> p o = q o) -> find_slot p t x = find_slot q t x.
Proof.
  revert x. induction t as [|o t IH]; intros x E; [done|]. cbn. rewrite (E o) by set_solver.
  destruct (q o); [done|]. apply IH. set_solver.
Qed.

(** A table in which the name of [d] identifies it. *)
Definition identified (d : D) (t : table D) : Prop :=
  same_desc d d = true /\ forall d', (Some d' ∈ t) -> (desc_name d' = desc_name d <-> same_desc d' d = true).

Lemma find_named_holds d t : identified d t -> find_named (desc_name d) t = default (-1) (find_slot (holds d) t 0).
Proof.
  intros [_ Hid]. unfold find_named. f_equal. apply find_slot_ext. intros [d'|] Ho; [|done]. cbn.
  apply eq_true_iff_eq. rewrite String.eqb_eq. by apply Hid.
Qed.

Lemma held_ok d t i o : identified d t -> zlen t = TAB_SIZE -> t !! i = Some o -> holds d o = true ->
  (forall j o', (j < i)%nat -> t !! j = Some o' -> holds d o' = false) ->
  0 <= Z.of_nat i < TAB_SIZE /\ is_valid t (Z.of_nat i) = true /\ find_named (desc_name d) t = Z.of_nat i /\ register d t = (Z.of_nat i, t).
Proof.
  intros Hid Hl Hi Hh Hb. pose proof (find_slot_intro (holds d) t 0 i o Hi Hh Hb) as E. rewrite Z.add_0_l in E.
  pose proof (lookup_lt_Some _ _ _ Hi) as Hlt. unfold zlen in Hl. split; [lia|]. split.
  - unfold is_valid. rewrite Z.geb_leb. unfold zget. rewrite (proj2 (Z.ltb_ge _ 0)), (proj2 (Z.leb_gt _ _)), (proj2 (Z.leb_le 0 _)), Nat2Z.id, Hi by lia.
    destruct o; [done|]. done.
  - split; [by rewrite find_named_holds, E by done|]. unfold register. by rewrite E.
Qed.

(** Registering a descriptor into a table that has space or holds it. *)
Lemma register_ok d t : identified d t -> zlen t = TAB_SIZE ->
  (register d t = (-1, t) /\ (None ∉ t) /\ Forall (fun o => holds d o = false) t) \/
  exists x t', register d t = (x, t') /\ 0 <= x < TAB_SIZE /\ zlen t' = TAB_SIZE /\ is_valid t' x = true /\
    find_named (desc_name d) t' = x /\ register d t' = (x, t') /\ (forall y, y <> x -> zget t' y = zget t y) /\
    (forall y, is_valid t y = true -> zget t' y = zget t y).
Proof.
  intros Hid Hl. destruct (find_slot (holds d) t 0) as [x|] eqn:Eh.
  - right. destruct (find_slot_Some _ _ _ _ Eh) as (i & o & -> & Hi & Hh & Hb).
    destruct (held_ok d t i o Hid Hl Hi Hh Hb) as (Hr & Hv & Hf & Hreg). exists (Z.of_nat i), t.
    split_and!; try done; apply Hr.
  - pose proof (find_slot_None _ _ _ Eh) as Hnone. destruct (find_slot blank t 0) as [x|] eqn:Eb.
    + right. destruct (find_slot_Some _ _ _ _ Eb) as (i & o & -> & Hi & Hbl & _). rewrite Z.add_0_l in Eb.
      pose proof (lookup_lt_Some _ _ _ Hi) as Hlt. destruct o; [done|]. set (t' := zset t (Z.of_nat i) (Some d)).
      assert (Et' : t' = <[i:=Some d]> t) by (unfold t', zset; rewrite (proj2 (Z.leb_le 0 _)), Nat2Z.id by lia; done).
      assert (Hid' : identified d t').
      { destruct Hid as [Hs Hid]. split; [done|]. intros d' Hd'. rewrite Et' in Hd'. apply list_elem_of_lookup in Hd' as [j Hj].
        destruct (decide (j = i)) as [->|Hji].
        - rewrite list_lookup_insert_eq in Hj by done. by simplify_eq.
        - rewrite list_lookup_insert_ne in Hj by done. apply Hid. by eapply list_elem_of_lookup_2. }
      assert (Hl' : zlen t' = TAB_SIZE) by (unfold t'; by rewrite zlen_zset).
      destruct (held_ok d t' i (Some d) Hid' Hl') as (Hr & Hv & Hf & Hreg).
      { rewrite Et'. by apply list_lookup_insert_eq. }
      { by destruct Hid. }
      { intros j o' Hj Ho'. rewrite Et', list_lookup_insert_ne in Ho' by lia. by eapply (Forall_lookup_1 _ _ _ _ Hnone). }
      assert (Hother : forall y, y <> Z.of_nat i -> zget t' y = zget t y).
      { intros y Hy. unfold zget. destruct (Z.leb_spec 0 y); [|done]. rewrite Et'. apply list_lookup_insert_ne. lia. }
      exists (Z.of_nat i), t'. split_and!; try done; try lia.
      { unfold register. by rewrite Eh, Eb. }
      intros y Hy. apply Hother. intros ->. unfold is_valid, zget in Hy.
      rewrite (proj2 (Z.leb_le 0 _)), Nat2Z.id, Hi in Hy by lia. cbn in Hy. rewrite !orb_true_r in Hy. done.
    + left. unfold register. rewrite Eh, Eb. split_and!; [done| |done].
      intros Hin. pose proof (find_slot_None _ _ _ Eb) as Hb. rewrite Forall_forall in Hb. by specialize (Hb None Hin).
Qed.
End RegistryFacts.

(** ** SHA-1 and MD5 behind the table *)

(** The table after crypto_init. *)
Definition hash_descriptor : table ltc_hash_descriptor := [Some sha1_desc; Some md5_desc; None; None].

(** The buffer of a new [hash_state]; it is written before it is read. *)
Definition fresh_buf : list Z := replicate 64 0.

Definition hash_entry (h : Z) : option ltc_hash_descriptor := mjoin (zget hash_descriptor h).

#[export] Instance ssh_hashes : HashDescriptors md_state := {
  hash_is_valid := is_valid hash_descriptor;
  hash_blocksize h := default 0 (hd_blocksize <$> hash_entry h);
  hash_size h := default 0 (hd_hashsize <$> hash_entry h);
  hash_init h :=
    d ← hash_entry h;
    Some (match hd_funcs d with sha1_funcs => Sha1.sha1_init fresh_buf | md5_funcs => Md5.md5_init fresh_buf end);
  hash_process h md x :=
    d ← hash_entry h;
    match hd_funcs d with sha1_funcs => Sha1.sha1_process md x | md5_funcs => Md5.md5_process md x end;
  hash_done h md :=
    d ← hash_entry h;
    match hd_funcs d with sha1_funcs => Sha1.sha1_done md | md5_funcs => Md5.md5_done md end }.

Lemma valid_hash h : hash_is_valid h = true ->
  (h = 0 /\ hash_entry h = Some sha1_desc) \/ (h = 1 /\ hash_entry h = Some md5_desc).
Proof.
  unfold hash_is_valid, ssh_hashes, is_valid. rewrite Z.geb_leb. intros Hv.
  destruct (Z.ltb_spec h 0); [done|]. destruct (Z.leb_spec TAB_SIZE h); [done|]. unfold TAB_SIZE in *.
  assert (h = 0 \/ h = 1 \/ h = 2 \/ h = 3) as [-> | [-> | [-> | ->]]] by lia; [by left|by right|done|done].
Qed.

Lemma words_digest n w : zlen w = n -> zlen (Sha1.sha1_digest w) = 4 * n /\ bytes (Sha1.sha1_digest w).
Proof.
  intros <-. unfold Sha1.sha1_digest. induction w as [|x w [IHl IHb]]; [by split|]. cbn [map concat].
  rewrite zlen_app, zlen_store32h, IHl, zlen_cons. split; [lia|]. apply Forall_app. split; [apply store32h_bytes|done].
Qed.

Lemma words_digest_le n w : zlen w = n -> zlen (Md5.md5_digest w) = 4 * n /\ bytes (Md5.md5_digest w).
Proof.
  intros <-. unfold Md5.md5_digest. induction w as [|x w [IHl IHb]]; [by split|]. cbn [map concat].
  assert (E : zlen (rev (store32h x)) = 4) by reflexivity. rewrite zlen_app, E, IHl, zlen_cons. split; [lia|].
  apply Forall_app. split; [|done]. apply Forall_rev, store32h_bytes.
Qed.

Lemma fips_sha1_ok l : zlen (Sha1.fips_sha1 l) = 20 /\ bytes (Sha1.fips_sha1 l).
Proof.
  rewrite <-Sha1.sha1_hash_fips.
  destruct (md_hash_inv Sha1.sha1_compress STORE64H Sha1.sha1_digest Sha1.sha1_state0 Sha1.state_ok l) as (w & [Hw _] & ->).
  - split; [done|]. repeat (apply Forall_cons; split; [by split|]). constructor.
  - intros w b Hw. by apply Sha1.sha1_compress_ok.
  - exact (words_digest 5 w Hw).
Qed.

Lemma rfc_md5_ok l : zlen (Md5.rfc_md5 l) = 16 /\ bytes (Md5.rfc_md5 l).
Proof.
  rewrite <-Md5.md5_hash_rfc.
  destruct (md_hash_inv Md5.md5_compress STORE64L Md5.md5_digest Md5.md5_state0 Md5.state_ok l) as (w & [Hw _] & ->).
  - split; [done|]. repeat (apply Forall_cons; split; [by split|]). constructor.
  - intros w b Hw. by apply Md5.md5_compress_ok.
  - exact (words_digest_le 4 w Hw).
Qed.

#[export] Program Instance ssh_hashes_laws : HashLaws md_state := {
  hash_of h l := if h =? 0 then Sha1.fips_sha1 l else Md5.rfc_md5 l;
  md_repr h md l :=
    if h =? 0 then md_of Sha1.sha1_compress Sha1.sha1_state0 md l else md_of Md5.md5_compress Md5.md5_state0 md l }.
Next Obligation. intros h Hv. by destruct (valid_hash h Hv) as [[-> ?]|[-> ?]]. Qed.
Next Obligation.
  intros h Hv. destruct (valid_hash h Hv) as [[-> ?]|[-> ?]]; eexists; (split; [reflexivity|]); by apply md_init_ok.
Qed.
Next Obligation.
  intros h md l x Hv Hmd _. destruct (valid_hash h Hv) as [[-> ?]|[-> ?]]; by apply md_process_ok.
Qed.
Next Obligation.
  intros h md l Hv Hmd. destruct (valid_hash h Hv) as [[-> ?]|[-> ?]]; cbn in Hmd |- *.
  - rewrite <-Sha1.sha1_hash_fips. by apply md_done_ok.
  - rewrite <-Md5.md5_hash_rfc. by apply md_done_ok.
Qed.
Next Obligation.
  intros h l Hv. destruct (valid_hash h Hv) as [[-> ?]|[-> ?]]; [apply fips_sha1_ok|apply rfc_md5_ok].
Qed.

(** ** Properties *)

(** Registering a descriptor in a table whose names identify descriptors
    either gives -1 and no change, and then every slot is taken by another
    descriptor, or an index at which the descriptor is valid, is found by its
    name and is found again when registered once more; every entry that was
    valid before stays at its index. *)
Theorem register_then_find {D : Type} `{Descriptor D} (d : D) (t : table D) : identified d t -> zlen t = TAB_SIZE ->
  (register d t = (-1, t) /\ (None ∉ t) /\ Forall (fun o => holds d o = false) t) \/
  exists x t', register d t = (x, t') /\ 0 <= x < TAB_SIZE /\ zlen t' = TAB_SIZE /\ is_valid t' x = true /\
    find_named (desc_name d) t' = x /\ register d t' = (x, t') /\ (forall y, y <> x -> zget t' y = zget t y) /\
    (forall y, is_valid t y = true -> zget t' y = zget t y).
Proof. apply register_ok. Qed.

Lemma register_then_find_witness :
  (register md5_desc [Some sha1_desc; None; None; None] = (-1, [Some sha1_desc; None; None; None]) /\
    (None ∉ [Some sha1_desc; None; None; None]) /\
    Forall (fun o => holds md5_desc o = false) [Some sha1_desc; None; None; None]) \/
  exists x t', register md5_desc [Some sha1_desc; None; None; None] = (x, t') /\ 0 <= x < TAB_SIZE /\ zlen t' = TAB_SIZE /\
    is_valid t' x = true /\ find_named (desc_name md5_desc) t' = x /\ register md5_desc t' = (x, t') /\
    (forall y, y <> x -> zget t' y = zget [Some sha1_desc; None; None; None] y) /\
    (forall y, is_valid [Some sha1_desc; None; None; None] y = true -> zget t' y = zget [Some sha1_desc; None; None; None] y).
Proof.
  apply (register_then_find md5_desc [Some sha1_desc; None; None; None]).
  - split; [reflexivity|]. intros d' Hd'. rewrite !elem_of_cons in Hd'.
    destruct Hd' as [[= ->]|[?|[?|[?|Hn]]]]; [|discriminate..|by apply not_elem_of_nil in Hn]. cbn. split; done.
  - reflexivity.
Defined.

(** What crypto_init leaves in the tables, and where find_hash and find_cipher
    find the entries. *)
Lemma crypto_init_tables :
  crypto_init empty_table empty_table = Some ([Some aes_desc; Some twofish_desc; Some des3_desc; None], hash_descriptor).
Proof. reflexivity. Qed.

Definition xor_pad (x : Z) (key : list Z) : list Z := map (fun b => Z.lxor b x) (key ++ replicate (Z.to_nat (64 - zlen key)) 0).

(** After crypto_init the packet code's authentication tag, computed with
    the index find_hash gives for "sha1", is the HMAC of RFC 2104 over the SHA-1
    of FIPS 180, cut to the length of the tag (20 bytes for hmac-sha1, 12 for
    hmac-sha1-96), for every key of up to a block and however the calls cut
    the text. *)
Theorem hmac_sha1_tag (ciphers : table ltc_cipher_descriptor) (hashes : table ltc_hash_descriptor)
    (key : list Z) (texts : list (list Z)) (outlen : Z) :
  crypto_init empty_table empty_table = Some (ciphers, hashes) ->
  bytes key -> 0 < zlen key <= 64 -> Forall bytes texts -> 0 <= outlen ->
  let h := find_named "sha1" hashes in
  exists s s', hmac_init (H := md_state) h key (zlen key) = Some s /\ hmac_feed s texts = Some s' /\
    hmac_done s' outlen =
      Some (ztake outlen (Sha1.fips_sha1 (xor_pad 0x5c key ++ Sha1.fips_sha1 (xor_pad 0x36 key ++ concat texts)))).
Proof.
  intros Ei Hk Hl Ht Ho. rewrite crypto_init_tables in Ei. injection Ei as <- <-. intros h. change h with 0. clear h.
  assert (Hv : hash_is_valid (H := md_state) 0 = true) by reflexivity.
  destruct (hmac_init_ok (H := md_state) 0 key (zlen key) Hv Hk ltac:(lia)) as (s & E & Hs). rewrite ztake_all in Hs.
  destruct (hmac_feed_ok texts s 0 _ [] Hs Ht) as (s' & E' & Hs'). exists s, s'. split_and!; [done|done|].
  rewrite (hmac_done_ok s' 0 key _ outlen Hs' Ho). unfold hmac, hmac_key.
  change (hash_blocksize 0) with 64. rewrite Z.gtb_ltb, (proj2 (Z.ltb_ge 64 _)) by lia. done.
Qed.

(** Test case 5 of hmac_test. *)
Lemma hmac_sha1_tag_witness :
  exists s s', hmac_init (H := md_state) (find_named "sha1" hash_descriptor) (replicate 20 0x0c) 20 = Some s /\
    hmac_feed s [[84; 101; 115; 116; 32; 87; 105; 116; 104]; [32; 84; 114; 117; 110; 99; 97; 116; 105; 111; 110]] = Some s' /\
    hmac_done s' 12 =
      Some (ztake 12 (Sha1.fips_sha1 (xor_pad 0x5c (replicate 20 0x0c) ++
        Sha1.fips_sha1 (xor_pad 0x36 (replicate 20 0x0c) ++
          concat [[84; 101; 115; 116; 32; 87; 105; 116; 104]; [32; 84; 114; 117; 110; 99; 97; 116; 105; 111; 110]])))).
Proof.
  apply (hmac_sha1_tag [Some aes_desc; Some twofish_desc; Some des3_desc; None] hash_descriptor (replicate 20 0x0c)
    [[84; 101; 115; 116; 32; 87; 105; 116; 104]; [32; 84; 114; 117; 110; 99; 97; 116; 105; 111; 110]] 12).
  - reflexivity.
  - by apply Forall_replicate.
  - vm_compute. split; [reflexivity|discriminate].
  - apply Forall_cons. split; [|apply Forall_cons; split; [|by apply Forall_nil]]; apply (bool_decide_eq_true_1 _); reflexivity.
  - discriminate.
Defined.

Example hmac_test_5 : (s ← hmac_init (H := md_state) 0 (replicate 20 0x0c) 20;
    s ← hmac_process s [84; 101; 115; 116; 32; 87; 105; 116; 104; 32; 84; 114; 117; 110; 99; 97; 116; 105; 111; 110];
    hmac_done s 20) =
  Some [0x4c; 0x1a; 0x03; 0x42; 0x4b; 0x55; 0xe0; 0x7f; 0xe7; 0xf2; 0x7b; 0xe1; 0xd5; 0x8b; 0xb9; 0x32; 0x4a; 0x9a; 0x5a; 0x04].
Proof. vm_compute. reflexivity. Qed.

(** Cases 3 and 4, the second with a key of 25 bytes. *)
Example hmac_test_3 : (s ← hmac_init (H := md_state) 1 (replicate 16 0xaa) 16;
    s ← hmac_process s (replicate 50 0xdd); hmac_done s 16) =
  Some [0x56; 0xbe; 0x34; 0x52; 0x1d; 0x14; 0x4c; 0x88; 0xdb; 0xb8; 0xc7; 0x33; 0xf0; 0xe8; 0xb3; 0xf6].
Proof. vm_compute. reflexivity. Qed.

Example hmac_test_4 : (s ← hmac_init (H := md_state) 1 (seqZ 1 25) 25;
    s ← hmac_process s (replicate 50 0xcd); hmac_done s 16) =
  Some [0x69; 0x7e; 0xaf; 0x0a; 0xca; 0x3a; 0x3a; 0xea; 0x3a; 0x75; 0x16; 0x47; 0x46; 0xff; 0xaa; 0x79].
Proof. vm_compute. reflexivity. Qed.
