(* ===== verification/Mpint.v ===== *)
(** Multi-precision integers in buffers: buf_putmpint and buf_getmpint of
    dropbear's buffer.c, with the functions of libtommath they rest on.  An
    [mp_int] that is not negative is the number it stands for; its digits in
    base 2^DIGIT_BIT and their count [used] are functions of that number,
    since libtommath keeps it normalised. *)

From S2P Require Import Prelude Dbutil Buffer.

Local Open Scope Z_scope.
Local Open Scope prog_scope.

Definition DIGIT_BIT : Z := 28.
Definition BUF_MAX_MPINT : Z := 8240 / 8.

(** [used] and the digits. *)
Definition mp_used (a : Z) : Z := if a =? 0 then 0 else Z.log2 a / DIGIT_BIT + 1.
Definition mp_digit (a i : Z) : Z := Z.land (Z.shiftr a (i * DIGIT_BIT)) (2 ^ DIGIT_BIT - 1).

(** [while (q > 0) { ++r; q >>= 1; }] *)
Fixpoint count_bits_loop (n : nat) (q r : Z) : Z :=
  match n with
  | O => r
  | S n => if q >? 0 then count_bits_loop n (Z.shiftr q 1) (r + 1) else r
  end.

Definition mp_count_bits (a : Z) : Z :=
  if mp_used a =? 0 then 0
  else
    let r := (mp_used a - 1) * DIGIT_BIT in
    let q := mp_digit a (mp_used a - 1) in
    count_bits_loop (Z.to_nat DIGIT_BIT) q r.

(** The bytes, least significant first. *)
Fixpoint low_bytes (n : nat) (t : Z) : list Z :=
  match n with
  | O => []
  | S n => if t =? 0 then [] else Z.land (mp_digit t 0) 255 :: low_bytes n (Z.shiftr t 8)
  end.

(** The loop runs once for each byte of [a]. *)
Definition mp_to_unsigned_bin (a : Z) : list Z := rev (low_bytes (Z.to_nat (mp_count_bits a)) a).

(** [mp_mul_2d] by 8, then the byte is or-ed into the lowest digit. *)
Definition mp_read_unsigned_bin (b : list Z) : Z := fold_left (fun a x => Z.lor (Z.shiftl a 8) x) b 0.

Definition buf_putmpint (mp : Z) : prog buffer unit :=
  if mp <? 0 then dropbear_exit "negative bignum"
  else
    let zero := (mp_used mp =? 1) && (mp_digit mp 0 =? 0) in
    let bits := mp_count_bits mp in
    let pad := if zero then 0 else if bits mod 8 =? 0 then 1 else 0 in
    let len := if zero then 0 else bits / 8 + 1 in
    buf_putint len ;;;
    when (len >? 0)
      (when (negb (pad =? 0)) (buf_putbyte 0) ;;;
       p <- buf_getwriteptr (len - pad) ;;
       store_bytes p (mp_to_unsigned_bin mp) ;;;
       buf_incrwritepos (len - pad)).

(** [None] is DROPBEAR_FAILURE. *)
Definition buf_getmpint : prog buffer (option Z) :=
  len <- buf_getint ;;
  if len =? 0 then ret (Some 0)
  else if len >? BUF_MAX_MPINT then ret None
  else
    p <- buf_getptr 1 ;;
    first <- load_bytes p 1 ;;
    match first with
    | [x] =>
        if negb (Z.land x (Z.shiftl 1 7) =? 0) then ret None
        else
          p <- buf_getptr len ;;
          bs <- load_bytes p len ;;
          buf_incrpos len ;;;
          ret (Some (mp_read_unsigned_bin bs))
    | _ => fault "buffer read out of bounds"
    end.

(** ** The representation *)

Lemma mp_digit_top a :
  0 < a -> mp_digit a (mp_used a - 1) = Z.shiftr a ((mp_used a - 1) * DIGIT_BIT) /\
    0 < mp_digit a (mp_used a - 1) < 2 ^ DIGIT_BIT /\
    Z.log2 (mp_digit a (mp_used a - 1)) = Z.log2 a - (mp_used a - 1) * DIGIT_BIT.
Proof.
  intros Ha. unfold mp_used. rewrite (proj2 (Z.eqb_neq a 0)) by lia.
  pose proof (Z.log2_nonneg a) as Hl. set (k := Z.log2 a / DIGIT_BIT). replace (k + 1 - 1) with k by lia.
  assert (Hk : 0 <= k * DIGIT_BIT <= Z.log2 a /\ Z.log2 a < k * DIGIT_BIT + DIGIT_BIT).
  { subst k. unfold DIGIT_BIT. Z.div_mod_to_equations. lia. }
  assert (Hlog : Z.log2 (Z.shiftr a (k * DIGIT_BIT)) = Z.log2 a - k * DIGIT_BIT).
  { rewrite Z.log2_shiftr by lia. lia. }
  assert (Hpos : 0 < Z.shiftr a (k * DIGIT_BIT)).
  { rewrite Z.shiftr_div_pow2 by lia. apply Z.div_str_pos. split; [apply Z.pow_pos_nonneg; lia|].
    eapply Z.le_trans; [|apply (proj1 (Z.log2_spec a Ha))]. apply Z.pow_le_mono_r; lia. }
  assert (Hlt : Z.shiftr a (k * DIGIT_BIT) < 2 ^ DIGIT_BIT).
  { apply Z.log2_lt_pow2; [done|]. lia. }
  assert (E : mp_digit a k = Z.shiftr a (k * DIGIT_BIT)).
  { unfold mp_digit.
    change (2 ^ DIGIT_BIT - 1) with (Z.ones DIGIT_BIT). rewrite Z.land_ones by (by vm_compute). apply Z.mod_small. lia. }
  by rewrite E.
Qed.

Lemma count_bits_loop_ok n q r :
  0 <= q -> (q = 0 \/ Z.log2 q < Z.of_nat n) -> count_bits_loop n q r = r + (if q =? 0 then 0 else Z.log2 q + 1).
Proof.
  revert q r. induction n as [|n IH]; intros q r Hq Hn; cbn [count_bits_loop].
  { destruct Hn as [->|Hn]; [cbn; lia|]. pose proof (Z.log2_nonneg q). lia. }
  rewrite Z.gtb_ltb. destruct (Z.ltb_spec 0 q); [|by replace q with 0 by lia; rewrite Z.add_0_r].
  rewrite (proj2 (Z.eqb_neq q 0)) by lia. destruct Hn as [?|Hn]; [lia|].
  destruct (Z.eq_dec q 1) as [->|Hne].
  { cbn. by destruct n. }
  assert (Hs : Z.log2 (Z.shiftr q 1) = Z.log2 q - 1).
  { rewrite Z.log2_shiftr by lia. assert (1 <= Z.log2 q) by (apply Z.log2_le_pow2; lia). lia. }
  assert (0 < Z.shiftr q 1) by (rewrite Z.shiftr_div_pow2 by lia; apply Z.div_str_pos; lia).
  rewrite IH by lia. rewrite (proj2 (Z.eqb_neq _ 0)) by lia. lia.
Qed.

Lemma mp_count_bits_ok a : 0 <= a -> mp_count_bits a = if a =? 0 then 0 else Z.log2 a + 1.
Proof.
  intros Ha. unfold mp_count_bits. destruct (Z.eqb_spec a 0) as [->|Hne]; [done|].
  assert (Hpos : 0 < a) by lia. destruct (mp_digit_top a Hpos) as (_ & [Hd1 Hd2] & Hl).
  assert (Hu : mp_used a <> 0).
  { unfold mp_used. rewrite (proj2 (Z.eqb_neq a 0)) by done. pose proof (Z.log2_nonneg a). unfold DIGIT_BIT. Z.div_mod_to_equations. lia. }
  rewrite (proj2 (Z.eqb_neq _ 0)) by done. rewrite count_bits_loop_ok.
  - rewrite (proj2 (Z.eqb_neq _ 0)) by lia. lia.
  - lia.
  - right. rewrite Z2Nat.id by (by vm_compute). by apply Z.log2_lt_pow2.
Qed.

Lemma mp_digit_low t : 0 <= t -> Z.land (mp_digit t 0) 255 = t mod 256.
Proof.
  intros Ht. unfold mp_digit. rewrite Z.mul_0_l, Z.shiftr_0_r. change (2 ^ DIGIT_BIT - 1) with (Z.ones DIGIT_BIT).
  change 255 with (Z.ones 8). rewrite <-Z.land_assoc. change (Z.land (Z.ones DIGIT_BIT) (Z.ones 8)) with (Z.ones 8).
  rewrite Z.land_ones by lia. done.
Qed.

Definition read_low (l : list Z) : Z := fold_right (fun x a => Z.lor (Z.shiftl a 8) x) 0 l.

Lemma low_bytes_ok n t :
  0 <= t -> t < 2 ^ Z.of_nat n ->
  bytes (low_bytes n t) /\ read_low (low_bytes n t) = t /\
  zlen (low_bytes n t) = (if t =? 0 then 0 else Z.log2 t / 8 + 1).
Proof.
  revert t. induction n as [|n IH]; intros t Ht Hn; cbn [low_bytes].
  { assert (t = 0) as -> by (cbn in Hn; lia). done. }
  destruct (Z.eqb_spec t 0) as [->|Hne]; [done|].
  rewrite mp_digit_low, Z.shiftr_div_pow2 by lia. change (2 ^ 8) with 256.
  pose proof (Z.mod_pos_bound t 256 ltac:(lia)) as Hm. pose proof (Z.div_pos t 256 Ht ltac:(lia)) as Hd.
  destruct (IH (t / 256) Hd) as (Hb & Hr & Hz).
  { rewrite Nat2Z.inj_succ, Z.pow_succ_r in Hn by lia. Z.div_mod_to_equations. lia. }
  split; [by constructor|]. split.
  - change (Z.lor (Z.shiftl (read_low (low_bytes n (t / 256))) 8) (t mod 256) = t).
    rewrite Hr, lor_add_shift by (cbn; lia). change (2 ^ 8) with 256. Z.div_mod_to_equations. lia.
  - rewrite zlen_cons, Hz. destruct (Z.eqb_spec (t / 256) 0) as [E|E].
    + assert (Hlt : t < 256) by (Z.div_mod_to_equations; lia).
      assert (Z.log2 t < 8) by (apply Z.log2_lt_pow2; [lia|exact Hlt]). pose proof (Z.log2_nonneg t).
      rewrite Z.div_small by lia. lia.
    + assert (Hlog : Z.log2 (t / 256) = Z.log2 t - 8).
      { change 256 with (2 ^ 8). rewrite <-Z.shiftr_div_pow2, Z.log2_shiftr by lia.
        assert (Hge : 2 ^ 8 <= t) by (change (2 ^ 8) with 256; Z.div_mod_to_equations; lia).
        apply Z.log2_le_pow2 in Hge; lia. }
      rewrite Hlog. replace (Z.log2 t) with (Z.log2 t - 8 + 1 * 8) at 2 by lia. rewrite Z.div_add by lia. lia.
Qed.

Lemma mp_read_rev l : mp_read_unsigned_bin (rev l) = read_low l.
Proof. unfold mp_read_unsigned_bin, read_low. by rewrite <-fold_left_rev_right, rev_involutive. Qed.

Lemma mp_to_unsigned_bin_ok a :
  0 <= a -> bytes (mp_to_unsigned_bin a) /\ mp_read_unsigned_bin (mp_to_unsigned_bin a) = a /\
    zlen (mp_to_unsigned_bin a) = (if a =? 0 then 0 else Z.log2 a / 8 + 1).
Proof.
  intros Ha. unfold mp_to_unsigned_bin. rewrite mp_read_rev.
  assert (Hlt : a < 2 ^ Z.of_nat (Z.to_nat (mp_count_bits a))).
  { rewrite mp_count_bits_ok by done. destruct (Z.eqb_spec a 0) as [->|Hne]; [done|].
    pose proof (Z.log2_nonneg a). rewrite Z2Nat.id by lia. apply Z.log2_lt_pow2; lia. }
  destruct (low_bytes_ok _ a Ha Hlt) as (Hb & Hr & Hz). split; [by apply Forall_rev|]. split; [done|].
  rewrite <-Hz. unfold zlen. by rewrite length_rev.
Qed.

(** ** The encoding *)

(** The content of the string. *)
Definition mpint_bytes (a : Z) : list Z :=
  (if mp_count_bits a mod 8 =? 0 then [0] else []) ++ mp_to_unsigned_bin a.

Definition encode_mpint (a : Z) : list Z := store32h (zlen (mpint_bytes a)) ++ mpint_bytes a.

Lemma mpint_len a : 0 <= a -> zlen (mpint_bytes a) = mp_count_bits a / 8 + 1.
Proof.
  intros Ha. unfold mpint_bytes. rewrite zlen_app. destruct (mp_to_unsigned_bin_ok a Ha) as (_ & _ & ->).
  rewrite mp_count_bits_ok by done. destruct (Z.eqb_spec a 0) as [->|Hne]; [done|]. pose proof (Z.log2_nonneg a).
  destruct (Z.eqb_spec ((Z.log2 a + 1) mod 8) 0); [change (zlen [0]) with 1|rewrite zlen_nil]; Z.div_mod_to_equations; lia.
Qed.

Lemma read_acc l acc :
  0 <= acc -> bytes l ->
  acc * 2 ^ (8 * zlen l) <= fold_left (fun a x => Z.lor (Z.shiftl a 8) x) l acc < (acc + 1) * 2 ^ (8 * zlen l).
Proof.
  intros Ha Hb. revert acc Ha. induction Hb as [|x l [Hx1 Hx2] _ IH]; intros acc Ha.
  { change (2 ^ (8 * zlen (@nil Z))) with 1. cbn. lia. }
  cbn [fold_left]. rewrite lor_add_shift by (cbn; lia). change (2 ^ 8) with 256.
  specialize (IH (acc * 256 + x) ltac:(lia)). pose proof (zlen_nonneg l). rewrite zlen_cons.
  replace (8 * (1 + zlen l)) with (8 + 8 * zlen l) by lia. rewrite Z.pow_add_r by lia. change (2 ^ 8) with 256.
  assert (0 < 2 ^ (8 * zlen l)) by (apply Z.pow_pos_nonneg; lia). nia.
Qed.

(** The top byte is below 128: the sign bit is clear. *)
Lemma mpint_head a : 0 <= a -> exists x l, mpint_bytes a = x :: l /\ 0 <= x < 128.
Proof.
  intros Ha. unfold mpint_bytes. destruct (Z.eqb_spec (mp_count_bits a mod 8) 0) as [E|E]; [by eexists _, _|].
  destruct (mp_to_unsigned_bin_ok a Ha) as (Hb & Hr & Hz). rewrite mp_count_bits_ok in E by done.
  destruct (Z.eqb_spec a 0) as [->|Hne]; [done|]. pose proof (Z.log2_nonneg a) as Hlog.
  destruct (mp_to_unsigned_bin a) as [|x l]; [rewrite zlen_nil in Hz; Z.div_mod_to_equations; lia|].
  exists x, l. split; [done|]. apply Forall_cons_1 in Hb as [[Hx1 Hx2] Hb]. split; [done|].
  destruct (Z.lt_ge_cases x 128) as [|Hge]; [done|exfalso]. apply E.
  unfold mp_read_unsigned_bin in Hr. cbn [fold_left] in Hr. change (Z.lor (Z.shiftl 0 8) x) with x in Hr.
  destruct (read_acc l x Hx1 Hb) as [Hlo _]. rewrite Hr in Hlo. rewrite zlen_cons in Hz.
  assert (Hp : 2 ^ (7 + 8 * zlen l) <= a).
  { eapply Z.le_trans; [|exact Hlo]. rewrite Z.pow_add_r by (pose proof (zlen_nonneg l); lia). change (2 ^ 7) with 128.
    apply Z.mul_le_mono_nonneg_r; [apply Z.pow_nonneg; lia|done]. }
  apply Z.log2_le_pow2 in Hp; [|lia]. Z.div_mod_to_equations. lia.
Qed.

Lemma mpint_bytes_ok a : 0 <= a -> bytes (mpint_bytes a) /\ mp_read_unsigned_bin (mpint_bytes a) = a.
Proof.
  intros Ha. destruct (mp_to_unsigned_bin_ok a Ha) as (Hb & Hr & _). unfold mpint_bytes.
  destruct (mp_count_bits a mod 8 =? 0); [|done]. split; [by constructor|]. exact Hr.
Qed.

Lemma putmpint_zero_test a : 0 <= a -> (mp_used a =? 1) && (mp_digit a 0 =? 0) = false.
Proof.
  intros Ha. destruct (Z.eqb_spec (mp_used a) 1) as [E|]; [|done]. cbn [andb].
  assert (Hp : 0 < a) by (unfold mp_used in E; destruct (Z.eqb_spec a 0); lia).
  destruct (mp_digit_top a Hp) as (_ & [Hd _] & _). rewrite E in Hd. change (1 - 1) with 0 in Hd.
  by apply Z.eqb_neq; lia.
Qed.

Lemma repr_putmpint b pre room a :
  0 <= a -> buf_repr b pre [] room -> zlen (encode_mpint a) <= room ->
  exists b', buf_putmpint a b = Ok (tt, b') /\ buf_repr b' (pre ++ encode_mpint a) [] (room - zlen (encode_mpint a)).
Proof.
  intros Ha H Hroom. pose proof (mpint_len a Ha) as Hlen. destruct (mp_to_unsigned_bin_ok a Ha) as (Hb & _ & _).
  unfold encode_mpint in *. rewrite zlen_app, zlen_store32h in Hroom.
  assert (Hnil : forall n, post_after n [] = []) by (intros; apply drop_nil).
  assert (Hra : forall n r, 0 <= n -> room_after n [] r = r - n) by (intros; unfold room_after, zlen; cbn; lia).
  unfold buf_putmpint. rewrite (proj2 (Z.ltb_ge a 0)) by lia. rewrite (putmpint_zero_test a Ha). cbv zeta.
  rewrite <-Hlen. set (n := zlen (mpint_bytes a)) in *. set (pad := if mp_count_bits a mod 8 =? 0 then 1 else 0).
  assert (Hpad : mpint_bytes a = replicate (Z.to_nat pad) 0 ++ mp_to_unsigned_bin a /\ (pad = 0 \/ pad = 1))
    by (unfold mpint_bytes, pad; destruct (mp_count_bits a mod 8 =? 0); auto).
  destruct Hpad as [Hm Hpad]. assert (Hn : n = pad + zlen (mp_to_unsigned_bin a)).
  { unfold n. rewrite Hm, zlen_app. unfold zlen at 1. rewrite length_replicate. lia. }
  assert (Hpos : 0 < n) by (destruct (mpint_head a Ha) as (x & l & E & _); unfold n; rewrite E, zlen_cons; pose proof (zlen_nonneg l); lia).
  destruct (repr_putint b pre [] room n H) as (b1 & E1 & H1); [rewrite zlen_nil; lia|]. rewrite Hnil, Hra in H1 by lia.
  rewrite (bind_ok _ _ _ _ _ E1), Z.gtb_ltb, (proj2 (Z.ltb_lt 0 n)) by done. cbn [when].
  assert (Hp : exists b2, (when (negb (pad =? 0)) (buf_putbyte 0)) b1 = Ok (tt, b2) /\
    buf_repr b2 ((pre ++ store32h n) ++ replicate (Z.to_nat pad) 0) [] (room - 4 - pad)).
  { destruct Hpad as [Ep|Ep]; rewrite Ep; cbn [negb Z.eqb when].
    - exists b1. change (Z.to_nat 0) with 0%nat. cbn [replicate]. rewrite app_nil_r, Z.sub_0_r. done.
    - destruct (repr_putbyte b1 _ _ _ 0 H1) as (b2 & E2 & H2); [by vm_compute|rewrite zlen_nil; lia|].
      rewrite Hnil, Hra in H2 by lia. by exists b2. }
  destruct Hp as (b2 & E2 & H2). rewrite (bind_ok _ _ _ _ _ E2).
  replace (n - pad) with (zlen (mp_to_unsigned_bin a)) by lia. pose proof (zlen_nonneg (mp_to_unsigned_bin a)) as Hz.
  assert (Eg : buf_getwriteptr (zlen (mp_to_unsigned_bin a)) b2 = Ok (b_pos b2, b2))
    by (eapply repr_getwriteptr; [exact H2|change (zlen (@nil Z)) with 0; lia]).
  rewrite (bind_ok _ _ _ _ _ Eg).
  destruct (repr_write b2 _ _ _ (mp_to_unsigned_bin a) H2 Hb) as (b3 & b4 & E3 & E4 & H4); [rewrite zlen_nil; lia|].
  rewrite (bind_ok _ _ _ _ _ E3). exists b4. split; [done|]. rewrite Hnil, Hra in H4 by lia.
  assert (E : ((pre ++ store32h n) ++ replicate (Z.to_nat pad) 0) ++ mp_to_unsigned_bin a = pre ++ store32h n ++ mpint_bytes a)
    by (rewrite Hm; by rewrite <-!app_assoc).
  rewrite E in H4. rewrite zlen_app, zlen_store32h. fold n.
  by replace (room - (4 + n)) with (room - 4 - pad - zlen (mp_to_unsigned_bin a)) by lia.
Qed.

Lemma repr_getmpint b pre a post room :
  0 <= a -> zlen (mpint_bytes a) <= BUF_MAX_MPINT ->
  buf_repr b pre (encode_mpint a ++ post) room ->
  exists b', buf_getmpint b = Ok (Some a, b') /\ buf_repr b' (pre ++ encode_mpint a) post room.
Proof.
  intros Ha Hlen H. unfold encode_mpint in *. rewrite <-app_assoc in H.
  destruct (mpint_head a Ha) as (x & l & E & Hx). destruct (mpint_bytes_ok a Ha) as [Hb Hr].
  assert (Hpos : 0 < zlen (mpint_bytes a)) by (rewrite E, zlen_cons; pose proof (zlen_nonneg l); lia).
  unfold BUF_MAX_MPINT in Hlen. change (8240 / 8) with 1030 in Hlen.
  destruct (repr_getint b pre (zlen (mpint_bytes a)) (mpint_bytes a ++ post) room) as (b1 & E1 & H1);
    [unfold is_u32; lia|exact H|].
  unfold buf_getmpint. rewrite (bind_ok _ _ _ _ _ E1), (proj2 (Z.eqb_neq _ 0)) by lia.
  rewrite Z.gtb_ltb, (proj2 (Z.ltb_ge _ _)) by (unfold BUF_MAX_MPINT; change (8240 / 8) with 1030; lia).
  assert (H1' : buf_repr b1 (pre ++ store32h (zlen (mpint_bytes a))) ([x] ++ l ++ post) room) by (by rewrite E in H1 at 2).
  rewrite (bind_ok _ _ _ _ _ (repr_getptr b1 _ [x] _ _ 1 eq_refl H1')).
  rewrite (bind_ok _ _ _ _ _ (repr_load b1 _ [x] _ _ 1 eq_refl H1')).
  assert (Hland : Z.land x (Z.shiftl 1 7) = 0).
  { apply Z.bits_inj'. intros k Hk. rewrite Z.land_spec, Z.bits_0, Z.shiftl_1_l.
    destruct (Z.eq_dec k 7) as [->|Hne]; [|rewrite Z.pow2_bits_false by lia; by rewrite andb_false_r].
    destruct (Z.eq_dec x 0) as [->|]; [done|]. rewrite Z.bits_above_log2; [done|lia|].
    apply Z.log2_lt_pow2; [lia|]. change (2 ^ 7) with 128. lia. }
  rewrite Hland. cbn [negb Z.eqb].
  rewrite (bind_ok _ _ _ _ _ (repr_getptr b1 _ _ _ _ _ eq_refl H1)).
  rewrite (bind_ok _ _ _ _ _ (repr_load b1 _ _ _ _ _ eq_refl H1)).
  destruct (repr_incrpos b1 _ _ _ _ _ eq_refl H1) as (b2 & E2 & H2). rewrite (bind_ok _ _ _ _ _ E2), Hr.
  exists b2. split; [done|]. by rewrite <-app_assoc in H2.
Qed.

(** ** Safety *)

(** Writing a number: it fits or the session ends. *)
Lemma wp_putmpint a b : wf_buffer b -> a < 2 ^ 8240 -> wp (buf_putmpint a) (fun _ b' => wf_buffer b') b.
Proof.
  intros Hwf Hlt. unfold buf_putmpint. destruct (Z.ltb_spec a 0) as [|Ha]; [done|].
  rewrite putmpint_zero_test by done. cbn [andb].
  destruct (mp_to_unsigned_bin_ok a Ha) as (Hb & _ & Hz).
  assert (Hbits : 0 <= mp_count_bits a <= 8240).
  { rewrite mp_count_bits_ok by done. destruct (Z.eqb_spec a 0); [lia|]. pose proof (Z.log2_nonneg a).
    assert (Z.log2 a < 8240) by (apply Z.log2_lt_pow2; [lia|exact Hlt]). lia. }
  set (pad := if mp_count_bits a mod 8 =? 0 then 1 else 0).
  assert (Hlen : mp_count_bits a / 8 + 1 - pad = zlen (mp_to_unsigned_bin a)).
  { rewrite Hz. unfold pad. rewrite mp_count_bits_ok by done. destruct (Z.eqb_spec a 0) as [->|]; [done|]. pose proof (Z.log2_nonneg a).
    destruct (Z.eqb_spec ((Z.log2 a + 1) mod 8) 0); Z.div_mod_to_equations; lia. }
  apply wp_bind. eapply wp_mono; [by apply wp_putint|]. cbn beta. intros [] b1 Hb1. apply wp_when; [|done]. intros _.
  apply wp_bind, (wp_mono _ (fun _ b' => wf_buffer b')).
  { apply wp_when; [|done]. intros _. by apply wp_putbyte. }
  intros [] b2 Hb2. rewrite Hlen. apply wp_write; [done|done|done|].
  rewrite <-Hlen. change OBJECT_MAX with 2147483647. assert (mp_count_bits a / 8 <= 1030) by (apply Z.div_le_upper_bound; lia). unfold pad. destruct (mp_count_bits a mod 8 =? 0); lia.
Qed.

Lemma wp_getmpint b : wf_buffer b -> wp buf_getmpint (fun _ b' => wf_buffer b') b.
Proof.
  intros Hwf. unfold buf_getmpint. apply wp_bind. eapply wp_mono; [by apply wp_getint|]. cbn beta. intros len b1 [Hlen Hb1].
  destruct (len =? 0); [done|]. rewrite Z.gtb_ltb. destruct (Z.ltb_spec BUF_MAX_MPINT len) as [|Hmax]; [done|].
  assert (Hobj : len <= OBJECT_MAX) by (change BUF_MAX_MPINT with 1030 in Hmax; change OBJECT_MAX with 2147483647; lia).
  apply wp_bind. eapply wp_mono; [by apply wp_getptr|]. cbn beta. intros p ? (-> & -> & Hle).
  pose proof Hb1 as (Hp & Hl & Hs & _).
  apply wp_bind, wp_load_bytes; [done|lia|lia|lia|]. intros l Hl1 _. destruct l as [|x [|]]; try discriminate Hl1;
    [|rewrite !zlen_cons in Hl1; pose proof (zlen_nonneg l); lia].
  destruct (negb _); [done|]. apply wp_bind. eapply wp_mono; [by apply wp_getptr|]. cbn beta. intros p ? (-> & -> & Hle').
  unfold is_u32 in Hlen. apply wp_bind, wp_load_bytes; [done|lia|lia|lia|]. intros bs _ _.
  apply wp_bind. eapply wp_mono; [apply wp_incrpos; [done|change BUF_MAX_MPINT with 1030 in Hmax; lia]|]. done.
Qed.

(** An mpint written to a buffer is read back as the same number and the
    position ends up behind it, for every number that is not negative and fits
    the reader's limit; the bytes written are the number in big-endian order
    with the sign bit clear. *)
Theorem mpint_roundtrip a size post :
  0 <= a -> zlen (mpint_bytes a) <= BUF_MAX_MPINT -> zlen (encode_mpint a) + zlen post <= size <= BUF_MAX_SIZE -> bytes post ->
  mp_read_unsigned_bin (mpint_bytes a) = a /\
  exists b0 b b',
    buf_new size tt = Ok (b0, tt) /\
    (buf_putmpint a ;;; buf_putbytes post (zlen post) ;;; buf_setpos 0) b0 = Ok (tt, b) /\
    buf_repr b [] (encode_mpint a ++ post) (size - zlen (encode_mpint a) - zlen post) /\
    buf_getmpint b = Ok (Some a, b') /\
    buf_repr b' (encode_mpint a) post (size - zlen (encode_mpint a) - zlen post).
Proof.
  intros Ha Hlen [Hsize Hmax] Hpost. split; [by apply mpint_bytes_ok|].
  pose proof (zlen_nonneg post) as Hz1. pose proof (zlen_nonneg (encode_mpint a)) as Hz2.
  destruct (repr_buf_new size tt) as (b0 & E0 & H0); [lia|].
  destruct (repr_putmpint b0 [] size a Ha H0) as (b1 & E1 & H1); [lia|].
  destruct (repr_putbytes b1 _ [] _ post _ eq_refl H1 Hpost) as (b2 & E2 & H2); [rewrite zlen_nil; lia|].
  destruct (repr_rewind b2 _ _ _ H2) as (b3 & E3 & H3).
  assert (H3' : buf_repr b3 [] (encode_mpint a ++ post) (size - zlen (encode_mpint a) - zlen post)).
  { unfold post_after, room_after, zdrop in H3. change (zlen (@nil Z)) with 0 in H3. rewrite drop_nil, app_nil_r in H3.
    rewrite Z.sub_0_r, Z.max_r in H3 by done. exact H3. }
  destruct (repr_getmpint b3 [] a post _ Ha Hlen H3') as (b4 & E4 & H4).
  exists b0, b3, b4. rewrite (bind_ok _ _ _ _ _ E1), (bind_ok _ _ _ _ _ E2). by rewrite E3.
Qed.

Lemma mpint_roundtrip_witness :
  mp_read_unsigned_bin (mpint_bytes 40000) = 40000 /\
  exists b0 b b',
    buf_new 16 tt = Ok (b0, tt) /\
    (buf_putmpint 40000 ;;; buf_putbytes [7] (zlen [7]) ;;; buf_setpos 0) b0 = Ok (tt, b) /\
    buf_repr b [] (encode_mpint 40000 ++ [7]) (16 - zlen (encode_mpint 40000) - zlen [7]) /\
    buf_getmpint b = Ok (Some 40000, b') /\
    buf_repr b' (encode_mpint 40000) [7] (16 - zlen (encode_mpint 40000) - zlen [7]).
Proof.
  apply (mpint_roundtrip 40000 16 [7]); [done|by vm_compute|split; by vm_compute|by repeat constructor].
Defined.

(** Zero is written as a string of one zero byte, where RFC 4251 asks for
    an empty string: the test for zero looks for one digit, and a normalised
    zero has none. *)
Theorem putmpint_zero :
  match (b <- buf_new 8 ;; ret b) tt with
  | Ok (b, _) => match buf_putmpint 0 b with Ok (_, b) => ztake (b_len b) (b_data b) = [0; 0; 0; 1; 0] | _ => False end
  | _ => False
  end.
Proof. vm_compute. reflexivity. Qed.
