(* ===== verification/Bignum.v ===== *)
(** The modular arithmetic of libtommath that the signature code calls:
    mp_mod, mp_mulmod, mp_addmod, mp_unsigned_bin_size and mp_invmod, the last
    as its two binary extended Euclidean loops, with what each of them
    computes and when mp_invmod returns; and numbers written into a buffer at
    a fixed length, as both signature formats have them. *)

From S2P Require Import Prelude Dbutil Buffer Mpint.

Local Open Scope Z_scope.

(** ** Code *)

(** An operation's error code and result: [None] is MP_VAL. *)
Definition mp_mod (a b : Z) : option Z :=
  if b =? 0 then None
  else
    let t := Z.rem a b in
    Some (if Bool.eqb (t <? 0) (b <? 0) then t else b + t).

Definition mp_mulmod (a b c : Z) : option Z := mp_mod (a * b) c.
Definition mp_addmod (a b c : Z) : option Z := mp_mod (a + b) c.

Definition mp_unsigned_bin_size (a : Z) : Z :=
  let size := mp_count_bits a in
  size / 8 + (if negb (Z.land size 7 =? 0) then 1 else 0).

(** [mp_iseven] and [mp_isodd] are both false of zero. *)
Definition mp_iseven (a : Z) : bool := negb (a =? 0) && Z.even a.
Definition mp_isodd (a : Z) : bool := negb (a =? 0) && Z.odd a.
Definition mp_div_2 (a : Z) : Z := Z.quot a 2.

(** [while (mp_iseven(&u)) { u = u/2; f }], for [u] not negative: the loop
    removes the low zero bits of [u]. *)
Section Halve.
Context {A : Type} (f : A -> A).
Fixpoint halve_pos (u : positive) (c : A) : positive * A :=
  match u with
  | xO u => halve_pos u (f c)
  | _ => (u, c)
  end.
Definition halve (u : Z) (c : A) : Z * A :=
  match u with
  | Zpos u => let '(u, c) := halve_pos u c in (Zpos u, c)
  | _ => (u, c)
  end.
End Halve.

(** What the loop of fast_mp_invmod does to B while it halves [u]. *)
Definition fast_step (x B : Z) : Z := mp_div_2 (if mp_isodd B then B - x else B).

(** From the label [top]; [None]: the loop has not ended after [n] rounds. *)
Fixpoint fast_top (n : nat) (x u v B D : Z) : option (Z * Z) :=
  match n with
  | O => None
  | S n =>
      let '(u, B) := halve (fast_step x) u B in
      let '(v, D) := halve (fast_step x) v D in
      let '(u, v, B, D) := if negb (u <? v) then (u - v, v, B - D, D) else (u, v - u, B, D - B) in
      if negb (u =? 0) then fast_top n x u v B D else Some (v, D)
  end.

(** [while (D.sign == MP_NEG) D = D + b], then the excess of mp_invmod_slow. *)
Fixpoint too_low (n : nat) (b D : Z) : Z :=
  match n with
  | O => D
  | S n => if D <? 0 then too_low n b (D + b) else D
  end.
Fixpoint too_big (n : nat) (b C : Z) : Z :=
  match n with
  | O => C
  | S n => if negb (Z.abs C <? Z.abs b) then too_big n b (C - b) else C
  end.
Definition rounds_for (b D : Z) : nat := Z.to_nat (Z.abs D / b + 1).

(** The outcome of mp_invmod: [None] is MP_VAL. *)
Definition fast_mp_invmod (n : nat) (a b : Z) : option (option Z) :=
  if mp_iseven b then Some None
  else
    let x := b in
    let y := default 0 (mp_mod a b) in
    match fast_top n x x y 0 1 with
    | None => None
    | Some (v, D) =>
        if negb (v =? 1) then Some None
        else let D := too_low (rounds_for b D) b D in Some (Some (if a <? 0 then - D else D))
    end.

(** The coefficients of mp_invmod_slow. *)
Definition slow_step (x y : Z) (c : Z * Z) : Z * Z :=
  let '(A, B) := c in
  let '(A, B) := if mp_isodd A || mp_isodd B then (A + y, B - x) else (A, B) in
  (mp_div_2 A, mp_div_2 B).

Fixpoint slow_top (n : nat) (x y u v A B C D : Z) : option (Z * Z) :=
  match n with
  | O => None
  | S n =>
      let '(u, (A, B)) := halve (slow_step x y) u (A, B) in
      let '(v, (C, D)) := halve (slow_step x y) v (C, D) in
      let '(u, v, A, B, C, D) :=
        if negb (u <? v) then (u - v, v, A - C, B - D, C, D) else (u, v - u, A, B, C - A, D - B) in
      if negb (u =? 0) then slow_top n x y u v A B C D else Some (v, C)
  end.

Definition mp_invmod_slow (n : nat) (a b : Z) : option (option Z) :=
  if (b <? 0) || (b =? 0) then Some None
  else
    let x := default 0 (mp_mod a b) in
    let y := b in
    if mp_iseven x && mp_iseven y then Some None
    else
      match slow_top n x y x y 1 0 0 1 with
      | None => None
      | Some (v, C) =>
          if negb (v =? 1) then Some None
          else
            let C := too_low (rounds_for b C) b C in
            Some (Some (too_big (rounds_for b C) b C))
      end.

Definition invmod_rounds (n : nat) (a b : Z) : option (option Z) :=
  if (b <? 0) || (b =? 0) then Some None
  else if mp_isodd b then fast_mp_invmod n a b
  else mp_invmod_slow n a b.

(** Enough rounds whenever the loop ends at all (invmod_enough). *)
Definition invmod_bound (b : Z) : nat := Z.to_nat (2 * Z.log2 b + 2).

(** [mp_invmod(a, b)]: a call that never returns is a fault of the caller. *)
Definition mp_invmod {S} (a b : Z) : prog S (option Z) :=
  match invmod_rounds (invmod_bound b) a b with
  | Some r => ret r
  | None => fault "mp_invmod does not return"
  end.

(** [for (i = 0; i < n; i++) buf_putbyte(buf, 0)] *)
Fixpoint put_zeros (n : nat) : prog buffer unit :=
  match n with
  | O => ret tt
  | S n => (buf_putbyte 0 ;;; put_zeros n)%prog
  end.

(** A number padded with leading zeros to [size] bytes. *)
Definition put_padded (size mp : Z) : prog buffer unit :=
  (let writelen := mp_unsigned_bin_size mp in
   dropbear_assert (writelen <=? size) ;;;
   put_zeros (Z.to_nat (size - writelen)) ;;;
   p <- buf_getwriteptr writelen ;;
   store_bytes p (mp_to_unsigned_bin mp) ;;;
   buf_incrwritepos writelen)%prog.

(** ** mp_mod and the sizes *)

Lemma mp_mod_ok a b : 0 < b -> mp_mod a b = Some (a mod b).
Proof.
  intros Hb. unfold mp_mod. rewrite (proj2 (Z.eqb_neq b 0)), (proj2 (Z.ltb_ge b 0)) by lia. f_equal.
  pose proof (Z.quot_rem' a b) as E. pose proof (Z.mod_pos_bound a b Hb) as Hm. pose proof (Z.div_mod a b) as Ed.
  destruct (Z.ltb_spec (Z.rem a b) 0) as [Hn|Hn]; cbn [Bool.eqb].
  - assert (Hr : - b < Z.rem a b) by (pose proof (Z.rem_bound_abs a b); lia). apply Z.mod_unique_pos with (Z.quot a b - 1); lia.
  - assert (Hr : Z.rem a b < b) by (pose proof (Z.rem_bound_abs a b); lia). apply Z.mod_unique_pos with (Z.quot a b); lia.
Qed.

Lemma mp_mod_zero a : mp_mod a 0 = None.
Proof. done. Qed.

Lemma mp_mulmod_ok a b c : 0 < c -> mp_mulmod a b c = Some ((a * b) mod c).
Proof. apply mp_mod_ok. Qed.

Lemma mp_addmod_ok a b c : 0 < c -> mp_addmod a b c = Some ((a + b) mod c).
Proof. apply mp_mod_ok. Qed.

Lemma mp_unsigned_bin_size_ok a : 0 <= a -> mp_unsigned_bin_size a = zlen (mp_to_unsigned_bin a).
Proof.
  intros Ha. destruct (mp_to_unsigned_bin_ok a Ha) as (_ & _ & ->). unfold mp_unsigned_bin_size. rewrite mp_count_bits_ok by done.
  change 7 with (Z.ones 3). rewrite Z.land_ones by lia. change (2 ^ 3) with 8.
  destruct (Z.eqb_spec a 0) as [->|Hne]; [done|]. pose proof (Z.log2_nonneg a).
  destruct (Z.eqb_spec ((Z.log2 a + 1) mod 8) 0); cbn [negb]; Z.div_mod_to_equations; lia.
Qed.

(** A number below [n] is no longer than [n]. *)
Lemma bin_size_mono a n : 0 <= a < n -> mp_unsigned_bin_size a <= mp_unsigned_bin_size n.
Proof.
  intros [Ha Hn]. rewrite !mp_unsigned_bin_size_ok by lia.
  destruct (mp_to_unsigned_bin_ok a Ha) as (_ & _ & ->), (mp_to_unsigned_bin_ok n ltac:(lia)) as (_ & _ & ->).
  rewrite (proj2 (Z.eqb_neq n 0)) by lia. pose proof (Z.log2_nonneg n). destruct (Z.eqb_spec a 0); [Z.div_mod_to_equations; lia|].
  pose proof (Z.log2_le_mono a n ltac:(lia)). pose proof (Z.div_le_mono (Z.log2 a) (Z.log2 n) 8). lia.
Qed.

(** ** The loops *)

Lemma iseven_ok a : a <> 0 -> mp_iseven a = Z.even a.
Proof. intros Ha. unfold mp_iseven. by rewrite (proj2 (Z.eqb_neq a 0)). Qed.
Lemma isodd_ok a : mp_isodd a = Z.odd a.
Proof. unfold mp_isodd. by destruct (Z.eqb_spec a 0) as [->|]. Qed.

Lemma div2_exact a k : a = 2 * k -> mp_div_2 a = k.
Proof. intros ->. unfold mp_div_2. rewrite Z.mul_comm. by apply Z.quot_mul. Qed.

Lemma odd_split a : Z.odd a = true -> exists k, a = 2 * k + 1.
Proof. intros H%Zodd_bool_iff%Zodd_ex. exact H. Qed.
Lemma even_split a : Z.odd a = false -> exists k, a = 2 * k.
Proof. intros H. rewrite <-Z.negb_even in H. apply negb_false_iff, Zeven_bool_iff, Zeven_ex in H. exact H. Qed.

(** An odd divisor of [2 * u] divides [u]. *)
Lemma odd_divides_double k u : Z.odd k = true -> (k | 2 * u) -> (k | u).
Proof.
  intros [m Hk]%odd_split [w Hw]. exists (u - m * w). nia.
Qed.

Section Halve.
Context {A : Type} (f : A -> A) (R : Z -> A -> Prop).
Hypothesis R_half : forall u c, 0 < u -> R (2 * u) c -> R u (f c).

Lemma halve_zero c : halve f 0 c = (0, c).
Proof. done. Qed.

(** What the inner loop leaves: the odd part. *)
Lemma halve_ok u c : 0 < u -> R u c ->
  exists u' c', halve f u c = (u', c') /\ 0 < u' /\ Z.odd u' = true /\ R u' c' /\ u' <= (if Z.even u then u / 2 else u) /\
    (forall k, Z.odd k = true -> (k | u') <-> (k | u)).
Proof.
  destruct u as [|u|u]; [done| |done]. intros _. cbn [halve]. revert c. induction u as [u IH|u IH|]; intros c Hc; cbn [halve_pos].
  - eexists _, _. split; [done|]. cbn. split_and!; [lia|done|done|lia|done].
  - assert (Hc' : R (Z.pos u) (f c)) by (apply R_half; [lia|by rewrite <-Pos2Z.inj_xO]).
    destruct (IH _ Hc') as (u' & c' & E & Hpos & Hodd & HR & Hle & Hdiv). exists u', c'. split; [done|]. split_and!; [done|done|done| |].
    + change (Z.even (Z.pos u~0)) with true. cbn iota. rewrite (Pos2Z.inj_xO u), Z.mul_comm, Z.div_mul by done.
      destruct (Z.even (Z.pos u)); [Z.div_mod_to_equations; lia|done].
    + intros k Hk. rewrite Hdiv by done. rewrite (Pos2Z.inj_xO u). split; [apply Z.divide_mul_r|by apply odd_divides_double].
  - eexists _, _. split; [done|]. cbn. split_and!; [lia|done|done|lia|done].
Qed.
End Halve.

(** Both loops are one: the coefficients differ. *)
Fixpoint euclid_top {A} (f : A -> A) (sub : A -> A -> A) (n : nat) (u v : Z) (c d : A) : option (Z * A) :=
  match n with
  | O => None
  | S n =>
      let '(u, c) := halve f u c in
      let '(v, d) := halve f v d in
      let '(u, v, c, d) := if negb (u <? v) then (u - v, v, sub c d, d) else (u, v - u, c, sub d c) in
      if negb (u =? 0) then euclid_top f sub n u v c d else Some (v, d)
  end.

Lemma fast_top_euclid n x u v B D : fast_top n x u v B D = euclid_top (fast_step x) Z.sub n u v B D.
Proof.
  revert u v B D. induction n as [|n IH]; intros u v B D; [done|]. cbn [fast_top euclid_top].
  destruct (halve _ u B) as [u' B'], (halve _ v D) as [v' D']. destruct (negb (u' <? v')); by rewrite IH.
Qed.

Definition pair_sub (a b : Z * Z) : Z * Z := (fst a - fst b, snd a - snd b).

Lemma slow_top_euclid n x y u v A B C D :
  slow_top n x y u v A B C D = option_map (fun r => (fst r, fst (snd r))) (euclid_top (slow_step x y) pair_sub n u v (A, B) (C, D)).
Proof.
  revert u v A B C D. induction n as [|n IH]; intros u v A B C D; [done|]. cbn [slow_top euclid_top].
  destruct (halve _ u (A, B)) as [u' [A' B']], (halve _ v (C, D)) as [v' [C' D']].
  unfold pair_sub. cbn [fst snd]. destruct (negb (u' <? v')), (negb (_ =? 0)); try done; by rewrite IH.
Qed.

Section Euclid.
Context {A : Type} (f : A -> A) (sub : A -> A -> A) (R : Z -> A -> Prop).
Hypothesis R_half : forall u c, 0 < u -> R (2 * u) c -> R u (f c).
Hypothesis R_sub : forall u v c d, R u c -> R v d -> R (u - v) (sub c d).

(** Zero on the right: [u - v] stays [u]. *)
Lemma euclid_hangs n u c d : 0 < u -> euclid_top f sub n u 0 c d = None.
Proof.
  revert u c. induction n as [|n IH]; intros u c Hu; [done|]. cbn [euclid_top].
  destruct (halve_ok f (fun _ _ => True) (fun _ _ _ _ => I) u c Hu I) as (u' & c' & E & Hpos & _). rewrite E, halve_zero.
  rewrite (proj2 (Z.ltb_ge u' 0)) by lia. cbn [negb]. rewrite Z.sub_0_r, (proj2 (Z.eqb_neq u' 0)) by lia. by apply IH.
Qed.

(** Each round but the first starts with an even number. *)
Definition rounds_left (u v : Z) : Z := Z.log2 u + Z.log2 v - (if Z.even u || Z.even v then 1 else 0).

Lemma rounds_halved u v u' v' : 0 < u' -> 0 < v' ->
  u' <= (if Z.even u then u / 2 else u) -> v' <= (if Z.even v then v / 2 else v) -> Z.log2 u' + Z.log2 v' <= rounds_left u v.
Proof.
  assert (Hhalf : forall u u', 0 < u' -> u' <= u / 2 -> Z.log2 u' <= Z.log2 u - 1).
  { intros w w' Hw Hle. assert (2 * w' <= w) by (Z.div_mod_to_equations; lia).
    pose proof (Z.log2_le_mono (2 * w') w ltac:(lia)). rewrite Z.log2_double in * by done. lia. }
  intros Hu Hv Hu' Hv'. unfold rounds_left. pose proof (Z.log2_le_mono u' u). pose proof (Z.log2_le_mono v' v).
  destruct (Z.even u) eqn:Eu; cbn [orb]; [apply Hhalf in Hu'; [|done]|];
    (destruct (Z.even v) eqn:Ev; [apply Hhalf in Hv'; [|done]|]); lia.
Qed.

(** The loop ends with the odd part of the greatest common divisor. *)
Lemma euclid_ok n u v c d : 0 < u -> 0 < v -> R u c -> R v d -> rounds_left u v < Z.of_nat n ->
  exists g e, euclid_top f sub n u v c d = Some (g, e) /\ 0 < g /\ Z.odd g = true /\ R g e /\
    (forall k, Z.odd k = true -> (k | g) <-> (k | u) /\ (k | v)).
Proof.
  revert u v c d. induction n as [|n IH]; intros u v c d Hu Hv Hc Hd Hn.
  { pose proof (rounds_halved u v 1 1 ltac:(lia) ltac:(lia)) as Hr.
    assert (Hone : forall w, 0 < w -> 1 <= (if Z.even w then w / 2 else w)).
    { intros w Hw. destruct (Z.even w) eqn:E; [|lia]. apply Zeven_bool_iff, Zeven_ex in E as [m ->]. rewrite Z.mul_comm, Z.div_mul by done. lia. }
    specialize (Hr (Hone u Hu) (Hone v Hv)). cbn in Hr, Hn. lia. }
  cbn [euclid_top]. destruct (halve_ok f R R_half u c Hu Hc) as (u1 & c1 & -> & Hu1 & Ou1 & Hc1 & Lu & Du).
  destruct (halve_ok f R R_half v d Hv Hd) as (v1 & d1 & -> & Hv1 & Ov1 & Hd1 & Lv & Dv).
  pose proof (rounds_halved u v u1 v1 Hu1 Hv1 Lu Lv) as Hr.
  destruct (Z.ltb_spec u1 v1) as [Hlt|Hge]; cbn [negb].
  - rewrite (proj2 (Z.eqb_neq u1 0)) by lia. cbn [negb].
    assert (Ev : Z.even (v1 - u1) = true) by (rewrite Z.even_sub, <-!Z.negb_odd, Ou1, Ov1; done).
    destruct (IH u1 (v1 - u1) c1 (sub d1 c1)) as (g & e & E & Hg & Og & HR & HD); [done|lia|done|by apply R_sub| |].
    { unfold rounds_left. rewrite Ev, orb_true_r. pose proof (Z.log2_le_mono (v1 - u1) v1 ltac:(lia)). lia. }
    exists g, e. split_and!; [done|done|done|done|]. intros k Hk. rewrite HD, <-Du, <-Dv by done.
    split; intros [H1 H2]; split; try done; [replace v1 with (v1 - u1 + u1) by lia; by apply Z.divide_add_r|by apply Z.divide_sub_r].
  - destruct (Z.eqb_spec (u1 - v1) 0) as [E|Hne]; cbn [negb].
    + exists v1, d1. split_and!; [done|done|done|done|]. intros k Hk. rewrite <-Du, <-Dv by done. replace u1 with v1 by lia. tauto.
    + assert (Eu : Z.even (u1 - v1) = true) by (rewrite Z.even_sub, <-!Z.negb_odd, Ou1, Ov1; done).
      destruct (IH (u1 - v1) v1 (sub c1 d1) d1) as (g & e & E & Hg & Og & HR & HD); [lia|done|by apply R_sub|done| |].
      { unfold rounds_left. rewrite Eu. cbn [orb]. pose proof (Z.log2_le_mono (u1 - v1) u1 ltac:(lia)). lia. }
      exists g, e. split_and!; [done|done|done|done|]. intros k Hk. rewrite HD, <-Du, <-Dv by done.
      split; intros [H1 H2]; split; try done; [replace u1 with (u1 - v1 + v1) by lia; by apply Z.divide_add_r|by apply Z.divide_sub_r].
Qed.
End Euclid.

(** ** mp_invmod *)

Definition invmod_result (a b : Z) (r : option Z) : Prop :=
  match r with
  | Some c => 0 <= c /\ (c * a) mod b = 1
  | None => Z.gcd a b <> 1
  end.

Lemma too_low_ok n b D : 0 < b -> - D <= Z.of_nat n * b -> 0 <= too_low n b D /\ (too_low n b D) mod b = D mod b.
Proof.
  intros Hb. revert D. induction n as [|n IH]; intros D Hn; cbn [too_low]; [lia|].
  destruct (Z.ltb_spec D 0); [|lia]. destruct (IH (D + b)) as [H1 H2]; [lia|]. split; [done|]. rewrite H2.
  by rewrite <-(Z.mul_1_l b) at 1; rewrite Z.mod_add by lia.
Qed.

Lemma too_big_ok n b C : 0 < b -> 0 <= C -> 0 <= too_big n b C /\ (too_big n b C) mod b = C mod b.
Proof.
  intros Hb. revert C. induction n as [|n IH]; intros C HC; cbn [too_big]; [done|].
  destruct (Z.ltb_spec (Z.abs C) (Z.abs b)); cbn [negb]; [done|]. destruct (IH (C - b)) as [H1 H2]; [lia|]. split; [done|]. rewrite H2.
  replace (C - b) with (C + (-1) * b) by lia. by rewrite Z.mod_add by lia.
Qed.

Lemma rounds_enough b D : 0 < b -> - D <= Z.of_nat (rounds_for b D) * b.
Proof.
  intros Hb. unfold rounds_for. pose proof (Z.div_pos (Z.abs D) b ltac:(lia) Hb). rewrite Z2Nat.id by lia.
  pose proof (Z.mul_succ_div_gt (Z.abs D) b Hb). nia.
Qed.

(** A coefficient of [y] that gives [u] modulo the odd [x]. *)
Definition fast_inv (x y u B : Z) : Prop := (x | B * y - u).

Lemma fast_half x y u B : Z.odd x = true -> 0 < u -> fast_inv x y (2 * u) B -> fast_inv x y u (fast_step x B).
Proof.
  unfold fast_inv, fast_step. intros Hx _ [w Hw]. apply odd_divides_double; [done|]. rewrite isodd_ok.
  destruct (Z.odd B) eqn:EB.
  - destruct (odd_split x Hx) as [i Hi], (odd_split B EB) as [j Hj].
    rewrite (div2_exact (B - x) (j - i)) by lia. exists (w - y). nia.
  - destruct (even_split B EB) as [j Hj]. rewrite (div2_exact B j) by done. exists w. nia.
Qed.

Lemma fast_sub x y u v B D : fast_inv x y u B -> fast_inv x y v D -> fast_inv x y (u - v) (B - D).
Proof. unfold fast_inv. intros [i Hi] [j Hj]. exists (i - j). nia. Qed.

(** Both coefficients, for an odd [x] and an even [y]. *)
Definition slow_inv (x y u : Z) (c : Z * Z) : Prop := fst c * x + snd c * y = u.

Lemma slow_half x y u c : Z.odd x = true -> Z.odd y = false -> 0 < u -> slow_inv x y (2 * u) c -> slow_inv x y u (slow_step x y c).
Proof.
  destruct c as [A B]. unfold slow_inv, slow_step. cbn [fst snd]. intros Hx Hy _ H. rewrite !isodd_ok.
  destruct (odd_split x Hx) as [i Hi], (even_split y Hy) as [j Hj].
  assert (HA : Z.odd A = false).
  { destruct (Z.odd A) eqn:E; [exfalso|done]. destruct (odd_split A E) as [m Hm]. nia. }
  rewrite HA. cbn [orb]. destruct (even_split A HA) as [m Hm]. destruct (Z.odd B) eqn:EB.
  - destruct (odd_split B EB) as [l Hl]. rewrite (div2_exact (A + y) (m + j)), (div2_exact (B - x) (l - i)) by lia. cbn. nia.
  - destruct (even_split B EB) as [l Hl]. rewrite (div2_exact A m), (div2_exact B l) by lia. cbn. nia.
Qed.

Lemma slow_sub x y u v c d : slow_inv x y u c -> slow_inv x y v d -> slow_inv x y (u - v) (pair_sub c d).
Proof. unfold slow_inv, pair_sub. cbn [fst snd]. lia. Qed.

(** What the end of the loop says of the greatest common divisor. *)
Lemma gcd_of_loop a b g : 0 < g -> Z.odd g = true -> (Z.odd a = true \/ Z.odd b = true) ->
  (forall k, Z.odd k = true -> (k | g) <-> (k | a) /\ (k | b)) -> Z.gcd a b = g.
Proof.
  intros Hg Og Hab Hdiv. apply Z.gcd_unique; [lia|by apply Hdiv|by apply Hdiv|]. intros k Ha Hb. apply Hdiv; [|done].
  destruct (Z.odd k) eqn:Ek; [done|]. destruct (even_split k Ek) as [m ->], Ha as [i ->], Hb as [j ->].
  rewrite !Z.odd_mul in Hab. change (Z.odd 2) with false in Hab. rewrite !andb_false_r in Hab. by destruct Hab.
Qed.

Lemma gcd_mod_l a b : 0 < b -> Z.gcd (a mod b) b = Z.gcd a b.
Proof. intros Hb. rewrite Z.gcd_mod by lia. apply Z.gcd_comm. Qed.

Lemma divides_mod_one b x : 1 < b -> (b | x - 1) -> x mod b = 1.
Proof. intros Hb [w Hw]. symmetry. apply Z.mod_unique_pos with w; lia. Qed.

Lemma invmod_shift a b c d : 1 < b -> d mod b = c mod b -> (b | c * (a mod b) - 1) -> (d * a) mod b = 1.
Proof.
  intros Hb Hd Hc. apply (divides_mod_one b) in Hc; [|done]. rewrite <-Z.mul_mod_idemp_l, Hd, Z.mul_mod_idemp_l, <-Z.mul_mod_idemp_r by lia. done.
Qed.

Lemma invmod_dispatch n a b : 1 < b ->
  invmod_rounds n a b = if Z.odd b then fast_mp_invmod n a b else mp_invmod_slow n a b.
Proof. intros Hb. unfold invmod_rounds. by rewrite (proj2 (Z.ltb_ge b 0)), (proj2 (Z.eqb_neq b 0)), isodd_ok by lia. Qed.

(** The loops start with the modulus and a smaller number, below the bound. *)
Lemma invmod_rounds_left u v b : 0 < u -> 0 < v -> u <= b -> v <= b -> rounds_left u v < Z.of_nat (invmod_bound b).
Proof.
  intros. unfold rounds_left, invmod_bound. pose proof (Z.log2_nonneg b).
  pose proof (Z.log2_le_mono u b ltac:(lia)). pose proof (Z.log2_le_mono v b ltac:(lia)).
  rewrite Z2Nat.id by lia. destruct (_ || _); lia.
Qed.

Lemma fast_mp_invmod_ok n a b : 1 < b -> Z.odd b = true -> 0 <= a -> a mod b <> 0 ->
  (forall u v, 0 < u <= b -> 0 < v <= b -> rounds_left u v < Z.of_nat n) ->
  exists r, fast_mp_invmod n a b = Some r /\ invmod_result a b r.
Proof.
  intros Hb Ob Ha Hne Hn. unfold fast_mp_invmod. rewrite iseven_ok, <-Z.negb_odd, Ob, mp_mod_ok by lia. cbn [negb from_option id].
  pose proof (Z.mod_pos_bound a b ltac:(lia)) as Hm. rewrite fast_top_euclid.
  destruct (euclid_ok (fast_step b) Z.sub (fast_inv b (a mod b)) (fun u B => fast_half b (a mod b) u B Ob) (fast_sub b (a mod b))
    n b (a mod b) 0 1) as (g & D & E & Hg & Og & HR & HD); [lia|lia|by exists (-1)|exists 0; lia|apply Hn; lia|].
  cbn zeta. rewrite E.
  apply gcd_of_loop in HD; [|done|done|by left].
  rewrite Z.gcd_comm, gcd_mod_l in HD by lia.
  destruct (Z.eqb_spec g 1) as [->|]; cbn [negb]; eexists; (split; [done|]); [|cbn; lia].
  rewrite (proj2 (Z.ltb_ge a 0)) by lia. destruct (too_low_ok (rounds_for b D) b D) as [HD0 HDm]; [lia|apply rounds_enough; lia|].
  split; [done|]. by apply invmod_shift with D.
Qed.

Lemma mp_invmod_slow_ok n a b : 1 < b -> Z.odd b = false -> 0 <= a -> a mod b <> 0 ->
  (forall u v, 0 < u <= b -> 0 < v <= b -> rounds_left u v < Z.of_nat n) ->
  exists r, mp_invmod_slow n a b = Some r /\ invmod_result a b r.
Proof.
  intros Hb Ob Ha Hne Hn. unfold mp_invmod_slow. rewrite (proj2 (Z.ltb_ge b 0)), (proj2 (Z.eqb_neq b 0)), mp_mod_ok by lia. cbn [orb from_option id].
  pose proof (Z.mod_pos_bound a b ltac:(lia)) as Hm. cbn zeta.
  rewrite !iseven_ok, <-!Z.negb_odd, Ob, andb_true_r by lia.
  assert (Hgcd : Z.gcd (a mod b) b = Z.gcd a b) by (apply gcd_mod_l; lia).
  destruct (Z.odd (a mod b)) eqn:Ox; cbn [negb].
  - rewrite slow_top_euclid.
    destruct (euclid_ok (slow_step (a mod b) b) pair_sub (slow_inv (a mod b) b) (fun u c => slow_half (a mod b) b u c Ox Ob) (slow_sub (a mod b) b)
      n (a mod b) b (1, 0) (0, 1)) as (g & [C D] & E & Hg & Og & HR & HD); [lia|lia|cbn; unfold slow_inv; cbn; lia|unfold slow_inv; cbn; lia|apply Hn; lia|].
    rewrite E. cbn [option_map fst snd]. apply gcd_of_loop in HD; [|done|done|by left]. rewrite Hgcd in HD. unfold slow_inv in HR. cbn [fst snd] in HR.
    destruct (Z.eqb_spec g 1) as [->|]; cbn [negb]; eexists; (split; [done|]); [|cbn; lia].
    destruct (too_low_ok (rounds_for b C) b C) as [HC0 HCm]; [lia|apply rounds_enough; lia|].
    set (C1 := too_low _ b C) in *. destruct (too_big_ok (rounds_for b C1) b C1) as [HC2 HCm2]; [lia|done|].
    split; [done|]. apply invmod_shift with C; [done|congruence|]. exists (- D). lia.
  - eexists. split; [reflexivity|]. change (Z.gcd a b <> 1). rewrite <-Hgcd. intros H1. destruct (even_split _ Ox) as [i Hi], (even_split _ Ob) as [j Hj].
    assert (H2 : (2 | Z.gcd (a mod b) b)) by (apply Z.gcd_greatest; [exists i|exists j]; lia).
    rewrite H1 in H2. apply Z.divide_1_r_nonneg in H2; lia.
Qed.

(** In the bound, the loop ends; its answer is the inverse or that there is
    none. *)
Lemma invmod_enough a b : 1 < b -> 0 <= a -> a mod b <> 0 ->
  exists r, invmod_rounds (invmod_bound b) a b = Some r /\ invmod_result a b r.
Proof.
  intros Hb Ha Hne. rewrite invmod_dispatch by done.
  assert (Hn : forall u v, 0 < u <= b -> 0 < v <= b -> rounds_left u v < Z.of_nat (invmod_bound b))
    by (intros; apply invmod_rounds_left; lia).
  destruct (Z.odd b) eqn:E; [by apply fast_mp_invmod_ok|by apply mp_invmod_slow_ok].
Qed.

(** A multiple of an odd modulus keeps the loop going for ever. *)
Lemma invmod_hangs n a b : 0 < b -> Z.odd b = true -> a mod b = 0 -> invmod_rounds n a b = None.
Proof.
  intros Hb Ob E0. unfold invmod_rounds. rewrite (proj2 (Z.ltb_ge b 0)), (proj2 (Z.eqb_neq b 0)), isodd_ok, Ob by lia. cbn [orb].
  unfold fast_mp_invmod. rewrite iseven_ok, <-Z.negb_odd, Ob, mp_mod_ok, E0 by lia. cbn [negb from_option id]. cbn zeta.
  by rewrite fast_top_euclid, euclid_hangs by lia.
Qed.

(** The call as its callers make it. *)
Lemma mp_invmod_ok {S} a b (s : S) : 1 < b -> 0 <= a -> a mod b <> 0 ->
  exists r, mp_invmod a b s = Ok (r, s) /\ invmod_result a b r.
Proof. intros Hb Ha Hne. destruct (invmod_enough a b Hb Ha Hne) as (r & E & Hr). exists r. unfold mp_invmod. by rewrite E. Qed.

Lemma mp_invmod_coprime {S} a b (s : S) : 1 < b -> 0 <= a -> Z.gcd a b = 1 ->
  exists c, mp_invmod a b s = Ok (Some c, s) /\ 0 <= c /\ (c * a) mod b = 1.
Proof.
  intros Hb Ha Hg. destruct (mp_invmod_ok a b s Hb Ha) as ([c|] & E & Hr); [|by exists c|done].
  intros E0. apply Z.mod_divide in E0; [|lia]. apply Z.divide_gcd_iff in E0; [|lia]. rewrite Z.gcd_comm in E0. lia.
Qed.

Lemma mp_invmod_zero {S} b (s : S) : 0 < b -> Z.odd b = true -> mp_invmod 0 b s = Fault "mp_invmod does not return".
Proof. intros Hb Ob. unfold mp_invmod. by rewrite invmod_hangs. Qed.

(** ** Numbers at a fixed length *)

Definition fixed_bytes (size mp : Z) : list Z :=
  replicate (Z.to_nat (size - zlen (mp_to_unsigned_bin mp))) 0 ++ mp_to_unsigned_bin mp.

Lemma read_zeros n l : mp_read_unsigned_bin (replicate n 0 ++ l) = mp_read_unsigned_bin l.
Proof. unfold mp_read_unsigned_bin. rewrite fold_left_app. f_equal. induction n as [|n IH]; [done|exact IH]. Qed.

Lemma fixed_bytes_ok size mp : 0 <= mp -> mp_unsigned_bin_size mp <= size ->
  bytes (fixed_bytes size mp) /\ zlen (fixed_bytes size mp) = size /\ mp_read_unsigned_bin (fixed_bytes size mp) = mp.
Proof.
  intros Hmp Hs. rewrite mp_unsigned_bin_size_ok in Hs by done. destruct (mp_to_unsigned_bin_ok mp Hmp) as (Hb & Hr & _). unfold fixed_bytes.
  split; [apply Forall_app_2; [by apply Forall_replicate|done]|]. split; [|by rewrite read_zeros].
  rewrite zlen_app. unfold zlen at 1. rewrite length_replicate. lia.
Qed.

Lemma append_zeros n b pre room (Q : unit -> buffer -> Prop) : buf_repr b pre [] room -> Z.of_nat n <= room ->
  (forall b', buf_repr b' (pre ++ replicate n 0) [] (room - Z.of_nat n) -> Q tt b') -> twp (put_zeros n) Q b.
Proof.
  revert b pre room. induction n as [|n IH]; intros b pre room Hb Hr HQ; cbn [put_zeros].
  - apply HQ. cbn [replicate]. by rewrite app_nil_r, Z.sub_0_r.
  - apply twp_bind. eapply append_putbyte; [exact Hb|by vm_compute|lia|]. intros b1 Hb1. eapply IH; [exact Hb1|lia|].
    intros b2 Hb2. apply HQ. rewrite <-app_assoc in Hb2. by replace (room - Z.of_nat (S n)) with (room - 1 - Z.of_nat n) by lia.
Qed.

Lemma append_padded size mp b pre room (Q : unit -> buffer -> Prop) : 0 <= mp -> mp_unsigned_bin_size mp <= size ->
  buf_repr b pre [] room -> size <= room ->
  (forall b', buf_repr b' (pre ++ fixed_bytes size mp) [] (room - size) -> Q tt b') -> twp (put_padded size mp) Q b.
Proof.
  intros Hmp Hs Hb Hr HQ. destruct (mp_to_unsigned_bin_ok mp Hmp) as (Hby & _ & _). unfold put_padded, dropbear_assert.
  rewrite (proj2 (Z.leb_le _ _)) by done. rewrite mp_unsigned_bin_size_ok in * by done. set (bs := mp_to_unsigned_bin mp) in *.
  pose proof (zlen_nonneg bs). apply twp_bind. eapply twp_ok; [reflexivity|].
  apply twp_bind. eapply append_zeros; [exact Hb|lia|]. intros b1 Hb1. rewrite Z2Nat.id in Hb1 by lia.
  apply twp_bind. eapply twp_ok; [apply (repr_getwriteptr _ _ _ _ _ Hb1); zlia|].
  destruct (repr_write b1 _ _ _ bs Hb1 Hby) as (b2 & b3 & E2 & E3 & H3); [zlia|].
  apply twp_bind. eapply twp_ok; [exact E2|]. eapply twp_ok; [exact E3|]. apply HQ. rewrite append_post, append_room in H3 by lia.
  unfold fixed_bytes. fold bs. rewrite app_assoc. by replace (room - size) with (room - (size - zlen bs) - zlen bs) by lia.
Qed.

Lemma append_putmpint a b pre room (Q : unit -> buffer -> Prop) : 0 <= a -> buf_repr b pre [] room -> zlen (encode_mpint a) <= room ->
  (forall b', buf_repr b' (pre ++ encode_mpint a) [] (room - zlen (encode_mpint a)) -> Q tt b') -> twp (buf_putmpint a) Q b.
Proof. intros Ha Hb Hr HQ. destruct (repr_putmpint b pre room a Ha Hb Hr) as (b' & E & Hb'). eapply twp_ok; [exact E|by apply HQ]. Qed.



Example invmod_even : invmod_rounds (invmod_bound 100) 3 100 = Some (Some 67).
Proof. reflexivity. Qed.
Example invmod_none : invmod_rounds (invmod_bound 99) 33 99 = Some None.
Proof. reflexivity. Qed.
