(* ===== verification/Ssh.v ===== *)
(** The message numbers, failure codes and limits of the SSH protocol code
    (ssh.h, session.h, sysoptions.h and options.h as shipped). *)

From S2P Require Import Prelude.

Local Open Scope Z_scope.

(** ** Message numbers *)

Definition SSH_MSG_DISCONNECT : Z := 1.
Definition SSH_MSG_IGNORE : Z := 2.
Definition SSH_MSG_UNIMPLEMENTED : Z := 3.
Definition SSH_MSG_DEBUG : Z := 4.
Definition SSH_MSG_SERVICE_REQUEST : Z := 5.
Definition SSH_MSG_SERVICE_ACCEPT : Z := 6.
Definition SSH_MSG_KEXINIT : Z := 20.
Definition SSH_MSG_NEWKEYS : Z := 21.
Definition SSH_MSG_KEXDH_INIT : Z := 30.
Definition SSH_MSG_KEXDH_REPLY : Z := 31.
Definition SSH_MSG_USERAUTH_REQUEST : Z := 50.
Definition SSH_MSG_USERAUTH_FAILURE : Z := 51.
Definition SSH_MSG_USERAUTH_SUCCESS : Z := 52.
Definition SSH_MSG_USERAUTH_BANNER : Z := 53.
Definition SSH_MSG_GLOBAL_REQUEST : Z := 80.
Definition SSH_MSG_REQUEST_SUCCESS : Z := 81.
Definition SSH_MSG_REQUEST_FAILURE : Z := 82.
Definition SSH_MSG_CHANNEL_OPEN : Z := 90.
Definition SSH_MSG_CHANNEL_OPEN_CONFIRMATION : Z := 91.
Definition SSH_MSG_CHANNEL_OPEN_FAILURE : Z := 92.
Definition SSH_MSG_CHANNEL_WINDOW_ADJUST : Z := 93.
Definition SSH_MSG_CHANNEL_DATA : Z := 94.
Definition SSH_MSG_CHANNEL_EXTENDED_DATA : Z := 95.
Definition SSH_MSG_CHANNEL_EOF : Z := 96.
Definition SSH_MSG_CHANNEL_CLOSE : Z := 97.
Definition SSH_MSG_CHANNEL_REQUEST : Z := 98.
Definition SSH_MSG_CHANNEL_SUCCESS : Z := 99.
Definition SSH_MSG_CHANNEL_FAILURE : Z := 100.

(** ** Limits *)

Definition RECV_MAX_PAYLOAD_LEN : Z := 32768.
Definition TRANS_MAX_PAYLOAD_LEN : Z := 16384.
Definition MAX_MAC_LEN : Z := 20.
Definition MIN_PACKET_LEN : Z := 16.
Definition RECV_MAX_PACKET_LEN : Z := Z.max 35000 (RECV_MAX_PAYLOAD_LEN + 100).
Definition PACKET_PADDING_OFF : Z := 4.
Definition PACKET_PAYLOAD_OFF : Z := 5.
Definition INIT_READBUF : Z := 128.
Definition ZLIB_COMPRESS_INCR : Z := 100.
Definition ZLIB_DECOMPRESS_INCR : Z := 1024.

(** [algo_comp] values. *)
Definition DROPBEAR_COMP_NONE : Z := 0.
Definition DROPBEAR_COMP_ZLIB : Z := 1.
Definition DROPBEAR_COMP_ZLIB_DELAY : Z := 2.
(** sysoptions.h: algorithm names and lists of them. *)
Definition MAX_NAME_LEN : Z := 64.
Definition MAX_PROPOSED_ALGO : Z := 20.
