(* ===== verification/Algo.v ===== *)
(** Model of dropbear's common-algo.c: the lists of algorithms a side offers,
    how they are written into a KEXINIT message, and how the list a peer
    offered is matched against the local one.  The arrays of common-algo.c
    that end in a NULL name are lists; names are C strings without their
    terminator. *)

From S2P Require Import Prelude Dbutil Buffer Ssh.

Local Open Scope Z_scope.
Local Open Scope prog_scope.

(** [struct Algo_Type]; [al_data] is what the pointers [data] and [mode] lead
    to. *)
Record algo_type (D : Type) := mkalgo { al_name : list Z; al_val : Z; al_data : D; al_usable : bool }.
Arguments mkalgo {D}.
Arguments al_name {D}.
Arguments al_val {D}.
Arguments al_data {D}.
Arguments al_usable {D}.

Inductive kexguess2_used := KEXGUESS2_LOOK | KEXGUESS2_NO | KEXGUESS2_YES.

#[export] Instance kexguess2_used_eq_dec : EqDecision kexguess2_used.
Proof. solve_decision. Defined.

(** "kexguess2@matt.ucc.asn.au" *)
Definition KEXGUESS2_ALGO_NAME : list Z :=
  [107; 101; 120; 103; 117; 101; 115; 115; 50; 64; 109; 97; 116; 116; 46; 117; 99; 99; 46; 97; 115; 110; 46; 97; 117].
Definition KEXGUESS2_ALGO_ID : Z := 99.
Definition comma : Z := 44.

Section Algo.
Context {D : Type}.
Abbreviation algo_type := (algo_type D).

(** [strlen(name) == algolen && strncmp(name, algo, algolen) == 0] *)
Fixpoint strncmp_eq (n : nat) (a b : list Z) : bool :=
  match n with
  | O => true
  | S n =>
      let x := hd 0 a in
      (x =? hd 0 b) && ((x =? 0) || strncmp_eq n (tl a) (tl b))
  end.

Fixpoint have_algo (algo : list Z) (algolen : Z) (algos : list algo_type) : bool :=
  match algos with
  | [] => false
  | a :: algos =>
      if (zlen (al_name a) =? algolen) && strncmp_eq (Z.to_nat algolen) (al_name a) algo then true
      else have_algo algo algolen algos
  end.

(** ** Offering *)

(** The loop of buf_put_algolist over the rest of the array. *)
Fixpoint put_algos (localalgos : list algo_type) (donefirst : bool) : prog buffer unit :=
  match localalgos with
  | [] => ret tt
  | a :: localalgos =>
      if al_usable a then
        when donefirst (buf_putbyte comma) ;;;
        buf_putbytes (al_name a) (zlen (al_name a)) ;;;
        put_algos localalgos true
      else put_algos localalgos donefirst
  end.

Definition buf_put_algolist (localalgos : list algo_type) : prog buffer unit :=
  algolist <- buf_new 160 ;;
  match put_algos localalgos false algolist with
  | Ok (_, algolist) => buf_putstring (b_data algolist) (b_len algolist)
  | Exit e => dropbear_exit e
  | Fault e => fault e
  end.

(** ** Matching *)

(** The parsing loop, [n] iterations before its end: the list with the commas
    replaced, and the offsets of the names.  [None] is [goto out]. *)
Fixpoint parse_loop {S} (n : nat) (i : Z) (algolist remotenames : list Z) : prog S (option (list Z * list Z)) :=
  match n with
  | O => ret (Some (algolist, remotenames))
  | S n =>
      match zget algolist i with
      | None => fault "algorithm list read out of bounds"
      | Some c =>
          if c =? 0 then ret None
          else
            if (c =? comma) && negb (zlen remotenames <? MAX_PROPOSED_ALGO) then fault "remotenames written out of bounds"
            else
              let '(algolist, remotenames) :=
                if c =? comma then (zset algolist i 0, remotenames ++ [i + 1]) else (algolist, remotenames) in
              if zlen remotenames >=? MAX_PROPOSED_ALGO then ret (Some (algolist, remotenames))
              else parse_loop n (i + 1) algolist remotenames
      end
  end.

(** Looking for the kexguess2 name among the remote ones. *)
Definition look_kexguess2 (remotenames : list (list Z)) (kexguess2 : kexguess2_used) : kexguess2_used :=
  match kexguess2 with
  | KEXGUESS2_LOOK =>
      if bool_decide (KEXGUESS2_ALGO_NAME ∈ remotenames) then KEXGUESS2_YES else KEXGUESS2_NO
  | _ => kexguess2
  end.

Definition usable_name (a : algo_type) : option (list Z) := if al_usable a then Some (al_name a) else None.

(** The inner loop: the first server name, from index [j] on, that equals the
    client's. *)
Fixpoint serv_loop (j : Z) (servnames : list (option (list Z))) (cli : option (list Z)) : option Z :=
  match servnames with
  | [] => None
  | serv :: servnames =>
      match serv, cli with
      | Some s, Some c => if bool_decide (s = c) then Some j else serv_loop (j + 1) servnames cli
      | _, _ => serv_loop (j + 1) servnames cli
      end
  end.

Fixpoint cli_loop (i : Z) (clinames servnames : list (option (list Z))) : option (Z * Z) :=
  match clinames with
  | [] => None
  | cli :: clinames =>
      match serv_loop 0 servnames cli with
      | Some j => Some (i, j)
      | None => cli_loop (i + 1) clinames servnames
      end
  end.

Definition good_guess (kexguess2 : kexguess2_used) (i j : Z) : bool :=
  if decide (kexguess2 = KEXGUESS2_YES) then i =? 0 else (i =? 0) && (j =? 0).

(** [kexguess2] and [goodguess] are [None] for NULL pointers; the result is
    the algorithm with what the pointers hold afterwards. *)
Definition buf_match_algo (is_server : bool) (localalgos : list algo_type)
    (kexguess2 : option kexguess2_used) (goodguess : option bool)
    : prog buffer (option algo_type * option kexguess2_used * option bool) :=
  let goodguess := (fun _ => false) <$> goodguess in
  x <- buf_getstring ;;
  let '(algolist, len) := x in
  if len >? MAX_PROPOSED_ALGO * (MAX_NAME_LEN + 1) then ret (None, kexguess2, goodguess)
  else
    parsed <- parse_loop (Z.to_nat len) 0 algolist [0] ;;
    match parsed with
    | None => ret (None, kexguess2, goodguess)
    | Some (algolist, positions) =>
        let remotenames := map (fun p => c_string (zdrop p algolist)) positions in
        let kexguess2 := look_kexguess2 remotenames <$> kexguess2 in
        if zlen localalgos >? MAX_PROPOSED_ALGO then fault "localnames written out of bounds"
        else
          let localnames := map usable_name localalgos in
          let '(clinames, servnames) :=
            if is_server then (map Some remotenames, localnames) else (localnames, map Some remotenames) in
          match cli_loop 0 clinames servnames with
          | None => ret (None, kexguess2, goodguess)
          | Some (i, j) =>
              let goodguess :=
                match goodguess, kexguess2 with
                | Some g, Some k => Some (good_guess k i j)
                | _, _ => goodguess
                end in
              match zget localalgos (if is_server then j else i) with
              | Some a => ret (Some a, kexguess2, goodguess)
              | None => fault "algorithm array read out of bounds"
              end
          end
    end.

(** ** The user's own lists *)

Fixpoint check_algo (algo_name : list Z) (algos : list algo_type) : option algo_type :=
  match algos with
  | [] => None
  | a :: algos => if bool_decide (al_name a = algo_name) then Some a else check_algo algo_name algos
  end.

(** [new_algos] has room for MAX_PROPOSED_ALGO entries; its length is
    [*num_ret]. *)
Definition try_add_algo {S} (algo_name : list Z) (algos new_algos : list algo_type) : prog S (list algo_type) :=
  match check_algo algo_name algos with
  | None => ret new_algos
  | Some match_algo =>
      if zlen new_algos <? MAX_PROPOSED_ALGO then ret (new_algos ++ [match_algo])
      else fault "new_algos written out of bounds"
  end.

(** [for (c = work_list; *c; c++)]: [c] and [last_name] are offsets into
    [work_list]. *)
Fixpoint user_loop {S} (n : nat) (c last_name : Z) (work_list : list Z) (algos new_algos : list algo_type)
    : prog S (list Z * Z * list algo_type) :=
  match n with
  | O => fault "out of fuel"
  | Datatypes.S n =>
      match zget work_list c with
      | None => fault "user algorithm list read out of bounds"
      | Some ch =>
          if ch =? 0 then ret (work_list, last_name, new_algos)
          else if ch =? comma then
            let work_list := zset work_list c 0 in
            new_algos <- try_add_algo (c_string (zdrop last_name work_list)) algos new_algos ;;
            let c := c + 1 in
            let last_name := c in
            user_loop n (c + 1) last_name work_list algos new_algos
          else user_loop n (c + 1) last_name work_list algos new_algos
      end
  end.

(** The new contents of [algos], whose array has an entry more than its list;
    their number is returned. *)
Definition check_user_algos {S} (user_algo_list : list Z) (algos : list algo_type) : prog S (list algo_type) :=
  let work_list := user_algo_list ++ [0] in
  x <- user_loop (Datatypes.S (length work_list)) 0 0 work_list algos [] ;;
  let '(work_list, last_name, new_algos) := x in
  new_algos <- try_add_algo (c_string (zdrop last_name work_list)) algos new_algos ;;
  if negb (zlen new_algos <? MAX_PROPOSED_ALGO) then fault "new_algos written out of bounds"
  else if zlen new_algos >? zlen algos then fault "algos written out of bounds"
  else ret new_algos.

(** ** What is exchanged *)

Definition usable_names (l : list algo_type) : list (list Z) := omap usable_name l.

(** Names after the first, each behind a separator. *)
Definition separated (sep : Z) (names : list (list Z)) : list Z := concat (map (cons sep) names).

Definition comma_list (names : list (list Z)) : list Z :=
  match names with [] => [] | n :: names => n ++ separated comma names end.

Definition name_ok (n : list Z) : Prop := bytes n /\ (0 ∉ n) /\ (comma ∉ n) /\ n <> [].

(** A list one side can offer. *)
Definition offer_ok (l : list algo_type) : Prop :=
  Forall (fun a => name_ok (al_name a)) l /\ zlen l < MAX_PROPOSED_ALGO /\ zlen (comma_list (usable_names l)) <= 160.

(** The first of the client's names that the server has too. *)
Fixpoint agreed (cli srv : list (list Z)) : option (list Z) :=
  match cli with
  | [] => None
  | c :: cli => if bool_decide (c ∈ srv) then Some c else agreed cli srv
  end.

(** ** Writing a list *)

Lemma separated_cons sep n names : separated sep (n :: names) = sep :: n ++ separated sep names.
Proof. done. Qed.

Lemma bytes_comma_list (names : list (list Z)) : Forall bytes names -> bytes (separated comma names).
Proof.
  induction 1 as [|n names Hn _ IH]; [constructor|]. rewrite separated_cons. constructor; [by vm_compute|].
  by apply Forall_app.
Qed.

(** What the loop writes from a point on. *)
Definition rest_of (donefirst : bool) (names : list (list Z)) : list Z :=
  if donefirst then separated comma names else comma_list names.

Lemma usable_ok l : Forall (fun a => name_ok (al_name a)) l -> Forall name_ok (usable_names l).
Proof.
  induction 1 as [|a l Ha _ IH]; [constructor|]. unfold usable_names, usable_name in *. cbn.
  destruct (al_usable a); [by constructor|done].
Qed.

Lemma put_algos_ok l donefirst b pre room :
  Forall (fun a => name_ok (al_name a)) l -> buf_repr b pre [] room ->
  zlen (rest_of donefirst (usable_names l)) <= room ->
  exists b', put_algos l donefirst b = Ok (tt, b') /\
    buf_repr b' (pre ++ rest_of donefirst (usable_names l)) [] (room - zlen (rest_of donefirst (usable_names l))).
Proof.
  intros Hl. revert donefirst b pre room.
  induction Hl as [|a l (Hb & Hz & Hc & Hne) _ IH]; intros donefirst b pre room H Hn.
  { exists b. split; [done|]. destruct donefirst; cbn in *; by rewrite app_nil_r, Z.sub_0_r. }
  cbn [put_algos]. change (usable_names (a :: l)) with
    (match usable_name a with Some n => n :: usable_names l | None => usable_names l end) in *. unfold usable_name in *.
  destruct (al_usable a); [|by apply IH].
  set (sep := if donefirst then [comma] else @nil Z). set (tail := separated comma (usable_names l)) in *.
  assert (E : rest_of donefirst (al_name a :: usable_names l) = sep ++ al_name a ++ tail) by (by destruct donefirst).
  rewrite E in *. rewrite !zlen_app in Hn.
  pose proof (zlen_nonneg tail) as Hz1. pose proof (zlen_nonneg (al_name a)) as Hz2.
  assert (Hnil : forall n, post_after n [] = []) by (intros; apply drop_nil).
  assert (Hroom : forall n r, 0 <= n -> room_after n [] r = r - n) by (intros; unfold room_after, zlen; cbn; lia).
  assert (Hsep : exists b1, (when donefirst (buf_putbyte comma)) b = Ok (tt, b1) /\
    buf_repr b1 (pre ++ sep) [] (room - zlen sep)).
  { subst sep. destruct donefirst; cbn [when].
    - destruct (repr_putbyte b pre [] room comma H) as (b1 & E1 & H1); [by vm_compute| |].
      { change (zlen [comma]) with 1 in Hn. rewrite zlen_nil. lia. }
      exists b1. rewrite Hnil, Hroom in H1 by lia. done.
    - exists b. rewrite app_nil_r, Z.sub_0_r. done. }
  destruct Hsep as (b1 & E1 & H1).
  destruct (repr_putbytes b1 _ _ _ (al_name a) _ eq_refl H1 Hb) as (b2 & E2 & H2); [rewrite zlen_nil; lia|].
  rewrite Hnil, Hroom in H2 by lia.
  destruct (IH true b2 _ _ H2) as (b3 & E3 & H3); [cbn [rest_of]; fold tail; lia|].
  exists b3. rewrite (bind_ok _ _ _ _ _ E1), (bind_ok _ _ _ _ _ E2), E3. split; [done|].
  cbn [rest_of] in H3. fold tail in H3. rewrite <-!app_assoc in H3. rewrite !zlen_app.
  by replace (room - _) with (room - zlen sep - zlen (al_name a) - zlen tail) by lia.
Qed.

Lemma buf_put_algolist_ok l b pre room :
  offer_ok l -> buf_repr b pre [] room -> 4 + zlen (comma_list (usable_names l)) <= room ->
  exists b', buf_put_algolist l b = Ok (tt, b') /\
    buf_repr b' (pre ++ store32h (zlen (comma_list (usable_names l))) ++ comma_list (usable_names l)) []
             (room - 4 - zlen (comma_list (usable_names l))).
Proof.
  intros (Hl & _ & Hlen) H Hroom. set (m := comma_list (usable_names l)) in *. pose proof (zlen_nonneg m) as Hz.
  unfold buf_put_algolist. destruct (repr_buf_new 160 b) as (a0 & E0 & H0); [by vm_compute|].
  rewrite (bind_ok _ _ _ _ _ E0). destruct (put_algos_ok l false a0 [] 160 Hl H0 Hlen) as (a1 & E1 & H1).
  rewrite E1. cbn [rest_of] in H1. fold m in H1. rewrite app_nil_l in H1.
  destruct (br_data _ _ _ _ H1) as (rest & Hd & Hrest). cbn [app] in Hd.
  destruct (buf_repr_bytes _ _ _ _ H1) as [Hm _].
  assert (Hlen1 : b_len a1 = zlen m) by (rewrite (br_len _ _ _ _ H1), zlen_nil; lia).
  assert (Hnil : forall n, post_after n [] = []) by (intros; apply drop_nil).
  assert (Hra : forall n r, 0 <= n -> room_after n [] r = r - n) by (intros; unfold room_after, zlen; cbn; lia).
  rewrite Hlen1. unfold buf_putstring.
  destruct (repr_putint b pre [] room (zlen m) H) as (b1 & E2 & H2); [rewrite zlen_nil; lia|]. rewrite Hnil, Hra in H2 by lia.
  destruct (repr_putprefix b1 (pre ++ store32h (zlen m)) [] (room - 4) (b_data a1) (zlen m)) with (2 := H2) as (b2 & E3 & H3).
  { rewrite Hd, zlen_app. pose proof (zlen_nonneg rest). lia. }
  { apply H1. }
  { rewrite zlen_nil. lia. }
  rewrite Hnil, Hra in H3 by lia. rewrite Hd, ztake_app_zlen, <-app_assoc in H3.
  exists b2. rewrite (bind_ok _ _ _ _ _ E2). done.
Qed.
(** ** Reading a list *)

(** Where the names behind a separator start. *)
Fixpoint offsets (p : Z) (names : list (list Z)) : list Z :=
  match names with [] => [] | n :: names => (p + 1) :: offsets (p + 1 + zlen n) names end.

Lemma zlen_offsets p names : zlen (offsets p names) = zlen names.
Proof. revert p. induction names as [|n names IH]; intros p; [done|]. cbn [offsets]. by rewrite !zlen_cons, IH. Qed.

Section Parse.
Context {S : Type}.
Abbreviation parse := (parse_loop (S := S)).

Lemma parse_char n pre c k positions s :
  c <> 0 -> c <> comma -> zlen positions < MAX_PROPOSED_ALGO ->
  parse (Datatypes.S n) (zlen pre) (pre ++ c :: k) positions s = parse n (zlen (pre ++ [c])) ((pre ++ [c]) ++ k) positions s.
Proof.
  intros H0 Hc Hn. cbn [parse_loop]. rewrite zget_mid, (proj2 (Z.eqb_neq c 0)), (proj2 (Z.eqb_neq c comma)) by done.
  cbn [andb]. rewrite Z.geb_leb, (proj2 (Z.leb_gt _ _)) by lia. by rewrite zlen_app, <-app_assoc.
Qed.

Lemma parse_comma n pre k positions s :
  zlen positions + 1 < MAX_PROPOSED_ALGO ->
  parse (Datatypes.S n) (zlen pre) (pre ++ comma :: k) positions s =
    parse n (zlen (pre ++ [0])) ((pre ++ [0]) ++ k) (positions ++ [zlen pre + 1]) s.
Proof.
  intros Hn. cbn [parse_loop]. rewrite zget_mid. change (comma =? 0) with false. rewrite Z.eqb_refl.
  rewrite (proj2 (Z.ltb_lt _ _)) by lia. cbn [andb negb].
  rewrite zset_mid, Z.geb_leb, (proj2 (Z.leb_gt _ _)) by (rewrite zlen_app; change (zlen [zlen pre + 1]) with 1; lia).
  by rewrite zlen_app, <-app_assoc.
Qed.

Lemma parse_word m n pre k positions s :
  0 ∉ m -> comma ∉ m -> zlen positions < MAX_PROPOSED_ALGO ->
  parse (length m + n)%nat (zlen pre) (pre ++ m ++ k) positions s = parse n (zlen (pre ++ m)) ((pre ++ m) ++ k) positions s.
Proof.
  revert pre. induction m as [|c m IH]; intros pre H0 Hc Hn; [by rewrite app_nil_r|].
  apply not_elem_of_cons in H0 as [H0 H0']. apply not_elem_of_cons in Hc as [Hc Hc'].
  cbn [app length Nat.add]. rewrite parse_char, IH by done. by rewrite <-!app_assoc.
Qed.

Lemma parse_names names pre positions s :
  Forall (fun n => (0 ∉ n) /\ comma ∉ n) names -> zlen positions + zlen names < MAX_PROPOSED_ALGO ->
  parse (length (separated comma names)) (zlen pre) (pre ++ separated comma names ++ [0]) positions s =
    Ok (Some (pre ++ separated 0 names ++ [0], positions ++ offsets (zlen pre) names), s).
Proof.
  intros Hn. revert pre positions. induction Hn as [|n names [H0 Hc] _ IH]; intros pre positions Hcount.
  { cbn. by rewrite app_nil_r. }
  rewrite zlen_cons in Hcount. pose proof (zlen_nonneg names). rewrite !separated_cons. cbn [app length offsets].
  rewrite parse_comma by lia. rewrite length_app, <-!app_assoc, app_assoc.
  rewrite parse_word by (done || (rewrite zlen_app; change (zlen [zlen pre + 1]) with 1; lia)).
  rewrite IH by (rewrite zlen_app; change (zlen [zlen pre + 1]) with 1; lia).
  rewrite !zlen_app, <-!app_assoc. done.
Qed.
End Parse.

Lemma zdrop_past (pre : list Z) x k : zdrop (zlen pre + 1) (pre ++ x :: k) = k.
Proof.
  change (x :: k) with ([x] ++ k). rewrite app_assoc. replace (zlen pre + 1) with (zlen (pre ++ [x])) by (rewrite zlen_app; done).
  apply zdrop_app_zlen.
Qed.

(** The names found at the offsets. *)
Lemma names_at names pre :
  Forall (fun n => 0 ∉ n) names ->
  map (fun p => c_string (zdrop p (pre ++ separated 0 names ++ [0]))) (offsets (zlen pre) names) = names.
Proof.
  intros Hn. revert pre. induction Hn as [|n names H0 _ IH]; intros pre; [done|].
  cbn [offsets map]. f_equal.
  - rewrite separated_cons. cbn [app]. rewrite <-app_assoc, zdrop_past.
    destruct names as [|n' names]; [|rewrite separated_cons; cbn [app]]; by apply c_string_terminated.
  - specialize (IH (pre ++ 0 :: n)). rewrite zlen_app, zlen_cons in IH. rewrite separated_cons.
    replace (zlen pre + 1 + zlen n) with (zlen pre + (1 + zlen n)) by lia. rewrite <-IH at 2.
    assert (E : pre ++ (0 :: n ++ separated 0 names) ++ [0] = (pre ++ 0 :: n) ++ separated 0 names ++ [0])
      by (rewrite <-!app_assoc; cbn [app]; by rewrite <-!app_assoc).
    by rewrite E.
Qed.

(** ** Matching *)

Lemma serv_loop_spec j servnames c :
  match serv_loop j servnames (Some c) with
  | Some k => exists n, k = j + Z.of_nat n /\ servnames !! n = Some (Some c)
  | None => Some c ∉ servnames
  end.
Proof.
  revert j. induction servnames as [|serv servnames IH]; intros j; cbn [serv_loop]; [apply not_elem_of_nil|].
  assert (Hnext : match serv_loop (j + 1) servnames (Some c) with
    | Some k => exists n, k = j + Z.of_nat n /\ (serv :: servnames) !! n = Some (Some c)
    | None => Some c ∉ servnames end).
  { specialize (IH (j + 1)). destruct (serv_loop (j + 1) servnames (Some c)); [|done].
    destruct IH as (n & -> & Hn). exists (Datatypes.S n). split; [lia|done]. }
  destruct serv as [s|]; [case_bool_decide as E; [exists 0%nat; subst; split; [lia|done]|]|].
  - destruct (serv_loop (j + 1) servnames (Some c)); [done|]. apply not_elem_of_cons. split; [congruence|done].
  - destruct (serv_loop (j + 1) servnames (Some c)); [done|]. apply not_elem_of_cons. by split.
Qed.

Lemma serv_loop_none j servnames : serv_loop j servnames None = None.
Proof. revert j. induction servnames as [|[s|] servnames IH]; intros j; [done|apply IH|apply IH]. Qed.

Lemma elem_of_names (c : list Z) (l : list (option (list Z))) : Some c ∈ l <-> c ∈ omap id l.
Proof. rewrite list_elem_of_omap. split; [by exists (Some c)|]. intros (x & Hx & E). unfold id in E. by subst. Qed.

Lemma cli_loop_spec i clinames servnames :
  match cli_loop i clinames servnames with
  | Some (k, j) => exists n m c, k = i + Z.of_nat n /\ j = Z.of_nat m /\
      clinames !! n = Some (Some c) /\ servnames !! m = Some (Some c) /\
      agreed (omap id clinames) (omap id servnames) = Some c
  | None => agreed (omap id clinames) (omap id servnames) = None
  end.
Proof.
  revert i. induction clinames as [|cli clinames IH]; intros i; cbn [cli_loop]; [done|].
  assert (Hnext : match cli with Some c => Some c ∉ servnames | None => True end ->
    match cli_loop (i + 1) clinames servnames with
    | Some (k, j) => exists n m c, k = i + Z.of_nat n /\ j = Z.of_nat m /\
        (cli :: clinames) !! n = Some (Some c) /\ servnames !! m = Some (Some c) /\
        agreed (omap id (cli :: clinames)) (omap id servnames) = Some c
    | None => agreed (omap id (cli :: clinames)) (omap id servnames) = None
    end).
  { intros Hcli. assert (E : agreed (omap id (cli :: clinames)) (omap id servnames) = agreed (omap id clinames) (omap id servnames)).
    { destruct cli as [c|]; [|done]. cbn. rewrite elem_of_names in Hcli. by rewrite bool_decide_false. }
    rewrite E. specialize (IH (i + 1)). destruct (cli_loop (i + 1) clinames servnames) as [[k j]|]; [|done].
    destruct IH as (n & m & c & -> & -> & ? & ? & ?). exists (Datatypes.S n), m, c. split; [lia|done]. }
  destruct cli as [c|]; [|rewrite serv_loop_none; by apply Hnext].
  pose proof (serv_loop_spec 0 servnames c) as Hs. destruct (serv_loop 0 servnames (Some c)) as [j|]; [|by apply Hnext].
  destruct Hs as (m & -> & Hm). exists 0%nat, m, c. split; [lia|]. split; [done|]. split; [done|]. split; [done|].
  cbn. rewrite bool_decide_true; [done|]. apply elem_of_names. by eapply list_elem_of_lookup_2.
Qed.

(** The names a list in a buffer is read as: an empty list is one empty name. *)
Definition wire_names (names : list (list Z)) : list (list Z) := match names with [] => [[]] | _ => names end.

(** What the matching computes from the remote names. *)
Definition match_names (is_server : bool) (localalgos : list algo_type) (remotenames : list (list Z)) : option (Z * Z) :=
  if is_server then cli_loop 0 (map Some remotenames) (map usable_name localalgos)
  else cli_loop 0 (map usable_name localalgos) (map Some remotenames).

Definition match_result (is_server : bool) (localalgos : list algo_type) (remotenames : list (list Z))
    (kexguess2 : option kexguess2_used) (goodguess : option bool) : option algo_type * option kexguess2_used * option bool :=
  let k := look_kexguess2 remotenames <$> kexguess2 in
  match match_names is_server localalgos remotenames with
  | None => (None, k, (fun _ => false) <$> goodguess)
  | Some (i, j) =>
      (zget localalgos (if is_server then j else i), k,
       match goodguess, k with Some _, Some k => Some (good_guess k i j) | None, _ => None | Some _, None => Some false end)
  end.

Lemma omap_Some (l : list (list Z)) : omap id (map Some l) = l.
Proof. induction l as [|x l IH]; [done|]. cbn. by rewrite IH. Qed.

Lemma omap_usable l : omap id (map usable_name l) = usable_names l.
Proof.
  unfold usable_names. induction l as [|a l IH]; [done|]. cbn. rewrite IH. by destruct (usable_name a).
Qed.

Lemma usable_lookup l n c :
  map usable_name l !! n = Some (Some c) -> exists a, zget l (Z.of_nat n) = Some a /\ al_usable a = true /\ al_name a = c.
Proof.
  rewrite list_lookup_fmap. unfold zget. rewrite (proj2 (Z.leb_le 0 _)), Nat2Z.id by lia.
  destruct (l !! n) as [a|]; [|done]. cbn. unfold usable_name. intros E. exists a. split; [done|].
  destruct (al_usable a); [split; congruence|done].
Qed.

Lemma match_names_spec is_server localalgos remotenames :
  match match_names is_server localalgos remotenames with
  | Some (i, j) => exists a, zget localalgos (if is_server then j else i) = Some a /\ al_usable a = true /\
      Some (al_name a) = if is_server then agreed remotenames (usable_names localalgos)
                         else agreed (usable_names localalgos) remotenames
  | None => (if is_server then agreed remotenames (usable_names localalgos)
             else agreed (usable_names localalgos) remotenames) = None
  end.
Proof.
  unfold match_names. destruct is_server.
  - pose proof (cli_loop_spec 0 (map Some remotenames) (map usable_name localalgos)) as H.
    rewrite omap_Some, omap_usable in H. destruct (cli_loop _ _ _) as [[k j]|]; [|done].
    destruct H as (n & m & c & -> & -> & _ & Hm & Ha). destruct (usable_lookup _ _ _ Hm) as (a & Hz & Hu & Hn).
    exists a. split; [done|]. split; [done|congruence].
  - pose proof (cli_loop_spec 0 (map usable_name localalgos) (map Some remotenames)) as H.
    rewrite omap_Some, omap_usable in H. destruct (cli_loop _ _ _) as [[k j]|]; [|done].
    destruct H as (n & m & c & -> & -> & Hn & _ & Ha). destruct (usable_lookup _ _ _ Hn) as (a & Hz & Hu & Hna).
    exists a. split; [done|]. split; [done|congruence].
Qed.

Lemma parsed_names {S} names (s : S) :
  Forall (fun n => (0 ∉ n) /\ comma ∉ n) names -> zlen names < MAX_PROPOSED_ALGO ->
  exists algolist positions,
    parse_loop (Z.to_nat (zlen (comma_list names))) 0 (comma_list names ++ [0]) [0] s = Ok (Some (algolist, positions), s) /\
    map (fun p => c_string (zdrop p algolist)) positions = wire_names names.
Proof.
  intros Hn Hlen. destruct names as [|n names].
  { exists [0], [0]. split; [done|]. cbn. done. }
  apply Forall_cons_1 in Hn as [[H0 Hc] Hn]. rewrite zlen_cons in Hlen. pose proof (zlen_nonneg names).
  exists (n ++ separated 0 names ++ [0]), (0 :: offsets (zlen n) names). split.
  - cbn [comma_list]. unfold zlen at 1. rewrite Nat2Z.id, length_app, <-app_assoc.
    pose proof (parse_word n (length (separated comma names)) [] (separated comma names ++ [0]) [0] s H0 Hc) as E.
    change (zlen (@nil Z)) with 0 in E. cbn [app] in E. rewrite E by (by vm_compute).
    by rewrite parse_names by (done || (change (zlen [0]) with 1; lia)).
  - cbn [map wire_names]. f_equal.
    + rewrite zdrop_0. destruct names as [|n' names]; [|rewrite separated_cons; cbn [app]]; by apply c_string_terminated.
    + apply names_at. eapply Forall_impl; [exact Hn|]. by intros ? [? _].
Qed.

Lemma buf_match_algo_ok is_server ours names kexguess2 goodguess b pre post room :
  Forall (fun n => (0 ∉ n) /\ comma ∉ n) names -> zlen names < MAX_PROPOSED_ALGO ->
  zlen (comma_list names) <= MAX_PROPOSED_ALGO * (MAX_NAME_LEN + 1) -> zlen ours <= MAX_PROPOSED_ALGO ->
  buf_repr b pre (store32h (zlen (comma_list names)) ++ comma_list names ++ post) room ->
  exists b', buf_match_algo is_server ours kexguess2 goodguess b =
    Ok (match_result is_server ours (wire_names names) kexguess2 goodguess, b') /\
    buf_repr b' (pre ++ store32h (zlen (comma_list names)) ++ comma_list names) post room.
Proof.
  intros Hn Hcount Hlen Hours H. unfold MAX_PROPOSED_ALGO, MAX_NAME_LEN in Hlen, Hours.
  destruct (repr_getstring b pre (comma_list names) post room _ eq_refl) as (b1 & E1 & H1); [unfold MAX_STRING_LEN; lia|exact H|].
  exists b1. split; [|done]. unfold buf_match_algo. rewrite (bind_ok _ _ _ _ _ E1).
  rewrite Z.gtb_ltb, (proj2 (Z.ltb_ge _ _)) by (unfold MAX_PROPOSED_ALGO, MAX_NAME_LEN; lia).
  destruct (parsed_names names b1 Hn Hcount) as (algolist & positions & E2 & Hnames).
  rewrite (bind_ok _ _ _ _ _ E2), Hnames. rewrite Z.gtb_ltb, (proj2 (Z.ltb_ge _ _)) by done.
  pose proof (match_names_spec is_server ours (wire_names names)) as Hm. unfold match_result, match_names in *.
  destruct is_server; (destruct (cli_loop _ _ _) as [[i j]|]; [|done]); destruct Hm as (a & Ha & _); rewrite Ha;
    destruct goodguess, kexguess2; done.
Qed.

Lemma zlen_usable l : zlen (usable_names l) <= zlen l.
Proof.
  unfold usable_names. induction l as [|a l IH]; [done|]. cbn. rewrite zlen_cons.
  destruct (usable_name a); rewrite ?zlen_cons; lia.
Qed.

(** ** A negotiation *)

(** One side reads the list the other has written. *)
Definition negotiate (is_server : bool) (theirs ours : list algo_type) (kexguess2 : option kexguess2_used)
    (goodguess : option bool) : prog unit (option algo_type * option kexguess2_used * option bool) :=
  b <- buf_new 200 ;;
  match (buf_put_algolist theirs ;;; buf_setpos 0 ;;; buf_match_algo is_server ours kexguess2 goodguess) b with
  | Ok (r, _) => ret r
  | Exit e => dropbear_exit e
  | Fault e => fault e
  end.

Lemma negotiate_ok is_server theirs ours kexguess2 goodguess :
  offer_ok theirs -> offer_ok ours ->
  negotiate is_server theirs ours kexguess2 goodguess tt =
    Ok (match_result is_server ours (wire_names (usable_names theirs)) kexguess2 goodguess, tt).
Proof.
  intros Ht Ho. pose proof Ht as (Htn & Htl & Htc). destruct Ho as (Hon & Hol & Hoc).
  unfold negotiate. destruct (repr_buf_new 200 tt) as (b0 & E0 & H0); [by vm_compute|].
  rewrite (bind_ok _ _ _ _ _ E0).
  destruct (buf_put_algolist_ok theirs b0 [] 200 Ht H0) as (b1 & E1 & H1); [lia|].
  rewrite (bind_ok _ _ _ _ _ E1). destruct (repr_rewind _ _ _ _ H1) as (b2 & E2 & H2).
  rewrite (bind_ok _ _ _ _ _ E2). cbn [app] in H2. rewrite <-app_assoc in H2.
  destruct (buf_match_algo_ok is_server ours (usable_names theirs) kexguess2 goodguess b2 [] [] (200 - 4 - zlen (comma_list (usable_names theirs)))) as (b3 & E3 & _).
  - eapply Forall_impl; [by apply usable_ok|]. by intros n (_ & ? & ? & _).
  - pose proof (zlen_usable theirs). lia.
  - unfold MAX_PROPOSED_ALGO, MAX_NAME_LEN. lia.
  - lia.
  - exact H2.
  - by rewrite E3.
Qed.

Lemma agreed_wire_server cli srv : [] ∉ srv -> agreed (wire_names cli) srv = agreed cli srv.
Proof. intros Hs. destruct cli; [|done]. cbn. by rewrite bool_decide_false. Qed.

Lemma agreed_none cli : agreed cli [] = None.
Proof. by induction cli as [|c cli IH]. Qed.

Lemma agreed_wire_client cli srv : [] ∉ cli -> agreed cli (wire_names srv) = agreed cli srv.
Proof.
  intros Hc. destruct srv; [|done]. cbn [wire_names]. rewrite agreed_none.
  induction cli as [|c cli IH]; [done|]. apply not_elem_of_cons in Hc as [Hne Hc]. cbn.
  rewrite bool_decide_false by (rewrite list_elem_of_singleton; congruence). by apply IH.
Qed.

Lemma names_nonempty l : Forall (fun a => name_ok (al_name a)) l -> [] ∉ usable_names l.
Proof.
  intros H. apply usable_ok in H. intros Hin. rewrite Forall_forall in H. by destruct (H [] Hin) as (_ & _ & _ & ?).
Qed.

Lemma usable_map l : Forall (fun a => al_usable a = true) l -> map usable_name l = map Some (usable_names l).
Proof. unfold usable_names, usable_name. induction 1 as [|a l Ha _ IH]; [done|]. cbn. by rewrite Ha, IH. Qed.

Lemma wire_usable l : l <> [] -> Forall (fun a => al_usable a = true) l -> wire_names (usable_names l) = usable_names l.
Proof. destruct l as [|a l]; [done|]. intros _ [Ha _]%Forall_cons_1. unfold usable_names, usable_name. cbn. by rewrite Ha. Qed.

(** Both sides compare the same two lists of names. *)
Lemma match_names_same cli srv : cli <> [] -> srv <> [] ->
  Forall (fun a => al_usable a = true) cli -> Forall (fun a => al_usable a = true) srv ->
  match_names true srv (wire_names (usable_names cli)) = match_names false cli (wire_names (usable_names srv)).
Proof. intros. rewrite !wire_usable by done. unfold match_names. by rewrite !usable_map. Qed.

(** Key exchange negotiation agrees.  When a client and a server each
    write their list of algorithms and match the list they receive against
    their own, neither exits nor faults, and both select an algorithm of the
    same name: the first of the client's usable names that the server can use
    too, or none when there is none.  When every algorithm is usable and the
    kexguess2 marker is in both lists or in neither, the two sides also agree
    on whether the guessed first packet was right. *)
Theorem negotiation_agrees cli srv :
  offer_ok cli -> offer_ok srv ->
  exists rs ks gs rc kc gc,
    negotiate true cli srv (Some KEXGUESS2_LOOK) (Some false) tt = Ok ((rs, ks, gs), tt) /\
    negotiate false srv cli (Some KEXGUESS2_LOOK) (Some false) tt = Ok ((rc, kc, gc), tt) /\
    al_name <$> rs = agreed (usable_names cli) (usable_names srv) /\
    al_name <$> rc = agreed (usable_names cli) (usable_names srv) /\
    (Forall (fun a => al_usable a = true) cli -> Forall (fun a => al_usable a = true) srv ->
     cli <> [] -> srv <> [] ->
     (KEXGUESS2_ALGO_NAME ∈ usable_names cli <-> KEXGUESS2_ALGO_NAME ∈ usable_names srv) ->
     ks = kc /\ gs = gc).
Proof.
  intros Hc Hs. rewrite !negotiate_ok by done.
  destruct (match_result true srv _ _ _) as [[rs ks] gs] eqn:Es. destruct (match_result false cli _ _ _) as [[rc kc] gc] eqn:Ec.
  exists rs, ks, gs, rc, kc, gc. split; [done|]. split; [done|].
  pose proof (match_names_spec true srv (wire_names (usable_names cli))) as Hms.
  pose proof (match_names_spec false cli (wire_names (usable_names srv))) as Hmc.
  rewrite agreed_wire_server in Hms by (apply names_nonempty, Hs).
  rewrite agreed_wire_client in Hmc by (apply names_nonempty, Hc).
  unfold match_result in Es, Ec. split; [|split].
  - destruct (match_names true _ _) as [[i j]|]; simplify_eq; [|done]. destruct Hms as (a & -> & _ & <-). done.
  - destruct (match_names false _ _) as [[i j]|]; simplify_eq; [|done]. destruct Hmc as (a & -> & _ & <-). done.
  - intros Huc Hus Hnc Hns Hk.
    pose proof (match_names_same cli srv Hnc Hns Huc Hus) as Em.
    rewrite wire_usable in Es, Em by done. rewrite wire_usable in Ec by done. rewrite (wire_usable srv) in Em by done.
    assert (Ek : look_kexguess2 (usable_names cli) KEXGUESS2_LOOK = look_kexguess2 (usable_names srv) KEXGUESS2_LOOK).
    { cbn. by rewrite (bool_decide_ext _ _ Hk). }
    rewrite Em in Es. cbn [fmap option_fmap option_map] in Es, Ec.
    rewrite Ek in Es. destruct (match_names false cli _) as [[i j]|]; by simplify_eq.
Qed.

(** ** Lists given by the user *)

Section User.
Context {S : Type} (algos : list algo_type).
Abbreviation loop := (user_loop (S := S)).

Lemma user_char n pre c k last new s :
  c <> 0 -> c <> comma ->
  loop (Datatypes.S n) (zlen pre) last (pre ++ c :: k) algos new s = loop n (zlen (pre ++ [c])) last ((pre ++ [c]) ++ k) algos new s.
Proof.
  intros H0 Hc. cbn [user_loop]. rewrite zget_mid, (proj2 (Z.eqb_neq c 0)), (proj2 (Z.eqb_neq c comma)) by done.
  by rewrite zlen_app, <-app_assoc.
Qed.

Lemma user_word m n pre k last new s :
  0 ∉ m -> comma ∉ m ->
  loop (length m + n)%nat (zlen pre) last (pre ++ m ++ k) algos new s =
    loop n (zlen (pre ++ m)) last ((pre ++ m) ++ k) algos new s.
Proof.
  revert pre. induction m as [|c m IH]; intros pre H0 Hc; [by rewrite app_nil_r|].
  apply not_elem_of_cons in H0 as [H0 H0']. apply not_elem_of_cons in Hc as [Hc Hc'].
  cbn [app length Nat.add]. rewrite user_char, IH by done. by rewrite <-!app_assoc.
Qed.

(** The loop and the name after it. *)
Definition user_rest (n : nat) (c last : Z) (work : list Z) (new : list algo_type) : prog S (list algo_type) :=
  x <- user_loop n c last work algos new ;;
  let '(work, last, new) := x in
  try_add_algo (c_string (zdrop last work)) algos new.

Definition known (names : list (list Z)) : list algo_type := omap (fun n => check_algo n algos) names.

Lemma try_add_ok name new (s : S) :
  zlen new < MAX_PROPOSED_ALGO ->
  exists new', try_add_algo name algos new s = Ok (new', s) /\ new' = new ++ known [name].
Proof.
  intros Hn. unfold try_add_algo, known. cbn. destruct (check_algo name algos) as [a|]; [|exists new; by rewrite app_nil_r].
  rewrite (proj2 (Z.ltb_lt _ _)) by done. by eexists.
Qed.

(** [cur] of the current name has been read, [m] is left of it. *)
Lemma user_names names cur m pre new fuel s :
  Forall name_ok ((cur ++ m) :: names) -> zlen new + 1 + zlen names <= MAX_PROPOSED_ALGO ->
  (length m + length (separated comma names) < fuel)%nat ->
  user_rest fuel (zlen (pre ++ cur)) (zlen pre) (pre ++ (cur ++ m) ++ separated comma names ++ [0]) new s =
    Ok (new ++ known ((cur ++ m) :: names), s).
Proof.
  revert cur m pre new fuel. induction names as [|n names IH]; intros cur m pre new fuel Hn Hcount Hfuel;
    apply Forall_cons_1 in Hn as [(_ & H0 & Hc & _) Hn];
    assert (H0m : 0 ∉ m) by (intros ?; apply H0, elem_of_app; by right);
    assert (Hcm : comma ∉ m) by (intros ?; apply Hc, elem_of_app; by right);
    pose proof (user_word m (fuel - length m) (pre ++ cur)) as Hw;
    rewrite Nat.add_sub_assoc, Nat.add_comm, Nat.add_sub in Hw by lia.
  - unfold user_rest. replace (pre ++ (cur ++ m) ++ separated comma [] ++ [0]) with ((pre ++ cur) ++ m ++ [0])
      by (cbn; by rewrite <-!app_assoc).
    unfold bind at 1. rewrite Hw by done. destruct (fuel - length m)%nat as [|f] eqn:Ef; [lia|].
    cbn [user_loop]. rewrite zget_mid, Z.eqb_refl. unfold ret at 1. rewrite <-!app_assoc, zdrop_app_zlen, app_assoc.
    rewrite c_string_terminated by done. destruct (try_add_ok (cur ++ m) new s) as (new' & E & ->); [rewrite zlen_nil in Hcount; lia|].
    by rewrite E.
  - rewrite zlen_cons in Hcount. pose proof (zlen_nonneg names).
    pose proof Hn as Hn'. apply Forall_cons_1 in Hn' as [(_ & H0n & Hcn & Hne) _].
    destruct n as [|x n]; [done|]. apply not_elem_of_cons in H0n as [Hx0 _]. apply not_elem_of_cons in Hcn as [Hxc _].
    rewrite separated_cons in *. cbn [app length] in *. rewrite length_app in Hfuel.
    unfold user_rest, bind at 1.
    set (p := (pre ++ cur) ++ m) in *. set (k := n ++ separated comma names ++ [0]) in *.
    assert (Ep : pre ++ (cur ++ m) ++ comma :: x :: (n ++ separated comma names) ++ [0] = (pre ++ cur) ++ m ++ comma :: x :: k)
      by (subst k; by rewrite <-!app_assoc).
    rewrite Ep, Hw by done. destruct (fuel - length m)%nat as [|f] eqn:Ef; [lia|].
    cbn [user_loop]. rewrite zget_mid. change (comma =? 0) with false. rewrite Z.eqb_refl, zset_mid.
    assert (Ez : c_string (zdrop (zlen pre) (p ++ 0 :: x :: k)) = cur ++ m).
    { subst p. rewrite <-!app_assoc, zdrop_app_zlen, app_assoc. by apply c_string_terminated. }
    rewrite Ez. destruct (try_add_ok (cur ++ m) new s) as (new' & E & ->); [lia|]. unfold bind at 1. rewrite E.
    specialize (IH [x] n (p ++ [0]) (new ++ known [cur ++ m]) f Hn).
    rewrite !zlen_app, <-!app_assoc in IH. cbn [app] in IH. change (zlen [0]) with 1 in IH. change (zlen [x]) with 1 in IH.
    unfold user_rest, bind at 1 in IH. subst k. rewrite IH.
    + unfold known. by rewrite <-omap_app.
    + unfold known. cbn [omap list_omap]. destruct (check_algo (cur ++ m) algos); rewrite ?zlen_cons, zlen_nil; lia.
    + lia.
Qed.

(** Check_user_algos keeps exactly the algorithms the user names that
    the program has, in the user's order, for a list of well-formed names that
    is short enough for its arrays. *)
Theorem check_user_algos_filters names (s : S) :
  Forall name_ok names -> names <> [] -> zlen names < MAX_PROPOSED_ALGO -> zlen (known names) <= zlen algos ->
  check_user_algos (comma_list names) algos s = Ok (known names, s).
Proof.
  intros Hn Hne Hcount Hfit. destruct names as [|n names]; [done|]. rewrite zlen_cons in Hcount.
  unfold check_user_algos. cbn [comma_list]. rewrite <-app_assoc.
  set (fuel := Datatypes.S (length (n ++ separated comma names ++ [0]))).
  assert (E : user_rest fuel 0 0 (n ++ separated comma names ++ [0]) [] s = Ok (known (n :: names), s)).
  { apply (user_names names [] n [] [] fuel s Hn); [rewrite zlen_nil; lia|]. subst fuel. rewrite !length_app. cbn. lia. }
  unfold user_rest, bind at 1 in E. unfold bind at 1. clearbody fuel.
  destruct (user_loop fuel 0 0 _ _ _ s) as [[[[work last] new] s']| |]; [|done|done].
  rewrite (bind_ok _ _ _ _ _ E).
  assert (Hle : zlen (known (n :: names)) < MAX_PROPOSED_ALGO).
  { eapply Z.le_lt_trans; [|exact Hcount]. clear. rewrite <-zlen_cons with (x := n).
    generalize (n :: names). intros l. unfold known. induction l as [|x l IH]; [done|]. cbn. rewrite zlen_cons.
    destruct (check_algo x algos); rewrite ?zlen_cons; lia. }
  rewrite (proj2 (Z.ltb_lt _ _)), Z.gtb_ltb, (proj2 (Z.ltb_ge _ _)) by done. done.
Qed.
End User.

(** ** Hostile lists *)

Lemma wp_parse_loop n i algolist remotenames (b : buffer) Q :
  0 <= i -> i + Z.of_nat n <= zlen algolist -> zlen remotenames < MAX_PROPOSED_ALGO ->
  (forall r, Q r b) -> wp (parse_loop n i algolist remotenames) Q b.
Proof.
  revert i algolist remotenames. induction n as [|n IH]; intros i algolist remotenames Hi Hn Hr HQ; [apply HQ|].
  cbn [parse_loop]. destruct (zget_is_Some algolist i) as [c ->]; [lia|].
  destruct (c =? 0); [apply HQ|]. rewrite (proj2 (Z.ltb_lt _ _)) by done. rewrite andb_false_r.
  destruct (c =? comma).
  - rewrite Z.geb_leb. destruct (Z.leb_spec MAX_PROPOSED_ALGO (zlen (remotenames ++ [i + 1]))); [apply HQ|].
    apply IH; [lia|rewrite zlen_zset; lia|lia|done].
  - rewrite Z.geb_leb, (proj2 (Z.leb_gt _ _)) by done. apply IH; [lia|lia|done|done].
Qed.

Lemma wp_match_algo is_server localalgos kexguess2 goodguess b : wf_buffer b -> zlen localalgos <= MAX_PROPOSED_ALGO ->
  wp (buf_match_algo is_server localalgos kexguess2 goodguess)
    (fun '(r, _, _) b' => wf_buffer b' /\ forall a, r = Some a -> (a ∈ localalgos) /\ al_usable a = true) b.
Proof.
  intros Hwf Hlen. unfold buf_match_algo. apply wp_bind. eapply wp_mono; [by apply wp_getstring|].
  intros [algolist len] b1 (Hb1 & _ & Hl & Hz). case_match; [by apply wp_ret|].
  apply wp_bind. apply wp_parse_loop; [done|lia|by vm_compute|]. intros [[alg pos]|]; [|by apply wp_ret].
  rewrite Z.gtb_ltb, (proj2 (Z.ltb_ge _ _)) by done.
  set (names := map _ pos). pose proof (match_names_spec is_server localalgos names) as Hm. unfold match_names in Hm.
  destruct is_server; (destruct (cli_loop _ _ _) as [[i j]|]; [|by apply wp_ret]);
    destruct Hm as (a & Ha & Hu & _); rewrite Ha; apply wp_ret; (split; [done|]); intros a' [= <-];
    (split; [|done]); unfold zget in Ha; (case_match; [|done]); by eapply list_elem_of_lookup_2.
Qed.

(** Writing a list keeps the buffer well formed, or ends the session. *)
Lemma wp_put_algolist (l : list algo_type) b : wf_buffer b -> offer_ok l -> wp (buf_put_algolist l) (fun _ b' => wf_buffer b') b.
Proof.
  intros Hb (Hl & _ & Hlen). set (m := comma_list (usable_names l)) in *. pose proof (zlen_nonneg m) as Hz.
  unfold buf_put_algolist. destruct (repr_buf_new 160 b) as (a0 & E0 & H0); [by vm_compute|].
  apply wp_bind. unfold wp at 1. rewrite E0. destruct (put_algos_ok l false a0 [] 160 Hl H0 Hlen) as (a1 & E1 & H1).
  rewrite E1. cbn [rest_of] in H1. fold m in H1. rewrite app_nil_l in H1.
  destruct (br_data _ _ _ _ H1) as (rest & Hd & Hrest). cbn [app] in Hd.
  assert (Hlen1 : b_len a1 = zlen m) by (rewrite (br_len _ _ _ _ H1), zlen_nil; lia).
  rewrite Hlen1. unfold buf_putstring. apply wp_bind. eapply wp_mono; [by apply wp_putint|]. cbn beta. intros [] b1 Hb1.
  apply wp_putprefix; [done|apply H1| |unfold OBJECT_MAX; lia].
  rewrite Hd, zlen_app. pose proof (zlen_nonneg rest). lia.
Qed.

(** Whatever list a peer sends, matching it stays within the list, the
    arrays and the buffer: it ends the session or returns a local algorithm
    that is usable, or none. *)
Theorem buf_match_algo_safe is_server localalgos kexguess2 goodguess b :
  wf_buffer b -> zlen localalgos <= MAX_PROPOSED_ALGO ->
  match buf_match_algo is_server localalgos kexguess2 goodguess b with
  | Ok ((r, _, _), b') => wf_buffer b' /\ forall a, r = Some a -> (a ∈ localalgos) /\ al_usable a = true
  | Exit _ => True
  | Fault _ => False
  end.
Proof.
  intros Hwf Hlen. pose proof (wp_match_algo is_server localalgos kexguess2 goodguess b Hwf Hlen) as H.
  unfold wp in H. destruct (buf_match_algo _ _ _ _ b) as [[[[r k] g] b']| |]; done.
Qed.
End Algo.

(** ** Concrete lists *)

Definition toy_algo (n : list Z) : algo_type unit := mkalgo n 0 tt true.
Definition toy_client : list (algo_type unit) := map toy_algo [[97; 49]; [98]; KEXGUESS2_ALGO_NAME].
Definition toy_server : list (algo_type unit) := map toy_algo [[99]; [98]; [97; 49]; KEXGUESS2_ALGO_NAME].

Lemma name_ok_dec n :
  forallb (fun x => (0 <? x) && (x <? 256) && negb (x =? comma)) n = true -> n <> [] -> name_ok n.
Proof.
  intros H Hne. rewrite forallb_forall in H.
  assert (Hx : forall x, x ∈ n -> 0 < x < 256 /\ x <> comma).
  { intros x Hx. apply list_elem_of_In in Hx. specialize (H x Hx). cbn beta in H.
    apply andb_prop in H as [H Hc]. apply andb_prop in H as [Hl Hh].
    apply Z.ltb_lt in Hl, Hh. destruct (Z.eqb_spec x comma); done. }
  split; [apply Forall_forall; intros x Hin; destruct (Hx x Hin); split; lia|].
  split; [intros Hin; destruct (Hx _ Hin); lia|]. split; [|done]. intros Hin. by destruct (Hx _ Hin).
Qed.

Lemma toy_client_ok : offer_ok toy_client.
Proof.
  split; [|by vm_compute]. unfold toy_client. cbn [map].
  repeat (apply Forall_cons; split); try (by apply name_ok_dec); by constructor.
Qed.

Lemma toy_server_ok : offer_ok toy_server.
Proof.
  split; [|by vm_compute]. unfold toy_server. cbn [map].
  repeat (apply Forall_cons; split); try (by apply name_ok_dec); by constructor.
Qed.

Lemma negotiation_agrees_witness :
  exists rs ks gs rc kc gc,
    negotiate true toy_client toy_server (Some KEXGUESS2_LOOK) (Some false) tt = Ok ((rs, ks, gs), tt) /\
    negotiate false toy_server toy_client (Some KEXGUESS2_LOOK) (Some false) tt = Ok ((rc, kc, gc), tt) /\
    al_name <$> rs = agreed (usable_names toy_client) (usable_names toy_server) /\
    al_name <$> rc = agreed (usable_names toy_client) (usable_names toy_server) /\
    (Forall (fun a => al_usable a = true) toy_client -> Forall (fun a => al_usable a = true) toy_server ->
     toy_client <> [] -> toy_server <> [] ->
     (KEXGUESS2_ALGO_NAME ∈ usable_names toy_client <-> KEXGUESS2_ALGO_NAME ∈ usable_names toy_server) ->
     ks = kc /\ gs = gc).
Proof. apply (negotiation_agrees toy_client toy_server); [exact toy_client_ok|exact toy_server_ok]. Defined.

Example toy_negotiation :
  negotiate true toy_client toy_server (Some KEXGUESS2_LOOK) (Some false) tt =
    Ok ((Some (toy_algo [97; 49]), Some KEXGUESS2_YES, Some true), tt).
Proof. vm_compute. reflexivity. Qed.

Lemma check_user_algos_filters_witness :
  check_user_algos (comma_list [[98]; [120]; [99]]) toy_server tt = Ok (known toy_server [[98]; [120]; [99]], tt).
Proof.
  apply (check_user_algos_filters toy_server [[98]; [120]; [99]] tt); try done.
  repeat (apply Forall_cons; split); try (by apply name_ok_dec); by constructor.
Defined.

Lemma buf_match_algo_safe_witness :
  match buf_match_algo true toy_server None None (mkbuf [0; 0; 0; 2; 44; 0] 6 0 6) with
  | Ok ((r, _, _), b') => wf_buffer b' /\ forall a, r = Some a -> (a ∈ toy_server) /\ al_usable a = true
  | Exit _ => True
  | Fault _ => False
  end.
Proof.
  apply (buf_match_algo_safe true toy_server None None (mkbuf [0; 0; 0; 2; 44; 0] 6 0 6)); [|done].
  unfold wf_buffer. cbn. split_and!; try done. repeat constructor; done.
Defined.

(** A user's list that ends in a comma makes check_user_algos read past
    the end of its copy of the list: the loop skips the character after a
    comma, here the terminator. *)
Theorem trailing_comma_overruns :
  check_user_algos [98; comma] toy_server tt = Fault "user algorithm list read out of bounds".
Proof. vm_compute. reflexivity. Qed.

(** A user's list that repeats names is copied over the algorithm table
    without regard to the size of the table. *)
Theorem repeated_names_overrun :
  check_user_algos (comma_list (replicate 5 [98])) toy_server tt = Fault "algos written out of bounds" /\
  check_user_algos (comma_list (replicate 21 [98])) toy_server tt = Fault "new_algos written out of bounds".
Proof. split; vm_compute; reflexivity. Qed.
