(* ===== verification/Packet.v ===== *)
(** Model of dropbear's packet.c: building, encrypting and queueing packets,
    writing the queue to the socket, reading, decrypting and checking packets,
    and compression.  It is written over the interfaces of the queue
    (Queue.QueueOps), the cipher modes (Cipher.CipherMode), the hashes
    (Hmac.HashDescriptors), zlib and the random generator.  One definition per
    C function. *)

From S2P Require Import Prelude Dbutil Buffer Queue Cipher Hmac Ssh.
From stdpp Require Import gmap.

Local Open Scope Z_scope.
Local Open Scope prog_scope.

(** ** The environment *)

Definition Z_OK : Z := 0.
Definition Z_BUF_ERROR : Z := -5.

(** zlib, on the bytes left at [next_in] and [avail_out] bytes of room: the
    result code, the new [avail_in], the bytes written and the new stream. *)
Class Zlib (Zs : Type) := {
  deflate : Zs -> list Z -> Z -> Z * Z * list Z * Zs;
  inflate : Zs -> list Z -> Z -> Z * Z * list Z * Zs
}.

(** The random number generator. *)
Class Random (R : Type) := { genrandom : Z -> R -> list Z * R }.
Class RandomLaws (R : Type) `{Random R} := {
  genrandom_ok n r : 0 <= n -> zlen (fst (genrandom n r)) = n /\ bytes (fst (genrandom n r))
}.

(** What the calls of read and writev on the socket find. *)
Inductive read_event := RBytes (bs : list Z) | REof | RIntr | RErr (eagain : bool).
Inductive write_event := WBytes (n : Z) | WIntr | WErr.

(** ** The session *)

(** [struct key_context_directional]; [algo_mac] is spread out. *)
Record key_ctx (St Zs : Type) := mkkeys {
  k_blocksize : Z; k_hash_index : Z; k_mac_keysize : Z; k_mac_hashsize : Z;
  k_mackey : list Z; k_cipher_state : St; k_algo_comp : Z; k_zstream : Zs }.
Arguments mkkeys {St Zs}.
Arguments k_blocksize {St Zs}.
Arguments k_hash_index {St Zs}.
Arguments k_mac_keysize {St Zs}.
Arguments k_mac_hashsize {St Zs}.
Arguments k_mackey {St Zs}.
Arguments k_cipher_state {St Zs}.
Arguments k_algo_comp {St Zs}.
Arguments k_zstream {St Zs}.

(** The part of [struct sshsession] packet.c works on.  The items of the
    write queue are pointers into [s_bufs]. *)
Record sess (Q St Zs R : Type) := mksess {
  s_writepayload : buffer; s_writequeue : Q; s_bufs : gmap positive buffer;
  s_readbuf : option buffer; s_payload : option buffer;
  s_transseq : Z; s_recvseq : Z; s_dataallowed : bool; s_authdone : bool;
  s_reply_queue : list buffer; s_recv : key_ctx St Zs; s_trans : key_ctx St Zs;
  s_datarecv : Z; s_datatrans : Z; s_last_trx_packet_time : Z; s_last_packet_time : Z;
  s_now : Z; s_random : R; s_sock_in : list read_event; s_sock_out : list write_event;
  s_sent : list Z }.
Arguments mksess {Q St Zs R}.
Arguments s_writepayload {Q St Zs R}.
Arguments s_writequeue {Q St Zs R}.
Arguments s_bufs {Q St Zs R}.
Arguments s_readbuf {Q St Zs R}.
Arguments s_payload {Q St Zs R}.
Arguments s_transseq {Q St Zs R}.
Arguments s_recvseq {Q St Zs R}.
Arguments s_dataallowed {Q St Zs R}.
Arguments s_authdone {Q St Zs R}.
Arguments s_reply_queue {Q St Zs R}.
Arguments s_recv {Q St Zs R}.
Arguments s_trans {Q St Zs R}.
Arguments s_datarecv {Q St Zs R}.
Arguments s_datatrans {Q St Zs R}.
Arguments s_last_trx_packet_time {Q St Zs R}.
Arguments s_last_packet_time {Q St Zs R}.
Arguments s_now {Q St Zs R}.
Arguments s_random {Q St Zs R}.
Arguments s_sock_in {Q St Zs R}.
Arguments s_sock_out {Q St Zs R}.
Arguments s_sent {Q St Zs R}.

Section Session.
Context {Q St Zs R : Type}.
Abbreviation sess := (sess Q St Zs R).

Definition set_s_writepayload (x : buffer) (s : sess) : sess :=
  mksess x (s_writequeue s) (s_bufs s) (s_readbuf s) (s_payload s) (s_transseq s) (s_recvseq
    s) (s_dataallowed s) (s_authdone s) (s_reply_queue s) (s_recv s) (s_trans s) (s_datarecv
    s) (s_datatrans s) (s_last_trx_packet_time s) (s_last_packet_time s) (s_now s) (s_random
    s) (s_sock_in s) (s_sock_out s) (s_sent s).
Definition set_s_writequeue (x : Q) (s : sess) : sess :=
  mksess (s_writepayload s) x (s_bufs s) (s_readbuf s) (s_payload s) (s_transseq s)
    (s_recvseq s) (s_dataallowed s) (s_authdone s) (s_reply_queue s) (s_recv s) (s_trans s)
    (s_datarecv s) (s_datatrans s) (s_last_trx_packet_time s) (s_last_packet_time s) (s_now
    s) (s_random s) (s_sock_in s) (s_sock_out s) (s_sent s).
Definition set_s_bufs (x : gmap positive buffer) (s : sess) : sess :=
  mksess (s_writepayload s) (s_writequeue s) x (s_readbuf s) (s_payload s) (s_transseq s)
    (s_recvseq s) (s_dataallowed s) (s_authdone s) (s_reply_queue s) (s_recv s) (s_trans s)
    (s_datarecv s) (s_datatrans s) (s_last_trx_packet_time s) (s_last_packet_time s) (s_now
    s) (s_random s) (s_sock_in s) (s_sock_out s) (s_sent s).
Definition set_s_readbuf (x : option buffer) (s : sess) : sess :=
  mksess (s_writepayload s) (s_writequeue s) (s_bufs s) x (s_payload s) (s_transseq s)
    (s_recvseq s) (s_dataallowed s) (s_authdone s) (s_reply_queue s) (s_recv s) (s_trans s)
    (s_datarecv s) (s_datatrans s) (s_last_trx_packet_time s) (s_last_packet_time s) (s_now
    s) (s_random s) (s_sock_in s) (s_sock_out s) (s_sent s).
Definition set_s_payload (x : option buffer) (s : sess) : sess :=
  mksess (s_writepayload s) (s_writequeue s) (s_bufs s) (s_readbuf s) x (s_transseq s)
    (s_recvseq s) (s_dataallowed s) (s_authdone s) (s_reply_queue s) (s_recv s) (s_trans s)
    (s_datarecv s) (s_datatrans s) (s_last_trx_packet_time s) (s_last_packet_time s) (s_now
    s) (s_random s) (s_sock_in s) (s_sock_out s) (s_sent s).
Definition set_s_transseq (x : Z) (s : sess) : sess :=
  mksess (s_writepayload s) (s_writequeue s) (s_bufs s) (s_readbuf s) (s_payload s) x
    (s_recvseq s) (s_dataallowed s) (s_authdone s) (s_reply_queue s) (s_recv s) (s_trans s)
    (s_datarecv s) (s_datatrans s) (s_last_trx_packet_time s) (s_last_packet_time s) (s_now
    s) (s_random s) (s_sock_in s) (s_sock_out s) (s_sent s).
Definition set_s_recvseq (x : Z) (s : sess) : sess :=
  mksess (s_writepayload s) (s_writequeue s) (s_bufs s) (s_readbuf s) (s_payload s)
    (s_transseq s) x (s_dataallowed s) (s_authdone s) (s_reply_queue s) (s_recv s) (s_trans
    s) (s_datarecv s) (s_datatrans s) (s_last_trx_packet_time s) (s_last_packet_time s)
    (s_now s) (s_random s) (s_sock_in s) (s_sock_out s) (s_sent s).
Definition set_s_dataallowed (x : bool) (s : sess) : sess :=
  mksess (s_writepayload s) (s_writequeue s) (s_bufs s) (s_readbuf s) (s_payload s)
    (s_transseq s) (s_recvseq s) x (s_authdone s) (s_reply_queue s) (s_recv s) (s_trans s)
    (s_datarecv s) (s_datatrans s) (s_last_trx_packet_time s) (s_last_packet_time s) (s_now
    s) (s_random s) (s_sock_in s) (s_sock_out s) (s_sent s).
Definition set_s_reply_queue (x : list buffer) (s : sess) : sess :=
  mksess (s_writepayload s) (s_writequeue s) (s_bufs s) (s_readbuf s) (s_payload s)
    (s_transseq s) (s_recvseq s) (s_dataallowed s) (s_authdone s) x (s_recv s) (s_trans s)
    (s_datarecv s) (s_datatrans s) (s_last_trx_packet_time s) (s_last_packet_time s) (s_now
    s) (s_random s) (s_sock_in s) (s_sock_out s) (s_sent s).
Definition set_s_recv (x : key_ctx St Zs) (s : sess) : sess :=
  mksess (s_writepayload s) (s_writequeue s) (s_bufs s) (s_readbuf s) (s_payload s)
    (s_transseq s) (s_recvseq s) (s_dataallowed s) (s_authdone s) (s_reply_queue s) x
    (s_trans s) (s_datarecv s) (s_datatrans s) (s_last_trx_packet_time s)
    (s_last_packet_time s) (s_now s) (s_random s) (s_sock_in s) (s_sock_out s) (s_sent s).
Definition set_s_trans (x : key_ctx St Zs) (s : sess) : sess :=
  mksess (s_writepayload s) (s_writequeue s) (s_bufs s) (s_readbuf s) (s_payload s)
    (s_transseq s) (s_recvseq s) (s_dataallowed s) (s_authdone s) (s_reply_queue s) (s_recv
    s) x (s_datarecv s) (s_datatrans s) (s_last_trx_packet_time s) (s_last_packet_time s)
    (s_now s) (s_random s) (s_sock_in s) (s_sock_out s) (s_sent s).
Definition set_s_datarecv (x : Z) (s : sess) : sess :=
  mksess (s_writepayload s) (s_writequeue s) (s_bufs s) (s_readbuf s) (s_payload s)
    (s_transseq s) (s_recvseq s) (s_dataallowed s) (s_authdone s) (s_reply_queue s) (s_recv
    s) (s_trans s) x (s_datatrans s) (s_last_trx_packet_time s) (s_last_packet_time s)
    (s_now s) (s_random s) (s_sock_in s) (s_sock_out s) (s_sent s).
Definition set_s_datatrans (x : Z) (s : sess) : sess :=
  mksess (s_writepayload s) (s_writequeue s) (s_bufs s) (s_readbuf s) (s_payload s)
    (s_transseq s) (s_recvseq s) (s_dataallowed s) (s_authdone s) (s_reply_queue s) (s_recv
    s) (s_trans s) (s_datarecv s) x (s_last_trx_packet_time s) (s_last_packet_time s) (s_now
    s) (s_random s) (s_sock_in s) (s_sock_out s) (s_sent s).
Definition set_s_last_trx_packet_time (x : Z) (s : sess) : sess :=
  mksess (s_writepayload s) (s_writequeue s) (s_bufs s) (s_readbuf s) (s_payload s)
    (s_transseq s) (s_recvseq s) (s_dataallowed s) (s_authdone s) (s_reply_queue s) (s_recv
    s) (s_trans s) (s_datarecv s) (s_datatrans s) x (s_last_packet_time s) (s_now s)
    (s_random s) (s_sock_in s) (s_sock_out s) (s_sent s).
Definition set_s_last_packet_time (x : Z) (s : sess) : sess :=
  mksess (s_writepayload s) (s_writequeue s) (s_bufs s) (s_readbuf s) (s_payload s)
    (s_transseq s) (s_recvseq s) (s_dataallowed s) (s_authdone s) (s_reply_queue s) (s_recv
    s) (s_trans s) (s_datarecv s) (s_datatrans s) (s_last_trx_packet_time s) x (s_now s)
    (s_random s) (s_sock_in s) (s_sock_out s) (s_sent s).
Definition set_s_random (x : R) (s : sess) : sess :=
  mksess (s_writepayload s) (s_writequeue s) (s_bufs s) (s_readbuf s) (s_payload s)
    (s_transseq s) (s_recvseq s) (s_dataallowed s) (s_authdone s) (s_reply_queue s) (s_recv
    s) (s_trans s) (s_datarecv s) (s_datatrans s) (s_last_trx_packet_time s)
    (s_last_packet_time s) (s_now s) x (s_sock_in s) (s_sock_out s) (s_sent s).
Definition set_s_sock_in (x : list read_event) (s : sess) : sess :=
  mksess (s_writepayload s) (s_writequeue s) (s_bufs s) (s_readbuf s) (s_payload s)
    (s_transseq s) (s_recvseq s) (s_dataallowed s) (s_authdone s) (s_reply_queue s) (s_recv
    s) (s_trans s) (s_datarecv s) (s_datatrans s) (s_last_trx_packet_time s)
    (s_last_packet_time s) (s_now s) (s_random s) x (s_sock_out s) (s_sent s).
Definition set_s_sock_out (x : list write_event) (s : sess) : sess :=
  mksess (s_writepayload s) (s_writequeue s) (s_bufs s) (s_readbuf s) (s_payload s)
    (s_transseq s) (s_recvseq s) (s_dataallowed s) (s_authdone s) (s_reply_queue s) (s_recv
    s) (s_trans s) (s_datarecv s) (s_datatrans s) (s_last_trx_packet_time s)
    (s_last_packet_time s) (s_now s) (s_random s) (s_sock_in s) x (s_sent s).
Definition set_s_sent (x : list Z) (s : sess) : sess :=
  mksess (s_writepayload s) (s_writequeue s) (s_bufs s) (s_readbuf s) (s_payload s)
    (s_transseq s) (s_recvseq s) (s_dataallowed s) (s_authdone s) (s_reply_queue s) (s_recv
    s) (s_trans s) (s_datarecv s) (s_datatrans s) (s_last_trx_packet_time s)
    (s_last_packet_time s) (s_now s) (s_random s) (s_sock_in s) (s_sock_out s) x.

Definition set_cipher_state (st : St) (k : key_ctx St Zs) : key_ctx St Zs :=
  mkkeys (k_blocksize k) (k_hash_index k) (k_mac_keysize k) (k_mac_hashsize k) (k_mackey k) st
    (k_algo_comp k) (k_zstream k).
Definition set_zstream (z : Zs) (k : key_ctx St Zs) : key_ctx St Zs :=
  mkkeys (k_blocksize k) (k_hash_index k) (k_mac_keysize k) (k_mac_hashsize k) (k_mackey k)
    (k_cipher_state k) (k_algo_comp k) z.

(** ** Buffers of the session *)

(** An operation on [ses.writepayload] and on [ses.readbuf]. *)
Definition on_writepayload {A} (m : prog buffer A) : prog sess A :=
  zoom s_writepayload set_s_writepayload m.

Definition on_readbuf {A} (m : prog buffer A) : prog sess A := fun s =>
  match s_readbuf s with
  | None => Fault "null pointer"
  | Some b => match m b with
              | Ok (a, b') => Ok (a, set_s_readbuf (Some b') s)
              | Exit e => Exit e
              | Fault e => Fault e
              end
  end.

(** An operation on a buffer held in a local variable, and its new value. *)
Definition on {S A} (b : buffer) (m : prog buffer A) : prog S (A * buffer) := fun s =>
  match m b with
  | Ok (a, b') => Ok ((a, b'), s)
  | Exit e => Exit e
  | Fault e => Fault e
  end.

(** An operation on the buffer a pointer of the write queue points at. *)
Definition on_ptr {A} (p : positive) (m : prog buffer A) : prog sess A := fun s =>
  match s_bufs s !! p with
  | None => Fault "dangling pointer"
  | Some b => match m b with
              | Ok (a, b') => Ok (a, set_s_bufs (<[p := b']> (s_bufs s)) s)
              | Exit e => Exit e
              | Fault e => Fault e
              end
  end.

Definition on_queue {A} (m : prog Q A) : prog sess A := zoom s_writequeue set_s_writequeue m.

(** The bytes from a pointer [buf_getptr] returned. *)
Definition getptr_bytes (len : Z) : prog buffer (list Z) :=
  p <- buf_getptr len ;; load_bytes p len.
End Session.

Section Operations.
Context {Q St H Zs R : Type} `{QueueOps Q positive} `{CipherMode St} `{HashDescriptors H}
        `{Zlib Zs} `{Random R}.
Abbreviation sess := (sess Q St Zs R).

(** [ses.remoteclosed()]: both implementations end the process. *)
Definition remoteclosed {A} : prog sess A := dropbear_exit "Exited normally".

Definition buf_free (p : positive) : prog sess unit :=
  modify (fun s => set_s_bufs (delete p (s_bufs s)) s).

(** A location that is not in use. *)
Definition fresh_ptr (bufs : gmap positive buffer) : positive := stdpp.base.fresh (dom bufs).

(** ** Writing *)

(** [writev]: what the socket takes of [iov]; with nothing to take it fails. *)
Definition writev (iov : list Z) : prog sess write_event := fun s =>
  match s_sock_out s with
  | [] => Ok (WErr, s)
  | WBytes n :: rest =>
      let n := Z.min (Z.max 0 n) (zlen iov) in
      Ok (WBytes n, set_s_sent (s_sent s ++ ztake n iov) (set_s_sock_out rest s))
  | e :: rest => Ok (e, set_s_sock_out rest s)
  end.

(** The loop over the queue's cells: the bytes of all [iov] entries and
    [all_ignore]. *)
Fixpoint build_iov (items : list positive) : prog sess (list Z * bool) :=
  match items with
  | [] => ret ([], true)
  | p :: items =>
      x <- on_ptr p
        (b <- gets id ;;
         match zget (b_data b) (b_len b - 1) with
         | None => fault "buffer read out of bounds"
         | Some packet_type =>
             let len := s32 (b_len b - 1 - b_pos b) in
             dropbear_assert (len >? 0) ;;;
             bs <- getptr_bytes len ;;
             ret (packet_type, bs)
         end) ;;
      let '(packet_type, bs) := x in
      y <- build_iov items ;;
      let '(iov, all_ignore) := y in
      ret (bs ++ iov, (packet_type =? SSH_MSG_IGNORE) && all_ignore)
  end.

(** [while (written > 0)]; [n] is at least the number of queued packets. *)
Fixpoint drain (n : nat) (written : Z) : prog sess unit :=
  if written >? 0 then
    match n with
    | O => fault "out of fuel"
    | S n =>
        writebuf <- on_queue q_examine ;;
        len <- on_ptr writebuf (b <- gets id ;; ret (s32 (b_len b - 1 - b_pos b))) ;;
        if len >? written then on_ptr writebuf (buf_incrpos written)
        else
          on_queue q_dequeue ;;;
          buf_free writebuf ;;;
          drain n (written - len)
    end
  else ret tt.

Definition write_packet : prog sess unit :=
  q <- gets s_writequeue ;;
  dropbear_assert (negb (q_isempty q)) ;;;
  items <- on_queue q_walk ;;
  x <- build_iov items ;;
  let '(iov, all_ignore) := x in
  w <- writev iov ;;
  match w with
  | WIntr => ret tt
  | WErr => dropbear_exit "Error writing"
  | WBytes written =>
      when (written =? 0) remoteclosed ;;;
      drain (length items) written ;;;
      now <- gets s_now ;;
      modify (set_s_last_trx_packet_time now) ;;;
      when (negb all_ignore) (modify (set_s_last_packet_time now))
  end.

(** ** The MAC *)

(** The new contents of the array [output_mac] of MAX_MAC_LEN bytes. *)
Definition make_mac (seqno : Z) (key_state : key_ctx St Zs) (clear_len : Z) (output_mac : list Z)
    : prog buffer (list Z) :=
  if k_mac_hashsize key_state >? 0 then
    match hmac_init (k_hash_index key_state) (k_mackey key_state) (k_mac_keysize key_state) with
    | None => dropbear_exit "HMAC error"
    | Some hmac =>
        match hmac_process hmac (store32h seqno) with
        | None => dropbear_exit "HMAC error"
        | Some hmac =>
            buf_setpos 0 ;;;
            bs <- getptr_bytes clear_len ;;
            match hmac_process hmac bs with
            | None => dropbear_exit "HMAC error"
            | Some hmac =>
                match hmac_done hmac MAX_MAC_LEN with
                | None => dropbear_exit "HMAC error"
                | Some tag => ret (splice 0 tag output_mac)
                end
            end
        end
    end
  else ret output_mac.

(** The array [mac_bytes] before it is written: its contents do not matter. *)
Definition mac_bytes : list Z := replicate (Z.to_nat MAX_MAC_LEN) 0.

(** DROPBEAR_SUCCESS as [true]. *)
Definition checkmac : prog sess bool :=
  k <- gets s_recv ;;
  recvseq <- gets s_recvseq ;;
  let mac_size := k_mac_hashsize k in
  on_readbuf
    (b_len <- gets b_len ;;
     let contents_len := u32 (b_len - mac_size) in
     buf_setpos 0 ;;;
     mac <- make_mac recvseq k contents_len mac_bytes ;;
     buf_setpos contents_len ;;;
     theirs <- getptr_bytes mac_size ;;
     r <- constant_time_memcmp mac theirs mac_size ;;
     ret (r =? 0)).

(** ** Compression *)

Definition is_compress_trans (s : sess) : bool :=
  (k_algo_comp (s_trans s) =? DROPBEAR_COMP_ZLIB) ||
  (s_authdone s && (k_algo_comp (s_trans s) =? DROPBEAR_COMP_ZLIB_DELAY)).

Definition is_compress_recv (s : sess) : bool :=
  (k_algo_comp (s_recv s) =? DROPBEAR_COMP_ZLIB) ||
  (s_authdone s && (k_algo_comp (s_recv s) =? DROPBEAR_COMP_ZLIB_DELAY)).

(** One call of inflate or deflate with output at the end of [ret_]: the
    result code, the input left, the new [avail_out] and the new stream. *)
Definition zlib_call (f : Zs -> list Z -> Z -> Z * Z * list Z * Zs) (zs : Zs) (input : list Z)
    : prog buffer (Z * list Z * Z * Zs) :=
  b <- gets id ;;
  let avail_out := u32 (b_size b - b_pos b) in
  p <- buf_getwriteptr avail_out ;;
  let '(result, avail_in, output, zs) := f zs input avail_out in
  store_bytes p output ;;;
  let avail_out := avail_out - zlen output in
  buf_setlen (u32 (b_size b - avail_out)) ;;;
  len <- gets b_len ;;
  buf_setpos len ;;;
  ret (result, zdrop (zlen input - avail_in) input, avail_out, zs).

(** [while (1)] of buf_decompress; every pass but the last enlarges the
    buffer. *)
Fixpoint buf_decompress_loop (n : nat) (fresh : Z -> Z) (zs : Zs) (input : list Z) : prog buffer Zs :=
  match n with
  | O => fault "out of fuel"
  | S n =>
      x <- zlib_call inflate zs input ;;
      let '(result, input, avail_out, zs) := x in
      if negb (result =? Z_BUF_ERROR) && negb (result =? Z_OK) then dropbear_exit "zlib error"
      else if (zlen input =? 0) && (negb (avail_out =? 0) || (result =? Z_BUF_ERROR)) then ret zs
      else
        when (avail_out =? 0)
          (size <- gets b_size ;;
           (if size >=? RECV_MAX_PAYLOAD_LEN then dropbear_exit "bad packet, oversized decompressed"
            else buf_resize fresh (Z.min RECV_MAX_PAYLOAD_LEN (size + ZLIB_DECOMPRESS_INCR)))) ;;;
        buf_decompress_loop n fresh zs input
  end.

(** At most this many passes: the size grows by at least 1 and then by
    ZLIB_DECOMPRESS_INCR up to RECV_MAX_PAYLOAD_LEN. *)
Definition decompress_fuel : nat := 40.

Definition buf_decompress (fresh : Z -> Z) (len : Z) : prog sess buffer :=
  k <- gets s_recv ;;
  ret_ <- buf_new len ;;
  input <- on_readbuf (getptr_bytes len) ;;
  x <- on ret_ (buf_decompress_loop decompress_fuel fresh (k_zstream k) input) ;;
  let '(zs, ret_) := x in
  modify (fun s => set_s_recv (set_zstream zs (s_recv s)) s) ;;;
  ret ret_.

(** The loop of buf_compress on [dest], with the input that is left. *)
Fixpoint buf_compress_loop (n : nat) (fresh : Z -> Z) (zs : Zs) (input : list Z) : prog buffer Zs :=
  match n with
  | O => fault "out of fuel"
  | S n =>
      x <- zlib_call deflate zs input ;;
      let '(result, input, avail_out, zs) := x in
      if negb (result =? Z_OK) then dropbear_exit "zlib error"
      else if zlen input =? 0 then ret zs
      else
        dropbear_assert (avail_out =? 0) ;;;
        size <- gets b_size ;;
        buf_resize fresh (u32 (size + ZLIB_COMPRESS_INCR)) ;;;
        buf_compress_loop n fresh zs input
  end.

(** deflate consumes or produces something in every call. *)
Definition compress_fuel (len : Z) : nat := Z.to_nat (2 * len + 2).

(** [buf_compress(dest, ses.writepayload, len)]: the new [dest]. *)
Definition buf_compress (fresh : Z -> Z) (dest : buffer) (len : Z) : prog sess buffer :=
  k <- gets s_trans ;;
  input <- on_writepayload (getptr_bytes len) ;;
  x <- on dest (buf_compress_loop (compress_fuel len) fresh (k_zstream k) input) ;;
  let '(zs, dest) := x in
  on_writepayload (buf_incrpos len) ;;;
  modify (fun s => set_s_trans (set_zstream zs (s_trans s)) s) ;;;
  ret dest.

(** ** Reading *)

(** [read(ses.sock_in, p, maxlen)] with [maxlen > 0]; data that does not fit
    stays in the socket, and an empty socket is EAGAIN. *)
Definition sock_read (maxlen : Z) : prog sess read_event := fun s =>
  match s_sock_in s with
  | [] => Ok (RErr true, s)
  | RBytes bs :: rest =>
      if zlen bs <=? maxlen then Ok (RBytes bs, set_s_sock_in rest s)
      else Ok (RBytes (ztake maxlen bs), set_s_sock_in (RBytes (zdrop maxlen bs) :: rest) s)
  | e :: rest => Ok (e, set_s_sock_in rest s)
  end.

(** The event as the return value and the bytes stored at [p]; an end of file
    is a read of no bytes. *)
Definition read_bytes (e : read_event) : option (list Z) :=
  match e with RBytes bs => Some bs | REof => Some [] | _ => None end.

(** Decrypting [len] bytes at the position of readbuf in place. *)
Definition decrypt_in_place (len : Z) : prog sess unit :=
  ct <- on_readbuf (getptr_bytes len) ;;
  p <- on_readbuf (buf_getwriteptr len) ;;
  k <- gets s_recv ;;
  match cm_decrypt ct (k_cipher_state k) with
  | None => dropbear_exit "Error decrypting"
  | Some (pt, st) =>
      on_readbuf (store_bytes p pt) ;;;
      modify (set_s_recv (set_cipher_state st k))
  end.

(** The packet length, from the first block, and room for the packet. *)
Definition first_block (fresh : Z -> Z) : prog sess unit :=
  k <- gets s_recv ;;
  let blocksize := k_blocksize k in
  let macsize := k_mac_hashsize k in
  on_readbuf (buf_setpos 0) ;;;
  decrypt_in_place blocksize ;;;
  n <- on_readbuf buf_getint ;;
  let len := u32 (n + 4 + macsize) in
  if (len >? RECV_MAX_PACKET_LEN) || (len <? MIN_PACKET_LEN + macsize)
     || negb (u32 (len - macsize) mod blocksize =? 0)
  then dropbear_exit "Integrity error (bad packet size)"
  else
    on_readbuf
      (size <- gets b_size ;;
       when (len >? size) (buf_resize fresh len) ;;;
       buf_setlen len ;;;
       buf_setpos blocksize).

(** DROPBEAR_SUCCESS as [true]. *)
Definition read_packet_init (fresh : Z -> Z) : prog sess bool :=
  k <- gets s_recv ;;
  readbuf <- gets s_readbuf ;;
  match readbuf with
  | None => b <- buf_new INIT_READBUF ;; modify (set_s_readbuf (Some b))
  | Some _ => ret tt
  end ;;;
  pos <- on_readbuf (gets b_pos) ;;
  let maxlen := u32 (k_blocksize k - pos) in
  p <- on_readbuf (buf_getwriteptr maxlen) ;;
  e <- sock_read maxlen ;;
  match read_bytes e with
  | None => match e with
            | RIntr => ret false
            | _ => dropbear_exit "Error reading"
            end
  | Some bs =>
      let slen := zlen bs in
      when (slen =? 0) remoteclosed ;;;
      on_readbuf (store_bytes p bs) ;;;
      on_readbuf (buf_incrwritepos slen) ;;;
      if negb (slen =? maxlen) then ret false
      else first_block fresh ;;; ret true
  end.

(** Decrypting everything behind the first block. *)
Definition decrypt_rest : prog sess unit :=
  k <- gets s_recv ;;
  blen <- on_readbuf (gets b_len) ;;
  modify (fun s => set_s_datarecv (u32 (s_datarecv s + blen)) s) ;;;
  on_readbuf (buf_setpos (k_blocksize k)) ;;;
  pos <- on_readbuf (gets b_pos) ;;
  let len := u32 (blen - k_mac_hashsize k - pos) in
  decrypt_in_place len ;;;
  on_readbuf (buf_incrpos (s32 len)).

(** The payload of the decrypted packet. *)
Definition take_payload (fresh : Z -> Z) : prog sess buffer :=
  k <- gets s_recv ;;
  on_readbuf (buf_setpos PACKET_PADDING_OFF) ;;;
  padlen <- on_readbuf buf_getbyte ;;
  blen <- on_readbuf (gets b_len) ;;
  let len := u32 (blen - padlen - 4 - 1 - k_mac_hashsize k) in
  if (len >? RECV_MAX_PAYLOAD_LEN) || (len <? 1) then dropbear_exit "Bad packet size"
  else
    on_readbuf (buf_setpos PACKET_PAYLOAD_OFF) ;;;
    compressed <- gets is_compress_recv ;;
    if compressed : bool then buf_decompress fresh len
    else
      payload <- buf_new len ;;
      bs <- on_readbuf (getptr_bytes len) ;;
      x <- on payload (store_bytes 0 bs ;;; buf_incrlen len) ;;
      ret (snd x).

Definition decrypt_packet (fresh : Z -> Z) : prog sess unit :=
  decrypt_rest ;;;
  good <- checkmac ;;
  if negb good then dropbear_exit "Integrity error"
  else
    payload <- take_payload fresh ;;
    modify (set_s_readbuf None) ;;;
    x <- on payload (buf_setpos 0) ;;
    modify (set_s_payload (Some (snd x))) ;;;
    modify (fun s => set_s_recvseq (u32 (s_recvseq s + 1)) s).

(** Reading on behind the first block. *)
Definition read_packet_rest (fresh : Z -> Z) : prog sess unit :=
  blen <- on_readbuf (gets b_len) ;;
  pos <- on_readbuf (gets b_pos) ;;
  let maxlen := u32 (blen - pos) in
  if maxlen =? 0 then decrypt_packet fresh
  else
    p <- on_readbuf (buf_getptr maxlen) ;;
    e <- sock_read maxlen ;;
    match read_bytes e with
    | None => match e with
              | RIntr | RErr true => ret tt
              | _ => dropbear_exit "Error reading"
              end
    | Some bs =>
        let len := zlen bs in
        when (len =? 0) remoteclosed ;;;
        on_readbuf (store_bytes p bs) ;;;
        on_readbuf (buf_incrpos len) ;;;
        when (len =? maxlen) (decrypt_packet fresh)
    end.

Definition read_packet (fresh : Z -> Z) : prog sess unit :=
  k <- gets s_recv ;;
  readbuf <- gets s_readbuf ;;
  go <- (if match readbuf with None => true | Some b => b_len b <? k_blocksize k end
         then read_packet_init fresh else ret true) ;;
  if negb go then ret tt else read_packet_rest fresh.

(** ** Sending *)

Definition packet_is_okay_kex (type : Z) : bool :=
  if type >=? SSH_MSG_USERAUTH_REQUEST then false
  else if (type =? SSH_MSG_SERVICE_REQUEST) || (type =? SSH_MSG_SERVICE_ACCEPT) then false
  else if type =? SSH_MSG_KEXINIT then false
  else true.

Definition enqueue_reply_packet : prog sess unit :=
  wp <- gets s_writepayload ;;
  payload <- buf_newcopy wp ;;
  on_writepayload (buf_setpos 0) ;;;
  on_writepayload (buf_setlen 0) ;;;
  modify (fun s => set_s_reply_queue (s_reply_queue s ++ [payload]) s).

(** The padding length, an [unsigned char], for [len] bytes before it. *)
Definition padding (blocksize len : Z) : Z :=
  let padlen := u8 (blocksize - len mod blocksize) in
  let padlen := if padlen <? 4 then u8 (padlen + blocksize) else padlen in
  if len + padlen <? MIN_PACKET_LEN then u8 (padlen + blocksize) else padlen.

(** Filling [writebuf] with the payload, compressed or copied. *)
Definition put_payload (fresh : Z -> Z) (writebuf : buffer) : prog sess buffer :=
  compressed <- gets is_compress_trans ;;
  plen <- on_writepayload (gets b_len) ;;
  if compressed : bool then
    writebuf <- buf_compress fresh writebuf plen ;;
    let compress_delta := s32 (b_len writebuf - PACKET_PAYLOAD_OFF - plen) in
    (if compress_delta >? ZLIB_COMPRESS_INCR
     then x <- on writebuf (buf_resize fresh (u32 (b_size writebuf + compress_delta))) ;; ret (snd x)
     else ret writebuf)
  else
    bs <- on_writepayload (getptr_bytes plen) ;;
    x <- on writebuf (p <- buf_getwriteptr plen ;; store_bytes p bs ;;; buf_incrwritepos plen) ;;
    ret (snd x).

(** The length fields and the padding. *)
Definition frame_header (padlen : Z) (pad : list Z) : prog buffer unit :=
  blen <- gets b_len ;;
  buf_setpos 0 ;;;
  buf_putint (u32 (blen + padlen - 4)) ;;;
  buf_putbyte padlen ;;;
  len <- gets b_len ;;
  buf_setpos len ;;;
  buf_incrlen padlen ;;;
  p <- buf_getptr padlen ;;
  store_bytes p pad.

(** From the length field to the packet type byte; the new cipher state. *)
Definition frame_packet (k : key_ctx St Zs) (transseq packet_type padlen : Z) (pad : list Z)
    : prog buffer St :=
  frame_header padlen pad ;;;
  len <- gets b_len ;;
  mac <- make_mac transseq k len mac_bytes ;;
  buf_setpos 0 ;;;
  len <- gets b_len ;;
  pt <- getptr_bytes len ;;
  p <- buf_getwriteptr len ;;
  match cm_encrypt pt (k_cipher_state k) with
  | None => dropbear_exit "Error encrypting"
  | Some (ct, st) =>
      store_bytes p ct ;;;
      buf_incrpos (s32 len) ;;;
      buf_putbytes mac (k_mac_hashsize k) ;;;
      buf_putbyte packet_type ;;;
      buf_setpos 0 ;;;
      ret st
  end.

(** A buffer for the packet, with the header space skipped. *)
Definition new_writebuf : prog sess buffer :=
  k <- gets s_trans ;;
  plen <- on_writepayload (gets b_len) ;;
  let encrypt_buf_size :=
    u32 (plen + 4 + 1 + Z.max MIN_PACKET_LEN (k_blocksize k) + 3 + k_mac_hashsize k
         + ZLIB_COMPRESS_INCR + 1) in
  writebuf <- buf_new encrypt_buf_size ;;
  x <- on writebuf (buf_setlen PACKET_PAYLOAD_OFF ;;; buf_setpos PACKET_PAYLOAD_OFF) ;;
  ret (snd x).

(** Enqueueing the finished packet and updating the counts. *)
Definition enqueue_packet (writebuf : buffer) : prog sess unit :=
  bufs <- gets s_bufs ;;
  let p := fresh_ptr bufs in
  modify (set_s_bufs (<[p := writebuf]> bufs)) ;;;
  on_queue (q_enqueue p) ;;;
  modify (fun s => set_s_datatrans (u32 (s_datatrans s + b_len writebuf)) s) ;;;
  modify (fun s => set_s_transseq (u32 (s_transseq s + 1)) s).

(** What encrypt_packet does when the packet may be sent now. *)
Definition send_packet (fresh : Z -> Z) (packet_type : Z) : prog sess unit :=
  writebuf <- new_writebuf ;;
  writebuf <- put_payload fresh writebuf ;;
  on_writepayload (buf_setpos 0) ;;;
  on_writepayload (buf_setlen 0) ;;;
  k <- gets s_trans ;;
  let padlen := padding (k_blocksize k) (b_len writebuf) in
  r <- gets s_random ;;
  let '(pad, r) := genrandom padlen r in
  modify (set_s_random r) ;;;
  transseq <- gets s_transseq ;;
  x <- on writebuf (frame_packet k transseq packet_type padlen pad) ;;
  let '(st, writebuf) := x in
  modify (fun s => set_s_trans (set_cipher_state st (s_trans s)) s) ;;;
  enqueue_packet writebuf.

Definition encrypt_packet (fresh : Z -> Z) : prog sess unit :=
  on_writepayload (buf_setpos 0) ;;;
  packet_type <- on_writepayload buf_getbyte ;;
  on_writepayload (buf_setpos 0) ;;;
  dataallowed <- gets s_dataallowed ;;
  if negb dataallowed && negb (packet_is_okay_kex packet_type) then enqueue_reply_packet
  else send_packet fresh packet_type.

(** The loop over the queued replies. *)
Fixpoint flush_replies (fresh : Z -> Z) (l : list buffer) : prog sess unit :=
  match l with
  | [] => ret tt
  | b :: l =>
      on_writepayload (buf_putbytes (b_data b) (b_len b)) ;;;
      encrypt_packet fresh ;;;
      flush_replies fresh l
  end.

Definition maybe_flush_reply_queue (fresh : Z -> Z) : prog sess unit :=
  dataallowed <- gets s_dataallowed ;;
  if negb dataallowed then ret tt
  else
    l <- gets s_reply_queue ;;
    flush_replies fresh l ;;;
    modify (set_s_reply_queue []).
End Operations.

(** ** Framing *)

Section Frame.
Context {St H Zs : Type} `{CipherMode St} `{HashLaws H}.

(** The MAC settings of a direction, and its keys. *)
Definition wf_mac (k : key_ctx St Zs) : Prop :=
  0 <= k_mac_hashsize k <= MAX_MAC_LEN /\
  (0 < k_mac_hashsize k ->
     hash_is_valid (k_hash_index k) = true /\ k_mac_hashsize k <= hash_size (k_hash_index k) /\
     0 < k_mac_keysize k <= zlen (k_mackey k) /\ bytes (k_mackey k)).

(** The tag of the packet [clear] with sequence number [seq]. *)
Definition mac_of (k : key_ctx St Zs) (seq : Z) (clear : list Z) : list Z :=
  if 0 <? k_mac_hashsize k
  then ztake (k_mac_hashsize k)
         (hmac (k_hash_index k) (ztake (k_mac_keysize k) (k_mackey k)) (store32h seq ++ clear))
  else [].

(** A packet before encryption. *)
Definition clear_packet (payload pad : list Z) : list Z :=
  store32h (1 + zlen payload + zlen pad) ++ [zlen pad] ++ payload ++ pad.

Lemma zlen_clear payload pad : zlen (clear_packet payload pad) = 5 + zlen payload + zlen pad.
Proof. unfold clear_packet. rewrite !zlen_app, zlen_store32h, zlen_cons. change (zlen (@nil Z)) with 0. lia. Qed.

Lemma clear_bytes payload pad :
  bytes payload -> bytes pad -> zlen pad < 256 -> bytes (clear_packet payload pad).
Proof.
  intros Hp Hpad Hl. pose proof (zlen_nonneg pad). unfold clear_packet.
  repeat apply Forall_app_2; try done; [apply store32h_bytes|]. constructor; [|done]. unfold is_byte. lia.
Qed.

Lemma zlen_mac_of k seq clear : wf_mac k -> zlen (mac_of k seq clear) = k_mac_hashsize k /\ bytes (mac_of k seq clear).
Proof.
  intros [Hr Hv]. unfold mac_of. destruct (Z.ltb_spec 0 (k_mac_hashsize k)) as [Hlt|Hge].
  - destruct (Hv Hlt) as (Hvalid & Hle & _).
    destruct (hmac_ok (k_hash_index k) (ztake (k_mac_keysize k) (k_mackey k)) (store32h seq ++ clear) Hvalid) as [Hz Hb].
    split; [apply zlen_ztake; lia|by apply Forall_ztake].
  - split; [|done]. change (zlen (@nil Z)) with 0. lia.
Qed.

Lemma zlen_mac_bytes : zlen mac_bytes = MAX_MAC_LEN /\ bytes mac_bytes.
Proof. split; [done|]. by apply Forall_replicate. Qed.

Lemma repr_getptr_bytes b pre m post room n :
  n = zlen m -> buf_repr b pre (m ++ post) room -> getptr_bytes n b = Ok (m, b).
Proof.
  intros Hn Hb. unfold getptr_bytes. erewrite bind_ok by (by eapply repr_getptr).
  by eapply repr_load.
Qed.

(** make_mac leaves the bytes of the buffer alone and puts the tag at the
    front of the array. *)
Lemma make_mac_ok k seq b pre post clear rest room n :
  wf_mac k -> buf_repr b pre post room -> pre ++ post = clear ++ rest -> n = zlen clear ->
  exists mac b' pre' post', make_mac seq k n mac_bytes b = Ok (mac, b') /\
    buf_repr b' pre' post' room /\ pre' ++ post' = pre ++ post /\
    zlen mac = MAX_MAC_LEN /\ bytes mac /\ ztake (k_mac_hashsize k) mac = mac_of k seq clear.
Proof.
  intros Hk Hb Heq ->. destruct zlen_mac_bytes as [Hmz Hmb]. destruct Hk as [Hr Hv].
  unfold make_mac, mac_of. rewrite Z.gtb_ltb. destruct (Z.ltb_spec 0 (k_mac_hashsize k)) as [Hlt|Hge].
  2: { exists mac_bytes, b, pre, post. split_and!; try done. by replace (k_mac_hashsize k) with 0 by lia. }
  destruct (Hv Hlt) as (Hvalid & Hle & Hks & Hkb).
  assert (Hclear : bytes clear).
  { destruct (buf_repr_bytes _ _ _ _ Hb) as [Hpre Hpost].
    assert (Hall : bytes (clear ++ rest)) by (rewrite <-Heq; by apply Forall_app).
    by apply Forall_app in Hall as [? _]. }
  destruct (hmac_init_ok (k_hash_index k) (k_mackey k) (k_mac_keysize k) Hvalid Hkb Hks) as (h0 & -> & Hh0).
  destruct (hmac_process_ok h0 _ _ _ (store32h seq) Hh0 (store32h_bytes seq)) as (h1 & -> & Hh1).
  destruct (repr_rewind _ _ _ _ Hb) as (b1 & E1 & Hb1). erewrite bind_ok by exact E1.
  rewrite Heq in Hb1. erewrite bind_ok by (by apply (repr_getptr_bytes b1 [] clear rest room)).
  destruct (hmac_process_ok h1 _ _ _ clear Hh1 Hclear) as (h2 & -> & Hh2).
  rewrite (hmac_done_ok h2 _ _ _ MAX_MAC_LEN Hh2) by done. cbn [app].
  set (tag := hmac _ _ _). destruct (hmac_ok (k_hash_index k) (ztake (k_mac_keysize k) (k_mackey k))
    (store32h seq ++ clear) Hvalid) as [Htz Htb]. fold tag in Htz, Htb.
  assert (Htz' : zlen (ztake MAX_MAC_LEN tag) <= MAX_MAC_LEN)
    by (unfold zlen, ztake; rewrite length_take; unfold MAX_MAC_LEN; lia).
  assert (Hmz' : k_mac_hashsize k <= zlen (ztake MAX_MAC_LEN tag))
    by (unfold zlen, ztake in *; rewrite length_take; lia).
  exists (splice 0 (ztake MAX_MAC_LEN tag) mac_bytes), b1, [], (clear ++ rest).
  split_and!; try done.
  - rewrite zlen_splice; [done|lia|]. rewrite Hmz. lia.
  - apply Forall_splice; [by apply Forall_ztake|done].
  - unfold splice. rewrite ztake_0. cbn [app]. rewrite ztake_app_le by done.
    unfold ztake. rewrite take_take. f_equal. lia.
Qed.

Lemma post_nil n : post_after n [] = [].
Proof. unfold post_after, zdrop. by rewrite drop_nil. Qed.

(** Header and payload are in place, the padding is not. *)
Lemma frame_header_ok b hdr payload pad room :
  buf_repr b (hdr ++ payload) [] room -> zlen hdr = 5 -> bytes pad -> zlen pad < 256 ->
  zlen pad <= room -> zlen payload <= 100000 ->
  let padlen := zlen pad in
  exists b', frame_header padlen pad b = Ok (tt, b') /\
  exists pre post, buf_repr b' pre post (room - padlen) /\ pre ++ post = clear_packet payload pad.
Proof.
  intros Hb Hh Hpad Hpl Hroom Hn padlen. pose proof (zlen_nonneg payload). pose proof (zlen_nonneg pad).
  repr_facts Hb. rewrite zlen_app, Hh in *. change (zlen (@nil Z)) with 0 in *.
  assert (Hlen0 : b_len b = 5 + zlen payload) by lia. unfold frame_header.
  erewrite bind_ok by reflexivity. rewrite Hlen0.
  destruct (repr_rewind _ _ _ _ Hb) as (b1 & E1 & Hb1). erewrite bind_ok by exact E1.
  rewrite app_nil_r in Hb1.
  assert (Hv : u32 (5 + zlen payload + padlen - 4) = 1 + zlen payload + padlen)
    by (rewrite u32_small by (unfold is_u32, padlen; lia); lia). rewrite Hv.
  destruct (repr_putint b1 [] (hdr ++ payload) room (1 + zlen payload + padlen) Hb1) as (b2 & E2 & Hb2);
    [rewrite zlen_app; lia|]. erewrite bind_ok by exact E2.
  assert (Hr2 : room_after 4 (hdr ++ payload) room = room) by (unfold room_after; rewrite zlen_app; lia).
  rewrite Hr2 in Hb2. unfold post_after in Hb2.
  assert (Hbyte : is_byte padlen) by (unfold is_byte, padlen; lia).
  assert (Hz4 : zlen (zdrop 4 (hdr ++ payload)) = 1 + zlen payload)
    by (rewrite zlen_zdrop; rewrite zlen_app; lia).
  destruct (repr_putbyte b2 _ _ _ padlen Hb2 Hbyte) as (b3 & E3 & Hb3); [lia|]. erewrite bind_ok by exact E3.
  assert (Hr3 : room_after 1 (zdrop 4 (hdr ++ payload)) room = room) by (unfold room_after; lia).
  assert (Hp3 : post_after 1 (zdrop 4 (hdr ++ payload)) = payload).
  { unfold post_after. rewrite zdrop_zdrop by lia. change (1 + 4) with 5. rewrite <-Hh. apply zdrop_app_zlen. }
  rewrite Hr3, Hp3 in Hb3. cbn [app] in Hb3.
  set (front := store32h (1 + zlen payload + padlen) ++ [padlen]) in *.
  assert (Hfz : zlen front = 5) by (unfold front; rewrite zlen_app, zlen_store32h; done).
  pose proof (br_len _ _ _ _ Hb3) as Hl3. rewrite Hfz in Hl3.
  erewrite bind_ok by reflexivity. rewrite Hl3.
  destruct (repr_setpos b3 front payload room (5 + zlen payload) Hb3) as (b4 & E4 & Hb4); [lia|].
  erewrite bind_ok by exact E4.
  assert (Hfp : zlen (front ++ payload) = 5 + zlen payload) by (rewrite zlen_app; lia).
  rewrite <-Hfp, ztake_all, zdrop_all in Hb4.
  destruct (repr_incrlen b4 _ _ _ padlen Hb4) as (b5 & ext & E5 & Hext & Hb5); [unfold padlen; lia|].
  erewrite bind_ok by exact E5. cbn [app] in Hb5.
  erewrite bind_ok by (apply (repr_getptr b5 (front ++ payload) ext [] (room - padlen)); [lia|by rewrite app_nil_r]).
  destruct (repr_overwrite b5 _ _ _ pad Hb5 Hpad) as (b6 & E6 & _ & Hb6); [unfold padlen in *; lia|].
  exists b6. split; [exact E6|]. exists (front ++ payload), pad. split.
  - replace (zlen pad) with (zlen ext) in Hb6 by (unfold padlen in *; lia).
    by rewrite zdrop_all, app_nil_r in Hb6.
  - unfold front, clear_packet, padlen. by rewrite <-!app_assoc.
Qed.

(** Encryption in place, then the tag and the packet type behind it. *)
Lemma frame_ok k seq ptype payload pad b hdr room ct st :
  wf_mac k -> buf_repr b (hdr ++ payload) [] room -> zlen hdr = 5 -> bytes pad -> zlen pad < 256 ->
  zlen pad + k_mac_hashsize k + 1 <= room -> zlen payload <= 100000 -> is_byte ptype ->
  cm_encrypt (clear_packet payload pad) (k_cipher_state k) = Some (ct, st) ->
  zlen ct = zlen (clear_packet payload pad) -> bytes ct ->
  exists b' room', frame_packet k seq ptype (zlen pad) pad b = Ok (st, b') /\
    buf_repr b' [] (ct ++ mac_of k seq (clear_packet payload pad) ++ [ptype]) room'.
Proof.
  intros Hk Hb Hh Hpad Hpl Hroom Hn Hpt Eenc Hct Hctb.
  assert (Hms : 0 <= k_mac_hashsize k) by (destruct Hk; lia).
  destruct (frame_header_ok b hdr payload pad room Hb Hh Hpad Hpl) as (b6 & E6 & pre & post & Hb6 & Heq); [lia|done|].
  assert (Hlen6 : b_len b6 = zlen (clear_packet payload pad)) by (rewrite <-Heq, zlen_app; apply Hb6).
  set (clear := clear_packet payload pad) in *.
  assert (Hcz : 0 <= zlen clear < 200000)
    by (unfold clear; rewrite zlen_clear; pose proof (zlen_nonneg payload); pose proof (zlen_nonneg pad); lia).
  unfold frame_packet. erewrite bind_ok by exact E6.
  erewrite bind_ok by reflexivity. rewrite Hlen6.
  destruct (make_mac_ok k seq b6 pre post clear [] _ (zlen clear) Hk Hb6) as (mac & b7 & pre' & post' & E7 & Hb7 & Heq' & Hmz & Hmb & Hmac);
    [by rewrite app_nil_r|done|]. erewrite bind_ok by exact E7.
  destruct (repr_rewind _ _ _ _ Hb7) as (b8 & E8 & Hb8). erewrite bind_ok by exact E8.
  rewrite Heq', Heq in Hb8. erewrite bind_ok by reflexivity.
  pose proof (br_len _ _ _ _ Hb8) as Hl8. change (zlen (@nil Z)) with 0 in Hl8. rewrite Z.add_0_l in Hl8. rewrite Hl8.
  assert (Hb8' : buf_repr b8 [] (clear ++ []) (room - zlen pad)) by (by rewrite app_nil_r).
  erewrite bind_ok by (by apply (repr_getptr_bytes b8 [] clear [] (room - zlen pad))).
  erewrite bind_ok by (apply (repr_getwriteptr b8 [] clear (room - zlen pad) _ Hb8); lia).
  rewrite Eenc.
  destruct (repr_overwrite b8 [] clear _ ct Hb8 Hctb) as (b9 & E9 & Hp9 & Hb9); [lia|].
  erewrite bind_ok by exact E9. rewrite Hct, zdrop_all in Hb9.
  rewrite s32_small by lia.
  destruct (repr_incrpos b9 [] ct [] (room - zlen pad) (zlen clear)) as (b10 & E10 & Hb10); [lia|done|].
  erewrite bind_ok by exact E10. cbn [app] in Hb10.
  destruct (repr_putprefix b10 ct [] (room - zlen pad) mac (k_mac_hashsize k)) as (b11 & E11 & Hb11);
    [destruct Hk; lia|done|done|change (zlen (@nil Z)) with 0; lia|].
  erewrite bind_ok by exact E11. rewrite Hmac in Hb11.
  assert (Hr11 : room_after (k_mac_hashsize k) [] (room - zlen pad) = room - zlen pad - k_mac_hashsize k)
    by (unfold room_after; change (zlen (@nil Z)) with 0; lia).
  rewrite Hr11, post_nil in Hb11.
  destruct (repr_putbyte b11 _ _ _ ptype Hb11 Hpt) as (b12 & E12 & Hb12);
    [change (zlen (@nil Z)) with 0; lia|]. erewrite bind_ok by exact E12.
  destruct (repr_rewind _ _ _ _ Hb12) as (b13 & E13 & Hb13). erewrite bind_ok by exact E13.
  exists b13. eexists. split; [done|].
  rewrite post_nil, app_nil_r, <-!app_assoc in Hb13. exact Hb13.
Qed.
End Frame.

(** ** The write queue *)

Section Send.
Context {Q St H Zs R : Type} (bs : Z) `{QueueLaws Q positive} `{CipherModeLaws St bs} `{HashLaws H}
        `{Zlib Zs} `{RandomLaws R}.
Abbreviation sess := (sess Q St Zs R).
Implicit Types (s : sess) (ls : list positive) (pend : list (list Z)).

(** The buffer [b] has the bytes [w] left to send; the packet type is behind
    them. *)
Definition unsent (b : buffer) (w : list Z) : Prop :=
  w <> [] /\ exists pre t room, buf_repr b pre (w ++ [t]) room.

(** The queue's pointers, and what is left to send of each packet. *)
Definition queue_ok s ls pend : Prop :=
  q_repr (s_writequeue s) ls /\ NoDup ls /\
  Forall2 (fun p w => exists b, s_bufs s !! p = Some b /\ unsent b w) ls pend.

(** A direction without compression. *)
Definition wf_key (k : key_ctx St Zs) : Prop :=
  k_blocksize k = bs /\ (bs = 8 \/ bs = 16) /\ wf_mac k /\ k_algo_comp k = DROPBEAR_COMP_NONE.

(** What padding guarantees. *)
Definition padded (payload pad : list Z) : Prop :=
  bytes pad /\ 4 <= zlen pad < 256 /\
  zlen (clear_packet payload pad) mod bs = 0 /\ MIN_PACKET_LEN <= zlen (clear_packet payload pad).

Lemma padding_ok len :
  bs = 8 \/ bs = 16 -> 6 <= len ->
  4 <= padding bs len <= bs + 3 /\ (len + padding bs len) mod bs = 0 /\ MIN_PACKET_LEN <= len + padding bs len.
Proof.
  intros Hbs Hlen. unfold padding, MIN_PACKET_LEN. pose proof (Z.mod_pos_bound len bs ltac:(lia)) as Hm.
  assert (Hu : forall x, 0 <= x < 256 -> u8 x = x) by (intros; by apply u8_small).
  rewrite (Hu (bs - len mod bs)) by lia.
  destruct (Z.ltb_spec (bs - len mod bs) 4).
  - rewrite (Hu (bs - len mod bs + bs)) by lia.
    assert (Hd : (len + (bs - len mod bs + bs)) mod bs = 0).
    { replace (len + (bs - len mod bs + bs)) with (len - len mod bs + 2 * bs) by lia.
      rewrite Z.mod_add by lia. rewrite Zminus_mod_idemp_r, Z.sub_diag. by apply Z.mod_0_l; lia. }
    destruct (Z.ltb_spec (len + (bs - len mod bs + bs)) 16) as [Hlt|Hge]; [|split_and!; done || lia].
    destruct Hbs; subst bs; Z.div_mod_to_equations; lia.
  - assert (Hd : (len + (bs - len mod bs)) mod bs = 0).
    { replace (len + (bs - len mod bs)) with (len - len mod bs + 1 * bs) by lia.
      rewrite Z.mod_add by lia. rewrite Zminus_mod_idemp_r, Z.sub_diag. by apply Z.mod_0_l; lia. }
    destruct (Z.ltb_spec (len + (bs - len mod bs)) 16) as [Hlt|Hge]; [|split_and!; done || lia].
    destruct Hbs; subst bs; Z.div_mod_to_equations; lia.
Qed.

(** Copying the payload behind the header space. *)
Lemma put_payload_ok fresh s writebuf hdr payload room room' :
  wf_key (s_trans s) -> buf_repr (s_writepayload s) [] payload room ->
  buf_repr writebuf hdr [] room' -> zlen payload <= room' ->
  exists writebuf' , put_payload fresh writebuf s = Ok (writebuf', s) /\
    buf_repr writebuf' (hdr ++ payload) [] (room' - zlen payload).
Proof.
  intros (_ & _ & _ & Hc) Hp Hw Hr. pose proof (zlen_nonneg payload). unfold put_payload.
  assert (Hnc : is_compress_trans s = false) by (unfold is_compress_trans; rewrite Hc; by destruct (s_authdone s)).
  erewrite bind_ok by reflexivity. rewrite Hnc. unfold on_writepayload.
  assert (Eself : set_s_writepayload (s_writepayload s) s = s) by (by destruct s).
  pose proof (br_len _ _ _ _ Hp) as Hl. change (zlen (@nil Z)) with 0 in Hl. rewrite Z.add_0_l in Hl.
  erewrite bind_ok by (by apply zoom_ok). rewrite Eself, Hl.
  assert (Hp' : buf_repr (s_writepayload s) [] (payload ++ []) room) by (by rewrite app_nil_r).
  erewrite bind_ok by (apply zoom_ok; by apply (repr_getptr_bytes _ [] payload [] room)). rewrite Eself.
  destruct (buf_repr_bytes _ _ _ _ Hp) as [_ Hpb].
  destruct (repr_write writebuf hdr [] room' payload Hw Hpb) as (b1 & b2 & E1 & E2 & Hb2); [done|].
  assert (Eon : on writebuf (p <- buf_getwriteptr (zlen payload) ;; store_bytes p payload ;;; buf_incrwritepos (zlen payload)) s
    = Ok ((tt, b2), s)).
  { unfold on. erewrite bind_ok by (apply (repr_getwriteptr writebuf hdr [] room' _ Hw); change (zlen (@nil Z)) with 0; lia).
    erewrite bind_ok by exact E1. by rewrite E2. }
  erewrite bind_ok by exact Eon. exists b2. split; [done|].
  assert (Hra : room_after (zlen payload) [] room' = room' - zlen payload)
    by (unfold room_after; change (zlen (@nil Z)) with 0; lia).
  rewrite Hra, post_nil in Hb2. exact Hb2.
Qed.

Lemma unsent_insert (bufs : gmap positive buffer) p b ls pend :
  p ∉ ls -> Forall2 (fun p w => exists b, bufs !! p = Some b /\ unsent b w) ls pend ->
  Forall2 (fun p' w => exists b', <[p := b]> bufs !! p' = Some b' /\ unsent b' w) ls pend.
Proof.
  intros Hp Hf. induction Hf as [|p' w ls pend (b' & Hb' & Hu) _ IH]; [constructor|].
  apply not_elem_of_cons in Hp as [Hne Hp]. constructor; [|by apply IH].
  exists b'. split; [by rewrite lookup_insert_ne|done].
Qed.

Lemma fresh_ptr_unused (bufs : gmap positive buffer) ls pend :
  Forall2 (fun p w => exists b, bufs !! p = Some b /\ unsent b w) ls pend -> fresh_ptr bufs ∉ ls.
Proof.
  intros Hf Hin. apply list_elem_of_lookup in Hin as [i Hi].
  destruct (Forall2_lookup_l _ _ _ _ _ Hf Hi) as (w & _ & b & Hb & _).
  apply (is_fresh (dom bufs)), elem_of_dom. unfold fresh_ptr in Hb. by exists b.
Qed.

Lemma new_writebuf_ok s payload room :
  wf_key (s_trans s) -> buf_repr (s_writepayload s) [] payload room -> zlen payload <= 50000 ->
  exists b hdr room', new_writebuf s = Ok (b, s) /\ buf_repr b hdr [] room' /\ zlen hdr = 5 /\
    zlen payload + bs + 3 + k_mac_hashsize (s_trans s) + 1 <= room'.
Proof.
  intros (Hbs & Hbs2 & Hmac & _) Hp Hlen. assert (Hmacr : 0 <= k_mac_hashsize (s_trans s) <= 20) by apply Hmac.
  pose proof (br_len _ _ _ _ Hp) as Hl. change (zlen (@nil Z)) with 0 in Hl. rewrite Z.add_0_l in Hl.
  pose proof (zlen_nonneg payload). unfold new_writebuf, on_writepayload.
  rewrite (bind_ok _ _ _ (s_trans s) s) by reflexivity.
  rewrite (bind_ok _ _ _ (zlen payload) s) by (unfold zoom, gets; rewrite Hl; by destruct s).
  rewrite Hbs. unfold MIN_PACKET_LEN, ZLIB_COMPRESS_INCR, PACKET_PAYLOAD_OFF.
  set (n := zlen payload + 4 + 1 + Z.max 16 bs + 3 + k_mac_hashsize (s_trans s) + 100 + 1).
  assert (Hn : 100 <= n <= 60000) by (unfold n; lia).
  rewrite u32_small by (unfold is_u32; fold n; lia).
  destruct (repr_buf_new n s) as (b0 & E0 & Hb0); [unfold BUF_MAX_SIZE; lia|].
  rewrite (bind_ok _ _ _ _ _ E0). pose proof (br_size _ _ _ _ Hb0) as Hs0. change (zlen (@nil Z)) with 0 in Hs0.
  destruct (repr_setlen b0 [] [] n 5 Hb0) as (b1 & ext & E1 & Hb1 & Hext); [change (zlen (@nil Z)) with 0; lia|].
  cbn [app] in Hb1. change (zlen (@nil Z)) with 0 in Hb1. rewrite Z.sub_0_r in Hb1.
  assert (Hh : zlen (ztake 5 ext) = 5) by (apply zlen_ztake; lia).
  destruct (repr_setpos b1 [] (ztake 5 ext) _ 5 Hb1) as (b2 & E2 & Hb2); [change (zlen (@nil Z)) with 0; lia|].
  cbn [app] in Hb2. replace 5 with (zlen (ztake 5 ext)) in Hb2 at 1 3. rewrite ztake_all, zdrop_all in Hb2.
  assert (Eon : on b0 (buf_setlen 5 ;;; buf_setpos 5) s = Ok ((tt, b2), s)).
  { unfold on. erewrite bind_ok by exact E1. by rewrite E2. }
  rewrite (bind_ok _ _ _ _ _ Eon). exists b2, (ztake 5 ext), (b_size b0 - 5).
  split_and!; try done. unfold n in *. lia.
Qed.

Lemma enqueue_packet_ok s ls pend b w :
  queue_ok s ls pend -> zlen ls + 1 < 2 ^ 32 -> unsent b w ->
  exists s' q p, enqueue_packet b s = Ok (tt, s') /\ queue_ok s' (ls ++ [p]) (pend ++ [w]) /\
    s' = set_s_transseq (u32 (s_transseq s + 1)) (set_s_datatrans (u32 (s_datatrans s + b_len b))
           (set_s_writequeue q (set_s_bufs (<[p := b]> (s_bufs s)) s))).
Proof.
  intros (Hq & Hnd & Hf) Hl Hu. pose proof (fresh_ptr_unused _ _ _ Hf) as Hp.
  set (p := fresh_ptr (s_bufs s)) in *.
  destruct (q_enqueue_spec _ p _ Hq Hl) as (q & Eq & Hq'). unfold enqueue_packet, on_queue.
  rewrite (bind_ok _ _ _ (s_bufs s) s) by reflexivity. fold p.
  rewrite (bind_ok _ _ _ tt (set_s_bufs (<[p := b]> (s_bufs s)) s)) by reflexivity.
  rewrite (bind_ok _ _ _ tt (set_s_writequeue q (set_s_bufs (<[p := b]> (s_bufs s)) s)))
    by exact (zoom_ok _ _ _ (set_s_bufs (<[p := b]> (s_bufs s)) s) _ _ Eq).
  eexists _, q, p. split; [reflexivity|]. split; [|reflexivity]. split_and!.
  - exact Hq'.
  - apply NoDup_app. split_and!; [done| |by apply NoDup_singleton].
    intros x Hx ->%list_elem_of_singleton. done.
  - cbn. apply Forall2_app; [by apply unsent_insert|]. constructor; [|done].
    exists b. by rewrite lookup_insert_eq.
Qed.

(** What sending [payload] from [s] leads to: its ciphertext and tag are the
    new last entry of the queue. *)
Definition sent_packet s s' ls pend payload : Prop :=
  exists pad ct st p room, padded payload pad /\
    cm_encrypt (clear_packet payload pad) (k_cipher_state (s_trans s)) = Some (ct, st) /\
    s_trans s' = set_cipher_state st (s_trans s) /\
    queue_ok s' (ls ++ [p]) (pend ++ [ct ++ mac_of (s_trans s) (s_transseq s) (clear_packet payload pad)]) /\
    s_transseq s' = u32 (s_transseq s + 1) /\ buf_repr (s_writepayload s') [] [] room /\
    room = b_size (s_writepayload s) /\ s_reply_queue s' = s_reply_queue s /\
    s_sent s' = s_sent s /\ s_sock_out s' = s_sock_out s /\ s_dataallowed s' = s_dataallowed s.

Lemma clear_writepayload s payload room :
  buf_repr (s_writepayload s) [] payload room ->
  exists w room', (on_writepayload (buf_setpos 0) ;;; on_writepayload (buf_setlen 0)) s
    = Ok (tt, set_s_writepayload w s) /\ buf_repr w [] [] room' /\ room' = b_size (s_writepayload s).
Proof.
  intros Hp. destruct (repr_rewind _ _ _ _ Hp) as (w1 & E1 & Hw1).
  pose proof (br_size _ _ _ _ Hw1) as Hs. pose proof (br_room _ _ _ _ Hw1).
  destruct (repr_setlen w1 [] ([] ++ payload) room 0 Hw1) as (w2 & ext & E2 & Hw2 & _).
  { change (zlen (@nil Z)) with 0 in *. pose proof (zlen_nonneg ([] ++ payload)). lia. }
  change (zlen (@nil Z)) with 0 in Hw2. rewrite Z.sub_0_r, ztake_0 in Hw2.
  exists w2. eexists. split_and!; [|exact Hw2|];
    [|rewrite Hs; pose proof (br_size _ _ _ _ Hp) as Hs0; change (zlen (@nil Z)) with 0 in *;
      cbn [app]; lia]. unfold on_writepayload.
  rewrite (bind_ok _ _ s tt (set_s_writepayload w1 s)) by exact (zoom_ok _ _ _ s _ _ E1).
  exact (zoom_ok _ _ _ (set_s_writepayload w1 s) _ _ E2).
Qed.

Lemma send_packet_ok fresh s rcv ls pend payload ptype room :
  queue_ok s ls pend -> zlen ls + 1 < 2 ^ 32 ->
  buf_repr (s_writepayload s) [] payload room -> 1 <= zlen payload <= 50000 -> is_byte ptype ->
  wf_key (s_trans s) -> cm_sync (k_cipher_state (s_trans s)) rcv ->
  exists s', send_packet fresh ptype s = Ok (tt, s') /\ sent_packet s s' ls pend payload.
Proof.
  intros Hq Hls Hp Hlen Hpt Hkey Hsync. pose proof Hkey as (Hbs & Hbs2 & Hmac & Hcomp).
  destruct (new_writebuf_ok s payload room Hkey Hp) as (b & hdr & r0 & E0 & Hb0 & Hhdr & Hr0); [lia|].
  assert (Hms : 0 <= k_mac_hashsize (s_trans s)) by apply Hmac.
  destruct (put_payload_ok fresh s b hdr payload room r0 Hkey Hp Hb0) as (b1 & E1 & Hb1); [lia|].
  destruct (clear_writepayload s payload room Hp) as (w & r1 & E2 & Hw & Hr1).
  pose proof (br_len _ _ _ _ Hb1) as Hl1. rewrite zlen_app, Hhdr in Hl1. change (zlen (@nil Z)) with 0 in Hl1.
  destruct (padding_ok (b_len b1) Hbs2) as (Hpad & Hmod & Hmin); [lia|].
  set (padlen := padding bs (b_len b1)) in *.
  pose proof (genrandom_ok padlen (s_random s) ltac:(lia)) as [Hgz Hgb].
  destruct (genrandom padlen (s_random s)) as [pad rnd] eqn:Eg. cbn [fst] in Hgz, Hgb.
  assert (Hcz : zlen (clear_packet payload pad) = b_len b1 + padlen) by (rewrite zlen_clear; lia).
  destruct (buf_repr_bytes _ _ _ _ Hp) as [_ Hpb].
  destruct (cm_stream bs ltac:(lia) (clear_packet payload pad) _ _ Hsync) as (ct & st & rcv' & Ec & _ & _ & Hct & Hctb);
    [by rewrite Hcz|apply clear_bytes; done || lia|].
  destruct (frame_ok (s_trans s) (s_transseq s) ptype payload pad b1 hdr (r0 - zlen payload) ct st Hmac Hb1)
    as (b2 & r2 & E3 & Hb2); try done; try lia.
  set (s2 := set_s_trans (set_cipher_state st (s_trans s)) (set_s_random rnd (set_s_writepayload w s))).
  destruct (enqueue_packet_ok s2 ls pend b2
    (ct ++ mac_of (s_trans s) (s_transseq s) (clear_packet payload pad))) as (s3 & q & p & E4 & Hq3 & ->);
    [exact Hq|done| |].
  { split; [|by exists [], ptype, r2; rewrite <-app_assoc]. intros E. apply app_nil in E as [-> _].
    change (zlen (@nil Z)) with 0 in Hct. unfold MIN_PACKET_LEN in *. lia. }
  exists (set_s_transseq (u32 (s_transseq s2 + 1)) (set_s_datatrans (u32 (s_datatrans s2 + b_len b2))
           (set_s_writequeue q (set_s_bufs (<[p := b2]> (s_bufs s2)) s2)))).
  assert (Hpadded : padded payload pad) by (unfold padded; rewrite Hcz, Hgz; split_and!; done || lia).
  split; [|exists pad, ct, st, p, r1; split_and!; done].
  unfold send_packet. rewrite (bind_ok _ _ _ _ _ E0), (bind_ok _ _ _ _ _ E1).
  unfold bind at 1. unfold bind in E2. destruct (on_writepayload (buf_setpos 0) s) as [[[] s1]| |]; [|done|done].
  rewrite (bind_ok _ _ _ _ _ E2). rewrite (bind_ok _ _ _ (s_trans s) (set_s_writepayload w s)) by reflexivity.
  rewrite Hbs. fold padlen. rewrite (bind_ok _ _ _ (s_random s) (set_s_writepayload w s)) by reflexivity.
  rewrite Eg. rewrite (bind_ok _ _ _ tt (set_s_random rnd (set_s_writepayload w s))) by reflexivity.
  rewrite (bind_ok _ _ _ (s_transseq s) (set_s_random rnd (set_s_writepayload w s))) by reflexivity.
  rewrite (bind_ok _ _ _ (st, b2) (set_s_random rnd (set_s_writepayload w s)))
    by (unfold on; rewrite <-Hgz; by rewrite E3).
  rewrite (bind_ok _ _ _ tt s2) by reflexivity. exact E4.
Qed.

(** encrypt_packet outside a key exchange, or of a packet allowed in one. *)
Lemma encrypt_packet_ok fresh s rcv ls pend payload ptype rest pre post room :
  queue_ok s ls pend -> zlen ls + 1 < 2 ^ 32 ->
  buf_repr (s_writepayload s) pre post room -> pre ++ post = payload ->
  payload = ptype :: rest -> zlen payload <= 50000 ->
  s_dataallowed s = true \/ packet_is_okay_kex ptype = true ->
  wf_key (s_trans s) -> cm_sync (k_cipher_state (s_trans s)) rcv ->
  exists s', encrypt_packet fresh s = Ok (tt, s') /\ sent_packet s s' ls pend payload.
Proof.
  intros Hq Hls Hwp Heq Epay Hlen Hok Hkey Hsync.
  destruct (repr_rewind _ _ _ _ Hwp) as (w1 & E1 & Hw1). rewrite Heq in Hw1.
  rewrite Epay in Hw1. destruct (repr_getbyte w1 [] ptype rest room Hw1) as (w2 & E2 & Hw2).
  destruct (repr_rewind _ _ _ _ Hw2) as (w3 & E3 & Hw3). cbn [app] in Hw3. rewrite <-Epay in Hw3.
  destruct (buf_repr_bytes _ _ _ _ Hw3) as [_ Hpb].
  assert (Hpt : is_byte ptype) by (rewrite Epay in Hpb; by apply Forall_cons_1 in Hpb as [? _]).
  assert (Hn : 1 <= zlen payload) by (rewrite Epay, zlen_cons; pose proof (zlen_nonneg rest); lia).
  set (s3 := set_s_writepayload w3 s).
  destruct (send_packet_ok fresh s3 rcv ls pend payload ptype room) as (s' & E & Hsent); try done.
  assert (Hsz : b_size w3 = b_size (s_writepayload s)).
  { rewrite (br_size _ _ _ _ Hw3), (br_size _ _ _ _ Hwp). change (zlen (@nil Z)) with 0.
    rewrite <-Heq, zlen_app. lia. }
  exists s'. split; [|destruct Hsent as (? & ? & ? & ? & ? & Hsent); eexists _, _, _, _, _; by rewrite <-Hsz]. unfold encrypt_packet, on_writepayload.
  rewrite (bind_ok _ _ s tt (set_s_writepayload w1 s)) by exact (zoom_ok _ _ _ s _ _ E1).
  rewrite (bind_ok _ _ _ ptype (set_s_writepayload w2 s)) by exact (zoom_ok _ _ _ (set_s_writepayload w1 s) _ _ E2).
  rewrite (bind_ok _ _ _ tt s3) by exact (zoom_ok _ _ _ (set_s_writepayload w2 s) _ _ E3).
  rewrite (bind_ok _ _ _ (s_dataallowed s) s3) by reflexivity.
  assert (Hgate : negb (s_dataallowed s) && negb (packet_is_okay_kex ptype) = false)
    by (destruct Hok as [-> | ->]; [done|by destruct (s_dataallowed s)]).
  by rewrite Hgate.
Qed.

(** ** write_packet *)

Lemma set_bufs_id s p b : s_bufs s !! p = Some b -> set_s_bufs (<[p := b]> (s_bufs s)) s = s.
Proof. intros Hb. rewrite insert_id by done. by destruct s. Qed.

(** The length computation of write_packet, and the packet type byte. *)
Lemma unsent_facts b w :
  unsent b w -> s32 (b_len b - 1 - b_pos b) = zlen w /\ 0 < zlen w /\
  (exists t, zget (b_data b) (b_len b - 1) = Some t) /\ getptr_bytes (zlen w) b = Ok (w, b).
Proof.
  intros [Hw (pre & t & room & Hb)]. repr_facts Hb. rewrite zlen_app in *. change (zlen [t]) with 1 in *.
  pose proof (zlen_nonneg pre). pose proof (zlen_nonneg w).
  assert (0 < zlen w) by (destruct w; [done|rewrite zlen_cons; pose proof (zlen_nonneg w); lia]).
  split_and!; [rewrite s32_small; lia|done| |].
  - destruct (br_data _ _ _ _ Hb) as (rest & Hd & _). exists t.
    rewrite Hd, <-!app_assoc, app_assoc. cbn [app].
    replace (b_len b - 1) with (zlen (pre ++ w)) by (rewrite zlen_app; lia). apply zget_mid.
  - by apply (repr_getptr_bytes b pre w [t] room).
Qed.

Lemma build_iov_ok s ls pend :
  Forall2 (fun p w => exists b, s_bufs s !! p = Some b /\ unsent b w) ls pend ->
  exists all_ignore, build_iov ls s = Ok ((concat pend, all_ignore), s).
Proof.
  intros Hf. induction Hf as [|p w ls pend (b & Hb & Hu) _ [ai IH]]; [by exists true|].
  destruct (unsent_facts b w Hu) as (Hlen & Hpos & (t & Ht) & Hbytes).
  exists ((t =? SSH_MSG_IGNORE) && ai). cbn [build_iov concat].
  rewrite (bind_ok _ _ _ (t, w) s); [by rewrite (bind_ok _ _ _ _ _ IH)|].
  unfold on_ptr. rewrite Hb. rewrite (bind_ok _ _ _ b b) by reflexivity.
  rewrite Ht, Hlen, Z.gtb_ltb, (proj2 (Z.ltb_lt 0 _) Hpos).
  rewrite (bind_ok _ _ _ tt b), (bind_ok _ _ _ _ _ Hbytes) by reflexivity.
  unfold ret. by rewrite set_bufs_id.
Qed.

(** Taking [written] bytes off the queue changes only queue and buffers. *)
Lemma drain_ok n written s ls pend :
  queue_ok s ls pend -> (length ls <= n)%nat -> 0 <= written <= zlen (concat pend) ->
  exists q bufs ls' pend', drain n written s = Ok (tt, set_s_writequeue q (set_s_bufs bufs s)) /\
    queue_ok (set_s_writequeue q (set_s_bufs bufs s)) ls' pend' /\
    concat pend' = zdrop written (concat pend) /\ (length ls' <= length ls)%nat.
Proof.
  revert written s ls pend. induction n as [|n IH]; intros written s ls pend Hq Hn Hw;
    (destruct (Z.ltb_spec 0 written) as [Hpos|Hz];
     [|exists (s_writequeue s), (s_bufs s), ls, pend;
       assert (Es : set_s_writequeue (s_writequeue s) (set_s_bufs (s_bufs s) s) = s) by (by destruct s);
       rewrite Es; replace written with 0 by lia; by rewrite zdrop_0]).
  - destruct Hq as (_ & _ & Hf). destruct ls; [|simpl in Hn; lia]. inversion Hf; subst.
    change (zlen (concat [])) with 0 in Hw. lia.
  - destruct Hq as (Hq & Hnd & Hf). destruct Hf as [|p w ls pend (b & Hb & Hu) Hf].
    { change (zlen (concat [])) with 0 in Hw. lia. }
    destruct (unsent_facts b w Hu) as (Hlen & Hwpos & _ & _). apply NoDup_cons in Hnd as [Hp Hnd].
    cbn [drain]. rewrite Z.gtb_ltb, (proj2 (Z.ltb_lt 0 written) Hpos). unfold on_queue.
    assert (Eself : set_s_writequeue (s_writequeue s) s = s) by (by destruct s).
    rewrite (bind_ok _ _ _ p s)
      by (rewrite (zoom_ok _ _ _ s _ _ (q_examine_cons _ _ _ Hq)); by rewrite Eself).
    rewrite (bind_ok _ _ _ (zlen w) s)
      by (unfold on_ptr; rewrite Hb; rewrite (bind_ok _ _ _ b b) by reflexivity; unfold ret; by rewrite Hlen, set_bufs_id).
    cbn [concat] in *. rewrite zlen_app in Hw. rewrite Z.gtb_ltb.
    destruct (Z.ltb_spec written (zlen w)) as [Hlt|Hge].
    + destruct Hu as [Hne (pre & t & room & Hbr)].
      rewrite <-(ztake_zdrop written w), <-app_assoc in Hbr.
      destruct (repr_incrpos b pre (ztake written w) (zdrop written w ++ [t]) room written) as (b' & E & Hb');
        [rewrite zlen_ztake; lia|done|].
      exists (s_writequeue s), (<[p := b']> (s_bufs s)), (p :: ls), (zdrop written w :: pend).
      split_and!.
      * unfold on_ptr. by rewrite Hb, E.
      * split; [exact Hq|]. split; [by apply NoDup_cons|].
        constructor; [|by apply unsent_insert]. exists b'. cbn. rewrite lookup_insert_eq. split; [done|].
        split; [|by eexists _, _, _]. intros Enil. apply (f_equal zlen) in Enil.
        rewrite zlen_zdrop in Enil by lia. change (zlen (@nil Z)) with 0 in Enil. lia.
      * cbn [concat]. by rewrite zdrop_app_le by lia.
      * done.
    + destruct (q_dequeue_cons _ _ _ Hq) as (q1 & E1 & Hq1).
      rewrite (bind_ok _ _ _ p (set_s_writequeue q1 s)) by exact (zoom_ok _ _ _ s _ _ E1).
      set (s2 := set_s_bufs (delete p (s_bufs s)) (set_s_writequeue q1 s)).
      rewrite (bind_ok _ _ _ tt s2) by reflexivity.
      destruct (IH (written - zlen w) s2 ls pend) as (q & bufs & ls' & pend' & E & Hq' & Hc & Hll).
      { split_and!; [done|done|]. clear -Hf Hp. induction Hf as [|p' w' ls pend (b' & Hb' & Hu') _ IH]; [constructor|].
        apply not_elem_of_cons in Hp as [Hne Hp]. constructor; [|by apply IH].
        exists b'. split; [|done]. cbn. by rewrite lookup_delete_ne. }
      { simpl in Hn. lia. }
      { lia. }
      exists q, bufs, ls', pend'. split; [exact E|]. split; [exact Hq'|]. rewrite Hc.
      split; [by rewrite zdrop_app_ge by lia|simpl; lia].
Qed.

Lemma write_packet_ok s ls pend n rest :
  queue_ok s ls pend -> ls <> [] -> s_sock_out s = WBytes n :: rest -> 0 < n ->
  exists s' ls' pend', write_packet s = Ok (tt, s') /\ queue_ok s' ls' pend' /\
    s_sent s' ++ concat pend' = s_sent s ++ concat pend /\
    concat pend' = zdrop (Z.min n (zlen (concat pend))) (concat pend) /\
    s_trans s' = s_trans s /\ s_transseq s' = s_transseq s /\ s_sock_out s' = rest /\
    s_writepayload s' = s_writepayload s /\ s_dataallowed s' = s_dataallowed s /\
    (length ls' <= length ls)%nat.
Proof.
  intros Hq Hne Hev Hn. destruct (build_iov_ok s ls pend (proj2 (proj2 Hq))) as [ai Eiov].
  set (k := Z.min n (zlen (concat pend))). pose proof (zlen_nonneg (concat pend)).
  set (s1 := set_s_sent (s_sent s ++ ztake k (concat pend)) (set_s_sock_out rest s)).
  destruct (drain_ok (length ls) k s1 ls pend Hq) as (q & bufs & ls' & pend' & E & Hq' & Hc & Hll); [done|lia|].
  assert (Hk : 0 < k).
  { destruct Hq as (_ & _ & Hf). destruct Hf as [|p w ls0 pend0 (b & _ & Hu) _]; [done|].
    destruct (unsent_facts b w Hu) as (_ & Hw & _). subst k. cbn [concat]. rewrite zlen_app.
    pose proof (zlen_nonneg (concat pend0)). lia. }
  set (s2 := set_s_writequeue q (set_s_bufs bufs s1)) in *.
  set (s3 := set_s_last_trx_packet_time (s_now s2) s2).
  exists (if negb ai then set_s_last_packet_time (s_now s2) s3 else s3), ls', pend'.
  assert (Ew : write_packet s = Ok (tt, if negb ai then set_s_last_packet_time (s_now s2) s3 else s3)).
  { unfold write_packet. rewrite (bind_ok _ _ _ (s_writequeue s) s) by reflexivity.
    rewrite (q_isempty_spec _ _ (proj1 Hq)), bool_decide_eq_false_2 by done.
    rewrite (bind_ok _ _ _ tt s) by reflexivity. unfold on_queue.
    rewrite (bind_ok _ _ _ ls s) by (rewrite (zoom_ok _ _ _ s _ _ (q_walk_spec _ _ (proj1 Hq))); by destruct s).
    rewrite (bind_ok _ _ _ _ _ Eiov).
    rewrite (bind_ok _ _ _ (WBytes k) s1)
      by (unfold writev; rewrite Hev; replace (Z.max 0 n) with n by lia; done).
    rewrite (proj2 (Z.eqb_neq k 0)) by lia. rewrite (bind_ok _ _ _ tt s1) by reflexivity.
    rewrite (bind_ok _ _ _ _ _ E). by destruct ai. }
  split; [exact Ew|]. split_and!; try (by destruct ai).
  - rewrite Hc. destruct ai; cbn; rewrite <-app_assoc, ztake_zdrop; done.
Qed.

(** ** Replies during a key exchange *)

(** A payload that is not allowed now is copied to the reply queue. *)
Lemma encrypt_packet_gated fresh s payload ptype rest pre post room :
  buf_repr (s_writepayload s) pre post room -> pre ++ post = payload -> payload = ptype :: rest ->
  s_dataallowed s = false -> packet_is_okay_kex ptype = false ->
  exists w b room', encrypt_packet fresh s
      = Ok (tt, set_s_reply_queue (s_reply_queue s ++ [b]) (set_s_writepayload w s)) /\
    buf_repr b [] payload 0 /\ buf_repr w [] [] room' /\ room' = b_size (s_writepayload s).
Proof.
  intros Hwp Heq Epay Hda Hkex.
  destruct (repr_rewind _ _ _ _ Hwp) as (w1 & E1 & Hw1). rewrite Heq, Epay in Hw1.
  destruct (repr_getbyte w1 [] ptype rest room Hw1) as (w2 & E2 & Hw2).
  destruct (repr_rewind _ _ _ _ Hw2) as (w3 & E3 & Hw3). cbn [app] in Hw3. rewrite <-Epay in Hw3.
  set (s3 := set_s_writepayload w3 s).
  destruct (repr_newcopy w3 [] payload room s3 Hw3) as (b & E4 & Hb).
  destruct (clear_writepayload s3 payload room Hw3) as (w & room' & E5 & Hw & Hroom).
  exists w, b, room'. split_and!; [|exact Hb|exact Hw|].
  - unfold encrypt_packet. unfold on_writepayload at 1 2 3.
    rewrite (bind_ok _ _ s tt (set_s_writepayload w1 s)) by exact (zoom_ok _ _ _ s _ _ E1).
    rewrite (bind_ok _ _ _ ptype (set_s_writepayload w2 s)) by exact (zoom_ok _ _ _ (set_s_writepayload w1 s) _ _ E2).
    rewrite (bind_ok _ _ _ tt s3) by exact (zoom_ok _ _ _ (set_s_writepayload w2 s) _ _ E3).
    rewrite (bind_ok _ _ _ (s_dataallowed s) s3) by reflexivity. rewrite Hda, Hkex. cbn [negb andb].
    unfold enqueue_reply_packet. rewrite (bind_ok _ _ _ w3 s3), (bind_ok _ _ _ _ _ E4) by reflexivity.
    unfold bind in E5. unfold bind at 1.
    destruct (on_writepayload (buf_setpos 0) s3) as [[[] s4]| |]; [|done|done].
    by rewrite (bind_ok _ _ _ _ _ E5).
  - rewrite Hroom. cbn. rewrite (br_size _ _ _ _ Hw3), (br_size _ _ _ _ Hwp). change (zlen (@nil Z)) with 0.
    rewrite <-Heq, zlen_app. lia.
Qed.

(** The packets on the wire for the payloads [ps], from the keys [k] and the
    sequence number [seq] on. *)
Inductive wire_packets : key_ctx St Zs -> Z -> list (list Z) -> list (list Z) -> Prop :=
| wp_nil k seq : wire_packets k seq [] []
| wp_cons k seq payload pad ct st ps ws :
    padded payload pad ->
    cm_encrypt (clear_packet payload pad) (k_cipher_state k) = Some (ct, st) ->
    wire_packets (set_cipher_state st k) (u32 (seq + 1)) ps ws ->
    wire_packets k seq (payload :: ps) ((ct ++ mac_of k seq (clear_packet payload pad)) :: ws).

(** Callers that build each payload in [ses.writepayload] and send it. *)
Fixpoint send_payloads (fresh : Z -> Z) (ps : list (list Z)) : prog sess unit :=
  match ps with
  | [] => ret tt
  | p :: ps =>
      on_writepayload (buf_putbytes p (zlen p)) ;;;
      encrypt_packet fresh ;;;
      send_payloads fresh ps
  end.

(** A payload that fits the write buffer and waits for the key exchange. *)
Definition waits (size : Z) (p : list Z) : Prop :=
  bytes p /\ zlen p <= size /\ exists ptype rest, p = ptype :: rest /\ packet_is_okay_kex ptype = false.

Lemma put_writepayload s room p n data :
  buf_repr (s_writepayload s) [] [] room -> bytes p -> zlen p <= room -> n = zlen p ->
  (exists rest, data = p ++ rest) ->
  exists w, on_writepayload (buf_putbytes data n) s = Ok (tt, set_s_writepayload w s) /\
    buf_repr w p [] (room - zlen p).
Proof.
  intros Hw Hp Hl -> [rest ->]. pose proof (zlen_nonneg p).
  destruct (repr_putbytes (s_writepayload s) [] [] room p (zlen p)) as (w & E & Hr);
    [done|done|done|change (zlen (@nil Z)) with 0; lia|].
  exists w. split.
  - unfold on_writepayload. apply zoom_ok. unfold buf_putbytes in *. rewrite <-E. unfold bind.
    destruct (buf_getwriteptr (zlen p) (s_writepayload s)) as [[q b1]| |]; try done.
    unfold src_bytes. rewrite zlen_app. pose proof (zlen_nonneg rest).
    rewrite !(proj2 (Z.leb_le _ _)) by lia. cbn. by rewrite ztake_app_zlen, ztake_all.
  - rewrite post_nil in Hr. unfold room_after in Hr. change (zlen (@nil Z)) with 0 in Hr.
    by replace (room - Z.max 0 (zlen p - 0)) with (room - zlen p) in Hr by lia.
Qed.

Lemma send_payloads_gated fresh s ps room :
  buf_repr (s_writepayload s) [] [] room -> s_dataallowed s = false -> Forall (waits room) ps ->
  exists w bs', send_payloads fresh ps s
      = Ok (tt, set_s_reply_queue (s_reply_queue s ++ bs') (set_s_writepayload w s)) /\
    buf_repr w [] [] room /\ Forall2 (fun b p => buf_repr b [] p 0) bs' ps.
Proof.
  revert s. induction ps as [|p ps IH]; intros s Hw Hda Hps.
  { exists (s_writepayload s), []. rewrite app_nil_r. by destruct s. }
  apply Forall_cons_1 in Hps as [(Hb & Hl & pt & rest & Ep & Hk) Hps].
  destruct (put_writepayload s room p (zlen p) p Hw Hb Hl eq_refl) as (w1 & E1 & Hw1);
    [exists []; by rewrite app_nil_r|]. set (s1 := set_s_writepayload w1 s) in *.
  destruct (encrypt_packet_gated fresh s1 p pt rest p [] _ Hw1 (app_nil_r p) Ep Hda Hk)
    as (w2 & b & room2 & E2 & Hbr & Hw2 & Hroom).
  set (s2 := set_s_reply_queue (s_reply_queue s1 ++ [b]) (set_s_writepayload w2 s1)) in *.
  assert (Hr2 : room2 = room).
  { rewrite Hroom. cbn. rewrite (br_size _ _ _ _ Hw1). change (zlen (@nil Z)) with 0. lia. }
  rewrite Hr2 in Hw2. destruct (IH s2 Hw2 Hda Hps) as (w3 & bs' & E3 & Hw3 & Hbs).
  exists w3, (b :: bs'). cbn [send_payloads]. rewrite (bind_ok _ _ _ _ _ E1), (bind_ok _ _ _ _ _ E2), E3.
  split_and!; [|done|by constructor]. cbn. by rewrite <-app_assoc.
Qed.

Lemma flush_replies_ok fresh s rcv ls pend bs' ps room :
  queue_ok s ls pend -> zlen ls + zlen ps < 2 ^ 32 -> s_dataallowed s = true ->
  wf_key (s_trans s) -> cm_sync (k_cipher_state (s_trans s)) rcv ->
  buf_repr (s_writepayload s) [] [] room -> room <= 50000 -> Forall (waits room) ps ->
  Forall2 (fun b p => buf_repr b [] p 0) bs' ps ->
  exists s' ls' ws, flush_replies fresh bs' s = Ok (tt, s') /\ queue_ok s' ls' (pend ++ ws) /\
    wire_packets (s_trans s) (s_transseq s) ps ws.
Proof.
  intros Hq Hls Hda Hkey Hsync Hw Hroom Hps Hf. revert s rcv ls pend Hq Hls Hda Hkey Hsync Hw Hps.
  induction Hf as [|b p bs' ps Hb _ IH]; intros s rcv ls pend Hq Hls Hda Hkey Hsync Hw Hps.
  { exists s, ls, []. rewrite app_nil_r. split_and!; [done|done|constructor]. }
  apply Forall_cons_1 in Hps as [(Hpb & Hl & pt & rest & Ep & _) Hps]. rewrite zlen_cons in Hls.
  pose proof (zlen_nonneg ps). destruct (br_data _ _ _ _ Hb) as (junk & Hd & _).
  pose proof (br_len _ _ _ _ Hb) as Hbl. change (zlen (@nil Z)) with 0 in Hbl. rewrite Z.add_0_l in Hbl.
  destruct (put_writepayload s room p (b_len b) (b_data b) Hw Hpb Hl Hbl) as (w1 & E1 & Hw1);
    [exists junk; by rewrite Hd|]. set (s1 := set_s_writepayload w1 s) in *.
  destruct (encrypt_packet_ok fresh s1 rcv ls pend p pt rest p [] (room - zlen p) Hq) as
    (s2 & E2 & pad & ct & st & ptr & room2 & Hpad & Ec & Htr & Hq2 & Hseq & Hw2 & Hr2 & _ & _ & _ & Hda2);
    [lia|exact Hw1|apply app_nil_r|exact Ep|lia|by left|done|done|].
  assert (Hroom2 : room2 = room).
  { rewrite Hr2. cbn. rewrite (br_size _ _ _ _ Hw1). change (zlen (@nil Z)) with 0. lia. }
  rewrite Hroom2 in Hw2. change (s_trans s1) with (s_trans s) in *. change (s_transseq s1) with (s_transseq s) in *.
  destruct Hkey as (Hkbs & Hbs & Hmac & Hcomp). destruct Hpad as (Hpadb & Hpz & Hm & Hmin).
  destruct (cm_stream bs ltac:(lia) (clear_packet p pad) _ _ Hsync Hm) as (ct' & st' & rcv' & Ec' & _ & Hs' & _);
    [apply clear_bytes; done || lia|]. rewrite Ec in Ec'. injection Ec' as <- <-.
  destruct (IH s2 rcv' _ _ Hq2) as (s3 & ls3 & ws & E3 & Hq3 & Hws);
    [rewrite zlen_app; change (zlen [ptr]) with 1; lia|by rewrite Hda2|rewrite Htr; by split_and!|by rewrite Htr|done|done|].
  exists s3, ls3. eexists. split_and!.
  - cbn [flush_replies]. by rewrite (bind_ok _ _ _ _ _ E1), (bind_ok _ _ _ _ _ E2), E3.
  - by rewrite <-app_assoc in Hq3.
  - eapply wp_cons; [done|exact Ec|]. by rewrite Htr, Hseq in Hws.
Qed.
End Send.

(** ** Concrete sessions *)

(** A compressor that copies, and padding of zero bytes. *)
#[export] Instance copy_zlib : Zlib unit := {
  deflate _ i room := (Z_OK, zlen i - Z.min room (zlen i), ztake (Z.min room (zlen i)) i, tt);
  inflate _ i room := (Z_OK, zlen i - Z.min room (zlen i), ztake (Z.min room (zlen i)) i, tt) }.

#[export] Instance zero_random : Random unit := {
  genrandom n _ := (replicate (Z.to_nat n) 0, tt) }.

#[export] Program Instance zero_random_laws : RandomLaws unit := {}.
Next Obligation.
  intros n r Hn. cbn. split; [unfold zlen; rewrite length_replicate; lia|].
  apply Forall_replicate. by vm_compute.
Qed.

Definition toy_session : Type := sess (Queue positive) (cipher_state Z) unit unit.

(** Keys with counter mode and a tag of four bytes. *)
Definition toy_keys : key_ctx (cipher_state Z) unit :=
  mkkeys 8 0 16 4 (replicate 20 11) (ModeCtr (mkctr 8 0 (replicate 8 255) (replicate 8 242) 13))
         DROPBEAR_COMP_NONE tt.

Definition toy_sess : toy_session :=
  mksess (mkbuf (replicate 50 0) 0 0 50) initqueue ∅ None None 3 3 true false [] toy_keys toy_keys 0 0 0 0 0 tt
         [] [] [].

Lemma toy_wf_key : wf_key 8 toy_keys.
Proof.
  split_and!; [done|by left| |done]. split; [by vm_compute|]. intros _.
  split_and!; [done|by vm_compute|done|by vm_compute|]. apply Forall_replicate. by vm_compute.
Qed.

Lemma toy_writepayload : buf_repr (mkbuf (replicate 50 0) 0 0 50) [] [] 50.
Proof.
  split; try done; [|apply Forall_replicate; by vm_compute]. by exists (replicate 50 0).
Qed.

Lemma toy_queue : queue_ok toy_sess [] [].
Proof. split_and!; [exact queue_repr_init|constructor|constructor]. Qed.

Lemma toy_sync : cm_sync (blocksize := 8) (k_cipher_state toy_keys) (k_cipher_state toy_keys).
Proof. cbn. split; [done|]. split_and!; try done; repeat constructor; done. Qed.

(** ** Properties *)

(** C22: While a key exchange forbids data, payloads that are not part of it
    are sent without touching the write queue, the keys or the sequence
    number; when it is over, with whatever keys are then in use and behind
    whatever is then queued, maybe_flush_reply_queue puts exactly these
    payloads on the queue, in the order they were sent, each padded,
    encrypted and tagged, and empties the reply queue. *)
Theorem kex_replies_in_order {Q St H Zs R : Type} (bs : Z) `{QueueLaws Q positive}
    `{CipherModeLaws St bs} `{HashLaws H} `{Zlib Zs} `{RandomLaws R} (fresh : Z -> Z)
    (s : sess Q St Zs R) (ps : list (list Z)) (room : Z) :
  buf_repr (s_writepayload s) [] [] room -> room <= 50000 -> s_dataallowed s = false ->
  s_reply_queue s = [] -> Forall (waits room) ps ->
  exists s1, send_payloads fresh ps s = Ok (tt, s1) /\
    s_writequeue s1 = s_writequeue s /\ s_bufs s1 = s_bufs s /\ s_trans s1 = s_trans s /\
    s_transseq s1 = s_transseq s /\
  forall s2 rcv ls pend,
    s_reply_queue s2 = s_reply_queue s1 -> s_writepayload s2 = s_writepayload s1 ->
    s_dataallowed s2 = true -> queue_ok s2 ls pend -> zlen ls + zlen ps < 2 ^ 32 ->
    wf_key bs (s_trans s2) -> cm_sync (blocksize := bs) (k_cipher_state (s_trans s2)) rcv ->
    exists s3 ls3 ws, maybe_flush_reply_queue fresh s2 = Ok (tt, s3) /\
      queue_ok s3 ls3 (pend ++ ws) /\ wire_packets bs (s_trans s2) (s_transseq s2) ps ws /\
      s_reply_queue s3 = [].
Proof.
  intros Hw Hroom Hda Hrq Hps.
  destruct (send_payloads_gated fresh s ps room Hw Hda Hps) as (w & bs' & E & Hw1 & Hf).
  rewrite Hrq in E. cbn [app] in E. exists (set_s_reply_queue bs' (set_s_writepayload w s)).
  split_and!; try done. intros s2 rcv ls pend Hrq2 Hwp2 Hda2 Hq Hls Hkey Hsync.
  destruct (flush_replies_ok bs fresh s2 rcv ls pend bs' ps room Hq Hls Hda2 Hkey Hsync)
    as (s3 & ls3 & ws & E3 & Hq3 & Hws); [by rewrite Hwp2|done|done|done|].
  exists (set_s_reply_queue [] s3), ls3, ws. split_and!; [|exact Hq3|exact Hws|done].
  unfold maybe_flush_reply_queue. rewrite (bind_ok _ _ _ true s2) by (unfold gets; by rewrite Hda2).
  cbn [negb]. rewrite (bind_ok _ _ _ bs' s2) by (unfold gets; by rewrite Hrq2).
  by rewrite (bind_ok _ _ _ _ _ E3).
Qed.

Lemma kex_replies_in_order_witness :
  let s := set_s_dataallowed false toy_sess in
  let ps := [[94; 1]; [93]] in
  exists s1, send_payloads (fun _ => 0) ps s = Ok (tt, s1) /\
    s_writequeue s1 = s_writequeue s /\ s_bufs s1 = s_bufs s /\ s_trans s1 = s_trans s /\
    s_transseq s1 = s_transseq s /\
  forall s2 rcv ls pend,
    s_reply_queue s2 = s_reply_queue s1 -> s_writepayload s2 = s_writepayload s1 ->
    s_dataallowed s2 = true -> queue_ok s2 ls pend -> zlen ls + zlen ps < 2 ^ 32 ->
    wf_key 8 (s_trans s2) -> cm_sync (blocksize := 8) (k_cipher_state (s_trans s2)) rcv ->
    exists s3 ls3 ws, maybe_flush_reply_queue (fun _ => 0) s2 = Ok (tt, s3) /\
      queue_ok s3 ls3 (pend ++ ws) /\ wire_packets 8 (s_trans s2) (s_transseq s2) ps ws /\
      s_reply_queue s3 = [].
Proof.
  apply (kex_replies_in_order 8 (fun _ => 0) (set_s_dataallowed false toy_sess) [[94; 1]; [93]] 50).
  - exact toy_writepayload.
  - by vm_compute.
  - reflexivity.
  - reflexivity.
  - constructor; [|constructor; [|constructor]];
      (split; [repeat constructor; done|]; split; [by vm_compute|]; eexists _, _; split; reflexivity).
Defined.
