(* ===== verification/PacketRecv.v ===== *)
(** The receive side of packet.c: a packet that arrives in any pieces is read,
    decrypted, checked and handed on as the payload the sender put in, and the
    packets of two connected sessions are delivered in order. *)

From S2P Require Import Prelude Dbutil Buffer Queue Cipher Hmac Ssh Packet.
From stdpp Require Import gmap.

Local Open Scope Z_scope.
Local Open Scope prog_scope.

(** ** Receiving one packet *)

(** The socket holds non-empty pieces of data only. *)
Definition stream (l : list read_event) (x : list Z) : Prop :=
  exists bss, l = map RBytes bss /\ Forall (fun bs => bs <> []) bss /\ concat bss = x /\ bytes x.

Section ReceiveBasics.
Context {Q St H Zs R : Type} `{QueueOps Q positive} `{CipherMode St} `{HashDescriptors H} `{Zlib Zs}.
Abbreviation sess := (sess Q St Zs R).
Implicit Types (s : sess).

Lemma on_readbuf_ok {A} (m : prog buffer A) s b a b' :
  s_readbuf s = Some b -> m b = Ok (a, b') -> on_readbuf m s = Ok (a, set_s_readbuf (Some b') s).
Proof. intros Hb E. unfold on_readbuf. by rewrite Hb, E. Qed.

Lemma set_readbuf_id s b : s_readbuf s = Some b -> set_s_readbuf (Some b) s = s.
Proof. intros Hb. destruct s. simpl in *. by rewrite Hb. Qed.

(** An operation on readbuf that only looks. *)
Lemma on_readbuf_look {A} (m : prog buffer A) s b a :
  s_readbuf s = Some b -> m b = Ok (a, b) -> on_readbuf m s = Ok (a, s).
Proof. intros Hb E. rewrite (on_readbuf_ok m s b a b Hb E). by rewrite set_readbuf_id. Qed.

Lemma sock_read_ok s x maxlen :
  stream (s_sock_in s) x -> x <> [] -> 0 < maxlen ->
  exists got si x', sock_read maxlen s = Ok (RBytes got, set_s_sock_in si s) /\
    stream si x' /\ x = got ++ x' /\ 0 < zlen got <= maxlen /\ bytes got.
Proof.
  intros (bss & Hs & Hne & Hx & Hb) Hxne Hm. unfold sock_read. rewrite Hs.
  destruct Hne as [|b bss Hbne Hne]; [by rewrite <-Hx in Hxne|]. cbn [map concat] in *. subst x.
  apply Forall_app in Hb as [Hb1 Hb2].
  assert (Hbl : 0 < zlen b) by (destruct b; [done|rewrite zlen_cons; pose proof (zlen_nonneg b); lia]).
  destruct (Z.leb_spec (zlen b) maxlen) as [Hle|Hgt].
  - exists b, (map RBytes bss), (concat bss). split_and!; try done. by exists bss.
  - assert (Hz : zlen (ztake maxlen b) = maxlen) by (apply zlen_ztake; lia).
    exists (ztake maxlen b), (map RBytes (zdrop maxlen b :: bss)), (zdrop maxlen b ++ concat bss).
    split_and!; try lia; [done| |by rewrite app_assoc, ztake_zdrop|by apply Forall_ztake].
    exists (zdrop maxlen b :: bss). split_and!; [done| |done|].
    + constructor; [|done]. intros E. apply (f_equal zlen) in E. rewrite zlen_zdrop in E by lia.
      change (zlen (@nil Z)) with 0 in E. lia.
    + apply Forall_app. split; [by apply Forall_zdrop|done].
Qed.

(** Decrypting a part of readbuf in place. *)
Lemma decrypt_in_place_ok s b pre ct pt post room st n :
  s_readbuf s = Some b -> buf_repr b pre (ct ++ post) room -> n = zlen ct ->
  cm_decrypt ct (k_cipher_state (s_recv s)) = Some (pt, st) -> zlen pt = zlen ct -> bytes pt ->
  exists b', decrypt_in_place n s = Ok (tt, set_s_recv (set_cipher_state st (s_recv s)) (set_s_readbuf (Some b') s)) /\
    buf_repr b' pre (pt ++ post) room.
Proof.
  intros Hb Hr -> Hd Hl Hpb. pose proof (zlen_nonneg post). repr_facts Hr. rewrite zlen_app in *.
  destruct (repr_overwrite b pre (ct ++ post) room pt Hr Hpb) as (b' & E & _ & Hb'); [rewrite zlen_app; lia|].
  exists b'. rewrite Hl, zdrop_app_zlen in Hb'. split; [|exact Hb']. unfold decrypt_in_place.
  rewrite (bind_ok _ _ _ ct s) by (apply (on_readbuf_look _ _ b); [done|by eapply repr_getptr_bytes]).
  rewrite (bind_ok _ _ _ (b_pos b) s)
    by (apply (on_readbuf_look _ _ b); [done|apply (repr_getwriteptr b pre (ct ++ post) room _ Hr);
        rewrite zlen_app; pose proof (zlen_nonneg ct); lia]).
  rewrite (bind_ok _ _ _ (s_recv s) s), Hd by reflexivity.
  rewrite (bind_ok _ _ _ _ _ (on_readbuf_ok _ s b tt b' Hb E)). done.
Qed.
End ReceiveBasics.

(** ** The MAC check *)

Section MacCheck.
Context {Q St H Zs R : Type} `{CipherMode St} `{HashLaws H}.
Abbreviation sess := (sess Q St Zs R).

(** checkmac accepts exactly the tag of the bytes before it. *)
Lemma checkmac_spec (s : sess) b pre post clear tag room :
  wf_mac (s_recv s) -> s_readbuf s = Some b -> buf_repr b pre post room -> pre ++ post = clear ++ tag ->
  zlen tag = k_mac_hashsize (s_recv s) ->
  exists r b', checkmac s = Ok (r, set_s_readbuf (Some b') s) /\ buf_repr b' clear tag room /\
    (r = true <-> tag = mac_of (s_recv s) (s_recvseq s) clear).
Proof.
  intros Hwf Hb Hr Heq Htz. set (k := s_recv s) in *.
  pose proof (zlen_nonneg clear). pose proof (zlen_nonneg tag).
  pose proof Hwf as [Hms _]. unfold MAX_MAC_LEN in Hms.
  destruct (buf_repr_bytes _ _ _ _ Hr) as [Hpre Hpost].
  assert (Hall : bytes (clear ++ tag)) by (rewrite <-Heq; by apply Forall_app_2).
  apply Forall_app in Hall as [_ Htb].
  pose proof (f_equal zlen Heq) as Hz. rewrite !zlen_app in Hz. repr_facts Hr.
  destruct (repr_seek b pre post room [] (clear ++ tag) 0 Hr) as (b1 & E1 & Hb1); [done..|].
  destruct (make_mac_ok k (s_recvseq s) b1 [] (clear ++ tag) clear tag room (zlen clear) Hwf Hb1)
    as (mac & b2 & pre' & post' & E2 & Hb2 & Heq' & Hmz & Hmb & Hmac); [done..|].
  destruct (repr_seek b2 pre' post' room clear tag (zlen clear) Hb2 Heq') as (b3 & E3 & Hb3); [done|].
  destruct (constant_time_memcmp_spec mac tag (k_mac_hashsize k) b3 Hmb Htb) as (r & Er & Hrz);
    [rewrite Hmz; unfold MAX_MAC_LEN; lia|lia|].
  exists (r =? 0), b3. split; [|split; [exact Hb3|]].
  - unfold checkmac. rewrite (bind_ok _ _ _ k s), (bind_ok _ _ _ (s_recvseq s) s) by reflexivity.
    apply (on_readbuf_ok _ s b _ b3 Hb).
    rewrite (bind_ok _ _ _ (b_len b) b) by reflexivity.
    replace (u32 _) with (zlen clear) by (rewrite u32_small; unfold is_u32; lia).
    rewrite (bind_ok _ _ _ _ _ E1), (bind_ok _ _ _ _ _ E2), (bind_ok _ _ _ _ _ E3).
    rewrite (bind_ok _ _ _ tag b3)
      by (apply (repr_getptr_bytes b3 clear tag [] room); [done|by rewrite app_nil_r]).
    by rewrite (bind_ok _ _ _ _ _ Er).
  - rewrite Z.eqb_eq, Hrz, Hmac. rewrite <-Htz, ztake_all. by split.
Qed.
End MacCheck.

Section Receive.
Context {Q St H Zs R : Type} (bs : Z) `{QueueOps Q positive} `{CipherModeLaws St bs} `{HashLaws H} `{Zlib Zs}.
Abbreviation sess := (sess Q St Zs R).
Implicit Types (s : sess).

(** The packet under way: its receive keys at the start, its sequence number,
    the packet before and after encryption, and the receiver's cipher states
    after the first block and after the whole packet. *)
Variables (k : key_ctx St Zs) (seq : Z) (payload pad ct : list Z) (r1 r2 : St) (fresh : Z -> Z).
Abbreviation clear := (clear_packet payload pad).
Abbreviation tag := (mac_of k seq clear).
Abbreviation wire := (ct ++ tag).

Record in_flight : Prop := {
  fl_key : wf_key bs k;
  fl_payload : 1 <= zlen payload <= RECV_MAX_PAYLOAD_LEN;
  fl_bytes : bytes payload;
  fl_padded : padded bs payload pad;
  fl_len : zlen ct = zlen clear;
  fl_ct : bytes ct;
  fl_first : cm_decrypt (ztake bs ct) (k_cipher_state k) = Some (ztake bs clear, r1);
  fl_rest : cm_decrypt (zdrop bs ct) r1 = Some (zdrop bs clear, r2) }.
Context (fl : in_flight).

(** [dn] of the packet's bytes have been read. *)
Definition reading s (dn : list Z) : Prop :=
  s_recvseq s = seq /\
  ((dn = [] /\ s_readbuf s = None /\ s_recv s = k) \/
   (0 < zlen dn < bs /\ s_recv s = k /\
      exists b, s_readbuf s = Some b /\ buf_repr b dn [] (INIT_READBUF - zlen dn)) \/
   (bs <= zlen dn /\ s_recv s = set_cipher_state r1 k /\
      exists b ext room, s_readbuf s = Some b /\ buf_repr b (ztake bs clear ++ zdrop bs dn) ext room /\
        zlen dn + zlen ext = zlen wire)).

Lemma clear_size : MIN_PACKET_LEN <= zlen clear <= 33100 /\ zlen clear = 5 + zlen payload + zlen pad /\
  bs <= zlen clear /\ (bs = 8 \/ bs = 16) /\ 0 <= k_mac_hashsize k <= 20.
Proof.
  destruct (fl_padded fl) as (_ & Hp & _ & Hmin). pose proof (fl_payload fl).
  destruct (fl_key fl) as (_ & Hbs & [Hm _] & _).
  unfold MIN_PACKET_LEN, RECV_MAX_PAYLOAD_LEN, MAX_MAC_LEN in *. rewrite zlen_clear in *. lia.
Qed.

Lemma tag_size : zlen tag = k_mac_hashsize k /\ bytes tag.
Proof. apply zlen_mac_of. by destruct (fl_key fl) as (_ & _ & ? & _). Qed.

Lemma wire_size : zlen wire = zlen clear + k_mac_hashsize k.
Proof. rewrite zlen_app, (fl_len fl). by rewrite (proj1 tag_size). Qed.

Lemma clear_is_bytes : bytes clear.
Proof. destruct (fl_padded fl) as (Hb & Hp & _). apply clear_bytes; [apply fl|done|lia]. Qed.

Lemma set_cipher_wf st : wf_key bs (set_cipher_state st k).
Proof. apply fl. Qed.

(** Making room for the packet exposes the bytes behind the first block. *)
Lemma resize_first b pre post room n :
  buf_repr b pre post room -> b_size b = INIT_READBUF -> zlen (pre ++ post) = bs ->
  bs <= n <= 100000 -> 0 < bs ->
  exists b' ext room', (size <- gets b_size ;;
       when (n >? size) (buf_resize fresh n) ;;;
       buf_setlen n ;;;
       buf_setpos bs) b = Ok (tt, b') /\
    buf_repr b' (pre ++ post) ext room' /\ bs + zlen ext = n.
Proof.
  intros Hb Hsz Hl Hn Hbs. pose proof (zlen_nonneg pre). pose proof (zlen_nonneg post). rewrite zlen_app in Hl.
  rewrite (bind_ok _ _ _ (b_size b) b), Hsz by reflexivity.
  assert (Hgrow : exists b1 room1, (when (n >? INIT_READBUF) (buf_resize fresh n)) b = Ok (tt, b1) /\
    buf_repr b1 pre post room1 /\ n <= b_size b1).
  { rewrite Z.gtb_ltb. destruct (Z.ltb_spec INIT_READBUF n) as [Hlt|Hge].
    - destruct (repr_resize fresh b _ _ _ n Hb) as (b1 & E1 & Hb1); [unfold BUF_MAX_SIZE; lia|lia|].
      exists b1. eexists. split; [exact E1|]. split; [exact Hb1|]. rewrite (br_size _ _ _ _ Hb1). lia.
    - exists b, room. split_and!; [done|done|lia]. }
  destruct Hgrow as (b1 & room1 & E1 & Hb1 & Hs1). rewrite (bind_ok _ _ _ _ _ E1).
  destruct (repr_setlen b1 _ _ _ n Hb1) as (b2 & ext & E2 & Hb2 & Hext); [lia|].
  rewrite (bind_ok _ _ _ _ _ E2). rewrite ztake_app_ge in Hb2 by lia.
  pose proof (br_size _ _ _ _ Hb1). pose proof (br_room _ _ _ _ Hb1).
  set (x := ztake _ ext) in Hb2.
  assert (Hx : zlen x = n - bs) by (subst x; rewrite zlen_ztake; lia).
  destruct (repr_setpos b2 _ _ _ bs Hb2) as (b3 & E3 & Hb3); [rewrite zlen_app; lia|].
  exists b3, x. eexists. split; [exact E3|]. rewrite app_assoc in Hb3.
  rewrite <-Hl, <-zlen_app, ztake_app_zlen, zdrop_app_zlen in Hb3. split; [exact Hb3|lia].
Qed.

(** The length field is in the first block. *)
Lemma first_block_ok s b room :
  s_readbuf s = Some b -> s_recv s = k -> buf_repr b (ztake bs ct) [] room -> b_size b = INIT_READBUF ->
  exists b' ext room', first_block fresh s
      = Ok (tt, set_s_recv (set_cipher_state r1 k) (set_s_readbuf (Some b') s)) /\
    buf_repr b' (ztake bs clear) ext room' /\ bs + zlen ext = zlen wire.
Proof.
  intros Hb Hk Hr Hsz. destruct clear_size as ((Hmin & Hmax) & Hcl & Hbsc & Hbs & Hm).
  destruct (fl_key fl) as (Hkbs & _). pose proof (fl_len fl) as Hctl.
  assert (Hc1 : zlen (ztake bs clear) = bs) by (apply zlen_ztake; lia).
  assert (Hct1 : zlen (ztake bs ct) = bs) by (apply zlen_ztake; lia).
  unfold first_block. rewrite (bind_ok _ _ _ k s) by (rewrite <-Hk; reflexivity). rewrite Hkbs.
  destruct (repr_rewind _ _ _ _ Hr) as (b1 & E1 & Hb1).
  rewrite (bind_ok _ _ _ _ _ (on_readbuf_ok _ s b _ _ Hb E1)).
  set (s1 := set_s_readbuf (Some b1) s). rewrite app_nil_r in Hb1.
  assert (Hb1' : buf_repr b1 [] (ztake bs ct ++ []) room) by (by rewrite app_nil_r).
  destruct (decrypt_in_place_ok s1 b1 [] (ztake bs ct) (ztake bs clear) [] room r1 bs) as (b2 & E2 & Hb2);
    [done|done|lia|cbn; rewrite Hk; apply fl|lia|apply Forall_ztake, clear_is_bytes|].
  rewrite (bind_ok _ _ _ _ _ E2). rewrite app_nil_r in Hb2.
  set (s2 := set_s_recv (set_cipher_state r1 (s_recv s1)) (set_s_readbuf (Some b2) s1)).
  set (v := 1 + zlen payload + zlen pad).
  assert (Hv : ztake bs clear = store32h v ++ zdrop 4 (ztake bs clear)).
  { rewrite <-(ztake_zdrop 4 (ztake bs clear)) at 1. f_equal. rewrite ztake_ztake by lia.
    unfold clear_packet. fold v. by rewrite <-(zlen_store32h v), ztake_app_zlen. }
  rewrite Hv in Hb2.
  destruct (repr_getint b2 [] v (zdrop 4 (ztake bs clear)) room ltac:(unfold is_u32, v; lia) Hb2) as (b3 & E3 & Hb3).
  rewrite (bind_ok _ _ _ _ _ (on_readbuf_ok _ s2 b2 _ _ eq_refl E3)). 
  set (s3 := set_s_readbuf (Some b3) s2).
  assert (Hlen : u32 (v + 4 + k_mac_hashsize k) = zlen wire)
    by (rewrite wire_size, u32_small; unfold v, is_u32 in *; lia).
  rewrite Hlen. rewrite Z.gtb_ltb, (proj2 (Z.ltb_ge RECV_MAX_PACKET_LEN _)), (proj2 (Z.ltb_ge _ (MIN_PACKET_LEN + _)))
    by (rewrite wire_size; unfold RECV_MAX_PACKET_LEN, RECV_MAX_PAYLOAD_LEN; lia).
  assert (Hmod : u32 (zlen wire - k_mac_hashsize k) mod bs = 0).
  { rewrite wire_size, u32_small by (unfold is_u32; lia).
    replace (zlen clear + k_mac_hashsize k - k_mac_hashsize k) with (zlen clear) by lia.
    by destruct (fl_padded fl) as (_ & _ & ? & _). }
  rewrite Hmod. cbn [orb negb Z.eqb]. rewrite app_nil_l in Hb3.
  pose proof wire_size as Hws.
  assert (Hsz3 : b_size b3 = INIT_READBUF).
  { pose proof (br_size _ _ _ _ Hb3) as Hs3. pose proof (br_size _ _ _ _ Hr) as Hs0. rewrite Hsz in Hs0.
    assert (Hz : zlen (store32h v) + zlen (zdrop 4 (ztake bs clear)) = bs) by (rewrite <-zlen_app, <-Hv; done).
    change (zlen (@nil Z)) with 0 in *. lia. }
  destruct (resize_first b3 (store32h v) (zdrop 4 (ztake bs clear)) room (zlen wire) Hb3 Hsz3)
    as (b' & ext & room' & E4 & Hb' & Hext); [by rewrite <-Hv|lia|lia|].
  exists b', ext, room'. rewrite <-Hv in Hb'. split_and!; [|done|done].
  rewrite (on_readbuf_ok _ s3 b3 tt b' eq_refl E4). subst s3 s2 s1. cbn. by rewrite Hk.
Qed.

(** Everything behind the first block is decrypted. *)
Lemma decrypt_rest_ok s b room :
  s_readbuf s = Some b -> s_recv s = set_cipher_state r1 k ->
  buf_repr b (ztake bs clear ++ zdrop bs wire) [] room ->
  exists b' d, decrypt_rest s = Ok (tt, set_s_recv (set_cipher_state r2 k)
                                    (set_s_readbuf (Some b') (set_s_datarecv d s))) /\
    buf_repr b' clear tag room.
Proof.
  intros Hb Hk Hr. destruct clear_size as ((Hmin & Hmax) & Hcl & Hbsc & Hbs & Hm).
  destruct (fl_key fl) as (Hkbs & _). pose proof (fl_len fl) as Hctl. pose proof tag_size as [Htz _].
  assert (Hc1 : zlen (ztake bs clear) = bs) by (apply zlen_ztake; lia).
  assert (Hw : zdrop bs wire = zdrop bs ct ++ tag) by (apply zdrop_app_le; lia).
  assert (Hzc : zlen (zdrop bs ct) = zlen clear - bs) by (rewrite zlen_zdrop; lia).
  assert (Hzr : zlen (zdrop bs clear) = zlen clear - bs) by (rewrite zlen_zdrop; lia).
  repr_facts Hr. rewrite Hw, !zlen_app, Hc1, Hzc, Htz in *. change (zlen (@nil Z)) with 0 in *.
  unfold decrypt_rest. rewrite (bind_ok _ _ _ (set_cipher_state r1 k) s) by (rewrite <-Hk; reflexivity).
  rewrite (bind_ok _ _ _ (b_len b) s) by (by apply (on_readbuf_look _ _ b)).
  set (d := u32 (s_datarecv s + b_len b)). set (s1 := set_s_datarecv d s).
  rewrite (bind_ok _ _ _ tt s1) by reflexivity.
  destruct (repr_seek b _ _ _ (ztake bs clear) (zdrop bs ct ++ tag) bs Hr) as (b1 & E1 & Hb1);
    [by rewrite app_nil_r|lia|].
  cbn [set_cipher_state k_blocksize]. rewrite Hkbs.
  rewrite (bind_ok _ _ _ _ _ (on_readbuf_ok _ s1 b _ _ Hb E1)).
  set (s2 := set_s_readbuf (Some b1) s1).
  rewrite (bind_ok _ _ _ (b_pos b1) s2) by (by apply (on_readbuf_look _ _ b1)).
  pose proof (br_pos _ _ _ _ Hb1) as Hp1. rewrite Hp1, Hc1, Hlen.
  cbn [set_cipher_state k_mac_hashsize].
  replace (u32 _) with (zlen (zdrop bs ct)) by (rewrite u32_small; unfold is_u32; lia).
  destruct (decrypt_in_place_ok s2 b1 (ztake bs clear) (zdrop bs ct) (zdrop bs clear) tag room r2
    (zlen (zdrop bs ct))) as (b2 & E2 & Hb2);
    [done|done|done|cbn; rewrite Hk; apply fl|lia|apply Forall_zdrop, clear_is_bytes|].
  rewrite (bind_ok _ _ _ _ _ E2).
  destruct (repr_incrpos b2 (ztake bs clear) (zdrop bs clear) tag room (s32 (zlen (zdrop bs ct)))) as (b3 & E3 & Hb3);
    [rewrite s32_small; lia|done|].
  rewrite ztake_zdrop in Hb3. exists b3, d. split; [|exact Hb3].
  set (s3 := set_s_recv (set_cipher_state r2 (s_recv s2)) (set_s_readbuf (Some b2) s2)).
  rewrite (on_readbuf_ok _ s3 b2 tt b3 eq_refl E3). subst s3 s2 s1. cbn. by rewrite Hk.
Qed.

(** The tag is the one the receiver computes. *)
Lemma checkmac_ok s b room :
  s_readbuf s = Some b -> s_recv s = set_cipher_state r2 k -> s_recvseq s = seq ->
  buf_repr b clear tag room ->
  exists b', checkmac s = Ok (true, set_s_readbuf (Some b') s) /\ buf_repr b' clear tag room.
Proof.
  intros Hb Hk Hseq Hr. destruct clear_size as ((Hmin & Hmax) & Hcl & Hbsc & Hbs & Hm).
  assert (Hwf : wf_mac (s_recv s)) by (rewrite Hk; by destruct (set_cipher_wf r2) as (_ & _ & ? & _)).
  destruct (checkmac_spec s b clear tag clear tag room Hwf Hb Hr eq_refl) as (r & b' & E & Hb' & Hiff).
  { rewrite Hk. apply tag_size. }
  exists b'. split; [|done]. rewrite E. destruct r; [done|]. exfalso.
  assert (false = true); [|done]. apply Hiff. by rewrite Hk, Hseq.
Qed.

(** The payload is what is between the header and the padding. *)
Lemma take_payload_ok s b room :
  s_readbuf s = Some b -> s_recv s = set_cipher_state r2 k -> buf_repr b clear tag room ->
  exists b' pb, take_payload fresh s = Ok (pb, set_s_readbuf (Some b') s) /\ buf_repr pb [] payload 0.
Proof.
  intros Hb Hk Hr. destruct clear_size as ((Hmin & Hmax) & Hcl & Hbsc & Hbs & Hm).
  destruct tag_size as [Htz Htb]. repr_facts Hr. pose proof (fl_payload fl) as [Hp1 Hp2].
  destruct (fl_padded fl) as (_ & Hpz & _). set (k2 := set_cipher_state r2 k) in *.
  set (v := 1 + zlen payload + zlen pad).
  unfold take_payload. rewrite (bind_ok _ _ _ k2 s) by (rewrite <-Hk; reflexivity).
  destruct (repr_seek b clear tag room (store32h v) (zlen pad :: (payload ++ pad) ++ tag) PACKET_PADDING_OFF Hr)
    as (b1 & E1 & Hb1); [unfold clear_packet; fold v; by rewrite <-!app_assoc|done|].
  rewrite (bind_ok _ _ _ _ _ (on_readbuf_ok _ s b _ _ Hb E1)).
  destruct (repr_getbyte b1 _ _ _ _ Hb1) as (b2 & E2 & Hb2).
  set (s1 := set_s_readbuf (Some b1) s).
  rewrite (bind_ok _ _ _ _ _ (on_readbuf_ok _ s1 b1 _ _ eq_refl E2)).
  set (s2 := set_s_readbuf (Some b2) s1).
  rewrite (bind_ok _ _ _ (b_len b2) s2) by (by apply (on_readbuf_look _ _ b2)).
  pose proof (br_len _ _ _ _ Hb2) as Hl2. rewrite !zlen_app, zlen_store32h, Htz in Hl2.
  change (zlen [zlen pad]) with 1 in Hl2. rewrite Hl2. change (k_mac_hashsize k2) with (k_mac_hashsize k).
  replace (u32 _) with (zlen payload) by (rewrite u32_small; unfold is_u32; lia).
  rewrite Z.gtb_ltb, (proj2 (Z.ltb_ge _ _)), (proj2 (Z.ltb_ge _ _)) by lia. cbn [orb].
  destruct (repr_seek b2 _ _ _ (store32h v ++ [zlen pad]) (payload ++ pad ++ tag) PACKET_PAYLOAD_OFF Hb2)
    as (b3 & E3 & Hb3); [by rewrite <-!app_assoc|done|].
  rewrite (bind_ok _ _ _ _ _ (on_readbuf_ok _ s2 b2 _ _ eq_refl E3)). set (s3 := set_s_readbuf (Some b3) s2).
  rewrite (bind_ok _ _ _ false s3).
  2: { unfold gets. do 2 f_equal. unfold is_compress_recv. destruct (fl_key fl) as (_ & _ & _ & Hc).
       cbn. rewrite Hk. cbn. rewrite Hc. by destruct (s_authdone s). }
  destruct (repr_buf_new (zlen payload) s3) as (pb & Enew & Hpb);
    [unfold BUF_MAX_SIZE, RECV_MAX_PAYLOAD_LEN in *; lia|]. rewrite (bind_ok _ _ _ _ _ Enew).
  rewrite (bind_ok _ _ _ payload s3).
  2: { apply (on_readbuf_look _ _ b3); [done|]. by apply (repr_getptr_bytes b3 (store32h v ++ [zlen pad]) payload (pad ++ tag) room). }
  destruct (repr_fill pb _ payload (zlen payload) Hpb (fl_bytes fl)) as (pb' & Ef & Hpb'); [done|lia|].
  rewrite (bind_ok _ _ _ (tt, pb') s3) by (unfold on; by rewrite Ef).
  exists b3, pb'. split; [done|]. by rewrite Z.sub_diag in Hpb'.
Qed.

(** The packet has been handed on. *)
Definition delivered s : Prop :=
  s_readbuf s = None /\ s_recv s = set_cipher_state r2 k /\ s_recvseq s = u32 (seq + 1) /\
  exists pb room, s_payload s = Some pb /\ buf_repr pb [] payload room.

Lemma decrypt_packet_ok s :
  reading s wire ->
  exists s', decrypt_packet fresh s = Ok (tt, s') /\ delivered s' /\ s_sock_in s' = s_sock_in s.
Proof.
  intros [Hseq Hr]. pose proof wire_size as Hws. destruct clear_size as ((Hmin & Hmax) & Hcl & Hbsc & Hbs & Hm).
  destruct Hr as [(E & _)|[(Hlt & _)|(_ & Hk & b & ext & room & Hb & Hr & Hz)]];
    [apply (f_equal zlen) in E; change (zlen (@nil Z)) with 0 in E; lia|lia|].
  rewrite (zlen_zero_inv ext) in Hr by lia.
  destruct (decrypt_rest_ok s b room Hb Hk Hr) as (b1 & d & E1 & Hb1).
  unfold decrypt_packet. rewrite (bind_ok _ _ _ _ _ E1). set (s1 := set_s_recv _ _) in E1 |- *.
  destruct (checkmac_ok s1 b1 room eq_refl eq_refl Hseq Hb1) as (b2 & E2 & Hb2).
  rewrite (bind_ok _ _ _ _ _ E2). cbn [negb]. set (s2 := set_s_readbuf (Some b2) s1) in E2 |- *.
  destruct (take_payload_ok s2 b2 room eq_refl eq_refl Hb2) as (b3 & pb & E3 & Hpb).
  rewrite (bind_ok _ _ _ _ _ E3). set (s3 := set_s_readbuf (Some b3) s2) in E3 |- *.
  rewrite (bind_ok _ _ _ tt (set_s_readbuf None s3)) by reflexivity.
  destruct (repr_rewind pb [] payload 0 Hpb) as (pb' & E4 & Hpb').
  rewrite (bind_ok _ _ _ (tt, pb') (set_s_readbuf None s3)) by (unfold on; by rewrite E4).
  eexists. split; [reflexivity|]. split; [|done].
  split_and!; [done|done|cbn; by rewrite Hseq|]. by exists pb', 0.
Qed.

(** readbuf exists at the start of the first block. *)
Lemma readbuf_ready s dn :
  reading s dn -> zlen dn < bs ->
  exists b, (readbuf <- gets s_readbuf ;;
     match readbuf with
     | None => b <- buf_new INIT_READBUF ;; modify (set_s_readbuf (Some b))
     | Some _ => ret tt
     end) s = Ok (tt, set_s_readbuf (Some b) s) /\
    s_recv s = k /\ buf_repr b dn [] (INIT_READBUF - zlen dn).
Proof.
  intros [Hseq [(-> & Hn & Hk)|[(_ & Hk & b & Hb & Hr)|(Hge & _)]]] Hlt; [| |lia].
  - destruct (repr_buf_new INIT_READBUF s) as (b & E & Hb); [unfold INIT_READBUF, BUF_MAX_SIZE; lia|].
    exists b. split_and!; [|done|exact Hb]. rewrite (bind_ok _ _ _ None s) by (unfold gets; by rewrite Hn).
    by rewrite (bind_ok _ _ _ _ _ E).
  - exists b. split_and!; [|done|exact Hr]. rewrite (bind_ok _ _ _ (Some b) s) by (unfold gets; by rewrite Hb).
    by rewrite set_readbuf_id.
Qed.

(** One call in the first block: at least one byte is read, and with the last
    byte of the block its first half is decrypted. *)
Lemma read_packet_init_ok s dn x y more :
  reading s dn -> zlen dn < bs -> stream (s_sock_in s) x -> x <> [] -> dn ++ x ++ y = wire ++ more ->
  exists s' got x', read_packet_init fresh s = Ok (zlen (dn ++ got) =? bs, s') /\
    0 < zlen got /\ x = got ++ x' /\ stream (s_sock_in s') x' /\
    reading s' (dn ++ got) /\ zlen (dn ++ got) <= bs /\ s_payload s' = s_payload s.
Proof.
  intros Hr Hlt Hst Hx Hdx. pose proof Hr as [Hseq _]. pose proof (zlen_nonneg dn).
  destruct clear_size as ((Hmin & Hmax) & Hcl & Hbsc & Hbs & Hm). destruct (fl_key fl) as (Hkbs & _).
  destruct (readbuf_ready s dn Hr Hlt) as (b & E0 & Hk & Hb). repr_facts Hb. change (zlen (@nil Z)) with 0 in *.
  set (s0 := set_s_readbuf (Some b) s) in E0. unfold read_packet_init.
  rewrite (bind_ok _ _ _ k s) by (rewrite <-Hk; reflexivity).
  unfold bind at 1 in E0. unfold gets at 1 in E0. cbn beta iota zeta in E0.
  rewrite (bind_ok _ _ _ (s_readbuf s) s), (bind_ok _ _ _ _ _ E0) by reflexivity.
  rewrite (bind_ok _ _ _ (zlen dn) s0)
    by (apply (on_readbuf_look _ _ b); [done|unfold gets; by rewrite Hpos]).
  rewrite Hkbs. replace (u32 (bs - zlen dn)) with (bs - zlen dn) by (rewrite u32_small; unfold is_u32; lia).
  rewrite (bind_ok _ _ _ (b_pos b) s0).
  2: { apply (on_readbuf_look _ _ b); [done|]. apply (repr_getwriteptr b dn [] _ _ Hb).
       change (zlen (@nil Z)) with 0. unfold INIT_READBUF. lia. }
  destruct (sock_read_ok s0 x (bs - zlen dn) Hst Hx) as (got & si & x' & Er & Hst' & Hxx & Hg & Hgb); [lia|].
  rewrite (bind_ok _ _ _ _ _ Er). cbn [read_bytes]. set (s1 := set_s_sock_in si s0).
  rewrite (proj2 (Z.eqb_neq (zlen got) 0)) by lia. rewrite (bind_ok _ _ _ tt s1) by reflexivity.
  destruct (repr_write b dn [] _ got Hb Hgb) as (b1 & b2 & E1 & E2 & Hb2);
    [change (zlen (@nil Z)) with 0; unfold INIT_READBUF; lia|].
  rewrite (bind_ok _ _ _ _ _ (on_readbuf_ok _ s1 b _ _ eq_refl E1)). set (s2 := set_s_readbuf (Some b1) s1).
  rewrite (bind_ok _ _ _ _ _ (on_readbuf_ok _ s2 b1 _ _ eq_refl E2)). set (s3 := set_s_readbuf (Some b2) s2).
  rewrite post_nil in Hb2. unfold room_after in Hb2. change (zlen (@nil Z)) with 0 in Hb2.
  replace (INIT_READBUF - zlen dn - Z.max 0 (zlen got - 0)) with (INIT_READBUF - zlen (dn ++ got)) in Hb2
    by (rewrite zlen_app; lia).
  destruct (Z.eqb_spec (zlen got) (bs - zlen dn)) as [Heq|Hne]; cbn [negb].
  2: { exists s3, got, x'. rewrite (proj2 (Z.eqb_neq _ bs)) by (rewrite zlen_app; lia).
       split_and!; try done; try (rewrite ?zlen_app; lia). split; [done|]. right; left.
       split; [rewrite zlen_app; lia|]. split; [done|]. by exists b2. }
  assert (Hdn : dn ++ got = ztake bs ct).
  { assert (Hz : zlen (dn ++ got) = bs) by (rewrite zlen_app; lia).
    rewrite <-Hz. rewrite <-(ztake_app_le _ ct (tag ++ more)) by (rewrite Hz, (fl_len fl); lia).
    rewrite app_assoc, <-Hdx, Hxx, <-app_assoc, app_assoc. by rewrite ztake_app_zlen. }
  rewrite Hdn in Hb2. destruct (first_block_ok s3 b2 _ eq_refl Hk Hb2) as (b3 & ext & room3 & E3 & Hb3 & Hz3).
  { pose proof (br_size _ _ _ _ Hb2) as Hs2. change (zlen (@nil Z)) with 0 in Hs2.
    rewrite ?Hdn in Hs2. lia. }
  rewrite (bind_ok _ _ _ _ _ E3). set (s4 := set_s_recv _ _) in E3 |- *. exists s4, got, x'.
  assert (Hz : zlen (dn ++ got) = bs) by (rewrite zlen_app; lia). rewrite Hz, Z.eqb_refl.
  split_and!; try done; try lia. split; [done|]. right; right. split; [lia|]. split; [done|].
  exists b3, ext, room3. split_and!; [done| |lia]. rewrite <-Hz at 2. by rewrite zdrop_all, app_nil_r.
Qed.

(** One call behind the first block: bytes are read if there are any, and
    with the last byte of the packet it is handed on. *)
Lemma read_packet_rest_ok s dn x y more :
  reading s dn -> bs <= zlen dn -> stream (s_sock_in s) x -> dn ++ x ++ y = wire ++ more ->
  zlen dn <= zlen wire -> 
  exists s' got x', read_packet_rest fresh s = Ok (tt, s') /\
    (x <> [] -> zlen dn < zlen wire -> 0 < zlen got) /\ x = got ++ x' /\ stream (s_sock_in s') x' /\
    (zlen (dn ++ got) < zlen wire /\ reading s' (dn ++ got) /\ s_payload s' = s_payload s \/
     dn ++ got = wire /\ delivered s').
Proof.
  intros Hr Hge Hst Hdx Hdw. pose proof Hr as [Hseq Hcases].
  pose proof wire_size as Hws. destruct clear_size as ((Hmin & Hmax) & Hcl & Hbsc & Hbs & Hm).
  destruct Hcases as [(E & _)|[(Hlt & _)|(_ & Hk & b & ext & room & Hb & Hrb & Hz)]];
    [apply (f_equal zlen) in E; change (zlen (@nil Z)) with 0 in E; lia|lia|].
  assert (Hc1 : zlen (ztake bs clear) = bs) by (apply zlen_ztake; lia).
  assert (Hd1 : zlen (zdrop bs dn) = zlen dn - bs) by (apply zlen_zdrop; lia).
  repr_facts Hrb. rewrite zlen_app, Hc1, Hd1 in Hpos, Hlen, Hsize. pose proof (zlen_nonneg ext).
  unfold read_packet_rest.
  rewrite (bind_ok _ _ _ (b_len b) s) by (by apply (on_readbuf_look _ _ b)).
  rewrite (bind_ok _ _ _ (b_pos b) s) by (by apply (on_readbuf_look _ _ b)).
  replace (u32 (b_len b - b_pos b)) with (zlen ext) by (rewrite u32_small; unfold is_u32; lia).
  destruct (Z.eqb_spec (zlen ext) 0) as [Hz0|Hz0].
  { assert (Hdn : dn = wire) by (apply (app_inj_zlen dn wire (x ++ y) more Hdx); lia).
    rewrite Hdn in Hr. destruct (decrypt_packet_ok s Hr) as (s' & E & Hd & Hsi).
    exists s', [], x. rewrite app_nil_r, Hsi. split_and!; try done; [lia|by right]. }
  rewrite (bind_ok _ _ _ (b_pos b) s).
  2: { apply (on_readbuf_look _ _ b); [done|].
       eapply (repr_getptr b _ ext [] room); [done|by rewrite app_nil_r]. }
  destruct (decide (x = [])) as [->|Hx].
  { destruct Hst as (bss & Hsi & Hne & Hcc & _). exists s, [], [].
    assert (bss = []) as -> by (destruct Hne as [|c l Hc]; [done|destruct c; done]).
    rewrite (bind_ok _ _ _ (RErr true) s) by (unfold sock_read; by rewrite Hsi).
    rewrite (app_nil_r dn). split_and!; try done.
    { exists []. done. } left. split; [lia|done]. }
  destruct (sock_read_ok s x (zlen ext) Hst Hx) as (got & si & x' & Er & Hst' & Hxx & Hg & Hgb); [lia|].
  rewrite (bind_ok _ _ _ _ _ Er). cbn [read_bytes]. set (s1 := set_s_sock_in si s).
  rewrite (proj2 (Z.eqb_neq (zlen got) 0)) by lia. rewrite (bind_ok _ _ _ tt s1) by reflexivity.
  destruct (repr_overwrite b _ ext room got Hrb Hgb) as (b1 & E1 & _ & Hb1); [lia|].
  rewrite (bind_ok _ _ _ _ _ (on_readbuf_ok _ s1 b _ _ Hb E1)). set (s2 := set_s_readbuf (Some b1) s1).
  destruct (repr_incrpos b1 _ got _ room (zlen got) eq_refl Hb1) as (b2 & E2 & Hb2).
  rewrite (bind_ok _ _ _ _ _ (on_readbuf_ok _ s2 b1 _ _ eq_refl E2)). set (s3 := set_s_readbuf (Some b2) s2).
  rewrite <-app_assoc, <-zdrop_app_le in Hb2 by lia.
  assert (Hr3 : reading s3 (dn ++ got)).
  { split; [done|]. right; right. rewrite zlen_app. split; [lia|]. split; [done|].
    exists b2, (zdrop (zlen got) ext), room. split_and!; [done|done|]. rewrite zlen_zdrop; lia. }
  destruct (Z.eqb_spec (zlen got) (zlen ext)) as [Heq|Hne]; unfold when.
  - assert (Hdn : dn ++ got = wire).
    { apply (app_inj_zlen (dn ++ got) wire (x' ++ y) more); [by rewrite <-Hdx, Hxx, <-!app_assoc|rewrite zlen_app; lia]. }
    rewrite Hdn in Hr3. destruct (decrypt_packet_ok s3 Hr3) as (s' & E & Hd & Hsi).
    exists s', got, x'. rewrite Hsi. split_and!; try done; [lia|by right].
  - exists s3, got, x'. split_and!; try done; [lia|]. left. split; [rewrite zlen_app; lia|done].
Qed.

(** A call of read_packet when the socket has data. *)
Lemma read_packet_ok s dn x y more :
  reading s dn -> stream (s_sock_in s) x -> x <> [] -> dn ++ x ++ y = wire ++ more -> zlen dn < zlen wire ->
  exists s' got x', read_packet fresh s = Ok (tt, s') /\ 0 < zlen got /\ x = got ++ x' /\
    stream (s_sock_in s') x' /\
    (zlen (dn ++ got) < zlen wire /\ reading s' (dn ++ got) /\ s_payload s' = s_payload s \/
     dn ++ got = wire /\ delivered s').
Proof.
  intros Hr Hst Hx Hdx Hlt. pose proof wire_size as Hws.
  destruct clear_size as ((Hmin & Hmax) & Hcl & Hbsc & Hbs & Hm).
  destruct (fl_key fl) as (Hkbs & _). assert (Hbsk : k_blocksize (s_recv s) = bs).
  { destruct Hr as [_ [(_ & _ & ->)|[(_ & -> & _)|(_ & -> & _)]]]; done. }
  unfold read_packet. rewrite (bind_ok _ _ _ (s_recv s) s) by reflexivity. rewrite Hbsk.
  rewrite (bind_ok _ _ _ (s_readbuf s) s) by reflexivity.
  set (cond := match s_readbuf s with None => true | Some b => b_len b <? bs end).
  destruct (Z.ltb_spec (zlen dn) bs) as [Hlo|Hhi].
  - assert (Hc : cond = true).
    { subst cond. destruct Hr as [_ [(_ & -> & _)|[(_ & _ & b & -> & Hb)|(? & _)]]]; [done| |lia].
      pose proof (br_len _ _ _ _ Hb) as Hl. change (zlen (@nil Z)) with 0 in Hl. apply Z.ltb_lt. lia. }
    rewrite Hc. destruct (read_packet_init_ok s dn x y more Hr Hlo Hst Hx Hdx)
      as (s1 & got & x1 & E1 & Hg & Hxx & Hst1 & Hr1 & Hle & Hp1). rewrite (bind_ok _ _ _ _ _ E1).
    destruct (Z.eqb_spec (zlen (dn ++ got)) bs) as [Heq|Hne]; cbn [negb].
    2: { exists s1, got, x1. split_and!; try done. left. split_and!; [lia|done|done]. }
    destruct (read_packet_rest_ok s1 (dn ++ got) x1 y more) as (s2 & got2 & x2 & E2 & _ & Hxx2 & Hst2 & Hr2);
      [done|lia|done|by rewrite <-Hdx, Hxx, <-!app_assoc|lia|].
    rewrite E2. exists s2, (got ++ got2), x2. rewrite zlen_app. pose proof (zlen_nonneg got2).
    rewrite <-Hp1, app_assoc. split_and!; [done|lia| |done|done]. by rewrite Hxx, Hxx2, app_assoc.
  - assert (Hc : cond = false).
    { subst cond. destruct Hr as [_ [(-> & _)|[(? & _)|(_ & _ & b & ext & room & -> & Hb & Hz)]]];
        [change (zlen (@nil Z)) with 0 in *; lia|lia|].
      pose proof (br_len _ _ _ _ Hb) as Hl. rewrite zlen_app, zlen_zdrop, zlen_ztake in Hl by lia.
      apply Z.ltb_ge. lia. }
    rewrite Hc. rewrite (bind_ok _ _ _ true s) by reflexivity. cbn [negb].
    destruct (read_packet_rest_ok s dn x y more Hr Hhi Hst Hdx) as (s2 & got2 & x2 & E2 & Hp & Hxx2 & Hst2 & Hr2); [lia|].
    exists s2, got2, x2. split_and!; try done. by apply Hp.
Qed.
End Receive.

(** ** Properties *)

(** C23: The MAC check decides integrity.  Whatever bytes readbuf holds,
    checkmac accepts them exactly when the tag at the end is the (truncated)
    HMAC, under the receive key, of the receive sequence number and all bytes
    before the tag; it reads nothing outside readbuf. *)
Theorem checkmac_decides {Q St H Zs R : Type} `{CipherMode St} `{HashLaws H} (s : sess Q St Zs R)
    (b : buffer) (pre post clear tag : list Z) (room : Z) :
  wf_mac (s_recv s) -> s_readbuf s = Some b -> buf_repr b pre post room -> pre ++ post = clear ++ tag ->
  zlen tag = k_mac_hashsize (s_recv s) ->
  exists r s', checkmac s = Ok (r, s') /\
    (r = true <-> tag = mac_of (s_recv s) (s_recvseq s) clear).
Proof.
  intros Hwf Hb Hr Heq Hz.
  destruct (checkmac_spec s b pre post clear tag room Hwf Hb Hr Heq Hz) as (r & b' & E & _ & Hiff).
  by exists r, (set_s_readbuf (Some b') s).
Qed.

Lemma checkmac_decides_witness :
  let s := set_s_readbuf (Some (mkbuf [5; 6; 7; 1; 2; 3; 4] 7 0 7)) toy_sess in
  exists r s', checkmac s = Ok (r, s') /\
    (r = true <-> [1; 2; 3; 4] = mac_of toy_keys 3 [5; 6; 7]).
Proof.
  apply (checkmac_decides (set_s_readbuf (Some (mkbuf [5; 6; 7; 1; 2; 3; 4] 7 0 7)) toy_sess)
    (mkbuf [5; 6; 7; 1; 2; 3; 4] 7 0 7) [] [5; 6; 7; 1; 2; 3; 4] [5; 6; 7] [1; 2; 3; 4] 0).
  - apply toy_wf_key.
  - reflexivity.
  - split; try done; [|repeat constructor; done]. by exists [].
  - reflexivity.
  - by vm_compute.
Defined.
