(* ===== verification/Transport.v ===== *)
(** Two connected sessions: what one side sends with encrypt_packet and
    write_packet, the other side receives with read_packet, however the
    socket cuts the stream of bytes into pieces. *)

From S2P Require Import Prelude Dbutil Buffer Queue Cipher Hmac Ssh Packet PacketRecv.
From stdpp Require Import gmap.

Local Open Scope Z_scope.
Local Open Scope prog_scope.

(** ** The two sessions as a program *)

(** A payload as a caller leaves it in [ses.writepayload]. *)
Definition payload_buffer (payload : list Z) : buffer :=
  mkbuf payload (zlen payload) (zlen payload) (zlen payload).

(** What can happen: the sender's caller sends a payload; the sender's socket
    takes up to [n] bytes; [n] of the bytes on the way arrive as one piece;
    the receiver's main loop reads. *)
Inductive net_event := NSend (payload : list Z) | NWrite (n : Z) | NArrive (n : Z) | NRead.

Record net (Q St Zs R : Type) := mknet {
  n_tx : sess Q St Zs R; n_rx : sess Q St Zs R; n_arrived : Z; n_inbox : list (list Z) }.
Arguments mknet {Q St Zs R}.
Arguments n_tx {Q St Zs R}.
Arguments n_rx {Q St Zs R}.
Arguments n_arrived {Q St Zs R}.
Arguments n_inbox {Q St Zs R}.

Section Net.
Context {Q St H Zs R : Type} `{QueueOps Q positive} `{CipherMode St} `{HashDescriptors H}
        `{Zlib Zs} `{Random R}.
Abbreviation sess := (sess Q St Zs R).
Abbreviation net := (net Q St Zs R).

(** The payload read_packet has left, which process_packet takes. *)
Definition collect (s : sess) : list (list Z) * sess :=
  match s_payload s with
  | None => ([], s)
  | Some b => ([ztake (b_len b) (b_data b)], set_s_payload None s)
  end.

(** An event that is not possible in the state does nothing: the main loop
    calls write_packet only with packets in the queue, and read_packet only
    when the socket is readable. *)
Definition net_step (fresh : Z -> Z) (e : net_event) : prog net unit := fun n =>
  match e with
  | NSend payload =>
      match encrypt_packet fresh (set_s_writepayload (payload_buffer payload) (n_tx n)) with
      | Ok (_, tx) => Ok (tt, mknet tx (n_rx n) (n_arrived n) (n_inbox n))
      | Exit m => Exit m
      | Fault m => Fault m
      end
  | NWrite k =>
      if q_isempty (s_writequeue (n_tx n)) then Ok (tt, n)
      else
        match write_packet (set_s_sock_out [WBytes (Z.max 1 k)] (n_tx n)) with
        | Ok (_, tx) => Ok (tt, mknet tx (n_rx n) (n_arrived n) (n_inbox n))
        | Exit m => Exit m
        | Fault m => Fault m
        end
  | NArrive k =>
      let bs := ztake (Z.max 1 k) (zdrop (n_arrived n) (s_sent (n_tx n))) in
      if zlen bs =? 0 then Ok (tt, n)
      else Ok (tt, mknet (n_tx n) (set_s_sock_in (s_sock_in (n_rx n) ++ [RBytes bs]) (n_rx n))
                         (n_arrived n + zlen bs) (n_inbox n))
  | NRead =>
      match s_sock_in (n_rx n) with
      | [] => Ok (tt, n)
      | _ =>
        match read_packet fresh (n_rx n) with
        | Ok (_, rx) =>
            let '(l, rx) := collect rx in Ok (tt, mknet (n_tx n) rx (n_arrived n) (n_inbox n ++ l))
        | Exit m => Exit m
        | Fault m => Fault m
        end
      end
  end.

Fixpoint net_run (fresh : Z -> Z) (es : list net_event) : prog net unit :=
  match es with
  | [] => ret tt
  | e :: es => net_step fresh e ;;; net_run fresh es
  end.
End Net.

Definition payloads_of (es : list net_event) : list (list Z) :=
  flat_map (fun e => match e with NSend p => [p] | _ => [] end) es.

(** ** The invariant *)

Section Channel.
Context {Q St H Zs R : Type} (bs : Z) `{QueueLaws Q positive} `{CipherModeLaws St bs} `{HashLaws H}
        `{Zlib Zs} `{RandomLaws R}.
Abbreviation sess := (sess Q St Zs R).
Abbreviation net := (net Q St Zs R).
Implicit Types (kt k : key_ctx St Zs) (n : net).

(** The packets between the sender at [kt] and [sq] and a receiver that is at
    [k] and [seq]. *)
Inductive pipeline (kt : key_ctx St Zs) (sq : Z) : key_ctx St Zs -> Z -> list (list Z) -> list Z -> Prop :=
| pipe_nil k seq :
    wf_key bs k -> (forall c p, mac_of k c p = mac_of kt c p) ->
    cm_sync (blocksize := bs) (k_cipher_state kt) (k_cipher_state k) -> sq = seq ->
    pipeline kt sq k seq [] []
| pipe_cons k seq payload pad ct r1 r2 ps w :
    in_flight bs k payload pad ct r1 r2 ->
    pipeline kt sq (set_cipher_state r2 k) (u32 (seq + 1)) ps w ->
    pipeline kt sq k seq (payload :: ps) ((ct ++ mac_of k seq (clear_packet payload pad)) ++ w).

(** The payloads still to be delivered by the receiver [rx], from the bytes
    it still has to read. *)
Inductive channel (kt : key_ctx St Zs) (sq : Z) (rx : sess) : list (list Z) -> list Z -> Prop :=
| ch_idle ps w :
    s_readbuf rx = None -> pipeline kt sq (s_recv rx) (s_recvseq rx) ps w -> channel kt sq rx ps w
| ch_partial k seq payload pad ct r1 r2 ps w dn x :
    in_flight bs k payload pad ct r1 r2 ->
    reading bs k seq payload pad ct r1 rx dn ->
    zlen dn < zlen (ct ++ mac_of k seq (clear_packet payload pad)) ->
    dn ++ x = (ct ++ mac_of k seq (clear_packet payload pad)) ++ w ->
    pipeline kt sq (set_cipher_state r2 k) (u32 (seq + 1)) ps w ->
    channel kt sq rx (payload :: ps) x.

(** The decryption of what was encrypted, cut behind the first block. *)
Lemma new_in_flight kt k payload pad ct st :
  wf_key bs k -> cm_sync (blocksize := bs) (k_cipher_state kt) (k_cipher_state k) ->
  bytes payload -> 1 <= zlen payload <= RECV_MAX_PAYLOAD_LEN -> padded bs payload pad ->
  cm_encrypt (clear_packet payload pad) (k_cipher_state kt) = Some (ct, st) ->
  exists r1 r2, in_flight bs k payload pad ct r1 r2 /\ cm_sync (blocksize := bs) st r2.
Proof.
  intros Hk Hs Hpb Hp Hpad E. pose proof Hk as (_ & Hbs & _).
  pose proof Hpad as (Hb & Hpz & Hm & Hmin). pose proof (clear_bytes payload pad Hpb Hb ltac:(lia)) as Hcb.
  destruct (cm_stream bs ltac:(lia) (clear_packet payload pad) _ _ Hs Hm Hcb)
    as (ct' & st' & r' & E' & _ & _ & Hcl & Hctb).
  rewrite E in E'. injection E' as <- <-. unfold MIN_PACKET_LEN in *.
  assert (Hz1 : zlen (ztake bs ct) = bs) by (apply zlen_ztake; lia).
  destruct (cm_split bs ltac:(lia) (clear_packet payload pad) _ _ ct st (ztake bs ct) (zdrop bs ct) Hs Hm Hcb E)
    as (s1 & r1 & D1 & Hs1 & E1 & Hm1); [by rewrite ztake_zdrop|rewrite Hz1; apply Z.mod_same; lia|].
  rewrite Hz1 in *.
  destruct (cm_stream bs ltac:(lia) (zdrop bs (clear_packet payload pad)) _ _ Hs1 Hm1)
    as (ct2 & st2 & r2 & E2 & D2 & Hs2 & _); [by apply Forall_zdrop|].
  rewrite E1 in E2. injection E2 as <- <-. exists r1, r2. by split.
Qed.

Lemma pipeline_snoc kt sq k seq ps w payload pad ct st :
  pipeline kt sq k seq ps w ->
  bytes payload -> 1 <= zlen payload <= RECV_MAX_PAYLOAD_LEN -> padded bs payload pad ->
  cm_encrypt (clear_packet payload pad) (k_cipher_state kt) = Some (ct, st) ->
  pipeline (set_cipher_state st kt) (u32 (sq + 1)) k seq (ps ++ [payload])
    (w ++ ct ++ mac_of kt sq (clear_packet payload pad)).
Proof.
  intros Hp Hpb Hpl Hpad E. induction Hp as [k seq Hk Hmac Hs Heq|k seq pl pd c r1 r2 ps w Hf _ IH].
  - destruct (new_in_flight kt k payload pad ct st Hk Hs Hpb Hpl Hpad E) as (r1 & r2 & Hf & Hs2).
    rewrite <-Hmac, Heq. cbn [app]. rewrite <-(app_nil_r (ct ++ _)).
    apply (pipe_cons _ _ k seq payload pad ct r1 r2 [] []); [done|]. by apply pipe_nil.
  - rewrite <-app_assoc. cbn [app]. by apply (pipe_cons _ _ k seq pl pd c r1 r2).
Qed.

Lemma channel_snoc kt sq rx ps x payload pad ct st :
  channel kt sq rx ps x ->
  bytes payload -> 1 <= zlen payload <= RECV_MAX_PAYLOAD_LEN -> padded bs payload pad ->
  cm_encrypt (clear_packet payload pad) (k_cipher_state kt) = Some (ct, st) ->
  channel (set_cipher_state st kt) (u32 (sq + 1)) rx (ps ++ [payload])
    (x ++ ct ++ mac_of kt sq (clear_packet payload pad)).
Proof.
  intros [ps' w Hn Hp|k seq pl pd c r1 r2 ps' w dn x' Hf Hr Hlt Heq Hp] Hpb Hpl Hpad E.
  - apply ch_idle; [done|]. by apply pipeline_snoc.
  - cbn [app]. eapply (ch_partial _ _ _ k seq pl pd c r1 r2 _ (w ++ ct ++ _) dn); [done|done|done| |].
    + by rewrite app_assoc, Heq, <-app_assoc.
    + by apply pipeline_snoc.
Qed.

(** With nothing left to deliver there is nothing left to read. *)
Lemma channel_nil kt sq rx x : channel kt sq rx [] x -> x = [].
Proof. inversion 1 as [? ? _ Hp|]; subst. by inversion Hp. Qed.

Lemma channel_empty kt sq rx ps : channel kt sq rx ps [] -> ps = [].
Proof.
  inversion 1 as [? ? _ Hp|k seq pl pd c r1 r2 ps' w dn x' Hf Hr Hlt Heq Hp]; subst.
  - inversion Hp as [|? ? pl pd c r1 r2 ps' w Hf _ Hk Hs Hps E]; [done|]. subst.
    destruct (clear_size _ _ _ _ _ _ _ Hf) as ((? & _) & _). pose proof (fl_len _ _ _ _ _ _ _ Hf) as Hl.
    apply app_nil in E as [E _]. apply app_nil in E as [-> _].
    change (zlen (@nil Z)) with 0 in Hl. unfold MIN_PACKET_LEN in *. lia.
  - apply (f_equal zlen) in Heq. rewrite !zlen_app in Heq. change (zlen (@nil Z)) with 0 in Heq.
    rewrite zlen_app in Hlt. pose proof (zlen_nonneg w). lia.
Qed.

Lemma pipeline_facts kt sq k seq ps w :
  pipeline kt sq k seq ps w -> bytes w /\ exists r, cm_sync (blocksize := bs) (k_cipher_state kt) r.
Proof.
  intros Hp. induction Hp as [k seq Hk Hmac Hs Heq|k seq pl pd c r1 r2 ps w Hf _ [IHb IHs]]; [by eauto|].
  split; [|done]. repeat apply Forall_app_2; [apply Hf|by apply (tag_size bs k seq pl pd c r1 r2)|done].
Qed.

Lemma channel_facts kt sq rx ps x :
  channel kt sq rx ps x -> bytes x /\ exists r, cm_sync (blocksize := bs) (k_cipher_state kt) r.
Proof.
  intros [ps' w Hn Hp|k seq pl pd c r1 r2 ps' w dn x' Hf Hr Hlt Heq Hp]; apply pipeline_facts in Hp as [Hb Hs];
    [done|]. split; [|done].
  assert (Hall : bytes (dn ++ x')); [|by apply Forall_app in Hall as [_ ?]].
  rewrite Heq. repeat apply Forall_app_2; [apply Hf|by apply (tag_size bs k seq pl pd c r1 r2)|done].
Qed.

(** What read_packet makes of a channel: the receiver has read [got] more
    bytes, and with the last byte of a packet it has its payload. *)
Lemma channel_read fresh kt sq rx ps x y :
  channel kt sq rx ps (x ++ y) -> s_payload rx = None -> stream (s_sock_in rx) x -> x <> [] ->
  exists rx' x', read_packet fresh rx = Ok (tt, rx') /\ stream (s_sock_in rx') x' /\ zlen x' < zlen x /\
    let '(l, rx2) := collect rx' in
    s_payload rx2 = None /\ s_sock_in rx2 = s_sock_in rx' /\
    exists ps', ps = l ++ ps' /\ channel kt sq rx2 ps' (x' ++ y).
Proof.
  intros Hc Hpay Hst Hx.
  assert (Hfirst : exists k seq payload pad ct r1 r2 ps2 w dn, ps = payload :: ps2 /\
    in_flight bs k payload pad ct r1 r2 /\ reading bs k seq payload pad ct r1 rx dn /\
    zlen dn < zlen (ct ++ mac_of k seq (clear_packet payload pad)) /\
    dn ++ x ++ y = (ct ++ mac_of k seq (clear_packet payload pad)) ++ w /\
    pipeline kt sq (set_cipher_state r2 k) (u32 (seq + 1)) ps2 w).
  { inversion Hc as [ps' w Hn Hp|k seq pl pd c r1 r2 ps' w dn x' Hf Hr Hlt Heq Hp]; subst;
      [|by exists k, seq, pl, pd, c, r1, r2, ps', w, dn].
    inversion Hp as [k0 seq0 _ _ _ _ Hk0 Hs0 Hps Hw|k seq pl pd c r1 r2 ps' w' Hf Hp' Hk Hs Hps Hw].
    { symmetry in Hw. by apply app_nil in Hw as [-> _]. }
    exists (s_recv rx), (s_recvseq rx), pl, pd, c, r1, r2, ps', w', []. split_and!; try done.
    - split; [done|]. by left.
    - destruct (clear_size _ _ _ _ _ _ _ Hf) as ((? & _) & _). rewrite zlen_app.
      pose proof (zlen_nonneg (mac_of (s_recv rx) (s_recvseq rx) (clear_packet pl pd))).
      rewrite (fl_len _ _ _ _ _ _ _ Hf). unfold MIN_PACKET_LEN in *. change (zlen (@nil Z)) with 0. lia. }
  destruct Hfirst as (k & seq & pl & pd & c & r1 & r2 & ps2 & w & dn & -> & Hf & Hr & Hlt & Heq & Hp).
  destruct (read_packet_ok bs k seq pl pd c r1 r2 fresh Hf rx dn x y w Hr Hst Hx Heq Hlt)
    as (rx' & got & x' & E & Hg & Hxx & Hst' & Hres).
  exists rx', x'. split_and!; [done|done|rewrite Hxx, zlen_app; lia|]. unfold collect.
  assert (Heq' : (dn ++ got) ++ x' ++ y = (c ++ mac_of k seq (clear_packet pl pd)) ++ w)
    by (rewrite <-Heq, Hxx, <-!app_assoc; done).
  destruct Hres as [(Hlt' & Hr' & Hpay')|(Hdn & Hnone & Hk' & Hseq' & pb & room & Hpay' & Hpb)].
  - rewrite Hpay', Hpay. split_and!; [congruence|done|]. exists (pl :: ps2). split; [done|].
    by eapply (ch_partial _ _ _ k seq pl pd c r1 r2 ps2 w (dn ++ got)).
  - rewrite Hpay'. split_and!; [done|done|]. exists ps2. split.
    + destruct (br_data _ _ _ _ Hpb) as (rest & Hd & _). pose proof (br_len _ _ _ _ Hpb) as Hl.
      change (zlen (@nil Z)) with 0 in Hl. rewrite Z.add_0_l in Hl. rewrite Hd, Hl. cbn [app].
      by rewrite ztake_app_zlen.
    + rewrite Hdn in Heq'. apply app_inv_head in Heq' as ->. apply ch_idle; [done|]. cbn.
      by rewrite Hk', Hseq'.
Qed.

(** ** Runs *)

(** The payloads [all] have been sent; [a], [b] and [c] bytes are still in the
    write queue, on the way, and in the receiver's socket. *)
Definition net_ok (all : list (list Z)) (a b c : Z) n : Prop :=
  let tx := n_tx n in let rx := n_rx n in
  exists ls pend ps x,
    queue_ok tx ls pend /\ zlen ls <= zlen all /\ s_dataallowed tx = true /\ wf_key bs (s_trans tx) /\
    all = n_inbox n ++ ps /\ 0 <= n_arrived n <= zlen (s_sent tx) /\
    stream (s_sock_in rx) x /\ s_payload rx = None /\
    channel (s_trans tx) (s_transseq tx) rx ps (x ++ zdrop (n_arrived n) (s_sent tx) ++ concat pend) /\
    a = zlen (concat pend) /\ b = zlen (s_sent tx) - n_arrived n /\ c = zlen x.

Lemma net_send fresh all a b c n payload :
  net_ok all a b c n -> bytes payload -> 1 <= zlen payload <= RECV_MAX_PAYLOAD_LEN -> zlen all + 1 < 2 ^ 32 ->
  exists a' n', net_step fresh (NSend payload) n = Ok (tt, n') /\ net_ok (all ++ [payload]) a' b c n'.
Proof.
  intros (ls & pend & ps & x & Hq & Hls & Hda & Hk & Hall & Har & Hst & Hpay & Hc & -> & -> & ->) Hpb Hpl Hn.
  destruct (channel_facts _ _ _ _ _ Hc) as [_ [rcv Hs]]. set (tx := n_tx n) in *.
  destruct payload as [|t rest]; [change (zlen (@nil Z)) with 0 in Hpl; lia|]. set (payload := t :: rest) in *.
  set (tx1 := set_s_writepayload (payload_buffer payload) tx).
  assert (Hw : buf_repr (s_writepayload tx1) payload [] 0).
  { split; cbn; rewrite ?Z.add_0_r; try done; [|unfold BUF_MAX_SIZE, RECV_MAX_PAYLOAD_LEN in *; lia].
    exists []. by rewrite app_nil_r. }
  destruct (encrypt_packet_ok bs fresh tx1 rcv ls pend payload t rest payload [] 0)
    as (tx' & E & pad & ct & st & p & room & Hpad & Ec & Htr & Hq' & Hseq & _ & _ & _ & Hsent & _ & Hda');
    [exact Hq|lia|done|by rewrite app_nil_r|done|unfold RECV_MAX_PAYLOAD_LEN in *; lia|by left|done|done|].
  eexists _, (mknet tx' (n_rx n) (n_arrived n) (n_inbox n)).
  split; [cbn [net_step]; fold tx tx1; by rewrite E|].
  exists (ls ++ [p]), (pend ++ [ct ++ mac_of (s_trans tx) (s_transseq tx) (clear_packet payload pad)]), (ps ++ [payload]), x.
  cbn [n_tx n_rx n_arrived n_inbox]. rewrite Hsent, Htr, Hseq, Hda'. change (s_sent tx1) with (s_sent tx).
  split_and!; try done.
  - rewrite !zlen_app. change (zlen [p]) with 1. change (zlen [payload]) with 1. lia.
  - by rewrite Hall, <-app_assoc.
  - lia.
  - lia.
  - pose proof (channel_snoc _ _ _ _ _ payload pad ct st Hc Hpb Hpl Hpad Ec) as Hc'.
    rewrite concat_app. cbn [concat]. rewrite app_nil_r. by rewrite <-!app_assoc in *.
Qed.

Lemma net_write fresh all a b c (k : Z) n :
  net_ok all a b c n ->
  exists a' b' n', net_step fresh (NWrite k) n = Ok (tt, n') /\ net_ok all a' b' c n' /\
    a' + b' = a + b /\ a' <= a /\ (0 < a -> a' < a).
Proof.
  intros (ls & pend & ps & x & Hq & Hls & Hda & Hk & Hall & Har & Hst & Hpay & Hc & -> & -> & ->).
  cbn [net_step]. set (tx := n_tx n) in *. rewrite (q_isempty_spec _ _ (proj1 Hq)).
  destruct (bool_decide_reflect (ls = [])) as [->|Hne].
  { destruct Hq as (Hq & Hnd & Hf). inversion Hf; subst pend. exists 0. eexists _, n. split; [done|].
    change (zlen (concat [])) with 0. split_and!; [|reflexivity|lia|lia].
    by exists [], [], ps, x. }
  set (tx1 := set_s_sock_out [WBytes (Z.max 1 k)] tx).
  destruct (write_packet_ok tx1 ls pend (Z.max 1 k) [] Hq Hne eq_refl ltac:(lia))
    as (tx' & ls' & pend' & E & Hq' & Hsum & Hpend & Htr & Hseq & _ & _ & Hda' & Hll).
  rewrite E. change (s_sent tx1) with (s_sent tx) in Hsum.
  set (m := Z.min (Z.max 1 k) (zlen (concat pend))) in *. pose proof (zlen_nonneg (concat pend)).
  assert (Hz : zlen (concat pend') = zlen (concat pend) - m) by (rewrite Hpend, zlen_zdrop; lia).
  pose proof (f_equal zlen Hsum) as Hzs. rewrite !zlen_app, Hz in Hzs.
  eexists (zlen (concat pend')), (zlen (s_sent tx') - n_arrived n), _. split; [reflexivity|]. split_and!; [|lia|lia|lia].
  exists ls', pend', ps, x. cbn [n_tx n_rx n_arrived n_inbox]. rewrite Htr, Hseq, Hda'.
  split_and!; try done; [unfold zlen in *; lia|lia|lia|].
  rewrite <-zdrop_app_le, Hsum, zdrop_app_le by lia. done.
Qed.

Lemma net_arrive fresh all a b c (k : Z) n :
  net_ok all a b c n ->
  exists b' c' n', net_step fresh (NArrive k) n = Ok (tt, n') /\ net_ok all a b' c' n' /\
    b' + c' = b + c /\ b' <= b /\ (0 < b -> b' < b).
Proof.
  intros (ls & pend & ps & x & Hq & Hls & Hda & Hk & Hall & Har & Hst & Hpay & Hc & -> & -> & ->).
  cbn [net_step]. set (tx := n_tx n) in *. set (d := zdrop (n_arrived n) (s_sent tx)) in *.
  assert (Hd : zlen d = zlen (s_sent tx) - n_arrived n) by (apply zlen_zdrop; lia).
  set (got := ztake (Z.max 1 k) d).
  assert (Hg : zlen got = Z.min (Z.max 1 k) (zlen d)) by (unfold got, zlen, ztake; rewrite length_take; lia).
  destruct (Z.eqb_spec (zlen got) 0) as [Hz|Hz].
  { eexists _, _, n. split; [done|]. split_and!; [|reflexivity|lia|lia].
    by exists ls, pend, ps, x. }
  destruct (channel_facts _ _ _ _ _ Hc) as [Hb _]. apply Forall_app in Hb as [_ Hb]. apply Forall_app in Hb as [Hb _].
  eexists _, (zlen (x ++ got)), _. split; [reflexivity|].
  split_and!; [|rewrite zlen_app; reflexivity || (instantiate (1 := zlen (s_sent tx) - (n_arrived n + zlen got)); lia)|lia|lia].
  exists ls, pend, ps, (x ++ got). cbn [n_tx n_rx n_arrived n_inbox]. split_and!; try done; try lia.
  - destruct Hst as (bss & -> & Hne & <- & Hxb). exists (bss ++ [got]). split_and!.
    + by rewrite map_app.
    + apply Forall_app. split; [done|]. constructor; [|done]. by intros ->.
    + rewrite concat_app. cbn [concat]. by rewrite app_nil_r.
    + apply Forall_app. split; [done|]. by apply Forall_ztake.
  - rewrite <-app_assoc, (app_assoc got).
    replace (got ++ zdrop (n_arrived n + zlen got) (s_sent tx)) with d; [|
      rewrite Z.add_comm, <-zdrop_zdrop by lia; fold d; rewrite <-(ztake_zdrop (zlen got) d) at 1; f_equal;
      unfold got at 2; rewrite <-(ztake_ztake _ (Z.max 1 k)) by lia; fold got; by rewrite ztake_all].
    inversion Hc; subst; [by apply ch_idle|]. by eapply ch_partial.
Qed.

Lemma net_read fresh all a b c n :
  net_ok all a b c n ->
  exists c' n', net_step fresh NRead n = Ok (tt, n') /\ net_ok all a b c' n' /\ c' <= c /\ (0 < c -> c' < c).
Proof.
  intros (ls & pend & ps & x & Hq & Hls & Hda & Hk & Hall & Har & Hst & Hpay & Hc & -> & -> & ->).
  cbn [net_step]. destruct (s_sock_in (n_rx n)) as [|e l] eqn:Hsi.
  { exists (zlen x), n. split; [done|]. split_and!; [|lia|].
    - exists ls, pend, ps, x. by rewrite Hsi.
    - destruct Hst as (bss & Hm & _ & <- & _). destruct bss; [|done]. change (zlen (concat [])) with 0. lia. }
  assert (Hx : x <> []).
  { destruct Hst as (bss & Hm & Hne & <- & _). destruct Hne as [|? ? Hb]; [done|]. cbn.
    intros E. by apply app_nil in E as [-> _]. }
  rewrite <-Hsi in Hst.
  destruct (channel_read fresh _ _ _ _ _ _ Hc Hpay Hst Hx) as (rx' & x' & E & Hst' & Hlt & Hcol).
  rewrite E. destruct (collect rx') as [l' rx2]. destruct Hcol as (Hpay2 & Hsi2 & ps' & Hps & Hc').
  exists (zlen x'). eexists. split; [reflexivity|]. split_and!; [|lia|lia].
  exists ls, pend, ps', x'. cbn [n_tx n_rx n_arrived n_inbox]. rewrite Hsi2.
  split_and!; try done; try lia. by rewrite Hall, Hps, app_assoc.
Qed.

Lemma net_step_ok fresh e all a b c n :
  net_ok all a b c n ->
  match e with
  | NSend p => bytes p /\ 1 <= zlen p <= RECV_MAX_PAYLOAD_LEN
  | _ => True
  end -> zlen all + 1 < 2 ^ 32 ->
  exists a' b' c' n', net_step fresh e n = Ok (tt, n') /\ net_ok (all ++ payloads_of [e]) a' b' c' n'.
Proof.
  intros Hn He Hlen. destruct e as [p|k|k|]; cbn [payloads_of flat_map app]; rewrite ?app_nil_r.
  - destruct He as [Hb Hp]. destruct (net_send fresh all a b c n p Hn Hb Hp Hlen) as (a' & n' & E & Hn'); eauto 10.
  - destruct (net_write fresh all a b c k n Hn) as (a' & b' & n' & E & Hn' & _); eauto 10.
  - destruct (net_arrive fresh all a b c k n Hn) as (b' & c' & n' & E & Hn' & _); eauto 10.
  - destruct (net_read fresh all a b c n Hn) as (c' & n' & E & Hn' & _); eauto 10.
Qed.

Definition good_payloads (l : list (list Z)) : Prop :=
  Forall (fun p => bytes p /\ 1 <= zlen p <= RECV_MAX_PAYLOAD_LEN) l.

Lemma net_run_ok fresh es all a b c n :
  net_ok all a b c n -> good_payloads (payloads_of es) -> zlen all + zlen (payloads_of es) + 1 < 2 ^ 32 ->
  exists a' b' c' n', net_run fresh es n = Ok (tt, n') /\ net_ok (all ++ payloads_of es) a' b' c' n'.
Proof.
  revert all a b c n. induction es as [|e es IH]; intros all a b c n Hn Hg Hlen.
  - exists a, b, c, n. cbn. by rewrite app_nil_r.
  - replace (payloads_of (e :: es)) with (payloads_of [e] ++ payloads_of es) in *
      by (destruct e; done).
    apply Forall_app in Hg as [Hg1 Hg2]. rewrite zlen_app in Hlen.
    pose proof (zlen_nonneg (payloads_of [e])). pose proof (zlen_nonneg (payloads_of es)).
    destruct (net_step_ok fresh e all a b c n Hn) as (a1 & b1 & c1 & n1 & E1 & Hn1).
    { destruct e; try done. by apply Forall_cons_1 in Hg1 as [? _]. }
    { lia. }
    destruct (IH _ _ _ _ _ Hn1 Hg2) as (a2 & b2 & c2 & n2 & E2 & Hn2); [rewrite zlen_app; lia|].
    exists a2, b2, c2, n2. cbn [net_run]. rewrite (bind_ok _ _ _ _ _ E1), app_assoc. done.
Qed.

(** The main loops of both sides running on, with the smallest pieces. *)
Definition one_round : list net_event := [NWrite 1; NArrive 1; NRead].
Fixpoint rounds (m : nat) : list net_event :=
  match m with O => [] | S m => one_round ++ rounds m end.

Lemma one_round_ok fresh all a b c n :
  net_ok all a b c n -> 0 < 3 * a + 2 * b + c ->
  exists a' b' c' n', net_run fresh one_round n = Ok (tt, n') /\ net_ok all a' b' c' n' /\
    3 * a' + 2 * b' + c' < 3 * a + 2 * b + c.
Proof.
  intros Hn Hm.
  destruct (net_write fresh all a b c 1 n Hn) as (a1 & b1 & n1 & E1 & Hn1 & ? & ? & ?).
  destruct (net_arrive fresh all a1 b1 c 1 n1 Hn1) as (b2 & c2 & n2 & E2 & Hn2 & ? & ? & ?).
  destruct (net_read fresh all a1 b2 c2 n2 Hn2) as (c3 & n3 & E3 & Hn3 & ? & ?).
  exists a1, b2, c3, n3. unfold one_round. cbn [net_run].
  rewrite (bind_ok _ _ _ _ _ E1), (bind_ok _ _ _ _ _ E2), (bind_ok _ _ _ _ _ E3). split_and!; [done|done|].
  assert (0 <= a /\ 0 <= b /\ 0 <= c).
  { destruct Hn as (? & ? & ? & ? & _ & _ & _ & _ & _ & ? & _ & _ & _ & -> & -> & ->).
    split_and!; try apply zlen_nonneg; lia. }
  lia.
Qed.

Lemma net_run_app fresh es1 es2 n n1 :
  net_run fresh es1 n = Ok (tt, n1) -> net_run fresh (es1 ++ es2) n = net_run fresh es2 n1.
Proof.
  revert n. induction es1 as [|e es1 IH]; intros n E; [by injection E as ->|].
  cbn [net_run app] in *. apply bind_inv in E as ([] & n2 & E1 & E2).
  rewrite (bind_ok _ _ _ _ _ E1). by apply IH.
Qed.

(** After enough rounds everything has been delivered. *)
Lemma rounds_ok fresh all a b c n :
  net_ok all a b c n -> exists m n', net_run fresh (rounds m) n = Ok (tt, n') /\ n_inbox n' = all.
Proof.
  remember (Z.to_nat (3 * a + 2 * b + c)) as k eqn:Hk. assert (Hle : 3 * a + 2 * b + c <= Z.of_nat k) by lia.
  clear Hk. revert a b c n Hle. induction k as [|k IH]; intros a b c n Hle Hn.
  - exists O, n. split; [done|].
    destruct Hn as (ls & pend & ps & x & _ & _ & _ & _ & Hall & ? & _ & _ & Hc & -> & -> & ->).
    pose proof (zlen_nonneg (concat pend)). pose proof (zlen_nonneg x).
    rewrite (zlen_zero_inv (concat pend)) in Hc by lia. rewrite (zlen_zero_inv x) in Hc by lia.
    replace (n_arrived n) with (zlen (s_sent (n_tx n))) in Hc by lia. rewrite zdrop_all in Hc.
    apply channel_empty in Hc as ->. by rewrite app_nil_r in Hall.
  - destruct (Z.le_gt_cases (3 * a + 2 * b + c) (Z.of_nat k)) as [Hk|Hk]; [by apply (IH a b c)|].
    destruct (one_round_ok fresh all a b c n Hn) as (a' & b' & c' & n1 & E1 & Hn1 & Hlt); [lia|].
    destruct (IH a' b' c' n1) as (m & n' & E2 & Hin); [lia|done|].
    exists (S m), n'. split; [|done]. cbn [rounds]. by rewrite (net_run_app _ _ _ _ _ E1).
Qed.

(** Two sessions that have just agreed on keys. *)
Record connected (tx rx : sess) : Prop := {
  cn_queue : queue_ok tx [] [];
  cn_allowed : s_dataallowed tx = true;
  cn_tx_key : wf_key bs (s_trans tx);
  cn_rx_key : wf_key bs (s_recv rx);
  cn_mac : k_hash_index (s_recv rx) = k_hash_index (s_trans tx) /\
           k_mac_keysize (s_recv rx) = k_mac_keysize (s_trans tx) /\
           k_mac_hashsize (s_recv rx) = k_mac_hashsize (s_trans tx) /\
           k_mackey (s_recv rx) = k_mackey (s_trans tx);
  cn_cipher : cm_sync (blocksize := bs) (k_cipher_state (s_trans tx)) (k_cipher_state (s_recv rx));
  cn_seq : s_transseq tx = s_recvseq rx;
  cn_start : s_sent tx = [] /\ s_sock_in rx = [] /\ s_readbuf rx = None /\ s_payload rx = None }.

Lemma connected_ok tx rx : connected tx rx -> net_ok [] 0 0 0 (mknet tx rx 0 []).
Proof.
  intros [Hq Ha Hk Hk' (Hm1 & Hm2 & Hm3 & Hm4) Hc Hs (Hs1 & Hs2 & Hs3 & Hs4)].
  exists [], [], [], []. cbn [n_tx n_rx n_arrived n_inbox]. rewrite Hs1.
  split_and!; try done.
  - by exists [].
  - apply ch_idle; [done|]. cbn. apply pipe_nil; try done.
    intros sq p. unfold mac_of. by rewrite Hm1, Hm2, Hm3, Hm4.
Qed.
End Channel.

(** ** Concrete sessions *)

Lemma toy_connected : connected 8 toy_sess toy_sess.
Proof.
  split; try exact toy_wf_key; try done.
  - split_and!; [exact queue_repr_init|constructor|constructor].
  - cbn. split; [done|]. split_and!; try done; repeat constructor; done.
Qed.

(** ** Properties *)



(** The whole run, evaluated. *)
Example toy_run :
  match net_run (fun _ => 0) ([NSend [94; 1; 2]; NSend [95]] ++ rounds 80) (mknet toy_sess toy_sess 0 []) with
  | Ok (_, n) => n_inbox n
  | _ => []
  end = [[94; 1; 2]; [95]].
Proof. by vm_compute. Qed.
