(* ===== verification/Channel.v ===== *)
(** Model of dropbear's common-channel.c: the table of multiplexed channels,
    opening and closing them, moving data between the wire and local file
    descriptors, and the window accounting.  One definition per C function.

    A [struct Channel *] is the index of the channel's slot in
    [ses.channels]; following it after the channel is removed is a fault.  The
    handlers of a channel type are functions on the session, as the function
    pointers of [struct ChanType] are; [typedata] and what else they keep is
    [cs_private].  [encrypt_packet] is what packet.c's function does for its
    callers: it takes the payload and empties [ses.writepayload]
    (Packet.encrypt_packet_ok, Packet.encrypt_packet_gated). *)

From S2P Require Import Prelude Dbutil Buffer CircBuffer Queue Cipher Hmac Ssh Packet.

Local Open Scope Z_scope.
Local Open Scope prog_scope.

Definition SSH_OPEN_CONNECT_FAILED : Z := 2.
Definition SSH_OPEN_UNKNOWN_CHANNEL_TYPE : Z := 3.
Definition SSH_OPEN_IN_PROGRESS : Z := 99.
Definition SSH_EXTENDED_DATA_STDERR : Z := 1.
Definition CHAN_EXTEND_SIZE : Z := 3.
Definition MAX_CHANNELS : Z := 100.
Definition TRANS_MAX_WINDOW : Z := 500000000.
Definition TRANS_MAX_WIN_INCR : Z := 500000000.
Definition MAX_RECV_WINDOW : Z := 1024 * 1024.
Definition FD_UNINIT : Z := -2.
Definition FD_CLOSED : Z := -1.
Definition SHUT_RD : Z := 0.
Definition SHUT_WR : Z := 1.
Definition SHUT_RDWR : Z := 2.

(** What the channel code does with file descriptors. *)
Inductive fd_op := FdWrite (fd : Z) (bs : list Z) | FdClose (fd : Z) | FdShutdown (fd how : Z) | FdNonblock (fd : Z).

(** [struct Channel]; [typedata] is part of the private state and the
    read mangler is set or not. *)
Record Channel (T : Type) := mkchan {
  ch_index : Z; ch_remotechan : Z; ch_recvwindow : Z; ch_transwindow : Z;
  ch_recvdonelen : Z; ch_recvmaxpacket : Z; ch_transmaxpacket : Z; ch_writefd : Z;
  ch_readfd : Z; ch_errfd : Z; ch_writebuf : option circbuffer;
  ch_extrabuf : option circbuffer; ch_sent_close : bool; ch_recv_close : bool;
  ch_recv_eof : bool; ch_sent_eof : bool; ch_close_handler_done : bool; ch_initconn : bool;
  ch_await_open : bool; ch_flushing : bool; ch_read_mangler : bool; ch_type : T }.
Arguments mkchan {T}.
Arguments ch_index {T}.
Arguments ch_remotechan {T}.
Arguments ch_recvwindow {T}.
Arguments ch_transwindow {T}.
Arguments ch_recvdonelen {T}.
Arguments ch_recvmaxpacket {T}.
Arguments ch_transmaxpacket {T}.
Arguments ch_writefd {T}.
Arguments ch_readfd {T}.
Arguments ch_errfd {T}.
Arguments ch_writebuf {T}.
Arguments ch_extrabuf {T}.
Arguments ch_sent_close {T}.
Arguments ch_recv_close {T}.
Arguments ch_recv_eof {T}.
Arguments ch_sent_eof {T}.
Arguments ch_close_handler_done {T}.
Arguments ch_initconn {T}.
Arguments ch_await_open {T}.
Arguments ch_flushing {T}.
Arguments ch_read_mangler {T}.
Arguments ch_type {T}.

Definition set_ch_remotechan {T : Type} (x : Z) (c : Channel T) : Channel T :=
  mkchan (ch_index c) x (ch_recvwindow c) (ch_transwindow c) (ch_recvdonelen c)
    (ch_recvmaxpacket c) (ch_transmaxpacket c) (ch_writefd c) (ch_readfd c) (ch_errfd c)
    (ch_writebuf c) (ch_extrabuf c) (ch_sent_close c) (ch_recv_close c) (ch_recv_eof c)
    (ch_sent_eof c) (ch_close_handler_done c) (ch_initconn c) (ch_await_open c)
    (ch_flushing c) (ch_read_mangler c) (ch_type c).
Definition set_ch_recvwindow {T : Type} (x : Z) (c : Channel T) : Channel T :=
  mkchan (ch_index c) (ch_remotechan c) x (ch_transwindow c) (ch_recvdonelen c)
    (ch_recvmaxpacket c) (ch_transmaxpacket c) (ch_writefd c) (ch_readfd c) (ch_errfd c)
    (ch_writebuf c) (ch_extrabuf c) (ch_sent_close c) (ch_recv_close c) (ch_recv_eof c)
    (ch_sent_eof c) (ch_close_handler_done c) (ch_initconn c) (ch_await_open c)
    (ch_flushing c) (ch_read_mangler c) (ch_type c).
Definition set_ch_transwindow {T : Type} (x : Z) (c : Channel T) : Channel T :=
  mkchan (ch_index c) (ch_remotechan c) (ch_recvwindow c) x (ch_recvdonelen c)
    (ch_recvmaxpacket c) (ch_transmaxpacket c) (ch_writefd c) (ch_readfd c) (ch_errfd c)
    (ch_writebuf c) (ch_extrabuf c) (ch_sent_close c) (ch_recv_close c) (ch_recv_eof c)
    (ch_sent_eof c) (ch_close_handler_done c) (ch_initconn c) (ch_await_open c)
    (ch_flushing c) (ch_read_mangler c) (ch_type c).
Definition set_ch_recvdonelen {T : Type} (x : Z) (c : Channel T) : Channel T :=
  mkchan (ch_index c) (ch_remotechan c) (ch_recvwindow c) (ch_transwindow c) x
    (ch_recvmaxpacket c) (ch_transmaxpacket c) (ch_writefd c) (ch_readfd c) (ch_errfd c)
    (ch_writebuf c) (ch_extrabuf c) (ch_sent_close c) (ch_recv_close c) (ch_recv_eof c)
    (ch_sent_eof c) (ch_close_handler_done c) (ch_initconn c) (ch_await_open c)
    (ch_flushing c) (ch_read_mangler c) (ch_type c).
Definition set_ch_transmaxpacket {T : Type} (x : Z) (c : Channel T) : Channel T :=
  mkchan (ch_index c) (ch_remotechan c) (ch_recvwindow c) (ch_transwindow c)
    (ch_recvdonelen c) (ch_recvmaxpacket c) x (ch_writefd c) (ch_readfd c) (ch_errfd c)
    (ch_writebuf c) (ch_extrabuf c) (ch_sent_close c) (ch_recv_close c) (ch_recv_eof c)
    (ch_sent_eof c) (ch_close_handler_done c) (ch_initconn c) (ch_await_open c)
    (ch_flushing c) (ch_read_mangler c) (ch_type c).
Definition set_ch_writefd {T : Type} (x : Z) (c : Channel T) : Channel T :=
  mkchan (ch_index c) (ch_remotechan c) (ch_recvwindow c) (ch_transwindow c)
    (ch_recvdonelen c) (ch_recvmaxpacket c) (ch_transmaxpacket c) x (ch_readfd c)
    (ch_errfd c) (ch_writebuf c) (ch_extrabuf c) (ch_sent_close c) (ch_recv_close c)
    (ch_recv_eof c) (ch_sent_eof c) (ch_close_handler_done c) (ch_initconn c)
    (ch_await_open c) (ch_flushing c) (ch_read_mangler c) (ch_type c).
Definition set_ch_readfd {T : Type} (x : Z) (c : Channel T) : Channel T :=
  mkchan (ch_index c) (ch_remotechan c) (ch_recvwindow c) (ch_transwindow c)
    (ch_recvdonelen c) (ch_recvmaxpacket c) (ch_transmaxpacket c) (ch_writefd c) x
    (ch_errfd c) (ch_writebuf c) (ch_extrabuf c) (ch_sent_close c) (ch_recv_close c)
    (ch_recv_eof c) (ch_sent_eof c) (ch_close_handler_done c) (ch_initconn c)
    (ch_await_open c) (ch_flushing c) (ch_read_mangler c) (ch_type c).
Definition set_ch_errfd {T : Type} (x : Z) (c : Channel T) : Channel T :=
  mkchan (ch_index c) (ch_remotechan c) (ch_recvwindow c) (ch_transwindow c)
    (ch_recvdonelen c) (ch_recvmaxpacket c) (ch_transmaxpacket c) (ch_writefd c)
    (ch_readfd c) x (ch_writebuf c) (ch_extrabuf c) (ch_sent_close c) (ch_recv_close c)
    (ch_recv_eof c) (ch_sent_eof c) (ch_close_handler_done c) (ch_initconn c)
    (ch_await_open c) (ch_flushing c) (ch_read_mangler c) (ch_type c).
Definition set_ch_writebuf {T : Type} (x : option circbuffer) (c : Channel T) : Channel T :=
  mkchan (ch_index c) (ch_remotechan c) (ch_recvwindow c) (ch_transwindow c)
    (ch_recvdonelen c) (ch_recvmaxpacket c) (ch_transmaxpacket c) (ch_writefd c)
    (ch_readfd c) (ch_errfd c) x (ch_extrabuf c) (ch_sent_close c) (ch_recv_close c)
    (ch_recv_eof c) (ch_sent_eof c) (ch_close_handler_done c) (ch_initconn c)
    (ch_await_open c) (ch_flushing c) (ch_read_mangler c) (ch_type c).
Definition set_ch_extrabuf {T : Type} (x : option circbuffer) (c : Channel T) : Channel T :=
  mkchan (ch_index c) (ch_remotechan c) (ch_recvwindow c) (ch_transwindow c)
    (ch_recvdonelen c) (ch_recvmaxpacket c) (ch_transmaxpacket c) (ch_writefd c)
    (ch_readfd c) (ch_errfd c) (ch_writebuf c) x (ch_sent_close c) (ch_recv_close c)
    (ch_recv_eof c) (ch_sent_eof c) (ch_close_handler_done c) (ch_initconn c)
    (ch_await_open c) (ch_flushing c) (ch_read_mangler c) (ch_type c).
Definition set_ch_sent_close {T : Type} (x : bool) (c : Channel T) : Channel T :=
  mkchan (ch_index c) (ch_remotechan c) (ch_recvwindow c) (ch_transwindow c)
    (ch_recvdonelen c) (ch_recvmaxpacket c) (ch_transmaxpacket c) (ch_writefd c)
    (ch_readfd c) (ch_errfd c) (ch_writebuf c) (ch_extrabuf c) x (ch_recv_close c)
    (ch_recv_eof c) (ch_sent_eof c) (ch_close_handler_done c) (ch_initconn c)
    (ch_await_open c) (ch_flushing c) (ch_read_mangler c) (ch_type c).
Definition set_ch_recv_close {T : Type} (x : bool) (c : Channel T) : Channel T :=
  mkchan (ch_index c) (ch_remotechan c) (ch_recvwindow c) (ch_transwindow c)
    (ch_recvdonelen c) (ch_recvmaxpacket c) (ch_transmaxpacket c) (ch_writefd c)
    (ch_readfd c) (ch_errfd c) (ch_writebuf c) (ch_extrabuf c) (ch_sent_close c) x
    (ch_recv_eof c) (ch_sent_eof c) (ch_close_handler_done c) (ch_initconn c)
    (ch_await_open c) (ch_flushing c) (ch_read_mangler c) (ch_type c).
Definition set_ch_recv_eof {T : Type} (x : bool) (c : Channel T) : Channel T :=
  mkchan (ch_index c) (ch_remotechan c) (ch_recvwindow c) (ch_transwindow c)
    (ch_recvdonelen c) (ch_recvmaxpacket c) (ch_transmaxpacket c) (ch_writefd c)
    (ch_readfd c) (ch_errfd c) (ch_writebuf c) (ch_extrabuf c) (ch_sent_close c)
    (ch_recv_close c) x (ch_sent_eof c) (ch_close_handler_done c) (ch_initconn c)
    (ch_await_open c) (ch_flushing c) (ch_read_mangler c) (ch_type c).
Definition set_ch_sent_eof {T : Type} (x : bool) (c : Channel T) : Channel T :=
  mkchan (ch_index c) (ch_remotechan c) (ch_recvwindow c) (ch_transwindow c)
    (ch_recvdonelen c) (ch_recvmaxpacket c) (ch_transmaxpacket c) (ch_writefd c)
    (ch_readfd c) (ch_errfd c) (ch_writebuf c) (ch_extrabuf c) (ch_sent_close c)
    (ch_recv_close c) (ch_recv_eof c) x (ch_close_handler_done c) (ch_initconn c)
    (ch_await_open c) (ch_flushing c) (ch_read_mangler c) (ch_type c).
Definition set_ch_close_handler_done {T : Type} (x : bool) (c : Channel T) : Channel T :=
  mkchan (ch_index c) (ch_remotechan c) (ch_recvwindow c) (ch_transwindow c)
    (ch_recvdonelen c) (ch_recvmaxpacket c) (ch_transmaxpacket c) (ch_writefd c)
    (ch_readfd c) (ch_errfd c) (ch_writebuf c) (ch_extrabuf c) (ch_sent_close c)
    (ch_recv_close c) (ch_recv_eof c) (ch_sent_eof c) x (ch_initconn c) (ch_await_open c)
    (ch_flushing c) (ch_read_mangler c) (ch_type c).
Definition set_ch_initconn {T : Type} (x : bool) (c : Channel T) : Channel T :=
  mkchan (ch_index c) (ch_remotechan c) (ch_recvwindow c) (ch_transwindow c)
    (ch_recvdonelen c) (ch_recvmaxpacket c) (ch_transmaxpacket c) (ch_writefd c)
    (ch_readfd c) (ch_errfd c) (ch_writebuf c) (ch_extrabuf c) (ch_sent_close c)
    (ch_recv_close c) (ch_recv_eof c) (ch_sent_eof c) (ch_close_handler_done c) x
    (ch_await_open c) (ch_flushing c) (ch_read_mangler c) (ch_type c).
Definition set_ch_await_open {T : Type} (x : bool) (c : Channel T) : Channel T :=
  mkchan (ch_index c) (ch_remotechan c) (ch_recvwindow c) (ch_transwindow c)
    (ch_recvdonelen c) (ch_recvmaxpacket c) (ch_transmaxpacket c) (ch_writefd c)
    (ch_readfd c) (ch_errfd c) (ch_writebuf c) (ch_extrabuf c) (ch_sent_close c)
    (ch_recv_close c) (ch_recv_eof c) (ch_sent_eof c) (ch_close_handler_done c)
    (ch_initconn c) x (ch_flushing c) (ch_read_mangler c) (ch_type c).
Definition set_ch_flushing {T : Type} (x : bool) (c : Channel T) : Channel T :=
  mkchan (ch_index c) (ch_remotechan c) (ch_recvwindow c) (ch_transwindow c)
    (ch_recvdonelen c) (ch_recvmaxpacket c) (ch_transmaxpacket c) (ch_writefd c)
    (ch_readfd c) (ch_errfd c) (ch_writebuf c) (ch_extrabuf c) (ch_sent_close c)
    (ch_recv_close c) (ch_recv_eof c) (ch_sent_eof c) (ch_close_handler_done c)
    (ch_initconn c) (ch_await_open c) x (ch_read_mangler c) (ch_type c).

(** The part of the session the channel code works on: the table, the received
    payload, the payload being built with what has been handed to
    encrypt_packet, and what the calls of read, write and getsockopt will
    return. *)
Record chses (T : Type) (X : Type) := mkchses {
  cs_channels : list (option (Channel T)); cs_chansize : Z; cs_chancount : Z;
  cs_payload : buffer; cs_writepayload : buffer; cs_sent : list (list Z); cs_maxfd : Z;
  cs_reads : list read_event; cs_writes : list write_event; cs_sockopts : list Z;
  cs_fdlog : list fd_op; cs_private : X }.
Arguments mkchses {T X}.
Arguments cs_channels {T X}.
Arguments cs_chansize {T X}.
Arguments cs_chancount {T X}.
Arguments cs_payload {T X}.
Arguments cs_writepayload {T X}.
Arguments cs_sent {T X}.
Arguments cs_maxfd {T X}.
Arguments cs_reads {T X}.
Arguments cs_writes {T X}.
Arguments cs_sockopts {T X}.
Arguments cs_fdlog {T X}.
Arguments cs_private {T X}.

Definition set_cs_channels {T X : Type} (x : list (option (Channel T))) (s : chses T X) : chses T X :=
  mkchses x (cs_chansize s) (cs_chancount s) (cs_payload s) (cs_writepayload s) (cs_sent s)
    (cs_maxfd s) (cs_reads s) (cs_writes s) (cs_sockopts s) (cs_fdlog s) (cs_private s).
Definition set_cs_chansize {T X : Type} (x : Z) (s : chses T X) : chses T X :=
  mkchses (cs_channels s) x (cs_chancount s) (cs_payload s) (cs_writepayload s) (cs_sent s)
    (cs_maxfd s) (cs_reads s) (cs_writes s) (cs_sockopts s) (cs_fdlog s) (cs_private s).
Definition set_cs_chancount {T X : Type} (x : Z) (s : chses T X) : chses T X :=
  mkchses (cs_channels s) (cs_chansize s) x (cs_payload s) (cs_writepayload s) (cs_sent s)
    (cs_maxfd s) (cs_reads s) (cs_writes s) (cs_sockopts s) (cs_fdlog s) (cs_private s).
Definition set_cs_payload {T X : Type} (x : buffer) (s : chses T X) : chses T X :=
  mkchses (cs_channels s) (cs_chansize s) (cs_chancount s) x (cs_writepayload s) (cs_sent s)
    (cs_maxfd s) (cs_reads s) (cs_writes s) (cs_sockopts s) (cs_fdlog s) (cs_private s).
Definition set_cs_writepayload {T X : Type} (x : buffer) (s : chses T X) : chses T X :=
  mkchses (cs_channels s) (cs_chansize s) (cs_chancount s) (cs_payload s) x (cs_sent s)
    (cs_maxfd s) (cs_reads s) (cs_writes s) (cs_sockopts s) (cs_fdlog s) (cs_private s).
Definition set_cs_sent {T X : Type} (x : list (list Z)) (s : chses T X) : chses T X :=
  mkchses (cs_channels s) (cs_chansize s) (cs_chancount s) (cs_payload s)
    (cs_writepayload s) x (cs_maxfd s) (cs_reads s) (cs_writes s) (cs_sockopts s)
    (cs_fdlog s) (cs_private s).
Definition set_cs_maxfd {T X : Type} (x : Z) (s : chses T X) : chses T X :=
  mkchses (cs_channels s) (cs_chansize s) (cs_chancount s) (cs_payload s)
    (cs_writepayload s) (cs_sent s) x (cs_reads s) (cs_writes s) (cs_sockopts s)
    (cs_fdlog s) (cs_private s).
Definition set_cs_reads {T X : Type} (x : list read_event) (s : chses T X) : chses T X :=
  mkchses (cs_channels s) (cs_chansize s) (cs_chancount s) (cs_payload s)
    (cs_writepayload s) (cs_sent s) (cs_maxfd s) x (cs_writes s) (cs_sockopts s)
    (cs_fdlog s) (cs_private s).
Definition set_cs_writes {T X : Type} (x : list write_event) (s : chses T X) : chses T X :=
  mkchses (cs_channels s) (cs_chansize s) (cs_chancount s) (cs_payload s)
    (cs_writepayload s) (cs_sent s) (cs_maxfd s) (cs_reads s) x (cs_sockopts s) (cs_fdlog s)
    (cs_private s).
Definition set_cs_sockopts {T X : Type} (x : list Z) (s : chses T X) : chses T X :=
  mkchses (cs_channels s) (cs_chansize s) (cs_chancount s) (cs_payload s)
    (cs_writepayload s) (cs_sent s) (cs_maxfd s) (cs_reads s) (cs_writes s) x (cs_fdlog s)
    (cs_private s).
Definition set_cs_fdlog {T X : Type} (x : list fd_op) (s : chses T X) : chses T X :=
  mkchses (cs_channels s) (cs_chansize s) (cs_chancount s) (cs_payload s)
    (cs_writepayload s) (cs_sent s) (cs_maxfd s) (cs_reads s) (cs_writes s) (cs_sockopts s)
    x (cs_private s).
Definition set_cs_private {T X : Type} (x : X) (s : chses T X) : chses T X :=
  mkchses (cs_channels s) (cs_chansize s) (cs_chancount s) (cs_payload s)
    (cs_writepayload s) (cs_sent s) (cs_maxfd s) (cs_reads s) (cs_writes s) (cs_sockopts s)
    (cs_fdlog s) x.

(** The two ring buffers of a channel, as [circbuffer *] arguments. *)
Inductive cbuf_ptr := WriteBuf | ExtraBuf.

Section Channels.
Context {T X : Type}.
Abbreviation Channel := (Channel T).
Abbreviation ses := (chses T X).

(** [struct ChanType]: NULL handlers are [None].  check_close only looks. *)
Record ChanType := mkchantype {
  ct_sepfds : bool; ct_name : list Z;
  ct_inithandler : option (Z -> prog ses Z);
  ct_check_close : option (Z -> ses -> bool);
  ct_reqhandler : option (Z -> prog ses unit);
  ct_closehandler : option (Z -> prog ses unit) }.

(** [opts.recv_window], the channel types with the list [ses.chantypes], the
    client's read mangler (the new contents of the bytes read), and the
    listeners (listener.c). *)
Context (recv_window : Z) (chan_type : T -> ChanType) (chantypes : list T)
        (read_mangler : list Z -> list Z)
        (handle_listeners : list Z -> prog ses unit)
        (set_listener_fds : list Z -> prog ses (list Z)).

Definition RECV_WINDOWEXTEND : Z := recv_window / 3.

(** ** Access to the state *)

(** Following a channel pointer. *)
Definition chan (p : Z) : prog ses Channel := fun s =>
  match zget (cs_channels s) p with
  | Some (Some c) => Ok (c, s)
  | _ => Fault "invalid channel pointer"
  end.

Definition chan_mod (p : Z) (f : Channel -> Channel) : prog ses unit :=
  c <- chan p ;;
  modify (fun s => set_cs_channels (zset (cs_channels s) p (Some (f c))) s).

Definition ch_cbuf (b : cbuf_ptr) (c : Channel) : option circbuffer :=
  match b with WriteBuf => ch_writebuf c | ExtraBuf => ch_extrabuf c end.

Definition set_ch_cbuf (b : cbuf_ptr) (x : option circbuffer) (c : Channel) : Channel :=
  match b with WriteBuf => set_ch_writebuf x c | ExtraBuf => set_ch_extrabuf x c end.

(** An operation on a ring buffer of the channel. *)
Definition on_cbuf {A} (p : Z) (b : cbuf_ptr) (m : prog circbuffer A) : prog ses A :=
  c <- chan p ;;
  match ch_cbuf b c with
  | None => fault "null pointer"
  | Some cb =>
      match m cb with
      | Ok (a, cb') => chan_mod p (set_ch_cbuf b (Some cb')) ;;; ret a
      | Exit e => dropbear_exit e
      | Fault e => fault e
      end
  end.

Definition cbuf_of (b : cbuf_ptr) (c : Channel) : prog ses circbuffer :=
  match ch_cbuf b c with None => fault "null pointer" | Some cb => ret cb end.

Definition on_payload {A} (m : prog buffer A) : prog ses A := zoom cs_payload set_cs_payload m.
Definition on_wp {A} (m : prog buffer A) : prog ses A := zoom cs_writepayload set_cs_writepayload m.

Definition log_fd (op : fd_op) : prog ses unit := modify (fun s => set_cs_fdlog (cs_fdlog s ++ [op]) s).

(** [encrypt_packet] as its callers see it. *)
Definition encrypt_packet : prog ses unit :=
  b <- gets cs_writepayload ;;
  modify (fun s => set_cs_sent (cs_sent s ++ [ztake (b_len b) (b_data b)]) s) ;;;
  on_wp (buf_setpos 0) ;;;
  on_wp (buf_setlen 0).

(** [read(fd, p, maxlen)]: the bytes, or the error. *)
Definition fd_read (maxlen : Z) : prog ses read_event := fun s =>
  match cs_reads s with
  | [] => Ok (RErr true, s)
  | RBytes bs :: rest => Ok (RBytes (ztake maxlen bs), set_cs_reads rest s)
  | e :: rest => Ok (e, set_cs_reads rest s)
  end.

(** [write(fd, bs, len)] of all of [bs]. *)
Definition fd_write (fd : Z) (bs : list Z) : prog ses write_event := fun s =>
  match cs_writes s with
  | [] => Ok (WErr, s)
  | WBytes n :: rest =>
      let n := Z.min (Z.max 0 n) (zlen bs) in
      Ok (WBytes n, set_cs_fdlog (cs_fdlog s ++ [FdWrite fd (ztake n bs)]) (set_cs_writes rest s))
  | e :: rest => Ok (e, set_cs_writes rest s)
  end.

(** [getsockopt(..., SO_ERROR, &val)]: whether it failed or [val] is not 0. *)
Definition fd_sockopt_error : prog ses bool := fun s =>
  match cs_sockopts s with
  | [] => Ok (true, s)
  | v :: rest => Ok (negb (v =? 0), set_cs_sockopts rest s)
  end.

(** [FD_SET] on a set of descriptors; outside [0, FD_SETSIZE) it writes
    outside the set. *)
Definition FD_SETSIZE : Z := 1024.
Definition FD_SET (fd : Z) (set : list Z) : prog ses (list Z) :=
  if (0 <=? fd) && (fd <? FD_SETSIZE) then ret (fd :: set) else fault "FD_SET out of bounds".
Definition FD_ISSET (fd : Z) (set : list Z) : bool := bool_decide (fd ∈ set).

Definition ERRFD_IS_READ (c : Channel) : bool := match ch_extrabuf c with None => true | Some _ => false end.
Definition ERRFD_IS_WRITE (c : Channel) : bool := negb (ERRFD_IS_READ c).

(** ** The table *)

Definition chaninitialise : prog ses unit :=
  modify (fun s => set_cs_channels [None] s) ;;;
  modify (set_cs_chansize 1) ;;;
  modify (set_cs_chancount 0).

Definition chan_initwritebuf (p : Z) : prog ses unit :=
  c <- chan p ;;
  cb <- cbuf_of WriteBuf c ;;
  dropbear_assert ((c_size cb =? 0) && (ch_recvwindow c =? 0)) ;;;
  chan_mod p (set_ch_writebuf None) ;;;
  cb <- cbuf_new recv_window ;;
  chan_mod p (set_ch_writebuf (Some cb)) ;;;
  chan_mod p (set_ch_recvwindow recv_window).

(** The first loop of newchannel: the first unused slot, or the end. *)
Fixpoint first_free (channels : list (option Channel)) : Z :=
  match channels with
  | [] => 0
  | None :: _ => 0
  | Some _ :: channels => 1 + first_free channels
  end.

(** The fields newchannel sets; m_malloc has cleared the others. *)
Definition blank_channel (i remotechan : Z) (type : T) (transwindow transmaxpacket : Z)
    (writebuf : circbuffer) : Channel :=
  mkchan i remotechan 0 transwindow 0 RECV_MAX_PAYLOAD_LEN transmaxpacket FD_UNINIT FD_UNINIT FD_CLOSED
         (Some writebuf) None false false false false false false false false false type.

(** [None] is NULL. *)
Definition newchannel (remotechan : Z) (type : T) (transwindow transmaxpacket : Z) : prog ses (option Z) :=
  channels <- gets cs_channels ;;
  chansize <- gets cs_chansize ;;
  let i := first_free channels in
  if (i =? chansize) && (chansize >=? MAX_CHANNELS) then ret None
  else
    when (i =? chansize)
      (modify (fun s => set_cs_channels (cs_channels s ++ replicate (Z.to_nat CHAN_EXTEND_SIZE) None) s) ;;;
       modify (fun s => set_cs_chansize (cs_chansize s + CHAN_EXTEND_SIZE) s)) ;;;
    writebuf <- cbuf_new 0 ;;
    modify (fun s => set_cs_channels
      (zset (cs_channels s) i (Some (blank_channel i remotechan type transwindow transmaxpacket writebuf))) s) ;;;
    modify (fun s => set_cs_chancount (cs_chancount s + 1) s) ;;;
    ret (Some i).

Definition getchannel_msg (kind : string) : prog ses Z :=
  c <- on_payload buf_getint ;;
  chansize <- gets cs_chansize ;;
  if c >=? chansize then dropbear_exit kind
  else
    channels <- gets cs_channels ;;
    match zget channels c with
    | None => fault "channel table read out of bounds"
    | Some None => dropbear_exit kind
    | Some (Some _) => ret c
    end.

Definition getchannel : prog ses Z := getchannel_msg "Unknown channel".

(** ** Closing *)

(** close a fd, [how] is SHUT_RD, SHUT_WR or SHUT_RDWR. *)
Definition close_chan_fd (p fd how : Z) : prog ses unit :=
  c <- chan p ;;
  let sepfds := ct_sepfds (chan_type (ch_type c)) in
  (if sepfds then log_fd (FdShutdown fd how) else log_fd (FdClose fd)) ;;;
  let closeout := negb sepfds || (how =? 0) in
  let closein := negb sepfds || negb (how =? 0) in
  when (closeout && (fd =? ch_readfd c)) (chan_mod p (set_ch_readfd FD_CLOSED)) ;;;
  when (closeout && ERRFD_IS_READ c && (fd =? ch_errfd c)) (chan_mod p (set_ch_errfd FD_CLOSED)) ;;;
  when (closein && (fd =? ch_writefd c)) (chan_mod p (set_ch_writefd FD_CLOSED)) ;;;
  c <- chan p ;;
  when (closein && ERRFD_IS_WRITE c && (fd =? ch_errfd c)) (chan_mod p (set_ch_errfd FD_CLOSED)) ;;;
  c <- chan p ;;
  when (sepfds && (ch_readfd c =? FD_CLOSED) && (ch_writefd c =? FD_CLOSED) && (ch_errfd c =? FD_CLOSED))
    (log_fd (FdClose fd)).

Definition write_pending (c : Channel) : prog ses bool :=
  a <- (if ch_writefd c >=? 0
        then cb <- cbuf_of WriteBuf c ;; ret (cbuf_getused cb >? 0)
        else ret false) ;;
  if a : bool then ret true
  else ret (match ch_extrabuf c with
            | Some cb => (ch_errfd c >=? 0) && (cbuf_getused cb >? 0)
            | None => false
            end).

(** Running the type's close handler, once. *)
Definition run_closehandler (p : Z) : prog ses unit :=
  c <- chan p ;;
  match ct_closehandler (chan_type (ch_type c)) with
  | Some closehandler =>
      when (negb (ch_close_handler_done c))
        (closehandler p ;;;
         chan_mod p (set_ch_close_handler_done true))
  | None => ret tt
  end.

Definition send_msg_channel_close (p : Z) : prog ses unit :=
  run_closehandler p ;;;
  c <- chan p ;;
  on_wp (buf_putbyte SSH_MSG_CHANNEL_CLOSE) ;;;
  on_wp (buf_putint (ch_remotechan c)) ;;;
  encrypt_packet ;;;
  chan_mod p (set_ch_sent_eof true) ;;;
  chan_mod p (set_ch_sent_close true) ;;;
  c <- chan p ;;
  close_chan_fd p (ch_readfd c) SHUT_RD ;;;
  c <- chan p ;;
  close_chan_fd p (ch_errfd c) SHUT_RDWR ;;;
  c <- chan p ;;
  close_chan_fd p (ch_writefd c) SHUT_WR.

Definition send_msg_channel_eof (p : Z) : prog ses unit :=
  c <- chan p ;;
  on_wp (buf_putbyte SSH_MSG_CHANNEL_EOF) ;;;
  on_wp (buf_putint (ch_remotechan c)) ;;;
  encrypt_packet ;;;
  chan_mod p (set_ch_sent_eof true).

Definition remove_channel (p : Z) : prog ses unit :=
  chan_mod p (set_ch_writebuf None) ;;;
  chan_mod p (set_ch_extrabuf None) ;;;
  c <- chan p ;;
  log_fd (FdClose (ch_writefd c)) ;;;
  log_fd (FdClose (ch_readfd c)) ;;;
  log_fd (FdClose (ch_errfd c)) ;;;
  run_closehandler p ;;;
  c <- chan p ;;
  modify (fun s => set_cs_channels (zset (cs_channels s) (ch_index c) None) s) ;;;
  modify (fun s => set_cs_chancount (cs_chancount s - 1) s).

(** ** Data to the wire *)

(** The two places that drop what has been put into writepayload. *)
Definition clear_wp : prog ses unit :=
  on_wp (buf_setpos 0) ;;;
  on_wp (buf_setlen 0).

Definition send_msg_channel_data (p : Z) (isextended : bool) : prog ses unit :=
  c <- chan p ;;
  dropbear_assert (negb (ch_sent_close c)) ;;;
  let fd := if isextended then ch_errfd c else ch_readfd c in
  dropbear_assert (fd >=? 0) ;;;
  size <- on_wp (gets b_size) ;;
  let maxlen := Z.min (Z.min (ch_transwindow c) (ch_transmaxpacket c))
                      (u32 (size - 1 - 4 - 4 - (if isextended then 4 else 0))) in
  if maxlen =? 0 then ret tt
  else
    on_wp (buf_putbyte (if isextended then SSH_MSG_CHANNEL_EXTENDED_DATA else SSH_MSG_CHANNEL_DATA)) ;;;
    on_wp (buf_putint (ch_remotechan c)) ;;;
    when isextended (on_wp (buf_putint SSH_EXTENDED_DATA_STDERR)) ;;;
    size_pos <- on_wp (gets b_pos) ;;
    on_wp (buf_putint 0) ;;;
    ptr <- on_wp (buf_getwriteptr maxlen) ;;
    e <- fd_read maxlen ;;
    match read_bytes e with
    | None =>
        when (match e with RIntr => false | _ => true end) (close_chan_fd p fd SHUT_RD) ;;;
        clear_wp
    | Some bs =>
        if zlen bs =? 0 then
          close_chan_fd p fd SHUT_RD ;;;
          clear_wp
        else
          on_wp (store_bytes ptr bs) ;;;
          len <- (if ch_read_mangler c
                  then
                    ptr <- on_wp (buf_getwriteptr (zlen bs)) ;;
                    on_wp (store_bytes ptr (read_mangler bs)) ;;;
                    ret (zlen (read_mangler bs))
                  else ret (zlen bs)) ;;
          if len =? 0 then clear_wp
          else
            on_wp (buf_incrwritepos len) ;;;
            on_wp (buf_setpos size_pos) ;;;
            on_wp (buf_putint len) ;;;
            chan_mod p (fun c => set_ch_transwindow (u32 (ch_transwindow c - len)) c) ;;;
            encrypt_packet ;;;
            when (ch_flushing c && (len <? maxlen)) (close_chan_fd p fd SHUT_RD)
    end.

(** ** EOF and close *)

Definition type_check_close (p : Z) (c : Channel) : prog ses bool :=
  match ct_check_close (chan_type (ch_type c)) with
  | Some check => gets (check p)
  | None => ret false
  end.

Definition check_close (p : Z) : prog ses unit :=
  c <- chan p ;;
  let has_check := match ct_check_close (chan_type (ch_type c)) with Some _ => true | None => false end in
  triggered <- type_check_close p c ;;
  when (negb (ch_flushing c) && negb (ch_close_handler_done c) && triggered)
    (chan_mod p (set_ch_flushing true)) ;;;
  triggered <- type_check_close p c ;;
  let close_allowed := negb has_check || ch_close_handler_done c || triggered in
  pending <- write_pending c ;;
  if ch_recv_close c && negb pending && close_allowed then
    when (negb (ch_sent_close c)) (send_msg_channel_close p) ;;;
    remove_channel p
  else
    when ((ch_recv_eof c && negb pending) || (has_check && close_allowed))
      (close_chan_fd p (ch_writefd c) SHUT_WR) ;;;
    c <- chan p ;;
    when (ch_flushing c)
      (when ((ch_readfd c >=? 0) && (ch_transwindow c >? 0)) (send_msg_channel_data p false) ;;;
       c <- chan p ;;
       when (ERRFD_IS_READ c && (ch_errfd c >=? 0) && (ch_transwindow c >? 0))
         (send_msg_channel_data p true)) ;;;
    c <- chan p ;;
    when (negb (ch_sent_eof c) && (ch_readfd c =? FD_CLOSED)
          && (ERRFD_IS_WRITE c || (ch_errfd c =? FD_CLOSED)))
      (send_msg_channel_eof p) ;;;
    c <- chan p ;;
    pending <- write_pending c ;;
    when ((ch_readfd c =? FD_CLOSED) && (ch_writefd c =? FD_CLOSED)
          && (ERRFD_IS_WRITE c || (ch_errfd c =? FD_CLOSED))
          && negb (ch_sent_close c) && close_allowed && negb pending)
      (send_msg_channel_close p).

Definition recv_msg_channel_eof : prog ses unit :=
  p <- getchannel_msg "EOF for unknown channel" ;;
  chan_mod p (set_ch_recv_eof true) ;;;
  check_close p.

Definition recv_msg_channel_close : prog ses unit :=
  p <- getchannel_msg "Close for unknown channel" ;;
  chan_mod p (set_ch_recv_eof true) ;;;
  chan_mod p (set_ch_recv_close true) ;;;
  check_close p.

(** ** Data from the wire *)

Definition send_msg_channel_window_adjust (p incr : Z) : prog ses unit :=
  c <- chan p ;;
  on_wp (buf_putbyte SSH_MSG_CHANNEL_WINDOW_ADJUST) ;;;
  on_wp (buf_putint (ch_remotechan c)) ;;;
  on_wp (buf_putint incr) ;;;
  encrypt_packet.

Definition writechannel (p fd : Z) (b : cbuf_ptr) : prog ses unit :=
  maxlen <- on_cbuf p b cbuf_readlen ;;
  off <- on_cbuf p b (cbuf_readptr maxlen) ;;
  bs <- on_cbuf p b (cbuf_load off maxlen) ;;
  w <- fd_write fd bs ;;
  match w with
  | WBytes len =>
      if len <=? 0 then ret tt
      else
        on_cbuf p b (cbuf_incrread len) ;;;
        chan_mod p (fun c => set_ch_recvdonelen (u32 (ch_recvdonelen c + len)) c) ;;;
        c <- chan p ;;
        when (ch_recvdonelen c >=? RECV_WINDOWEXTEND)
          (send_msg_channel_window_adjust p (ch_recvdonelen c) ;;;
           chan_mod p (fun c => set_ch_recvwindow (u32 (ch_recvwindow c + ch_recvdonelen c)) c) ;;;
           chan_mod p (set_ch_recvdonelen 0)) ;;;
        c <- chan p ;;
        dropbear_assert (ch_recvwindow c <=? recv_window) ;;;
        wb <- cbuf_of WriteBuf c ;;
        dropbear_assert (ch_recvwindow c <=? cbuf_getavail wb) ;;;
        dropbear_assert (match ch_extrabuf c with
                         | None => true
                         | Some eb => ch_recvwindow c <=? cbuf_getavail eb
                         end)
  | WIntr => ret tt
  | WErr => close_chan_fd p fd SHUT_WR
  end.

(** [while (len > 0)]: the second pass is for data that wraps around. *)
Fixpoint recv_data_loop (n : nat) (p : Z) (b : cbuf_ptr) (len : Z) : prog ses unit :=
  if len >? 0 then
    match n with
    | O => fault "out of fuel"
    | S n =>
        writelen <- on_cbuf p b cbuf_writelen ;;
        let buflen := Z.min writelen len in
        off <- on_cbuf p b (cbuf_writeptr buflen) ;;
        bs <- on_payload (getptr_bytes buflen) ;;
        on_cbuf p b (cbuf_store off bs) ;;;
        on_cbuf p b (cbuf_incrwrite buflen) ;;;
        on_payload (buf_incrpos buflen) ;;;
        recv_data_loop n p b (len - buflen)
    end
  else ret tt.

Definition common_recv_msg_channel_data (p fd : Z) (b : cbuf_ptr) : prog ses unit :=
  c <- chan p ;;
  if ch_recv_eof c then dropbear_exit "Received data after eof"
  else
    match ch_cbuf b c with
    | None => ret tt
    | Some cb =>
        if fd <? 0 then ret tt
        else
          datalen <- on_payload buf_getint ;;
          let maxdata := cbuf_getavail cb in
          if datalen >? maxdata then dropbear_exit "Oversized packet"
          else
            recv_data_loop 2 p b datalen ;;;
            c <- chan p ;;
            dropbear_assert (ch_recvwindow c >=? datalen) ;;;
            chan_mod p (fun c => set_ch_recvwindow (u32 (ch_recvwindow c - datalen)) c) ;;;
            c <- chan p ;;
            dropbear_assert (ch_recvwindow c <=? recv_window)
    end.

Definition recv_msg_channel_data : prog ses unit :=
  p <- getchannel ;;
  c <- chan p ;;
  common_recv_msg_channel_data p (ch_writefd c) WriteBuf.

Definition recv_msg_channel_window_adjust : prog ses unit :=
  p <- getchannel ;;
  incr <- on_payload buf_getint ;;
  let incr := Z.min incr TRANS_MAX_WIN_INCR in
  chan_mod p (fun c => set_ch_transwindow (u32 (ch_transwindow c + incr)) c) ;;;
  chan_mod p (fun c => set_ch_transwindow (Z.min (ch_transwindow c) TRANS_MAX_WINDOW) c).

(** ** Requests and opening *)

Definition send_msg_channel_failure (p : Z) : prog ses unit :=
  c <- chan p ;;
  on_wp (buf_putbyte SSH_MSG_CHANNEL_FAILURE) ;;;
  on_wp (buf_putint (ch_remotechan c)) ;;;
  encrypt_packet.

Definition send_msg_channel_success (p : Z) : prog ses unit :=
  c <- chan p ;;
  on_wp (buf_putbyte SSH_MSG_CHANNEL_SUCCESS) ;;;
  on_wp (buf_putint (ch_remotechan c)) ;;;
  encrypt_packet.

Definition recv_msg_channel_request : prog ses unit :=
  p <- getchannel ;;
  c <- chan p ;;
  if ch_sent_close c then ret tt
  else
    match ct_reqhandler (chan_type (ch_type c)) with
    | Some reqhandler =>
        if negb (ch_close_handler_done c) then reqhandler p else send_msg_channel_failure p
    | None => send_msg_channel_failure p
    end.

(** [text] and [lang] are always empty strings. *)
Definition send_msg_channel_open_failure (remotechan reason : Z) : prog ses unit :=
  on_wp (buf_putbyte SSH_MSG_CHANNEL_OPEN_FAILURE) ;;;
  on_wp (buf_putint remotechan) ;;;
  on_wp (buf_putint reason) ;;;
  on_wp (buf_putstring [] 0) ;;;
  on_wp (buf_putstring [] 0) ;;;
  encrypt_packet.

Definition send_msg_channel_open_confirmation (p recvwindow recvmaxpacket : Z) : prog ses unit :=
  c <- chan p ;;
  on_wp (buf_putbyte SSH_MSG_CHANNEL_OPEN_CONFIRMATION) ;;;
  on_wp (buf_putint (ch_remotechan c)) ;;;
  on_wp (buf_putint (ch_index c)) ;;;
  on_wp (buf_putint recvwindow) ;;;
  on_wp (buf_putint recvmaxpacket) ;;;
  encrypt_packet.

Definition check_in_progress (p : Z) : prog ses unit :=
  c <- chan p ;;
  failed <- fd_sockopt_error ;;
  if failed : bool then
    send_msg_channel_open_failure (ch_remotechan c) SSH_OPEN_CONNECT_FAILED ;;;
    log_fd (FdClose (ch_writefd c)) ;;;
    remove_channel p
  else
    chan_initwritebuf p ;;;
    c <- chan p ;;
    send_msg_channel_open_confirmation p (ch_recvwindow c) (ch_recvmaxpacket c) ;;;
    chan_mod p (fun c => set_ch_readfd (ch_writefd c) c) ;;;
    chan_mod p (set_ch_initconn false).

Definition find_chantype (type : list Z) : option T :=
  snd <$> list_find (fun t => ct_name (chan_type t) = c_string type) chantypes.

Definition recv_msg_channel_open : prog ses unit :=
  x <- on_payload buf_getstring ;;
  let '(type, typelen) := x in
  remotechan <- on_payload buf_getint ;;
  transwindow <- on_payload buf_getint ;;
  let transwindow := Z.min transwindow TRANS_MAX_WINDOW in
  transmaxpacket <- on_payload buf_getint ;;
  let transmaxpacket := Z.min transmaxpacket TRANS_MAX_PAYLOAD_LEN in
  if typelen >? MAX_NAME_LEN then send_msg_channel_open_failure remotechan SSH_OPEN_UNKNOWN_CHANNEL_TYPE
  else
    match find_chantype type with
    | None => send_msg_channel_open_failure remotechan SSH_OPEN_UNKNOWN_CHANNEL_TYPE
    | Some chantype =>
        channel <- newchannel remotechan chantype transwindow transmaxpacket ;;
        match channel with
        | None => send_msg_channel_open_failure remotechan SSH_OPEN_UNKNOWN_CHANNEL_TYPE
        | Some p =>
            r <- match ct_inithandler (chan_type chantype) with
                 | Some inithandler => inithandler p
                 | None => ret 0
                 end ;;
            if r =? SSH_OPEN_IN_PROGRESS then ret tt
            else if r >? 0 then
              remove_channel p ;;;
              send_msg_channel_open_failure remotechan r
            else
              chan_initwritebuf p ;;;
              c <- chan p ;;
              send_msg_channel_open_confirmation p (ch_recvwindow c) (ch_recvmaxpacket c)
        end
    end.

(** DROPBEAR_SUCCESS as [true]. *)
Definition send_msg_channel_open_init (fd : Z) (type : T) : prog ses bool :=
  channel <- newchannel 0 type 0 0 ;;
  match channel with
  | None => ret false
  | Some p =>
      chan_initwritebuf p ;;;
      log_fd (FdNonblock fd) ;;;
      chan_mod p (set_ch_readfd fd) ;;;
      chan_mod p (set_ch_writefd fd) ;;;
      modify (fun s => set_cs_maxfd (Z.max (cs_maxfd s) fd) s) ;;;
      chan_mod p (set_ch_await_open true) ;;;
      c <- chan p ;;
      let name := ct_name (chan_type type) in
      on_wp (buf_putbyte SSH_MSG_CHANNEL_OPEN) ;;;
      on_wp (buf_putstring name (zlen name)) ;;;
      on_wp (buf_putint (ch_index c)) ;;;
      on_wp (buf_putint recv_window) ;;;
      on_wp (buf_putint RECV_MAX_PAYLOAD_LEN) ;;;
      ret true
  end.

Definition recv_msg_channel_open_confirmation : prog ses unit :=
  p <- getchannel ;;
  c <- chan p ;;
  if negb (ch_await_open c) then dropbear_exit "Unexpected channel reply"
  else
    chan_mod p (set_ch_await_open false) ;;;
    remotechan <- on_payload buf_getint ;;
    chan_mod p (set_ch_remotechan remotechan) ;;;
    transwindow <- on_payload buf_getint ;;
    chan_mod p (set_ch_transwindow transwindow) ;;;
    transmaxpacket <- on_payload buf_getint ;;
    chan_mod p (set_ch_transmaxpacket transmaxpacket) ;;;
    match ct_inithandler (chan_type (ch_type c)) with
    | Some inithandler =>
        r <- inithandler p ;;
        when (r >? 0) (remove_channel p)
    | None => ret tt
    end.

Definition recv_msg_channel_open_failure : prog ses unit :=
  p <- getchannel ;;
  c <- chan p ;;
  if negb (ch_await_open c) then dropbear_exit "Unexpected channel reply"
  else
    chan_mod p (set_ch_await_open false) ;;;
    remove_channel p.

(** ** The main loop *)

(** The body of the loop of setchannelfds. *)
Definition set_channel_fds (c : Channel) (sets : list Z * list Z) : prog ses (list Z * list Z) :=
  let '(readfds, writefds) := sets in
  readfds <- (if ch_transwindow c >? 0 then
                readfds <- (if ch_readfd c >=? 0 then FD_SET (ch_readfd c) readfds else ret readfds) ;;
                if ERRFD_IS_READ c && (ch_errfd c >=? 0) then FD_SET (ch_errfd c) readfds else ret readfds
              else ret readfds) ;;
  pending <- (if ch_initconn c then ret true
              else if ch_writefd c >=? 0
              then cb <- cbuf_of WriteBuf c ;; ret (cbuf_getused cb >? 0)
              else ret false) ;;
  writefds <- (if pending : bool then FD_SET (ch_writefd c) writefds else ret writefds) ;;
  writefds <- (match ch_extrabuf c with
               | Some cb => if (ch_errfd c >=? 0) && (cbuf_getused cb >? 0)
                            then FD_SET (ch_errfd c) writefds else ret writefds
               | None => ret writefds
               end) ;;
  ret (readfds, writefds).

Fixpoint setchannelfds_loop (channels : list (option Channel)) (sets : list Z * list Z)
    : prog ses (list Z * list Z) :=
  match channels with
  | [] => ret sets
  | None :: channels => setchannelfds_loop channels sets
  | Some c :: channels =>
      sets <- set_channel_fds c sets ;;
      setchannelfds_loop channels sets
  end.

Definition setchannelfds (readfds writefds : list Z) : prog ses (list Z * list Z) :=
  channels <- gets cs_channels ;;
  sets <- setchannelfds_loop channels (readfds, writefds) ;;
  let '(readfds, writefds) := sets in
  readfds <- set_listener_fds readfds ;;
  ret (readfds, writefds).

(** The body of the loop of channelio for the channel in slot [i]. *)
Definition channelio_one (i : Z) (readfds writefds : list Z) : prog ses unit :=
  c <- chan i ;;
  when ((ch_readfd c >=? 0) && FD_ISSET (ch_readfd c) readfds) (send_msg_channel_data i false) ;;;
  c <- chan i ;;
  when (ERRFD_IS_READ c && (ch_errfd c >=? 0) && FD_ISSET (ch_errfd c) readfds)
    (send_msg_channel_data i true) ;;;
  c <- chan i ;;
  let writable := (ch_writefd c >=? 0) && FD_ISSET (ch_writefd c) writefds in
  if writable && ch_initconn c then check_in_progress i
  else
    when writable (writechannel i (ch_writefd c) WriteBuf) ;;;
    c <- chan i ;;
    when (ERRFD_IS_WRITE c && (ch_errfd c >=? 0) && FD_ISSET (ch_errfd c) writefds)
      (writechannel i (ch_errfd c) ExtraBuf) ;;;
    check_close i.

(** [for (i = 0; i < ses.chansize; i++)] *)
Fixpoint channelio_loop (n : nat) (i : Z) (readfds writefds : list Z) : prog ses unit :=
  chansize <- gets cs_chansize ;;
  if i <? chansize then
    match n with
    | O => fault "out of fuel"
    | S n =>
        channels <- gets cs_channels ;;
        match zget channels i with
        | None => fault "channel table read out of bounds"
        | Some None => ret tt
        | Some (Some _) => channelio_one i readfds writefds
        end ;;;
        channelio_loop n (i + 1) readfds writefds
    end
  else ret tt.

Definition channelio (readfds writefds : list Z) : prog ses unit :=
  channelio_loop (Z.to_nat (MAX_CHANNELS + CHAN_EXTEND_SIZE)) 0 readfds writefds ;;;
  handle_listeners readfds.

(** The loop of chancleanup over the slots from [i] on. *)
Fixpoint chancleanup_loop (n : nat) (i : Z) : prog ses unit :=
  chansize <- gets cs_chansize ;;
  if i <? chansize then
    match n with
    | O => fault "out of fuel"
    | S n =>
        channels <- gets cs_channels ;;
        match zget channels i with
        | None => fault "channel table read out of bounds"
        | Some None => ret tt
        | Some (Some _) => remove_channel i
        end ;;;
        chancleanup_loop n (i + 1)
    end
  else ret tt.

Definition chancleanup : prog ses unit :=
  chancleanup_loop (Z.to_nat (MAX_CHANNELS + CHAN_EXTEND_SIZE)) 0 ;;;
  modify (set_cs_channels []).
End Channels.
