(* ===== verification/ChannelSafe.v ===== *)
(** The invariant of the channel table, and that every operation of
    common-channel.c keeps it: windows and buffers agree, no memory is
    accessed out of bounds, and a removed channel is never followed. *)

From S2P Require Import Prelude Dbutil Buffer CircBuffer Queue Cipher Hmac Ssh Packet Channel.

Local Open Scope Z_scope.
Local Open Scope prog_scope.

(** ** Buffer operations keep the size *)

Definition keeps_size {A} (m : prog buffer A) : Prop :=
  forall b a b', m b = Ok (a, b') -> b_size b' = b_size b.

Lemma keeps_size_bind {A B} (m : prog buffer A) (k : A -> prog buffer B) :
  keeps_size m -> (forall a, keeps_size (k a)) -> keeps_size (bind m k).
Proof.
  intros Hm Hk b x b' E. apply bind_inv in E as (a & b1 & E1 & E2).
  rewrite (Hk a _ _ _ E2). by apply Hm in E1.
Qed.

Ltac size_base := intros b a b' E; unfold ret, gets, modify, dropbear_exit, fault, when, id, dropbear_assert in E; repeat case_match; by simplify_eq.

Lemma keeps_size_ret {A} (x : A) : keeps_size (ret x). Proof. size_base. Qed.
Lemma keeps_size_gets {A} (f : buffer -> A) : keeps_size (gets f). Proof. size_base. Qed.
Lemma keeps_size_exit {A} e : keeps_size (dropbear_exit (A := A) e). Proof. size_base. Qed.
Lemma keeps_size_fault {A} e : keeps_size (fault (A := A) e). Proof. size_base. Qed.
Lemma keeps_size_set_len n : keeps_size (modify (set_len n)). Proof. size_base. Qed.
Lemma keeps_size_set_pos n : keeps_size (modify (set_pos n)). Proof. size_base. Qed.
Lemma keeps_size_store p bs : keeps_size (store_bytes p bs).
Proof. intros b a b' E. unfold store_bytes in E. case_match; by simplify_eq. Qed.
Lemma keeps_size_load p n : keeps_size (load_bytes p n).
Proof. intros b a b' E. unfold load_bytes in E. case_match; by simplify_eq. Qed.
Lemma keeps_size_when c (m : prog buffer unit) : keeps_size m -> keeps_size (when c m).
Proof. destruct c; [done|]. intros _. apply keeps_size_ret. Qed.
Lemma keeps_size_src l n : keeps_size (src_bytes l n).
Proof. intros b a b' E. unfold src_bytes, ret, fault in E. repeat case_match; by simplify_eq. Qed.

Create HintDb ksize.
#[export] Hint Resolve keeps_size_ret keeps_size_gets keeps_size_exit keeps_size_fault keeps_size_src
  keeps_size_set_len keeps_size_set_pos keeps_size_store keeps_size_load : ksize.

(** Split a buffer program into its primitive steps. *)
Ltac ksize := repeat first
  [ progress cbn beta zeta
  | solve [eauto with ksize]
  | apply keeps_size_bind; [|intros ?]
  | apply keeps_size_when
  | case_match ].

Lemma keeps_size_setpos n : keeps_size (buf_setpos n). Proof. unfold buf_setpos. ksize. Qed.
Lemma keeps_size_setlen n : keeps_size (buf_setlen n). Proof. unfold buf_setlen. ksize. Qed.
Lemma keeps_size_incrlen n : keeps_size (buf_incrlen n). Proof. unfold buf_incrlen. ksize. Qed.
Lemma keeps_size_incrwritepos n : keeps_size (buf_incrwritepos n). Proof. unfold buf_incrwritepos. ksize. Qed.
Lemma keeps_size_getwriteptr n : keeps_size (buf_getwriteptr n). Proof. unfold buf_getwriteptr. ksize. Qed.
#[export] Hint Resolve keeps_size_setpos keeps_size_setlen keeps_size_incrlen keeps_size_incrwritepos
  keeps_size_getwriteptr : ksize.
Lemma keeps_size_putbyte v : keeps_size (buf_putbyte v). Proof. unfold buf_putbyte. ksize. Qed.
Lemma keeps_size_putint v : keeps_size (buf_putint v). Proof. unfold buf_putint. ksize. Qed.
Lemma keeps_size_putbytes l n : keeps_size (buf_putbytes l n). Proof. unfold buf_putbytes. ksize. Qed.
#[export] Hint Resolve keeps_size_putbyte keeps_size_putint keeps_size_putbytes : ksize.
Lemma keeps_size_putstring l n : keeps_size (buf_putstring l n). Proof. unfold buf_putstring. ksize. Qed.
#[export] Hint Resolve keeps_size_putstring : ksize.

(** ** The invariant *)

Section Safe.
Context {T X : Type}.
Abbreviation Channel := (Channel T).
Abbreviation ses := (chses T X).
Context (recv_window : Z) (chan_type : T -> ChanType (T := T) (X := X)).

(** A ring buffer of the window's size. *)
Definition ring_ok (cb : circbuffer) : Prop := wf_cbuf cb /\ c_size cb = recv_window.

Definition used_of (cb : option circbuffer) : Z := match cb with Some cb => c_used cb | None => 0 end.

(** A channel whose buffer has not been set up: the connection is in
    progress. *)
Definition unset_window (c : Channel) : Prop :=
  exists wb, ch_writebuf c = Some wb /\ c_size wb = 0 /\ c_used wb = 0 /\ ch_recvwindow c = 0 /\ ch_recvdonelen c = 0.

Definition connecting (c : Channel) : Prop :=
  unset_window c /\ ch_extrabuf c = None /\ ch_initconn c = true /\
  ch_sent_eof c = false /\ ch_sent_close c = false /\ ch_readfd c = FD_UNINIT /\ ch_writefd c <> FD_UNINIT.

(** The receive window accounts for every byte the peer may still send, the
    bytes buffered and the bytes consumed but not yet given back. *)
Definition window_ok (c : Channel) : Prop :=
  (exists wb, ch_writebuf c = Some wb /\ ring_ok wb) /\
  (forall eb, ch_extrabuf c = Some eb -> ring_ok eb) /\
  0 <= ch_recvwindow c /\ 0 <= ch_recvdonelen c /\
  ch_recvwindow c + used_of (ch_writebuf c) + used_of (ch_extrabuf c) + ch_recvdonelen c = recv_window.

(** After EOF nothing is left to read from, and close implies EOF. *)
Definition ends_ok (c : Channel) : Prop :=
  (ch_sent_close c = true -> ch_sent_eof c = true) /\
  (ch_sent_eof c = true -> ch_readfd c < 0 /\ (ch_extrabuf c = None -> ch_errfd c < 0)) /\
  (ct_sepfds (chan_type (ch_type c)) = true -> ch_errfd c < 0).

Definition ranges_ok (c : Channel) : Prop :=
  is_u32 (ch_remotechan c) /\ is_u32 (ch_transwindow c) /\ is_u32 (ch_transmaxpacket c) /\
  ch_recvmaxpacket c = RECV_MAX_PAYLOAD_LEN.

Definition ch_ok (i : Z) (c : Channel) : Prop :=
  ch_index c = i /\ ranges_ok c /\ ends_ok c /\
  (connecting c \/ (window_ok c /\ ch_initconn c = false)).

(** The number of channels in the table. *)
Fixpoint live (l : list (option Channel)) : Z :=
  match l with
  | [] => 0
  | Some _ :: l => 1 + live l
  | None :: l => live l
  end.

Definition event_bytes (e : read_event) : Prop := match e with RBytes bs => bytes bs | _ => True end.

Definition shape (s : ses) : Prop :=
  zlen (cs_channels s) = cs_chansize s /\
  1 <= cs_chansize s < MAX_CHANNELS + CHAN_EXTEND_SIZE /\
  cs_chancount s = live (cs_channels s) /\
  wf_buffer (cs_payload s) /\
  wf_buffer (cs_writepayload s) /\ b_size (cs_writepayload s) = TRANS_MAX_PAYLOAD_LEN /\
  Forall event_bytes (cs_reads s).

(** Between operations every channel is in order; inside one, all but the
    channel [c] it works on, in slot [p]. *)
Definition ses_inv (o : option (Z * Channel)) (s : ses) : Prop :=
  shape s /\
  match o with Some (p, c) => zget (cs_channels s) p = Some (Some c) | None => True end /\
  forall i c, match o with Some (p, _) => i <> p | None => True end ->
    zget (cs_channels s) i = Some (Some c) -> ch_ok i c.
Abbreviation ses_ok := (ses_inv None).

Lemma inv_focus s p c : ses_ok s -> zget (cs_channels s) p = Some (Some c) -> ses_inv (Some (p, c)) s /\ ch_ok p c.
Proof. intros (Hsh & _ & Hok) Hp. split; [|by apply Hok]. split; [done|]. split; [done|]. intros i c' _. by apply Hok. Qed.

Lemma inv_close s p c : ses_inv (Some (p, c)) s -> ch_ok p c -> ses_ok s.
Proof.
  intros (Hsh & Hp & Hok) Hc. split; [done|]. split; [done|]. intros i c' _ Hi.
  destruct (decide (i = p)) as [->|Hne]; [|by apply Hok]. rewrite Hp in Hi. by simplify_eq.
Qed.

(** What the invariant looks at apart from the table. *)
Lemma inv_frame o (s s' : ses) :
  cs_channels s' = cs_channels s -> cs_chansize s' = cs_chansize s -> cs_chancount s' = cs_chancount s ->
  wf_buffer (cs_payload s') -> wf_buffer (cs_writepayload s') ->
  b_size (cs_writepayload s') = TRANS_MAX_PAYLOAD_LEN -> Forall event_bytes (cs_reads s') ->
  ses_inv o s -> ses_inv o s'.
Proof.
  intros E1 E2 E3 H1 H2 H3 H4 ((Hl & Hc & Hn & _) & Hp & Hok). unfold ses_inv, shape.
  rewrite E1, E2, E3. destruct Hc. by split_and!.
Qed.

Lemma live_zset l i (c c' : Channel) : zget l i = Some (Some c) -> live (zset l i (Some c')) = live l.
Proof.
  unfold zget, zset. destruct (0 <=? i); [|done]. generalize (Z.to_nat i) as n. clear i.
  induction l as [|o l IH]; intros [|n] E; [done|done| |].
  - cbn in E. by injection E as ->.
  - specialize (IH n E). change (live (o :: <[n:=Some c']> l) = live (o :: l)).
    destruct o; cbn [live]; by rewrite IH.
Qed.

(** ** Rules for the steps of an operation *)

Implicit Types (p : Z) (c : Channel) (s : ses).

Lemma wp_chan p c s Q : ses_inv (Some (p, c)) s -> Q c s -> wp (chan p) Q s.
Proof. intros (_ & Hp & _) HQ. unfold wp, chan. by rewrite Hp. Qed.

Lemma inv_update p c c' s :
  ses_inv (Some (p, c)) s -> ses_inv (Some (p, c')) (set_cs_channels (zset (cs_channels s) p (Some c')) s).
Proof.
  intros (Hsh & Hp & Hok). pose proof Hsh as (Hl & [Hc Hc'] & Hn & H1 & H2 & H3 & H4).
  pose proof (zget_Some_range _ _ _ Hp) as Hr. split.
  - unfold shape. cbn. rewrite zlen_zset, (live_zset _ _ c) by done. by split_and!.
  - cbn. split; [by apply zget_zset_eq|]. intros i d Hne Hi. rewrite zget_zset_ne in Hi by done. by apply Hok.
Qed.

Lemma wp_chan_mod p c s f Q :
  ses_inv (Some (p, c)) s -> (forall s', ses_inv (Some (p, f c)) s' -> Q tt s') -> wp (chan_mod p f) Q s.
Proof.
  intros Hi HQ. unfold chan_mod. apply wp_bind. apply (wp_chan p c); [done|].
  apply wp_modify. apply HQ. by apply (inv_update p c).
Qed.

Lemma wp_log o s op Q : ses_inv o s -> (forall s', ses_inv o s' -> Q tt s') -> wp (log_fd op) Q s.
Proof.
  intros Hi HQ. unfold log_fd. apply wp_modify, HQ. pose proof Hi as ((_ & _ & _ & ? & ? & ? & ?) & _).
  by eapply (inv_frame o s).
Qed.

Lemma wp_on_wp {A} o s (m : prog buffer A) R Q :
  ses_inv o s -> keeps_size m ->
  wp m (fun a b => wf_buffer b /\ R a) (cs_writepayload s) ->
  (forall a s', ses_inv o s' -> R a -> Q a s') -> wp (on_wp m) Q s.
Proof.
  intros Hi Hks Hm HQ. pose proof Hi as ((_ & _ & _ & ? & ? & Hsz & ?) & _).
  unfold wp, on_wp, zoom in *. destruct (m (cs_writepayload s)) as [[a b]| |] eqn:E; [|done|done].
  destruct Hm as [Hb HR]. apply HQ; [|done]. eapply (inv_frame o s); try done. cbn. by rewrite (Hks _ _ _ E).
Qed.

(** The case that is needed most. *)
Lemma wp_put o s (m : prog buffer unit) Q :
  ses_inv o s -> keeps_size m ->
  (forall b, wf_buffer b -> wp m (fun _ b' => wf_buffer b') b) ->
  (forall s', ses_inv o s' -> Q tt s') -> wp (on_wp m) Q s.
Proof.
  intros Hi Hks Hm HQ. pose proof Hi as ((_ & _ & _ & _ & Hw & _) & _).
  apply (wp_on_wp o s m (fun _ => True)); [done|done| |].
  - eapply wp_mono; [by apply Hm|]. by intros.
  - intros [] s' Hs' _. by apply HQ.
Qed.

Lemma wp_on_payload {A} o s (m : prog buffer A) R Q :
  ses_inv o s -> wp m (fun a b => wf_buffer b /\ R a) (cs_payload s) ->
  (forall a s', ses_inv o s' -> R a -> Q a s') -> wp (on_payload m) Q s.
Proof.
  intros Hi Hm HQ. pose proof Hi as ((_ & _ & _ & ? & ? & Hsz & ?) & _).
  unfold wp, on_payload, zoom in *. destruct (m (cs_payload s)) as [[a b]| |] eqn:E; [|done|done].
  destruct Hm as [Hb HR]. apply HQ; [|done]. by eapply (inv_frame o s).
Qed.

(** writepayload keeps its size; emptying it. *)
Lemma wp_clear o s Q : ses_inv o s -> (forall s', ses_inv o s' -> Q tt s') -> wp clear_wp Q s.
Proof.
  intros Hi HQ. unfold clear_wp. apply wp_bind.
  pose proof Hi as ((_ & _ & _ & ? & Hw & Hsz & ?) & _). pose proof Hw as (Hp & Hl & Hs & Ha & Hb).
  unfold on_wp at 1. apply wp_zoom. unfold buf_setpos. apply wp_bind, wp_gets.
  rewrite Z.gtb_ltb, (proj2 (Z.ltb_ge _ 0)) by lia. apply wp_modify.
  set (s1 := set_cs_writepayload _ s). apply (wp_on_wp o s1 _ (fun _ => True)).
  - apply (inv_frame o s); try done. cbn. apply wf_set_pos; [done|lia].
  - auto with ksize.
  - eapply wp_mono; [apply wp_setlen; [apply wf_set_pos; [done|lia]|cbn; lia]|]. by intros.
  - intros [] s2 Hs2 _. by apply HQ.
Qed.

Lemma wp_encrypt o s Q : ses_inv o s -> (forall s', ses_inv o s' -> Q tt s') -> wp encrypt_packet Q s.
Proof.
  intros Hi HQ. unfold encrypt_packet. apply wp_bind, wp_gets, wp_bind, wp_modify.
  pose proof Hi as ((_ & _ & _ & ? & ? & ? & ?) & _).
  apply (wp_clear o); [by eapply (inv_frame o s)|done].
Qed.

Lemma wp_putbyte_ses o s v Q :
  ses_inv o s -> is_byte v -> (forall s', ses_inv o s' -> Q tt s') -> wp (on_wp (buf_putbyte v)) Q s.
Proof. intros. eapply (wp_put o); eauto with ksize. intros. by apply wp_putbyte. Qed.

Lemma wp_putint_ses o s v Q :
  ses_inv o s -> (forall s', ses_inv o s' -> Q tt s') -> wp (on_wp (buf_putint v)) Q s.
Proof. intros. eapply (wp_put o); eauto with ksize. intros. by apply wp_putint. Qed.

Lemma wp_getint_ses o s Q :
  ses_inv o s -> (forall v s', ses_inv o s' -> is_u32 v -> Q v s') -> wp (on_payload buf_getint) Q s.
Proof.
  intros Hi HQ. apply (wp_on_payload o s _ is_u32); [done| |intros v s' Hs' Hv; by apply HQ].
  pose proof Hi as ((_ & _ & _ & Hp & _) & _). eapply wp_mono; [by apply wp_getint|]. intros v b [? ?]. done.
Qed.

Lemma wp_when_mod p c s (b : bool) f Q :
  ses_inv (Some (p, c)) s -> (forall s', ses_inv (Some (p, if b then f c else c)) s' -> Q tt s') ->
  wp (when b (chan_mod p f)) Q s.
Proof. intros Hi HQ. destruct b; cbn [when]; [by apply (wp_chan_mod p c)|by apply HQ]. Qed.
End Safe.

(** One step of an operation on the channel [c] in slot [p]. *)
Ltac step :=
  lazymatch goal with
  | |- wp (bind _ _) _ _ => apply wp_bind
  | |- wp (ret _) _ _ => apply wp_ret
  | |- wp (dropbear_exit _) _ _ => apply wp_exit
  | |- wp (dropbear_assert _) _ _ => apply wp_assert; intros ?
  | |- wp (chan _) _ _ => eapply wp_chan; [eassumption|]
  | |- wp (chan_mod _ _) _ _ => eapply wp_chan_mod; [eassumption|]; intros ? ?
  | |- wp (when _ (chan_mod _ _)) _ _ => eapply wp_when_mod; [eassumption|]; intros ? ?
  | |- wp (log_fd _) _ _ => eapply wp_log; [eassumption|]; intros ? ?
  | |- wp encrypt_packet _ _ => eapply wp_encrypt; [eassumption|]; intros ? ?
  | |- wp clear_wp _ _ => eapply wp_clear; [eassumption|]; intros ? ?
  | |- wp (on_wp (buf_putbyte _)) _ _ => eapply wp_putbyte_ses; [eassumption|by vm_compute|]; intros ? ?
  | |- wp (on_wp (buf_putint _)) _ _ => eapply wp_putint_ses; [eassumption|]; intros ? ?
  | |- wp (on_payload buf_getint) _ _ => eapply wp_getint_ses; [eassumption|]; intros ? ? ? ?
  | |- wp (when _ _) _ _ => apply wp_when; intros ?
  end; cbn beta.
Ltac steps := repeat step.

(** ** The operations *)

Section Operations.
Context {T X : Type}.
Abbreviation Channel := (Channel T).
Abbreviation ses := (chses T X).
Context (recv_window : Z) (chan_type : T -> ChanType (T := T) (X := X)).
Abbreviation ch_ok := (ch_ok recv_window chan_type).
Abbreviation ses_inv := (ses_inv recv_window chan_type).
Abbreviation ses_ok := (ses_inv None).
Implicit Types (p : Z) (c : Channel) (s : ses).

(** *** Closing descriptors *)

(** The channel after close_chan_fd. *)
Definition closed (c : Channel) (fd how : Z) : Channel :=
  let sepfds := ct_sepfds (chan_type (ch_type c)) in
  let closeout := negb sepfds || (how =? 0) in
  let closein := negb sepfds || negb (how =? 0) in
  let c1 := if closeout && (fd =? ch_readfd c) then set_ch_readfd FD_CLOSED c else c in
  let c2 := if closeout && ERRFD_IS_READ c && (fd =? ch_errfd c) then set_ch_errfd FD_CLOSED c1 else c1 in
  let c3 := if closein && (fd =? ch_writefd c) then set_ch_writefd FD_CLOSED c2 else c2 in
  if closein && ERRFD_IS_WRITE c3 && (fd =? ch_errfd c3) then set_ch_errfd FD_CLOSED c3 else c3.

Lemma wp_close_fd p c s fd how Q :
  ses_inv (Some (p, c)) s -> (forall s', ses_inv (Some (p, closed c fd how)) s' -> Q tt s') ->
  wp (close_chan_fd chan_type p fd how) Q s.
Proof.
  intros Hi HQ. unfold close_chan_fd. do 2 step. cbv zeta. apply wp_bind.
  apply (wp_mono _ (fun _ s' => ses_inv (Some (p, c)) s')); [by destruct ct_sepfds; steps|].
  intros [] s1 Hs1. steps; [|by apply HQ]. by apply HQ.
Qed.

(** What closing a descriptor can change. *)
Lemma closed_spec c fd how :
  closed c fd how =
    set_ch_readfd (ch_readfd (closed c fd how)) (set_ch_writefd (ch_writefd (closed c fd how))
      (set_ch_errfd (ch_errfd (closed c fd how)) c)) /\
  (ch_readfd (closed c fd how) = ch_readfd c \/ ch_readfd (closed c fd how) = FD_CLOSED /\ fd = ch_readfd c) /\
  (ch_writefd (closed c fd how) = ch_writefd c \/ ch_writefd (closed c fd how) = FD_CLOSED) /\
  (ch_errfd (closed c fd how) = ch_errfd c \/ ch_errfd (closed c fd how) = FD_CLOSED).
Proof.
  unfold closed. destruct c. cbn.
  repeat (case_match; cbn); bool_hyps; split_and!; auto; bool_hyps; auto.
Qed.

Lemma closed_ok i c fd how :
  ch_ok i c -> (connecting c -> fd <> FD_UNINIT) -> ch_ok i (closed c fd how).
Proof.
  intros (Hidx & Hr & (He1 & He2 & He3) & Hw) Hfd.
  destruct (closed_spec c fd how) as (E & H1 & H2 & H3).
  set (c' := closed c fd how) in *. clearbody c'. unfold FD_CLOSED in *.
  assert (Hx : ch_extrabuf c' = ch_extrabuf c /\ ch_type c' = ch_type c /\ ch_sent_eof c' = ch_sent_eof c /\
    ch_sent_close c' = ch_sent_close c) by (by rewrite E).
  destruct Hx as (Hx1 & Hx2 & Hx3 & Hx4). split; [by rewrite E|]. split; [by rewrite E|]. split.
  - unfold ends_ok. rewrite Hx1, Hx2, Hx3, Hx4. split; [done|]. split.
    + intros Hse. destruct (He2 Hse) as [Ha Hb]. split; [lia|]. intros Hn. specialize (Hb Hn). lia.
    + intros Hs. specialize (He3 Hs). lia.
  - destruct Hw as [Hc|[Hw Hini]]; [left|right; by rewrite E].
    pose proof (Hfd Hc) as Hne. destruct Hc as (Ha & Hb & Hc & Hd & Hf & Hg & Hh). rewrite E.
    split_and!; cbn; try done.
    + unfold FD_UNINIT in *. lia.
    + unfold FD_UNINIT in *. lia.
Qed.

(** *** Handlers *)

(** A channel newchannel has just set up, also after its init handler. *)
Definition fresh_chan (p : Z) (c : Channel) : Prop :=
  ch_index c = p /\ ranges_ok c /\ ends_ok chan_type c /\ unset_window c /\ ch_initconn c = false /\ ch_sent_eof c = false /\
  forall eb, ch_extrabuf c = Some eb -> ring_ok recv_window eb /\ c_used eb = 0.

(** The channel as newchannel returns it. *)
Definition blank (p : Z) (c : Channel) : Prop :=
  exists remotechan type tw tmax, is_u32 remotechan /\ is_u32 tw /\ is_u32 tmax /\
    c = blank_channel p remotechan type tw tmax (mkcbuf 0 0 0 0 []).

Lemma blank_fresh p c : blank p c -> fresh_chan p c.
Proof. intros (remotechan & type & tw & tmax & ? & ? & ? & ->). split_and!; try done. by exists (mkcbuf 0 0 0 0 []). Qed.

(** What a channel type's handlers promise.  A handler that starts a
    connection leaves the channel [connecting]; other handlers leave channels
    in order; the close handler does not touch the channel it closes. *)
Record type_ok (t : ChanType (T := T) (X := X)) : Prop := {
  tk_name : bytes (ct_name t) /\ zlen (ct_name t) <= OBJECT_MAX;
  tk_open h p c s : ct_inithandler t = Some h -> ses_inv (Some (p, c)) s -> blank p c ->
    wp (h p) (fun r s' => exists c', ses_inv (Some (p, c')) s' /\ ch_index c' = p /\
      (r = SSH_OPEN_IN_PROGRESS -> ch_ok p c') /\ (r <= 0 -> fresh_chan p c')) s;
  tk_confirm h p c s : ct_inithandler t = Some h -> ses_inv (Some (p, c)) s -> ch_ok p c ->
    wp (h p) (fun r s' => exists c', ses_inv (Some (p, c')) s' /\ ch_index c' = p /\ (r <= 0 -> ch_ok p c')) s;
  tk_request h p s : ct_reqhandler t = Some h -> ses_ok s -> wp (h p) (fun _ s' => ses_ok s') s;
  tk_close h p c s : ct_closehandler t = Some h -> ses_inv (Some (p, c)) s ->
    wp (h p) (fun _ s' => ses_inv (Some (p, c)) s') s }.
Context (chantypes : list T) (types_ok : forall t, type_ok (chan_type t)) (window_range : 0 < recv_window <= MAX_RECV_WINDOW).

Lemma wp_closehandler p c s Q :
  ses_inv (Some (p, c)) s ->
  (forall b s', ses_inv (Some (p, if b : bool then set_ch_close_handler_done true c else c)) s' -> Q tt s') ->
  wp (run_closehandler chan_type p) Q s.
Proof.
  intros Hi HQ. unfold run_closehandler. steps.
  destruct (ct_closehandler (chan_type (ch_type c))) as [h|] eqn:Eh; [|by step; apply (HQ false)].
  step; [|by apply (HQ false)]. step. eapply wp_mono; [by eapply (tk_close _ (types_ok (ch_type c)) h p c)|].
  cbn. intros [] s1 Hs1. steps. by apply (HQ true).
Qed.

Lemma done_ok p c : ch_ok p c -> ch_ok p (set_ch_close_handler_done true c).
Proof. by intros (? & ? & ? & ?). Qed.

(** *** Removing *)

Lemma live_remove (l : list (option Channel)) i c :
  zget l i = Some (Some c) -> live (zset l i None) = live l - 1.
Proof.
  unfold zget, zset. destruct (0 <=? i); [|done]. generalize (Z.to_nat i) as n. clear i.
  induction l as [|o l IH]; intros [|n] E; [done|done| |].
  - cbn in E. injection E as ->. change (live l = 1 + live l - 1). lia.
  - specialize (IH n E). change (live (o :: <[n:=None]> l) = live (o :: l) - 1).
    destruct o; cbn [live]; rewrite IH; lia.
Qed.

Lemma wp_remove_channel p c s Q :
  ses_inv (Some (p, c)) s -> ch_index c = p -> (forall s', ses_ok s' -> Q tt s') -> wp (remove_channel chan_type p) Q s.
Proof.
  intros Hi Hidx HQ. unfold remove_channel. steps.
  eapply wp_closehandler; [eassumption|]. intros b s1 Hs1. steps.
  set (c1 := if b then _ else _) in Hs1 |- *. assert (Hidx1 : ch_index c1 = p) by (by destruct b).
  rewrite Hidx1. apply wp_modify, wp_modify, HQ.
  destruct Hs1 as ((Hl & [Hc1 Hc2] & Hn & Hr1 & Hr2 & Hr3 & Hr4) & Hp & Hok). split; [|split; [done|]].
  - unfold shape. cbn. rewrite zlen_zset, (live_remove _ _ _ Hp), Hn. by split_and!.
  - cbn. intros i c' _ Hi'. destruct (decide (i = p)) as [->|Hne].
    + rewrite zget_zset_eq in Hi' by (by eapply zget_Some_range). done.
    + rewrite zget_zset_ne in Hi' by done. by apply Hok.
Qed.

(** *** EOF and close messages *)

Lemma closed_readfd c : ch_readfd (closed c (ch_readfd c) SHUT_RD) = FD_CLOSED.
Proof. unfold closed. cbn. rewrite orb_true_r, Z.eqb_refl. cbn. by repeat (case_match; cbn). Qed.

Lemma closed_errfd c how :
  ch_extrabuf c = None -> ct_sepfds (chan_type (ch_type c)) = false ->
  ch_errfd (closed c (ch_errfd c) how) = FD_CLOSED.
Proof.
  intros Hn Hs. unfold closed, ERRFD_IS_READ, ERRFD_IS_WRITE. rewrite Hs, Hn. cbn.
  rewrite Z.eqb_refl. repeat (case_match; cbn); done.
Qed.

(** The three descriptors after the close message has been sent. *)
Lemma all_closed_ok p c :
  ch_ok p c -> ch_initconn c = false ->
  let c1 := set_ch_sent_close true (set_ch_sent_eof true c) in
  let c2 := closed c1 (ch_readfd c1) SHUT_RD in
  let c3 := closed c2 (ch_errfd c2) SHUT_RDWR in
  ch_ok p (closed c3 (ch_writefd c3) SHUT_WR).
Proof.
  intros (Hidx & Hr & (He1 & He2 & He3) & Hw) Hini c1 c2 c3.
  assert (Hw' : window_ok recv_window c) by (destruct Hw as [(_ & _ & Hc & _)|[? _]]; [congruence|done]). clear Hw.
  destruct (closed_spec c1 (ch_readfd c1) SHUT_RD) as (E2 & _). pose proof (closed_readfd c1) as Hrd.
  fold c2 in E2, Hrd.
  destruct (closed_spec c2 (ch_errfd c2) SHUT_RDWR) as (E3 & H31 & _ & H33). fold c3 in E3, H31, H33.
  assert (Hx : ch_extrabuf c2 = ch_extrabuf c /\ ch_type c2 = ch_type c /\ ch_extrabuf c3 = ch_extrabuf c /\
    ch_type c3 = ch_type c /\ (ch_errfd c2 = ch_errfd c \/ ch_errfd c2 = FD_CLOSED)).
  { destruct (closed_spec c1 (ch_readfd c1) SHUT_RD) as (_ & _ & _ & Herr). fold c2 in Herr.
    rewrite E3, E2. by split_and!. }
  destruct Hx as (Hx2 & Ht2 & Hx3 & Ht3 & Herr2). unfold FD_CLOSED in *.
  apply closed_ok.
  - split; [by rewrite E3, E2|]. split; [by rewrite E3, E2|]. split; [|right; by rewrite E3, E2].
    unfold ends_ok. rewrite Hx3, Ht3. split; [by rewrite E3, E2|]. split.
    + intros _. split; [lia|]. intros Hn. destruct (ct_sepfds (chan_type (ch_type c))) eqn:Hs.
      * specialize (He3 eq_refl). lia.
      * pose proof (closed_errfd c2 SHUT_RDWR) as Hce. rewrite Hx2, Ht2 in Hce. unfold FD_CLOSED in Hce.
        specialize (Hce Hn Hs). fold c3 in Hce. lia.
    + intros Hs. specialize (He3 Hs). lia.
  - intros (_ & _ & Hc & _). rewrite E3, E2 in Hc. cbn in Hc. congruence.
Qed.

Lemma wp_send_close p c s Q :
  ses_inv (Some (p, c)) s -> ch_index c = p ->
  (forall c' s', ses_inv (Some (p, c')) s' -> ch_index c' = p ->
     (ch_ok p c -> ch_initconn c = false -> ch_ok p c') -> Q tt s') ->
  wp (send_msg_channel_close chan_type p) Q s.
Proof.
  intros Hi Hidx HQ. unfold send_msg_channel_close. steps.
  eapply wp_closehandler; [eassumption|]. intros b s1 Hs1. steps.
  set (c0 := if b then _ else _) in *. clear Hs1.
  set (c1 := set_ch_sent_close true (set_ch_sent_eof true c0)) in *.
  eapply wp_close_fd; [eassumption|]. intros s2 Hs2. steps.
  set (c2 := closed c1 _ _) in *. eapply wp_close_fd; [eassumption|]. intros s3 Hs3. steps.
  set (c3 := closed c2 _ _) in *. eapply wp_close_fd; [eassumption|]. intros s4 Hs4.
  apply (HQ _ _ Hs4).
  - destruct (closed_spec c3 (ch_writefd c3) SHUT_WR) as (-> & _).
    destruct (closed_spec c2 (ch_errfd c2) SHUT_RDWR) as (E3 & _). fold c3 in E3. rewrite E3.
    destruct (closed_spec c1 (ch_readfd c1) SHUT_RD) as (E2 & _). fold c2 in E2. rewrite E2.
    by destruct b.
  - intros Hok Hini. apply (all_closed_ok p c0); [|by destruct b]. destruct b; [by apply done_ok|done].
Qed.

Lemma wp_send_eof p c s Q :
  ses_inv (Some (p, c)) s ->
  (forall s', ses_inv (Some (p, set_ch_sent_eof true c)) s' -> Q tt s') -> wp (send_msg_channel_eof p) Q s.
Proof. intros Hi HQ. unfold send_msg_channel_eof. steps. by apply HQ. Qed.

Lemma eof_ok p c :
  ch_ok p c -> ch_readfd c = FD_CLOSED -> ERRFD_IS_WRITE c || (ch_errfd c =? FD_CLOSED) = true ->
  ch_ok p (set_ch_sent_eof true c).
Proof.
  intros (Hidx & Hr & (He1 & He2 & He3) & Hw) Hrd Herr. split; [done|]. split; [done|].
  unfold FD_CLOSED in *. split.
  - split; [done|]. split; [|done]. intros _. split; [cbn; lia|]. cbn. intros Hn.
    unfold ERRFD_IS_WRITE, ERRFD_IS_READ in Herr. rewrite Hn in Herr. cbn in Herr. bool_hyps. lia.
  - destruct Hw as [(_ & _ & _ & _ & _ & Hg & _)|[? ?]]; [unfold FD_UNINIT in *; lia|by right].
Qed.

(** *** Data to the wire *)

Lemma wp_fd_read o s maxlen Q :
  ses_inv o s -> 0 <= maxlen ->
  (forall e s', ses_inv o s' -> match e with RBytes bs => bytes bs /\ zlen bs <= maxlen | _ => True end -> Q e s') ->
  wp (fd_read maxlen) Q s.
Proof.
  intros Hi Hm HQ. pose proof Hi as ((_ & _ & _ & ? & ? & ? & Hev) & _). unfold wp, fd_read.
  destruct (cs_reads s) as [|e rest] eqn:Er; [by apply HQ|]. apply Forall_cons_1 in Hev as [He Hrest].
  destruct e; apply HQ; try done; try (by eapply (inv_frame recv_window chan_type o s)).
  split; [by apply Forall_ztake|]. unfold zlen, ztake. rewrite length_take. lia.
Qed.

Context (read_mangler : list Z -> list Z)
        (mangler_ok : forall bs, bytes bs -> bytes (read_mangler bs) /\ zlen (read_mangler bs) <= zlen bs).

Lemma wp_getwriteptr_ses o s n Q :
  ses_inv o s -> is_u32 n -> n <= OBJECT_MAX ->
  (forall a s', ses_inv o s' -> 0 <= a -> a + n <= TRANS_MAX_PAYLOAD_LEN -> Q a s') ->
  wp (on_wp (buf_getwriteptr n)) Q s.
Proof.
  intros Hi Hn Hm HQ. pose proof Hi as ((_ & _ & _ & _ & Hw & Hsz & _) & _).
  apply (wp_on_wp recv_window chan_type o s _ (fun a => 0 <= a /\ a + n <= TRANS_MAX_PAYLOAD_LEN));
    [done|auto with ksize| |by intros a s' Hs' [? ?]; apply HQ].
  eapply wp_mono; [by apply wp_getwriteptr|]. intros a b (-> & -> & Hle). pose proof Hw as (? & _).
  split; [done|]. lia.
Qed.

Lemma wp_store_ses o s off bs Q :
  ses_inv o s -> bytes bs -> 0 <= off -> off + zlen bs <= TRANS_MAX_PAYLOAD_LEN ->
  (forall s', ses_inv o s' -> Q tt s') -> wp (on_wp (store_bytes off bs)) Q s.
Proof.
  intros Hi Hb Ho Hl HQ. pose proof Hi as ((_ & _ & _ & _ & Hw & Hsz & _) & _).
  apply (wp_on_wp recv_window chan_type o s _ (fun _ => True)); [done|auto with ksize| |by intros [] s' Hs' _; apply HQ].
  apply wp_store_bytes; [done|done|done|by rewrite Hsz|]. by intros.
Qed.

Lemma wp_setpos_ses o s n Q :
  ses_inv o s -> 0 <= n -> (forall s', ses_inv o s' -> Q tt s') -> wp (on_wp (buf_setpos n)) Q s.
Proof.
  intros Hi Hn HQ. eapply (wp_put recv_window chan_type); [done|auto with ksize| |done].
  intros b Hb. by apply wp_setpos.
Qed.

Lemma wp_incrwritepos_ses o s n Q :
  ses_inv o s -> is_u32 n -> (forall s', ses_inv o s' -> Q tt s') -> wp (on_wp (buf_incrwritepos n)) Q s.
Proof.
  intros Hi Hn HQ. eapply (wp_put recv_window chan_type); [done|auto with ksize| |done].
  intros b Hb. by apply wp_incrwritepos.
Qed.

Lemma wp_get_ses o s (f : buffer -> Z) (P : Z -> Prop) Q :
  ses_inv o s -> (forall b, wf_buffer b -> b_size b = TRANS_MAX_PAYLOAD_LEN -> P (f b)) ->
  (forall a s', ses_inv o s' -> P a -> Q a s') -> wp (on_wp (gets f)) Q s.
Proof.
  intros Hi HP HQ. pose proof Hi as ((_ & _ & _ & _ & Hw & Hsz & _) & _).
  apply (wp_on_wp recv_window chan_type o s _ P); [done|auto with ksize| |done].
  apply wp_gets. split; [done|by apply HP].
Qed.

Lemma transwindow_ok p c n : ch_ok p c -> ch_ok p (set_ch_transwindow (u32 n) c).
Proof.
  intros (Hidx & (Hr1 & Hr2 & Hr3) & Hrest). split; [done|]. split; [|done].
  split; [done|]. split; [apply u32_range|done].
Qed.

(** The bytes read, through the mangler. *)
Lemma wp_mangled p c s bs Q :
  ses_inv (Some (p, c)) s -> bytes bs -> zlen bs <= TRANS_MAX_PAYLOAD_LEN ->
  (forall len s', ses_inv (Some (p, c)) s' -> 0 <= len <= zlen bs -> Q len s') ->
  wp (if ch_read_mangler c
      then
        ptr <- on_wp (buf_getwriteptr (zlen bs)) ;;
        on_wp (store_bytes ptr (read_mangler bs)) ;;;
        ret (zlen (read_mangler bs))
      else ret (zlen bs)) Q s.
Proof.
  intros Hi Hb Hl HQ. pose proof (zlen_nonneg bs). destruct (mangler_ok bs Hb) as [Hmb Hml].
  pose proof (zlen_nonneg (read_mangler bs)). unfold TRANS_MAX_PAYLOAD_LEN in *.
  destruct (ch_read_mangler c); [|apply HQ; [done|lia]].
  step. eapply wp_getwriteptr_ses; [eassumption|unfold is_u32; lia|unfold OBJECT_MAX; lia|].
  intros a s1 Hs1 Ha1 Ha2. step.
  eapply wp_store_ses; [eassumption|done|done|unfold TRANS_MAX_PAYLOAD_LEN in *; lia|].
  intros s2 Hs2. step. apply HQ; [done|lia].
Qed.

Lemma wp_send_data p c s ext Q :
  ses_inv (Some (p, c)) s -> ch_ok p c ->
  (forall c' s', ses_inv (Some (p, c')) s' -> ch_ok p c' -> Q tt s') ->
  wp (send_msg_channel_data chan_type read_mangler p ext) Q s.
Proof.
  intros Hi Hok HQ. unfold send_msg_channel_data. do 4 step. cbv zeta. do 3 step.
  eapply (wp_get_ses _ _ _ (fun a => a = TRANS_MAX_PAYLOAD_LEN)); [eassumption|done|].
  intros size s1 Hs1 ->. set (fd := if ext then _ else _) in *.
  assert (Hfd : connecting c -> fd <> FD_UNINIT) by (intros _; unfold FD_UNINIT; bool_hyps; lia).
  set (maxlen := Z.min _ _).
  assert (Hm : 0 <= maxlen <= TRANS_MAX_PAYLOAD_LEN).
  { destruct Hok as (_ & (_ & Ht1 & Ht2 & _) & _). unfold is_u32, TRANS_MAX_PAYLOAD_LEN in *. subst maxlen.
    rewrite u32_small by (destruct ext; unfold is_u32; lia). destruct ext; lia. }
  assert (Hmu : is_u32 maxlen /\ maxlen <= OBJECT_MAX)
    by (unfold is_u32, OBJECT_MAX, TRANS_MAX_PAYLOAD_LEN in *; lia).
  destruct (maxlen =? 0); [step; by eapply HQ|]. step.
  eapply wp_putbyte_ses; [eassumption|by destruct ext|]. intros s2 Hs2. do 2 step. step.
  apply (wp_mono _ (fun _ s' => ses_inv (Some (p, c)) s')); [destruct ext; by steps|].
  intros [] s3 Hs3. step. eapply (wp_get_ses _ _ _ (fun a => 0 <= a)); [eassumption|by intros b [[? _] _] _|].
  intros size_pos s4 Hs4 Hsp. do 2 step. step.
  eapply wp_getwriteptr_ses; [eassumption|apply Hmu|apply Hmu|]. intros ptr s5 Hs5 Hp1 Hp2. step.
  eapply wp_fd_read; [eassumption|lia|]. intros e s6 Hs6 He.
  assert (Hcl : ch_ok p (closed c fd SHUT_RD)) by (by apply closed_ok).
  assert (Hclear : forall s c', ses_inv (Some (p, c')) s -> ch_ok p c' -> wp clear_wp Q s)
    by (intros; eapply wp_clear; [eassumption|]; intros; by eapply HQ).
  destruct (read_bytes e) as [bs|] eqn:Ebs.
  2: { step. apply (wp_mono _ (fun _ s' => exists c', ses_inv (Some (p, c')) s' /\ ch_ok p c')).
       - step; [|by exists c]. eapply wp_close_fd; [eassumption|]. eauto.
       - intros [] s7 (c' & Hs7 & Hc'). by eapply Hclear. }
  assert (Hbs : bytes bs /\ zlen bs <= maxlen).
  { destruct e; simpl in Ebs; simplify_eq; [done|]. split; [done|]. change (zlen (@nil Z)) with 0. lia. }
  destruct Hbs as [Hbb Hbl]. pose proof (zlen_nonneg bs). destruct (zlen bs =? 0).
  { step. eapply wp_close_fd; [eassumption|]. intros s7 Hs7. by eapply Hclear. }
  step. eapply wp_store_ses; [eassumption|done|done|lia|]. intros s7 Hs7. step.
  eapply wp_mangled; [eassumption|done|lia|]. intros len s8 Hs8 Hlen.
  destruct (len =? 0); [by eapply Hclear|]. step.
  eapply wp_incrwritepos_ses; [eassumption|unfold is_u32, TRANS_MAX_PAYLOAD_LEN in *; lia|]. intros s9 Hs9. step.
  eapply wp_setpos_ses; [eassumption|done|]. intros s10 Hs10. steps.
  - eapply wp_close_fd; [eassumption|]. intros s11 Hs11. eapply HQ; [exact Hs11|].
    apply closed_ok; [by apply transwindow_ok|done].
  - eapply HQ; [eassumption|by apply transwindow_ok].
Qed.

(** *** check_close *)

Definition at_ok (p : Z) (s : ses) : Prop := exists c, ses_inv (Some (p, c)) s /\ ch_ok p c.

Lemma at_ok_close p s : at_ok p s -> ses_ok s.
Proof. intros (c & Hi & Hok). by eapply inv_close. Qed.

Lemma wp_type_check p c s Q : (forall b, Q b s) -> wp (type_check_close chan_type p c) Q s.
Proof. intros HQ. unfold type_check_close. destruct (ct_check_close _); [by apply wp_gets|by apply wp_ret]. Qed.

Lemma writebuf_some p c : ch_ok p c -> is_Some (ch_writebuf c).
Proof. intros (_ & _ & _ & [((wb & -> & _) & _)|[((wb & -> & _) & _) _]]); by eexists. Qed.

Lemma wp_write_pending p c s Q :
  ch_ok p c -> (forall b, Q b s) -> wp (write_pending (X := X) c) Q s.
Proof.
  intros Hok HQ. destruct (writebuf_some p c Hok) as [wb Hwb]. unfold write_pending, cbuf_of, ch_cbuf. rewrite Hwb.
  step. apply (wp_mono _ (fun _ s' => s' = s)); [destruct (ch_writefd c >=? 0); by steps|].
  intros a s' ->. destruct a; by steps.
Qed.

Lemma initconn_false p c : ch_ok p c -> ch_readfd c = FD_CLOSED -> ch_initconn c = false.
Proof.
  intros (_ & _ & _ & [(_ & _ & _ & _ & _ & Hr & _)|[_ ?]]) E; [|done]. unfold FD_CLOSED, FD_UNINIT in *. lia.
Qed.

Lemma wp_check_close p c s Q :
  ses_inv (Some (p, c)) s -> ch_ok p c -> (forall s', ses_ok s' -> Q tt s') ->
  wp (check_close chan_type read_mangler p) Q s.
Proof.
  intros Hi Hok HQ. unfold check_close. do 3 step. cbv zeta. apply wp_type_check. intros b1.
  step. step. step.
  match goal with H : ses_inv (Some (p, ?x)) _ |- _ => lazymatch x with c => fail | _ => set (c1 := x) in * end end.
  assert (Hok1 : ch_ok p c1) by (subst c1; by case_match).
  apply wp_type_check. intros b2. cbv zeta. step. apply (wp_write_pending p); [done|]. intros pend.
  assert (Hwf : connecting c1 -> ch_writefd c <> FD_UNINIT).
  { intros (_ & _ & _ & _ & _ & _ & Hw). subst c1. by case_match. }
  match goal with |- wp (if ?b then _ else _) _ _ => destruct b end.
  { step. apply (wp_mono _ (fun _ s' => exists c', ses_inv (Some (p, c')) s' /\ ch_index c' = p)).
    - step; [|by exists c1; split; [|apply Hok1]].
      eapply wp_send_close; [eassumption|apply Hok1|]. eauto.
    - intros [] s1 (c' & Hs1 & Hidx). by eapply wp_remove_channel. }
  step. apply (wp_mono _ (fun _ s' => at_ok p s')).
  { step; [|by exists c1]. eapply wp_close_fd; [eassumption|]. intros s1 Hs1. eexists. split; [eassumption|].
    by apply closed_ok. }
  intros [] s2 (c2 & Hs2 & Hok2). step. step. step.
  apply (wp_mono _ (fun _ s' => at_ok p s')).
  { step; [|by exists c2]. step. apply (wp_mono _ (fun _ s' => at_ok p s')).
    - step; [|by exists c2]. eapply wp_send_data; [eassumption|done|]. intros c3 s3 Hs3 Hok3. by exists c3.
    - intros [] s3 (c3 & Hs3 & Hok3). do 3 step; [|by exists c3].
      eapply wp_send_data; [eassumption|done|]. intros c4 s4 Hs4 Hok4. by exists c4. }
  intros [] s3 (c3 & Hs3 & Hok3). step. step. step.
  apply (wp_mono _ (fun _ s' => at_ok p s')).
  { step; [|by exists c3]. bool_hyps. eapply wp_send_eof; [eassumption|]. intros s4 Hs4.
    eexists. split; [eassumption|]. apply eof_ok; [done|done|].
    match goal with H : _ \/ _ |- _ => by destruct H as [-> | ->]; rewrite ?orb_true_r end. }
  intros [] s4 (c4 & Hs4 & Hok4). step. step. step. apply (wp_write_pending p); [done|]. intros pend2.
  step; [|by apply HQ; eapply inv_close]. bool_hyps.
  eapply wp_send_close; [eassumption|apply Hok4|]. intros c5 s5 Hs5 _ Hok5. apply HQ.
  eapply inv_close; [eassumption|]. apply Hok5; [done|]. by eapply initconn_false.
Qed.

(** *** Data from the wire *)

Lemma set_cbuf_id b cb c : ch_cbuf b c = Some cb -> set_ch_cbuf b (Some cb) c = c.
Proof. destruct b, c; cbn; by intros ->. Qed.

Lemma wp_on_cbuf {A} p c s b cb (m : prog circbuffer A) a cb' Q :
  ses_inv (Some (p, c)) s -> ch_cbuf b c = Some cb -> m cb = Ok (a, cb') ->
  (forall s', ses_inv (Some (p, set_ch_cbuf b (Some cb') c)) s' -> Q a s') -> wp (on_cbuf p b m) Q s.
Proof.
  intros Hi Hcb Hm HQ. unfold on_cbuf. do 2 step. rewrite Hcb, Hm. steps. by apply HQ.
Qed.

(** The same for an operation that only looks. *)
Lemma wp_look_cbuf {A} p c s b cb (m : prog circbuffer A) a Q :
  ses_inv (Some (p, c)) s -> ch_cbuf b c = Some cb -> m cb = Ok (a, cb) ->
  (forall s', ses_inv (Some (p, c)) s' -> Q a s') -> wp (on_cbuf p b m) Q s.
Proof.
  intros Hi Hcb Hm HQ. eapply wp_on_cbuf; [done|done|done|]. intros s' Hs'.
  rewrite set_cbuf_id in Hs' by done. by apply HQ.
Qed.

Lemma window_cbuf c b cb : window_ok recv_window c -> ch_cbuf b c = Some cb -> ring_ok recv_window cb.
Proof.
  intros ((wb & Ewb & Hwb) & Heb & _) Hcb. destruct b; cbn in Hcb; [|by apply Heb]. congruence.
Qed.

(** Replacing a ring buffer by one that holds [n] bytes more. *)
Lemma window_sum c b cb cb' d w :
  window_ok recv_window c -> ch_cbuf b c = Some cb -> ring_ok recv_window cb' ->
  0 <= d -> 0 <= w -> d + w + c_used cb' = ch_recvdonelen c + ch_recvwindow c + c_used cb ->
  window_ok recv_window (set_ch_recvwindow w (set_ch_recvdonelen d (set_ch_cbuf b (Some cb') c))).
Proof.
  intros ((wb & Ewb & Hwb) & Heb & Hw & Hd & Hsum) Hcb Hcb' Hd' Hw' E. unfold window_ok.
  destruct b; cbn in *; rewrite Hcb in *; cbn in *; split_and!; eauto; try lia.
  by intros ? [= <-].
Qed.

Lemma used_range c b cb :
  window_ok recv_window c -> ch_cbuf b c = Some cb ->
  0 <= c_used cb /\ ch_recvdonelen c + ch_recvwindow c + c_used cb <= recv_window.
Proof.
  intros Hok Hcb. pose proof (window_cbuf c b cb Hok Hcb) as [(_ & _ & Hu & _) _].
  destruct Hok as ((wb & Ewb & [(_ & _ & Huw & _) _]) & Heb & Hw & Hd & Hsum).
  assert (0 <= used_of (ch_extrabuf c)).
  { destruct (ch_extrabuf c) as [eb|]; [|done]. destruct (Heb eb eq_refl) as [(_ & _ & ? & _) _]. cbn. lia. }
  rewrite Ewb in Hsum. cbn in Hsum.
  destruct b; cbn in Hcb; [rewrite Ewb in Hcb; simplify_eq; lia|rewrite Hcb in *; cbn in *; lia].
Qed.

Lemma wp_window_adjust p c s incr Q :
  ses_inv (Some (p, c)) s -> (forall s', ses_inv (Some (p, c)) s' -> Q tt s') ->
  wp (send_msg_channel_window_adjust p incr) Q s.
Proof. intros Hi HQ. unfold send_msg_channel_window_adjust. steps. by apply HQ. Qed.

Lemma wp_fd_write o s fd bs Q :
  ses_inv o s ->
  (forall e s', ses_inv o s' -> match e with WBytes n => 0 <= n <= zlen bs | _ => True end -> Q e s') ->
  wp (fd_write fd bs) Q s.
Proof.
  intros Hi HQ. pose proof Hi as ((_ & _ & _ & ? & ? & ? & ?) & _). pose proof (zlen_nonneg bs). unfold wp, fd_write.
  destruct (cs_writes s) as [|e rest]; [by apply HQ|].
  destruct e; apply HQ; try done; try (by eapply (inv_frame recv_window chan_type o s)). lia.
Qed.

(** A channel with its buffers set up. *)
Definition running (p : Z) (c : Channel) : Prop :=
  ch_index c = p /\ ranges_ok c /\ ends_ok chan_type c /\ window_ok recv_window c /\ ch_initconn c = false.

Lemma running_ok p c : running p c -> ch_ok p c.
Proof. intros (? & ? & ? & ? & ?). split_and!; try done. by right. Qed.

Lemma ok_running p c : ch_ok p c -> ch_initconn c = false -> running p c.
Proof. intros (? & ? & ? & [(_ & _ & ? & _)|[? ?]]) ?; [congruence|done]. Qed.

Lemma closed_running p c fd how : running p c -> running p (closed c fd how).
Proof.
  intros Hr. assert (Hini : ch_initconn c = false) by apply Hr. apply ok_running.
  - apply closed_ok; [by apply running_ok|]. intros (_ & _ & ? & _). congruence.
  - by destruct (closed_spec c fd how) as (-> & _).
Qed.

Lemma running_window p c b cb' d w :
  running p c -> window_ok recv_window (set_ch_recvwindow w (set_ch_recvdonelen d (set_ch_cbuf b (Some cb') c))) ->
  (b = ExtraBuf -> ch_extrabuf c <> None) ->
  running p (set_ch_recvwindow w (set_ch_recvdonelen d (set_ch_cbuf b (Some cb') c))).
Proof.
  intros (Hidx & Hr & (He1 & He2 & He3) & _ & Hini) Hw Hx. destruct b; (split_and!; try done).
  split; [done|]. split; [|done]. cbn. intros Hse. destruct (He2 Hse) as [? _]. by split.
Qed.

Lemma wp_writechannel p c s fd b Q :
  ses_inv (Some (p, c)) s -> running p c -> is_Some (ch_cbuf b c) ->
  (forall c' s', ses_inv (Some (p, c')) s' -> running p c' -> Q tt s') ->
  wp (writechannel recv_window chan_type p fd b) Q s.
Proof.
  intros Hi Hrun [cb Hcb] HQ. pose proof Hrun as (_ & _ & _ & Hwin & _).
  pose proof (window_cbuf c b cb Hwin Hcb) as [Hwf Hsz]. pose proof (used_range c b cb Hwin Hcb) as [Hu Hsum].
  assert (Hrl : 0 <= readlen_spec cb <= c_used cb).
  { cbuf_facts Hwf. unfold readlen_spec. destruct (Z.ltb_spec (c_readpos cb + c_used cb) (c_size cb)); lia. }
  destruct (cbuf_read_chunk cb (readlen_spec cb) Hwf) as (_ & E1 & E2 & _); [lia|].
  unfold writechannel. step. eapply wp_look_cbuf; [eassumption|done|by apply cbuf_readlen_ok|]. intros s1 Hs1. step.
  eapply wp_look_cbuf; [eassumption|done|exact E1|]. intros s2 Hs2. step.
  eapply wp_look_cbuf; [eassumption|done|exact E2|]. intros s3 Hs3. step.
  eapply wp_fd_write; [eassumption|]. intros e s4 Hs4 He.
  destruct e as [len| |]; [|step; by eapply HQ|].
  2: { eapply wp_close_fd; [eassumption|]. intros s5 Hs5. eapply HQ; [eassumption|by apply closed_running]. }
  rewrite zlen_ztake in He by (rewrite zlen_contents; lia).
  destruct (Z.leb_spec len 0); [step; by eapply HQ|]. step.
  destruct (cbuf_read_chunk cb len Hwf) as (cb2 & _ & _ & E3 & Hwf2 & Hsz2 & Hu2 & _); [lia|].
  eapply wp_on_cbuf; [eassumption|done|exact E3|]. intros s5 Hs5. do 4 step.
  assert (Hring2 : ring_ok recv_window cb2) by (split; [done|congruence]).
  assert (Hwin_pos : 0 <= ch_recvwindow c /\ 0 <= ch_recvdonelen c) by (destruct Hwin as (_ & _ & ? & ? & _); done).
  assert (Hxx : b = ExtraBuf -> ch_extrabuf c <> None) by (intros ->; cbn in Hcb; congruence).
  unfold MAX_RECV_WINDOW in *.
  assert (Hdone : ch_recvdonelen (set_ch_cbuf b (Some cb2) c) = ch_recvdonelen c) by (by destruct b).
  rewrite Hdone, u32_small in * by (unfold is_u32; lia). set (d := ch_recvdonelen c + len) in *.
  set (c2 := set_ch_recvdonelen d (set_ch_cbuf b (Some cb2) c)) in *.
  assert (Hrun2 : running p c2).
  { assert (E : c2 = set_ch_recvwindow (ch_recvwindow c) c2) by (subst c2; by destruct b, c).
    rewrite E. apply running_window; [done| |done]. apply (window_sum c b cb); try done; lia. }
  assert (Hfacts : ch_recvdonelen c2 = d /\ ch_recvwindow c2 = ch_recvwindow c) by (subst c2; by destruct b).
  destruct Hfacts as [Hd2 Hw2].
  step. apply (wp_mono _ (fun _ s' => exists c', ses_inv (Some (p, c')) s' /\ running p c')).
  - step; [|by exists c2]. step. eapply wp_window_adjust; [eassumption|]. intros s7 Hs7. do 3 step.
    rewrite Hd2, Hw2, u32_small in * by (unfold is_u32; lia).
    eexists. split; [eassumption|].
    assert (E : set_ch_recvdonelen 0 (set_ch_recvwindow (ch_recvwindow c + d) c2) =
      set_ch_recvwindow (ch_recvwindow c + d) (set_ch_recvdonelen 0 (set_ch_cbuf b (Some cb2) c)))
      by (subst c2; by destruct b, c).
    rewrite E. apply running_window; [done| |done]. apply (window_sum c b cb); try done; lia.
  - intros [] s7 (c3 & Hs7 & Hrun3). destruct (writebuf_some p c3 (running_ok _ _ Hrun3)) as [wb Hwb].
    do 5 step. unfold cbuf_of, ch_cbuf. rewrite Hwb. do 4 step. by eapply HQ.
Qed.

Lemma wp_payload_bytes o s n Q :
  ses_inv o s -> is_u32 n -> n <= OBJECT_MAX ->
  (forall bs s', ses_inv o s' -> bytes bs -> zlen bs = n -> Q bs s') -> wp (on_payload (getptr_bytes n)) Q s.
Proof.
  intros Hi Hn Hm HQ. pose proof Hi as ((_ & _ & _ & Hp & _) & _). pose proof Hp as ([? ?] & ? & ? & ? & ?).
  apply (wp_on_payload recv_window chan_type o s _ (fun bs => bytes bs /\ zlen bs = n)); [done| |intros bs s' ? [? ?]; by apply HQ].
  unfold getptr_bytes. step. eapply wp_mono; [by apply wp_getptr|]. intros a b (-> & -> & Hle).
  unfold is_u32 in Hn. apply wp_load_bytes; [done|done|lia|lia|]. intros l Hl Hb. done.
Qed.

Lemma wp_payload_incrpos o s n Q :
  ses_inv o s -> - 2 ^ 31 <= n < 2 ^ 31 -> (forall s', ses_inv o s' -> Q tt s') -> wp (on_payload (buf_incrpos n)) Q s.
Proof.
  intros Hi Hn HQ. pose proof Hi as ((_ & _ & _ & Hp & _) & _).
  apply (wp_on_payload recv_window chan_type o s _ (fun _ => True)); [done| |intros [] s' ? _; by apply HQ].
  eapply wp_mono; [by apply wp_incrpos|]. by intros.
Qed.

Lemma write_readpos (cb cb1 cb2 : circbuffer) bs n :
  cbuf_store (c_writepos cb) bs cb = Ok (tt, cb1) -> cbuf_incrwrite n cb1 = Ok (tt, cb2) ->
  c_readpos cb2 = c_readpos cb.
Proof.
  unfold cbuf_store, cbuf_incrwrite, cbuf_writelen, cbuf_assert_positions, when, c_mod, dropbear_assert, dropbear_exit, gets, modify, ret, fault, id, bind.
  intros E1 E2. by repeat (case_match; simplify_eq).
Qed.

(** One pass of the copy loop. *)
Lemma wp_recv_pass n p c s b cb len Q :
  ses_inv (Some (p, c)) s -> ch_cbuf b c = Some cb -> wf_cbuf cb -> 0 < len <= c_size cb - c_used cb ->
  (forall cb' s', ses_inv (Some (p, set_ch_cbuf b (Some cb') c)) s' -> wf_cbuf cb' -> c_size cb' = c_size cb ->
     c_readpos cb' = c_readpos cb -> c_used cb' = c_used cb + Z.min (writelen_spec cb) len ->
     wp (recv_data_loop n p b (len - Z.min (writelen_spec cb) len)) Q s') ->
  wp (recv_data_loop (S n) p b len) Q s.
Proof.
  intros Hi Hcb Hwf Hlen HQ. cbn [recv_data_loop]. rewrite Z.gtb_ltb, (proj2 (Z.ltb_lt 0 len)) by lia.
  assert (Hwl : 0 < writelen_spec cb).
  { cbuf_facts Hwf. unfold writelen_spec. destruct (Z.ltb_spec (c_readpos cb + c_used cb) (c_size cb)); lia. }
  assert (Hsz : c_size cb <= 100000000) by (cbuf_facts Hwf; lia).
  assert (Hus : 0 <= c_used cb) by (cbuf_facts Hwf; lia).
  set (k := Z.min (writelen_spec cb) len) in *.
  step. eapply wp_look_cbuf; [eassumption|done|by apply cbuf_writelen_ok|]. intros s1 Hs1. cbv zeta. fold k.
  step. eapply wp_look_cbuf; [eassumption|done| |].
  { unfold cbuf_writeptr. rewrite (bind_ok _ _ _ _ _ (cbuf_writelen_ok cb Hwf)).
    rewrite Z.gtb_ltb, (proj2 (Z.ltb_ge (writelen_spec cb) k)) by lia. reflexivity. }
  intros s2 Hs2. step. eapply wp_payload_bytes; [eassumption|unfold is_u32; lia|unfold OBJECT_MAX; lia|].
  intros bs s3 Hs3 Hbs Hzl. step.
  destruct (cbuf_write_chunk cb bs Hwf Hbs) as (c1 & c2 & _ & E2 & E3 & Hwf2 & Hsz2 & Hu2 & _); [lia|].
  eapply wp_on_cbuf; [eassumption|done|exact E2|]. intros s4 Hs4. step.
  rewrite Hzl in E3. eapply wp_on_cbuf; [eassumption|by destruct b|exact E3|]. intros s5 Hs5. step.
  eapply wp_payload_incrpos; [eassumption|lia|]. intros s6 Hs6. apply (HQ c2); [|done|done|by eapply write_readpos|lia].
  by destruct b.
Qed.

(** Two passes are enough. *)
Lemma wp_recv_data_loop p c s b cb len Q :
  ses_inv (Some (p, c)) s -> ch_cbuf b c = Some cb -> wf_cbuf cb -> 0 <= len <= c_size cb - c_used cb ->
  (forall cb' s', ses_inv (Some (p, set_ch_cbuf b (Some cb') c)) s' -> wf_cbuf cb' -> c_size cb' = c_size cb ->
     c_used cb' = c_used cb + len -> Q tt s') ->
  wp (recv_data_loop 2 p b len) Q s.
Proof.
  intros Hi Hcb Hwf Hlen HQ. destruct (Z.eq_dec len 0) as [->|Hne].
  { apply (HQ cb); [by rewrite set_cbuf_id|done|done|lia]. }
  eapply wp_recv_pass; [eassumption|done|done|lia|]. intros cb1 s1 Hs1 Hwf1 Hsz1 Hrp Hu1.
  set (k := Z.min (writelen_spec cb) len) in *.
  destruct (Z.eq_dec (len - k) 0) as [E|Hne1].
  { rewrite E. apply (HQ cb1); [done|done|done|lia]. }
  assert (Hw1 : len - k <= writelen_spec cb1).
  { cbuf_facts Hwf. cbuf_facts Hwf1. clear Hs1. unfold writelen_spec in *. subst k.
    destruct (Z.ltb_spec (c_readpos cb + c_used cb) (c_size cb));
      destruct (Z.ltb_spec (c_readpos cb1 + c_used cb1) (c_size cb1)); lia. }
  assert (Hk : 0 < k).
  { subst k. cbuf_facts Hwf. unfold writelen_spec.
    destruct (Z.ltb_spec (c_readpos cb + c_used cb) (c_size cb)); lia. }
  eapply (wp_recv_pass 0 p _ _ b cb1); [eassumption|by destruct b|done|lia|].
  intros cb2 s2 Hs2 Hwf2 Hsz2 _ Hu2. replace (len - k - _) with 0 by lia.
  apply (HQ cb2); [by destruct b|done|congruence|lia].
Qed.

(** A data message: what does not fit the window ends the session. *)
Lemma wp_common_data p c s fd b Q :
  ses_inv (Some (p, c)) s -> ch_ok p c -> (forall s', at_ok p s' -> Q tt s') ->
  wp (common_recv_msg_channel_data recv_window p fd b) Q s.
Proof.
  intros Hi Hok HQ. unfold common_recv_msg_channel_data. do 2 step.
  destruct (ch_recv_eof c); [by step|]. destruct (ch_cbuf b c) as [cb|] eqn:Hcb; [|step; apply HQ; by exists c].
  destruct (fd <? 0); [step; apply HQ; by exists c|]. do 2 step. cbv zeta.
  match goal with H : is_u32 ?v |- _ => rename v into n; rename H into Hn end. unfold is_u32 in Hn.
  rewrite Z.gtb_ltb. destruct (Z.ltb_spec (cbuf_getavail cb) n) as [|Hle]; [by step|]. step.
  destruct Hok as (Hidx & Hr & He & [Hc|[Hw Hini]]).
  - pose proof Hc as ((wb & Hwb & Hs0 & Hu0 & Hw0 & Hd0) & Hx & _).
    destruct b; cbn in Hcb; [|congruence]. assert (wb = cb) as -> by congruence.
    assert (n = 0) as ->. { unfold cbuf_getavail in Hle. rewrite Hs0, Hu0 in Hle. change (u32 (0 - 0)) with 0 in Hle. lia. }
    cbn [recv_data_loop]. change (0 >? 0) with false. cbv iota. steps. apply HQ. eexists. split; [eassumption|].
    destruct c. cbn in Hw0. subst. split_and!; try done. by left.
  - pose proof (window_cbuf c b cb Hw Hcb) as [Hwf Hsz]. pose proof (used_range c b cb Hw Hcb) as [Hu Hsum].
    assert (Hav : cbuf_getavail cb = c_size cb - c_used cb).
    { cbuf_facts Hwf. unfold cbuf_getavail. apply u32_small. unfold is_u32. lia. }
    eapply wp_recv_data_loop; [eassumption|done|done|lia|]. intros cb' s2 Hs2 Hwf2 Hsz2 Hu2.
    steps. apply HQ. eexists. split; [eassumption|].
    assert (Hrw : ch_recvwindow (set_ch_cbuf b (Some cb') c) = ch_recvwindow c) by (by destruct b).
    rewrite Hrw in *. match goal with H : (_ >=? _) = true |- _ => apply Z.geb_le in H end.
    assert (Hpos : 0 <= ch_recvwindow c /\ 0 <= ch_recvdonelen c) by (destruct Hw as (_ & _ & ? & ? & _); done).
    unfold MAX_RECV_WINDOW in *. rewrite u32_small by (unfold is_u32; lia). apply running_ok.
    replace (set_ch_cbuf b (Some cb') c) with (set_ch_recvdonelen (ch_recvdonelen c) (set_ch_cbuf b (Some cb') c))
      by (by destruct b, c).
    apply (running_window p c b cb'); [done| |intros ->; cbn in Hcb; congruence].
    assert (Hring : ring_ok recv_window cb') by (split; [done|congruence]).
    apply (window_sum c b cb); try done; lia.
Qed.

(** *** Messages about a channel *)

Lemma wp_getchannel kind s Q :
  ses_ok s -> (forall p c s', ses_inv (Some (p, c)) s' -> ch_ok p c -> Q p s') -> wp (getchannel_msg kind) Q s.
Proof.
  intros Hi HQ. unfold getchannel_msg. do 2 step.
  step. apply wp_gets. rewrite Z.geb_leb. destruct (Z.leb_spec (cs_chansize s') v); [by step|].
  step. apply wp_gets. pose proof H as ((Hl & _) & _).
  destruct (zget_is_Some (cs_channels s') v) as [[c|] Hv]; [unfold is_u32 in *; lia| |].
  - rewrite Hv. destruct (inv_focus _ _ s' v c H Hv). step. by eapply HQ.
  - rewrite Hv. by step.
Qed.

Lemma wp_recv_eof s : ses_ok s -> wp (recv_msg_channel_eof chan_type read_mangler) (fun _ s' => ses_ok s') s.
Proof.
  intros Hi. unfold recv_msg_channel_eof. step. apply wp_getchannel; [done|]. intros p c s1 Hs1 Hok. do 2 step.
  by eapply wp_check_close.
Qed.

Lemma wp_recv_close s : ses_ok s -> wp (recv_msg_channel_close chan_type read_mangler) (fun _ s' => ses_ok s') s.
Proof.
  intros Hi. unfold recv_msg_channel_close. step. apply wp_getchannel; [done|]. intros p c s1 Hs1 Hok. do 4 step.
  by eapply wp_check_close.
Qed.

Lemma wp_recv_data s : ses_ok s -> wp (recv_msg_channel_data recv_window) (fun _ s' => ses_ok s') s.
Proof.
  intros Hi. unfold recv_msg_channel_data. step. apply wp_getchannel; [done|]. intros p c s1 Hs1 Hok. do 2 step.
  eapply wp_common_data; [eassumption|done|]. intros s2. apply at_ok_close.
Qed.

Lemma wp_recv_window_adjust s : ses_ok s -> wp recv_msg_channel_window_adjust (fun _ s' => ses_ok s') s.
Proof.
  intros Hi. unfold recv_msg_channel_window_adjust. step. apply wp_getchannel; [done|]. intros p c s1 Hs1 Hok.
  do 2 step. cbv zeta. do 2 step. step. eapply inv_close; [eassumption|].
  set (w := Z.min _ _). replace w with (u32 w); [by apply transwindow_ok; apply (transwindow_ok p c)|].
  apply u32_small. pose proof (u32_range (ch_transwindow c + Z.min v TRANS_MAX_WIN_INCR)) as [? ?].
  subst w. unfold TRANS_MAX_WINDOW, is_u32 in *. cbn. lia.
Qed.

Lemma wp_recv_request s : ses_ok s -> wp (recv_msg_channel_request chan_type) (fun _ s' => ses_ok s') s.
Proof.
  intros Hi. unfold recv_msg_channel_request. step. apply wp_getchannel; [done|]. intros p c s1 Hs1 Hok. do 2 step.
  pose proof (inv_close _ _ _ _ _ Hs1 Hok) as Hs1'.
  destruct (ch_sent_close c); [by step|].
  destruct (ct_reqhandler (chan_type (ch_type c))) as [h|] eqn:Eh.
  - destruct (negb (ch_close_handler_done c)); [by eapply (tk_request _ (types_ok (ch_type c)))|].
    clear Hs1'. unfold send_msg_channel_failure. steps. by eapply inv_close.
  - clear Hs1'. unfold send_msg_channel_failure. steps. by eapply inv_close.
Qed.

(** *** Opening *)

(** The channel chan_initwritebuf leaves: an empty buffer and a full window. *)
Definition windowed (cb : circbuffer) (c : Channel) : Channel :=
  set_ch_recvwindow recv_window (set_ch_writebuf (Some cb) (set_ch_writebuf None c)).

Lemma wp_initwritebuf p c s Q :
  ses_inv (Some (p, c)) s -> unset_window c ->
  (forall cb s', ses_inv (Some (p, windowed cb c)) s' -> ring_ok recv_window cb -> c_used cb = 0 -> Q tt s') ->
  wp (chan_initwritebuf recv_window p) Q s.
Proof.
  intros Hi (wb & Hwb & Hs0 & Hu0 & Hw0 & Hd0) HQ. unfold chan_initwritebuf. do 3 step.
  unfold cbuf_of, ch_cbuf. rewrite Hwb. do 3 step. step. step. step.
  match goal with |- wp _ _ ?s0 => destruct (wf_cbuf_new recv_window s0) as (cb & E & Hwf & Hc & Hsz) end.
  { unfold MAX_RECV_WINDOW, MAX_CBUF_SIZE in *. lia. }
  unfold wp at 1. rewrite E. apply wp_bind. step. step. eapply (HQ cb); [eassumption|done|].
  apply (f_equal (zlen (A := Z))) in Hc. rewrite zlen_contents in Hc by (cbuf_facts Hwf; lia). done.
Qed.

Lemma window_start cb eb c :
  ring_ok recv_window cb -> c_used cb = 0 -> unset_window c -> ch_extrabuf c = eb ->
  (forall b, eb = Some b -> ring_ok recv_window b /\ c_used b = 0) -> window_ok recv_window (windowed cb c).
Proof.
  intros Hr Hu (wb & Hwb & Hs0 & Hu0 & Hw0 & Hd0) <- Heb. split; [by exists cb|]. cbn. split; [by intros b Hb; apply Heb|].
  rewrite Hd0, Hu. split; [lia|]. split; [lia|]. destruct (ch_extrabuf c) as [b|]; cbn; [|lia].
  destruct (Heb b eq_refl) as [_ ->]. lia.
Qed.

Lemma fresh_windowed p cb c :
  fresh_chan p c -> ring_ok recv_window cb -> c_used cb = 0 -> running p (windowed cb c).
Proof.
  intros (Hidx & Hr & He & Hu & Hini & _ & Heb) Hcb Hu0. split; [done|]. split; [done|]. split; [done|]. split; [|done].
  by eapply window_start.
Qed.

Lemma wp_putempty_ses o s Q :
  ses_inv o s -> (forall s', ses_inv o s' -> Q tt s') -> wp (on_wp (buf_putstring [] 0)) Q s.
Proof. intros. eapply (wp_put recv_window chan_type o); eauto with ksize. intros. by apply (wp_putstring _ []). Qed.

Lemma wp_open_failure o s remotechan reason Q :
  ses_inv o s -> (forall s', ses_inv o s' -> Q tt s') -> wp (send_msg_channel_open_failure remotechan reason) Q s.
Proof.
  intros Hi HQ. unfold send_msg_channel_open_failure. do 6 step. step. eapply wp_putempty_ses; [eassumption|].
  intros s4 Hs4. step. eapply wp_putempty_ses; [eassumption|]. intros s5 Hs5. step. by apply HQ.
Qed.

Lemma wp_check_in_progress p c s Q :
  ses_inv (Some (p, c)) s -> ch_ok p c -> ch_initconn c = true -> (forall s', ses_ok s' -> Q tt s') ->
  wp (check_in_progress recv_window chan_type p) Q s.
Proof.
  intros Hi Hok Hini HQ. pose proof Hok as (Hidx & Hr & He & [Hc|[_ ?]]); [|congruence].
  unfold check_in_progress. do 3 step. apply (wp_mono _ (fun _ s' => ses_inv (Some (p, c)) s')).
  { unfold wp, fd_sockopt_error. pose proof Hi as ((_ & _ & _ & ? & ? & ? & ?) & _).
    destruct (cs_sockopts s); [done|]. by eapply (inv_frame recv_window chan_type _ s). }
  intros b s1 Hs1. destruct b.
  - step. eapply wp_open_failure; [eassumption|]. intros s2 Hs2. do 2 step. by eapply wp_remove_channel.
  - pose proof Hc as (Hu & Hx & _ & Hse & Hsc & Hrd & Hwr). step. eapply wp_initwritebuf; [eassumption|done|].
    intros cb s2 Hs2 Hcb Hcu. unfold send_msg_channel_open_confirmation. steps. apply HQ.
    eapply inv_close; [eassumption|]. split; [done|]. split; [done|]. split.
    + destruct He as (He1 & He2 & He3). split; [done|]. split; [|done]. cbn. congruence.
    + right. split; [|done]. eapply (window_start cb None c); done.
Qed.

Lemma first_free_spec (l : list (option Channel)) :
  0 <= first_free l <= zlen l /\ (first_free l < zlen l -> zget l (first_free l) = Some None).
Proof.
  induction l as [|[c|] l [IH1 IH2]]; cbn [first_free]; rewrite ?zlen_cons; [done| |].
  - split; [lia|]. intros Hlt. unfold zget in *.
    rewrite (proj2 (Z.leb_le 0 (1 + first_free l))) by lia. rewrite (proj2 (Z.leb_le 0 (first_free l))) in IH2 by lia.
    replace (Z.to_nat (1 + first_free l)) with (S (Z.to_nat (first_free l))) by lia. apply IH2. lia.
  - pose proof (zlen_nonneg l). split; [lia|done].
Qed.

Lemma live_app (l l' : list (option Channel)) : live (l ++ l') = live l + live l'.
Proof. induction l as [|[c|] l IH]; cbn [live app]; lia. Qed.

Lemma live_add (l : list (option Channel)) i c : zget l i = Some None -> live (zset l i (Some c)) = live l + 1.
Proof.
  unfold zget, zset. destruct (0 <=? i); [|done]. generalize (Z.to_nat i) as n. clear i.
  induction l as [|o l IH]; intros [|n] E; [done|done| |].
  - cbn in E. injection E as ->. change (1 + live l = live l + 1). lia.
  - specialize (IH n E). change (live (o :: <[n:=Some c]> l) = live (o :: l) + 1).
    destruct o; cbn [live]; rewrite IH; lia.
Qed.

(** The slot newchannel takes, after extending the table when it is full. *)
Lemma new_slot (l : list (option Channel)) l' :
  l' = (if first_free l =? zlen l then l ++ replicate (Z.to_nat CHAN_EXTEND_SIZE) None else l) ->
  zget l' (first_free l) = Some None /\ live l' = live l /\
  zlen l' = zlen l + (if first_free l =? zlen l then CHAN_EXTEND_SIZE else 0) /\
  forall i c, zget l' i = Some (Some c) -> zget l i = Some (Some c).
Proof.
  intros ->. destruct (first_free_spec l) as [Hr Hf]. destruct (Z.eqb_spec (first_free l) (zlen l)) as [E|E].
  - rewrite E, live_app, zlen_app, zget_app, Z.ltb_irrefl, Z.sub_diag by lia. split_and!.
    + done.
    + change (live l + 0 = live l). lia.
    + done.
    + intros i c Hi. pose proof (zget_Some_range _ _ _ Hi). rewrite zget_app in Hi by lia.
    destruct (Z.ltb_spec i (zlen l)); [done|].
    unfold zget in Hi. destruct (0 <=? i - zlen l); [|done]. by apply lookup_replicate_1 in Hi as [? _].
  - split_and!; [apply Hf; lia|done|lia|done].
Qed.

Lemma wp_newchannel remotechan type tw tmax s Q :
  ses_ok s -> is_u32 remotechan -> is_u32 tw -> is_u32 tmax ->
  (forall s', ses_ok s' -> Q None s') ->
  (forall p c s', ses_inv (Some (p, c)) s' -> blank p c -> Q (Some p) s') ->
  wp (newchannel remotechan type tw tmax) Q s.
Proof.
  intros ((Hl & Hc & Hn & H1 & H2 & H3 & H4) & _ & Hok) Hr1 Hr2 Hr3 HN HS. unfold newchannel.
  step. apply wp_gets. step. apply wp_gets. cbv zeta. set (i := first_free (cs_channels s)).
  destruct (new_slot (cs_channels s) _ eq_refl) as (Hfree & Hlive & Hlen & Hold). fold i in Hfree, Hlive, Hlen, Hold.
  set (l' := if i =? zlen (cs_channels s) then _ else _) in *.
  match goal with |- wp (if ?b then _ else _) _ _ => destruct b eqn:Eb end; [step; by apply HN|].
  step. apply (wp_mono _ (fun _ s' => s' = set_cs_chansize (zlen l') (set_cs_channels l' s))).
  { rewrite <-Hl in *. subst l'. unfold when. destruct (Z.eqb_spec i (zlen (cs_channels s))) as [E|E].
    - step. apply wp_modify, wp_modify. f_equal. rewrite zlen_app, Hl. done.
    - step. destruct s. cbn in Hl. by subst. }
  intros [] s1 ->. step. unfold cbuf_new. change (0 >? MAX_CBUF_SIZE) with false. change (0 >? 0) with false. cbv iota.
  do 3 step. step. apply wp_modify. step. apply wp_modify. step.
  apply (HS i (blank_channel i remotechan type tw tmax (mkcbuf 0 0 0 0 []))); [|by exists remotechan, type, tw, tmax].
  assert (Hsz : zlen l' < MAX_CHANNELS + CHAN_EXTEND_SIZE).
  { rewrite Hlen. destruct (Z.eqb_spec i (zlen (cs_channels s))) as [E|E]; [|lia].
    rewrite <-Hl, E, Z.eqb_refl in Eb. cbn in Eb. rewrite Z.geb_leb in Eb. apply Z.leb_gt in Eb. lia. }
  split; [|split].
  - unfold shape. cbn. rewrite zlen_zset, (live_add _ _ _ Hfree), Hlive, Hn. split_and!; try done.
    rewrite Hlen. unfold CHAN_EXTEND_SIZE. case_match; lia.
  - apply zget_zset_eq. by eapply zget_Some_range.
  - cbn. intros j c Hne Hj. rewrite zget_zset_ne in Hj by done. by apply Hok, Hold.
Qed.

Lemma wp_recv_open s :
  ses_ok s ->
  wp (recv_msg_channel_open recv_window chan_type chantypes) (fun _ s' => ses_ok s') s.
Proof.
  intros Hi. unfold recv_msg_channel_open. step.
  apply (wp_on_payload recv_window chan_type None s _ (fun _ => True)); [done| |].
  { pose proof Hi as ((_ & _ & _ & Hp & _) & _). eapply wp_mono; [by apply wp_getstring|]. by intros [] b [? _]. }
  intros [type typelen] s1 Hs1 _. do 2 step. rename v into remotechan. do 2 step. rename v into tw. cbv zeta.
  do 2 step. rename v into tmax. cbv zeta.
  destruct (typelen >? MAX_NAME_LEN); [by eapply wp_open_failure|].
  destruct (find_chantype chan_type chantypes type) as [ct|]; [|by eapply wp_open_failure].
  step. unfold is_u32 in *. eapply wp_newchannel; try eassumption.
  1,2: unfold is_u32, TRANS_MAX_WINDOW, TRANS_MAX_PAYLOAD_LEN; lia.
  { intros s2 Hs2. by eapply wp_open_failure. }
  intros p c s2 Hs2 Hb. step. pose proof (blank_fresh p c Hb) as Hf.
  apply (wp_mono _ (fun r s' => exists c', ses_inv (Some (p, c')) s' /\ ch_index c' = p /\
    (r = SSH_OPEN_IN_PROGRESS -> ch_ok p c') /\ (r <= 0 -> fresh_chan p c'))).
  { destruct (ct_inithandler (chan_type ct)) as [h|] eqn:Eh; [by eapply (tk_open _ (types_ok ct))|].
    step. exists c. split_and!; try done. apply Hf. }
  intros r s3 (c3 & Hs3 & Hidx & Hprog & Hfresh). destruct (Z.eqb_spec r SSH_OPEN_IN_PROGRESS) as [E|E].
  { step. eapply inv_close; [eassumption|]. by apply Hprog. }
  rewrite Z.gtb_ltb. destruct (Z.ltb_spec 0 r) as [Hr|Hr].
  - step. eapply wp_remove_channel; [eassumption|done|]. intros s4 Hs4. by eapply wp_open_failure.
  - specialize (Hfresh Hr). step. eapply wp_initwritebuf; [eassumption|apply Hfresh|]. intros cb s4 Hs4 Hcb Hu.
    unfold send_msg_channel_open_confirmation. steps. eapply inv_close; [eassumption|].
    apply running_ok. by apply fresh_windowed.
Qed.

Lemma wp_open_init fd type s :
  ses_ok s -> wp (send_msg_channel_open_init recv_window chan_type fd type) (fun _ s' => ses_ok s') s.
Proof.
  intros Hi. unfold send_msg_channel_open_init. step. eapply wp_newchannel; try done.
  intros p c s1 Hs1 Hb. step. pose proof (blank_fresh p c Hb) as Hf. eapply wp_initwritebuf; [eassumption|apply Hf|]. intros cb s2 Hs2 Hcb Hu.
  do 6 step. step. apply wp_modify.
  match goal with |- wp _ _ (set_cs_maxfd ?m ?s0) => set (s5 := set_cs_maxfd m s0) end.
  match goal with H : ses_inv (Some (p, set_ch_writefd fd ?x)) ?s0 |- _ =>
    assert (Hs5 : ses_inv (Some (p, set_ch_writefd fd x)) s5)
      by (pose proof H as ((_ & _ & _ & ? & ? & ? & ?) & _); by apply (inv_frame recv_window chan_type _ s0)) end.
  clearbody s5. do 4 step. cbv zeta. do 3 step.
  destruct (tk_name _ (types_ok type)) as [Hname Hlen].
  eapply (wp_put recv_window chan_type); [eassumption|auto with ksize|intros; by apply wp_putstring|].
  intros s8 Hs8. steps. eapply inv_close; [eassumption|].
  destruct (running_ok _ _ (fresh_windowed p cb c Hf Hcb Hu)) as (Hidx & Hr & (He1 & He2 & He3) & Hw).
  pose proof Hf as (_ & _ & _ & _ & Hini & Hse & _). destruct Hw as [(_ & _ & Hc & _)|[Hw _]]; [cbn in Hc; congruence|].
  split; [done|]. split; [done|]. split; [|by right].
  split; [done|]. split; [|done]. cbn. congruence.
Qed.

Lemma wp_open_confirmation_recv s :
  ses_ok s -> wp (recv_msg_channel_open_confirmation chan_type) (fun _ s' => ses_ok s') s.
Proof.
  intros Hi. unfold recv_msg_channel_open_confirmation. step. apply wp_getchannel; [done|]. intros p c s1 Hs1 Hok.
  do 2 step. destruct (negb (ch_await_open c)); [by step|]. do 14 step.
  match goal with H : ses_inv (Some (p, set_ch_transmaxpacket ?a ?x)) _ |- _ => set (c1 := set_ch_transmaxpacket a x) in * end.
  assert (Hok1 : ch_ok p c1) by (destruct Hok as (? & (? & ? & ? & ?) & ? & ?); by split_and!).
  destruct (ct_inithandler (chan_type (ch_type c))) as [h|] eqn:Eh; [|step; by eapply inv_close].
  step. eapply wp_mono; [by eapply (tk_confirm _ (types_ok (ch_type c)))|].
  cbn. intros r s9 (c9 & Hs9 & Hidx9 & Hok9). rewrite Z.gtb_ltb. destruct (Z.ltb_spec 0 r); cbn [when].
  - by eapply wp_remove_channel.
  - step. eapply inv_close; [eassumption|]. by apply Hok9.
Qed.

Lemma wp_open_failure_recv s :
  ses_ok s -> wp (recv_msg_channel_open_failure chan_type) (fun _ s' => ses_ok s') s.
Proof.
  intros Hi. unfold recv_msg_channel_open_failure. step. apply wp_getchannel; [done|]. intros p c s1 Hs1 Hok.
  do 2 step. destruct (negb (ch_await_open c)); [by step|]. do 2 step. eapply wp_remove_channel; [eassumption|apply Hok|done].
Qed.

(** *** The main loop *)

Lemma wp_maybe_write p c s fd b (go : bool) Q :
  ses_inv (Some (p, c)) s -> ch_ok p c -> (go = true -> ch_initconn c = false /\ is_Some (ch_cbuf b c)) ->
  (forall c' s', ses_inv (Some (p, c')) s' -> ch_ok p c' -> Q tt s') ->
  wp (when go (writechannel recv_window chan_type p fd b)) Q s.
Proof.
  intros Hi Hok Hgo HQ. step; [|by eapply HQ]. destruct Hgo as [Hini Hcb]; [done|].
  eapply wp_writechannel; [eassumption|by apply ok_running|done|]. intros c' s' Hs' Hrun. eapply HQ; [eassumption|].
  by apply running_ok.
Qed.

Lemma wp_channelio_one i c s readfds writefds :
  ses_inv (Some (i, c)) s -> ch_ok i c ->
  wp (channelio_one recv_window chan_type read_mangler i readfds writefds) (fun _ s' => ses_ok s') s.
Proof.
  intros Hi Hok. unfold channelio_one. do 3 step. apply (wp_mono _ (fun _ s' => at_ok i s')).
  { step; [|by exists c]. eapply wp_send_data; [eassumption|done|]. intros c1 s1 Hs1 Hok1. by exists c1. }
  intros [] s1 (c1 & Hs1 & Hok1). do 3 step. apply (wp_mono _ (fun _ s' => at_ok i s')).
  { step; [|by exists c1]. eapply wp_send_data; [eassumption|done|]. intros c2 s2 Hs2 Hok2. by exists c2. }
  intros [] s2 (c2 & Hs2 & Hok2). do 2 step. cbv zeta. set (wr := (ch_writefd c2 >=? 0) && FD_ISSET (ch_writefd c2) writefds). destruct (wr && ch_initconn c2) eqn:Ew.
  { apply andb_prop in Ew as [_ Hini]. by eapply wp_check_in_progress. }
  step. eapply wp_maybe_write; [eassumption|done| |].
  { intros ->. cbn in Ew. split; [done|]. by eapply writebuf_some. }
  intros c3 s3 Hs3 Hok3. do 3 step. eapply wp_maybe_write; [eassumption|done| |].
  { intros Hgo. unfold ERRFD_IS_WRITE, ERRFD_IS_READ in Hgo. cbn. destruct (ch_extrabuf c3) eqn:Hx; [|done].
    split; [|by eexists]. destruct Hok3 as (_ & _ & _ & [(_ & Hn & _)|[_ ?]]); [congruence|done]. }
  intros c4 s4 Hs4 Hok4. by eapply wp_check_close.
Qed.

Lemma wp_slot {A} (m1 m2 : prog ses A) i s Q :
  ses_ok s -> 0 <= i < cs_chansize s ->
  (zget (cs_channels s) i = Some None -> wp m1 Q s) ->
  (forall c, ses_inv (Some (i, c)) s -> ch_ok i c -> wp m2 Q s) ->
  wp (match zget (cs_channels s) i with
      | None => fault "channel table read out of bounds"
      | Some None => m1
      | Some (Some _) => m2
      end) Q s.
Proof.
  intros Hi Hr H1 H2. pose proof Hi as ((Hl & _) & _).
  destruct (zget_is_Some (cs_channels s) i) as [[c|] Hc]; [lia| |]; rewrite Hc; [|by apply H1].
  destruct (inv_focus _ _ s i c Hi Hc). by eapply H2.
Qed.

Lemma size_bound s : ses_ok s -> cs_chansize s < MAX_CHANNELS + CHAN_EXTEND_SIZE.
Proof. intros ((_ & [_ ?] & _) & _). done. Qed.

Lemma wp_channelio_loop n i readfds writefds s :
  ses_ok s -> 0 <= i -> MAX_CHANNELS + CHAN_EXTEND_SIZE <= i + Z.of_nat n ->
  wp (channelio_loop recv_window chan_type read_mangler n i readfds writefds) (fun _ s' => ses_ok s') s.
Proof.
  revert i s. induction n as [|n IH]; intros i s Hi H0 Hn; pose proof (size_bound s Hi); cbn [channelio_loop];
    step; apply wp_gets; destruct (Z.ltb_spec i (cs_chansize s)); try by step.
  - lia.
  - step. apply wp_gets. step. apply wp_slot; [done|lia| |].
    + intros _. step. apply IH; [done|lia|lia].
    + intros c Hs Hok. eapply wp_mono; [by eapply wp_channelio_one|]. cbn. intros _ s1 Hs1. apply IH; [done|lia|lia].
Qed.

Lemma wp_chancleanup_loop n i s :
  ses_ok s -> 0 <= i -> MAX_CHANNELS + CHAN_EXTEND_SIZE <= i + Z.of_nat n ->
  wp (chancleanup_loop chan_type n i) (fun _ s' => ses_ok s') s.
Proof.
  revert i s. induction n as [|n IH]; intros i s Hi H0 Hn; pose proof (size_bound s Hi); cbn [chancleanup_loop];
    step; apply wp_gets; destruct (Z.ltb_spec i (cs_chansize s)); try by step.
  - lia.
  - step. apply wp_gets. step. apply wp_slot; [done|lia| |].
    + intros _. step. apply IH; [done|lia|lia].
    + intros c Hs Hok. eapply wp_remove_channel; [eassumption|apply Hok|]. intros s1 Hs1. apply IH; [done|lia|lia].
Qed.

Context (handle_listeners : list Z -> prog ses unit) (set_listener_fds : list Z -> prog ses (list Z))
        (listeners_ok : forall fds s, ses_ok s -> wp (handle_listeners fds) (fun _ s' => ses_ok s') s)
        (listener_fds_ok : forall fds s, ses_ok s -> wp (set_listener_fds fds) (fun _ s' => ses_ok s') s).

Lemma wp_channelio readfds writefds s :
  ses_ok s ->
  wp (channelio recv_window chan_type read_mangler handle_listeners readfds writefds) (fun _ s' => ses_ok s') s.
Proof.
  intros Hi. unfold channelio. step. eapply wp_mono; [apply wp_channelio_loop; [done|done|]|].
  - rewrite Z2Nat.id by (by vm_compute). lia.
  - cbn. intros _ s1 Hs1. by apply listeners_ok.
Qed.

Lemma wp_chancleanup s : ses_ok s -> wp (chancleanup chan_type) (fun _ s' => cs_channels s' = []) s.
Proof.
  intros Hi. unfold chancleanup. step. eapply wp_mono; [apply wp_chancleanup_loop; [done|done|]|].
  - rewrite Z2Nat.id by (by vm_compute). lia.
  - cbn. intros _ s1 Hs1. done.
Qed.

(** ** The events of a session *)

(** What a session does to its channels: the messages of RFC 4254 the server
    handles, each with the payload that arrived, a channel opened from this
    side, and a round of the main loop with the descriptors select returned. *)
Inductive chan_op :=
  | OpOpen (payload : buffer) | OpConfirmation (payload : buffer) | OpOpenFailure (payload : buffer)
  | OpData (payload : buffer) | OpEof (payload : buffer) | OpClose (payload : buffer)
  | OpWindowAdjust (payload : buffer) | OpRequest (payload : buffer)
  | OpInit (fd : Z) (type : T)
  | OpSelect (readfds writefds : list Z) (reads : list read_event) (writes : list write_event) (sockopts : list Z).

Definition receiving (payload : buffer) (m : prog ses unit) : prog ses unit :=
  modify (set_cs_payload payload) ;;; m.

Definition run_chan_op (o : chan_op) : prog ses unit :=
  match o with
  | OpOpen b => receiving b (recv_msg_channel_open recv_window chan_type chantypes)
  | OpConfirmation b => receiving b (recv_msg_channel_open_confirmation chan_type)
  | OpOpenFailure b => receiving b (recv_msg_channel_open_failure chan_type)
  | OpData b => receiving b (recv_msg_channel_data recv_window)
  | OpEof b => receiving b (recv_msg_channel_eof chan_type read_mangler)
  | OpClose b => receiving b (recv_msg_channel_close chan_type read_mangler)
  | OpWindowAdjust b => receiving b recv_msg_channel_window_adjust
  | OpRequest b => receiving b (recv_msg_channel_request chan_type)
  | OpInit fd type => opened <- send_msg_channel_open_init recv_window chan_type fd type ;; when opened encrypt_packet
  | OpSelect readfds writefds reads writes sockopts =>
      modify (set_cs_reads reads) ;;; modify (set_cs_writes writes) ;;; modify (set_cs_sockopts sockopts) ;;;
      channelio recv_window chan_type read_mangler handle_listeners readfds writefds
  end.

Fixpoint run_chan_ops (l : list chan_op) : prog ses unit :=
  match l with [] => ret tt | o :: l => run_chan_op o ;;; run_chan_ops l end.

Definition chan_op_ok (o : chan_op) : Prop :=
  match o with
  | OpOpen b | OpConfirmation b | OpOpenFailure b | OpData b | OpEof b | OpClose b
  | OpWindowAdjust b | OpRequest b => wf_buffer b
  | OpInit _ _ => True
  | OpSelect _ _ reads _ _ => Forall event_bytes reads
  end.

Lemma wp_receiving b m s :
  wf_buffer b -> ses_ok s -> (forall s', ses_ok s' -> wp m (fun _ s' => ses_ok s') s') ->
  wp (receiving b m) (fun _ s' => ses_ok s') s.
Proof.
  intros Hb Hi Hm. unfold receiving. step. apply wp_modify, Hm. pose proof Hi as ((_ & _ & _ & ? & ? & ? & ?) & _).
  by apply (inv_frame recv_window chan_type None s).
Qed.

Lemma run_chan_op_ok o s : chan_op_ok o -> ses_ok s -> wp (run_chan_op o) (fun _ s' => ses_ok s') s.
Proof.
  intros Ho Hi. destruct o; cbn [run_chan_op chan_op_ok] in *; try (apply wp_receiving; [done|done|]).
  - apply wp_recv_open.
  - apply wp_open_confirmation_recv.
  - apply wp_open_failure_recv.
  - apply wp_recv_data.
  - apply wp_recv_eof.
  - apply wp_recv_close.
  - apply wp_recv_window_adjust.
  - apply wp_recv_request.
  - step. eapply wp_mono; [by apply wp_open_init|]. cbn. intros b s1 Hs1. step; [|done]. by steps.
  - step. apply wp_modify. step. apply wp_modify. step. apply wp_modify. apply wp_channelio.
    pose proof Hi as ((_ & _ & _ & ? & ? & ? & ?) & _). by apply (inv_frame recv_window chan_type None s).
Qed.

Lemma run_chan_ops_ok l s : Forall chan_op_ok l -> ses_ok s -> wp (run_chan_ops l) (fun _ s' => ses_ok s') s.
Proof.
  revert s. induction l as [|o l IH]; intros s Hl Hi; cbn [run_chan_ops]; [by step|].
  apply Forall_cons_1 in Hl as [Ho Hl]. step. eapply wp_mono; [by apply run_chan_op_ok|]. cbn. intros _ s1 Hs1. by apply IH.
Qed.

(** Before chaninitialise. *)
Definition session_start (s : ses) : Prop :=
  wf_buffer (cs_payload s) /\ wf_buffer (cs_writepayload s) /\
  b_size (cs_writepayload s) = TRANS_MAX_PAYLOAD_LEN /\ Forall event_bytes (cs_reads s).

Lemma wp_chaninitialise s : session_start s -> wp chaninitialise (fun _ s' => ses_ok s') s.
Proof.
  intros (H1 & H2 & H3 & H4). unfold chaninitialise. step. apply wp_modify. step. apply wp_modify. apply wp_modify.
  split; [by split_and!|]. split; [done|]. intros i c _ Hi. cbn in Hi. pose proof (zget_Some_range _ _ _ Hi) as Hr.
  change (0 <= i < 1) in Hr. assert (i = 0) as -> by lia. done.
Qed.

(** What the accounting promises about a session. *)
Definition channels_in_order (s : ses) : Prop :=
  cs_chancount s = live (cs_channels s) /\ zlen (cs_channels s) = cs_chansize s /\
  cs_chansize s < MAX_CHANNELS + CHAN_EXTEND_SIZE /\
  forall i c, zget (cs_channels s) i = Some (Some c) ->
    ch_index c = i /\
    (ch_sent_close c = true -> ch_sent_eof c = true) /\
    (ch_sent_eof c = true -> ch_readfd c < 0) /\
    (ch_initconn c = false ->
      ch_recvwindow c + used_of (ch_writebuf c) + used_of (ch_extrabuf c) + ch_recvdonelen c = recv_window).

Lemma ses_ok_in_order s : ses_ok s -> channels_in_order s.
Proof.
  intros ((Hl & [_ Hc] & Hn & _) & _ & Hok). split; [done|]. split; [done|]. split; [done|]. intros i c Hi.
  destruct (Hok i c I Hi) as (Hidx & _ & (He1 & He2 & _) & Hw). split; [done|]. split; [done|].
  split; [by intros; apply He2|]. intros Hini. destruct Hw as [(_ & _ & Hini' & _)|[(_ & _ & _ & _ & Hsum) _]]; [congruence|done].
Qed.

End Operations.
