(* ===== verification/ChannelSelect.v ===== *)
(** The descriptors common-channel.c passes to select (setchannelfds), and
    concrete sessions: toy channel types on which the theorems about the
    channel code are instantiated. *)

From S2P Require Import Prelude Dbutil Buffer CircBuffer Queue Cipher Hmac Ssh Packet Channel ChannelSafe.

Local Open Scope Z_scope.
Local Open Scope prog_scope.

(** ** The sets given to select *)

Section Select.
Context {T X : Type}.
Abbreviation Channel := (Channel T).
Abbreviation ses := (chses T X).

(** The descriptors a channel has something to read from, and to write to. *)
Definition wants_read (c : Channel) (fd : Z) : Prop :=
  0 < ch_transwindow c /\ 0 <= fd /\ (fd = ch_readfd c \/ ch_extrabuf c = None /\ fd = ch_errfd c).

Definition wants_write (c : Channel) (fd : Z) : Prop :=
  fd = ch_writefd c /\ (ch_initconn c = true \/ 0 <= fd /\ 0 < used_of (ch_writebuf c)) \/
  fd = ch_errfd c /\ 0 <= fd /\ 0 < used_of (ch_extrabuf c).

(** Descriptors select can handle. *)
Definition fds_ok (c : Channel) : Prop :=
  ch_readfd c < FD_SETSIZE /\ ch_writefd c < FD_SETSIZE /\ ch_errfd c < FD_SETSIZE /\
  (ch_initconn c = true -> 0 <= ch_writefd c) /\ is_Some (ch_writebuf c).

Lemma FD_SET_ok fd fds (s : ses) : 0 <= fd < FD_SETSIZE -> FD_SET fd fds s = Ok (fd :: fds, s).
Proof.
  intros H. unfold FD_SET. by rewrite (proj2 (Z.leb_le 0 fd)), (proj2 (Z.ltb_lt fd FD_SETSIZE)) by lia.
Qed.

(** One conditional FD_SET. *)
Lemma FD_SET_if (b : bool) fd fds (s : ses) :
  (b = true -> 0 <= fd < FD_SETSIZE) ->
  exists fds', (if b then FD_SET fd fds else ret fds) s = Ok (fds', s) /\
    forall x, x ∈ fds' <-> x ∈ fds \/ b = true /\ x = fd.
Proof.
  intros H. destruct b.
  - exists (fd :: fds). rewrite FD_SET_ok by auto. split; [done|]. intros x. rewrite elem_of_cons.
    split; [intros [->|?]; auto|intros [?|[_ ->]]; auto].
  - exists fds. split; [done|]. intros x. split; [auto|by intros [?|[? _]]].
Qed.

Lemma set_channel_fds_ok (c : Channel) rs ws (s : ses) :
  fds_ok c ->
  exists rs' ws', set_channel_fds c (rs, ws) s = Ok ((rs', ws'), s) /\
    (forall fd, fd ∈ rs' <-> fd ∈ rs \/ wants_read c fd) /\
    (forall fd, fd ∈ ws' <-> fd ∈ ws \/ wants_write c fd).
Proof.
  intros (Hr & Hw & He & Hini & [wb Hwb]). unfold set_channel_fds.
  destruct (FD_SET_if (ch_readfd c >=? 0) (ch_readfd c) rs s) as (rs1 & E1 & H1); [lia|].
  destruct (FD_SET_if (ERRFD_IS_READ c && (ch_errfd c >=? 0)) (ch_errfd c) rs1 s) as (rs2 & E2 & H2).
  { intros H. bool_hyps. lia. }
  set (rs' := if ch_transwindow c >? 0 then rs2 else rs).
  rewrite (bind_ok _ _ s rs' s).
  2: { subst rs'. destruct (ch_transwindow c >? 0); [|done]. by rewrite (bind_ok _ _ _ _ _ E1). }
  set (pend := ch_initconn c || (ch_writefd c >=? 0) && (c_used wb >? 0)).
  rewrite (bind_ok _ _ s pend s).
  2: { subst pend. unfold cbuf_of, ch_cbuf. rewrite Hwb. destruct (ch_initconn c); [done|]. by destruct (ch_writefd c >=? 0). }
  destruct (FD_SET_if pend (ch_writefd c) ws s) as (ws1 & E3 & H3).
  { subst pend. intros H. destruct (ch_initconn c); [auto with lia|]. cbn in H. bool_hyps. lia. }
  rewrite (bind_ok _ _ _ _ _ E3).
  destruct (FD_SET_if (match ch_extrabuf c with Some cb => (ch_errfd c >=? 0) && (c_used cb >? 0) | None => false end)
              (ch_errfd c) ws1 s) as (ws2 & E4 & H4).
  { destruct (ch_extrabuf c); [|done]. intros H. bool_hyps. lia. }
  exists rs', ws2. rewrite (bind_ok _ _ s ws2 s) by (by destruct (ch_extrabuf c)). split; [done|]. split; intros fd.
  - subst rs'. unfold wants_read, ERRFD_IS_READ in *. rewrite Z.gtb_ltb.
    destruct (Z.ltb_spec 0 (ch_transwindow c)); [|split; [by left|intros [?|[? _]]; [done|lia]]].
    rewrite H2, H1, andb_true_iff, !Z.geb_le. destruct (ch_extrabuf c); intuition (subst; auto; congruence).
  - rewrite H4, H3. unfold wants_write, used_of. rewrite Hwb. subst pend.
    rewrite orb_true_iff, andb_true_iff, Z.geb_le, Z.gtb_lt.
    destruct (ch_extrabuf c); [rewrite andb_true_iff, Z.geb_le, Z.gtb_lt|]; intuition (subst; auto with lia).
Qed.

Lemma exists_channel (P : Channel -> Prop) c l :
  (exists c', Some c' ∈ Some c :: l /\ P c') <-> P c \/ exists c', Some c' ∈ l /\ P c'.
Proof.
  split.
  - intros (c' & Hin & HP). apply elem_of_cons in Hin as [E|Hin]; [left; congruence|right; by exists c'].
  - intros [HP|(c' & Hin & HP)]; [exists c; split; [left|done]|exists c'; split; [by right|done]].
Qed.

Lemma exists_channel_none (P : Channel -> Prop) l :
  (exists c', Some c' ∈ None :: l /\ P c') <-> exists c', Some c' ∈ l /\ P c'.
Proof.
  split; intros (c' & Hin & HP); exists c'; (split; [|done]); [|by right]. by apply elem_of_cons in Hin as [?|?].
Qed.

Lemma setchannelfds_loop_ok (l : list (option Channel)) rs ws (s : ses) :
  (forall c, Some c ∈ l -> fds_ok c) ->
  exists rs' ws', setchannelfds_loop l (rs, ws) s = Ok ((rs', ws'), s) /\
    (forall fd, fd ∈ rs' <-> fd ∈ rs \/ exists c, Some c ∈ l /\ wants_read c fd) /\
    (forall fd, fd ∈ ws' <-> fd ∈ ws \/ exists c, Some c ∈ l /\ wants_write c fd).
Proof.
  revert rs ws. induction l as [|[c|] l IH]; intros rs ws Hok.
  - exists rs, ws. split; [done|]. split; intros fd; (split; [auto|]); intros [?|(c & Hc & _)]; try done; by apply elem_of_nil in Hc.
  - destruct (set_channel_fds_ok c rs ws s) as (rs1 & ws1 & E1 & Hr1 & Hw1); [apply Hok; left|].
    destruct (IH rs1 ws1) as (rs2 & ws2 & E2 & Hr2 & Hw2); [intros; apply Hok; by right|].
    exists rs2, ws2. cbn [setchannelfds_loop]. rewrite (bind_ok _ _ _ _ _ E1). split; [done|].
    split; intros fd; [rewrite Hr2, Hr1|rewrite Hw2, Hw1]; rewrite exists_channel; tauto.
  - destruct (IH rs ws) as (rs2 & ws2 & E2 & Hr2 & Hw2); [intros; apply Hok; by right|].
    exists rs2, ws2. split; [done|]. split; intros fd; [rewrite Hr2|rewrite Hw2]; by rewrite exists_channel_none.
Qed.

(** The sets handed to select are exactly the descriptors the channels
    can use: a channel is read from only while the peer's window is open, and
    written to only when it has data buffered or is waiting for its
    connection.  The session is not changed.  A channel still connecting must
    have its descriptor open. *)
Theorem setchannelfds_exact set_listener_fds readfds writefds (s : ses) :
  (forall c, Some c ∈ cs_channels s -> fds_ok c) ->
  exists rs ws,
    setchannelfds set_listener_fds readfds writefds s
      = (readfds <- set_listener_fds rs ;; ret (readfds, ws)) s /\
    (forall fd, fd ∈ rs <-> fd ∈ readfds \/ exists c, Some c ∈ cs_channels s /\ wants_read c fd) /\
    (forall fd, fd ∈ ws <-> fd ∈ writefds \/ exists c, Some c ∈ cs_channels s /\ wants_write c fd).
Proof.
  intros Hok. destruct (setchannelfds_loop_ok (cs_channels s) readfds writefds s Hok) as (rs & ws & E & Hr & Hw).
  exists rs, ws. split; [|done]. unfold setchannelfds.
  rewrite (bind_ok _ _ s (cs_channels s) s eq_refl). by rewrite (bind_ok _ _ _ _ _ E).
Qed.
End Select.

(** ** Concrete sessions *)

(** A session channel without handlers, and one that connects to descriptor 5
    when it is opened, as direct-tcpip does. *)
Definition toy_connect (p : Z) : prog (chses bool unit) Z :=
  chan_mod p (set_ch_writefd 5) ;;; chan_mod p (set_ch_initconn true) ;;; ret SSH_OPEN_IN_PROGRESS.

Definition toy_chan_type (t : bool) : ChanType (T := bool) (X := unit) :=
  if t then mkchantype false [100] (Some toy_connect) None None None
  else mkchantype false [115] None None None None.

Definition toy_listeners (fds : list Z) : prog (chses bool unit) unit := ret tt.
Definition toy_listener_fds (fds : list Z) : prog (chses bool unit) (list Z) := ret fds.

Lemma toy_types_ok t : type_ok 1000 toy_chan_type (toy_chan_type t).
Proof.
  destruct t; split; try done; try (split; [|done]; by repeat constructor).
  - intros h p c s [= <-] Hi Hb. unfold toy_connect. steps. eexists. split; [eassumption|].
    destruct Hb as (remotechan & type & tw & tmax & ? & ? & ? & ->). split; [done|]. split; [|done].
    intros _. split_and!; try done. left. split_and!; try done. by exists (mkcbuf 0 0 0 0 []).
  - intros h p c s [= <-] Hi (Hidx & _). unfold toy_connect. steps. eexists. split; [eassumption|]. by split.
Qed.

Definition toy_payload (l : list Z) : buffer := mkbuf l (zlen l) 0 (zlen l).

(** A session whose writepayload holds [room] bytes. *)
Definition toy_chan_session : chses bool unit :=
  mkchses [] 0 0 (toy_payload []) (mkbuf (replicate (Z.to_nat TRANS_MAX_PAYLOAD_LEN) 0) 0 0 TRANS_MAX_PAYLOAD_LEN) [] 0 [] [] [] [] tt.

(** The peer opens a channel that has to connect; the connection succeeds;
    five bytes arrive of which write takes three and then the rest; three
    bytes are read; both sides close. *)
Definition toy_chan_ops : list (chan_op (T := bool)) :=
  [ OpOpen (toy_payload ([0; 0; 0; 1; 100] ++ store32h 7 ++ store32h 100 ++ store32h 50));
    OpSelect [] [5] [] [] [0];
    OpData (toy_payload (store32h 0 ++ store32h 5 ++ [104; 101; 108; 108; 111]));
    OpSelect [] [5] [] [WBytes 3] [];
    OpSelect [5] [5] [RBytes [1; 2; 3]] [WBytes 9] [];
    OpWindowAdjust (toy_payload (store32h 0 ++ store32h 10));
    OpInit 8 false;
    OpSelect [5] [] [RBytes []] [] [];
    OpEof (toy_payload (store32h 0));
    OpClose (toy_payload (store32h 0)) ].

Abbreviation run_toy ops := (chaninitialise ;;; run_chan_ops 1000 toy_chan_type [true; false] id toy_listeners ops).

(** What is observed of a session. *)
Definition observe {A} (r : res (A * chses bool unit)) :=
  match r with
  | Ok (_, s) => Some (map (option_map (fun c => (ch_index c, ch_recvwindow c, ch_transwindow c, ch_readfd c))) (cs_channels s),
                       cs_sent s, cs_fdlog s)
  | _ => None
  end.

Lemma toy_start : session_start toy_chan_session.
Proof.
  assert (H : bytes (replicate (Z.to_nat TRANS_MAX_PAYLOAD_LEN) 0)) by (apply Forall_replicate; by vm_compute).
  split; [|split; [|by split]]; unfold wf_buffer; cbn [cs_payload cs_writepayload toy_chan_session b_pos b_len b_size b_data toy_payload].
  - repeat split; done.
  - repeat split; done.
Qed.

Lemma toy_payload_wf l : forallb (fun x => (0 <=? x) && (x <? 256)) l && (zlen l <=? BUF_MAX_SIZE) = true -> wf_buffer (toy_payload l).
Proof.
  intros H. apply andb_prop in H as [Hb Hl]. apply Z.leb_le in Hl. pose proof (zlen_nonneg l).
  unfold wf_buffer, toy_payload. cbn. split_and!; try lia. apply Forall_forall. intros x Hx.
  apply list_elem_of_In in Hx. pose proof (proj1 (forallb_forall _ l) Hb x Hx) as H1. cbn beta in H1. apply andb_prop in H1 as [H1 H2].
  apply Z.leb_le in H1. apply Z.ltb_lt in H2. by split.
Qed.

Lemma toy_ops_ok : Forall chan_op_ok toy_chan_ops.
Proof.
  repeat (apply Forall_cons; split); try (apply toy_payload_wf; reflexivity); try done; by repeat constructor.
Qed.

Lemma toy_mangler_ok bs : bytes bs -> bytes (id bs) /\ zlen (id bs) <= zlen bs.
Proof. done. Qed.


Example toy_chan_run :
  observe (run_toy toy_chan_ops toy_chan_session) =
    Some ([None; Some (1, 1000, 0, 8); None; None],
          [ [91; 0; 0; 0; 7; 0; 0; 0; 0; 0; 0; 3; 232; 0; 0; 128; 0];
            [94; 0; 0; 0; 7; 0; 0; 0; 3; 1; 2; 3];
            [90; 0; 0; 0; 1; 115; 0; 0; 0; 1; 0; 0; 3; 232; 0; 0; 128; 0];
            [96; 0; 0; 0; 7]; [97; 0; 0; 0; 7] ],
          [ FdWrite 5 [104; 101; 108]; FdWrite 5 [108; 111]; FdNonblock 8; FdClose 5; FdClose (-1);
            FdClose (-1); FdClose (-1); FdClose (-1); FdClose (-1); FdClose (-1); FdClose (-1) ]).
Proof. vm_compute. reflexivity. Qed.

(** An EOF that arrives while the connection of a channel is still in
    progress closes the descriptor being connected, but leaves [initconn]
    set; the next setchannelfds passes the closed descriptor, -1, to FD_SET,
    which writes outside the set. *)
Theorem eof_while_connecting_faults :
  (run_toy [ OpOpen (toy_payload ([0; 0; 0; 1; 100] ++ store32h 7 ++ store32h 100 ++ store32h 50));
             OpEof (toy_payload (store32h 0)) ] ;;;
   setchannelfds toy_listener_fds [] []) toy_chan_session = Fault "FD_SET out of bounds".
Proof. vm_compute. reflexivity. Qed.

(** The window a peer grants when it accepts a channel is not limited to
    TRANS_MAX_WINDOW, as the window of a channel the peer opens is; adding a
    later adjustment to it can wrap around, and leaves a window of 0. *)
Theorem confirmed_window_wraps :
  match run_toy [ OpInit 8 false;
                  OpConfirmation (toy_payload (store32h 0 ++ store32h 3 ++ store32h (2 ^ 32 - 500) ++ store32h 100));
                  OpWindowAdjust (toy_payload (store32h 0 ++ store32h 500)) ] toy_chan_session with
  | Ok (_, s) => map (option_map ch_transwindow) (cs_channels s) = [Some 0]
  | _ => False
  end.
Proof. vm_compute. reflexivity. Qed.

Lemma setchannelfds_exact_witness :
  exists rs ws,
    setchannelfds toy_listener_fds [3] [] (set_cs_channels [Some (set_ch_writefd 5 (set_ch_initconn true
        (blank_channel 0 7 true 100 50 (mkcbuf 0 0 0 0 [])))); None] toy_chan_session)
      = (readfds <- toy_listener_fds rs ;; ret (readfds, ws)) (set_cs_channels [Some (set_ch_writefd 5
        (set_ch_initconn true (blank_channel 0 7 true 100 50 (mkcbuf 0 0 0 0 [])))); None] toy_chan_session) /\
    (forall fd, fd ∈ rs <-> fd ∈ [3] \/ exists c, Some c ∈ [Some (set_ch_writefd 5 (set_ch_initconn true
        (blank_channel 0 7 true 100 50 (mkcbuf 0 0 0 0 [])))); None] /\ wants_read c fd) /\
    (forall fd, fd ∈ ws <-> fd ∈ [] \/ exists c, Some c ∈ [Some (set_ch_writefd 5 (set_ch_initconn true
        (blank_channel 0 7 true 100 50 (mkcbuf 0 0 0 0 [])))); None] /\ wants_write c fd).
Proof.
  apply (setchannelfds_exact toy_listener_fds [3] []). intros c Hc. cbn in Hc.
  apply elem_of_cons in Hc as [[= ->]|Hc].
  - split_and!; try done.
  - apply elem_of_cons in Hc as [?|Hc]; [done|]. by apply elem_of_nil in Hc.
Defined.
