(* ===== verification/Compress.v ===== *)
(** The decompression of packet.c (buf_decompress): it ends, stays within its
    buffer and never returns more than RECV_MAX_PAYLOAD_LEN bytes. *)

From S2P Require Import Prelude Dbutil Buffer Queue Cipher Hmac Ssh Packet PacketRecv.
From stdpp Require Import gmap.

Local Open Scope Z_scope.
Local Open Scope prog_scope.

(** What zlib.h promises of inflate: it does not write more than there is
    room for, and with Z_OK or Z_BUF_ERROR it stops only when the input is
    used up or the room is. *)
Class ZlibLaws (Zs : Type) `{Zlib Zs} := {
  inflate_ok z i room : 0 <= room -> bytes i ->
    let '(result, avail_in, output, _) := inflate z i room in
    0 <= avail_in <= zlen i /\ zlen output <= room /\ bytes output /\
    (result = Z_OK \/ result = Z_BUF_ERROR -> avail_in = 0 \/ zlen output = room)
}.

Section Decompress.
Context {Zs : Type} `{ZlibLaws Zs}.

(** One call, at the end of the buffer's contents. *)
Lemma zlib_call_ok zs input b pre room :
  buf_repr b pre [] room -> bytes input ->
  exists result output zs' left b', zlib_call inflate zs input b = Ok ((result, left, room - zlen output, zs'), b') /\
    buf_repr b' (pre ++ output) [] (room - zlen output) /\ b_size b' = b_size b /\ bytes left /\
    (result = Z_OK \/ result = Z_BUF_ERROR -> left = [] \/ zlen output = room).
Proof.
  intros Hb Hi. repr_facts Hb. change (zlen (@nil Z)) with 0 in *. pose proof (zlen_nonneg pre).
  pose proof (inflate_ok zs input room ltac:(lia) Hi) as Hz.
  destruct (inflate zs input room) as [[[result ain] output] zs'] eqn:Einf.
  destruct Hz as (Hain & Hout & Hob & Hstop). pose proof (zlen_nonneg output).
  assert (Hu : u32 (b_size b - b_pos b) = room) by (rewrite u32_small; unfold is_u32; lia).
  destruct (repr_store b pre [] room output Hb Hob) as (b1 & E1 & Hp1 & Hl1 & Hs1 & Hby & rest & Hd & Hr);
    [change (zlen (@nil Z)) with 0; lia|].
  assert (Hu2 : u32 (b_size b - (room - zlen output)) = zlen pre + zlen output)
    by (rewrite u32_small; unfold is_u32; lia).
  exists result, output, zs', (zdrop (zlen input - ain) input),
    (set_pos (zlen pre + zlen output) (set_len (zlen pre + zlen output) b1)).
  split_and!.
  - unfold zlib_call. rewrite (bind_ok _ _ _ b b), Hu by reflexivity.
    rewrite (bind_ok _ _ _ _ _ (repr_getwriteptr b pre [] room room Hb ltac:(change (zlen (@nil Z)) with 0; lia))).
    rewrite Einf, (bind_ok _ _ _ _ _ E1), Hu2.
    unfold buf_setlen, buf_setpos, bind, gets, modify. rewrite Hs1. z_guards. cbn. by z_guards.
  - unfold zdrop in Hd; rewrite drop_nil in Hd. split; cbn; rewrite ?zlen_app, ?Hs1; change (zlen (@nil Z)) with 0;
      unfold BUF_MAX_SIZE; try lia; [|done].
    exists rest. split; [by rewrite Hd, <-app_assoc|]. unfold room_after in Hr. change (zlen (@nil Z)) with 0 in Hr. lia.
  - done.
  - by apply Forall_zdrop.
  - intros Hres. destruct (Hstop Hres) as [->|?]; [left|by right].
    rewrite Z.sub_0_r. apply zdrop_all.
Qed.

Lemma buf_decompress_loop_ok n fresh zs input b pre room :
  buf_repr b pre [] room -> bytes input -> 0 < b_size b <= RECV_MAX_PAYLOAD_LEN -> (1 <= n)%nat ->
  RECV_MAX_PAYLOAD_LEN <= b_size b + ZLIB_DECOMPRESS_INCR * (Z.of_nat n - 1) ->
  (exists e, buf_decompress_loop n fresh zs input b = Exit e) \/
  (exists zs' b' out room', buf_decompress_loop n fresh zs input b = Ok (zs', b') /\
     buf_repr b' (pre ++ out) [] room' /\ b_size b' <= RECV_MAX_PAYLOAD_LEN).
Proof.
  unfold RECV_MAX_PAYLOAD_LEN, ZLIB_DECOMPRESS_INCR. revert zs input b pre room.
  induction n as [|n IH]; intros zs input b pre room Hb Hi Hsz Hn Hfuel; [lia|].
  destruct (zlib_call_ok zs input b pre room Hb Hi) as (res & out & zs' & left & b1 & E & Hb1 & Hs1 & Hlb & Hstop).
  cbn [buf_decompress_loop]. rewrite (bind_ok _ _ _ _ _ E).
  destruct (negb (res =? Z_BUF_ERROR) && negb (res =? Z_OK)) eqn:Hres; [left; by eexists|].
  assert (Hok : res = Z_OK \/ res = Z_BUF_ERROR).
  { apply andb_false_iff in Hres as [Hr|Hr]; apply negb_false_iff, Z.eqb_eq in Hr; auto. }
  destruct ((zlen left =? 0) && (negb (room - zlen out =? 0) || (res =? Z_BUF_ERROR))) eqn:Hdone.
  { right. exists zs', b1, out, (room - zlen out). split_and!; [done|done|lia]. }
  assert (Hfull : room - zlen out = 0).
  { destruct (Hstop Hok) as [->|?]; [|lia]. change (zlen (@nil Z)) with 0 in Hdone. cbn [Z.eqb andb] in Hdone.
    apply orb_false_iff in Hdone as [Hr _]. by apply negb_false_iff, Z.eqb_eq in Hr. }
  rewrite Hfull in *. cbn [Z.eqb]. unfold when.
  destruct (Z.ltb_spec (b_size b1) 32768) as [Hlt|Hge].
  - destruct (repr_resize fresh b1 _ _ _ (Z.min 32768 (b_size b1 + 1024)) Hb1) as (b2 & E2 & Hb2);
      [unfold BUF_MAX_SIZE; lia|lia|].
    rewrite (bind_ok _ _ _ tt b2).
    2: { rewrite (bind_ok _ _ _ (b_size b1) b1) by reflexivity. unfold RECV_MAX_PAYLOAD_LEN, ZLIB_DECOMPRESS_INCR.
         rewrite Z.geb_leb, (proj2 (Z.leb_gt _ _)) by lia. exact E2. }
    assert (Hs2 : b_size b2 = Z.min 32768 (b_size b1 + 1024)).
    { rewrite (br_size _ _ _ _ Hb2). change (zlen (@nil Z)) with 0. lia. }
    destruct n as [|n']; [lia|].
    destruct (IH zs' left b2 _ _ Hb2 Hlb) as [[e Ee]|(zs2 & b3 & out2 & room3 & E3 & Hb3 & Hs3)]; [lia|lia|lia| |].
    + left. eexists. exact Ee.
    + right. exists zs2, b3, (out ++ out2), room3. rewrite app_assoc. by split_and!.
  - left. eexists. rewrite (bind_exit _ _ _ "bad packet, oversized decompressed"); [reflexivity|].
    rewrite (bind_ok _ _ _ (b_size b1) b1) by reflexivity. unfold RECV_MAX_PAYLOAD_LEN.
    by rewrite Z.geb_leb, (proj2 (Z.leb_le _ _)) by lia.
Qed.
End Decompress.

(** ** Properties *)

(** Decompression of a received payload is safe against a decompression
    bomb.  For any zlib that keeps its documented contract and any compressed
    bytes, buf_decompress either takes an exit or returns a well-formed buffer
    of at most RECV_MAX_PAYLOAD_LEN bytes; its loop ends within
    decompress_fuel passes and never leaves its buffers. *)
Theorem buf_decompress_bounded {Q St H Zs R : Type} `{ZlibLaws Zs} (fresh : Z -> Z)
    (s : sess Q St Zs R) (b : buffer) (pre input post : list Z) (room : Z) :
  s_readbuf s = Some b -> buf_repr b pre (input ++ post) room -> 1 <= zlen input <= RECV_MAX_PAYLOAD_LEN ->
  (exists e, buf_decompress fresh (zlen input) s = Exit e) \/
  (exists payload s' out room', buf_decompress fresh (zlen input) s = Ok (payload, s') /\
     buf_repr payload out [] room' /\ zlen out <= RECV_MAX_PAYLOAD_LEN).
Proof.
  intros Hb Hr Hl. destruct (buf_repr_bytes _ _ _ _ Hr) as [_ Hib]. apply Forall_app in Hib as [Hib _].
  destruct (repr_buf_new (zlen input) s) as (r & Er & Hnew); [unfold BUF_MAX_SIZE, RECV_MAX_PAYLOAD_LEN in *; lia|].
  pose proof (br_size _ _ _ _ Hnew) as Hsz. change (zlen (@nil Z)) with 0 in Hsz.
  unfold buf_decompress. rewrite (bind_ok _ _ _ (s_recv s) s), (bind_ok _ _ _ _ _ Er) by reflexivity.
  rewrite (bind_ok _ _ _ input s)
    by (apply (on_readbuf_look _ _ b); [done|by eapply repr_getptr_bytes]).
  destruct (buf_decompress_loop_ok decompress_fuel fresh (k_zstream (s_recv s)) input r [] (zlen input) Hnew Hib)
    as [[e E]|(zs' & b' & out & room' & E & Hb' & Hs')].
  - unfold RECV_MAX_PAYLOAD_LEN in *. lia.
  - unfold decompress_fuel. lia.
  - unfold RECV_MAX_PAYLOAD_LEN, ZLIB_DECOMPRESS_INCR, decompress_fuel in *. lia.
  - left. exists e. by rewrite (bind_exit _ _ _ e) by (unfold on; by rewrite E).
  - right. exists b'. eexists _, out, room'. split_and!; [|exact Hb'|].
    + rewrite (bind_ok _ _ _ (zs', b') s) by (unfold on; by rewrite E). reflexivity.
    + pose proof (br_size _ _ _ _ Hb') as Hz. pose proof (br_room _ _ _ _ Hb').
      cbn [app] in Hz. change (zlen (@nil Z)) with 0 in Hz. lia.
Qed.

#[export] Program Instance copy_zlib_laws : ZlibLaws unit := {}.
Next Obligation.
  intros z i room Hr Hb. cbn. pose proof (zlen_nonneg i).
  assert (Hz : zlen (ztake (Z.min room (zlen i)) i) = Z.min room (zlen i)) by (apply zlen_ztake; lia).
  split_and!; [lia|lia|lia|by apply Forall_ztake|intros _; lia].
Qed.

Lemma buf_decompress_bounded_witness :
  let s := set_s_readbuf (Some (mkbuf [0; 0; 0; 9; 4; 1; 2; 3; 0; 0; 0; 0] 12 5 12)) toy_sess in
  (exists e, buf_decompress (fun _ => 0) (zlen [1; 2; 3]) s = Exit e) \/
  (exists payload s' out room', buf_decompress (fun _ => 0) (zlen [1; 2; 3]) s = Ok (payload, s') /\
     buf_repr payload out [] room' /\ zlen out <= RECV_MAX_PAYLOAD_LEN).
Proof.
  apply (buf_decompress_bounded (H := list Z) (fun _ => 0)
    (set_s_readbuf (Some (mkbuf [0; 0; 0; 9; 4; 1; 2; 3; 0; 0; 0; 0] 12 5 12)) toy_sess)
    (mkbuf [0; 0; 0; 9; 4; 1; 2; 3; 0; 0; 0; 0] 12 5 12) [0; 0; 0; 9; 4] [1; 2; 3] [0; 0; 0; 0] 0).
  - reflexivity.
  - split; try done; [|repeat constructor; done]. by exists [].
  - by vm_compute.
Defined.
