(* ===== verification/Kex.v ===== *)
(** Model of dropbear's key exchange (common-kex.c, svr-kex.c, cli-kex.c, the
    key exchange in cli-session.c, sha1_process_mp of bignum.c) and of
    process-packet.c, which dispatches the received messages.  One definition
    per C function.  The packet layer is what packet.c's functions do for their
    callers (Packet.encrypt_packet_ok); signing keys, the start functions of the
    cipher modes, zlib, the random generator and libtommath's mp_exptmod are
    behind interfaces. *)

From S2P Require Import Prelude Dbutil Buffer Mpint Ssh Algo Queue Cipher Hmac Packet MdHash Sha1 Hashes.

Local Open Scope Z_scope.
Local Open Scope prog_scope.

(** ** Constants (sysoptions.h) *)

Definition SHA1_HASH_SIZE : Z := 20.
Definition MAX_KEY_LEN : Z := 32.
Definition MAX_IV_LEN : Z := 20.
Definition DROPBEAR_KEX_NONE : Z := 0.
Definition DROPBEAR_KEX_DH_GROUP1 : Z := 1.
Definition DROPBEAR_KEX_DH_GROUP14 : Z := 2.
Definition DROPBEAR_SIGNKEY_RSA : Z := 1.
Definition DROPBEAR_SIGNKEY_DSS : Z := 2.
Definition KEXHASHBUF_MAX_INTS : Z := 1700 + 130 + 130 + 130.
Definition DH_G_VAL : Z := 2.
Definition KEX_REKEY_TIMEOUT : Z := 3600 * 8.
Definition KEX_REKEY_DATA : Z := Z.shiftl 1 30.

(** The characters of a C string. *)
Definition chars (s : string) : list Z := map (fun c => Z.of_nat (Ascii.nat_of_ascii c)) (list_ascii_of_string s).

(** "SSH-2.0-dropbear_" DROPBEAR_VERSION *)
Definition LOCAL_IDENT : list Z := Eval cbv in chars "SSH-2.0-dropbear_2013.60".

(** ** The algorithms (common-algo.c, as configured) *)

(** [struct dropbear_cipher], [struct dropbear_hash]. *)
Record dropbear_cipher := mkcipher { dc_cipherdesc : option ltc_cipher_descriptor; dc_keysize : Z; dc_blocksize : Z }.
Record dropbear_hash := mkdhash { dh_hashdesc : option ltc_hash_descriptor; dh_keysize : Z; dh_hashsize : Z }.
Inductive dropbear_cipher_mode := dropbear_mode_none | dropbear_mode_cbc | dropbear_mode_ctr.

(** What the fields [data] and [mode] of an entry point to. *)
Inductive algo_data := no_data | cipher_data (c : dropbear_cipher) (m : dropbear_cipher_mode) | hash_data (h : dropbear_hash).

Definition dropbear_aes256 : dropbear_cipher := mkcipher (Some aes_desc) 32 16.
Definition dropbear_aes128 : dropbear_cipher := mkcipher (Some aes_desc) 16 16.
Definition dropbear_twofish256 : dropbear_cipher := mkcipher (Some twofish_desc) 32 16.
Definition dropbear_twofish128 : dropbear_cipher := mkcipher (Some twofish_desc) 16 16.
Definition dropbear_3des : dropbear_cipher := mkcipher (Some des3_desc) 24 8.
Definition dropbear_nocipher : dropbear_cipher := mkcipher None 16 8.
Definition dropbear_sha1 : dropbear_hash := mkdhash (Some sha1_desc) 20 20.
Definition dropbear_sha1_96 : dropbear_hash := mkdhash (Some sha1_desc) 20 12.
Definition dropbear_md5 : dropbear_hash := mkdhash (Some md5_desc) 16 16.
Definition dropbear_nohash : dropbear_hash := mkdhash None 16 0.

Definition entry (name : string) (val : Z) (d : algo_data) : algo_type algo_data := mkalgo (chars name) val d true.

Definition sshciphers : list (algo_type algo_data) := Eval cbv [entry chars] in
  [entry "aes128-ctr" 0 (cipher_data dropbear_aes128 dropbear_mode_ctr);
   entry "3des-ctr" 0 (cipher_data dropbear_3des dropbear_mode_ctr);
   entry "aes256-ctr" 0 (cipher_data dropbear_aes256 dropbear_mode_ctr);
   entry "aes128-cbc" 0 (cipher_data dropbear_aes128 dropbear_mode_cbc);
   entry "3des-cbc" 0 (cipher_data dropbear_3des dropbear_mode_cbc);
   entry "aes256-cbc" 0 (cipher_data dropbear_aes256 dropbear_mode_cbc);
   entry "twofish256-cbc" 0 (cipher_data dropbear_twofish256 dropbear_mode_cbc);
   entry "twofish-cbc" 0 (cipher_data dropbear_twofish256 dropbear_mode_cbc);
   entry "twofish128-cbc" 0 (cipher_data dropbear_twofish128 dropbear_mode_cbc)].
Definition sshhashes : list (algo_type algo_data) := Eval cbv [entry chars] in
  [entry "hmac-sha1-96" 0 (hash_data dropbear_sha1_96);
   entry "hmac-sha1" 0 (hash_data dropbear_sha1);
   entry "hmac-md5" 0 (hash_data dropbear_md5)].
Definition ssh_compress : list (algo_type algo_data) := Eval cbv [entry chars] in
  [entry "zlib" DROPBEAR_COMP_ZLIB no_data; entry "zlib@openssh.com" DROPBEAR_COMP_ZLIB_DELAY no_data;
   entry "none" DROPBEAR_COMP_NONE no_data].
Definition ssh_nocompress : list (algo_type algo_data) := Eval cbv [entry chars] in
  [entry "none" DROPBEAR_COMP_NONE no_data].
Definition sshhostkey : list (algo_type algo_data) := Eval cbv [entry chars] in
  [entry "ssh-rsa" DROPBEAR_SIGNKEY_RSA no_data; entry "ssh-dss" DROPBEAR_SIGNKEY_DSS no_data].
Definition sshkex : list (algo_type algo_data) := Eval cbv [entry chars] in
  [entry "diffie-hellman-group1-sha1" DROPBEAR_KEX_DH_GROUP1 no_data;
   entry "diffie-hellman-group14-sha1" DROPBEAR_KEX_DH_GROUP14 no_data;
   mkalgo KEXGUESS2_ALGO_NAME KEXGUESS2_ALGO_ID no_data true].

(** The casts of [algo->data] and [algo->mode]. *)
Definition as_cipher (a : algo_type algo_data) : option dropbear_cipher :=
  match al_data a with cipher_data c _ => Some c | _ => None end.
Definition as_mode (a : algo_type algo_data) : option dropbear_cipher_mode :=
  match al_data a with cipher_data _ m => Some m | _ => None end.
Definition as_hash (a : algo_type algo_data) : option dropbear_hash :=
  match al_data a with hash_data h => Some h | _ => None end.

(** The cipher table after crypto_init (Hashes.crypto_init_tables). *)
Definition cipher_descriptor : table ltc_cipher_descriptor := [Some aes_desc; Some twofish_desc; Some des3_desc; None].

(** ** Interfaces *)

(** [crypt_mode->start(cipher, IV, key, keylen, 0, &state)] of cbc and ctr. *)
Class CipherStart (St : Type) := {
  mode_start : dropbear_cipher_mode -> Z -> list Z -> list Z -> option St
}.

(** inflateInit, deflateInit2, inflateEnd and deflateEnd; [None] and [false]
    are errors. *)
Class ZlibStreams (Zs : Type) := {
  inflateInit : option Zs;
  deflateInit2 : option Zs;
  inflateEnd : Zs -> bool;
  deflateEnd : Zs -> bool
}.

(** signkey.c and the client's check of the host key's blob. *)
Class SignKey (K R : Type) := {
  buf_put_pub_key : K -> Z -> prog buffer unit;
  buf_get_pub_key : Z -> prog buffer (option K);
  buf_put_sign : K -> Z -> list Z -> R -> prog buffer R;
  buf_verify : K -> list Z -> prog buffer bool;
  checkhostkey : list Z -> bool
}.

(** gen_random_mpint of random.c. *)
Class RandomMp (R : Type) := { gen_random_mpint : Z -> R -> Z * R }.

(** libtommath's mp_exptmod; [None] is an error. *)
Class ExptMod := { mp_exptmod : Z -> Z -> Z -> option Z }.

(** ** The session *)

(** [struct key_context_directional]; [kd_cipher_state] is [None] until a start
    function has filled it. *)
Record key_context_directional (St Zs : Type) := mkkd {
  kd_algo_crypt : option dropbear_cipher; kd_crypt_mode : option dropbear_cipher_mode; kd_algo_mac :
  option dropbear_hash; kd_hash_index : Z; kd_algo_comp : Z; kd_zstream : option Zs; kd_cipher_state :
  option St; kd_mackey : list Z; kd_valid : bool }.
Arguments mkkd {St Zs}.
Arguments kd_algo_crypt {St Zs}.
Arguments kd_crypt_mode {St Zs}.
Arguments kd_algo_mac {St Zs}.
Arguments kd_hash_index {St Zs}.
Arguments kd_algo_comp {St Zs}.
Arguments kd_zstream {St Zs}.
Arguments kd_cipher_state {St Zs}.
Arguments kd_mackey {St Zs}.
Arguments kd_valid {St Zs}.

Definition set_kd_algo_crypt {St Zs : Type} (x : option dropbear_cipher) (s : key_context_directional St Zs) : key_context_directional St Zs :=
  mkkd x (kd_crypt_mode s) (kd_algo_mac s) (kd_hash_index s) (kd_algo_comp s) (kd_zstream s)
    (kd_cipher_state s) (kd_mackey s) (kd_valid s).
Definition set_kd_crypt_mode {St Zs : Type} (x : option dropbear_cipher_mode) (s : key_context_directional St Zs) : key_context_directional St Zs :=
  mkkd (kd_algo_crypt s) x (kd_algo_mac s) (kd_hash_index s) (kd_algo_comp s) (kd_zstream s)
    (kd_cipher_state s) (kd_mackey s) (kd_valid s).
Definition set_kd_algo_mac {St Zs : Type} (x : option dropbear_hash) (s : key_context_directional St Zs) : key_context_directional St Zs :=
  mkkd (kd_algo_crypt s) (kd_crypt_mode s) x (kd_hash_index s) (kd_algo_comp s) (kd_zstream s)
    (kd_cipher_state s) (kd_mackey s) (kd_valid s).
Definition set_kd_hash_index {St Zs : Type} (x : Z) (s : key_context_directional St Zs) : key_context_directional St Zs :=
  mkkd (kd_algo_crypt s) (kd_crypt_mode s) (kd_algo_mac s) x (kd_algo_comp s) (kd_zstream s)
    (kd_cipher_state s) (kd_mackey s) (kd_valid s).
Definition set_kd_algo_comp {St Zs : Type} (x : Z) (s : key_context_directional St Zs) : key_context_directional St Zs :=
  mkkd (kd_algo_crypt s) (kd_crypt_mode s) (kd_algo_mac s) (kd_hash_index s) x (kd_zstream s)
    (kd_cipher_state s) (kd_mackey s) (kd_valid s).
Definition set_kd_zstream {St Zs : Type} (x : option Zs) (s : key_context_directional St Zs) : key_context_directional St Zs :=
  mkkd (kd_algo_crypt s) (kd_crypt_mode s) (kd_algo_mac s) (kd_hash_index s) (kd_algo_comp s) x
    (kd_cipher_state s) (kd_mackey s) (kd_valid s).
Definition set_kd_cipher_state {St Zs : Type} (x : option St) (s : key_context_directional St Zs) : key_context_directional St Zs :=
  mkkd (kd_algo_crypt s) (kd_crypt_mode s) (kd_algo_mac s) (kd_hash_index s) (kd_algo_comp s)
    (kd_zstream s) x (kd_mackey s) (kd_valid s).
Definition set_kd_mackey {St Zs : Type} (x : list Z) (s : key_context_directional St Zs) : key_context_directional St Zs :=
  mkkd (kd_algo_crypt s) (kd_crypt_mode s) (kd_algo_mac s) (kd_hash_index s) (kd_algo_comp s)
    (kd_zstream s) (kd_cipher_state s) x (kd_valid s).
Definition set_kd_valid {St Zs : Type} (x : bool) (s : key_context_directional St Zs) : key_context_directional St Zs :=
  mkkd (kd_algo_crypt s) (kd_crypt_mode s) (kd_algo_mac s) (kd_hash_index s) (kd_algo_comp s)
    (kd_zstream s) (kd_cipher_state s) (kd_mackey s) x.

(** [struct key_context]. *)
Record key_context (St Zs : Type) := mkkc {
  kc_recv : key_context_directional St Zs; kc_trans : key_context_directional St Zs; kc_algo_kex : Z;
  kc_algo_hostkey : Z; kc_allow_compress : bool }.
Arguments mkkc {St Zs}.
Arguments kc_recv {St Zs}.
Arguments kc_trans {St Zs}.
Arguments kc_algo_kex {St Zs}.
Arguments kc_algo_hostkey {St Zs}.
Arguments kc_allow_compress {St Zs}.

Definition set_kc_recv {St Zs : Type} (x : key_context_directional St Zs) (s : key_context St Zs) : key_context St Zs :=
  mkkc x (kc_trans s) (kc_algo_kex s) (kc_algo_hostkey s) (kc_allow_compress s).
Definition set_kc_trans {St Zs : Type} (x : key_context_directional St Zs) (s : key_context St Zs) : key_context St Zs :=
  mkkc (kc_recv s) x (kc_algo_kex s) (kc_algo_hostkey s) (kc_allow_compress s).
Definition set_kc_algo_kex {St Zs : Type} (x : Z) (s : key_context St Zs) : key_context St Zs :=
  mkkc (kc_recv s) (kc_trans s) x (kc_algo_hostkey s) (kc_allow_compress s).
Definition set_kc_algo_hostkey {St Zs : Type} (x : Z) (s : key_context St Zs) : key_context St Zs :=
  mkkc (kc_recv s) (kc_trans s) (kc_algo_kex s) x (kc_allow_compress s).
Definition set_kc_allow_compress {St Zs : Type} (x : bool) (s : key_context St Zs) : key_context St Zs :=
  mkkc (kc_recv s) (kc_trans s) (kc_algo_kex s) (kc_algo_hostkey s) x.

(** Memory filled with zeros. *)
Definition zero_kd {St Zs} : key_context_directional St Zs :=
  mkkd None None None 0 0 None None (replicate (Z.to_nat MAX_MAC_LEN) 0) false.
Definition zero_kc {St Zs} : key_context St Zs := mkkc zero_kd zero_kd 0 0 false.

(** [struct KEXState]. *)
Record kexstate := mkks {
  ks_sentkexinit : bool; ks_recvkexinit : bool; ks_them_firstfollows : bool; ks_sentnewkeys : bool;
  ks_recvnewkeys : bool; ks_donefirstkex : bool; ks_our_first_follows_matches : bool; ks_lastkextime :
  Z; ks_datatrans : Z; ks_datarecv : Z }.

Definition set_ks_sentkexinit (x : bool) (s : kexstate) : kexstate :=
  mkks x (ks_recvkexinit s) (ks_them_firstfollows s) (ks_sentnewkeys s) (ks_recvnewkeys s)
    (ks_donefirstkex s) (ks_our_first_follows_matches s) (ks_lastkextime s) (ks_datatrans s)
    (ks_datarecv s).
Definition set_ks_recvkexinit (x : bool) (s : kexstate) : kexstate :=
  mkks (ks_sentkexinit s) x (ks_them_firstfollows s) (ks_sentnewkeys s) (ks_recvnewkeys s)
    (ks_donefirstkex s) (ks_our_first_follows_matches s) (ks_lastkextime s) (ks_datatrans s)
    (ks_datarecv s).
Definition set_ks_them_firstfollows (x : bool) (s : kexstate) : kexstate :=
  mkks (ks_sentkexinit s) (ks_recvkexinit s) x (ks_sentnewkeys s) (ks_recvnewkeys s)
    (ks_donefirstkex s) (ks_our_first_follows_matches s) (ks_lastkextime s) (ks_datatrans s)
    (ks_datarecv s).
Definition set_ks_sentnewkeys (x : bool) (s : kexstate) : kexstate :=
  mkks (ks_sentkexinit s) (ks_recvkexinit s) (ks_them_firstfollows s) x (ks_recvnewkeys s)
    (ks_donefirstkex s) (ks_our_first_follows_matches s) (ks_lastkextime s) (ks_datatrans s)
    (ks_datarecv s).
Definition set_ks_recvnewkeys (x : bool) (s : kexstate) : kexstate :=
  mkks (ks_sentkexinit s) (ks_recvkexinit s) (ks_them_firstfollows s) (ks_sentnewkeys s) x
    (ks_donefirstkex s) (ks_our_first_follows_matches s) (ks_lastkextime s) (ks_datatrans s)
    (ks_datarecv s).
Definition set_ks_donefirstkex (x : bool) (s : kexstate) : kexstate :=
  mkks (ks_sentkexinit s) (ks_recvkexinit s) (ks_them_firstfollows s) (ks_sentnewkeys s)
    (ks_recvnewkeys s) x (ks_our_first_follows_matches s) (ks_lastkextime s) (ks_datatrans s)
    (ks_datarecv s).
Definition set_ks_our_first_follows_matches (x : bool) (s : kexstate) : kexstate :=
  mkks (ks_sentkexinit s) (ks_recvkexinit s) (ks_them_firstfollows s) (ks_sentnewkeys s)
    (ks_recvnewkeys s) (ks_donefirstkex s) x (ks_lastkextime s) (ks_datatrans s) (ks_datarecv s).
Definition set_ks_datatrans (x : Z) (s : kexstate) : kexstate :=
  mkks (ks_sentkexinit s) (ks_recvkexinit s) (ks_them_firstfollows s) (ks_sentnewkeys s)
    (ks_recvnewkeys s) (ks_donefirstkex s) (ks_our_first_follows_matches s) (ks_lastkextime s) x
    (ks_datarecv s).
Definition set_ks_datarecv (x : Z) (s : kexstate) : kexstate :=
  mkks (ks_sentkexinit s) (ks_recvkexinit s) (ks_them_firstfollows s) (ks_sentnewkeys s)
    (ks_recvnewkeys s) (ks_donefirstkex s) (ks_our_first_follows_matches s) (ks_lastkextime s)
    (ks_datatrans s) x.

(** The fields that are fixed once the session runs: the role, the tables of
    algorithms, the host key (of a server), and whether the client guesses. *)
Record config (K : Type) := mkcfg {
  cf_isclient : bool; cf_sshkex : list (algo_type algo_data); cf_sshhostkey : list (algo_type algo_data);
  cf_sshciphers : list (algo_type algo_data); cf_sshhashes : list (algo_type algo_data);
  cf_enable_compress : bool; cf_hostkey : K; cf_first_guess : bool }.
Arguments mkcfg {K}.
Arguments cf_isclient {K}.
Arguments cf_sshkex {K}.
Arguments cf_sshhostkey {K}.
Arguments cf_sshciphers {K}.
Arguments cf_sshhashes {K}.
Arguments cf_enable_compress {K}.
Arguments cf_hostkey {K}.
Arguments cf_first_guess {K}.

(** The client's [kex_state]. *)
Inductive cli_kex_state := KEX_NOTHING | KEXINIT_RCVD | KEXDH_INIT_SENT | KEXDONE.
#[export] Instance cli_kex_state_eq_dec : EqDecision cli_kex_state.
Proof. solve_decision. Defined.

(** The part of [struct sshsession] the key exchange works on, with
    [struct clientsession]'s [dh_e], [dh_x], [dh_val_algo] and [kex_state].
    [x_sent] is what was given to encrypt_packet; the keys of a null pointer are
    [None]. *)
Record kses (K St Zs R : Type) := mkkses {
  x_cfg : config K; x_writepayload : buffer; x_payload : option buffer; x_sent : list (list Z);
  x_kexstate : kexstate; x_keys : option (key_context St Zs); x_newkeys : option (key_context St Zs);
  x_session_id : option (list Z); x_dh_K : option Z; x_hash : list Z; x_kexhashbuf : option buffer;
  x_transkexinit : option buffer; x_remoteident : list Z; x_compress_algos : list (algo_type
  algo_data); x_dataallowed : bool; x_requirenext : Z * Z; x_ignorenext : bool; x_lastpacket : Z;
  x_authdone : bool; x_recvseq : Z; x_last_packet_time : Z; x_random : R; x_now : Z; x_dh_e : option
  Z; x_dh_x : option Z; x_dh_val_algo : Z; x_cli_kex_state : cli_kex_state }.
Arguments mkkses {K St Zs R}.
Arguments x_cfg {K St Zs R}.
Arguments x_writepayload {K St Zs R}.
Arguments x_payload {K St Zs R}.
Arguments x_sent {K St Zs R}.
Arguments x_kexstate {K St Zs R}.
Arguments x_keys {K St Zs R}.
Arguments x_newkeys {K St Zs R}.
Arguments x_session_id {K St Zs R}.
Arguments x_dh_K {K St Zs R}.
Arguments x_hash {K St Zs R}.
Arguments x_kexhashbuf {K St Zs R}.
Arguments x_transkexinit {K St Zs R}.
Arguments x_remoteident {K St Zs R}.
Arguments x_compress_algos {K St Zs R}.
Arguments x_dataallowed {K St Zs R}.
Arguments x_requirenext {K St Zs R}.
Arguments x_ignorenext {K St Zs R}.
Arguments x_lastpacket {K St Zs R}.
Arguments x_authdone {K St Zs R}.
Arguments x_recvseq {K St Zs R}.
Arguments x_last_packet_time {K St Zs R}.
Arguments x_random {K St Zs R}.
Arguments x_now {K St Zs R}.
Arguments x_dh_e {K St Zs R}.
Arguments x_dh_x {K St Zs R}.
Arguments x_dh_val_algo {K St Zs R}.
Arguments x_cli_kex_state {K St Zs R}.

Definition set_x_writepayload {K St Zs R : Type} (x : buffer) (s : kses K St Zs R) : kses K St Zs R :=
  mkkses (x_cfg s) x (x_payload s) (x_sent s) (x_kexstate s) (x_keys s) (x_newkeys s)
    (x_session_id s) (x_dh_K s) (x_hash s) (x_kexhashbuf s) (x_transkexinit s) (x_remoteident s)
    (x_compress_algos s) (x_dataallowed s) (x_requirenext s) (x_ignorenext s) (x_lastpacket s)
    (x_authdone s) (x_recvseq s) (x_last_packet_time s) (x_random s) (x_now s) (x_dh_e s) (x_dh_x
    s) (x_dh_val_algo s) (x_cli_kex_state s).
Definition set_x_payload {K St Zs R : Type} (x : option buffer) (s : kses K St Zs R) : kses K St Zs R :=
  mkkses (x_cfg s) (x_writepayload s) x (x_sent s) (x_kexstate s) (x_keys s) (x_newkeys s)
    (x_session_id s) (x_dh_K s) (x_hash s) (x_kexhashbuf s) (x_transkexinit s) (x_remoteident s)
    (x_compress_algos s) (x_dataallowed s) (x_requirenext s) (x_ignorenext s) (x_lastpacket s)
    (x_authdone s) (x_recvseq s) (x_last_packet_time s) (x_random s) (x_now s) (x_dh_e s) (x_dh_x
    s) (x_dh_val_algo s) (x_cli_kex_state s).
Definition set_x_sent {K St Zs R : Type} (x : list (list Z)) (s : kses K St Zs R) : kses K St Zs R :=
  mkkses (x_cfg s) (x_writepayload s) (x_payload s) x (x_kexstate s) (x_keys s) (x_newkeys s)
    (x_session_id s) (x_dh_K s) (x_hash s) (x_kexhashbuf s) (x_transkexinit s) (x_remoteident s)
    (x_compress_algos s) (x_dataallowed s) (x_requirenext s) (x_ignorenext s) (x_lastpacket s)
    (x_authdone s) (x_recvseq s) (x_last_packet_time s) (x_random s) (x_now s) (x_dh_e s) (x_dh_x
    s) (x_dh_val_algo s) (x_cli_kex_state s).
Definition set_x_kexstate {K St Zs R : Type} (x : kexstate) (s : kses K St Zs R) : kses K St Zs R :=
  mkkses (x_cfg s) (x_writepayload s) (x_payload s) (x_sent s) x (x_keys s) (x_newkeys s)
    (x_session_id s) (x_dh_K s) (x_hash s) (x_kexhashbuf s) (x_transkexinit s) (x_remoteident s)
    (x_compress_algos s) (x_dataallowed s) (x_requirenext s) (x_ignorenext s) (x_lastpacket s)
    (x_authdone s) (x_recvseq s) (x_last_packet_time s) (x_random s) (x_now s) (x_dh_e s) (x_dh_x
    s) (x_dh_val_algo s) (x_cli_kex_state s).
Definition set_x_keys {K St Zs R : Type} (x : option (key_context St Zs)) (s : kses K St Zs R) : kses K St Zs R :=
  mkkses (x_cfg s) (x_writepayload s) (x_payload s) (x_sent s) (x_kexstate s) x (x_newkeys s)
    (x_session_id s) (x_dh_K s) (x_hash s) (x_kexhashbuf s) (x_transkexinit s) (x_remoteident s)
    (x_compress_algos s) (x_dataallowed s) (x_requirenext s) (x_ignorenext s) (x_lastpacket s)
    (x_authdone s) (x_recvseq s) (x_last_packet_time s) (x_random s) (x_now s) (x_dh_e s) (x_dh_x
    s) (x_dh_val_algo s) (x_cli_kex_state s).
Definition set_x_newkeys {K St Zs R : Type} (x : option (key_context St Zs)) (s : kses K St Zs R) : kses K St Zs R :=
  mkkses (x_cfg s) (x_writepayload s) (x_payload s) (x_sent s) (x_kexstate s) (x_keys s) x
    (x_session_id s) (x_dh_K s) (x_hash s) (x_kexhashbuf s) (x_transkexinit s) (x_remoteident s)
    (x_compress_algos s) (x_dataallowed s) (x_requirenext s) (x_ignorenext s) (x_lastpacket s)
    (x_authdone s) (x_recvseq s) (x_last_packet_time s) (x_random s) (x_now s) (x_dh_e s) (x_dh_x
    s) (x_dh_val_algo s) (x_cli_kex_state s).
Definition set_x_session_id {K St Zs R : Type} (x : option (list Z)) (s : kses K St Zs R) : kses K St Zs R :=
  mkkses (x_cfg s) (x_writepayload s) (x_payload s) (x_sent s) (x_kexstate s) (x_keys s)
    (x_newkeys s) x (x_dh_K s) (x_hash s) (x_kexhashbuf s) (x_transkexinit s) (x_remoteident s)
    (x_compress_algos s) (x_dataallowed s) (x_requirenext s) (x_ignorenext s) (x_lastpacket s)
    (x_authdone s) (x_recvseq s) (x_last_packet_time s) (x_random s) (x_now s) (x_dh_e s) (x_dh_x
    s) (x_dh_val_algo s) (x_cli_kex_state s).
Definition set_x_dh_K {K St Zs R : Type} (x : option Z) (s : kses K St Zs R) : kses K St Zs R :=
  mkkses (x_cfg s) (x_writepayload s) (x_payload s) (x_sent s) (x_kexstate s) (x_keys s)
    (x_newkeys s) (x_session_id s) x (x_hash s) (x_kexhashbuf s) (x_transkexinit s) (x_remoteident
    s) (x_compress_algos s) (x_dataallowed s) (x_requirenext s) (x_ignorenext s) (x_lastpacket s)
    (x_authdone s) (x_recvseq s) (x_last_packet_time s) (x_random s) (x_now s) (x_dh_e s) (x_dh_x
    s) (x_dh_val_algo s) (x_cli_kex_state s).
Definition set_x_hash {K St Zs R : Type} (x : list Z) (s : kses K St Zs R) : kses K St Zs R :=
  mkkses (x_cfg s) (x_writepayload s) (x_payload s) (x_sent s) (x_kexstate s) (x_keys s)
    (x_newkeys s) (x_session_id s) (x_dh_K s) x (x_kexhashbuf s) (x_transkexinit s) (x_remoteident
    s) (x_compress_algos s) (x_dataallowed s) (x_requirenext s) (x_ignorenext s) (x_lastpacket s)
    (x_authdone s) (x_recvseq s) (x_last_packet_time s) (x_random s) (x_now s) (x_dh_e s) (x_dh_x
    s) (x_dh_val_algo s) (x_cli_kex_state s).
Definition set_x_kexhashbuf {K St Zs R : Type} (x : option buffer) (s : kses K St Zs R) : kses K St Zs R :=
  mkkses (x_cfg s) (x_writepayload s) (x_payload s) (x_sent s) (x_kexstate s) (x_keys s)
    (x_newkeys s) (x_session_id s) (x_dh_K s) (x_hash s) x (x_transkexinit s) (x_remoteident s)
    (x_compress_algos s) (x_dataallowed s) (x_requirenext s) (x_ignorenext s) (x_lastpacket s)
    (x_authdone s) (x_recvseq s) (x_last_packet_time s) (x_random s) (x_now s) (x_dh_e s) (x_dh_x
    s) (x_dh_val_algo s) (x_cli_kex_state s).
Definition set_x_transkexinit {K St Zs R : Type} (x : option buffer) (s : kses K St Zs R) : kses K St Zs R :=
  mkkses (x_cfg s) (x_writepayload s) (x_payload s) (x_sent s) (x_kexstate s) (x_keys s)
    (x_newkeys s) (x_session_id s) (x_dh_K s) (x_hash s) (x_kexhashbuf s) x (x_remoteident s)
    (x_compress_algos s) (x_dataallowed s) (x_requirenext s) (x_ignorenext s) (x_lastpacket s)
    (x_authdone s) (x_recvseq s) (x_last_packet_time s) (x_random s) (x_now s) (x_dh_e s) (x_dh_x
    s) (x_dh_val_algo s) (x_cli_kex_state s).
Definition set_x_compress_algos {K St Zs R : Type} (x : list (algo_type algo_data)) (s : kses K St Zs R) : kses K St Zs R :=
  mkkses (x_cfg s) (x_writepayload s) (x_payload s) (x_sent s) (x_kexstate s) (x_keys s)
    (x_newkeys s) (x_session_id s) (x_dh_K s) (x_hash s) (x_kexhashbuf s) (x_transkexinit s)
    (x_remoteident s) x (x_dataallowed s) (x_requirenext s) (x_ignorenext s) (x_lastpacket s)
    (x_authdone s) (x_recvseq s) (x_last_packet_time s) (x_random s) (x_now s) (x_dh_e s) (x_dh_x
    s) (x_dh_val_algo s) (x_cli_kex_state s).
Definition set_x_dataallowed {K St Zs R : Type} (x : bool) (s : kses K St Zs R) : kses K St Zs R :=
  mkkses (x_cfg s) (x_writepayload s) (x_payload s) (x_sent s) (x_kexstate s) (x_keys s)
    (x_newkeys s) (x_session_id s) (x_dh_K s) (x_hash s) (x_kexhashbuf s) (x_transkexinit s)
    (x_remoteident s) (x_compress_algos s) x (x_requirenext s) (x_ignorenext s) (x_lastpacket s)
    (x_authdone s) (x_recvseq s) (x_last_packet_time s) (x_random s) (x_now s) (x_dh_e s) (x_dh_x
    s) (x_dh_val_algo s) (x_cli_kex_state s).
Definition set_x_requirenext {K St Zs R : Type} (x : Z * Z) (s : kses K St Zs R) : kses K St Zs R :=
  mkkses (x_cfg s) (x_writepayload s) (x_payload s) (x_sent s) (x_kexstate s) (x_keys s)
    (x_newkeys s) (x_session_id s) (x_dh_K s) (x_hash s) (x_kexhashbuf s) (x_transkexinit s)
    (x_remoteident s) (x_compress_algos s) (x_dataallowed s) x (x_ignorenext s) (x_lastpacket s)
    (x_authdone s) (x_recvseq s) (x_last_packet_time s) (x_random s) (x_now s) (x_dh_e s) (x_dh_x
    s) (x_dh_val_algo s) (x_cli_kex_state s).
Definition set_x_ignorenext {K St Zs R : Type} (x : bool) (s : kses K St Zs R) : kses K St Zs R :=
  mkkses (x_cfg s) (x_writepayload s) (x_payload s) (x_sent s) (x_kexstate s) (x_keys s)
    (x_newkeys s) (x_session_id s) (x_dh_K s) (x_hash s) (x_kexhashbuf s) (x_transkexinit s)
    (x_remoteident s) (x_compress_algos s) (x_dataallowed s) (x_requirenext s) x (x_lastpacket s)
    (x_authdone s) (x_recvseq s) (x_last_packet_time s) (x_random s) (x_now s) (x_dh_e s) (x_dh_x
    s) (x_dh_val_algo s) (x_cli_kex_state s).
Definition set_x_lastpacket {K St Zs R : Type} (x : Z) (s : kses K St Zs R) : kses K St Zs R :=
  mkkses (x_cfg s) (x_writepayload s) (x_payload s) (x_sent s) (x_kexstate s) (x_keys s)
    (x_newkeys s) (x_session_id s) (x_dh_K s) (x_hash s) (x_kexhashbuf s) (x_transkexinit s)
    (x_remoteident s) (x_compress_algos s) (x_dataallowed s) (x_requirenext s) (x_ignorenext s) x
    (x_authdone s) (x_recvseq s) (x_last_packet_time s) (x_random s) (x_now s) (x_dh_e s) (x_dh_x
    s) (x_dh_val_algo s) (x_cli_kex_state s).
Definition set_x_last_packet_time {K St Zs R : Type} (x : Z) (s : kses K St Zs R) : kses K St Zs R :=
  mkkses (x_cfg s) (x_writepayload s) (x_payload s) (x_sent s) (x_kexstate s) (x_keys s)
    (x_newkeys s) (x_session_id s) (x_dh_K s) (x_hash s) (x_kexhashbuf s) (x_transkexinit s)
    (x_remoteident s) (x_compress_algos s) (x_dataallowed s) (x_requirenext s) (x_ignorenext s)
    (x_lastpacket s) (x_authdone s) (x_recvseq s) x (x_random s) (x_now s) (x_dh_e s) (x_dh_x s)
    (x_dh_val_algo s) (x_cli_kex_state s).
Definition set_x_random {K St Zs R : Type} (x : R) (s : kses K St Zs R) : kses K St Zs R :=
  mkkses (x_cfg s) (x_writepayload s) (x_payload s) (x_sent s) (x_kexstate s) (x_keys s)
    (x_newkeys s) (x_session_id s) (x_dh_K s) (x_hash s) (x_kexhashbuf s) (x_transkexinit s)
    (x_remoteident s) (x_compress_algos s) (x_dataallowed s) (x_requirenext s) (x_ignorenext s)
    (x_lastpacket s) (x_authdone s) (x_recvseq s) (x_last_packet_time s) x (x_now s) (x_dh_e s)
    (x_dh_x s) (x_dh_val_algo s) (x_cli_kex_state s).
Definition set_x_now {K St Zs R : Type} (x : Z) (s : kses K St Zs R) : kses K St Zs R :=
  mkkses (x_cfg s) (x_writepayload s) (x_payload s) (x_sent s) (x_kexstate s) (x_keys s)
    (x_newkeys s) (x_session_id s) (x_dh_K s) (x_hash s) (x_kexhashbuf s) (x_transkexinit s)
    (x_remoteident s) (x_compress_algos s) (x_dataallowed s) (x_requirenext s) (x_ignorenext s)
    (x_lastpacket s) (x_authdone s) (x_recvseq s) (x_last_packet_time s) (x_random s) x (x_dh_e s)
    (x_dh_x s) (x_dh_val_algo s) (x_cli_kex_state s).
Definition set_x_dh_e {K St Zs R : Type} (x : option Z) (s : kses K St Zs R) : kses K St Zs R :=
  mkkses (x_cfg s) (x_writepayload s) (x_payload s) (x_sent s) (x_kexstate s) (x_keys s)
    (x_newkeys s) (x_session_id s) (x_dh_K s) (x_hash s) (x_kexhashbuf s) (x_transkexinit s)
    (x_remoteident s) (x_compress_algos s) (x_dataallowed s) (x_requirenext s) (x_ignorenext s)
    (x_lastpacket s) (x_authdone s) (x_recvseq s) (x_last_packet_time s) (x_random s) (x_now s) x
    (x_dh_x s) (x_dh_val_algo s) (x_cli_kex_state s).
Definition set_x_dh_x {K St Zs R : Type} (x : option Z) (s : kses K St Zs R) : kses K St Zs R :=
  mkkses (x_cfg s) (x_writepayload s) (x_payload s) (x_sent s) (x_kexstate s) (x_keys s)
    (x_newkeys s) (x_session_id s) (x_dh_K s) (x_hash s) (x_kexhashbuf s) (x_transkexinit s)
    (x_remoteident s) (x_compress_algos s) (x_dataallowed s) (x_requirenext s) (x_ignorenext s)
    (x_lastpacket s) (x_authdone s) (x_recvseq s) (x_last_packet_time s) (x_random s) (x_now s)
    (x_dh_e s) x (x_dh_val_algo s) (x_cli_kex_state s).
Definition set_x_dh_val_algo {K St Zs R : Type} (x : Z) (s : kses K St Zs R) : kses K St Zs R :=
  mkkses (x_cfg s) (x_writepayload s) (x_payload s) (x_sent s) (x_kexstate s) (x_keys s)
    (x_newkeys s) (x_session_id s) (x_dh_K s) (x_hash s) (x_kexhashbuf s) (x_transkexinit s)
    (x_remoteident s) (x_compress_algos s) (x_dataallowed s) (x_requirenext s) (x_ignorenext s)
    (x_lastpacket s) (x_authdone s) (x_recvseq s) (x_last_packet_time s) (x_random s) (x_now s)
    (x_dh_e s) (x_dh_x s) x (x_cli_kex_state s).
Definition set_x_cli_kex_state {K St Zs R : Type} (x : cli_kex_state) (s : kses K St Zs R) : kses K St Zs R :=
  mkkses (x_cfg s) (x_writepayload s) (x_payload s) (x_sent s) (x_kexstate s) (x_keys s)
    (x_newkeys s) (x_session_id s) (x_dh_K s) (x_hash s) (x_kexhashbuf s) (x_transkexinit s)
    (x_remoteident s) (x_compress_algos s) (x_dataallowed s) (x_requirenext s) (x_ignorenext s)
    (x_lastpacket s) (x_authdone s) (x_recvseq s) (x_last_packet_time s) (x_random s) (x_now s)
    (x_dh_e s) (x_dh_x s) (x_dh_val_algo s) x.

(** The primes of diffie-hellman-group1-sha1 and diffie-hellman-group14-sha1. *)
Definition dh_p_1 : list Z :=
  [0xFF; 0xFF; 0xFF; 0xFF; 0xFF; 0xFF; 0xFF; 0xFF; 0xC9; 0x0F; 0xDA; 0xA2; 0x21; 0x68; 0xC2; 0x34;
  0xC4; 0xC6; 0x62; 0x8B; 0x80; 0xDC; 0x1C; 0xD1; 0x29; 0x02; 0x4E; 0x08; 0x8A; 0x67; 0xCC; 0x74;
  0x02; 0x0B; 0xBE; 0xA6; 0x3B; 0x13; 0x9B; 0x22; 0x51; 0x4A; 0x08; 0x79; 0x8E; 0x34; 0x04; 0xDD;
  0xEF; 0x95; 0x19; 0xB3; 0xCD; 0x3A; 0x43; 0x1B; 0x30; 0x2B; 0x0A; 0x6D; 0xF2; 0x5F; 0x14; 0x37;
  0x4F; 0xE1; 0x35; 0x6D; 0x6D; 0x51; 0xC2; 0x45; 0xE4; 0x85; 0xB5; 0x76; 0x62; 0x5E; 0x7E; 0xC6;
  0xF4; 0x4C; 0x42; 0xE9; 0xA6; 0x37; 0xED; 0x6B; 0x0B; 0xFF; 0x5C; 0xB6; 0xF4; 0x06; 0xB7; 0xED;
  0xEE; 0x38; 0x6B; 0xFB; 0x5A; 0x89; 0x9F; 0xA5; 0xAE; 0x9F; 0x24; 0x11; 0x7C; 0x4B; 0x1F; 0xE6;
  0x49; 0x28; 0x66; 0x51; 0xEC; 0xE6; 0x53; 0x81; 0xFF; 0xFF; 0xFF; 0xFF; 0xFF; 0xFF; 0xFF; 0xFF].
Definition dh_p_14 : list Z :=
  [0xFF; 0xFF; 0xFF; 0xFF; 0xFF; 0xFF; 0xFF; 0xFF; 0xC9; 0x0F; 0xDA; 0xA2; 0x21; 0x68; 0xC2; 0x34;
  0xC4; 0xC6; 0x62; 0x8B; 0x80; 0xDC; 0x1C; 0xD1; 0x29; 0x02; 0x4E; 0x08; 0x8A; 0x67; 0xCC; 0x74;
  0x02; 0x0B; 0xBE; 0xA6; 0x3B; 0x13; 0x9B; 0x22; 0x51; 0x4A; 0x08; 0x79; 0x8E; 0x34; 0x04; 0xDD;
  0xEF; 0x95; 0x19; 0xB3; 0xCD; 0x3A; 0x43; 0x1B; 0x30; 0x2B; 0x0A; 0x6D; 0xF2; 0x5F; 0x14; 0x37;
  0x4F; 0xE1; 0x35; 0x6D; 0x6D; 0x51; 0xC2; 0x45; 0xE4; 0x85; 0xB5; 0x76; 0x62; 0x5E; 0x7E; 0xC6;
  0xF4; 0x4C; 0x42; 0xE9; 0xA6; 0x37; 0xED; 0x6B; 0x0B; 0xFF; 0x5C; 0xB6; 0xF4; 0x06; 0xB7; 0xED;
  0xEE; 0x38; 0x6B; 0xFB; 0x5A; 0x89; 0x9F; 0xA5; 0xAE; 0x9F; 0x24; 0x11; 0x7C; 0x4B; 0x1F; 0xE6;
  0x49; 0x28; 0x66; 0x51; 0xEC; 0xE4; 0x5B; 0x3D; 0xC2; 0x00; 0x7C; 0xB8; 0xA1; 0x63; 0xBF; 0x05;
  0x98; 0xDA; 0x48; 0x36; 0x1C; 0x55; 0xD3; 0x9A; 0x69; 0x16; 0x3F; 0xA8; 0xFD; 0x24; 0xCF; 0x5F;
  0x83; 0x65; 0x5D; 0x23; 0xDC; 0xA3; 0xAD; 0x96; 0x1C; 0x62; 0xF3; 0x56; 0x20; 0x85; 0x52; 0xBB;
  0x9E; 0xD5; 0x29; 0x07; 0x70; 0x96; 0x96; 0x6D; 0x67; 0x0C; 0x35; 0x4E; 0x4A; 0xBC; 0x98; 0x04;
  0xF1; 0x74; 0x6C; 0x08; 0xCA; 0x18; 0x21; 0x7C; 0x32; 0x90; 0x5E; 0x46; 0x2E; 0x36; 0xCE; 0x3B;
  0xE3; 0x9E; 0x77; 0x2C; 0x18; 0x0E; 0x86; 0x03; 0x9B; 0x27; 0x83; 0xA2; 0xEC; 0x07; 0xA2; 0x8F;
  0xB5; 0xC5; 0x5D; 0xF0; 0x6F; 0x4C; 0x52; 0xC9; 0xDE; 0x2B; 0xCB; 0xF6; 0x95; 0x58; 0x17; 0x18;
  0x39; 0x95; 0x49; 0x7C; 0xEA; 0x95; 0x6A; 0xE5; 0x15; 0xD2; 0x26; 0x18; 0x98; 0xFA; 0x05; 0x10;
  0x15; 0x72; 0x8E; 0x5A; 0x8A; 0xAC; 0xAA; 0x68; 0xFF; 0xFF; 0xFF; 0xFF; 0xFF; 0xFF; 0xFF; 0xFF].

Section Kex.
Context {K St Zs R : Type} `{SignKey K R} `{CipherStart St} `{ZlibStreams Zs} `{Random R} `{RandomMp R} `{ExptMod}.
Abbreviation kses := (kses K St Zs R).
Abbreviation key_context := (key_context St Zs).
Abbreviation key_context_directional := (key_context_directional St Zs).

(** ** Access to the state *)

Definition on_wp {A} (m : prog buffer A) : prog kses A := zoom x_writepayload set_x_writepayload m.

(** An operation on a buffer behind a pointer. *)
Definition on_ref {A} (get : kses -> option buffer) (set : option buffer -> kses -> kses) (m : prog buffer A) : prog kses A := fun s =>
  match get s with
  | None => Fault "null pointer"
  | Some b => match m b with Ok (a, b') => Ok (a, set (Some b') s) | Exit e => Exit e | Fault e => Fault e end
  end.

Definition on_payload {A} (m : prog buffer A) : prog kses A := on_ref x_payload set_x_payload m.
Definition on_kexhashbuf {A} (m : prog buffer A) : prog kses A := on_ref x_kexhashbuf set_x_kexhashbuf m.

Definition kexst (f : kexstate -> kexstate) : prog kses unit := modify (fun s => set_x_kexstate (f (x_kexstate s)) s).

Definition newkeys : prog kses key_context := o <- gets x_newkeys ;; deref o.
Definition mod_newkeys (f : key_context -> key_context) : prog kses unit :=
  k <- newkeys ;; modify (set_x_newkeys (Some (f k))).
Definition keys : prog kses key_context := o <- gets x_keys ;; deref o.
Definition mod_keys (f : key_context -> key_context) : prog kses unit :=
  k <- keys ;; modify (set_x_keys (Some (f k))).
Definition new_recv (f : key_context_directional -> key_context_directional) : prog kses unit :=
  mod_newkeys (fun k => set_kc_recv (f (kc_recv k)) k).
Definition new_trans (f : key_context_directional -> key_context_directional) : prog kses unit :=
  mod_newkeys (fun k => set_kc_trans (f (kc_trans k)) k).

Definition cfg {A} (f : config K -> A) : prog kses A := gets (fun s => f (x_cfg s)).

(** The result of a call that cannot fail on a hash state in use. *)
Definition hashed {S A} (o : option A) : prog S A := match o with Some a => ret a | None => fault "hash state" end.

(** [encrypt_packet] as its callers see it. *)
Definition encrypt_packet : prog kses unit :=
  b <- gets x_writepayload ;;
  modify (fun s => set_x_sent (x_sent s ++ [ztake (b_len b) (b_data b)]) s) ;;;
  on_wp (buf_setpos 0) ;;;
  on_wp (buf_setlen 0).

Definition random_bytes (n : Z) : prog kses (list Z) := fun s =>
  let '(bs, r) := genrandom n (x_random s) in Ok (bs, set_x_random r s).

(** ** The Diffie-Hellman values *)

Definition load_dh_p (algo_kex : Z) : Z :=
  if algo_kex =? DROPBEAR_KEX_DH_GROUP1 then mp_read_unsigned_bin dh_p_1
  else if algo_kex =? DROPBEAR_KEX_DH_GROUP14 then mp_read_unsigned_bin dh_p_14
  else 0.

(** The public and the private value. *)
Definition gen_kexdh_vals : prog kses (Z * Z) :=
  nk <- newkeys ;;
  let dh_p := load_dh_p (kc_algo_kex nk) in
  let dh_g := DH_G_VAL in
  let dh_q := Z.shiftr (dh_p - 1) 1 in
  r <- gets x_random ;;
  let '(dh_priv, r) := gen_random_mpint dh_q r in
  modify (set_x_random r) ;;;
  match mp_exptmod dh_g dh_priv dh_p with
  | None => dropbear_exit "Diffie-Hellman error"
  | Some dh_pub => ret (dh_pub, dh_priv)
  end.

Definition send_msg_kexdh_init : prog kses unit :=
  nk <- newkeys ;;
  e <- gets x_dh_e ;;
  x <- gets x_dh_x ;;
  algo <- gets x_dh_val_algo ;;
  (match e, x with
   | Some _, Some _ =>
       if algo =? kc_algo_kex nk then ret tt
       else
         v <- gen_kexdh_vals ;;
         modify (set_x_dh_e (Some (fst v))) ;;;
         modify (set_x_dh_x (Some (snd v))) ;;;
         modify (set_x_dh_val_algo (kc_algo_kex nk))
   | _, _ =>
       v <- gen_kexdh_vals ;;
       match e, x with
       | Some _, None => fault "null pointer"
       | _, _ =>
           modify (set_x_dh_e (Some (fst v))) ;;;
           modify (set_x_dh_x (Some (snd v))) ;;;
           modify (set_x_dh_val_algo (kc_algo_kex nk))
       end
   end) ;;;
  on_wp (buf_putbyte SSH_MSG_KEXDH_INIT) ;;;
  e <- gets x_dh_e ;;
  e <- deref e ;;
  on_wp (buf_putmpint e) ;;;
  encrypt_packet ;;;
  modify (set_x_requirenext (SSH_MSG_KEXDH_REPLY, SSH_MSG_KEXINIT)).

(** ** KEXINIT *)

Definition send_msg_kexinit : prog kses unit :=
  on_wp (buf_putbyte SSH_MSG_KEXINIT) ;;;
  p <- on_wp (buf_getwriteptr 16) ;;
  cookie <- random_bytes 16 ;;
  on_wp (store_bytes p cookie) ;;;
  on_wp (buf_incrwritepos 16) ;;;
  kex <- cfg cf_sshkex ;;
  on_wp (buf_put_algolist kex) ;;;
  hostkey <- cfg cf_sshhostkey ;;
  on_wp (buf_put_algolist hostkey) ;;;
  ciphers <- cfg cf_sshciphers ;;
  on_wp (buf_put_algolist ciphers) ;;;
  on_wp (buf_put_algolist ciphers) ;;;
  hashes <- cfg cf_sshhashes ;;
  on_wp (buf_put_algolist hashes) ;;;
  on_wp (buf_put_algolist hashes) ;;;
  comp <- gets x_compress_algos ;;
  on_wp (buf_put_algolist comp) ;;;
  on_wp (buf_put_algolist comp) ;;;
  on_wp (buf_putstring [] 0) ;;;
  on_wp (buf_putstring [] 0) ;;;
  guess <- cfg cf_first_guess ;;
  on_wp (buf_putbyte (if guess then 1 else 0)) ;;;
  on_wp (buf_putint 0) ;;;
  b <- gets x_writepayload ;;
  copy <- buf_newcopy b ;;
  modify (set_x_transkexinit (Some copy)) ;;;
  encrypt_packet ;;;
  modify (set_x_dataallowed false) ;;;
  kexst (set_ks_sentkexinit true) ;;;
  modify (set_x_newkeys (Some zero_kc)) ;;;
  when guess
    (match kex, hostkey with
     | k :: _, h :: _ =>
         mod_newkeys (set_kc_algo_kex (al_val k)) ;;;
         mod_newkeys (set_kc_algo_hostkey (al_val h)) ;;;
         send_msg_kexdh_init
     | _, _ => fault "algorithm array read out of bounds"
     end).

(** [goto error] *)
Definition need {S A} (o : option A) (what : string) : prog S A :=
  match o with
  | Some a => ret a
  | None => dropbear_exit (String.append "No matching algo " what)
  end.

(** One call of buf_match_algo with NULL pointers. *)
Definition match_algo (algos : list (algo_type algo_data)) (what : string) : prog kses (algo_type algo_data) :=
  client <- cfg cf_isclient ;;
  x <- on_payload (buf_match_algo (negb client) algos None None) ;;
  need (fst (fst x)) what.

Definition read_kex_algos : prog kses unit :=
  client <- cfg cf_isclient ;;
  on_payload (buf_incrpos 16) ;;;
  mod_newkeys (fun _ => zero_kc) ;;;
  (* kex_algorithms *)
  kex <- cfg cf_sshkex ;;
  x <- on_payload (buf_match_algo (negb client) kex (Some KEXGUESS2_LOOK) (Some false)) ;;
  let '(algo, kexguess2, goodguess) := x in
  let allgood := default false goodguess in
  algo <- need algo "kex" ;;
  if al_val algo =? KEXGUESS2_ALGO_ID then dropbear_exit "No matching algo kex"
  else
  mod_newkeys (set_kc_algo_kex (al_val algo)) ;;;
  (* server_host_key_algorithms *)
  hostkey <- cfg cf_sshhostkey ;;
  x <- on_payload (buf_match_algo (negb client) hostkey kexguess2 (Some (default false goodguess))) ;;
  let '(algo, kexguess2, goodguess) := x in
  let allgood := allgood && default false goodguess in
  algo <- need algo "hostkey" ;;
  mod_newkeys (set_kc_algo_hostkey (al_val algo)) ;;;
  (* the lists for each direction *)
  ciphers <- cfg cf_sshciphers ;;
  c2s_cipher_algo <- match_algo ciphers "enc c->s" ;;
  s2c_cipher_algo <- match_algo ciphers "enc s->c" ;;
  hashes <- cfg cf_sshhashes ;;
  c2s_hash_algo <- match_algo hashes "mac c->s" ;;
  s2c_hash_algo <- match_algo hashes "mac s->c" ;;
  comp <- gets x_compress_algos ;;
  c2s_comp_algo <- match_algo comp "comp c->s" ;;
  s2c_comp_algo <- match_algo comp "comp s->c" ;;
  (* languages *)
  on_payload buf_eatstring ;;;
  on_payload buf_eatstring ;;;
  (* their first_kex_packet_follows *)
  follows <- on_payload buf_getbool ;;
  when (negb (follows =? 0))
    (kexst (set_ks_them_firstfollows true) ;;;
     when (negb allgood) (modify (set_x_ignorenext true))) ;;;
  (* the asymmetry *)
  let '(recv_cipher, trans_cipher) := if client then (s2c_cipher_algo, c2s_cipher_algo) else (c2s_cipher_algo, s2c_cipher_algo) in
  let '(recv_hash, trans_hash) := if client then (s2c_hash_algo, c2s_hash_algo) else (c2s_hash_algo, s2c_hash_algo) in
  let '(recv_comp, trans_comp) := if client then (s2c_comp_algo, c2s_comp_algo) else (c2s_comp_algo, s2c_comp_algo) in
  new_recv (fun d => set_kd_algo_comp (al_val recv_comp) (set_kd_algo_mac (as_hash recv_hash)
    (set_kd_crypt_mode (as_mode recv_cipher) (set_kd_algo_crypt (as_cipher recv_cipher) d)))) ;;;
  new_trans (fun d => set_kd_algo_comp (al_val trans_comp) (set_kd_algo_mac (as_hash trans_hash)
    (set_kd_crypt_mode (as_mode trans_cipher) (set_kd_algo_crypt (as_cipher trans_cipher) d)))) ;;;
  (* reserved *)
  on_payload buf_getint ;;;
  guess <- cfg cf_first_guess ;;
  when (guess && allgood) (kexst (set_ks_our_first_follows_matches true)).

(** [buf_putstring(ses.kexhashbuf, b->data, b->len)] *)
Definition hash_put_buffer (b : buffer) : prog kses unit := on_kexhashbuf (buf_putstring (b_data b) (b_len b)).

Definition recv_msg_kexinit : prog kses unit :=
  ks <- gets x_kexstate ;;
  when (negb (ks_sentkexinit ks)) send_msg_kexinit ;;;
  remoteident <- gets x_remoteident ;;
  let local_ident_len := zlen LOCAL_IDENT in
  let remote_ident_len := zlen remoteident in
  o <- gets x_transkexinit ;;
  transkexinit <- deref o ;;
  o <- gets x_payload ;;
  payload <- deref o ;;
  hb <- buf_new (local_ident_len + remote_ident_len + b_len transkexinit + b_len payload + KEXHASHBUF_MAX_INTS) ;;
  modify (set_x_kexhashbuf (Some hb)) ;;;
  client <- cfg cf_isclient ;;
  (if client : bool then
     read_kex_algos ;;;
     on_kexhashbuf (buf_putstring LOCAL_IDENT local_ident_len) ;;;
     on_kexhashbuf (buf_putstring remoteident remote_ident_len) ;;;
     hash_put_buffer transkexinit ;;;
     on_payload (buf_setpos 0) ;;;
     o <- gets x_payload ;;
     payload <- deref o ;;
     hash_put_buffer payload
   else
     read_kex_algos ;;;
     on_kexhashbuf (buf_putstring remoteident remote_ident_len) ;;;
     on_kexhashbuf (buf_putstring LOCAL_IDENT local_ident_len) ;;;
     on_payload (buf_setpos 0) ;;;
     o <- gets x_payload ;;
     payload <- deref o ;;
     hash_put_buffer payload ;;;
     hash_put_buffer transkexinit ;;;
     modify (fun s => set_x_requirenext (SSH_MSG_KEXDH_INIT, snd (x_requirenext s)) s)) ;;;
  modify (set_x_transkexinit None) ;;;
  kexst (set_ks_recvkexinit true).

(** ** The exchange hash *)

Definition kexdh_comb_key (dh_pub_us dh_priv dh_pub_them : Z) (hostkey : K) : prog kses unit :=
  nk <- newkeys ;;
  let dh_p := load_dh_p (kc_algo_kex nk) in
  if negb (dh_pub_them <? dh_p) || negb (dh_pub_them >? 0) then dropbear_exit "Diffie-Hellman error"
  else
  match mp_exptmod dh_pub_them dh_priv dh_p with
  | None => dropbear_exit "Diffie-Hellman error"
  | Some dh_K =>
      modify (set_x_dh_K (Some dh_K)) ;;;
      client <- cfg cf_isclient ;;
      let '(dh_e, dh_f) := if client : bool then (dh_pub_us, dh_pub_them) else (dh_pub_them, dh_pub_us) in
      on_kexhashbuf (buf_put_pub_key hostkey (kc_algo_hostkey nk)) ;;;
      on_kexhashbuf (buf_putmpint dh_e) ;;;
      on_kexhashbuf (buf_putmpint dh_f) ;;;
      on_kexhashbuf (buf_putmpint dh_K) ;;;
      on_kexhashbuf (buf_setpos 0) ;;;
      input <- on_kexhashbuf (b <- gets id ;; getptr_bytes (b_len b)) ;;
      hs <- hashed (Sha1.sha1_process (Sha1.sha1_init fresh_buf) input) ;;
      hash <- hashed (Sha1.sha1_done hs) ;;
      modify (set_x_hash hash) ;;;
      on_kexhashbuf buf_burn ;;;
      modify (set_x_kexhashbuf None) ;;;
      sid <- gets x_session_id ;;
      match sid with
      | None => modify (set_x_session_id (Some hash))
      | Some _ => ret tt
      end
  end.

(** ** The keys *)

(** [hash the ssh representation of mp] *)
Definition sha1_process_mp (hs : md_state) (mp : Z) : prog kses md_state :=
  buf <- buf_new (512 + 20) ;;
  x <- on buf (buf_putmpint mp) ;;
  let buf := snd x in
  let i := b_pos buf in
  x <- on buf (buf_setpos 0) ;;
  x <- on (snd x) (getptr_bytes i) ;;
  hashed (Sha1.sha1_process hs (fst x)).

(** [memcpy(&out[off], bs, ...)] into an array. *)
Definition array_write (out : list Z) (off : Z) (bs : list Z) : prog kses (list Z) :=
  if off + zlen bs <=? zlen out then ret (splice off bs out) else fault "key array written out of bounds".

(** The loop of hashkeys from [offset] on. *)
Fixpoint hashkeys_loop (n : nat) (offset outlen : Z) (hs : md_state) (out : list Z) : prog kses (list Z) :=
  if offset <? outlen then
    match n with
    | O => fault "out of fuel"
    | S n =>
        src <- src_bytes out offset ;;
        hs2 <- hashed (Sha1.sha1_process hs src) ;;
        k2 <- hashed (Sha1.sha1_done hs2) ;;
        out <- array_write out offset (ztake (Z.min (outlen - offset) SHA1_HASH_SIZE) k2) ;;
        hashkeys_loop n (offset + SHA1_HASH_SIZE) outlen hs out
    end
  else ret out.

(** The new contents of the array [out]. *)
Definition hashkeys (out : list Z) (outlen : Z) (hs : md_state) (X : Z) : prog kses (list Z) :=
  sid <- gets x_session_id ;;
  hs2 <- hashed (Sha1.sha1_process hs [X]) ;;
  session_id <- deref sid ;;
  hs2 <- hashed (Sha1.sha1_process hs2 session_id) ;;
  k1 <- hashed (Sha1.sha1_done hs2) ;;
  out <- array_write out 0 k1 ;;
  hashkeys_loop (Z.to_nat outlen) SHA1_HASH_SIZE outlen hs out.

(** Starting one direction's cipher. *)
Definition start_cipher (d : key_context_directional) (IV key : list Z) : prog kses key_context_directional :=
  crypt <- deref (kd_algo_crypt d) ;;
  match dc_cipherdesc crypt with
  | None => ret d
  | Some desc =>
      let cipher := find_named (cd_name desc) cipher_descriptor in
      if cipher <? 0 then dropbear_exit "Crypto error"
      else
        mode <- deref (kd_crypt_mode d) ;;
        match mode_start mode cipher IV (ztake (dc_keysize crypt) key) with
        | None => dropbear_exit "Crypto error"
        | Some st => ret (set_kd_cipher_state (Some st) d)
        end
  end.

(** One direction's MAC key. *)
Definition start_mac (d : key_context_directional) (hs : md_state) (letter : Z) : prog kses key_context_directional :=
  mac <- deref (kd_algo_mac d) ;;
  match dh_hashdesc mac with
  | None => ret d
  | Some desc =>
      mackey <- hashkeys (kd_mackey d) (dh_keysize mac) hs letter ;;
      ret (set_kd_hash_index (find_named (hd_name desc) hash_descriptor) (set_kd_mackey mackey d))
  end.

(** An array on the stack, before it is written. *)
Definition stack_array (n : Z) : list Z := replicate (Z.to_nat n) 0.

(** The second half of gen_new_keys: the ciphers and MAC keys of both
    directions. *)
Definition install_keys (hs : md_state) (recv_IV recv_key trans_IV trans_key : list Z) (mactransletter macrecvletter : Z)
    : prog kses unit :=
  nk <- newkeys ;;
  d <- start_cipher (kc_recv nk) recv_IV recv_key ;;
  new_recv (fun _ => d) ;;;
  d <- start_cipher (kc_trans nk) trans_IV trans_key ;;
  new_trans (fun _ => d) ;;;
  nk <- newkeys ;;
  d <- start_mac (kc_trans nk) hs mactransletter ;;
  new_trans (fun _ => d) ;;;
  d <- start_mac (kc_recv nk) hs macrecvletter ;;
  new_recv (fun _ => d) ;;;
  new_trans (set_kd_valid true) ;;;
  new_recv (set_kd_valid true).

Definition gen_new_keys : prog kses unit :=
  let hs := Sha1.sha1_init fresh_buf in
  o <- gets x_dh_K ;;
  dh_K <- deref o ;;
  hs <- sha1_process_mp hs dh_K ;;
  modify (set_x_dh_K None) ;;;
  hash <- gets x_hash ;;
  hs <- hashed (Sha1.sha1_process hs (ztake SHA1_HASH_SIZE hash)) ;;
  modify (set_x_hash (replicate (Z.to_nat SHA1_HASH_SIZE) 0)) ;;;
  client <- cfg cf_isclient ;;
  nk <- newkeys ;;
  trans_crypt <- deref (kd_algo_crypt (kc_trans nk)) ;;
  recv_crypt <- deref (kd_algo_crypt (kc_recv nk)) ;;
  let '(C2S_keysize, S2C_keysize) :=
    if client : bool then (dc_keysize trans_crypt, dc_keysize recv_crypt) else (dc_keysize recv_crypt, dc_keysize trans_crypt) in
  let '(mactransletter, macrecvletter) := if client : bool then (69, 70) else (70, 69) in
  C2S_IV <- hashkeys (stack_array MAX_IV_LEN) SHA1_HASH_SIZE hs 65 ;;
  S2C_IV <- hashkeys (stack_array MAX_IV_LEN) SHA1_HASH_SIZE hs 66 ;;
  C2S_key <- hashkeys (stack_array MAX_KEY_LEN) C2S_keysize hs 67 ;;
  S2C_key <- hashkeys (stack_array MAX_KEY_LEN) S2C_keysize hs 68 ;;
  let '(trans_IV, recv_IV) := if client : bool then (C2S_IV, S2C_IV) else (S2C_IV, C2S_IV) in
  let '(trans_key, recv_key) := if client : bool then (C2S_key, S2C_key) else (S2C_key, C2S_key) in
  install_keys hs recv_IV recv_key trans_IV trans_key mactransletter macrecvletter.

(** ** Taking the keys into use *)

Definition is_zlib (comp : Z) : bool := (comp =? DROPBEAR_COMP_ZLIB) || (comp =? DROPBEAR_COMP_ZLIB_DELAY).

Definition gen_new_zstream_recv : prog kses unit :=
  nk <- newkeys ;;
  (if is_zlib (kd_algo_comp (kc_recv nk)) then
     match inflateInit with
     | None => dropbear_exit "zlib error"
     | Some z => new_recv (set_kd_zstream (Some z))
     end
   else new_recv (set_kd_zstream None)) ;;;
  k <- keys ;;
  match kd_zstream (kc_recv k) with
  | None => ret tt
  | Some z =>
      if inflateEnd z then mod_keys (fun k => set_kc_recv (set_kd_zstream None (kc_recv k)) k)
      else dropbear_exit "Crypto error"
  end.

Definition gen_new_zstream_trans : prog kses unit :=
  nk <- newkeys ;;
  (if is_zlib (kd_algo_comp (kc_trans nk)) then
     match deflateInit2 with
     | None => dropbear_exit "zlib error"
     | Some z => new_trans (set_kd_zstream (Some z))
     end
   else new_trans (set_kd_zstream None)) ;;;
  k <- keys ;;
  match kd_zstream (kc_trans k) with
  | None => ret tt
  | Some z =>
      if deflateEnd z then mod_keys (fun k => set_kc_trans (set_kd_zstream None (kc_trans k)) k)
      else dropbear_exit "Crypto error"
  end.

(** Reset for the next negotiation. *)
Definition kexinitialise : prog kses unit :=
  now <- gets x_now ;;
  kexst (fun k => mkks false false false false false (ks_donefirstkex k) false now 0 0).

Definition kexfirstinitialise : prog kses unit :=
  kexst (set_ks_donefirstkex false) ;;;
  compress <- cfg cf_enable_compress ;;
  modify (set_x_compress_algos (if compress then ssh_compress else ssh_nocompress)) ;;;
  kexinitialise.

Definition switch_keys : prog kses unit :=
  ks <- gets x_kexstate ;;
  if negb (ks_sentkexinit ks && ks_recvkexinit ks) then dropbear_exit "Unexpected newkeys message"
  else
    o <- gets x_keys ;;
    match o with None => modify (set_x_keys (Some zero_kc)) | Some _ => ret tt end ;;;
    nk <- newkeys ;;
    when (ks_recvnewkeys ks && kd_valid (kc_recv nk))
      (gen_new_zstream_recv ;;;
       nk <- newkeys ;;
       mod_keys (set_kc_recv (kc_recv nk)) ;;;
       new_recv (fun _ => zero_kd)) ;;;
    nk <- newkeys ;;
    when (ks_sentnewkeys ks && kd_valid (kc_trans nk))
      (gen_new_zstream_trans ;;;
       nk <- newkeys ;;
       mod_keys (set_kc_trans (kc_trans nk)) ;;;
       new_trans (fun _ => zero_kd)) ;;;
    when (ks_sentnewkeys ks && ks_recvnewkeys ks)
      (nk <- newkeys ;;
       mod_keys (set_kc_algo_kex (kc_algo_kex nk)) ;;;
       mod_keys (set_kc_algo_hostkey (kc_algo_hostkey nk)) ;;;
       mod_keys (set_kc_allow_compress false) ;;;
       modify (set_x_newkeys None) ;;;
       kexinitialise).

Definition send_msg_newkeys : prog kses unit :=
  on_wp (buf_putbyte SSH_MSG_NEWKEYS) ;;;
  encrypt_packet ;;;
  kexst (set_ks_sentnewkeys true) ;;;
  kexst (set_ks_donefirstkex true) ;;;
  modify (set_x_dataallowed true) ;;;
  gen_new_keys ;;;
  switch_keys.

Definition recv_msg_newkeys : prog kses unit :=
  kexst (set_ks_recvnewkeys true) ;;;
  switch_keys.

(** ** The server's side (svr-kex.c) *)

Definition send_msg_kexdh_reply (dh_e : Z) : prog kses unit :=
  v <- gen_kexdh_vals ;;
  let '(dh_f, dh_y) := v in
  hostkey <- cfg cf_hostkey ;;
  kexdh_comb_key dh_f dh_y dh_e hostkey ;;;
  on_wp (buf_putbyte SSH_MSG_KEXDH_REPLY) ;;;
  nk <- newkeys ;;
  on_wp (buf_put_pub_key hostkey (kc_algo_hostkey nk)) ;;;
  on_wp (buf_putmpint dh_f) ;;;
  hash <- gets x_hash ;;
  r <- gets x_random ;;
  r <- on_wp (buf_put_sign hostkey (kc_algo_hostkey nk) hash r) ;;
  modify (set_x_random r) ;;;
  encrypt_packet.

Definition recv_msg_kexdh_init : prog kses unit :=
  ks <- gets x_kexstate ;;
  if negb (ks_recvkexinit ks) then dropbear_exit "Premature kexdh_init message received"
  else
    o <- on_payload buf_getmpint ;;
    match o with
    | None => dropbear_exit "Failed to get kex value"
    | Some dh_e =>
        send_msg_kexdh_reply dh_e ;;;
        send_msg_newkeys ;;;
        modify (set_x_requirenext (SSH_MSG_NEWKEYS, 0))
    end.

(** ** The client's side (cli-kex.c, cli-session.c) *)

Definition recv_msg_kexdh_reply : prog kses unit :=
  st <- gets x_cli_kex_state ;;
  if negb (bool_decide (st = KEXDH_INIT_SENT)) then dropbear_exit "Received out-of-order kexdhreply"
  else
    nk <- newkeys ;;
    keybloblen <- on_payload buf_getint ;;
    keyblob <- on_payload (getptr_bytes keybloblen) ;;
    ks <- gets x_kexstate ;;
    when (negb (ks_donefirstkex ks) && negb (checkhostkey keyblob)) (dropbear_exit "Didn't validate host key") ;;;
    hostkey <- on_payload (buf_get_pub_key (kc_algo_hostkey nk)) ;;
    match hostkey with
    | None => dropbear_exit "Bad KEX packet"
    | Some hostkey =>
        o <- on_payload buf_getmpint ;;
        match o with
        | None => dropbear_exit "Bad KEX packet"
        | Some dh_f =>
            e <- gets x_dh_e ;;
            x <- gets x_dh_x ;;
            dh_e <- deref e ;;
            dh_x <- deref x ;;
            kexdh_comb_key dh_e dh_x dh_f hostkey ;;;
            modify (set_x_dh_e None) ;;;
            modify (set_x_dh_x None) ;;;
            modify (set_x_dh_val_algo DROPBEAR_KEX_NONE) ;;;
            hash <- gets x_hash ;;
            good <- on_payload (buf_verify hostkey hash) ;;
            if good : bool then
              send_msg_newkeys ;;;
              modify (set_x_requirenext (SSH_MSG_NEWKEYS, 0))
            else dropbear_exit "Bad hostkey signature"
        end
    end.

(** The part of cli_sessionloop that drives the key exchange; the result says
    whether the function goes on to authentication and channels. *)
Definition cli_sessionloop_kex : prog kses bool :=
  lastpacket <- gets x_lastpacket ;;
  if lastpacket =? 0 then ret false
  else
    st <- gets x_cli_kex_state ;;
    if (lastpacket =? SSH_MSG_KEXINIT) && bool_decide (st = KEX_NOTHING) then
      ks <- gets x_kexstate ;;
      when (negb (ks_our_first_follows_matches ks)) send_msg_kexdh_init ;;;
      modify (set_x_cli_kex_state KEXDH_INIT_SENT) ;;;
      ret false
    else
      ks <- gets x_kexstate ;;
      when (negb (bool_decide (st = KEX_NOTHING)) && ks_sentnewkeys ks) (modify (set_x_cli_kex_state KEX_NOTHING)) ;;;
      st <- gets x_cli_kex_state ;;
      if negb (bool_decide (st = KEX_NOTHING)) then ret false
      else ret (ks_donefirstkex ks).

(** ** Dispatching a packet (process-packet.c) *)

Definition MAX_UNAUTH_PACKET_TYPE : Z := 60.

Definition recv_unimplemented : prog kses unit :=
  on_wp (buf_putbyte SSH_MSG_UNIMPLEMENTED) ;;;
  seq <- gets x_recvseq ;;
  on_wp (buf_putint (u32 (seq - 1))) ;;;
  encrypt_packet.

(** The loop over [packettypes]. *)
Fixpoint dispatch (packettypes : list (Z * prog kses unit)) (type : Z) : prog kses unit :=
  match packettypes with
  | [] => recv_unimplemented
  | (t, handler) :: packettypes => if t =? type then handler else dispatch packettypes type
  end.

Definition process_packet (packettypes : list (Z * prog kses unit)) : prog kses unit :=
  type <- on_payload buf_getbyte ;;
  modify (set_x_lastpacket type) ;;;
  now <- gets x_now ;;
  modify (set_x_last_packet_time now) ;;;
  (if (type =? SSH_MSG_IGNORE) || (type =? SSH_MSG_DEBUG) then ret tt
   else if type =? SSH_MSG_UNIMPLEMENTED then dropbear_exit "Received SSH_MSG_UNIMPLEMENTED"
   else if type =? SSH_MSG_DISCONNECT then dropbear_exit "Disconnect received"
   else
     rq <- gets x_requirenext ;;
     let '(r0, r1) := rq in
     (if negb (r0 =? 0) then
        if negb (r0 =? type) && ((r1 =? 0) || negb (r1 =? type)) then dropbear_exit "Unexpected packet type"
        else modify (set_x_requirenext (0, 0))
      else ret tt) ;;;
     ignorenext <- gets x_ignorenext ;;
     if ignorenext : bool then modify (set_x_ignorenext false)
     else
       authdone <- gets x_authdone ;;
       if negb authdone && (type >? MAX_UNAUTH_PACKET_TYPE) then dropbear_exit "Received message before userauth"
       else dispatch packettypes type) ;;;
  modify (set_x_payload None).

(** The part of checktimeouts (common-session.c) that starts a new exchange. *)
Definition checktimeouts_rekey : prog kses unit :=
  ks <- gets x_kexstate ;;
  now <- gets x_now ;;
  when (negb (ks_sentkexinit ks) &&
        ((now - ks_lastkextime ks >=? KEX_REKEY_TIMEOUT) || (u32 (ks_datarecv ks + ks_datatrans ks) >=? KEX_REKEY_DATA)))
    send_msg_kexinit.

(** The key exchange's rows of svr_packettypes and cli_packettypes. *)
Definition svr_kex_packettypes : list (Z * prog kses unit) :=
  [(SSH_MSG_KEXINIT, recv_msg_kexinit); (SSH_MSG_KEXDH_INIT, recv_msg_kexdh_init); (SSH_MSG_NEWKEYS, recv_msg_newkeys)].
Definition cli_kex_packettypes : list (Z * prog kses unit) :=
  [(SSH_MSG_KEXINIT, recv_msg_kexinit); (SSH_MSG_KEXDH_REPLY, recv_msg_kexdh_reply); (SSH_MSG_NEWKEYS, recv_msg_newkeys)].
End Kex.
