(* ===== verification/KexKeys.v ===== *)
(** The keys a key exchange derives: hashkeys and gen_new_keys of common-kex.c
    compute the keys of RFC 4253 section 7.2, and the two sides of an exchange
    compute the same keys for each direction. *)

From S2P Require Import Prelude Dbutil Buffer Mpint Ssh Algo Queue Cipher Hmac Packet MdHash Sha1 Hashes Kex.

Local Open Scope Z_scope.
Local Open Scope prog_scope.

(** ** RFC 4253, section 7.2 *)

(** [KH] is the encoding of the shared secret followed by the exchange hash;
    [acc] is K1 || K2 || ... so far, and [n] more hashes are appended. *)
Fixpoint rfc_key_blocks (n : nat) (KH acc : list Z) : list Z :=
  match n with
  | O => acc
  | S n => rfc_key_blocks n KH (acc ++ Sha1.fips_sha1 (KH ++ acc))
  end.

(** The first [len] bytes of K1 || K2 || ..., K1 = HASH(K || H || X || session_id). *)
Definition rfc_key (KH session_id : list Z) (X len : Z) : list Z :=
  ztake len (rfc_key_blocks (Z.to_nat len) KH (Sha1.fips_sha1 (KH ++ [X] ++ session_id))).

Lemma rfc_key_prefix n KH acc k : k <= zlen acc -> ztake k (rfc_key_blocks n KH acc) = ztake k acc.
Proof.
  revert acc. induction n as [|n IH]; intros acc Hk; [done|]. cbn. pose proof (zlen_nonneg (Sha1.fips_sha1 (KH ++ acc))).
  rewrite IH by (rewrite zlen_app; lia). by rewrite ztake_app_le.
Qed.

(** A hash state that has been given [l]. *)
Abbreviation hs_of := (md_of Sha1.sha1_compress Sha1.sha1_state0).

Lemma hs_process hs l x : hs_of hs l -> exists hs', Sha1.sha1_process hs x = Some hs' /\ hs_of hs' (l ++ x).
Proof. apply md_process_ok. Qed.

Lemma hs_done hs l : hs_of hs l -> Sha1.sha1_done hs = Some (Sha1.fips_sha1 l).
Proof. intros Hl. rewrite <-Sha1.sha1_hash_fips. by apply md_done_ok. Qed.

Lemma hs_init : hs_of (Sha1.sha1_init fresh_buf) [].
Proof. by apply md_init_ok. Qed.

(** What the start functions promise: they take the keys of the program's
    ciphers. *)
Definition known_cipher (c : dropbear_cipher) (m : dropbear_cipher_mode) : Prop :=
  exists a, (a ∈ sshciphers) /\ al_data a = cipher_data c m.
Definition known_hash (h : dropbear_hash) : Prop := exists a, (a ∈ sshhashes) /\ al_data a = hash_data h.

Class CipherStartLaws (St : Type) `{CipherStart St} := {
  mode_start_ok c m desc IV key : known_cipher c m -> dc_cipherdesc c = Some desc -> zlen IV = MAX_IV_LEN -> zlen key = dc_keysize c ->
    is_Some (mode_start m (find_named (cd_name desc) cipher_descriptor) IV key)
}.

Section Keys.
Context {K St Zs R : Type} `{SignKey K R} `{CipherStartLaws St} `{ZlibStreams Zs} `{Random R} `{RandomMp R} `{ExptMod}.
Abbreviation kses := (kses K St Zs R).
Implicit Types (s : kses) (hs : md_state) (out KH sid : list Z).

Lemma twp_hash_process hs l x (Q : md_state -> kses -> Prop) s :
  hs_of hs l -> (forall hs', hs_of hs' (l ++ x) -> Q hs' s) -> twp (hashed (Sha1.sha1_process hs x)) Q s.
Proof. intros Hl HQ. destruct (hs_process hs l x Hl) as (hs' & -> & Hl'). by apply HQ. Qed.

Lemma twp_hash_done hs l (Q : list Z -> kses -> Prop) s :
  hs_of hs l -> Q (Sha1.fips_sha1 l) s -> twp (hashed (Sha1.sha1_done hs)) Q s.
Proof. intros Hl HQ. by rewrite (hs_done hs l Hl). Qed.

Lemma twp_array_write pre old post bs (Q : list Z -> kses -> Prop) s :
  zlen bs = zlen old -> Q (pre ++ bs ++ post) s -> twp (array_write (pre ++ old ++ post) (zlen pre) bs) Q s.
Proof.
  intros Hl HQ. unfold array_write. rewrite !zlen_app, Hl, (proj2 (Z.leb_le _ _)) by (pose proof (zlen_nonneg post); lia).
  by rewrite splice_app by done.
Qed.

(** The loop extends what is already in the array. *)
Lemma hashkeys_loop_ok n outlen hs KH acc rest (Q : list Z -> kses -> Prop) s :
  hs_of hs KH -> outlen <= zlen acc + 20 * Z.of_nat n -> outlen <= zlen (acc ++ rest) ->
  (forall out, zlen out = zlen (acc ++ rest) -> ztake outlen out = ztake outlen (rfc_key_blocks n KH acc) ->
     (outlen <= zlen acc -> out = acc ++ rest) -> Q out s) ->
  twp (hashkeys_loop n (zlen acc) outlen hs (acc ++ rest)) Q s.
Proof.
  intros Hhs. revert acc rest. induction n as [|n IH]; intros acc rest Hfuel Hout HQ; cbn [hashkeys_loop].
  - rewrite (proj2 (Z.ltb_ge _ _)) by lia. apply HQ; [done| |done]. cbn. by rewrite ztake_app_le by lia.
  - destruct (Z.ltb_spec (zlen acc) outlen) as [Hlt|Hge].
    2: { apply HQ; [done| |done]. by rewrite rfc_key_prefix, ztake_app_le by lia. }
    pose proof (zlen_nonneg acc) as Ha0. rewrite zlen_app in Hout.
    apply twp_bind. eapply twp_ok; [apply src_bytes_ok; rewrite zlen_app; lia|]. rewrite ztake_app_zlen.
    apply twp_bind. apply (twp_hash_process hs KH acc); [done|]. intros hs2 Hhs2.
    apply twp_bind. apply (twp_hash_done hs2 _ _ _ Hhs2). set (k2 := Sha1.fips_sha1 (KH ++ acc)).
    assert (Hk2 : zlen k2 = 20) by apply fips_sha1_ok. unfold SHA1_HASH_SIZE.
    set (m := Z.min (outlen - zlen acc) 20). assert (Hm : 0 < m <= 20 /\ m <= outlen - zlen acc) by lia.
    assert (Ht : zlen (ztake m k2) = m) by (apply zlen_ztake; lia).
    assert (Hr : zlen (ztake m rest) = m) by (apply zlen_ztake; lia).
    apply twp_bind. rewrite <-(ztake_zdrop m rest). apply twp_array_write; [congruence|].
    assert (Hd : zlen (zdrop m rest) = zlen rest - m) by (apply zlen_zdrop; lia).
    destruct (Z.eq_dec m 20) as [E20|Hshort].
    + rewrite E20 in *. rewrite (ztake_ge 20 k2) in * by lia.
      replace (zlen acc + 20) with (zlen (acc ++ k2)) by (rewrite zlen_app; lia).
      rewrite app_assoc. apply IH.
      * rewrite zlen_app. lia.
      * rewrite !zlen_app. lia.
      * intros out Hl Et _. apply HQ; [|exact Et|lia]. rewrite Hl, !zlen_app. lia.
    + assert (Em : m = outlen - zlen acc) by lia.
      assert (Eloop : hashkeys_loop n (zlen acc + 20) outlen hs (acc ++ ztake m k2 ++ zdrop m rest) s =
        Ok (acc ++ ztake m k2 ++ zdrop m rest, s)) by (destruct n; cbn [hashkeys_loop]; by rewrite (proj2 (Z.ltb_ge _ _)) by lia).
      eapply twp_ok; [exact Eloop|]. apply HQ; [|cbn; fold k2|lia].
      * rewrite !zlen_app. lia.
      * rewrite rfc_key_prefix by (rewrite zlen_app; lia). rewrite app_assoc, ztake_app_le by (rewrite zlen_app; lia).
        rewrite !ztake_app_ge by lia. replace (outlen - zlen acc) with m by lia.
        by rewrite (ztake_ge m (ztake m k2)) by lia.
Qed.

(** hashkeys into an array with room for a hash and for [outlen] bytes. *)
Lemma hashkeys_ok out outlen hs KH X sid (Q : list Z -> kses -> Prop) s :
  x_session_id s = Some sid -> hs_of hs KH -> 20 <= zlen out -> 0 <= outlen <= zlen out ->
  (forall out', zlen out' = zlen out -> ztake outlen out' = rfc_key KH sid X outlen ->
     (outlen <= 20 -> out' = rfc_key KH sid X 20 ++ zdrop 20 out) -> Q out' s) ->
  twp (hashkeys out outlen hs X) Q s.
Proof.
  intros Hsid Hhs H20 Hout HQ. unfold hashkeys. apply twp_bind, twp_gets. rewrite Hsid.
  apply twp_bind. apply (twp_hash_process hs KH [X]); [done|]. intros hs1 Hs1.
  apply twp_bind, twp_ret. apply twp_bind. apply (twp_hash_process hs1 (KH ++ [X]) sid); [done|]. intros hs2 Hs2.
  apply twp_bind. apply (twp_hash_done hs2 ((KH ++ [X]) ++ sid)); [done|]. rewrite <-app_assoc. unfold rfc_key in HQ.
  set (k1 := Sha1.fips_sha1 (KH ++ [X] ++ sid)) in *. assert (Hk1 : zlen k1 = 20) by apply fips_sha1_ok.
  assert (Hr : zlen (ztake 20 out) = 20) by (apply zlen_ztake; lia).
  assert (Hd : zlen (zdrop 20 out) = zlen out - 20) by (apply zlen_zdrop; lia).
  apply twp_bind. rewrite <-(ztake_zdrop 20 out) at 1.
  apply (twp_array_write [] (ztake 20 out) (zdrop 20 out) k1); [congruence|]. cbn [app].
  unfold SHA1_HASH_SIZE. rewrite <-Hk1 at 1. apply (hashkeys_loop_ok _ _ _ KH); [done|lia|rewrite zlen_app; lia|].
  intros out' Hl Et Es. apply HQ; [rewrite Hl, zlen_app; lia|exact Et|].
  intros Hle. rewrite Es by lia. f_equal. rewrite rfc_key_prefix, ztake_ge by lia. done.
Qed.

Lemma twp_on {A} (b : buffer) (m : prog buffer A) (Q : A * buffer -> kses -> Prop) s :
  twp m (fun a b' => Q (a, b') s) b -> twp (on b m) Q s.
Proof. unfold twp, on. destruct (m b) as [[a b']| |]; done. Qed.

(** The shared secret enters the hash as an mpint. *)
Lemma sha1_process_mp_ok hs l k (Q : md_state -> kses -> Prop) s :
  hs_of hs l -> 0 <= k -> zlen (encode_mpint k) <= 532 ->
  (forall hs', hs_of hs' (l ++ encode_mpint k) -> Q hs' s) -> twp (sha1_process_mp hs k) Q s.
Proof.
  intros Hhs Hk Hlen HQ. unfold sha1_process_mp. change (512 + 20) with 532. pose proof (zlen_nonneg (encode_mpint k)).
  destruct (repr_buf_new 532 s) as (b0 & E0 & Hb0); [by vm_compute|].
  destruct (repr_putmpint b0 [] 532 k Hk Hb0) as (b1 & E1 & Hb1); [lia|]. cbn [app] in Hb1.
  destruct (repr_rewind b1 _ _ _ Hb1) as (b2 & E2 & Hb2). rewrite app_nil_r in Hb2.
  assert (Hp : b_pos b1 = zlen (encode_mpint k)) by apply Hb1.
  assert (Hb2' : buf_repr b2 [] (encode_mpint k ++ []) (532 - zlen (encode_mpint k))) by (by rewrite app_nil_r).
  apply twp_bind. eapply twp_ok; [exact E0|]. apply twp_bind, twp_on. eapply twp_ok; [exact E1|]. cbn [snd].
  apply twp_bind, twp_on. eapply twp_ok; [exact E2|]. cbn [snd]. apply twp_bind, twp_on. rewrite Hp.
  eapply twp_ok.
  { unfold getptr_bytes. rewrite (bind_ok _ _ _ _ _ (repr_getptr b2 [] _ _ _ _ eq_refl Hb2')).
    exact (repr_load b2 [] _ _ _ _ eq_refl Hb2'). }
  cbn [fst]. by apply (twp_hash_process hs l).
Qed.

(** ** The keys of one direction *)

(** The algorithms of a direction come from the program's lists. *)
Definition dir_ok (d : key_context_directional St Zs) (c : dropbear_cipher) (m : dropbear_cipher_mode) (h : dropbear_hash) : Prop :=
  kd_algo_crypt d = Some c /\ kd_crypt_mode d = Some m /\ kd_algo_mac d = Some h /\
  known_cipher c m /\ known_hash h /\ zlen (kd_mackey d) = MAX_MAC_LEN.

(** [d'] is [d] with the keys of the RFC for the given letters. *)
Definition derived (KH sid : list Z) (ivX keyX macX : Z) (c : dropbear_cipher) (m : dropbear_cipher_mode) (h : dropbear_hash)
    (d d' : key_context_directional St Zs) : Prop :=
  exists desc hdesc st,
    dc_cipherdesc c = Some desc /\ dh_hashdesc h = Some hdesc /\
    mode_start m (find_named (cd_name desc) cipher_descriptor) (rfc_key KH sid ivX MAX_IV_LEN) (rfc_key KH sid keyX (dc_keysize c)) = Some st /\
    ztake (dh_keysize h) (rfc_key KH sid macX MAX_MAC_LEN) = rfc_key KH sid macX (dh_keysize h) /\
    d' = mkkd (kd_algo_crypt d) (kd_crypt_mode d) (kd_algo_mac d) (find_named (hd_name hdesc) hash_descriptor)
           (kd_algo_comp d) (kd_zstream d) (Some st) (rfc_key KH sid macX MAX_MAC_LEN) true.

Lemma known_cipher_ok c m : known_cipher c m ->
  exists desc, dc_cipherdesc c = Some desc /\ 0 <= find_named (cd_name desc) cipher_descriptor /\ 16 <= dc_keysize c <= MAX_KEY_LEN.
Proof.
  intros (a & Ha & Hd). apply list_elem_of_In in Ha. cbn in Ha.
  repeat destruct Ha as [<-|Ha]; [..|done]; cbn in Hd; injection Hd as <- <-; eexists; (split; [reflexivity|]); by vm_compute.
Qed.

Lemma known_hash_ok h : known_hash h ->
  exists desc, dh_hashdesc h = Some desc /\ 16 <= dh_keysize h <= MAX_MAC_LEN.
Proof.
  intros (a & Ha & Hd). apply list_elem_of_In in Ha. cbn in Ha.
  repeat destruct Ha as [<-|Ha]; [..|done]; cbn in Hd; injection Hd as <-; eexists; (split; [reflexivity|]); by vm_compute.
Qed.

Lemma rfc_key_short KH sid X len : 0 <= len <= 20 -> ztake len (rfc_key KH sid X 20) = rfc_key KH sid X len.
Proof.
  intros Hl. unfold rfc_key. destruct (fips_sha1_ok (KH ++ [X] ++ sid)) as [Hz _].
  rewrite ztake_ztake, !rfc_key_prefix by lia. done.
Qed.

Lemma zlen_rfc_key KH sid X len : 0 <= len -> zlen (rfc_key KH sid X len) = len.
Proof.
  intros Hl. unfold rfc_key. apply zlen_ztake. split; [done|].
  assert (Hn : forall n acc, zlen (rfc_key_blocks n KH acc) = zlen acc + 20 * Z.of_nat n).
  { induction n as [|n IH]; intros acc; cbn [rfc_key_blocks]; [lia|]. rewrite IH, zlen_app.
    destruct (fips_sha1_ok (KH ++ acc)) as [-> _]. lia. }
  rewrite Hn. destruct (fips_sha1_ok (KH ++ [X] ++ sid)) as [-> _]. lia.
Qed.

Lemma start_cipher_ok d c m h IV key desc (Q : key_context_directional St Zs -> kses -> Prop) s :
  dir_ok d c m h -> dc_cipherdesc c = Some desc -> zlen IV = MAX_IV_LEN -> zlen (ztake (dc_keysize c) key) = dc_keysize c ->
  (forall st, mode_start m (find_named (cd_name desc) cipher_descriptor) IV (ztake (dc_keysize c) key) = Some st ->
     Q (set_kd_cipher_state (Some st) d) s) ->
  twp (start_cipher d IV key) Q s.
Proof.
  intros (Hc & Hm & _ & Hk & _) Ed HIV Hkey HQ. unfold start_cipher. rewrite Hc, Hm.
  destruct (known_cipher_ok c m Hk) as (desc' & Ed' & Hidx & _). rewrite Ed in Ed'. injection Ed' as <-.
  apply twp_bind, twp_ret. rewrite Ed, (proj2 (Z.ltb_ge _ 0)) by done. apply twp_bind, twp_ret.
  destruct (mode_start_ok c m desc IV (ztake (dc_keysize c) key) Hk Ed HIV Hkey) as [st Est]. rewrite Est. by apply HQ.
Qed.

Lemma start_mac_ok d c m h hs KH X sid (Q : key_context_directional St Zs -> kses -> Prop) s :
  dir_ok d c m h -> x_session_id s = Some sid -> hs_of hs KH ->
  (forall hdesc, dh_hashdesc h = Some hdesc ->
     Q (set_kd_hash_index (find_named (hd_name hdesc) hash_descriptor) (set_kd_mackey (rfc_key KH sid X MAX_MAC_LEN) d)) s) ->
  twp (start_mac d hs X) Q s.
Proof.
  intros (_ & _ & Hh & _ & Hkh & Hmac) Hsid Hhs HQ. unfold start_mac. rewrite Hh.
  destruct (known_hash_ok h Hkh) as (hdesc & Eh & Hsize). unfold MAX_MAC_LEN in *.
  apply twp_bind, twp_ret. rewrite Eh. apply twp_bind. apply (hashkeys_ok _ _ _ KH X sid); try done; [lia|lia|].
  intros out' Hl _ Eout. rewrite Eout by lia. rewrite (zlen_0_inv (zdrop 20 (kd_mackey d))), app_nil_r by (rewrite zlen_zdrop; lia).
  apply twp_ret. by apply HQ.
Qed.

(** ** gen_new_keys *)

(** A session whose exchange has produced the shared secret [k] and the hash. *)
Record exchanged (s : kses) (nk : key_context St Zs) (k : Z) (sid : list Z)
    (cr : dropbear_cipher) (mr : dropbear_cipher_mode) (hr : dropbear_hash)
    (ct : dropbear_cipher) (mt : dropbear_cipher_mode) (ht : dropbear_hash) : Prop := {
  ex_newkeys : x_newkeys s = Some nk;
  ex_secret : x_dh_K s = Some k /\ 0 <= k /\ zlen (encode_mpint k) <= 532;
  ex_hash : zlen (x_hash s) = SHA1_HASH_SIZE;
  ex_session_id : x_session_id s = Some sid;
  ex_recv : dir_ok (kc_recv nk) cr mr hr;
  ex_trans : dir_ok (kc_trans nk) ct mt ht
}.

(** The letters of the IV, the key and the MAC key of what one side sends. *)
Definition letters (client_to_server : bool) : Z * Z * Z := if client_to_server then (65, 67, 69) else (66, 68, 70).

Definition derived_dir (KH sid : list Z) (client_to_server : bool) :=
  let '(ivX, keyX, macX) := letters client_to_server in derived KH sid ivX keyX macX.

Lemma twp_new_recv f nk (Q : unit -> kses -> Prop) s : x_newkeys s = Some nk ->
  Q tt (set_x_newkeys (Some (set_kc_recv (f (kc_recv nk)) nk)) s) -> twp (new_recv f) Q s.
Proof. intros E HQ. unfold new_recv, mod_newkeys, newkeys. twp_steps. rewrite E. exact HQ. Qed.

Lemma twp_new_trans f nk (Q : unit -> kses -> Prop) s : x_newkeys s = Some nk ->
  Q tt (set_x_newkeys (Some (set_kc_trans (f (kc_trans nk)) nk)) s) -> twp (new_trans f) Q s.
Proof. intros E HQ. unfold new_trans, mod_newkeys, newkeys. twp_steps. rewrite E. exact HQ. Qed.

Lemma twp_newkeys nk (Q : key_context St Zs -> kses -> Prop) s : x_newkeys s = Some nk -> Q nk s -> twp newkeys Q s.
Proof. intros E HQ. unfold newkeys. twp_steps. by rewrite E. Qed.

(** The keys given to install_keys are those of the RFC. *)
Lemma install_keys_ok s nk sid hs KH c2s cr mr hr ct mt ht (recv_IV recv_key trans_IV trans_key : list Z) :
  x_newkeys s = Some nk -> x_session_id s = Some sid -> hs_of hs KH ->
  dir_ok (kc_recv nk) cr mr hr -> dir_ok (kc_trans nk) ct mt ht ->
  let '(ivT, keyT, macT) := letters c2s in
  let '(ivR, keyR, macR) := letters (negb c2s) in
  recv_IV = rfc_key KH sid ivR MAX_IV_LEN -> ztake (dc_keysize cr) recv_key = rfc_key KH sid keyR (dc_keysize cr) ->
  trans_IV = rfc_key KH sid ivT MAX_IV_LEN -> ztake (dc_keysize ct) trans_key = rfc_key KH sid keyT (dc_keysize ct) ->
  twp (install_keys hs recv_IV recv_key trans_IV trans_key macT macR) (fun _ s' => exists dr dt,
    derived_dir KH sid (negb c2s) cr mr hr (kc_recv nk) dr /\
    derived_dir KH sid c2s ct mt ht (kc_trans nk) dt /\
    s' = set_x_newkeys (Some (mkkc dr dt (kc_algo_kex nk) (kc_algo_hostkey nk) (kc_allow_compress nk))) s) s.
Proof.
  intros Hnk Hsid Hhs Hr Ht. destruct (letters c2s) as [[ivT keyT] macT] eqn:ET.
  destruct (letters (negb c2s)) as [[ivR keyR] macR] eqn:ER. intros EIVr Ekr EIVt Ekt.
  destruct (known_cipher_ok ct mt) as (dst & Edt & _ & Hst); [apply Ht|].
  destruct (known_cipher_ok cr mr) as (dsr & Edr & _ & Hsr); [apply Hr|].
  unfold install_keys. apply twp_bind, (twp_newkeys nk); [exact Hnk|].
  apply twp_bind. apply (start_cipher_ok _ cr mr hr recv_IV recv_key dsr);
    [exact Hr|exact Edr|rewrite EIVr; by apply zlen_rfc_key|rewrite Ekr; apply zlen_rfc_key; lia|]. intros str Estr.
  apply twp_bind, (twp_new_recv _ nk); [exact Hnk|].
  apply twp_bind. apply (start_cipher_ok _ ct mt ht trans_IV trans_key dst);
    [exact Ht|exact Edt|rewrite EIVt; by apply zlen_rfc_key|rewrite Ekt; apply zlen_rfc_key; lia|]. intros stt Estt.
  apply twp_bind. eapply twp_new_trans; [reflexivity|]. apply twp_bind. eapply twp_newkeys; [reflexivity|].
  cbn [kc_recv kc_trans set_kc_recv set_kc_trans].
  apply twp_bind. apply (start_mac_ok _ ct mt ht hs KH macT sid); [exact Ht|exact Hsid|exact Hhs|]. intros hdt Ehdt.
  apply twp_bind. eapply twp_new_trans; [reflexivity|].
  apply twp_bind. apply (start_mac_ok _ cr mr hr hs KH macR sid); [exact Hr|exact Hsid|exact Hhs|]. intros hdr Ehdr.
  apply twp_bind. eapply twp_new_recv; [reflexivity|].
  apply twp_bind. eapply twp_new_trans; [reflexivity|]. eapply twp_new_recv; [reflexivity|].
  destruct (known_hash_ok hr) as (? & _ & Hhr); [apply Hr|]. destruct (known_hash_ok ht) as (? & _ & Hht); [apply Ht|].
  unfold MAX_MAC_LEN in *. unfold derived_dir. rewrite ET, ER. eexists _, _. split; [|split; [|reflexivity]].
  - exists dsr, hdr, str. rewrite EIVr, Ekr in Estr. split; [exact Edr|]. split; [exact Ehdr|]. split; [exact Estr|].
    split; [apply rfc_key_short; lia|reflexivity].
  - exists dst, hdt, stt. rewrite EIVt, Ekt in Estt. split; [exact Edt|]. split; [exact Ehdt|]. split; [exact Estt|].
    split; [apply rfc_key_short; lia|reflexivity].
Qed.

Lemma gen_new_keys_ok s nk k sid cr mr hr ct mt ht : exchanged s nk k sid cr mr hr ct mt ht ->
  let KH := encode_mpint k ++ x_hash s in
  let client := cf_isclient (x_cfg s) in
  twp gen_new_keys (fun _ s' => exists dr dt,
    derived_dir KH sid (negb client) cr mr hr (kc_recv nk) dr /\
    derived_dir KH sid client ct mt ht (kc_trans nk) dt /\
    s' = set_x_newkeys (Some (mkkc dr dt (kc_algo_kex nk) (kc_algo_hostkey nk) (kc_allow_compress nk)))
           (set_x_hash (replicate 20 0) (set_x_dh_K None s))) s.
Proof.
  intros [Hnk (Hk & Hk0 & Hkl) Hh Hsid Hr Ht] KH client.
  destruct (known_cipher_ok ct mt) as (dt & Edt & _ & Hst); [apply Ht|].
  destruct (known_cipher_ok cr mr) as (dr & Edr & _ & Hsr); [apply Hr|].
  unfold gen_new_keys. set (hs0 := Sha1.sha1_init fresh_buf). cbv zeta. twp_steps. rewrite Hk. twp_steps.
  apply (sha1_process_mp_ok hs0 [] k); [exact hs_init|exact Hk0|exact Hkl|]. intros hs1 Hhs1. twp_steps.
  cbn [x_hash set_x_dh_K]. unfold SHA1_HASH_SIZE in *. rewrite ztake_ge by lia.
  apply (twp_hash_process hs1 (encode_mpint k)); [exact Hhs1|]. intros hs Hhs. fold KH in Hhs.
  unfold cfg, newkeys. twp_steps. cbn [x_newkeys set_x_hash set_x_dh_K x_cfg]. rewrite Hnk. twp_steps.
  change (cf_isclient (x_cfg s)) with client.
  pose proof Hr as (Hcr & _). pose proof Ht as (Hct & _). rewrite Hcr, Hct. twp_steps.
  set (s1 := set_x_hash _ _). assert (Hsid1 : x_session_id s1 = Some sid) by exact Hsid.
  assert (Hiv : forall X (Q : list Z -> kses -> Prop),
    Q (rfc_key KH sid X MAX_IV_LEN) s1 -> twp (hashkeys (stack_array MAX_IV_LEN) 20 hs X) Q s1).
  { intros X Q HQ. apply (hashkeys_ok _ _ _ KH X sid); [exact Hsid1|exact Hhs|by vm_compute|by vm_compute|].
    intros out' _ _ Eout. rewrite Eout by lia. change (zdrop 20 (stack_array MAX_IV_LEN)) with (@nil Z). rewrite app_nil_r. exact HQ. }
  assert (Hkey : forall c X (Q : list Z -> kses -> Prop), 16 <= dc_keysize c <= MAX_KEY_LEN ->
    (forall key, ztake (dc_keysize c) key = rfc_key KH sid X (dc_keysize c) -> Q key s1) ->
    twp (hashkeys (stack_array MAX_KEY_LEN) (dc_keysize c) hs X) Q s1).
  { intros c X Q Hc HQ. change (zlen (stack_array MAX_KEY_LEN)) with MAX_KEY_LEN in *.
    apply (hashkeys_ok _ _ _ KH X sid); [exact Hsid1|exact Hhs|by vm_compute| |].
    - change (zlen (stack_array MAX_KEY_LEN)) with MAX_KEY_LEN. lia.
    - intros out' _ Eout _. by apply HQ. }
  pose proof (install_keys_ok s1 nk sid hs KH client cr mr hr ct mt ht) as Hinst.
  destruct client; cbn [letters negb] in Hinst; cbv beta iota;
    (apply twp_bind, Hiv; apply twp_bind, Hiv; apply twp_bind, Hkey; [assumption|]; intros k1 Ek1;
     apply twp_bind, Hkey; [assumption|]; intros k2 Ek2;
     apply Hinst; [exact Hnk|exact Hsid1|exact Hhs|exact Hr|exact Ht|reflexivity|assumption|reflexivity|assumption]).
Qed.
End Keys.

(** ** A concrete session *)

(** A cipher state that is what its start function was given. *)
#[export] Instance toy_start : CipherStart (Z * list Z * list Z) := { mode_start _ cipher IV key := Some (cipher, IV, key) }.
#[export] Program Instance toy_start_laws : CipherStartLaws (Z * list Z * list Z).
Next Obligation. by eexists. Qed.

Definition toy_config {K} (k : K) (client guess : bool) : config K :=
  mkcfg client sshkex sshhostkey sshciphers sshhashes true k guess.

(** A session as common_session_init leaves it. *)
Definition new_session {K St Zs R} (cfg : config K) (r : R) (remoteident : list Z) : kses K St Zs R :=
  let kd := mkkd (Some dropbear_nocipher) (Some dropbear_mode_none) (Some dropbear_nohash) 0 DROPBEAR_COMP_NONE None None
              (replicate (Z.to_nat MAX_MAC_LEN) 0) false in
  mkkses cfg (mkbuf (replicate (Z.to_nat TRANS_MAX_PAYLOAD_LEN) 0) 0 0 TRANS_MAX_PAYLOAD_LEN) None []
    (mkks false false false false false false false 0 0 0) (Some (mkkc kd kd (-1) (-1) false)) None None None
    (replicate (Z.to_nat SHA1_HASH_SIZE) 0) None None remoteident
    (if cf_enable_compress cfg then ssh_compress else ssh_nocompress) true (SSH_MSG_KEXINIT, 0) false 0 false 0 0 r 0
    None None DROPBEAR_KEX_NONE KEX_NOTHING.

(** The algorithms both sides take when each is a dropbear. *)
Definition toy_kd {St Zs} : key_context_directional St Zs :=
  mkkd (Some dropbear_aes128) (Some dropbear_mode_ctr) (Some dropbear_sha1_96) 0 DROPBEAR_COMP_ZLIB None None
    (replicate (Z.to_nat MAX_MAC_LEN) 0) false.
Definition toy_exchanged (client : bool) : kses unit (Z * list Z * list Z) unit unit :=
  set_x_newkeys (Some (mkkc toy_kd toy_kd 1 1 false)) (set_x_dh_K (Some 77)
    (set_x_session_id (Some (replicate 20 5)) (set_x_hash (replicate 20 5) (new_session (toy_config tt client false) tt LOCAL_IDENT)))).

Lemma toy_dir_ok {St Zs} : dir_ok (toy_kd (St := St) (Zs := Zs)) dropbear_aes128 dropbear_mode_ctr dropbear_sha1_96.
Proof.
  unfold dir_ok. split_and!; try reflexivity.
  - eexists. split; [apply list_elem_of_In; left; reflexivity|reflexivity].
  - eexists. split; [apply list_elem_of_In; left; reflexivity|reflexivity].
Qed.

Lemma toy_exchanged_ok client :
  exchanged (toy_exchanged client) (mkkc toy_kd toy_kd 1 1 false) 77 (replicate 20 5)
    dropbear_aes128 dropbear_mode_ctr dropbear_sha1_96 dropbear_aes128 dropbear_mode_ctr dropbear_sha1_96.
Proof.
  split; try reflexivity; try apply toy_dir_ok. split; [reflexivity|]. split; by vm_compute.
Qed.

(** ** Properties *)

(** C12: gen_new_keys succeeds on either side once the exchange has produced
    the shared secret, and gives each direction the IV, the encryption key and
    the MAC key of RFC 4253 section 7.2 over the secret, the exchange hash and
    the session identifier: letters A, C, E for what the client sends and B, D,
    F for what the server sends.  It starts the negotiated ciphers with them,
    marks both directions valid, and forgets the secret and the hash; nothing
    else changes, and no array is written out of bounds. *)
Theorem gen_new_keys_rfc4253 {K St Zs R : Type} `{CipherStartLaws St} (s : kses K St Zs R) (nk : key_context St Zs)
    (k : Z) (sid : list Z) cr mr hr ct mt ht :
  exchanged s nk k sid cr mr hr ct mt ht ->
  exists s' dr dt, gen_new_keys s = Ok (tt, s') /\
    derived_dir (encode_mpint k ++ x_hash s) sid (negb (cf_isclient (x_cfg s))) cr mr hr (kc_recv nk) dr /\
    derived_dir (encode_mpint k ++ x_hash s) sid (cf_isclient (x_cfg s)) ct mt ht (kc_trans nk) dt /\
    s' = set_x_newkeys (Some (mkkc dr dt (kc_algo_kex nk) (kc_algo_hostkey nk) (kc_allow_compress nk)))
           (set_x_hash (replicate 20 0) (set_x_dh_K None s)).
Proof.
  intros Hex. destruct (twp_ex _ _ _ (gen_new_keys_ok s nk k sid cr mr hr ct mt ht Hex)) as ([] & s' & E & dr & dt & Hr & Ht & Es).
  by exists s', dr, dt.
Qed.

Lemma gen_new_keys_rfc4253_witness :
  exists s' dr dt, gen_new_keys (toy_exchanged true) = Ok (tt, s') /\
    derived_dir (encode_mpint 77 ++ replicate 20 5) (replicate 20 5) false
      dropbear_aes128 dropbear_mode_ctr dropbear_sha1_96 toy_kd dr /\
    derived_dir (encode_mpint 77 ++ replicate 20 5) (replicate 20 5) true
      dropbear_aes128 dropbear_mode_ctr dropbear_sha1_96 toy_kd dt /\
    s' = set_x_newkeys (Some (mkkc dr dt 1 1 false)) (set_x_hash (replicate 20 0) (set_x_dh_K None (toy_exchanged true))).
Proof.
  exact (gen_new_keys_rfc4253 (toy_exchanged true) (mkkc toy_kd toy_kd 1 1 false) 77 (replicate 20 5) _ _ _ _ _ _ (toy_exchanged_ok true)).
Defined.

(** Two ends of one direction: the same algorithms, cipher state and MAC key. *)
Definition same_keys {St Zs} (d e : key_context_directional St Zs) : Prop :=
  kd_algo_crypt d = kd_algo_crypt e /\ kd_crypt_mode d = kd_crypt_mode e /\ kd_algo_mac d = kd_algo_mac e /\
  kd_hash_index d = kd_hash_index e /\ kd_cipher_state d = kd_cipher_state e /\ kd_cipher_state d <> None /\
  kd_mackey d = kd_mackey e /\ kd_valid d = true /\ kd_valid e = true.

Lemma derived_same {St Zs} `{CipherStart St} KH sid c2s c m h (d e d' e' : key_context_directional St Zs) :
  dir_ok d c m h -> dir_ok e c m h -> derived_dir KH sid c2s c m h d d' -> derived_dir KH sid c2s c m h e e' -> same_keys d' e'.
Proof.
  unfold derived_dir. destruct (letters c2s) as [[iv key] mac].
  intros (Hc & Hm & Hh & _) (Hc' & Hm' & Hh' & _) (desc & hdesc & st & Ed & Eh & Est & _ & ->) (desc' & hdesc' & st' & Ed' & Eh' & Est' & _ & ->).
  unfold same_keys. cbn. simplify_eq. rewrite Hc, Hc', Hm, Hm', Hh, Hh'. split_and!; try done; congruence.
Qed.

(** C11: when the client and the server hold the same secret, hash and session
    identifier and have agreed on the algorithms of each direction, gen_new_keys
    leaves what the client sends with and what the server receives with equal,
    and the other way round: algorithms, cipher state, MAC key and hash. *)
Theorem both_sides_derive_the_same_keys {K St Zs R : Type} `{CipherStartLaws St} (c s : kses K St Zs R)
    (nkc nks : key_context St Zs) (k : Z) (sid : list Z) (cc : dropbear_cipher) mc hc cs ms hs :
  cf_isclient (x_cfg c) = true -> cf_isclient (x_cfg s) = false -> x_hash c = x_hash s ->
  exchanged c nkc k sid cs ms hs cc mc hc -> exchanged s nks k sid cc mc hc cs ms hs ->
  exists c' s' nkc' nks', gen_new_keys c = Ok (tt, c') /\ gen_new_keys s = Ok (tt, s') /\
    x_newkeys c' = Some nkc' /\ x_newkeys s' = Some nks' /\
    same_keys (kc_trans nkc') (kc_recv nks') /\ same_keys (kc_recv nkc') (kc_trans nks').
Proof.
  intros Hc Hs Eh Hxc Hxs.
  destruct (twp_ex _ _ _ (gen_new_keys_ok c nkc k sid _ _ _ _ _ _ Hxc)) as ([] & c' & E1 & dr & dt & Hr & Ht & Ec).
  destruct (twp_ex _ _ _ (gen_new_keys_ok s nks k sid _ _ _ _ _ _ Hxs)) as ([] & s' & E2 & er & et & Hr' & Ht' & Es).
  rewrite Hc, Eh in Hr, Ht. rewrite Hs in Hr', Ht'. cbn [negb] in *.
  exists c', s', (mkkc dr dt (kc_algo_kex nkc) (kc_algo_hostkey nkc) (kc_allow_compress nkc)),
    (mkkc er et (kc_algo_kex nks) (kc_algo_hostkey nks) (kc_allow_compress nks)).
  split; [exact E1|]. split; [exact E2|]. split; [by rewrite Ec|]. split; [by rewrite Es|]. split; cbn [kc_trans kc_recv].
  - exact (derived_same _ _ _ _ _ _ _ _ _ _ (ex_trans _ _ _ _ _ _ _ _ _ _ Hxc) (ex_recv _ _ _ _ _ _ _ _ _ _ Hxs) Ht Hr').
  - exact (derived_same _ _ _ _ _ _ _ _ _ _ (ex_recv _ _ _ _ _ _ _ _ _ _ Hxc) (ex_trans _ _ _ _ _ _ _ _ _ _ Hxs) Hr Ht').
Qed.

Lemma both_sides_derive_the_same_keys_witness :
  exists c' s' nkc' nks', gen_new_keys (toy_exchanged true) = Ok (tt, c') /\ gen_new_keys (toy_exchanged false) = Ok (tt, s') /\
    x_newkeys c' = Some nkc' /\ x_newkeys s' = Some nks' /\
    same_keys (kc_trans nkc') (kc_recv nks') /\ same_keys (kc_recv nkc') (kc_trans nks').
Proof.
  exact (both_sides_derive_the_same_keys (toy_exchanged true) (toy_exchanged false) _ _ 77 (replicate 20 5) _ _ _ _ _ _
    eq_refl eq_refl eq_refl (toy_exchanged_ok true) (toy_exchanged_ok false)).
Defined.
