(* ===== verification/KexHash.v ===== *)
(** The Diffie-Hellman exchange: gen_random_mpint of random.c, gen_kexdh_vals
    and kexdh_comb_key.  Both sides of an exchange compute the same secret and
    the same exchange hash. *)

From S2P Require Import Prelude Dbutil Buffer Mpint Ssh Algo Queue Cipher Hmac Packet MdHash Sha1 Hashes Kex KexKeys.
From Stdlib Require Import Znumtheory.

Local Open Scope Z_scope.
Local Open Scope prog_scope.

(** ** What the interfaces promise *)

(** The moduli libtommath exponentiates by, all but those of two digits with
    the lower digit zero. *)
Definition sound_modulus (p : Z) : Prop := p mod 2 ^ 28 <> 0 \/ 2 ^ 56 <= p.

Lemma sound_odd p : Z.odd p = true -> sound_modulus p.
Proof.
  intros Hodd. left. intros E. apply Z.mod_divide in E as [k ->]; [|done]. rewrite Z.odd_mul, andb_comm in Hodd. by change (Z.odd (2 ^ 28)) with false in Hodd.
Qed.

Class ExptModLaws `{ExptMod} := {
  mp_exptmod_ok g x p : 0 <= g -> 0 <= x -> 1 < p -> sound_modulus p -> mp_exptmod g x p = Some (g ^ x mod p)
}.

Class RandomMpLaws (R : Type) `{RandomMp R} := {
  gen_random_mpint_range max r : 0 < max -> 0 <= fst (gen_random_mpint max r) < max
}.

(** The blob of a public key, and that it can be written for a key that has a
    part of the type. *)
Class SignKeyLaws (K R : Type) `{SignKey K R} := {
  key_for : K -> Z -> Prop;
  pub_blob : K -> Z -> list Z;
  put_pub_key_ok k type b pre room : key_for k type -> buf_repr b pre [] room -> zlen (pub_blob k type) <= room ->
    exists b', buf_put_pub_key k type b = Ok (tt, b') /\ buf_repr b' (pre ++ pub_blob k type) [] (room - zlen (pub_blob k type))
}.

(** Square and multiply, an [mp_exptmod] that can be run. *)
Fixpoint pow_mod (g : Z) (x : positive) (p : Z) : Z :=
  match x with
  | xH => g mod p
  | xO x => let r := pow_mod g x p in (r * r) mod p
  | xI x => let r := pow_mod g x p in (r * r * g) mod p
  end.

Lemma pow_mod_ok g x p : p <> 0 -> pow_mod g x p = g ^ Zpos x mod p.
Proof.
  intros Hp. induction x as [x IH|x IH|]; cbn [pow_mod].
  - rewrite IH. rewrite (Pos2Z.inj_xI x), Z.pow_add_r, Z.pow_1_r, Z.pow_twice_r by lia.
    set (a := g ^ Z.pos x). rewrite <-Z.mul_assoc, Z.mul_mod_idemp_l, (Z.mul_comm a), <-Z.mul_assoc, Z.mul_mod_idemp_l by done.
    f_equal. ring.
  - rewrite IH. rewrite (Pos2Z.inj_xO x), Z.pow_twice_r by lia. by rewrite <-Z.mul_mod by done.
  - by rewrite Z.pow_1_r.
Qed.

Definition exptmod_by_squaring : ExptMod :=
  {| mp_exptmod g x p :=
       if p <? 2 then None
       else match x with Z0 => Some (1 mod p) | Zpos x => Some (pow_mod g x p) | Zneg _ => None end |}.

Lemma exptmod_by_squaring_laws : @ExptModLaws exptmod_by_squaring.
Proof.
  split. intros g x p Hg Hx Hp. cbn. rewrite (proj2 (Z.ltb_ge p 2)) by lia. destruct x as [|x|x]; [done| |lia].
  by rewrite pow_mod_ok by lia.
Qed.

(** ** The groups *)

Definition dh_group (algo_kex : Z) : Prop := algo_kex = DROPBEAR_KEX_DH_GROUP1 \/ algo_kex = DROPBEAR_KEX_DH_GROUP14.

Lemma load_dh_p_ok a : dh_group a -> 2 < load_dh_p a < 2 ^ 2048 /\ Z.odd (load_dh_p a) = true.
Proof. intros [-> | ->]; split; by vm_compute. Qed.

Lemma dh_sound a : dh_group a -> sound_modulus (load_dh_p a).
Proof. intros Ha. by apply sound_odd, load_dh_p_ok. Qed.

Lemma dh_pub_range a x : dh_group a -> 0 <= x -> 0 < DH_G_VAL ^ x mod load_dh_p a < load_dh_p a.
Proof.
  intros Ha Hx. destruct (load_dh_p_ok a Ha) as [Hp Hodd]. set (p := load_dh_p a) in *.
  pose proof (Z.mod_pos_bound (DH_G_VAL ^ x) p ltac:(lia)) as Hb.
  destruct (Z.eq_dec (DH_G_VAL ^ x mod p) 0) as [E|E]; [|lia]. exfalso.
  assert (Hg : Z.gcd p 2 = 1) by (rewrite Z.gcd_comm, <-Z.gcd_mod, Z.gcd_comm, Zmod_odd, Hodd by done; done).
  assert (Hdiv : (p | DH_G_VAL ^ x)) by (apply Z.mod_divide; [lia|done]). clear E Hb. revert Hdiv.
  apply (natlike_ind (fun x => (p | DH_G_VAL ^ x) -> False)); [| |done].
  - intros H1. apply Z.divide_1_r_nonneg in H1; lia.
  - intros y Hy IH Hdiv. rewrite Z.pow_succ_r in Hdiv by done. apply IH. by apply Z.gauss in Hdiv.
Qed.

Lemma encode_mpint_len v : 0 <= v < 2 ^ 2048 -> zlen (encode_mpint v) <= 261 /\ bytes (encode_mpint v).
Proof.
  intros Hv. unfold encode_mpint. rewrite zlen_app, zlen_store32h, mpint_len, mp_count_bits_ok by lia. split.
  - destruct (Z.eqb_spec v 0); [by vm_compute|]. assert (Z.log2 v < 2048) by (apply Z.log2_lt_pow2; lia).
    Z.div_mod_to_equations. lia.
  - apply Forall_app. split; [apply store32h_bytes|]. apply mpint_bytes_ok. lia.
Qed.

(** ** kexdh_comb_key *)

(** What follows the identification strings and the KEXINIT payloads in the
    exchange hash. *)
Definition hash_tail (blob : list Z) (e f K : Z) : list Z := blob ++ encode_mpint e ++ encode_mpint f ++ encode_mpint K.

Section Comb.
Context {K St Zs R : Type} `{SignKeyLaws K R} `{CipherStart St} `{ExptModLaws}.
Abbreviation kses := (kses K St Zs R).
Implicit Types (s : kses) (pre : list Z).

Lemma twp_on_kexhashbuf {A} (m : prog buffer A) (Q : A -> kses -> Prop) s b :
  x_kexhashbuf s = Some b -> twp m (fun a b' => Q a (set_x_kexhashbuf (Some b') s)) b -> twp (on_kexhashbuf m) Q s.
Proof. unfold twp, on_kexhashbuf, on_ref. intros ->. destruct (m b) as [[a b']| |]; done. Qed.

Lemma twp_hash_put {A} (m : prog buffer A) (Q : A -> kses -> Prop) s b a pre' room' :
  x_kexhashbuf s = Some b -> (exists b', m b = Ok (a, b') /\ buf_repr b' pre' [] room') ->
  (forall b', buf_repr b' pre' [] room' -> Q a (set_x_kexhashbuf (Some b') s)) -> twp (on_kexhashbuf m) Q s.
Proof. intros E (b' & Em & Hb') HQ. eapply twp_on_kexhashbuf; [exact E|]. eapply twp_ok; [exact Em|by apply HQ]. Qed.

Lemma kexdh_comb_key_ok s nk b pre room us priv them hostkey :
  x_newkeys s = Some nk -> dh_group (kc_algo_kex nk) -> x_kexhashbuf s = Some b -> buf_repr b pre [] room ->
  0 <= us < load_dh_p (kc_algo_kex nk) -> 0 < them < load_dh_p (kc_algo_kex nk) -> 0 <= priv ->
  key_for hostkey (kc_algo_hostkey nk) -> zlen (pub_blob hostkey (kc_algo_hostkey nk)) + 783 <= room ->
  let secret := them ^ priv mod load_dh_p (kc_algo_kex nk) in
  let '(e, f) := if cf_isclient (x_cfg s) then (us, them) else (them, us) in
  let hash := Sha1.fips_sha1 (pre ++ hash_tail (pub_blob hostkey (kc_algo_hostkey nk)) e f secret) in
  kexdh_comb_key us priv them hostkey s =
    Ok (tt, set_x_session_id (Some (default hash (x_session_id s)))
              (set_x_kexhashbuf None (set_x_hash hash (set_x_dh_K (Some secret) s)))).
Proof.
  intros Hnk Hg Hb Hrepr Hus Hthem Hpriv Hkey Hroom secret. destruct (load_dh_p_ok _ Hg) as [Hp _].
  set (p := load_dh_p (kc_algo_kex nk)) in *. set (blob := pub_blob hostkey (kc_algo_hostkey nk)) in *.
  assert (Hsec : 0 <= secret < p) by (apply Z.mod_pos_bound; lia).
  destruct (if cf_isclient (x_cfg s) then (us, them) else (them, us)) as [e f] eqn:Eef. cbv zeta.
  assert (Hef : 0 <= e < p /\ 0 <= f < p) by (destruct (cf_isclient (x_cfg s)); injection Eef as <- <-; lia).
  destruct Hef as [He Hf]. set (hash := Sha1.fips_sha1 _).
  destruct (encode_mpint_len e) as [Le _]; [lia|]. destruct (encode_mpint_len f) as [Lf _]; [lia|].
  destruct (encode_mpint_len secret) as [Lk _]; [lia|].
  pose proof (zlen_nonneg (encode_mpint e)). pose proof (zlen_nonneg (encode_mpint f)).
  pose proof (zlen_nonneg (encode_mpint secret)). pose proof (zlen_nonneg blob).
  enough (Ht : twp (kexdh_comb_key us priv them hostkey) (fun a s' => s' = set_x_session_id (Some (default hash (x_session_id s)))
              (set_x_kexhashbuf None (set_x_hash hash (set_x_dh_K (Some secret) s)))) s).
  { destruct (twp_ex _ _ _ Ht) as ([] & s' & E & ->). exact E. }
  unfold kexdh_comb_key. apply twp_bind, (twp_newkeys nk); [exact Hnk|]. fold p. cbv zeta.
  rewrite (proj2 (Z.ltb_lt them p)), Z.gtb_ltb, (proj2 (Z.ltb_lt 0 them)) by lia. cbn [negb orb].
  rewrite mp_exptmod_ok by (lia || by apply dh_sound). fold secret. unfold cfg. twp_steps. cbn [x_cfg set_x_dh_K]. rewrite Eef.
  apply twp_bind. eapply twp_hash_put; [exact Hb|apply put_pub_key_ok; [exact Hkey|exact Hrepr|fold blob; lia]|]. fold blob. intros b1 Hb1.
  apply twp_bind. eapply twp_hash_put; [reflexivity|apply (repr_putmpint b1 (pre ++ blob) (room - zlen blob) e); [lia|exact Hb1|lia]|]. intros b2 Hb2.
  apply twp_bind. eapply twp_hash_put; [reflexivity|apply (repr_putmpint b2 ((pre ++ blob) ++ encode_mpint e) (room - zlen blob - zlen (encode_mpint e)) f); [lia|exact Hb2|lia]|]. intros b3 Hb3.
  apply twp_bind. eapply twp_hash_put; [reflexivity|apply (repr_putmpint b3 (((pre ++ blob) ++ encode_mpint e) ++ encode_mpint f) (room - zlen blob - zlen (encode_mpint e) - zlen (encode_mpint f)) secret); [lia|exact Hb3|lia]|]. intros b4 Hb4.
  set (input := (((pre ++ blob) ++ encode_mpint e) ++ encode_mpint f) ++ encode_mpint secret) in *.
  assert (Ehash : hash = Sha1.fips_sha1 input) by (unfold hash, hash_tail, input; by rewrite <-!app_assoc).
  destruct (repr_rewind _ _ _ _ Hb4) as (b5 & E5 & Hb5). rewrite app_nil_r in Hb5.
  apply twp_bind. eapply twp_on_kexhashbuf; [reflexivity|]. eapply twp_ok; [exact E5|].
  assert (Hlen5 : b_len b5 = zlen input) by (rewrite (br_len _ _ _ _ Hb5); done).
  assert (Hb5' : exists r, buf_repr b5 [] (input ++ []) r) by (eexists; rewrite app_nil_r; exact Hb5).
  destruct Hb5' as [r5 Hb5'].
  apply twp_bind. eapply twp_on_kexhashbuf; [reflexivity|]. twp_steps. unfold id. rewrite Hlen5.
  eapply twp_ok; [unfold getptr_bytes; rewrite (bind_ok _ _ _ _ _ (repr_getptr b5 [] _ _ _ _ eq_refl Hb5')); exact (repr_load b5 [] _ _ _ _ eq_refl Hb5')|].
  apply twp_bind. apply (twp_hash_process _ []); [exact hs_init|]. intros hs Hhs.
  apply twp_bind. apply (twp_hash_done hs input); [exact Hhs|]. rewrite <-Ehash. twp_steps.
  assert (Eburn : exists b6, buf_burn b5 = Ok (tt, b6)).
  { unfold buf_burn, m_burn, bind. destruct (br_data _ _ _ _ Hb5) as (rest & Hd & _). pose proof (br_size _ _ _ _ Hb5) as Hs5.
    destruct (zlen (b_data b5) =? 0); [by eexists|]. rewrite (proj2 (Z.leb_le (b_size b5) _)); [by eexists|].
    destruct (buf_repr_wf _ _ _ _ Hb5) as (_ & _ & _ & Hz & _). exact Hz. }
  destruct Eburn as (b6 & E6). eapply twp_on_kexhashbuf; [reflexivity|]. eapply twp_ok; [exact E6|]. twp_steps.
  cbn [x_session_id set_x_kexhashbuf set_x_hash set_x_dh_K]. destruct (x_session_id s) as [sid|] eqn:Esid.
  - apply twp_ret. destruct s; cbn in *. by rewrite Esid.
  - apply twp_modify. reflexivity.
Qed.
End Comb.

(** ** Random numbers below a bound (random.c) *)

Section RandomMpint.
Context {R : Type} `{RandomLaws R}.

Definition masks : list Z := [0xff; 0x01; 0x03; 0x07; 0x0f; 0x1f; 0x3f; 0x7f].

(** One pass of the loop: the number drawn. *)
Definition draw (size_bits len : Z) (r : R) : Z * R :=
  let '(randbuf, r) := genrandom len r in
  let randbuf := match randbuf with b :: rest => Z.land b (znth masks (size_bits mod 8)) :: rest | [] => [] end in
  (mp_read_unsigned_bin randbuf, r).

(** [do ... while (mp_cmp(rand, max) != MP_LT)], [n] passes at most. *)
Fixpoint draw_loop (n : nat) (size_bits len max : Z) (r : R) : option (Z * R) :=
  match n with
  | O => None
  | S n =>
      let '(rand, r) := draw size_bits len r in
      if rand <? max then Some (rand, r) else draw_loop n size_bits len max r
  end.

Definition random_mpint_len (size_bits : Z) : Z := if negb (size_bits mod 8 =? 0) then size_bits / 8 + 1 else size_bits / 8.

Definition gen_random_mpint_c (n : nat) (max : Z) (r : R) : option (Z * R) :=
  let size_bits := mp_count_bits max in
  draw_loop n size_bits (random_mpint_len size_bits) max r.

(** The generator after [i] passes. *)
Fixpoint passes (i : nat) (size_bits len : Z) (r : R) : R :=
  match i with O => r | S i => passes i size_bits len (snd (draw size_bits len r)) end.

Lemma draw_loop_ok n size_bits len max r :
  match draw_loop n size_bits len max r with
  | Some (rand, r') => exists i, (i < n)%nat /\ draw size_bits len (passes i size_bits len r) = (rand, r') /\ rand < max /\
      (forall j, (j < i)%nat -> max <= fst (draw size_bits len (passes j size_bits len r)))
  | None => forall j, (j < n)%nat -> max <= fst (draw size_bits len (passes j size_bits len r))
  end.
Proof.
  revert r. induction n as [|n IH]; intros r; cbn [draw_loop]; [lia|].
  destruct (draw size_bits len r) as [rand r1] eqn:Ed. destruct (Z.ltb_spec rand max) as [Hlt|Hge].
  - exists 0%nat. cbn [passes]. split_and!; [lia|done|done|lia].
  - specialize (IH r1). assert (Hp : forall j, passes (S j) size_bits len r = passes j size_bits len r1) by (intros j; cbn [passes]; by rewrite Ed).
    destruct (draw_loop n size_bits len max r1) as [[rand' r']|].
    + destruct IH as (i & Hi & Edi & Hlt & Hb). exists (S i). rewrite Hp. split_and!; [lia|done|done|].
      intros [|j] Hj; [by cbn [passes]; rewrite Ed|]. rewrite Hp. apply Hb. lia.
    + intros [|j] Hj; [by cbn [passes]; rewrite Ed|]. rewrite Hp. apply IH. lia.
Qed.

Lemma draw_nonneg size_bits len r : 0 <= len -> 0 <= fst (draw size_bits len r).
Proof.
  intros Hl. unfold draw. destruct (genrandom_ok len r Hl) as [_ Hb]. destruct (genrandom len r) as [bs r']. cbn in Hb |- *.
  assert (Hnn : forall l a, Forall (fun x => 0 <= x) l -> 0 <= a -> 0 <= fold_left (fun a x => Z.lor (Z.shiftl a 8) x) l a).
  { induction l as [|x l IH]; intros a Hx Ha; [done|]. apply Forall_cons_1 in Hx as [Hx Hxs]. cbn. apply IH; [done|].
    apply Z.lor_nonneg. split; [by apply Z.shiftl_nonneg|done]. }
  apply Hnn; [|done]. destruct bs as [|b rest]; [done|]. apply Forall_cons_1 in Hb as [Hb Hrest]. constructor.
  - apply Z.land_nonneg. left. unfold is_byte in Hb. lia.
  - eapply Forall_impl; [exact Hrest|]. unfold is_byte. lia.
Qed.

Lemma random_mpint_len_nonneg max : 0 <= max -> 0 <= random_mpint_len (mp_count_bits max).
Proof.
  intros Hm. unfold random_mpint_len. rewrite mp_count_bits_ok by done.
  destruct (max =? 0); [by vm_compute|]. pose proof (Z.log2_nonneg max). destruct (negb _); Z.div_mod_to_equations; lia.
Qed.
End RandomMpint.

(** ** Properties *)

(** Gen_random_mpint returns the first number the generator gives that is
    below the bound, once one of its first [n] draws is; the number is not
    negative and below the bound. *)
Theorem gen_random_mpint_first {R : Type} `{RandomLaws R} (n i : nat) (max : Z) (r : R) :
  let size_bits := mp_count_bits max in
  let len := random_mpint_len size_bits in
  0 < max -> (i < n)%nat -> fst (draw size_bits len (passes i size_bits len r)) < max ->
  (forall j, (j < i)%nat -> max <= fst (draw size_bits len (passes j size_bits len r))) ->
  gen_random_mpint_c n max r = Some (draw size_bits len (passes i size_bits len r)) /\
  0 <= fst (draw size_bits len (passes i size_bits len r)) < max.
Proof.
  intros size_bits len Hmax Hi Hlt Hb.
  split; [|split; [apply draw_nonneg, random_mpint_len_nonneg; lia|done]].
  unfold gen_random_mpint_c. fold size_bits len. pose proof (draw_loop_ok n size_bits len max r) as Hl.
  destruct (draw_loop n size_bits len max r) as [[rand r']|].
  - destruct Hl as (k & Hk & Ek & Hk' & Hkb). f_equal. rewrite <-Ek.
    destruct (lt_eq_lt_dec k i) as [[Hki| ->]|Hik]; [|done|].
    + specialize (Hb k Hki). rewrite Ek in Hb. cbn in Hb. lia.
    + specialize (Hkb i Hik). lia.
  - specialize (Hl i Hi). lia.
Qed.

(** A generator that gives a byte repeatedly, a different one in each call. *)
#[export] Instance toy_random : Random Z := { genrandom n r := (replicate (Z.to_nat n) (r mod 256), r + 1) }.
#[export] Program Instance toy_random_laws : RandomLaws Z.
Next Obligation.
  intros n r Hn. cbn. split; [unfold zlen; rewrite length_replicate; lia|]. apply Forall_replicate, Z.mod_pos_bound. lia.
Qed.

Lemma gen_random_mpint_first_witness :
  gen_random_mpint_c 9 5000 (249 : Z) = Some (draw 13 2 (passes 7 13 2 (249 : Z))) /\ 0 <= fst (draw 13 2 (passes 7 13 2 (249 : Z))) < 5000.
Proof.
  apply (gen_random_mpint_first 9 7 5000 (249 : Z)); [done|lia|by vm_compute|].
  intros j Hj. do 7 (destruct j as [|j]; [by vm_compute|]). lia.
Defined.

(** The private value may be zero, which the comments of gen_random_mpint
    and of gen_kexdh_vals exclude: the loop compares with the bound only. *)
Theorem gen_random_mpint_zero : gen_random_mpint_c 1 5000 (0 : Z) = Some (0, 1).
Proof. vm_compute. reflexivity. Qed.

(** Diffie-Hellman.  From hash buffers with the same contents, private
    values [x] and [y] and the public values 2^x and 2^y of the negotiated
    group, kexdh_comb_key gives the client and the server the same secret,
    2^(xy), and the same exchange hash, that of RFC 4253 section 8: the
    SHA-1 hash of the buffer, the host key's blob, e, f and the secret.  A side
    without a session identifier takes the hash as one, and the hash buffer is
    freed. *)
Theorem exchange_hash_agrees {K St Zs R : Type} `{SignKeyLaws K R} `{ExptModLaws}
    (c s : kses K St Zs R) (nkc nks : key_context St Zs) (bc bs : buffer) (pre : list Z) (roomc rooms : Z) (hostkey : K) (x y a t : Z) :
  cf_isclient (x_cfg c) = true -> cf_isclient (x_cfg s) = false -> dh_group a -> 0 <= x -> 0 <= y ->
  x_newkeys c = Some nkc -> x_newkeys s = Some nks -> kc_algo_kex nkc = a -> kc_algo_kex nks = a ->
  kc_algo_hostkey nkc = t -> kc_algo_hostkey nks = t ->
  x_kexhashbuf c = Some bc -> x_kexhashbuf s = Some bs -> buf_repr bc pre [] roomc -> buf_repr bs pre [] rooms ->
  key_for hostkey t -> zlen (pub_blob hostkey t) + 783 <= roomc -> zlen (pub_blob hostkey t) + 783 <= rooms ->
  let p := load_dh_p a in
  let e := DH_G_VAL ^ x mod p in
  let f := DH_G_VAL ^ y mod p in
  let secret := DH_G_VAL ^ (x * y) mod p in
  let hash := Sha1.fips_sha1 (pre ++ hash_tail (pub_blob hostkey t) e f secret) in
  kexdh_comb_key e x f hostkey c =
    Ok (tt, set_x_session_id (Some (default hash (x_session_id c)))
              (set_x_kexhashbuf None (set_x_hash hash (set_x_dh_K (Some secret) c)))) /\
  kexdh_comb_key f y e hostkey s =
    Ok (tt, set_x_session_id (Some (default hash (x_session_id s)))
              (set_x_kexhashbuf None (set_x_hash hash (set_x_dh_K (Some secret) s)))).
Proof.
  intros Hc Hs Ha Hx Hy Hnc Hns Eac Eas Etc Ets Hbc Hbs Hrc Hrs Hkey Hlc Hls p e f secret hash.
  pose proof (dh_pub_range a x Ha Hx) as He. pose proof (dh_pub_range a y Ha Hy) as Hf.
  destruct (load_dh_p_ok a Ha) as [Hp _]. fold p in He, Hf, Hp. fold e in He. fold f in Hf.
  assert (Exy : f ^ x mod p = secret) by (unfold f, secret; by rewrite Z.mod_pow_l, <-Z.pow_mul_r, Z.mul_comm by done).
  assert (Eyx : e ^ y mod p = secret) by (unfold e, secret; by rewrite Z.mod_pow_l, <-Z.pow_mul_r by done).
  subst a t. split.
  - pose proof (kexdh_comb_key_ok c nkc bc pre roomc e x f hostkey Hnc Ha Hbc Hrc) as Hk. fold p in Hk. rewrite Hc, Exy in Hk.
    apply Hk; try done; lia.
  - pose proof (kexdh_comb_key_ok s nks bs pre rooms f y e hostkey Hns) as Hk. rewrite Eas, Ets in Hk. fold p in Hk. rewrite Hs, Eyx in Hk.
    apply Hk; try done; lia.
Qed.

(** A signing key whose blob is one byte and whose signature is the message. *)
#[export] Instance toy_signkey {R} : SignKey unit R := {
  buf_put_pub_key _ _ := buf_putstring [7] 1;
  buf_get_pub_key _ := x <- buf_getstring ;; ret (if bool_decide (x = ([7; 0], 1)) then Some tt else None);
  buf_put_sign _ _ hash r := buf_putstring hash (zlen hash) ;;; ret r;
  buf_verify _ hash := x <- buf_getstring ;; ret (bool_decide (x = (hash ++ [0], zlen hash)));
  checkhostkey blob := true }.

#[export] Program Instance toy_signkey_laws {R} : SignKeyLaws unit R := { key_for _ _ := True; pub_blob _ _ := store32h 1 ++ [7] }.
Next Obligation.
  intros R k type b pre room _ Hb Hroom. assert (H5 : 5 <= room) by exact Hroom. cbn [buf_put_pub_key toy_signkey].
  assert (H7 : bytes [7]) by (apply (bool_decide_eq_true_1 _); reflexivity).
  destruct (repr_putstring b pre [] room [7] 1 eq_refl Hb H7) as (b' & E & Hb'); [zlia|].
  rewrite !append_post, !append_room in Hb' by lia. exists b'. split; [done|].
  assert (E5 : room - zlen (store32h 1 ++ [7]) = room - 4 - 1) by (change (zlen (store32h 1 ++ [7])) with 5; lia).
  rewrite E5. exact Hb'.
Qed.

#[export] Existing Instance exptmod_by_squaring.
#[export] Existing Instance exptmod_by_squaring_laws.

Definition toy_hashbuf : buffer := mkbuf ([1; 2; 3] ++ replicate 2000 0) 3 3 2003.

Lemma toy_hashbuf_repr : buf_repr toy_hashbuf [1; 2; 3] [] 2000.
Proof.
  split; try (by vm_compute).
  - exists (replicate 2000 0). split; [reflexivity|by vm_compute].
  - cbn [toy_hashbuf b_data]. apply Forall_app. split; [apply (bool_decide_eq_true_1 _); reflexivity|by apply Forall_replicate].
Qed.

Definition toy_hashing (client : bool) : kses unit unit unit unit :=
  set_x_newkeys (Some (mkkc zero_kd zero_kd 2 1 false)) (set_x_kexhashbuf (Some toy_hashbuf)
    (new_session (toy_config tt client false) tt LOCAL_IDENT)).

Lemma exchange_hash_agrees_witness :
  let p := load_dh_p 2 in
  let e := DH_G_VAL ^ 5000 mod p in
  let f := DH_G_VAL ^ 7001 mod p in
  let secret := DH_G_VAL ^ (5000 * 7001) mod p in
  let hash := Sha1.fips_sha1 ([1; 2; 3] ++ hash_tail (pub_blob (R := unit) tt 1) e f secret) in
  kexdh_comb_key e 5000 f tt (toy_hashing true) =
    Ok (tt, set_x_session_id (Some (default hash (x_session_id (toy_hashing true))))
              (set_x_kexhashbuf None (set_x_hash hash (set_x_dh_K (Some secret) (toy_hashing true))))) /\
  kexdh_comb_key f 7001 e tt (toy_hashing false) =
    Ok (tt, set_x_session_id (Some (default hash (x_session_id (toy_hashing false))))
              (set_x_kexhashbuf None (set_x_hash hash (set_x_dh_K (Some secret) (toy_hashing false))))).
Proof.
  assert (Hroom : zlen (pub_blob (R := unit) tt 1) + 783 <= 2000) by (by vm_compute).
  assert (Hn : 0 <= 5000 /\ 0 <= 7001) by lia.
  exact (exchange_hash_agrees (toy_hashing true) (toy_hashing false) (mkkc zero_kd zero_kd 2 1 false) (mkkc zero_kd zero_kd 2 1 false)
    toy_hashbuf toy_hashbuf [1; 2; 3] 2000 2000 tt 5000 7001 2 1 eq_refl eq_refl (or_intror eq_refl) (proj1 Hn) (proj2 Hn)
    eq_refl eq_refl eq_refl eq_refl eq_refl eq_refl eq_refl eq_refl toy_hashbuf_repr toy_hashbuf_repr I Hroom Hroom).
Defined.
