(* ===== verification/Digits.v ===== *)
(** libtommath's numbers as arrays of 28-bit digits: the two multipliers that
    compute a part of the digits of a product, each in its column ("comba")
    and its row version, with what part of the product they return. *)

From S2P Require Import Prelude Dbutil Buffer Mpint.

Local Open Scope Z_scope.

(** ** Code *)

Definition MP_MASK : Z := 2 ^ DIGIT_BIT - 1.
(** [1 << (sizeof(mp_word) * CHAR_BIT - 2 * DIGIT_BIT + 1)] *)
Definition MP_WARRAY : Z := 512.
(** [1 << ((CHAR_BIT * sizeof (mp_word)) - (2 * DIGIT_BIT))] *)
Definition COMBA_MAX : Z := 256.

(** An mp_word, [unsigned long long]. *)
Definition word (x : Z) : Z := x mod 2 ^ 64.

(** [dp[0 .. used)], and the number of an array of digits, clamped. *)
Definition digits (a : Z) : list Z := map (mp_digit a) (seqZ 0 (mp_used a)).
Fixpoint of_digits (l : list Z) : Z :=
  match l with
  | [] => 0
  | d :: l => d + 2 ^ DIGIT_BIT * of_digits l
  end.

(** [dp[i]] *)
Definition dp (l : list Z) (i : Z) : Z := if i <? 0 then 0 else nth (Z.to_nat i) l 0.

(** The inner loop of a column: [_W += *tmpx++ * *tmpy--]. *)
Fixpoint column_loop (n : nat) (a b : list Z) (tx ty W : Z) : Z :=
  match n with
  | O => W
  | S n => column_loop n a b (tx + 1) (ty - 1) (word (W + dp a tx * dp b ty))
  end.

Definition column (a b : list Z) (ix W : Z) : Z :=
  let ty := Z.min (zlen b - 1) ix in
  let tx := ix - ty in
  let iy := Z.min (zlen a - tx) (ty + 1) in
  column_loop (Z.to_nat iy) a b tx ty W.

(** [n] columns from [ix] on: the digits stored in W. *)
Fixpoint columns (n : nat) (a b : list Z) (ix W : Z) : list Z :=
  match n with
  | O => []
  | S n =>
      let W := column a b ix W in
      Z.land W MP_MASK :: columns n a b (ix + 1) (Z.shiftr W DIGIT_BIT)
  end.

Definition fast_s_mp_mul_digs (a b digs : Z) : Z :=
  let pa := Z.min digs (mp_used a + mp_used b) in
  of_digits (columns (Z.to_nat pa) (digits a) (digits b) 0 0).

(** The digits of [c] below [digs] stay as they were. *)
Definition fast_s_mp_mul_high_digs (a b c digs : Z) : Z :=
  let pa := mp_used a + mp_used b in
  of_digits (map (mp_digit c) (seqZ 0 (Z.min digs pa)) ++ columns (Z.to_nat (pa - digs)) (digits a) (digits b) digs 0).

(** [r = *t + x * *b++ + u; *t++ = r & MP_MASK; u = r >> DIGIT_BIT] along both
    arrays: the digits written, what is left of [t], and the carry. *)
Fixpoint mac (t b : list Z) (x u : Z) : list Z * list Z * Z :=
  match b, t with
  | y :: b, d :: t =>
      let r := word (d + x * y + u) in
      let '(w, rest, u) := mac t b x (Z.shiftr r DIGIT_BIT) in
      (Z.land r MP_MASK :: w, rest, u)
  | _, _ => ([], t, u)
  end.

(** A row, with the carry stored in the next digit when there is one. *)
Definition mul_row (t b : list Z) (x : Z) : list Z :=
  let '(w, rest, u) := mac t b x 0 in
  w ++ match rest with _ :: rest => u :: rest | [] => [] end.

(** The rows of [t += a * b], each one digit further. *)
Fixpoint mul_rows (t a b : list Z) : list Z :=
  match a with
  | [] => t
  | x :: a =>
      match mul_row t b x with
      | d :: t => d :: mul_rows t a b
      | [] => []
      end
  end.

Definition s_mp_mul_digs (a b digs : Z) : Z :=
  if (digs <? MP_WARRAY) && (Z.min (mp_used a) (mp_used b) <? COMBA_MAX) then fast_s_mp_mul_digs a b digs
  else of_digits (mul_rows (replicate (Z.to_nat digs) 0) (digits a) (digits b)).

(** Row [ix] starts at the digit [digs] of [t] with the digit [digs - ix] of
    [b]; [None]: it reads before the start of [b]. *)
Fixpoint high_rows (t a b : list Z) (digs ix : Z) : option (list Z) :=
  match a with
  | [] => Some t
  | x :: a =>
      if digs - ix <? 0 then None
      else high_rows (mul_row t (drop (Z.to_nat (digs - ix)) b) x) a b digs (ix + 1)
  end.

Definition s_mp_mul_high_digs (a b c digs : Z) : option Z :=
  if (mp_used a + mp_used b + 1 <? MP_WARRAY) && (Z.min (mp_used a) (mp_used b) <? COMBA_MAX)
  then Some (fast_s_mp_mul_high_digs a b c digs)
  else
    option_map (fun t => of_digits (replicate (Z.to_nat digs) 0 ++ t))
      (high_rows (replicate (Z.to_nat (mp_used a + mp_used b + 1 - digs)) 0) (digits a) (digits b) digs 0).

(** ** Digits *)

Abbreviation B := (2 ^ DIGIT_BIT).
Definition is_digit (d : Z) : Prop := 0 <= d < B.
#[export] Instance is_digit_dec d : Decision (is_digit d).
Proof. unfold is_digit. apply _. Defined.

Lemma B_val : B = 268435456.
Proof. reflexivity. Qed.

Lemma land_mask x : Z.land x MP_MASK = x mod B.
Proof. unfold MP_MASK. change (B - 1) with (Z.ones DIGIT_BIT). by rewrite Z.land_ones by (by vm_compute). Qed.

Lemma shr_digit x : Z.shiftr x DIGIT_BIT = x / B.
Proof. by rewrite Z.shiftr_div_pow2 by (by vm_compute). Qed.

Lemma mod_digit x : is_digit (x mod B).
Proof. apply Z.mod_pos_bound. by vm_compute. Qed.

Lemma pow_B n : 0 <= n -> B ^ n = 2 ^ (n * DIGIT_BIT).
Proof. intros Hn. rewrite <-Z.pow_mul_r by (lia || by vm_compute). f_equal. lia. Qed.

Lemma pow_B_pos n : 0 <= n -> 0 < B ^ n.
Proof. intros Hn. apply Z.pow_pos_nonneg; [by vm_compute|done]. Qed.

Lemma pow_B_S n : B ^ Z.of_nat (S n) = B * B ^ Z.of_nat n.
Proof. by rewrite Nat2Z.inj_succ, Z.pow_succ_r by lia. Qed.

Lemma of_digits_app l k : of_digits (l ++ k) = of_digits l + B ^ zlen l * of_digits k.
Proof.
  induction l as [|d l IH]; cbn [app of_digits]; [change (zlen (@nil Z)) with 0; lia|].
  rewrite IH. unfold zlen in *. cbn [length]. rewrite pow_B_S. ring.
Qed.

Lemma of_digits_range l : Forall is_digit l -> 0 <= of_digits l < B ^ zlen l.
Proof.
  induction 1 as [|d l Hd _ IH]; cbn [of_digits]; [by vm_compute|]. unfold zlen in *. cbn [length]. rewrite pow_B_S.
  unfold is_digit in Hd. nia.
Qed.

Lemma of_digits_zeros n : of_digits (replicate n 0) = 0.
Proof. induction n as [|n IH]; cbn [replicate of_digits]; [done|]. rewrite IH. lia. Qed.

Lemma mp_digit_mod a i : 0 <= i -> mp_digit a i = (a / B ^ i) mod B.
Proof.
  intros Hi. unfold mp_digit. change (B - 1) with MP_MASK. rewrite land_mask, Z.shiftr_div_pow2 by (unfold DIGIT_BIT; lia).
  by rewrite pow_B by done.
Qed.

Lemma seqZ_S lo n : seqZ lo (Z.of_nat (S n)) = lo :: seqZ (lo + 1) (Z.of_nat n).
Proof. rewrite seqZ_cons by lia. f_equal. f_equal; lia. Qed.

(** The low digits of a number. *)
Lemma of_digits_map a n lo : 0 <= lo -> 0 <= a -> of_digits (map (mp_digit a) (seqZ lo (Z.of_nat n))) = (a / B ^ lo) mod B ^ Z.of_nat n.
Proof.
  revert lo. induction n as [|n IH]; intros lo Hlo Ha; [by rewrite Z.mod_1_r|].
  rewrite seqZ_S. cbn [map of_digits]. rewrite IH, mp_digit_mod by lia. rewrite pow_B_S, Z.rem_mul_r by (pose proof (pow_B_pos (Z.of_nat n)); lia || done).
  rewrite Z.div_div by (pose proof (pow_B_pos lo); lia || done). by rewrite (Z.mul_comm (B ^ lo)), <-Z.pow_succ_r, <-Z.add_1_r by lia.
Qed.

Lemma used_nonneg a : 0 <= mp_used a.
Proof. unfold mp_used. destruct (Z.eqb_spec a 0); [lia|]. pose proof (Z.log2_nonneg a). unfold DIGIT_BIT. Z.div_mod_to_equations. lia. Qed.

Lemma mp_used_range a : 0 < a -> B ^ (mp_used a - 1) <= a < B ^ mp_used a.
Proof.
  intros Ha. pose proof (used_nonneg a). unfold mp_used in *. rewrite (proj2 (Z.eqb_neq a 0)) in * by lia. pose proof (Z.log2_nonneg a).
  pose proof (Z.log2_spec a Ha) as [H1 H2].
  assert (Hd : 0 <= Z.log2 a / DIGIT_BIT) by (unfold DIGIT_BIT; Z.div_mod_to_equations; lia). rewrite !pow_B by lia.
  split.
  - eapply Z.le_trans; [|exact H1]. apply Z.pow_le_mono_r; [lia|]. unfold DIGIT_BIT. Z.div_mod_to_equations. lia.
  - eapply Z.lt_le_trans; [exact H2|]. apply Z.pow_le_mono_r; [lia|]. unfold DIGIT_BIT. Z.div_mod_to_equations. lia.
Qed.

Lemma used_le a n : 0 <= a < B ^ n -> 0 <= n -> mp_used a <= n.
Proof.
  intros [Ha Hl] Hn. destruct (Z.eq_dec a 0) as [->|Hne]; [exact Hn|]. destruct (mp_used_range a) as [H1 _]; [lia|].
  apply Z.lt_succ_r. assert (B ^ (mp_used a - 1) < B ^ n) as Hlt by lia. apply Z.pow_lt_mono_r_iff in Hlt; [lia|by vm_compute|lia].
Qed.

Lemma used_bound a : 0 <= a -> a < B ^ mp_used a.
Proof. intros Ha. destruct (Z.eq_dec a 0) as [->|]; [by vm_compute|]. by apply mp_used_range; lia. Qed.

Lemma digits_len a : zlen (digits a) = mp_used a.
Proof. unfold digits, zlen. rewrite length_map, length_seqZ. pose proof (used_nonneg a). lia. Qed.

Lemma digits_ok a : 0 <= a -> of_digits (digits a) = a.
Proof.
  intros Ha. unfold digits. pose proof (used_nonneg a). replace (mp_used a) with (Z.of_nat (Z.to_nat (mp_used a))) by lia.
  rewrite of_digits_map by done. rewrite Z.pow_0_r, Z.div_1_r, Z2Nat.id by done. apply Z.mod_small. split; [done|by apply used_bound].
Qed.

Lemma map_digits a l : Forall is_digit (map (mp_digit a) l).
Proof.
  induction l as [|i l IH]; cbn [map]; constructor; [|exact IH]. unfold mp_digit. change (B - 1) with MP_MASK.
  rewrite land_mask. apply mod_digit.
Qed.

Lemma digits_range a : Forall is_digit (digits a).
Proof. apply map_digits. Qed.

Lemma word_small x : 0 <= x < 2 ^ 64 -> word x = x.
Proof. apply Z.mod_small. Qed.
Create HintDb digits.
#[export] Hint Resolve digits_range map_digits mod_digit : digits.

(** ** The columns *)

(** [f lo + ... + f (lo + n - 1)] *)
Fixpoint zsum (f : Z -> Z) (lo : Z) (n : nat) : Z :=
  match n with
  | O => 0
  | S n => f lo + zsum f (lo + 1) n
  end.

Lemma zsum_ext f g lo n : (forall i, lo <= i < lo + Z.of_nat n -> f i = g i) -> zsum f lo n = zsum g lo n.
Proof.
  revert lo. induction n as [|n IH]; intros lo H; [done|]. cbn [zsum]. rewrite (H lo), (IH (lo + 1)) by (intros; try apply H; lia). done.
Qed.

Lemma zsum_zero f lo n : (forall i, lo <= i < lo + Z.of_nat n -> f i = 0) -> zsum f lo n = 0.
Proof. intros H. rewrite (zsum_ext f (fun _ => 0)) by done. clear H. revert lo. induction n as [|n IH]; intros lo; [done|]. cbn [zsum]. by rewrite IH. Qed.

Lemma zsum_split f lo n m : zsum f lo (n + m) = zsum f lo n + zsum f (lo + Z.of_nat n) m.
Proof.
  revert lo. induction n as [|n IH]; intros lo; cbn [zsum Nat.add]; [by rewrite Z.add_0_r|].
  rewrite IH. replace (lo + 1 + Z.of_nat n) with (lo + Z.of_nat (S n)) by lia. lia.
Qed.

(** The part of the product that falls into column [k]. *)
Definition csum (a b : list Z) (k : Z) : Z := zsum (fun i => dp a i * dp b (k - i)) 0 (length a).

Lemma dp_neg l i : i < 0 -> dp l i = 0.
Proof. intros Hi. unfold dp. by rewrite (proj2 (Z.ltb_lt i 0)). Qed.

Lemma dp_end l i : zlen l <= i -> dp l i = 0.
Proof.
  intros Hi. unfold dp. destruct (Z.ltb_spec i 0); [done|]. apply nth_overflow. unfold zlen in Hi. lia.
Qed.

Lemma dp_digit l i : Forall is_digit l -> is_digit (dp l i).
Proof.
  intros Hl. unfold dp. destruct (i <? 0); [by vm_compute|]. destruct (nth_in_or_default (Z.to_nat i) l 0) as [Hin| ->]; [|by vm_compute].
  rewrite Forall_forall in Hl. apply Hl. by apply list_elem_of_In.
Qed.

Lemma dp_cons x l i : dp (x :: l) i = if i =? 0 then x else dp l (i - 1).
Proof.
  unfold dp. destruct (Z.eqb_spec i 0) as [->|Hne]; [done|]. destruct (Z.ltb_spec i 0).
  - by rewrite (proj2 (Z.ltb_lt (i - 1) 0)) by lia.
  - rewrite (proj2 (Z.ltb_ge (i - 1) 0)) by lia. by replace (Z.to_nat i) with (S (Z.to_nat (i - 1))) by lia.
Qed.

(** The code's bounds of the inner loop leave out only zeros. *)
Lemma column_range a b k : 0 <= k -> 0 < zlen b ->
  let ty := Z.min (zlen b - 1) k in
  csum a b k = zsum (fun i => dp a i * dp b (k - i)) (k - ty) (Z.to_nat (Z.min (zlen a - (k - ty)) (ty + 1))).
Proof.
  intros Hk Hb ty. unfold csum. pose proof (zlen_nonneg a). set (f := fun i => _). set (tx := k - ty). set (iy := Z.min (zlen a - tx) (ty + 1)).
  assert (Hlen : length a = Z.to_nat (zlen a)) by (unfold zlen; lia).
  assert (Hlow : forall i, i < tx -> f i = 0) by (intros i Hi; unfold f, tx, ty in *; destruct (Z.lt_ge_cases i 0); [rewrite (dp_neg a) by done; lia|rewrite (dp_end b) by lia; lia]).
  destruct (Z.le_gt_cases iy 0) as [Hiy|Hiy].
  - replace (Z.to_nat iy) with 0%nat by lia. apply zsum_zero. intros i Hi. apply Hlow. lia.
  - rewrite Hlen. replace (Z.to_nat (zlen a)) with (Z.to_nat tx + (Z.to_nat iy + Z.to_nat (zlen a - tx - iy)))%nat by lia.
    rewrite !zsum_split, Z.add_0_l, Z2Nat.id by lia. rewrite zsum_zero by (intros i Hi; apply Hlow; lia).
    rewrite (zsum_zero f (tx + Z.of_nat (Z.to_nat iy))); [lia|]. intros i Hi. unfold f. destruct (Z.lt_ge_cases i (zlen a)); [rewrite (dp_neg b) by lia|rewrite (dp_end a) by done]; lia.
Qed.

(** [(B - 1) ^ 2], the largest product of two digits. *)
Abbreviation M2 := 72057593501057025.

Lemma column_loop_ok n a b tx ty W : Forall is_digit a -> Forall is_digit b -> 0 <= W -> W + Z.of_nat n * M2 < 2 ^ 64 ->
  column_loop n a b tx ty W = W + zsum (fun i => dp a i * dp b (tx + ty - i)) tx n /\
  0 <= zsum (fun i => dp a i * dp b (tx + ty - i)) tx n <= Z.of_nat n * M2.
Proof.
  intros Ha Hb. revert tx ty W. induction n as [|n IH]; intros tx ty W HW Hlt; cbn [column_loop zsum]; [lia|].
  replace (tx + ty - tx) with ty by lia. pose proof (dp_digit a tx Ha) as [Hx0 Hx1]. pose proof (dp_digit b ty Hb) as [Hy0 Hy1].
  assert (Hp : 0 <= dp a tx * dp b ty <= M2) by (rewrite B_val in *; nia).
  rewrite word_small by lia. destruct (IH (tx + 1) (ty - 1) (W + dp a tx * dp b ty)) as [E Hr]; [lia|lia|].
  rewrite E. replace (tx + 1 + (ty - 1)) with (tx + ty) in * by lia. lia.
Qed.

Lemma zsum_bound f lo n M : (forall i, 0 <= f i <= M) -> 0 <= zsum f lo n <= Z.of_nat n * M.
Proof.
  intros Hf. revert lo. induction n as [|n IH]; intros lo; cbn [zsum]; [lia|]. specialize (IH (lo + 1)). pose proof (Hf lo). lia.
Qed.

Lemma zsum_shift f lo n : zsum f (lo + 1) n = zsum (fun i => f (i + 1)) lo n.
Proof. revert lo. induction n as [|n IH]; intros lo; cbn [zsum]; [done|]. by rewrite IH. Qed.

Lemma digit_product a b i j : Forall is_digit a -> Forall is_digit b -> 0 <= dp a i * dp b j <= M2.
Proof. intros Ha Hb. pose proof (dp_digit a i Ha) as [? ?]. pose proof (dp_digit b j Hb) as [? ?]. rewrite B_val in *. nia. Qed.


Lemma csum_nil_r a k : csum a [] k = 0.
Proof.
  apply zsum_zero. intros i _. enough (dp [] (k - i) = 0) by lia. unfold dp. destruct (_ <? 0); [done|]. by destruct (Z.to_nat _).
Qed.

Lemma csum_neg a b k : k < 0 -> csum a b k = 0.
Proof. intros Hk. apply zsum_zero. intros i Hi. rewrite (dp_neg b) by lia. lia. Qed.

Lemma csum_cons x a b k : csum (x :: a) b k = x * dp b k + csum a b (k - 1).
Proof.
  unfold csum. cbn [length zsum]. rewrite dp_cons, Z.eqb_refl, Z.sub_0_r. f_equal.
  change 1 with (0 + 1) at 1. rewrite zsum_shift. apply zsum_ext. intros i Hi.
  rewrite dp_cons, (proj2 (Z.eqb_neq _ 0)) by lia. f_equal; f_equal; lia.
Qed.

Lemma csum_bound a b k : Forall is_digit a -> Forall is_digit b -> 0 <= k -> 0 <= csum a b k <= (k + 1) * M2.
Proof.
  intros Ha Hb Hk. destruct b as [|y b]; [rewrite csum_nil_r; lia|]. set (b' := y :: b) in *.
  assert (0 < zlen b') by (unfold zlen, b'; cbn; lia). rewrite column_range by done. cbv zeta. set (n := Z.to_nat _).
  pose proof (zsum_bound (fun i => dp a i * dp b' (k - i)) (k - Z.min (zlen b' - 1) k) n M2 (fun i => digit_product _ _ _ _ Ha Hb)). lia.
Qed.

Lemma column_ok a b k W : Forall is_digit a -> Forall is_digit b -> Z.min (zlen a) (zlen b) < COMBA_MAX -> 0 <= k -> 0 <= W <= 2 ^ 36 ->
  column a b k W = W + csum a b k /\ 0 <= W + csum a b k < 2 ^ 64.
Proof.
  intros Ha Hb Hlen Hk HW. unfold COMBA_MAX in Hlen. unfold column. cbv zeta. pose proof (zlen_nonneg a). destruct (Z.eq_dec (zlen b) 0) as [E|Hne].
  - destruct b as [|y b]; [|unfold zlen in E; cbn in E; lia]. rewrite csum_nil_r, E.
    replace (Z.to_nat _) with 0%nat by lia. cbn [column_loop]. lia.
  - pose proof (zlen_nonneg b). rewrite column_range by lia. cbv zeta. set (n := Z.to_nat _). set (tx := k - _).
    assert (Hn : Z.of_nat n <= 255) by (unfold n, tx; lia).
    destruct (column_loop_ok n a b tx (Z.min (zlen b - 1) k) W Ha Hb) as [E Hr]; [lia|lia|]. rewrite E.
    replace (tx + Z.min (zlen b - 1) k) with k in * by (unfold tx; lia). lia.
Qed.

(** The number that [n] columns from [lo] on stand for. *)
Fixpoint conv (a b : list Z) (lo : Z) (n : nat) : Z :=
  match n with
  | O => 0
  | S n => csum a b lo + B * conv a b (lo + 1) n
  end.

Lemma columns_ok n a b lo W : Forall is_digit a -> Forall is_digit b -> Z.min (zlen a) (zlen b) < COMBA_MAX -> 0 <= lo -> 0 <= W <= 2 ^ 36 ->
  of_digits (columns n a b lo W) = (W + conv a b lo n) mod B ^ Z.of_nat n /\ zlen (columns n a b lo W) = Z.of_nat n.
Proof.
  intros Ha Hb Hlen. revert lo W. induction n as [|n IH]; intros lo W Hlo HW; cbn [columns conv of_digits]; [by rewrite Z.mod_1_r|].
  destruct (column_ok a b lo W Ha Hb Hlen Hlo HW) as [E Hr]. rewrite E, land_mask, shr_digit. set (V := W + csum a b lo) in *.
  destruct (IH (lo + 1) (V / B)) as [E' Hz]; [lia| |]; [rewrite B_val; Z.div_mod_to_equations; lia|].
  split; [|unfold zlen in *; cbn [length]; lia]. rewrite E', pow_B_S, Z.rem_mul_r by (pose proof (pow_B_pos (Z.of_nat n)); lia || done).
  replace (W + (csum a b lo + B * conv a b (lo + 1) n)) with (V + conv a b (lo + 1) n * B) by (unfold V; ring).
  by rewrite Z_mod_plus_full, Z.div_add by done.
Qed.

Lemma conv_split a b lo n m : conv a b lo (n + m) = conv a b lo n + B ^ Z.of_nat n * conv a b (lo + Z.of_nat n) m.
Proof.
  revert lo. induction n as [|n IH]; intros lo; cbn [conv Nat.add].
  - rewrite Z.add_0_r. change (B ^ Z.of_nat 0) with 1. lia.
  - rewrite IH, pow_B_S. replace (lo + 1 + Z.of_nat n) with (lo + Z.of_nat (S n)) by lia. ring.
Qed.

(** The same for one digit of [a]. *)
Fixpoint part (b : list Z) (lo : Z) (n : nat) : Z :=
  match n with
  | O => 0
  | S n => dp b lo + B * part b (lo + 1) n
  end.

Lemma conv_nil b lo n : conv [] b lo n = 0.
Proof. revert lo. induction n as [|n IH]; intros lo; cbn [conv]; [done|]. rewrite IH. unfold csum. cbn [length zsum]. lia. Qed.

Lemma conv_cons x a b lo n : conv (x :: a) b lo n = x * part b lo n + conv a b (lo - 1) n.
Proof.
  revert lo. induction n as [|n IH]; intros lo; cbn [conv part]; [lia|]. rewrite IH, csum_cons.
  replace (lo + 1 - 1) with (lo - 1 + 1) by lia. ring.
Qed.

Lemma part_cons y b lo n : 0 <= lo -> part (y :: b) (lo + 1) n = part b lo n.
Proof.
  revert lo. induction n as [|n IH]; intros lo Hlo; cbn [part]; [done|]. rewrite IH, dp_cons, (proj2 (Z.eqb_neq _ 0)) by lia.
  by replace (lo + 1 - 1) with lo by lia.
Qed.

Lemma part_nil lo n : part [] lo n = 0.
Proof.
  revert lo. induction n as [|n IH]; intros lo; cbn [part]; [done|]. rewrite IH.
  unfold dp. destruct (lo <? 0); [lia|]. destruct (Z.to_nat lo); cbn [nth]; lia.
Qed.

Lemma part_all b n : (length b <= n)%nat -> part b 0 n = of_digits b.
Proof.
  revert n. induction b as [|y b IH]; intros n Hn; cbn [of_digits].
  - apply part_nil.
  - destruct n as [|n]; [cbn in Hn; lia|]. cbn [part]. change 1 with (0 + 1). rewrite part_cons, IH by (cbn in Hn; lia). by rewrite dp_cons.
Qed.

Lemma conv_all a b n : (length a + length b <= n)%nat -> conv a b 0 n = of_digits a * of_digits b.
Proof.
  revert n. induction a as [|x a IH]; intros n Hn; cbn [of_digits]; [by rewrite conv_nil|]. cbn in Hn.
  rewrite conv_cons, part_all by lia. destruct n as [|n]; [lia|]. cbn [conv]. rewrite (csum_neg a b) by lia.
  change (0 - 1 + 1) with 0. rewrite IH by lia. ring.
Qed.

(** ** The low digits of a product *)

Lemma conv_low a b n : conv a b 0 n mod B ^ Z.of_nat n = (of_digits a * of_digits b) mod B ^ Z.of_nat n.
Proof.
  rewrite <-(conv_all a b (n + (length a + length b))) by lia.
  by rewrite conv_split, (Z.mul_comm (B ^ Z.of_nat n)), Z_mod_plus_full.
Qed.

Lemma conv_bound a b lo n C : (forall k, lo <= k < lo + Z.of_nat n -> 0 <= csum a b k <= C) -> 0 <= conv a b lo n /\ (B - 1) * conv a b lo n <= C * (B ^ Z.of_nat n - 1).
Proof.
  revert lo. induction n as [|n IH]; intros lo Hc; cbn [conv]; [change (B ^ Z.of_nat 0) with 1; lia|].
  destruct (IH (lo + 1)) as [H1 H2]; [intros k Hk; apply Hc; lia|]. pose proof (Hc lo ltac:(lia)) as [H3 H4].
  rewrite pow_B_S. pose proof (pow_B_pos (Z.of_nat n)). rewrite B_val in *. nia.
Qed.

Lemma conv_low_bound a b n : Forall is_digit a -> Forall is_digit b -> 0 <= conv a b 0 n <= Z.of_nat n * B ^ (Z.of_nat n + 1).
Proof.
  intros Ha Hb. destruct (conv_bound a b 0 n (Z.of_nat n * M2)) as [H1 H2].
  - intros k Hk. pose proof (csum_bound a b k Ha Hb ltac:(lia)). nia.
  - split; [done|]. rewrite Z.pow_add_r, Z.pow_1_r by lia. pose proof (pow_B_pos (Z.of_nat n)). rewrite B_val in *. nia.
Qed.

Lemma mod_low_all a b n m : 0 <= n -> 0 <= m -> 0 <= a < B ^ n -> 0 <= b < B ^ m -> (a * b) mod B ^ (n + m) = a * b.
Proof. intros Hn Hm Ha Hb. apply Z.mod_small. rewrite Z.pow_add_r by done. nia. Qed.

Lemma fast_s_mp_mul_digs_ok a b digs : 0 <= a -> 0 <= b -> 0 <= digs -> Z.min (mp_used a) (mp_used b) < COMBA_MAX ->
  fast_s_mp_mul_digs a b digs = (a * b) mod B ^ digs.
Proof.
  intros Ha Hb Hd Hmin. unfold fast_s_mp_mul_digs. cbv zeta. pose proof (used_nonneg a) as Hua. pose proof (used_nonneg b) as Hub.
  rewrite (proj1 (columns_ok _ _ _ 0 0 (digits_range a) (digits_range b) ltac:(by rewrite !digits_len) ltac:(done) ltac:(done))).
  rewrite Z.add_0_l, conv_low, !digits_ok, Z2Nat.id by lia.
  destruct (Z.min_spec digs (mp_used a + mp_used b)) as [[? ->]|[Hle ->]]; [done|].
  rewrite mod_low_all by (try apply used_bound; pose proof (used_bound a Ha); pose proof (used_bound b Hb); lia).
  symmetry. apply Z.mod_small. split; [nia|]. eapply Z.lt_le_trans; [|apply (Z.pow_le_mono_r B (mp_used a + mp_used b)); [done|exact Hle]].
  pose proof (used_bound a Ha). pose proof (used_bound b Hb). rewrite Z.pow_add_r by done. nia.
Qed.

(** ** Rows *)

Lemma mac_ok b t x u : Forall is_digit t -> Forall is_digit b -> is_digit x -> is_digit u ->
  let n := Nat.min (length t) (length b) in
  exists w u', mac t b x u = (w, drop n t, u') /\ length w = n /\ Forall is_digit w /\ is_digit u' /\
    of_digits w + B ^ Z.of_nat n * u' = of_digits (take n t) + x * of_digits (take n b) + u.
Proof.
  intros Ht Hb Hx. revert t u Ht. induction Hb as [|y b Hy Hb IH]; intros t u Ht Hu; cbn [mac length].
  - rewrite Nat.min_0_r, !take_0, drop_0. exists [], u. change (B ^ Z.of_nat 0) with 1. cbn [of_digits]. split_and!; try done; [by destruct t|lia].
  - destruct Ht as [|d t Hd Ht].
    + exists [], u. cbn [length Nat.min]. rewrite !take_0, drop_0. change (B ^ Z.of_nat 0) with 1. cbn [of_digits]. split_and!; try done; lia.
    + cbn [mac length Nat.min]. rewrite !firstn_cons, skipn_cons. cbn [of_digits]. unfold is_digit in Hd, Hx, Hy, Hu. set (r := d + x * y + u).
      assert (Hr : 0 <= r < B * B) by (unfold r; rewrite B_val in *; nia).
      rewrite (word_small r) by (rewrite B_val in *; lia). rewrite shr_digit, land_mask.
      destruct (IH t (r / B) Ht) as (w & u' & E & Hl & Hw & Hu' & Hval); [split; [apply Z.div_pos; [lia|done]|apply Z.div_lt_upper_bound; [done|lia]]|].
      rewrite E. exists (r mod B :: w), u'. split; [done|]. split; [by cbn; rewrite Hl|]. split; [constructor; [apply mod_digit|done]|].
      split; [done|]. cbn [of_digits]. rewrite pow_B_S. set (n := Nat.min _ _) in *. pose proof (Z.div_mod r B) as Hdm.
      replace (r mod B + B * of_digits w + B * B ^ Z.of_nat n * u') with (r mod B + B * (of_digits w + B ^ Z.of_nat n * u')) by ring.
      rewrite Hval. replace (r mod B) with (r - B * (r / B)) by (rewrite Hdm at 1; [ring|done]). unfold r. ring.
Qed.

Lemma of_digits_drop_zero n (t : list Z) m : drop n t = replicate m 0 -> of_digits t = of_digits (take n t).
Proof. intros E. rewrite <-(take_drop n t) at 1. rewrite of_digits_app, E, of_digits_zeros. lia. Qed.

Lemma is_digit_zeros n : Forall is_digit (replicate n 0).
Proof. by apply Forall_replicate. Qed.
#[export] Hint Resolve is_digit_zeros : digits.

(** [t] holds nothing yet above the digits of [b]. *)
Lemma mul_row_ok t b x : Forall is_digit t -> Forall is_digit b -> is_digit x -> drop (length b) t = replicate (length t - length b) 0 ->
  of_digits (mul_row t b x) = (of_digits t + x * of_digits b) mod B ^ zlen t /\
  length (mul_row t b x) = length t /\ Forall is_digit (mul_row t b x) /\
  drop (S (length b)) (mul_row t b x) = replicate (length t - S (length b)) 0.
Proof.
  intros Ht Hb Hx Hz. destruct (mac_ok b t x 0 Ht Hb Hx ltac:(by vm_compute)) as (w & u & E & Hl & Hw & Hu & Hval).
  unfold mul_row. rewrite E. destruct (Nat.le_gt_cases (length t) (length b)) as [Hle|Hgt].
  - rewrite Nat.min_l in * by done. rewrite drop_all, app_nil_r. rewrite take_ge in Hval by done. unfold zlen.
    rewrite drop_ge by lia. replace (length t - S (length b))%nat with 0%nat by lia. split_and!; try done.
    rewrite <-(take_drop (length t) b), of_digits_app. unfold zlen. rewrite (length_take_le b) by done.
    pose proof (of_digits_range w Hw) as Hrange. unfold zlen in Hrange. rewrite Hl in Hrange.
    set (D := of_digits (drop (length t) b)). set (P := B ^ Z.of_nat (length t)) in *.
    assert (Eq : of_digits t + x * (of_digits (take (length t) b) + P * D) = of_digits w + (u + x * D) * P).
    { transitivity (of_digits w + P * u + x * D * P); [rewrite Hval|]; ring. }
    rewrite Eq. symmetry.
    rewrite Z_mod_plus_full. by apply Z.mod_small.
  - rewrite Nat.min_r in * by lia. rewrite Hz. destruct (length t - length b)%nat as [|m] eqn:Em; [lia|]. cbn [replicate].
    rewrite (take_ge b) in Hval by done. rewrite <-(of_digits_drop_zero _ _ _ Hz) in Hval.
    assert (Hr : Forall is_digit (w ++ u :: replicate m 0)) by (apply Forall_app; split; [done|constructor; [done|auto with digits]]).
    assert (Elen : length (w ++ u :: replicate m 0) = length t) by (rewrite length_app; cbn [length]; rewrite length_replicate; lia).
    split_and!; [|done|done|].
    + pose proof (of_digits_range _ Hr) as Hrange. unfold zlen in *. rewrite Elen in Hrange. symmetry. rewrite <-(Z.mod_small _ _ Hrange). f_equal.
      rewrite of_digits_app. cbn [of_digits]. rewrite of_digits_zeros, Z.mul_0_r, Z.add_0_r. unfold zlen. rewrite Hl. lia.
    + rewrite <-Hl. replace (S (length w)) with (length (w ++ [u])) by (rewrite length_app; cbn; lia).
      change (u :: replicate m 0) with ([u] ++ replicate m 0). rewrite app_assoc, drop_app_length. f_equal. rewrite ?length_app. cbn [length]. lia.
Qed.

Lemma mul_rows_ok a b t : Forall is_digit a -> Forall is_digit b -> Forall is_digit t -> drop (length b) t = replicate (length t - length b) 0 ->
  of_digits (mul_rows t a b) = (of_digits t + of_digits a * of_digits b) mod B ^ zlen t.
Proof.
  intros Ha Hb. revert t. induction Ha as [|x a Hx Ha IH]; intros t Ht Hz; cbn [mul_rows of_digits].
  - rewrite Z.mul_0_l, Z.add_0_r. symmetry. by apply Z.mod_small, of_digits_range.
  - destruct (mul_row_ok t b x Ht Hb Hx Hz) as (Hval & Hlen & Hdig & Hdrop). destruct (mul_row t b x) as [|d t'].
    + destruct t; [|done]. by rewrite Z.mod_1_r.
    + assert (Ez : zlen t = Z.succ (zlen t')) by (unfold zlen; rewrite <-Hlen; cbn [length]; lia). pose proof (zlen_nonneg t').
      inversion_clear Hdig as [|? ? Hd Ht']. cbn [of_digits] in Hval |- *. rewrite Ez, Z.pow_succ_r in * by done.
      rewrite IH; [|done|]. 2: { rewrite skipn_cons in Hdrop. rewrite Hdrop. f_equal. rewrite <-Hlen. cbn [length]. lia. }
      set (P := B ^ zlen t') in *. assert (HP : 0 < P) by (by apply pow_B_pos).
      replace (of_digits t + (x + B * of_digits a) * of_digits b) with (of_digits t + x * of_digits b + B * (of_digits a * of_digits b)) by ring.
      rewrite <-(Z.add_mod_idemp_l (of_digits t + x * of_digits b)), <-Hval by (rewrite B_val; lia).
      replace (d + B * of_digits t' + B * (of_digits a * of_digits b)) with (d + (of_digits t' + of_digits a * of_digits b) * B) by ring.
      rewrite Z.rem_mul_r by (done || lia). rewrite Z_mod_plus_full, Z.div_add, (Z.mod_small d), (Z.div_small d) by done. by rewrite Z.add_0_l.
Qed.

Lemma s_mp_mul_digs_ok a b digs : 0 <= a -> 0 <= b -> 0 <= digs -> s_mp_mul_digs a b digs = (a * b) mod B ^ digs.
Proof.
  intros Ha Hb Hd. unfold s_mp_mul_digs. destruct (_ && _) eqn:E.
  - apply andb_true_iff in E as [_ E%Z.ltb_lt]. by apply fast_s_mp_mul_digs_ok.
  - rewrite mul_rows_ok; [|auto with digits|auto with digits|auto with digits|by rewrite drop_replicate, length_replicate].
    rewrite of_digits_zeros, !digits_ok by done. unfold zlen. by rewrite length_replicate, Z2Nat.id.
Qed.

(** ** The high digits of a product *)

Definition high_part (a b digs : Z) : Z := conv (digits a) (digits b) digs (Z.to_nat (mp_used a + mp_used b - digs)).

Lemma csum_end a b k : zlen a + zlen b <= k -> csum a b k = 0.
Proof.
  intros Hk. apply zsum_zero. intros i Hi. rewrite (dp_end b); [lia|]. unfold zlen in *. lia.
Qed.

Lemma conv_end a b lo n : zlen a + zlen b <= lo -> conv a b lo n = 0.
Proof. revert lo. induction n as [|n IH]; intros lo Hlo; cbn [conv]; [done|]. rewrite IH, csum_end by lia. lia. Qed.

Lemma conv_more a b lo n m : 0 <= lo -> zlen a + zlen b <= lo + Z.of_nat n -> (n <= m)%nat -> conv a b lo m = conv a b lo n.
Proof. intros Hlo Hn Hm. replace m with (n + (m - n))%nat by lia. rewrite conv_split, (conv_end a b (lo + Z.of_nat n)) by lia. by rewrite Z.mul_0_r, Z.add_0_r. Qed.

(** What is left out is the columns below [digs]. *)
Lemma high_part_ok a b digs : 0 <= a -> 0 <= b -> 0 <= digs <= mp_used a + mp_used b ->
  0 <= a * b - B ^ digs * high_part a b digs <= digs * B ^ (digs + 1).
Proof.
  intros Ha Hb Hd. pose proof (conv_low_bound (digits a) (digits b) (Z.to_nat digs) (digits_range a) (digits_range b)) as Hl.
  pose proof (conv_all (digits a) (digits b) (Z.to_nat digs + Z.to_nat (mp_used a + mp_used b - digs))) as Hall.
  rewrite conv_split, Z.add_0_l, Z2Nat.id, !digits_ok in Hall by lia. rewrite Z2Nat.id in Hl by lia. unfold high_part.
  rewrite <-Hall; [lia|]. pose proof (digits_len a). pose proof (digits_len b). unfold zlen in *. lia.
Qed.

Lemma high_part_range a b digs : 0 <= a -> 0 <= b -> 0 <= digs <= mp_used a + mp_used b ->
  0 <= high_part a b digs < B ^ (mp_used a + mp_used b - digs).
Proof.
  intros Ha Hb Hd. pose proof (high_part_ok a b digs Ha Hb Hd) as [H0 _]. pose proof (used_bound a Ha). pose proof (used_bound b Hb).
  pose proof (used_nonneg a). pose proof (used_nonneg b). pose proof (pow_B_pos digs ltac:(lia)). split.
  - unfold high_part. apply (conv_bound _ _ _ _ ((mp_used a + mp_used b) * M2)). intros k Hk.
    pose proof (csum_bound _ _ k (digits_range a) (digits_range b) ltac:(lia)). nia.
  - assert (Hab : a * b < B ^ (mp_used a + mp_used b)) by (rewrite Z.pow_add_r by done; nia).
    replace (mp_used a + mp_used b) with (digs + (mp_used a + mp_used b - digs)) in Hab at 1 by lia. rewrite Z.pow_add_r in Hab by lia.
    apply (Z.mul_lt_mono_pos_l (B ^ digs)); lia.
Qed.

Lemma fast_high_ok a b c digs : 0 <= a -> 0 <= b -> 0 <= c -> 0 <= digs <= mp_used a + mp_used b -> Z.min (mp_used a) (mp_used b) < COMBA_MAX ->
  fast_s_mp_mul_high_digs a b c digs = c mod B ^ digs + B ^ digs * high_part a b digs.
Proof.
  intros Ha Hb Hc Hd Hmin. unfold fast_s_mp_mul_high_digs. cbv zeta. rewrite Z.min_l by lia. rewrite of_digits_app.
  rewrite <-(Z2Nat.id digs) at 1 by lia. rewrite of_digits_map, Z.pow_0_r, Z.div_1_r, Z2Nat.id by lia.
  rewrite (proj1 (columns_ok _ _ _ digs 0 (digits_range a) (digits_range b) ltac:(by rewrite !digits_len) ltac:(lia) ltac:(done))).
  fold (high_part a b digs). rewrite Z.add_0_l, Z2Nat.id by lia. rewrite (Z.mod_small (high_part a b digs)) by (by apply high_part_range).
  f_equal. f_equal. unfold zlen. rewrite length_map, length_seqZ. f_equal. lia.
Qed.

Lemma part_drop b lo n : 0 <= lo -> (length b <= n)%nat -> part b lo n = of_digits (drop (Z.to_nat lo) b).
Proof.
  intros Hlo Hn. rewrite <-(Z2Nat.id lo) at 1 by done. clear Hlo. revert b Hn. induction (Z.to_nat lo) as [|k IH]; intros b Hn; [by apply part_all|].
  destruct b as [|y b]; [by rewrite part_nil|]. rewrite skipn_cons, Nat2Z.inj_succ, <-Z.add_1_r, part_cons by lia. apply IH. cbn in Hn. lia.
Qed.

Lemma high_rows_ok a b t digs ix n : Forall is_digit a -> Forall is_digit b -> Forall is_digit t ->
  zlen a <= digs - ix + 1 -> digs - ix <= zlen b -> (length b <= n)%nat ->
  drop (length b - Z.to_nat (digs - ix)) t = replicate (length t - (length b - Z.to_nat (digs - ix))) 0 ->
  exists t', high_rows t a b digs ix = Some t' /\ of_digits t' = (of_digits t + conv a b (digs - ix) n) mod B ^ zlen t.
Proof.
  intros Ha Hb. revert t ix. induction Ha as [|x a Hx Ha IH]; intros t ix Ht Hlo Hlb Hn Hz; cbn [high_rows].
  - exists t. split; [done|]. rewrite conv_nil, Z.add_0_r. symmetry. by apply Z.mod_small, of_digits_range.
  - assert (Hlo' : zlen a <= digs - ix) by (unfold zlen in *; cbn [length] in Hlo; lia). pose proof (zlen_nonneg a).
    rewrite (proj2 (Z.ltb_ge _ _)) by lia. set (bd := drop (Z.to_nat (digs - ix)) b) in *.
    assert (Hbd : length bd = (length b - Z.to_nat (digs - ix))%nat) by (apply length_drop).
    destruct (mul_row_ok t bd x Ht) as (Hval & Hlen & Hdig & Hdrop); [by apply Forall_drop|done|by rewrite Hbd|].
    assert (Ez : zlen (mul_row t bd x) = zlen t) by (unfold zlen; by rewrite Hlen).
    destruct (Z.eq_dec (zlen a) 0) as [E0|E0].
    + destruct a; [|unfold zlen in E0; cbn in E0; lia]. eexists. split; [reflexivity|].
      rewrite conv_cons, conv_nil, Hval, part_drop by lia. fold bd. by rewrite Z.add_0_r.
    + destruct (IH (mul_row t bd x) (ix + 1)) as (t' & E & Hv); [done|lia|lia|done| |].
      { rewrite Hlen. replace (length b - Z.to_nat (digs - (ix + 1)))%nat with (S (length bd)); [exact Hdrop|]. unfold zlen in *. lia. }
      exists t'. split; [exact E|]. rewrite Hv, Ez, Hval, conv_cons, part_drop by lia. fold bd.
      rewrite Z.add_mod_idemp_l by (pose proof (pow_B_pos (zlen t) (zlen_nonneg t)); lia). f_equal.
      replace (digs - (ix + 1)) with (digs - ix - 1) by lia. lia.
Qed.

(** The digits from [digs] on; below them the result is arbitrary. *)
Lemma s_mp_mul_high_digs_ok a b c digs : 0 <= a -> 0 <= b -> 0 <= c -> 0 <= digs <= mp_used b -> mp_used a <= digs + 1 ->
  exists low, s_mp_mul_high_digs a b c digs = Some (low + B ^ digs * high_part a b digs) /\ 0 <= low < B ^ digs.
Proof.
  intros Ha Hb Hc Hd Hua. pose proof (used_nonneg a). unfold s_mp_mul_high_digs. destruct (_ && _) eqn:E.
  - apply andb_true_iff in E as [_ E%Z.ltb_lt]. exists (c mod B ^ digs). rewrite fast_high_ok by (done || lia). split; [done|].
    apply Z.mod_pos_bound, pow_B_pos. lia.
  - set (n := Z.to_nat (mp_used a + mp_used b + 1 - digs)). pose proof (digits_len a) as Hla. pose proof (digits_len b) as Hlb. unfold zlen in Hla, Hlb.
    destruct (high_rows_ok (digits a) (digits b) (replicate n 0) digs 0 (length (digits a) + length (digits b))) as (t & Et & Hv);
      [auto with digits|auto with digits|auto with digits|unfold zlen; lia|unfold zlen; lia|lia|by rewrite drop_replicate, length_replicate|].
    rewrite Et. cbn [option_map]. exists 0. pose proof (pow_B_pos digs ltac:(lia)). split; [|lia]. f_equal.
    rewrite of_digits_app, of_digits_zeros. unfold zlen. rewrite length_replicate, Z2Nat.id by lia.
    rewrite Hv, of_digits_zeros, Z.sub_0_r, !Z.add_0_l. unfold zlen. rewrite length_replicate. f_equal. f_equal.
    rewrite (conv_more _ _ _ (Z.to_nat (mp_used a + mp_used b - digs))) by (unfold zlen; lia). fold (high_part a b digs).
    apply Z.mod_small. pose proof (high_part_range a b digs Ha Hb ltac:(lia)) as [? Hlt]. split; [done|].
    eapply Z.lt_le_trans; [exact Hlt|]. apply Z.pow_le_mono_r; [done|]. unfold n. lia.
Qed.
