(* ===== verification/Redux.v ===== *)
(** The reductions libtommath's modular exponentiation chooses from:
    Montgomery's, in its column and its row version, Barrett's, and the two
    for moduli just below a power of two; with their set-up functions and
    what each returns. *)

From S2P Require Import Prelude Dbutil Buffer Mpint Bignum Digits.

Local Open Scope Z_scope.

(** ** Montgomery reduction *)

(** The inverse of the lowest digit, by Newton's iteration on an mp_digit of
    32 bits. *)
Definition newton (b x : Z) : Z := u32 (x * u32 (2 - u32 (b * x))).

(** [None] is MP_VAL: the modulus is even. *)
Definition mp_montgomery_setup (n : Z) : option Z :=
  let b := mp_digit n 0 in
  if Z.land b 1 =? 0 then None
  else
    let x := u32 (Z.shiftl (Z.land (u32 (b + 2)) 4) 1 + b) in
    let x := newton b x in
    let x := newton b x in
    let x := newton b x in
    Some (Z.land (word (2 ^ DIGIT_BIT - x)) MP_MASK).

(** [*_W++ += mu * *tmpn++] *)
Fixpoint add_cols (n W : list Z) (mu : Z) : list Z :=
  match n, W with
  | y :: n, w :: W => word (w + word (mu * y)) :: add_cols n W mu
  | _, _ => W
  end.

(** The rounds of the column version, on W from the round's own column on. *)
Fixpoint mont_cols (k : nat) (n W : list Z) (rho : Z) : list Z :=
  match k with
  | O => W
  | S k =>
      let mu := Z.land (word (Z.land (hd 0 W) MP_MASK * rho)) MP_MASK in
      match add_cols n W mu with
      | w0 :: w1 :: W => mont_cols k n (word (w1 + Z.shiftr w0 DIGIT_BIT) :: W) rho
      | _ => []
      end
  end.

(** [c] is the carry out of the word before. *)
Fixpoint carry_out (W : list Z) (c : Z) : list Z :=
  match W with
  | [] => []
  | w :: W =>
      let w := word (w + c) in
      Z.land w MP_MASK :: carry_out W (Z.shiftr w DIGIT_BIT)
  end.

(** [if (mp_cmp_mag (x, n) != MP_LT) x = x - n] *)
Definition sub_once (x n : Z) : Z := if x <? n then x else x - n.

(** The one word past those that the code clears is only ever added to. *)
Definition fast_mp_montgomery_reduce (x n rho : Z) : Z :=
  let used := Z.to_nat (mp_used n) in
  let W := digits x ++ replicate (2 * used + 1 - length (digits x)) 0 in
  sub_once (of_digits (carry_out (take (used + 1) (mont_cols used (digits n) W rho)) 0)) n.

(** [while (u) { *tmpx += u; u = *tmpx >> DIGIT_BIT; *tmpx++ &= MP_MASK; }];
    [None]: past the end of the array. *)
Fixpoint propagate (t : list Z) (u : Z) : option (list Z) :=
  if u =? 0 then Some t
  else
    match t with
    | [] => None
    | d :: t =>
        let r := u32 (d + u) in
        cons (Z.land r MP_MASK) <$> propagate t (Z.shiftr r DIGIT_BIT)
    end.

Fixpoint mont_rows (k : nat) (n t : list Z) (rho : Z) : option (list Z) :=
  match k with
  | O => Some t
  | S k =>
      let mu := Z.land (word (hd 0 t * rho)) MP_MASK in
      let '(w, rest, u) := mac t n mu 0 in
      rest ← propagate rest u;
      mont_rows k n (tail (w ++ rest)) rho
  end.

Definition comba_fits (n : Z) : bool := (2 * mp_used n + 1 <? MP_WARRAY) && (mp_used n <? COMBA_MAX).

Definition mp_montgomery_reduce (x n rho : Z) : option Z :=
  if comba_fits n then Some (fast_mp_montgomery_reduce x n rho)
  else
    let digs := (2 * Z.to_nat (mp_used n) + 1)%nat in
    t ← mont_rows (Z.to_nat (mp_used n)) (digits n) (take digs (digits x ++ replicate digs 0)) rho;
    Some (sub_once (of_digits t) n).

Fixpoint double_mod (k : nat) (a b : Z) : Z :=
  match k with
  | O => a
  | S k => double_mod k (sub_once (a * 2) b) b
  end.

Definition mp_montgomery_calc_normalization (b : Z) : Z :=
  let bits := mp_count_bits b mod DIGIT_BIT in
  let '(a, bits) := if mp_used b >? 1 then (2 ^ ((mp_used b - 1) * DIGIT_BIT + bits - 1), bits) else (1, 1) in
  double_mod (Z.to_nat (DIGIT_BIT - (bits - 1))) a b.

(** ** Moduli just below a power of two *)

(** From the label [top]: a pass, then a subtraction and another round while
    the number is too large; [None]: not done after [n] rounds. *)
Fixpoint diminish (fuel : nat) (pass : Z -> Z) (x n : Z) : option Z :=
  match fuel with
  | O => None
  | S fuel =>
      let x := pass x in
      if x <? n then Some x else diminish fuel pass (x - n) n
  end.

Definition mp_dr_setup (a : Z) : Z := u32 (2 ^ DIGIT_BIT - mp_digit a 0).

Definition dr_pass (m k x : Z) : Z :=
  let '(w, _, mu) := mac (map (mp_digit x) (seqZ 0 m)) (map (mp_digit x) (seqZ m m)) k 0 in
  of_digits (w ++ [mu]).

Definition rounds (x : Z) : nat := Z.to_nat (Z.log2 x + 6).

Definition mp_dr_reduce (x n k : Z) : option Z := diminish (rounds x) (dr_pass (mp_used n) k) x n.

Definition mp_reduce_2k_setup (a : Z) : Z := mp_digit (2 ^ mp_count_bits a - a) 0.

Definition mp_reduce_2k (a n d : Z) : option Z :=
  let p := mp_count_bits n in
  diminish (rounds a) (fun a =>
    let q := Z.shiftr a p in
    let a := Z.land a (Z.ones p) in
    let q := if negb (d =? 1) then q * d else q in
    a + q) a n.

Definition mp_reduce_2k_setup_l (a : Z) : Z := 2 ^ mp_count_bits a - a.

Definition mp_reduce_2k_l (a n d : Z) : option Z :=
  let p := mp_count_bits n in
  diminish (rounds a) (fun a =>
    let q := Z.shiftr a p in
    let a := Z.land a (Z.ones p) in
    a + q * d) a n.

Definition mp_dr_is_modulus (a : Z) : bool :=
  if mp_used a <? 2 then false else forallb (fun d => d =? MP_MASK) (tail (digits a)).

Definition mp_reduce_is_2k_l (a : Z) : bool :=
  if mp_used a =? 0 then false
  else if mp_used a =? 1 then true
  else Z.of_nat (length (base.filter (fun d => d = MP_MASK) (digits a))) >=? mp_used a / 2.

(** [for (ix = DIGIT_BIT; ix < iy; ix++)], [n] times. *)
Fixpoint ones_loop (n : nat) (a iw iz : Z) : bool :=
  match n with
  | O => true
  | S n =>
      if Z.land (mp_digit a iw) iz =? 0 then false
      else
        let iz := u32 (Z.shiftl iz 1) in
        if iz >? MP_MASK then ones_loop n a (iw + 1) 1 else ones_loop n a iw iz
  end.

Definition mp_reduce_is_2k (a : Z) : bool :=
  if mp_used a =? 0 then false
  else if mp_used a =? 1 then true
  else ones_loop (Z.to_nat (mp_count_bits a - DIGIT_BIT)) a 1 1.

(** ** Barrett reduction *)

(** [None] is MP_VAL: division by zero. *)
Definition mp_reduce_setup (b : Z) : option Z :=
  if b =? 0 then None else Some (Z.quot (2 ^ (mp_used b * 2 * DIGIT_BIT)) b).

Definition mp_rshd (a b : Z) : Z := if b <=? 0 then a else Z.shiftr a (b * DIGIT_BIT).
Definition mp_mod_2d (a b : Z) : Z := if b <=? 0 then 0 else Z.land a (Z.ones b).

(** [while (mp_cmp (x, m) != MP_LT) x = x - m] *)
Fixpoint back_off (fuel : nat) (x m : Z) : option Z :=
  match fuel with
  | O => None
  | S fuel => if x <? m then Some x else back_off fuel (x - m) m
  end.

Definition mp_reduce (x m mu : Z) : option Z :=
  let um := mp_used m in
  let q := mp_rshd x (um - 1) in
  q ← (if um >? 2 ^ (DIGIT_BIT - 1) then Some (q * mu) else s_mp_mul_high_digs q mu q um);
  let q := mp_rshd q (um + 1) in
  let x := mp_mod_2d x (DIGIT_BIT * (um + 1)) in
  let q := s_mp_mul_digs q m (um + 1) in
  let x := x - q in
  let x := if x <? 0 then x + Z.shiftl 1 ((um + 1) * DIGIT_BIT) else x in
  back_off (Z.to_nat (um + 5)) x m.

(** ** The set-up of Montgomery reduction *)

Lemma mod_eq_diff a m r : 0 < m -> 0 <= r < m -> (m | a - r) -> a mod m = r.
Proof. intros Hm Hr [k Hk]. replace a with (r + k * m) by lia. rewrite Z_mod_plus_full. by apply Z.mod_small. Qed.

Lemma mod_divide_diff a m : 0 < m -> (m | a - a mod m).
Proof. intros Hm. exists (a / m). pose proof (Z.div_mod a m). lia. Qed.

Lemma u32_diff x : (2 ^ 32 | u32 x - x).
Proof. unfold u32. exists (- (x / 2 ^ 32)). pose proof (Z.div_mod x (2 ^ 32)). lia. Qed.

(** The first approximation is an inverse modulo 16. *)
Lemma newton_start b : Z.odd b = true -> (16 | b * (2 * Z.land (b + 2) 4 + b) - 1).
Proof.
  intros Hodd. assert (E : Z.land (b + 2) 4 = Z.land ((b mod 16 + 2) mod 8) 4).
  { transitivity (Z.land (Z.land (b + 2) (Z.ones 3)) 4); [by rewrite <-Z.land_assoc|]. rewrite Z.land_ones by done. f_equal.
    change (2 ^ 3) with 8. rewrite (Z.div_mod b 16) at 1 by done. rewrite <-Z.add_assoc. change 16 with (8 * 2) at 1. rewrite <-!Z.mul_assoc, Z.add_comm, Z.mul_comm.
    by rewrite Z_mod_plus_full. }
  assert (Hc : exists k, b = b mod 16 + 16 * k) by (exists (b / 16); pose proof (Z.div_mod b 16); lia). destruct Hc as [k Hk].
  assert (Hodd' : Z.odd (b mod 16) = true).
  { rewrite Hk, Z.odd_add_mul_even in Hodd; [done|]. by exists 8. }
  pose proof (Z.mod_pos_bound b 16 ltac:(done)) as Hb. rewrite E. set (c := b mod 16) in *.
  assert (Hall : forallb (fun c => negb (Z.odd c) || ((c * (2 * Z.land ((c + 2) mod 8) 4 + c) - 1) mod 16 =? 0)) (seqZ 0 16) = true) by (by vm_compute).
  rewrite forallb_forall in Hall. specialize (Hall c). rewrite Hodd' in Hall. cbn [negb orb] in Hall.
  assert (Hin : List.In c (seqZ 0 16)) by (apply list_elem_of_In, elem_of_seqZ; lia). specialize (Hall Hin). apply Z.eqb_eq, Z.mod_divide in Hall as [d Hd]; [|done].
  set (h := Z.land _ 4) in *. exists (d + k * (2 * h + c) + b * k). rewrite Hk. lia.
Qed.

Lemma newton_ok b x k : 0 <= k -> 2 * k <= 32 -> (2 ^ k | b * x - 1) -> (2 ^ (2 * k) | b * newton b x - 1).
Proof.
  intros Hk Hle [t Ht]. assert (E : (2 ^ (2 * k) | newton b x - x * (2 - b * x))).
  { apply (Z.divide_trans _ (2 ^ 32)); [exists (2 ^ (32 - 2 * k)); rewrite <-Z.pow_add_r by lia; f_equal; lia|]. unfold newton.
    destruct (u32_diff (x * u32 (2 - u32 (b * x)))) as [c1 H1]. destruct (u32_diff (2 - u32 (b * x))) as [c2 H2]. destruct (u32_diff (b * x)) as [c3 H3].
    exists (c1 + x * (c2 - c3)). nia. }
  destruct E as [c Hc]. replace (2 * k) with (k + k) in * by lia. rewrite Z.pow_add_r in * by done. exists (b * c - t * t).
  replace (newton b x) with (x * (2 - b * x) + c * (2 ^ k * 2 ^ k)) by lia. replace (b * x) with (1 + t * 2 ^ k) by lia.
  replace (b * (x * (2 - (1 + t * 2 ^ k)) + c * (2 ^ k * 2 ^ k)) - 1) with ((b * x) * (1 - t * 2 ^ k) + b * c * (2 ^ k * 2 ^ k) - 1) by ring.
  replace (b * x) with (1 + t * 2 ^ k) by lia. ring.
Qed.

Lemma mp_digit_0 n : mp_digit n 0 = n mod B.
Proof. by rewrite mp_digit_mod, Z.pow_0_r, Z.div_1_r. Qed.

Lemma odd_digit n : Z.odd (mp_digit n 0) = Z.odd n.
Proof.
  rewrite mp_digit_0. rewrite (Z.div_mod n B) at 2 by done. rewrite Z.add_comm, Z.odd_add_mul_even; [done|]. by exists (2 ^ 27).
Qed.

Lemma mp_montgomery_setup_ok n : Z.odd n = true ->
  exists rho, mp_montgomery_setup n = Some rho /\ is_digit rho /\ (B | mp_digit n 0 * rho + 1).
Proof.
  intros Hodd. rewrite <-odd_digit in Hodd. unfold mp_montgomery_setup. cbv zeta. set (b := mp_digit n 0) in *.
  assert (Hb : is_digit b) by (unfold b; rewrite mp_digit_0; apply mod_digit). unfold is_digit in Hb. rewrite B_val in Hb.
  change 1 with (Z.ones 1) at 1. rewrite Z.land_ones, Z.pow_1_r, Zmod_odd, Hodd by done. cbn [Z.eqb].
  set (x0 := u32 _). set (x1 := newton b x0). set (x2 := newton b x1). set (x3 := newton b x2).
  assert (H0 : (2 ^ 4 | b * x0 - 1)).
  { destruct (newton_start b Hodd) as [c Hc]. unfold x0. rewrite (u32_small (b + 2)) by (unfold is_u32; lia). rewrite Z.shiftl_mul_pow2, Z.pow_1_r by done.
    destruct (u32_diff (Z.land (b + 2) 4 * 2 + b)) as [d Hd]. exists (c + b * d * 2 ^ 28). change (2 ^ 32) with (2 ^ 28 * 2 ^ 4) in Hd. change 16 with (2 ^ 4) in Hc. nia. }
  pose proof (newton_ok b x0 4 ltac:(done) ltac:(done) H0) as H1. fold x1 in H1.
  pose proof (newton_ok b x1 8 ltac:(done) ltac:(done) H1) as H2. fold x2 in H2.
  pose proof (newton_ok b x2 16 ltac:(done) ltac:(done) H2) as [c Hc]. fold x3 in Hc.
  eexists. split; [reflexivity|]. rewrite land_mask. split; [apply mod_digit|].
  destruct (mod_divide_diff (word (B - x3)) B ltac:(done)) as [d Hd]. destruct (mod_divide_diff (B - x3) (2 ^ 64) ltac:(done)) as [e He]. fold (word (B - x3)) in He.
  replace (word (B - x3) mod B) with (word (B - x3) - d * B) by lia. replace (word (B - x3)) with (B - x3 - e * 2 ^ 64) by lia.
  exists (b * (1 - d - e * 2 ^ 36) - c * 2 ^ 4). change (2 ^ (2 * 16)) with (2 ^ 4 * B) in Hc. change (2 ^ 64) with (2 ^ 36 * B). nia.
Qed.

(** ** The column version *)

(** What a word of W may hold after [i] rounds. *)
Definition col_bound (i : Z) : Z := B - 1 + i * M2.
Definition is_word (m w : Z) : Prop := 0 <= w <= m.

Lemma add_cols_ok n W mu m : Forall is_digit n -> is_digit mu -> (length n <= length W)%nat -> m + M2 < 2 ^ 64 -> Forall (is_word m) W ->
  of_digits (add_cols n W mu) = of_digits W + mu * of_digits n /\ length (add_cols n W mu) = length W.
Proof.
  intros Hn Hmu Hlen Hm HW. revert W Hlen HW. induction Hn as [|y n Hy Hn IH]; intros W Hlen HW.
  - cbn [add_cols of_digits]. split; [lia|done].
  - destruct HW as [|w W Hw HW]; [cbn in Hlen; lia|]. destruct (IH W) as [E El]; [cbn in Hlen; lia|done|].
    cbn [add_cols of_digits length]. unfold is_digit, is_word in *. assert (0 <= mu * y <= M2) by (rewrite B_val in *; nia).
    rewrite !word_small by (rewrite ?word_small; lia). rewrite E, El. split; [ring|done].
Qed.

Lemma add_cols_word n W mu m : Forall is_digit n -> is_digit mu -> 0 <= m -> m + M2 < 2 ^ 64 -> Forall (is_word m) W -> Forall (is_word (m + M2)) (add_cols n W mu).
Proof.
  intros Hn Hmu Hm0 Hm HW. revert W HW. induction Hn as [|y n Hy Hn IH]; intros W HW.
  - cbn [add_cols]. eapply Forall_impl; [exact HW|]. unfold is_word. lia.
  - destruct HW as [|w W Hw HW]; [constructor|]. cbn [add_cols]. unfold is_digit, is_word in *. assert (0 <= mu * y <= M2) by (rewrite B_val in *; nia).
    constructor; [|by apply IH]. rewrite !word_small by (rewrite ?word_small; lia). lia.
Qed.

(** [m + M2 + 2^36 < 2^64] for the bounds of every round. *)
Lemma col_bound_fits i : 0 <= i <= 254 -> 0 <= col_bound i /\ col_bound i + 2 ^ 36 + M2 < 2 ^ 64 /\ col_bound i + M2 = col_bound (i + 1).
Proof. intros Hi. unfold col_bound. rewrite B_val. lia. Qed.

Lemma mont_cols_ok k n W rho i : Forall is_digit n -> (0 < length n)%nat -> is_digit rho -> (B | hd 0 n * rho + 1) ->
  0 <= i -> i + Z.of_nat k <= 255 -> (k + length n < length W)%nat ->
  Forall (is_word (col_bound i)) (tail W) -> is_word (col_bound i + 2 ^ 36) (hd 0 W) ->
  let W' := mont_cols k n W rho in
  (exists m, 0 <= m < B ^ Z.of_nat k /\ B ^ Z.of_nat k * of_digits W' = of_digits W + m * of_digits n) /\
  length W' = (length W - k)%nat /\ Forall (is_word (col_bound (i + Z.of_nat k) + 2 ^ 36)) W'.
Proof.
  intros Hn Hn0 Hrho Hinv. revert W i. induction k as [|k IH]; intros W i Hi Hk Hlen HW Hhd; cbn [mont_cols]; cbv zeta.
  - rewrite Z.add_0_r. split; [exists 0; change (B ^ Z.of_nat 0) with 1; lia|]. split; [lia|]. destruct W as [|w W]; [constructor|].
    constructor; [exact Hhd|]. eapply Forall_impl; [exact HW|]. unfold is_word. lia.
  - destruct (col_bound_fits i ltac:(lia)) as (Hc0 & Hc1 & Hc2). set (mu := Z.land (word _) MP_MASK).
    assert (Hmu : is_digit mu) by (unfold mu; rewrite land_mask; apply mod_digit).
    assert (HW36 : Forall (is_word (col_bound i + 2 ^ 36)) W).
    { destruct W as [|w W]; [constructor|]. constructor; [exact Hhd|]. eapply Forall_impl; [exact HW|]. unfold is_word. lia. }
    destruct (add_cols_ok n W mu (col_bound i + 2 ^ 36) Hn Hmu ltac:(lia) Hc1 HW36) as [Ev El].
    pose proof (add_cols_word n W mu (col_bound i + 2 ^ 36) Hn Hmu ltac:(lia) Hc1 HW36) as Hwd.
    assert (Hrest : Forall (is_word (col_bound i + M2)) (tail (add_cols n W mu))).
    { destruct W as [|w W]; [by destruct n; constructor|]. destruct Hn as [|y n Hy Hn]; [cbn in Hn0; lia|]. cbn [add_cols tail] in *. apply add_cols_word; try done; lia. }
    assert (Hdiv : (B | hd 0 (add_cols n W mu))).
    { destruct W as [|w W]; [cbn in Hlen; lia|]. destruct Hn as [|y n Hy Hn]; [cbn in Hn0; lia|]. cbn [add_cols hd tail] in *.
      unfold is_word, is_digit in *. assert (0 <= mu * y <= M2) by (rewrite B_val in *; nia). rewrite !word_small by (rewrite ?word_small; lia).
      unfold mu. rewrite !land_mask. pose proof (Z.mod_pos_bound w B ltac:(done)) as Hwm.
      rewrite word_small by (rewrite B_val in *; nia). destruct Hinv as [c Hc]. destruct (mod_divide_diff (w mod B * rho) B ltac:(done)) as [d Hd].
      destruct (mod_divide_diff w B ltac:(done)) as [e He]. exists (e + w mod B * c - d * y).
      replace ((w mod B * rho) mod B) with (w mod B * rho - d * B) by lia. replace w with (w mod B + e * B) at 1 by lia.
      transitivity (e * B + w mod B * (y * rho + 1) - d * B * y); [ring|]. rewrite Hc. ring. }
    destruct (add_cols n W mu) as [|w0 [|w1 W1]] eqn:EW; cbn [length] in El; [lia|lia|]. cbn [hd tail] in *.
    inversion_clear Hwd as [|? ? Hw0 _]. inversion_clear Hrest as [|? ? Hw1 HW1]. unfold is_word in Hw0, Hw1. rewrite shr_digit.
    assert (Hcar : 0 <= w0 / B < 2 ^ 36) by (rewrite B_val; Z.div_mod_to_equations; lia). rewrite (word_small (w1 + w0 / B)) by lia.
    destruct (IH (w1 + w0 / B :: W1) (i + 1)) as ((m & Hm & Em) & El' & Hw'); [lia|lia|cbn [length]; lia| | |].
    { cbn [tail]. by rewrite <-Hc2. } { cbn [hd]. unfold is_word. lia. }
    split; [|split].
    + exists (mu + B * m). rewrite pow_B_S. unfold is_digit in Hmu. split; [nia|]. rewrite <-Z.mul_assoc, Em. cbn [of_digits] in Ev |- *.
      destruct Hdiv as [q Hq]. assert (Eq : w0 / B = q) by (rewrite Hq; by apply Z.div_mul). rewrite Eq. rewrite Hq in Ev.
      transitivity (q * B + B * (w1 + B * of_digits W1) + B * m * of_digits n); [ring|]. rewrite Ev. ring.
    + rewrite El'. cbn [length]. lia.
    + by replace (i + Z.of_nat (S k)) with (i + 1 + Z.of_nat k) by lia.
Qed.

Lemma carry_out_ok W c m : Forall (is_word m) W -> m + 2 ^ 36 < 2 ^ 64 -> 0 <= c <= 2 ^ 36 ->
  of_digits (carry_out W c) = (of_digits W + c) mod B ^ zlen W.
Proof.
  intros HW Hm. revert c. induction HW as [|w W Hw HW IH]; intros c Hc; cbn [carry_out of_digits]; [by rewrite Z.mod_1_r|].
  unfold is_word in Hw. rewrite word_small, land_mask, shr_digit by lia. rewrite IH by (rewrite B_val; Z.div_mod_to_equations; lia).
  assert (Ez : zlen (w :: W) = Z.succ (zlen W)) by (unfold zlen; cbn [length]; lia). pose proof (zlen_nonneg W).
  rewrite Ez, Z.pow_succ_r by done. rewrite Z.rem_mul_r by (pose proof (pow_B_pos (zlen W)); lia || done).
  replace (w + B * of_digits W + c) with (w + c + of_digits W * B) by ring. rewrite Z_mod_plus_full, Z.div_add by done. do 3 f_equal. lia.
Qed.

(** What Montgomery reduction returns: [x / B^used] modulo [n]. *)
Definition montgomery_of (x n r : Z) : Prop := 0 <= r < n /\ (n | r * B ^ mp_used n - x).

Lemma sub_once_ok v n : 0 <= v < 2 * n -> 0 <= sub_once v n < n /\ (n | sub_once v n - v).
Proof.
  intros Hv. unfold sub_once. destruct (Z.ltb_spec v n); (split; [lia|]); [exists 0; lia|exists (-1); lia].
Qed.

Lemma montgomery_end x n m v : 0 < n -> 0 <= x < n * B ^ mp_used n -> 0 <= m < B ^ mp_used n -> B ^ mp_used n * v = x + m * n ->
  0 <= v < 2 * n /\ montgomery_of x n (sub_once v n).
Proof.
  intros Hn Hx Hm Hv. pose proof (pow_B_pos (mp_used n) (used_nonneg n)) as HP. set (P := B ^ mp_used n) in *.
  assert (Hr : 0 <= v < 2 * n) by nia. split; [done|]. destruct (sub_once_ok v n Hr) as [H1 [c Hc]]. split; [done|].
  exists (c * P + m). fold P. replace (sub_once v n) with (v + c * n) by lia. nia.
Qed.

Lemma hd_digits n : 0 < n -> hd 0 (digits n) = mp_digit n 0 /\ (0 < length (digits n))%nat.
Proof.
  intros Hn. pose proof (digits_len n) as Hl. unfold zlen in Hl. assert (Hu : 0 < mp_used n).
  { unfold mp_used. rewrite (proj2 (Z.eqb_neq n 0)) by lia. pose proof (Z.log2_nonneg n). unfold DIGIT_BIT. Z.div_mod_to_equations. lia. }
  split; [|lia]. unfold digits. replace (mp_used n) with (Z.of_nat (S (Z.to_nat (mp_used n - 1)))) by lia. by rewrite seqZ_S.
Qed.

Lemma used_pos n : 0 < n -> 0 < mp_used n.
Proof. intros Hn. destruct (hd_digits n Hn) as [_ H]. pose proof (digits_len n) as Hl. unfold zlen in Hl. lia. Qed.

Lemma two_n_fits n : 0 < n -> 2 * n < B ^ (mp_used n + 1).
Proof.
  intros Hn. pose proof (used_bound n ltac:(lia)). pose proof (used_nonneg n). rewrite Z.pow_add_r, Z.pow_1_r by lia. rewrite B_val in *. lia.
Qed.

Lemma fast_mp_montgomery_reduce_ok x n rho : 0 < n -> is_digit rho -> (B | mp_digit n 0 * rho + 1) -> mp_used n < COMBA_MAX ->
  0 <= x < n * B ^ mp_used n -> montgomery_of x n (fast_mp_montgomery_reduce x n rho).
Proof.
  intros Hn Hrho Hinv Hu Hx. unfold fast_mp_montgomery_reduce. cbv zeta. destruct (hd_digits n Hn) as [Ehd Hl0]. rewrite <-Ehd in Hinv.
  pose proof (digits_len n) as Hln. unfold zlen in Hln. pose proof (digits_len x) as Hlx. unfold zlen in Hlx. pose proof (used_nonneg n) as Hun.
  set (u := Z.to_nat (mp_used n)) in *. assert (Elu : length (digits n) = u) by lia. unfold COMBA_MAX in Hu.
  assert (Hux : mp_used x <= 2 * mp_used n).
  { apply used_le; [|lia]. split; [lia|]. pose proof (used_bound n ltac:(lia)). replace (2 * mp_used n) with (mp_used n + mp_used n) by lia.
    rewrite Z.pow_add_r by done. nia. }
  set (W := digits x ++ replicate _ 0). assert (HlW : length W = (2 * u + 1)%nat) by (unfold W; rewrite length_app, length_replicate; lia).
  assert (HW : Forall (is_word (col_bound 0)) W).
  { unfold W. eapply Forall_impl; [apply Forall_app; split; [apply digits_range|apply is_digit_zeros]|]. intros d Hd. unfold is_digit, is_word, col_bound in *. lia. }
  assert (EvW : of_digits W = x) by (unfold W; rewrite of_digits_app, of_digits_zeros, digits_ok by lia; lia).
  destruct (mont_cols_ok u (digits n) W rho 0 (digits_range n) Hl0 Hrho Hinv) as ((m & Hm & Em) & El & Hwd); [done|lia|lia| | |].
  { by apply Forall_tail. } { destruct W; [cbn in HlW; lia|]. inversion_clear HW as [|? ? Hw _]. cbn. unfold is_word in *. lia. }
  set (W' := mont_cols u (digits n) W rho) in *. rewrite EvW, digits_ok in Em by lia. unfold u in Em, Hm. rewrite Z2Nat.id in Em, Hm by done.
  destruct (montgomery_end x n m (of_digits W') Hn Hx Hm Em) as [Hv Hend]. rewrite take_ge by lia.
  rewrite (carry_out_ok W' 0 _ Hwd) by (try done; unfold col_bound; rewrite B_val; lia). rewrite Z.add_0_r, Z.mod_small; [exact Hend|].
  pose proof (two_n_fits n Hn). replace (zlen W') with (mp_used n + 1) by (unfold zlen; rewrite El; lia). lia.
Qed.

(** ** The row version *)

Lemma propagate_ok t u : Forall is_digit t -> 0 <= u < B -> of_digits t + u < B ^ zlen t ->
  exists t', propagate t u = Some t' /\ Forall is_digit t' /\ length t' = length t /\ of_digits t' = of_digits t + u.
Proof.
  intros Ht. revert u. induction Ht as [|d t Hd Ht IH]; intros u Hu Hlt; cbn [propagate].
  - change (B ^ zlen (@nil Z)) with 1 in Hlt. cbn [of_digits] in *. rewrite (proj2 (Z.eqb_eq u 0)) by lia. exists []. split_and!; try done. cbn. lia.
  - destruct (Z.eqb_spec u 0) as [->|Hne]; [exists (d :: t); split_and!; try done; [by constructor|lia]|].
    unfold is_digit in Hd. rewrite u32_small by (unfold is_u32; rewrite B_val in *; lia). rewrite land_mask, shr_digit.
    cbn [of_digits] in *. assert (Ez : zlen (d :: t) = Z.succ (zlen t)) by (unfold zlen; cbn [length]; lia). rewrite Ez, Z.pow_succ_r in Hlt by apply zlen_nonneg.
    pose proof (Z.div_mod (d + u) B ltac:(done)) as Hdm. pose proof (Z.mod_pos_bound (d + u) B ltac:(done)) as Hmod.
    destruct (IH ((d + u) / B)) as (t' & E & Ht' & El & Ev).
    { split; [apply Z.div_pos; [lia|done]|apply Z.div_lt_upper_bound; [done|]]. rewrite B_val in *. lia. }
    { set (P := B ^ zlen t) in *. rewrite B_val in *. lia. }
    rewrite E. exists ((d + u) mod B :: t'). split; [done|]. split; [constructor; [apply mod_digit|done]|]. split; [cbn; by rewrite El|].
    cbn [of_digits]. rewrite Ev. lia.
Qed.

Lemma mont_rows_ok k n t rho : Forall is_digit n -> (0 < length n)%nat -> is_digit rho -> (B | hd 0 n * rho + 1) ->
  2 * of_digits n < B ^ (zlen n + 1) -> (length t = k + length n + 1)%nat -> Forall is_digit t -> of_digits t < of_digits n * (B ^ Z.of_nat k + 1) ->
  exists t' m, mont_rows k n t rho = Some t' /\ 0 <= m < B ^ Z.of_nat k /\ B ^ Z.of_nat k * of_digits t' = of_digits t + m * of_digits n.
Proof.
  intros Hn Hn0 Hrho Hinv Hfit. pose proof (of_digits_range n Hn) as Hnr. revert t. induction k as [|k IH]; intros t Hlen Ht Hlt; cbn [mont_rows]; cbv zeta.
  { exists t, 0. split; [done|]. change (B ^ Z.of_nat 0) with 1. lia. }
  set (mu := Z.land (word _) MP_MASK). assert (Hmu : is_digit mu) by (unfold mu; rewrite land_mask; apply mod_digit).
  destruct (mac_ok n t mu 0 Ht Hn Hmu ltac:(by vm_compute)) as (w & u & E & Hlw & Hw & Hu & Hval). rewrite Nat.min_r in * by lia.
  rewrite E. rewrite (take_ge n) in Hval by done. set (N := of_digits n) in *. rewrite pow_B_S in *. set (K := B ^ Z.of_nat k) in *.
  assert (HK : 1 <= K) by (pose proof (pow_B_pos (Z.of_nat k)); unfold K; lia).
  assert (Hsum : of_digits t + mu * N < B ^ zlen t).
  { assert (Ezt : zlen t = Z.of_nat (S k) + (zlen n + 1)) by (unfold zlen; lia). rewrite Ezt, Z.pow_add_r, pow_B_S by (unfold zlen; lia). fold K.
    unfold is_digit in Hmu. set (F := B ^ (zlen n + 1)) in *. apply (Z.le_lt_trans _ (N * (B * K) + B * N)); [nia|].
    apply (Z.le_lt_trans _ (B * K * (2 * N))); [nia|]. apply Z.mul_lt_mono_pos_l; [rewrite B_val; lia|exact Hfit]. }
  assert (Esplit : of_digits t = of_digits (take (length n) t) + B ^ zlen n * of_digits (drop (length n) t)).
  { rewrite <-(take_drop (length n) t) at 1. rewrite of_digits_app. f_equal. f_equal. unfold zlen. rewrite length_take. f_equal. f_equal. lia. }
  assert (Epow : B ^ zlen t = B ^ zlen n * B ^ zlen (drop (length n) t)).
  { rewrite <-Z.pow_add_r by (apply zlen_nonneg). f_equal. unfold zlen. rewrite length_drop. lia. }
  change (Z.of_nat (length n)) with (zlen n) in Hval. pose proof (pow_B_pos (zlen n) (zlen_nonneg n)) as HL. set (L := B ^ zlen n) in *.
  pose proof (of_digits_range w Hw) as Hwr.
  destruct (propagate_ok (drop (length n) t) u) as (rest & Er & Hrest & Elr & Evr); [by apply Forall_drop|exact Hu| |].
  { apply (Z.mul_lt_mono_pos_l L); [done|]. rewrite <-Epow. nia. }
  rewrite Er. cbn [mbind option_bind].
  assert (Htot : of_digits (w ++ rest) = of_digits t + mu * N).
  { rewrite of_digits_app, Evr. unfold zlen. rewrite Hlw. change (Z.of_nat (length n)) with (zlen n). fold L. lia. }
  assert (Hdiv : (B | hd 0 (w ++ rest))).
  { assert (Hd : (B | of_digits (w ++ rest))).
    - rewrite Htot. destruct Hn as [|y n' Hy Hn']; [cbn in Hn0; lia|]. destruct Ht as [|d t Hd Ht]; [cbn in Hlen; lia|].
      cbn [hd] in *. cbn [of_digits] in N. unfold N, mu. unfold is_digit in *. rewrite word_small, land_mask by (rewrite B_val in *; nia).
      destruct Hinv as [c Hc]. destruct (mod_divide_diff (d * rho) B ltac:(done)) as [e He]. replace ((d * rho) mod B) with (d * rho - e * B) by lia. cbn [of_digits].
      exists (d * c + of_digits t - e * y + (d * rho - e * B) * of_digits n').
      transitivity (d * (y * rho + 1) + B * of_digits t - e * B * y + (d * rho - e * B) * (B * of_digits n')); [ring|]. rewrite Hc. ring.
    - destruct (w ++ rest) as [|v l]; [exists 0; cbn; lia|]. cbn [hd of_digits] in *. destruct Hd as [c Hc]. exists (c - of_digits l). lia. }
  assert (Hall : Forall is_digit (w ++ rest)) by (by apply Forall_app). assert (El : length (w ++ rest) = length t) by (rewrite length_app, Elr, length_drop; lia).
  destruct (w ++ rest) as [|v t1]; [cbn in El; lia|]. cbn [tail hd of_digits length] in *. inversion_clear Hall as [|? ? Hv Ht1].
  assert (v = 0) as -> by (destruct Hdiv as [c Hc]; unfold is_digit in Hv; rewrite B_val in *; lia).
  destruct (IH t1) as (t' & m & E' & Hm & Em); [lia|done| |].
  { unfold is_digit in Hmu. apply (Z.mul_lt_mono_pos_l B); [done|]. rewrite B_val in *. nia. }
  exists t', (mu + B * m). split; [exact E'|]. unfold is_digit in Hmu. split; [nia|]. rewrite <-Z.mul_assoc, Em. lia.
Qed.

Lemma mp_montgomery_reduce_ok x n rho : 0 < n -> is_digit rho -> (B | mp_digit n 0 * rho + 1) -> 0 <= x < n * B ^ mp_used n ->
  exists r, mp_montgomery_reduce x n rho = Some r /\ montgomery_of x n r.
Proof.
  intros Hn Hrho Hinv Hx. unfold mp_montgomery_reduce. destruct (comba_fits n) eqn:E.
  { eexists. split; [reflexivity|]. apply andb_true_iff in E as [_ E%Z.ltb_lt]. by apply fast_mp_montgomery_reduce_ok. }
  destruct (hd_digits n Hn) as [Ehd Hl0]. rewrite <-Ehd in Hinv. pose proof (digits_len n) as Hln. unfold zlen in Hln. pose proof (used_nonneg n) as Hun.
  pose proof (digits_len x) as Hlx. unfold zlen in Hlx. pose proof (used_bound n ltac:(lia)) as Hnb.
  assert (Hux : mp_used x <= 2 * mp_used n).
  { apply used_le; [|lia]. split; [lia|]. replace (2 * mp_used n) with (mp_used n + mp_used n) by lia. rewrite Z.pow_add_r by done. nia. }
  cbv zeta. set (u := Z.to_nat (mp_used n)) in *. set (digs := (2 * u + 1)%nat).
  set (t := take digs (digits x ++ replicate digs 0)).
  assert (Et : t = digits x ++ replicate (digs - length (digits x)) 0) by (unfold t; rewrite take_app, (take_ge (digits x)), take_replicate by lia; do 2 f_equal; lia).
  assert (Ev : of_digits t = x) by (rewrite Et, of_digits_app, of_digits_zeros, digits_ok by lia; lia).
  destruct (mont_rows_ok u (digits n) t rho (digits_range n) Hl0 Hrho Hinv) as (t' & m & E' & Hm & Em).
  - rewrite digits_ok by lia. rewrite digits_len. by apply two_n_fits.
  - rewrite Et, length_app, length_replicate. lia.
  - rewrite Et. apply Forall_app. split; [apply digits_range|apply is_digit_zeros].
  - rewrite Ev, digits_ok by lia. unfold u. rewrite Z2Nat.id by done. lia.
  - rewrite E'. cbn [mbind option_bind]. eexists. split; [reflexivity|]. rewrite Ev, digits_ok in Em by lia. unfold u in Em, Hm. rewrite Z2Nat.id in Em, Hm by done.
    by apply (montgomery_end x n m).
Qed.

(** ** The normalisation *)

Lemma double_mod_ok k a b : 0 <= a < b -> double_mod k a b = (a * 2 ^ Z.of_nat k) mod b.
Proof.
  revert a. induction k as [|k IH]; intros a Ha; cbn [double_mod]; [change (2 ^ Z.of_nat 0) with 1; rewrite Z.mul_1_r; symmetry; by apply Z.mod_small|].
  destruct (sub_once_ok (a * 2) b ltac:(lia)) as [H1 [c Hc]]. rewrite IH by done. rewrite Nat2Z.inj_succ, Z.pow_succ_r by lia.
  replace (sub_once (a * 2) b) with (a * 2 + c * b) by lia.
  replace ((a * 2 + c * b) * 2 ^ Z.of_nat k) with (a * (2 * 2 ^ Z.of_nat k) + c * 2 ^ Z.of_nat k * b) by ring. by rewrite Z_mod_plus_full.
Qed.

Lemma mp_montgomery_calc_normalization_ok b : 1 < b -> Z.odd b = true -> mp_montgomery_calc_normalization b = B ^ mp_used b mod b.
Proof.
  intros Hb Hodd. unfold mp_montgomery_calc_normalization. cbv zeta. rewrite mp_count_bits_ok, (proj2 (Z.eqb_neq b 0)) by lia.
  pose proof (Z.log2_spec b ltac:(lia)) as [Hl _]. pose proof (Z.log2_nonneg b) as Hl0. rewrite pow_B by apply used_nonneg.
  unfold mp_used. rewrite (proj2 (Z.eqb_neq b 0)) by lia. set (L := Z.log2 b) in *. rewrite Z.gtb_ltb. destruct (Z.ltb_spec 1 (L / DIGIT_BIT + 1)) as [Hq|Hq].
  - set (e := (L / DIGIT_BIT + 1 - 1) * DIGIT_BIT + (L + 1) mod DIGIT_BIT - 1).
    assert (He : 0 < e <= L /\ e + (DIGIT_BIT - ((L + 1) mod DIGIT_BIT - 1)) = (L / DIGIT_BIT + 1) * DIGIT_BIT /\ 0 <= DIGIT_BIT - ((L + 1) mod DIGIT_BIT - 1)).
    { unfold e, DIGIT_BIT in *. Z.div_mod_to_equations. lia. }
    destruct He as (He & Esum & Hk). rewrite double_mod_ok.
    + rewrite Z2Nat.id, <-Z.pow_add_r by lia. by rewrite Esum.
    + split; [apply Z.pow_nonneg; lia|]. apply Z.le_neq. split; [eapply Z.le_trans; [apply (Z.pow_le_mono_r 2 e L); lia|exact Hl]|].
      intros E. rewrite <-E in Hodd. replace e with (Z.succ (e - 1)) in Hodd by lia. by rewrite Z.pow_succ_r, Z.odd_mul in Hodd by lia.
  - assert (E0 : L / DIGIT_BIT = 0) by (unfold DIGIT_BIT in *; Z.div_mod_to_equations; lia). rewrite E0, double_mod_ok by lia.
    by rewrite Z.mul_1_l.
Qed.

(** ** Moduli just below a power of two *)

(** The passes replace [n + d], a power of two, by [d]. *)
Section Diminish.
Context (pass : Z -> Z) (n d M : Z).
Hypotheses (Hn : 0 < n) (Hd : 0 <= d) (H2d : d <= n) (Hpass : forall y, 0 <= y <= M -> pass y = y mod (n + d) + y / (n + d) * d).

Lemma pass_eq y : 0 <= y <= M -> pass y = y - y / (n + d) * n /\ 0 <= pass y <= y.
Proof.
  intros Hy. rewrite Hpass by done. pose proof (Z.div_mod y (n + d) ltac:(lia)). pose proof (Z.mod_pos_bound y (n + d) ltac:(lia)).
  assert (0 <= y / (n + d)) by (apply Z.div_pos; lia). nia.
Qed.

Lemma diminish_step fuel x : 0 <= x <= M ->
  diminish (S fuel) pass x n = Some (x mod n) \/
  exists x', diminish (S fuel) pass x n = diminish fuel pass x' n /\ 0 <= x' <= x - n /\ x' <= pass x /\ x' mod n = x mod n.
Proof.
  intros Hx. destruct (pass_eq x Hx) as [E Hr]. cbn [diminish]. destruct (Z.ltb_spec (pass x) n) as [Hlt|Hge].
  - left. f_equal. symmetry. apply mod_eq_diff; [done|lia|]. exists (x / (n + d)). lia.
  - right. exists (pass x - n). split; [done|]. split; [lia|]. split; [lia|].
    replace (pass x - n) with (x + (- (x / (n + d)) - 1) * n) by lia. by rewrite Z_mod_plus_full.
Qed.

(** Every round but the last takes the modulus off at least once. *)
Lemma diminish_near k fuel x : (k <= fuel)%nat -> 0 <= x <= M -> x < Z.of_nat k * n -> diminish fuel pass x n = Some (x mod n).
Proof.
  revert fuel x. induction k as [|k IH]; intros fuel x Hf Hx Hlt; [lia|]. destruct fuel as [|fuel]; [lia|].
  destruct (diminish_step fuel x Hx) as [E|(x' & E & Hx' & _ & Em)]; [exact E|]. rewrite E, IH, Em by lia. done.
Qed.

(** Every round halves what is above twice the power of two. *)
Lemma diminish_ok j fuel x : (j + 5 <= fuel)%nat -> 0 <= x <= M -> x < 2 * (n + d) + 2 ^ Z.of_nat j -> diminish fuel pass x n = Some (x mod n).
Proof.
  revert fuel x. induction j as [|j IH]; intros fuel x Hf Hx Hlt; (destruct fuel as [|fuel]; [lia|]).
  - destruct (diminish_step fuel x Hx) as [E|(x' & E & Hx' & _ & Em)]; [exact E|]. rewrite E, (diminish_near 4), Em by (change (2 ^ Z.of_nat 0) with 1 in Hlt; lia). done.
  - destruct (diminish_step fuel x Hx) as [E|(x' & E & Hx' & Hp & Em)]; [exact E|]. rewrite E, IH, Em; [done|lia|lia|].
    rewrite Nat2Z.inj_succ, Z.pow_succ_r in Hlt by lia. rewrite Hpass in Hp by lia.
    pose proof (Z.div_mod x (n + d) ltac:(lia)). pose proof (Z.mod_pos_bound x (n + d) ltac:(lia)). set (q := x / (n + d)) in *.
    assert (0 <= q) by (apply Z.div_pos; lia). nia.
Qed.

Lemma diminish_rounds x : 0 <= x <= M -> diminish (rounds x) pass x n = Some (x mod n).
Proof.
  intros Hx. pose proof (Z.log2_nonneg x). apply (diminish_ok (Z.to_nat (Z.log2 x + 1))); [unfold rounds; lia|done|].
  rewrite Z2Nat.id by lia. destruct (Z.eq_dec x 0) as [->|]; [lia|]. pose proof (Z.log2_spec x ltac:(lia)). rewrite Z.add_1_r. lia.
Qed.
End Diminish.

Lemma count_bits_range n : 0 < n -> 2 ^ (mp_count_bits n - 1) <= n < 2 ^ mp_count_bits n /\ 0 < mp_count_bits n.
Proof.
  intros Hn. rewrite mp_count_bits_ok, (proj2 (Z.eqb_neq n 0)) by lia. pose proof (Z.log2_spec n Hn). pose proof (Z.log2_nonneg n).
  replace (Z.log2 n + 1 - 1) with (Z.log2 n) by lia. rewrite <-Z.add_1_r in *. lia.
Qed.

Lemma half_power n : 0 < n -> 0 <= 2 ^ mp_count_bits n - n <= n.
Proof.
  intros Hn. destruct (count_bits_range n Hn) as [H1 H2]. replace (mp_count_bits n) with (Z.succ (mp_count_bits n - 1)) at 1 2 by lia.
  rewrite Z.pow_succ_r by lia. replace (mp_count_bits n) with (Z.succ (mp_count_bits n - 1)) in H1 at 2 by lia. rewrite Z.pow_succ_r in H1 by lia. lia.
Qed.

Lemma mp_reduce_2k_l_ok a n : 0 < n -> 0 <= a -> mp_reduce_2k_l a n (mp_reduce_2k_setup_l n) = Some (a mod n).
Proof.
  intros Hn Ha. unfold mp_reduce_2k_l, mp_reduce_2k_setup_l. cbv zeta. pose proof (half_power n Hn). destruct (count_bits_range n Hn) as [_ Hc].
  apply (diminish_rounds _ n (2 ^ mp_count_bits n - n) a); [done|lia|lia| |lia].
  intros y Hy. rewrite Z.land_ones, Z.shiftr_div_pow2 by lia. by replace (n + (2 ^ mp_count_bits n - n)) with (2 ^ mp_count_bits n) by lia.
Qed.

(** With one digit for the difference. *)
Lemma mp_reduce_2k_ok a n : 0 < n -> 0 <= a -> 2 ^ mp_count_bits n - n < B -> mp_reduce_2k a n (mp_reduce_2k_setup n) = Some (a mod n).
Proof.
  intros Hn Ha Hdig. unfold mp_reduce_2k, mp_reduce_2k_setup. cbv zeta. pose proof (half_power n Hn). destruct (count_bits_range n Hn) as [_ Hc].
  rewrite mp_digit_0, (Z.mod_small (2 ^ mp_count_bits n - n)) by lia.
  apply (diminish_rounds _ n (2 ^ mp_count_bits n - n) a); [done|lia|lia| |lia].
  intros y Hy. rewrite Z.land_ones, Z.shiftr_div_pow2 by lia. replace (n + (2 ^ mp_count_bits n - n)) with (2 ^ mp_count_bits n) by lia.
  destruct (Z.eqb_spec (2 ^ mp_count_bits n - n) 1) as [E|_]; cbn [negb]; [rewrite E; lia|done].
Qed.

(** ** Which modulus takes which reduction *)

Lemma ones_loop_bits k a iw j : 0 <= a -> 0 <= iw -> 0 <= j < DIGIT_BIT -> ones_loop k a iw (2 ^ j) = true ->
  forall i, 0 <= i < Z.of_nat k -> Z.testbit a (iw * DIGIT_BIT + j + i) = true.
Proof.
  intros Ha. revert iw j. induction k as [|k IH]; intros iw j Hiw Hj H i Hi; [lia|]. cbn [ones_loop] in H.
  destruct (Z.eqb_spec (Z.land (mp_digit a iw) (2 ^ j)) 0) as [|Hne]; [done|].
  assert (Hbit : Z.testbit a (iw * DIGIT_BIT + j) = true).
  { apply not_false_iff_true. intros Hf. apply Hne. apply Z.bits_inj'. intros b Hb. rewrite Z.bits_0, Z.land_spec.
    destruct (Z.eq_dec b j) as [->|Hbj]; [|rewrite (Z.pow2_bits_false j b) by done; apply andb_false_r].
    unfold mp_digit. rewrite Z.land_spec, Z.shiftr_spec by lia. rewrite (Z.add_comm j), Hf. done. }
  destruct (Z.eq_dec i 0) as [->|Hi0]; [by rewrite Z.add_0_r|]. rewrite Z.shiftl_mul_pow2, <-Z.pow_add_r in H by lia.
  unfold DIGIT_BIT in Hj. assert (Hp : 2 ^ (j + 1) < 2 ^ 32) by (apply Z.pow_lt_mono_r; lia). pose proof (Z.pow_pos_nonneg 2 (j + 1)).
  rewrite u32_small in H by (unfold is_u32; lia). rewrite Z.gtb_ltb in H. destruct (Z.ltb_spec MP_MASK (2 ^ (j + 1))) as [Hm|Hm].
  - assert (j = 27) as ->.
    { destruct (Z.eq_dec j 27); [done|]. assert (2 ^ (j + 1) <= 2 ^ 27) by (apply Z.pow_le_mono_r; lia). unfold MP_MASK, DIGIT_BIT in Hm. lia. }
    replace (iw * DIGIT_BIT + 27 + i) with ((iw + 1) * DIGIT_BIT + 0 + (i - 1)) by (unfold DIGIT_BIT; lia).
    apply IH; [lia|by vm_compute|done|lia].
  - replace (iw * DIGIT_BIT + j + i) with (iw * DIGIT_BIT + (j + 1) + (i - 1)) by lia. apply IH; [lia| |done|lia].
    split; [lia|]. unfold DIGIT_BIT. destruct (Z.eq_dec j 27) as [->|]; [by vm_compute in Hm|lia].
Qed.

(** All bits above the lowest digit are ones. *)
Lemma reduce_is_2k_ones n : 1 < mp_used n -> 0 < n -> mp_reduce_is_2k n = true ->
  DIGIT_BIT < mp_count_bits n /\ n / B = 2 ^ (mp_count_bits n - DIGIT_BIT) - 1.
Proof.
  intros Hu Hn H. destruct (count_bits_range n Hn) as [[Hc1 Hc2] Hc3]. pose proof (mp_used_range n Hn) as [Hu1 _].
  assert (Hb : DIGIT_BIT < mp_count_bits n).
  { apply (Z.pow_lt_mono_r_iff 2); [done|lia|]. eapply Z.le_lt_trans; [|exact Hc2]. etrans; [|exact Hu1].
    rewrite <-(Z.pow_1_r B) at 1. apply Z.pow_le_mono_r; [done|lia]. }
  split; [done|]. unfold mp_reduce_is_2k in H. rewrite (proj2 (Z.eqb_neq (mp_used n) 0)), (proj2 (Z.eqb_neq (mp_used n) 1)) in H by lia.
  set (k := mp_count_bits n - DIGIT_BIT) in *. pose proof (ones_loop_bits _ n 1 0 ltac:(lia) ltac:(done) ltac:(done) H) as Hbits.
  rewrite <-Z.shiftr_div_pow2 by (by vm_compute). replace (2 ^ k - 1) with (Z.ones k) by (rewrite Z.ones_equiv; lia).
  assert (Hd0 : 0 <= DIGIT_BIT) by (by vm_compute).
  apply Z.bits_inj'. intros i Hi. rewrite Z.shiftr_spec by done. destruct (Z.lt_ge_cases i k) as [Hik|Hik].
  - rewrite Z.ones_spec_low by done. replace (i + DIGIT_BIT) with (1 * DIGIT_BIT + 0 + i) by lia. apply Hbits. lia.
  - rewrite Z.ones_spec_high by lia. apply Z.bits_above_log2; [lia|]. apply Z.log2_lt_pow2; [done|].
    eapply Z.lt_le_trans; [exact Hc2|]. apply Z.pow_le_mono_r; lia.
Qed.

Lemma filter_all {A} (P : A -> Prop) `{forall x, Decision (P x)} (l : list A) : Forall P l -> base.filter P l = l.
Proof. induction 1 as [|x l Hx _ IH]; [done|]. by rewrite filter_cons_True, IH. Qed.

Lemma two_k_l_by_count n lo len : 1 < mp_used n -> 0 <= lo -> 0 <= len -> lo + len <= mp_used n -> mp_used n / 2 <= len ->
  (forall i, lo <= i < lo + len -> mp_digit n i = MP_MASK) -> mp_reduce_is_2k_l n = true.
Proof.
  intros Hu Hlo Hlen Hle Hhalf Hall. unfold mp_reduce_is_2k_l. rewrite (proj2 (Z.eqb_neq (mp_used n) 0)), (proj2 (Z.eqb_neq (mp_used n) 1)) by lia.
  rewrite Z.geb_leb. apply Z.leb_le. unfold digits.
  assert (Eseq : seqZ 0 (mp_used n) = seqZ 0 lo ++ seqZ lo len ++ seqZ (lo + len) (mp_used n - lo - len)).
  { rewrite <-(seqZ_app lo len) by lia. replace lo with (0 + lo) at 2 by lia. rewrite <-seqZ_app by lia. f_equal. lia. }
  rewrite Eseq, !map_app, !filter_app, !length_app.
  assert (Emid : length (base.filter (fun d => d = MP_MASK) (map (mp_digit n) (seqZ lo len))) = Z.to_nat len).
  { rewrite filter_all; [by rewrite length_map, length_seqZ|]. apply Forall_map, Forall_forall. intros i Hi%elem_of_seqZ. by apply Hall. }
  lia.
Qed.

Lemma dr_is_2k_l n : mp_dr_is_modulus n = true -> mp_reduce_is_2k_l n = true.
Proof.
  intros H. unfold mp_dr_is_modulus in H. destruct (Z.ltb_spec (mp_used n) 2) as [|Hu]; [done|].
  apply (two_k_l_by_count n 1 (mp_used n - 1)); [lia|done|lia|lia|Z.div_mod_to_equations; lia|]. intros i Hi.
  rewrite forallb_forall in H. apply Z.eqb_eq, H. unfold digits. replace (mp_used n) with (Z.of_nat (S (Z.to_nat (mp_used n - 1)))) by lia.
  rewrite seqZ_S. cbn [map tail]. apply in_map, list_elem_of_In, elem_of_seqZ. lia.
Qed.

Lemma is_2k_three_digits n : 0 < n -> 2 < mp_used n -> mp_reduce_is_2k n = true -> mp_reduce_is_2k_l n = true.
Proof.
  intros Hn Hu H. destruct (reduce_is_2k_ones n ltac:(lia) Hn H) as [Hb E]. pose proof (mp_used_range n Hn) as [Hu1 _].
  destruct (count_bits_range n Hn) as [[_ Hc2] _].
  apply (two_k_l_by_count n 1 (mp_used n - 2)); [lia|done|lia|lia|Z.div_mod_to_equations; lia|]. intros i Hi.
  assert (Hd0 : 0 < DIGIT_BIT) by (by vm_compute).
  assert (Hbits : (i + 1) * DIGIT_BIT <= mp_count_bits n - 1).
  { assert (B ^ (mp_used n - 1) < 2 ^ mp_count_bits n) as Hlt by lia. rewrite pow_B in Hlt by lia. apply Z.pow_lt_mono_r_iff in Hlt; [nia|done|lia]. }
  rewrite mp_digit_mod by lia. replace i with (Z.succ (i - 1)) at 1 by lia. rewrite Z.pow_succ_r, <-Z.div_div, E by (try apply pow_B_pos; lia || done).
  set (k := mp_count_bits n - DIGIT_BIT) in *. assert (Hk : i * DIGIT_BIT <= k - 1) by (unfold k; lia).
  rewrite pow_B by lia. replace (2 ^ k - 1) with (Z.ones k) by (rewrite Z.ones_equiv; lia).
  rewrite <-Z.shiftr_div_pow2 by nia. unfold MP_MASK. change (B - 1) with (Z.ones DIGIT_BIT). rewrite <-Z.land_ones by lia.
  apply Z.bits_inj'. intros b Hb'. rewrite Z.land_spec, Z.shiftr_spec by done. destruct (Z.lt_ge_cases b DIGIT_BIT) as [Hlt|Hge].
  - rewrite !Z.ones_spec_low by nia. done.
  - rewrite (Z.ones_spec_high DIGIT_BIT) by lia. apply andb_false_r.
Qed.

(** A modulus that mp_exptmod can give to mp_reduce_2k. *)
Lemma two_digit_2k n : 0 < n -> mp_used n = 2 -> mp_digit n 0 <> 0 -> mp_reduce_is_2k n = true -> 2 ^ mp_count_bits n - n < B.
Proof.
  intros Hn Hu H0 H. destruct (reduce_is_2k_ones n ltac:(lia) Hn H) as [Hb E]. rewrite mp_digit_0 in H0.
  pose proof (Z.div_mod n B ltac:(done)) as Hdm. pose proof (Z.mod_pos_bound n B ltac:(done)) as Hmod. rewrite E in Hdm.
  assert (Ep : 2 ^ mp_count_bits n = B * 2 ^ (mp_count_bits n - DIGIT_BIT)) by (rewrite <-Z.pow_add_r by (lia || by vm_compute); f_equal; lia).
  rewrite Ep. lia.
Qed.

(** ** Barrett reduction *)

Lemma back_off_ok fuel x m : 0 < m -> 0 <= x < Z.of_nat fuel * m -> back_off fuel x m = Some (x mod m).
Proof.
  intros Hm. revert x. induction fuel as [|fuel IH]; intros x Hx; [lia|]. cbn [back_off]. destruct (Z.ltb_spec x m).
  - by rewrite Z.mod_small by lia.
  - rewrite IH by lia. replace (x - m) with (x + (-1) * m) by lia. by rewrite Z_mod_plus_full.
Qed.

(** The estimate of the quotient: [b1] and [b2] are the powers shifted out,
    [e] bounds what the truncated product leaves out. *)
Lemma barrett_estimate x m mu b1 b2 q1 q3 e : 0 < b1 <= m -> 0 < b2 -> 0 <= x < b1 * b2 -> q1 = x / b1 -> mu = (b1 * b2) / m ->
  q3 * b2 <= q1 * mu < (q3 + 1 + e) * b2 -> 0 <= x - q3 * m < (e + 3) * m.
Proof.
  intros Hm Hb2 Hx Eq1 Emu Hq3. pose proof (Z.div_mod x b1 ltac:(lia)) as Hd1. pose proof (Z.mod_pos_bound x b1 ltac:(lia)) as Hm1.
  pose proof (Z.div_mod (b1 * b2) m ltac:(lia)) as Hd2. pose proof (Z.mod_pos_bound (b1 * b2) m ltac:(lia)) as Hm2. rewrite <-Eq1 in Hd1. rewrite <-Emu in Hd2.
  assert (Hq1 : 0 <= q1 < b2) by (subst q1; split; [apply Z.div_pos; lia|apply Z.div_lt_upper_bound; lia]).
  assert (Hmu : 0 <= mu <= b2) by (subst mu; split; [apply Z.div_pos; nia|apply Z.div_le_upper_bound; nia]).
  assert (HR : 0 < b1 * b2) by nia.
  split.
  - enough (q3 * m <= x) by lia. apply (Z.mul_le_mono_pos_r _ _ (b1 * b2)); [done|].
    transitivity (q1 * mu * (b1 * m)); [|]; [replace (q3 * m * (b1 * b2)) with (q3 * b2 * (b1 * m)) by ring; apply Z.mul_le_mono_nonneg_r; nia|].
    replace (q1 * mu * (b1 * m)) with ((b1 * q1) * (m * mu)) by ring. apply Z.mul_le_mono_nonneg; nia.
  - enough (x < (q3 + e + 3) * m) by lia. apply (Z.mul_lt_mono_pos_r (b1 * b2)); [done|].
    apply (Z.le_lt_trans _ ((q1 + 1) * b1 * ((mu + 1) * m))); [apply Z.mul_le_mono_nonneg; nia|].
    replace ((q1 + 1) * b1 * ((mu + 1) * m)) with ((b1 * m) * (q1 * mu + q1 + mu + 1)) by ring.
    replace ((q3 + e + 3) * m * (b1 * b2)) with ((b1 * m) * ((q3 + 1 + e) * b2 + 2 * b2)) by ring.
    apply Z.mul_lt_mono_pos_l; [nia|]. lia.
Qed.

Lemma mod_diff x y P : 0 < P -> 0 <= x - y < P -> let r := x mod P - y mod P in (if r <? 0 then r + P else r) = x - y.
Proof.
  intros HP Hxy r. assert (Er : r mod P = x - y) by (unfold r; rewrite <-Zminus_mod; by apply Z.mod_small).
  pose proof (Z.mod_pos_bound x P HP). pose proof (Z.mod_pos_bound y P HP). rewrite <-Er. destruct (Z.ltb_spec r 0).
  - symmetry. apply mod_eq_diff; [done|lia|]. exists (-1). lia.
  - symmetry. apply Z.mod_small. unfold r in *. lia.
Qed.

(** The quotient's high digits alone give an estimate that is low by at most
    the number of digits, which the last loop makes up for. *)
Lemma barrett_quotient x m mu : 0 < m -> 0 <= x < m * m -> mu = 2 ^ (mp_used m * 2 * DIGIT_BIT) / m ->
  let um := mp_used m in
  exists q e, (if um >? 2 ^ (DIGIT_BIT - 1) then Some (mp_rshd x (um - 1) * mu) else s_mp_mul_high_digs (mp_rshd x (um - 1)) mu (mp_rshd x (um - 1)) um) = Some q /\
    0 <= e <= um /\ e + 4 <= B /\ 0 <= mp_rshd q (um + 1) /\
    mp_rshd q (um + 1) * B ^ (um + 1) <= (x / B ^ (um - 1)) * mu < (mp_rshd q (um + 1) + 1 + e) * B ^ (um + 1).
Proof.
  intros Hm Hx Emu um. pose proof (used_pos m Hm) as Hum. fold um in Hum. pose proof (mp_used_range m Hm) as [Hlo Hhi]. fold um in Hlo, Hhi.
  pose proof (pow_B_pos um ltac:(lia)) as HPu. set (U := B ^ um) in *.
  assert (EU : U = B ^ (um - 1) * B) by (unfold U; rewrite <-(Z.pow_1_r B) at 3; rewrite <-Z.pow_add_r by lia; f_equal; lia).
  assert (EU1 : B ^ (um + 1) = U * B) by (by rewrite Z.pow_add_r, Z.pow_1_r by lia).
  assert (Eshift : forall v k, 0 <= k -> 0 <= v -> mp_rshd v k = v / B ^ k).
  { intros v k Hk Hv. unfold mp_rshd. destruct (Z.leb_spec k 0); [replace k with 0 by lia; by rewrite Z.pow_0_r, Z.div_1_r|].
    rewrite Z.shiftr_div_pow2 by (unfold DIGIT_BIT; lia). by rewrite pow_B. }
  assert (ER : 2 ^ (um * 2 * DIGIT_BIT) = U * U) by (unfold U; rewrite !pow_B by lia; rewrite <-Z.pow_add_r by (unfold DIGIT_BIT; lia); f_equal; lia).
  fold um in Emu. rewrite ER in Emu. rewrite Eshift by lia. set (q1 := x / B ^ (um - 1)).
  assert (Hq1 : 0 <= q1 < B ^ (um + 1)).
  { unfold q1. split; [apply Z.div_pos; lia|]. apply Z.div_lt_upper_bound; [lia|]. rewrite EU1. nia. }
  assert (Hmu : U <= mu) by (rewrite Emu; apply Z.div_le_lower_bound; nia).
  pose proof (Z.gtb_ltb um (2 ^ (DIGIT_BIT - 1))) as ->. destruct (Z.ltb_spec (2 ^ (DIGIT_BIT - 1)) um) as [Hbig|Hsmall].
  - exists (q1 * mu), 0. split; [done|]. split; [lia|]. split; [by vm_compute|]. rewrite Eshift by nia. rewrite EU1.
    pose proof (Z.div_mod (q1 * mu) (U * B) ltac:(rewrite B_val; lia)). pose proof (Z.mod_pos_bound (q1 * mu) (U * B) ltac:(rewrite B_val; lia)).
    split; [apply Z.div_pos; [nia|rewrite B_val; lia]|]. lia.
  - assert (Hused_mu : um + 1 <= mp_used mu).
    { pose proof (used_bound mu ltac:(lia)) as Hb. pose proof (used_nonneg mu). assert (B ^ um < B ^ mp_used mu) as Hlt by (fold U; lia).
      apply Z.pow_lt_mono_r_iff in Hlt; [lia|done|done]. }
    pose proof (used_le q1 (um + 1) Hq1 ltac:(lia)) as Hused_q.
    destruct (s_mp_mul_high_digs_ok q1 mu q1 um ltac:(lia) ltac:(lia) ltac:(lia) ltac:(lia) Hused_q) as (low & E & Hlow). fold U in E, Hlow.
    pose proof (high_part_ok q1 mu um ltac:(lia) ltac:(lia) ltac:(pose proof (used_nonneg q1); lia)) as Hhigh. fold U in Hhigh. rewrite EU1 in Hhigh |- *.
    pose proof (high_part_range q1 mu um ltac:(lia) ltac:(lia) ltac:(pose proof (used_nonneg q1); lia)) as [HH _]. set (H := high_part q1 mu um) in *.
    exists (low + U * H), um. split; [exact E|]. split; [lia|]. split; [unfold DIGIT_BIT in *; lia|]. rewrite Eshift by nia. rewrite EU1.
    assert (Eq3 : (low + U * H) / (U * B) = H / B).
    { rewrite <-Z.div_div by (done || lia). f_equal. rewrite (Z.mul_comm U), Z.div_add by lia. rewrite Z.div_small by lia. lia. }
    rewrite Eq3. pose proof (Z.div_mod H B ltac:(done)). pose proof (Z.mod_pos_bound H B ltac:(done)).
    split; [by apply Z.div_pos|]. set (h := H / B) in *. replace H with (B * h + H mod B) in Hhigh by lia. nia.
Qed.

Lemma mp_reduce_ok x m mu : 0 < m -> 0 <= x < m * m -> mp_reduce_setup m = Some mu -> mp_reduce x m mu = Some (x mod m).
Proof.
  intros Hm Hx Hset. unfold mp_reduce_setup in Hset. rewrite (proj2 (Z.eqb_neq m 0)) in Hset by lia. injection Hset as Emu.
  rewrite Z.quot_div_nonneg in Emu by (lia || (apply Z.pow_nonneg; lia)).
  destruct (barrett_quotient x m mu Hm Hx (eq_sym Emu)) as (q & e & E & He & HeB & Hq0 & Hq). unfold mp_reduce. cbv zeta. rewrite E. cbn [mbind option_bind].
  pose proof (used_pos m Hm) as Hum. pose proof (mp_used_range m Hm) as [Hlo Hhi]. set (um := mp_used m) in *. set (q3 := mp_rshd q (um + 1)) in *.
  assert (E2 : B ^ (um - 1) * B ^ (um + 1) = 2 ^ (um * 2 * DIGIT_BIT)) by (rewrite <-Z.pow_add_r, pow_B by lia; f_equal; lia).
  pose proof (pow_B_pos (um - 1) ltac:(lia)) as HP1. pose proof (pow_B_pos (um + 1) ltac:(lia)) as HP2.
  assert (EU : B ^ um * B ^ um = B ^ (um - 1) * B ^ (um + 1)) by (rewrite <-!Z.pow_add_r by lia; f_equal; lia).
  destruct (barrett_estimate x m mu (B ^ (um - 1)) (B ^ (um + 1)) (x / B ^ (um - 1)) q3 e) as [Hr0 Hr1]; [lia|done| |done|by rewrite E2|exact Hq|].
  { rewrite <-EU. nia. }
  assert (Hfit : (e + 3) * m < B ^ (um + 1)).
  { rewrite Z.pow_add_r, Z.pow_1_r by lia. pose proof (pow_B_pos um ltac:(lia)). nia. }
  unfold mp_mod_2d. rewrite (proj2 (Z.leb_gt _ _)) by (unfold DIGIT_BIT; lia). rewrite Z.land_ones by (unfold DIGIT_BIT; lia).
  rewrite (Z.mul_comm DIGIT_BIT), <-pow_B, s_mp_mul_digs_ok by lia. rewrite Z.shiftl_mul_pow2, Z.mul_1_l, <-pow_B by (unfold DIGIT_BIT; lia).
  pose proof (mod_diff x (q3 * m) (B ^ (um + 1)) HP2 ltac:(lia)) as Ed. cbv zeta in Ed. rewrite Ed.
  rewrite back_off_ok by (done || (split; [done|nia])). f_equal.
  replace (x - q3 * m) with (x + (- q3) * m) by lia. apply Z_mod_plus_full.
Qed.
