(* ===== verification/Exptmod.v ===== *)
(** libtommath's modular exponentiation (bn_mp_exptmod.c and its two sliding
    window versions): the result is the power for every modulus but one
    family, and for that family it is not.  The exponentiation is an instance
    of what the key exchange and the signatures ask of [mp_exptmod]. *)

From S2P Require Import Prelude Dbutil Buffer Mpint Bignum Digits Redux Kex KexHash.

Local Open Scope Z_scope.

(** ** The sliding window *)

Definition window_size (X : Z) : Z :=
  let x := mp_count_bits X in
  if x <=? 7 then 2 else if x <=? 36 then 3 else if x <=? 140 then 4 else if x <=? 450 then 5
  else if x <=? 1303 then 6 else if x <=? 3529 then 7 else 8.

(** The loop's variables: [mode], the bits of the window, their count, and
    the result so far. *)
Record window := mkwin { w_mode : Z; w_bitbuf : Z; w_bitcpy : Z; w_res : Z }.

Section Window.
Context (redux : Z -> option Z) (winsize : Z) (M1 : Z) (M : list Z).

(** [n] times [res = redux(res * res)]; [None]: a reduction does not return. *)
Fixpoint square_times (n : nat) (res : Z) : option Z :=
  match n with
  | O => Some res
  | S n => res ← redux (res * res); square_times n res
  end.

(** [M[x]], kept from [1 << (winsize - 1)] on. *)
Definition table (x : Z) : Z := nth (Z.to_nat (x - 2 ^ (winsize - 1))) M 0.

(** One bit [y] of the exponent. *)
Definition window_bit (y : Z) (w : window) : option window :=
  if (w_mode w =? 0) && (y =? 0) then Some w
  else if (w_mode w =? 1) && (y =? 0) then
    res ← square_times 1 (w_res w);
    Some (mkwin (w_mode w) (w_bitbuf w) (w_bitcpy w) res)
  else
    let bitcpy := w_bitcpy w + 1 in
    let bitbuf := Z.lor (w_bitbuf w) (Z.shiftl y (winsize - bitcpy)) in
    if bitcpy =? winsize then
      res ← square_times (Z.to_nat winsize) (w_res w);
      res ← redux (res * table bitbuf);
      Some (mkwin 1 0 0 res)
    else Some (mkwin 2 bitbuf bitcpy (w_res w)).

(** The bits of a digit, from the top. *)
Fixpoint digit_bits (n : nat) (buf : Z) (w : window) : option window :=
  match n with
  | O => Some w
  | S n =>
      let y := Z.land (Z.shiftr buf (DIGIT_BIT - 1)) 1 in
      let buf := u32 (Z.shiftl buf 1) in
      w ← window_bit y w;
      digit_bits n buf w
  end.

(** The digits of the exponent, from the top. *)
Fixpoint window_loop (ds : list Z) (w : window) : option window :=
  match ds with
  | [] => Some w
  | d :: ds => w ← digit_bits (Z.to_nat DIGIT_BIT) d w; window_loop ds w
  end.

(** The bits that are left in the window. *)
Fixpoint last_bits (n : nat) (bitbuf res : Z) : option Z :=
  match n with
  | O => Some res
  | S n =>
      res ← redux (res * res);
      let bitbuf := Z.shiftl bitbuf 1 in
      res ← (if negb (Z.land bitbuf (Z.shiftl 1 winsize) =? 0) then redux (res * M1) else Some res);
      last_bits n bitbuf res
  end.

Definition window_power (X one : Z) : option Z :=
  w ← window_loop (rev (digits X)) (mkwin 0 0 0 one);
  if (w_mode w =? 2) && (w_bitcpy w >? 0) then last_bits (Z.to_nat (w_bitcpy w)) (w_bitbuf w) (w_res w)
  else Some (w_res w).
End Window.

(** [M[x] = redux(M[x - 1] * M[1])] for the [n] entries after the first. *)
Fixpoint upper_table (redux : Z -> option Z) (n : nat) (M1 m : Z) : option (list Z) :=
  match n with
  | O => Some [m]
  | S n => m' ← redux (m * M1); cons m <$> upper_table redux n M1 m'
  end.

(** The table and the loop, as both functions have them. *)
Definition exptmod_with (redux : Z -> option Z) (X M1 one : Z) : option Z :=
  let winsize := window_size X in
  top ← square_times redux (Z.to_nat (winsize - 1)) M1;
  M ← upper_table redux (Z.to_nat (2 ^ (winsize - 1) - 1)) M1 top;
  window_power redux winsize M1 M X one.

(** The outer [None]: the function does not return; the inner: MP_VAL. *)
Definition s_mp_exptmod (G X P redmode : Z) : option (option Z) :=
  match (if redmode =? 0 then
           option_map (fun mu x => mp_reduce x P mu) (mp_reduce_setup P)
         else Some (fun x => mp_reduce_2k_l x P (mp_reduce_2k_setup_l P))) with
  | None => Some None
  | Some redux =>
      match mp_mod G P with
      | None => Some None
      | Some M1 => Some <$> exptmod_with redux X M1 1
      end
  end.

Definition mp_exptmod_fast (G X P redmode : Z) : option (option Z) :=
  match (if redmode =? 0 then
           option_map (fun rho x => if comba_fits P then Some (fast_mp_montgomery_reduce x P rho) else mp_montgomery_reduce x P rho)
             (mp_montgomery_setup P)
         else if redmode =? 1 then Some (fun x => mp_dr_reduce x P (mp_dr_setup P))
         else Some (fun x => mp_reduce_2k x P (mp_reduce_2k_setup P))) with
  | None => Some None
  | Some redux =>
      let one := if redmode =? 0 then mp_montgomery_calc_normalization P else 1 in
      match (if redmode =? 0 then mp_mulmod G one P else mp_mod G P) with
      | None => Some None
      | Some M1 =>
          res ← exptmod_with redux X M1 one;
          if redmode =? 0 then Some <$> redux res else Some (Some res)
      end
  end.

(** mp_exptmod for an exponent that is not negative. *)
Definition exptmod_pos (G X P : Z) : option (option Z) :=
  if mp_reduce_is_2k_l P then s_mp_exptmod G X P 1
  else
    let dr := if mp_dr_is_modulus P then 1 else 0 in
    let dr := if dr =? 0 then Z.shiftl (if mp_reduce_is_2k P then 1 else 0) 1 else dr in
    if mp_isodd P || negb (dr =? 0) then mp_exptmod_fast G X P dr
    else s_mp_exptmod G X P 0.

(** The call with a negative exponent calls itself with a positive one. *)
Definition ltm_exptmod {S} (G X P : Z) : prog S (option Z) := fun s =>
  if P <? 0 then Ok (None, s)
  else
    let run G X := match exptmod_pos G X P with Some r => Ok (r, s) | None => Fault "mp_exptmod does not return" end in
    if X <? 0 then
      match mp_invmod G P s with
      | Ok (Some tmpG, s) => run tmpG (Z.abs X)
      | Ok (None, s) => Ok (None, s)
      | Exit m => Exit m
      | Fault m => Fault m
      end
    else run G X.

(** The exponentiation under the interface of the key exchange. *)
Definition libtommath_exptmod : ExptMod :=
  {| mp_exptmod G X P := match ltm_exptmod G X P tt with Ok (r, _) => r | _ => None end |}.

Example exptmod_small : map (fun '(g, x, p) => exptmod_pos g x p) [(3, 200, 1009); (7, 10 ^ 30, 2 ^ 89 - 1); (5, 123456789, 10 ^ 40); (5, 1234, 3 * 2 ^ 28 + 5)] =
  [Some (Some (3 ^ 200 mod 1009)); Some (Some (pow_mod 7 (Z.to_pos (10 ^ 30)) (2 ^ 89 - 1))); Some (Some (pow_mod 5 123456789 (10 ^ 40)));
   Some (Some (5 ^ 1234 mod (3 * 2 ^ 28 + 5)))].
Proof. vm_compute. reflexivity. Qed.

(** The reduction is set up with a difference of zero. *)
Example exptmod_wrong : exptmod_pos (2 ^ 15) 2 (3 * 2 ^ 28) = Some (Some 0) /\ (2 ^ 15) ^ 2 mod (3 * 2 ^ 28) = 2 ^ 28.
Proof. by vm_compute. Qed.

(** ** The sliding window computes a power *)

(** A reduction of products of reduced numbers: it multiplies by [K] modulo
    [P], 1 for a plain reduction, the inverse of [B^used] for Montgomery's. *)
Section Power.
Context (redux : Z -> option Z) (P K : Z).
Hypotheses (HP : 0 < P) (Hredux : forall z, 0 <= z < P * P -> exists r, redux z = Some r /\ 0 <= r < P /\ (P | r - z * K)).

(** [r] stands for [v]. *)
Definition rep (r v : Z) : Prop := 0 <= r < P /\ (P | r * K - v).

Lemma rep_mul x y a b : rep x a -> rep y b -> exists r, redux (x * y) = Some r /\ rep r (a * b).
Proof.
  intros [Hx [c Hc]] [Hy [d Hd]]. destruct (Hredux (x * y) ltac:(nia)) as (r & E & Hr & e & He). exists r. split; [exact E|]. split; [exact Hr|].
  exists (e * K + c * (y * K) + a * d). replace r with (x * y * K + e * P) by lia.
  transitivity ((x * K) * (y * K) - a * b + e * K * P); [ring|]. replace (x * K) with (a + c * P) by lia.
  transitivity (a * (y * K) - a * b + (c * (y * K) + e * K) * P); [ring|]. replace (a * (y * K)) with (a * (b + d * P)) by (f_equal; lia). ring.
Qed.

Lemma square_times_ok n res a : rep res a -> exists r, square_times redux n res = Some r /\ rep r (a ^ 2 ^ Z.of_nat n).
Proof.
  revert res a. induction n as [|n IH]; intros res a Hres; cbn [square_times].
  - exists res. split; [done|]. by rewrite Z.pow_1_r.
  - destruct (rep_mul res res a a Hres Hres) as (r & E & Hr). rewrite E. cbn [mbind option_bind].
    destruct (IH r _ Hr) as (r' & E' & Hr'). exists r'. split; [exact E'|].
    rewrite Nat2Z.inj_succ, Z.pow_succ_r, Z.pow_mul_r, Z.pow_2_r by lia. exact Hr'.
Qed.

Lemma upper_table_ok n M1 m g j : rep M1 g -> rep m (g ^ j) -> 0 <= j ->
  exists M, upper_table redux n M1 m = Some M /\ forall i, (i <= n)%nat -> rep (nth i M 0) (g ^ (j + Z.of_nat i)).
Proof.
  intros HM1. revert m j. induction n as [|n IH]; intros m j Hm Hj; cbn [upper_table].
  - exists [m]. split; [done|]. intros i Hi. replace i with 0%nat by lia. by rewrite Z.add_0_r.
  - destruct (rep_mul m M1 _ _ Hm HM1) as (r & E & Hr). rewrite E. cbn [mbind option_bind].
    rewrite Z.mul_comm, <-Z.pow_succ_r, <-Z.add_1_r in Hr by done. destruct (IH r (j + 1) Hr ltac:(lia)) as (M & EM & HM). rewrite EM.
    exists (m :: M). split; [done|]. intros [|i] Hi; cbn [nth]; [by rewrite Z.add_0_r|].
    replace (j + Z.of_nat (S i)) with (j + 1 + Z.of_nat i) by lia. apply HM. lia.
Qed.

Context (ws M1 g : Z) (M : list Z).
Hypotheses (Hws : 2 <= ws) (HM1 : rep M1 g) (HM : forall x, 2 ^ (ws - 1) <= x < 2 ^ ws -> rep (table ws M x) (g ^ x)).

(** What the loop has done for the first bits of the exponent, the number
    [v]: the result holds the power without the bits in the window. *)
Definition window_inv (w : window) (v : Z) : Prop :=
  (w_mode w = 0 /\ w_bitbuf w = 0 /\ w_bitcpy w = 0 /\ v = 0 /\ rep (w_res w) 1) \/
  (w_mode w = 1 /\ w_bitbuf w = 0 /\ w_bitcpy w = 0 /\ 0 <= v /\ rep (w_res w) (g ^ v)) \/
  (w_mode w = 2 /\ 0 < w_bitcpy w < ws /\ exists u t, 0 <= u /\ v = u * 2 ^ w_bitcpy w + t /\
     2 ^ (w_bitcpy w - 1) <= t < 2 ^ w_bitcpy w /\ w_bitbuf w = t * 2 ^ (ws - w_bitcpy w) /\ rep (w_res w) (g ^ u)).

Lemma lor_bit t y k : 0 <= t -> 0 <= k -> y = 0 \/ y = 1 -> Z.lor (t * 2 ^ (k + 1)) (Z.shiftl y k) = (2 * t + y) * 2 ^ k.
Proof.
  intros Ht Hk Hy. rewrite Z.add_1_r, Z.pow_succ_r by done. replace (t * (2 * 2 ^ k)) with ((2 * t) * 2 ^ k) by ring.
  rewrite <-!Z.shiftl_mul_pow2, <-Z.shiftl_lor by done. f_equal. destruct Hy as [-> | ->]; [by rewrite Z.lor_0_r, Z.add_0_r|]. by destruct t.
Qed.

(** A bit that starts or extends a window. *)
Lemma window_extend w y u t c : w_bitcpy w = c -> 0 <= c < ws -> 0 <= u -> 0 <= t < 2 ^ c -> (0 < c -> 2 ^ (c - 1) <= t) -> (c = 0 -> y = 1) -> y = 0 \/ y = 1 ->
  w_bitbuf w = t * 2 ^ (ws - c) -> rep (w_res w) (g ^ u) ->
  exists w', (let bitcpy := w_bitcpy w + 1 in
    let bitbuf := Z.lor (w_bitbuf w) (Z.shiftl y (ws - bitcpy)) in
    if bitcpy =? ws then
      res ← square_times redux (Z.to_nat ws) (w_res w);
      res ← redux (res * table ws M bitbuf);
      Some (mkwin 1 0 0 res)
    else Some (mkwin 2 bitbuf bitcpy (w_res w))) = Some w' /\ window_inv w' (2 * (u * 2 ^ c + t) + y).
Proof.
  intros Ec Hc Hu Ht Htop Hfirst Hy Hbuf Hres. cbv zeta. rewrite Ec, Hbuf. replace (ws - c) with (ws - (c + 1) + 1) by lia. rewrite lor_bit by (done || lia).
  assert (E2 : 2 ^ (c + 1) = 2 * 2 ^ c) by (by rewrite Z.add_1_r, Z.pow_succ_r by lia).
  assert (Hrange : 2 ^ c <= 2 * t + y < 2 ^ (c + 1)).
  { destruct (Z.eq_dec c 0) as [->|Hne]; [change (2 ^ 0) with 1 in *; change (2 ^ (0 + 1)) with 2; specialize (Hfirst eq_refl); lia|].
    rewrite E2. replace c with (Z.succ (c - 1)) at 1 by lia. rewrite Z.pow_succ_r by lia. pose proof (Htop ltac:(lia)). lia. }
  destruct (Z.eqb_spec (c + 1) ws) as [Ews|Hne].
  - rewrite Ews, Z.sub_diag, Z.pow_0_r, Z.mul_1_r. destruct (square_times_ok (Z.to_nat ws) (w_res w) _ Hres) as (r & E & Hr). rewrite E. cbn [mbind option_bind].
    rewrite Z2Nat.id in Hr by lia. rewrite Ews in Hrange. destruct (rep_mul r (table ws M (2 * t + y)) _ _ Hr (HM (2 * t + y) ltac:(replace (ws - 1) with c by lia; lia))) as (r' & E' & Hr').
    rewrite E'. cbn [mbind option_bind]. eexists. split; [reflexivity|]. right. left. cbn. split_and!; try done; [pose proof (Z.pow_pos_nonneg 2 c); nia|].
    rewrite <-Z.pow_mul_r, <-Z.pow_add_r in Hr' by lia. replace (2 * (u * 2 ^ c + t) + y) with (u * 2 ^ ws + (2 * t + y)) by (rewrite <-Ews, E2; ring). exact Hr'.
  - eexists. split; [reflexivity|]. right. right. cbn. split; [done|]. split; [lia|]. exists u, (2 * t + y). replace (c + 1 - 1) with c by lia.
    split_and!; try done; try lia.
Qed.

Lemma window_bit_ok y w v : y = 0 \/ y = 1 -> window_inv w v -> exists w', window_bit redux ws M y w = Some w' /\ window_inv w' (2 * v + y).
Proof.
  intros Hy Hw. unfold window_bit. destruct Hw as [(Em & Eb & Ec & Ev & Hres)|[(Em & Eb & Ec & Hv & Hres)|(Em & Hc & u & t & Hu & Ev & Ht & Eb & Hres)]]; rewrite Em; cbn [Z.eqb Pos.eqb andb].
  - destruct (Z.eqb_spec y 0) as [->|Hne].
    + exists w. split; [done|]. left. by subst v.
    + subst v. destruct (window_extend w y 0 0 0) as (w' & E & Hw'); try done; try lia. by exists w'.
  - destruct (Z.eqb_spec y 0) as [->|Hne].
    + destruct (square_times_ok 1 (w_res w) _ Hres) as (r & E & Hr). rewrite E. cbn [mbind option_bind]. eexists. split; [reflexivity|]. right. left.
      cbn. split_and!; try done; [lia|]. rewrite <-Z.pow_mul_r in Hr by lia. change (2 ^ Z.of_nat 1) with 2 in Hr. by replace (2 * v + 0) with (v * 2) by lia.
    + destruct (window_extend w y v 0 0) as (w' & E & Hw'); try done; try lia. exists w'. split; [exact E|].
      by replace (v * 2 ^ 0 + 0) with v in Hw' by (rewrite Z.pow_0_r; lia).
  - pose proof (Z.pow_pos_nonneg 2 (w_bitcpy w - 1)). destruct (window_extend w y u t (w_bitcpy w)) as (w' & E & Hw'); try done; try lia. exists w'. split; [exact E|]. by subst v.
Qed.

Lemma split_bits buf : buf mod 2 ^ 28 = (buf mod 2 ^ 28) / 2 ^ 27 * 2 ^ 27 + buf mod 2 ^ 27.
Proof.
  pose proof (Z.div_mod (buf mod 2 ^ 28) (2 ^ 27) ltac:(done)) as H. rewrite Z.mod_mod_divide in H by (by exists 2). lia.
Qed.

Lemma top_bit buf : (buf / 2 ^ 27) mod 2 = (buf mod 2 ^ 28) / 2 ^ 27.
Proof.
  change (2 ^ 28) with (2 ^ 27 * 2). rewrite Z.rem_mul_r, (Z.mul_comm (2 ^ 27)), Z.div_add by done.
  by rewrite (Z.div_small (buf mod 2 ^ 27)) by (by apply Z.mod_pos_bound).
Qed.

Lemma next_bits buf : (buf * 2) mod 2 ^ 32 mod 2 ^ 28 = 2 * (buf mod 2 ^ 27).
Proof.
  rewrite Z.mod_mod_divide by (by exists 16). change (2 ^ 28) with (2 ^ 27 * 2). rewrite Z.mul_mod_distr_r by done. lia.
Qed.

Lemma digit_bits_ok n buf w v : (n <= 28)%nat -> 0 <= buf -> window_inv w v ->
  exists w', digit_bits redux ws M n buf w = Some w' /\ window_inv w' (v * 2 ^ Z.of_nat n + (buf mod 2 ^ 28) / 2 ^ (28 - Z.of_nat n)).
Proof.
  revert buf w v. induction n as [|n IH]; intros buf w v Hn Hbuf Hw; cbn [digit_bits].
  - exists w. split; [done|]. pose proof (Z.mod_pos_bound buf (2 ^ 28) ltac:(done)). rewrite (Z.div_small (buf mod 2 ^ 28)) by exact H. change (2 ^ Z.of_nat 0) with 1. by replace (v * 1 + 0) with v by lia.
  - set (y := Z.land _ 1). assert (Ey : y = (buf mod 2 ^ 28) / 2 ^ 27).
    { unfold y. change 1 with (Z.ones 1). rewrite Z.land_ones, Z.shiftr_div_pow2, Z.pow_1_r by done. apply (top_bit buf). }
    assert (Hy : y = 0 \/ y = 1) by (rewrite Ey; pose proof (Z.mod_pos_bound buf (2 ^ 28) ltac:(done)); Z.div_mod_to_equations; lia).
    destruct (window_bit_ok y w v Hy Hw) as (w1 & E1 & Hw1). rewrite E1. cbn [mbind option_bind].
    destruct (IH (u32 (Z.shiftl buf 1)) w1 (2 * v + y)) as (w2 & E2 & Hw2); [lia|apply u32_range|done|]. exists w2. split; [exact E2|].
    enough (Eq : (2 * v + y) * 2 ^ Z.of_nat n + (u32 (Z.shiftl buf 1) mod 2 ^ 28) / 2 ^ (28 - Z.of_nat n) =
      v * 2 ^ Z.of_nat (S n) + (buf mod 2 ^ 28) / 2 ^ (28 - Z.of_nat (S n))) by (by rewrite <-Eq).
    assert (El : u32 (Z.shiftl buf 1) mod 2 ^ 28 = 2 * (buf mod 2 ^ 27)).
    { unfold u32. rewrite Z.shiftl_mul_pow2, Z.pow_1_r by done. apply next_bits. }
    assert (Es : buf mod 2 ^ 28 = y * 2 ^ 27 + buf mod 2 ^ 27) by (rewrite Ey; apply split_bits).
    rewrite El, Es, Nat2Z.inj_succ, Z.pow_succ_r by lia. set (k := Z.of_nat n) in *. replace (28 - Z.succ k) with (27 - k) by lia.
    replace (28 - k) with (1 + (27 - k)) by lia. rewrite Z.pow_add_r, <-Z.div_div, Z.pow_1_r by (try apply Z.pow_pos_nonneg; lia). rewrite (Z.mul_comm 2 (buf mod 2 ^ 27)), Z.div_mul by done.
    replace (y * 2 ^ 27 + buf mod 2 ^ 27) with (y * 2 ^ k * 2 ^ (27 - k) + buf mod 2 ^ 27) by (rewrite <-Z.mul_assoc, <-Z.pow_add_r by lia; do 3 f_equal; lia).
    rewrite Z.div_add_l by (apply Z.pow_nonzero; lia). ring.
Qed.

Lemma window_loop_ok ds w v : Forall is_digit ds -> window_inv w v ->
  exists w', window_loop redux ws M ds w = Some w' /\ window_inv w' (v * B ^ zlen ds + of_digits (rev ds)).
Proof.
  intros Hds. revert w v. induction Hds as [|d ds Hd Hds IH]; intros w v Hw; cbn [window_loop rev].
  - exists w. split; [done|]. change (B ^ zlen (@nil Z)) with 1. cbn [of_digits]. by replace (v * 1 + 0) with v by lia.
  - unfold is_digit in Hd. destruct (digit_bits_ok (Z.to_nat DIGIT_BIT) d w v ltac:(by apply Nat.le_refl) ltac:(lia) Hw) as (w1 & E1 & Hw1).
    rewrite E1. cbn [mbind option_bind]. change (Z.of_nat (Z.to_nat DIGIT_BIT)) with 28 in Hw1. change (28 - 28) with 0 in Hw1. rewrite Z.pow_0_r, Z.div_1_r, Z.mod_small in Hw1 by exact Hd.
    destruct (IH w1 _ Hw1) as (w2 & E2 & Hw2). exists w2. split; [exact E2|].
    rewrite of_digits_app. cbn [of_digits]. assert (Ez : zlen (d :: ds) = Z.succ (zlen ds)) by (unfold zlen; cbn [length]; lia).
    assert (Er : zlen (rev ds) = zlen ds) by (unfold zlen; by rewrite length_rev). rewrite Ez, Er, Z.pow_succ_r by apply zlen_nonneg.
    replace (v * (B * B ^ zlen ds) + (of_digits (rev ds) + B ^ zlen ds * (d + B * 0))) with ((v * 2 ^ 28 + d) * B ^ zlen ds + of_digits (rev ds)); [exact Hw2|].
    change (2 ^ 28) with B. ring.
Qed.

Lemma last_bits_ok n bitbuf res u t : (Z.of_nat n <= ws) -> 0 <= bitbuf -> 0 <= u -> 0 <= t < 2 ^ Z.of_nat n -> bitbuf mod 2 ^ ws = t * 2 ^ (ws - Z.of_nat n) ->
  rep res (g ^ u) -> exists r, last_bits redux ws M1 n bitbuf res = Some r /\ rep r (g ^ (u * 2 ^ Z.of_nat n + t)).
Proof.
  revert bitbuf res u t. induction n as [|n IH]; intros bitbuf res u t Hn Hb Hu Ht Eb Hres; cbn [last_bits]; cbv zeta.
  { change (2 ^ Z.of_nat 0) with 1 in *. exists res. split; [done|]. by replace (u * 1 + t) with u by lia. }
  destruct (rep_mul res res _ _ Hres Hres) as (r & E & Hr). rewrite E. cbn [mbind option_bind]. rewrite <-Z.pow_add_r in Hr by done.
  set (k := Z.of_nat n). assert (Ek : Z.of_nat (S n) = k + 1) by (unfold k; lia). rewrite Ek in *. rewrite Z.pow_add_r, Z.pow_1_r in Ht by lia.
  assert (Ep : 2 ^ ws = 2 ^ (ws - 1) * 2) by (rewrite <-(Z.pow_1_r 2) at 3; rewrite <-Z.pow_add_r by lia; f_equal; lia).
  assert (Ek2 : 2 ^ (ws - 1) = 2 ^ k * 2 ^ (ws - (k + 1))) by (rewrite <-Z.pow_add_r by lia; f_equal; lia).
  pose proof (Z.pow_pos_nonneg 2 k ltac:(done) ltac:(lia)) as HK. pose proof (Z.pow_pos_nonneg 2 (ws - (k + 1)) ltac:(done) ltac:(lia)) as HL.
  set (b := t / 2 ^ k). set (t' := t mod 2 ^ k). pose proof (Z.div_mod t (2 ^ k) ltac:(lia)) as Edm. fold b t' in Edm.
  assert (Ht' : 0 <= t' < 2 ^ k) by (by apply Z.mod_pos_bound). assert (Hbit : b = 0 \/ b = 1) by nia.
  assert (Esplit : bitbuf = (bitbuf / 2 ^ ws * 2 + b) * 2 ^ (ws - 1) + t' * 2 ^ (ws - (k + 1))).
  { pose proof (Z.div_mod bitbuf (2 ^ ws) ltac:(lia)) as Ed. rewrite Eb in Ed. rewrite Ed at 1. rewrite Ep, Ek2. rewrite Edm at 1. ring. }
  set (hi := bitbuf / 2 ^ ws) in *. assert (Hlow : 0 <= t' * 2 ^ (ws - (k + 1)) < 2 ^ (ws - 1)) by (rewrite Ek2; nia).
  assert (Etest : (Z.land (Z.shiftl bitbuf 1) (Z.shiftl 1 ws) =? 0) = (b =? 0)).
  { assert (Et : Z.testbit bitbuf (ws - 1) = (b =? 1)).
    - rewrite Esplit, Z.testbit_eqb by lia. rewrite Z.div_add_l by lia. rewrite (Z.div_small (t' * _)) by done. rewrite Z.add_0_r.
      rewrite Z.add_comm, Z_mod_plus_full. by destruct Hbit as [-> | ->].
    - rewrite Z.shiftl_1_l. destruct Hbit as [Hb0|Hb0]; rewrite Hb0 in *; cbn [Z.eqb Pos.eqb] in *.
      + apply Z.eqb_eq, Z.bits_inj'. intros i Hi. rewrite Z.land_spec, Z.bits_0, Z.pow2_bits_eqb by lia. destruct (Z.eqb_spec ws i) as [<-|]; [|apply andb_false_r].
        rewrite Z.shiftl_spec by lia. by rewrite Et.
      + apply Z.eqb_neq. intros Hz. apply (f_equal (fun x => Z.testbit x ws)) in Hz. rewrite Z.land_spec, Z.bits_0, Z.pow2_bits_true, Z.shiftl_spec, Et in Hz by lia. done. }
  rewrite Etest.
  assert (Hnext : exists r', (if negb (b =? 0) then redux (r * M1) else Some r) = Some r' /\ rep r' (g ^ (u + u + b))).
  { destruct Hbit as [Hb0|Hb0]; rewrite Hb0; cbn [negb Z.eqb].
    - exists r. split; [done|]. by rewrite Z.add_0_r.
    - destruct (rep_mul r M1 _ _ Hr HM1) as (r' & E' & Hr'). exists r'. split; [exact E'|]. by rewrite Z.pow_add_r, Z.pow_1_r by lia. }
  destruct Hnext as (r' & E' & Hr'). rewrite E'. cbn [mbind option_bind].
  destruct (IH (Z.shiftl bitbuf 1) r' (u + u + b) t') as (r2 & E2 & Hr2); [lia|by apply Z.shiftl_nonneg|lia|exact Ht'| |exact Hr'|].
  - rewrite Z.shiftl_mul_pow2, Z.pow_1_r by done. fold k. rewrite Esplit.
    replace (((hi * 2 + b) * 2 ^ (ws - 1) + t' * 2 ^ (ws - (k + 1))) * 2) with (t' * 2 ^ (ws - (k + 1)) * 2 + (hi * 2 + b) * 2 ^ ws) by (rewrite Ep; ring).
    rewrite Z_mod_plus_full, Z.mod_small by (rewrite Ep; lia). replace (ws - k) with (ws - (k + 1) + 1) by lia. rewrite (Z.pow_add_r 2 _ 1), Z.pow_1_r by lia. ring.
  - exists r2. split; [exact E2|]. fold k in Hr2. replace (u * 2 ^ (k + 1) + t) with ((u + u + b) * 2 ^ k + t'); [exact Hr2|].
    rewrite Edm, Z.pow_add_r, Z.pow_1_r by lia. ring.
Qed.

Lemma window_power_ok X one : 0 <= X -> rep one 1 -> exists r, window_power redux ws M1 M X one = Some r /\ rep r (g ^ X).
Proof.
  intros HX Hone. unfold window_power.
  destruct (window_loop_ok (rev (digits X)) (mkwin 0 0 0 one) 0) as (w & E & Hw); [by apply Forall_rev, digits_range|by left|].
  rewrite rev_involutive, digits_ok, Z.mul_0_l, Z.add_0_l in Hw by done. rewrite E. cbn [mbind option_bind].
  destruct Hw as [(Em & _ & _ & Ev & Hres)|[(Em & _ & _ & Hv & Hres)|(Em & Hc & u & t & Hu & Ev & Ht & Eb & Hres)]]; rewrite Em; cbn [Z.eqb Pos.eqb andb].
  - exists (w_res w). split; [done|]. by rewrite Ev.
  - by exists (w_res w).
  - rewrite Z.gtb_ltb, (proj2 (Z.ltb_lt _ _)) by lia. pose proof (Z.pow_pos_nonneg 2 (ws - w_bitcpy w) ltac:(done) ltac:(lia)).
    pose proof (Z.pow_pos_nonneg 2 (w_bitcpy w - 1) ltac:(done) ltac:(lia)).
    destruct (last_bits_ok (Z.to_nat (w_bitcpy w)) (w_bitbuf w) (w_res w) u t) as (r & E' & Hr); rewrite ?Z2Nat.id in * by lia; [lia|rewrite Eb; nia|done|lia| |done|].
    + rewrite Eb. apply Z.mod_small. split; [nia|]. replace ws with (w_bitcpy w + (ws - w_bitcpy w)) at 2 by lia. rewrite Z.pow_add_r by lia. nia.
    + exists r. split; [exact E'|]. by rewrite Ev.
Qed.
End Power.

Lemma window_size_range X : 2 <= window_size X <= 8.
Proof. unfold window_size. repeat (case_match; [lia|]). lia. Qed.

Lemma exptmod_with_ok redux P K X M1 one g : 0 < P -> (forall z, 0 <= z < P * P -> exists r, redux z = Some r /\ 0 <= r < P /\ (P | r - z * K)) ->
  0 <= X -> rep P K M1 g -> rep P K one 1 -> exists r, exptmod_with redux X M1 one = Some r /\ rep P K r (g ^ X).
Proof.
  intros HP Hr HX HM1 Hone. unfold exptmod_with. cbv zeta. pose proof (window_size_range X) as Hws. set (ws := window_size X) in *.
  destruct (square_times_ok redux P K HP Hr (Z.to_nat (ws - 1)) M1 g HM1) as (top & E & Htop). rewrite E. cbn [mbind option_bind]. rewrite Z2Nat.id in Htop by lia.
  pose proof (Z.pow_pos_nonneg 2 (ws - 1) ltac:(done) ltac:(lia)) as Hpos.
  destruct (upper_table_ok redux P K HP Hr (Z.to_nat (2 ^ (ws - 1) - 1)) M1 top g (2 ^ (ws - 1)) HM1 Htop ltac:(lia)) as (M & EM & HM). rewrite EM. cbn [mbind option_bind].
  apply (window_power_ok redux P K HP Hr ws M1 g M ltac:(lia) HM1); [|done|done].
  intros x Hx. unfold table. assert (E2 : 2 ^ ws = 2 * 2 ^ (ws - 1)) by (rewrite <-Z.pow_succ_r by lia; f_equal; lia).
  replace x with (2 ^ (ws - 1) + Z.of_nat (Z.to_nat (x - 2 ^ (ws - 1)))) at 2 by lia. apply HM. lia.
Qed.

(** ** The two functions *)

Lemma rep_one P r v : 0 < P -> rep P 1 r v -> r = v mod P.
Proof. intros HP [Hr [c Hc]]. symmetry. apply mod_eq_diff; [done|done|]. exists (- c). lia. Qed.

Lemma rep_mod P v : 0 < P -> rep P 1 (v mod P) v.
Proof. intros HP. split; [by apply Z.mod_pos_bound|]. exists (- (v / P)). pose proof (Z.div_mod v P). lia. Qed.

(** With a reduction that returns the remainder. *)
Lemma exptmod_plain redux G X P : 1 < P -> 0 <= X -> (forall z, 0 <= z < P * P -> redux z = Some (z mod P)) ->
  exptmod_with redux X (G mod P) 1 = Some (G ^ X mod P).
Proof.
  intros HP HX Hr. destruct (exptmod_with_ok redux P 1 X (G mod P) 1 G) as (r & E & Hrep).
  - lia.
  - intros z Hz. exists (z mod P). split; [by apply Hr|]. split; [apply Z.mod_pos_bound; lia|]. exists (- (z / P)). pose proof (Z.div_mod z P). lia.
  - done.
  - apply rep_mod. lia.
  - split; [lia|]. by exists 0.
  - rewrite E. f_equal. apply rep_one; [lia|done].
Qed.

Lemma s_mp_exptmod_2k_l G X P : 1 < P -> 0 <= X -> s_mp_exptmod G X P 1 = Some (Some (G ^ X mod P)).
Proof.
  intros HP HX. unfold s_mp_exptmod. cbn [Z.eqb Pos.eqb]. rewrite mp_mod_ok by lia. rewrite exptmod_plain; [done|done|done|].
  intros z Hz. apply mp_reduce_2k_l_ok; lia.
Qed.

Lemma s_mp_exptmod_barrett G X P : 1 < P -> 0 <= X -> s_mp_exptmod G X P 0 = Some (Some (G ^ X mod P)).
Proof.
  intros HP HX. unfold s_mp_exptmod. cbn [Z.eqb]. destruct (mp_reduce_setup P) as [mu|] eqn:E.
  - cbn [option_map]. rewrite mp_mod_ok by lia. rewrite exptmod_plain; [done|done|done|]. intros z Hz. apply mp_reduce_ok; (done || lia).
  - unfold mp_reduce_setup in E. by rewrite (proj2 (Z.eqb_neq P 0)) in E by lia.
Qed.

Lemma mp_exptmod_fast_2k G X P : 1 < P -> 0 <= X -> 2 ^ mp_count_bits P - P < B -> mp_exptmod_fast G X P 2 = Some (Some (G ^ X mod P)).
Proof.
  intros HP HX Hd. unfold mp_exptmod_fast. cbn [Z.eqb Pos.eqb]. rewrite mp_mod_ok by lia. rewrite exptmod_plain; [done|done|done|].
  intros z Hz. apply mp_reduce_2k_ok; (done || lia).
Qed.

(** Powers of two are invertible modulo an odd number. *)
Lemma pow2_inverse P k : Z.odd P = true -> 0 <= k -> exists K, (P | 2 ^ k * K - 1).
Proof.
  intros Hodd Hk. pattern k. apply natlike_ind; [by exists 1, 0| |done]. clear k Hk. intros k Hk [K [c Hc]]. rewrite Z.pow_succ_r by done.
  destruct (Z.odd K) eqn:E.
  - assert (Ee : Z.odd (K + P) = false) by (by rewrite Z.odd_add, E, Hodd). apply even_split in Ee as [h Hh]. exists h, (c + 2 ^ k). nia.
  - apply even_split in E as [h Hh]. exists h, c. nia.
Qed.

Lemma mp_exptmod_fast_montgomery G X P : 1 < P -> 0 <= X -> Z.odd P = true -> mp_exptmod_fast G X P 0 = Some (Some (G ^ X mod P)).
Proof.
  intros HP HX Hodd. unfold mp_exptmod_fast. cbn [Z.eqb]. destruct (mp_montgomery_setup_ok P Hodd) as (rho & E & Hrho & Hinv). rewrite E. cbn [option_map].
  rewrite mp_montgomery_calc_normalization_ok, mp_mulmod_ok by (done || lia). set (R := B ^ mp_used P).
  pose proof (used_nonneg P) as Hu. pose proof (used_bound P ltac:(lia)) as HPR. fold R in HPR.
  destruct (pow2_inverse P (mp_used P * DIGIT_BIT) Hodd ltac:(unfold DIGIT_BIT; lia)) as [K [c Hc]]. rewrite <-pow_B in Hc by done. fold R in Hc.
  set (redux := fun x => if comba_fits P then _ else _).
  assert (Hredux : forall z, 0 <= z < P * R -> exists r, redux z = Some r /\ 0 <= r < P /\ (P | r - z * K)).
  { intros z Hz. assert (Hm : exists r, redux z = Some r /\ montgomery_of z P r).
    - unfold redux. destruct (comba_fits P) eqn:Ec; [|apply mp_montgomery_reduce_ok; (done || lia)]. eexists. split; [reflexivity|].
      apply andb_true_iff in Ec as [_ Ec%Z.ltb_lt]. apply fast_mp_montgomery_reduce_ok; (done || lia).
    - destruct Hm as (r & Er & Hr & d & Hd). fold R in Hd. exists r. split; [done|]. split; [done|]. exists (d * K - c * r).
      replace (r - z * K) with ((r * R - z) * K - r * (R * K - 1)) by ring. rewrite Hd, Hc. ring. }
  assert (Hrep : forall v, (P | v - v mod P)) by (intros v; apply mod_divide_diff; lia).
  destruct (exptmod_with_ok redux P K X ((G * (R mod P)) mod P) (R mod P) G) as (r & Er & Hr & d & Hd).
  - lia.
  - intros z Hz. apply Hredux. nia.
  - done.
  - split; [apply Z.mod_pos_bound; lia|]. destruct (Hrep (G * (R mod P))) as [e He]. destruct (Hrep R) as [e' He']. exists (G * c - e * K - G * e' * K).
    replace ((G * (R mod P)) mod P) with (G * (R mod P) - e * P) by lia. replace (R mod P) with (R - e' * P) by lia.
    transitivity (G * (R * K - 1) - e * P * K - G * e' * P * K); [ring|]. rewrite Hc. ring.
  - split; [apply Z.mod_pos_bound; lia|]. destruct (Hrep R) as [e He]. exists (c - e * K). replace (R mod P) with (R - e * P) by lia.
    transitivity (R * K - 1 - e * P * K); [ring|]. rewrite Hc. ring.
  - rewrite Er. cbn [mbind option_bind]. destruct (Hredux r ltac:(nia)) as (r' & Er' & Hr' & e & He). change (Some <$> redux r = Some (Some (G ^ X mod P))). rewrite Er'. cbn.
    do 2 f_equal. symmetry. apply mod_eq_diff; [lia|done|]. exists (- d - e). lia.
Qed.

(** The moduli for which [mp_reduce_2k] is given a difference that is not
    zero: all but those of two digits with the lower one zero. *)
Lemma exptmod_pos_ok G X P : 0 <= X -> 1 < P -> sound_modulus P -> exptmod_pos G X P = Some (Some (G ^ X mod P)).
Proof.
  intros HX HP Hsound. unfold exptmod_pos. destruct (mp_reduce_is_2k_l P) eqn:El; [by apply s_mp_exptmod_2k_l|].
  pose proof (used_pos P ltac:(lia)) as Hu. assert (Hu1 : mp_used P <> 1).
  { intros E1. unfold mp_reduce_is_2k_l in El. by rewrite E1 in El. }
  destruct (mp_dr_is_modulus P) eqn:Ed; [by rewrite (dr_is_2k_l P Ed) in El|]. cbn [Z.eqb]. destruct (mp_reduce_is_2k P) eqn:E2.
  - cbn [Z.shiftl Z.eqb negb]. change (Z.shiftl 1 1) with 2. rewrite orb_true_r. destruct (Z.le_gt_cases (mp_used P) 2) as [Hle|Hgt].
    + apply mp_exptmod_fast_2k; [done|done|]. assert (Eu : mp_used P = 2) by lia. apply two_digit_2k; [lia|done| |done]. rewrite mp_digit_0.
      destruct Hsound as [Hs|Hs]; [exact Hs|]. pose proof (used_bound P ltac:(lia)) as Hb. rewrite Eu in Hb. change (B ^ 2) with (2 ^ 56) in Hb. lia.
    + by rewrite (is_2k_three_digits P) in El by (done || lia).
  - cbn [Z.shiftl Z.eqb negb]. change (Z.shiftl 0 1) with 0. cbn [Z.eqb negb]. rewrite orb_false_r. rewrite isodd_ok. destruct (Z.odd P) eqn:Eo.
    + by apply mp_exptmod_fast_montgomery.
    + by apply s_mp_exptmod_barrett.
Qed.

Lemma ltm_exptmod_ok {S} G X P (s : S) : 0 <= X -> 1 < P -> sound_modulus P -> ltm_exptmod G X P s = Ok (Some (G ^ X mod P), s).
Proof.
  intros HX HP Hs. unfold ltm_exptmod. rewrite (proj2 (Z.ltb_ge P 0)), (proj2 (Z.ltb_ge X 0)) by lia. by rewrite exptmod_pos_ok.
Qed.

#[export] Program Instance libtommath_exptmod_laws : @ExptModLaws libtommath_exptmod.
Next Obligation. intros G X P HG HX HP Hs. cbn [mp_exptmod libtommath_exptmod]. by rewrite (ltm_exptmod_ok G X P tt). Qed.

(** ** Properties *)

(** C13: Mp_exptmod returns, with the power: for a modulus that is not two
    digits with the lower digit zero (every odd one, and every one of 57 bits
    or more), whatever the reduction and the window it chooses; for a
    negative exponent, the power of an inverse. *)
Theorem mp_exptmod_is_power {S} (G X P : Z) (s : S) : 0 <= G -> 1 < P -> sound_modulus P ->
  (0 <= X -> ltm_exptmod G X P s = Ok (Some (G ^ X mod P), s)) /\
  (X < 0 -> Z.gcd G P = 1 -> exists H, 0 <= H /\ (H * G) mod P = 1 /\ ltm_exptmod G X P s = Ok (Some (H ^ (- X) mod P), s)).
Proof.
  intros HG HP Hs. split; [intros HX; by apply ltm_exptmod_ok|]. intros HX Hgcd.
  destruct (mp_invmod_coprime G P s HP HG Hgcd) as (c & E & Hc & Hinv). exists c. split; [done|]. split; [done|].
  unfold ltm_exptmod. rewrite (proj2 (Z.ltb_ge P 0)), (proj2 (Z.ltb_lt X 0)), E by lia.
  rewrite exptmod_pos_ok by (done || lia). by rewrite Z.abs_neq by lia.
Qed.

Lemma mp_exptmod_is_power_witness :
  ltm_exptmod 5 (10 ^ 20) (2 ^ 61 - 1) tt = Ok (Some (5 ^ (10 ^ 20) mod (2 ^ 61 - 1)), tt) /\
  exists H, 0 <= H /\ (H * 7) mod 1000 = 1 /\ ltm_exptmod 7 (-3) 1000 tt = Ok (Some (H ^ 3 mod 1000), tt).
Proof.
  split.
  - apply (mp_exptmod_is_power 5 (10 ^ 20) (2 ^ 61 - 1) tt); [lia|lia|left; by vm_compute|lia].
  - apply (mp_exptmod_is_power 7 (-3) 1000 tt); [lia|lia|left; by vm_compute|lia|by vm_compute].
Defined.

(** C14: The reductions: Montgomery's, with the constant of its set-up and
    through columns of 64-bit words that never overflow or through rows of
    digits, divides by [B^used] modulo an odd modulus; Barrett's, from a
    product that leaves out its low columns, and the reduction modulo a number
    below a power of two return the remainder. *)
Theorem reductions_correct (x n : Z) : 1 < n -> 0 <= x < n * n ->
  (Z.odd n = true -> exists rho r, mp_montgomery_setup n = Some rho /\ mp_montgomery_reduce x n rho = Some r /\
     0 <= r < n /\ (r * B ^ mp_used n) mod n = x mod n) /\
  (exists mu, mp_reduce_setup n = Some mu /\ mp_reduce x n mu = Some (x mod n)) /\
  mp_reduce_2k_l x n (mp_reduce_2k_setup_l n) = Some (x mod n).
Proof.
  intros Hn Hx. split; [|split].
  - intros Hodd. destruct (mp_montgomery_setup_ok n Hodd) as (rho & E & Hrho & Hinv). pose proof (used_bound n ltac:(lia)).
    destruct (mp_montgomery_reduce_ok x n rho ltac:(lia) Hrho Hinv ltac:(nia)) as (r & Er & Hr & c & Hc). exists rho, r. split_and!; try done; try lia.
    replace (r * B ^ mp_used n) with (x + c * n) by lia. apply Z_mod_plus_full.
  - destruct (mp_reduce_setup n) as [mu|] eqn:E.
    + exists mu. split; [done|]. apply mp_reduce_ok; (done || lia).
    + unfold mp_reduce_setup in E. by rewrite (proj2 (Z.eqb_neq n 0)) in E by lia.
  - apply mp_reduce_2k_l_ok; lia.
Qed.

Lemma reductions_correct_witness :
  (exists mu, mp_reduce_setup (10 ^ 30) = Some mu /\ mp_reduce (10 ^ 55 + 7) (10 ^ 30) mu = Some ((10 ^ 55 + 7) mod 10 ^ 30)) /\
  exists rho r, mp_montgomery_setup (10 ^ 30 + 57) = Some rho /\ mp_montgomery_reduce (10 ^ 59) (10 ^ 30 + 57) rho = Some r /\
    0 <= r < 10 ^ 30 + 57 /\ (r * B ^ mp_used (10 ^ 30 + 57)) mod (10 ^ 30 + 57) = (10 ^ 59) mod (10 ^ 30 + 57).
Proof.
  split.
  - apply (reductions_correct (10 ^ 55 + 7) (10 ^ 30)); lia.
  - apply (reductions_correct (10 ^ 59) (10 ^ 30 + 57)); [lia|lia|by vm_compute].
Defined.


