(* ===== verification/KexNegotiate.v ===== *)
(** The negotiation of a key exchange: what send_msg_kexinit puts into a KEXINIT
    message, what read_kex_algos takes from one, and what recv_msg_kexinit
    leaves behind.  A client and a server that have read each other's KEXINIT
    hold mirrored algorithms and the same start of the exchange hash. *)

From S2P Require Import Prelude Dbutil Buffer Mpint Ssh Algo Queue Cipher Hmac Packet MdHash Sha1 Hashes Kex KexKeys KexHash.

Local Open Scope Z_scope.
Local Open Scope prog_scope.

(** ** A KEXINIT message *)

(** The lists of names in a message; dropbear sends one list for both
    directions. *)
Record offer := mkoffer {
  of_kex : list (list Z); of_hostkey : list (list Z); of_cipher : list (list Z); of_mac : list (list Z); of_comp : list (list Z) }.

Definition name_list (ns : list (list Z)) : list Z := store32h (zlen (comma_list ns)) ++ comma_list ns.

(** Everything after the message number. *)
Definition kexinit_lists (o : offer) (follows : bool) : list Z :=
  name_list (of_kex o) ++ name_list (of_hostkey o) ++ name_list (of_cipher o) ++ name_list (of_cipher o) ++
  name_list (of_mac o) ++ name_list (of_mac o) ++ name_list (of_comp o) ++ name_list (of_comp o) ++
  store32h 0 ++ store32h 0 ++ [if follows then 1 else 0] ++ store32h 0.
Definition kexinit_payload (cookie : list Z) (o : offer) (follows : bool) : list Z :=
  [SSH_MSG_KEXINIT] ++ cookie ++ kexinit_lists o follows.

(** The tables of one side. *)
Record tables := mktables {
  tb_kex : list (algo_type algo_data); tb_hostkey : list (algo_type algo_data); tb_cipher : list (algo_type algo_data);
  tb_mac : list (algo_type algo_data); tb_comp : list (algo_type algo_data) }.

Definition offer_of (t : tables) : offer :=
  mkoffer (usable_names (tb_kex t)) (usable_names (tb_hostkey t)) (usable_names (tb_cipher t)) (usable_names (tb_mac t))
    (usable_names (tb_comp t)).

Definition tables_ok (t : tables) : Prop :=
  offer_ok (tb_kex t) /\ offer_ok (tb_hostkey t) /\ offer_ok (tb_cipher t) /\ offer_ok (tb_mac t) /\ offer_ok (tb_comp t).

Definition tables_of {K St Zs R} (s : kses K St Zs R) : tables :=
  mktables (cf_sshkex (x_cfg s)) (cf_sshhostkey (x_cfg s)) (cf_sshciphers (x_cfg s)) (cf_sshhashes (x_cfg s)) (x_compress_algos s).

(** ** What a side picks from the other's names *)

Definition pick (server : bool) (ours : list (algo_type algo_data)) (names : list (list Z)) : option (algo_type algo_data) :=
  match match_names server ours (wire_names names) with
  | Some (i, j) => zget ours (if server then j else i)
  | None => None
  end.

Definition guess_ok (server : bool) (ours : list (algo_type algo_data)) (names : list (list Z)) (k : kexguess2_used) : bool :=
  match match_names server ours (wire_names names) with Some (i, j) => good_guess k i j | None => false end.

(** The choice for every list. *)
Record choice := mkchoice {
  ch_kex : algo_type algo_data; ch_hostkey : algo_type algo_data; ch_cipher : algo_type algo_data;
  ch_mac : algo_type algo_data; ch_comp : algo_type algo_data }.

Definition picks (server : bool) (t : tables) (o : offer) (c : choice) : Prop :=
  pick server (tb_kex t) (of_kex o) = Some (ch_kex c) /\ pick server (tb_hostkey t) (of_hostkey o) = Some (ch_hostkey c) /\
  pick server (tb_cipher t) (of_cipher o) = Some (ch_cipher c) /\ pick server (tb_mac t) (of_mac o) = Some (ch_mac c) /\
  pick server (tb_comp t) (of_comp o) = Some (ch_comp c).

(** The name of the kexguess2 extension is looked for among the others' key
    exchange names. *)
Definition guess2 (o : offer) : kexguess2_used := look_kexguess2 (wire_names (of_kex o)) KEXGUESS2_LOOK.
Definition allgood (server : bool) (t : tables) (o : offer) : bool :=
  guess_ok server (tb_kex t) (of_kex o) (guess2 o) && guess_ok server (tb_hostkey t) (of_hostkey o) (guess2 o).

Lemma offer_names (l : list (algo_type algo_data)) : offer_ok l ->
  Forall (fun n => (0 ∉ n) /\ (comma ∉ n)) (usable_names l) /\ zlen (usable_names l) < MAX_PROPOSED_ALGO /\
  zlen (comma_list (usable_names l)) <= MAX_PROPOSED_ALGO * (MAX_NAME_LEN + 1) /\ zlen l <= MAX_PROPOSED_ALGO.
Proof.
  intros (Hl & Hn & Hc). pose proof (zlen_usable l). unfold MAX_PROPOSED_ALGO, MAX_NAME_LEN in *. split_and!; try lia.
  eapply Forall_impl; [by apply usable_ok|]. by intros n (_ & ? & ? & _).
Qed.

Section Negotiate.
Context {K St Zs R : Type} `{SignKeyLaws K R} `{CipherStart St} `{RandomLaws R} `{RandomMp R} `{ExptMod}.
Abbreviation kses := (kses K St Zs R).
Implicit Types (s : kses) (pre post : list Z).

(** ** Sending *)

Lemma twp_wp {A} (m : prog buffer A) (Q : A -> kses -> Prop) s :
  twp m (fun a b => Q a (set_x_writepayload b s)) (x_writepayload s) -> twp (on_wp m) Q s.
Proof. intros Hm. by apply twp_zoom. Qed.

Lemma twp_put_algolist (l : list (algo_type algo_data)) b pre room (Q : unit -> buffer -> Prop) :
  offer_ok l -> buf_repr b pre [] room -> 164 <= room ->
  (forall b', buf_repr b' (pre ++ name_list (usable_names l)) [] (room - zlen (name_list (usable_names l))) -> Q tt b') ->
  twp (buf_put_algolist l) Q b.
Proof.
  intros Hl Hb Hr HQ. destruct (buf_put_algolist_ok l b pre room Hl Hb) as (b' & E & Hb'); [destruct Hl as (_ & _ & ?); lia|].
  eapply twp_ok; [exact E|]. apply HQ. unfold name_list. rewrite zlen_app, zlen_store32h.
  by replace (room - (4 + zlen (comma_list (usable_names l)))) with (room - 4 - zlen (comma_list (usable_names l))) by lia.
Qed.

Lemma name_list_len (l : list (algo_type algo_data)) : offer_ok l -> zlen (name_list (usable_names l)) <= 164 /\ 0 <= zlen (name_list (usable_names l)).
Proof.
  intros (_ & _ & Hc). unfold name_list. rewrite zlen_app, zlen_store32h. pose proof (zlen_nonneg (comma_list (usable_names l))). lia.
Qed.

(** The packet leaves and the payload buffer is empty again. *)
Lemma encrypt_packet_out s b pkt room (Q : unit -> kses -> Prop) :
  x_writepayload s = b -> buf_repr b pkt [] room ->
  (forall b', buf_repr b' [] [] (room + zlen pkt) ->
     Q tt (set_x_writepayload b' (set_x_sent (x_sent s ++ [pkt]) s))) ->
  twp encrypt_packet Q s.
Proof.
  intros Eb Hb HQ. unfold encrypt_packet. twp_steps. rewrite Eb.
  destruct (br_data _ _ _ _ Hb) as (rest & Hd & Hrest). cbn [app] in Hd.
  assert (Epkt : ztake (b_len b) (b_data b) = pkt) by (rewrite Hd, (br_len _ _ _ _ Hb); change (zlen (@nil Z)) with 0; rewrite Z.add_0_r; apply ztake_app_zlen).
  rewrite Epkt. destruct (repr_rewind b pkt [] room Hb) as (b1 & E1 & Hb1).
  apply twp_wp. cbn [x_writepayload set_x_sent]. rewrite Eb. eapply twp_ok; [exact E1|].
  apply twp_wp. cbn [x_writepayload set_x_writepayload].
  destruct (repr_setlen b1 [] (pkt ++ []) room 0 Hb1) as (b2 & ext & E2 & Hb2 & _).
  { change (zlen (@nil Z)) with 0. pose proof (br_size _ _ _ _ Hb1). pose proof (br_room _ _ _ _ Hb1). pose proof (zlen_nonneg (pkt ++ [])). zlia. }
  eapply twp_ok; [exact E2|]. change (0 - zlen (@nil Z)) with 0 in Hb2. rewrite ztake_0 in Hb2.
  assert (Esz : b_size b1 - 0 = room + zlen pkt) by (rewrite (br_size _ _ _ _ Hb1), app_nil_r; change (zlen (@nil Z)) with 0; lia).
  rewrite Esz in Hb2. exact (HQ b2 Hb2).
Qed.

(** The session after its own KEXINIT, before a first guess. *)
Definition kexinit_sent s (b t : buffer) (pkt : list Z) (r : R) : kses :=
  set_x_newkeys (Some zero_kc) (set_x_kexstate (set_ks_sentkexinit true (x_kexstate s)) (set_x_dataallowed false
    (set_x_writepayload b (set_x_sent (x_sent s ++ [pkt]) (set_x_transkexinit (Some t) (set_x_random r s)))))).

Lemma send_msg_kexinit_ok s room (Q : unit -> kses -> Prop) :
  tables_ok (tables_of s) -> buf_repr (x_writepayload s) [] [] room -> 1400 <= room ->
  (let '(cookie, r) := genrandom 16 (x_random s) in
   let pkt := kexinit_payload cookie (offer_of (tables_of s)) (cf_first_guess (x_cfg s)) in
   forall b t, buf_repr b [] [] room -> buf_repr t [] pkt 0 ->
     twp (when (cf_first_guess (x_cfg s))
            (match cf_sshkex (x_cfg s), cf_sshhostkey (x_cfg s) with
             | k :: _, h :: _ =>
                 mod_newkeys (set_kc_algo_kex (al_val k)) ;;; mod_newkeys (set_kc_algo_hostkey (al_val h)) ;;; send_msg_kexdh_init
             | _, _ => fault "algorithm array read out of bounds"
             end)) Q (kexinit_sent s b t pkt r)) ->
  twp send_msg_kexinit Q s.
Proof.
  intros (Hkex & Hhk & Hci & Hma & Hco) Hb Hroom HQ. cbn [tables_of tb_kex tb_hostkey tb_cipher tb_mac tb_comp] in Hkex, Hhk, Hci, Hma, Hco.
  destruct (name_list_len _ Hkex) as [L1 P1]. destruct (name_list_len _ Hhk) as [L2 P2]. destruct (name_list_len _ Hci) as [L3 P3].
  destruct (name_list_len _ Hma) as [L4 P4]. destruct (name_list_len _ Hco) as [L5 P5].
  destruct (genrandom_ok 16 (x_random s) ltac:(lia)) as [Hcl Hcb].
  destruct (genrandom 16 (x_random s)) as [cookie r] eqn:Er. cbn [fst] in Hcl, Hcb. cbv zeta in HQ.
  unfold send_msg_kexinit, cfg.
  apply twp_bind, twp_wp. eapply append_putbyte; [exact Hb|by vm_compute|lia|]. intros b1 Hb1. cbn [app] in Hb1.
  apply twp_bind, twp_wp. cbn [x_writepayload set_x_writepayload].
  assert (Eg : buf_getwriteptr 16 b1 = Ok (b_pos b1, b1)) by (eapply repr_getwriteptr; [exact Hb1|change (zlen (@nil Z)) with 0; lia]).
  eapply twp_ok; [exact Eg|]. apply twp_bind.
  eapply (twp_ok (random_bytes 16)); [unfold random_bytes; cbn [x_random set_x_writepayload]; rewrite Er; reflexivity|].
  destruct (repr_write b1 _ [] _ cookie Hb1 Hcb) as (b1' & b2 & E1 & E2 & Hb2); [rewrite Hcl; zlia|].
  rewrite Hcl in E2, Hb2. rewrite append_post, append_room in Hb2 by lia.
  apply twp_bind, twp_wp. cbn [x_writepayload set_x_writepayload set_x_random]. eapply twp_ok; [exact E1|].
  apply twp_bind, twp_wp. cbn [x_writepayload set_x_writepayload set_x_random]. eapply twp_ok; [exact E2|].
  apply twp_bind, twp_gets, twp_bind, twp_wp. cbn [x_writepayload set_x_writepayload set_x_random x_cfg].
  eapply twp_put_algolist; [exact Hkex|exact Hb2|lia|]. intros b3 Hb3.
  apply twp_bind, twp_gets, twp_bind, twp_wp. cbn [x_writepayload set_x_writepayload set_x_random x_cfg].
  eapply twp_put_algolist; [exact Hhk|exact Hb3|lia|]. intros b4 Hb4.
  apply twp_bind, twp_gets, twp_bind, twp_wp. cbn [x_writepayload set_x_writepayload set_x_random x_cfg].
  eapply twp_put_algolist; [exact Hci|exact Hb4|lia|]. intros b5 Hb5.
  apply twp_bind, twp_wp. cbn [x_writepayload set_x_writepayload set_x_random x_cfg].
  eapply twp_put_algolist; [exact Hci|exact Hb5|lia|]. intros b6 Hb6.
  apply twp_bind, twp_gets, twp_bind, twp_wp. cbn [x_writepayload set_x_writepayload set_x_random x_cfg].
  eapply twp_put_algolist; [exact Hma|exact Hb6|lia|]. intros b7 Hb7.
  apply twp_bind, twp_wp. cbn [x_writepayload set_x_writepayload set_x_random x_cfg].
  eapply twp_put_algolist; [exact Hma|exact Hb7|lia|]. intros b8 Hb8.
  apply twp_bind, twp_gets, twp_bind, twp_wp. cbn [x_writepayload set_x_writepayload set_x_random x_cfg x_compress_algos].
  eapply twp_put_algolist; [exact Hco|exact Hb8|lia|]. intros b9 Hb9.
  apply twp_bind, twp_wp. cbn [x_writepayload set_x_writepayload set_x_random x_cfg].
  eapply twp_put_algolist; [exact Hco|exact Hb9|lia|]. intros b10 Hb10.
  apply twp_bind, twp_wp. cbn [x_writepayload set_x_writepayload set_x_random x_cfg].
  eapply (append_putstring b10 _ _ []); [exact Hb10|reflexivity|constructor|lia|]. intros b11 Hb11.
  apply twp_bind, twp_wp. cbn [x_writepayload set_x_writepayload set_x_random x_cfg].
  eapply (append_putstring b11 _ _ []); [exact Hb11|reflexivity|constructor|lia|]. intros b12 Hb12.
  apply twp_bind, twp_gets, twp_bind, twp_wp. cbn [x_writepayload set_x_writepayload set_x_random x_cfg].
  eapply append_putbyte; [exact Hb12|by destruct (cf_first_guess (x_cfg s))|lia|]. intros b13 Hb13.
  apply twp_bind, twp_wp. cbn [x_writepayload set_x_writepayload set_x_random x_cfg].
  eapply append_putint; [exact Hb13|lia|]. intros b14 Hb14.
  set (pkt := kexinit_payload cookie (offer_of (tables_of s)) (cf_first_guess (x_cfg s))) in HQ.
  match type of Hb14 with buf_repr _ ?l _ ?n =>
    assert (Epkt : l = pkt) by (unfold pkt, kexinit_payload, kexinit_lists; rewrite <-!app_assoc; reflexivity);
    assert (Eroom : n = room - zlen pkt)
  end.
  { rewrite <-Epkt, !zlen_app, Hcl. change (zlen [if cf_first_guess (x_cfg s) then 1 else 0]) with 1.
    change (zlen [SSH_MSG_KEXINIT]) with 1. rewrite !zlen_store32h. change (zlen (@nil Z)) with 0. lia. }
  rewrite Epkt, Eroom in Hb14. apply twp_bind, twp_gets. cbn [x_writepayload set_x_writepayload].
  destruct (repr_newcopy b14 _ _ _ (set_x_writepayload b14 (set_x_random r s)) Hb14) as (t & Et & Ht). rewrite app_nil_r in Ht.
  apply twp_bind. eapply twp_ok; [exact Et|]. apply twp_bind, twp_modify.
  apply twp_bind. eapply encrypt_packet_out; [reflexivity|exact Hb14|]. intros b15 Hb15.
  replace (room - zlen pkt + zlen pkt) with room in Hb15 by lia.
  unfold kexst. do 3 apply twp_bind, twp_modify. exact (HQ b15 t Hb15 Ht).
Qed.

(** ** Reading *)

Lemma repr_getbool b pre v post room : buf_repr b pre (v :: post) room ->
  exists b', buf_getbool b = Ok (if v =? 0 then 0 else 1, b') /\ buf_repr b' (pre ++ [v]) post room.
Proof.
  intros Hb. destruct (repr_getbyte b pre v post room Hb) as (b' & E & Hb'). exists b'. split; [|done].
  unfold buf_getbool. rewrite (bind_ok _ _ _ _ _ E). unfold ret. destruct (Z.eqb_spec v 0); [by subst|done].
Qed.

Lemma twp_payload {A} (m : prog buffer A) (Q : A -> kses -> Prop) s b a pre' post' room :
  x_payload s = Some b -> (exists b', m b = Ok (a, b') /\ buf_repr b' pre' post' room) ->
  (forall b', buf_repr b' pre' post' room -> Q a (set_x_payload (Some b') s)) -> twp (on_payload m) Q s.
Proof. unfold twp, on_payload, on_ref. intros -> (b' & -> & Hb') HQ. by apply HQ. Qed.

(** Lists of names as a peer may send them. *)
Definition names_ok (ns : list (list Z)) : Prop :=
  Forall (fun n => (0 ∉ n) /\ (comma ∉ n)) ns /\ zlen ns < MAX_PROPOSED_ALGO /\ zlen (comma_list ns) <= MAX_PROPOSED_ALGO * (MAX_NAME_LEN + 1).
Definition offer_wf (o : offer) : Prop :=
  names_ok (of_kex o) /\ names_ok (of_hostkey o) /\ names_ok (of_cipher o) /\ names_ok (of_mac o) /\ names_ok (of_comp o).
Definition tables_small (t : tables) : Prop :=
  zlen (tb_kex t) <= MAX_PROPOSED_ALGO /\ zlen (tb_hostkey t) <= MAX_PROPOSED_ALGO /\ zlen (tb_cipher t) <= MAX_PROPOSED_ALGO /\
  zlen (tb_mac t) <= MAX_PROPOSED_ALGO /\ zlen (tb_comp t) <= MAX_PROPOSED_ALGO.

Lemma twp_match server (ours : list (algo_type algo_data)) names k g b pre post room (Q : _ -> kses -> Prop) s :
  x_payload s = Some b -> names_ok names -> zlen ours <= MAX_PROPOSED_ALGO -> buf_repr b pre (name_list names ++ post) room ->
  (forall b', buf_repr b' (pre ++ name_list names) post room ->
     Q (match_result server ours (wire_names names) k g) (set_x_payload (Some b') s)) ->
  twp (on_payload (buf_match_algo server ours k g)) Q s.
Proof.
  intros Eb (Hn & Hc & Hl) Ho Hb HQ. unfold name_list in Hb. rewrite <-app_assoc in Hb.
  eapply twp_payload; [exact Eb|exact (buf_match_algo_ok server ours names k g b pre post room Hn Hc Hl Ho Hb)|exact HQ].
Qed.

Lemma match_result_pick server (ours : list (algo_type algo_data)) names k g :
  match_result server ours (wire_names names) (Some k) (Some g) =
    (pick server ours names, Some (look_kexguess2 (wire_names names) k), Some (guess_ok server ours names (look_kexguess2 (wire_names names) k))).
Proof. unfold match_result, pick, guess_ok. by destruct (match_names server ours (wire_names names)) as [[i j]|]. Qed.

Lemma match_algo_ok algos what names a b pre post room (Q : algo_type algo_data -> kses -> Prop) s :
  x_payload s = Some b -> names_ok names -> zlen algos <= MAX_PROPOSED_ALGO -> buf_repr b pre (name_list names ++ post) room ->
  pick (negb (cf_isclient (x_cfg s))) algos names = Some a ->
  (forall b', buf_repr b' (pre ++ name_list names) post room -> Q a (set_x_payload (Some b') s)) ->
  twp (match_algo algos what) Q s.
Proof.
  intros Eb Hn Ha Hb Hp HQ. unfold match_algo, cfg. apply twp_bind, twp_gets, twp_bind.
  eapply twp_match; [exact Eb|exact Hn|exact Ha|exact Hb|]. intros b' Hb'.
  assert (E : fst (fst (match_result (negb (cf_isclient (x_cfg s))) algos (wire_names names) None None)) = Some a).
  { rewrite <-Hp. unfold match_result, pick. by destruct (match_names _ _ _) as [[i j]|]. }
  rewrite E. exact (HQ b' Hb').
Qed.

(** The keys of a negotiated exchange, before they are derived. *)
Definition chosen_kd (c : choice) : key_context_directional St Zs :=
  mkkd (as_cipher (ch_cipher c)) (as_mode (ch_cipher c)) (as_hash (ch_mac c)) 0 (al_val (ch_comp c)) None None
    (replicate (Z.to_nat MAX_MAC_LEN) 0) false.
Definition chosen (c : choice) : key_context St Zs :=
  mkkc (chosen_kd c) (chosen_kd c) (al_val (ch_kex c)) (al_val (ch_hostkey c)) false.

(** What reading a KEXINIT changes besides the payload's position. *)
Definition negotiated s (c : choice) (follows good : bool) : kses :=
  let ks := x_kexstate s in
  let ks := if follows then set_ks_them_firstfollows true ks else ks in
  let ks := if cf_first_guess (x_cfg s) && good then set_ks_our_first_follows_matches true ks else ks in
  set_x_newkeys (Some (chosen c)) (set_x_ignorenext (if follows && negb good then true else x_ignorenext s) (set_x_kexstate ks s)).

Lemma twp_newkeys_mod f nk (Q : unit -> kses -> Prop) s :
  x_newkeys s = Some nk -> Q tt (set_x_newkeys (Some (f nk)) s) -> twp (mod_newkeys f) Q s.
Proof. intros E HQ. unfold mod_newkeys. apply twp_bind, (twp_newkeys nk); [exact E|exact HQ]. Qed.

Lemma look_kexguess2_idem x y : look_kexguess2 x (look_kexguess2 y KEXGUESS2_LOOK) = look_kexguess2 y KEXGUESS2_LOOK.
Proof. unfold look_kexguess2. by case_bool_decide. Qed.

Lemma read_kex_algos_ok s b pre cookie o follows nk room c (Q : unit -> kses -> Prop) :
  x_payload s = Some b -> buf_repr b pre (cookie ++ kexinit_lists o follows) room -> zlen cookie = 16 ->
  x_newkeys s = Some nk -> offer_wf o -> tables_small (tables_of s) ->
  let server := negb (cf_isclient (x_cfg s)) in
  picks server (tables_of s) o c -> al_val (ch_kex c) <> KEXGUESS2_ALGO_ID ->
  (forall b', buf_repr b' (pre ++ cookie ++ kexinit_lists o follows) [] room ->
     Q tt (set_x_payload (Some b') (negotiated s c follows (allgood server (tables_of s) o)))) ->
  twp read_kex_algos Q s.
Proof.
  intros Eb Hb Hcl Hnk (Wk & Wh & Wc & Wm & Wz) (Sk & Sh & Sc & Sm & Sz) server (Pk & Ph & Pc & Pm & Pz) Hval HQ.
  cbn [tables_of tb_kex tb_hostkey tb_cipher tb_mac tb_comp] in Sk, Sh, Sc, Sm, Sz, Pk, Ph, Pc, Pm, Pz.
  unfold read_kex_algos, cfg. apply twp_bind, twp_gets.
  apply twp_bind. eapply twp_payload; [exact Eb|exact (repr_incrpos b pre cookie _ room 16 (eq_sym Hcl) Hb)|]. intros b1 Hb1.
  apply twp_bind. eapply twp_newkeys_mod; [exact Hnk|]. unfold kexinit_lists in Hb1.
  apply twp_bind, twp_gets. cbn [x_cfg set_x_newkeys set_x_payload]. fold server.
  apply twp_bind. eapply twp_match; [reflexivity|exact Wk|exact Sk|exact Hb1|]. intros b2 Hb2.
  rewrite match_result_pick, Pk. cbn [default need]. apply twp_bind, twp_ret. rewrite (proj2 (Z.eqb_neq _ _) Hval).
  fold (guess2 o). set (g1 := guess_ok _ _ _ _). unfold id.
  apply twp_bind. eapply twp_newkeys_mod; [reflexivity|].
  apply twp_bind, twp_gets. cbn [x_cfg set_x_newkeys set_x_payload].
  apply twp_bind. eapply twp_match; [reflexivity|exact Wh|exact Sh|exact Hb2|]. intros b3 Hb3.
  assert (Ei : look_kexguess2 (wire_names (of_hostkey o)) (guess2 o) = guess2 o) by apply look_kexguess2_idem.
  rewrite match_result_pick, Ph, !Ei. set (g2 := guess_ok _ _ (of_hostkey o) _).
  apply twp_bind, twp_ret. apply twp_bind. eapply twp_newkeys_mod; [reflexivity|].
  apply twp_bind, twp_gets. apply twp_bind. eapply match_algo_ok; [reflexivity|exact Wc|exact Sc|exact Hb3|exact Pc|]. intros b4 Hb4.
  apply twp_bind. eapply match_algo_ok; [reflexivity|exact Wc|exact Sc|exact Hb4|exact Pc|]. intros b5 Hb5.
  apply twp_bind, twp_gets. apply twp_bind. eapply match_algo_ok; [reflexivity|exact Wm|exact Sm|exact Hb5|exact Pm|]. intros b6 Hb6.
  apply twp_bind. eapply match_algo_ok; [reflexivity|exact Wm|exact Sm|exact Hb6|exact Pm|]. intros b7 Hb7.
  apply twp_bind, twp_gets. apply twp_bind. eapply match_algo_ok; [reflexivity|exact Wz|exact Sz|exact Hb7|exact Pz|]. intros b8 Hb8.
  apply twp_bind. eapply match_algo_ok; [reflexivity|exact Wz|exact Sz|exact Hb8|exact Pz|]. intros b9 Hb9.
  apply twp_bind. eapply twp_payload; [reflexivity|exact (repr_eatstring b9 _ [] _ room 0 eq_refl Hb9)|]. intros b10 Hb10.
  apply twp_bind. eapply twp_payload; [reflexivity|exact (repr_eatstring b10 _ [] _ room 0 eq_refl Hb10)|]. intros b11 Hb11.
  apply twp_bind. eapply twp_payload; [reflexivity|exact (repr_getbool b11 _ _ _ room Hb11)|]. intros b12 Hb12.
  assert (Ef : negb ((if (if follows then 1 else 0) =? 0 then 0 else 1) =? 0) = follows) by (by destruct follows). rewrite Ef.
  set (s12 := set_x_payload (Some b12) _). cbn [default].
  assert (Eg : allgood server (tables_of s) o = g1 && g2) by done. rewrite Eg in HQ.
  set (ks1 := if follows then set_ks_them_firstfollows true (x_kexstate s) else x_kexstate s).
  set (ig := if follows && negb (g1 && g2) then true else x_ignorenext s).
  apply twp_bind. eapply (twp_ok _ _ _ tt (set_x_ignorenext ig (set_x_kexstate ks1 s12))).
  { unfold when, kexst, ks1, ig, s12. destruct follows; [|by destruct s]. destruct (g1 && g2); by destruct s. }
  assert (Epair : forall x : algo_type algo_data, (if cf_isclient (x_cfg s) then (x, x) else (x, x)) = (x, x)) by (intros x; by destruct (cf_isclient (x_cfg s))).
  rewrite !Epair. apply twp_bind. eapply twp_new_recv; [reflexivity|]. apply twp_bind. eapply twp_new_trans; [reflexivity|].
  apply twp_bind. eapply twp_payload; [reflexivity|lazymatch type of Hb12 with buf_repr _ ?l _ _ =>
    apply (repr_getint b12 l 0 [] room); [by vm_compute|rewrite app_nil_r; exact Hb12] end|]. intros b13 Hb13.
  apply twp_bind, twp_gets. cbn [x_cfg set_x_newkeys set_x_payload set_x_ignorenext set_x_kexstate].
  match type of Hb13 with buf_repr _ ?l _ _ =>
    assert (El : l = pre ++ cookie ++ kexinit_lists o follows) by (unfold kexinit_lists; rewrite <-!app_assoc; reflexivity) end.
  rewrite El in Hb13. specialize (HQ b13 Hb13).
  eapply twp_ok; [|exact HQ]. unfold negotiated. fold ks1. fold ig. unfold when, kexst, s12.
  change (cf_first_guess (x_cfg (set_x_payload (Some b12) _))) with (cf_first_guess (x_cfg s)).
  destruct (cf_first_guess (x_cfg s) && (g1 && g2)); reflexivity.
Qed.
(** ** The start of the exchange hash *)

Definition ssh_string (x : list Z) : list Z := store32h (zlen x) ++ x.

(** V_C, V_S, I_C, I_S. *)
Definition hash_head (V_C V_S I_C I_S : list Z) : list Z := ssh_string V_C ++ ssh_string V_S ++ ssh_string I_C ++ ssh_string I_S.

(** The same from one side: its own strings and the other's. *)
Definition hash_head_of (client : bool) (V_us V_them I_us I_them : list Z) : list Z :=
  if client then hash_head V_us V_them I_us I_them else hash_head V_them V_us I_them I_us.

Lemma twp_hash_string s hb pre room x n data (Q : unit -> kses -> Prop) :
  x_kexhashbuf s = Some hb -> buf_repr hb pre [] room -> bytes data -> n = zlen x -> ztake n data = x -> n <= zlen data -> 4 + n <= room ->
  (forall hb', buf_repr hb' (pre ++ ssh_string x) [] (room - 4 - n) -> Q tt (set_x_kexhashbuf (Some hb') s)) ->
  twp (on_kexhashbuf (buf_putstring data n)) Q s.
Proof.
  intros Ehb Hb Hd -> Ex Hl Hr HQ. pose proof (zlen_nonneg x).
  destruct (repr_putint hb pre [] room (zlen x) Hb) as (b1 & E1 & Hr1); [change (zlen (@nil Z)) with 0; lia|].
  rewrite append_post, append_room in Hr1 by lia.
  destruct (repr_putprefix b1 _ [] _ data (zlen x) ltac:(lia) Hr1 Hd) as (b2 & E2 & Hr2); [change (zlen (@nil Z)) with 0; lia|].
  rewrite append_post, append_room in Hr2 by lia. rewrite Ex, <-app_assoc in Hr2.
  eapply twp_hash_put; [exact Ehb| |exact HQ]. exists b2. split; [|exact Hr2]. unfold buf_putstring. by rewrite (bind_ok _ _ _ _ _ E1).
Qed.

Lemma twp_hash_put_buffer s hb pre room b x (Q : unit -> kses -> Prop) :
  x_kexhashbuf s = Some hb -> buf_repr hb pre [] room -> (exists p q r, buf_repr b p q r /\ p ++ q = x) -> 4 + zlen x <= room ->
  (forall hb', buf_repr hb' (pre ++ ssh_string x) [] (room - 4 - zlen x) -> Q tt (set_x_kexhashbuf (Some hb') s)) ->
  twp (hash_put_buffer b) Q s.
Proof.
  intros Ehb Hb (p & q & r & Hx & <-) Hr HQ. destruct (br_data _ _ _ _ Hx) as (rest & Hd & _).
  assert (Hl : b_len b = zlen (p ++ q)) by (rewrite (br_len _ _ _ _ Hx), zlen_app; done).
  unfold hash_put_buffer. rewrite Hl. rewrite app_assoc in Hd.
  apply (twp_hash_string s hb pre room (p ++ q) _ (b_data b)); [exact Ehb|exact Hb|apply Hx|done| | |exact Hr|exact HQ].
  - rewrite Hd. apply ztake_app_zlen.
  - rewrite Hd, (zlen_app (p ++ q)). pose proof (zlen_nonneg rest). lia.
Qed.

(** What recv_msg_kexinit leaves. *)
Definition kexinit_received s (c : choice) (follows good : bool) (b hb : buffer) : kses :=
  let n := negotiated s c follows good in
  set_x_kexstate (set_ks_recvkexinit true (x_kexstate n)) (set_x_transkexinit None
    (set_x_requirenext (if cf_isclient (x_cfg s) then x_requirenext s else (SSH_MSG_KEXDH_INIT, snd (x_requirenext s)))
      (set_x_kexhashbuf (Some hb) (set_x_payload (Some b) n)))).

Lemma recv_msg_kexinit_ok s b t I_us cookie o follows nk room c (Q : unit -> kses -> Prop) :
  ks_sentkexinit (x_kexstate s) = true -> x_transkexinit s = Some t -> (exists p q r, buf_repr t p q r /\ p ++ q = I_us) ->
  let I_them := kexinit_payload cookie o follows in
  x_payload s = Some b -> buf_repr b [SSH_MSG_KEXINIT] (cookie ++ kexinit_lists o follows) room -> zlen cookie = 16 ->
  x_newkeys s = Some nk -> offer_wf o -> tables_small (tables_of s) ->
  let server := negb (cf_isclient (x_cfg s)) in
  picks server (tables_of s) o c -> al_val (ch_kex c) <> KEXGUESS2_ALGO_ID ->
  bytes (x_remoteident s) -> zlen (x_remoteident s) + zlen I_us + zlen I_them <= 100000 ->
  (forall b' hb, buf_repr hb (hash_head_of (cf_isclient (x_cfg s)) LOCAL_IDENT (x_remoteident s) I_us I_them) [] (KEXHASHBUF_MAX_INTS - 16) ->
     Q tt (kexinit_received s c follows (allgood server (tables_of s) o) b' hb)) ->
  twp recv_msg_kexinit Q s.
Proof.
  intros Hsent Et Ht I_them Eb Hb Hc Hnk Ho Hts server Hp Hval Hri Hlen HQ.
  pose proof (zlen_nonneg (x_remoteident s)). pose proof (zlen_nonneg I_us). pose proof (zlen_nonneg I_them).
  unfold recv_msg_kexinit. apply twp_bind, twp_gets. rewrite Hsent. cbn [negb when]. apply twp_bind, twp_ret.
  apply twp_bind, twp_gets, twp_bind, twp_gets, twp_bind. rewrite Et. apply twp_deref.
  apply twp_bind, twp_gets, twp_bind. rewrite Eb. apply twp_deref. change (zlen LOCAL_IDENT) with 24.
  assert (Elt : b_len t = zlen I_us) by (destruct Ht as (p & q & r & Ht & <-); rewrite (br_len _ _ _ _ Ht), zlen_app; done).
  assert (Elb : b_len b = zlen I_them) by (rewrite (br_len _ _ _ _ Hb); unfold I_them, kexinit_payload; rewrite !zlen_app; done).
  rewrite Elt, Elb. destruct (repr_buf_new (24 + zlen (x_remoteident s) + zlen I_us + zlen I_them + KEXHASHBUF_MAX_INTS) s) as (hb & Ehb & Hhb).
  { unfold BUF_MAX_SIZE, KEXHASHBUF_MAX_INTS. lia. }
  apply twp_bind. eapply twp_ok; [exact Ehb|]. apply twp_bind, twp_modify. set (s1 := set_x_kexhashbuf (Some hb) s).
  unfold cfg. apply twp_bind, twp_gets. change (cf_isclient (x_cfg s1)) with (cf_isclient (x_cfg s)).
  unfold KEXHASHBUF_MAX_INTS in *.
  assert (Hread : forall Q', (forall b', buf_repr b' I_them [] room -> Q' tt (set_x_payload (Some b') (negotiated s1 c follows (allgood server (tables_of s) o)))) ->
    twp read_kex_algos Q' s1).
  { intros Q' HQ'. apply (read_kex_algos_ok s1 b [SSH_MSG_KEXINIT] cookie o follows nk room c); try assumption. }
  assert (Hend : forall b' b3, buf_repr b' I_them [] room -> buf_setpos 0 b' = Ok (tt, b3) -> exists p q r, buf_repr b3 p q r /\ p ++ q = I_them).
  { intros b' b3 Hb' E3. destruct (repr_rewind _ _ _ _ Hb') as (b4 & E4 & Hr4). rewrite E3 in E4. injection E4 as <-.
    exists [], (I_them ++ []), room. split; [exact Hr4|apply app_nil_r]. }
  assert (Hrw : forall b', buf_repr b' I_them [] room -> exists b3, buf_setpos 0 b' = Ok (tt, b3)).
  { intros b' Hb'. destruct (repr_rewind _ _ _ _ Hb') as (b4 & E4 & _). by exists b4. }
  destruct (cf_isclient (x_cfg s)) eqn:Ecl.
  - apply twp_bind. apply twp_bind, Hread. intros b' Hb'.
    apply twp_bind. eapply (twp_hash_string _ hb _ _ LOCAL_IDENT); [reflexivity|exact Hhb|by apply (bool_decide_eq_true_1 _)|reflexivity|reflexivity|reflexivity|lia|]. intros h1 Hh1.
    apply twp_bind. eapply (twp_hash_string _ h1 _ _ (x_remoteident s)); [reflexivity|exact Hh1|exact Hri|reflexivity|by apply ztake_all|reflexivity|lia|]. intros h2 Hh2.
    apply twp_bind. eapply (twp_hash_put_buffer _ h2 _ _ t I_us); [reflexivity|exact Hh2|exact Ht|lia|]. intros h3 Hh3.
    destruct (Hrw b' Hb') as [b3 E3].
    apply twp_bind. eapply twp_payload; [reflexivity|destruct (repr_rewind _ _ _ _ Hb') as (b4 & E4 & Hr4); exists b4; split; [exact E4|exact Hr4]|]. intros b4 Hb4.
    apply twp_bind, twp_gets, twp_bind. cbn [x_payload set_x_payload]. apply twp_deref.
    eapply (twp_hash_put_buffer _ h3 _ _ b4 I_them); [reflexivity|exact Hh3|eexists _, _, _; split; [exact Hb4|apply app_nil_r]|lia|]. intros h4 Hh4.
    apply twp_bind, twp_modify. unfold kexst. apply twp_modify.
    specialize (HQ b4 h4). unfold kexinit_received in HQ. rewrite Ecl in HQ. apply HQ.
    cbn [hash_head_of]. unfold hash_head. rewrite <-!app_assoc in Hh4. cbn [app] in Hh4. revert Hh4. set (r' := _ - zlen I_them).
    replace r' with (1700 + 130 + 130 + 130 - 16) by (unfold r'; lia). done.
  - apply twp_bind. apply twp_bind, Hread. intros b' Hb'.
    apply twp_bind. eapply (twp_hash_string _ hb _ _ (x_remoteident s)); [reflexivity|exact Hhb|exact Hri|reflexivity|by apply ztake_all|reflexivity|lia|]. intros h1 Hh1.
    apply twp_bind. eapply (twp_hash_string _ h1 _ _ LOCAL_IDENT); [reflexivity|exact Hh1|by apply (bool_decide_eq_true_1 _)|reflexivity|reflexivity|reflexivity|lia|]. intros h2 Hh2.
    apply twp_bind. eapply twp_payload; [reflexivity|destruct (repr_rewind _ _ _ _ Hb') as (b4 & E4 & Hr4); exists b4; split; [exact E4|exact Hr4]|]. intros b4 Hb4.
    apply twp_bind, twp_gets, twp_bind. cbn [x_payload set_x_payload]. apply twp_deref.
    apply twp_bind. eapply (twp_hash_put_buffer _ h2 _ _ b4 I_them); [reflexivity|exact Hh2|eexists _, _, _; split; [exact Hb4|apply app_nil_r]|lia|]. intros h3 Hh3.
    apply twp_bind. eapply (twp_hash_put_buffer _ h3 _ _ t I_us); [reflexivity|exact Hh3|exact Ht|lia|]. intros h4 Hh4.
    apply twp_modify, twp_bind, twp_modify. unfold kexst. apply twp_modify.
    specialize (HQ b4 h4). unfold kexinit_received in HQ. rewrite Ecl in HQ. apply HQ.
    cbn [hash_head_of]. unfold hash_head. rewrite <-!app_assoc in Hh4. cbn [app] in Hh4. revert Hh4. set (r' := _ - zlen I_us).
    replace r' with (1700 + 130 + 130 + 130 - 16) by (unfold r'; lia). done.
Qed.
End Negotiate.

(** ** A client and a server *)

(** The side's lists are parts of the compiled tables, as the user's options
    leave them. *)
Definition from_tables (t : tables) : Prop :=
  Forall (fun a => a ∈ sshkex) (tb_kex t) /\ Forall (fun a => a ∈ sshhostkey) (tb_hostkey t) /\
  Forall (fun a => a ∈ sshciphers) (tb_cipher t) /\ Forall (fun a => a ∈ sshhashes) (tb_mac t) /\
  Forall (fun a => a ∈ ssh_compress) (tb_comp t).

(** Every entry is usable and no name occurs twice. *)
Definition table_distinct (T : list (algo_type algo_data)) : bool :=
  forallb (fun a => al_usable a) T && bool_decide (NoDup (map al_name T)).

Lemma tables_distinct : table_distinct sshkex && table_distinct sshhostkey && table_distinct sshciphers && table_distinct sshhashes &&
  table_distinct ssh_compress = true.
Proof. vm_compute. reflexivity. Qed.

Lemma distinct_usable T l : table_distinct T = true -> Forall (fun a => a ∈ T) l -> Forall (fun a => al_usable a = true) l.
Proof.
  intros [Hu _]%andb_prop Hl. rewrite forallb_forall in Hu. eapply Forall_impl; [exact Hl|]. intros a Ha. apply Hu. by apply list_elem_of_In.
Qed.

Lemma distinct_inj T a b : table_distinct T = true -> a ∈ T -> b ∈ T -> al_name a = al_name b -> a = b.
Proof.
  intros [_ Hn%bool_decide_eq_true_1]%andb_prop Ha Hb E.
  apply list_elem_of_lookup in Ha as [i Hi]. apply list_elem_of_lookup in Hb as [j Hj].
  assert (i = j); [|congruence]. apply (NoDup_lookup _ _ _ (al_name a) Hn); rewrite list_lookup_fmap; [by rewrite Hi|by rewrite Hj, E].
Qed.

Lemma zget_elem {A} (l : list A) i a : zget l i = Some a -> a ∈ l.
Proof. unfold zget. destruct (0 <=? i); [apply list_elem_of_lookup_2|done]. Qed.

Lemma agreed_nonempty cli srv n : agreed cli srv = Some n -> cli <> [] /\ srv <> [].
Proof. intros E. split; intros ->; [done|]. by rewrite agreed_none in E. Qed.

Lemma usable_nil {D} (l : list (algo_type D)) : usable_names l <> [] -> l <> [].
Proof. by intros Hl ->. Qed.

(** Each side picks its entry of the agreed name, and judges the guess alike. *)
Lemma pick_both T (cli srv : list (algo_type algo_data)) n : table_distinct T = true ->
  Forall (fun a => a ∈ T) cli -> Forall (fun a => a ∈ T) srv -> offer_ok cli -> offer_ok srv ->
  agreed (usable_names cli) (usable_names srv) = Some n ->
  (exists a, a ∈ T /\ al_name a = n /\ pick true srv (usable_names cli) = Some a /\ pick false cli (usable_names srv) = Some a) /\
  (forall k, guess_ok true srv (usable_names cli) k = guess_ok false cli (usable_names srv) k).
Proof.
  intros HT Hc Hs Hoc Hos Ha. destruct (agreed_nonempty _ _ _ Ha) as [Nc%usable_nil Ns%usable_nil].
  pose proof (match_names_same cli srv Nc Ns (distinct_usable T cli HT Hc) (distinct_usable T srv HT Hs)) as Em.
  split; [|intros k; unfold guess_ok; by rewrite Em].
  pose proof (match_names_spec true srv (wire_names (usable_names cli))) as Hms.
  pose proof (match_names_spec false cli (wire_names (usable_names srv))) as Hmc.
  rewrite agreed_wire_server, Ha in Hms by (apply names_nonempty, Hos).
  rewrite agreed_wire_client, Ha in Hmc by (apply names_nonempty, Hoc).
  unfold pick. rewrite Em in Hms |- *. destruct (match_names false cli _) as [[i j]|]; [|done].
  destruct Hms as (a & Ea & _ & [= Na]), Hmc as (b & Eb & _ & [= Nb]).
  rewrite Forall_forall in Hc, Hs. pose proof (Hs a (zget_elem _ _ _ Ea)). pose proof (Hc b (zget_elem _ _ _ Eb)).
  assert (b = a) as -> by (apply (distinct_inj T); [assumption..|congruence]). exists a. by split_and!.
Qed.

Lemma offer_of_wf t : tables_ok t -> offer_wf (offer_of t) /\ tables_small t.
Proof.
  intros (Hk & Hh & Hc & Hm & Hz).
  destruct (offer_names _ Hk) as (? & ? & ? & ?), (offer_names _ Hh) as (? & ? & ? & ?), (offer_names _ Hc) as (? & ? & ? & ?),
    (offer_names _ Hm) as (? & ? & ? & ?), (offer_names _ Hz) as (? & ? & ? & ?).
  by split; split_and!.
Qed.

Lemma kexinit_payload_len t cookie follows : tables_ok t -> zlen cookie = 16 -> zlen (kexinit_payload cookie (offer_of t) follows) <= 1400.
Proof.
  intros (Hk & Hh & Hc & Hm & Hz) Hl. unfold kexinit_payload, kexinit_lists. rewrite !zlen_app, !zlen_store32h, Hl.
  destruct (name_list_len _ Hk), (name_list_len _ Hh), (name_list_len _ Hc), (name_list_len _ Hm), (name_list_len _ Hz).
  cbn [offer_of of_kex of_hostkey of_cipher of_mac of_comp]. change (zlen [SSH_MSG_KEXINIT]) with 1.
  change (zlen [if follows then 1 else 0]) with 1. lia.
Qed.

(** The agreed names of all five lists. *)
Definition agreed_names (c s : tables) (ns : list (list Z)) : Prop :=
  map Some ns = [agreed (usable_names (tb_kex c)) (usable_names (tb_kex s)); agreed (usable_names (tb_hostkey c)) (usable_names (tb_hostkey s));
                 agreed (usable_names (tb_cipher c)) (usable_names (tb_cipher s)); agreed (usable_names (tb_mac c)) (usable_names (tb_mac s));
                 agreed (usable_names (tb_comp c)) (usable_names (tb_comp s))].
Definition choice_names (ch : choice) : list (list Z) :=
  [al_name (ch_kex ch); al_name (ch_hostkey ch); al_name (ch_cipher ch); al_name (ch_mac ch); al_name (ch_comp ch)].

Lemma kex_value a : a ∈ sshkex -> al_name a <> KEXGUESS2_ALGO_NAME -> al_val a <> KEXGUESS2_ALGO_ID.
Proof.
  intros Ha Hn. unfold sshkex in Ha. rewrite !elem_of_cons in Ha. destruct Ha as [->|[->|[->|Ha]]]; [done|done|by destruct Hn|by apply not_elem_of_nil in Ha].
Qed.

Lemma choices_agree (tc ts : tables) ns : from_tables tc -> from_tables ts -> tables_ok tc -> tables_ok ts ->
  agreed_names tc ts ns -> hd_error ns <> Some KEXGUESS2_ALGO_NAME ->
  (KEXGUESS2_ALGO_NAME ∈ usable_names (tb_kex tc) <-> KEXGUESS2_ALGO_NAME ∈ usable_names (tb_kex ts)) ->
  exists ch, picks true ts (offer_of tc) ch /\ picks false tc (offer_of ts) ch /\ choice_names ch = ns /\ al_val (ch_kex ch) <> KEXGUESS2_ALGO_ID /\
    allgood true ts (offer_of tc) = allgood false tc (offer_of ts).
Proof.
  intros (Fk & Fh & Fc & Fm & Fz) (Gk & Gh & Gc & Gm & Gz) (Ok & Oh & Oc & Om & Oz) (Pk & Ph & Pc & Pm & Pz) Hns Hne Hg.
  pose proof tables_distinct as HT. rewrite !andb_true_iff in HT. destruct HT as ((((Tk & Th) & Tc) & Tm) & Tz).
  unfold agreed_names in Hns. destruct ns as [|n1 [|n2 [|n3 [|n4 [|n5 [|]]]]]]; try discriminate Hns.
  cbn [map] in Hns. injection Hns as E1 E2 E3 E4 E5. symmetry in E1, E2, E3, E4, E5.
  destruct (pick_both sshkex _ _ n1 Tk Fk Gk Ok Pk E1) as [(a1 & I1 & N1 & S1 & C1) G1].
  destruct (pick_both sshhostkey _ _ n2 Th Fh Gh Oh Ph E2) as [(a2 & I2 & N2 & S2 & C2) G2].
  destruct (pick_both sshciphers _ _ n3 Tc Fc Gc Oc Pc E3) as [(a3 & I3 & N3 & S3 & C3) _].
  destruct (pick_both sshhashes _ _ n4 Tm Fm Gm Om Pm E4) as [(a4 & I4 & N4 & S4 & C4) _].
  destruct (pick_both ssh_compress _ _ n5 Tz Fz Gz Oz Pz E5) as [(a5 & I5 & N5 & S5 & C5) _].
  exists (mkchoice a1 a2 a3 a4 a5). split; [by split_and!|]. split; [by split_and!|].
  split; [unfold choice_names; cbn [ch_kex ch_hostkey ch_cipher ch_mac ch_comp]; by rewrite N1, N2, N3, N4, N5|].
  split; [apply kex_value; [exact I1|]; cbn [ch_kex]; rewrite N1; by intros ->|].
  assert (Eg : guess2 (offer_of tc) = guess2 (offer_of ts)).
  { unfold guess2. cbn [offer_of of_kex]. destruct (agreed_nonempty _ _ _ E1) as [Nc Ns].
    assert (W : forall x : list (list Z), x <> [] -> wire_names x = x) by (by intros []). rewrite !W by done.
    cbn. by rewrite (bool_decide_ext _ _ Hg). }
  unfold allgood. cbn [offer_of of_kex of_hostkey]. by rewrite Eg, G1, G2.
Qed.

(** A side that has sent its KEXINIT [I_us] and is handed the other's. *)
Record kexinit_ready {K St Zs R} (s : kses K St Zs R) (I_us cookie : list Z) (o : offer) (follows : bool) : Prop := {
  kr_sent : ks_sentkexinit (x_kexstate s) = true;
  kr_copy : exists t, x_transkexinit s = Some t /\ buf_repr t [] I_us 0;
  kr_newkeys : exists nk, x_newkeys s = Some nk;
  kr_payload : exists b room, x_payload s = Some b /\ buf_repr b [SSH_MSG_KEXINIT] (cookie ++ kexinit_lists o follows) room;
  kr_cookie : zlen cookie = 16;
  kr_ident : x_remoteident s = LOCAL_IDENT
}.

(** C6: when a client and a server have each sent a KEXINIT, receive the
    other's, and have an algorithm in common for every list, recv_msg_kexinit
    succeeds on both sides and both hold the same new keys: for every list the
    client's first name that the server has.  Both have started the exchange
    hash with the same bytes, V_C, V_S, I_C and I_S of RFC 4253 section 8, with
    the same room left in the buffer; the server then requires KEXDH_INIT, and
    ignores the client's guessed packet exactly when the client knows that its
    guess was wrong. *)
Theorem kexinit_exchange_agrees {K St Zs R : Type} `{SignKeyLaws K R} `{CipherStart St} `{RandomLaws R} `{RandomMp R} `{ExptMod}
    (c s : kses K St Zs R) (cookie_c cookie_s : list Z) (ns : list (list Z)) :
  let I_C := kexinit_payload cookie_c (offer_of (tables_of c)) (cf_first_guess (x_cfg c)) in
  let I_S := kexinit_payload cookie_s (offer_of (tables_of s)) (cf_first_guess (x_cfg s)) in
  cf_isclient (x_cfg c) = true -> cf_isclient (x_cfg s) = false ->
  tables_ok (tables_of c) -> from_tables (tables_of c) -> tables_ok (tables_of s) -> from_tables (tables_of s) ->
  kexinit_ready c I_C cookie_s (offer_of (tables_of s)) (cf_first_guess (x_cfg s)) ->
  kexinit_ready s I_S cookie_c (offer_of (tables_of c)) (cf_first_guess (x_cfg c)) ->
  agreed_names (tables_of c) (tables_of s) ns -> hd_error ns <> Some KEXGUESS2_ALGO_NAME ->
  (KEXGUESS2_ALGO_NAME ∈ usable_names (tb_kex (tables_of c)) <-> KEXGUESS2_ALGO_NAME ∈ usable_names (tb_kex (tables_of s))) ->
  x_ignorenext s = false -> ks_our_first_follows_matches (x_kexstate c) = false ->
  exists c' s' ch hc hs,
    recv_msg_kexinit c = Ok (tt, c') /\ recv_msg_kexinit s = Ok (tt, s') /\
    choice_names ch = ns /\ x_newkeys c' = Some (chosen ch) /\ x_newkeys s' = Some (chosen ch) /\
    x_kexhashbuf c' = Some hc /\ buf_repr hc (hash_head LOCAL_IDENT LOCAL_IDENT I_C I_S) [] (KEXHASHBUF_MAX_INTS - 16) /\
    x_kexhashbuf s' = Some hs /\ buf_repr hs (hash_head LOCAL_IDENT LOCAL_IDENT I_C I_S) [] (KEXHASHBUF_MAX_INTS - 16) /\
    ks_recvkexinit (x_kexstate c') = true /\ ks_recvkexinit (x_kexstate s') = true /\
    x_transkexinit c' = None /\ x_transkexinit s' = None /\ fst (x_requirenext s') = SSH_MSG_KEXDH_INIT /\
    x_ignorenext s' = cf_first_guess (x_cfg c) && negb (ks_our_first_follows_matches (x_kexstate c')).
Proof.
  intros I_C I_S Hc Hs Oc Fc Os Fs [Sc (tc & Etc & Htc) (nkc & Nc) (bc & rc & Ebc & Hbc) Lc Rc] [Ss (tks & Ets & Hts) (nks & Ns) (bs & rs & Ebs & Hbs) Ls Rs] Hns Hne Hg Hig Hm.
  destruct (offer_of_wf _ Oc) as [Wc Mc]. destruct (offer_of_wf _ Os) as [Ws Ms].
  destruct (choices_agree _ _ ns Fc Fs Oc Os Hns Hne Hg) as (ch & Ps & Pc & Ech & Hval & Hgood).
  assert (Hid : bytes LOCAL_IDENT) by by apply (bool_decide_eq_true_1 _).
  pose proof (kexinit_payload_len _ _ (cf_first_guess (x_cfg c)) Oc Ls) as LIC. pose proof (kexinit_payload_len _ _ (cf_first_guess (x_cfg s)) Os Lc) as LIS.
  fold I_C in LIC. fold I_S in LIS.
  assert (Lid : zlen LOCAL_IDENT = 24) by reflexivity.
  set (good := allgood true (tables_of s) (offer_of (tables_of c))) in *.
  assert (Ec : twp recv_msg_kexinit (fun _ c' => exists b hb, buf_repr hb (hash_head LOCAL_IDENT LOCAL_IDENT I_C I_S) [] (KEXHASHBUF_MAX_INTS - 16) /\
    c' = kexinit_received c ch (cf_first_guess (x_cfg s)) good b hb) c).
  { apply (recv_msg_kexinit_ok c bc tc I_C cookie_s (offer_of (tables_of s)) (cf_first_guess (x_cfg s)) nkc rc ch); try assumption.
    - exists [], I_C, 0. split; [exact Htc|reflexivity].
    - by rewrite Hc.
    - by rewrite Rc.
    - rewrite Rc, Lid. fold I_S. lia.
    - rewrite Hc, Rc. cbn [negb]. rewrite <-Hgood. intros b hb Hb. by exists b, hb. }
  assert (Es : twp recv_msg_kexinit (fun _ s' => exists b hb, buf_repr hb (hash_head LOCAL_IDENT LOCAL_IDENT I_C I_S) [] (KEXHASHBUF_MAX_INTS - 16) /\
    s' = kexinit_received s ch (cf_first_guess (x_cfg c)) good b hb) s).
  { apply (recv_msg_kexinit_ok s bs tks I_S cookie_c (offer_of (tables_of c)) (cf_first_guess (x_cfg c)) nks rs ch); try assumption.
    - exists [], I_S, 0. split; [exact Hts|reflexivity].
    - by rewrite Hs.
    - by rewrite Rs.
    - rewrite Rs, Lid. fold I_C. lia.
    - rewrite Hs, Rs. cbn [negb]. intros b hb Hb. by exists b, hb. }
  destruct (twp_ex _ _ _ Ec) as ([] & c' & Rc' & b1 & h1 & Hh1 & ->). destruct (twp_ex _ _ _ Es) as ([] & s' & Rs' & b2 & h2 & Hh2 & ->).
  exists (kexinit_received c ch (cf_first_guess (x_cfg s)) good b1 h1), (kexinit_received s ch (cf_first_guess (x_cfg c)) good b2 h2), ch, h1, h2.
  split; [exact Rc'|]. split; [exact Rs'|]. split; [exact Ech|].
  split; [reflexivity|]. split; [reflexivity|]. split; [reflexivity|]. split; [exact Hh1|]. split; [reflexivity|]. split; [exact Hh2|].
  split; [reflexivity|]. split; [reflexivity|]. split; [reflexivity|]. split; [reflexivity|].
  unfold kexinit_received, negotiated. cbn. rewrite Hs. split; [reflexivity|]. rewrite Hig.
  destruct (cf_first_guess (x_cfg c)), good, (cf_first_guess (x_cfg s)); cbn; rewrite ?Hm; reflexivity.
Qed.

(** ** A concrete exchange *)

#[export] Instance toy_random_mp : RandomMp Z := { gen_random_mpint max r := (r mod max, r + 1) }.

Lemma full_buffer_repr pre post : bytes (pre ++ post) -> zlen (pre ++ post) <= BUF_MAX_SIZE ->
  buf_repr (mkbuf (pre ++ post) (zlen (pre ++ post)) (zlen pre) (zlen (pre ++ post))) pre post 0.
Proof.
  intros Hb Hl. split; cbn [b_data b_pos b_len b_size]; [|reflexivity|apply zlen_app|by rewrite zlen_app, Z.add_0_r|lia|done|done].
  exists []. by rewrite app_nil_r.
Qed.

(** A client without compression and with the CBC ciphers only, and a server
    with everything. *)
Definition toy_party (client : bool) : config unit :=
  if client then mkcfg true sshkex sshhostkey (drop 3 sshciphers) sshhashes false tt true
  else mkcfg false sshkex (drop 1 sshhostkey) sshciphers sshhashes true tt false.
Definition toy_idle (client : bool) : kses unit (Z * list Z * list Z) unit Z := new_session (toy_party client) 0 LOCAL_IDENT.
Definition toy_kexinit (client : bool) : list Z :=
  kexinit_payload (replicate 16 (if client then 3 else 4)) (offer_of (tables_of (toy_idle client))) client.
Definition toy_ready (client : bool) : kses unit (Z * list Z * list Z) unit Z :=
  set_x_newkeys (Some zero_kc) (set_x_transkexinit (Some (mkbuf (toy_kexinit client) (zlen (toy_kexinit client)) 0 (zlen (toy_kexinit client))))
    (set_x_payload (Some (mkbuf (toy_kexinit (negb client)) (zlen (toy_kexinit (negb client))) 1 (zlen (toy_kexinit (negb client)))))
      (set_x_kexstate (set_ks_sentkexinit true (x_kexstate (toy_idle client))) (toy_idle client)))).

Lemma toy_kexinit_bytes client : bytes (toy_kexinit client) /\ zlen (toy_kexinit client) <= BUF_MAX_SIZE.
Proof. destruct client; (split; [apply (bool_decide_eq_true_1 _); vm_compute; reflexivity|by vm_compute]). Qed.

Lemma toy_ready_ok client : kexinit_ready (toy_ready client) (toy_kexinit client) (replicate 16 (if client then 4 else 3))
  (offer_of (tables_of (toy_idle (negb client)))) (negb client).
Proof.
  destruct (toy_kexinit_bytes client) as [Hb Hl]. destruct (toy_kexinit_bytes (negb client)) as [Hb' Hl']. split.
  - reflexivity.
  - eexists. split; [reflexivity|]. exact (full_buffer_repr [] (toy_kexinit client) Hb Hl).
  - eexists. reflexivity.
  - eexists _, 0. split; [reflexivity|].
    assert (E : toy_kexinit (negb client) = [SSH_MSG_KEXINIT] ++ (replicate 16 (if client then 4 else 3) ++
      kexinit_lists (offer_of (tables_of (toy_idle (negb client)))) (negb client))) by (destruct client; reflexivity).
    rewrite E in *. exact (full_buffer_repr _ _ Hb' Hl').
  - by destruct client.
  - reflexivity.
Qed.


Lemma toy_tables_ok client : tables_ok (tables_of (toy_ready client)) /\ from_tables (tables_of (toy_ready client)).
Proof.
  assert (Hp : forall T k (l : list (algo_type algo_data)), drop k T = l -> Forall (fun a => a ∈ T) l).
  { intros T k l <-. apply Forall_forall. intros a Ha. rewrite <-(take_drop k T). apply elem_of_app. by right. }
  split.
  - assert (Hok : forall l : list (algo_type algo_data), forallb (fun a => bool_decide (name_ok (al_name a))) l = true ->
      zlen l < MAX_PROPOSED_ALGO -> zlen (comma_list (usable_names l)) <= 160 -> offer_ok l).
    { intros l Hn ? ?. split; [|done]. apply Forall_forall. intros a Ha. rewrite forallb_forall in Hn.
      apply (bool_decide_eq_true_1 _), Hn. by apply list_elem_of_In. }
    destruct client; (split_and!; (apply Hok; [vm_compute; reflexivity|by vm_compute|by vm_compute])).
  - destruct client; (split_and!; [apply (Hp _ 0%nat)|first [apply (Hp _ 0%nat); reflexivity|apply (Hp _ 1%nat)]|
      first [apply (Hp _ 3%nat); reflexivity|apply (Hp _ 0%nat)]|apply (Hp _ 0%nat)|first [apply (Hp _ 2%nat); reflexivity|apply (Hp _ 0%nat)]]; reflexivity).
Qed.

Definition toy_names : list (list Z) :=
  Eval cbv in [chars "diffie-hellman-group1-sha1"; chars "ssh-dss"; chars "aes128-cbc"; chars "hmac-sha1-96"; chars "none"].

Lemma kexinit_exchange_agrees_witness :
  exists c' s' ch hc hs,
    recv_msg_kexinit (toy_ready true) = Ok (tt, c') /\ recv_msg_kexinit (toy_ready false) = Ok (tt, s') /\
    choice_names ch = toy_names /\ x_newkeys c' = Some (chosen ch) /\ x_newkeys s' = Some (chosen ch) /\
    x_kexhashbuf c' = Some hc /\ buf_repr hc (hash_head LOCAL_IDENT LOCAL_IDENT (toy_kexinit true) (toy_kexinit false)) [] (KEXHASHBUF_MAX_INTS - 16) /\
    x_kexhashbuf s' = Some hs /\ buf_repr hs (hash_head LOCAL_IDENT LOCAL_IDENT (toy_kexinit true) (toy_kexinit false)) [] (KEXHASHBUF_MAX_INTS - 16) /\
    ks_recvkexinit (x_kexstate c') = true /\ ks_recvkexinit (x_kexstate s') = true /\
    x_transkexinit c' = None /\ x_transkexinit s' = None /\ fst (x_requirenext s') = SSH_MSG_KEXDH_INIT /\
    x_ignorenext s' = true && negb (ks_our_first_follows_matches (x_kexstate c')).
Proof.
  assert (Hns : agreed_names (tables_of (toy_ready true)) (tables_of (toy_ready false)) toy_names) by (vm_compute; reflexivity).
  exact (kexinit_exchange_agrees (toy_ready true) (toy_ready false) (replicate 16 3) (replicate 16 4) toy_names eq_refl eq_refl
    (proj1 (toy_tables_ok true)) (proj2 (toy_tables_ok true)) (proj1 (toy_tables_ok false)) (proj2 (toy_tables_ok false))
    (toy_ready_ok true) (toy_ready_ok false) Hns ltac:(discriminate) (iff_refl _) eq_refl eq_refl).
Defined.
