(* ===== verification/KexSafe.v ===== *)
(** The key exchange as a state machine: the invariant of a server's session
    between packets, the packets on which the server faults, and that from a
    session that satisfies the invariant no other packet, whatever its bytes,
    makes it fault or leaves the invariant. *)

From S2P Require Import Prelude Dbutil Buffer Mpint Ssh Algo Queue Cipher Hmac Packet MdHash Sha1 Hashes Kex KexKeys KexHash KexNegotiate.

Local Open Scope Z_scope.
Local Open Scope prog_scope.

(** What signkey.c promises about memory. *)
Class SignKeySafe (K R : Type) `{SignKey K R} := {
  put_pub_key_safe k type b : wf_buffer b -> wp (buf_put_pub_key k type) (fun _ b' => wf_buffer b') b;
  put_sign_safe k type hash r b : wf_buffer b -> bytes hash -> zlen hash = SHA1_HASH_SIZE ->
    wp (buf_put_sign k type hash r) (fun _ b' => wf_buffer b') b
}.

Lemma wp_twp {S A} (m : prog S A) Q s : twp m Q s -> wp m Q s.
Proof. unfold twp, wp. by destruct (m s) as [[a s']| |]. Qed.

Section Safe.
Context {K St Zs R : Type} `{SignKeySafe K R} `{CipherStartLaws St} `{ZlibStreams Zs} `{RandomLaws R} `{RandomMpLaws R} `{ExptModLaws}.
Abbreviation kses := (kses K St Zs R).
Abbreviation key_context := (key_context St Zs).
Implicit Types (s : kses) (nk : key_context).

(** ** The invariant *)

(** New keys whose algorithms are chosen and that are not derived yet. *)
Definition fresh_dir (d : key_context_directional St Zs) : Prop := exists c m h, dir_ok d c m h /\ kd_valid d = false.
Definition negotiated_keys nk : Prop := dh_group (kc_algo_kex nk) /\ fresh_dir (kc_recv nk) /\ fresh_dir (kc_trans nk).

(** What holds at any time. *)
Record kex_static (s : kses) : Prop := {
  st_server : cf_isclient (x_cfg s) = false /\ cf_first_guess (x_cfg s) = false;
  st_tables : tables_ok (tables_of s) /\ from_tables (tables_of s);
  st_wp : wf_buffer (x_writepayload s);
  st_ident : bytes (x_remoteident s) /\ zlen (x_remoteident s) <= OBJECT_MAX;
  st_hash : bytes (x_hash s) /\ zlen (x_hash s) = SHA1_HASH_SIZE
}.

(** Where the exchange stands: idle; KEXINIT sent; both KEXINITs exchanged,
    perhaps with a NEWKEYS that came early; NEWKEYS sent. *)
Inductive phase : kses -> Prop :=
| phase_idle s : ks_sentkexinit (x_kexstate s) = false -> ks_recvkexinit (x_kexstate s) = false ->
    ks_sentnewkeys (x_kexstate s) = false -> ks_recvnewkeys (x_kexstate s) = false -> phase s
| phase_sent s t nk : ks_sentkexinit (x_kexstate s) = true -> ks_recvkexinit (x_kexstate s) = false ->
    ks_sentnewkeys (x_kexstate s) = false -> ks_recvnewkeys (x_kexstate s) = false ->
    x_newkeys s = Some nk -> x_transkexinit s = Some t -> wf_buffer t -> phase s
| phase_received s nk hb : ks_sentkexinit (x_kexstate s) = true -> ks_recvkexinit (x_kexstate s) = true ->
    ks_sentnewkeys (x_kexstate s) = false -> x_newkeys s = Some nk -> negotiated_keys nk ->
    x_transkexinit s = None -> x_kexhashbuf s = Some hb -> wf_buffer hb -> phase s
| phase_newkeys s nk : ks_sentkexinit (x_kexstate s) = true -> ks_recvkexinit (x_kexstate s) = true ->
    ks_sentnewkeys (x_kexstate s) = true -> ks_recvnewkeys (x_kexstate s) = false -> x_newkeys s = Some nk -> phase s.

(** Once NEWKEYS is sent, nothing but the other's NEWKEYS is let through. *)
Definition newkeys_next (s : kses) : Prop :=
  ks_sentnewkeys (x_kexstate s) = true -> x_requirenext s = (SSH_MSG_NEWKEYS, 0) /\ x_ignorenext s = false.

(** After the client's KEXINIT the server waits for KEXDH_INIT, unless the
    client announced a guessed packet; only then is a packet ever ignored. *)
Definition guessing (s : kses) : Prop :=
  snd (x_requirenext s) = 0 /\ (x_ignorenext s = true -> ks_them_firstfollows (x_kexstate s) = true) /\
  (ks_recvkexinit (x_kexstate s) = true -> ks_sentnewkeys (x_kexstate s) = false ->
     x_requirenext s = (SSH_MSG_KEXDH_INIT, 0) \/ ks_them_firstfollows (x_kexstate s) = true).

Definition kex_inv (s : kses) : Prop := kex_static s /\ phase s /\ newkeys_next s /\ guessing s.

(** ** Pieces *)

(** An operation on the write buffer that keeps it well formed. *)
Lemma wp_wp {A} (m : prog buffer A) (Q : A -> kses -> Prop) s :
  wp m (fun _ b => wf_buffer b) (x_writepayload s) -> (forall a b, wf_buffer b -> Q a (set_x_writepayload b s)) -> wp (on_wp m) Q s.
Proof. intros Hm HQ. apply wp_zoom. eapply wp_mono; [exact Hm|]. cbn beta. intros a b Hb. by apply HQ. Qed.

Lemma wp_on_ref {A} get set (m : prog buffer A) (Q : A -> kses -> Prop) (P : A -> Prop) s b :
  get s = Some b -> wp m (fun a b' => P a /\ wf_buffer b') b ->
  (forall a b', P a -> wf_buffer b' -> Q a (set (Some b') s)) -> wp (on_ref get set m) Q s.
Proof.
  unfold wp, on_ref. intros -> Hm HQ. destruct (m b) as [[a b']| |]; [|done..]. destruct Hm. by apply HQ.
Qed.

Lemma wp_payload {A} (m : prog buffer A) (Q : A -> kses -> Prop) (P : A -> Prop) s b :
  x_payload s = Some b -> wp m (fun a b' => P a /\ wf_buffer b') b ->
  (forall a b', P a -> wf_buffer b' -> Q a (set_x_payload (Some b') s)) -> wp (on_payload m) Q s.
Proof. apply wp_on_ref. Qed.

Lemma wp_hashbuf (m : prog buffer unit) (Q : unit -> kses -> Prop) s b :
  x_kexhashbuf s = Some b -> wp m (fun _ b' => wf_buffer b') b ->
  (forall b', wf_buffer b' -> Q tt (set_x_kexhashbuf (Some b') s)) -> wp (on_kexhashbuf m) Q s.
Proof.
  intros E Hm HQ. apply (wp_on_ref _ _ _ _ (fun _ => True) _ b); [exact E|eapply wp_mono; [exact Hm|done]|].
  intros [] b' _ Hb'. by apply HQ.
Qed.

(** The packet leaves and the write buffer is empty. *)
Lemma wp_encrypt_packet (Q : unit -> kses -> Prop) s :
  wf_buffer (x_writepayload s) ->
  (forall b l, wf_buffer b -> Q tt (set_x_writepayload b (set_x_sent l s))) -> wp encrypt_packet Q s.
Proof.
  intros Hb HQ. unfold encrypt_packet. wp_steps. apply wp_zoom. cbn [x_writepayload set_x_sent].
  destruct (repr_rewind _ _ _ _ (wf_buf_repr _ Hb)) as (b1 & E1 & Hb1). unfold wp at 1. rewrite E1.
  apply wp_zoom. cbn [x_writepayload set_x_writepayload].
  eapply wp_mono; [apply wp_setlen; [by eapply buf_repr_wf|by rewrite (br_pos _ _ _ _ Hb1)]|]. cbn beta. intros [] b2 Hb2.
  exact (HQ b2 _ Hb2).
Qed.

Lemma wp_newkeys nk (Q : key_context -> kses -> Prop) s : x_newkeys s = Some nk -> Q nk s -> wp newkeys Q s.
Proof. intros E HQ. unfold newkeys, wp, bind, gets. by rewrite E. Qed.

Lemma wp_mod_newkeys f nk (Q : unit -> kses -> Prop) s :
  x_newkeys s = Some nk -> Q tt (set_x_newkeys (Some (f nk)) s) -> wp (mod_newkeys f) Q s.
Proof. intros E HQ. unfold mod_newkeys. apply wp_bind, (wp_newkeys nk); [exact E|]. exact HQ. Qed.

(** ** KEXINIT *)

Lemma wp_put_list (l : list (algo_type algo_data)) (Q : unit -> kses -> Prop) s :
  wf_buffer (x_writepayload s) -> offer_ok l -> (forall b, wf_buffer b -> Q tt (set_x_writepayload b s)) ->
  wp (on_wp (buf_put_algolist l)) Q s.
Proof. intros Hb Hl HQ. apply wp_wp; [by apply wp_put_algolist|]. intros []. apply HQ. Qed.

(** What send_msg_kexinit changes when it returns. *)
Lemma wp_send_msg_kexinit s (Q : unit -> kses -> Prop) : kex_static s ->
  (forall b l t r, wf_buffer b -> wf_buffer t ->
     Q tt (set_x_newkeys (Some zero_kc) (set_x_kexstate (set_ks_sentkexinit true (x_kexstate s)) (set_x_dataallowed false
       (set_x_writepayload b (set_x_sent l (set_x_transkexinit (Some t) (set_x_random r s)))))))) ->
  wp send_msg_kexinit Q s.
Proof.
  intros [[_ Hguess] [(Hk & Hh & Hc & Hm & Hz) _] Hb _ _] HQ. unfold send_msg_kexinit, cfg.
  destruct (genrandom_ok 16 (x_random s) ltac:(lia)) as [Hcl Hcb].
  apply wp_bind, wp_wp; [apply wp_putbyte; [exact Hb|by vm_compute]|]. intros [] b1 Hb1.
  apply wp_bind, wp_zoom. cbn [x_writepayload set_x_writepayload].
  eapply wp_mono; [apply wp_getwriteptr; [exact Hb1|by vm_compute|by vm_compute]|]. cbn beta. intros p ? (-> & -> & Hle).
  apply wp_bind. unfold random_bytes, wp at 1. cbn [x_random set_x_writepayload].
  destruct (genrandom 16 (x_random s)) as [cookie r]. cbn [fst] in Hcl, Hcb.
  pose proof Hb1 as (Hp1 & Hl1 & Hs1 & _).
  apply wp_bind, wp_zoom. cbn [x_writepayload set_x_writepayload set_x_random].
  apply wp_store_bytes; [exact Hb1|exact Hcb|lia|lia|]. intros b2 Hb2 _ _ _.
  apply wp_bind, wp_wp; [apply wp_incrwritepos; [exact Hb2|by vm_compute]|]. intros [] b3 Hb3.
  do 2 (apply wp_bind, wp_gets, wp_bind, wp_put_list; [assumption|assumption|]; intros ? ?).
  apply wp_bind, wp_gets. do 2 (apply wp_bind, wp_put_list; [assumption|assumption|]; intros ? ?).
  apply wp_bind, wp_gets. do 2 (apply wp_bind, wp_put_list; [assumption|assumption|]; intros ? ?).
  apply wp_bind, wp_gets. do 2 (apply wp_bind, wp_put_list; [assumption|assumption|]; intros ? ?).
  do 2 (apply wp_bind, wp_wp; [change 0 with (zlen (@nil Z)); apply wp_putstring; [assumption|constructor|by vm_compute]|]; intros [] ? ?).
  apply wp_bind, wp_gets. apply wp_bind, wp_wp; [apply wp_putbyte; [assumption|by case_match]|]. intros [] bg Hbg.
  apply wp_bind, wp_wp; [by apply wp_putint|]. intros [] bn Hbn.
  apply wp_bind, wp_gets, wp_bind. cbn [x_writepayload set_x_writepayload]. apply wp_newcopy; [exact Hbn|]. intros t Ht.
  apply wp_bind, wp_modify, wp_bind, wp_encrypt_packet; [exact Hbn|]. intros bo l Hb'.
  apply wp_bind, wp_modify, wp_bind, wp_modify, wp_bind, wp_modify. apply wp_when; intros Hg.
  { change (cf_first_guess (x_cfg s) = true) in Hg. congruence. }
  exact (HQ bo l t r Hb' Ht).
Qed.
Lemma wp_match server (ours : list (algo_type algo_data)) k g (Q : _ -> kses -> Prop) s b :
  x_payload s = Some b -> wf_buffer b -> zlen ours <= MAX_PROPOSED_ALGO ->
  (forall r k' g' b', wf_buffer b' -> (forall a, r = Some a -> a ∈ ours) -> Q (r, k', g') (set_x_payload (Some b') s)) ->
  wp (on_payload (buf_match_algo server ours k g)) Q s.
Proof.
  intros E Hb Hl HQ. apply (wp_payload _ _ (fun x => forall a, fst (fst x) = Some a -> a ∈ ours) _ b); [exact E| |].
  - eapply wp_mono; [by apply wp_match_algo|]. cbn beta. intros [[r k'] g'] b' [Hb' Ha]. split; [|exact Hb'].
    intros a Er. by destruct (Ha a Er).
  - intros [[r k'] g'] b' Ha Hb'. by apply HQ.
Qed.

Lemma wp_match_need (ours : list (algo_type algo_data)) what (Q : algo_type algo_data -> kses -> Prop) s b :
  x_payload s = Some b -> wf_buffer b -> zlen ours <= MAX_PROPOSED_ALGO ->
  (forall a b', wf_buffer b' -> a ∈ ours -> Q a (set_x_payload (Some b') s)) -> wp (match_algo ours what) Q s.
Proof.
  intros E Hb Hl HQ. unfold match_algo, cfg. apply wp_bind, wp_gets, wp_bind. eapply wp_match; [exact E|exact Hb|exact Hl|].
  intros r k' g' b' Hb' Ha. cbn [fst]. destruct r as [a|]; [|done]. by apply HQ, Ha.
Qed.

Lemma wp_eat (Q : unit -> kses -> Prop) s b : x_payload s = Some b -> wf_buffer b ->
  (forall b', wf_buffer b' -> Q tt (set_x_payload (Some b') s)) -> wp (on_payload buf_eatstring) Q s.
Proof.
  intros E Hb HQ. apply (wp_payload _ _ (fun _ => True) _ b); [exact E|eapply wp_mono; [by apply wp_eatstring|done]|].
  intros [] b' _. apply HQ.
Qed.

(** Entries of the tables are what the casts of their data expect. *)
Lemma cipher_entry a : a ∈ sshciphers -> exists c m, as_cipher a = Some c /\ as_mode a = Some m /\ known_cipher c m.
Proof.
  intros Ha. assert (exists c m, al_data a = cipher_data c m) as (c & m & E).
  { apply list_elem_of_In in Ha. cbn in Ha. repeat destruct Ha as [<-|Ha]; [..|done]; by eexists _, _. }
  exists c, m. unfold as_cipher, as_mode. rewrite E. split_and!; [done..|]. by exists a.
Qed.

Lemma hash_entry a : a ∈ sshhashes -> exists h, as_hash a = Some h /\ known_hash h.
Proof.
  intros Ha. assert (exists h, al_data a = hash_data h) as (h & E).
  { apply list_elem_of_In in Ha. cbn in Ha. repeat destruct Ha as [<-|Ha]; [..|done]; by eexists. }
  exists h. unfold as_hash. rewrite E. split; [done|]. by exists a.
Qed.

Lemma kex_entry a : a ∈ sshkex -> al_val a <> KEXGUESS2_ALGO_ID -> dh_group (al_val a).
Proof.
  intros Ha Hv. apply list_elem_of_In in Ha. cbn in Ha. unfold dh_group. destruct Ha as [<-|[<-|[<-|[]]]]; [by left|by right|by destruct Hv].
Qed.

Lemma fresh_dir_made a h z : a ∈ sshciphers -> h ∈ sshhashes ->
  fresh_dir (set_kd_algo_comp z (set_kd_algo_mac (as_hash h) (set_kd_crypt_mode (as_mode a) (set_kd_algo_crypt (as_cipher a) zero_kd)))).
Proof.
  intros Ha Hh. destruct (cipher_entry a Ha) as (c & m & Ec & Em & Hk). destruct (hash_entry h Hh) as (hs & Eh & Hkh).
  exists c, m, hs. by split.
Qed.

Lemma wp_read_kex_algos s b nk (Q : unit -> kses -> Prop) : kex_static s ->
  x_payload s = Some b -> wf_buffer b -> x_newkeys s = Some nk ->
  (forall nk' b' ks ig, wf_buffer b' -> negotiated_keys nk' ->
     (ks = x_kexstate s /\ ig = x_ignorenext s \/ ks = set_ks_them_firstfollows true (x_kexstate s)) ->
     Q tt (set_x_newkeys (Some nk') (set_x_payload (Some b') (set_x_kexstate ks (set_x_ignorenext ig s))))) ->
  wp read_kex_algos Q s.
Proof.
  intros [[Hsrv Hguess] [Hok (Fk & Fh & Fc & Fm & Fz)] _ _ _] Eb Hb Hnk HQ.
  destruct (offer_of_wf _ Hok) as [_ (Sk & Sh & Sc & Sm & Sz)].
  cbn [tables_of tb_kex tb_hostkey tb_cipher tb_mac tb_comp] in Fk, Fh, Fc, Fm, Fz, Sk, Sh, Sc, Sm, Sz.
  rewrite Forall_forall in Fk, Fc, Fm.
  unfold read_kex_algos, cfg. apply wp_bind, wp_gets, wp_bind.
  apply (wp_payload _ _ (fun _ => True) _ b); [exact Eb|eapply wp_mono; [by apply wp_incrpos|done]|]. intros [] b1 _ Hb1.
  apply wp_bind, (wp_mod_newkeys _ nk); [exact Hnk|]. apply wp_bind, wp_gets, wp_bind.
  eapply wp_match; [reflexivity|exact Hb1|exact Sk|]. intros r1 k1 g1 b2 Hb2 Ha1. cbv beta iota.
  apply wp_bind. destruct r1 as [a1|]; [|done]. apply wp_ret. destruct (Z.eqb_spec (al_val a1) KEXGUESS2_ALGO_ID) as [|Hv]; [done|].
  pose proof (kex_entry a1 (Fk _ (Ha1 a1 eq_refl)) Hv) as Hgroup.
  apply wp_bind. eapply wp_mod_newkeys; [reflexivity|]. apply wp_bind, wp_gets, wp_bind.
  eapply wp_match; [reflexivity|exact Hb2|exact Sh|]. intros r2 k2 g2 b3 Hb3 _. cbv beta iota.
  apply wp_bind. destruct r2 as [a2|]; [|done]. apply wp_ret. apply wp_bind. eapply wp_mod_newkeys; [reflexivity|].
  apply wp_bind, wp_gets. do 2 (apply wp_bind; eapply wp_match_need; [reflexivity|assumption|exact Sc|]; intros ? ? ? ?).
  apply wp_bind, wp_gets. do 2 (apply wp_bind; eapply wp_match_need; [reflexivity|assumption|exact Sm|]; intros ? ? ? ?).
  apply wp_bind, wp_gets. do 2 (apply wp_bind; eapply wp_match_need; [reflexivity|assumption|exact Sz|]; intros ? ? ? ?).
  do 2 (apply wp_bind; eapply wp_eat; [reflexivity|assumption|]; intros ? ?).
  apply wp_bind. eapply (wp_payload _ _ (fun v => v = 0 \/ v = 1)); [reflexivity|by apply wp_getbool|]. intros follows b12 _ Hb12.
  set (s12 := set_x_payload (Some b12) _). set (allgood := default false g1 && default false g2).
  apply wp_bind, (wp_mono _ (fun _ s' => exists ks ig, (ks = x_kexstate s /\ ig = x_ignorenext s \/ ks = set_ks_them_firstfollows true (x_kexstate s)) /\
    s' = set_x_kexstate ks (set_x_ignorenext ig s12))).
  { apply wp_when; intros _.
    - apply wp_bind, wp_modify, wp_when; intros _; [apply wp_modify|]; eexists _, _; (split; [right; reflexivity|]); reflexivity.
    - exists (x_kexstate s), (x_ignorenext s). split; [by left|]. reflexivity. }
  intros [] s' (ks & ig & Hks & ->). change (cf_isclient (x_cfg s)) with (cf_isclient (x_cfg s)). rewrite Hsrv. cbv beta iota.
  apply wp_bind. eapply wp_mod_newkeys; [reflexivity|]. apply wp_bind. eapply wp_mod_newkeys; [reflexivity|].
  apply wp_bind. eapply (wp_payload _ _ (fun _ => True)); [reflexivity|eapply wp_mono; [by apply wp_getint|by intros ? ? [_ ?]]|]. intros v b13 _ Hb13.
  apply wp_bind, wp_gets, wp_when; intros Hg.
  { apply andb_prop in Hg as [Hg _]. change (cf_first_guess (x_cfg s) = true) in Hg. congruence. }
  match goal with |- Q tt (set_x_payload _ (set_x_newkeys (Some ?nk') _)) => apply (HQ nk' b13 ks ig Hb13); [|exact Hks] end.
  split; [exact Hgroup|]. split; apply fresh_dir_made; auto.
Qed.
Lemma wp_hash_string data n (Q : unit -> kses -> Prop) s hb :
  x_kexhashbuf s = Some hb -> wf_buffer hb -> bytes data -> 0 <= n <= zlen data -> n <= OBJECT_MAX ->
  (forall hb', wf_buffer hb' -> Q tt (set_x_kexhashbuf (Some hb') s)) -> wp (on_kexhashbuf (buf_putstring data n)) Q s.
Proof.
  intros E Hb Hd Hn Hm HQ. eapply wp_hashbuf; [exact E| |exact HQ]. unfold buf_putstring.
  apply wp_bind. eapply wp_mono; [by apply wp_putint|]. cbn beta. intros [] b1 Hb1. by apply wp_putprefix.
Qed.

Lemma wp_hash_put_buffer b (Q : unit -> kses -> Prop) s hb :
  x_kexhashbuf s = Some hb -> wf_buffer hb -> wf_buffer b ->
  (forall hb', wf_buffer hb' -> Q tt (set_x_kexhashbuf (Some hb') s)) -> wp (hash_put_buffer b) Q s.
Proof.
  intros E Hb (Hp & Hl & Hs & Ha & Hby) HQ. unfold BUF_MAX_SIZE in *. eapply wp_hash_string; [exact E|exact Hb|exact Hby|lia|unfold OBJECT_MAX; lia|exact HQ].
Qed.

(** Before both KEXINITs are there. *)
Definition before_kexinit s : Prop :=
  ks_recvkexinit (x_kexstate s) = false /\ ks_sentnewkeys (x_kexstate s) = false /\ ks_recvnewkeys (x_kexstate s) = false /\
  (ks_sentkexinit (x_kexstate s) = true -> exists nk t, x_newkeys s = Some nk /\ x_transkexinit s = Some t /\ wf_buffer t).

Lemma before_of_phase s : phase s -> ks_recvkexinit (x_kexstate s) = false -> before_kexinit s.
Proof. intros Hph Hr. destruct Hph; try congruence; (split_and!; [done..|]); intros; [congruence|]. by exists nk, t. Qed.

(** The server's own KEXINIT is out. *)
Lemma wp_own_kexinit s (Q : unit -> kses -> Prop) : kex_static s -> before_kexinit s ->
  (forall s' nk t, kex_static s' -> ks_sentkexinit (x_kexstate s') = true -> ks_recvkexinit (x_kexstate s') = false ->
     ks_sentnewkeys (x_kexstate s') = false -> ks_recvnewkeys (x_kexstate s') = false -> x_newkeys s' = Some nk ->
     x_transkexinit s' = Some t -> wf_buffer t -> x_payload s' = x_payload s -> x_ignorenext s' = x_ignorenext s ->
     x_requirenext s' = x_requirenext s -> Q tt s') ->
  wp (when (negb (ks_sentkexinit (x_kexstate s))) send_msg_kexinit) Q s.
Proof.
  intros Hst (Hr & Hsn & Hrn & Hs) HQ. apply wp_when; intros E.
  - apply wp_send_msg_kexinit; [exact Hst|]. intros b l t r Hb Ht. destruct Hst as [? ? ? ? ?].
    eapply (HQ _ zero_kc t); try reflexivity; try assumption. by split.
  - apply negb_false_iff in E. destruct (Hs E) as (nk & t & ? & ? & ?). by eapply (HQ s nk t).
Qed.

Lemma wp_recv_msg_kexinit s b : kex_static s -> before_kexinit s -> x_ignorenext s = false -> snd (x_requirenext s) = 0 ->
  x_payload s = Some b -> wf_buffer b ->
  wp recv_msg_kexinit (fun _ => kex_inv) s.
Proof.
  intros Hst Hbefore Hig Hrq Eb Hb. unfold recv_msg_kexinit. apply wp_bind, wp_gets, wp_bind, wp_own_kexinit; [exact Hst|exact Hbefore|].
  clear Hst Hbefore. intros s1 nk t Hst Hsent Hrecv Hsn Hrn Hnk Et Ht Ep Eig Erq. rewrite Eb in Ep.
  pose proof Hst as [[Hsrv Hguess] _ _ [Hid Hidl] _].
  apply wp_bind, wp_gets, wp_bind, wp_gets, wp_bind. rewrite Et. apply wp_ret. apply wp_bind, wp_gets, wp_bind. rewrite Ep. apply wp_ret.
  pose proof Hb as (Hbp & Hbl & _). pose proof Ht as (Htp & Htl & _). pose proof (zlen_nonneg (x_remoteident s1)).
  apply wp_bind, wp_buf_new; [change (zlen LOCAL_IDENT) with 24; unfold KEXHASHBUF_MAX_INTS; lia|]. intros hb Hhb _.
  apply wp_bind, wp_modify. unfold cfg. apply wp_bind, wp_gets. change (cf_isclient (x_cfg (set_x_kexhashbuf (Some hb) s1))) with (cf_isclient (x_cfg s1)).
  rewrite Hsrv. apply wp_bind. apply wp_bind. eapply wp_read_kex_algos; [by destruct Hst|exact Ep|exact Hb|exact Hnk|].
  intros nk' b1 ks ig Hb1 Hnk' Hks.
  apply wp_bind. eapply wp_hash_string; [reflexivity|exact Hhb|exact Hid|lia|exact Hidl|]. intros h1 Hh1.
  apply wp_bind. eapply wp_hash_string; [reflexivity|exact Hh1|by apply (bool_decide_eq_true_1 _)|by vm_compute|by vm_compute|]. intros h2 Hh2.
  apply wp_bind. eapply (wp_payload _ _ (fun _ => True)); [reflexivity|eapply wp_mono; [by apply wp_setpos|done]|]. intros [] b2 _ Hb2.
  apply wp_bind, wp_gets, wp_bind, wp_ret.
  apply wp_bind. eapply wp_hash_put_buffer; [reflexivity|exact Hh2|exact Hb2|]. intros h3 Hh3.
  apply wp_bind. eapply wp_hash_put_buffer; [reflexivity|exact Hh3|exact Ht|]. intros h4 Hh4.
  apply wp_modify, wp_bind, wp_modify. unfold kexst. apply wp_modify.
  split; [by destruct Hst|]. cbn [x_kexstate set_x_transkexinit set_x_requirenext set_x_kexhashbuf set_x_payload set_x_newkeys set_x_kexstate].
  assert (Hn' : ks_sentnewkeys ks = false) by (by destruct Hks as [[-> _]| ->]).
  split; [|split; [intros E; cbn in E; congruence|]].
  - eapply phase_received with (nk := nk') (hb := h4); try reflexivity; try assumption; cbn; destruct Hks as [[-> _]| ->]; assumption.
  - unfold guessing. cbn. rewrite Erq. split; [exact Hrq|]. split; [|intros _ _; left; by rewrite Hrq].
    destruct Hks as [[-> ->]| ->]; [|done]. intros E. change (x_ignorenext s1 = true) in E. congruence.
Qed.
(** ** Diffie-Hellman *)

Lemma wp_gen_kexdh_vals s nk (Q : Z * Z -> kses -> Prop) : x_newkeys s = Some nk -> dh_group (kc_algo_kex nk) ->
  (forall pub priv r, 0 <= pub < load_dh_p (kc_algo_kex nk) -> 0 <= priv -> Q (pub, priv) (set_x_random r s)) -> wp gen_kexdh_vals Q s.
Proof.
  intros Hnk Hg HQ. destruct (load_dh_p_ok _ Hg) as [[Hp _] _]. unfold gen_kexdh_vals.
  apply wp_bind, (wp_newkeys nk); [exact Hnk|]. cbv zeta. set (p := load_dh_p (kc_algo_kex nk)) in *.
  apply wp_bind, wp_gets.
  assert (Hq : 0 < Z.shiftr (p - 1) 1) by (rewrite Z.shiftr_div_pow2 by lia; apply Z.div_str_pos; change (2 ^ 1) with 2; lia).
  pose proof (gen_random_mpint_range (Z.shiftr (p - 1) 1) (x_random s) Hq) as Hpriv.
  destruct (gen_random_mpint (Z.shiftr (p - 1) 1) (x_random s)) as [priv r]. cbn [fst] in Hpriv.
  apply wp_bind, wp_modify. rewrite mp_exptmod_ok by (unfold DH_G_VAL; lia || by apply dh_sound). apply wp_ret, HQ; [apply Z.mod_pos_bound; lia|lia].
Qed.

Lemma fips_sha1_hash l : bytes (Sha1.fips_sha1 l) /\ zlen (Sha1.fips_sha1 l) = SHA1_HASH_SIZE.
Proof. by destruct (fips_sha1_ok l). Qed.

Lemma wp_hash_mpint v (Q : unit -> kses -> Prop) s hb :
  x_kexhashbuf s = Some hb -> wf_buffer hb -> v < 2 ^ 2048 ->
  (forall hb', wf_buffer hb' -> Q tt (set_x_kexhashbuf (Some hb') s)) -> wp (on_kexhashbuf (buf_putmpint v)) Q s.
Proof.
  intros E Hb Hv HQ. eapply wp_hashbuf; [exact E| |exact HQ]. apply wp_putmpint; [exact Hb|].
  eapply Z.lt_le_trans; [exact Hv|]. apply Z.pow_le_mono_r; lia.
Qed.

Lemma wp_kexdh_comb_key s nk hb us priv them hostkey (Q : unit -> kses -> Prop) : kex_static s ->
  x_newkeys s = Some nk -> dh_group (kc_algo_kex nk) -> x_kexhashbuf s = Some hb -> wf_buffer hb ->
  0 <= us < load_dh_p (kc_algo_kex nk) -> 0 <= priv ->
  (forall k h sid, 0 <= k < 2 ^ 2048 -> bytes h -> zlen h = SHA1_HASH_SIZE ->
     Q tt (set_x_session_id (Some sid) (set_x_kexhashbuf None (set_x_hash h (set_x_dh_K (Some k) s))))) ->
  wp (kexdh_comb_key us priv them hostkey) Q s.
Proof.
  intros Hst Hnk Hg Ehb Hhb Hus Hpriv HQ. destruct (load_dh_p_ok _ Hg) as [[Hp Hp'] _]. destruct Hst as [[Hsrv _] _ _ _ _].
  unfold kexdh_comb_key. apply wp_bind, (wp_newkeys nk); [exact Hnk|]. cbv zeta. set (p := load_dh_p (kc_algo_kex nk)) in *.
  destruct (Z.ltb_spec them p) as [Hlt|]; [|done]. rewrite Z.gtb_ltb. destruct (Z.ltb_spec 0 them) as [Hpos|]; [|done]. cbn [negb orb].
  rewrite mp_exptmod_ok by (lia || by apply dh_sound). set (k := them ^ priv mod p). assert (Hk : 0 <= k < p) by (apply Z.mod_pos_bound; lia).
  apply wp_bind, wp_modify. unfold cfg. apply wp_bind, wp_gets. change (cf_isclient (x_cfg (set_x_dh_K (Some k) s))) with (cf_isclient (x_cfg s)).
  rewrite Hsrv. cbv beta iota.
  apply wp_bind. eapply wp_hashbuf; [exact Ehb|by apply put_pub_key_safe|]. intros h1 Hh1.
  apply wp_bind. eapply wp_hash_mpint; [reflexivity|exact Hh1|lia|]. intros h2 Hh2.
  apply wp_bind. eapply wp_hash_mpint; [reflexivity|exact Hh2|lia|]. intros h3 Hh3.
  apply wp_bind. eapply wp_hash_mpint; [reflexivity|exact Hh3|lia|]. intros h4 Hh4.
  apply wp_bind. eapply wp_hashbuf; [reflexivity|by apply wp_setpos|]. intros h5 Hh5.
  apply wp_bind. eapply (wp_on_ref _ _ _ _ (fun _ => True)); [reflexivity| |].
  { apply wp_bind, wp_gets. unfold getptr_bytes, id. pose proof Hh5 as (Hh5p & Hh5l & Hh5s & _). unfold BUF_MAX_SIZE in *.
    apply wp_bind. eapply wp_mono; [apply wp_getptr; [exact Hh5|unfold is_u32; lia|unfold OBJECT_MAX; lia]|]. cbn beta.
    intros q ? (-> & -> & Hle). apply wp_load_bytes; [exact Hh5|lia|lia|lia|]. done. }
  intros input h6 _ Hh6. destruct (hs_process _ [] input hs_init) as (hs & Ehs & Hhs). rewrite Ehs.
  apply wp_bind, wp_ret. rewrite (hs_done hs _ Hhs). apply wp_bind, wp_ret, wp_bind, wp_modify.
  apply wp_bind. eapply wp_hashbuf; [reflexivity|by apply wf_burn|]. intros h7 Hh7.
  apply wp_bind, wp_modify, wp_bind, wp_gets. destruct (fips_sha1_hash ([] ++ input)) as [Hby Hlen].
  assert (Hk2 : 0 <= k < 2 ^ 2048) by lia.
  destruct (x_session_id _) as [sid|] eqn:Esid; [|by apply wp_modify, HQ].
  assert (Es : x_session_id s = Some sid) by exact Esid. apply wp_ret. specialize (HQ k _ sid Hk2 Hby Hlen).
  assert (E : set_x_session_id (Some sid) s = s) by (destruct s; cbn in Es; by subst).
  change (Q tt (set_x_kexhashbuf None (set_x_hash (Sha1.fips_sha1 ([] ++ input)) (set_x_dh_K (Some k) (set_x_session_id (Some sid) s))))) in HQ.
  rewrite E in HQ. exact HQ.
Qed.
(** ** Replying and taking the keys into use *)

(** The state between the reply and the new keys. *)
Definition replied s nk (s' : kses) : Prop :=
  exists k sid, kex_static s' /\ x_kexstate s' = x_kexstate s /\ x_newkeys s' = Some nk /\ x_dh_K s' = Some k /\ 0 <= k < 2 ^ 2048 /\
    x_session_id s' = Some sid /\ x_ignorenext s' = x_ignorenext s.

Lemma wp_send_msg_kexdh_reply s nk hb e : kex_static s -> x_newkeys s = Some nk -> dh_group (kc_algo_kex nk) ->
  x_kexhashbuf s = Some hb -> wf_buffer hb -> wp (send_msg_kexdh_reply e) (fun _ => replied s nk) s.
Proof.
  intros Hst Hnk Hg Ehb Hhb. destruct (load_dh_p_ok _ Hg) as [[Hp Hp'] _].
  unfold send_msg_kexdh_reply, cfg. apply wp_bind, (wp_gen_kexdh_vals s nk); [exact Hnk|exact Hg|]. intros f y r Hf Hy. cbv beta iota.
  apply wp_bind, wp_gets, wp_bind. eapply wp_kexdh_comb_key; [by destruct Hst|exact Hnk|exact Hg|exact Ehb|exact Hhb|exact Hf|exact Hy|].
  intros k h sid Hk Hh Hlen. pose proof Hst as [? ? Hwp ? ?].
  apply wp_bind, wp_wp; [apply wp_putbyte; [exact Hwp|by vm_compute]|]. intros [] b1 Hb1.
  apply wp_bind. eapply wp_newkeys; [exact Hnk|].
  apply wp_bind, wp_wp; [by apply put_pub_key_safe|]. intros [] b2 Hb2.
  apply wp_bind, wp_wp; [apply wp_putmpint; [exact Hb2|]|].
  { eapply Z.lt_le_trans with (m := 2 ^ 2048); [lia|]. apply Z.pow_le_mono_r; lia. }
  intros [] b3 Hb3. apply wp_bind, wp_gets, wp_bind, wp_gets.
  apply wp_bind, wp_wp; [by apply put_sign_safe|]. intros r' b4 Hb4.
  apply wp_bind, wp_modify, wp_encrypt_packet; [exact Hb4|]. intros b5 l Hb5.
  exists k, sid. split; [by split|]. split; [reflexivity|]. split; [exact Hnk|]. split; [reflexivity|]. split; [exact Hk|]. by split.
Qed.

Lemma wp_keys k (Q : key_context -> kses -> Prop) s : x_keys s = Some k -> Q k s -> wp keys Q s.
Proof. intros E HQ. unfold keys, wp, bind, gets. by rewrite E. Qed.

Lemma wp_mod_keys f k (Q : unit -> kses -> Prop) s :
  x_keys s = Some k -> Q tt (set_x_keys (Some (f k)) s) -> wp (mod_keys f) Q s.
Proof. intros E HQ. unfold mod_keys. apply wp_bind, (wp_keys k); [exact E|]. exact HQ. Qed.

(** New compression streams replace the old ones. *)
Lemma wp_zstream_recv nk k (Q : unit -> kses -> Prop) s : x_newkeys s = Some nk -> x_keys s = Some k ->
  (forall z k', Q tt (set_x_keys (Some k') (set_x_newkeys (Some (set_kc_recv (set_kd_zstream z (kc_recv nk)) nk)) s))) ->
  wp gen_new_zstream_recv Q s.
Proof.
  intros Hnk Hk HQ. unfold gen_new_zstream_recv. apply wp_bind, (wp_newkeys nk); [exact Hnk|].
  apply wp_bind, (wp_mono _ (fun _ s' => exists z, s' = set_x_newkeys (Some (set_kc_recv (set_kd_zstream z (kc_recv nk)) nk)) s)).
  { destruct (is_zlib _); [destruct inflateInit as [z|]; [|done]|]; (eapply wp_mod_newkeys; [exact Hnk|]; by eexists). }
  intros [] s' (z & ->). apply wp_bind, (wp_keys k); [exact Hk|].
  assert (Hsame : set_x_keys (Some k) s = s) by (destruct s; cbn in Hk; by subst).
  destruct (kd_zstream (kc_recv k)).
  - destruct (inflateEnd _); [|done]. eapply wp_mod_keys; [exact Hk|]. apply HQ.
  - apply wp_ret. specialize (HQ z k).
    change (Q tt (set_x_newkeys (Some (set_kc_recv (set_kd_zstream z (kc_recv nk)) nk)) (set_x_keys (Some k) s))) in HQ. by rewrite Hsame in HQ.
Qed.

Lemma wp_zstream_trans nk k (Q : unit -> kses -> Prop) s : x_newkeys s = Some nk -> x_keys s = Some k ->
  (forall z k', Q tt (set_x_keys (Some k') (set_x_newkeys (Some (set_kc_trans (set_kd_zstream z (kc_trans nk)) nk)) s))) ->
  wp gen_new_zstream_trans Q s.
Proof.
  intros Hnk Hk HQ. unfold gen_new_zstream_trans. apply wp_bind, (wp_newkeys nk); [exact Hnk|].
  apply wp_bind, (wp_mono _ (fun _ s' => exists z, s' = set_x_newkeys (Some (set_kc_trans (set_kd_zstream z (kc_trans nk)) nk)) s)).
  { destruct (is_zlib _); [destruct deflateInit2 as [z|]; [|done]|]; (eapply wp_mod_newkeys; [exact Hnk|]; by eexists). }
  intros [] s' (z & ->). apply wp_bind, (wp_keys k); [exact Hk|].
  assert (Hsame : set_x_keys (Some k) s = s) by (destruct s; cbn in Hk; by subst).
  destruct (kd_zstream (kc_trans k)).
  - destruct (deflateEnd _); [|done]. eapply wp_mod_keys; [exact Hk|]. apply HQ.
  - apply wp_ret. specialize (HQ z k).
    change (Q tt (set_x_newkeys (Some (set_kc_trans (set_kd_zstream z (kc_trans nk)) nk)) (set_x_keys (Some k) s))) in HQ. by rewrite Hsame in HQ.
Qed.

(** The kexstate after both NEWKEYS. *)
Definition ks_reset (ks : kexstate) (now : Z) : kexstate := mkks false false false false false (ks_donefirstkex ks) false now 0 0.

Lemma wp_switch_keys s nk (Q : unit -> kses -> Prop) :
  ks_sentkexinit (x_kexstate s) = true -> ks_recvkexinit (x_kexstate s) = true -> x_newkeys s = Some nk ->
  (forall nk' k', ks_sentnewkeys (x_kexstate s) && ks_recvnewkeys (x_kexstate s) = false ->
     (kd_valid (kc_recv nk) = false -> kd_valid (kc_trans nk) = false -> nk' = nk) -> Q tt (set_x_keys (Some k') (set_x_newkeys (Some nk') s))) ->
  (forall k', ks_sentnewkeys (x_kexstate s) && ks_recvnewkeys (x_kexstate s) = true ->
     Q tt (set_x_kexstate (ks_reset (x_kexstate s) (x_now s)) (set_x_newkeys None (set_x_keys (Some k') s)))) ->
  wp switch_keys Q s.
Proof.
  intros Hs Hr Hnk HQ1 HQ2. unfold switch_keys. apply wp_bind, wp_gets. rewrite Hs, Hr. cbn [andb negb].
  apply wp_bind, wp_gets, wp_bind, (wp_mono _ (fun _ s' => exists k, s' = set_x_keys (Some k) s)).
  { destruct (x_keys s) as [k|] eqn:Ek; [|by eexists]. apply wp_ret. exists k. destruct s; cbn in Ek; by subst. }
  intros [] s' (k & ->). apply wp_bind. eapply wp_newkeys; [exact Hnk|].
  apply wp_bind, (wp_mono _ (fun _ s' => exists k' nk', s' = set_x_keys (Some k') (set_x_newkeys (Some nk') s) /\
    (kd_valid (kc_recv nk) = false -> nk' = nk) /\ kc_trans nk' = kc_trans nk)).
  { apply wp_when; intros Hv.
    - apply andb_prop in Hv as [_ Hv]. apply wp_bind. eapply wp_zstream_recv; [exact Hnk|reflexivity|]. intros z k'.
      apply wp_bind. eapply wp_newkeys; [reflexivity|]. apply wp_bind. eapply wp_mod_keys; [reflexivity|].
      eapply wp_mod_newkeys; [reflexivity|]. eexists _, _. split; [reflexivity|]. split; [congruence|reflexivity].
    - exists k, nk. split; [|done]. assert (E : set_x_newkeys (Some nk) s = s) by (destruct s; cbn in Hnk; by subst).
      change (set_x_keys (Some k) s = set_x_newkeys (Some nk) (set_x_keys (Some k) s)). by rewrite <-E at 1. }
  intros [] s' (k1 & nk1 & -> & Hnk1 & Htr). apply wp_bind. eapply wp_newkeys; [reflexivity|].
  apply wp_bind, (wp_mono _ (fun _ s' => exists k' nk', s' = set_x_keys (Some k') (set_x_newkeys (Some nk') s) /\
    (kd_valid (kc_recv nk) = false -> kd_valid (kc_trans nk) = false -> nk' = nk))).
  { apply wp_when; intros Hv.
    - apply andb_prop in Hv as [_ Hv]. rewrite Htr in Hv. apply wp_bind. eapply wp_zstream_trans; [reflexivity|reflexivity|]. intros z k'.
      apply wp_bind. eapply wp_newkeys; [reflexivity|]. apply wp_bind. eapply wp_mod_keys; [reflexivity|].
      eapply wp_mod_newkeys; [reflexivity|]. eexists _, _. split; [reflexivity|]. congruence.
    - exists k1, nk1. split; [reflexivity|]. intros Hv1 _. by apply Hnk1. }
  intros [] s' (k2 & nk2 & -> & Hnk2). apply wp_when; intros Hb.
  - apply wp_bind. eapply wp_newkeys; [reflexivity|]. do 3 (apply wp_bind; eapply wp_mod_keys; [reflexivity|]).
    apply wp_bind, wp_modify. unfold kexinitialise, kexst. apply wp_bind, wp_gets, wp_modify. by apply HQ2.
  - by apply HQ1.
Qed.
Lemma fresh_dir_ok d : fresh_dir d -> exists c m h, dir_ok d c m h.
Proof. intros (c & m & h & Hd & _). by exists c, m, h. Qed.

Lemma derived_valid KH sid c2s c m h (d d' : key_context_directional St Zs) : derived_dir KH sid c2s c m h d d' -> kd_valid d' = true.
Proof. unfold derived_dir. destruct (letters c2s) as [[iv key] mac]. by intros (? & ? & ? & _ & _ & _ & _ & ->). Qed.

(** After the reply: NEWKEYS goes out, the keys are derived and those of the
    directions that are ready are taken into use. *)
Lemma wp_send_msg_newkeys s nk : negotiated_keys nk -> ks_sentkexinit (x_kexstate s) = true -> ks_recvkexinit (x_kexstate s) = true ->
  forall s', replied s nk s' ->
  wp send_msg_newkeys (fun _ s'' => kex_static s'' /\ x_ignorenext s'' = x_ignorenext s /\
    ((ks_recvnewkeys (x_kexstate s) = false /\ x_kexstate s'' = set_ks_donefirstkex true (set_ks_sentnewkeys true (x_kexstate s)) /\
      is_Some (x_newkeys s'')) \/
     ks_recvnewkeys (x_kexstate s) = true /\ ks_sentkexinit (x_kexstate s'') = false /\ ks_recvkexinit (x_kexstate s'') = false /\
     ks_sentnewkeys (x_kexstate s'') = false /\ ks_recvnewkeys (x_kexstate s'') = false)) s'.
Proof.
  intros (Hg & Hfr & Hft) Hs Hr s' (k & sid & Hst & Eks & Hnk & Hk & Hkr & Hsid & Eig).
  destruct (fresh_dir_ok _ Hfr) as (cr & mr & hr & Hdr). destruct (fresh_dir_ok _ Hft) as (ct & mt & ht & Hdt).
  unfold send_msg_newkeys. pose proof Hst as [? ? Hwp ? [Hhb Hhl]].
  apply wp_bind, wp_wp; [apply wp_putbyte; [exact Hwp|by vm_compute]|]. intros [] b1 Hb1.
  apply wp_bind, wp_encrypt_packet; [exact Hb1|]. intros b2 l Hb2.
  unfold kexst. do 3 apply wp_bind, wp_modify. apply wp_bind, wp_twp.
  set (s2 := set_x_dataallowed true _).
  assert (Hex : exchanged s2 nk k sid cr mr hr ct mt ht).
  { split; [exact Hnk| |exact Hhl|exact Hsid|exact Hdr|exact Hdt]. split; [exact Hk|]. split; [lia|]. destruct (encode_mpint_len k Hkr). lia. }
  eapply twp_mono; [exact (gen_new_keys_ok s2 nk k sid cr mr hr ct mt ht Hex)|]. cbv zeta beta. intros [] s3 (dr & dt & _ & _ & ->).
  eapply wp_switch_keys; [cbn; by rewrite Eks|cbn; by rewrite Eks|reflexivity| |].
  - intros nk' k' Hboth _. cbn in Hboth. rewrite Eks in Hboth. split; [|split; [exact Eig|left; split; [exact Hboth|]]].
    + split; [by destruct Hst..|exact Hb2|by destruct Hst|]. split; [by apply Forall_replicate|reflexivity].
    + cbn. rewrite Eks. split; [reflexivity|by eexists].
  - intros k' Hboth. cbn in Hboth. rewrite Eks in Hboth. split; [|split; [exact Eig|right; split; [exact Hboth|by split_and!]]].
    split; [by destruct Hst..|exact Hb2|by destruct Hst|]. split; [by apply Forall_replicate|reflexivity].
Qed.

Lemma phase_of_received s : phase s -> ks_recvkexinit (x_kexstate s) = true -> ks_sentnewkeys (x_kexstate s) = false ->
  exists nk hb, ks_sentkexinit (x_kexstate s) = true /\ x_newkeys s = Some nk /\ negotiated_keys nk /\ x_transkexinit s = None /\
    x_kexhashbuf s = Some hb /\ wf_buffer hb.
Proof. intros Hph Hr Hn. destruct Hph; try congruence. by exists nk, hb. Qed.

Lemma wp_recv_msg_kexdh_init s b : kex_static s -> phase s -> ks_sentnewkeys (x_kexstate s) = false -> x_ignorenext s = false ->
  x_payload s = Some b -> wf_buffer b -> wp recv_msg_kexdh_init (fun _ => kex_inv) s.
Proof.
  intros Hst Hph Hn Hig Eb Hb. unfold recv_msg_kexdh_init. apply wp_bind, wp_gets.
  destruct (ks_recvkexinit (x_kexstate s)) eqn:Hr; [|done]. cbn [negb].
  destruct (phase_of_received s Hph Hr Hn) as (nk & hb & Hs & Hnk & Hneg & Ht & Ehb & Hhb). pose proof Hneg as (Hg & _).
  apply wp_bind. eapply (wp_payload _ _ (fun _ => True)); [exact Eb|eapply wp_mono; [by apply wp_getmpint|done]|]. intros [e|] b1 _ Hb1; [|done].
  apply wp_bind. eapply wp_mono.
  { apply (wp_send_msg_kexdh_reply _ nk hb); [by destruct Hst|exact Hnk|exact Hg|exact Ehb|exact Hhb]. }
  cbn beta. intros [] s1 Hrep. apply wp_bind. eapply wp_mono.
  { eapply (wp_send_msg_newkeys _ nk Hneg); [exact Hs|exact Hr|exact Hrep]. }
  cbn beta. intros [] s2 (Hst2 & Eig & Hcase). cbn [x_ignorenext set_x_payload x_kexstate] in *. apply wp_modify.
  split; [by destruct Hst2|]. destruct Hcase as [(Hrn & Eks & (nk2 & Hnk2))|(_ & ? & ? & ? & ?)].
  - split; [apply (phase_newkeys _ nk2); cbn; try rewrite Eks; done|]. split; [intros _; split; [reflexivity|]; cbn; by rewrite Eig|].
    split; [reflexivity|]. split; [cbn; by rewrite Eig, Hig|]. intros _ E. cbn in E. by rewrite Eks in E.
  - split; [by apply phase_idle|]. split; [intros E; cbn in E; congruence|]. split; [reflexivity|]. split; [cbn; by rewrite Eig, Hig|].
    intros E. cbn in E. congruence.
Qed.

Lemma wp_recv_msg_newkeys s : kex_static s -> phase s -> x_ignorenext s = false -> snd (x_requirenext s) = 0 ->
  (ks_recvkexinit (x_kexstate s) = true -> ks_sentnewkeys (x_kexstate s) = false -> ks_them_firstfollows (x_kexstate s) = true) ->
  wp recv_msg_newkeys (fun _ => kex_inv) s.
Proof.
  intros Hst Hph Hig Hrq Hthem. unfold recv_msg_newkeys, kexst. apply wp_bind, wp_modify.
  assert (Hst' : kex_static (set_x_kexstate (set_ks_recvnewkeys true (x_kexstate s)) s)) by (by destruct Hst).
  destruct Hph as [s Hs _ _ _|s t nk Hs Hr _ _ _ _ _|s nk hb Hs Hr Hn Hnk Hneg Ht Ehb Hhb|s nk Hs Hr Hn Hrn Hnk].
  - unfold switch_keys. apply wp_bind, wp_gets. cbn. by rewrite Hs.
  - unfold switch_keys. apply wp_bind, wp_gets. cbn. by rewrite Hr, andb_false_r.
  - pose proof Hneg as (_ & (? & ? & ? & _ & Hv1) & (? & ? & ? & _ & Hv2)).
    eapply wp_switch_keys; [exact Hs|exact Hr|exact Hnk| |intros k' Hboth; cbn in Hboth; by rewrite Hn in Hboth].
    intros nk' k' _ Enk. rewrite (Enk Hv1 Hv2). split; [by destruct Hst'|]. split; [by eapply phase_received|].
    split; [intros E; cbn in E; congruence|]. split; [exact Hrq|]. split; [cbn; by rewrite Hig|]. intros _ _. right. by apply Hthem.
  - eapply wp_switch_keys; [exact Hs|exact Hr|exact Hnk|intros ? ? Hboth; cbn in Hboth; by rewrite Hn in Hboth|].
    intros k' _. split; [by destruct Hst'|]. split; [by apply phase_idle|]. split; [done|]. split; [exact Hrq|]. split; [cbn; by rewrite Hig|done].
Qed.
(** ** Packets *)

(** A handler of another message keeps the invariant. *)
Definition keeps_inv (h : prog kses unit) : Prop :=
  forall s b, kex_inv s -> x_ignorenext s = false -> x_payload s = Some b -> wf_buffer b -> wp h (fun _ => kex_inv) s.

(** A table of handlers with the server's rows for the key exchange. *)
Definition server_table (tbl : list (Z * prog kses unit)) : Prop :=
  dispatch tbl SSH_MSG_KEXINIT = recv_msg_kexinit /\ dispatch tbl SSH_MSG_KEXDH_INIT = recv_msg_kexdh_init /\
  dispatch tbl SSH_MSG_NEWKEYS = recv_msg_newkeys /\
  forall t, t <> SSH_MSG_KEXINIT -> t <> SSH_MSG_KEXDH_INIT -> t <> SSH_MSG_NEWKEYS -> keeps_inv (dispatch tbl t).

(** process_packet lets a packet of this type through to its handler. *)
Definition admits s (type : Z) : Prop :=
  fst (x_requirenext s) = 0 \/ fst (x_requirenext s) = type \/ (snd (x_requirenext s) <> 0 /\ snd (x_requirenext s) = type).

(** A KEXINIT where the exchange has one already. *)
Definition second_kexinit s (b : buffer) : Prop :=
  ks_recvkexinit (x_kexstate s) = true /\ x_ignorenext s = false /\ admits s SSH_MSG_KEXINIT /\
  exists b', buf_getbyte b = Ok (SSH_MSG_KEXINIT, b').

Lemma keeps_unimplemented : keeps_inv recv_unimplemented.
Proof.
  intros s b (Hst & Hph & Hn & Hg) _ _ _. pose proof Hst as [? ? Hwp ? ?]. unfold recv_unimplemented.
  apply wp_bind, wp_wp; [apply wp_putbyte; [exact Hwp|by vm_compute]|]. intros [] b1 Hb1.
  apply wp_bind, wp_gets, wp_bind, wp_wp; [by apply wp_putint|]. intros [] b2 Hb2.
  apply wp_encrypt_packet; [exact Hb2|]. intros b3 l Hb3. split; [by destruct Hst|]. split; [|by split].
  destruct Hph; [by apply phase_idle|by eapply phase_sent|by eapply phase_received|by eapply phase_newkeys].
Qed.

(** The session as the handler of a packet sees it. *)
Definition at_handler s (b : buffer) (type : Z) : kses :=
  set_x_requirenext (0, 0) (set_x_last_packet_time (x_now s) (set_x_lastpacket type (set_x_payload (Some b) s))).

Lemma requirenext_same s : x_requirenext s = (0, 0) -> set_x_requirenext (0, 0) s = s.
Proof. destruct s. cbn. by intros ->. Qed.

(** Only NEWKEYS is let in once the server has sent its own. *)
Lemma admits_sentnewkeys s type : newkeys_next s -> admits s type -> type <> SSH_MSG_NEWKEYS -> ks_sentnewkeys (x_kexstate s) = false.
Proof.
  intros Hn Ha Ht. destruct (ks_sentnewkeys (x_kexstate s)) eqn:E; [|done].
  destruct (Hn E) as [Erq _]. unfold admits in Ha. rewrite Erq in Ha. cbn in Ha. by destruct Ha as [?|[?|[? ?]]].
Qed.

(** Between KEXINIT and KEXDH_INIT something else is let in only if the client
    announced a guess. *)
Lemma admits_guess s type : guessing s -> ks_recvkexinit (x_kexstate s) = true -> ks_sentnewkeys (x_kexstate s) = false ->
  admits s type -> type <> SSH_MSG_KEXDH_INIT -> ks_them_firstfollows (x_kexstate s) = true.
Proof.
  intros (_ & _ & Hw) Hr Hsn Ha Ht. destruct (Hw Hr Hsn) as [Erq|]; [|done].
  unfold admits in Ha. rewrite Erq in Ha. cbn in Ha. by destruct Ha as [?|[?|[? ?]]].
Qed.

Lemma phase_at_handler s b type : phase s -> phase (at_handler s b type).
Proof. intros Hph. destruct Hph; [by apply phase_idle|by eapply phase_sent|by eapply phase_received|by eapply phase_newkeys]. Qed.

Lemma static_at_handler s b type : kex_static s -> kex_static (at_handler s b type).
Proof. by destruct 1. Qed.

(** The invariant survives clearing [requirenext] for the packet it let in. *)
Lemma inv_at_handler s b type : kex_inv s -> admits s type -> type <> SSH_MSG_NEWKEYS -> type <> SSH_MSG_KEXDH_INIT ->
  kex_inv (at_handler s b type).
Proof.
  intros (Hst & Hph & Hn & Hg) Ha Ht1 Ht2. pose proof (admits_sentnewkeys s type Hn Ha Ht1) as Hsn.
  split; [by apply static_at_handler|]. split; [by apply phase_at_handler|]. split; [intros E; cbn in E; congruence|].
  split; [done|]. split; [apply Hg|]. intros Hr _. right. by apply (admits_guess s type).
Qed.

(** Dispatching a packet that was let in, except a second KEXINIT. *)
Lemma wp_dispatch tbl s b type : server_table tbl -> kex_inv s -> admits s type -> x_ignorenext s = false -> wf_buffer b ->
  (type = SSH_MSG_KEXINIT -> ks_recvkexinit (x_kexstate s) = false) ->
  wp (dispatch tbl type) (fun _ => kex_inv) (at_handler s b type).
Proof.
  intros (Tki & Tdh & Tnk & Toth) Hinv Ha Hig Hb Hkex. pose proof Hinv as (Hst & Hph & Hn & Hg).
  pose proof (static_at_handler s b type Hst) as Hst'. pose proof (phase_at_handler s b type Hph) as Hph'.
  destruct (Z.eq_dec type SSH_MSG_KEXINIT) as [->|Nki].
  { rewrite Tki. apply (wp_recv_msg_kexinit _ b); [exact Hst'|by apply before_of_phase, Hkex|exact Hig|reflexivity|reflexivity|exact Hb]. }
  destruct (Z.eq_dec type SSH_MSG_KEXDH_INIT) as [->|Ndh].
  { rewrite Tdh. apply (wp_recv_msg_kexdh_init _ b); [exact Hst'|exact Hph'| |exact Hig|reflexivity|exact Hb].
    by apply (admits_sentnewkeys s SSH_MSG_KEXDH_INIT). }
  destruct (Z.eq_dec type SSH_MSG_NEWKEYS) as [->|Nnk].
  { rewrite Tnk. apply wp_recv_msg_newkeys; [exact Hst'|exact Hph'|exact Hig|reflexivity|].
    intros Hr Hsn. by apply (admits_guess s SSH_MSG_NEWKEYS). }
  apply (Toth type Nki Ndh Nnk _ b); [by apply inv_at_handler|exact Hig|reflexivity|exact Hb].
Qed.
Lemma inv_payload s p : kex_inv s -> kex_inv (set_x_payload p s).
Proof.
  intros (Hst & Hph & Hn & Hg). split; [by destruct Hst|]. split; [|by split].
  destruct Hph; [by apply phase_idle|by eapply phase_sent|by eapply phase_received|by eapply phase_newkeys].
Qed.

(** The session with the packet's type taken from the payload. *)
Definition at_type s (b : buffer) (type : Z) : kses :=
  set_x_last_packet_time (x_now s) (set_x_lastpacket type (set_x_payload (Some b) s)).

Lemma inv_at_type s b type : kex_inv s -> kex_inv (at_type s b type).
Proof.
  intros (Hst & Hph & Hn & Hg). split; [by destruct Hst|]. split; [|by split].
  destruct Hph; [by apply phase_idle|by eapply phase_sent|by eapply phase_received|by eapply phase_newkeys].
Qed.

(** Either the packet is let in, or the session ends. *)
Lemma wp_requirenext s b type r0 (Q : unit -> kses -> Prop) : x_requirenext s = (r0, 0) ->
  (admits s type -> Q tt (at_handler s b type)) ->
  wp (if negb (r0 =? 0) then
        if negb (r0 =? type) && ((0 =? 0) || negb (0 =? type)) then dropbear_exit "Unexpected packet type"
        else modify (set_x_requirenext (0, 0))
      else ret tt) Q (at_type s b type).
Proof.
  intros Erq HQ. unfold admits in HQ. rewrite Erq in HQ. cbn [fst snd] in HQ. destruct (Z.eqb_spec r0 0) as [->|Hr0]; cbn [negb].
  - apply wp_ret. specialize (HQ (or_introl eq_refl)).
    assert (E : set_x_requirenext (0, 0) (at_type s b type) = at_type s b type) by (apply requirenext_same; exact Erq). by rewrite <-E.
  - destruct (Z.eqb_spec r0 type) as [->|]; [|done]. cbn [negb andb]. apply wp_modify, HQ. by right; left.
Qed.

(** A packet that is ignored. *)
Lemma inv_ignored s b type : kex_inv s -> x_ignorenext s = true -> kex_inv (set_x_ignorenext false (at_handler s b type)).
Proof.
  intros (Hst & Hph & Hn & (Hs & Hi & Hw)) Hig.
  assert (Hsn : ks_sentnewkeys (x_kexstate s) = false) by (destruct (ks_sentnewkeys _) eqn:E; [destruct (Hn E); congruence|done]).
  split; [by destruct Hst|]. split; [|split; [intros E; cbn in E; congruence|split; [done|split; [done|]]]].
  - destruct Hph; [by apply phase_idle|by eapply phase_sent|by eapply phase_received|by eapply phase_newkeys].
  - intros _ _. right. by apply Hi.
Qed.

Lemma wp_process_packet tbl s b : server_table tbl -> kex_inv s -> x_payload s = Some b -> wf_buffer b -> ~ second_kexinit s b ->
  wp (process_packet tbl) (fun _ s' => kex_inv s' /\ x_payload s' = None) s.
Proof.
  intros Htbl Hinv Eb Hb Hno. pose proof Hinv as (Hst & Hph & Hn & (Hsnd & Hi & _)).
  assert (Hdone : forall s', kex_inv s' -> kex_inv (set_x_payload None s') /\ x_payload (set_x_payload None s') = None) by (intros s' Hs'; split; [by apply inv_payload|done]).
  unfold process_packet. apply wp_bind. unfold on_payload, on_ref, wp at 1. rewrite Eb.
  pose proof (wp_getbyte b Hb) as Hget. unfold wp in Hget. destruct (buf_getbyte b) as [[type b1]| |] eqn:Eg; [|done..].
  destruct Hget as [Htype Hb1].
  apply wp_bind, wp_modify, wp_bind, wp_gets, wp_bind, wp_modify. change (x_now _) with (x_now s).
  change (set_x_last_packet_time _ _) with (at_type s b1 type).
  apply wp_bind, (wp_mono _ (fun _ => kex_inv)); [|intros [] s' Hs'; apply wp_modify; by apply Hdone].
  destruct ((type =? SSH_MSG_IGNORE) || (type =? SSH_MSG_DEBUG)); [by apply wp_ret, inv_at_type|].
  destruct (type =? SSH_MSG_UNIMPLEMENTED); [done|]. destruct (type =? SSH_MSG_DISCONNECT); [done|].
  apply wp_bind, wp_gets. change (x_requirenext (at_type s b1 type)) with (x_requirenext s).
  destruct (x_requirenext s) as [r0 r1] eqn:Erq. cbn in Hsnd. subst r1.
  apply wp_bind, (wp_requirenext s b1 type r0); [exact Erq|]. intros Ha.
  apply wp_bind, wp_gets. change (x_ignorenext (at_handler s b1 type)) with (x_ignorenext s).
  destruct (x_ignorenext s) eqn:Hig; [by apply wp_modify, inv_ignored|].
  apply wp_bind, wp_gets. destruct (negb _ && _); [done|].
  apply wp_dispatch; [exact Htbl|exact Hinv|exact Ha|exact Hig|exact Hb1|].
  intros ->. destruct (ks_recvkexinit (x_kexstate s)) eqn:Hr; [|done]. destruct Hno. unfold second_kexinit. split_and!; [done..|]. by exists b1.
Qed.

(** On a second KEXINIT there is no copy of the server's own KEXINIT left. *)
Lemma second_kexinit_null tbl s b : server_table tbl -> kex_inv s -> x_payload s = Some b -> wf_buffer b -> second_kexinit s b ->
  process_packet tbl s = Fault "null pointer" /\ ks_them_firstfollows (x_kexstate s) = true.
Proof.
  intros (Tki & _) (_ & Hph & Hn & Hg) Eb Hb (Hr & Hig & Ha & b1 & Eg).
  pose proof (admits_sentnewkeys s _ Hn Ha ltac:(done)) as Hsn.
  split; [|by apply (admits_guess s SSH_MSG_KEXINIT)].
  destruct (phase_of_received s Hph Hr Hsn) as (nk & hb & Hs & _ & _ & Ht & _). pose proof Hg as (Hsnd & _).
  assert (Epay : on_payload buf_getbyte s = Ok (SSH_MSG_KEXINIT, set_x_payload (Some b1) s)) by (unfold on_payload, on_ref; by rewrite Eb, Eg).
  unfold process_packet. rewrite (bind_ok _ _ _ _ _ Epay).
  assert (Hfault : recv_msg_kexinit (at_handler s b1 SSH_MSG_KEXINIT) = Fault "null pointer").
  { unfold recv_msg_kexinit, bind, gets. cbn [x_kexstate at_handler set_x_requirenext set_x_last_packet_time set_x_lastpacket set_x_payload].
    rewrite Hs. cbn. by rewrite Ht. }
  unfold bind at 1 2 3 4, modify at 1 2, gets at 1. cbv beta iota.
  change (set_x_last_packet_time _ _) with (at_type s b1 SSH_MSG_KEXINIT).
  change ((SSH_MSG_KEXINIT =? SSH_MSG_IGNORE) || (SSH_MSG_KEXINIT =? SSH_MSG_DEBUG)) with false.
  change (SSH_MSG_KEXINIT =? SSH_MSG_UNIMPLEMENTED) with false. change (SSH_MSG_KEXINIT =? SSH_MSG_DISCONNECT) with false. cbv iota.
  match goal with |- match ?m _ with _ => _ end = _ => assert (E : m (at_type s b1 SSH_MSG_KEXINIT) = Fault "null pointer"); [|by rewrite E] end.
  unfold bind at 1, gets at 1. change (x_requirenext (at_type s b1 SSH_MSG_KEXINIT)) with (x_requirenext s).
  unfold admits in Ha. destruct (x_requirenext s) as [r0 r1] eqn:Erq. cbn in Hsnd, Ha. subst r1.
  assert (Erq' : (if negb (r0 =? 0) then
      if negb (r0 =? SSH_MSG_KEXINIT) && ((0 =? 0) || negb (0 =? SSH_MSG_KEXINIT)) then dropbear_exit "Unexpected packet type"
      else modify (set_x_requirenext (0, 0)) else ret tt) (at_type s b1 SSH_MSG_KEXINIT) = Ok (tt, at_handler s b1 SSH_MSG_KEXINIT)).
  { destruct Ha as [->|[->|[? ?]]]; [|done..]. cbn [Z.eqb negb]. unfold ret, at_handler. f_equal. f_equal. symmetry. by apply requirenext_same. }
  rewrite (bind_ok _ _ _ _ _ Erq'). unfold bind, gets. change (x_ignorenext (at_handler s b1 SSH_MSG_KEXINIT)) with (x_ignorenext s).
  rewrite Hig. change (SSH_MSG_KEXINIT >? MAX_UNAUTH_PACKET_TYPE) with false. rewrite andb_false_r, Tki. exact Hfault.
Qed.
(** ** A session *)

(** What reaches the session: a decrypted packet, or a turn of the main loop
    at a time, with the packet layer's counters. *)
Inductive event := ev_packet (p : list Z) | ev_turn (now datatrans datarecv : Z).

Definition packet_buffer (p : list Z) : buffer := mkbuf p (zlen p) 0 (zlen p).

Definition session_step (tbl : list (Z * prog kses unit)) (e : event) : prog kses unit :=
  match e with
  | ev_packet p => modify (set_x_payload (Some (packet_buffer p))) ;;; process_packet tbl
  | ev_turn now datatrans datarecv =>
      modify (set_x_now now) ;;;
      kexst (fun ks => set_ks_datatrans datatrans (set_ks_datarecv datarecv ks)) ;;;
      checktimeouts_rekey
  end.

Fixpoint session_run tbl (es : list event) : prog kses unit :=
  match es with
  | [] => ret tt
  | e :: es => session_step tbl e ;;; session_run tbl es
  end.

(** The session from the point where svr_session starts the key exchange. *)
Definition svr_session tbl (es : list event) : prog kses unit := send_msg_kexinit ;;; session_run tbl es.

(** Packets fit a buffer. *)
Definition event_ok (e : event) : Prop := match e with ev_packet p => bytes p /\ zlen p <= BUF_MAX_SIZE | ev_turn _ _ _ => True end.

Lemma phase_idle_flags s : phase s -> ks_sentkexinit (x_kexstate s) = false ->
  ks_recvkexinit (x_kexstate s) = false /\ ks_sentnewkeys (x_kexstate s) = false /\ ks_recvnewkeys (x_kexstate s) = false.
Proof. intros Hph E. destruct Hph; [done|congruence..]. Qed.

Lemma second_kexinit_dec s b : second_kexinit s b \/ ~ second_kexinit s b.
Proof.
  unfold second_kexinit, admits. destruct (ks_recvkexinit (x_kexstate s)); [|by right; intros [? _]].
  destruct (x_ignorenext s); [by right; intros (_ & ? & _)|].
  destruct (decide (fst (x_requirenext s) = 0 \/ fst (x_requirenext s) = SSH_MSG_KEXINIT \/
    (snd (x_requirenext s) <> 0 /\ snd (x_requirenext s) = SSH_MSG_KEXINIT))); [|by right; intros (_ & _ & ? & _)].
  destruct (buf_getbyte b) as [[t b']| |] eqn:E; [|by right; intros (_ & _ & _ & ? & ?)..].
  destruct (decide (t = SSH_MSG_KEXINIT)) as [->|]; [left; split_and!; [done..|by exists b']|right; intros (_ & _ & _ & ? & [= ? ?]); done].
Qed.

Lemma packet_buffer_wf p : bytes p -> zlen p <= BUF_MAX_SIZE -> wf_buffer (packet_buffer p).
Proof. intros Hp Hl. pose proof (zlen_nonneg p). unfold wf_buffer, packet_buffer. cbn. split_and!; try lia. exact Hp. Qed.

(** Starting an exchange when none is under way. *)
Lemma wp_start_exchange s : kex_inv s -> ks_sentkexinit (x_kexstate s) = false -> wp send_msg_kexinit (fun _ => kex_inv) s.
Proof.
  intros (Hst & Hph & Hn & Hg) E. apply wp_send_msg_kexinit; [exact Hst|]. intros b l t r Hb Ht. destruct Hst as [? ? ? ? ?].
  destruct (phase_idle_flags s Hph E) as (Hr & Hsn & Hrn). split; [by split|]. split; [by eapply (phase_sent _ t zero_kc)|].
  split; [exact Hn|]. destruct Hg as (? & ? & ?). by split.
Qed.

Lemma wp_turn now datatrans datarecv tbl s : kex_inv s -> wp (session_step tbl (ev_turn now datatrans datarecv)) (fun _ => kex_inv) s.
Proof.
  intros (Hst & Hph & Hn & Hg). cbn [session_step]. apply wp_bind, wp_modify, wp_bind, wp_modify.
  set (s1 := set_x_kexstate _ _).
  assert (Hinv : kex_inv s1).
  { split; [by destruct Hst|]. split; [|by split]. destruct Hph; [by apply phase_idle|by eapply phase_sent|by eapply phase_received|by eapply phase_newkeys]. }
  unfold checktimeouts_rekey. apply wp_bind, wp_gets, wp_bind, wp_gets, wp_when; intros E; [|exact Hinv].
  apply andb_prop in E as [E _]. apply negb_true_iff in E. by apply wp_start_exchange.
Qed.

Lemma session_step_ok tbl e s : server_table tbl -> kex_inv s -> event_ok e ->
  match session_step tbl e s with
  | Ok (_, s') => kex_inv s'
  | Exit _ => True
  | Fault w => w = "null pointer" /\ exists p, e = ev_packet p /\ second_kexinit s (packet_buffer p) /\ ks_them_firstfollows (x_kexstate s) = true
  end.
Proof.
  intros Htbl Hinv He. destruct e as [p|now dt dr].
  - destruct He as [Hp Hl]. set (s1 := set_x_payload (Some (packet_buffer p)) s).
    change (session_step tbl (ev_packet p) s) with (process_packet tbl s1).
    assert (Hinv1 : kex_inv s1) by by apply inv_payload.
    pose proof (packet_buffer_wf p Hp Hl) as Hwf. destruct (second_kexinit_dec s1 (packet_buffer p)) as [Hsec|Hno].
    + destruct (second_kexinit_null tbl s1 _ Htbl Hinv1 eq_refl Hwf Hsec) as [-> Hthem]. split; [done|]. by exists p.
    + pose proof (wp_process_packet tbl s1 _ Htbl Hinv1 eq_refl Hwf Hno) as Hwp. unfold wp in Hwp.
      destruct (process_packet tbl s1) as [[[] s']| |w]; [by destruct Hwp|done..].
  - pose proof (wp_turn now dt dr tbl s Hinv) as Hwp. unfold wp in Hwp. by destruct (session_step tbl _ s) as [[[] s']| |w].
Qed.

Lemma session_run_ok tbl es s : server_table tbl -> kex_inv s -> Forall event_ok es ->
  match session_run tbl es s with
  | Ok (_, s') => kex_inv s'
  | Exit _ => True
  | Fault w => w = "null pointer" /\ exists es1 p es2 s1, es = es1 ++ ev_packet p :: es2 /\ session_run tbl es1 s = Ok (tt, s1) /\
      second_kexinit s1 (packet_buffer p) /\ ks_them_firstfollows (x_kexstate s1) = true
  end.
Proof.
  intros Htbl. revert s. induction es as [|e es IH]; intros s Hinv Hes; [exact Hinv|].
  apply Forall_cons in Hes as [He Hes]. pose proof (session_step_ok tbl e s Htbl Hinv He) as Hstep. cbn [session_run]. unfold bind at 1.
  destruct (session_step tbl e s) as [[[] s1]| |w] eqn:E; [|done|].
  - specialize (IH s1 Hstep Hes). destruct (session_run tbl es s1) as [[[] s']| |w]; [exact IH|done|].
    destruct IH as (-> & es1 & p & es2 & s2 & -> & Hrun & Hsec & Hthem). split; [done|].
    exists (e :: es1), p, es2, s2. split; [done|]. split; [|done]. cbn [session_run]. by rewrite (bind_ok _ _ _ _ _ E).
  - destruct Hstep as (-> & p & -> & Hsec & Hthem). split; [done|]. exists [], p, es, s. by split.
Qed.

(** A fresh session of a server. *)
Lemma new_session_inv (cfg : config K) r ident : cf_isclient cfg = false -> cf_first_guess cfg = false ->
  let s : kses := new_session cfg r ident in
  tables_ok (tables_of s) -> from_tables (tables_of s) -> bytes ident -> zlen ident <= OBJECT_MAX -> kex_inv s.
Proof.
  intros Hc Hg s Hok Hfrom Hb Hl. split; [|split; [by apply phase_idle|by split]].
  split; [done|done| |done|].
  - unfold s, new_session. cbn [x_writepayload]. unfold wf_buffer. cbn [b_pos b_len b_size b_data].
    unfold zlen. rewrite length_replicate. unfold TRANS_MAX_PAYLOAD_LEN, BUF_MAX_SIZE. split_and!; try lia. by apply Forall_replicate.
  - split; [by apply Forall_replicate|reflexivity].
Qed.
End Safe.

(** ** A concrete server *)

#[export] Instance toy_zlib : ZlibStreams unit := { inflateInit := Some tt; deflateInit2 := Some tt; inflateEnd _ := true; deflateEnd _ := true }.
#[export] Program Instance toy_random_mp_laws : RandomMpLaws Z.
Next Obligation. intros max r Hmax. cbn. by apply Z.mod_pos_bound. Qed.
#[export] Program Instance toy_signkey_safe {R} : SignKeySafe unit R.
Next Obligation. intros R k type b Hb. apply (wp_putstring b [7]); [exact Hb|apply (bool_decide_eq_true_1 _); reflexivity|by vm_compute]. Qed.
Next Obligation.
  intros R k type hash r b Hb Hh Hl. cbn [buf_put_sign toy_signkey]. apply wp_bind.
  eapply wp_mono; [apply wp_putstring; [exact Hb|exact Hh|by rewrite Hl]|]. cbn beta. intros [] b' Hb'. by apply wp_ret.
Qed.

Abbreviation toy_kses := (kses unit (Z * list Z * list Z) unit Z).

Lemma svr_kex_table : server_table (svr_kex_packettypes : list (Z * prog toy_kses unit)).
Proof.
  split; [reflexivity|]. split; [reflexivity|]. split; [reflexivity|]. intros t H1 H2 H3. cbn [dispatch svr_kex_packettypes].
  rewrite !(proj2 (Z.eqb_neq _ _)) by congruence. apply keeps_unimplemented.
Qed.

(** A KEXINIT of the toy client announcing a guess; the client's table has
    the CBC ciphers only, so its guess is wrong. *)
Definition guessed_kexinit : list Z := Eval vm_compute in toy_kexinit true.
Definition dh_init_packet (e : Z) : list Z := SSH_MSG_KEXDH_INIT :: encode_mpint e.
Definition toy_attack : list event :=
  [ev_packet guessed_kexinit; ev_packet (dh_init_packet 4); ev_packet guessed_kexinit].

(** ** Properties *)




(** A client after its first exchange. *)
Definition toy_running : toy_kses :=
  let s := toy_idle true in
  set_x_requirenext (0, 0) (set_x_kexstate (set_ks_donefirstkex true (x_kexstate s)) s).

Lemma process_packet_unexpected {K St Zs R : Type} `{SignKey K R} `{CipherStart St} `{ZlibStreams Zs} `{Random R} `{RandomMp R} `{ExptMod}
    (tbl : list (Z * prog (kses K St Zs R) unit)) s b type b' r0 r1 :
  x_payload s = Some b -> buf_getbyte b = Ok (type, b') -> x_requirenext s = (r0, r1) -> r0 <> 0 -> r1 <> 0 ->
  type <> r0 -> type <> r1 -> SSH_MSG_UNIMPLEMENTED < type -> type <> SSH_MSG_DEBUG ->
  process_packet tbl s = Exit "Unexpected packet type".
Proof.
  intros Eb Eg Erq Hr0 Hr1 N0 N1 Hl Hd. unfold process_packet. rewrite (bind_ok _ _ _ type (set_x_payload (Some b') s)).
  2: { unfold on_payload, on_ref. by rewrite Eb, Eg. }
  assert (E1 : (type =? SSH_MSG_IGNORE) = false) by (apply Z.eqb_neq; unfold SSH_MSG_UNIMPLEMENTED, SSH_MSG_IGNORE in *; lia).
  assert (E2 : (type =? SSH_MSG_DEBUG) = false) by by apply Z.eqb_neq.
  assert (E3 : (type =? SSH_MSG_UNIMPLEMENTED) = false) by (apply Z.eqb_neq; lia).
  assert (E4 : (type =? SSH_MSG_DISCONNECT) = false) by (apply Z.eqb_neq; unfold SSH_MSG_UNIMPLEMENTED, SSH_MSG_DISCONNECT in *; lia).
  assert (E5 : negb (r0 =? 0) = true) by by apply negb_true_iff, Z.eqb_neq.
  assert (E6 : negb (r0 =? type) && ((r1 =? 0) || negb (r1 =? type)) = true).
  { rewrite !(proj2 (Z.eqb_neq _ _)) by congruence. done. }
  unfold bind, modify, gets. rewrite E1, E2, E3, E4. cbn [orb].
  cbn [x_requirenext set_x_last_packet_time set_x_lastpacket set_x_payload]. rewrite Erq. by rewrite E5, E6.
Qed.

(** A client that starts a new exchange, here because it is time, disconnects on the
    next packet its peer sent before it saw the client's KEXINIT: sending the
    guessed KEXDH_INIT along with KEXINIT makes it require KEXDH_REPLY or
    KEXINIT next, where RFC 4253 section 9 lets the peer send until it
    answers.  The packet may be a window adjustment or channel data. *)
Theorem client_rekey_rejects_packets_in_flight :
  exists s1, session_step cli_kex_packettypes (ev_turn KEX_REKEY_TIMEOUT 0 0) toy_running = Ok (tt, s1) /\
    forall tbl type p, 50 <= type < 256 ->
      session_step tbl (ev_packet (type :: p)) s1 = Exit "Unexpected packet type".
Proof.
  assert (E : exists s1, session_step cli_kex_packettypes (ev_turn KEX_REKEY_TIMEOUT 0 0) toy_running = Ok (tt, s1) /\
    x_requirenext s1 = (SSH_MSG_KEXDH_REPLY, SSH_MSG_KEXINIT)) by (eexists; split; vm_compute; reflexivity).
  destruct E as (s1 & E & Erq). exists s1. split; [exact E|]. intros tbl type p Ht.
  cbn [session_step]. unfold bind, modify.
  eapply (process_packet_unexpected tbl _ (packet_buffer (type :: p)) type); [reflexivity| |exact Erq|done..| | | |].
  - unfold buf_getbyte, packet_buffer, bind, gets. cbn [b_pos b_len b_data id]. z_guards. exact eq_refl.
  - unfold SSH_MSG_KEXDH_REPLY. lia.
  - unfold SSH_MSG_KEXINIT. lia.
  - unfold SSH_MSG_UNIMPLEMENTED. lia.
  - unfold SSH_MSG_DEBUG. lia.
Qed.
