(* ===== verification/SignCommon.v ===== *)
(** What dss.c and rsa.c share: their error returns, one-shot SHA-1, numbers
    that a key's encoding can carry, and the arithmetic modulo a number that
    both signature schemes rest on. *)

From S2P Require Import Prelude Dbutil Buffer Mpint Bignum Ssh Hmac Packet MdHash Sha1 Hashes Kex KexKeys KexHash.

Local Open Scope Z_scope.
Local Open Scope prog_scope.

(** ** Reading and checking with an early return *)

(** [if (... == DROPBEAR_FAILURE) return DROPBEAR_FAILURE;] *)
Notation "x <~? m ;; k" := (bind m (fun o => match o with Some x => k | None => ret None end))
  (at level 100, m at next level, right associativity) : prog_scope.

(** [if (... != MP_OKAY) goto out;], where the result at [out] is a failure. *)
Notation "x <~! m ;; k" := (match m with Some x => k | None => ret false end)
  (at level 100, m at next level, right associativity) : prog_scope.

(** [if (... != MP_OKAY) dropbear_exit(msg);] *)
Definition or_exit {S A} (msg : string) (o : option A) : prog S A := match o with Some a => ret a | None => dropbear_exit msg end.

(** [dropbear_assert(p != NULL)] *)
Definition nonnull {S A} (p : option A) : prog S A := or_exit "Failed assertion" p.

(** sha1_init, sha1_process and sha1_done on one piece of data. *)
Definition sha1 {S} (data : list Z) : prog S (list Z) :=
  hs <- hashed (Sha1.sha1_process (Sha1.sha1_init fresh_buf) data) ;;
  hashed (Sha1.sha1_done hs).

(** ** Reading *)

(** A number that a buffer's mpint can carry. *)
Definition is_mpint (a : Z) : Prop := 0 <= a /\ zlen (mpint_bytes a) <= BUF_MAX_MPINT.

Lemma or_fail_some {A B} (m : prog buffer (option A)) (k : A -> prog buffer (option B)) b a b' :
  m b = Ok (Some a, b') -> bind m (fun o => match o with Some x => k x | None => ret None end) b = k a b'.
Proof. intros E. by rewrite (bind_ok _ _ _ _ _ E). Qed.

Lemma repr_getmp b pre a post room : is_mpint a -> buf_repr b pre (encode_mpint a ++ post) room ->
  exists b', buf_getmpint b = Ok (Some a, b') /\ buf_repr b' (pre ++ encode_mpint a) post room.
Proof. intros [Ha Hl]. by apply repr_getmpint. Qed.

Lemma sha1_ok {S} data (s : S) : sha1 data s = Ok (Sha1.fips_sha1 data, s).
Proof.
  unfold sha1. destruct (hs_process _ [] data hs_init) as (hs & E & Hs). rewrite E.
  rewrite (bind_ok _ _ _ hs s) by reflexivity. by rewrite (hs_done _ _ Hs).
Qed.

(** ** Arithmetic *)

Lemma read_nonneg l : bytes l -> 0 <= mp_read_unsigned_bin l.
Proof. intros Hl. pose proof (read_acc l 0 ltac:(lia) Hl). unfold mp_read_unsigned_bin. lia. Qed.

(** The inverse is unique modulo [q]. *)
Lemma inverse_unique q s w w' : 1 < q -> (w * s) mod q = 1 -> (w' * s) mod q = 1 -> w mod q = w' mod q.
Proof.
  intros Hq Hw Hw'. assert (E : (w * (w' * s)) mod q = (w' * (w * s)) mod q) by (f_equal; ring).
  rewrite <-Z.mul_mod_idemp_r, Hw', Z.mul_1_r in E by lia. by rewrite <-(Z.mul_mod_idemp_r w'), Hw, Z.mul_1_r in E by lia.
Qed.

Lemma inverse_scaled q a s w w' : 1 < q -> (w * s) mod q = 1 -> (w' * s) mod q = 1 -> (a * w) mod q = (a * w') mod q.
Proof.
  intros Hq Hw Hw'. rewrite <-(Z.mul_mod_idemp_r a w), <-(Z.mul_mod_idemp_r a w') by lia. by rewrite (inverse_unique q s w w').
Qed.

(** [s] has no inverse when it shares a factor with [q]. *)
Lemma inverse_gcd q s w : 1 < q -> (w * s) mod q = 1 -> Z.gcd s q = 1.
Proof.
  intros Hq Hw. apply Z.bezout_1_gcd. exists w, (- ((w * s) / q)). pose proof (Z.div_mod (w * s) q ltac:(lia)). lia.
Qed.

(** Powers of an element whose order divides [q]. *)
Lemma pow_mod_order g p q a b : 1 < p -> 0 < q -> g ^ q mod p = 1 -> 0 <= a -> 0 <= b -> a mod q = b mod q -> g ^ a mod p = g ^ b mod p.
Proof.
  intros Hp Hq Hg. assert (Hred : forall a, 0 <= a -> g ^ a mod p = g ^ (a mod q) mod p).
  { intros c Hc. pose proof (Z.div_pos c q Hc Hq). pose proof (Z.mod_pos_bound c q Hq). rewrite (Z.div_mod c q) at 1 by lia.
    rewrite Z.pow_add_r, Z.pow_mul_r by lia. rewrite <-Z.mul_mod_idemp_l, <-Z.mod_pow_l, Hg, Z.pow_1_l by lia.
    by rewrite Z.mod_1_l, Z.mul_1_l by lia. }
  intros Ha Hb E. by rewrite (Hred a Ha), (Hred b Hb), E.
Qed.
