(* ===== verification/Dss.v ===== *)
(** DSS signatures: dss.c, with the part of FIPS 186 it implements.  A key
    is its numbers; the private [x] may be absent. *)

From S2P Require Import Prelude Dbutil Buffer Mpint Bignum Ssh Packet MdHash Sha1 Hashes Kex KexHash SignCommon.

Local Open Scope Z_scope.
Local Open Scope prog_scope.

(** ** Code *)

Definition SSH_SIGNKEY_DSS : string := "ssh-dss".
Definition SSH_SIGNKEY_DSS_LEN : Z := 7.
Definition DSS_SIGNATURE_SIZE : Z := 4 + SSH_SIGNKEY_DSS_LEN + 4 + 2 * SHA1_HASH_SIZE.
Definition MIN_DSS_KEYLEN : Z := 512.

Record dropbear_dss_key := mkdss { dss_p : Z; dss_q : Z; dss_g : Z; dss_y : Z; dss_x : option Z }.

Definition buf_get_dss_pub_key : prog buffer (option dropbear_dss_key) :=
  buf_incrpos (4 + SSH_SIGNKEY_DSS_LEN) ;;;
  p <~? buf_getmpint ;;
  q <~? buf_getmpint ;;
  g <~? buf_getmpint ;;
  y <~? buf_getmpint ;;
  if mp_count_bits p <? MIN_DSS_KEYLEN then ret None
  else ret (Some (mkdss p q g y None)).

Definition buf_get_dss_priv_key : prog buffer (option dropbear_dss_key) :=
  key <~? buf_get_dss_pub_key ;;
  x <~? buf_getmpint ;;
  ret (Some (mkdss (dss_p key) (dss_q key) (dss_g key) (dss_y key) (Some x))).

Definition buf_put_dss_pub_key (key : dropbear_dss_key) : prog buffer unit :=
  buf_putstring (chars SSH_SIGNKEY_DSS) SSH_SIGNKEY_DSS_LEN ;;;
  buf_putmpint (dss_p key) ;;;
  buf_putmpint (dss_q key) ;;;
  buf_putmpint (dss_g key) ;;;
  buf_putmpint (dss_y key).

Definition buf_put_dss_priv_key (key : dropbear_dss_key) : prog buffer unit :=
  buf_put_dss_pub_key key ;;;
  x <- nonnull (dss_x key) ;;
  buf_putmpint x.

Section Dss.
Context `{ExptMod}.

(** [true] is DROPBEAR_SUCCESS. *)
Definition buf_dss_verify (key : dropbear_dss_key) (data : list Z) : prog buffer bool :=
  x <- buf_getstring ;;
  let '(str, stringlen) := x in
  if negb (stringlen =? 2 * SHA1_HASH_SIZE) then ret false
  else
    msghash <- sha1 data ;;
    let val1 := mp_read_unsigned_bin (zslice SHA1_HASH_SIZE SHA1_HASH_SIZE str) in
    if negb (val1 <? dss_q key) then ret false
    else
      o <- mp_invmod val1 (dss_q key) ;;
      val2 <~! o ;;
      let val1 := mp_read_unsigned_bin msghash in
      val3 <~! mp_mulmod val1 val2 (dss_q key) ;;
      let val1 := mp_read_unsigned_bin (zslice 0 SHA1_HASH_SIZE str) in
      if negb (val1 <? dss_q key) then ret false
      else
        val4 <~! mp_mulmod val1 val2 (dss_q key) ;;
        val2 <~! mp_exptmod (dss_g key) val3 (dss_p key) ;;
        val3 <~! mp_exptmod (dss_y key) val4 (dss_p key) ;;
        val4 <~! mp_mulmod val2 val3 (dss_p key) ;;
        val2 <~! mp_mod val4 (dss_q key) ;;
        ret (val2 =? val1).

Definition buf_put_dss_sign {R} `{RandomMp R} (key : dropbear_dss_key) (data : list Z) (rng : R) : prog buffer R :=
  msghash <- sha1 data ;;
  let '(dss_k, rng) := gen_random_mpint (dss_q key) rng in
  let dss_m := mp_read_unsigned_bin msghash in
  dss_temp1 <- or_exit "DSS error" (mp_exptmod (dss_g key) dss_k (dss_p key)) ;;
  dss_r <- or_exit "DSS error" (mp_mod dss_temp1 (dss_q key)) ;;
  x <- deref (dss_x key) ;;
  dss_temp1 <- or_exit "DSS error" (mp_mulmod dss_r x (dss_q key)) ;;
  dss_temp2 <- or_exit "DSS error" (mp_addmod dss_m dss_temp1 (dss_q key)) ;;
  o <- mp_invmod dss_k (dss_q key) ;;
  dss_temp1 <- or_exit "DSS error" o ;;
  dss_s <- or_exit "DSS error" (mp_mulmod dss_temp1 dss_temp2 (dss_q key)) ;;
  buf_putstring (chars SSH_SIGNKEY_DSS) SSH_SIGNKEY_DSS_LEN ;;;
  buf_putint (2 * SHA1_HASH_SIZE) ;;;
  put_padded SHA1_HASH_SIZE dss_r ;;;
  put_padded SHA1_HASH_SIZE dss_s ;;;
  ret rng.
End Dss.

(** ** The public half as bytes *)

Definition dss_pub_bytes (key : dropbear_dss_key) : list Z :=
  store32h SSH_SIGNKEY_DSS_LEN ++ chars SSH_SIGNKEY_DSS ++
  encode_mpint (dss_p key) ++ encode_mpint (dss_q key) ++ encode_mpint (dss_g key) ++ encode_mpint (dss_y key).

Definition dss_public (key : dropbear_dss_key) : dropbear_dss_key := mkdss (dss_p key) (dss_q key) (dss_g key) (dss_y key) None.

Record dss_numbers (key : dropbear_dss_key) : Prop := {
  dn_p : is_mpint (dss_p key); dn_q : is_mpint (dss_q key); dn_g : is_mpint (dss_g key); dn_y : is_mpint (dss_y key)
}.

Lemma put_dss_pub_ok key b pre room Q : dss_numbers key -> buf_repr b pre [] room -> zlen (dss_pub_bytes key) <= room ->
  (forall b', buf_repr b' (pre ++ dss_pub_bytes key) [] (room - zlen (dss_pub_bytes key)) -> Q tt b') ->
  twp (buf_put_dss_pub_key key) Q b.
Proof.
  intros [[Hp _] [Hq _] [Hg _] [Hy _]] Hb Hr HQ. unfold dss_pub_bytes in *. rewrite !zlen_app, zlen_store32h in *.
  change (zlen (chars SSH_SIGNKEY_DSS)) with 7 in *. unfold buf_put_dss_pub_key, SSH_SIGNKEY_DSS_LEN in *.
  pose proof (zlen_nonneg (encode_mpint (dss_p key))). pose proof (zlen_nonneg (encode_mpint (dss_q key))).
  pose proof (zlen_nonneg (encode_mpint (dss_g key))). pose proof (zlen_nonneg (encode_mpint (dss_y key))).
  apply twp_bind. eapply append_putstring; [exact Hb|done|apply (bool_decide_eq_true_1 _); by vm_compute|lia|]. intros b1 Hb1.
  apply twp_bind. eapply append_putmpint; [exact Hp|exact Hb1|lia|]. intros b2 Hb2.
  apply twp_bind. eapply append_putmpint; [exact Hq|exact Hb2|lia|]. intros b3 Hb3.
  apply twp_bind. eapply append_putmpint; [exact Hg|exact Hb3|lia|]. intros b4 Hb4.
  eapply append_putmpint; [exact Hy|exact Hb4|lia|]. intros b5 Hb5. apply HQ.
  rewrite <-!app_assoc in Hb5. match goal with |- buf_repr _ _ _ ?r => match type of Hb5 with buf_repr _ _ _ ?r' => replace r with r' by lia end end. exact Hb5.
Qed.

Lemma get_dss_pub_ok key b pre post room : dss_numbers key ->
  buf_repr b pre (dss_pub_bytes key ++ post) room ->
  exists b', buf_repr b' (pre ++ dss_pub_bytes key) post room /\
    buf_get_dss_pub_key b = Ok (if mp_count_bits (dss_p key) <? MIN_DSS_KEYLEN then None else Some (dss_public key), b').
Proof.
  intros [Hp Hq Hg Hy] Hb. unfold dss_pub_bytes in Hb |- *. rewrite !app_assoc in Hb. set (head := store32h SSH_SIGNKEY_DSS_LEN ++ chars SSH_SIGNKEY_DSS) in *.
  rewrite <-!(app_assoc head), <-!(app_assoc (encode_mpint _)) in Hb.
  assert (Hh : zlen head = 4 + SSH_SIGNKEY_DSS_LEN) by reflexivity.
  destruct (repr_incrpos b pre head _ room _ (eq_sym Hh) Hb) as (b1 & E1 & Hb1).
  destruct (repr_getmp b1 _ _ _ room Hp Hb1) as (b2 & E2 & Hb2). destruct (repr_getmp b2 _ _ _ room Hq Hb2) as (b3 & E3 & Hb3).
  destruct (repr_getmp b3 _ _ _ room Hg Hb3) as (b4 & E4 & Hb4). destruct (repr_getmp b4 _ _ _ room Hy Hb4) as (b5 & E5 & Hb5).
  exists b5. split; [by rewrite <-!app_assoc in Hb5|].
  unfold buf_get_dss_pub_key. rewrite (bind_ok _ _ _ _ _ E1), (or_fail_some _ _ _ _ _ E2), (or_fail_some _ _ _ _ _ E3), (or_fail_some _ _ _ _ _ E4), (or_fail_some _ _ _ _ _ E5).
  by destruct (_ <? _).
Qed.

(** ** FIPS 186 *)

(** The signature (r, s) of the digest [h] verifies: w is the inverse of s. *)
Definition fips_verify (key : dropbear_dss_key) (h r s : Z) : Prop :=
  let p := dss_p key in let q := dss_q key in
  r < q /\ s < q /\
  exists w, (w * s) mod q = 1 /\
    (dss_g key ^ ((h * w) mod q) * dss_y key ^ ((r * w) mod q)) mod p mod q = r.

(** The two halves of a signature blob. *)
Definition sig_r (blob : list Z) : Z := mp_read_unsigned_bin (ztake SHA1_HASH_SIZE blob).
Definition sig_s (blob : list Z) : Z := mp_read_unsigned_bin (zdrop SHA1_HASH_SIZE blob).

Lemma sig_halves blob : zlen blob = 2 * SHA1_HASH_SIZE ->
  zslice SHA1_HASH_SIZE SHA1_HASH_SIZE (blob ++ [0]) = zdrop SHA1_HASH_SIZE blob /\ zslice 0 SHA1_HASH_SIZE (blob ++ [0]) = ztake SHA1_HASH_SIZE blob.
Proof.
  intros Hl. unfold SHA1_HASH_SIZE in *. unfold zslice. rewrite zdrop_0, zdrop_app_le, ztake_app_le, ztake_app_le by (rewrite ?zlen_zdrop; lia).
  split; [|done]. apply ztake_ge. rewrite zlen_zdrop; lia.
Qed.

Section DssLaws.
Context `{ExptModLaws}.
Implicit Types key : dropbear_dss_key.

(** A public key the arithmetic is defined on. *)
Record dss_domain key : Prop := {
  dd_p : 1 < dss_p key; dd_sound : sound_modulus (dss_p key); dd_q : 1 < dss_q key; dd_g : 0 <= dss_g key; dd_y : 0 <= dss_y key
}.

Definition verify_tail key (h r w : Z) : bool :=
  (dss_g key ^ ((h * w) mod dss_q key) * dss_y key ^ ((r * w) mod dss_q key)) mod dss_p key mod dss_q key =? r.

(** The checks from [u1] on, for an inverse [w]. *)
Lemma verify_values key h r w : dss_domain key -> 0 <= h -> 0 <= r ->
  exists v3 v4 g y v, mp_mulmod h w (dss_q key) = Some v3 /\ mp_mulmod r w (dss_q key) = Some v4 /\
    mp_exptmod (dss_g key) v3 (dss_p key) = Some g /\ mp_exptmod (dss_y key) v4 (dss_p key) = Some y /\
    exists v2, mp_mulmod g y (dss_p key) = Some v2 /\ mp_mod v2 (dss_q key) = Some v /\ (v =? r) = verify_tail key h r w.
Proof.
  intros [Hp Hsound Hq Hg Hy] Hh Hr. pose proof (Z.mod_pos_bound (h * w) (dss_q key) ltac:(lia)). pose proof (Z.mod_pos_bound (r * w) (dss_q key) ltac:(lia)).
  set (g := dss_g key ^ ((h * w) mod dss_q key) mod dss_p key). set (y := dss_y key ^ ((r * w) mod dss_q key) mod dss_p key).
  exists ((h * w) mod dss_q key), ((r * w) mod dss_q key), g, y, ((g * y) mod dss_p key mod dss_q key).
  split; [apply mp_mulmod_ok; lia|]. split; [apply mp_mulmod_ok; lia|]. split; [apply mp_exptmod_ok; done || lia|]. split; [apply mp_exptmod_ok; done || lia|].
  exists ((g * y) mod dss_p key). split; [apply mp_mulmod_ok; lia|]. split; [apply mp_mod_ok; lia|].
  unfold verify_tail, g, y. by rewrite <-Z.mul_mod by lia.
Qed.

Lemma verify_tail_fips key h r s w : dss_domain key -> r < dss_q key -> s < dss_q key -> (w * s) mod dss_q key = 1 ->
  verify_tail key h r w = true <-> fips_verify key h r s.
Proof.
  intros [Hp _ Hq _ _] Hr Hs Hw. unfold verify_tail, fips_verify. rewrite Z.eqb_eq. split.
  - intros E. split_and!; [done|done|]. by exists w.
  - intros (_ & _ & w' & Hw' & E). by rewrite (inverse_scaled (dss_q key) h s w w'), (inverse_scaled (dss_q key) r s w w') by done.
Qed.

Lemma dss_verify_ok key data b pre blob post room :
  dss_domain key -> zlen blob <= MAX_STRING_LEN -> bytes blob -> (zlen blob = 2 * SHA1_HASH_SIZE -> sig_s blob <> 0) ->
  buf_repr b pre (store32h (zlen blob) ++ blob ++ post) room ->
  exists ok b', buf_dss_verify key data b = Ok (ok, b') /\ buf_repr b' (pre ++ store32h (zlen blob) ++ blob) post room /\
    (ok = true <-> zlen blob = 2 * SHA1_HASH_SIZE /\
      fips_verify key (mp_read_unsigned_bin (Sha1.fips_sha1 data)) (sig_r blob) (sig_s blob)).
Proof.
  intros Hd Hl Hby Hs0 Hb. pose proof Hd as [Hp Hsound Hq Hg Hy]. destruct (repr_getstring b pre blob post room _ eq_refl Hl Hb) as (b1 & E1 & Hb1).
  unfold buf_dss_verify. rewrite (bind_ok _ _ _ _ _ E1). cbv beta iota.
  destruct (Z.eqb_spec (zlen blob) (2 * SHA1_HASH_SIZE)) as [El|Hne]; cbn [negb]; [|exists false, b1; split_and!; [done|done|by intuition]].
  rewrite (bind_ok _ _ _ _ _ (sha1_ok data b1)). cbn zeta. destruct (sig_halves blob El) as [-> ->]. fold (sig_r blob) (sig_s blob).
  set (h := mp_read_unsigned_bin (Sha1.fips_sha1 data)). assert (Hh : 0 <= h) by (apply read_nonneg, fips_sha1_ok).
  assert (Hr : 0 <= sig_r blob) by (by apply read_nonneg, Forall_ztake). assert (Hs : 0 <= sig_s blob) by (by apply read_nonneg, Forall_zdrop).
  specialize (Hs0 El). revert Hs Hs0 Hr. generalize (sig_s blob) (sig_r blob). intros s r Hs Hs0 Hr.
  assert (Hno : forall P : Prop, ~ P -> (false = true <-> zlen blob = 2 * SHA1_HASH_SIZE /\ P)) by (intros P HP; split; [done|tauto]).
  destruct (Z.ltb_spec s (dss_q key)) as [Hsq|Hsq]; cbn [negb]; [|exists false, b1; split_and!; [done|done|]; apply Hno; intros (_ & Hlt & _); lia].
  destruct (mp_invmod_ok s (dss_q key) b1 Hq Hs) as (o & Eo & Ho); [by rewrite Z.mod_small by lia|]. rewrite (bind_ok _ _ _ _ _ Eo).
  destruct o as [w|]; cbn in Ho; [|exists false, b1; split_and!; [done|done|]; apply Hno; intros (_ & _ & w & Hw & _); by apply inverse_gcd in Hw].
  destruct (verify_values key h r w Hd Hh Hr) as (v3 & v4 & g & y & v & E3 & E4 & Eg & Ey & v2 & Ev2 & Ev & Eok). rewrite E3.
  destruct (Z.ltb_spec r (dss_q key)) as [Hrq|Hrq]; cbn [negb]; [|exists false, b1; split_and!; [done|done|]; apply Hno; intros (Hlt & _); lia].
  rewrite E4, Eg, Ey, Ev2, Ev, Eok. exists (verify_tail key h r w), b1. split_and!; [done|done|].
  rewrite (verify_tail_fips key h r s w) by (try done; apply Ho). tauto.
Qed.

(** ** Signing *)

(** What signing writes. *)
Definition dss_sig_bytes (r s : Z) : list Z :=
  store32h SSH_SIGNKEY_DSS_LEN ++ chars SSH_SIGNKEY_DSS ++ store32h (2 * SHA1_HASH_SIZE) ++ fixed_bytes SHA1_HASH_SIZE r ++ fixed_bytes SHA1_HASH_SIZE s.

(** FIPS 186: the signature of the digest [h] with the nonce [k]. *)
Definition fips_sign key (x k h r s : Z) : Prop :=
  r = dss_g key ^ k mod dss_p key mod dss_q key /\
  exists c, (c * k) mod dss_q key = 1 /\ s = (c * (h + x * r)) mod dss_q key.

Lemma fits_160 a q : 0 <= a < q -> q <= 2 ^ 160 -> mp_unsigned_bin_size a <= SHA1_HASH_SIZE.
Proof.
  intros Ha Hq. rewrite mp_unsigned_bin_size_ok by lia. destruct (mp_to_unsigned_bin_ok a) as (_ & _ & ->); [lia|]. unfold SHA1_HASH_SIZE.
  destruct (Z.eqb_spec a 0); [lia|]. assert (Z.log2 a < 160) by (apply Z.log2_lt_pow2; lia). Z.div_mod_to_equations; lia.
Qed.

Lemma dss_sign_ok {R} `{RandomMp R} key data rng x k rng' b pre room :
  dss_domain key -> dss_q key <= 2 ^ 160 -> dss_x key = Some x -> 0 <= x ->
  gen_random_mpint (dss_q key) rng = (k, rng') -> 0 <= k -> Z.gcd k (dss_q key) = 1 ->
  buf_repr b pre [] room -> 55 <= room ->
  exists r s b', buf_put_dss_sign key data rng b = Ok (rng', b') /\ buf_repr b' (pre ++ dss_sig_bytes r s) [] (room - 55) /\
    0 <= r < dss_q key /\ 0 <= s < dss_q key /\ fips_sign key x k (mp_read_unsigned_bin (Sha1.fips_sha1 data)) r s.
Proof.
  intros [Hp Hsound Hq Hg Hy] Hq160 Hx Hx0 Ek Hk Hgcd Hb Hroom.
  set (h := mp_read_unsigned_bin (Sha1.fips_sha1 data)). assert (Hh : 0 <= h) by (apply read_nonneg, fips_sha1_ok).
  set (r := dss_g key ^ k mod dss_p key mod dss_q key). assert (Hr : 0 <= r < dss_q key) by (apply Z.mod_pos_bound; lia).
  destruct (mp_invmod_coprime k (dss_q key) b Hq Hk Hgcd) as (c & Ec & Hc0 & Hc).
  set (s := (c * ((h + (r * x) mod dss_q key) mod dss_q key)) mod dss_q key). assert (Hs : 0 <= s < dss_q key) by (apply Z.mod_pos_bound; lia).
  assert (Hw : twp (buf_put_dss_sign key data rng) (fun rg b' => rg = rng' /\ buf_repr b' (pre ++ dss_sig_bytes r s) [] (room - 55)) b).
  { unfold buf_put_dss_sign. apply twp_bind. eapply twp_ok; [apply sha1_ok|]. rewrite Ek. fold h. cbn zeta.
    rewrite mp_exptmod_ok by (done || lia). cbn [or_exit]. apply twp_bind. eapply twp_ok; [reflexivity|]. rewrite mp_mod_ok by lia. cbn [or_exit].
    apply twp_bind. eapply twp_ok; [reflexivity|]. fold r. apply twp_bind. eapply twp_ok; [by rewrite Hx|].
    rewrite mp_mulmod_ok by lia. cbn [or_exit]. apply twp_bind. eapply twp_ok; [reflexivity|].
    rewrite mp_addmod_ok by lia. cbn [or_exit]. apply twp_bind. eapply twp_ok; [reflexivity|].
    apply twp_bind. eapply twp_ok; [exact Ec|]. cbn [or_exit]. apply twp_bind. eapply twp_ok; [reflexivity|].
    rewrite mp_mulmod_ok by lia. cbn [or_exit]. apply twp_bind. eapply twp_ok; [reflexivity|]. fold s.
    apply twp_bind. eapply append_putstring; [exact Hb|done|apply (bool_decide_eq_true_1 _); by vm_compute|unfold SSH_SIGNKEY_DSS_LEN; lia|].
    unfold SSH_SIGNKEY_DSS_LEN. intros b1 Hb1. apply twp_bind. eapply append_putint; [exact Hb1|lia|]. intros b2 Hb2.
    assert (H20 : SHA1_HASH_SIZE = 20) by reflexivity.
    apply twp_bind. eapply append_padded; [|by apply (fits_160 r (dss_q key))|exact Hb2|lia|]; [lia|]. intros b3 Hb3.
    apply twp_bind. eapply append_padded; [|by apply (fits_160 s (dss_q key))|exact Hb3|lia|]; [lia|]. intros b4 Hb4.
    split; [done|]. unfold dss_sig_bytes. rewrite <-!app_assoc in Hb4. by replace (room - 55) with (room - 4 - 7 - 4 - SHA1_HASH_SIZE - SHA1_HASH_SIZE) by lia. }
  unfold twp in Hw. destruct (buf_put_dss_sign key data rng b) as [[rg b']| |] eqn:E; [|done|done]. destruct Hw as [-> Hb'].
  exists r, s, b'. do 4 (split; [done|]). split; [reflexivity|]. exists c. split; [done|]. unfold s.
  rewrite Z.mul_mod_idemp_r, <-Z.mul_mod_idemp_r, Z.add_mod_idemp_r, Z.mul_mod_idemp_r by lia. f_equal. ring.
Qed.

(** The algebra of FIPS 186: a signature with an invertible [s] verifies. *)
Lemma fips_sign_verify key x k h r s : dss_domain key -> 0 <= x -> 0 <= k -> 0 <= h ->
  dss_g key ^ dss_q key mod dss_p key = 1 -> dss_y key = dss_g key ^ x mod dss_p key ->
  Z.gcd s (dss_q key) = 1 -> fips_sign key x k h r s -> fips_verify key h r s.
Proof.
  intros [Hp Hsound Hq Hg Hy] Hx Hk Hh Hord Ey Hs (Er & c & Hc & Es). set (p := dss_p key) in *. set (q := dss_q key) in *. set (g := dss_g key) in *.
  assert (Hr : 0 <= r < q) by (rewrite Er; apply Z.mod_pos_bound; lia). assert (Hsq : 0 <= s < q) by (rewrite Es; apply Z.mod_pos_bound; lia).
  destruct (mp_invmod_coprime s q tt Hq ltac:(lia) Hs) as (w & _ & Hw0 & Hw).
  split; [by fold q; lia|]. split; [by fold q; lia|]. exists w. split; [done|]. fold p q g. rewrite Ey. fold p.
  pose proof (Z.mod_pos_bound (h * w) q ltac:(lia)) as Hu1. pose proof (Z.mod_pos_bound (r * w) q ltac:(lia)) as Hu2.
  set (u1 := (h * w) mod q) in *. set (u2 := (r * w) mod q) in *.
  rewrite Er. f_equal. rewrite <-Z.mul_mod_idemp_r, Z.mod_pow_l, Z.mul_mod_idemp_r by lia.
  rewrite <-Z.pow_mul_r, <-Z.pow_add_r by nia. apply (pow_mod_order g p q); [done|lia|done|nia|done|].
  (* w (h + x r) = w s k = k *)
  assert (Esk : (s * k) mod q = (h + x * r) mod q).
  { rewrite Es, Z.mul_mod_idemp_l by lia. replace (c * (h + x * r) * k) with ((h + x * r) * (c * k)) by ring.
    rewrite <-Z.mul_mod_idemp_r, Hc, Z.mul_1_r by lia. done. }
  unfold u1, u2. rewrite Z.add_mod_idemp_l, <-Z.add_mod_idemp_r, Z.mul_mod_idemp_r, Z.add_mod_idemp_r by lia.
  replace (h * w + x * (r * w)) with (w * (h + x * r)) by ring. rewrite <-Z.mul_mod_idemp_r, <-Esk, Z.mul_mod_idemp_r by lia.
  rewrite Z.mul_assoc, <-Z.mul_mod_idemp_l, Hw, Z.mul_1_l by lia. done.
Qed.
End DssLaws.

(** ** Property *)

(** C31: A signature whose second number is zero is not refused: it passes the
    test against q, and mp_invmod is then asked for the inverse of zero, which
    it looks for for ever.  Anyone whose signature is checked with a DSS key
    can so stop the process that checks it. *)
Theorem dss_zero_signature_hangs `{ExptMod} (key : dropbear_dss_key) (data : list Z) b pre blob post room :
  0 < dss_q key -> Z.odd (dss_q key) = true ->
  zlen blob = 2 * SHA1_HASH_SIZE -> sig_s blob = 0 ->
  buf_repr b pre (store32h (zlen blob) ++ blob ++ post) room ->
  buf_dss_verify key data b = Fault "mp_invmod does not return" /\
  forall n, invmod_rounds n (sig_s blob) (dss_q key) = None.
Proof.
  intros Hq Oq El Hs Hb. split; [|intros n; rewrite Hs; by apply invmod_hangs].
  destruct (repr_getstring b pre blob post room _ eq_refl ltac:(rewrite El; done) Hb) as (b1 & E1 & _).
  unfold buf_dss_verify. rewrite (bind_ok _ _ _ _ _ E1). cbv beta iota. rewrite El, Z.eqb_refl. cbn [negb].
  rewrite (bind_ok _ _ _ _ _ (sha1_ok data b1)). cbn zeta. destruct (sig_halves blob El) as [-> ->]. fold (sig_s blob). rewrite Hs.
  rewrite (proj2 (Z.ltb_lt 0 (dss_q key))) by done. cbn [negb].
  by rewrite (bind_fault _ _ _ _ (mp_invmod_zero (dss_q key) b1 Hq Oq)).
Qed.

(** A small group (p = 23, q = 11), and the signature (5, 0). *)
Definition toy_dss : dropbear_dss_key := mkdss 23 11 4 (4 ^ 7 mod 23) (Some 7).
Definition toy_zero_sig : list Z := fixed_bytes 20 5 ++ replicate 20 0.

Lemma dss_zero_signature_hangs_witness :
  exists b, buf_repr b [] (store32h 40 ++ toy_zero_sig ++ []) 0 /\
    @buf_dss_verify exptmod_by_squaring toy_dss [1; 2; 3] b = Fault "mp_invmod does not return".
Proof.
  exists (mkbuf (store32h 40 ++ toy_zero_sig) 44 0 44).
  assert (Hb : buf_repr (mkbuf (store32h 40 ++ toy_zero_sig) 44 0 44) [] (store32h 40 ++ toy_zero_sig ++ []) 0).
  { rewrite app_nil_r. split; try (by vm_compute); [exists []; by rewrite app_nil_r|apply (bool_decide_eq_true_1 _); by vm_compute]. }
  split; [exact Hb|].
  exact (proj1 (@dss_zero_signature_hangs exptmod_by_squaring toy_dss [1; 2; 3] (mkbuf (store32h 40 ++ toy_zero_sig) 44 0 44) [] toy_zero_sig [] 0
    ltac:(by vm_compute) ltac:(by vm_compute) ltac:(by vm_compute) ltac:(by vm_compute) Hb)).
Defined.
