(* ===== verification/Rsa.v ===== *)
(** RSA signatures: rsa.c, with EMSA-PKCS1-v1_5 and the RSA equation it
    implements. *)

From S2P Require Import Prelude Dbutil Buffer Mpint Bignum Ssh Packet MdHash Sha1 Hashes Kex KexHash SignCommon.
From Stdlib Require Import Zmod.

Local Open Scope Z_scope.
Local Open Scope prog_scope.

(** ** Code *)

Definition SSH_SIGNKEY_RSA : string := "ssh-rsa".
Definition SSH_SIGNKEY_RSA_LEN : Z := 7.
Definition MIN_RSA_KEYLEN : Z := 512.

Record dropbear_rsa_key := mkrsa { rsa_n : Z; rsa_e : Z; rsa_d : option Z; rsa_p : option Z; rsa_q : option Z }.

Definition buf_get_rsa_pub_key : prog buffer (option dropbear_rsa_key) :=
  buf_incrpos (4 + SSH_SIGNKEY_RSA_LEN) ;;;
  e <~? buf_getmpint ;;
  n <~? buf_getmpint ;;
  if mp_count_bits n <? MIN_RSA_KEYLEN then ret None
  else ret (Some (mkrsa n e None None None)).

Definition buf_get_rsa_priv_key : prog buffer (option dropbear_rsa_key) :=
  key <~? buf_get_rsa_pub_key ;;
  d <~? buf_getmpint ;;
  b <- gets id ;;
  if b_pos b =? b_len b then ret (Some (mkrsa (rsa_n key) (rsa_e key) (Some d) None None))
  else
    p <~? buf_getmpint ;;
    q <~? buf_getmpint ;;
    ret (Some (mkrsa (rsa_n key) (rsa_e key) (Some d) (Some p) (Some q))).

Definition buf_put_rsa_pub_key (key : dropbear_rsa_key) : prog buffer unit :=
  buf_putstring (chars SSH_SIGNKEY_RSA) SSH_SIGNKEY_RSA_LEN ;;;
  buf_putmpint (rsa_e key) ;;;
  buf_putmpint (rsa_n key).

Definition buf_put_rsa_priv_key (key : dropbear_rsa_key) : prog buffer unit :=
  buf_put_rsa_pub_key key ;;;
  d <- nonnull (rsa_d key) ;;
  buf_putmpint d ;;;
  match rsa_p key with Some p => buf_putmpint p | None => ret tt end ;;;
  match rsa_q key with Some q => buf_putmpint q | None => ret tt end.

Definition rsa_asn1_magic : list Z :=
  [0x00; 0x30; 0x21; 0x30; 0x09; 0x06; 0x05; 0x2b; 0x0e; 0x03; 0x02; 0x1a; 0x05; 0x00; 0x04; 0x14].
Definition RSA_ASN1_MAGIC_LEN : Z := 16.

(** [while (rsa_EM->pos != target) buf_putbyte(rsa_EM, 0xff)]: each round
    moves the position by one, and the buffer's end ends the program. *)
Fixpoint put_ff (n : nat) (target : Z) : prog buffer unit :=
  b <- gets id ;;
  if b_pos b =? target then ret tt
  else
    match n with
    | O => fault "out of fuel"
    | S n => buf_putbyte 0xff ;;; put_ff n target
    end.

(** The encoded message written into the buffer rsa_EM, and read back. *)
Definition rsa_fill_em (data : list Z) : prog buffer Z :=
  buf_putbyte 0x01 ;;;
  size <- gets b_size ;;
  put_ff (Z.to_nat size) (u32 (size - RSA_ASN1_MAGIC_LEN - SHA1_HASH_SIZE)) ;;;
  p <- buf_getwriteptr RSA_ASN1_MAGIC_LEN ;;
  store_bytes p rsa_asn1_magic ;;;
  buf_incrwritepos RSA_ASN1_MAGIC_LEN ;;;
  p <- buf_getwriteptr SHA1_HASH_SIZE ;;
  hash <- sha1 data ;;
  store_bytes p hash ;;;
  buf_incrwritepos SHA1_HASH_SIZE ;;;
  b <- gets id ;;
  dropbear_assert (b_pos b =? b_size b) ;;;
  buf_setpos 0 ;;;
  bs <- getptr_bytes size ;;
  ret (mp_read_unsigned_bin bs).

Definition rsa_pad_em {S} (key : dropbear_rsa_key) (data : list Z) : prog S Z :=
  let nsize := mp_unsigned_bin_size (rsa_n key) in
  rsa_EM <- buf_new (u32 (nsize - 1)) ;;
  x <- on rsa_EM (rsa_fill_em data) ;;
  ret (fst x).

Section Rsa.
Context `{ExptMod}.

Definition buf_rsa_verify (key : dropbear_rsa_key) (data : list Z) : prog buffer bool :=
  slen <- buf_getint ;;
  if negb (slen =? u32 (mp_unsigned_bin_size (rsa_n key))) then ret false
  else
    b <- gets id ;;
    bs <- getptr_bytes (u32 (b_len b - b_pos b)) ;;
    let rsa_s := mp_read_unsigned_bin bs in
    if negb (rsa_s <? rsa_n key) then ret false
    else
      rsa_em <- rsa_pad_em key data ;;
      rsa_mdash <~! mp_exptmod rsa_s (rsa_e key) (rsa_n key) ;;
      ret (rsa_em =? rsa_mdash).

(** With RSA_BLINDING. *)
Definition buf_put_rsa_sign {R} `{RandomMp R} (key : dropbear_rsa_key) (data : list Z) (rng : R) : prog buffer R :=
  rsa_tmp1 <- rsa_pad_em key data ;;
  let '(rsa_tmp2, rng) := gen_random_mpint (rsa_n key) rng in
  rsa_s <- or_exit "RSA error" (mp_exptmod rsa_tmp2 (rsa_e key) (rsa_n key)) ;;
  o <- mp_invmod rsa_tmp2 (rsa_n key) ;;
  rsa_tmp3 <- or_exit "RSA error" o ;;
  rsa_tmp2 <- or_exit "RSA error" (mp_mulmod rsa_tmp1 rsa_s (rsa_n key)) ;;
  d <- deref (rsa_d key) ;;
  rsa_tmp1 <- or_exit "RSA error" (mp_exptmod rsa_tmp2 d (rsa_n key)) ;;
  rsa_s <- or_exit "RSA error" (mp_mulmod rsa_tmp1 rsa_tmp3 (rsa_n key)) ;;
  buf_putstring (chars SSH_SIGNKEY_RSA) SSH_SIGNKEY_RSA_LEN ;;;
  let nsize := mp_unsigned_bin_size (rsa_n key) in
  buf_putint nsize ;;;
  put_padded nsize rsa_s ;;;
  ret rng.
End Rsa.

(** ** EMSA-PKCS1-v1_5 *)

(** DigestInfo of SHA-1 without the digest (RFC 8017, 9.2, note 1). *)
Definition sha1_digest_info : list Z := [0x30; 0x21; 0x30; 0x09; 0x06; 0x05; 0x2b; 0x0e; 0x03; 0x02; 0x1a; 0x05; 0x00; 0x04; 0x14].

(** EM = 00 || 01 || PS || 00 || T, of [k] bytes. *)
Definition emsa_pkcs1 (k : Z) (M : list Z) : list Z :=
  let T := sha1_digest_info ++ Sha1.fips_sha1 M in
  [0x00; 0x01] ++ replicate (Z.to_nat (k - zlen T - 3)) 0xff ++ [0x00] ++ T.

Lemma append_ff n target fuel b pre room (Q : unit -> buffer -> Prop) :
  buf_repr b pre [] room -> zlen pre + Z.of_nat n = target -> Z.of_nat n <= room -> (n <= fuel)%nat ->
  (forall b', buf_repr b' (pre ++ replicate n 0xff) [] (room - Z.of_nat n) -> Q tt b') -> twp (put_ff fuel target) Q b.
Proof.
  revert fuel b pre room. induction n as [|n IH]; intros fuel b pre room Hb Ht Hr Hf HQ.
  - destruct fuel; cbn [put_ff]; apply twp_bind, twp_gets; unfold id; rewrite (br_pos _ _ _ _ Hb), (proj2 (Z.eqb_eq _ _)) by lia;
      apply HQ; cbn [replicate]; by rewrite app_nil_r, Z.sub_0_r.
  - destruct fuel as [|fuel]; [lia|]. cbn [put_ff]. apply twp_bind, twp_gets. unfold id. rewrite (br_pos _ _ _ _ Hb), (proj2 (Z.eqb_neq _ _)) by lia.
    apply twp_bind. eapply append_putbyte; [exact Hb|by vm_compute|lia|]. intros b1 Hb1.
    eapply (IH fuel b1); [exact Hb1|rewrite zlen_app; change (zlen [255]) with 1; lia|lia|lia|]. intros b2 Hb2. apply HQ.
    rewrite <-app_assoc in Hb2. by replace (room - Z.of_nat (S n)) with (room - 1 - Z.of_nat n) by lia.
Qed.

(** What rsa_pad_em writes: EM without its leading zero. *)
Definition em_tail (k : Z) (M : list Z) : list Z :=
  [0x01] ++ replicate (Z.to_nat (k - 38)) 0xff ++ rsa_asn1_magic ++ Sha1.fips_sha1 M.

Lemma em_tail_ok k M : 38 <= k -> bytes (em_tail k M) /\ zlen (em_tail k M) = k - 1.
Proof.
  intros Hk. destruct (fips_sha1_ok M) as [Hl Hb]. unfold em_tail. split.
  - apply Forall_app_2; [by vm_compute; repeat constructor|]. apply Forall_app_2; [by apply Forall_replicate|].
    apply Forall_app_2; [apply (bool_decide_eq_true_1 _); by vm_compute|done].
  - rewrite !zlen_app, Hl. change (zlen [1]) with 1. change (zlen rsa_asn1_magic) with 16. unfold zlen. rewrite length_replicate. lia.
Qed.

Lemma emsa_read k M : 38 <= k -> mp_read_unsigned_bin (emsa_pkcs1 k M) = mp_read_unsigned_bin (em_tail k M).
Proof.
  intros Hk. unfold em_tail. unfold emsa_pkcs1. rewrite zlen_app. destruct (fips_sha1_ok M) as [-> _]. change (zlen sha1_digest_info) with 15.
  replace (k - (15 + 20) - 3) with (k - 38) by lia. reflexivity.
Qed.

Lemma emsa_ok k M : 38 <= k -> bytes (emsa_pkcs1 k M) /\ 0 <= mp_read_unsigned_bin (emsa_pkcs1 k M) < 2 ^ (8 * (k - 1)).
Proof.
  intros Hk. destruct (fips_sha1_ok M) as [Hl Hb]. destruct (em_tail_ok k M Hk) as [Htb Htl]. split.
  - unfold emsa_pkcs1. apply Forall_app_2; [apply (bool_decide_eq_true_1 _); by vm_compute|]. apply Forall_app_2; [by apply Forall_replicate|].
    apply Forall_app_2; [apply (bool_decide_eq_true_1 _); by vm_compute|]. apply Forall_app_2; [apply (bool_decide_eq_true_1 _); by vm_compute|done].
  - rewrite emsa_read by done. pose proof (read_acc _ 0 ltac:(lia) Htb) as Hr. rewrite Htl in Hr. unfold mp_read_unsigned_bin. lia.
Qed.

Lemma rsa_fill_em_ok data b size (Q : Z -> buffer -> Prop) : 37 <= size ->
  buf_repr b [] [] size -> (forall b', Q (mp_read_unsigned_bin (emsa_pkcs1 (size + 1) data)) b') -> twp (rsa_fill_em data) Q b.
Proof.
  intros Hs Hb HQ. pose proof (br_max _ _ _ _ Hb) as Hmax. pose proof (br_size _ _ _ _ Hb) as Hsize. change (zlen (@nil Z)) with 0 in Hsize.
  unfold BUF_MAX_SIZE in Hmax. destruct (fips_sha1_ok data) as [Hl Hby].
  unfold rsa_fill_em, RSA_ASN1_MAGIC_LEN, SHA1_HASH_SIZE. apply twp_bind. eapply append_putbyte; [exact Hb|by vm_compute|lia|]. intros b1 Hb1.
  assert (Es : b_size b1 = size) by (rewrite (br_size _ _ _ _ Hb1); change (zlen ([] ++ [1])) with 1; change (zlen (@nil Z)) with 0; lia).
  apply twp_bind, twp_gets. rewrite Es. rewrite u32_small by (unfold is_u32; lia).
  apply twp_bind. eapply (append_ff (Z.to_nat (size - 37))); [exact Hb1|change (zlen ([] ++ [1])) with 1; lia|lia|lia|]. intros b2 Hb2.
  rewrite Z2Nat.id in Hb2 by lia. apply twp_bind. eapply twp_ok; [apply (repr_getwriteptr _ _ _ _ 16 Hb2); change (zlen (@nil Z)) with 0; lia|].
  destruct (repr_write b2 _ _ _ rsa_asn1_magic Hb2) as (b3 & b4 & E3 & E4 & Hb4);
    [apply (bool_decide_eq_true_1 _); by vm_compute|change (zlen rsa_asn1_magic) with 16; change (zlen (@nil Z)) with 0; lia|].
  change (zlen rsa_asn1_magic) with 16 in E4, Hb4. rewrite append_post, append_room in Hb4 by lia.
  apply twp_bind. eapply twp_ok; [exact E3|]. apply twp_bind. eapply twp_ok; [exact E4|].
  apply twp_bind. eapply twp_ok; [apply (repr_getwriteptr _ _ _ _ 20 Hb4); change (zlen (@nil Z)) with 0; lia|].
  apply twp_bind. eapply twp_ok; [apply sha1_ok|]. destruct (repr_write b4 _ _ _ _ Hb4 Hby) as (b5 & b6 & E5 & E6 & Hb6); [change (zlen (@nil Z)) with 0; lia|].
  rewrite Hl in E6, Hb6. rewrite append_post, append_room in Hb6 by lia.
  apply twp_bind. eapply twp_ok; [exact E5|]. apply twp_bind. eapply twp_ok; [exact E6|]. rewrite <-!app_assoc in Hb6. cbn [app] in Hb6.
  destruct (em_tail_ok (size + 1) data) as [_ Hem]; [lia|]. set (em := em_tail (size + 1) data) in *.
  assert (Eem : 1 :: replicate (Z.to_nat (size - 37)) 255 ++ rsa_asn1_magic ++ Sha1.fips_sha1 data = em)
    by (unfold em, em_tail; by replace (size + 1 - 38) with (size - 37) by lia).
  rewrite Eem in Hb6.
  apply twp_bind, twp_gets. unfold id, dropbear_assert. rewrite (br_pos _ _ _ _ Hb6), (br_size _ _ _ _ Hb6), Hem. change (zlen (@nil Z)) with 0.
  rewrite (proj2 (Z.eqb_eq _ _)) by lia. apply twp_bind. eapply twp_ok; [reflexivity|].
  destruct (repr_rewind b6 em [] (size - 1 - (size - 37) - 16 - 20) Hb6) as (b7 & E7 & Hb7). apply twp_bind. eapply twp_ok; [exact E7|].
  apply twp_bind. eapply twp_ok; [apply (repr_getptr_bytes b7 [] em [] (size - 1 - (size - 37) - 16 - 20)); [lia|exact Hb7]|].
  assert (E : mp_read_unsigned_bin em = mp_read_unsigned_bin (emsa_pkcs1 (size + 1) data)) by (by rewrite emsa_read by lia).
  rewrite E. apply HQ.
Qed.

Lemma rsa_pad_em_ok {S} key data (s : S) : 38 <= mp_unsigned_bin_size (rsa_n key) <= BUF_MAX_SIZE ->
  rsa_pad_em key data s = Ok (mp_read_unsigned_bin (emsa_pkcs1 (mp_unsigned_bin_size (rsa_n key)) data), s).
Proof.
  unfold rsa_pad_em, BUF_MAX_SIZE. generalize (mp_unsigned_bin_size (rsa_n key)). intros k Hk. rewrite u32_small by (unfold is_u32; lia).
  destruct (repr_buf_new (k - 1) s) as (b & E & Hb); [unfold BUF_MAX_SIZE; lia|]. rewrite (bind_ok _ _ _ _ _ E).
  assert (Hf : twp (rsa_fill_em data) (fun v _ => v = mp_read_unsigned_bin (emsa_pkcs1 k data)) b).
  { eapply rsa_fill_em_ok; [|exact Hb|]; [lia|]. intros _. by replace (k - 1 + 1) with k by lia. }
  unfold twp in Hf. destruct (rsa_fill_em data b) as [[v b']| |] eqn:Ef; [|done|done]. subst v.
  rewrite (bind_ok _ _ _ (mp_read_unsigned_bin (emsa_pkcs1 k data), b') s); [done|]. unfold on. by rewrite Ef.
Qed.

(** The encoded message is below the modulus. *)
Lemma emsa_below n data : 38 <= mp_unsigned_bin_size n -> 0 <= n ->
  0 <= mp_read_unsigned_bin (emsa_pkcs1 (mp_unsigned_bin_size n) data) < n.
Proof.
  intros Hk Hn. destruct (emsa_ok (mp_unsigned_bin_size n) data Hk) as (_ & H0 & Hlt). split; [done|]. eapply Z.lt_le_trans; [exact Hlt|].
  rewrite mp_unsigned_bin_size_ok in * by done. destruct (mp_to_unsigned_bin_ok n Hn) as (_ & _ & El). rewrite El in *.
  destruct (Z.eqb_spec n 0); [lia|]. pose proof (Z.log2_spec n ltac:(lia)) as [Hl _]. eapply Z.le_trans; [|exact Hl].
  pose proof (Z.log2_nonneg n). apply Z.pow_le_mono_r; Z.div_mod_to_equations; lia.
Qed.

(** ** The RSA equation *)

(** A modulus that is a product of distinct primes (dropbear makes keys of
    two), and exponents inverse to each other modulo each prime less one. *)
Definition product (ps : list Z) : Z := foldr Z.mul 1 ps.
Definition rsa_exponents (e d : Z) (p : Z) : Prop := Z.prime p /\ (e * d) mod (p - 1) = 1 mod (p - 1).
Definition rsa_pair (n e d : Z) : Prop :=
  1 <= e /\ 1 <= d /\ exists ps, NoDup ps /\ Forall (rsa_exponents e d) ps /\ n = product ps.

Lemma rsa_prime p e d x : rsa_exponents e d p -> 1 <= e -> 1 <= d -> (p | x ^ (e * d) - x).
Proof.
  intros [Hp Hed] He Hd. pose proof (Z.prime_ge_2 p Hp) as Hp2. apply Z.mod_divide; [lia|]. rewrite Zminus_mod.
  assert (E : x ^ (e * d) mod p = x mod p); [|by rewrite E, Z.sub_diag].
  destruct (Z.eq_dec (x mod p) 0) as [E0|Hne].
  - rewrite <-Z.mod_pow_l, E0, Z.pow_0_l by nia. by apply Z.mod_0_l; lia.
  - set (k := (e * d) / (p - 1)). assert (Ek : e * d = k * (p - 1) + (e * d) mod (p - 1)) by (pose proof (Z.div_mod (e * d) (p - 1)); unfold k; lia).
    destruct (Z.eq_dec p 2) as [->|Hp3].
    { change (2 - 1) with 1 in *. assert (Ex : x mod 2 = 1) by (pose proof (Z.mod_pos_bound x 2); lia). by rewrite <-Z.mod_pow_l, Ex, Z.pow_1_l by nia. }
    rewrite Hed, Z.mod_1_l in Ek by lia. assert (Hk : 0 <= k) by (apply Z.div_pos; nia). rewrite Ek.
    rewrite Z.pow_add_r, Z.pow_1_r, (Z.mul_comm k), Z.pow_mul_r by nia. rewrite <-Z.mul_mod_idemp_l, <-Z.mod_pow_l by lia.
    by rewrite (Z.fermat_nz p x Hp Hne), Z.pow_1_l, Z.mod_1_l, Z.mul_1_l by lia.
Qed.

Lemma coprime_product p ps : Z.prime p -> Forall Z.prime ps -> p ∉ ps -> Z.coprime p (product ps).
Proof.
  intros Hp Hps. induction Hps as [|q ps Hq _ IH]; intros Hn; [apply Z.coprime_1_r|]. apply not_elem_of_cons in Hn as [Hne Hn].
  change (Z.coprime p (q * product ps)). apply Z.coprime_mul_r; [|by apply IH]. apply Z.coprime_prime_l; [done|]. by intros ->%Z.divide_prime_prime.
Qed.

(** Encryption undoes decryption. *)
Lemma rsa_inverse n e d x : rsa_pair n e d -> x ^ (e * d) mod n = x mod n.
Proof.
  intros (He & Hd & ps & Hnd & Hps & ->).
  assert (Hn : 0 < product ps).
  { clear -Hps. induction Hps as [|p ps [Hp _] _ IH]; [done|]. change (0 < p * product ps). pose proof (Z.prime_ge_2 p Hp). apply Z.mul_pos_pos; lia. }
  assert (Hdiv : (product ps | x ^ (e * d) - x)).
  { clear Hn. induction Hps as [|p ps [Hp Hed] Hps IH]; [apply Z.divide_1_l|]. apply NoDup_cons in Hnd as [Hp' Hnd]. change (p * product ps | x ^ (e * d) - x).
    destruct (rsa_prime p e d x ltac:(by split) He Hd) as [z Hz]. assert (Hdz : (product ps | z)).
    { apply Z.gauss with p; [by rewrite Z.mul_comm, <-Hz; apply IH|].
      assert (Hc : Z.coprime p (product ps)).
      { apply coprime_product; [done| |done]. eapply Forall_impl; [exact Hps|]. by intros ? [? _]. }
      unfold Z.coprime in Hc. by rewrite Z.gcd_comm. }
    destruct Hdz as [w ->]. exists w. rewrite Hz. ring. }
  destruct Hdiv as [w Hw]. replace (x ^ (e * d)) with (x + w * product ps) by lia. by rewrite Z.mod_add by lia.
Qed.

(** ** Verifying and signing *)

Definition rsa_pub_bytes (key : dropbear_rsa_key) : list Z :=
  store32h SSH_SIGNKEY_RSA_LEN ++ chars SSH_SIGNKEY_RSA ++ encode_mpint (rsa_e key) ++ encode_mpint (rsa_n key).

Definition rsa_public (key : dropbear_rsa_key) : dropbear_rsa_key := mkrsa (rsa_n key) (rsa_e key) None None None.

Definition rsa_numbers (key : dropbear_rsa_key) : Prop := is_mpint (rsa_e key) /\ is_mpint (rsa_n key).

Lemma put_rsa_pub_ok key b pre room Q : rsa_numbers key -> buf_repr b pre [] room -> zlen (rsa_pub_bytes key) <= room ->
  (forall b', buf_repr b' (pre ++ rsa_pub_bytes key) [] (room - zlen (rsa_pub_bytes key)) -> Q tt b') ->
  twp (buf_put_rsa_pub_key key) Q b.
Proof.
  intros [[He _] [Hn _]] Hb Hr HQ. unfold rsa_pub_bytes in *. rewrite !zlen_app, zlen_store32h in *.
  change (zlen (chars SSH_SIGNKEY_RSA)) with 7 in *. unfold buf_put_rsa_pub_key, SSH_SIGNKEY_RSA_LEN in *.
  pose proof (zlen_nonneg (encode_mpint (rsa_e key))). pose proof (zlen_nonneg (encode_mpint (rsa_n key))).
  apply twp_bind. eapply append_putstring; [exact Hb|done|apply (bool_decide_eq_true_1 _); by vm_compute|lia|]. intros b1 Hb1.
  apply twp_bind. eapply append_putmpint; [exact He|exact Hb1|lia|]. intros b2 Hb2.
  eapply append_putmpint; [exact Hn|exact Hb2|lia|]. intros b3 Hb3. apply HQ. rewrite <-!app_assoc in Hb3.
  match goal with |- buf_repr _ _ _ ?r => match type of Hb3 with buf_repr _ _ _ ?r' => replace r with r' by lia end end. exact Hb3.
Qed.

Lemma get_rsa_pub_ok key b pre post room : rsa_numbers key ->
  buf_repr b pre (rsa_pub_bytes key ++ post) room ->
  exists b', buf_repr b' (pre ++ rsa_pub_bytes key) post room /\
    buf_get_rsa_pub_key b = Ok (if mp_count_bits (rsa_n key) <? MIN_RSA_KEYLEN then None else Some (rsa_public key), b').
Proof.
  intros [He Hn] Hb. unfold rsa_pub_bytes in Hb |- *. rewrite !app_assoc in Hb. set (head := store32h SSH_SIGNKEY_RSA_LEN ++ chars SSH_SIGNKEY_RSA) in *.
  rewrite <-!(app_assoc head), <-!(app_assoc (encode_mpint _)) in Hb.
  assert (Hh : zlen head = 4 + SSH_SIGNKEY_RSA_LEN) by reflexivity.
  destruct (repr_incrpos b pre head _ room _ (eq_sym Hh) Hb) as (b1 & E1 & Hb1).
  destruct (repr_getmp b1 _ _ _ room He Hb1) as (b2 & E2 & Hb2). destruct (repr_getmp b2 _ _ _ room Hn Hb2) as (b3 & E3 & Hb3).
  exists b3. split; [by rewrite <-!app_assoc in Hb3|].
  unfold buf_get_rsa_pub_key. rewrite (bind_ok _ _ _ _ _ E1), (or_fail_some _ _ _ _ _ E2), (or_fail_some _ _ _ _ _ E3). by destruct (_ <? _).
Qed.

Section RsaLaws.
Context `{ExptModLaws}.
Implicit Types key : dropbear_rsa_key.

(** Long enough for the padding. *)
Definition rsa_domain key : Prop := 0 <= rsa_e key /\ 1 < rsa_n key /\ 38 <= mp_unsigned_bin_size (rsa_n key) <= BUF_MAX_SIZE.

Lemma rsa_sound n : 1 < n -> 38 <= mp_unsigned_bin_size n -> sound_modulus n.
Proof.
  intros Hn Hk. right. destruct (Z.le_gt_cases (2 ^ 56) n) as [|Hlt]; [done|]. exfalso.
  pose proof (bin_size_mono n (2 ^ 56) ltac:(lia)) as Hm. assert (mp_unsigned_bin_size (2 ^ 56) = 8) by (by vm_compute). lia.
Qed.

(** RSAVP1 and the comparison of RSASSA-PKCS1-v1_5. *)
Definition rsassa_verify key (data : list Z) (s : Z) : Prop :=
  s < rsa_n key /\ s ^ rsa_e key mod rsa_n key = mp_read_unsigned_bin (emsa_pkcs1 (mp_unsigned_bin_size (rsa_n key)) data).

Lemma rsa_verify_ok key data b pre v sig room : rsa_domain key -> is_u32 v ->
  buf_repr b pre (store32h v ++ sig) room ->
  exists ok b', buf_rsa_verify key data b = Ok (ok, b') /\ buf_repr b' (pre ++ store32h v) sig room /\
    (ok = true <-> v = mp_unsigned_bin_size (rsa_n key) /\ rsassa_verify key data (mp_read_unsigned_bin sig)).
Proof.
  intros (He & Hn & Hk) Hv Hb. destruct (repr_getint b pre v sig room Hv Hb) as (b1 & E1 & Hb1).
  assert (Hsig : bytes sig) by apply (buf_repr_bytes _ _ _ _ Hb1).
  unfold buf_rsa_verify. rewrite (bind_ok _ _ _ _ _ E1). rewrite u32_small by (unfold is_u32, BUF_MAX_SIZE in *; lia).
  destruct (Z.eqb_spec v (mp_unsigned_bin_size (rsa_n key))) as [Ev|Hne]; cbn [negb]; [|exists false, b1; split_and!; [done|done|by intuition]].
  rewrite (bind_ok _ _ _ b1 b1) by reflexivity. pose proof (br_max _ _ _ _ Hb1) as Hmax. unfold BUF_MAX_SIZE in Hmax.
  assert (El : u32 (b_len b1 - b_pos b1) = zlen sig).
  { pose proof (br_room _ _ _ _ Hb1). pose proof (br_size _ _ _ _ Hb1). pose proof (zlen_nonneg sig). pose proof (zlen_nonneg (pre ++ store32h v)).
    rewrite (br_len _ _ _ _ Hb1), (br_pos _ _ _ _ Hb1), u32_small by (unfold is_u32; lia). lia. }
  rewrite El. rewrite (bind_ok _ _ _ sig b1) by (apply (repr_getptr_bytes b1 (pre ++ store32h v) sig [] room); [done|by rewrite app_nil_r]). cbn zeta.
  assert (Hs0 : 0 <= mp_read_unsigned_bin sig) by (by apply read_nonneg).
  destruct (Z.ltb_spec (mp_read_unsigned_bin sig) (rsa_n key)) as [Hlt|Hge]; cbn [negb];
    [|exists false, b1; split_and!; [done|done|]; split; [done|]; intros (_ & Hlt & _); lia].
  rewrite (bind_ok _ _ _ _ _ (rsa_pad_em_ok key data b1 Hk)). rewrite mp_exptmod_ok by (lia || (apply rsa_sound; lia)).
  eexists _, b1. split; [reflexivity|]. split; [done|]. rewrite Z.eqb_eq. unfold rsassa_verify. intuition.
Qed.

Definition rsa_sig_bytes (k s : Z) : list Z :=
  store32h SSH_SIGNKEY_RSA_LEN ++ chars SSH_SIGNKEY_RSA ++ store32h k ++ fixed_bytes k s.

(** Unblinding: (em * r^e)^d * r^-1, raised to e, is em. *)
Lemma blinding n e d em r ri : 1 < n -> rsa_pair n e d -> (ri * r) mod n = 1 -> 0 <= em < n ->
  (((em * (r ^ e mod n)) mod n) ^ d mod n * ri mod n) ^ e mod n = em.
Proof.
  intros Hn Hpair Hri Hem. pose proof Hpair as (He & Hd & _). rewrite Z.mod_pow_l, Z.pow_mul_l.
  rewrite <-Z.mul_mod_idemp_l, Z.mod_pow_l, Z.mul_mod_idemp_l by lia. rewrite <-Z.pow_mul_r, (Z.mul_comm d) by lia.
  rewrite <-Z.mul_mod_idemp_l, rsa_inverse, Z.mod_mod by (done || lia).
  rewrite Z.mul_mod_idemp_l, <-Z.mul_assoc, <-Z.mul_mod_idemp_r, Z.mul_mod_idemp_l, <-Z.pow_mul_l by lia.
  rewrite (Z.mul_comm r), <-Z.mod_pow_l, Hri, Z.pow_1_l, Z.mod_1_l, Z.mul_1_r by lia. by apply Z.mod_small.
Qed.

Lemma rsa_sign_ok {R} `{RandomMp R} key d data rng r rng' b pre room :
  rsa_domain key -> rsa_d key = Some d -> rsa_pair (rsa_n key) (rsa_e key) d ->
  gen_random_mpint (rsa_n key) rng = (r, rng') -> 0 <= r -> Z.gcd r (rsa_n key) = 1 ->
  buf_repr b pre [] room -> 15 + mp_unsigned_bin_size (rsa_n key) <= room ->
  let k := mp_unsigned_bin_size (rsa_n key) in
  exists s b', buf_put_rsa_sign key data rng b = Ok (rng', b') /\ buf_repr b' (pre ++ rsa_sig_bytes k s) [] (room - 15 - k) /\
    0 <= s /\ mp_unsigned_bin_size s <= k /\ rsassa_verify key data s.
Proof.
  intros (He & Hn & Hk) Hd Hpair Er Hr Hgcd Hb Hroom. cbn zeta. set (n := rsa_n key) in *. set (k := mp_unsigned_bin_size n) in *.
  set (em := mp_read_unsigned_bin (emsa_pkcs1 k data)). assert (Hem : 0 <= em < n) by (apply emsa_below; lia).
  destruct (mp_invmod_coprime r n b Hn Hr Hgcd) as (ri & Eri & Hri0 & Hri). pose proof Hpair as (_ & Hd1 & _).
  set (s := (((em * (r ^ rsa_e key mod n)) mod n) ^ d mod n * ri) mod n). assert (Hs : 0 <= s < n) by (apply Z.mod_pos_bound; lia).
  assert (Hsk : mp_unsigned_bin_size s <= k) by (by apply bin_size_mono).
  assert (Hw : twp (buf_put_rsa_sign key data rng) (fun rg b' => rg = rng' /\ buf_repr b' (pre ++ rsa_sig_bytes k s) [] (room - 15 - k)) b).
  { unfold buf_put_rsa_sign. fold n. apply twp_bind. eapply twp_ok; [by apply rsa_pad_em_ok|]. fold n k em. rewrite Er.
    rewrite mp_exptmod_ok by (lia || (apply rsa_sound; lia)). cbn [or_exit]. apply twp_bind. eapply twp_ok; [reflexivity|].
    apply twp_bind. eapply twp_ok; [exact Eri|]. cbn [or_exit]. apply twp_bind. eapply twp_ok; [reflexivity|].
    rewrite mp_mulmod_ok by lia. cbn [or_exit]. apply twp_bind. eapply twp_ok; [reflexivity|].
    apply twp_bind. eapply twp_ok; [by rewrite Hd|]. rewrite mp_exptmod_ok by (lia || (apply rsa_sound; lia) || (apply Z.mod_pos_bound; lia)). cbn [or_exit].
    apply twp_bind. eapply twp_ok; [reflexivity|]. rewrite mp_mulmod_ok by lia. cbn [or_exit]. apply twp_bind. eapply twp_ok; [reflexivity|]. fold s.
    apply twp_bind. eapply append_putstring; [exact Hb|done|apply (bool_decide_eq_true_1 _); by vm_compute|unfold SSH_SIGNKEY_RSA_LEN; lia|].
    unfold SSH_SIGNKEY_RSA_LEN. intros b1 Hb1. cbn zeta. fold k. apply twp_bind. eapply append_putint; [exact Hb1|lia|]. intros b2 Hb2.
    apply twp_bind. eapply append_padded; [|exact Hsk|exact Hb2|lia|]; [lia|]. intros b3 Hb3. split; [done|].
    unfold rsa_sig_bytes. rewrite <-!app_assoc in Hb3. by replace (room - 15 - k) with (room - 4 - 7 - 4 - k) by lia. }
  unfold twp in Hw. destruct (buf_put_rsa_sign key data rng b) as [[rg b']| |] eqn:E; [|done|done]. destruct Hw as [-> Hb'].
  exists s, b'. split; [done|]. split; [done|]. split; [lia|]. split; [done|]. split; [fold n; lia|]. fold n k em. by apply blinding.
Qed.
End RsaLaws.
