(* ===== verification/SignKey.v ===== *)
(** Signing keys: signkey.c, which dispatches on a key's type to dss.c and
    rsa.c, reads and writes public keys and signatures with their names, and
    compares keys with lines of a key file; it implements the interface that
    the key exchange uses (Kex.v). *)

From S2P Require Import Prelude Dbutil Buffer Mpint Bignum Ssh Packet MdHash Sha1 Md5 Hashes Kex KexHash KexKeys SignCommon Dss Rsa.

Local Open Scope Z_scope.
Local Open Scope prog_scope.

(** ** Code *)

Definition DROPBEAR_SIGNKEY_ANY : Z := 0.
Definition DROPBEAR_SIGNKEY_NONE : Z := 3.
Definition MAX_PUBKEY_SIZE : Z := 1700.

Inductive signkey_source := SIGNKEY_SOURCE_RAW_FILE | SIGNKEY_SOURCE_AGENT | SIGNKEY_SOURCE_INVALID.

Record sign_key := mksk {
  sk_type : Z; sk_source : signkey_source; sk_filename : option (list Z);
  sk_dsskey : option dropbear_dss_key; sk_rsakey : option dropbear_rsa_key }.

Definition set_sk_dsskey d k := mksk (sk_type k) (sk_source k) (sk_filename k) d (sk_rsakey k).
Definition set_sk_rsakey r k := mksk (sk_type k) (sk_source k) (sk_filename k) (sk_dsskey k) r.

Definition new_sign_key : sign_key := mksk DROPBEAR_SIGNKEY_NONE SIGNKEY_SOURCE_INVALID None None None.

(** The name and [*namelen]. *)
Definition signkey_name_from_type {S} (type : Z) : prog S (list Z * Z) :=
  if type =? DROPBEAR_SIGNKEY_RSA then ret (chars SSH_SIGNKEY_RSA, SSH_SIGNKEY_RSA_LEN)
  else if type =? DROPBEAR_SIGNKEY_DSS then ret (chars SSH_SIGNKEY_DSS, SSH_SIGNKEY_DSS_LEN)
  else dropbear_exit "Bad key type".

(** [memcmp(a, lit, n) == 0] for a literal with its terminating zero: the
    bytes of both must be there. *)
Definition memcmp_lit {S} (a : list Z) (lit : string) (n : Z) : prog S bool :=
  let b := chars lit ++ [0] in
  if (n <=? zlen a) && (n <=? zlen b) then ret (bool_decide (ztake n a = ztake n b))
  else fault "memcmp past the end of an array".

Definition signkey_type_from_name {S} (name : list Z) (namelen : Z) : prog S Z :=
  rsa <- (if namelen =? SSH_SIGNKEY_RSA_LEN then memcmp_lit name SSH_SIGNKEY_RSA SSH_SIGNKEY_RSA_LEN else ret false) ;;
  if rsa : bool then ret DROPBEAR_SIGNKEY_RSA
  else
    dss <- (if namelen =? SSH_SIGNKEY_DSS_LEN then memcmp_lit name SSH_SIGNKEY_DSS SSH_SIGNKEY_DSS_LEN else ret false) ;;
    if dss : bool then ret DROPBEAR_SIGNKEY_DSS else ret DROPBEAR_SIGNKEY_NONE.

Section Codec.
Context (get_dss : prog buffer (option dropbear_dss_key)) (get_rsa : prog buffer (option dropbear_rsa_key)).

(** The common body of buf_get_pub_key and buf_get_priv_key: success, the key
    and the type after it. *)
Definition buf_get_key (key : sign_key) (type : Z) : prog buffer (bool * sign_key * Z) :=
  x <- buf_getstring ;;
  let '(ident, len) := x in
  keytype <- signkey_type_from_name ident len ;;
  if negb (type =? DROPBEAR_SIGNKEY_ANY) && negb (type =? keytype) then ret (false, key, type)
  else
    buf_incrpos (s32 (- len - 4)) ;;;
    x <- (if keytype =? DROPBEAR_SIGNKEY_DSS then o <- get_dss ;; ret (bool_decide (is_Some o), set_sk_dsskey o key) else ret (false, key)) ;;
    let '(ok, key) := x in
    x <- (if keytype =? DROPBEAR_SIGNKEY_RSA then o <- get_rsa ;; ret (bool_decide (is_Some o), set_sk_rsakey o key) else ret (ok, key)) ;;
    ret (x, keytype).
End Codec.

Definition buf_get_pub_key : sign_key -> Z -> prog buffer (bool * sign_key * Z) := buf_get_key buf_get_dss_pub_key buf_get_rsa_pub_key.
Definition buf_get_priv_key : sign_key -> Z -> prog buffer (bool * sign_key * Z) := buf_get_key buf_get_dss_priv_key buf_get_rsa_priv_key.

(** A buffer of its own, filled by [m] and put as a string; [msg] when [m]
    left it empty. *)
Definition put_blob {A} (m : prog buffer A) (msg : string) : prog buffer A :=
  blob <- buf_new MAX_PUBKEY_SIZE ;;
  x <- on blob m ;;
  let '(a, blob) := x in
  if b_len blob =? 0 then dropbear_exit msg
  else
    x <- on blob (buf_setpos 0) ;;
    x <- on (snd x) (getptr_bytes (b_len blob)) ;;
    buf_putstring (fst x) (b_len blob) ;;;
    ret a.

Definition buf_put_pub_key (key : sign_key) (type : Z) : prog buffer unit :=
  put_blob
    (when (type =? DROPBEAR_SIGNKEY_DSS) (d <- nonnull (sk_dsskey key) ;; buf_put_dss_pub_key d) ;;;
     when (type =? DROPBEAR_SIGNKEY_RSA) (r <- nonnull (sk_rsakey key) ;; buf_put_rsa_pub_key r))
    "Bad key types in buf_put_pub_key".

Definition buf_put_priv_key (key : sign_key) (type : Z) : prog buffer unit :=
  if type =? DROPBEAR_SIGNKEY_DSS then d <- nonnull (sk_dsskey key) ;; buf_put_dss_priv_key d
  else if type =? DROPBEAR_SIGNKEY_RSA then r <- nonnull (sk_rsakey key) ;; buf_put_rsa_priv_key r
  else dropbear_exit "Bad key types in put pub key".

Definition hexdig (x : Z) : Z :=
  if x >? 0xf then 88 (* 'X' *) else if x <? 10 then u8 (48 + x) else u8 (97 + x - 10).

(** The loop over the digest's bytes, at positions 4, 7, 10, ... *)
Definition hex_byte (x : Z) : list Z := [hexdig (Z.shiftr x 4); hexdig (Z.land x 0x0f); 58].

(** The malloced string with its terminating zero. *)
Definition sign_key_md5_fingerprint {S} (keyblob : list Z) : prog S (list Z) :=
  hs <- hashed (Md5.md5_process (Md5.md5_init fresh_buf) keyblob) ;;
  hash <- hashed (Md5.md5_done hs) ;;
  let s := chars "md5 " ++ concat (map hex_byte hash) in
  ret (zset s (4 + 3 * 16 - 1) 0).

Section Sign.
Context {R : Type} `{RandomMp R} `{ExptMod}.

Definition buf_put_sign (key : sign_key) (type : Z) (data : list Z) (rng : R) : prog buffer R :=
  put_blob
    (rng <- (if type =? DROPBEAR_SIGNKEY_DSS then d <- nonnull (sk_dsskey key) ;; buf_put_dss_sign d data rng else ret rng) ;;
     (if type =? DROPBEAR_SIGNKEY_RSA then r <- nonnull (sk_rsakey key) ;; buf_put_rsa_sign r data rng else ret rng))
    "Non-matching signing type".

Definition buf_verify (key : sign_key) (data : list Z) : prog buffer bool :=
  bloblen <- buf_getint ;;
  x <- buf_getstring ;;
  let '(ident, identlen) := x in
  dss <- (if bloblen =? DSS_SIGNATURE_SIZE then memcmp_lit ident SSH_SIGNKEY_DSS identlen else ret false) ;;
  if dss : bool then
    match sk_dsskey key with
    | None => dropbear_exit "No DSS key to verify signature"
    | Some d => buf_dss_verify d data
    end
  else
    rsa <- memcmp_lit ident SSH_SIGNKEY_RSA identlen ;;
    if rsa : bool then
      match sk_rsakey key with
      | None => dropbear_exit "No RSA key to verify signature"
      | Some r => buf_rsa_verify r data
      end
    else dropbear_exit "Non-matching signing type".
End Sign.

(** ** Names and blobs *)

Lemma memcmp_lit_ok {S} a lit n (s : S) : 0 <= n <= zlen a -> n <= zlen (chars lit) + 1 ->
  memcmp_lit a lit n s = Ok (bool_decide (ztake n a = ztake n (chars lit ++ [0])), s).
Proof.
  intros Ha Hl. unfold memcmp_lit. rewrite zlen_app. change (zlen [0]) with 1.
  by rewrite (proj2 (Z.leb_le n (zlen a))), (proj2 (Z.leb_le n (zlen (chars lit) + 1))) by lia.
Qed.

Lemma memcmp_lit_past {S} a lit n (s : S) : zlen (chars lit) + 1 < n -> memcmp_lit a lit n s = Fault "memcmp past the end of an array".
Proof. intros Hl. unfold memcmp_lit. rewrite zlen_app. change (zlen [0]) with 1. by rewrite (proj2 (Z.leb_gt n (zlen (chars lit) + 1))), andb_false_r by lia. Qed.

Lemma type_from_dss {S} (s : S) : signkey_type_from_name (chars SSH_SIGNKEY_DSS ++ [0]) 7 s = Ok (DROPBEAR_SIGNKEY_DSS, s).
Proof. reflexivity. Qed.
Lemma type_from_rsa {S} (s : S) : signkey_type_from_name (chars SSH_SIGNKEY_RSA ++ [0]) 7 s = Ok (DROPBEAR_SIGNKEY_RSA, s).
Proof. reflexivity. Qed.

Lemma put_blob_run {A} (m : prog buffer A) msg a content room1 b0 b1 b pre room (Q : A -> buffer -> Prop) :
  buf_new MAX_PUBKEY_SIZE b = Ok (b0, b) -> m b0 = Ok (a, b1) -> buf_repr b1 content [] room1 ->
  0 < zlen content -> buf_repr b pre [] room -> 4 + zlen content <= room ->
  (forall b', buf_repr b' (pre ++ store32h (zlen content) ++ content) [] (room - 4 - zlen content) -> Q a b') -> twp (put_blob m msg) Q b.
Proof.
  intros E0 E1 Hb1 Hc Hb Hr HQ. unfold put_blob. apply twp_bind. eapply twp_ok; [exact E0|].
  apply twp_bind. eapply (twp_ok _ _ _ (a, b1)); [by unfold on; rewrite E1|]. cbv beta iota.
  assert (El : b_len b1 = zlen content) by (rewrite (br_len _ _ _ _ Hb1); change (zlen (@nil Z)) with 0; lia). rewrite El.
  rewrite (proj2 (Z.eqb_neq _ _)) by lia. destruct (repr_rewind b1 content [] room1 Hb1) as (b2 & E2 & Hb2).
  apply twp_bind. eapply (twp_ok _ _ _ (tt, b2)); [by unfold on; rewrite E2|]. cbn [snd]. apply twp_bind.
  eapply (twp_ok _ _ _ (content, b2)); [unfold on; by rewrite (repr_getptr_bytes b2 [] content [] room1 (zlen content) eq_refl Hb2)|]. cbn [fst].
  apply twp_bind. destruct (buf_repr_bytes _ _ _ _ Hb1) as [Hby _].
  eapply append_putstring; [exact Hb|done|exact Hby|lia|]. intros b' Hb'. by apply HQ.
Qed.

Lemma append_put_blob {A} (m : prog buffer A) msg a content room1 b pre room (Q : A -> buffer -> Prop) :
  (forall b0, buf_repr b0 [] [] MAX_PUBKEY_SIZE -> twp m (fun a' b1 => a' = a /\ buf_repr b1 content [] room1) b0) ->
  0 < zlen content -> buf_repr b pre [] room -> 4 + zlen content <= room ->
  (forall b', buf_repr b' (pre ++ store32h (zlen content) ++ content) [] (room - 4 - zlen content) -> Q a b') -> twp (put_blob m msg) Q b.
Proof.
  intros Hm Hc Hb Hr HQ. destruct (repr_buf_new MAX_PUBKEY_SIZE b) as (b0 & E0 & Hb0); [by vm_compute|].
  specialize (Hm b0 Hb0). unfold twp in Hm. destruct (m b0) as [[a' b1]| |] eqn:E1; [|done|done]. destruct Hm as [-> Hb1]. by eapply put_blob_run.
Qed.

(** The content of a public key's blob. *)
Definition pub_bytes (key : sign_key) (type : Z) : list Z :=
  if type =? DROPBEAR_SIGNKEY_DSS then default [] (dss_pub_bytes <$> sk_dsskey key)
  else default [] (rsa_pub_bytes <$> sk_rsakey key).

(** The key has a part of the type, with numbers that fit in a blob. *)
Inductive has_key (key : sign_key) : Z -> Prop :=
| has_dss d : sk_dsskey key = Some d -> dss_numbers d -> zlen (dss_pub_bytes d) <= MAX_PUBKEY_SIZE -> has_key key DROPBEAR_SIGNKEY_DSS
| has_rsa r : sk_rsakey key = Some r -> rsa_numbers r -> zlen (rsa_pub_bytes r) <= MAX_PUBKEY_SIZE -> has_key key DROPBEAR_SIGNKEY_RSA.

(** Every blob starts with the length of its name. *)
Lemma head_pos n (l : list Z) : 0 < zlen (store32h n ++ l).
Proof. rewrite zlen_app, zlen_store32h. pose proof (zlen_nonneg l). lia. Qed.

Lemma append_pub_key key type b pre room (Q : unit -> buffer -> Prop) : has_key key type -> buf_repr b pre [] room ->
  4 + zlen (pub_bytes key type) <= room ->
  (forall b', buf_repr b' (pre ++ store32h (zlen (pub_bytes key type)) ++ pub_bytes key type) [] (room - 4 - zlen (pub_bytes key type)) -> Q tt b') ->
  twp (buf_put_pub_key key type) Q b.
Proof.
  intros Hk Hb Hr HQ. unfold buf_put_pub_key. destruct Hk as [d Ed Hn Hl|r Er Hn Hl].
  - assert (E : pub_bytes key DROPBEAR_SIGNKEY_DSS = dss_pub_bytes d) by (unfold pub_bytes; by rewrite Ed). rewrite E in *.
    eapply append_put_blob; [|apply head_pos|exact Hb|exact Hr|exact HQ].
    intros b0 Hb0. cbn [Z.eqb Pos.eqb when DROPBEAR_SIGNKEY_DSS DROPBEAR_SIGNKEY_RSA]. apply twp_bind, twp_bind. eapply twp_ok; [by rewrite Ed|].
    eapply put_dss_pub_ok; [exact Hn|exact Hb0|exact Hl|]. intros b1 Hb1. eapply twp_ok; [reflexivity|]. split; [done|exact Hb1].
  - assert (E : pub_bytes key DROPBEAR_SIGNKEY_RSA = rsa_pub_bytes r) by (unfold pub_bytes; by rewrite Er). rewrite E in *.
    eapply append_put_blob; [|apply head_pos|exact Hb|exact Hr|exact HQ].
    intros b0 Hb0. cbn [Z.eqb Pos.eqb when DROPBEAR_SIGNKEY_DSS DROPBEAR_SIGNKEY_RSA]. apply twp_bind. eapply twp_ok; [reflexivity|].
    apply twp_bind. eapply twp_ok; [by rewrite Er|].
    eapply put_rsa_pub_ok; [exact Hn|exact Hb0|exact Hl|]. intros b1 Hb1. split; [done|exact Hb1].
Qed.

(** ** Reading a public key *)

(** Stepping back over what was just read. *)
Lemma repr_back b pre m post room n : n = - zlen m -> buf_repr b (pre ++ m) post room ->
  exists b', buf_incrpos n b = Ok (tt, b') /\ buf_repr b' pre (m ++ post) room.
Proof.
  intros -> Hb. pose proof (br_max _ _ _ _ Hb) as Hmax. pose proof (br_size _ _ _ _ Hb) as Hs. pose proof (br_len _ _ _ _ Hb) as Hl.
  pose proof (br_pos _ _ _ _ Hb) as Hp. pose proof (br_room _ _ _ _ Hb). pose proof (zlen_nonneg pre). pose proof (zlen_nonneg m). pose proof (zlen_nonneg post).
  rewrite zlen_app in *. unfold BUF_MAX_SIZE in Hmax.
  exists (set_pos (zlen pre) b). split.
  - unfold buf_incrpos, bind, gets, id. rewrite Hp, s32_small, u32_small by (unfold is_u32; lia).
    replace (zlen pre + zlen m + - zlen m) with (zlen pre) by lia. unfold BUF_MAX_INCR. by z_guards.
  - destruct Hb as [(rest & Hd & Hr) _ _ _ H5 H6 H7]. split; simpl; rewrite ?zlen_app; try done; try lia.
    exists rest. split; [|done]. by rewrite Hd, <-!app_assoc.
Qed.

Lemma get_key_head gd gr key type name keytype rest b pre post room :
  zlen (chars name) = 7 -> (forall c : buffer, signkey_type_from_name (chars name ++ [0]) 7 c = Ok (keytype, c)) ->
  type = DROPBEAR_SIGNKEY_ANY \/ type = keytype ->
  buf_repr b pre ((store32h 7 ++ chars name ++ rest) ++ post) room ->
  exists b', buf_repr b' pre ((store32h 7 ++ chars name ++ rest) ++ post) room /\
    buf_get_key gd gr key type b =
      (x <- (if keytype =? DROPBEAR_SIGNKEY_DSS then o <- gd ;; ret (bool_decide (is_Some o), set_sk_dsskey o key) else ret (false, key)) ;;
       let '(ok, key) := x in
       x <- (if keytype =? DROPBEAR_SIGNKEY_RSA then o <- gr ;; ret (bool_decide (is_Some o), set_sk_rsakey o key) else ret (ok, key)) ;;
       ret (x, keytype)) b'.
Proof.
  intros Hn Ht Htype Hb. rewrite <-!app_assoc in Hb.
  destruct (repr_getstring b pre (chars name) (rest ++ post) room 7 (eq_sym Hn) ltac:(done) Hb) as (b1 & E1 & Hb1).
  unfold buf_get_key. rewrite (bind_ok _ _ _ _ _ E1). cbv beta iota. rewrite (bind_ok _ _ _ _ _ (Ht b1)).
  assert (Hok : negb (type =? DROPBEAR_SIGNKEY_ANY) && negb (type =? keytype) = false)
    by (destruct Htype as [->| ->]; [done|by rewrite Z.eqb_refl, andb_false_r]). rewrite Hok.
  destruct (repr_back b1 pre (store32h 7 ++ chars name) (rest ++ post) room (s32 (- 7 - 4))) as (b2 & E2 & Hb2);
    [by rewrite zlen_app, Hn|exact Hb1|].
  rewrite (bind_ok _ _ _ _ _ E2). exists b2. split; [|done]. by rewrite <-!app_assoc in *.
Qed.

(** The public part of a key that can be read back. *)
Inductive readable (key : sign_key) : Z -> sign_key -> sign_key -> Prop :=
| readable_dss d into : sk_dsskey key = Some d -> dss_numbers d -> MIN_DSS_KEYLEN <= mp_count_bits (dss_p d) ->
    readable key DROPBEAR_SIGNKEY_DSS into (set_sk_dsskey (Some (dss_public d)) into)
| readable_rsa r into : sk_rsakey key = Some r -> rsa_numbers r -> MIN_RSA_KEYLEN <= mp_count_bits (rsa_n r) ->
    readable key DROPBEAR_SIGNKEY_RSA into (set_sk_rsakey (Some (rsa_public r)) into).

Lemma get_pub_key_ok key keytype type into out b pre post room :
  readable key keytype into out -> type = DROPBEAR_SIGNKEY_ANY \/ type = keytype ->
  buf_repr b pre (pub_bytes key keytype ++ post) room ->
  exists b', buf_get_pub_key into type b = Ok ((true, out, keytype), b') /\ buf_repr b' (pre ++ pub_bytes key keytype) post room.
Proof.
  intros Hr Htype Hb. destruct Hr as [d into Ed Hn Hmin|r into Er Hn Hmin].
  - assert (E : pub_bytes key DROPBEAR_SIGNKEY_DSS = dss_pub_bytes d) by (unfold pub_bytes; by rewrite Ed). rewrite E in *.
    destruct (get_key_head buf_get_dss_pub_key buf_get_rsa_pub_key into type SSH_SIGNKEY_DSS DROPBEAR_SIGNKEY_DSS _ b pre post room eq_refl type_from_dss Htype Hb) as (b1 & Hb1 & E1).
    unfold buf_get_pub_key. rewrite E1. cbn [Z.eqb Pos.eqb DROPBEAR_SIGNKEY_DSS DROPBEAR_SIGNKEY_RSA].
    destruct (get_dss_pub_ok d b1 pre post room Hn Hb1) as (b2 & Hb2 & E2). rewrite (proj2 (Z.ltb_ge _ _)) in E2 by done.
    exists b2. split; [|done]. unfold bind at 1 2. by rewrite E2.
  - assert (E : pub_bytes key DROPBEAR_SIGNKEY_RSA = rsa_pub_bytes r) by (unfold pub_bytes; by rewrite Er). rewrite E in *.
    destruct (get_key_head buf_get_dss_pub_key buf_get_rsa_pub_key into type SSH_SIGNKEY_RSA DROPBEAR_SIGNKEY_RSA _ b pre post room eq_refl type_from_rsa Htype Hb) as (b1 & Hb1 & E1).
    unfold buf_get_pub_key. rewrite E1. cbn [Z.eqb Pos.eqb DROPBEAR_SIGNKEY_DSS DROPBEAR_SIGNKEY_RSA].
    destruct (get_rsa_pub_ok r b1 pre post room Hn Hb1) as (b2 & Hb2 & E2). rewrite (proj2 (Z.ltb_ge _ _)) in E2 by done.
    exists b2. split; [|done]. unfold bind, ret. by rewrite E2.
Qed.

(** ** Signatures *)

Section Signatures.
Context `{ExptModLaws}.

(** What a signature blob says, by the name in it. *)
Inductive signature : Z -> list Z -> list Z -> Prop :=
| signature_dss blob : zlen blob <= MAX_STRING_LEN -> bytes blob -> (zlen blob = 2 * SHA1_HASH_SIZE -> sig_s blob <> 0) ->
    signature DROPBEAR_SIGNKEY_DSS blob (store32h 7 ++ chars SSH_SIGNKEY_DSS ++ store32h (zlen blob) ++ blob)
| signature_rsa sig v : is_u32 v -> signature DROPBEAR_SIGNKEY_RSA (store32h v ++ sig) (store32h 7 ++ chars SSH_SIGNKEY_RSA ++ store32h v ++ sig).

(** The equation of the scheme holds for the key. *)
Definition scheme_verifies (key : sign_key) (type : Z) (data blob : list Z) : Prop :=
  if type =? DROPBEAR_SIGNKEY_DSS then
    exists d, sk_dsskey key = Some d /\ zlen blob = 2 * SHA1_HASH_SIZE /\
      fips_verify d (mp_read_unsigned_bin (Sha1.fips_sha1 data)) (sig_r blob) (sig_s blob)
  else
    exists r v sig, sk_rsakey key = Some r /\ blob = store32h v ++ sig /\ v = mp_unsigned_bin_size (rsa_n r) /\
      rsassa_verify r data (mp_read_unsigned_bin sig).

(** A public key the arithmetic is defined on. *)
Definition can_verify (key : sign_key) (type : Z) : Prop :=
  (type = DROPBEAR_SIGNKEY_DSS /\ exists d, sk_dsskey key = Some d /\ dss_domain d) \/
  (type = DROPBEAR_SIGNKEY_RSA /\ exists r, sk_rsakey key = Some r /\ rsa_domain r).

Lemma names_differ : bool_decide (ztake 7 (chars SSH_SIGNKEY_RSA ++ [0]) = ztake 7 (chars SSH_SIGNKEY_DSS ++ [0])) = false.
Proof. reflexivity. Qed.

Lemma store32h_app_inj v w (l k : list Z) : is_u32 v -> is_u32 w -> store32h v ++ l = store32h w ++ k -> v = w /\ l = k.
Proof.
  intros Hv Hw E. assert (E4 : store32h v = store32h w) by (by apply (app_inj_zlen _ _ _ _ E)).
  rewrite E4 in E. apply app_inv_head in E. split; [by apply store32h_inj|done].
Qed.

(** The name of a signature, read back and compared. *)
Lemma verify_name key data bl name rest b pre room : is_u32 bl -> zlen (chars name) = 7 ->
  buf_repr b pre (store32h bl ++ store32h 7 ++ chars name ++ rest) room ->
  exists b', buf_repr b' (pre ++ store32h bl ++ store32h 7 ++ chars name) rest room /\
    buf_verify key data b =
      (dss <- (if bl =? DSS_SIGNATURE_SIZE then memcmp_lit (chars name ++ [0]) SSH_SIGNKEY_DSS 7 else ret false) ;;
       if dss : bool then
         match sk_dsskey key with
         | None => dropbear_exit "No DSS key to verify signature"
         | Some d => buf_dss_verify d data
         end
       else
         rsa <- memcmp_lit (chars name ++ [0]) SSH_SIGNKEY_RSA 7 ;;
         if rsa : bool then
           match sk_rsakey key with
           | None => dropbear_exit "No RSA key to verify signature"
           | Some r => buf_rsa_verify r data
           end
         else dropbear_exit "Non-matching signing type") b'.
Proof.
  intros Hbl Hn Hb. destruct (repr_getint b pre bl _ room Hbl Hb) as (b1 & E1 & Hb1).
  destruct (repr_getstring b1 _ (chars name) rest room 7 (eq_sym Hn) ltac:(done) Hb1) as (b2 & E2 & Hb2).
  exists b2. split; [by rewrite <-!app_assoc in *|]. unfold buf_verify. by rewrite (bind_ok _ _ _ _ _ E1), (bind_ok _ _ _ _ _ E2).
Qed.

Lemma buf_verify_ok key type data bl blob content b pre room :
  signature type blob content -> can_verify key type -> is_u32 bl ->
  buf_repr b pre (store32h bl ++ content) room ->
  if (type =? DROPBEAR_SIGNKEY_DSS) && negb (bl =? DSS_SIGNATURE_SIZE) then buf_verify key data b = Exit "Non-matching signing type"
  else exists ok b', buf_verify key data b = Ok (ok, b') /\ (ok = true <-> scheme_verifies key type data blob).
Proof.
  intros Hsig Hcan Hbl Hb. destruct Hsig as [blob Hl Hby Hs0|sig v Hv].
  - destruct Hcan as [[_ (d & Ed & Hd)]|[? _]]; [|done].
    destruct (verify_name key data bl SSH_SIGNKEY_DSS (store32h (zlen blob) ++ blob) b pre room Hbl eq_refl Hb) as (b1 & Hb1 & E1). rewrite E1.
    destruct (bl =? DSS_SIGNATURE_SIZE); cbn [negb andb Z.eqb Pos.eqb DROPBEAR_SIGNKEY_DSS]; [|done].
    rewrite Ed, (bind_ok _ _ _ true b1) by reflexivity.
    destruct (dss_verify_ok d data b1 (pre ++ store32h bl ++ store32h 7 ++ chars SSH_SIGNKEY_DSS) blob [] room Hd Hl Hby Hs0) as (ok & b2 & E2 & _ & Hok); [by rewrite app_nil_r|].
    exists ok, b2. split; [done|]. rewrite Hok. unfold scheme_verifies. cbn [Z.eqb Pos.eqb DROPBEAR_SIGNKEY_DSS]. split.
    + intros [? ?]. by exists d.
    + intros (d' & Ed' & ?). rewrite Ed in Ed'. by injection Ed' as <-.
  - destruct Hcan as [[? _]|[_ (r & Er & Hr)]]; [done|]. cbn [andb Z.eqb Pos.eqb DROPBEAR_SIGNKEY_DSS DROPBEAR_SIGNKEY_RSA].
    destruct (verify_name key data bl SSH_SIGNKEY_RSA (store32h v ++ sig) b pre room Hbl eq_refl Hb) as (b1 & Hb1 & E1). rewrite E1.
    rewrite (bind_ok _ _ _ false b1) by (by destruct (bl =? DSS_SIGNATURE_SIZE)). cbn iota.
    rewrite (bind_ok _ _ _ true b1) by reflexivity. rewrite Er.
    destruct (rsa_verify_ok r data b1 (pre ++ store32h bl ++ store32h 7 ++ chars SSH_SIGNKEY_RSA) v sig room Hr Hv Hb1) as (ok & b2 & E2 & _ & Hok).
    exists ok, b2. split; [done|]. rewrite Hok. unfold scheme_verifies. cbn [Z.eqb Pos.eqb DROPBEAR_SIGNKEY_DSS DROPBEAR_SIGNKEY_RSA]. split.
    + intros [? ?]. by exists r, v, sig.
    + intros (r' & v' & sig' & Er' & Eb & Ev & ?). rewrite Er in Er'. injection Er' as <-.
      apply store32h_app_inj in Eb as [<- <-]; [done|done|]. destruct Hr as (_ & _ & Hk). rewrite Ev. unfold is_u32, BUF_MAX_SIZE in *. lia.
Qed.

(** A private key and the public key that goes with it. *)
Inductive key_pair (priv pub : sign_key) : Z -> Prop :=
| dss_pair d d' x : sk_dsskey priv = Some d -> sk_dsskey pub = Some d' -> d' = dss_public d -> dss_domain d -> dss_q d <= 2 ^ 160 ->
    dss_x d = Some x -> 0 <= x -> dss_g d ^ dss_q d mod dss_p d = 1 -> dss_y d = dss_g d ^ x mod dss_p d ->
    key_pair priv pub DROPBEAR_SIGNKEY_DSS
| rsa_pair_keys r r' d : sk_rsakey priv = Some r -> sk_rsakey pub = Some r' -> r' = rsa_public r -> rsa_domain r ->
    rsa_d r = Some d -> rsa_pair (rsa_n r) (rsa_e r) d -> 15 + mp_unsigned_bin_size (rsa_n r) <= MAX_PUBKEY_SIZE ->
    key_pair priv pub DROPBEAR_SIGNKEY_RSA.

(** The modulus a random number is drawn below. *)
Definition random_modulus (priv : sign_key) (type : Z) : Z :=
  if type =? DROPBEAR_SIGNKEY_DSS then default 0 (dss_q <$> sk_dsskey priv) else default 0 (rsa_n <$> sk_rsakey priv).

(** A signature that FIPS 186 lets out: [s] is invertible. *)
Definition good_s (pub : sign_key) (type : Z) (content : list Z) : Prop :=
  type = DROPBEAR_SIGNKEY_DSS -> Z.gcd (sig_s (zdrop 15 content)) (random_modulus pub type) = 1.

(** What signing writes: a string whose content the public key verifies. *)
Lemma dss_content_split r s : zlen (fixed_bytes SHA1_HASH_SIZE r) = 20 ->
  zdrop 15 (dss_sig_bytes r s) = fixed_bytes SHA1_HASH_SIZE r ++ fixed_bytes SHA1_HASH_SIZE s /\
  sig_r (fixed_bytes SHA1_HASH_SIZE r ++ fixed_bytes SHA1_HASH_SIZE s) = mp_read_unsigned_bin (fixed_bytes SHA1_HASH_SIZE r) /\
  sig_s (fixed_bytes SHA1_HASH_SIZE r ++ fixed_bytes SHA1_HASH_SIZE s) = mp_read_unsigned_bin (fixed_bytes SHA1_HASH_SIZE s).
Proof.
  intros Hr. split.
  - unfold dss_sig_bytes. rewrite !app_assoc. set (h := _ ++ store32h _). rewrite <-app_assoc. change 15 with (zlen h). apply zdrop_app_zlen.
  - unfold sig_r, sig_s, SHA1_HASH_SIZE in *. rewrite <-Hr at 1. rewrite ztake_app_zlen. split; [done|]. rewrite <-Hr at 1. by rewrite zdrop_app_zlen.
Qed.

(** The outcome of signing: the string written, of the content [content]. *)
Definition signed {R} `{RandomMp R} priv type data (rng : R) b pre content rng' : Prop :=
  zlen content <= MAX_PUBKEY_SIZE /\
  exists b' room', buf_put_sign priv type data rng b = Ok (rng', b') /\ buf_repr b' (pre ++ store32h (zlen content) ++ content) [] room'.

Lemma twp_signed {R} `{RandomMp R} priv type data (rng : R) b pre content rng' room' :
  zlen content <= MAX_PUBKEY_SIZE ->
  twp (buf_put_sign priv type data rng) (fun rg b' => rg = rng' /\ buf_repr b' (pre ++ store32h (zlen content) ++ content) [] room') b ->
  signed priv type data rng b pre content rng'.
Proof.
  intros Hl Hw. split; [done|]. unfold twp in Hw. destruct (buf_put_sign priv type data rng b) as [[rg b']| |]; [|done|done].
  destruct Hw as [-> Hb']. by exists b', room'.
Qed.

Lemma put_dss_sign_ok {R} `{RandomMp R} priv pub data d x rng k rng' b pre room :
  sk_dsskey priv = Some d -> sk_dsskey pub = Some (dss_public d) -> dss_domain d -> dss_q d <= 2 ^ 160 -> dss_x d = Some x -> 0 <= x ->
  dss_g d ^ dss_q d mod dss_p d = 1 -> dss_y d = dss_g d ^ x mod dss_p d ->
  gen_random_mpint (dss_q d) rng = (k, rng') -> 0 <= k -> Z.gcd k (dss_q d) = 1 ->
  buf_repr b pre [] room -> 4 + MAX_PUBKEY_SIZE <= room ->
  exists content blob, signed priv DROPBEAR_SIGNKEY_DSS data rng b pre content rng' /\ zlen content = DSS_SIGNATURE_SIZE /\
    (Z.gcd (sig_s (zdrop 15 content)) (dss_q d) = 1 ->
      signature DROPBEAR_SIGNKEY_DSS blob content /\ scheme_verifies pub DROPBEAR_SIGNKEY_DSS data blob).
Proof.
  intros Ed Ed' Hdom Hq160 Hx Hx0 Hord Hy Ek Hk Hgcd Hb Hroom. pose proof Hdom as [Hp _ Hq _ _].
  destruct (repr_buf_new MAX_PUBKEY_SIZE b) as (b0 & E0 & Hb0); [by vm_compute|].
  destruct (dss_sign_ok d data rng x k rng' b0 [] MAX_PUBKEY_SIZE Hdom Hq160 Hx Hx0 Ek Hk Hgcd Hb0) as (r & s & b1 & E1 & Hb1 & Hr & Hs & Hsig); [by vm_compute|]. cbn [app] in Hb1.
  destruct (fixed_bytes_ok SHA1_HASH_SIZE r) as (Hrb & Hrl & Hrr); [lia|by apply (fits_160 r (dss_q d))|].
  destruct (fixed_bytes_ok SHA1_HASH_SIZE s) as (Hsb & Hsl & Hsr); [lia|by apply (fits_160 s (dss_q d))|].
  destruct (dss_content_split r s Hrl) as (Hsplit & Hsr1 & Hss1). rewrite Hrr in Hsr1. rewrite Hsr in Hss1.
  set (blob := fixed_bytes SHA1_HASH_SIZE r ++ fixed_bytes SHA1_HASH_SIZE s) in *.
  assert (Hbl : zlen blob = 2 * SHA1_HASH_SIZE) by (unfold blob; rewrite zlen_app; lia).
  assert (Ec : dss_sig_bytes r s = store32h 7 ++ chars SSH_SIGNKEY_DSS ++ store32h (zlen blob) ++ blob) by (by rewrite Hbl).
  assert (Hcl : zlen (dss_sig_bytes r s) = 55) by (rewrite Ec, !zlen_app, !zlen_store32h, Hbl; reflexivity).
  exists (dss_sig_bytes r s), blob. split; [|split; [done|]].
  - apply (twp_signed _ _ _ _ _ _ _ _ (room - 4 - zlen (dss_sig_bytes r s))); [rewrite Hcl; by vm_compute|]. unfold buf_put_sign.
    eapply put_blob_run; [exact E0| |exact Hb1|lia|exact Hb|rewrite Hcl; unfold MAX_PUBKEY_SIZE in *; lia|intros b' Hb'; split; [done|exact Hb']].
    cbn [Z.eqb Pos.eqb DROPBEAR_SIGNKEY_DSS DROPBEAR_SIGNKEY_RSA]. rewrite Ed. unfold bind at 1. cbn [nonnull or_exit].
    change (bind (ret d) (fun d => buf_put_dss_sign d data rng) b0) with (buf_put_dss_sign d data rng b0). by rewrite E1.
  - rewrite Hsplit, Hss1. intros Hg. split.
    + rewrite Ec. constructor; [rewrite Hbl; by vm_compute|by apply Forall_app_2|]. intros _ Es0. rewrite Hss1 in Es0. rewrite Es0, Z.gcd_0_l in Hg. lia.
    + exists (dss_public d). rewrite Hsr1, Hss1. split_and!; [done|done|].
      eapply (fips_sign_verify d x k); try done. apply read_nonneg, fips_sha1_ok.
Qed.

Lemma put_rsa_sign_ok {R} `{RandomMp R} priv pub data r d rng k rng' b pre room :
  sk_rsakey priv = Some r -> sk_rsakey pub = Some (rsa_public r) -> rsa_domain r -> rsa_d r = Some d -> rsa_pair (rsa_n r) (rsa_e r) d ->
  15 + mp_unsigned_bin_size (rsa_n r) <= MAX_PUBKEY_SIZE ->
  gen_random_mpint (rsa_n r) rng = (k, rng') -> 0 <= k -> Z.gcd k (rsa_n r) = 1 ->
  buf_repr b pre [] room -> 4 + MAX_PUBKEY_SIZE <= room ->
  exists content blob, signed priv DROPBEAR_SIGNKEY_RSA data rng b pre content rng' /\
    signature DROPBEAR_SIGNKEY_RSA blob content /\ scheme_verifies pub DROPBEAR_SIGNKEY_RSA data blob.
Proof.
  intros Er Er' Hdom Hd Hpair Hfit Ek Hk Hgcd Hb Hroom. pose proof Hdom as (He & Hn & Hsize).
  destruct (repr_buf_new MAX_PUBKEY_SIZE b) as (b0 & E0 & Hb0); [by vm_compute|].
  destruct (rsa_sign_ok r d data rng k rng' b0 [] MAX_PUBKEY_SIZE Hdom Hd Hpair Ek Hk Hgcd Hb0 Hfit) as (s & b1 & E1 & Hb1 & Hs0 & Hsk & Hsig). cbn [app] in Hb1.
  set (n := mp_unsigned_bin_size (rsa_n r)) in *. destruct (fixed_bytes_ok n s Hs0 Hsk) as (Hsb & Hsl & Hsr).
  assert (Hcl : zlen (rsa_sig_bytes n s) = 15 + n) by (unfold rsa_sig_bytes; rewrite !zlen_app, !zlen_store32h, Hsl; change (zlen (chars SSH_SIGNKEY_RSA)) with 7; lia).
  exists (rsa_sig_bytes n s), (store32h n ++ fixed_bytes n s). split; [|split].
  - apply (twp_signed _ _ _ _ _ _ _ _ (room - 4 - zlen (rsa_sig_bytes n s))); [lia|]. unfold buf_put_sign.
    eapply put_blob_run; [exact E0| |exact Hb1|lia|exact Hb|lia|intros b' Hb'; split; [done|exact Hb']].
    cbn [Z.eqb Pos.eqb DROPBEAR_SIGNKEY_DSS DROPBEAR_SIGNKEY_RSA]. rewrite (bind_ok _ _ _ rng b0) by reflexivity. rewrite Er. exact E1.
  - apply signature_rsa. unfold is_u32, BUF_MAX_SIZE in *. lia.
  - exists (rsa_public r), n, (fixed_bytes n s). split_and!; [done|done|done|]. by rewrite Hsr.
Qed.
End Signatures.

(** What is signed is verified: the statement of the claim below, which other
    components' lemmas use. *)
Lemma sign_then_verify {R} `{RandomMp R} `{ExptModLaws} priv pub type data (rng : R) k rng' b pre room :
  key_pair priv pub type ->
  gen_random_mpint (random_modulus priv type) rng = (k, rng') -> 0 <= k -> Z.gcd k (random_modulus priv type) = 1 ->
  buf_repr b pre [] room -> 4 + MAX_PUBKEY_SIZE <= room ->
  exists content b' room', buf_put_sign priv type data rng b = Ok (rng', b') /\
    buf_repr b' (pre ++ store32h (zlen content) ++ content) [] room' /\
    (good_s pub type content -> forall c pre' room'', buf_repr c pre' (store32h (zlen content) ++ content) room'' ->
      exists c', buf_verify pub data c = Ok (true, c')).
Proof.
  intros Hpair Ek Hk Hgcd Hb Hroom. destruct Hpair as [d d' x Ed Ed' -> Hdom Hq160 Hx Hx0 Hord Hy|r r' d Er Er' -> Hdom Hd Hpair Hfit];
    unfold random_modulus in Ek, Hgcd; cbn [Z.eqb Pos.eqb DROPBEAR_SIGNKEY_DSS DROPBEAR_SIGNKEY_RSA] in Ek, Hgcd;
    [rewrite Ed in Ek, Hgcd|rewrite Er in Ek, Hgcd]; cbn in Ek, Hgcd.
  - destruct (put_dss_sign_ok priv pub data d x rng k rng' b pre room Ed Ed' Hdom Hq160 Hx Hx0 Hord Hy Ek Hk Hgcd Hb Hroom)
      as (content & blob & (Hl & b' & room' & E & Hb') & Hlen & Hver).
    exists content, b', room'. split; [done|]. split; [done|]. intros Hgood c pre' room'' Hc.
    destruct Hver as [Hsig Hsch]; [specialize (Hgood eq_refl); unfold random_modulus in Hgood; rewrite Ed' in Hgood; exact Hgood|].
    assert (Hcan : can_verify pub DROPBEAR_SIGNKEY_DSS) by (left; split; [done|]; exists (dss_public d); split; [done|by destruct Hdom]).
    pose proof (buf_verify_ok pub _ data (zlen content) blob content c pre' room'' Hsig Hcan ltac:(by rewrite Hlen) Hc) as Hv.
    rewrite Hlen in Hv. cbn in Hv. destruct Hv as (ok & c' & Ev & Hok). exists c'. by rewrite (proj2 Hok Hsch) in Ev.
  - destruct (put_rsa_sign_ok priv pub data r d rng k rng' b pre room Er Er' Hdom Hd Hpair Hfit Ek Hk Hgcd Hb Hroom)
      as (content & blob & (Hl & b' & room' & E & Hb') & Hsig & Hsch).
    exists content, b', room'. split; [done|]. split; [done|]. intros _ c pre' room'' Hc.
    assert (Hcan : can_verify pub DROPBEAR_SIGNKEY_RSA) by (right; split; [done|]; exists (rsa_public r); split; [done|exact Hdom]).
    assert (H32 : is_u32 (zlen content)) by (pose proof (zlen_nonneg content); unfold is_u32, MAX_PUBKEY_SIZE in *; lia).
    destruct (buf_verify_ok pub _ data (zlen content) blob content c pre' room'' Hsig Hcan H32 Hc) as (ok & c' & Ev & Hok).
    exists c'. by rewrite (proj2 Hok Hsch) in Ev.
Qed.

(** ** Properties *)

(** C18: What buf_put_sign writes, buf_verify accepts.  For a private key and
    its public half, DSS or RSA (with blinding), and any random number that is
    coprime to the modulus it is drawn below: signing writes one string, and
    verifying its content against the same data with the public key succeeds;
    for DSS provided the signature's s is invertible, which the code does not
    check. *)
Theorem signature_verifies {R} `{RandomMp R} `{ExptModLaws} priv pub type data (rng : R) k rng' b pre room :
  key_pair priv pub type ->
  gen_random_mpint (random_modulus priv type) rng = (k, rng') -> 0 <= k -> Z.gcd k (random_modulus priv type) = 1 ->
  buf_repr b pre [] room -> 4 + MAX_PUBKEY_SIZE <= room ->
  exists content b' room', buf_put_sign priv type data rng b = Ok (rng', b') /\
    buf_repr b' (pre ++ store32h (zlen content) ++ content) [] room' /\
    (good_s pub type content -> forall c pre' room'', buf_repr c pre' (store32h (zlen content) ++ content) room'' ->
      exists c', buf_verify pub data c = Ok (true, c')).
Proof. apply sign_then_verify. Qed.

(** Numbers in the order of a counter. *)
#[local] Instance counter_mpint : RandomMp Z := { gen_random_mpint max r := (r mod max, r + 1) }.

(** Primality by trial division, for small numbers. *)
Lemma small_prime p : 2 <= p -> forallb (fun k => negb (p mod k =? 0)) (seqZ 2 (p - 2)) = true -> Z.prime p.
Proof.
  intros Hp Hall. split; [lia|]. intros n Hn Hdiv. rewrite forallb_forall in Hall. specialize (Hall n).
  apply Z.mod_divide in Hdiv; [|lia]. rewrite Hdiv in Hall. cbn in Hall. enough (false = true) by done. apply Hall.
  apply list_elem_of_In, elem_of_seqZ. lia.
Qed.

Definition small_primes : list Z := Eval vm_compute in
  base.filter (fun p => forallb (fun k => negb (p mod k =? 0)) (seqZ 2 (p - 2)) = true) (seqZ 3 381).

Definition toy_rsa_d : Z := 277079936857097400929869015998467465232278459393.
Definition toy_rsa : dropbear_rsa_key := mkrsa (product small_primes) 257 (Some toy_rsa_d) None None.

Lemma toy_rsa_pair : rsa_pair (rsa_n toy_rsa) (rsa_e toy_rsa) toy_rsa_d.
Proof.
  split; [by vm_compute|]. split; [by vm_compute|]. exists small_primes. split; [|split; [|done]].
  - apply (bool_decide_eq_true_1 _). by vm_compute.
  - assert (Hall : forallb (fun p => (2 <=? p) && forallb (fun k => negb (p mod k =? 0)) (seqZ 2 (p - 2)) &&
      ((257 * toy_rsa_d) mod (p - 1) =? 1 mod (p - 1))) small_primes = true) by (by vm_compute).
    rewrite forallb_forall in Hall. apply Forall_forall. intros p Hp%list_elem_of_In. specialize (Hall p Hp).
    apply andb_true_iff in Hall as [[H2%Z.leb_le Hpr]%andb_true_iff He%Z.eqb_eq]. split; [by apply small_prime|exact He].
Qed.

Definition toy_priv : sign_key := mksk 1 SIGNKEY_SOURCE_RAW_FILE None (Some toy_dss) (Some toy_rsa).
Definition toy_pub : sign_key := mksk 1 SIGNKEY_SOURCE_RAW_FILE None (Some (dss_public toy_dss)) (Some (rsa_public toy_rsa)).
Definition empty_buffer (size : Z) : buffer := mkbuf (replicate (Z.to_nat size) 0) 0 0 size.

Lemma empty_buffer_repr size : 0 <= size <= BUF_MAX_SIZE -> buf_repr (empty_buffer size) [] [] size.
Proof.
  intros Hs. split; cbn [empty_buffer b_data b_pos b_len b_size]; try done; try lia.
  - exists (replicate (Z.to_nat size) 0). split; [done|]. unfold zlen. rewrite length_replicate. lia.
  - by apply Forall_replicate.
Qed.

Lemma toy_rsa_domain : rsa_domain toy_rsa.
Proof. unfold rsa_domain. assert (E : mp_unsigned_bin_size (rsa_n toy_rsa) = 65) by (by vm_compute). rewrite E.
  split; [done|]. split; [reflexivity|]. by split.
Qed.

Lemma toy_pairs : key_pair toy_priv toy_pub DROPBEAR_SIGNKEY_RSA /\ key_pair toy_priv toy_pub DROPBEAR_SIGNKEY_DSS.
Proof.
  split.
  - eapply rsa_pair_keys; [reflexivity|reflexivity|reflexivity|exact toy_rsa_domain|reflexivity|exact toy_rsa_pair|by vm_compute].
  - eapply dss_pair; [reflexivity|reflexivity|reflexivity|split; [by vm_compute|left; by vm_compute|by vm_compute|by vm_compute|by vm_compute]|by vm_compute|reflexivity|by vm_compute|by vm_compute|by vm_compute].
Qed.

Lemma signature_verifies_witness :
  (exists content b' room', buf_put_sign toy_priv DROPBEAR_SIGNKEY_RSA [1; 2; 3] 2 (empty_buffer 2000) = Ok (3, b') /\
    buf_repr b' ([] ++ store32h (zlen content) ++ content) [] room' /\
    (good_s toy_pub DROPBEAR_SIGNKEY_RSA content -> forall c pre' room'', buf_repr c pre' (store32h (zlen content) ++ content) room'' ->
      exists c', buf_verify toy_pub [1; 2; 3] c = Ok (true, c'))) /\
  (exists content b' room', buf_put_sign toy_priv DROPBEAR_SIGNKEY_DSS [1; 2; 3] 14 (empty_buffer 2000) = Ok (15, b') /\
    buf_repr b' ([] ++ store32h (zlen content) ++ content) [] room' /\
    (good_s toy_pub DROPBEAR_SIGNKEY_DSS content -> forall c pre' room'', buf_repr c pre' (store32h (zlen content) ++ content) room'' ->
      exists c', buf_verify toy_pub [1; 2; 3] c = Ok (true, c'))).
Proof.
  split.
  - apply (signature_verifies toy_priv toy_pub DROPBEAR_SIGNKEY_RSA [1; 2; 3] 2 2 3 (empty_buffer 2000) [] 2000);
      [apply toy_pairs|by vm_compute|lia|by vm_compute|by apply empty_buffer_repr|by vm_compute].
  - apply (signature_verifies toy_priv toy_pub DROPBEAR_SIGNKEY_DSS [1; 2; 3] 14 3 15 (empty_buffer 2000) [] 2000);
      [apply toy_pairs|by vm_compute|lia|by vm_compute|by apply empty_buffer_repr|by vm_compute].
Defined.

(** C35: A public key survives its blob.  What buf_put_pub_key appends is one
    string; buf_get_pub_key, called as the key exchange calls it after the
    string's length, finds the type by the name in it, accepts it when the
    caller asked for that type or for any, stores the public half of the key
    (and nothing private), and leaves the buffer after the blob. *)
Theorem pub_key_roundtrip (key into out : sign_key) (type asked : Z) b pre room :
  has_key key type -> readable key type into out -> asked = DROPBEAR_SIGNKEY_ANY \/ asked = type ->
  buf_repr b pre [] room -> 4 + zlen (pub_bytes key type) <= room ->
  exists b', buf_put_pub_key key type b = Ok (tt, b') /\
    buf_repr b' (pre ++ store32h (zlen (pub_bytes key type)) ++ pub_bytes key type) [] (room - 4 - zlen (pub_bytes key type)) /\
    forall c pre' post room', buf_repr c pre' (store32h (zlen (pub_bytes key type)) ++ pub_bytes key type ++ post) room' ->
    exists c1 c2, buf_getint c = Ok (zlen (pub_bytes key type), c1) /\
      buf_get_pub_key into asked c1 = Ok ((true, out, type), c2) /\
      buf_repr c2 (pre' ++ store32h (zlen (pub_bytes key type)) ++ pub_bytes key type) post room'.
Proof.
  intros Hk Hr Hasked Hb Hroom.
  assert (Hw : twp (buf_put_pub_key key type) (fun _ b' => buf_repr b' (pre ++ store32h (zlen (pub_bytes key type)) ++ pub_bytes key type) [] (room - 4 - zlen (pub_bytes key type))) b)
    by (eapply append_pub_key; [exact Hk|exact Hb|exact Hroom|by intros]).
  unfold twp in Hw. destruct (buf_put_pub_key key type b) as [[[] b']| |] eqn:E; [|done|done]. exists b'. split; [done|]. split; [done|].
  intros c pre' post room' Hc.
  assert (Hlen : is_u32 (zlen (pub_bytes key type))).
  { pose proof (zlen_nonneg (pub_bytes key type)). pose proof (br_max _ _ _ _ Hb). pose proof (br_size _ _ _ _ Hb). pose proof (zlen_nonneg pre).
    change (zlen (@nil Z)) with 0 in *. unfold is_u32, BUF_MAX_SIZE in *. lia. }
  destruct (repr_getint c pre' _ _ room' Hlen Hc) as (c1 & E1 & Hc1).
  destruct (get_pub_key_ok key type asked into out c1 _ post room' Hr Hasked Hc1) as (c2 & E2 & Hc2).
  exists c1, c2. split; [done|]. split; [done|]. by rewrite <-app_assoc in Hc2.
Qed.

(** A DSS key of 512 bits in form only: numbers of the right size. *)
Definition form_dss : dropbear_dss_key := mkdss (2 ^ 511 + 187) 1009 5 77 (Some 9).

Lemma is_mpint_small a : 0 <= a -> mp_count_bits a <= 8000 -> is_mpint a.
Proof. intros Ha Hb. split; [done|]. rewrite mpint_len by done. change BUF_MAX_MPINT with 1030. Z.div_mod_to_equations. lia. Qed.

Lemma pub_key_roundtrip_witness : let key := set_sk_dsskey (Some form_dss) new_sign_key in
  exists b', buf_put_pub_key key DROPBEAR_SIGNKEY_DSS (empty_buffer 2000) = Ok (tt, b') /\
    buf_repr b' ([] ++ store32h (zlen (pub_bytes key DROPBEAR_SIGNKEY_DSS)) ++ pub_bytes key DROPBEAR_SIGNKEY_DSS) [] (2000 - 4 - zlen (pub_bytes key DROPBEAR_SIGNKEY_DSS)) /\
    forall c pre' post room', buf_repr c pre' (store32h (zlen (pub_bytes key DROPBEAR_SIGNKEY_DSS)) ++ pub_bytes key DROPBEAR_SIGNKEY_DSS ++ post) room' ->
    exists c1 c2, buf_getint c = Ok (zlen (pub_bytes key DROPBEAR_SIGNKEY_DSS), c1) /\
      buf_get_pub_key new_sign_key DROPBEAR_SIGNKEY_ANY c1 = Ok ((true, set_sk_dsskey (Some (dss_public form_dss)) new_sign_key, DROPBEAR_SIGNKEY_DSS), c2) /\
      buf_repr c2 (pre' ++ store32h (zlen (pub_bytes key DROPBEAR_SIGNKEY_DSS)) ++ pub_bytes key DROPBEAR_SIGNKEY_DSS) post room'.
Proof.
  intros key. assert (Hn : dss_numbers form_dss) by (split; apply is_mpint_small; by vm_compute).
  apply (pub_key_roundtrip key new_sign_key (set_sk_dsskey (Some (dss_public form_dss)) new_sign_key) DROPBEAR_SIGNKEY_DSS DROPBEAR_SIGNKEY_ANY (empty_buffer 2000) [] 2000).
  - eapply has_dss; [reflexivity|exact Hn|by vm_compute].
  - eapply readable_dss; [reflexivity|exact Hn|by vm_compute].
  - by left.
  - by apply empty_buffer_repr.
  - by vm_compute.
Defined.

(** C19: What buf_verify decides.  On a signature blob with the name of a
    scheme the program knows, checked with a key of that scheme, it succeeds
    exactly when the scheme's equation holds: FIPS 186 for DSS (on a blob of
    forty bytes), RSASSA-PKCS1-v1_5 for RSA (on a signature as long as the
    modulus).  A DSS blob whose length field is not that of a DSS signature
    ends the process. *)
Theorem buf_verify_decides `{ExptModLaws} key type data bl blob content b pre room :
  signature type blob content -> can_verify key type -> is_u32 bl ->
  buf_repr b pre (store32h bl ++ content) room ->
  if (type =? DROPBEAR_SIGNKEY_DSS) && negb (bl =? DSS_SIGNATURE_SIZE) then buf_verify key data b = Exit "Non-matching signing type"
  else exists ok b', buf_verify key data b = Ok (ok, b') /\ (ok = true <-> scheme_verifies key type data blob).
Proof. apply buf_verify_ok. Qed.

(** The signature (5, 3) of toy_dss, in a buffer. *)
Definition toy_sig : list Z := fixed_bytes 20 5 ++ fixed_bytes 20 3.
Definition toy_sig_content : list Z := store32h 7 ++ chars SSH_SIGNKEY_DSS ++ store32h 40 ++ toy_sig.
Definition packed_buffer (l : list Z) : buffer := mkbuf l (zlen l) 0 (zlen l).

Lemma packed_buffer_repr l : bytes l -> zlen l <= BUF_MAX_SIZE -> buf_repr (packed_buffer l) [] l 0.
Proof.
  intros Hl Hm. split; cbn [packed_buffer b_data b_pos b_len b_size]; try done; try (change (zlen (@nil Z)) with 0; lia).
  exists []. split; [by rewrite app_nil_r|done].
Qed.

Lemma buf_verify_decides_witness :
  exists ok b', buf_verify toy_pub [1; 2; 3] (packed_buffer (store32h 55 ++ toy_sig_content)) = Ok (ok, b') /\
    (ok = true <-> scheme_verifies toy_pub DROPBEAR_SIGNKEY_DSS [1; 2; 3] toy_sig).
Proof.
  apply (buf_verify_decides toy_pub DROPBEAR_SIGNKEY_DSS [1; 2; 3] 55 toy_sig toy_sig_content (packed_buffer (store32h 55 ++ toy_sig_content)) [] 0).
  - apply signature_dss; [by vm_compute|apply (bool_decide_eq_true_1 _); by vm_compute|by vm_compute].
  - left. split; [done|]. exists (dss_public toy_dss). split; [done|split; [by vm_compute|left; by vm_compute|by vm_compute|by vm_compute|by vm_compute]].
  - by vm_compute.
  - apply packed_buffer_repr; [apply (bool_decide_eq_true_1 _); by vm_compute|by vm_compute].
Defined.

(** The name in a signature is compared over its own length, whatever that
    is.  A name longer than the eight bytes of the literal makes memcmp read
    past it; the empty name compares equal to both, so that a signature
    without a name is checked as DSS or as RSA by its length alone. *)
Theorem verify_trusts_the_name_length `{ExptMod} key data bl name rest b pre room :
  is_u32 bl -> zlen name <= MAX_STRING_LEN ->
  buf_repr b pre (store32h bl ++ store32h (zlen name) ++ name ++ rest) room ->
  (8 < zlen name -> buf_verify key data b = Fault "memcmp past the end of an array") /\
  (name = [] -> exists b', buf_repr b' (pre ++ store32h bl ++ store32h 0) rest room /\
    buf_verify key data b =
      (if bl =? DSS_SIGNATURE_SIZE
       then match sk_dsskey key with None => dropbear_exit "No DSS key to verify signature" | Some d => buf_dss_verify d data end
       else match sk_rsakey key with None => dropbear_exit "No RSA key to verify signature" | Some r => buf_rsa_verify r data end) b').
Proof.
  intros Hbl Hl Hb. destruct (repr_getint b pre bl _ room Hbl Hb) as (b1 & E1 & Hb1).
  destruct (repr_getstring b1 _ name rest room _ eq_refl Hl Hb1) as (b2 & E2 & Hb2).
  unfold buf_verify. rewrite (bind_ok _ _ _ _ _ E1), (bind_ok _ _ _ _ _ E2). cbv beta iota. split.
  - intros Hlong. pose proof (memcmp_lit_past (name ++ [0]) SSH_SIGNKEY_DSS (zlen name) b2 Hlong) as Ed.
    pose proof (memcmp_lit_past (name ++ [0]) SSH_SIGNKEY_RSA (zlen name) b2 Hlong) as Er.
    destruct (bl =? DSS_SIGNATURE_SIZE); [by rewrite (bind_fault _ _ _ _ Ed)|].
    rewrite (bind_ok _ _ _ false b2) by reflexivity. by rewrite (bind_fault _ _ _ _ Er).
  - intros ->. exists b2. split; [by rewrite <-!app_assoc in *|]. destruct (bl =? DSS_SIGNATURE_SIZE); [by rewrite (bind_ok _ _ _ true b2) by reflexivity|].
    rewrite (bind_ok _ _ _ false b2) by reflexivity. by rewrite (bind_ok _ _ _ true b2) by reflexivity.
Qed.

Lemma verify_trusts_the_name_length_witness :
  buf_verify toy_pub [1; 2; 3] (packed_buffer (store32h 55 ++ store32h 9 ++ replicate 9 115 ++ [])) = Fault "memcmp past the end of an array".
Proof.
  apply (verify_trusts_the_name_length toy_pub [1; 2; 3] 55 (replicate 9 115) [] (packed_buffer (store32h 55 ++ store32h 9 ++ replicate 9 115 ++ [])) [] 0);
    [by vm_compute|by vm_compute|apply packed_buffer_repr; [apply (bool_decide_eq_true_1 _); by vm_compute|by vm_compute]|by vm_compute].
Defined.

(** The public key as another program reads it. *)
Definition toy_out : sign_key := set_sk_rsakey (Some (rsa_public toy_rsa)) new_sign_key.

Lemma toy_rsa_numbers : rsa_numbers toy_rsa.
Proof. split; apply is_mpint_small; by vm_compute. Qed.

Lemma toy_has_key : has_key toy_priv DROPBEAR_SIGNKEY_RSA.
Proof. eapply has_rsa; [reflexivity|exact toy_rsa_numbers|by vm_compute]. Qed.

Lemma toy_readable : readable toy_priv DROPBEAR_SIGNKEY_RSA new_sign_key toy_out.
Proof. apply readable_rsa; [reflexivity|exact toy_rsa_numbers|by vm_compute]. Qed.

Lemma toy_out_pair : key_pair toy_priv toy_out DROPBEAR_SIGNKEY_RSA.
Proof. eapply rsa_pair_keys; [reflexivity|reflexivity|reflexivity|exact toy_rsa_domain|reflexivity|exact toy_rsa_pair|by vm_compute]. Qed.
