(* ===== verification/HostKey.v ===== *)
(** The authentication of the server: signkey.c as the signing keys of the key
    exchange (Kex.SignKey), and what that gives the two handlers of the
    exchange: the reply of a server that holds the private key is accepted,
    and the client accepts no reply without a signature that the host key
    verifies over the hash of the exchange it took part in. *)

From S2P Require Import Prelude Dbutil Buffer Mpint Bignum Ssh Algo Packet MdHash Sha1 Hashes Kex KexKeys KexHash Exptmod SignCommon Dss Rsa SignKey.

Local Open Scope Z_scope.
Local Open Scope prog_scope.

Section HostKey.
Context {St Zs R : Type} `{CipherStart St} `{ZlibStreams Zs} `{Random R} `{RandomMp R} `{ExptModLaws} (known : list Z -> bool).

(** The functions of signkey.c under the interface; [known] is checkhostkey's
    answer for a blob. *)
#[export] Instance dropbear_signkey : Kex.SignKey sign_key R := {
  Kex.buf_put_pub_key := SignKey.buf_put_pub_key;
  Kex.buf_get_pub_key type := x <- SignKey.buf_get_pub_key new_sign_key type ;; ret (if x.1.1 : bool then Some x.1.2 else None);
  Kex.buf_put_sign := SignKey.buf_put_sign;
  Kex.buf_verify := SignKey.buf_verify;
  Kex.checkhostkey := known
}.

#[export] Program Instance dropbear_signkey_laws : SignKeyLaws sign_key R := {
  key_for := has_key;
  pub_blob k type := store32h (zlen (pub_bytes k type)) ++ pub_bytes k type
}.
Next Obligation.
  intros k type b pre room Hk Hb Hroom. cbv beta in Hroom |- *. rewrite zlen_app, zlen_store32h in Hroom.
  assert (Hw : twp (SignKey.buf_put_pub_key k type) (fun _ b' => buf_repr b' (pre ++ store32h (zlen (pub_bytes k type)) ++ pub_bytes k type) [] (room - 4 - zlen (pub_bytes k type))) b)
    by (eapply append_pub_key; [exact Hk|exact Hb|exact Hroom|by intros]).
  apply twp_ex in Hw as ([] & b' & E & Hb'). exists b'. split; [exact E|]. rewrite zlen_app, zlen_store32h, Z.sub_add_distr. exact Hb'.
Qed.

Abbreviation kses := (kses sign_key St Zs R).
Implicit Types (s : kses).

(** ** The server's reply *)

(** The data of the exchange, and the hash both sides take of it. *)
Definition exchange_hash (pre blob : list Z) (e f secret : Z) : list Z := Sha1.fips_sha1 (pre ++ hash_tail blob e f secret).

Definition blob_of (key : sign_key) (type : Z) : list Z := store32h (zlen (pub_bytes key type)) ++ pub_bytes key type.

Definition reply_body (key : sign_key) (type f : Z) (content : list Z) : list Z :=
  blob_of key type ++ encode_mpint f ++ store32h (zlen content) ++ content.

Lemma twp_gen_kexdh_vals s nk y r (Q : Z * Z -> kses -> Prop) : x_newkeys s = Some nk -> dh_group (kc_algo_kex nk) ->
  gen_random_mpint (Z.shiftr (load_dh_p (kc_algo_kex nk) - 1) 1) (x_random s) = (y, r) -> 0 <= y ->
  Q (DH_G_VAL ^ y mod load_dh_p (kc_algo_kex nk), y) (set_x_random r s) -> twp gen_kexdh_vals Q s.
Proof.
  intros Hnk Hg Er Hy HQ. destruct (load_dh_p_ok _ Hg) as [[Hp _] _]. unfold gen_kexdh_vals.
  apply twp_bind, (twp_newkeys nk); [exact Hnk|]. cbn zeta. twp_steps. rewrite Er. cbv beta iota. twp_steps.
  rewrite mp_exptmod_ok by (done || lia || by apply dh_sound). by apply twp_ret.
Qed.

Lemma twp_encrypt_packet content room (Q : unit -> kses -> Prop) s : buf_repr (x_writepayload s) content [] room ->
  (forall w, buf_repr w [] [] (zlen content + room) -> Q tt (set_x_writepayload w (set_x_sent (x_sent s ++ [content]) s))) -> twp encrypt_packet Q s.
Proof.
  intros Hb HQ. destruct (br_data _ _ _ _ Hb) as (rest & Hd & Hr). pose proof (br_len _ _ _ _ Hb) as Hl. rewrite zlen_nil, Z.add_0_r in Hl.
  unfold encrypt_packet. twp_steps. assert (Ec : ztake (b_len (x_writepayload s)) (b_data (x_writepayload s)) = content) by (rewrite Hl, Hd; cbn [app]; apply ztake_app_zlen).
  rewrite Ec. unfold on_wp. cbn [x_writepayload set_x_sent].
  destruct (repr_rewind _ _ _ _ Hb) as (b1 & E1 & Hb1). rewrite app_nil_r in Hb1. apply twp_zoom. eapply twp_ok; [exact E1|]. cbn beta.
  pose proof (br_size _ _ _ _ Hb1) as Hs. rewrite zlen_nil in Hs. pose proof (br_room _ _ _ _ Hb1). pose proof (zlen_nonneg content).
  destruct (repr_setlen b1 [] content room 0 Hb1) as (b2 & ext & E2 & Hb2 & _); [rewrite zlen_nil; lia|]. change (zlen (@nil Z)) with 0 in Hb2. rewrite ztake_0, Z.sub_0_r in Hb2.
  apply twp_zoom. cbn [x_writepayload set_x_writepayload]. eapply twp_ok; [exact E2|]. apply HQ. by replace (zlen content + room) with (b_size b1) by lia.
Qed.

(** The session ready to make or take the reply: its next keys, and the data
    of the exchange so far. *)
Record exchanging s (nk : key_context St Zs) (type : Z) (pre : list Z) : Prop := {
  ex_newkeys : x_newkeys s = Some nk;
  ex_group : dh_group (kc_algo_kex nk);
  ex_type : kc_algo_hostkey nk = type;
  ex_buf : exists b room, x_kexhashbuf s = Some b /\ buf_repr b pre [] room /\ 5000 <= room
}.

(** The outcome of the exchange for a session. *)
Definition exchanged s hash secret s' : Prop :=
  x_hash s' = hash /\ x_dh_K s' = Some secret /\ x_session_id s' = Some (default hash (x_session_id s)) /\
  x_newkeys s' = x_newkeys s /\ x_kexstate s' = x_kexstate s /\ x_keys s' = x_keys s /\ x_cfg s' = x_cfg s.

Lemma has_key_size key type : has_key key type -> zlen (pub_bytes key type) <= MAX_PUBKEY_SIZE.
Proof. intros [d E _ Hl|r E _ Hl]; unfold pub_bytes; cbn [Z.eqb Pos.eqb DROPBEAR_SIGNKEY_DSS DROPBEAR_SIGNKEY_RSA]; by rewrite E. Qed.

Lemma send_reply_ok s nk type pre priv pub y r1 k r2 e : exchanging s nk type pre ->
  cf_isclient (x_cfg s) = false -> cf_hostkey (x_cfg s) = priv ->
  has_key priv type -> key_pair priv pub type -> 0 < e < load_dh_p (kc_algo_kex nk) ->
  gen_random_mpint (Z.shiftr (load_dh_p (kc_algo_kex nk) - 1) 1) (x_random s) = (y, r1) -> 0 <= y ->
  gen_random_mpint (random_modulus priv type) r1 = (k, r2) -> 0 <= k -> Z.gcd k (random_modulus priv type) = 1 ->
  (exists wroom, buf_repr (x_writepayload s) [] [] wroom /\ 5000 <= wroom) ->
  let p := load_dh_p (kc_algo_kex nk) in
  let f := DH_G_VAL ^ y mod p in
  let secret := e ^ y mod p in
  let hash := exchange_hash pre (blob_of priv type) e f secret in
  exists content s', send_msg_kexdh_reply e s = Ok (tt, s') /\ x_sent s' = x_sent s ++ [SSH_MSG_KEXDH_REPLY :: reply_body priv type f content] /\
    exchanged s hash secret s' /\
    (good_s pub type content -> forall c pre' room'', buf_repr c pre' (store32h (zlen content) ++ content) room'' ->
      exists c', SignKey.buf_verify pub hash c = Ok (true, c')).
Proof.
  intros [Hnk Hg Htype (b & room & Hbuf & Hb & Hroom)] Hs Hhost Hhas Hpair He Ey Hy Ek Hk Hgcd (wroom & Hw & Hwroom) p f secret hash.
  pose proof (has_key_size _ _ Hhas) as Hsize. unfold MAX_PUBKEY_SIZE in Hsize. destruct (load_dh_p_ok _ Hg) as [Hp _]. fold p in Hp. subst type.
  pose proof (dh_pub_range _ y Hg Hy) as Hf. fold p f in Hf. pose proof (zlen_nonneg (pub_bytes priv (kc_algo_hostkey nk))) as Hpb0.
  set (s1 := set_x_random r1 s).
  set (s2 := set_x_session_id (Some (default hash (x_session_id s))) (set_x_kexhashbuf None (set_x_hash hash (set_x_dh_K (Some secret) s1)))).
  assert (Ecomb : kexdh_comb_key f y e priv s1 = Ok (tt, s2)).
  { pose proof (kexdh_comb_key_ok s1 nk b pre room f y e priv Hnk Hg Hbuf Hb) as Hc. change (x_cfg s1) with (x_cfg s) in Hc. rewrite Hs in Hc.
    apply Hc; [fold p; lia|fold p; lia|lia|exact Hhas|]. cbn [pub_blob dropbear_signkey_laws]. rewrite zlen_app, zlen_store32h. lia. }
  set (blob := blob_of priv (kc_algo_hostkey nk)) in *.
  assert (Hblob : zlen blob = 4 + zlen (pub_bytes priv (kc_algo_hostkey nk))) by (unfold blob, blob_of; by rewrite zlen_app, zlen_store32h).
  destruct (encode_mpint_len f) as [Hfl Hfb]; [lia|]. pose proof (zlen_nonneg (encode_mpint f)) as Hf0.
  enough (Ht : twp (send_msg_kexdh_reply e) (fun _ s' => exists content, x_sent s' = x_sent s ++ [SSH_MSG_KEXDH_REPLY :: reply_body priv (kc_algo_hostkey nk) f content] /\
    exchanged s hash secret s' /\ (good_s pub (kc_algo_hostkey nk) content -> forall c pre' room'', buf_repr c pre' (store32h (zlen content) ++ content) room'' ->
      exists c', SignKey.buf_verify pub hash c = Ok (true, c'))) s).
  { apply twp_ex in Ht as ([] & s' & E & content & Hs'). by exists content, s'. }
  unfold send_msg_kexdh_reply, cfg, on_wp. apply twp_bind. eapply twp_gen_kexdh_vals; [exact Hnk|exact Hg|exact Ey|exact Hy|]. fold p f s1. cbv beta iota.
  twp_steps. change (cf_hostkey (x_cfg s1)) with (cf_hostkey (x_cfg s)). rewrite Hhost. eapply twp_ok; [exact Ecomb|].
  apply twp_bind, twp_zoom. eapply (append_putbyte _ [] wroom); [exact Hw|done|lia|]. intros w1 Hw1. cbn [app] in Hw1.
  apply twp_bind, (twp_newkeys nk); [exact Hnk|].
  apply twp_bind, twp_zoom. change (Kex.buf_put_pub_key priv (kc_algo_hostkey nk)) with (SignKey.buf_put_pub_key priv (kc_algo_hostkey nk)).
  eapply append_pub_key; [exact Hhas|exact Hw1|lia|]. intros w2 Hw2. fold (blob_of priv (kc_algo_hostkey nk)) in Hw2. fold blob in Hw2.
  apply twp_bind, twp_zoom. eapply append_putmpint; [lia|exact Hw2|lia|]. intros w3 Hw3.
  twp_steps. change (Kex.buf_put_sign priv (kc_algo_hostkey nk)) with (SignKey.buf_put_sign priv (kc_algo_hostkey nk)).
  destruct (sign_then_verify priv pub _ hash r1 k r2 w3 _ _ Hpair Ek Hk Hgcd Hw3 ltac:(unfold MAX_PUBKEY_SIZE; lia)) as (content & w4 & room4 & E4 & Hw4 & Hver).
  eapply (twp_ok _ _ _ r2 w4); [exact E4|]. cbn beta. twp_steps. eapply twp_encrypt_packet; [exact Hw4|]. intros w5 Hw5. exists content. split; [|split; [|exact Hver]].
  - cbn. unfold reply_body. fold blob. by rewrite <-!app_assoc.
  - by split_and!.
Qed.

Lemma readable_out key type into out : readable key type into out -> has_key key type -> pub_bytes out type = pub_bytes key type /\ has_key out type.
Proof.
  intros Hr Hk. pose proof (has_key_size _ _ Hk) as Hl. destruct Hr as [d into0 Ed Hn _|r into0 Er Hn _].
  - assert (E : pub_bytes (set_sk_dsskey (Some (dss_public d)) into0) DROPBEAR_SIGNKEY_DSS = pub_bytes key DROPBEAR_SIGNKEY_DSS) by (unfold pub_bytes; by rewrite Ed).
    split; [exact E|]. rewrite <-E in Hl. apply (has_dss _ (dss_public d)); [done|by destruct Hn|exact Hl].
  - assert (E : pub_bytes (set_sk_rsakey (Some (rsa_public r)) into0) DROPBEAR_SIGNKEY_RSA = pub_bytes key DROPBEAR_SIGNKEY_RSA) by (unfold pub_bytes; by rewrite Er).
    split; [exact E|]. rewrite <-E in Hl. apply (has_rsa _ (rsa_public r)); [done|exact Hn|exact Hl].
Qed.

Lemma bind_gets {A B} (f : kses -> A) (k : A -> prog kses B) s : bind (gets f) k s = k (f s) s.
Proof. done. Qed.

Lemma bind_ret {A B} (a : A) (k : A -> prog kses B) s : bind (ret a) k s = k a s.
Proof. done. Qed.

Lemma bind_modify {B} f (k : unit -> prog kses B) s : bind (modify f) k s = k tt (f s).
Proof. done. Qed.

Lemma payload_ok {A} (m : prog buffer A) s b a b' : x_payload s = Some b -> m b = Ok (a, b') -> on_payload m s = Ok (a, set_x_payload (Some b') s).
Proof. unfold on_payload, on_ref. by intros -> ->. Qed.

Lemma payload_inv {A} (m : prog buffer A) s a s' : on_payload m s = Ok (a, s') ->
  exists b b', x_payload s = Some b /\ m b = Ok (a, b') /\ s' = set_x_payload (Some b') s.
Proof. unfold on_payload, on_ref. destruct (x_payload s) as [b|]; [|done]. destruct (m b) as [[a0 b']| |] eqn:E; intros [= <- <-]. by exists b, b'. Qed.

Lemma newkeys_inv s nk s' : newkeys s = Ok (nk, s') -> x_newkeys s = Some nk /\ s' = s.
Proof. unfold newkeys, bind, gets. destruct (x_newkeys s); [|done]. by intros [= -> ->]. Qed.

Lemma getptr_bytes_same n b bs b' : getptr_bytes n b = Ok (bs, b') -> b' = b.
Proof.
  unfold getptr_bytes, buf_getptr, load_bytes, bind, gets, id, ret. destruct (_ >? _); [done|].
  destruct (_ && _); [|done]. by intros [= <- <-].
Qed.

Lemma when_exit_inv b msg s s' : when b (dropbear_exit msg) s = Ok (tt, s') -> b = false /\ s' = s.
Proof. destruct b; [done|]. by intros [= <-]. Qed.

(** Taking the exchange hash leaves the packet where it is. *)
Lemma pc_kexhashbuf {A} (m : prog buffer A) (Q : A -> kses -> Prop) s : (forall a o, Q a (set_x_kexhashbuf o s)) -> pc (on_kexhashbuf m) Q s.
Proof. intros HQ. unfold pc, on_kexhashbuf, on_ref. destruct (x_kexhashbuf s) as [b|]; [|done]. destruct (m b) as [[a b']| |]; [apply HQ|done|done]. Qed.

Lemma comb_key_payload us priv them hostkey s s' : kexdh_comb_key us priv them hostkey s = Ok (tt, s') -> x_payload s' = x_payload s.
Proof.
  refine (pc_ok _ (fun _ s' => x_payload s' = x_payload s) s tt s' _). unfold kexdh_comb_key, newkeys, cfg, hashed.
  repeat (pc_step || (apply pc_kexhashbuf; intros); cbn beta); reflexivity.
Qed.

Lemma recv_reply_ok c nk type pre priv out pl pre0 room y e x content : exchanging c nk type pre ->
  cf_isclient (x_cfg c) = true -> x_cli_kex_state c = KEXDH_INIT_SENT -> x_dh_e c = Some e -> x_dh_x c = Some x -> 0 <= x -> 0 <= y ->
  let p := load_dh_p (kc_algo_kex nk) in
  let f := DH_G_VAL ^ y mod p in
  let secret := f ^ x mod p in
  let hash := exchange_hash pre (blob_of priv type) e f secret in
  0 < e < p -> has_key priv type -> readable priv type new_sign_key out ->
  ks_donefirstkex (x_kexstate c) = true \/ known (pub_bytes priv type) = true ->
  x_payload c = Some pl -> buf_repr pl pre0 (reply_body priv type f content) room ->
  (forall b pre' room', buf_repr b pre' (store32h (zlen content) ++ content) room' -> exists b', SignKey.buf_verify out hash b = Ok (true, b')) ->
  exists c', exchanged c hash secret c' /\ x_dh_e c' = None /\ x_dh_x c' = None /\ x_dh_val_algo c' = DROPBEAR_KEX_NONE /\ x_sent c' = x_sent c /\
    recv_msg_kexdh_reply c = (send_msg_newkeys ;;; modify (set_x_requirenext (SSH_MSG_NEWKEYS, 0))) c'.
Proof.
  intros [Hnk Hg Htype (b & hroom & Hbuf & Hb & Hroom)] Hc Hst Ee Ex Hx Hy p f secret hash He Hhas Hread Hknown Hpl Hrepr Hver. subst type.
  destruct (readable_out _ _ _ _ Hread Hhas) as [Hpub Hout]. pose proof (has_key_size _ _ Hhas) as Hsize. unfold MAX_PUBKEY_SIZE in Hsize.
  destruct (load_dh_p_ok _ Hg) as [Hp _]. fold p in Hp. pose proof (dh_pub_range _ y Hg Hy) as Hf. fold p f in Hf.
  set (type := kc_algo_hostkey nk) in *. set (pb := pub_bytes priv type) in *. pose proof (zlen_nonneg pb) as Hpb.
  unfold reply_body, blob_of in Hrepr. fold pb in Hrepr. rewrite <-!app_assoc in Hrepr. destruct (encode_mpint_len f) as [Hfl0 _]; [lia|].
  assert (Hfl : zlen (mpint_bytes f) <= BUF_MAX_MPINT) by (unfold encode_mpint in Hfl0; rewrite zlen_app, zlen_store32h in Hfl0; assert (261 <= BUF_MAX_MPINT) by (by vm_compute); lia).
  destruct (repr_getint pl pre0 (zlen pb) _ room ltac:(unfold is_u32; lia) Hrepr) as (b1 & E1 & Hb1).
  pose proof (repr_getptr_bytes b1 _ pb _ room _ eq_refl Hb1) as E2.
  assert (E3 : exists b3, Kex.buf_get_pub_key type b1 = Ok (Some out, b3) /\ buf_repr b3 ((pre0 ++ store32h (zlen pb)) ++ pb) (encode_mpint f ++ store32h (zlen content) ++ content) room).
  { destruct (get_pub_key_ok priv type type new_sign_key out b1 _ _ room Hread (or_intror eq_refl) Hb1) as (b3 & E3 & Hb3). exists b3. split; [|exact Hb3].
    cbn [Kex.buf_get_pub_key dropbear_signkey]. by rewrite (bind_ok _ _ _ _ _ E3). }
  destruct E3 as (b3 & E3 & Hb3).
  destruct (repr_getmpint b3 _ f _ room (proj1 (conj (Z.lt_le_incl _ _ (proj1 Hf)) I)) Hfl Hb3) as (b4 & E4 & Hb4).
  destruct (Hver _ _ _ Hb4) as (b5 & E5).
  set (c4 := set_x_payload (Some b4) c).
  set (c5 := set_x_session_id (Some (default hash (x_session_id c))) (set_x_kexhashbuf None (set_x_hash hash (set_x_dh_K (Some secret) c4)))).
  assert (Ecomb : kexdh_comb_key e x f out c4 = Ok (tt, c5)).
  { pose proof (kexdh_comb_key_ok c4 nk b pre hroom e x f out Hnk Hg Hbuf Hb) as Hk. change (x_cfg c4) with (x_cfg c) in Hk. rewrite Hc in Hk.
    cbn [pub_blob dropbear_signkey_laws] in Hk. fold type p in Hk. rewrite Hpub in Hk. fold pb in Hk.
    apply Hk; [lia|lia|lia|exact Hout|]. rewrite zlen_app, zlen_store32h. lia. }
  exists (set_x_payload (Some b5) (set_x_dh_val_algo DROPBEAR_KEX_NONE (set_x_dh_x None (set_x_dh_e None c5)))).
  split; [by split_and!|]. do 4 (split; [done|]).
  unfold recv_msg_kexdh_reply. rewrite bind_gets, Hst, bool_decide_eq_true_2 by done. cbn [negb].
  rewrite (bind_ok newkeys _ c nk c) by (unfold newkeys, bind, gets, deref; by rewrite Hnk).
  rewrite (bind_ok _ _ _ _ _ (payload_ok _ c _ _ _ Hpl E1)), (bind_ok _ _ _ _ _ (payload_ok _ (set_x_payload (Some b1) c) b1 _ _ eq_refl E2)).
  rewrite bind_gets. cbn [Kex.checkhostkey dropbear_signkey].
  cbn [x_kexstate set_x_payload].
  assert (Ek : negb (ks_donefirstkex (x_kexstate c)) && negb (known pb) = false) by (destruct Hknown as [-> | ->]; [done|by rewrite andb_false_r]).
  rewrite Ek. cbn [when]. rewrite bind_ret. fold type.
  rewrite (bind_ok _ _ _ _ _ (payload_ok _ (set_x_payload (Some b1) c) b1 _ _ eq_refl E3)).
  rewrite (bind_ok _ _ _ _ _ (payload_ok _ (set_x_payload (Some b3) c) b3 _ _ eq_refl E4)). change (set_x_payload (Some b4) _) with c4.
  rewrite !bind_gets. change (x_dh_e c4) with (x_dh_e c). change (x_dh_x c4) with (x_dh_x c). rewrite Ee, Ex. cbn [deref]. rewrite !bind_ret.
  rewrite (bind_ok _ _ _ _ _ Ecomb), !bind_modify, bind_gets.
  by rewrite (bind_ok _ _ _ _ _ (payload_ok _ (set_x_dh_val_algo DROPBEAR_KEX_NONE (set_x_dh_x None (set_x_dh_e None c5))) b4 _ _ eq_refl E5)).
Qed.


(** C7: the key exchange with an authenticated server: of two sessions ready
    for the reply, with the same key exchange and host key algorithms and the
    same hashed prefix, the server answers the client's [e] with one packet,
    and when that packet is what the client reads next and its key is known
    there (or keys are being replaced), the client verifies the signature,
    both sides hold the same shared secret, exchange hash and session
    identifier, and the client goes on to answer with NEWKEYS. *)
Theorem host_key_exchange_agrees (c s : kses) nkc nks type pre priv out x y r1 k r2 wroom :
  exchanging c nkc type pre -> exchanging s nks type pre -> kc_algo_kex nkc = kc_algo_kex nks ->
  let p := load_dh_p (kc_algo_kex nks) in
  let e := DH_G_VAL ^ x mod p in
  let f := DH_G_VAL ^ y mod p in
  let secret := DH_G_VAL ^ (x * y) mod p in
  let hash := exchange_hash pre (blob_of priv type) e f secret in
  cf_isclient (x_cfg c) = true -> x_cli_kex_state c = KEXDH_INIT_SENT -> x_dh_e c = Some e -> x_dh_x c = Some x -> 0 <= x ->
  cf_isclient (x_cfg s) = false -> cf_hostkey (x_cfg s) = priv ->
  has_key priv type -> readable priv type new_sign_key out -> key_pair priv out type ->
  gen_random_mpint (Z.shiftr (p - 1) 1) (x_random s) = (y, r1) -> 0 <= y ->
  gen_random_mpint (random_modulus priv type) r1 = (k, r2) -> 0 <= k -> Z.gcd k (random_modulus priv type) = 1 ->
  buf_repr (x_writepayload s) [] [] wroom -> 5000 <= wroom ->
  exists content s', send_msg_kexdh_reply e s = Ok (tt, s') /\
    x_sent s' = x_sent s ++ [SSH_MSG_KEXDH_REPLY :: reply_body priv type f content] /\ exchanged s hash secret s' /\
    (good_s out type content -> ks_donefirstkex (x_kexstate c) = true \/ known (pub_bytes priv type) = true ->
     forall pl room, buf_repr pl [SSH_MSG_KEXDH_REPLY] (reply_body priv type f content) room ->
     exists c', exchanged c hash secret c' /\ x_sent c' = x_sent c /\
       recv_msg_kexdh_reply (set_x_payload (Some pl) c) = (send_msg_newkeys ;;; modify (set_x_requirenext (SSH_MSG_NEWKEYS, 0))) c').
Proof.
  intros Hxc Hxs Ealgo p e f secret hash Hc Hst Ee Ex Hx Hs Hhost Hhas Hread Hpair Ey Hy Ek Hk Hgcd Hw Hwroom.
  destruct (load_dh_p_ok _ (ex_group _ _ _ _ Hxs)) as [Hp _]. fold p in Hp.
  pose proof (dh_pub_range _ x (ex_group _ _ _ _ Hxs) Hx) as He. fold p e in He.
  assert (Eyx : e ^ y mod p = secret) by (unfold e, secret; by rewrite Z.mod_pow_l, <-Z.pow_mul_r by done).
  assert (Exy : f ^ x mod p = secret) by (unfold f, secret; by rewrite Z.mod_pow_l, <-Z.pow_mul_r, Z.mul_comm by done).
  destruct (send_reply_ok s nks type pre priv out y r1 k r2 e Hxs Hs Hhost Hhas Hpair He Ey Hy Ek Hk Hgcd (ex_intro _ wroom (conj Hw Hwroom)))
    as (content & s' & E & Hsent & Hex & Hver). fold p in Hsent, Hex, Hver. rewrite Eyx in Hex, Hver. fold f hash in Hsent, Hex, Hver.
  exists content, s'. do 3 (split; [done|]). intros Hgood Hknown pl room Hpl.
  assert (Hxc' : exchanging (set_x_payload (Some pl) c) nkc type pre) by (by destruct Hxc).
  pose proof (recv_reply_ok (set_x_payload (Some pl) c) nkc type pre priv out pl [SSH_MSG_KEXDH_REPLY] room y e x content Hxc' Hc Hst Ee Ex Hx Hy) as Hr.
  cbv zeta in Hr. rewrite Ealgo in Hr. fold p f in Hr. rewrite Exy in Hr. fold hash in Hr.
  destruct (Hr He Hhas Hread Hknown eq_refl Hpl (Hver Hgood)) as (c' & Hex' & _ & _ & _ & Hsent' & Er). by exists c'.
Qed.

(** A client accepts no unsigned reply: whatever the packet holds, when
    recv_msg_kexdh_reply returns, the packet's key blob was known to
    checkhostkey or this was not the first exchange, a public key of the
    negotiated type was read from the packet, and that key verified a
    signature of the packet over the exchange hash that the client computed
    with its own [e] and [x] and that key. *)
Theorem accepted_reply_was_signed (c c' : kses) : recv_msg_kexdh_reply c = Ok (tt, c') ->
  exists nk pl n pl1 blob hostkey pl2 f pl3 e x c2 pl4, x_newkeys c = Some nk /\ x_payload c = Some pl /\
    buf_getint pl = Ok (n, pl1) /\ getptr_bytes n pl1 = Ok (blob, pl1) /\
    (ks_donefirstkex (x_kexstate c) = true \/ known blob = true) /\
    Kex.buf_get_pub_key (kc_algo_hostkey nk) pl1 = Ok (Some hostkey, pl2) /\ buf_getmpint pl2 = Ok (Some f, pl3) /\
    x_dh_e c = Some e /\ x_dh_x c = Some x /\ kexdh_comb_key e x f hostkey (set_x_payload (Some pl3) c) = Ok (tt, c2) /\
    SignKey.buf_verify hostkey (x_hash c2) pl3 = Ok (true, pl4).
Proof.
  intros E. unfold recv_msg_kexdh_reply in E. rewrite bind_gets in E. destruct (negb _); [done|].
  apply bind_inv in E as (nk & s1 & E1 & E). apply newkeys_inv in E1 as [Hnk ->].
  apply bind_inv in E as (n & s1 & E1 & E). apply payload_inv in E1 as (pl & pl1 & Hpl & E1 & ->).
  apply bind_inv in E as (blob & s2 & E2 & E). apply payload_inv in E2 as (pl' & pl1' & [= <-] & E2 & ->).
  pose proof (getptr_bytes_same _ _ _ _ E2) as ->.
  rewrite bind_gets in E. apply bind_inv in E as ([] & s2 & Ek & E). apply when_exit_inv in Ek as [Ek ->].
  apply bind_inv in E as ([hostkey|] & s2 & E3 & E); [|done]. apply payload_inv in E3 as (pl' & pl2 & [= <-] & E3 & ->).
  apply bind_inv in E as ([f|] & s2 & E4 & E); [|done]. apply payload_inv in E4 as (pl' & pl3 & [= <-] & E4 & ->).
  rewrite !bind_gets in E. cbn [x_dh_e x_dh_x set_x_payload] in E.
  destruct (x_dh_e c) as [e|] eqn:Ee; [|done]. destruct (x_dh_x c) as [x|] eqn:Ex; [|done]. cbn [deref] in E. rewrite !bind_ret in E.
  apply bind_inv in E as ([] & c2 & E5 & E). rewrite !bind_modify, bind_gets in E.
  apply bind_inv in E as (good & c3 & E6 & E). apply payload_inv in E6 as (pl' & pl4 & Hpl' & E6 & ->). destruct good; [|done].
  exists nk, pl, n, pl1, blob, hostkey, pl2, f, pl3, e, x, c2, pl4. split_and!; try done.
  - cbn [x_kexstate set_x_payload] in Ek. destruct (ks_donefirstkex _); [by left|right]. by destruct (checkhostkey blob) eqn:Eb.
  - apply comb_key_payload in E5. cbn in Hpl', E5. rewrite E5 in Hpl'. injection Hpl' as <-. exact E6.
Qed.

End HostKey.

(** ** Instances *)

#[local] Instance counting_mpint : RandomMp Z := { gen_random_mpint max r := (r mod max, r + 1) }.

#[local] Instance no_zlib : ZlibStreams unit := { inflateInit := None; deflateInit2 := None; inflateEnd _ := true; deflateEnd _ := true }.

(** A client that has every key on file. *)
#[local] Instance trusting : Kex.SignKey sign_key Z := dropbear_signkey (fun _ => true).

Definition plain_kd : key_context_directional (Z * list Z * list Z) unit :=
  mkkd (Some dropbear_nocipher) (Some dropbear_mode_none) (Some dropbear_nohash) 0 DROPBEAR_COMP_NONE None None
    (replicate (Z.to_nat MAX_MAC_LEN) 0) false.

Definition toy_nk : key_context (Z * list Z * list Z) unit := mkkc plain_kd plain_kd 1 DROPBEAR_SIGNKEY_RSA false.

Definition toy_host_session (client : bool) : kses sign_key (Z * list Z * list Z) unit Z :=
  set_x_kexstate (mkks true true false false false false false 0 0 0) (set_x_newkeys (Some toy_nk) (set_x_kexhashbuf (Some (empty_buffer 6000)) (set_x_writepayload (empty_buffer 6000)
    (new_session (toy_config toy_priv client false) 1023 LOCAL_IDENT)))).

Definition toy_client_waiting : kses sign_key (Z * list Z * list Z) unit Z :=
  set_x_cli_kex_state KEXDH_INIT_SENT (set_x_dh_e (Some (DH_G_VAL ^ 5000 mod load_dh_p 1)) (set_x_dh_x (Some 5000) (toy_host_session true))).

Lemma toy_exchanging client : exchanging (toy_host_session client) toy_nk DROPBEAR_SIGNKEY_RSA [].
Proof. split; [done|by left|done|]. exists (empty_buffer 6000), 6000. split; [done|]. split; [by apply empty_buffer_repr|done]. Qed.

Lemma host_key_exchange_agrees_witness :
  let p := load_dh_p 1 in
  let e := DH_G_VAL ^ 5000 mod p in
  let f := DH_G_VAL ^ 1023 mod p in
  let hash := exchange_hash [] (blob_of toy_priv DROPBEAR_SIGNKEY_RSA) e f (DH_G_VAL ^ (5000 * 1023) mod p) in
  exists content s', send_msg_kexdh_reply (H := @dropbear_signkey Z _ libtommath_exptmod (fun _ => true)) (H4 := libtommath_exptmod) e (toy_host_session false) = Ok (tt, s') /\
    x_sent s' = [SSH_MSG_KEXDH_REPLY :: reply_body toy_priv DROPBEAR_SIGNKEY_RSA f content] /\ x_hash s' = hash.
Proof.
  assert (Hx : exchanging toy_client_waiting toy_nk DROPBEAR_SIGNKEY_RSA []) by (by destruct (toy_exchanging true)).
  destruct (@host_key_exchange_agrees _ _ _ _ _ _ libtommath_exptmod libtommath_exptmod_laws (fun _ => true) toy_client_waiting (toy_host_session false) toy_nk toy_nk DROPBEAR_SIGNKEY_RSA []
    toy_priv toy_out 5000 1023 1024 1024 1025 6000 Hx (toy_exchanging false) eq_refl eq_refl eq_refl eq_refl eq_refl) as (content & s' & E & Es & Ex & _);
    [lia|done|done|exact toy_has_key|exact toy_readable|exact toy_out_pair|by vm_compute|lia|by vm_compute|lia|by vm_compute|by apply empty_buffer_repr|lia|].
  exists content, s'. split; [exact E|]. split; [exact Es|by destruct Ex].
Defined.

(** To run the exchange, a power by squaring. *)
Definition toy_reply : list Z := Eval vm_compute in
  match send_msg_kexdh_reply (DH_G_VAL ^ 5000 mod load_dh_p 1) (toy_host_session false) with
  | Ok (_, s) => default [] (head (x_sent s))
  | _ => []
  end.

Definition is_ok {A} (r : res A) : bool := match r with Ok _ => true | _ => false end.

Definition toy_replied : kses sign_key (Z * list Z * list Z) unit Z :=
  set_x_payload (Some (mkbuf (toy_reply ++ [0]) (zlen toy_reply) 1 (zlen toy_reply + 1))) toy_client_waiting.

Lemma accepted_reply_was_signed_witness :
  exists c', recv_msg_kexdh_reply toy_replied = Ok (tt, c') /\
  exists nk pl n pl1 blob hostkey pl2 f pl3 e x c2 pl4, x_newkeys toy_replied = Some nk /\ x_payload toy_replied = Some pl /\
    buf_getint pl = Ok (n, pl1) /\ getptr_bytes n pl1 = Ok (blob, pl1) /\
    (ks_donefirstkex (x_kexstate toy_replied) = true \/ true = true) /\
    Kex.buf_get_pub_key (kc_algo_hostkey nk) pl1 = Ok (Some hostkey, pl2) /\ buf_getmpint pl2 = Ok (Some f, pl3) /\
    x_dh_e toy_replied = Some e /\ x_dh_x toy_replied = Some x /\ kexdh_comb_key e x f hostkey (set_x_payload (Some pl3) toy_replied) = Ok (tt, c2) /\
    SignKey.buf_verify hostkey (x_hash c2) pl3 = Ok (true, pl4).
Proof.
  assert (Hrun : is_ok (recv_msg_kexdh_reply toy_replied) = true) by (by vm_compute).
  destruct (recv_msg_kexdh_reply toy_replied) as [[[] c']| |] eqn:E; [|done|done].
  exists c'. split; [reflexivity|]. exact (accepted_reply_was_signed (fun _ => true) toy_replied c' E).
Defined.
