(* ===== verification/Base64.v ===== *)
(** Base64: base64_encode and base64_decode of libtomcrypt, and
    cmp_base64_key of signkey.c, which compares the key a peer presents with
    a line of an authorized_keys or known_hosts file. *)

From S2P Require Import Prelude Dbutil Buffer Mpint Packet MdHash Sha1 Md5 Hashes Aes Kex SignCommon Rsa SignKey.

Local Open Scope Z_scope.
Local Open Scope prog_scope.

(** ** Code *)

Definition CRYPT_BUFFER_OVERFLOW : Z := 6.
Definition CRYPT_INVALID_PACKET : Z := 7.

(** The table [map]: 255 for a character that is skipped, 254 for the padding. *)
Definition b64_map : list Z :=
  [255; 255; 255; 255; 255; 255; 255; 255; 255; 255; 255; 255; 255; 255; 255; 255;
   255; 255; 255; 255; 255; 255; 255; 255; 255; 255; 255; 255; 255; 255; 255; 255;
   255; 255; 255; 255; 255; 255; 255; 255; 255; 255; 255; 62; 255; 255; 255; 63;
   52; 53; 54; 55; 56; 57; 58; 59; 60; 61; 255; 255; 255; 254; 255; 255;
   255; 0; 1; 2; 3; 4; 5; 6; 7; 8; 9; 10; 11; 12; 13; 14;
   15; 16; 17; 18; 19; 20; 21; 22; 23; 24; 25; 255; 255; 255; 255; 255;
   255; 26; 27; 28; 29; 30; 31; 32; 33; 34; 35; 36; 37; 38; 39; 40;
   41; 42; 43; 44; 45; 46; 47; 48; 49; 50; 51; 255; 255; 255; 255; 255;
   255; 255; 255; 255; 255; 255; 255; 255; 255; 255; 255; 255; 255; 255; 255; 255;
   255; 255; 255; 255; 255; 255; 255; 255; 255; 255; 255; 255; 255; 255; 255; 255;
   255; 255; 255; 255; 255; 255; 255; 255; 255; 255; 255; 255; 255; 255; 255; 255;
   255; 255; 255; 255; 255; 255; 255; 255; 255; 255; 255; 255; 255; 255; 255; 255;
   255; 255; 255; 255; 255; 255; 255; 255; 255; 255; 255; 255; 255; 255; 255; 255;
   255; 255; 255; 255; 255; 255; 255; 255; 255; 255; 255; 255; 255; 255; 255; 255;
   255; 255; 255; 255; 255; 255; 255; 255; 255; 255; 255; 255; 255; 255; 255; 255;
   255; 255; 255; 255; 255; 255; 255; 255; 255; 255; 255; 255; 255; 255; 255; 255].

Definition b64_codes : list Z := Eval vm_compute in chars "ABCDEFGHIJKLMNOPQRSTUVWXYZabcdefghijklmnopqrstuvwxyz0123456789+/".

(** [out[z] = v] *)
Definition array_put {S} (out : list Z) (z v : Z) : prog S (list Z) :=
  if (0 <=? z) && (z <? zlen out) then ret (zset out z v) else fault "array written out of bounds".

(** The loop of base64_decode over the input that is left: the error code, the
    memory behind [out] and [z]. *)
Fixpoint decode_loop {S} (inp : list Z) (g t y z : Z) (out : list Z) (outlen : Z) : prog S (Z * list Z * Z) :=
  match inp with
  | [] => ret (if negb (y =? 0) then CRYPT_INVALID_PACKET else CRYPT_OK, out, z)
  | x :: inp =>
      let c := default 0 (zget b64_map (Z.land x 0xff)) in
      if c =? 255 then decode_loop inp g t y z out outlen
      else if (c =? 254) && (g - 1 <? 0) then ret (CRYPT_INVALID_PACKET, out, z)
      else if negb (c =? 254) && negb (g =? 3) then ret (CRYPT_INVALID_PACKET, out, z)
      else
        let '(c, g) := if c =? 254 then (0, g - 1) else (c, g) in
        let t := Z.lor (Z.shiftl t 6) c in
        let y := y + 1 in
        if y =? 4 then
          if z + g >? outlen then ret (CRYPT_BUFFER_OVERFLOW, out, z)
          else
            out <- array_put out z (Z.land (Z.shiftr t 16) 255) ;;
            out <- (if g >? 1 then array_put out (z + 1) (Z.land (Z.shiftr t 8) 255) else ret out) ;;
            out <- (if g >? 2 then array_put out (z + 2) (Z.land t 255) else ret out) ;;
            decode_loop inp g 0 0 (z + 1 + (if g >? 1 then 1 else 0) + (if g >? 2 then 1 else 0)) out outlen
        else decode_loop inp g t y z out outlen
  end.

(** [out] is [None] for a null pointer, which LTC_ARGCHK aborts on; the
    results are the error code, the memory behind [out] and the new [*outlen]. *)
Definition base64_decode {S} (inp : list Z) (out : option (list Z)) (outlen : Z) : prog S (Z * list Z * Z) :=
  match out with
  | None => dropbear_exit "LTC_ARGCHK 'out != NULL' failure"
  | Some out =>
      x <- decode_loop inp 3 0 0 0 out outlen ;;
      let '(err, out, z) := x in
      ret (err, out, if err =? CRYPT_OK then z else outlen)
  end.

Definition code (i : Z) : Z := default 0 (zget b64_codes (Z.land i 0x3F)).

(** The characters base64_encode writes before the terminating zero. *)
Fixpoint encode_chars (inp : list Z) : list Z :=
  match inp with
  | a :: b :: c :: inp =>
      code (Z.shiftr a 2) :: code (Z.shiftl (Z.land a 3) 4 + Z.shiftr b 4) ::
      code (Z.shiftl (Z.land b 0xf) 2 + Z.shiftr c 6) :: code c :: encode_chars inp
  | [a; b] =>
      [code (Z.shiftr a 2); code (Z.shiftl (Z.land a 3) 4 + Z.shiftr b 4); code (Z.shiftl (Z.land b 0xf) 2); 61]
  | [a] => [code (Z.shiftr a 2); code (Z.shiftl (Z.land a 3) 4 + Z.shiftr 0 4); 61; 61]
  | [] => []
  end.

(** The error code, what is written to [out], and the new [*outlen]. *)
Definition base64_encode (inp : list Z) (outlen : Z) : Z * list Z * Z :=
  let len2 := 4 * ((zlen inp + 2) / 3) in
  if outlen <? len2 + 1 then (CRYPT_BUFFER_OVERFLOW, [], len2 + 1)
  else (CRYPT_OK, encode_chars inp ++ [0], zlen (encode_chars inp)).

(** cmp_base64_key on the buffer [line]; the fingerprint is set when one is
    asked for and the line decodes. *)
Definition cmp_base64_key (keyblob algoname : list Z) (want_fp : bool) : prog buffer (bool * option (list Z)) :=
  b <- gets id ;;
  let len := u32 (b_len b - b_pos b) in
  let decodekeylen := u32 (len * 2) in
  decodekey <- buf_new decodekeylen ;;
  inp <- getptr_bytes len ;;
  x <- base64_decode inp (if b_size decodekey =? 0 then None else Some (b_data decodekey)) decodekeylen ;;
  let '(err, mem, decodekeylen) := x in
  if negb (err =? CRYPT_OK) then ret (false, None)
  else
    x <- on (set_data mem decodekey) (buf_incrlen decodekeylen) ;;
    let decodekey := snd x in
    fp <- (if want_fp then x <- on decodekey (getptr_bytes decodekeylen) ;; f <- sign_key_md5_fingerprint (fst x) ;; ret (Some f) else ret None) ;;
    same <- (if decodekeylen =? zlen keyblob then x <- on decodekey (getptr_bytes (b_len decodekey)) ;; ret (bool_decide (fst x = keyblob)) else ret false) ;;
    if negb same then ret (false, fp)
    else
      x <- on decodekey buf_getint ;;
      let '(filealgolen, decodekey) := x in
      p <- on decodekey (buf_getptr filealgolen) ;;
      if negb (filealgolen =? zlen algoname) then ret (false, fp)
      else
        filealgo <- on decodekey (load_bytes (fst p) (zlen algoname)) ;;
        ret (bool_decide (fst filealgo = algoname), fp).

(** ** What decoding undoes *)

Lemma b64_map_code i : default 0 (zget b64_map (Z.land (code i) 0xff)) = Z.land i 0x3F.
Proof.
  unfold code. assert (H : 0 <= Z.land i 63 < 64) by (change 63 with (Z.ones 6); rewrite Z.land_ones by lia; apply Z.mod_pos_bound; lia).
  revert H. generalize (Z.land i 63). intros j Hj.
  assert (Hall : forallb (fun j => default 0 (zget b64_map (Z.land (default 0 (zget b64_codes j)) 255)) =? j) (seqZ 0 64) = true) by reflexivity.
  rewrite forallb_forall in Hall. apply Z.eqb_eq, Hall, list_elem_of_In, elem_of_seqZ. lia.
Qed.

(** A character of the alphabet adds six bits. *)
Lemma decode_char {S} i inp t y z out outlen (s : S) :
  decode_loop (code i :: inp) 3 t y z out outlen s =
    (let t := Z.lor (Z.shiftl t 6) (Z.land i 0x3F) in
     if y + 1 =? 4 then
       if z + 3 >? outlen then Ok ((CRYPT_BUFFER_OVERFLOW, out, z), s)
       else
         (out <- array_put out z (Z.land (Z.shiftr t 16) 255) ;;
          out <- array_put out (z + 1) (Z.land (Z.shiftr t 8) 255) ;;
          out <- array_put out (z + 2) (Z.land t 255) ;;
          decode_loop inp 3 0 0 (z + 1 + 1 + 1) out outlen) s
     else decode_loop inp 3 t (y + 1) z out outlen s).
Proof.
  assert (Hj : 0 <= Z.land i 0x3F < 64) by (change 63 with (Z.ones 6); rewrite Z.land_ones by lia; apply Z.mod_pos_bound; lia).
  cbn [decode_loop]. rewrite b64_map_code. rewrite (proj2 (Z.eqb_neq _ 255)), (proj2 (Z.eqb_neq _ 254)) by lia. cbn [andb negb].
  change (3 =? 3) with true. cbn [negb]. cbn zeta. destruct (y + 1 =? 4); [|done]. destruct (z + 3 >? outlen); [done|]. reflexivity.
Qed.

(** Padding: the length of the output shrinks by one. *)
Lemma decode_pad {S} inp g t y z out outlen (s : S) : 1 <= g ->
  decode_loop (61 :: inp) g t y z out outlen s =
    (let t := Z.lor (Z.shiftl t 6) 0 in
     if y + 1 =? 4 then
       if z + (g - 1) >? outlen then Ok ((CRYPT_BUFFER_OVERFLOW, out, z), s)
       else
         (out <- array_put out z (Z.land (Z.shiftr t 16) 255) ;;
          out <- (if g - 1 >? 1 then array_put out (z + 1) (Z.land (Z.shiftr t 8) 255) else ret out) ;;
          out <- (if g - 1 >? 2 then array_put out (z + 2) (Z.land t 255) else ret out) ;;
          decode_loop inp (g - 1) 0 0 (z + 1 + (if g - 1 >? 1 then 1 else 0) + (if g - 1 >? 2 then 1 else 0)) out outlen) s
     else decode_loop inp (g - 1) t (y + 1) z out outlen s).
Proof.
  intros Hg. cbn [decode_loop]. change (default 0 (zget b64_map (Z.land 61 255))) with 254. change (254 =? 255) with false. change (254 =? 254) with true.
  rewrite (proj2 (Z.ltb_ge (g - 1) 0)) by lia. cbn [andb negb]. cbn zeta. destruct (y + 1 =? 4); [|done]. by destruct (z + (g - 1) >? outlen).
Qed.

Lemma array_put_mid {S} pre x post v (s : S) : array_put (pre ++ x :: post) (zlen pre) v s = Ok (pre ++ v :: post, s).
Proof.
  unfold array_put. pose proof (zlen_nonneg pre). pose proof (zlen_nonneg post). rewrite zlen_app, zlen_cons.
  rewrite (proj2 (Z.leb_le 0 (zlen pre))), (proj2 (Z.ltb_lt (zlen pre) _)) by lia. cbn [andb]. by rewrite zset_mid.
Qed.

Lemma array_put_next {S} pre a x post z v (s : S) : z = zlen pre + zlen a ->
  array_put (pre ++ a ++ x :: post) z v s = Ok (pre ++ (a ++ [v]) ++ post, s).
Proof. intros ->. rewrite app_assoc, <-zlen_app, array_put_mid. by rewrite <-!app_assoc. Qed.

(** The four sextets of three bytes, and the three bytes again. *)
Definition sextets (a b c : Z) : Z :=
  Z.lor (Z.shiftl (Z.lor (Z.shiftl (Z.lor (Z.shiftl (Z.lor (Z.shiftl 0 6) (Z.land (Z.shiftr a 2) 0x3F)) 6)
    (Z.land (Z.shiftl (Z.land a 3) 4 + Z.shiftr b 4) 0x3F)) 6) (Z.land (Z.shiftl (Z.land b 0xf) 2 + Z.shiftr c 6) 0x3F)) 6) (Z.land c 0x3F).

Lemma sextets_ok a b c : is_byte a -> is_byte b -> is_byte c -> sextets a b c = a * 65536 + b * 256 + c.
Proof.
  unfold is_byte. intros Ha Hb Hc. unfold sextets. change 3 with (Z.ones 2). change 15 with (Z.ones 4). change 63 with (Z.ones 6).
  rewrite !Z.land_ones, !Z.shiftr_div_pow2, !(Z.shiftl_mul_pow2 _ 4), !(Z.shiftl_mul_pow2 _ 2) by lia.
  change (2 ^ 2) with 4. change (2 ^ 4) with 16. change (2 ^ 6) with 64.
  assert (Hm : forall x, 0 <= x mod 64 < 2 ^ 6) by (intros; change (2 ^ 6) with 64; apply Z.mod_pos_bound; lia).
  rewrite !lor_add_shift by (apply Hm || lia). change (2 ^ 6) with 64. change (Z.shiftl 0 6) with 0. cbn [Z.lor].
  Z.div_mod_to_equations. lia.
Qed.

Lemma sextet_bytes a b c : is_byte a -> is_byte b -> is_byte c ->
  Z.land (Z.shiftr (sextets a b c) 16) 255 = a /\ Z.land (Z.shiftr (sextets a b c) 8) 255 = b /\ Z.land (sextets a b c) 255 = c.
Proof.
  intros Ha Hb Hc. rewrite sextets_ok by done. unfold is_byte in *. change 255 with (Z.ones 8). rewrite !Z.land_ones, !Z.shiftr_div_pow2 by lia.
  change (2 ^ 16) with 65536. change (2 ^ 8) with 256. Z.div_mod_to_equations. lia.
Qed.

(** Run the loop on one character of known kind. *)
Ltac group_end :=
  cbn zeta; match goal with |- context [?y + 1 =? 4] => let v := eval vm_compute in (y + 1 =? 4) in change (y + 1 =? 4) with v end; cbn iota.
Ltac next_char := rewrite decode_char; group_end.
Ltac next_pad := rewrite decode_pad by lia; group_end.

(** Three bytes, two bytes and one byte. *)
Lemma decode_three {S} a b c inp z pre x y w post outlen (s : S) : is_byte a -> is_byte b -> is_byte c -> z = zlen pre -> z + 3 <= outlen ->
  decode_loop (encode_chars [a; b; c] ++ inp) 3 0 0 z (pre ++ x :: y :: w :: post) outlen s =
  decode_loop inp 3 0 0 (z + 3) (pre ++ a :: b :: c :: post) outlen s.
Proof.
  intros Ha Hb Hc -> Hz. cbn [encode_chars app]. do 4 next_char.
  rewrite Z.gtb_ltb, (proj2 (Z.ltb_ge outlen _)) by lia. fold (sextets a b c). destruct (sextet_bytes a b c Ha Hb Hc) as (-> & -> & ->).
  rewrite (bind_ok _ _ _ _ _ (array_put_mid pre x (y :: w :: post) a s)).
  rewrite (bind_ok _ _ _ _ _ (array_put_next pre [a] y (w :: post) (zlen pre + 1) b s eq_refl)).
  rewrite (bind_ok _ _ _ _ _ (array_put_next pre [a; b] w post (zlen pre + 2) c s eq_refl)). cbn [app].
  by replace (zlen pre + 1 + 1 + 1) with (zlen pre + 3) by lia.
Qed.

Lemma decode_two {S} a b pre x y post outlen (s : S) : is_byte a -> is_byte b -> zlen pre + 2 <= outlen ->
  decode_loop (encode_chars [a; b]) 3 0 0 (zlen pre) (pre ++ x :: y :: post) outlen s = Ok ((CRYPT_OK, pre ++ a :: b :: post, zlen pre + 2), s).
Proof.
  intros Ha Hb Hz. cbn [encode_chars]. do 3 next_char. next_pad.
  change (3 - 1) with 2. rewrite Z.gtb_ltb, (proj2 (Z.ltb_ge outlen _)) by lia.
  assert (Et : forall t, t = sextets a b 0 -> Z.land (Z.shiftr t 16) 255 = a /\ Z.land (Z.shiftr t 8) 255 = b)
    by (intros t ->; by destruct (sextet_bytes a b 0 Ha Hb ltac:(by vm_compute)) as (-> & -> & _)).
  match goal with |- context [Z.shiftr ?t 16] => destruct (Et t) as [-> ->] end.
  { unfold sextets. change (Z.shiftr 0 6) with 0. by rewrite Z.add_0_r. }
  rewrite (bind_ok _ _ _ _ _ (array_put_mid pre x (y :: post) a s)). change (2 >? 1) with true. change (2 >? 2) with false. cbn iota.
  rewrite (bind_ok _ _ _ _ _ (array_put_next pre [a] y post (zlen pre + 1) b s eq_refl)).
  rewrite (bind_ok _ _ _ _ _ (eq_refl : ret (pre ++ ([a] ++ [b]) ++ post) s = Ok _)). cbn [decode_loop app]. change (negb (0 =? 0)) with false.
  by replace (zlen pre + 1 + 1 + 0) with (zlen pre + 2) by lia.
Qed.

Lemma decode_one {S} a pre x post outlen (s : S) : is_byte a -> zlen pre + 1 <= outlen ->
  decode_loop (encode_chars [a]) 3 0 0 (zlen pre) (pre ++ x :: post) outlen s = Ok ((CRYPT_OK, pre ++ a :: post, zlen pre + 1), s).
Proof.
  intros Ha Hz. cbn [encode_chars]. do 2 next_char. next_pad. next_pad.
  change (3 - 1 - 1) with 1. rewrite Z.gtb_ltb, (proj2 (Z.ltb_ge outlen _)) by lia.
  assert (Et : forall t, t = sextets a 0 0 -> Z.land (Z.shiftr t 16) 255 = a)
    by (intros t ->; by destruct (sextet_bytes a 0 0 Ha ltac:(by vm_compute) ltac:(by vm_compute)) as (-> & _)).
  match goal with |- context [Z.shiftr ?t 16] => rewrite (Et t) end.
  2: { reflexivity. }
  rewrite (bind_ok _ _ _ _ _ (array_put_mid pre x post a s)). change (1 >? 1) with false. change (1 >? 2) with false. cbn iota.
  rewrite !(bind_ok _ _ _ _ _ (eq_refl : ret (pre ++ a :: post) s = Ok _)). cbn [decode_loop]. change (negb (0 =? 0)) with false.
  by replace (zlen pre + 1 + 0 + 0) with (zlen pre + 1) by lia.
Qed.

Lemma decode_encode {S} l pre old post outlen (s : S) : bytes l -> zlen old = zlen l -> zlen pre + zlen l <= outlen ->
  decode_loop (encode_chars l) 3 0 0 (zlen pre) (pre ++ old ++ post) outlen s = Ok ((CRYPT_OK, pre ++ l ++ post, zlen pre + zlen l), s).
Proof.
  remember (length l) as n eqn:En. assert (Hn : (length l <= n)%nat) by lia. clear En. revert l pre old Hn.
  induction n as [|n IH]; intros l pre old Hn Hb Hl Hz.
  { destruct l; [|cbn in Hn; lia]. apply zlen_zero_inv in Hl as ->.
    change (zlen (@nil Z)) with 0. rewrite Z.add_0_r. reflexivity. }
  destruct l as [|a [|b [|c l]]].
  - apply zlen_zero_inv in Hl as ->.
    change (zlen (@nil Z)) with 0. rewrite Z.add_0_r. reflexivity.
  - destruct old as [|x [|y old]]; rewrite ?zlen_cons in Hl; change (zlen (@nil Z)) with 0 in Hl; try (pose proof (zlen_nonneg old)); try lia.
    apply Forall_cons_1 in Hb as [Ha _]. change (zlen [a]) with 1 in *. by apply decode_one.
  - destruct old as [|x [|y [|w old]]]; rewrite ?zlen_cons in Hl; change (zlen (@nil Z)) with 0 in Hl; try (pose proof (zlen_nonneg old)); try lia.
    apply Forall_cons_1 in Hb as [Ha Hb]. apply Forall_cons_1 in Hb as [Hb _]. change (zlen [a; b]) with 2 in *. by apply decode_two.
  - pose proof (zlen_nonneg l). rewrite !zlen_cons in Hl, Hz.
    destruct old as [|x [|y [|w old]]]; rewrite ?zlen_cons in Hl; change (zlen (@nil Z)) with 0 in Hl; try lia.
    apply Forall_cons_1 in Hb as [Ha Hb]. apply Forall_cons_1 in Hb as [Hb Hc]. apply Forall_cons_1 in Hc as [Hc Hbl].
    change (encode_chars (a :: b :: c :: l)) with (encode_chars [a; b; c] ++ encode_chars l).
    change ((x :: y :: w :: old) ++ post) with (x :: y :: w :: old ++ post). rewrite (decode_three a b c (encode_chars l) (zlen pre) pre) by (done || lia).
    replace (pre ++ a :: b :: c :: old ++ post) with ((pre ++ [a; b; c]) ++ old ++ post) by (by rewrite <-app_assoc).
    assert (Ez : zlen pre + 3 = zlen (pre ++ [a; b; c])) by (rewrite zlen_app; done). rewrite Ez.
    rewrite (IH l (pre ++ [a; b; c]) old) by (try done; try (cbn in Hn; lia); rewrite <-?Ez; lia).
    rewrite <-Ez, !zlen_cons, <-app_assoc. by replace (zlen pre + 3 + zlen l) with (zlen pre + (1 + (1 + (1 + zlen l)))) by lia.
Qed.

(** ** Safety of the decoder *)

Lemma array_put_wp {S} out z v (s : S) (Q : list Z -> S -> Prop) : 0 <= z < zlen out ->
  (forall out', zlen out' = zlen out -> Q out' s) -> twp (array_put out z v) Q s.
Proof.
  intros Hz HQ. unfold array_put. rewrite (proj2 (Z.leb_le 0 z)), (proj2 (Z.ltb_lt z _)) by lia. cbn [andb]. apply HQ. apply zlen_zset.
Qed.

(** Three bytes of room for each four characters are enough. *)
Lemma decode_loop_safe {S} inp g t y z out outlen (s : S) (Q : Z * list Z * Z -> S -> Prop) :
  0 <= y < 4 -> 0 <= z -> 4 * z + 3 * (y + zlen inp) <= 4 * zlen out ->
  (forall err out' z', zlen out' = zlen out -> 0 <= z' <= zlen out -> Q (err, out', z') s) -> twp (decode_loop inp g t y z out outlen) Q s.
Proof.
  revert g t y z out. induction inp as [|x inp IH]; intros g t y z out Hy Hz Hroom HQ; cbn [decode_loop].
  { apply HQ; [done|]. change (zlen (@nil Z)) with 0 in Hroom. lia. }
  rewrite zlen_cons in Hroom. pose proof (zlen_nonneg inp). set (c := default 0 _).
  destruct (c =? 255); [apply IH; [done|done|lia|exact HQ]|]. destruct (_ && (g - 1 <? 0)); [apply HQ; [done|lia]|].
  destruct (negb (c =? 254) && negb (g =? 3)); [apply HQ; [done|lia]|]. destruct (if c =? 254 then (0, g - 1) else (c, g)) as [c' g']. cbn zeta.
  destruct (Z.eqb_spec (y + 1) 4) as [E|E]; [|apply IH; [lia|done|lia|exact HQ]].
  destruct (z + g' >? outlen); [apply HQ; [done|lia]|].
  apply twp_bind. apply array_put_wp; [lia|]. intros o1 L1. apply twp_bind.
  assert (H2 : forall Q, (forall o, zlen o = zlen out -> Q o s) -> twp (if g' >? 1 then array_put o1 (z + 1) (Z.land (Z.shiftr (Z.lor (Z.shiftl t 6) c') 8) 255) else ret o1) Q s).
  { intros Q' HQ'. destruct (g' >? 1); [apply array_put_wp; [lia|]; intros o Lo; apply HQ'; lia|by apply HQ']. }
  apply H2. intros o2 L2. apply twp_bind.
  assert (H3 : forall Q, (forall o, zlen o = zlen out -> Q o s) -> twp (if g' >? 2 then array_put o2 (z + 2) (Z.land (Z.lor (Z.shiftl t 6) c') 255) else ret o2) Q s).
  { intros Q' HQ'. destruct (g' >? 2); [apply array_put_wp; [lia|]; intros o Lo; apply HQ'; lia|by apply HQ']. }
  apply H3. intros o3 L3. apply IH; [lia|destruct (g' >? 1), (g' >? 2); lia|destruct (g' >? 1), (g' >? 2); lia|].
  intros err out' z' L' Hz'. apply HQ; lia.
Qed.

Lemma encode_chars_len l : zlen (encode_chars l) = 4 * ((zlen l + 2) / 3).
Proof.
  remember (length l) as n eqn:En. assert (Hn : (length l <= n)%nat) by lia. clear En. revert l Hn.
  induction n as [|n IH]; intros l Hn; [destruct l; [done|cbn in Hn; lia]|]. destruct l as [|a [|b [|c l]]]; [done|done|done|].
  cbn [encode_chars]. rewrite !zlen_cons, (IH l) by (cbn in Hn; lia). pose proof (zlen_nonneg l). Z.div_mod_to_equations. lia.
Qed.

Lemma encode_chars_bytes l : bytes (encode_chars l).
Proof.
  assert (Hc : forall i, is_byte (code i)).
  { intros i. unfold code. assert (H : 0 <= Z.land i 63 < 64) by (change 63 with (Z.ones 6); rewrite Z.land_ones by lia; apply Z.mod_pos_bound; lia).
    revert H. generalize (Z.land i 63). intros j Hj.
    assert (Hall : forallb (fun j => bool_decide (is_byte (default 0 (zget b64_codes j)))) (seqZ 0 64) = true) by reflexivity.
    rewrite forallb_forall in Hall. apply (bool_decide_eq_true_1 _), Hall, list_elem_of_In, elem_of_seqZ. lia. }
  assert (H61 : is_byte 61) by (by vm_compute).
  remember (length l) as n eqn:En. assert (Hn : (length l <= n)%nat) by lia. clear En. revert l Hn.
  induction n as [|n IH]; intros l Hn; [destruct l; [constructor|cbn in Hn; lia]|]. destruct l as [|a [|b [|c l]]]; cbn [encode_chars]; repeat (apply Forall_cons_2; [done|]); try constructor.
  apply IH. cbn in Hn. lia.
Qed.

(** ** Comparing a key with a line *)

(** The line's text, decoded into a buffer of twice its size. *)
Lemma decode_line {S} blob size (s : S) : bytes blob -> size = 2 * zlen (encode_chars blob) -> 0 < zlen blob ->
  exists rest, base64_decode (encode_chars blob) (Some (replicate (Z.to_nat size) 0)) size s =
    Ok ((CRYPT_OK, blob ++ rest, zlen blob), s) /\ zlen (blob ++ rest) = size /\ Forall is_byte rest.
Proof.
  intros Hb -> Hl. pose proof (encode_chars_len blob) as Hlen. assert (Hle : zlen blob <= 2 * zlen (encode_chars blob)) by (Z.div_mod_to_equations; lia).
  set (n := 2 * zlen (encode_chars blob)) in *. exists (replicate (Z.to_nat (n - zlen blob)) 0).
  assert (Hsplit : replicate (Z.to_nat n) 0 = [] ++ replicate (Z.to_nat (zlen blob)) 0 ++ replicate (Z.to_nat (n - zlen blob)) 0).
  { cbn [app]. rewrite <-replicate_add. f_equal. lia. }
  assert (Hz : zlen (replicate (Z.to_nat (zlen blob)) 0) = zlen blob) by (unfold zlen at 1; rewrite length_replicate; lia).
  split; [|split].
  - unfold base64_decode. rewrite Hsplit.
    change (decode_loop (encode_chars blob) 3 0 0 0) with (decode_loop (S := S) (encode_chars blob) 3 0 0 (zlen (@nil Z))).
    rewrite (bind_ok _ _ _ _ _ (decode_encode blob [] _ _ n s Hb Hz Hle)). reflexivity.
  - rewrite zlen_app. unfold zlen at 2. rewrite length_replicate. lia.
  - by apply Forall_replicate.
Qed.

Lemma buf_new_zeros {S} size (s : S) : 0 <= size <= BUF_MAX_SIZE -> buf_new size s = Ok (empty_buffer size, s).
Proof.
  intros Hs. unfold buf_new, bind, m_malloc. rewrite Z.gtb_ltb. z_guards. destruct (Z.ltb_spec 0 size); z_guards; [done|]. by replace size with 0 by lia.
Qed.

(** A key blob: the name of its algorithm, then its numbers. *)
Definition key_blob (name rest : list Z) : list Z := store32h (zlen name) ++ name ++ rest.

(** The fingerprint shown for a key blob. *)
Definition md5_fingerprint (keyblob : list Z) : list Z := zset (chars "md5 " ++ concat (map hex_byte (Md5.rfc_md5 keyblob))) 51 0.

Lemma md5_fingerprint_ok {S} keyblob (s : S) : sign_key_md5_fingerprint keyblob s = Ok (md5_fingerprint keyblob, s).
Proof.
  assert (Hf : exists md, md_feed Md5.md5_compress (Md5.md5_init fresh_buf) [keyblob] = Some md /\ Md5.md5_done md = Some (Md5.rfc_md5 keyblob)).
  { assert (Ec : concat [keyblob] = keyblob) by apply app_nil_r. rewrite <-Md5.md5_hash_rfc. setoid_rewrite <-Ec at 2. by apply md_stream_ok. }
  destruct Hf as (md & E1 & E2). unfold sign_key_md5_fingerprint, Md5.md5_process. cbn [md_feed] in E1.
  destruct (md_process _ _ keyblob) as [md1|]; [|done]. injection E1 as ->.
  rewrite (bind_ok _ _ _ md s) by done. by rewrite (bind_ok _ _ _ (Md5.rfc_md5 keyblob) s) by (by rewrite E2).
Qed.

Lemma cmp_base64_key_run want keyblob algoname name rest b pre room :
  bytes (key_blob name rest) -> zlen (key_blob name rest) <= 2 ^ 20 ->
  buf_repr b pre (encode_chars (key_blob name rest)) room ->
  exists ok, cmp_base64_key keyblob algoname want b = Ok ((ok, if want : bool then Some (md5_fingerprint (key_blob name rest)) else None), b) /\
    (ok = true <-> keyblob = key_blob name rest /\ algoname = name).
Proof.
  set (blob := key_blob name rest). intros Hby Hl Hb. pose proof (encode_chars_len blob) as Hlen.
  assert (Hpos : 4 <= zlen blob) by (unfold blob, key_blob; rewrite zlen_app, zlen_store32h; pose proof (zlen_nonneg (name ++ rest)); lia).
  change (2 ^ 20) with 1048576 in Hl. set (text := encode_chars blob) in *. assert (Htext : 0 < zlen text <= 1400000) by (Z.div_mod_to_equations; lia).
  unfold cmp_base64_key. rewrite (bind_ok _ _ _ b b) by reflexivity.
  assert (El : u32 (b_len b - b_pos b) = zlen text).
  { rewrite (br_len _ _ _ _ Hb), (br_pos _ _ _ _ Hb), u32_small by (unfold is_u32; lia). lia. }
  rewrite El. cbn zeta. rewrite u32_small by (unfold is_u32; lia).
  rewrite (bind_ok _ _ _ _ _ (buf_new_zeros (zlen text * 2) b ltac:(unfold BUF_MAX_SIZE; lia))).
  rewrite (bind_ok _ _ _ text b) by (apply (repr_getptr_bytes b pre text [] room); [done|by rewrite app_nil_r]).
  cbn [empty_buffer b_size b_data]. rewrite (proj2 (Z.eqb_neq (zlen text * 2) 0)) by lia.
  destruct (decode_line blob (zlen text * 2) b Hby) as (rest' & Edec & Hl' & Hb'); [unfold text; lia|lia|]. fold text in Edec.
  rewrite (bind_ok _ _ _ _ _ Edec). cbv beta iota. change (negb (CRYPT_OK =? CRYPT_OK)) with false. cbn iota.
  assert (Hfit : zlen blob <= zlen text * 2) by (Z.div_mod_to_equations; lia).
  set (d0 := set_data (blob ++ rest') (empty_buffer (zlen text * 2))). set (d := set_len (zlen blob) d0).
  assert (Ei : buf_incrlen (zlen blob) d0 = Ok (tt, d)).
  { unfold buf_incrlen, bind, gets, id, BUF_MAX_INCR. cbn [d0 set_data empty_buffer b_len b_size]. rewrite u32_small by (unfold is_u32; lia).
    z_guards. done. }
  assert (Hd : buf_repr d [] blob (zlen text * 2 - zlen blob)).
  { split; cbn [d d0 set_len set_data empty_buffer b_data b_len b_pos b_size]; change (zlen (@nil Z)) with 0; unfold BUF_MAX_SIZE; try lia; [|by apply Forall_app_2].
    exists rest'. split; [done|]. rewrite zlen_app in Hl'. lia. }
  rewrite (bind_ok _ _ _ (tt, d) b) by (unfold on; by rewrite Ei). cbn [snd].
  rewrite (bind_ok _ _ _ (if want then Some (md5_fingerprint blob) else None) b).
  2: { destruct want; [|done]. rewrite (bind_ok _ _ _ (blob, d) b); [|unfold on; by rewrite (repr_getptr_bytes d [] blob [] (zlen text * 2 - zlen blob) (zlen blob)) by (rewrite ?app_nil_r; done)].
       cbn [fst]. by rewrite (bind_ok _ _ _ _ _ (md5_fingerprint_ok blob b)). }
  destruct (Z.eqb_spec (zlen blob) (zlen keyblob)) as [Ek|Nk].
  2: { rewrite (bind_ok _ _ _ false b) by reflexivity. exists false. split; [done|]. split; [done|]. intros [-> _]. done. }
  rewrite (bind_ok _ _ _ (bool_decide (blob = keyblob)) b).
  2: { rewrite (bind_ok _ _ _ (blob, d) b); [done|]. unfold on. cbn [d d0 set_len set_data b_len]. fold d0 d.
       by rewrite (repr_getptr_bytes d [] blob [] (zlen text * 2 - zlen blob) (zlen blob)) by (rewrite ?app_nil_r; done). }
  destruct (bool_decide_reflect (blob = keyblob)) as [Eb|Nb]; cbn [negb].
  2: { exists false. split; [done|]. split; [done|]. intros [-> _]. done. }
  assert (Hn32 : is_u32 (zlen name)).
  { pose proof (zlen_nonneg name). pose proof (zlen_nonneg rest). unfold blob, key_blob in Hl. rewrite !zlen_app, zlen_store32h in Hl. unfold is_u32. lia. }
  destruct (repr_getint d [] (zlen name) (name ++ rest) _ Hn32 Hd) as (d1 & E1 & Hd1).
  rewrite (bind_ok _ _ _ (zlen name, d1) b) by (unfold on; by rewrite E1). cbv beta iota.
  rewrite (bind_ok _ _ _ (b_pos d1, d1) b) by (unfold on; by rewrite (repr_getptr d1 _ name rest _ (zlen name) eq_refl Hd1)). cbn [fst].
  destruct (Z.eqb_spec (zlen name) (zlen algoname)) as [En|Nn]; cbn [negb].
  2: { exists false. split; [done|]. split; [done|]. intros [_ ->]. done. }
  rewrite <-En. rewrite (bind_ok _ _ _ (name, d1) b) by (unfold on; by rewrite (repr_load d1 _ name rest _ (zlen name) eq_refl Hd1)). cbn [fst].
  exists (bool_decide (name = algoname)). split; [done|]. rewrite bool_decide_eq_true. split; [by intros ->|by intros [_ ->]].
Qed.

Lemma cmp_base64_key_ok keyblob algoname name rest b pre room :
  bytes (key_blob name rest) -> zlen (key_blob name rest) <= 2 ^ 20 ->
  buf_repr b pre (encode_chars (key_blob name rest)) room ->
  exists ok, cmp_base64_key keyblob algoname false b = Ok ((ok, None), b) /\
    (ok = true <-> keyblob = key_blob name rest /\ algoname = name).
Proof. apply (cmp_base64_key_run false). Qed.

(** ** Properties *)

(** C36: base64.  Decoding what base64_encode wrote gives the bytes back, into
    any array that has room for them, with the rest of the array untouched;
    and the decoder never writes out of bounds, on any input, when the array
    has three bytes for each four characters. *)
Theorem base64_roundtrip (l out : list Z) (size outlen : Z) (inp : list Z) :
  bytes l -> 4 * ((zlen l + 2) / 3) < size -> zlen l <= outlen <= zlen out ->
  (exists text, base64_encode l size = (CRYPT_OK, text ++ [0], zlen text) /\
    base64_decode text (Some out) outlen tt = Ok ((CRYPT_OK, l ++ zdrop (zlen l) out, zlen l), tt)) /\
  (3 * zlen inp <= 4 * zlen out ->
    exists err out' n, base64_decode inp (Some out) outlen tt = Ok ((err, out', n), tt) /\ zlen out' = zlen out).
Proof.
  intros Hb Hs Ho. pose proof (zlen_nonneg l). split.
  - exists (encode_chars l). unfold base64_encode. rewrite (proj2 (Z.ltb_ge size _)) by lia. split; [done|].
    unfold base64_decode. pose proof (decode_encode l [] (ztake (zlen l) out) (zdrop (zlen l) out) outlen tt Hb) as E.
    cbn [app] in E. rewrite ztake_zdrop, zlen_ztake in E by lia. change (zlen (@nil Z)) with 0 in E.
    rewrite (bind_ok _ _ _ _ _ (E eq_refl ltac:(lia))). reflexivity.
  - intros Hroom. assert (Ht : twp (base64_decode inp (Some out) outlen) (fun x _ => zlen (snd (fst x)) = zlen out) tt).
    { unfold base64_decode. apply twp_bind. apply decode_loop_safe; [lia|lia|lia|]. intros err out' z Hl _. exact Hl. }
    unfold twp in Ht. destruct (base64_decode inp (Some out) outlen tt) as [[[[err out'] n] []]| |] eqn:E; [|done|done]. by exists err, out', n.
Qed.

Lemma base64_roundtrip_witness :
  (exists text, base64_encode [77; 97; 110; 0; 255] 9 = (CRYPT_OK, text ++ [0], zlen text) /\
    base64_decode text (Some (replicate 7 1)) 6 tt = Ok ((CRYPT_OK, [77; 97; 110; 0; 255] ++ zdrop 5 (replicate 7 1), 5), tt)) /\
  (3 * zlen [65; 66; 61] <= 4 * zlen (replicate 7 1) ->
    exists err out' n, base64_decode [65; 66; 61] (Some (replicate 7 1)) 6 tt = Ok ((err, out', n), tt) /\ zlen out' = zlen (replicate 7 1)).
Proof.
  apply (base64_roundtrip [77; 97; 110; 0; 255] (replicate 7 1) 9 6 [65; 66; 61]); [apply (bool_decide_eq_true_1 _); by vm_compute|by vm_compute|by vm_compute].
Defined.

(** Base64_decode counts no output for a group of one character and three
    paddings, yet writes a byte for it: with an array that is just full it
    writes one byte past the length it was given. *)
Theorem base64_decode_overruns (l : list Z) (i : Z) :
  bytes l -> zlen l mod 3 = 0 -> 0 <= i < 64 ->
  base64_decode (encode_chars l ++ [code i; 61; 61; 61]) (Some l) (zlen l) tt = Fault "array written out of bounds".
Proof.
  intros Hb Hm Hi. unfold base64_decode.
  enough (H : forall n l pre old outlen, (length l <= n)%nat -> bytes l -> zlen l mod 3 = 0 -> zlen old = zlen l -> zlen pre + zlen l <= outlen ->
    decode_loop (encode_chars l ++ [code i; 61; 61; 61]) 3 0 0 (zlen pre) (pre ++ old) outlen tt = Fault "array written out of bounds").
  { by rewrite (bind_fault _ _ _ _ (H (length l) l [] l (zlen l) (le_n _) Hb Hm eq_refl ltac:(change (zlen (@nil Z)) with 0; lia))). }
  clear l Hb Hm. induction n as [|n IH]; intros l pre old outlen Hn Hb Hm Hl Hz.
  all: destruct l as [|a [|b [|c l]]]; try (cbn in Hn; lia); try (vm_compute in Hm; lia).
  1, 2: apply zlen_zero_inv in Hl as ->; cbn [encode_chars app]; next_char; do 3 next_pad; change (zlen (@nil Z)) with 0 in Hz;
    change (3 - 1 - 1 - 1) with 0; rewrite Z.gtb_ltb, (proj2 (Z.ltb_ge outlen _)) by lia;
    unfold bind at 1; unfold array_put; rewrite app_nil_r, Z.ltb_irrefl, andb_false_r; reflexivity.
  pose proof (zlen_nonneg l). rewrite !zlen_cons in Hl, Hm, Hz.
  destruct old as [|x [|y [|w old]]]; rewrite ?zlen_cons in Hl; change (zlen (@nil Z)) with 0 in Hl; try lia.
  apply Forall_cons_1 in Hb as [Ha Hb]. apply Forall_cons_1 in Hb as [Hb Hc]. apply Forall_cons_1 in Hc as [Hc Hbl].
  change (encode_chars (a :: b :: c :: l)) with (encode_chars [a; b; c] ++ encode_chars l). rewrite <-app_assoc.
  rewrite (decode_three a b c _ (zlen pre) pre) by (done || lia).
  replace (pre ++ a :: b :: c :: old) with ((pre ++ [a; b; c]) ++ old) by (by rewrite <-app_assoc).
  assert (Ez : zlen pre + 3 = zlen (pre ++ [a; b; c])) by (rewrite zlen_app; done). rewrite Ez.
  apply (IH l (pre ++ [a; b; c]) old); try done; try (cbn in Hn; lia); try (Z.div_mod_to_equations; lia); rewrite <-?Ez; lia.
Qed.

Lemma base64_decode_overruns_witness :
  base64_decode (encode_chars [77; 97; 110] ++ [code 0; 61; 61; 61]) (Some [77; 97; 110]) 3 tt = Fault "array written out of bounds".
Proof. apply (base64_decode_overruns [77; 97; 110] 0); [apply (bool_decide_eq_true_1 _); by vm_compute|by vm_compute|lia]. Defined.

(** Cmp_base64_key accepts a line that is the base64 of a key's blob
    exactly when that blob is the one the peer presented and the name at its
    start is the algorithm the peer named; it does not move in the line. *)
Theorem cmp_base64_key_decides (keyblob algoname name rest : list Z) b pre room :
  bytes (key_blob name rest) -> zlen (key_blob name rest) <= 2 ^ 20 ->
  buf_repr b pre (encode_chars (key_blob name rest)) room ->
  exists ok, cmp_base64_key keyblob algoname false b = Ok ((ok, None), b) /\
    (ok = true <-> keyblob = key_blob name rest /\ algoname = name).
Proof. apply cmp_base64_key_ok. Qed.

Lemma cmp_base64_key_decides_witness :
  exists ok, cmp_base64_key [1; 2] (chars SSH_SIGNKEY_RSA) false (packed_buffer (encode_chars (key_blob (chars SSH_SIGNKEY_RSA) [0; 0; 0; 1; 3]))) =
    Ok ((ok, None), packed_buffer (encode_chars (key_blob (chars SSH_SIGNKEY_RSA) [0; 0; 0; 1; 3]))) /\
    (ok = true <-> [1; 2] = key_blob (chars SSH_SIGNKEY_RSA) [0; 0; 0; 1; 3] /\ chars SSH_SIGNKEY_RSA = chars SSH_SIGNKEY_RSA).
Proof.
  apply (cmp_base64_key_decides [1; 2] (chars SSH_SIGNKEY_RSA) (chars SSH_SIGNKEY_RSA) [0; 0; 0; 1; 3] _ [] 0);
    [apply (bool_decide_eq_true_1 _); by vm_compute|by vm_compute|].
  apply packed_buffer_repr; [apply encode_chars_bytes|by vm_compute].
Defined.
