(* ===== verification/AuthKeys.v ===== *)
(** The server's authorized_keys files: buf_getline of dbutil.c, the options
    in front of a key (svr-authpubkeyoptions.c) and the loop of checkpubkey
    (svr-authpubkey.c) over the lines of the file.  A file open for reading is
    the list of the bytes that are left. *)

From S2P Require Import Prelude Dbutil Buffer Ssh Algo Mpint Packet Kex SignCommon Dss Rsa SignKey Base64.

Local Open Scope Z_scope.
Local Open Scope prog_scope.

(** ** Lines *)

Definition EOF : Z := -1.

(** The loop of buf_getline: whether it ended because the buffer is full, the
    last [c], and the rest of the file. *)
Fixpoint getline_loop (c : Z) (authfile : list Z) : prog buffer (bool * Z * list Z) :=
  line <- gets id ;;
  if negb (b_pos line <? b_size line) then ret (true, c, authfile)
  else
    match authfile with
    | [] => ret (false, EOF, [])
    | c :: authfile =>
        if (c =? 10) || (c =? 13) then ret (false, c, authfile)
        else buf_putbyte c ;;; getline_loop c authfile
    end.

(** buf_getline on the buffer [line]: whether data was read, and the rest of
    the file. *)
Definition buf_getline (authfile : list Z) : prog buffer (bool * list Z) :=
  buf_setpos 0 ;;;
  buf_setlen 0 ;;;
  x <- getline_loop EOF authfile ;;
  let '(too_long, c, authfile) := x in
  when too_long (buf_setlen 0) ;;;
  pos <- gets b_pos ;;
  if (c =? EOF) && (pos =? 0) then ret (false, authfile)
  else buf_setpos 0 ;;; ret (true, authfile).

(** ** Options *)

Record PubKeyOptions := mkpko {
  no_port_forwarding_flag : bool; no_agent_forwarding_flag : bool; no_x11_forwarding_flag : bool; no_pty_flag : bool;
  forced_command : option (list Z) }.

Definition set_no_port_forwarding (o : PubKeyOptions) : PubKeyOptions :=
  mkpko true (no_agent_forwarding_flag o) (no_x11_forwarding_flag o) (no_pty_flag o) (forced_command o).
Definition set_no_agent_forwarding (o : PubKeyOptions) : PubKeyOptions :=
  mkpko (no_port_forwarding_flag o) true (no_x11_forwarding_flag o) (no_pty_flag o) (forced_command o).
Definition set_no_x11_forwarding (o : PubKeyOptions) : PubKeyOptions :=
  mkpko (no_port_forwarding_flag o) (no_agent_forwarding_flag o) true (no_pty_flag o) (forced_command o).
Definition set_no_pty (o : PubKeyOptions) : PubKeyOptions :=
  mkpko (no_port_forwarding_flag o) (no_agent_forwarding_flag o) (no_x11_forwarding_flag o) true (forced_command o).
Definition set_forced_command (c : list Z) (o : PubKeyOptions) : PubKeyOptions :=
  mkpko (no_port_forwarding_flag o) (no_agent_forwarding_flag o) (no_x11_forwarding_flag o) (no_pty_flag o) (Some c).

(** What m_malloc gives: zeroed memory. *)
Definition fresh_options : PubKeyOptions := mkpko false false false false None.

(** [tolower] in the C locale. *)
Definition tolower (c : Z) : Z := if (65 <=? c) && (c <=? 90) then c + 32 else c.

(** [strncasecmp(a, b, n) == 0] *)
Fixpoint strncasecmp_eq (n : nat) (a b : list Z) : bool :=
  match n with
  | O => true
  | S n =>
      let x := hd 0 a in
      (tolower x =? tolower (hd 0 b)) && ((x =? 0) || strncasecmp_eq n (tl a) (tl b))
  end.

(** match_option on the buffer [options_buf]. *)
Definition match_option (opt_name : list Z) : prog buffer bool :=
  let len := zlen opt_name in
  options_buf <- gets id ;;
  if u32 (b_len options_buf - b_pos options_buf) <? len then ret false
  else
    p <- getptr_bytes len ;;
    if strncasecmp_eq (Z.to_nat len) p opt_name then buf_incrpos len ;;; ret true else ret false.

Definition OPT_PORT : list Z := Eval cbv in chars "no-port-forwarding".
Definition OPT_AGENT : list Z := Eval cbv in chars "no-agent-forwarding".
Definition OPT_X11 : list Z := Eval cbv in chars "no-X11-forwarding".
Definition OPT_PTY : list Z := Eval cbv in chars "no-pty".
(** The name with the opening quote. *)
Definition OPT_COMMAND : list Z := Eval cbv in chars "command=" ++ [34].

(** The loop over a quoted command: the malloced command with its terminating
    zero, or [None] when the text ends before the closing quote. *)
Fixpoint command_loop (fuel : nat) (escaped : bool) (command_start : Z) : prog buffer (option (list Z)) :=
  options_buf <- gets id ;;
  if negb (b_pos options_buf <? b_len options_buf) then ret None
  else
    match fuel with
    | O => fault "fuel"
    | S fuel =>
        c <- buf_getbyte ;;
        if negb escaped && (c =? 34) then
          p <- buf_getptr 0 ;;
          let command_len := p - command_start in
          mem <- m_malloc command_len ;;
          src <- load_bytes command_start (command_len - 1) ;;
          ret (Some (zset (splice 0 src mem) (command_len - 1) 0))
        else command_loop fuel (negb escaped && (c =? 92)) command_start
    end.

(** One option, from the chain of tests: [None] is [goto bad_option]. *)
Definition one_option (o : PubKeyOptions) : prog buffer (option PubKeyOptions) :=
  m <- match_option OPT_PORT ;;
  if m : bool then ret (Some (set_no_port_forwarding o)) else
  m <- match_option OPT_AGENT ;;
  if m : bool then ret (Some (set_no_agent_forwarding o)) else
  m <- match_option OPT_X11 ;;
  if m : bool then ret (Some (set_no_x11_forwarding o)) else
  m <- match_option OPT_PTY ;;
  if m : bool then ret (Some (set_no_pty o)) else
  m <- match_option OPT_COMMAND ;;
  if m : bool then
    command_start <- buf_getptr 0 ;;
    b <- gets id ;;
    x <- command_loop (Z.to_nat (b_len b)) false command_start ;;
    ret (match x with Some command => Some (set_forced_command command o) | None => None end)
  else ret (Some o).

(** The loop of svr_add_pubkey_options with [next_option]. *)
Fixpoint options_loop (fuel : nat) (o : PubKeyOptions) : prog buffer (option PubKeyOptions) :=
  b <- gets id ;;
  if negb (b_pos b <? b_len b) then ret (Some o)
  else
    match fuel with
    | O => fault "fuel"
    | S fuel =>
        x <- one_option o ;;
        match x with
        | None => ret None
        | Some o =>
            b <- gets id ;;
            bad <- (if b_pos b <? b_len b then c <- buf_getbyte ;; ret (negb (c =? 44)) else ret false) ;;
            if bad : bool then ret None else options_loop fuel o
        end
    end.

(** svr_add_pubkey_options: what it leaves in [ses.authstate.pubkey_options];
    it returns success exactly when that is not null. *)
Definition svr_add_pubkey_options : prog buffer (option PubKeyOptions) :=
  buf_setpos 0 ;;;
  b <- gets id ;;
  options_loop (Z.to_nat (b_len b)) fresh_options.

(** ** The lines of the file *)

Definition MIN_AUTHKEYS_LINE : Z := 10.
Definition MAX_AUTHKEYS_LINE : Z := 4200.

Definition blank (c : Z) : bool := (c =? 32) || (c =? 9).

(** Skipping leading blanks: whether the line is a comment. *)
Fixpoint skip_loop (fuel : nat) : prog buffer bool :=
  line <- gets id ;;
  if negb (b_pos line <? b_len line) then ret false
  else
    match fuel with
    | O => fault "fuel"
    | S fuel =>
        c <- buf_getbyte ;;
        if blank c then skip_loop fuel
        else if c =? 35 then ret true
        else buf_incrpos (-1) ;;; ret false
    end.

(** Finding the end of the options: [options_len]. *)
Fixpoint options_end_loop (fuel : nat) (quoted escape : bool) (options_len : Z) : prog buffer Z :=
  line <- gets id ;;
  if negb (b_pos line <? b_len line) then ret options_len
  else
    match fuel with
    | O => fault "fuel"
    | S fuel =>
        c <- buf_getbyte ;;
        if negb quoted && blank c then ret options_len
        else
          let escape := negb escape && (c =? 92) in
          let quoted := if negb escape && (c =? 34) then negb quoted else quoted in
          options_end_loop fuel quoted escape (options_len + 1)
    end.

(** Counting the characters up to a space. *)
Fixpoint field_loop (fuel : nat) (len : Z) : prog buffer Z :=
  line <- gets id ;;
  if negb (b_pos line <? b_len line) then ret len
  else
    match fuel with
    | O => fault "fuel"
    | S fuel =>
        c <- buf_getbyte ;;
        if c =? 32 then ret len else field_loop fuel (len + 1)
    end.

(** [strncmp(buf_getptr(line, algolen), algo, algolen) == 0] *)
Definition at_algo (algo : list Z) (algolen : Z) : prog buffer bool :=
  p <- getptr_bytes algolen ;; ret (strncmp_eq (Z.to_nat algolen) p algo).

(** The part of a line before the algorithm: [None] is [continue], otherwise
    the buffer with the options when there are any. *)
Definition line_options (algo : list Z) (algolen : Z) : prog buffer (option (option buffer)) :=
  m <- at_algo algo algolen ;;
  if m : bool then ret (Some None)
  else
    b <- gets id ;;
    let fuel := Z.to_nat (b_len b) in
    is_comment <- skip_loop fuel ;;
    if is_comment : bool then ret None
    else
      options_start <- buf_getptr 1 ;;
      options_len <- options_end_loop fuel false false 0 ;;
      options_buf <- buf_new options_len ;;
      src <- load_bytes options_start options_len ;;
      x <- on options_buf (buf_putbytes src options_len) ;;
      b <- gets id ;;
      if u32 (b_pos b + algolen) >? b_len b then ret None
      else
        m <- at_algo algo algolen ;;
        if m : bool then ret (Some (Some (snd x))) else ret None.

(** The part of a line from the algorithm on: whether it is the key. *)
Definition compare_key (algo : list Z) (algolen : Z) (keyblob : list Z) : prog buffer bool :=
  buf_incrpos (s32 algolen) ;;;
  c <- buf_getbyte ;;
  if negb (c =? 32) then ret false
  else
    b <- gets id ;;
    let pos := b_pos b in
    len <- field_loop (Z.to_nat (b_len b)) 0 ;;
    buf_setpos pos ;;;
    buf_setlen (u32 (pos + len)) ;;;
    x <- cmp_base64_key keyblob (ztake algolen algo) false ;;
    ret (fst x).

(** The rest of the body of checkpubkey's loop for a line that is long
    enough: [ret], and what is assigned to [ses.authstate.pubkey_options]. *)
Definition check_line (algo : list Z) (algolen : Z) (keyblob : list Z) : prog buffer (bool * option (option PubKeyOptions)) :=
  x <- line_options algo algolen ;;
  match x with
  | None => ret (false, None)
  | Some options_buf =>
      same <- compare_key algo algolen keyblob ;;
      if same : bool then
        match options_buf with
        | None => ret (true, None)
        | Some options_buf =>
            y <- on options_buf svr_add_pubkey_options ;;
            ret (bool_decide (is_Some (fst y)), Some (fst y))
        end
      else ret (false, None)
  end.

(** The assignments to [ses.authstate.pubkey_options] in sequence. *)
Definition later {A} (old new : option A) : option A := match new with Some _ => new | None => old end.

(** The loop of checkpubkey over the file. *)
Fixpoint authfile_loop (fuel : nat) (algo : list Z) (algolen : Z) (keyblob authfile : list Z)
    (options : option (option PubKeyOptions)) : prog buffer (bool * option (option PubKeyOptions)) :=
  match fuel with
  | O => fault "fuel"
  | S fuel =>
      x <- buf_getline authfile ;;
      let '(got, authfile) := x in
      if negb got then ret (false, options)
      else
        line <- gets id ;;
        if b_len line <? MIN_AUTHKEYS_LINE then authfile_loop fuel algo algolen keyblob authfile options
        else
          y <- check_line algo algolen keyblob ;;
          let options := later options (snd y) in
          if fst y : bool then ret (true, options) else authfile_loop fuel algo algolen keyblob authfile options
  end.

(** checkpubkey from the opened file on. *)
Definition search_authfile {S} (algo : list Z) (algolen : Z) (keyblob authfile : list Z) : prog S (bool * option (option PubKeyOptions)) :=
  line <- buf_new MAX_AUTHKEYS_LINE ;;
  x <- on line (authfile_loop (Datatypes.S (length authfile)) algo algolen keyblob authfile None) ;;
  ret (fst x).

(** ** Reading lines *)

Definition eol (c : Z) : Prop := c = 10 \/ c = 13.
#[export] Instance eol_dec c : Decision (eol c) := ltac:(unfold eol; apply _).

(** The buffer [b] has [size] bytes in all. *)
Definition sized (b : buffer) (size : Z) : Prop := exists pre post room, buf_repr b pre post room /\ b_size b = size.

Lemma repr_sized b pre post room : buf_repr b pre post room -> sized b (zlen pre + zlen post + room).
Proof. intros H. exists pre, post, room. split; [done|apply H]. Qed.

Lemma repr_more b pre c post room : buf_repr b pre (c :: post) room -> (b_pos b <? b_len b) = true.
Proof. intros H. rewrite (br_pos _ _ _ _ H), (br_len _ _ _ _ H). zlia. Qed.

Lemma repr_end b pre room : buf_repr b pre [] room -> (b_pos b <? b_len b) = false.
Proof. intros H. rewrite (br_pos _ _ _ _ H), (br_len _ _ _ _ H). zlia. Qed.

Lemma repr_clear b size : sized b size ->
  exists b1 b2, buf_setpos 0 b = Ok (tt, b1) /\ buf_setlen 0 b1 = Ok (tt, b2) /\ buf_repr b2 [] [] size.
Proof.
  intros (pre & post & room & Hb & <-). destruct (repr_rewind _ _ _ _ Hb) as (b1 & E1 & Hb1).
  pose proof (br_room _ _ _ _ Hb1). pose proof (br_size _ _ _ _ Hb1) as Hs. pose proof (zlen_nonneg (pre ++ post)). rewrite zlen_nil in Hs.
  assert (Hsize : b_size b1 = b_size b). { rewrite (br_size _ _ _ _ Hb), Hs, zlen_app. lia. }
  destruct (repr_setlen b1 [] (pre ++ post) room 0 Hb1) as (b2 & ext & E2 & Hb2 & _); [rewrite zlen_nil; lia|].
  exists b1, b2. split; [done|]. split; [done|]. change (zlen (@nil Z)) with 0 in Hb2. rewrite ztake_0, Hsize, Z.sub_0_r in Hb2. done.
Qed.

Lemma getline_loop_run l c rest b pre room :
  Forall (fun c => ~ eol c) l -> bytes l -> zlen l <= room -> buf_repr b pre [] room ->
  exists b', buf_repr b' (pre ++ l) [] (room - zlen l) /\ getline_loop c (l ++ rest) b = getline_loop (default c (last l)) rest b'.
Proof.
  revert c b pre room. induction l as [|x l IH]; intros c b pre room Hl Hby Hr Hb.
  { exists b. rewrite app_nil_r, zlen_nil, Z.sub_0_r. by split. }
  apply Forall_cons in Hl as [Hx Hl], Hby as [Hbx Hby]. rewrite zlen_cons in Hr. pose proof (zlen_nonneg l).
  pose proof (append_putbyte b pre room x (fun _ b' => buf_repr b' (pre ++ [x]) [] (room - 1)) Hb Hbx ltac:(lia) ltac:(auto)) as (u & b1 & E1 & Hb1)%twp_ex.
  destruct u. destruct (IH x b1 (pre ++ [x]) (room - 1) Hl Hby ltac:(lia) Hb1) as (b' & Hb' & E). exists b'. split.
  { rewrite <-app_assoc in Hb'. by replace (room - zlen (x :: l)) with (room - 1 - zlen l) by zlia. }
  cbn [app getline_loop]. rewrite (bind_ok _ _ _ b b) by reflexivity. rewrite (br_pos _ _ _ _ Hb), (br_size _ _ _ _ Hb), zlen_nil. z_guards. cbn [negb].
  rewrite (proj2 (Z.eqb_neq x 10)), (proj2 (Z.eqb_neq x 13)) by (unfold eol in Hx; lia). cbn [orb].
  rewrite (bind_ok _ _ _ _ _ E1), E, last_cons. by destruct (last l).
Qed.

(** What buf_getline makes of the start of the file. *)
Lemma buf_getline_start b size : sized b size -> 0 < size ->
  exists b2, buf_repr b2 [] [] size /\ forall authfile, buf_getline authfile b =
    (x <- getline_loop EOF authfile ;;
     let '(too_long, c, authfile) := x in
     when too_long (buf_setlen 0) ;;;
     pos <- gets b_pos ;;
     if (c =? EOF) && (pos =? 0) then ret (false, authfile)
     else buf_setpos 0 ;;; ret (true, authfile)) b2.
Proof.
  intros Hb Hs. destruct (repr_clear b size Hb) as (b1 & b2 & E1 & E2 & Hb2). exists b2. split; [done|].
  intros authfile. unfold buf_getline. by rewrite (bind_ok _ _ _ _ _ E1), (bind_ok _ _ _ _ _ E2).
Qed.

Lemma last_not_eof l : bytes l -> l <> [] -> (default EOF (last l) =? EOF) = false.
Proof.
  intros Hl Hn. destruct (last l) as [x|] eqn:E; [|by apply last_None in E].
  cbn [default from_option id]. apply last_Some in E as [l' ->]. apply Forall_app in Hl as [_ [Hx _]%Forall_cons].
  unfold is_byte, EOF in *. apply Z.eqb_neq. lia.
Qed.

(** A line that ends with a newline or with the file. *)
Lemma getline_line l rest b size : sized b size -> Forall (fun c => ~ eol c) l -> bytes l -> zlen l < size ->
  (exists c rest', rest = c :: rest' /\ eol c) \/ (rest = [] /\ l <> []) ->
  exists b', buf_getline (l ++ rest) b = Ok ((true, tl rest), b') /\ buf_repr b' [] l (size - zlen l).
Proof.
  intros Hb Hl Hby Hn Hrest. pose proof (zlen_nonneg l). destruct (buf_getline_start b size Hb ltac:(lia)) as (b2 & Hb2 & E). rewrite E. clear E.
  destruct (getline_loop_run l EOF rest b2 [] size Hl Hby ltac:(lia) Hb2) as (b3 & Hb3 & E). cbn [app] in Hb3.
  assert (Hmore : (b_pos b3 <? b_size b3) = true) by (rewrite (br_pos _ _ _ _ Hb3), (br_size _ _ _ _ Hb3), zlen_nil; zlia).
  destruct (repr_rewind _ _ _ _ Hb3) as (b4 & E4 & Hb4). rewrite app_nil_r in Hb4. exists b4. split; [|done].
  assert (Hgo : exists c, getline_loop (default EOF (last l)) rest b3 = Ok ((false, c, tl rest), b3) /\ ((c =? EOF) && (b_pos b3 =? 0)) = false).
  { destruct Hrest as [(c & rest' & -> & Hc)|[-> Hne]]; cbn [getline_loop tl]; rewrite (bind_ok _ _ _ b3 b3) by reflexivity; rewrite Hmore; cbn [negb].
    - exists c. assert (E' : (c =? 10) || (c =? 13) = true) by (unfold eol in Hc; lia). rewrite E'. split; [done|].
      unfold eol, EOF in *. rewrite (proj2 (Z.eqb_neq c (-1))) by lia. done.
    - exists EOF. split; [done|]. rewrite (br_pos _ _ _ _ Hb3). destruct l; [done|]. rewrite zlen_cons. pose proof (zlen_nonneg l).
      rewrite (proj2 (Z.eqb_neq (1 + zlen l) 0)) by lia. done. }
  destruct Hgo as (c & Ego & Ec). rewrite (bind_ok _ _ _ (false, c, tl rest) b3) by (by rewrite E).
  cbv beta iota. rewrite (bind_ok _ _ _ tt b3), (bind_ok _ _ _ (b_pos b3) b3) by reflexivity. rewrite Ec. by rewrite (bind_ok _ _ _ _ _ E4).
Qed.

Lemma getline_eof b size : sized b size -> 0 < size -> exists b', buf_getline [] b = Ok ((false, []), b') /\ buf_repr b' [] [] size.
Proof.
  intros Hb Hs. destruct (buf_getline_start b size Hb Hs) as (b2 & Hb2 & E). exists b2. split; [|done]. rewrite E.
  assert (E' : getline_loop EOF [] b2 = Ok ((false, EOF, []), b2)).
  { cbn [getline_loop]. rewrite (bind_ok _ _ _ b2 b2) by reflexivity. rewrite (br_pos _ _ _ _ Hb2), (br_size _ _ _ _ Hb2), !zlen_nil. by z_guards. }
  rewrite (bind_ok _ _ _ _ _ E'). cbv beta iota. rewrite (bind_ok _ _ _ tt b2), (bind_ok _ _ _ (b_pos b2) b2) by reflexivity.
  by rewrite (br_pos _ _ _ _ Hb2).
Qed.

(** A line that fills the buffer: it reads as an empty one, and the file goes
    on in the middle of it. *)
Lemma getline_long l rest b size : sized b size -> Forall (fun c => ~ eol c) l -> bytes l -> zlen l = size -> 0 < size ->
  exists b', buf_getline (l ++ rest) b = Ok ((true, rest), b') /\ buf_repr b' [] [] size.
Proof.
  intros Hb Hl Hby Hn Hs. destruct (buf_getline_start b size Hb Hs) as (b2 & Hb2 & E). rewrite E. clear E.
  destruct (getline_loop_run l EOF rest b2 [] size Hl Hby ltac:(lia) Hb2) as (b3 & Hb3 & E). cbn [app] in Hb3.
  assert (Hne : l <> []) by (intros ->; rewrite zlen_nil in Hn; lia).
  assert (Hfull : (b_pos b3 <? b_size b3) = false) by (rewrite (br_pos _ _ _ _ Hb3), (br_size _ _ _ _ Hb3), zlen_nil; zlia).
  assert (Ego : getline_loop (default EOF (last l)) rest b3 = Ok ((true, default EOF (last l), rest), b3)).
  { destruct rest; cbn [getline_loop]; rewrite (bind_ok _ _ _ b3 b3) by reflexivity; by rewrite Hfull. }
  rewrite (bind_ok _ _ _ (true, default EOF (last l), rest) b3) by (by rewrite E). cbv beta iota. cbn [when].
  assert (Elen : exists b4, buf_setlen 0 b3 = Ok (tt, b4) /\ b4 = set_len 0 b3).
  { exists (set_len 0 b3). split; [|done]. unfold buf_setlen, bind, gets, id, BUF_MAX_INCR. pose proof (br_size _ _ _ _ Hb3). repr_facts Hb3.
    pose proof (zlen_nonneg l). rewrite zlen_nil in *. z_guards. done. }
  destruct Elen as (b4 & E4 & Eb4). rewrite (bind_ok _ _ _ _ _ E4), (bind_ok _ _ _ (b_pos b4) b4) by reflexivity.
  rewrite last_not_eof by done. cbn [andb].
  exists (set_pos 0 b4). subst b4. split.
  - rewrite (bind_ok _ _ _ tt (set_pos 0 (set_len 0 b3))); [done|]. unfold buf_setpos, bind, gets, id. cbn. done.
  - destruct (br_data _ _ _ _ Hb3) as (tl' & Hd & Hr). pose proof (br_size _ _ _ _ Hb3) as Hsz. rewrite zlen_nil in Hsz.
    split; cbn [set_pos set_len b_data b_pos b_len b_size]; rewrite ?zlen_nil; try done; try (apply Hb3); try (change (zlen (@nil Z)) with 0; lia).
    exists (l ++ tl'). split; [by rewrite Hd|]. rewrite zlen_app. pose proof (zlen_nonneg tl'). lia.
Qed.

(** ** What the options are

    Names are compared without regard to case; a command runs to the first
    quote that no backslash escapes. *)

Inductive pubkey_option :=
| NoPortForwarding | NoAgentForwarding | NoX11Forwarding | NoPty | ForcedCommand (command : list Z).

Definition option_effect (o : PubKeyOptions) (x : pubkey_option) : PubKeyOptions :=
  match x with
  | NoPortForwarding => set_no_port_forwarding o
  | NoAgentForwarding => set_no_agent_forwarding o
  | NoX11Forwarding => set_no_x11_forwarding o
  | NoPty => set_no_pty o
  | ForcedCommand c => set_forced_command (c ++ [0]) o
  end.

(** Equal up to case. *)
Definition same_name (l name : list Z) : Prop := map tolower l = map tolower name.

(** No quote in the command is unescaped, and its end is not escaped. *)
Fixpoint unquoted (escaped : bool) (l : list Z) : bool :=
  match l with
  | [] => negb escaped
  | c :: l => negb (negb escaped && (c =? 34)) && unquoted (negb escaped && (c =? 92)) l
  end.

Inductive option_text : list Z -> pubkey_option -> Prop :=
| port_text l : same_name l OPT_PORT -> option_text l NoPortForwarding
| agent_text l : same_name l OPT_AGENT -> option_text l NoAgentForwarding
| x11_text l : same_name l OPT_X11 -> option_text l NoX11Forwarding
| pty_text l : same_name l OPT_PTY -> option_text l NoPty
| command_text l c : same_name l OPT_COMMAND -> unquoted false c = true -> option_text (l ++ c ++ [34]) (ForcedCommand c).

(** Options between commas, of which there may be any number. *)
Inductive options_text : list Z -> list pubkey_option -> Prop :=
| options_none : options_text [] []
| options_comma l os : options_text l os -> options_text (44 :: l) os
| options_last t o : option_text t o -> options_text t [o]
| options_more t o l os : option_text t o -> options_text l os -> options_text (t ++ 44 :: l) (o :: os).

(** ** The options parser as a function on the text *)

(** The text after a name, when it starts with the name. *)
Definition strip_name (name l : list Z) : option (list Z) :=
  if bool_decide (zlen name <= zlen l /\ map tolower (ztake (zlen name) l) = map tolower name) then Some (zdrop (zlen name) l) else None.

Fixpoint command_end (escaped : bool) (l : list Z) : option (list Z * list Z) :=
  match l with
  | [] => None
  | c :: l =>
      if negb escaped && (c =? 34) then Some ([], l)
      else p ← command_end (negb escaped && (c =? 92)) l; Some (c :: p.1, p.2)
  end.

(** The option at the start of the text, if there is one, and the rest. *)
Definition first_option (l : list Z) : option (option pubkey_option * list Z) :=
  match strip_name OPT_PORT l with Some r => Some (Some NoPortForwarding, r) | None =>
  match strip_name OPT_AGENT l with Some r => Some (Some NoAgentForwarding, r) | None =>
  match strip_name OPT_X11 l with Some r => Some (Some NoX11Forwarding, r) | None =>
  match strip_name OPT_PTY l with Some r => Some (Some NoPty, r) | None =>
  match strip_name OPT_COMMAND l with
  | Some r => match command_end false r with Some (c, r) => Some (Some (ForcedCommand c), r) | None => None end
  | None => Some (None, l)
  end end end end end.

Fixpoint parse_options (fuel : nat) (o : PubKeyOptions) (l : list Z) : option PubKeyOptions :=
  match l, fuel with
  | [], _ => Some o
  | _, O => None
  | _, S fuel =>
      match first_option l with
      | None => None
      | Some (x, r) =>
          let o := match x with Some x => option_effect o x | None => o end in
          match r with
          | [] => Some o
          | c :: r => if c =? 44 then parse_options fuel o r else None
          end
      end
  end.

Lemma strncasecmp_name n a name : (length name = n)%nat -> (n <= length a)%nat -> 0 ∉ map tolower name ->
  strncasecmp_eq n a name = bool_decide (map tolower (take n a) = map tolower name).
Proof.
  revert a name. induction n as [|n IH]; intros a name Hn Ha H0; destruct name as [|x name]; try done; destruct a as [|y a]; cbn in Hn, Ha; try lia.
  cbn [strncasecmp_eq hd tl map take]. cbn [map] in H0. apply not_elem_of_cons in H0 as [Hx H0].
  destruct (Z.eqb_spec (tolower y) (tolower x)) as [E|N].
  - assert (Hy : (y =? 0) = false) by (apply Z.eqb_neq; intros ->; cbn in E; lia).
    rewrite Hy. cbn [andb orb]. rewrite IH by (done || lia). apply bool_decide_ext. rewrite E. split; [by intros ->|by intros [= ->]].
  - cbn [andb]. symmetry. apply bool_decide_eq_false. by intros [= ? ?].
Qed.

Lemma zlen_map {A B} (f : A -> B) l : zlen (map f l) = zlen l.
Proof. unfold zlen. by rewrite length_map. Qed.

Lemma strip_name_Some name l r : strip_name name l = Some r -> exists t, l = t ++ r /\ same_name t name.
Proof.
  unfold strip_name. case_bool_decide as H; [|done]. intros [= <-]. exists (ztake (zlen name) l). split; [by rewrite ztake_zdrop|apply H].
Qed.

Lemma strip_name_app t name r : same_name t name -> strip_name name (t ++ r) = Some r.
Proof.
  intros H. assert (Hl : zlen name = zlen t) by (by rewrite <-(zlen_map tolower t), H, zlen_map).
  unfold strip_name. rewrite Hl, ztake_app_zlen, zdrop_app_zlen, bool_decide_eq_true_2; [done|]. split; [|done].
  rewrite zlen_app. pose proof (zlen_nonneg r). lia.
Qed.

Lemma match_option_run name b pre l room : 0 ∉ map tolower name -> buf_repr b pre l room ->
  match strip_name name l with
  | Some r => exists b', match_option name b = Ok (true, b') /\ buf_repr b' (pre ++ ztake (zlen name) l) r room
  | None => match_option name b = Ok (false, b)
  end.
Proof.
  intros H0 Hb. repr_facts Hb. pose proof (zlen_nonneg pre). pose proof (zlen_nonneg l). pose proof (zlen_nonneg name).
  unfold match_option, strip_name. rewrite (bind_ok _ _ _ b b) by reflexivity.
  rewrite u32_small by (unfold is_u32; lia). replace (b_len b - b_pos b) with (zlen l) by lia.
  destruct (Z.ltb_spec (zlen l) (zlen name)) as [Hs|Hs]; [by rewrite bool_decide_eq_false_2 by lia|].
  pose proof (ztake_zdrop (zlen name) l) as Hsplit. assert (Ht : zlen (ztake (zlen name) l) = zlen name) by (apply zlen_ztake; lia).
  rewrite <-Hsplit in Hb. set (t := ztake (zlen name) l) in *. set (r := zdrop (zlen name) l) in *.
  rewrite (bind_ok _ _ _ _ _ (repr_getptr_bytes b pre t r room (zlen name) (eq_sym Ht) Hb)).
  assert (Hlt : length t = length name) by (apply Nat2Z.inj, Ht).
  assert (En : Z.to_nat (zlen name) = length name) by (unfold zlen; lia). rewrite En.
  rewrite (strncasecmp_name _ t name), (firstn_all2 t) by (done || lia).
  rewrite (bool_decide_ext (zlen name <= zlen l /\ map tolower t = map tolower name) (map tolower t = map tolower name)) by tauto.
  case_bool_decide; [|done]. destruct (repr_incrpos b pre t r room (zlen name) (eq_sym Ht) Hb) as (b' & E & Hb').
  exists b'. split; [|done]. by rewrite (bind_ok _ _ _ _ _ E).
Qed.

Lemma repr_load_at b x y z post room : buf_repr b (x ++ y ++ z) post room -> load_bytes (zlen x) (zlen y) b = Ok (y, b).
Proof.
  intros Hb. destruct (br_data _ _ _ _ Hb) as (rest & Hd & _). rewrite <-!app_assoc in Hd. unfold load_bytes. rewrite Hd, !zlen_app.
  pose proof (zlen_nonneg x). pose proof (zlen_nonneg y). pose proof (zlen_nonneg z). pose proof (zlen_nonneg post). pose proof (zlen_nonneg rest).
  z_guards. cbn. by rewrite zslice_app.
Qed.

Lemma command_loop_run fuel escaped l b pre acc room : (length l <= fuel)%nat -> buf_repr b (pre ++ acc) l room ->
  match command_end escaped l with
  | Some (c, r) => exists b', command_loop fuel escaped (zlen pre) b = Ok (Some ((acc ++ c) ++ [0]), b') /\ buf_repr b' (pre ++ acc ++ c ++ [34]) r room
  | None => exists b', command_loop fuel escaped (zlen pre) b = Ok (None, b')
  end.
Proof.
  revert escaped l b acc. induction fuel as [|fuel IH]; intros escaped l b acc Hf Hb; destruct l as [|c l]; cbn [length] in Hf; try lia; cbn [command_end command_loop].
  1,2: exists b; rewrite (bind_ok _ _ _ b b) by reflexivity; by rewrite (repr_end _ _ _ Hb).
  rewrite (bind_ok _ _ _ b b) by reflexivity. rewrite (repr_more _ _ _ _ _ Hb). cbn [negb].
  destruct (repr_getbyte _ _ _ _ _ Hb) as (b1 & E1 & Hb1). rewrite (bind_ok _ _ _ _ _ E1). rewrite <-app_assoc in Hb1.
  destruct (negb escaped && (c =? 34)) eqn:Eq.
  - apply andb_true_iff in Eq as [_ ->%Z.eqb_eq]. exists b1. rewrite app_nil_r. split; [|done].
    rewrite (bind_ok _ _ _ _ _ (repr_getptr b1 _ [] l room 0 eq_refl Hb1)). cbn zeta.
    assert (Epos : b_pos b1 - zlen pre = zlen acc + 1) by (rewrite (br_pos _ _ _ _ Hb1), !zlen_app; change (zlen [34]) with 1; lia).
    rewrite Epos. replace (zlen acc + 1 - 1) with (zlen acc) by lia. pose proof (zlen_nonneg acc).
    rewrite (bind_ok _ _ _ (replicate (Z.to_nat (zlen acc + 1)) 0) b1) by (unfold m_malloc; rewrite (proj2 (Z.eqb_neq (zlen acc + 1) 0)) by lia; done).
    rewrite (bind_ok _ _ _ _ _ (repr_load_at b1 pre acc [34] l room Hb1)). unfold ret. do 4 f_equal.
    replace (replicate (Z.to_nat (zlen acc + 1)) 0) with ([] ++ replicate (length acc) 0 ++ [0]).
    2: { cbn [app]. rewrite <-replicate_S_end. f_equal. unfold zlen. lia. }
    rewrite <-(zlen_nil (A := Z)), splice_app by (unfold zlen; by rewrite length_replicate). cbn [app]. apply zset_mid.
  - specialize (IH (negb escaped && (c =? 92)) l b1 (acc ++ [c]) ltac:(lia) ltac:(by rewrite <-?app_assoc in *)).
    destruct (command_end (negb escaped && (c =? 92)) l) as [[d r]|]; cbn; [|done].
    destruct IH as (b' & E & Hb'). exists b'. rewrite <-!app_assoc in *. by split.
Qed.

Lemma one_option_run o b pre l room : buf_repr b pre l room ->
  match first_option l with
  | Some (x, r) => exists b' pre', one_option o b = Ok (Some (match x with Some x => option_effect o x | None => o end), b') /\
      buf_repr b' pre' r room
  | None => exists b', one_option o b = Ok (None, b')
  end.
Proof.
  intros Hb. unfold first_option, one_option.
  do 4 (match goal with |- context [strip_name ?n l] =>
    pose proof (match_option_run n b pre l room ltac:(apply (bool_decide_eq_true_1 _); by vm_compute) Hb) as Hm; destruct (strip_name n l) as [r|];
    [destruct Hm as (b' & E & Hb'); rewrite (bind_ok _ _ _ _ _ E); exists b'; eexists; split; [done|exact Hb']|rewrite (bind_ok _ _ _ _ _ Hm); clear Hm] end).
  pose proof (match_option_run OPT_COMMAND b pre l room ltac:(apply (bool_decide_eq_true_1 _); by vm_compute) Hb) as Hm.
  destruct (strip_name OPT_COMMAND l) as [r|]; [|rewrite (bind_ok _ _ _ _ _ Hm); by exists b, pre].
  destruct Hm as (b1 & E1 & Hb1). rewrite (bind_ok _ _ _ _ _ E1). cbn iota.
  rewrite (bind_ok _ _ _ _ _ (repr_getptr b1 _ [] r room 0 eq_refl Hb1)). rewrite (bind_ok _ _ _ b1 b1) by reflexivity.
  rewrite (br_pos _ _ _ _ Hb1). set (pre1 := pre ++ _) in *.
  pose proof (command_loop_run (Z.to_nat (b_len b1)) false r b1 pre1 [] room) as Hc. rewrite app_nil_r in Hc.
  specialize (Hc ltac:(rewrite (br_len _ _ _ _ Hb1); pose proof (zlen_nonneg pre1); unfold zlen in *; lia) Hb1). cbn [app] in Hc.
  destruct (command_end false r) as [[c r']|].
  - destruct Hc as (b2 & E2 & Hc). exists b2, (pre1 ++ c ++ [34]). by rewrite (bind_ok _ _ _ _ _ E2).
  - destruct Hc as (b2 & E2). exists b2. by rewrite (bind_ok _ _ _ _ _ E2).
Qed.

Lemma command_end_Some escaped l c r : command_end escaped l = Some (c, r) -> l = c ++ 34 :: r /\ unquoted escaped c = true.
Proof.
  revert escaped c r. induction l as [|x l IH]; intros escaped c r; cbn [command_end]; [done|].
  destruct (negb escaped && (x =? 34)) eqn:E.
  - intros [= <- <-]. apply andb_true_iff in E as [E ->%Z.eqb_eq]. by cbn.
  - destruct (command_end _ l) as [[c' r']|] eqn:E'; [|done]. intros [= <- <-]. cbn [fst snd]. destruct (IH _ _ _ E') as [-> Hu]. cbn [unquoted app]. by rewrite E, Hu.
Qed.

Lemma command_end_app escaped c r : unquoted escaped c = true -> command_end escaped (c ++ 34 :: r) = Some (c, r).
Proof.
  revert escaped. induction c as [|x c IH]; intros escaped; cbn [unquoted app command_end].
  - intros ->. done.
  - intros [E%negb_true_iff H]%andb_true_iff. rewrite E. by rewrite (IH _ H).
Qed.

Lemma first_option_Some l x r : first_option l = Some (x, r) ->
  match x with Some x => exists t, l = t ++ r /\ option_text t x | None => r = l end.
Proof.
  unfold first_option.
  do 4 (match goal with |- context [strip_name ?n l] => destruct (strip_name n l) eqn:E;
    [apply strip_name_Some in E as (t & -> & Ht); intros [= <- <-]; exists t; split; [done|by constructor]|clear E] end).
  destruct (strip_name OPT_COMMAND l) as [r'|] eqn:E; [|by intros [= <- <-]].
  apply strip_name_Some in E as (t & -> & Ht). destruct (command_end false r') as [[c r'']|] eqn:Ec; [|done].
  intros [= <- <-]. apply command_end_Some in Ec as [-> Hu]. exists (t ++ c ++ [34]). split; [by rewrite <-!app_assoc|by constructor].
Qed.

(** Texts that differ from a name early on do not start with it. *)
Lemma strip_name_None k name l : (k <= length name)%nat -> map tolower (take k l) <> map tolower (take k name) -> strip_name name l = None.
Proof.
  intros Hk Hne. unfold strip_name. case_bool_decide as H; [|done].
  destruct H as [Hl E]. exfalso. apply Hne. apply (f_equal (take k)) in E. rewrite <-!map_take in E || rewrite !firstn_map in E.
  unfold ztake in E. rewrite take_take in E. replace (k `min` Z.to_nat (zlen name))%nat with k in E by (unfold zlen; lia). done.
Qed.

Lemma strip_other k name name' t r : same_name t name' -> (k <= length name)%nat -> (k <= length name')%nat ->
  map tolower (take k name') <> map tolower (take k name) -> strip_name name (t ++ r) = None.
Proof.
  intros Ht Hk Hk' Hne. apply (strip_name_None k); [done|]. intros E. apply Hne. rewrite <-E.
  assert (Hl : length t = length name') by (by rewrite <-(length_map tolower t), Ht, length_map).
  rewrite take_app_le by lia. rewrite <-!firstn_map. by rewrite Ht.
Qed.

Lemma first_option_text t x r : option_text t x -> first_option (t ++ r) = Some (Some x, r).
Proof.
  assert (D : forall k n n', (k <= length n)%nat -> (k <= length n')%nat -> map tolower (take k n') <> map tolower (take k n) ->
    forall u v, same_name u n' -> strip_name n (u ++ v) = None) by (intros; by eapply strip_other).
  intros H. unfold first_option. destruct H as [t Ht|t Ht|t Ht|t Ht|t c Ht Hu].
  - by rewrite (strip_name_app t OPT_PORT).
  - rewrite (D 4%nat OPT_PORT OPT_AGENT) by (done || by vm_compute; lia). by rewrite (strip_name_app t OPT_AGENT).
  - rewrite (D 4%nat OPT_PORT OPT_X11), (D 4%nat OPT_AGENT OPT_X11) by (done || by vm_compute; lia). by rewrite (strip_name_app t OPT_X11).
  - rewrite (D 5%nat OPT_PORT OPT_PTY), (D 4%nat OPT_AGENT OPT_PTY), (D 4%nat OPT_X11 OPT_PTY) by (done || by vm_compute; lia). by rewrite (strip_name_app t OPT_PTY).
  - rewrite <-!app_assoc.
    rewrite (D 1%nat OPT_PORT OPT_COMMAND), (D 1%nat OPT_AGENT OPT_COMMAND), (D 1%nat OPT_X11 OPT_COMMAND), (D 1%nat OPT_PTY OPT_COMMAND) by (done || by vm_compute; lia).
    rewrite (strip_name_app t OPT_COMMAND) by done. cbn [app]. by rewrite (command_end_app false c r Hu).
Qed.

Lemma first_option_comma l : first_option (44 :: l) = Some (None, 44 :: l).
Proof.
  unfold first_option.
  rewrite !(strip_name_None 1 _ (44 :: l)) by (cbn; lia || done). done.
Qed.

Lemma option_text_length t x : option_text t x -> (0 < length t)%nat.
Proof.
  assert (D : forall t n, same_name t n -> length t = length n) by (intros u n E; by rewrite <-(length_map tolower u), E, length_map).
  intros []; rewrite ?length_app, (D _ _ H); cbn; lia.
Qed.

Lemma parse_options_sound fuel o l o' : parse_options fuel o l = Some o' ->
  exists os, options_text l os /\ o' = fold_left option_effect os o.
Proof.
  revert o l. induction fuel as [|fuel IH]; intros o l; destruct l as [|c l]; cbn [parse_options]; try done.
  1,2: intros [= <-]; exists []; split; [constructor|done].
  destruct (first_option (c :: l)) as [[x r]|] eqn:E; [|done]. apply first_option_Some in E. destruct x as [x|].
  - destruct E as (t & -> & Ht). destruct r as [|d r].
    + intros [= <-]. exists [x]. rewrite app_nil_r. split; [by constructor|done].
    + destruct (Z.eqb_spec d 44) as [->|]; [|done]. intros (os & Hos & ->)%IH. exists (x :: os). split; [by constructor|done].
  - subst r. destruct (Z.eqb_spec c 44) as [->|]; [|done]. intros (os & Hos & ->)%IH. exists os. split; [by constructor|done].
Qed.

Lemma parse_options_complete fuel o l os : options_text l os -> (length l <= fuel)%nat ->
  parse_options fuel o l = Some (fold_left option_effect os o).
Proof.
  intros H. revert fuel o. induction H as [|l os H IH|t x Ht|t x l os Ht H IH]; intros fuel o Hf.
  - by destruct fuel.
  - cbn [length] in Hf. destruct fuel as [|fuel]; [lia|]. cbn [parse_options]. rewrite first_option_comma. apply IH. lia.
  - pose proof (option_text_length _ _ Ht). destruct fuel as [|fuel]; [lia|]. pose proof (first_option_text t x [] Ht) as E. rewrite app_nil_r in E.
    destruct t as [|c t]; [cbn in *; lia|]. cbn [parse_options]. by rewrite E.
  - pose proof (option_text_length _ _ Ht). rewrite length_app in Hf. cbn [length] in Hf. destruct fuel as [|fuel]; [lia|].
    pose proof (first_option_text t x (44 :: l) Ht) as E. destruct t as [|c t]; [cbn in *; lia|]. cbn [app parse_options] in *. rewrite E. cbn [fold_left].
    apply IH. cbn in Hf. lia.
Qed.

Lemma options_loop_run fuel o b pre l room : (length l <= fuel)%nat -> buf_repr b pre l room ->
  exists b', options_loop fuel o b = Ok (parse_options fuel o l, b').
Proof.
  revert o b pre l. induction fuel as [|fuel IH]; intros o b pre l Hf Hb; destruct l as [|c l]; cbn [length] in Hf; try lia.
  1,2: exists b; cbn [options_loop parse_options]; rewrite (bind_ok _ _ _ b b) by reflexivity; by rewrite (repr_end _ _ _ Hb).
  cbn [options_loop parse_options]. rewrite (bind_ok _ _ _ b b) by reflexivity. rewrite (repr_more _ _ _ _ _ Hb). cbn [negb].
  pose proof (one_option_run o b pre (c :: l) room Hb) as Ho. destruct (first_option (c :: l)) as [[x r]|] eqn:Ef.
  2: { destruct Ho as (b1 & E1). exists b1. by rewrite (bind_ok _ _ _ _ _ E1). }
  destruct Ho as (b1 & pre1 & E1 & Hb1). rewrite (bind_ok _ _ _ _ _ E1). set (o1 := match x with Some _ => _ | None => _ end) in *.
  assert (Hr : (length r <= S (length l))%nat).
  { apply first_option_Some in Ef. destruct x; [destruct Ef as (t & E & _)|by subst]. apply (f_equal length) in E. rewrite length_app in E. cbn in E. lia. }
  rewrite (bind_ok _ _ _ b1 b1) by reflexivity. destruct r as [|d r].
  - rewrite (repr_end _ _ _ Hb1), (bind_ok _ _ _ false b1) by reflexivity. destruct (IH o1 b1 pre1 [] ltac:(cbn; lia) Hb1) as (b2 & E2).
    exists b2. rewrite E2. by destruct fuel.
  - rewrite (repr_more _ _ _ _ _ Hb1). destruct (repr_getbyte _ _ _ _ _ Hb1) as (b2 & E2 & Hb2).
    rewrite (bind_ok _ _ _ (negb (d =? 44)) b2) by (by rewrite (bind_ok _ _ _ _ _ E2)).
    destruct (d =? 44); cbn [negb]; [|by exists b2]. cbn [length] in Hr. apply (IH o1 b2 (pre1 ++ [d]) r); [lia|done].
Qed.

Lemma svr_add_pubkey_options_ok b pre post room : buf_repr b pre post room ->
  exists r b', svr_add_pubkey_options b = Ok (r, b') /\
    forall o, r = Some o <-> exists os, options_text (pre ++ post) os /\ o = fold_left option_effect os fresh_options.
Proof.
  intros Hb. destruct (repr_rewind _ _ _ _ Hb) as (b1 & E1 & Hb1). set (l := pre ++ post) in *.
  assert (Hf : (length l <= Z.to_nat (b_len b1))%nat) by (rewrite (br_len _ _ _ _ Hb1), zlen_nil; unfold zlen; lia).
  destruct (options_loop_run (Z.to_nat (b_len b1)) fresh_options b1 [] l room Hf Hb1) as (b2 & E2).
  exists (parse_options (Z.to_nat (b_len b1)) fresh_options l), b2. split.
  - unfold svr_add_pubkey_options. by rewrite (bind_ok _ _ _ _ _ E1), (bind_ok _ _ _ b1 b1) by reflexivity.
  - intros o. split; [by apply parse_options_sound|]. intros (os & Hos & ->). by apply parse_options_complete.
Qed.

(** ** What a line is *)

(** The loop that looks for the end of the options tracks quotes; a blank
    outside them ends it. *)
Fixpoint one_token (quoted escape : bool) (l : list Z) : bool :=
  match l with
  | [] => negb quoted
  | c :: l =>
      negb (negb quoted && blank c) &&
      one_token (if negb (negb escape && (c =? 92)) && (c =? 34) then negb quoted else quoted) (negb escape && (c =? 92)) l
  end.

Inductive auth_line :=
| KeyLine (options : option (list Z)) (name numbers comment : list Z)
| CommentLine (blanks text : list Z)
| ShortLine (text : list Z).

Definition key_text (name numbers comment : list Z) : list Z := name ++ 32 :: encode_chars (key_blob name numbers) ++ comment.

Definition line_text (l : auth_line) : list Z :=
  match l with
  | KeyLine None name numbers comment => key_text name numbers comment
  | KeyLine (Some o) name numbers comment => o ++ 32 :: key_text name numbers comment
  | CommentLine blanks text => blanks ++ 35 :: text
  | ShortLine text => text
  end.

Definition key_names : list (list Z) := Eval cbv in [chars SSH_SIGNKEY_RSA; chars SSH_SIGNKEY_DSS].

(** Options that the line's loop takes for one field of the line. *)
Definition options_field (o : list Z) : Prop :=
  one_token false false o = true /\ exists c o', o = c :: o' /\ blank c = false /\ c <> 35.

Definition good_line (l : auth_line) : Prop :=
  zlen (line_text l) < MAX_AUTHKEYS_LINE /\ Forall (fun c => ~ eol c) (line_text l) /\ bytes (line_text l) /\
  match l with
  | KeyLine o name numbers comment =>
      name ∈ key_names /\ bytes numbers /\ (comment = [] \/ exists c, comment = 32 :: c) /\
      match o with Some o => options_field o /\ ztake 7 (line_text l) ∉ key_names | None => True end
  | CommentLine blanks text => Forall (fun c => blank c = true) blanks /\ MIN_AUTHKEYS_LINE <= zlen (line_text l)
  | ShortLine text => zlen text < MIN_AUTHKEYS_LINE
  end.

(** The line lets the holder of the key in, with these options. *)
Inductive grants (name keyblob : list Z) : auth_line -> option PubKeyOptions -> Prop :=
| grants_plain numbers comment : keyblob = key_blob name numbers -> grants name keyblob (KeyLine None name numbers comment) None
| grants_options o os numbers comment : keyblob = key_blob name numbers -> options_text o os ->
    grants name keyblob (KeyLine (Some o) name numbers comment) (Some (fold_left option_effect os fresh_options)).

(** ** The lines of the file *)

Lemma strncmp_eq_name n p algo : length p = n -> (n <= length algo)%nat -> 0 ∉ take n algo -> strncmp_eq n p algo = bool_decide (p = take n algo).
Proof.
  revert p algo. induction n as [|n IH]; intros p algo Hp Ha H0; destruct p as [|x p]; try done; destruct algo as [|y algo]; cbn in Hp, Ha; try lia.
  cbn [strncmp_eq hd tl take] in *. apply not_elem_of_cons in H0 as [Hx H0]. destruct (Z.eqb_spec x y) as [->|N]; cbn [andb].
  - rewrite (proj2 (Z.eqb_neq y 0)) by lia. cbn [orb]. rewrite IH by (done || lia). apply bool_decide_ext. split; [by intros ->|by intros [= ->]].
  - symmetry. apply bool_decide_eq_false. by intros [= ? ?].
Qed.

Lemma at_algo_run name b pre m post room : (0 ∉ name) -> zlen m = zlen name -> buf_repr b pre (m ++ post) room ->
  at_algo (name ++ [0]) (zlen name) b = Ok (bool_decide (m = name), b).
Proof.
  intros H0 Hm Hb. unfold at_algo. rewrite (bind_ok _ _ _ _ _ (repr_getptr_bytes b pre m post room (zlen name) (eq_sym Hm) Hb)).
  assert (En : Z.to_nat (zlen name) = length name) by (unfold zlen; lia). rewrite En.
  assert (Ht : take (length name) (name ++ [0]) = name) by (by rewrite take_app_length).
  rewrite strncmp_eq_name; [by rewrite Ht|by apply Nat2Z.inj|rewrite length_app; lia|by rewrite Ht].
Qed.

(** The loops over a line. *)
Lemma skip_loop_run fuel blanks c post b pre room : (length blanks < fuel)%nat -> Forall (fun c => blank c = true) blanks -> blank c = false ->
  buf_repr b pre (blanks ++ c :: post) room ->
  exists b', skip_loop fuel b = Ok (bool_decide (c = 35), b') /\
    buf_repr b' (pre ++ blanks ++ (if bool_decide (c = 35) then [c] else [])) (if bool_decide (c = 35) then post else c :: post) room.
Proof.
  intros Hf Hbl Hc. revert fuel Hf b pre. induction Hbl as [|x blanks Hx Hbl IH]; intros fuel Hf b pre Hb; destruct fuel as [|fuel]; cbn [length] in Hf; try lia; cbn [app skip_loop].
  - rewrite (bind_ok _ _ _ b b) by reflexivity. rewrite (repr_more _ _ _ _ _ Hb). cbn [negb].
    destruct (repr_getbyte _ _ _ _ _ Hb) as (b1 & E1 & Hb1). rewrite (bind_ok _ _ _ _ _ E1), Hc.
    destruct (Z.eqb_spec c 35) as [->|N]; [rewrite bool_decide_eq_true_2 by done; by exists b1|].
    rewrite bool_decide_eq_false_2 by done. destruct (repr_back b1 pre [c] post room (-1) eq_refl Hb1) as (b2 & E2 & Hb2).
    exists b2. rewrite app_nil_r. split; [by rewrite (bind_ok _ _ _ _ _ E2)|done].
  - cbn [app] in Hb. rewrite (bind_ok _ _ _ b b) by reflexivity. rewrite (repr_more _ _ _ _ _ Hb). cbn [negb].
    destruct (repr_getbyte _ _ _ _ _ Hb) as (b1 & E1 & Hb1). rewrite (bind_ok _ _ _ _ _ E1), Hx.
    destruct (IH fuel ltac:(lia) b1 (pre ++ [x]) Hb1) as (b2 & E2 & Hb2). exists b2. split; [done|]. by rewrite <-app_assoc in Hb2.
Qed.

Lemma options_end_run fuel quoted escape o c post n b pre room : (length o < fuel)%nat -> one_token quoted escape o = true -> blank c = true ->
  buf_repr b pre (o ++ c :: post) room ->
  exists b', options_end_loop fuel quoted escape n b = Ok (n + zlen o, b') /\ buf_repr b' (pre ++ o ++ [c]) post room.
Proof.
  intros Hf Ho Hc. revert fuel Hf quoted escape n b pre Ho. induction o as [|x o IH]; intros fuel Hf quoted escape n b pre Ho Hb;
    destruct fuel as [|fuel]; cbn [length] in Hf; try lia; cbn [app options_end_loop one_token] in *.
  - rewrite (bind_ok _ _ _ b b) by reflexivity. rewrite (repr_more _ _ _ _ _ Hb). destruct (repr_getbyte _ _ _ _ _ Hb) as (b1 & E1 & Hb1).
    cbn [negb]. rewrite (bind_ok _ _ _ _ _ E1), Hc, Ho. exists b1. by rewrite zlen_nil, Z.add_0_r.
  - apply andb_true_iff in Ho as [Hx%negb_true_iff Ho]. rewrite (bind_ok _ _ _ b b) by reflexivity. rewrite (repr_more _ _ _ _ _ Hb).
    destruct (repr_getbyte _ _ _ _ _ Hb) as (b1 & E1 & Hb1). cbn [negb]. rewrite (bind_ok _ _ _ _ _ E1), Hx. cbn zeta.
    destruct (IH fuel ltac:(lia) _ _ (n + 1) b1 (pre ++ [x]) Ho Hb1) as (b2 & E2 & Hb2). exists b2. rewrite zlen_cons. split.
    + rewrite E2. do 2 f_equal. lia.
    + by rewrite <-app_assoc in Hb2.
Qed.

Lemma field_loop_run fuel l rest n b pre room : (length l < fuel)%nat -> (32 ∉ l) -> (rest = [] \/ exists c, rest = 32 :: c) ->
  buf_repr b pre (l ++ rest) room ->
  exists b' pre' post', field_loop fuel n b = Ok (n + zlen l, b') /\ buf_repr b' pre' post' room /\ pre' ++ post' = pre ++ l ++ rest.
Proof.
  intros Hf Hl Hr. revert fuel Hf n b pre. induction l as [|x l IH]; intros fuel Hf n b pre Hb; destruct fuel as [|fuel]; cbn [length] in Hf; try lia; cbn [app field_loop].
  - rewrite (bind_ok _ _ _ b b) by reflexivity. cbn [app] in Hb. rewrite zlen_nil, Z.add_0_r. destruct Hr as [->|[c ->]].
    + rewrite (repr_end _ _ _ Hb). by exists b, pre, [].
    + rewrite (repr_more _ _ _ _ _ Hb). destruct (repr_getbyte _ _ _ _ _ Hb) as (b1 & E1 & Hb1). cbn [negb]. rewrite (bind_ok _ _ _ _ _ E1).
      exists b1, (pre ++ [32]), c. by rewrite <-app_assoc.
  - cbn [app] in Hb. apply not_elem_of_cons in Hl as [Hx Hl]. rewrite (bind_ok _ _ _ b b) by reflexivity. rewrite (repr_more _ _ _ _ _ Hb).
    destruct (repr_getbyte _ _ _ _ _ Hb) as (b1 & E1 & Hb1). cbn [negb]. rewrite (bind_ok _ _ _ _ _ E1), (proj2 (Z.eqb_neq x 32)) by done.
    destruct (IH Hl fuel ltac:(lia) (n + 1) b1 (pre ++ [x]) Hb1) as (b2 & pre' & post' & E2 & Hb2 & Ep). exists b2, pre', post'. rewrite zlen_cons. split; [|split; [done|]].
    + rewrite E2. do 2 f_equal. lia.
    + by rewrite Ep, <-app_assoc.
Qed.

(** ** A line *)

Lemma key_name_facts name : name ∈ key_names ->
  zlen name = 7 /\ (0 ∉ name) /\ (32 ∉ name) /\ bytes name /\ options_field name /\ (exists name', name = 115 :: name').
Proof.
  unfold key_names. rewrite !elem_of_cons. intros [->|[->|[]%not_elem_of_nil]]; (split; [done|]); (split; [apply (bool_decide_eq_true_1 _); by vm_compute|]);
    (split; [apply (bool_decide_eq_true_1 _); by vm_compute|]); (split; [apply (bool_decide_eq_true_1 _); by vm_compute|]);
    (split; [split; [done|by do 2 eexists]|by eexists]).
Qed.

(** A character that no code of the alphabet is, and not the padding. *)
Lemma encode_avoids x l : forallb (fun j => negb (default 0 (zget b64_codes j) =? x)) (seqZ 0 64) = true -> x <> 61 -> x ∉ encode_chars l.
Proof.
  intros Hall Hx. assert (Hc : forall i, x <> code i).
  { intros i. unfold code. assert (H : 0 <= Z.land i 63 < 64) by (change 63 with (Z.ones 6); rewrite Z.land_ones by lia; apply Z.mod_pos_bound; lia).
    revert H. generalize (Z.land i 63). intros j Hj.
    rewrite forallb_forall in Hall. specialize (Hall j). rewrite negb_true_iff, Z.eqb_neq in Hall. apply not_eq_sym, Hall, list_elem_of_In, elem_of_seqZ. lia. }
  remember (length l) as n eqn:En. assert (Hn : (length l <= n)%nat) by lia. clear En. revert l Hn.
  induction n as [|n IH]; intros l Hn; [destruct l; [apply not_elem_of_nil|cbn in Hn; lia]|].
  destruct l as [|a [|b [|c l]]]; cbn [encode_chars]; repeat (apply not_elem_of_cons; split; [by apply Hc || done|]); try apply not_elem_of_nil.
  apply IH. cbn in Hn. lia.
Qed.

Lemma encode_no_space l : 32 ∉ encode_chars l.
Proof. by apply encode_avoids. Qed.

Lemma encode_no_eol l : Forall (fun c => ~ eol c) (encode_chars l).
Proof. apply Forall_forall. intros x Hx [-> | ->]; revert Hx; by apply encode_avoids. Qed.

Lemma encode_blob_start name numbers : zlen name = 7 -> exists r, encode_chars (key_blob name numbers) = 65 :: r.
Proof. intros Hl. unfold key_blob. rewrite Hl. change (store32h 7) with [0; 0; 0; 7]. cbn [app encode_chars]. by eexists. Qed.

Lemma sized_repr b size pre post room : sized b size -> buf_repr b pre post room -> room = size - zlen pre - zlen post.
Proof. intros (? & ? & ? & ? & <-) Hb. rewrite (br_size _ _ _ _ Hb). lia. Qed.

Lemma compare_key_run name numbers comment keyblob b pre room :
  name ∈ key_names -> bytes numbers -> (comment = [] \/ exists c, comment = 32 :: c) ->
  buf_repr b pre (key_text name numbers comment) room -> b_size b <= MAX_AUTHKEYS_LINE ->
  exists same b', compare_key (name ++ [0]) (zlen name) keyblob b = Ok (same, b') /\ sized b' (b_size b) /\
    (same = true <-> keyblob = key_blob name numbers).
Proof.
  intros Hname Hby Hcomment Hb Hsize. unfold MAX_AUTHKEYS_LINE in Hsize. destruct (key_name_facts name Hname) as (Hl & H0 & Hsp & Hnb & _ & _).
  unfold key_text in Hb. set (text := encode_chars (key_blob name numbers)) in *.
  destruct (repr_incrpos b pre name (32 :: text ++ comment) room (s32 (zlen name)) ltac:(by rewrite Hl) Hb) as (b1 & E1 & Hb1).
  destruct (repr_getbyte _ _ _ _ _ Hb1) as (b2 & E2 & Hb2). unfold compare_key.
  rewrite (bind_ok _ _ _ _ _ E1), (bind_ok _ _ _ _ _ E2). cbn [Z.eqb Pos.eqb negb]. rewrite (bind_ok _ _ _ b2 b2) by reflexivity. cbn zeta.
  assert (Hsz2 : b_size b2 = b_size b) by (rewrite (br_size _ _ _ _ Hb2), (br_size _ _ _ _ Hb), !zlen_app, !zlen_cons, zlen_app; zlia).
  set (pre2 := (pre ++ name) ++ [32]) in *. pose proof (br_pos _ _ _ _ Hb2) as Hp2. pose proof (br_len _ _ _ _ Hb2) as Hl2. pose proof (br_size _ _ _ _ Hb2) as Hs2.
  pose proof (br_room _ _ _ _ Hb2). pose proof (zlen_nonneg pre2). pose proof (zlen_nonneg text). pose proof (zlen_nonneg comment). rewrite zlen_app in Hl2, Hs2.
  assert (Hpre2 : 0 < zlen pre2) by (unfold pre2; rewrite zlen_app; change (zlen [32]) with 1; pose proof (zlen_nonneg (pre ++ name)); lia).
  destruct (field_loop_run (Z.to_nat (b_len b2)) text comment 0 b2 pre2 room) as (b3 & pre3 & post3 & E3 & Hb3 & Ep3); [unfold zlen in *; lia|apply encode_no_space|done|done|].
  rewrite (bind_ok _ _ _ _ _ E3), Hp2, Z.add_0_l.
  destruct (repr_seek b3 pre3 post3 room pre2 (text ++ comment) (zlen pre2) Hb3 Ep3 eq_refl) as (b4 & E4 & Hb4). rewrite (bind_ok _ _ _ _ _ E4).
  assert (Hsz4 : b_size b4 = b_size b) by (rewrite (br_size _ _ _ _ Hb4), zlen_app; lia).
  rewrite u32_small by (unfold is_u32; lia).
  destruct (repr_setlen b4 pre2 (text ++ comment) room (zlen pre2 + zlen text) Hb4 ltac:(lia)) as (b5 & ext & E5 & Hb5 & _).
  replace (zlen pre2 + zlen text - zlen pre2) with (zlen text) in Hb5 by lia. rewrite <-app_assoc, ztake_app_zlen in Hb5. rewrite (bind_ok _ _ _ _ _ E5), ztake_app_zlen.
  assert (Hkb : bytes (key_blob name numbers)) by (unfold key_blob; repeat apply Forall_app_2; [apply store32h_bytes|done|done]).
  assert (Hkl : zlen (key_blob name numbers) <= 2 ^ 20).
  { pose proof (encode_chars_len (key_blob name numbers)) as Hlen. fold text in Hlen. change (2 ^ 20) with 1048576. Z.div_mod_to_equations. lia. }
  destruct (cmp_base64_key_ok keyblob name name numbers b5 pre2 _ Hkb Hkl Hb5) as (ok & E6 & Hok). exists ok, b5.
  rewrite (bind_ok _ _ _ _ _ E6). split; [done|]. split; [|rewrite Hok; tauto].
  exists pre2, text, (b_size b4 - (zlen pre2 + zlen text)). split; [done|]. rewrite (br_size _ _ _ _ Hb5). lia.
Qed.

(** The start of a line, for the comparison with the algorithm. *)
Lemma first_seven name l b pre room : name ∈ key_names -> MIN_AUTHKEYS_LINE <= zlen l -> buf_repr b pre l room ->
  at_algo (name ++ [0]) (zlen name) b = Ok (bool_decide (ztake 7 l = name), b).
Proof.
  intros Hname Hm Hb. unfold MIN_AUTHKEYS_LINE in Hm. destruct (key_name_facts name Hname) as (Hl & H0 & _).
  rewrite <-(ztake_zdrop 7 l) in Hb. apply (at_algo_run name b pre (ztake 7 l) (zdrop 7 l) room); [done| |done]. rewrite Hl. apply zlen_ztake. lia.
Qed.

Lemma options_line name o next b room : name ∈ key_names -> options_field o -> bytes o -> MIN_AUTHKEYS_LINE <= zlen (o ++ 32 :: next) ->
  ztake 7 (o ++ 32 :: next) <> name -> buf_repr b [] (o ++ 32 :: next) room -> b_size b <= MAX_AUTHKEYS_LINE ->
  exists b', buf_repr b' (o ++ [32]) next room /\
    if bool_decide (7 <= zlen next /\ ztake 7 next = name) then
      exists ob room', line_options (name ++ [0]) (zlen name) b = Ok (Some (Some ob), b') /\ buf_repr ob o [] room'
    else line_options (name ++ [0]) (zlen name) b = Ok (None, b').
Proof.
  intros Hname (Hone & c & o' & Eo & Hc & Hc35) Hby Hmin Hne Hb Hsize. unfold MAX_AUTHKEYS_LINE in Hsize. destruct (key_name_facts name Hname) as (Hl & H0 & _).
  pose proof (br_len _ _ _ _ Hb) as Hlen. pose proof (br_size _ _ _ _ Hb) as Hsz. pose proof (br_room _ _ _ _ Hb) as Hroom. rewrite zlen_nil, zlen_app, zlen_cons in Hlen, Hsz.
  pose proof (zlen_nonneg o). pose proof (zlen_nonneg next).
  unfold line_options. rewrite (bind_ok _ _ _ _ _ (first_seven name (o ++ 32 :: next) b [] room Hname Hmin Hb)), (bool_decide_eq_false_2 (ztake 7 (o ++ 32 :: next) = name)) by done.
  rewrite (bind_ok _ _ _ b b) by reflexivity. cbn zeta.
  assert (Hf : (length o < Z.to_nat (b_len b))%nat) by (unfold zlen in *; lia).
  destruct (skip_loop_run (Z.to_nat (b_len b)) [] c (o' ++ 32 :: next) b [] room ltac:(cbn; lia) ltac:(constructor) Hc) as (b1 & E1 & Hb1); [cbn [app]; by rewrite Eo in Hb|].
  rewrite bool_decide_eq_false_2 in E1, Hb1 by done. cbn [app] in Hb1. rewrite (bind_ok _ _ _ _ _ E1).
  rewrite (bind_ok _ _ _ _ _ (repr_getptr b1 [] [c] (o' ++ 32 :: next) room 1 eq_refl Hb1)), (br_pos _ _ _ _ Hb1).
  change (c :: o' ++ 32 :: next) with ((c :: o') ++ 32 :: next) in Hb1. rewrite <-Eo in Hb1.
  destruct (options_end_run (Z.to_nat (b_len b)) false false o 32 next 0 b1 [] room Hf Hone eq_refl Hb1) as (b2 & E2 & Hb2). cbn [app] in Hb2. rewrite Z.add_0_l in E2.
  rewrite (bind_ok _ _ _ _ _ E2). destruct (repr_buf_new (zlen o) b2) as (ob0 & E3 & Hob0); [unfold BUF_MAX_SIZE; lia|]. rewrite (bind_ok _ _ _ _ _ E3).
  rewrite (bind_ok _ _ _ _ _ (repr_load_at b2 [] o [32] next room Hb2)).
  destruct (repr_putbytes ob0 [] [] (zlen o) o (zlen o) eq_refl Hob0 Hby ltac:(rewrite zlen_nil; lia)) as (ob & E4 & Hob). rewrite append_post, append_room in Hob by lia. cbn [app] in Hob.
  rewrite (bind_ok _ _ _ (tt, ob) b2) by (unfold on; by rewrite E4). rewrite (bind_ok _ _ _ b2 b2) by reflexivity.
  rewrite (br_pos _ _ _ _ Hb2), (br_len _ _ _ _ Hb2), zlen_app, Hl. change (zlen [32]) with 1. rewrite u32_small by (unfold is_u32; lia).
  exists b2. split; [done|]. rewrite Z.gtb_ltb. destruct (Z.ltb_spec (zlen o + 1 + zlen next) (zlen o + 1 + 7)) as [Hs|Hs].
  - rewrite bool_decide_eq_false_2 by lia. done.
  - assert (Hb2' := Hb2). rewrite <-(ztake_zdrop 7 next) in Hb2'.
    assert (Eat : at_algo (name ++ [0]) (zlen name) b2 = Ok (bool_decide (ztake 7 next = name), b2)).
    { apply (at_algo_run name b2 (o ++ [32]) (ztake 7 next) (zdrop 7 next) room); [done| |done]. rewrite Hl. apply zlen_ztake. lia. }
    rewrite Hl in Eat. rewrite (bind_ok _ _ _ _ _ Eat).
    rewrite (bool_decide_ext (7 <= zlen next /\ ztake 7 next = name) (ztake 7 next = name)) by (split; [tauto|intros; split; [lia|done]]).
    case_bool_decide; [|done]. exists ob. eexists. split; [done|exact Hob].
Qed.

Lemma key_text_take name numbers comment : name ∈ key_names -> ztake 7 (key_text name numbers comment) = name.
Proof. intros H. destruct (key_name_facts name H) as (Hl & _). unfold key_text. rewrite <-Hl at 1. apply ztake_app_zlen. Qed.

Lemma key_text_length name numbers comment : name ∈ key_names -> MIN_AUTHKEYS_LINE <= zlen (key_text name numbers comment).
Proof.
  intros H. destruct (key_name_facts name H) as (Hl & _). destruct (encode_blob_start name numbers Hl) as (r & E).
  unfold key_text, MIN_AUTHKEYS_LINE. rewrite zlen_app, zlen_cons, zlen_app, encode_chars_len, Hl. unfold key_blob. rewrite !zlen_app, zlen_store32h, Hl.
  pose proof (zlen_nonneg numbers). pose proof (zlen_nonneg comment). Z.div_mod_to_equations. lia.
Qed.

Lemma text_not_name name numbers comment k : k ∈ key_names -> name ∈ key_names -> ztake 7 (encode_chars (key_blob name numbers) ++ comment) <> k.
Proof.
  intros Hk Hn. destruct (key_name_facts name Hn) as (Hl & _). destruct (encode_blob_start name numbers Hl) as (r & ->).
  destruct (key_name_facts k Hk) as (_ & _ & _ & _ & _ & k' & ->). unfold ztake. cbn. by intros [= E _].
Qed.

(** The outcome of a line: whether it lets the key in, and what becomes of the
    options. *)
Definition line_outcome (name keyblob : list Z) (l : auth_line) (r : bool * option (option PubKeyOptions)) : Prop :=
  if fst r then grants name keyblob l (mjoin (snd r)) else (forall p, ~ grants name keyblob l p) /\ mjoin (snd r) = None.

Lemma check_key_line name keyblob n numbers comment b pre room (ob : option buffer) opts :
  name ∈ key_names -> n = name -> bytes numbers -> (comment = [] \/ exists c, comment = 32 :: c) ->
  buf_repr b pre (key_text n numbers comment) room -> b_size b <= MAX_AUTHKEYS_LINE ->
  match ob, opts with Some ob, Some o => exists room', buf_repr ob o [] room' | None, None => True | _, _ => False end ->
  exists r b', (same <- compare_key (name ++ [0]) (zlen name) keyblob ;;
    if same : bool then
      match ob with
      | None => ret (true, None)
      | Some ob => y <- on ob svr_add_pubkey_options ;; ret (bool_decide (is_Some (fst y)), Some (fst y))
      end
    else ret (false, None)) b = Ok (r, b') /\ sized b' (b_size b) /\ line_outcome name keyblob (KeyLine opts n numbers comment) r.
Proof.
  intros Hname -> Hby Hcomment Hb Hsize Hob.
  destruct (compare_key_run name numbers comment keyblob b pre room Hname Hby Hcomment Hb Hsize) as (same & b1 & E1 & Hs1 & Hsame).
  destruct same.
  2: { exists (false, None), b1. rewrite (bind_ok _ _ _ _ _ E1). split; [done|]. split; [done|]. split; [|done]. cbn.
       intros p Hg. assert (Hk : keyblob = key_blob name numbers) by (by inversion Hg). by apply Hsame in Hk. }
  destruct ob as [ob|], opts as [o|]; try done.
  - destruct Hob as (room' & Hob). destruct (svr_add_pubkey_options_ok ob o [] room' Hob) as (x & ob' & E2 & Hx). rewrite app_nil_r in Hx.
    exists (bool_decide (is_Some x), Some x), b1. rewrite (bind_ok _ _ _ _ _ E1), (bind_ok _ _ _ (x, ob') b1) by (unfold on; by rewrite E2).
    split; [done|]. split; [done|]. unfold line_outcome. cbn [fst snd]. destruct x as [x|]; cbn.
    + destruct (proj1 (Hx x) eq_refl) as (os & Hos & ->). apply grants_options; [by apply Hsame|done].
    + split; [|done]. intros p Hg. inversion Hg; subst. assert (Hbad : @None PubKeyOptions = Some (fold_left option_effect os fresh_options)) by (apply Hx; by exists os). done.
  - exists (true, None), b1. rewrite (bind_ok _ _ _ _ _ E1). split; [done|]. split; [done|]. apply grants_plain. by apply Hsame.
Qed.

Lemma check_line_ok name keyblob l b room : name ∈ key_names -> good_line l -> MIN_AUTHKEYS_LINE <= zlen (line_text l) ->
  buf_repr b [] (line_text l) room -> b_size b <= MAX_AUTHKEYS_LINE ->
  exists r b', check_line (name ++ [0]) (zlen name) keyblob b = Ok (r, b') /\ sized b' (b_size b) /\ line_outcome name keyblob l r.
Proof.
  intros Hname (_ & _ & Hby & Hl) Hmin Hb Hsize. unfold check_line.
  assert (Hno : forall b', (exists pre post, buf_repr b' pre post room /\ zlen pre + zlen post = zlen (line_text l)) -> (forall p, ~ grants name keyblob l p) ->
    line_options (name ++ [0]) (zlen name) b = Ok (None, b') -> exists r b', (x <- line_options (name ++ [0]) (zlen name) ;;
      match x with None => ret (false, None) | Some options_buf => same <- compare_key (name ++ [0]) (zlen name) keyblob ;;
        if same : bool then match options_buf with None => ret (true, None) | Some ob => y <- on ob svr_add_pubkey_options ;; ret (bool_decide (is_Some (fst y)), Some (fst y)) end
        else ret (false, None) end) b = Ok (r, b') /\ sized b' (b_size b) /\ line_outcome name keyblob l r).
  { intros b' (pre & post & Hb' & Hz) Hg E. exists (false, None), b'. rewrite (bind_ok _ _ _ _ _ E). split; [done|]. split; [|done].
    exists pre, post, room. split; [done|]. rewrite (br_size _ _ _ _ Hb'), (br_size _ _ _ _ Hb), zlen_nil. lia. }
  destruct l as [[o|] n numbers comment|blanks text|text]; cbn [line_text] in *.
  - destruct Hl as (Hn & Hnb & Hc & Ho & Hnot). apply Forall_app in Hby as [Hob _].
    destruct (options_line name o (key_text n numbers comment) b room Hname Ho Hob Hmin) as (b1 & Hb1 & H1); [intros E; by rewrite E in Hnot|done|done|].
    rewrite key_text_take in H1 by done. pose proof (key_text_length n numbers comment Hn) as Hkl. unfold MIN_AUTHKEYS_LINE in Hkl.
    rewrite (bool_decide_ext (7 <= zlen (key_text n numbers comment) /\ n = name) (n = name)) in H1 by (split; [tauto|intros; split; [lia|done]]).
    case_bool_decide as En.
    + destruct H1 as (ob & room' & E1 & Hob1). rewrite (bind_ok _ _ _ _ _ E1).
      assert (Hsz : b_size b1 = b_size b) by (rewrite (br_size _ _ _ _ Hb1), (br_size _ _ _ _ Hb), !zlen_app, !zlen_cons, !zlen_nil; lia).
      rewrite <-Hsz in Hsize |- *. apply (check_key_line name keyblob n numbers comment b1 (o ++ [32]) room (Some ob) (Some o)); [done|done|done|done|done|done|by exists room'].
    + apply (Hno b1); [exists (o ++ [32]), (key_text n numbers comment); split; [done|rewrite !zlen_app, !zlen_cons, zlen_nil; lia]|by intros p Hg; inversion Hg; subst|done].
  - destruct Hl as (Hn & Hnb & Hc & _). destruct (decide (n = name)) as [->|En].
    + assert (E1 : line_options (name ++ [0]) (zlen name) b = Ok (Some None, b)).
      { unfold line_options. rewrite (bind_ok _ _ _ _ _ (first_seven name _ b [] room Hname Hmin Hb)), bool_decide_eq_true_2 by (by apply key_text_take). done. }
      rewrite (bind_ok _ _ _ _ _ E1). by eapply (check_key_line name keyblob name numbers comment b [] room None None).
    + destruct (key_name_facts n Hn) as (Hnl & _ & _ & Hnby & Hnf & _).
      destruct (options_line name n (encode_chars (key_blob n numbers) ++ comment) b room Hname Hnf Hnby Hmin) as (b1 & Hb1 & H1); [change (ztake 7 (key_text n numbers comment) <> name); by rewrite key_text_take|done|done|].
      rewrite bool_decide_eq_false_2 in H1 by (intros [_ E]; by apply text_not_name in E).
      apply (Hno b1); [eexists _, _; split; [exact Hb1|unfold key_text; rewrite !zlen_app, !zlen_cons, zlen_nil, !zlen_app; lia]|by intros p Hg; inversion Hg; subst|done].
  - destruct Hl as (Hbl & _). destruct (key_name_facts name Hname) as (Hnl & H0 & _ & _ & _ & n' & En).
    assert (Hne : ztake 7 (blanks ++ 35 :: text) <> name).
    { rewrite En. destruct Hbl as [|x bl Hx _]; unfold ztake; cbn; [by intros [= ?]|]. intros [= -> _]. done. }
    assert (Hf : (length blanks < Z.to_nat (b_len b))%nat) by (rewrite (br_len _ _ _ _ Hb), zlen_nil, zlen_app, zlen_cons; pose proof (zlen_nonneg text); unfold zlen in *; lia).
    destruct (skip_loop_run (Z.to_nat (b_len b)) blanks 35 text b [] room Hf Hbl eq_refl Hb) as (b1 & E1 & Hb1). rewrite bool_decide_eq_true_2 in E1, Hb1 by done.
    apply (Hno b1); [eexists _, _; split; [exact Hb1|rewrite !zlen_app, !zlen_cons, zlen_nil; lia]|by intros p Hg; inversion Hg|].
    unfold line_options. rewrite (bind_ok _ _ _ _ _ (first_seven name _ b [] room Hname Hmin Hb)), (bool_decide_eq_false_2 (ztake 7 _ = _)) by done.
    rewrite (bind_ok _ _ _ b b) by reflexivity. cbn zeta. by rewrite (bind_ok _ _ _ _ _ E1).
  - unfold MIN_AUTHKEYS_LINE in *. lia.
Qed.

(** ** The file *)

Definition file_text (lines : list auth_line) : list Z := concat (map (fun l => line_text l ++ [10]) lines).

(** What the search decides: the first line that lets the key in. *)
Definition search_outcome (name keyblob : list Z) (lines : list auth_line) (ok : bool) (options : option PubKeyOptions) : Prop :=
  if ok then exists before l after, lines = before ++ l :: after /\
    Forall (fun l => forall p, ~ grants name keyblob l p) before /\ grants name keyblob l options
  else Forall (fun l => forall p, ~ grants name keyblob l p) lines.

Lemma short_line_grants name keyblob l p : good_line l -> zlen (line_text l) < MIN_AUTHKEYS_LINE -> ~ grants name keyblob l p.
Proof.
  intros (_ & _ & _ & Hl) Hs Hg. destruct Hg as [numbers comment _|o os numbers comment _ _]; cbn [line_text] in *; destruct Hl as (Hn & _).
  - pose proof (key_text_length name numbers comment Hn). lia.
  - pose proof (key_text_length name numbers comment Hn). rewrite zlen_app, zlen_cons in Hs. pose proof (zlen_nonneg o). lia.
Qed.

Lemma authfile_loop_ok name keyblob lines fuel opts b : name ∈ key_names -> Forall good_line lines ->
  sized b MAX_AUTHKEYS_LINE -> (length (file_text lines) < fuel)%nat -> mjoin opts = None ->
  exists ok opts' b', authfile_loop fuel (name ++ [0]) (zlen name) keyblob (file_text lines) opts b = Ok ((ok, opts'), b') /\
    search_outcome name keyblob lines ok (mjoin opts') /\ (ok = false -> mjoin opts' = None).
Proof.
  intros Hname Hgood. revert fuel opts b. induction Hgood as [|l lines Hl Hgood IH]; intros fuel opts b Hb Hf Hopts; destruct fuel as [|fuel]; try (cbn in Hf; lia).
  - destruct (getline_eof b MAX_AUTHKEYS_LINE Hb eq_refl) as (b' & E & _). exists false, opts, b'. cbn [authfile_loop file_text concat map].
    rewrite (bind_ok _ _ _ _ _ E). split; [done|]. split; [constructor|done].
  - pose proof Hl as (Hlen & Heol & Hby & _). unfold file_text in *. cbn [map concat] in Hf |- *. rewrite <-app_assoc. rewrite !length_app in Hf. cbn [length] in Hf. cbn [app].
    destruct (getline_line (line_text l) (10 :: file_text lines) b MAX_AUTHKEYS_LINE Hb Heol Hby Hlen) as (b1 & E1 & Hb1); [left; by exists 10, (file_text lines); split; [|left]|].
    unfold file_text in *. cbn [tl] in E1. cbn [authfile_loop]. rewrite (bind_ok _ _ _ _ _ E1). cbn [negb]. rewrite (bind_ok _ _ _ b1 b1) by reflexivity.
    pose proof (br_size _ _ _ _ Hb1) as Hsz. pose proof (br_len _ _ _ _ Hb1) as Hl1. rewrite zlen_nil in Hsz, Hl1. rewrite Hl1, Z.add_0_l.
    assert (Hext : forall ok p, (forall q, ~ grants name keyblob l q) -> search_outcome name keyblob lines ok p -> search_outcome name keyblob (l :: lines) ok p).
    { intros [] p Hno; unfold search_outcome; [|by constructor]. intros (before & l' & after & -> & Hb' & Hg). exists (l :: before), l', after. split_and!; [done|by constructor|done]. }
    destruct (Z.ltb_spec (zlen (line_text l)) MIN_AUTHKEYS_LINE) as [Hs|Hs].
    + destruct (IH fuel opts b1) as (ok & opts' & b2 & E2 & H2 & Ho2); [eexists _, _, _; split; [exact Hb1|lia]|lia|done|].
      exists ok, opts', b2. split; [done|]. split; [|done]. apply Hext; [|done]. intros q. by apply short_line_grants.
    + destruct (check_line_ok name keyblob l b1 _ Hname Hl Hs Hb1 ltac:(lia)) as ([ok up] & b2 & E2 & Hb2 & Hout). rewrite (bind_ok _ _ _ _ _ E2).
      unfold line_outcome in Hout. cbn [fst snd] in *. destruct ok.
      * exists true, (later opts up), b2. split; [done|]. split; [|done]. exists [], l, lines. split_and!; [done|constructor|].
        destruct up; [done|]. cbn [later]. by rewrite Hopts.
      * destruct Hout as [Hno Hup]. assert (Hb2' : sized b2 MAX_AUTHKEYS_LINE) by (by replace MAX_AUTHKEYS_LINE with (b_size b1) by lia).
        destruct (IH fuel (later opts up) b2 Hb2' ltac:(lia)) as (ok & opts' & b3 & E3 & H3 & Ho3); [by destruct up|].
        exists ok, opts', b3. split; [done|]. split; [|done]. by apply Hext.
Qed.

Lemma search_authfile_ok {S} name keyblob lines (s : S) : name ∈ key_names -> Forall good_line lines ->
  exists ok opts, search_authfile (name ++ [0]) (zlen name) keyblob (file_text lines) s = Ok ((ok, opts), s) /\
    search_outcome name keyblob lines ok (mjoin opts) /\ (ok = false -> mjoin opts = None).
Proof.
  intros Hname Hgood. destruct (repr_buf_new MAX_AUTHKEYS_LINE s) as (b & E & Hb); [by vm_compute|].
  destruct (authfile_loop_ok name keyblob lines (Datatypes.S (length (file_text lines))) None b Hname Hgood) as (ok & opts & b' & E' & Hout); [|lia|done|].
  { exists [], [], MAX_AUTHKEYS_LINE. split; [done|]. by rewrite (br_size _ _ _ _ Hb). }
  exists ok, opts. split; [|done]. unfold search_authfile. rewrite (bind_ok _ _ _ _ _ E). by rewrite (bind_ok _ _ _ ((ok, opts), b') s) by (unfold on; by rewrite E').
Qed.

(** ** Properties *)

(** C34: The options in front of a key.  svr_add_pubkey_options accepts exactly
    the texts of the grammar [options_text] (the five options, in any case,
    with commas between them, a command up to the first quote that is not
    escaped), and then the flags and the command are the effect of the options
    one after another on zeroed flags; it never faults, exits or runs on. *)
Theorem pubkey_options_decided b pre post room : buf_repr b pre post room ->
  exists r b', svr_add_pubkey_options b = Ok (r, b') /\
    forall o, r = Some o <-> exists os, options_text (pre ++ post) os /\ o = fold_left option_effect os fresh_options.
Proof. apply svr_add_pubkey_options_ok. Qed.

Definition sample_options : list Z := Eval cbv in chars "no-pty,NO-Port-Forwarding,command=" ++ [34] ++ chars "ls -l" ++ [34].

Lemma pubkey_options_decided_witness :
  exists r b', svr_add_pubkey_options (packed_buffer sample_options) = Ok (r, b') /\
    forall o, r = Some o <-> exists os, options_text ([] ++ sample_options) os /\ o = fold_left option_effect os fresh_options.
Proof. apply (pubkey_options_decided (packed_buffer sample_options) [] sample_options 0), packed_buffer_repr; [apply (bool_decide_eq_true_1 _)|]; by vm_compute. Defined.

Example sample_options_parsed : exists b', svr_add_pubkey_options (packed_buffer sample_options) =
  Ok (Some (mkpko true false false true (Some (chars "ls -l" ++ [0]))), b').
Proof. eexists. vm_compute. reflexivity. Qed.

(** C32: The search in authorized_keys.  For a file of key lines (with or
    without options and a comment), comment lines and lines too short to be
    keys, each shorter than the line buffer, the search lets the key in exactly
    when some line lists this algorithm and this blob with options that parse,
    and it leaves the options of the first such line, or none; it ends, and
    neither faults nor exits. *)
Theorem authorized_keys_decided {S} (name keyblob : list Z) (lines : list auth_line) (s : S) :
  name ∈ key_names -> Forall good_line lines ->
  exists ok opts, search_authfile (name ++ [0]) (zlen name) keyblob (file_text lines) s = Ok ((ok, opts), s) /\
    search_outcome name keyblob lines ok (mjoin opts) /\ (ok = false -> mjoin opts = None).
Proof. apply search_authfile_ok. Qed.

Definition sample_numbers : list Z := [0; 0; 0; 1; 3; 0; 0; 0; 1; 7].
Definition sample_lines : list auth_line :=
  [CommentLine [32] (chars " keys of the lab"); ShortLine []; KeyLine None (chars SSH_SIGNKEY_DSS) sample_numbers [];
   KeyLine (Some sample_options) (chars SSH_SIGNKEY_RSA) sample_numbers (chars " me@here")].

Lemma sample_good : Forall good_line sample_lines.
Proof.
  assert (Hc : forall l, forallb (fun c => bool_decide (~ eol c /\ is_byte c)) l = true -> Forall (fun c => ~ eol c) l /\ bytes l).
  { intros l H. rewrite forallb_forall in H. split; apply Forall_forall; intros c Hc%list_elem_of_In; specialize (H c Hc); by apply bool_decide_eq_true_1 in H as []. }
  assert (Hg : forall l, zlen (line_text l) < MAX_AUTHKEYS_LINE -> forallb (fun c => bool_decide (~ eol c /\ is_byte c)) (line_text l) = true ->
    match l with
    | KeyLine o name numbers comment => name ∈ key_names /\ bytes numbers /\ (comment = [] \/ exists c, comment = 32 :: c) /\
        match o with Some o => options_field o /\ ztake 7 (line_text l) ∉ key_names | None => True end
    | CommentLine blanks text => Forall (fun c => blank c = true) blanks /\ MIN_AUTHKEYS_LINE <= zlen (line_text l)
    | ShortLine text => zlen text < MIN_AUTHKEYS_LINE
    end -> good_line l).
  { intros l H1 H2%Hc H3. split; [done|]. split; [apply H2|]. split; [apply H2|exact H3]. }
  unfold sample_lines; rewrite !Forall_cons, Forall_nil; split_and!; try done; apply Hg; try (by vm_compute).
  - split; [by repeat constructor|by vm_compute].
  - split; [by right; left|]. split; [apply (bool_decide_eq_true_1 _); by vm_compute|]. split; [by left|done].
  - split; [by left|]. split; [apply (bool_decide_eq_true_1 _); by vm_compute|]. split; [right; by eexists|].
    split; [split; [by vm_compute|by do 2 eexists]|]. apply (bool_decide_eq_true_1 _). by vm_compute.
Qed.

Lemma authorized_keys_decided_witness : let name := chars SSH_SIGNKEY_RSA in
  exists ok opts, search_authfile (name ++ [0]) (zlen name) (key_blob name sample_numbers) (file_text sample_lines) tt = Ok ((ok, opts), tt) /\
    search_outcome name (key_blob name sample_numbers) sample_lines ok (mjoin opts) /\ (ok = false -> mjoin opts = None).
Proof. apply (authorized_keys_decided (chars SSH_SIGNKEY_RSA) (key_blob (chars SSH_SIGNKEY_RSA) sample_numbers) sample_lines tt); [by left|exact sample_good]. Defined.

Example sample_found : search_authfile (chars SSH_SIGNKEY_RSA ++ [0]) 7 (key_blob (chars SSH_SIGNKEY_RSA) sample_numbers) (file_text sample_lines) tt =
  Ok ((true, Some (Some (mkpko true false false true (Some (chars "ls -l" ++ [0]))))), tt).
Proof. vm_compute. reflexivity. Qed.

(** A line that is too long is not ignored, as the comment says.  When a
    line of the file has at least as many bytes as the buffer holds, what the
    search does from there is what it does on a file that starts after the
    first 4200 of them: the rest of the long line counts as a line. *)
Theorem long_line_continues fuel algo algolen keyblob opts (l rest : list Z) b :
  sized b MAX_AUTHKEYS_LINE -> Forall (fun c => ~ eol c) l -> bytes l -> zlen l = MAX_AUTHKEYS_LINE ->
  exists b', sized b' MAX_AUTHKEYS_LINE /\
    authfile_loop (S fuel) algo algolen keyblob (l ++ rest) opts b = authfile_loop fuel algo algolen keyblob rest opts b'.
Proof.
  intros Hb Hl Hby Hn. destruct (getline_long l rest b MAX_AUTHKEYS_LINE Hb Hl Hby Hn eq_refl) as (b1 & E1 & Hb1). exists b1. split.
  - exists [], [], MAX_AUTHKEYS_LINE. split; [done|]. by rewrite (br_size _ _ _ _ Hb1).
  - cbn [authfile_loop]. rewrite (bind_ok _ _ _ _ _ E1). cbn [negb]. rewrite (bind_ok _ _ _ b1 b1) by reflexivity. by rewrite (br_len _ _ _ _ Hb1).
Qed.

(** A comment of 4200 characters with a key at its end. *)
Definition long_comment : list Z := 35 :: replicate 4199 32.

Lemma long_line_continues_witness : let name := chars SSH_SIGNKEY_RSA in
  exists b', sized b' MAX_AUTHKEYS_LINE /\
    authfile_loop (S 100) (name ++ [0]) 7 (key_blob name sample_numbers) (long_comment ++ key_text name sample_numbers []) None (empty_buffer MAX_AUTHKEYS_LINE) =
    authfile_loop 100 (name ++ [0]) 7 (key_blob name sample_numbers) (key_text name sample_numbers []) None b'.
Proof.
  apply (long_line_continues 100 (chars SSH_SIGNKEY_RSA ++ [0]) 7 (key_blob (chars SSH_SIGNKEY_RSA) sample_numbers) None long_comment (key_text (chars SSH_SIGNKEY_RSA) sample_numbers []) (empty_buffer MAX_AUTHKEYS_LINE)).
  - exists [], [], MAX_AUTHKEYS_LINE. split; [by apply empty_buffer_repr|done].
  - apply (bool_decide_eq_true_1 _). by vm_compute.
  - apply (bool_decide_eq_true_1 _). by vm_compute.
  - by vm_compute.
Defined.

Example key_in_a_comment : search_authfile (chars SSH_SIGNKEY_RSA ++ [0]) 7 (key_blob (chars SSH_SIGNKEY_RSA) sample_numbers)
  (long_comment ++ key_text (chars SSH_SIGNKEY_RSA) sample_numbers []) tt = Ok ((true, None), tt).
Proof. vm_compute. reflexivity. Qed.

(** An escaped quote inside a command ends the quotes for the line's loop, so a
    blank after it cuts the command in two and the line is passed over. *)
Example escaped_quote_hides_key : search_authfile (chars SSH_SIGNKEY_RSA ++ [0]) 7 (key_blob (chars SSH_SIGNKEY_RSA) sample_numbers)
  (OPT_COMMAND ++ chars "say \" ++ [34] ++ chars " x" ++ [34; 32] ++ key_text (chars SSH_SIGNKEY_RSA) sample_numbers []) tt = Ok ((false, None), tt) /\
  options_text (OPT_COMMAND ++ (chars "say \" ++ [34] ++ chars " x") ++ [34]) [ForcedCommand (chars "say \" ++ [34] ++ chars " x")].
Proof. split; [by vm_compute|]. by constructor; constructor. Qed.
