(* ===== verification/KnownHosts.v ===== *)
(** The client's check of a host key: checkhostkey, ask_to_confirm and
    open_known_hosts_file of cli-kex.c, over the reading of lines (AuthKeys.v)
    and the comparison of keys (Base64.v).  The files, the terminal and what
    the C library answers are a state and a class; the check is what the key
    exchange calls (Kex.checkhostkey). *)

From S2P Require Import Prelude Dbutil Buffer Ssh Algo Mpint Packet MdHash Md5 Hashes Kex KexKeys KexHash Exptmod SignCommon Dss Rsa SignKey HostKey Base64 AuthKeys.
From stdpp Require Import gmap.

Local Open Scope Z_scope.
Local Open Scope prog_scope.

(** ** Code *)

Definition MAX_KNOWNHOSTS_LINE : Z := 4500.
Definition EACCES : Z := 13.
Definition EEXIST : Z := 17.
Definition EROFS : Z := 30.

(** The options of the command line that the check uses. *)
Record hostkey_opts := mkho { ho_remotehost : list Z; ho_always_accept_key : bool; ho_no_hostkey_check : bool }.

(** [getenv("HOME")], the directory [getpwuid(getuid())] gives, the errors of
    [mkdir] and of [fopen] for appending ([None]: it worked), and whether
    [fopen] for reading works on a file that exists. *)
Class HostsSystem := {
  home_env : option (list Z);
  home_passwd : option (list Z);
  mkdir_errno : list Z -> option Z;
  append_errno : list Z -> option Z;
  read_opens : list Z -> bool
}.

(** The files by name, what getc gives at the terminal the next times, and
    what was printed. *)
Record hosts := mkhosts { h_files : gmap (list Z) (list Z); h_answers : list Z; h_printed : list (list Z) }.

Definition set_h_files (x : gmap (list Z) (list Z)) (s : hosts) : hosts := mkhosts x (h_answers s) (h_printed s).
Definition set_h_answers (x : list Z) (s : hosts) : hosts := mkhosts (h_files s) x (h_printed s).

Definition say (text : list Z) : prog hosts unit := modify (fun s => mkhosts (h_files s) (h_answers s) (h_printed s ++ [text])).

(** [getc]: EOF when nothing is left. *)
Definition tty_getc : prog hosts Z :=
  t <- gets h_answers ;;
  match t with
  | [] => ret EOF
  | c :: t => modify (set_h_answers t) ;;; ret c
  end.

(** [snprintf(filename, size, "%s" "...", homedir)] *)
Definition snprintf_path (size : Z) (homedir path : list Z) : list Z := ztake (size - 1) (homedir ++ path).

Section KnownHosts.
Context `{HostsSystem} (cli_opts : hostkey_opts).

Definition ask_to_confirm (keyblob : list Z) : prog hosts unit :=
  fp <- sign_key_md5_fingerprint keyblob ;;
  let fp := c_string fp in
  if ho_always_accept_key cli_opts then
    say ([10] ++ chars "Host '" ++ ho_remotehost cli_opts ++ chars "' key accepted unconditionally." ++ [10] ++ chars "(fingerprint " ++ fp ++ chars ")" ++ [10])
  else
    say ([10] ++ chars "Host '" ++ ho_remotehost cli_opts ++ chars "' is not in the trusted hosts file." ++ [10] ++ chars "(fingerprint " ++ fp ++ chars ")" ++ [10]
         ++ chars "Do you want to continue connecting? (y/n) ") ;;;
    response <- tty_getc ;;
    if response =? 121 then ret tt else dropbear_exit "Didn't validate host key".

(** The name of the file, what can be read from it, and [readonly]; [None] is
    a null pointer. *)
Definition open_known_hosts_file : prog hosts (option (list Z * list Z * bool)) :=
  let homedir := match home_env with Some d => Some d | None => home_passwd end in
  match homedir with
  | None => fault "null pointer in a log message"
  | Some homedir =>
      let len := zlen homedir in
      let created := match mkdir_errno (snprintf_path (len + 18) homedir (chars "/.ssh")) with None => true | Some e => e =? EEXIST end in
      if negb created then ret None
      else
        let filename := snprintf_path (len + 18) homedir (chars "/.ssh/known_hosts") in
        files <- gets h_files ;;
        match append_errno filename with
        | None =>
            let contents := default [] (files !! filename) in
            modify (set_h_files (<[filename := contents]> files)) ;;;
            ret (Some (filename, contents, false))
        | Some errno =>
            if (errno =? EACCES) || (errno =? EROFS) then
              match files !! filename with
              | Some contents => if read_opens filename then ret (Some (filename, contents, true)) else ret None
              | None => ret None
              end
            else ret None
        end
  end.

(** The body of the loop for one line: [None] is [continue], [Some ret] is
    cmp_base64_key's verdict. *)
Definition host_line (algoname : list Z) (algolen : Z) (keyblob : list Z) : prog buffer (option bool) :=
  let host := ho_remotehost cli_opts in
  let hostlen := zlen host in
  line <- gets id ;;
  if b_len line <? u32 (hostlen + 30) then ret None
  else
    p <- getptr_bytes hostlen ;;
    if negb (strncmp_eq (Z.to_nat hostlen) host p) then ret None
    else
      buf_incrpos (s32 hostlen) ;;;
      c <- buf_getbyte ;;
      if negb (c =? 32) then ret None
      else
        p <- getptr_bytes algolen ;;
        if negb (strncmp_eq (Z.to_nat algolen) p algoname) then ret None
        else
          buf_incrpos (s32 algolen) ;;;
          c <- buf_getbyte ;;
          if negb (c =? 32) then ret None
          else
            x <- cmp_base64_key keyblob (ztake algolen algoname) true ;;
            ret (Some (fst x)).

(** The loop over the lines: whether a good key was found before the end of
    the file. *)
Fixpoint hosts_loop (fuel : nat) (algoname : list Z) (algolen : Z) (keyblob hostsfile : list Z) : prog buffer bool :=
  match fuel with
  | O => fault "fuel"
  | S fuel =>
      x <- buf_getline hostsfile ;;
      let '(got, hostsfile) := x in
      if negb got then ret false
      else
        v <- host_line algoname algolen keyblob ;;
        match v with
        | None => hosts_loop fuel algoname algolen keyblob hostsfile
        | Some true => ret true
        | Some false => dropbear_exit "Host key mismatch"
        end
  end.

(** The new entry, put together in [line]: the bytes given to fwrite. *)
Definition new_entry (algoname : list Z) (algolen : Z) (keyblob : list Z) : prog buffer (list Z) :=
  let host := ho_remotehost cli_opts in
  buf_setpos 0 ;;;
  buf_setlen 0 ;;;
  buf_putbytes host (zlen host) ;;;
  buf_putbyte 32 ;;;
  buf_putbytes algoname algolen ;;;
  buf_putbyte 32 ;;;
  line <- gets id ;;
  let len := u32 (b_size line - b_pos line) in
  p <- buf_getwriteptr len ;;
  let '(_, out, len) := base64_encode keyblob len in
  store_bytes p out ;;;
  buf_incrwritepos (u32 len) ;;;
  buf_putbyte 10 ;;;
  buf_setpos 0 ;;;
  n <- gets b_len ;;
  getptr_bytes n.

(** [type] is [ses.newkeys->algo_hostkey]. *)
Definition checkhostkey (type : Z) (keyblob : list Z) : prog hosts unit :=
  if ho_no_hostkey_check cli_opts then say (chars "Caution, skipping hostkey check for " ++ ho_remotehost cli_opts ++ [10])
  else
    hostsfile <- open_known_hosts_file ;;
    match hostsfile with
    | None => ask_to_confirm keyblob
    | Some (filename, contents, readonly) =>
        line <- buf_new MAX_KNOWNHOSTS_LINE ;;
        x <- signkey_name_from_type type ;;
        let '(algoname, algolen) := x in
        y <- on line (hosts_loop (Datatypes.S (length contents)) algoname algolen keyblob contents) ;;
        let '(found, line) := y in
        if found : bool then ret tt
        else
          ask_to_confirm keyblob ;;;
          if (readonly : bool) || ho_always_accept_key cli_opts then ret tt
          else
            entry <- on line (new_entry algoname algolen keyblob) ;;
            modify (fun s => set_h_files (alter (fun old => old ++ fst entry) filename (h_files s)) s)
    end.
End KnownHosts.

(** ** The lines of the file

    For a host and a name of an algorithm a line is an entry with the base64
    of a blob, or something else. *)

Lemma strncmp_eq_same n name p : length name = n -> length p = n -> 0 ∉ name -> strncmp_eq n name p = bool_decide (p = name).
Proof.
  revert name p. induction n as [|n IH]; intros [|x name] [|y p] Hn Hp H0; try done. cbn [strncmp_eq hd tl] in *. cbn in Hn, Hp.
  apply not_elem_of_cons in H0 as [Hx H0]. destruct (Z.eqb_spec x y) as [->|N]; cbn [andb].
  - rewrite (proj2 (Z.eqb_neq y 0)) by lia. cbn [orb]. rewrite IH by (done || lia). apply bool_decide_ext. split; [by intros ->|by intros [= ->]].
  - symmetry. apply bool_decide_eq_false. by intros [= ? ?].
Qed.

Section Lines.
Context (host name : list Z).

Inductive known_line :=
| OtherLine (text : list Z)
| KeyLine (n numbers : list Z).

Definition entry_text (blob : list Z) : list Z := host ++ 32 :: name ++ 32 :: encode_chars blob.

Definition known_text (l : known_line) : list Z :=
  match l with OtherLine text => text | KeyLine n numbers => entry_text (key_blob n numbers) end.

(** A line of a file that does not fill the buffer.  One that is not an entry
    is too short for one or does not start like one. *)
Definition good_known (l : known_line) : Prop :=
  zlen (known_text l) < MAX_KNOWNHOSTS_LINE /\ Forall (fun c => ~ eol c) (known_text l) /\ bytes (known_text l) /\
  match l with
  | OtherLine text => zlen text < zlen host + 30 \/ forall rest, text <> host ++ 32 :: name ++ 32 :: rest
  | KeyLine n numbers => zlen host + 30 <= zlen (known_text l) /\ bytes (key_blob n numbers)
  end.

Definition known_file (lines : list known_line) : list Z := concat (map (fun l => known_text l ++ [10]) lines).

(** The first entry, which alone counts. *)
Fixpoint first_entry (lines : list known_line) : option (list Z * list Z) :=
  match lines with
  | [] => None
  | KeyLine n numbers :: _ => Some (n, numbers)
  | OtherLine _ :: lines => first_entry lines
  end.

Definition matches (keyblob : list Z) (e : list Z * list Z) : bool := bool_decide (keyblob = key_blob (fst e) (snd e) /\ name = fst e).

Context `{HostsSystem} (cli_opts : hostkey_opts) (Hhost : ho_remotehost cli_opts = host) (Hclean : 0 ∉ host) (Hlen : zlen host <= MAX_KNOWNHOSTS_LINE) (Hname : name ∈ key_names).

(** The tests of a line that is long enough, with its text taken apart where
    they look at it. *)
Lemma host_line_run keyblob p x m y rest b room : buf_repr b [] (p ++ x :: m ++ y :: rest) room -> zlen p = zlen host -> zlen m = zlen name ->
  zlen host + 30 <= zlen (p ++ x :: m ++ y :: rest) ->
  (exists b', host_line cli_opts name (zlen name) keyblob b = Ok (None, b') /\ sized b' (b_size b)) /\ (p <> host \/ x <> 32 \/ m <> name \/ y <> 32) \/
  (p = host /\ x = 32 /\ m = name /\ y = 32 /\ exists b', buf_repr b' (p ++ x :: m ++ [y]) rest room /\
    host_line cli_opts name (zlen name) keyblob b = (x <- cmp_base64_key keyblob name true ;; ret (Some (fst x))) b').
Proof using All.
  intros Hb Hp Hm Hlong. destruct (key_name_facts name Hname) as (Hl7 & H0 & _). unfold MAX_KNOWNHOSTS_LINE in Hlen. pose proof (zlen_nonneg host).
  assert (Hsz : sized b (b_size b)) by (by exists [], (p ++ x :: m ++ y :: rest), room).
  unfold host_line. rewrite (bind_ok _ _ _ b b) by reflexivity. cbn zeta. rewrite Hhost, u32_small by (unfold is_u32; lia).
  rewrite (br_len _ _ _ _ Hb), zlen_nil, Z.add_0_l. z_guards.
  rewrite (bind_ok _ _ _ _ _ (repr_getptr_bytes b [] p _ room (zlen host) (eq_sym Hp) Hb)).
  rewrite strncmp_eq_same by (done || (unfold zlen in *; lia)). case_bool_decide as Ep; cbn [negb]; [subst p|left; split; [by exists b|tauto]].
  destruct (repr_incrpos b [] host (x :: m ++ y :: rest) room (s32 (zlen host))) with (2 := Hb) as (b1 & E1 & Hb1); [by apply s32_small; lia|]. rewrite (bind_ok _ _ _ _ _ E1). cbn [app] in Hb1.
  destruct (repr_getbyte _ _ _ _ _ Hb1) as (b2 & E2 & Hb2). rewrite (bind_ok _ _ _ _ _ E2).
  assert (Hs2 : b_size b2 = b_size b) by (rewrite (br_size _ _ _ _ Hb2), (br_size _ _ _ _ Hb), !zlen_app, !zlen_cons, !zlen_app, !zlen_cons, !zlen_nil; lia).
  destruct (Z.eqb_spec x 32) as [->|Nx]; cbn [negb]; [|left; split; [exists b2; split; [done|]; by exists (host ++ [x]), (m ++ y :: rest), room|tauto]].
  rewrite (bind_ok _ _ _ _ _ (repr_getptr_bytes b2 _ m _ room (zlen name) (eq_sym Hm) Hb2)).
  rewrite strncmp_eq_name, take_ge by (rewrite ?take_ge; done || (unfold zlen in *; lia)). case_bool_decide as Em; cbn [negb]; [subst m|left; split; [exists b2; split; [done|]; by exists (host ++ [32]), (m ++ y :: rest), room|tauto]].
  destruct (repr_incrpos b2 (host ++ [32]) name (y :: rest) room (s32 (zlen name))) with (2 := Hb2) as (b3 & E3 & Hb3); [by rewrite Hl7|]. rewrite (bind_ok _ _ _ _ _ E3).
  destruct (repr_getbyte _ _ _ _ _ Hb3) as (b4 & E4 & Hb4). rewrite (bind_ok _ _ _ _ _ E4).
  assert (Epre : ((host ++ [32]) ++ name) ++ [y] = host ++ 32 :: name ++ [y]) by (by rewrite <-!app_assoc). rewrite Epre in Hb4.
  assert (Hs4 : b_size b4 = b_size b) by (rewrite (br_size _ _ _ _ Hb4), (br_size _ _ _ _ Hb), !zlen_app, !zlen_cons, !zlen_app, !zlen_cons, !zlen_nil; lia).
  destruct (Z.eqb_spec y 32) as [->|Ny]; cbn [negb]; [|left; split; [exists b4; split; [done|]; by exists (host ++ 32 :: name ++ [y]), rest, room|tauto]].
  right. do 4 (split; [done|]). exists b4. split; [done|]. by rewrite ztake_all.
Qed.

Lemma long_text (text : list Z) : zlen host + 30 <= zlen text -> exists p x m y rest, text = p ++ x :: m ++ y :: rest /\ zlen p = zlen host /\ zlen m = zlen name.
Proof using Hname.
  destruct (key_name_facts name Hname) as (Hl7 & _). intros Hl. pose proof (zlen_nonneg host).
  exists (ztake (zlen host) text). assert (Hd : zlen (zdrop (zlen host) text) = zlen text - zlen host) by (apply zlen_zdrop; lia).
  destruct (zdrop (zlen host) text) as [|x r] eqn:E1; [rewrite zlen_nil in Hd; lia|]. rewrite zlen_cons in Hd. exists x, (ztake (zlen name) r).
  assert (Hd' : zlen (zdrop (zlen name) r) = zlen r - zlen name) by (apply zlen_zdrop; lia).
  destruct (zdrop (zlen name) r) as [|y rest] eqn:E2; [rewrite zlen_nil in Hd'; lia|]. exists y, rest.
  split; [by rewrite <-E2, ztake_zdrop, <-E1, ztake_zdrop|]. split; apply zlen_ztake; lia.
Qed.

Lemma host_line_other keyblob text b room : buf_repr b [] text room -> good_known (OtherLine text) ->
  exists b', host_line cli_opts name (zlen name) keyblob b = Ok (None, b') /\ sized b' (b_size b).
Proof using All.
  intros Hb (Hmax & _ & _ & Hun). cbn [known_text] in *. destruct (Z.lt_ge_cases (zlen text) (zlen host + 30)) as [Hs|Hge].
  - exists b. split; [|by exists [], text, room]. unfold host_line. rewrite (bind_ok _ _ _ b b) by reflexivity. cbn zeta.
    pose proof (zlen_nonneg host). unfold MAX_KNOWNHOSTS_LINE in *. rewrite Hhost, u32_small by (unfold is_u32; lia).
    rewrite (br_len _ _ _ _ Hb), zlen_nil, Z.add_0_l. by z_guards.
  - destruct (long_text text Hge) as (p & x & m & y & rest & -> & Hp & Hm).
    destruct (host_line_run keyblob p x m y rest b room Hb Hp Hm Hge) as [[Hno _]|(-> & -> & -> & -> & _)]; [exact Hno|].
    destruct Hun as [Hs|Hno]; [lia|by destruct (Hno rest)].
Qed.

Lemma host_line_key keyblob n numbers b room : buf_repr b [] (known_text (KeyLine n numbers)) room -> good_known (KeyLine n numbers) ->
  exists b', host_line cli_opts name (zlen name) keyblob b = Ok (Some (matches keyblob (n, numbers)), b') /\ sized b' (b_size b).
Proof using All.
  intros Hb (Hmax & _ & _ & Hlong & Hby). cbn [known_text] in *. unfold entry_text in *. unfold MAX_KNOWNHOSTS_LINE in *.
  destruct (host_line_run keyblob host 32 name 32 _ b room Hb eq_refl eq_refl Hlong) as [[_ Hno]|(_ & _ & _ & _ & b' & Hb' & E)]; [tauto|].
  assert (Hkl : zlen (key_blob n numbers) <= 2 ^ 20).
  { pose proof (encode_chars_len (key_blob n numbers)) as He. rewrite !zlen_app, !zlen_cons, !zlen_app, !zlen_cons, He in Hmax. pose proof (zlen_nonneg host). pose proof (zlen_nonneg name).
    change (2 ^ 20) with 1048576. Z.div_mod_to_equations. lia. }
  destruct (cmp_base64_key_run true keyblob name n numbers b' _ _ Hby Hkl Hb') as (ok & E6 & Hok). exists b'. split.
  - rewrite E, (bind_ok _ _ _ _ _ E6). unfold ret. do 3 f_equal. cbn [fst]. unfold matches. cbn [fst snd]. symmetry.
    destruct ok; [apply bool_decide_eq_true|apply bool_decide_eq_false]; tauto || (intros Hm; by apply Hok in Hm).
  - eexists _, _, room. split; [exact Hb'|]. rewrite (br_size _ _ _ _ Hb), (br_size _ _ _ _ Hb'), !zlen_app, !zlen_cons, !zlen_app, !zlen_cons, !zlen_nil. lia.
Qed.

(** The loop over the file: the verdict on its first entry. *)
Lemma hosts_loop_ok keyblob lines fuel b : Forall good_known lines -> sized b MAX_KNOWNHOSTS_LINE -> (length (known_file lines) < fuel)%nat ->
  match first_entry lines with
  | Some e => if matches keyblob e then exists b', hosts_loop cli_opts fuel name (zlen name) keyblob (known_file lines) b = Ok (true, b')
              else hosts_loop cli_opts fuel name (zlen name) keyblob (known_file lines) b = Exit "Host key mismatch"
  | None => exists b', hosts_loop cli_opts fuel name (zlen name) keyblob (known_file lines) b = Ok (false, b') /\ sized b' MAX_KNOWNHOSTS_LINE
  end.
Proof using All.
  intros Hgood. revert fuel b. induction Hgood as [|l lines Hl Hgood IH]; intros fuel b Hb Hf; destruct fuel as [|fuel]; try (cbn in Hf; lia).
  - destruct (getline_eof b MAX_KNOWNHOSTS_LINE Hb eq_refl) as (b' & E & Hb'). exists b'. cbn [hosts_loop known_file concat map].
    rewrite (bind_ok _ _ _ _ _ E). split; [done|]. exists [], [], MAX_KNOWNHOSTS_LINE. split; [done|]. by rewrite (br_size _ _ _ _ Hb').
  - pose proof Hl as (Hmax & Heol & Hby & _). unfold known_file in *. cbn [map concat] in Hf |- *. rewrite <-app_assoc. rewrite !length_app in Hf. cbn [length] in Hf. cbn [app].
    destruct (getline_line (known_text l) (10 :: known_file lines) b MAX_KNOWNHOSTS_LINE Hb Heol Hby Hmax) as (b1 & E1 & Hb1); [left; by exists 10, (known_file lines); split; [|left]|].
    unfold known_file in *. cbn [tl] in E1. cbn [hosts_loop]. rewrite (bind_ok _ _ _ _ _ E1). cbn [negb].
    assert (Hs1 : b_size b1 = MAX_KNOWNHOSTS_LINE) by (rewrite (br_size _ _ _ _ Hb1), zlen_nil; lia). destruct l as [text|n numbers]; cbn [first_entry].
    + destruct (host_line_other keyblob text b1 _ Hb1 Hl) as (b2 & E2 & Hb2). rewrite Hs1 in Hb2. rewrite (bind_ok _ _ _ _ _ E2). apply IH; [done|lia].
    + destruct (host_line_key keyblob n numbers b1 _ Hb1 Hl) as (b2 & E2 & Hb2). rewrite (bind_ok _ _ _ _ _ E2). destruct (matches keyblob (n, numbers)); [by exists b2|done].
Qed.

(** The entry that is added. *)
Lemma new_entry_ok keyblob b : sized b MAX_KNOWNHOSTS_LINE -> bytes host -> bytes keyblob -> zlen (entry_text keyblob) < MAX_KNOWNHOSTS_LINE ->
  exists b', new_entry cli_opts name (zlen name) keyblob b = Ok (entry_text keyblob ++ [10], b').
Proof using Hhost Hlen Hname.
  intros Hb Hhb Hkb Hfit. destruct (key_name_facts name Hname) as (Hl7 & _ & _ & Hnb & _). unfold entry_text in Hfit. rewrite !zlen_app, !zlen_cons, !zlen_app, !zlen_cons in Hfit.
  pose proof (zlen_nonneg host). pose proof (zlen_nonneg (encode_chars keyblob)) as He. unfold MAX_KNOWNHOSTS_LINE in *.
  destruct (repr_clear b _ Hb) as (b1 & b2 & E1 & E2 & Hb2). unfold new_entry. rewrite Hhost. rewrite (bind_ok _ _ _ _ _ E1), (bind_ok _ _ _ _ _ E2).
  destruct (repr_putbytes b2 [] [] 4500 host (zlen host) eq_refl Hb2 Hhb) as (b3 & E3 & Hb3); [rewrite zlen_nil; lia|]. rewrite append_post, append_room in Hb3 by lia. rewrite (bind_ok _ _ _ _ _ E3). cbn [app] in Hb3.
  destruct (repr_putbyte b3 host [] _ 32 Hb3) as (b4 & E4 & Hb4); [by vm_compute|rewrite zlen_nil; lia|]. rewrite append_post, append_room in Hb4 by lia. rewrite (bind_ok _ _ _ _ _ E4).
  destruct (repr_putbytes b4 _ [] _ name (zlen name) eq_refl Hb4 Hnb) as (b5 & E5 & Hb5); [rewrite zlen_nil; lia|]. rewrite append_post, append_room in Hb5 by lia. rewrite (bind_ok _ _ _ _ _ E5).
  destruct (repr_putbyte b5 _ [] _ 32 Hb5) as (b6 & E6 & Hb6); [by vm_compute|rewrite zlen_nil; lia|]. rewrite append_post, append_room in Hb6 by lia. rewrite (bind_ok _ _ _ _ _ E6).
  rewrite (bind_ok _ _ _ b6 b6) by reflexivity. cbn zeta. set (pre := ((host ++ [32]) ++ name) ++ [32]) in *. set (room := 4500 - zlen host - 1 - zlen name - 1) in *.
  pose proof (br_size _ _ _ _ Hb6) as Hs6. pose proof (br_pos _ _ _ _ Hb6) as Hp6. rewrite zlen_nil in Hs6.
  replace (u32 (b_size b6 - b_pos b6)) with room by (rewrite u32_small by (unfold is_u32; lia); lia).
  assert (Hw : 0 <= room <= zlen (@nil Z) + room) by (change (zlen (@nil Z)) with 0; lia). rewrite (bind_ok _ _ _ _ _ (repr_getwriteptr b6 pre [] room room Hb6 Hw)).
  unfold base64_encode. rewrite <-encode_chars_len. z_guards. cbv beta iota.
  destruct (repr_store b6 pre [] room (encode_chars keyblob ++ [0]) Hb6) as (b7 & E7 & Hp7 & Hl7' & Hs7 & Hby7 & rest & Hd & Hr).
  { apply Forall_app_2; [apply encode_chars_bytes|by apply Forall_singleton]. }
  { rewrite zlen_app. change (zlen [0]) with 1. change (zlen (@nil Z)) with 0. lia. }
  rewrite (bind_ok _ _ _ _ _ E7). rewrite u32_small by (unfold is_u32; lia). unfold room_after in Hr. rewrite zlen_app in Hr. change (zlen [0]) with 1 in Hr. change (zlen (@nil Z)) with 0 in Hr.
  pose proof (br_len _ _ _ _ Hb6) as Hl6. change (zlen (@nil Z)) with 0 in Hl6.
  destruct (repr_incrwritepos b7 pre [] room (zlen (encode_chars keyblob)) (encode_chars keyblob)) as (b8 & E8 & Hb8); change (zlen (@nil Z)) with 0; try (lia || done).
  { rewrite Hs7, Hs6. unfold BUF_MAX_SIZE. pose proof (zlen_nonneg pre). unfold room, pre. rewrite !zlen_app. change (zlen [32]) with 1. lia. }
  { exists ([0] ++ rest). split.
    - rewrite Hd, <-!app_assoc. unfold zdrop. by rewrite !drop_nil.
    - unfold room_after. rewrite zlen_app. change (zlen [0]) with 1. change (zlen (@nil Z)) with 0. lia. }
  rewrite append_post, append_room in Hb8 by lia. rewrite (bind_ok _ _ _ _ _ E8).
  destruct (repr_putbyte b8 _ [] _ 10 Hb8) as (b9 & E9 & Hb9); [by vm_compute|rewrite zlen_nil; lia|]. rewrite append_post, append_room in Hb9 by lia. rewrite (bind_ok _ _ _ _ _ E9).
  destruct (repr_rewind _ _ _ _ Hb9) as (b10 & E10 & Hb10). rewrite app_nil_r in Hb10. rewrite (bind_ok _ _ _ _ _ E10), (bind_ok _ _ _ (b_len b10) b10) by reflexivity. exists b10.
  assert (Et : (pre ++ encode_chars keyblob) ++ [10] = entry_text keyblob ++ [10]) by (unfold pre, entry_text; rewrite <-!app_assoc; cbn [app]; by rewrite <-!app_assoc). rewrite Et in Hb10.
  eapply repr_getptr_bytes; [by rewrite (br_len _ _ _ _ Hb10), zlen_nil|]. rewrite app_nil_r. exact Hb10.
Qed.
End Lines.

(** ** The whole check *)

Section Check.
Context `{HostsSystem} (cli_opts : hostkey_opts).

(** What ask_to_confirm shows when it asks. *)
Definition question (keyblob : list Z) : list Z :=
  [10] ++ chars "Host '" ++ ho_remotehost cli_opts ++ chars "' is not in the trusted hosts file." ++ [10] ++ chars "(fingerprint " ++
  c_string (md5_fingerprint keyblob) ++ chars ")" ++ [10] ++ chars "Do you want to continue connecting? (y/n) ".
Definition notice (keyblob : list Z) : list Z :=
  [10] ++ chars "Host '" ++ ho_remotehost cli_opts ++ chars "' key accepted unconditionally." ++ [10] ++ chars "(fingerprint " ++
  c_string (md5_fingerprint keyblob) ++ chars ")" ++ [10].

Definition printed (text : list Z) (s : hosts) : hosts := mkhosts (h_files s) (h_answers s) (h_printed s ++ [text]).

(** The state after the user has been asked. *)
Definition asked (keyblob : list Z) (s : hosts) : hosts := printed (question keyblob) (set_h_answers (tl (h_answers s)) s).

Lemma tty_getc_ok s : tty_getc s = Ok (default EOF (head (h_answers s)), set_h_answers (tl (h_answers s)) s).
Proof. by destruct s as [files [|c t] printed]. Qed.

Lemma ask_to_confirm_ok keyblob s : ask_to_confirm cli_opts keyblob s =
  if ho_always_accept_key cli_opts then Ok (tt, printed (notice keyblob) s)
  else if bool_decide (head (h_answers s) = Some 121) then Ok (tt, asked keyblob s) else Exit "Didn't validate host key".
Proof.
  unfold ask_to_confirm. rewrite (bind_ok _ _ _ _ _ (md5_fingerprint_ok keyblob s)). cbn zeta. destruct (ho_always_accept_key cli_opts); [done|].
  fold (question keyblob). rewrite (bind_ok _ _ _ tt (printed (question keyblob) s)) by done. rewrite (bind_ok _ _ _ _ _ (tty_getc_ok _)).
  cbn [printed h_answers]. unfold asked. destruct (h_answers s) as [|c t]; cbn [head tl default from_option id]; [done|].
  destruct (Z.eqb_spec c 121) as [->|N]; [done|]. by rewrite bool_decide_eq_false_2 by (by intros [= ?]).
Qed.

(** The file is opened the same way the next time, with what it holds then. *)
Lemma open_again s filename contents s1 s2 contents2 : open_known_hosts_file s = Ok (Some (filename, contents, false), s1) -> h_files s2 !! filename = Some contents2 ->
  open_known_hosts_file s2 = Ok (Some (filename, contents2, false), s2).
Proof.
  unfold open_known_hosts_file. destruct (match home_env with Some d => Some d | None => home_passwd end) as [home|]; [|done].
  cbn zeta. destruct (negb _); [done|]. set (f := snprintf_path (zlen home + 18) home (chars "/.ssh/known_hosts")).
  rewrite (bind_ok _ _ _ (h_files s) s), (bind_ok _ _ _ (h_files s2) s2) by done. destruct (append_errno f) as [e|].
  - destruct (_ || _); [|done]. destruct (h_files s !! f); [|done]. by destruct (read_opens f).
  - intros [= <- <- <-] E. rewrite E. cbn [default from_option id]. unfold bind, modify, ret, set_h_files. rewrite insert_id by done. by destruct s2.
Qed.

Lemma opened_file s filename contents s1 : open_known_hosts_file s = Ok (Some (filename, contents, false), s1) -> h_files s1 !! filename = Some contents.
Proof.
  unfold open_known_hosts_file. destruct (match home_env with Some d => Some d | None => home_passwd end) as [home|]; [|done].
  cbn zeta. destruct (negb _); [done|]. set (f := snprintf_path (zlen home + 18) home (chars "/.ssh/known_hosts")).
  rewrite (bind_ok _ _ _ (h_files s) s) by done. destruct (append_errno f) as [e|].
  - destruct (_ || _); [|done]. destruct (h_files s !! f); [|done]. by destruct (read_opens f).
  - intros [= <- <- <-]. cbn. by rewrite lookup_insert_eq.
Qed.

Context (type : Z) (name : list Z) (Htype : forall S (s : S), signkey_name_from_type type s = Ok ((name, zlen name), s)) (Hname : name ∈ key_names).
Abbreviation host := (ho_remotehost cli_opts).
Context (Hcheck : ho_no_hostkey_check cli_opts = false) (Hclean : 0 ∉ host) (Hlen : zlen host <= MAX_KNOWNHOSTS_LINE).

(** The state with the entry for a key at the end of the file. *)
Definition remembered (filename keyblob : list Z) (s : hosts) : hosts :=
  set_h_files (alter (fun old => old ++ entry_text host name keyblob ++ [10]) filename (h_files s)) s.

(** What the check makes of the first entry of the file, in the state [s1]
    after opening it. *)
Definition check_outcome (filename : list Z) (readonly : bool) (lines : list known_line) (keyblob : list Z) (s1 : hosts) : res (unit * hosts) :=
  match first_entry lines with
  | Some e => if matches name keyblob e then Ok (tt, s1) else Exit "Host key mismatch"
  | None =>
      if ho_always_accept_key cli_opts then Ok (tt, printed (notice keyblob) s1)
      else if bool_decide (head (h_answers s1) = Some 121) then Ok (tt, if readonly then asked keyblob s1 else remembered filename keyblob (asked keyblob s1))
      else Exit "Didn't validate host key"
  end.

Lemma checkhostkey_ok s filename readonly lines s1 keyblob :
  open_known_hosts_file s = Ok (Some (filename, known_file host name lines, readonly), s1) -> Forall (good_known host name) lines ->
  (first_entry lines = None -> bytes host /\ bytes keyblob /\ zlen (entry_text host name keyblob) < MAX_KNOWNHOSTS_LINE) ->
  checkhostkey cli_opts type keyblob s = check_outcome filename readonly lines keyblob s1.
Proof using All.
  intros Eo Hgood Hfit. unfold checkhostkey, check_outcome. rewrite Hcheck, (bind_ok _ _ _ _ _ Eo).
  destruct (repr_buf_new MAX_KNOWNHOSTS_LINE s1) as (b & E & Hb); [by vm_compute|]. rewrite (bind_ok _ _ _ _ _ E), (bind_ok _ _ _ _ _ (Htype _ s1)). cbv beta iota.
  assert (Hs : sized b MAX_KNOWNHOSTS_LINE) by (exists [], [], MAX_KNOWNHOSTS_LINE; split; [done|]; by rewrite (br_size _ _ _ _ Hb)).
  pose proof (hosts_loop_ok host name cli_opts eq_refl Hclean Hlen Hname keyblob lines (Datatypes.S (length (known_file host name lines))) b Hgood Hs ltac:(lia)) as Hloop.
  destruct (first_entry lines) as [e|].
  - destruct (matches name keyblob e).
    + destruct Hloop as (b' & El). by rewrite (bind_ok _ _ _ (true, b') s1) by (unfold on; by rewrite El).
    + unfold bind at 1, on at 1. by rewrite Hloop.
  - destruct Hloop as (b' & El & Hs'). rewrite (bind_ok _ _ _ (false, b') s1) by (unfold on; by rewrite El). cbv beta iota.
    unfold bind at 1. rewrite ask_to_confirm_ok. destruct (ho_always_accept_key cli_opts) eqn:Ea; [by rewrite orb_true_r|]. rewrite orb_false_r.
    case_bool_decide; [|done]. destruct readonly; [done|]. destruct Hfit as (Hhb & Hkb & Hfit); [done|].
    destruct (new_entry_ok host name cli_opts eq_refl Hlen Hname keyblob b' Hs' Hhb Hkb Hfit) as (b2 & E2).
    by rewrite (bind_ok _ _ _ (entry_text host name keyblob ++ [10], b2) (asked keyblob s1)) by (unfold on; by rewrite E2).
Qed.
(** A check that returns: the key is the one of the first entry, or there is
    no entry and the user, or the option, let it pass. *)
Definition vouched_for (lines : list known_line) (s1 : hosts) (keyblob : list Z) : Prop :=
  match first_entry lines with
  | Some (n, numbers) => keyblob = key_blob name numbers /\ name = n
  | None => ho_always_accept_key cli_opts = true \/ head (h_answers s1) = Some 121
  end.

Lemma checkhostkey_inv s filename readonly lines s1 s2 keyblob :
  open_known_hosts_file s = Ok (Some (filename, known_file host name lines, readonly), s1) -> Forall (good_known host name) lines ->
  checkhostkey cli_opts type keyblob s = Ok (tt, s2) -> vouched_for lines s1 keyblob.
Proof using All.
  intros Eo Hgood E. unfold vouched_for. destruct (first_entry lines) as [[n numbers]|] eqn:Ef.
  - rewrite (checkhostkey_ok s filename readonly lines s1 keyblob Eo Hgood) in E by congruence. unfold check_outcome in E. rewrite Ef in E.
    destruct (matches name keyblob (n, numbers)) eqn:Em; [|done]. apply bool_decide_eq_true in Em as [-> ->]. done.
  - destruct (ho_always_accept_key cli_opts) eqn:Ea; [by left|right].
    unfold checkhostkey in E. rewrite Hcheck, (bind_ok _ _ _ _ _ Eo) in E.
    destruct (repr_buf_new MAX_KNOWNHOSTS_LINE s1) as (b & Eb & Hb); [by vm_compute|]. rewrite (bind_ok _ _ _ _ _ Eb), (bind_ok _ _ _ _ _ (Htype _ s1)) in E. cbv beta iota in E.
    assert (Hs : sized b MAX_KNOWNHOSTS_LINE) by (exists [], [], MAX_KNOWNHOSTS_LINE; split; [done|]; by rewrite (br_size _ _ _ _ Hb)).
    pose proof (hosts_loop_ok host name cli_opts eq_refl Hclean Hlen Hname keyblob lines (Datatypes.S (length (known_file host name lines))) b Hgood Hs ltac:(lia)) as Hloop.
    rewrite Ef in Hloop. destruct Hloop as (b' & El & _). rewrite (bind_ok _ _ _ (false, b') s1) in E by (unfold on; by rewrite El). cbv beta iota in E.
    apply bind_inv in E as ([] & s3 & Eask & _). rewrite ask_to_confirm_ok, Ea in Eask. by case_bool_decide.
Qed.

Lemma first_entry_app lines n numbers : first_entry lines = None -> first_entry (lines ++ [KeyLine n numbers]) = Some (n, numbers).
Proof. induction lines as [|[text|m num] lines IH]; [done|exact IH|done]. Qed.

Lemma known_file_app lines n numbers : known_file host name (lines ++ [KeyLine n numbers]) = known_file host name lines ++ entry_text host name (key_blob n numbers) ++ [10].
Proof. unfold known_file. rewrite map_app, concat_app. cbn [map concat]. by rewrite app_nil_r. Qed.

(** The entry for a key is a good line. *)
Lemma new_entry_good numbers : bytes host -> Forall (fun c => ~ eol c) host -> bytes numbers -> 16 <= zlen (key_blob name numbers) ->
  zlen (entry_text host name (key_blob name numbers)) < MAX_KNOWNHOSTS_LINE -> good_known host name (KeyLine name numbers).
Proof using Hname Htype.
  intros Hhb Hhe Hnb Hsize Hfit. destruct (key_name_facts name Hname) as (Hl7 & _ & _ & Hnameb & _).
  assert (Hne : Forall (fun c => ~ eol c) name) by (revert Hname; unfold key_names; rewrite !elem_of_cons; intros [->|[->|[]%not_elem_of_nil]]; apply (bool_decide_eq_true_1 _); by vm_compute).
  assert (H32 : ~ eol 32) by (unfold eol; lia). assert (Hb32 : is_byte 32) by (by vm_compute).
  assert (Hbb : bytes (key_blob name numbers)) by (unfold key_blob; repeat apply Forall_app_2; [apply store32h_bytes|done|done]).
  split; [done|]. cbn [known_text]. split; [|split; [|split; [|done]]]; unfold entry_text.
  - apply Forall_app_2; [done|]. apply Forall_cons_2; [done|]. apply Forall_app_2; [done|]. apply Forall_cons_2; [done|apply encode_no_eol].
  - apply Forall_app_2; [done|]. apply Forall_cons_2; [done|]. apply Forall_app_2; [done|]. apply Forall_cons_2; [done|apply encode_chars_bytes].
  - rewrite !zlen_app, !zlen_cons, !zlen_app, !zlen_cons, encode_chars_len. Z.div_mod_to_equations. lia.
Qed.

(** ** Properties *)


End Check.

(** ** The check in the key exchange *)

Section Exchange.
Context {St Zs R : Type} `{CipherStart St} `{ZlibStreams Zs} `{Random R} `{RandomMp R} `{ExptModLaws} `{HostsSystem} (cli_opts : hostkey_opts) (type : Z) (s : hosts).

(** Whether the check of the client in the state [s] returns. *)
Definition checked (keyblob : list Z) : bool := match checkhostkey cli_opts type keyblob s with Ok _ => true | _ => false end.

#[local] Instance checking : Kex.SignKey sign_key R := dropbear_signkey checked.

(** C8: The key of an accepted reply was vouched for.  Whatever the server's
    reply holds, when the client accepts it then the check of the blob in it
    returned, or this was not the first exchange; the blob's key verified a
    signature over the hash of the exchange the client took part in; and in a
    first exchange, if known_hosts is open and has lines as above, the blob is
    the first entry for the host and algorithm, or there was none and the user
    answered y or asked for every key to be accepted. *)
Theorem accepted_key_was_vouched_for (c c' : kses sign_key St Zs R) nk name filename lines readonly s1 :
  recv_msg_kexdh_reply c = Ok (tt, c') -> x_newkeys c = Some nk -> kc_algo_hostkey nk = type ->
  (forall S (s : S), signkey_name_from_type type s = Ok ((name, zlen name), s)) -> name ∈ key_names ->
  ho_no_hostkey_check cli_opts = false -> (0 ∉ ho_remotehost cli_opts) -> zlen (ho_remotehost cli_opts) <= MAX_KNOWNHOSTS_LINE ->
  open_known_hosts_file s = Ok (Some (filename, known_file (ho_remotehost cli_opts) name lines, readonly), s1) ->
  Forall (good_known (ho_remotehost cli_opts) name) lines ->
  exists pl n pl1 blob hostkey pl2 f pl3 e x c2 pl4, x_payload c = Some pl /\ buf_getint pl = Ok (n, pl1) /\ getptr_bytes n pl1 = Ok (blob, pl1) /\
    Kex.buf_get_pub_key type pl1 = Ok (Some hostkey, pl2) /\ buf_getmpint pl2 = Ok (Some f, pl3) /\
    x_dh_e c = Some e /\ x_dh_x c = Some x /\ kexdh_comb_key e x f hostkey (set_x_payload (Some pl3) c) = Ok (tt, c2) /\
    SignKey.buf_verify hostkey (x_hash c2) pl3 = Ok (true, pl4) /\
    (ks_donefirstkex (x_kexstate c) = true \/ vouched_for cli_opts name lines s1 blob).
Proof.
  intros E Hnk Ht Htype Hname Hcheck Hclean Hlen Eo Hgood.
  destruct (accepted_reply_was_signed checked c c' E) as (nk' & pl & n & pl1 & blob & hostkey & pl2 & f & pl3 & e & x & c2 & pl4 & Hnk' & Hpl & E1 & E2 & Hk & E3 & E4 & Ee & Ex & E5 & E6).
  replace nk' with nk in * by congruence. rewrite Ht in E3. exists pl, n, pl1, blob, hostkey, pl2, f, pl3, e, x, c2, pl4. do 9 (split; [done|]).
  destruct Hk as [Hk|Hk]; [by left|right]. unfold checked in Hk. destruct (checkhostkey _ _ blob s) as [[[] s2]| |] eqn:Ec; [|done|done].
  by apply (checkhostkey_inv cli_opts type name Htype Hname Hcheck Hclean Hlen s filename readonly lines s1 s2 blob).
Qed.
End Exchange.

(** ** A home directory with known hosts *)

#[local] Instance bobs_home : HostsSystem := {
  home_env := Some (chars "/home/bob"); home_passwd := None; mkdir_errno _ := Some EEXIST; append_errno _ := None; read_opens _ := true }.

Definition lab_opts : hostkey_opts := mkho (chars "lab") false false.
Definition bobs_file : list Z := Eval vm_compute in chars "/home/bob/.ssh/known_hosts".
Definition rsa_name : list Z := Eval vm_compute in chars SSH_SIGNKEY_RSA.
(** The numbers of the key in HostKey.v's reply, and of another one. *)
Definition toy_numbers : list Z := Eval vm_compute in zdrop 11 (pub_bytes toy_priv DROPBEAR_SIGNKEY_RSA).
Definition other_numbers : list Z := [0; 0; 0; 1; 3; 0; 0; 0; 1; 7].
Definition home_with (text : list Z) (answers : list Z) : hosts := mkhosts (<[bobs_file := text]> ∅) answers [].
Definition old_lines : list known_line := [OtherLine (chars "# hosts"); OtherLine (chars "labrador ssh-rsa AAAAB3NzaC1yc2EAAAABAwAAAAEH")].
Definition lab_lines : list known_line := old_lines ++ [KeyLine rsa_name toy_numbers].

Lemma old_lines_good : Forall (good_known (chars "lab") rsa_name) old_lines.
Proof.
  repeat (apply Forall_cons_2; [split; [by vm_compute|split; [apply (bool_decide_eq_true_1 _); by vm_compute|split; [apply (bool_decide_eq_true_1 _); by vm_compute|]]]|]).
  - left. by vm_compute.
  - right. intros rest Hr. by vm_compute in Hr.
  - constructor.
Qed.

Lemma lab_lines_good : Forall (good_known (chars "lab") rsa_name) lab_lines.
Proof.
  apply Forall_app_2; [exact old_lines_good|]. apply Forall_singleton. split; [by vm_compute|]. split; [apply (bool_decide_eq_true_1 _); by vm_compute|].
  split; [apply (bool_decide_eq_true_1 _); by vm_compute|]. split; [by vm_compute|apply (bool_decide_eq_true_1 _); by vm_compute].
Qed.

Lemma home_opens text answers : open_known_hosts_file (home_with text answers) = Ok (Some (bobs_file, text, false), home_with text answers).
Proof.
  unfold open_known_hosts_file, home_with. cbn [home_env bobs_home mkdir_errno append_errno Z.eqb Pos.eqb EEXIST negb]. cbn zeta.
  assert (Ef : snprintf_path (zlen (chars "/home/bob") + 18) (chars "/home/bob") (chars "/.ssh/known_hosts") = bobs_file) by (by vm_compute). rewrite Ef.
  rewrite (bind_ok _ _ _ (<[bobs_file := text]> ∅ : gmap (list Z) (list Z)) (home_with text answers)) by done. rewrite lookup_insert_eq. cbn [default from_option id].
  unfold bind, modify, ret, set_h_files, home_with. cbn [h_answers h_printed]. by rewrite insert_insert_eq.
Qed.

Lemma rsa_type S (s : S) : signkey_name_from_type DROPBEAR_SIGNKEY_RSA s = Ok ((rsa_name, zlen rsa_name), s).
Proof. done. Qed.



#[local] Existing Instance counting_mpint.
#[local] Existing Instance no_zlib.
#[local] Existing Instance libtommath_exptmod.

Definition bobs_hosts : hosts := home_with (known_file (chars "lab") rsa_name lab_lines) [].
#[local] Instance bobs_check : Kex.SignKey sign_key Z := checking lab_opts DROPBEAR_SIGNKEY_RSA bobs_hosts.

Lemma accepted_key_was_vouched_for_witness : exists c', recv_msg_kexdh_reply toy_replied = Ok (tt, c') /\
  exists blob, ks_donefirstkex (x_kexstate toy_replied) = true \/ vouched_for lab_opts rsa_name lab_lines bobs_hosts blob.
Proof.
  assert (Hrun : is_ok (recv_msg_kexdh_reply toy_replied) = true) by (by vm_compute).
  destruct (recv_msg_kexdh_reply toy_replied) as [[[] c']| |] eqn:E; [|done|done]. exists c'. split; [reflexivity|].
  destruct (accepted_key_was_vouched_for lab_opts DROPBEAR_SIGNKEY_RSA bobs_hosts toy_replied c' toy_nk rsa_name bobs_file lab_lines false bobs_hosts E eq_refl eq_refl rsa_type
    ltac:(by left) eq_refl ltac:(by apply (bool_decide_eq_true_1 _); vm_compute) ltac:(by vm_compute) (home_opens _ _) lab_lines_good)
    as (pl & n & pl1 & blob & hostkey & pl2 & f & pl3 & e & x & c2 & pl4 & _ & _ & _ & _ & _ & _ & _ & _ & _ & H'). by exists blob.
Defined.

(** A file whose last line has no newline: the entry is put on that line, and
    the client asks about the key again. *)
Definition unended_home : hosts := home_with (chars "# hosts") [121; 110].
Example entry_lost_without_newline : (checkhostkey lab_opts DROPBEAR_SIGNKEY_RSA (key_blob rsa_name toy_numbers) ;;; checkhostkey lab_opts DROPBEAR_SIGNKEY_RSA (key_blob rsa_name toy_numbers)) unended_home
  = Exit "Didn't validate host key".
Proof. by vm_compute. Qed.

(** A comment after the key, as the format of the file allows: the key that is
    on file counts as another one. *)
Example comment_spoils_entry : checkhostkey lab_opts DROPBEAR_SIGNKEY_RSA (key_blob rsa_name toy_numbers)
    (home_with (entry_text (chars "lab") rsa_name (key_blob rsa_name toy_numbers) ++ chars " bob's lab" ++ [10]) []) = Exit "Host key mismatch".
Proof. by vm_compute. Qed.

(** Without a home directory the message that says so prints a null pointer. *)
Example no_home_faults : open_known_hosts_file (H := Build_HostsSystem None None (fun _ => None) (fun _ => None) (fun _ => true)) (mkhosts ∅ [] []) = Fault "null pointer in a log message".
Proof. by vm_compute. Qed.
