(* ===== verification/SvrAuth.v ===== *)
(** The server's authentication of users: svr-auth.c, svr-authpasswd.c,
    svr-authpubkey.c and svr-service.c, with fill_passwd of common-session.c.
    One definition per C function.  The system's functions (getpwnam, crypt,
    stat, fopen and others) are a class; encrypt_packet is what the packet
    layer does for its callers (Packet.encrypt_packet_ok); log messages and the
    fingerprint that goes into them are left out. *)

From S2P Require Import Prelude Dbutil Buffer Ssh Algo Mpint Packet Kex KexHash SignCommon Dss Rsa SignKey Base64 AuthKeys.

Local Open Scope Z_scope.
Local Open Scope prog_scope.

(** ** Constants *)

Definition SSH_MSG_USERAUTH_PK_OK : Z := 60.
Definition SSH_SERVICE_USERAUTH : list Z := Eval cbv in chars "ssh-userauth".
Definition SSH_SERVICE_USERAUTH_LEN : Z := 12.
Definition SSH_SERVICE_CONNECTION : list Z := Eval cbv in chars "ssh-connection".
Definition SSH_SERVICE_CONNECTION_LEN : Z := 14.
Definition MAX_USERNAME_LEN : Z := 25.
Definition MAX_AUTH_TRIES : Z := 10.
Definition AUTH_TYPE_PUBKEY : Z := Z.shiftl 1 1.
Definition AUTH_TYPE_PASSWORD : Z := Z.shiftl 1 2.
Definition AUTH_METHOD_NONE : list Z := Eval cbv in chars "none".
Definition AUTH_METHOD_NONE_LEN : Z := 4.
Definition AUTH_METHOD_PUBKEY : list Z := Eval cbv in chars "publickey".
Definition AUTH_METHOD_PUBKEY_LEN : Z := 9.
Definition AUTH_METHOD_PASSWORD : list Z := Eval cbv in chars "password".
Definition AUTH_METHOD_PASSWORD_LEN : Z := 8.

(** S_IWGRP | S_IWOTH *)
Definition GROUP_OTHER_WRITE : Z := Z.lor 0x10 0x2.

(** ** The system *)

(** [struct passwd] *)
Record passwd := mkpasswd {
  passwd_name : list Z; passwd_uid : Z; passwd_gid : Z; passwd_dir : list Z; passwd_shell : list Z; passwd_passwd : option (list Z) }.

(** What the code asks of the system: [getspnam] gives the [sp_pwdp] of a shadow
    entry ([None] throughout on a system without shadow.h), [getusershell] gives [shells] in order,
    [stat] the owner and the mode of a file, [fopen] the bytes of a file, and
    [close_fails] that closing a descriptor ends with an error. *)
Class AuthSystem := {
  getpwnam : list Z -> option passwd;
  getspnam : list Z -> option (option (list Z));
  geteuid : Z;
  shells : list (list Z);
  crypt : list Z -> list Z -> option (list Z);
  stat : list Z -> option (Z * Z);
  fopen : list Z -> option (list Z);
  close_fails : Z -> bool
}.

(** The fields of [svr_opts] the code reads. *)
Record svr_runopts := mkopts { noauthpass : bool; norootpass : bool; allowblankpass : bool; norootlogin : bool }.

(** ** The session *)

(** [struct AuthState]; a C string is the list of its characters, [None] the null pointer. *)
Record AuthState := mkas {
  as_username : option (list Z); authtypes : Z; failcount : Z; authdone : bool; perm_warn : bool;
  pw_uid : Z; pw_gid : Z; pw_dir : option (list Z); pw_shell : option (list Z); pw_name : option (list
  Z); pw_passwd : option (list Z); pubkey_options : option PubKeyOptions }.

Definition set_as_username (x : option (list Z)) (s : AuthState) : AuthState :=
  mkas x (authtypes s) (failcount s) (authdone s) (perm_warn s) (pw_uid s) (pw_gid s) (pw_dir s)
    (pw_shell s) (pw_name s) (pw_passwd s) (pubkey_options s).
Definition set_authtypes (x : Z) (s : AuthState) : AuthState :=
  mkas (as_username s) x (failcount s) (authdone s) (perm_warn s) (pw_uid s) (pw_gid s) (pw_dir
    s) (pw_shell s) (pw_name s) (pw_passwd s) (pubkey_options s).
Definition set_failcount (x : Z) (s : AuthState) : AuthState :=
  mkas (as_username s) (authtypes s) x (authdone s) (perm_warn s) (pw_uid s) (pw_gid s) (pw_dir
    s) (pw_shell s) (pw_name s) (pw_passwd s) (pubkey_options s).
Definition set_authdone (x : bool) (s : AuthState) : AuthState :=
  mkas (as_username s) (authtypes s) (failcount s) x (perm_warn s) (pw_uid s) (pw_gid s) (pw_dir
    s) (pw_shell s) (pw_name s) (pw_passwd s) (pubkey_options s).
Definition set_perm_warn (x : bool) (s : AuthState) : AuthState :=
  mkas (as_username s) (authtypes s) (failcount s) (authdone s) x (pw_uid s) (pw_gid s) (pw_dir
    s) (pw_shell s) (pw_name s) (pw_passwd s) (pubkey_options s).
Definition set_pubkey_options (x : option PubKeyOptions) (s : AuthState) : AuthState :=
  mkas (as_username s) (authtypes s) (failcount s) (authdone s) (perm_warn s) (pw_uid s) (pw_gid
    s) (pw_dir s) (pw_shell s) (pw_name s) (pw_passwd s) x.

(** What the handlers use of the session ([ses], [svr_ses] and the banner of
    [svr_opts]); [a_sent] are the payloads handed to the packet layer,
    [a_closed] the descriptors closed and [a_slept] the arguments of usleep. *)
Record auth_sess (R : Type) := mka {
  a_payload : buffer; a_writepayload : buffer; a_sent : list (list Z); a_authstate : AuthState;
  a_session_id : list Z; a_connect_time : Z; a_allowprivport : bool; a_banner : option buffer;
  a_childpipe : Z; a_closed : list Z; a_random : R; a_slept : list Z }.
Arguments mka {R}.
Arguments a_payload {R}.
Arguments a_writepayload {R}.
Arguments a_sent {R}.
Arguments a_authstate {R}.
Arguments a_session_id {R}.
Arguments a_connect_time {R}.
Arguments a_allowprivport {R}.
Arguments a_banner {R}.
Arguments a_childpipe {R}.
Arguments a_closed {R}.
Arguments a_random {R}.
Arguments a_slept {R}.

Definition set_a_payload {R : Type} (x : buffer) (s : auth_sess R) : auth_sess R :=
  mka x (a_writepayload s) (a_sent s) (a_authstate s) (a_session_id s) (a_connect_time s)
    (a_allowprivport s) (a_banner s) (a_childpipe s) (a_closed s) (a_random s) (a_slept s).
Definition set_a_writepayload {R : Type} (x : buffer) (s : auth_sess R) : auth_sess R :=
  mka (a_payload s) x (a_sent s) (a_authstate s) (a_session_id s) (a_connect_time s)
    (a_allowprivport s) (a_banner s) (a_childpipe s) (a_closed s) (a_random s) (a_slept s).
Definition set_a_sent {R : Type} (x : list (list Z)) (s : auth_sess R) : auth_sess R :=
  mka (a_payload s) (a_writepayload s) x (a_authstate s) (a_session_id s) (a_connect_time s)
    (a_allowprivport s) (a_banner s) (a_childpipe s) (a_closed s) (a_random s) (a_slept s).
Definition set_a_authstate {R : Type} (x : AuthState) (s : auth_sess R) : auth_sess R :=
  mka (a_payload s) (a_writepayload s) (a_sent s) x (a_session_id s) (a_connect_time s)
    (a_allowprivport s) (a_banner s) (a_childpipe s) (a_closed s) (a_random s) (a_slept s).
Definition set_a_connect_time {R : Type} (x : Z) (s : auth_sess R) : auth_sess R :=
  mka (a_payload s) (a_writepayload s) (a_sent s) (a_authstate s) (a_session_id s) x
    (a_allowprivport s) (a_banner s) (a_childpipe s) (a_closed s) (a_random s) (a_slept s).
Definition set_a_allowprivport {R : Type} (x : bool) (s : auth_sess R) : auth_sess R :=
  mka (a_payload s) (a_writepayload s) (a_sent s) (a_authstate s) (a_session_id s)
    (a_connect_time s) x (a_banner s) (a_childpipe s) (a_closed s) (a_random s) (a_slept s).
Definition set_a_banner {R : Type} (x : option buffer) (s : auth_sess R) : auth_sess R :=
  mka (a_payload s) (a_writepayload s) (a_sent s) (a_authstate s) (a_session_id s)
    (a_connect_time s) (a_allowprivport s) x (a_childpipe s) (a_closed s) (a_random s) (a_slept
    s).
Definition set_a_closed {R : Type} (x : list Z) (s : auth_sess R) : auth_sess R :=
  mka (a_payload s) (a_writepayload s) (a_sent s) (a_authstate s) (a_session_id s)
    (a_connect_time s) (a_allowprivport s) (a_banner s) (a_childpipe s) x (a_random s) (a_slept
    s).
Definition set_a_random {R : Type} (x : R) (s : auth_sess R) : auth_sess R :=
  mka (a_payload s) (a_writepayload s) (a_sent s) (a_authstate s) (a_session_id s)
    (a_connect_time s) (a_allowprivport s) (a_banner s) (a_childpipe s) (a_closed s) x (a_slept
    s).
Definition set_a_slept {R : Type} (x : list Z) (s : auth_sess R) : auth_sess R :=
  mka (a_payload s) (a_writepayload s) (a_sent s) (a_authstate s) (a_session_id s)
    (a_connect_time s) (a_allowprivport s) (a_banner s) (a_childpipe s) (a_closed s) (a_random s)
    x.

(** The encrypted password of an account. *)
Definition stored_password `{AuthSystem} (pw : passwd) : list Z :=
  let passwd_crypt := match getspnam (passwd_name pw) with Some (Some p) => Some p | _ => passwd_passwd pw end in
  default (chars "!!") passwd_crypt.

Section Auth.
Context {R : Type} `{Random R} `{ExptMod} `{AuthSystem} (svr_opts : svr_runopts).
Abbreviation sess := (auth_sess R).
Implicit Types (s : sess).


Definition on_payload {A} (m : prog buffer A) : prog sess A := zoom a_payload set_a_payload m.
Definition on_wp {A} (m : prog buffer A) : prog sess A := zoom a_writepayload set_a_writepayload m.
Definition auth : prog sess AuthState := gets a_authstate.
Definition mod_auth (f : AuthState -> AuthState) : prog sess unit := modify (fun s => set_a_authstate (f (a_authstate s)) s).

Definition encrypt_packet : prog sess unit :=
  b <- gets a_writepayload ;;
  modify (fun s => set_a_sent (a_sent s ++ [ztake (b_len b) (b_data b)]) s) ;;;
  on_wp (buf_setpos 0) ;;;
  on_wp (buf_setlen 0).

Definition m_close (fd : Z) : prog sess unit :=
  if close_fails fd then dropbear_exit "Error closing fd" else modify (fun s => set_a_closed (a_closed s ++ [fd]) s).

(** [len == strlen(lit) && strncmp(name, lit, len) == 0] *)
Definition is_name (name : list Z) (len : Z) (lit : list Z) : bool :=
  (len =? zlen lit) && strncmp_eq (Z.to_nat (zlen lit)) name lit.

(** ** svr-auth.c *)

(** memset clears every field. *)
Definition authclear : prog sess unit :=
  mod_auth (fun _ => mkas None 0 0 false false 0 0 None None None None None) ;;;
  mod_auth (fun a => set_authtypes (Z.lor (authtypes a) AUTH_TYPE_PUBKEY) a) ;;;
  when (negb (noauthpass svr_opts)) (mod_auth (fun a => set_authtypes (Z.lor (authtypes a) AUTH_TYPE_PASSWORD) a)).

Definition svr_authinitialise : prog sess unit :=
  mod_auth (fun a => mkas (as_username a) (authtypes a) 0 (authdone a) (perm_warn a) (pw_uid a) (pw_gid a) None None None None (pubkey_options a)) ;;;
  authclear.

Definition fill_passwd (username : list Z) : prog sess unit :=
  mod_auth (fun a => mkas (as_username a) (authtypes a) (failcount a) (authdone a) (perm_warn a) (pw_uid a) (pw_gid a) None None None None (pubkey_options a)) ;;;
  match getpwnam username with
  | None => ret tt
  | Some pw =>
      mod_auth (fun a => mkas (as_username a) (authtypes a) (failcount a) (authdone a) (perm_warn a) (passwd_uid pw) (passwd_gid pw)
        (Some (passwd_dir pw)) (Some (passwd_shell pw)) (Some (passwd_name pw)) (Some (stored_password pw)) (pubkey_options a))
  end.

Definition send_msg_userauth_banner (banner : buffer) : prog sess unit :=
  on_wp (buf_putbyte SSH_MSG_USERAUTH_BANNER) ;;;
  x <- on banner (getptr_bytes (b_len banner)) ;;
  on_wp (buf_putstring (fst x) (b_len banner)) ;;;
  on_wp (buf_putstring (chars "en") 2) ;;;
  encrypt_packet.

Definition send_msg_userauth_failure (partial incrfail : bool) : prog sess unit :=
  on_wp (buf_putbyte SSH_MSG_USERAUTH_FAILURE) ;;;
  typebuf <- buf_new 30 ;;
  a <- auth ;;
  let pubkey := negb (Z.land (authtypes a) AUTH_TYPE_PUBKEY =? 0) in
  let password := negb (Z.land (authtypes a) AUTH_TYPE_PASSWORD =? 0) in
  x <- on typebuf (
    when pubkey (buf_putbytes AUTH_METHOD_PUBKEY AUTH_METHOD_PUBKEY_LEN ;;; when password (buf_putbyte 44)) ;;;
    when password (buf_putbytes AUTH_METHOD_PASSWORD AUTH_METHOD_PASSWORD_LEN) ;;;
    buf_setpos 0 ;;;
    len <- gets b_len ;;
    getptr_bytes len) ;;
  on_wp (buf_putstring (fst x) (b_len (snd x))) ;;;
  on_wp (buf_putbyte (if partial then 1 else 0)) ;;;
  encrypt_packet ;;;
  when incrfail (
    r <- gets a_random ;;
    let '(bs, r) := genrandom 4 r in
    modify (set_a_random r) ;;;
    let delay := u32 (250000 + load32h (znth bs 3) (znth bs 2) (znth bs 1) (znth bs 0) mod 100000) in
    modify (fun s => set_a_slept (a_slept s ++ [delay]) s) ;;;
    mod_auth (fun a => set_failcount (u32 (failcount a + 1)) a)) ;;;
  a <- auth ;;
  if failcount a >=? MAX_AUTH_TRIES then dropbear_exit "Max auth tries reached" else ret tt.

Definition send_msg_userauth_success : prog sess unit :=
  on_wp (buf_putbyte SSH_MSG_USERAUTH_SUCCESS) ;;;
  encrypt_packet ;;;
  mod_auth (set_authdone true) ;;;
  modify (set_a_connect_time 0) ;;;
  a <- auth ;;
  when (pw_uid a =? 0) (modify (set_a_allowprivport true)) ;;;
  fd <- gets a_childpipe ;;
  m_close fd.

(** The shells that getusershell gives, compared one after another. *)
Definition shell_listed (usershell : list Z) : bool := existsb (fun l => bool_decide (l = usershell)) shells.

Definition checkusername (username : list Z) (userlen : Z) : prog sess bool :=
  if userlen >? MAX_USERNAME_LEN then ret false
  else
    a <- auth ;;
    when (negb (bool_decide (as_username a = Some (c_string username))))
      (authclear ;;;
       fill_passwd (c_string username) ;;;
       mod_auth (set_as_username (Some (c_string username)))) ;;;
    a <- auth ;;
    match pw_name a with
    | None => ret false
    | Some _ =>
        if negb (geteuid =? 0) && negb (geteuid =? pw_uid a) then ret false
        else if norootlogin svr_opts && (pw_uid a =? 0) then ret false
        else
          shell <- deref (pw_shell a) ;;
          ret (shell_listed (match shell with [] => chars "/bin/sh" | _ => shell end))
    end.

(** ** svr-authpasswd.c *)

Definition constant_time_strcmp (a b : list Z) : prog sess Z :=
  if negb (zlen a =? zlen b) then ret 1 else constant_time_memcmp a b (zlen a).

Definition svr_auth_password : prog sess unit :=
  a <- auth ;;
  changepw <- on_payload buf_getbool ;;
  if negb (changepw =? 0) then send_msg_userauth_failure false true
  else
    x <- on_payload buf_getstring ;;
    passwdcrypt <- deref (pw_passwd a) ;;
    match crypt (c_string (fst x)) passwdcrypt with
    | None => send_msg_userauth_failure false true
    | Some testcrypt =>
        match passwdcrypt with
        | [] => send_msg_userauth_failure false true
        | _ =>
            r <- constant_time_strcmp testcrypt passwdcrypt ;;
            if r =? 0 then send_msg_userauth_success else send_msg_userauth_failure false true
        end
    end.

(** ** svr-authpubkey.c *)

Definition checkfileperm (filename : list Z) : prog sess bool :=
  match stat filename with
  | None => ret false
  | Some (st_uid, st_mode) =>
      a <- auth ;;
      let badperm := (negb (st_uid =? pw_uid a) && negb (st_uid =? 0)) || negb (Z.land st_mode GROUP_OTHER_WRITE =? 0) in
      if badperm then mod_auth (set_perm_warn true) ;;; ret false else ret true
  end.

Definition authorized_keys_of (dir : list Z) : list Z := dir ++ chars "/.ssh/authorized_keys".

Definition checkpubkeyperms : prog sess bool :=
  a <- auth ;;
  match pw_dir a with
  | None | Some [] => ret false
  | Some dir =>
      ok <- checkfileperm dir ;;
      if negb ok then ret false else
      ok <- checkfileperm (dir ++ chars "/.ssh") ;;
      if negb ok then ret false else
      checkfileperm ((dir ++ chars "/.ssh") ++ chars "/authorized_keys")
  end.

Definition checkpubkey (algo : list Z) (algolen : Z) (keyblob : list Z) : prog sess bool :=
  if negb (have_algo algo algolen sshhostkey) then ret false
  else
    ok <- checkpubkeyperms ;;
    if negb ok then ret false
    else
      a <- auth ;;
      dir <- deref (pw_dir a) ;;
      match fopen (authorized_keys_of dir) with
      | None => ret false
      | Some authfile =>
          x <- search_authfile algo algolen keyblob authfile ;;
          when (bool_decide (is_Some (snd x))) (mod_auth (set_pubkey_options (mjoin (snd x)))) ;;;
          ret (fst x)
      end.

Definition send_msg_userauth_pk_ok (algo : list Z) (algolen : Z) (keyblob : list Z) (keybloblen : Z) : prog sess unit :=
  on_wp (buf_putbyte SSH_MSG_USERAUTH_PK_OK) ;;;
  on_wp (buf_putstring algo algolen) ;;;
  on_wp (buf_putstring keyblob keybloblen) ;;;
  encrypt_packet.

(** The data that has been signed: the session id and the payload up to the
    signature. *)
Definition signed_data {S} (session_id : list Z) (payload : buffer) : prog S (list Z) :=
  signbuf <- buf_new (u32 (b_pos payload + 4 + SHA1_HASH_SIZE)) ;;
  x <- on signbuf (
    buf_putstring session_id SHA1_HASH_SIZE ;;;
    buf_putbytes (b_data payload) (b_pos payload) ;;;
    buf_setpos 0 ;;;
    len <- gets b_len ;;
    getptr_bytes len) ;;
  ret (fst x).

Definition svr_auth_pubkey : prog sess unit :=
  b <- on_payload buf_getbool ;;
  let testkey := b =? 0 in
  x <- on_payload buf_getstring ;;
  let '(algo, algolen) := x in
  keybloblen <- on_payload buf_getint ;;
  keyblob <- on_payload (getptr_bytes keybloblen) ;;
  ok <- checkpubkey algo algolen keyblob ;;
  if negb ok then send_msg_userauth_failure false false
  else if testkey then send_msg_userauth_pk_ok algo algolen keyblob keybloblen
  else
    x <- on_payload (SignKey.buf_get_pub_key new_sign_key DROPBEAR_SIGNKEY_ANY) ;;
    let '(ok, key, type) := x in
    if negb ok then send_msg_userauth_failure false true
    else
      session_id <- gets a_session_id ;;
      payload <- gets a_payload ;;
      data <- signed_data session_id payload ;;
      ok <- on_payload (SignKey.buf_verify key data) ;;
      if ok : bool then send_msg_userauth_success else send_msg_userauth_failure false true.

(** ** The handler *)

(** The part of recv_msg_userauth_request after checkusername: what each method
    does. *)
Definition userauth_method (methodname : list Z) (methodlen : Z) (valid_user : bool) : prog sess unit :=
  a <- auth ;;
  let rootpass_ok := negb (norootpass svr_opts && (pw_uid a =? 0)) in
  if is_name methodname methodlen AUTH_METHOD_NONE then
    blank <- (if valid_user && allowblankpass svr_opts && negb (noauthpass svr_opts) && rootpass_ok
              then p <- deref (pw_passwd a) ;; ret (bool_decide (p = [])) else ret false) ;;
    if blank : bool then send_msg_userauth_success else send_msg_userauth_failure false false
  else if negb (noauthpass svr_opts) && rootpass_ok && is_name methodname methodlen AUTH_METHOD_PASSWORD && valid_user then svr_auth_password
  else if is_name methodname methodlen AUTH_METHOD_PUBKEY then
    if valid_user : bool then svr_auth_pubkey else send_msg_userauth_failure false false
  else send_msg_userauth_failure false true.

Definition recv_msg_userauth_request : prog sess unit :=
  a <- auth ;;
  if authdone a then ret tt
  else
    banner <- gets a_banner ;;
    match banner with None => ret tt | Some b => send_msg_userauth_banner b ;;; modify (set_a_banner None) end ;;;
    x <- on_payload buf_getstring ;;
    let '(username, userlen) := x in
    x <- on_payload buf_getstring ;;
    let '(servicename, servicelen) := x in
    x <- on_payload buf_getstring ;;
    let '(methodname, methodlen) := x in
    if negb (servicelen =? SSH_SERVICE_CONNECTION_LEN) && negb (strncmp_eq (Z.to_nat SSH_SERVICE_CONNECTION_LEN) servicename SSH_SERVICE_CONNECTION)
    then dropbear_exit "unknown service in auth"
    else
      valid_user <- checkusername username userlen ;;
      userauth_method methodname methodlen valid_user.

(** ** svr-authpubkeyoptions.c *)

Definition svr_pubkey_allows_agentfwd (a : AuthState) : bool :=
  match pubkey_options a with Some o => negb (no_agent_forwarding_flag o) | None => true end.
Definition svr_pubkey_allows_tcpfwd (a : AuthState) : bool :=
  match pubkey_options a with Some o => negb (no_port_forwarding_flag o) | None => true end.
Definition svr_pubkey_allows_x11fwd (a : AuthState) : bool :=
  match pubkey_options a with Some o => negb (no_x11_forwarding_flag o) | None => true end.
Definition svr_pubkey_allows_pty (a : AuthState) : bool :=
  match pubkey_options a with Some o => negb (no_pty_flag o) | None => true end.

(** On the fields [original_command] and [cmd] of a channel session; m_strdup
    of a null pointer is undefined. *)
Definition svr_pubkey_set_forced_command (original_command cmd : option (list Z)) : prog sess (option (list Z) * option (list Z)) :=
  a <- auth ;;
  match pubkey_options a with
  | None => ret (original_command, cmd)
  | Some o => forced <- deref (forced_command o) ;; ret (Some (default [] cmd), Some (c_string forced))
  end.

Definition svr_pubkey_options_cleanup : prog sess unit := mod_auth (set_pubkey_options None).

(** ** svr-service.c *)

Definition send_msg_service_accept (name : list Z) (len : Z) : prog sess unit :=
  on_wp (buf_putbyte SSH_MSG_SERVICE_ACCEPT) ;;;
  on_wp (buf_putstring name len) ;;;
  encrypt_packet.

Definition recv_msg_service_request : prog sess unit :=
  x <- on_payload buf_getstring ;;
  let '(name, len) := x in
  if is_name name len SSH_SERVICE_USERAUTH then send_msg_service_accept name len
  else if is_name name len SSH_SERVICE_CONNECTION then
    a <- auth ;;
    if negb (authdone a) then dropbear_exit "Request for connection before auth" else send_msg_service_accept name len
  else dropbear_exit "Unrecognised SSH_MSG_SERVICE_REQUEST".
End Auth.

(** ** What a request is

    The claims about a login speak of the strings of the request and of the
    account they name. *)

Lemma pc_on {S A} (b : buffer) (m : prog buffer A) Q (s : S) : (forall a b', m b = Ok (a, b') -> Q (a, b') s) -> pc (on b m) Q s.
Proof. unfold pc, on. destruct (m b) as [[a t]| |]; intros H; [|done|done]. by apply H. Qed.

Lemma pc_buf_new {S} size Q (s : S) : (forall b, buf_new size s = Ok (b, s) -> Q b s) -> pc (buf_new size) Q s.
Proof.
  unfold pc. assert (Hs : forall b s', buf_new size s = Ok (b, s') -> s' = s).
  { unfold buf_new, m_malloc, bind. intros b s'. repeat case_match; unfold ret, dropbear_exit in *; congruence. }
  destruct (buf_new size s) as [[b s']| |] eqn:E; [|done|done]. intros HQ. destruct (Hs b s' eq_refl). by apply HQ.
Qed.

Lemma pc_eq {S A} (m : prog S A) (Q : A -> S -> Prop) (s : S) : (forall a s', m s = Ok (a, s') -> Q a s') -> pc m Q s.
Proof. unfold pc. destruct (m s) as [[a s']| |]; auto. Qed.

Ltac auth_step := first [pc_step | apply pc_on; intros | apply pc_buf_new; intros].
Ltac auth_steps := repeat (auth_step; cbn beta).

(** What a computation on buffers of its own does depends on nothing else. *)
Lemma buf_new_state {S} size (s : S) b s' : buf_new size s = Ok (b, s') -> s' = s /\ buf_new size tt = Ok (b, tt).
Proof. unfold buf_new, m_malloc, bind. intros E. repeat case_match; unfold ret, dropbear_exit in *; simplify_eq; done. Qed.

Lemma on_state {S A} (b : buffer) (m : prog buffer A) (s : S) x s' : on b m s = Ok (x, s') -> s' = s /\ on b m tt = Ok (x, tt).
Proof. unfold on. destruct (m b) as [[a t]| |]; [|done|done]. by intros [= <- <-]. Qed.

Lemma search_state {S} algo algolen keyblob authfile (s : S) x s' :
  search_authfile algo algolen keyblob authfile s = Ok (x, s') -> s' = s /\ search_authfile algo algolen keyblob authfile tt = Ok (x, tt).
Proof.
  unfold search_authfile. intros (b & s1 & [-> E1]%buf_new_state & (y & s2 & [-> E2]%on_state & [= <- <-])%bind_inv)%bind_inv.
  split; [done|]. by rewrite (bind_ok _ _ _ _ _ E1), (bind_ok _ _ _ _ _ E2).
Qed.

Lemma signed_data_state {S} session_id payload (s : S) x s' :
  signed_data session_id payload s = Ok (x, s') -> s' = s /\ signed_data session_id payload tt = Ok (x, tt).
Proof.
  unfold signed_data. intros (b & s1 & [-> E1]%buf_new_state & (y & s2 & [-> E2]%on_state & [= <- <-])%bind_inv)%bind_inv.
  split; [done|]. by rewrite (bind_ok _ _ _ _ _ E1), (bind_ok _ _ _ _ _ E2).
Qed.

(** [crypt] and the password database give C strings. *)
Class AuthSystemLaws `{AuthSystem} := {
  crypt_bytes password salt t : crypt password salt = Some t -> bytes t;
  passwd_bytes user pw p : getpwnam user = Some pw -> passwd_passwd pw = Some p -> bytes p;
  shadow_bytes user p : getspnam user = Some (Some p) -> bytes p
}.

Section Claims.
Context {R : Type} `{Random R} `{ExptMod} `{AuthSystem} (svr_opts : svr_runopts).
Abbreviation sess := (auth_sess R).
Implicit Types (s : sess).


(** The account exists, may log in on this server, and has a listed shell. *)
Definition may_log_in (user : list Z) (pw : passwd) : Prop :=
  getpwnam user = Some pw /\ (geteuid = 0 \/ geteuid = passwd_uid pw) /\ ~ (norootlogin svr_opts = true /\ passwd_uid pw = 0) /\
  match passwd_shell pw with [] => chars "/bin/sh" | shell => shell end ∈ shells.

(** Passwords may be used for the account. *)
Definition password_allowed (pw : passwd) : Prop :=
  noauthpass svr_opts = false /\ ~ (norootpass svr_opts = true /\ passwd_uid pw = 0).

(** The request, after the method's name, holds the password. *)
Definition password_login (pw : passwd) (b : buffer) : Prop :=
  exists b1 password n b2, buf_getbool b = Ok (0, b1) /\ buf_getstring b1 = Ok ((password, n), b2) /\
    crypt (c_string password) (stored_password pw) = Some (stored_password pw) /\ stored_password pw <> [].

(** The file is there, belongs to the user or to root, and others may not
    write it. *)
Definition safe_file (pw : passwd) (filename : list Z) : Prop :=
  exists uid mode, stat filename = Some (uid, mode) /\ (uid = passwd_uid pw \/ uid = 0) /\ Z.land mode GROUP_OTHER_WRITE = 0.

Definition safe_keys (pw : passwd) : Prop :=
  passwd_dir pw <> [] /\ safe_file pw (passwd_dir pw) /\ safe_file pw (passwd_dir pw ++ chars "/.ssh") /\
  safe_file pw (authorized_keys_of (passwd_dir pw)).

(** The request, after the method's name, holds a key that the user's file
    lists and a signature with it over the session id and the request. *)
Definition pubkey_login (pw : passwd) (session_id : list Z) (b : buffer) : Prop :=
  exists t b1 algo algolen b2 keybloblen b3 keyblob authfile opts key type b4 data b5,
    buf_getbool b = Ok (t, b1) /\ t <> 0 /\ buf_getstring b1 = Ok ((algo, algolen), b2) /\
    buf_getint b2 = Ok (keybloblen, b3) /\ getptr_bytes keybloblen b3 = Ok (keyblob, b3) /\
    have_algo algo algolen sshhostkey = true /\ safe_keys pw /\ fopen (authorized_keys_of (passwd_dir pw)) = Some authfile /\
    search_authfile algo algolen keyblob authfile tt = Ok ((true, opts), tt) /\
    SignKey.buf_get_pub_key new_sign_key DROPBEAR_SIGNKEY_ANY b3 = Ok ((true, key, type), b4) /\
    signed_data session_id b4 tt = Ok (data, tt) /\ SignKey.buf_verify key data b4 = Ok (true, b5).

(** What a request has to hold to be let in. *)
Definition entitled (session_id : list Z) (payload : buffer) : Prop :=
  exists username userlen b1 servicename servicelen b2 methodname methodlen b3 pw,
    buf_getstring payload = Ok ((username, userlen), b1) /\ buf_getstring b1 = Ok ((servicename, servicelen), b2) /\
    buf_getstring b2 = Ok ((methodname, methodlen), b3) /\
    userlen <= MAX_USERNAME_LEN /\ may_log_in (c_string username) pw /\
    ((is_name methodname methodlen AUTH_METHOD_NONE = true /\ allowblankpass svr_opts = true /\ password_allowed pw /\ stored_password pw = []) \/
     (is_name methodname methodlen AUTH_METHOD_PASSWORD = true /\ password_allowed pw /\ password_login pw b3) \/
     (is_name methodname methodlen AUTH_METHOD_PUBKEY = true /\ pubkey_login pw session_id b3)).

(** ** What the handlers keep *)

(** Who is asking, and whether they have been let in. *)
Definition identity (a : AuthState) :=
  (as_username a, authdone a, pw_uid a, pw_dir a, pw_shell a, pw_name a, pw_passwd a).

Definition kept (s s' : sess) : Prop := a_session_id s' = a_session_id s /\ identity (a_authstate s') = identity (a_authstate s).

Lemma kept_trans s1 s2 s3 : kept s1 s2 -> kept s2 s3 -> kept s1 s3.
Proof. unfold kept. intros [-> ->] [-> ->]. done. Qed.

(** The account in the state is the one of the name in the state. *)
Definition account_of (a : AuthState) : Prop :=
  match as_username a with
  | None => pw_name a = None
  | Some u =>
      match getpwnam u with
      | None => pw_name a = None
      | Some pw => pw_name a = Some (passwd_name pw) /\ pw_uid a = passwd_uid pw /\ pw_dir a = Some (passwd_dir pw) /\
          pw_shell a = Some (passwd_shell pw) /\ pw_passwd a = Some (stored_password pw)
      end
  end.

Lemma account_kept s s' : kept s s' -> account_of (a_authstate s) -> account_of (a_authstate s').
Proof. unfold kept, account_of, identity. intros [_ E]. by injection E as -> _ -> -> -> -> ->. Qed.

Lemma failure_kept partial incr s : pc (send_msg_userauth_failure partial incr) (fun _ s' => kept s s') s.
Proof. unfold send_msg_userauth_failure, encrypt_packet, on_wp, auth, mod_auth. auth_steps; done. Qed.

(** The account a request is checked against. *)
Definition logged_account (a : AuthState) (pw : passwd) : Prop :=
  pw_uid a = passwd_uid pw /\ pw_dir a = Some (passwd_dir pw) /\ pw_shell a = Some (passwd_shell pw) /\ pw_passwd a = Some (stored_password pw).

Lemma logged_kept s s' pw : kept s s' -> logged_account (a_authstate s) pw -> logged_account (a_authstate s') pw.
Proof. unfold kept, logged_account, identity. intros [_ E]. by injection E as _ _ -> -> -> _ ->. Qed.

Lemma shell_listed_in shell : shell_listed shell = true -> shell ∈ shells.
Proof. unfold shell_listed. intros (l & Hl%list_elem_of_In & <-%bool_decide_eq_true_1)%existsb_exists. done. Qed.

(** The state after the account of [user] has been looked up. *)
Definition looked_up (user : list Z) (s s' : sess) : Prop :=
  account_of (a_authstate s') /\ as_username (a_authstate s') = Some user /\ authdone (a_authstate s') = authdone (a_authstate s) /\
  a_session_id s' = a_session_id s /\ a_payload s' = a_payload s.

Lemma look_up_ok user s : account_of (a_authstate s) -> authdone (a_authstate s) = false ->
  pc (when (negb (bool_decide (as_username (a_authstate s) = Some user)))
      (authclear svr_opts ;;; fill_passwd user ;;; mod_auth (set_as_username (Some user)))) (fun _ s' => looked_up user s s') s.
Proof.
  intros Ha Hd. apply pc_when; [|by intros E%negb_false_iff%bool_decide_eq_true_1; split_and!].
  intros _. unfold authclear, fill_passwd, mod_auth.
  destruct (getpwnam user) as [pw|] eqn:E; auth_steps; (split; [unfold account_of; cbn; by rewrite E|]); by rewrite Hd.
Qed.

Lemma checkusername_ok username userlen s : account_of (a_authstate s) -> authdone (a_authstate s) = false ->
  pc (checkusername svr_opts username userlen) (fun ok s' => account_of (a_authstate s') /\ authdone (a_authstate s') = false /\
    a_session_id s' = a_session_id s /\ a_payload s' = a_payload s /\
    (ok = true -> userlen <= MAX_USERNAME_LEN /\ exists pw, may_log_in (c_string username) pw /\ logged_account (a_authstate s') pw)) s.
Proof.
  intros Ha Hd. unfold checkusername, auth. auth_step; [auth_step; by rewrite Hd|].
  auth_step. auth_step. auth_step. eapply pc_mono; [by apply look_up_ok|]. intros _ s1 (Ha1 & Hu1 & Hd1 & Hs1 & Hp1).
  assert (Hfail : account_of (a_authstate s1) /\ authdone (a_authstate s1) = false /\ a_session_id s1 = a_session_id s /\ a_payload s1 = a_payload s /\
    (false = true -> userlen <= MAX_USERNAME_LEN /\ exists pw, may_log_in (c_string username) pw /\ logged_account (a_authstate s1) pw))
    by (split_and!; congruence || done).
  auth_step. auth_step. destruct (pw_name (a_authstate s1)) eqn:En; [|by auth_step].
  assert (Hpw : exists pw, getpwnam (c_string username) = Some pw /\ logged_account (a_authstate s1) pw).
  { unfold account_of in Ha1. rewrite Hu1 in Ha1. destruct (getpwnam (c_string username)) as [pw|] eqn:E; [|congruence].
    exists pw. split; [done|]. split_and!; apply Ha1. }
  destruct Hpw as (pw & Epw & Hlog). pose proof Hlog as (Euid & Edir & Eshell & _).
  auth_step; [by auth_step|]. auth_step; [by auth_step|]. auth_step. auth_step. auth_step.
  destruct Hfail as (? & ? & ? & ? & _). split_and!; [done..|]. intros Hsh. split; [bool_hyps; lia|]. exists pw. split; [|done].
  rewrite Eshell in *. simplify_eq. split_and!; [done| | |].
  - rewrite Euid in *. bool_hyps. lia.
  - intros [Hr Hz]. rewrite Hr, Euid, Hz in *. done.
  - apply shell_listed_in. by destruct (passwd_shell pw).
Qed.

(** ** Passwords *)

Lemma strcmp_run (a b : list Z) s : bytes a -> bytes b -> exists r, constant_time_strcmp a b s = Ok (r, s) /\ (r = 0 <-> a = b).
Proof.
  intros Ha Hb. unfold constant_time_strcmp. destruct (Z.eqb_spec (zlen a) (zlen b)) as [E|N]; cbn [negb].
  - destruct (constant_time_memcmp_spec a b (zlen a) s Ha Hb) as (r & -> & Hr); [pose proof (zlen_nonneg a); lia|lia|].
    exists r. split; [done|]. rewrite Hr, ztake_all, E, ztake_all. done.
  - exists 1. split; [done|]. split; [done|]. by intros ->.
Qed.

Context `{!AuthSystemLaws}.

Lemma stored_bytes user pw : getpwnam user = Some pw -> bytes (stored_password pw).
Proof.
  intros E. unfold stored_password. destruct (getspnam (passwd_name pw)) as [[p|]|] eqn:Es; [by eapply shadow_bytes| |];
    (destruct (passwd_passwd pw) as [p|] eqn:Ep; [by eapply passwd_bytes|]); apply (bool_decide_eq_true_1 _); by vm_compute.
Qed.

(** The state after a handler, when [s] was the one before the request: the
    account is still that of the name, and a login has a reason. *)
Definition reasoned (s : sess) (why : Prop) (s' : sess) : Prop :=
  account_of (a_authstate s') /\ a_session_id s' = a_session_id s /\ (authdone (a_authstate s') = true -> why).

Lemma success_account s : account_of (a_authstate s) ->
  pc send_msg_userauth_success (fun _ s' => account_of (a_authstate s') /\ a_session_id s' = a_session_id s) s.
Proof. intros Ha. unfold send_msg_userauth_success, encrypt_packet, on_wp, auth, mod_auth, m_close. auth_steps; done. Qed.

Lemma success_reasoned s (why : Prop) : account_of (a_authstate s) -> why -> pc send_msg_userauth_success (fun _ => reasoned s why) s.
Proof. intros Ha Hw. eapply pc_mono; [by apply success_account|]. intros _ s' [? ?]. by split_and!. Qed.

Lemma kept_done s s' : kept s s' -> authdone (a_authstate s') = authdone (a_authstate s).
Proof. intros [_ E]. unfold identity in E. by simplify_eq. Qed.

Lemma failure_reasoned partial incr s s0 (why : Prop) : account_of (a_authstate s) -> authdone (a_authstate s) = false -> a_session_id s = a_session_id s0 ->
  pc (send_msg_userauth_failure partial incr) (fun _ => reasoned s0 why) s.
Proof.
  intros Ha Hd Hs. eapply pc_mono; [apply failure_kept|]. intros ? s' Hk. split; [exact (account_kept s s' Hk Ha)|]. split; [by rewrite (proj1 Hk)|].
  by rewrite (kept_done _ _ Hk), Hd.
Qed.

Lemma password_reasoned s user pw : account_of (a_authstate s) -> authdone (a_authstate s) = false ->
  getpwnam user = Some pw -> logged_account (a_authstate s) pw ->
  pc svr_auth_password (fun _ => reasoned s (password_login pw (a_payload s))) s.
Proof.
  intros Ha Hd Epw (_ & _ & _ & Hpass). unfold svr_auth_password, auth, on_payload.
  auth_step. auth_step. auth_step. apply pc_zoom. intros c b1 E1. auth_step; [by apply failure_reasoned|]. auth_step. apply pc_zoom. intros [password n] b2 E2.
  cbn in E2. auth_step. auth_step. rewrite Hpass in *. simplify_eq. cbn [fst].
  destruct (crypt (c_string password) (stored_password pw)) as [t|] eqn:Ec; [|by apply failure_reasoned].
  destruct (stored_password pw) as [|x l] eqn:Est; [by apply failure_reasoned|]. rewrite <-Est in *. auth_step.
  match goal with |- pc _ _ ?s1 => destruct (strcmp_run t (stored_password pw) s1 ltac:(by eapply crypt_bytes) ltac:(by eapply stored_bytes)) as (r & Ecmp & Hr) end.
  unfold pc. rewrite Ecmp.
  destruct (Z.eqb_spec r 0) as [Er|]; [|by apply failure_reasoned]. eapply pc_mono; [apply success_reasoned; [done|]|].
  - exact I.
  - intros _ s' (? & ? & _). split; [done|]. split; [done|]. intros _. exists b1, password, n, b2. rewrite Hr in Er. subst t.
    split_and!; [|done|done|by rewrite Est]. rewrite E1. do 3 f_equal. bool_hyps. lia.
Qed.

(** ** Public keys *)

Lemma checkfileperm_ok filename s pw : logged_account (a_authstate s) pw ->
  pc (checkfileperm filename) (fun ok s' => kept s s' /\ a_payload s' = a_payload s /\ (ok = true -> safe_file pw filename)) s.
Proof.
  intros (Euid & _). unfold checkfileperm, auth, mod_auth. auth_steps; try done. split; [done|]. split; [done|]. intros _.
  match goal with E : stat filename = Some (?u, ?m) |- _ => exists u, m end. split; [done|]. rewrite Euid in *. bool_hyps. split; lia.
Qed.

Lemma checkpubkeyperms_ok s pw : logged_account (a_authstate s) pw ->
  pc checkpubkeyperms (fun ok s' => kept s s' /\ a_payload s' = a_payload s /\ (ok = true -> safe_keys pw)) s.
Proof.
  intros Hl. pose proof Hl as (_ & Edir & _). unfold checkpubkeyperms, auth. auth_step. auth_step. rewrite Edir.
  destruct (passwd_dir pw) as [|x dir] eqn:Ed; [by auth_step|]. rewrite <-Ed in *. assert (Hne : passwd_dir pw <> []) by (by rewrite Ed). clear Ed x dir.
  auth_step. eapply pc_mono; [by apply checkfileperm_ok|]. intros ok1 s1 (K1 & P1 & H1'). auth_step; [by auth_step|]. apply negb_false_iff in Heqb. subst ok1.
  auth_step. eapply pc_mono; [apply checkfileperm_ok; exact (logged_kept s s1 pw K1 Hl)|]. intros ok2 s2 (K2 & P2 & H2').
  pose proof (kept_trans _ _ _ K1 K2) as K12. auth_step; [auth_step; split_and!; [done|congruence|done]|]. apply negb_false_iff in Heqb. subst ok2.
  eapply pc_mono; [apply checkfileperm_ok; exact (logged_kept s s2 pw K12 Hl)|]. intros ok3 s3 (K3 & P3 & H3').
  split; [by eapply kept_trans|]. split; [congruence|]. intros Ht. split_and!; [done|by apply H1'|by apply H2'|].
  specialize (H3' Ht). by rewrite <-app_assoc in H3'.
Qed.

Lemma checkpubkey_ok algo algolen keyblob s pw : logged_account (a_authstate s) pw ->
  pc (checkpubkey algo algolen keyblob) (fun ok s' => kept s s' /\ a_payload s' = a_payload s /\
    (ok = true -> have_algo algo algolen sshhostkey = true /\ safe_keys pw /\
      exists authfile opts, fopen (authorized_keys_of (passwd_dir pw)) = Some authfile /\
        search_authfile algo algolen keyblob authfile tt = Ok ((true, opts), tt))) s.
Proof.
  intros Hl. unfold checkpubkey, auth, mod_auth. auth_step; [by auth_step|]. apply negb_false_iff in Heqb.
  auth_step. eapply pc_mono; [by apply checkpubkeyperms_ok|]. intros ok1 s1 (K1 & P1 & H1'). auth_step; [by auth_step|]. apply negb_false_iff in Heqb0. subst ok1.
  auth_step. auth_step. auth_step. auth_step. pose proof (logged_kept s s1 pw K1 Hl) as (_ & Edir & _). rewrite Edir in *. simplify_eq.
  destruct (fopen (authorized_keys_of _)) as [authfile|] eqn:Ef; [|by auth_step].
  auth_step. apply pc_eq. intros [ok opts] s2 [-> E]%search_state. cbn [fst snd].
  assert (Hout : ok = true -> have_algo algo algolen sshhostkey = true /\ safe_keys pw /\ exists authfile' opts', Some authfile = Some authfile' /\
    search_authfile algo algolen keyblob authfile' tt = Ok ((true, opts'), tt)).
  { intros ->. split; [done|]. split; [by apply H1'|]. by exists authfile, opts. }
  auth_step. auth_step; auth_steps; (split; [|by split]); done.
Qed.

Lemma pk_ok_kept algo algolen keyblob n s : pc (send_msg_userauth_pk_ok algo algolen keyblob n) (fun _ s' => kept s s') s.
Proof. unfold send_msg_userauth_pk_ok, encrypt_packet, on_wp. auth_steps; done. Qed.

Lemma pubkey_reasoned s pw : account_of (a_authstate s) -> authdone (a_authstate s) = false -> logged_account (a_authstate s) pw ->
  pc svr_auth_pubkey (fun _ => reasoned s (pubkey_login pw (a_session_id s) (a_payload s))) s.
Proof.
  intros Ha Hd Hl. unfold svr_auth_pubkey, on_payload. auth_step. apply pc_zoom. intros t b1 E1. cbn zeta.
  auth_step. apply pc_zoom. intros [algo algolen] b2 E2. auth_step. apply pc_zoom. intros keybloblen b3 E3. auth_step. apply pc_zoom. intros keyblob b3' E4.
  cbn in E2, E3, E4. assert (b3' = b3) as ->.
  { unfold getptr_bytes in E4. apply bind_inv in E4 as (p & c & E & E4). unfold buf_getptr, bind, gets, id in E. unfold load_bytes in E4.
    repeat case_match; unfold ret, dropbear_exit in *; congruence. }
  set (s3 := set_a_payload b3 _). assert (Hl3 : logged_account (a_authstate s3) pw) by done.
  auth_step. eapply pc_mono; [by apply checkpubkey_ok|]. intros ok s4 (K4 & P4 & H4).
  assert (Ha4 : account_of (a_authstate s4)) by exact (account_kept s3 s4 K4 Ha). assert (Hd4 : authdone (a_authstate s4) = false) by (by rewrite (kept_done _ _ K4)).
  assert (Hs4 : a_session_id s4 = a_session_id s) by exact (proj1 K4).
  auth_step; [by apply failure_reasoned|]. apply negb_false_iff in Heqb. subst ok. destruct (H4 eq_refl) as (Halgo & Hsafe & authfile & opts & Ef & Esearch). clear H4.
  auth_step.
  { eapply pc_mono; [apply pk_ok_kept|]. intros ? s5 K5. split; [exact (account_kept s4 s5 K5 Ha4)|]. split; [by rewrite (proj1 K5)|]. by rewrite (kept_done _ _ K5), Hd4. }
  auth_step. apply pc_zoom. intros [[ok key] type] b4 E5. rewrite P4 in E5. cbn in E5. auth_step; [by apply failure_reasoned|]. apply negb_false_iff in Heqb0. subst ok.
  auth_step. auth_step. auth_step. auth_step. auth_step. apply pc_eq. intros data s5 [-> E6]%signed_data_state. cbn in E6.
  auth_step. apply pc_zoom. intros ok b5 E7. cbn in E7. auth_step; [|by apply failure_reasoned].
  eapply pc_mono; [by apply (success_reasoned _ True)|]. intros ? s6 (Ha6 & Hs6 & _). split; [done|]. split; [by rewrite Hs6|]. intros _.
  exists t, b1, algo, algolen, b2, keybloblen, b3, keyblob, authfile, opts, key, type, b4, data, b5. rewrite Hs4 in E6.
  split_and!; try done. by bool_hyps.
Qed.

(** ** A request *)

Lemma request_reasoned s : account_of (a_authstate s) -> authdone (a_authstate s) = false ->
  pc (recv_msg_userauth_request svr_opts) (fun _ => reasoned s (entitled (a_session_id s) (a_payload s))) s.
Proof.
  intros Ha Hd. unfold recv_msg_userauth_request, auth, on_payload. auth_step. auth_step. rewrite Hd. auth_step. auth_step. auth_step.
  assert (Hb : pc (match a_banner s with None => ret tt | Some b => send_msg_userauth_banner b ;;; modify (set_a_banner None) end)
    (fun _ s' => kept s s' /\ a_payload s' = a_payload s) s).
  { destruct (a_banner s); [|done]. unfold send_msg_userauth_banner, encrypt_packet, on_wp. auth_steps; done. }
  eapply pc_mono; [exact Hb|]. clear Hb. intros _ s0 [K0 P0]. pose proof (account_kept s s0 K0 Ha) as Ha0. pose proof (kept_done _ _ K0) as Hd0. rewrite Hd in Hd0. destruct K0 as [Hs0 _].
  auth_step. apply pc_zoom. intros [username userlen] b1 E1. rewrite P0 in E1. auth_step. apply pc_zoom. intros [servicename servicelen] b2 E2. auth_step. apply pc_zoom. intros [methodname methodlen] b3 E3.
  cbn in E2, E3. auth_step; [by auth_step|]. auth_step. eapply pc_mono; [by apply checkusername_ok|]. cbn. intros valid s1 (Ha1 & Hd1 & Hs1 & P1 & Hvalid).
  rewrite Hs0 in Hs1. unfold userauth_method, auth. auth_step. auth_step. cbn zeta.
  assert (Hwhy : forall pw, may_log_in (c_string username) pw -> userlen <= MAX_USERNAME_LEN ->
    ((is_name methodname methodlen AUTH_METHOD_NONE = true /\ allowblankpass svr_opts = true /\ password_allowed pw /\ stored_password pw = []) \/
     (is_name methodname methodlen AUTH_METHOD_PASSWORD = true /\ password_allowed pw /\ password_login pw b3) \/
     (is_name methodname methodlen AUTH_METHOD_PUBKEY = true /\ pubkey_login pw (a_session_id s) b3)) -> entitled (a_session_id s) (a_payload s)).
  { intros pw Hm Hu Hw. by exists username, userlen, b1, servicename, servicelen, b2, methodname, methodlen, b3, pw. }
  assert (Hroot : forall pw, logged_account (a_authstate s1) pw -> noauthpass svr_opts = false ->
    negb (norootpass svr_opts && (pw_uid (a_authstate s1) =? 0)) = true -> password_allowed pw).
  { intros pw (Euid & _) Hn Hr. split; [done|]. rewrite Euid in Hr. intros [E E']. by rewrite E, E' in Hr. }
  assert (Hre : forall (m : prog sess unit) why', pc m (fun _ => reasoned s1 why') s1 -> (why' -> entitled (a_session_id s) (a_payload s)) ->
    pc m (fun _ => reasoned s (entitled (a_session_id s) (a_payload s))) s1).
  { intros m why' Hm Hw. eapply pc_mono; [exact Hm|]. intros ? s2 (? & Hs2 & Hr). split; [done|]. split; [congruence|]. intros Hx. apply Hw, Hr, Hx. }
  assert (Hfail : forall p i, pc (send_msg_userauth_failure p i) (fun _ => reasoned s (entitled (a_session_id s) (a_payload s))) s1)
    by (intros; by apply failure_reasoned).
  auth_step.
  { auth_step. destruct (valid && _ && _ && _) eqn:Ev; [|by auth_steps]. apply andb_true_iff in Ev as [[[Ev Eblank]%andb_true_iff Eno%negb_true_iff]%andb_true_iff Er].
    destruct (Hvalid Ev) as (Hu & pw & Hm & Hlog).
    auth_step. auth_step. auth_step. auth_step; [|done]. apply (Hre _ (entitled (a_session_id s) (a_payload s))); [|done]. apply success_reasoned; [done|].
    apply (Hwhy pw Hm Hu). left. split; [done|]. split; [done|]. split; [by apply Hroot|]. destruct Hlog as (_ & _ & _ & Ep).
    match goal with E : pw_passwd _ = Some ?p, E' : bool_decide (?p = []) = true |- _ => rewrite Ep in E; apply bool_decide_eq_true_1 in E' as ->; by injection E end. }
  auth_step.
  { match goal with E : _ && _ && _ && _ = true |- _ => apply andb_true_iff in E as [[[Eno%negb_true_iff Er]%andb_true_iff Ename]%andb_true_iff Ev] end.
    destruct (Hvalid Ev) as (Hu & pw & Hm & Hlog). apply (Hre _ (password_login pw (a_payload s1))).
    - apply (password_reasoned s1 (c_string username)); [done|done|apply Hm|done].
    - rewrite P1. intros Hp. apply (Hwhy pw Hm Hu). right; left. split; [done|]. split; [by apply Hroot|done]. }
  auth_step; [|done]. auth_step; [|done]. destruct (Hvalid eq_refl) as (Hu & pw & Hm & Hlog).
  apply (Hre _ (pubkey_login pw (a_session_id s1) (a_payload s1))); [by apply pubkey_reasoned|]. rewrite P1, Hs1. intros Hp. apply (Hwhy pw Hm Hu). by right; right.
Qed.

(** ** What a handler does, exactly *)

Lemma encrypt_run s content room : buf_repr (a_writepayload s) content [] room ->
  exists w, encrypt_packet s = Ok (tt, set_a_writepayload w (set_a_sent (a_sent s ++ [content]) s)) /\ buf_repr w [] [] (zlen content + room).
Proof.
  intros Hb. destruct (br_data _ _ _ _ Hb) as (rest & Hd & Hr). pose proof (br_len _ _ _ _ Hb) as Hl. rewrite zlen_nil, Z.add_0_r in Hl.
  unfold encrypt_packet. rewrite (bind_ok _ _ _ (a_writepayload s) s) by reflexivity.
  assert (Ec : ztake (b_len (a_writepayload s)) (b_data (a_writepayload s)) = content) by (rewrite Hl, Hd; cbn [app]; apply ztake_app_zlen).
  rewrite Ec. set (s1 := set_a_sent _ s). rewrite (bind_ok _ _ _ tt s1) by reflexivity.
  destruct (repr_clear (a_writepayload s) _ (repr_sized _ _ _ _ Hb)) as (b1 & b2 & E1 & E2 & Hb2). rewrite zlen_nil, Z.add_0_r in Hb2.
  exists b2. split; [|done]. unfold on_wp.
  rewrite (bind_ok _ _ _ _ _ (zoom_ok a_writepayload set_a_writepayload (buf_setpos 0) s1 tt b1 E1)).
  exact (zoom_ok a_writepayload set_a_writepayload (buf_setlen 0) (set_a_writepayload b1 s1) tt b2 E2).
Qed.

(** One put into the payload that is being built. *)
Lemma on_wp_run m s (Q : buffer -> Prop) : twp m (fun _ b => Q b) (a_writepayload s) ->
  exists b, on_wp m s = Ok (tt, set_a_writepayload b s) /\ Q b.
Proof. intros (u & b & E & HQ)%twp_ex. destruct u. exists b. split; [|done]. exact (zoom_ok a_writepayload set_a_writepayload m s tt b E). Qed.

(** The methods a client may go on with. *)
Definition method_list (types : Z) : list Z :=
  (if Z.land types AUTH_TYPE_PUBKEY =? 0 then [] else AUTH_METHOD_PUBKEY ++ (if Z.land types AUTH_TYPE_PASSWORD =? 0 then [] else [44])) ++
  (if Z.land types AUTH_TYPE_PASSWORD =? 0 then [] else AUTH_METHOD_PASSWORD).

Definition failure_message (types : Z) (partial : bool) : list Z :=
  SSH_MSG_USERAUTH_FAILURE :: store32h (zlen (method_list types)) ++ method_list types ++ [if partial then 1 else 0].

(** A failed attempt that counts: the delay in microseconds and the count. *)
Definition delay_of (bs : list Z) : Z := u32 (250000 + load32h (znth bs 3) (znth bs 2) (znth bs 1) (znth bs 0) mod 100000).

Definition counted (s : sess) : sess :=
  let '(bs, r) := genrandom 4 (a_random s) in
  set_a_authstate (set_failcount (u32 (failcount (a_authstate s) + 1)) (a_authstate s)) (set_a_slept (a_slept s ++ [delay_of bs]) (set_a_random r s)).

Definition refused (incr : bool) (s : sess) : sess := if incr then counted s else s.

Definition sent (w : buffer) (msg : list Z) (s : sess) : sess := set_a_writepayload w (set_a_sent (a_sent s ++ [msg]) s).

Lemma methods_run types : exists b, (
    when (negb (Z.land types AUTH_TYPE_PUBKEY =? 0)) (buf_putbytes AUTH_METHOD_PUBKEY AUTH_METHOD_PUBKEY_LEN ;;;
      when (negb (Z.land types AUTH_TYPE_PASSWORD =? 0)) (buf_putbyte 44)) ;;;
    when (negb (Z.land types AUTH_TYPE_PASSWORD =? 0)) (buf_putbytes AUTH_METHOD_PASSWORD AUTH_METHOD_PASSWORD_LEN) ;;;
    buf_setpos 0 ;;;
    len <- gets b_len ;;
    getptr_bytes len)%prog (empty_buffer 30) = Ok (method_list types, b) /\ b_len b = zlen (method_list types).
Proof.
  unfold method_list. destruct (Z.land types AUTH_TYPE_PUBKEY =? 0), (Z.land types AUTH_TYPE_PASSWORD =? 0); eexists; split; vm_compute; reflexivity.
Qed.

Lemma method_list_facts types : bytes (method_list types) /\ zlen (method_list types) <= 18.
Proof.
  unfold method_list. destruct (Z.land types AUTH_TYPE_PUBKEY =? 0), (Z.land types AUTH_TYPE_PASSWORD =? 0); (split; [apply (bool_decide_eq_true_1 _)|]; by vm_compute).
Qed.

(** The packet layer's buffer for the next payload is empty and has room. *)
Definition ready (s : sess) : Prop := exists room, 2000 <= room /\ buf_repr (a_writepayload s) [] [] room.

Lemma failure_run partial incr s : ready s ->
  exists w, (forall s', a_writepayload s' = w -> ready s') /\
    let s' := refused incr (sent w (failure_message (authtypes (a_authstate s)) partial) s) in
    send_msg_userauth_failure partial incr s = if failcount (a_authstate s') >=? MAX_AUTH_TRIES then Exit "Max auth tries reached" else Ok (tt, s').
Proof.
  intros (room & Hroom & Hb). unfold send_msg_userauth_failure. set (types := authtypes (a_authstate s)). destruct (method_list_facts types) as [Hmb Hml]. pose proof (zlen_nonneg (method_list types)).
  destruct (on_wp_run (buf_putbyte SSH_MSG_USERAUTH_FAILURE) s (fun b => buf_repr b [51] [] (room - 1))) as (b1 & E1 & Hb1); [by eapply (append_putbyte _ []); [exact Hb| |lia|intros]|].
  rewrite (bind_ok _ _ _ _ _ E1). rewrite (bind_ok _ _ _ _ _ (buf_new_zeros 30 _ ltac:(by vm_compute))). set (s1 := set_a_writepayload b1 s).
  rewrite (bind_ok _ _ _ (a_authstate s) s1) by reflexivity. cbn zeta. fold types. destruct (methods_run types) as (tb & Et & Etl).
  rewrite (bind_ok _ _ _ (method_list types, tb) s1) by (unfold on; by rewrite Et). cbn [fst snd]. rewrite Etl.
  destruct (on_wp_run (buf_putstring (method_list types) (zlen (method_list types))) s1 (fun b => buf_repr b ([51] ++ store32h (zlen (method_list types)) ++ method_list types) [] (room - 1 - 4 - zlen (method_list types))))
    as (b2 & E2 & Hb2); [eapply append_putstring; [exact Hb1|done|done|lia|by intros]|]. rewrite (bind_ok _ _ _ _ _ E2).
  set (s2 := set_a_writepayload b2 s1).
  destruct (on_wp_run (buf_putbyte (if partial then 1 else 0)) s2 (fun b => buf_repr b (failure_message types partial) [] (room - 6 - zlen (method_list types)))) as (b3 & E3 & Hb3).
  { eapply append_putbyte; [exact Hb2|by destruct partial|lia|]. intros b Hb'. unfold failure_message. rewrite <-!app_assoc in Hb'.
    by replace (room - 1 - 4 - zlen (method_list types) - 1) with (room - 6 - zlen (method_list types)) in Hb' by lia. }
  rewrite (bind_ok _ _ _ _ _ E3). set (s3 := set_a_writepayload b3 s2). destruct (encrypt_run s3 _ _ Hb3) as (w & E4 & Hw). rewrite (bind_ok _ _ _ _ _ E4).
  exists w. split.
  { intros s' E. exists room. rewrite E. split; [done|]. unfold failure_message in Hw. rewrite zlen_cons, !zlen_app, zlen_store32h in Hw. change (zlen [_]) with 1 in Hw.
    by replace (1 + (4 + (zlen (method_list types) + 1)) + (room - 6 - zlen (method_list types))) with room in Hw by lia. }
  change (set_a_writepayload w (set_a_sent (a_sent s3 ++ [failure_message types partial]) s3)) with (sent w (failure_message types partial) s).
  assert (Hlast : forall s5, (a <- auth ;; if failcount a >=? MAX_AUTH_TRIES then dropbear_exit "Max auth tries reached" else ret tt) s5 =
    if failcount (a_authstate s5) >=? MAX_AUTH_TRIES then Exit "Max auth tries reached" else Ok (tt, s5)).
  { intros s5. rewrite (bind_ok _ _ _ (a_authstate s5) s5) by reflexivity. by destruct (failcount (a_authstate s5) >=? MAX_AUTH_TRIES). }
  set (s4 := sent w _ s). unfold refused. destruct incr; cbn [when]; cbn zeta; rewrite <-Hlast; [|done].
  rewrite (bind_ok _ _ _ tt (counted s4)); [done|].
  rewrite (bind_ok _ _ _ (a_random s4) s4) by reflexivity. unfold counted. by destruct (genrandom 4 (a_random s4)) as [bs r].
Qed.

(** The state once the user is in. *)
Definition logged_in (s : sess) : sess :=
  let s1 := set_a_connect_time 0 (set_a_authstate (set_authdone true (a_authstate s)) s) in
  let s2 := if pw_uid (a_authstate s) =? 0 then set_a_allowprivport true s1 else s1 in
  set_a_closed (a_closed s2 ++ [a_childpipe s2]) s2.

Lemma success_run s : ready s -> close_fails (a_childpipe s) = false ->
  exists w, (forall s', a_writepayload s' = w -> ready s') /\
    send_msg_userauth_success s = Ok (tt, logged_in (sent w [SSH_MSG_USERAUTH_SUCCESS] s)).
Proof.
  intros (room & Hroom & Hb) Hclose. unfold send_msg_userauth_success.
  destruct (on_wp_run (buf_putbyte SSH_MSG_USERAUTH_SUCCESS) s (fun b => buf_repr b [52] [] (room - 1))) as (b1 & E1 & Hb1); [by eapply (append_putbyte _ []); [exact Hb| |lia|intros]|].
  rewrite (bind_ok _ _ _ _ _ E1). destruct (encrypt_run (set_a_writepayload b1 s) _ _ Hb1) as (w & E2 & Hw). rewrite (bind_ok _ _ _ _ _ E2).
  exists w. split.
  { intros s' E. exists room. rewrite E. split; [done|]. change (zlen [52]) with 1 in Hw. by replace (1 + (room - 1)) with room in Hw by lia. }
  change (set_a_writepayload w _) with (sent w [SSH_MSG_USERAUTH_SUCCESS] s). set (s1 := sent w _ s).
  set (s2 := set_a_connect_time 0 (set_a_authstate (set_authdone true (a_authstate s1)) s1)).
  rewrite (bind_ok _ _ _ tt (set_a_authstate (set_authdone true (a_authstate s1)) s1)), (bind_ok _ _ _ tt s2), (bind_ok _ _ _ (a_authstate s2) s2) by reflexivity.
  unfold logged_in. fold s2. change (pw_uid (a_authstate s2)) with (pw_uid (a_authstate s1)). unfold m_close.
  destruct (pw_uid (a_authstate s1) =? 0); cbn [when].
  - rewrite (bind_ok _ _ _ tt (set_a_allowprivport true s2)), (bind_ok _ _ _ (a_childpipe s) (set_a_allowprivport true s2)) by reflexivity. by rewrite Hclose.
  - rewrite (bind_ok _ _ _ tt s2), (bind_ok _ _ _ (a_childpipe s) s2) by reflexivity. by rewrite Hclose.
Qed.

(** Whether the account may log in, as a function. *)
Definition admitted (user : list Z) : bool :=
  match getpwnam user with
  | None => false
  | Some pw =>
      ((geteuid =? 0) || (geteuid =? passwd_uid pw)) && negb (norootlogin svr_opts && (passwd_uid pw =? 0)) &&
      shell_listed (match passwd_shell pw with [] => chars "/bin/sh" | shell => shell end)
  end.

Definition offered_types : Z := if noauthpass svr_opts then AUTH_TYPE_PUBKEY else Z.lor AUTH_TYPE_PUBKEY AUTH_TYPE_PASSWORD.

(** The state of a name that has not tried yet. *)
Definition new_account (user : list Z) : AuthState :=
  match getpwnam user with
  | None => mkas (Some user) offered_types 0 false false 0 0 None None None None None
  | Some pw => mkas (Some user) offered_types 0 false false (passwd_uid pw) (passwd_gid pw) (Some (passwd_dir pw)) (Some (passwd_shell pw))
      (Some (passwd_name pw)) (Some (stored_password pw)) None
  end.

Definition look_up (user : list Z) (a : AuthState) : AuthState := if bool_decide (as_username a = Some user) then a else new_account user.

Lemma account_look_up user a : account_of a -> account_of (look_up user a) /\ as_username (look_up user a) = Some user.
Proof.
  unfold look_up. case_bool_decide; [done|]. intros _. unfold new_account, account_of. destruct (getpwnam user) eqn:E; cbn; by rewrite E.
Qed.

Lemma look_up_logged user a pw : account_of a -> getpwnam user = Some pw -> logged_account (look_up user a) pw.
Proof. intros [Ha Hu]%(account_look_up user) E. unfold account_of in Ha. rewrite Hu, E in Ha. split_and!; apply Ha. Qed.

Lemma set_same s : set_a_authstate (a_authstate s) s = s.
Proof. by destruct s. Qed.

Lemma checkusername_run username user s : c_string username = user -> account_of (a_authstate s) ->
  forall userlen, userlen <= MAX_USERNAME_LEN ->
  checkusername svr_opts username userlen s = Ok (admitted user, set_a_authstate (look_up user (a_authstate s)) s).
Proof.
  intros <- Ha userlen Hl. set (user := c_string username). unfold checkusername, MAX_USERNAME_LEN in *. rewrite Z.gtb_ltb. z_guards.
  rewrite (bind_ok _ _ _ (a_authstate s) s) by reflexivity. fold user.
  assert (Ew : when (negb (bool_decide (as_username (a_authstate s) = Some user)))
      (authclear svr_opts ;;; fill_passwd user ;;; mod_auth (set_as_username (Some user))) s = Ok (tt, set_a_authstate (look_up user (a_authstate s)) s)).
  { unfold look_up. case_bool_decide as E; cbn [negb when]; [by rewrite set_same|]. unfold new_account, offered_types, authclear, fill_passwd.
    destruct (getpwnam user), (noauthpass svr_opts); reflexivity. }
  rewrite (bind_ok _ _ _ _ _ Ew). set (s1 := set_a_authstate _ s). rewrite (bind_ok _ _ _ (look_up user (a_authstate s)) s1) by reflexivity.
  destruct (account_look_up user _ Ha) as [Hu En]. pose proof (look_up_logged user (a_authstate s)) as Hlog. unfold admitted, account_of in *. rewrite En in Hu.
  destruct (getpwnam user) as [pw|]; [|by rewrite Hu]. destruct (Hlog pw Ha eq_refl) as (Euid & _ & Eshell & _). destruct Hu as (-> & _). rewrite Euid, Eshell.
  rewrite <-negb_orb. destruct (_ || _); cbn [negb andb]; [|done]. destruct (norootlogin svr_opts && _); cbn [negb andb]; [done|].
  rewrite (bind_ok _ _ _ (passwd_shell pw) s1) by reflexivity. by destruct (passwd_shell pw).
Qed.

(** ** Requests *)

Definition str (l : list Z) : list Z := store32h (zlen l) ++ l.

Definition request (user method rest : list Z) : list Z := str user ++ str SSH_SERVICE_CONNECTION ++ str method ++ rest.

(** A session between two requests. *)
Record waiting (s : sess) : Prop := {
  w_done : authdone (a_authstate s) = false;
  w_banner : a_banner s = None;
  w_account : account_of (a_authstate s);
  w_ready : ready s;
  w_count : 0 <= failcount (a_authstate s) < MAX_AUTH_TRIES
}.

Lemma on_payload_run {A} (m : prog buffer A) s a b : m (a_payload s) = Ok (a, b) -> on_payload m s = Ok (a, set_a_payload b s).
Proof. intros E. exact (zoom_ok a_payload set_a_payload m s a b E). Qed.

Lemma repr_getstr b pre l post room : zlen l <= MAX_STRING_LEN -> buf_repr b pre (str l ++ post) room ->
  exists b', buf_getstring b = Ok ((l ++ [0], zlen l), b') /\ buf_repr b' (pre ++ str l) post room.
Proof. intros Hl Hb. unfold str in *. rewrite <-app_assoc in Hb. exact (repr_getstring b pre l post room (zlen l) eq_refl Hl Hb). Qed.

(** A name of a method, read from the request. *)
Lemma is_name_string l lit : (0 ∉ lit) -> is_name (l ++ [0]) (zlen l) lit = bool_decide (l = lit).
Proof.
  intros Hz0. unfold is_name. destruct (Z.eqb_spec (zlen l) (zlen lit)) as [E|N]; cbn [andb].
  - assert (El : length l = length lit) by (by apply Nat2Z.inj). assert (En : Z.to_nat (zlen lit) = length lit) by (unfold zlen; lia). rewrite En, <-El.
    assert (Hgen : forall n (x y z : list Z), length x = n -> length y = n -> (0 ∉ y) -> strncmp_eq n (x ++ z) y = bool_decide (x = y)).
    { induction n as [|n IH]; intros x y z Hx Hy Hz; destruct x as [|c x], y as [|d y]; cbn in Hx, Hy; try lia; [done|].
      cbn [strncmp_eq hd tl app]. apply not_elem_of_cons in Hz as [Hd Hz]. destruct (Z.eqb_spec c d) as [->|N]; cbn [andb].
      - rewrite (proj2 (Z.eqb_neq d 0)) by lia. cbn [orb]. rewrite IH by (done || lia). apply bool_decide_ext. split; [by intros ->|by intros [= ->]].
      - symmetry. apply bool_decide_eq_false. by intros [= ? ?]. }
    apply Hgen; done.
  - symmetry. apply bool_decide_eq_false. by intros ->.
Qed.

(** A request up to the method's own part. *)
Lemma request_run user method rest s pre room : waiting s -> (0 ∉ user) -> zlen user <= MAX_USERNAME_LEN -> zlen method <= MAX_STRING_LEN ->
  buf_repr (a_payload s) pre (request user method rest) room ->
  exists b, buf_repr b (pre ++ str user ++ str SSH_SERVICE_CONNECTION ++ str method) rest room /\
    recv_msg_userauth_request svr_opts s =
    userauth_method svr_opts (method ++ [0]) (zlen method) (admitted user) (set_a_authstate (look_up user (a_authstate s)) (set_a_payload b s)).
Proof.
  intros [Hd Hbn Ha _ _] Hu Hul Hml Hb. unfold request in Hb.
  destruct (repr_getstr _ _ user _ room ltac:(unfold MAX_USERNAME_LEN, MAX_STRING_LEN in *; lia) Hb) as (b1 & E1 & Hb1).
  destruct (repr_getstr _ _ SSH_SERVICE_CONNECTION _ room ltac:(by vm_compute) Hb1) as (b2 & E2 & Hb2).
  destruct (repr_getstr _ _ method rest room Hml Hb2) as (b3 & E3 & Hb3). exists b3. split; [by rewrite <-!app_assoc in Hb3|].
  unfold recv_msg_userauth_request. rewrite (bind_ok _ _ _ (a_authstate s) s) by reflexivity. rewrite Hd.
  rewrite (bind_ok _ _ _ (a_banner s) s) by reflexivity. rewrite Hbn, (bind_ok _ _ _ tt s) by reflexivity.
  rewrite (bind_ok _ _ _ _ _ (on_payload_run buf_getstring s _ b1 E1)). cbv beta iota.
  rewrite (bind_ok _ _ _ _ _ (on_payload_run buf_getstring (set_a_payload b1 s) _ b2 E2)). cbv beta iota.
  rewrite (bind_ok _ _ _ _ _ (on_payload_run buf_getstring (set_a_payload b2 (set_a_payload b1 s)) _ b3 E3)). cbv beta iota.
  change (zlen SSH_SERVICE_CONNECTION =? SSH_SERVICE_CONNECTION_LEN) with true. cbn [negb andb].
  change (set_a_payload b3 (set_a_payload b2 (set_a_payload b1 s))) with (set_a_payload b3 s). set (s1 := set_a_payload b3 s).
  rewrite (bind_ok _ _ _ _ _ (checkusername_run (user ++ [0]) user s1 (c_string_terminated user [] Hu) Ha (zlen user) Hul)). done.
Qed.

(** ** Password requests *)

Definition password_request (user password : list Z) : list Z := request user AUTH_METHOD_PASSWORD (0 :: str password).

(** The server accepts this password for this user. *)
Definition right_password (user password : list Z) : bool :=
  admitted user && match getpwnam user with
  | None => false
  | Some pw => negb (noauthpass svr_opts) && negb (norootpass svr_opts && (passwd_uid pw =? 0)) &&
      bool_decide (crypt password (stored_password pw) = Some (stored_password pw) /\ stored_password pw <> [])
  end.

Lemma svr_auth_password_run user pw password s pre post room : getpwnam user = Some pw -> logged_account (a_authstate s) pw ->
  (0 ∉ password) -> zlen password <= MAX_STRING_LEN -> buf_repr (a_payload s) pre (0 :: str password ++ post) room ->
  exists b, svr_auth_password s =
    (if bool_decide (crypt password (stored_password pw) = Some (stored_password pw) /\ stored_password pw <> []) then send_msg_userauth_success
     else send_msg_userauth_failure false true) (set_a_payload b s).
Proof.
  intros Epw (_ & _ & _ & Hpass) Hp0 Hl Hb. unfold svr_auth_password.
  destruct (repr_getbyte _ _ _ _ _ Hb) as (b1 & E1 & Hb1). destruct (repr_getstr _ _ password post room Hl Hb1) as (b2 & E2 & Hb2). exists b2.
  assert (E1' : buf_getbool (a_payload s) = Ok (0, b1)) by (unfold buf_getbool; by rewrite (bind_ok _ _ _ _ _ E1)).
  rewrite (bind_ok _ _ _ (a_authstate s) s) by reflexivity. rewrite (bind_ok _ _ _ _ _ (on_payload_run buf_getbool s _ b1 E1')). cbn [Z.eqb negb].
  rewrite (bind_ok _ _ _ _ _ (on_payload_run buf_getstring (set_a_payload b1 s) _ b2 E2)). cbn [fst]. change (set_a_payload b2 (set_a_payload b1 s)) with (set_a_payload b2 s).
  set (s2 := set_a_payload b2 s). rewrite Hpass, (bind_ok _ _ _ (stored_password pw) s2) by reflexivity. rewrite (c_string_terminated password [] Hp0).
  destruct (crypt password (stored_password pw)) as [t|] eqn:Ec; [|by rewrite bool_decide_eq_false_2 by (by intros [? _])].
  pose proof (stored_bytes user pw Epw) as Hsb. pose proof (crypt_bytes _ _ _ Ec) as Htb.
  destruct (stored_password pw) as [|x l] eqn:Est; [by rewrite bool_decide_eq_false_2 by (by intros [_ ?])|]. rewrite <-Est in *.
  destruct (strcmp_run t (stored_password pw) s2 Htb Hsb) as (r & Er & Hr). rewrite (bind_ok _ _ _ _ _ Er). destruct (Z.eqb_spec r 0) as [E0|N0].
  - apply Hr in E0 as ->. by rewrite bool_decide_eq_true_2 by (rewrite Est; done).
  - rewrite bool_decide_eq_false_2; [done|]. intros [[= ->] _]. tauto.
Qed.

Definition fits_request (user password : list Z) : Prop :=
  (0 ∉ user) /\ zlen user <= MAX_USERNAME_LEN /\ (0 ∉ password) /\ zlen password <= MAX_STRING_LEN.

Lemma password_request_run user password s pre post room : waiting s -> fits_request user password ->
  buf_repr (a_payload s) pre (password_request user password ++ post) room ->
  exists b, recv_msg_userauth_request svr_opts s =
    (if right_password user password then send_msg_userauth_success else send_msg_userauth_failure false true)
      (set_a_payload b (set_a_authstate (look_up user (a_authstate s)) s)).
Proof.
  intros Hw (Hu & Hul & Hp & Hpl) Hb. assert (Ha := w_account _ Hw).
  assert (Hb' : buf_repr (a_payload s) pre (request user AUTH_METHOD_PASSWORD (0 :: str password ++ post)) room)
    by (unfold password_request, request in *; rewrite <-!app_assoc in Hb; exact Hb).
  destruct (request_run user AUTH_METHOD_PASSWORD _ s pre room Hw Hu Hul ltac:(by vm_compute) Hb') as (b & Hb1 & E). rewrite E. clear E.
  set (s1 := set_a_authstate _ _). unfold userauth_method. rewrite (bind_ok _ _ _ (look_up user (a_authstate s)) s1) by reflexivity. cbn zeta.
  rewrite !is_name_string by (apply (bool_decide_eq_true_1 _); by vm_compute). change (bool_decide (AUTH_METHOD_PASSWORD = AUTH_METHOD_NONE)) with false.
  change (bool_decide (AUTH_METHOD_PASSWORD = AUTH_METHOD_PUBKEY)) with false. change (bool_decide (AUTH_METHOD_PASSWORD = AUTH_METHOD_PASSWORD)) with true.
  rewrite andb_true_r. cbn iota. pose proof (look_up_logged user (a_authstate s)) as Hlog. unfold right_password.
  destruct (admitted user) eqn:Ead; [|rewrite andb_false_r; by exists b]. rewrite andb_true_r. cbn [andb].
  destruct (getpwnam user) as [pw|] eqn:Epw; [|unfold admitted in Ead; by rewrite Epw in Ead]. specialize (Hlog pw Ha eq_refl).
  rewrite (proj1 Hlog). destruct (_ && _); cbn [andb]; [|by exists b].
  destruct (svr_auth_password_run user pw password s1 _ post room Epw Hlog Hp Hpl Hb1) as (b2 & E2). exists b2. rewrite E2. by case_bool_decide.
Qed.

(** The outcome of a failed attempt: the count is of this name. *)
Definition tries (user : list Z) (s : sess) : Z := failcount (look_up user (a_authstate s)) + 1.

Lemma look_up_count user a : 0 <= failcount a < MAX_AUTH_TRIES -> 0 <= failcount (look_up user a) < MAX_AUTH_TRIES.
Proof. unfold look_up, new_account. case_bool_decide; [done|]. intros _. by destruct (getpwnam user). Qed.

Lemma look_up_new user a : as_username a <> Some user -> failcount (look_up user a) = 0.
Proof. intros Hn. unfold look_up, new_account. rewrite bool_decide_eq_false_2 by done. by destruct (getpwnam user). Qed.

Lemma look_up_done user a : authdone a = false -> authdone (look_up user a) = false.
Proof. unfold look_up, new_account. case_bool_decide; [done|]. intros _. by destruct (getpwnam user). Qed.

Lemma wrong_attempt user password s pre post room : waiting s -> fits_request user password -> right_password user password = false ->
  buf_repr (a_payload s) pre (password_request user password ++ post) room ->
  if tries user s <? MAX_AUTH_TRIES then
    exists s', recv_msg_userauth_request svr_opts s = Ok (tt, s') /\ waiting s' /\ as_username (a_authstate s') = Some user /\
      failcount (a_authstate s') = tries user s /\ exists bs, a_slept s' = a_slept s ++ [delay_of bs]
  else recv_msg_userauth_request svr_opts s = Exit "Max auth tries reached".
Proof.
  intros Hw Hf Hwrong Hb. destruct (password_request_run user password s pre post room Hw Hf Hb) as (b & E). rewrite Hwrong in E.
  pose proof Hw as [Hd Hbn Ha Hr Hc]. set (s1 := set_a_payload b _) in E. destruct (failure_run false true s1 Hr) as (w & Hrw & E1).
  rewrite E, E1. cbn zeta. pose proof (look_up_count user _ Hc) as Hc1. set (s2 := refused true _).
  assert (Hs2 : a_authstate s2 = set_failcount (tries user s) (look_up user (a_authstate s)) /\ a_writepayload s2 = w /\ a_banner s2 = None /\ exists bs, a_slept s2 = a_slept s ++ [delay_of bs]).
  { subst s2. unfold refused, counted, tries. destruct (genrandom 4 _) as [bs r]. cbn. unfold MAX_AUTH_TRIES in *. rewrite u32_small by (unfold is_u32; lia). split_and!; [done|done|done|by exists bs]. }
  clearbody s2. destruct Hs2 as (Ea & Ew & Ebn & Hsl). assert (Ef : failcount (a_authstate s2) = tries user s) by (by rewrite Ea). rewrite Ef.
  unfold tries in *. rewrite Z.geb_leb. destruct (Z.ltb_spec (failcount (look_up user (a_authstate s)) + 1) MAX_AUTH_TRIES); z_guards; [|done].
  destruct (account_look_up user _ Ha) as [Ha1 Hu1]. exists s2. split; [done|]. split; [|by rewrite Ea].
  split; [rewrite Ea; by apply look_up_done|done|rewrite Ea; exact Ha1|by apply Hrw|]. rewrite Ef. lia.
Qed.

(** ** Sequences of requests *)

(** The handler on one payload after another, as the main loop calls it. *)
Fixpoint handle_requests (payloads : list buffer) : prog sess unit :=
  match payloads with
  | [] => ret tt
  | p :: payloads => modify (set_a_payload p) ;;; recv_msg_userauth_request svr_opts ;;; handle_requests payloads
  end.

(** The payload of a packet whose type has been read. *)
Definition packet_payload (l : list Z) : buffer := mkbuf (SSH_MSG_USERAUTH_REQUEST :: l) (1 + zlen l) 1 (1 + zlen l).

Lemma packet_payload_repr l : bytes l -> zlen l < BUF_MAX_SIZE -> buf_repr (packet_payload l) [SSH_MSG_USERAUTH_REQUEST] l 0.
Proof.
  intros Hl Hm. split; cbn [packet_payload b_data b_pos b_len b_size]; change (zlen [SSH_MSG_USERAUTH_REQUEST]) with 1; try lia.
  - exists []. by rewrite app_nil_r.
  - by constructor.
Qed.

Definition password_packet (up : list Z * list Z) : buffer := packet_payload (password_request up.1 up.2).

Definition wrong_packet (up : list Z * list Z) : Prop :=
  fits_request up.1 up.2 /\ bytes up.1 /\ bytes up.2 /\ right_password up.1 up.2 = false.

Lemma wrong_packet_step up s : waiting s -> wrong_packet up ->
  let s0 := set_a_payload (password_packet up) s in
  if tries up.1 s <? MAX_AUTH_TRIES then
    exists s', recv_msg_userauth_request svr_opts s0 = Ok (tt, s') /\ waiting s' /\ as_username (a_authstate s') = Some up.1 /\ failcount (a_authstate s') = tries up.1 s
  else recv_msg_userauth_request svr_opts s0 = Exit "Max auth tries reached".
Proof.
  intros Hw (Hf & Hb1 & Hb2 & Hwrong). destruct up as [user password]. cbn [fst snd] in *. cbn zeta. set (s0 := set_a_payload _ s).
  assert (Hw0 : waiting s0) by (by destruct Hw; split). pose proof Hf as (_ & Hul & _ & Hpl). unfold MAX_USERNAME_LEN, MAX_STRING_LEN in *. pose proof (zlen_nonneg user). pose proof (zlen_nonneg password).
  assert (Hb : buf_repr (a_payload s0) [SSH_MSG_USERAUTH_REQUEST] (password_request user password ++ []) 0).
  { rewrite app_nil_r. apply packet_payload_repr.
    - assert (Hlit : bytes SSH_SERVICE_CONNECTION /\ bytes AUTH_METHOD_PASSWORD) by (split; apply (bool_decide_eq_true_1 _); by vm_compute). destruct Hlit.
      unfold password_request, request, str. repeat first [done|apply store32h_bytes|apply Forall_app_2|apply Forall_cons_2].
    - unfold password_request, request, str. rewrite !zlen_app, zlen_cons, zlen_app, !zlen_store32h. unfold BUF_MAX_SIZE. change (zlen SSH_SERVICE_CONNECTION) with 14. change (zlen AUTH_METHOD_PASSWORD) with 8. lia. }
  pose proof (wrong_attempt user password s0 _ _ _ Hw0 Hf Hwrong Hb) as Hstep. change (tries user s0) with (tries user s) in Hstep.
  destruct (tries user s <? MAX_AUTH_TRIES); [|done]. destruct Hstep as (s' & E & Hw' & Hu' & Hc' & _). by exists s'.
Qed.

Lemma handle_one p payloads s : handle_requests (p :: payloads) s =
  (recv_msg_userauth_request svr_opts ;;; handle_requests payloads) (set_a_payload p s).
Proof. reflexivity. Qed.

Lemma requests_entitled payloads s : account_of (a_authstate s) ->
  pc (handle_requests payloads) (fun _ s' => authdone (a_authstate s') = true ->
    authdone (a_authstate s) = true \/ exists p, p ∈ payloads /\ entitled (a_session_id s) p) s.
Proof.
  revert s. induction payloads as [|p payloads IH]; intros s Ha; cbn [handle_requests]; [auth_step; by left|].
  auth_step. auth_step. set (s0 := set_a_payload p s). auth_step. destruct (authdone (a_authstate s)) eqn:Hd.
  - unfold recv_msg_userauth_request, auth. auth_step. auth_step. change (authdone (a_authstate s0)) with (authdone (a_authstate s)). rewrite Hd. auth_step.
    eapply pc_mono; [by apply (IH s0)|]. intros. by left.
  - eapply pc_mono; [by apply (request_reasoned s0)|]. intros u s1 (Ha1 & Hs1 & Hr1). eapply pc_mono; [by apply IH|]. intros u' s2 Hlater Hd2.
    destruct (Hlater Hd2) as [Hd1|(q & Hq & Hen)]; right.
    + exists p. split; [by left|]. exact (Hr1 Hd1).
    + exists q. split; [by right|]. by rewrite Hs1 in Hen.
Qed.

(** ** Public key requests *)

Definition type_name (type : Z) : list Z := if type =? DROPBEAR_SIGNKEY_DSS then chars SSH_SIGNKEY_DSS else chars SSH_SIGNKEY_RSA.

Lemma pub_bytes_blob key type into out : readable key type into out ->
  type_name type ∈ key_names /\ exists numbers, pub_bytes key type = key_blob (type_name type) numbers.
Proof.
  intros [d into' E _ _|r into' E _ _].
  - split; [by right; left|]. unfold pub_bytes. cbn [Z.eqb Pos.eqb DROPBEAR_SIGNKEY_DSS]. rewrite E. by eexists.
  - split; [by left|]. unfold pub_bytes. cbn [Z.eqb Pos.eqb DROPBEAR_SIGNKEY_DSS DROPBEAR_SIGNKEY_RSA]. rewrite E. by eexists.
Qed.

Lemma have_key_name name : name ∈ key_names -> have_algo (name ++ [0]) (zlen name) sshhostkey = true.
Proof. unfold key_names. rewrite !elem_of_cons. by intros [->|[->|[]%not_elem_of_nil]]. Qed.

Lemma fileperm_run filename pw s : logged_account (a_authstate s) pw -> safe_file pw filename -> checkfileperm filename s = Ok (true, s).
Proof.
  intros (Euid & _) (uid & mode & E & Hu & Hm). unfold checkfileperm. rewrite E, (bind_ok _ _ _ (a_authstate s) s) by reflexivity. rewrite Euid, Hm.
  cbn zeta. by destruct Hu as [-> | ->]; rewrite ?Z.eqb_refl, ?andb_false_r.
Qed.

Lemma checkpubkeyperms_run pw s : logged_account (a_authstate s) pw -> safe_keys pw -> checkpubkeyperms s = Ok (true, s).
Proof.
  intros Hl (Hne & H1' & H2' & H3'). unfold checkpubkeyperms. rewrite (bind_ok _ _ _ (a_authstate s) s) by reflexivity.
  destruct Hl as (Euid & Edir & Hl). rewrite Edir. destruct (passwd_dir pw) as [|x dir] eqn:Ed; [done|]. rewrite <-Ed in *.
  assert (Hlog : logged_account (a_authstate s) pw) by (by split; [|split]).
  rewrite (bind_ok _ _ _ _ _ (fileperm_run _ pw s Hlog H1')). cbn [negb]. rewrite (bind_ok _ _ _ _ _ (fileperm_run _ pw s Hlog H2')). cbn [negb].
  rewrite <-app_assoc. exact (fileperm_run _ pw s Hlog H3').
Qed.

(** The options that checkpubkey leaves: of the first line that grants, or, for
    a line without options, those that were there. *)
Definition granted_options (name keyblob : list Z) (lines : list auth_line) (old new : option PubKeyOptions) : Prop :=
  exists before l after p, lines = before ++ l :: after /\ Forall (fun l => forall p, ~ grants name keyblob l p) before /\ grants name keyblob l p /\
    match p with Some _ => new = p | None => new = old \/ new = None end.

Lemma checkpubkey_run name keyblob lines pw s : logged_account (a_authstate s) pw -> safe_keys pw -> name ∈ key_names ->
  fopen (authorized_keys_of (passwd_dir pw)) = Some (file_text lines) -> Forall good_line lines ->
  Exists (fun l => exists p, grants name keyblob l p) lines ->
  exists new, checkpubkey (name ++ [0]) (zlen name) keyblob s = Ok (true, set_a_authstate (set_pubkey_options new (a_authstate s)) s) /\
    granted_options name keyblob lines (pubkey_options (a_authstate s)) new.
Proof.
  intros Hl Hsafe Hname Hf Hgood Hex. unfold checkpubkey. rewrite (have_key_name name Hname). cbn [negb].
  rewrite (bind_ok _ _ _ _ _ (checkpubkeyperms_run pw s Hl Hsafe)). cbn [negb]. rewrite (bind_ok _ _ _ (a_authstate s) s) by reflexivity.
  pose proof Hl as (_ & Edir & _). rewrite Edir, (bind_ok _ _ _ (passwd_dir pw) s) by reflexivity. rewrite Hf.
  destruct (search_authfile_ok name keyblob lines s Hname Hgood) as (ok & opts & E & Hout & _). rewrite (bind_ok _ _ _ _ _ E). cbn [fst snd].
  destruct ok; [|exfalso; apply Exists_exists in Hex as (l & Hl' & p & Hg); unfold search_outcome in Hout; rewrite Forall_forall in Hout; exact (Hout l Hl' p Hg)].
  destruct Hout as (before & l & after & El & Hb & Hg).
  destruct opts as [opts|].
  - exists opts. split; [done|]. exists before, l, after, opts. split_and!; [done..|]. destruct opts; [done|by right].
  - exists (pubkey_options (a_authstate s)). split.
    + assert (Es : set_a_authstate (set_pubkey_options (pubkey_options (a_authstate s)) (a_authstate s)) s = s) by (by destruct s as [? ? ? []]). by rewrite Es.
    + exists before, l, after, None. split_and!; [done..|by left].
Qed.

Lemma signed_data_run {S} session_id payload pre post room (s : S) : zlen session_id = SHA1_HASH_SIZE -> bytes session_id ->
  buf_repr payload pre post room -> zlen pre <= 2 ^ 20 ->
  signed_data session_id payload s = Ok (store32h SHA1_HASH_SIZE ++ session_id ++ pre, s).
Proof.
  intros Hsl Hsb Hb Hpl. change (2 ^ 20) with 1048576 in Hpl. unfold SHA1_HASH_SIZE in *. pose proof (zlen_nonneg pre). unfold signed_data. rewrite (br_pos _ _ _ _ Hb), u32_small by (unfold is_u32, SHA1_HASH_SIZE; lia).
  destruct (repr_buf_new (zlen pre + 4 + SHA1_HASH_SIZE) s) as (b0 & E0 & Hb0); [unfold BUF_MAX_SIZE, SHA1_HASH_SIZE; lia|]. rewrite (bind_ok _ _ _ _ _ E0).
  unfold SHA1_HASH_SIZE in *.
  destruct (repr_putstring b0 [] [] _ session_id 20 (eq_sym Hsl) Hb0 Hsb) as (b1 & E1 & Hb1); [rewrite zlen_nil; lia|]. rewrite !append_post, !append_room in Hb1 by lia. cbn [app] in Hb1.
  destruct (br_data _ _ _ _ Hb) as (rest & Hd & _). pose proof (br_bytes _ _ _ _ Hb) as Hby.
  assert (Ht : ztake (zlen pre) (b_data payload) = pre) by (rewrite Hd; apply ztake_app_zlen).
  assert (Hle : 0 <= zlen pre <= zlen (b_data payload)) by (rewrite Hd, zlen_app; pose proof (zlen_nonneg (post ++ rest)); lia).
  destruct (repr_putprefix b1 _ [] _ (b_data payload) (zlen pre) Hle Hb1 Hby) as (b2 & E2 & Hb2); [rewrite zlen_nil; lia|]. rewrite Ht, !append_post, !append_room in Hb2 by lia.
  destruct (repr_rewind _ _ _ _ Hb2) as (b3 & E3 & Hb3). rewrite app_nil_r, <-app_assoc in Hb3. set (content := store32h 20 ++ session_id ++ pre) in *.
  assert (El : b_len b3 = zlen content) by (rewrite (br_len _ _ _ _ Hb3), zlen_nil; lia).
  assert (Er : getptr_bytes (zlen content) b3 = Ok (content, b3)) by (rewrite <-(app_nil_r content) in Hb3; exact (repr_getptr_bytes b3 [] content [] _ _ eq_refl Hb3)).
  rewrite (bind_ok _ _ _ (content, b3) s); [done|]. unfold on.
  rewrite (bind_ok _ _ _ _ _ E1), (bind_ok _ _ _ _ _ E2), (bind_ok _ _ _ _ _ E3), (bind_ok _ _ _ (b_len b3) b3) by reflexivity. by rewrite El, Er.
Qed.

(** The request of a client that signs, up to the signature. *)
Definition pubkey_request (user name blob : list Z) : list Z := request user AUTH_METHOD_PUBKEY (1 :: str name ++ str blob).

(** What the client signs. *)
Definition to_sign (session_id request : list Z) : list Z :=
  store32h SHA1_HASH_SIZE ++ session_id ++ SSH_MSG_USERAUTH_REQUEST :: request.

Lemma svr_auth_pubkey_run key type out lines pw s pre content room :
  logged_account (a_authstate s) pw -> safe_keys pw -> fopen (authorized_keys_of (passwd_dir pw)) = Some (file_text lines) -> Forall good_line lines ->
  readable key type new_sign_key out -> Exists (fun l => exists p, grants (type_name type) (pub_bytes key type) l p) lines ->
  zlen (a_session_id s) = SHA1_HASH_SIZE -> bytes (a_session_id s) ->
  let blob := pub_bytes key type in
  let signed := pre ++ 1 :: str (type_name type) ++ str blob in
  zlen signed <= 2 ^ 20 -> buf_repr (a_payload s) pre (1 :: str (type_name type) ++ str blob ++ str content) room ->
  exists b new, buf_repr b signed (str content) room /\ granted_options (type_name type) blob lines (pubkey_options (a_authstate s)) new /\
    svr_auth_pubkey s =
      (ok <- on_payload (SignKey.buf_verify out (store32h SHA1_HASH_SIZE ++ a_session_id s ++ signed)) ;;
       if ok : bool then send_msg_userauth_success else send_msg_userauth_failure false true)%prog
      (set_a_authstate (set_pubkey_options new (a_authstate s)) (set_a_payload b s)).
Proof.
  intros Hl Hsafe Hf Hgood Hread Hex Hsl Hsb blob signed Hlen Hb. destruct (pub_bytes_blob key type _ _ Hread) as (Hname & numbers & Eblob).
  destruct (key_name_facts _ Hname) as (Hn7 & _).
  destruct (repr_getbyte _ _ _ _ _ Hb) as (b1 & E1 & Hb1). assert (E1' : buf_getbool (a_payload s) = Ok (1, b1)) by (unfold buf_getbool; by rewrite (bind_ok _ _ _ _ _ E1)).
  destruct (repr_getstr _ _ (type_name type) _ room ltac:(by rewrite Hn7) Hb1) as (b2 & E2 & Hb2).
  assert (H32 : is_u32 (zlen blob)).
  { pose proof (zlen_nonneg blob). unfold signed, str in Hlen. rewrite zlen_app, zlen_cons, !zlen_app, !zlen_store32h in Hlen. change (2 ^ 20) with 1048576 in Hlen.
    pose proof (zlen_nonneg pre). pose proof (zlen_nonneg (type_name type)). unfold is_u32. lia. }
  unfold str at 2 in Hb2. rewrite <-app_assoc in Hb2. destruct (repr_getint _ _ _ _ room H32 Hb2) as (b3 & E3 & Hb3).
  pose proof (repr_getptr_bytes b3 _ blob (str content) room (zlen blob) eq_refl Hb3) as E4.
  destruct (get_pub_key_ok key type DROPBEAR_SIGNKEY_ANY new_sign_key out b3 _ (str content) room Hread (or_introl eq_refl) Hb3) as (b4 & E5 & Hb4).
  assert (Hpre4 : ((pre ++ [1] ++ str (type_name type)) ++ store32h (zlen blob)) ++ pub_bytes key type = signed).
  { unfold signed, str. fold blob. by rewrite <-!app_assoc. }
  rewrite Hpre4 in Hb4. set (s3 := set_a_payload b3 s).
  destruct (checkpubkey_run (type_name type) blob lines pw s3 Hl Hsafe Hname Hf Hgood Hex) as (new & E6 & Hnew). exists b4, new. split; [done|]. split; [exact Hnew|].
  unfold svr_auth_pubkey.
  rewrite (bind_ok _ _ _ _ _ (on_payload_run buf_getbool s _ b1 E1')). cbn zeta. cbn [Z.eqb].
  rewrite (bind_ok _ _ _ _ _ (on_payload_run buf_getstring (set_a_payload b1 s) _ b2 E2)). cbv beta iota.
  rewrite (bind_ok _ _ _ _ _ (on_payload_run buf_getint (set_a_payload b2 (set_a_payload b1 s)) _ b3 E3)).
  change (set_a_payload b3 (set_a_payload b2 (set_a_payload b1 s))) with s3.
  rewrite (bind_ok _ _ _ _ _ (on_payload_run (getptr_bytes (zlen blob)) s3 _ b3 E4)). change (set_a_payload b3 s3) with s3.
  rewrite (bind_ok _ _ _ _ _ E6). cbn [negb]. set (s4 := set_a_authstate _ s3).
  rewrite (bind_ok _ _ _ _ _ (on_payload_run (SignKey.buf_get_pub_key new_sign_key DROPBEAR_SIGNKEY_ANY) s4 _ b4 E5)). cbv beta iota. cbn [negb].
  set (s5 := set_a_payload b4 s4). rewrite (bind_ok _ _ _ (a_session_id s) s5), (bind_ok _ _ _ b4 s5) by reflexivity.
  rewrite (bind_ok _ _ _ _ _ (signed_data_run (a_session_id s) b4 signed (str content) room s5 Hsl Hsb Hb4 Hlen)). done.
Qed.

(** The server's answer to a request whose signature verifies. *)
Lemma signed_request_ok priv type out lines pw user content s room :
  admitted user = true -> getpwnam user = Some pw -> (0 ∉ user) -> zlen user <= MAX_USERNAME_LEN ->
  safe_keys pw -> fopen (authorized_keys_of (passwd_dir pw)) = Some (file_text lines) -> Forall good_line lines ->
  has_key priv type -> readable priv type new_sign_key out ->
  Exists (fun l => exists p, grants (type_name type) (pub_bytes priv type) l p) lines ->
  zlen (a_session_id s) = SHA1_HASH_SIZE -> bytes (a_session_id s) ->
  let blob := pub_bytes priv type in
  let req := pubkey_request user (type_name type) blob in
  (forall c pre' room'', buf_repr c pre' (str content) room'' -> exists c', SignKey.buf_verify out (to_sign (a_session_id s) req) c = Ok (true, c')) ->
  waiting s -> close_fails (a_childpipe s) = false -> buf_repr (a_payload s) [SSH_MSG_USERAUTH_REQUEST] (req ++ str content) room ->
  exists s', recv_msg_userauth_request svr_opts s = Ok (tt, s') /\ authdone (a_authstate s') = true /\
    a_sent s' = a_sent s ++ [[SSH_MSG_USERAUTH_SUCCESS]] /\
    granted_options (type_name type) blob lines (pubkey_options (look_up user (a_authstate s))) (pubkey_options (a_authstate s')).
Proof.
  intros Hadm Epw Hu Hul Hsafe Hf Hgood Hhas Hread Hex Hsl Hsb blob req Hver Hw Hclose Hb.
  assert (Hb' : buf_repr (a_payload s) [SSH_MSG_USERAUTH_REQUEST] (request user AUTH_METHOD_PUBKEY (1 :: str (type_name type) ++ str blob ++ str content)) room).
  { unfold req, pubkey_request, request in Hb. rewrite <-!app_assoc in Hb. cbn [app] in Hb. rewrite <-!app_assoc in Hb. exact Hb. }
  destruct (request_run user AUTH_METHOD_PUBKEY _ s _ room Hw Hu Hul ltac:(by vm_compute) Hb') as (b & Hb1 & E2). rewrite E2. clear E2.
  set (s1 := set_a_authstate _ _). pose proof (look_up_logged user _ pw (w_account _ Hw) Epw) as Hl.
  set (pre := _ ++ str user ++ _) in Hb1. assert (Hsigned : pre ++ 1 :: str (type_name type) ++ str blob = SSH_MSG_USERAUTH_REQUEST :: req).
  { unfold pre, req, pubkey_request, request. by rewrite <-!app_assoc. }
  assert (Hlen : zlen (pre ++ 1 :: str (type_name type) ++ str blob) <= 2 ^ 20).
  { rewrite Hsigned. unfold req, pubkey_request, request, str. destruct (pub_bytes_blob priv type _ _ Hread) as (Hname & _). destruct (key_name_facts _ Hname) as (Hn7 & _).
    assert (Hbl : zlen blob <= MAX_PUBKEY_SIZE) by (unfold blob, pub_bytes; destruct Hhas as [d Ed _ Hd|r Er _ Hr]; cbn [Z.eqb Pos.eqb DROPBEAR_SIGNKEY_DSS DROPBEAR_SIGNKEY_RSA]; [by rewrite Ed|by rewrite Er]).
    rewrite zlen_cons, !zlen_app, zlen_cons, !zlen_app, !zlen_store32h, Hn7. change (zlen SSH_SERVICE_CONNECTION) with 14. change (zlen AUTH_METHOD_PUBKEY) with 9.
    unfold MAX_PUBKEY_SIZE, MAX_USERNAME_LEN in *. change (2 ^ 20) with 1048576. lia. }
  destruct (svr_auth_pubkey_run priv type out lines pw s1 pre content room Hl Hsafe Hf Hgood Hread Hex Hsl Hsb Hlen Hb1)
    as (b2 & new & Hb2 & Hnew & E3).
  unfold userauth_method. rewrite (bind_ok _ _ _ (look_up user (a_authstate s)) s1) by reflexivity. cbn zeta.
  rewrite !is_name_string by (apply (bool_decide_eq_true_1 _); by vm_compute). change (bool_decide (AUTH_METHOD_PUBKEY = AUTH_METHOD_NONE)) with false.
  change (bool_decide (AUTH_METHOD_PUBKEY = AUTH_METHOD_PASSWORD)) with false. change (bool_decide (AUTH_METHOD_PUBKEY = AUTH_METHOD_PUBKEY)) with true.
  rewrite andb_false_r, Hadm. cbn [andb]. rewrite E3. fold blob. rewrite Hsigned. set (s2 := set_a_authstate _ (set_a_payload b2 s1)).
  destruct (Hver b2 _ room Hb2) as (b3 & E4). change (a_session_id s1) with (a_session_id s).
  rewrite (bind_ok _ _ _ _ _ (on_payload_run (SignKey.buf_verify out (to_sign (a_session_id s) req)) s2 _ b3 E4)). cbn iota.
  destruct (success_run (set_a_payload b3 s2) (w_ready _ Hw) Hclose) as (w & _ & E5). exists (logged_in (sent w [SSH_MSG_USERAUTH_SUCCESS] (set_a_payload b3 s2))).
  split; [done|]. unfold logged_in. destruct (pw_uid _ =? 0); cbn; by split_and!.
Qed.

(** ** Properties *)

(** C15: No login without credentials.  However many requests a client sends
    after the server has set up its state, and whatever bytes they hold: if the
    server regards the client as logged in, then one of the requests named an
    account that exists, may log in and has a listed shell, and either held the
    password that hashes to the account's (with passwords allowed for it), or
    asked for an account with a blank password where the options allow that, or
    held a public key that the account's authorized_keys file (in directories
    only the user or root can write) lists, with a signature over the session
    id and the request that the key verifies. *)
Theorem no_login_without_credentials payloads s s' :
  (svr_authinitialise svr_opts ;;; handle_requests payloads) s = Ok (tt, s') -> authdone (a_authstate s') = true ->
  exists p, p ∈ payloads /\ entitled (a_session_id s) p.
Proof.
  intros (u & s1 & E1 & E2)%bind_inv Hd.
  assert (Hs1 : account_of (a_authstate s1) /\ authdone (a_authstate s1) = false /\ a_session_id s1 = a_session_id s).
  { assert (Hi : pc (svr_authinitialise svr_opts) (fun _ s1 => account_of (a_authstate s1) /\ authdone (a_authstate s1) = false /\ a_session_id s1 = a_session_id s) s)
      by (unfold svr_authinitialise, authclear, mod_auth; auth_steps; done).
    exact (pc_ok _ _ _ _ _ Hi E1). }
  destruct Hs1 as (Ha & Hd1 & Es). pose proof (pc_ok _ _ _ _ _ (requests_entitled payloads s1 Ha) E2 Hd) as [Hd1'|(p & Hp & Hen)]; [congruence|].
  exists p. split; [done|]. by rewrite Es in Hen.
Qed.

(** A password request.  In a session that waits for a request, a request
    with a name and a password is answered with success, and the user is in,
    exactly when the account is admitted, passwords are allowed for it and the
    password hashes to the one stored, which is not blank; otherwise it is
    answered with the list of methods and counted for the name, after a delay,
    and when the count reaches ten the server ends the session. *)
Theorem password_request_decided user password s pre post room : waiting s -> fits_request user password ->
  close_fails (a_childpipe s) = false -> buf_repr (a_payload s) pre (password_request user password ++ post) room ->
  if right_password user password then
    exists b w, recv_msg_userauth_request svr_opts s =
      Ok (tt, logged_in (sent w [SSH_MSG_USERAUTH_SUCCESS] (set_a_payload b (set_a_authstate (look_up user (a_authstate s)) s))))
  else if tries user s <? MAX_AUTH_TRIES then
    exists s', recv_msg_userauth_request svr_opts s = Ok (tt, s') /\ waiting s' /\ as_username (a_authstate s') = Some user /\
      failcount (a_authstate s') = tries user s /\ exists bs, a_slept s' = a_slept s ++ [delay_of bs]
  else recv_msg_userauth_request svr_opts s = Exit "Max auth tries reached".
Proof.
  intros Hw Hf Hclose Hb. destruct (right_password user password) eqn:Hright; [|by eapply wrong_attempt].
  destruct (password_request_run user password s pre post room Hw Hf Hb) as (b & E). rewrite Hright in E. exists b.
  destruct (success_run (set_a_payload b (set_a_authstate (look_up user (a_authstate s)) s)) (w_ready _ Hw) Hclose) as (w & _ & Ew).
  exists w. by rewrite E.
Qed.

(** Ten attempts for one name.  A client that keeps asking for the same
    account with passwords that are wrong gets nine refusals; the tenth request
    ends the session, whatever comes after it. *)
Theorem tenth_attempt_exits user (passwords : list (list Z)) s : waiting s -> as_username (a_authstate s) <> Some user ->
  Forall (fun p => wrong_packet (user, p)) passwords ->
  if zlen passwords <? MAX_AUTH_TRIES then
    exists s', handle_requests (map (fun p => password_packet (user, p)) passwords) s = Ok (tt, s') /\ waiting s'
  else handle_requests (map (fun p => password_packet (user, p)) passwords) s = Exit "Max auth tries reached".
Proof.
  intros Hw Hn Hwrong.
  assert (Hgen : forall s, waiting s ->
    if failcount (look_up user (a_authstate s)) + zlen passwords <? MAX_AUTH_TRIES then
      exists s', handle_requests (map (fun p => password_packet (user, p)) passwords) s = Ok (tt, s') /\ waiting s'
    else handle_requests (map (fun p => password_packet (user, p)) passwords) s = Exit "Max auth tries reached").
  { clear s Hw Hn. induction Hwrong as [|p ps Hp _ IH]; intros s Hw; pose proof (look_up_count user _ (w_count _ Hw)) as Hc.
    - rewrite zlen_nil, Z.add_0_r, (proj2 (Z.ltb_lt _ _) (proj2 Hc)). by exists s.
    - cbn [map]. rewrite handle_one, zlen_cons. pose proof (wrong_packet_step (user, p) s Hw Hp) as Hstep. cbn [fst snd] in Hstep. cbn zeta in Hstep. pose proof (zlen_nonneg ps).
      unfold tries in Hstep. destruct (Z.ltb_spec (failcount (look_up user (a_authstate s)) + 1) MAX_AUTH_TRIES) as [Hlt|Hge].
      + destruct Hstep as (s1 & E1 & Hw1 & Hu1 & Hc1). rewrite (bind_ok _ _ _ _ _ E1). specialize (IH s1 Hw1). unfold look_up in IH at 1.
        rewrite bool_decide_eq_true_2, Hc1 in IH by done. rewrite Z.add_assoc. exact IH.
      + rewrite (bind_exit _ _ _ _ Hstep), (proj2 (Z.ltb_ge _ _)) by lia. done. }
  specialize (Hgen s Hw). rewrite (look_up_new user _ Hn), Z.add_0_l in Hgen. exact Hgen.
Qed.

Fixpoint names_change (last : option (list Z)) (attempts : list (list Z * list Z)) : Prop :=
  match attempts with
  | [] => True
  | up :: attempts => last <> Some up.1 /\ names_change (Some up.1) attempts
  end.

(** Changing the name resets the count.  A client that never asks for the
    same name twice in a row may try as many passwords as it likes in one
    session: no sequence of wrong attempts, however long, ends it, and the
    count is never above one (the comment on authclear says that it does not
    reset the count). *)
Theorem alternating_names_are_not_limited (attempts : list (list Z * list Z)) s : waiting s ->
  Forall wrong_packet attempts -> names_change (as_username (a_authstate s)) attempts ->
  exists s', handle_requests (map password_packet attempts) s = Ok (tt, s') /\ waiting s' /\
    (attempts <> [] -> failcount (a_authstate s') = 1).
Proof.
  intros Hw Hwrong. revert s Hw. induction Hwrong as [|up attempts Hup _ IH]; intros s Hw Hn; [by exists s|].
  destruct Hn as [Hn Hns]. cbn [map]. rewrite handle_one. pose proof (wrong_packet_step up s Hw Hup) as Hstep. cbn zeta in Hstep. unfold tries in Hstep.
  rewrite (look_up_new up.1 _ Hn) in Hstep. destruct Hstep as (s1 & E1 & Hw1 & Hu1 & Hc1). rewrite (bind_ok _ _ _ _ _ E1).
  rewrite <-Hu1 in Hns. destruct (IH s1 Hw1 Hns) as (s2 & E2 & Hw2 & Hc2). exists s2. split; [done|]. split; [done|]. intros _.
  destruct attempts; [|by apply Hc2]. cbn in E2. injection E2 as <-. exact Hc1.
Qed.
(** Logging in with a key.  Take a private key whose public half the account's
    authorized_keys file lists, in files with safe permissions, and let the
    client sign the session id and its request with it, with a random number
    that is coprime to the modulus (and, for DSS, with an invertible s).  Then
    signing succeeds, and a server that waits for a request and admits the
    account answers the request with that signature with success; the user is
    in, with the options of the first line that lists the key. *)
Theorem pubkey_login_succeeds {G} `{RandomMp G} `{!ExptModLaws} priv type out lines pw user session_id (rng : G) k rng' c0 pre0 room0 :
  admitted user = true -> getpwnam user = Some pw -> (0 ∉ user) -> zlen user <= MAX_USERNAME_LEN ->
  safe_keys pw -> fopen (authorized_keys_of (passwd_dir pw)) = Some (file_text lines) -> Forall good_line lines ->
  has_key priv type -> readable priv type new_sign_key out -> key_pair priv out type ->
  Exists (fun l => exists p, grants (type_name type) (pub_bytes priv type) l p) lines ->
  gen_random_mpint (random_modulus priv type) rng = (k, rng') -> 0 <= k -> Z.gcd k (random_modulus priv type) = 1 ->
  zlen session_id = SHA1_HASH_SIZE -> bytes session_id -> buf_repr c0 pre0 [] room0 -> 4 + MAX_PUBKEY_SIZE <= room0 ->
  let blob := pub_bytes priv type in
  let req := pubkey_request user (type_name type) blob in
  exists content c1 room1, SignKey.buf_put_sign priv type (to_sign session_id req) rng c0 = Ok (rng', c1) /\
    buf_repr c1 (pre0 ++ str content) [] room1 /\
    (good_s out type content -> forall s room, waiting s -> a_session_id s = session_id -> close_fails (a_childpipe s) = false ->
      buf_repr (a_payload s) [SSH_MSG_USERAUTH_REQUEST] (req ++ str content) room ->
      exists s', recv_msg_userauth_request svr_opts s = Ok (tt, s') /\ authdone (a_authstate s') = true /\
        a_sent s' = a_sent s ++ [[SSH_MSG_USERAUTH_SUCCESS]] /\
        granted_options (type_name type) blob lines (pubkey_options (look_up user (a_authstate s))) (pubkey_options (a_authstate s'))).
Proof.
  intros Hadm Epw Hu Hul Hsafe Hf Hgood Hhas Hread Hpair Hex Ek Hk Hgcd Hsl Hsb Hc0 Hroom0 blob req.
  destruct (sign_then_verify priv out type (to_sign session_id req) rng k rng' c0 pre0 room0 Hpair Ek Hk Hgcd Hc0 Hroom0) as (content & c1 & room1 & E1 & Hc1 & Hver).
  exists content, c1, room1. split; [done|]. split; [done|]. intros Hgood_s s room Hw <- Hclose Hb.
  by apply (signed_request_ok priv type out lines pw user content s room); [..|exact (Hver Hgood_s)| | |].
Qed.
End Claims.

(** ** A server with one account *)

Definition bob : list Z := Eval cbv in chars "bob".
Definition bob_home : list Z := Eval cbv in chars "/home/bob".
Definition bob_shell : list Z := Eval cbv in chars "/bin/sh".
Definition bob_password : list Z := Eval cbv in chars "secret".

(** Bob's key file lists the key of SignKey.v after the lines of AuthKeys.v. *)
Definition bob_numbers : list Z := Eval vm_compute in zdrop 11 (pub_bytes toy_priv DROPBEAR_SIGNKEY_RSA).
Definition bob_lines : list auth_line := sample_lines ++ [KeyLine None (chars SSH_SIGNKEY_RSA) bob_numbers []].

(** The "hash" of a password is the password. *)
#[local] Existing Instance exptmod_by_squaring.

#[export] Instance small_system : AuthSystem := {
  getpwnam u := if bool_decide (u = bob) then Some (mkpasswd bob 1000 1000 bob_home bob_shell (Some bob_password)) else None;
  getspnam _ := None;
  geteuid := 0;
  shells := [bob_shell];
  crypt p _ := if bool_decide (Forall is_byte p) then Some p else None;
  stat f := Some (1000, 493);
  fopen f := Some (file_text bob_lines);
  close_fails _ := false
}.

#[export] Program Instance small_system_laws : AuthSystemLaws.
Next Obligation. intros p salt t. cbn. case_bool_decide; [|done]. by intros [= <-]. Qed.
Next Obligation. intros u pw p. cbn. case_bool_decide; [|done]. intros [= <-] [= <-]. apply (bool_decide_eq_true_1 _). by vm_compute. Qed.
Next Obligation. done. Qed.

Definition plain_opts : svr_runopts := mkopts false false false false.

Definition first_session : auth_sess Z :=
  mka (packet_payload []) (empty_buffer 4000) [] (mkas None 0 0 false false 0 0 None None None None None) (replicate 20 7) 5 false None 9 [] 3 [].

Lemma first_waiting : waiting first_session.
Proof. split; [done|done|done|exists 4000; split; [done|by apply empty_buffer_repr]|by vm_compute]. Qed.

Definition carol : list Z := Eval cbv in chars "carol".

Lemma wrong_guesses (l : list (list Z * list Z)) :
  forallb (fun up => bool_decide ((0 ∉ up.1) /\ zlen up.1 <= MAX_USERNAME_LEN /\ (0 ∉ up.2) /\ zlen up.2 <= MAX_STRING_LEN /\ bytes up.1 /\ bytes up.2) &&
    negb (right_password plain_opts up.1 up.2)) l = true -> Forall (wrong_packet plain_opts) l.
Proof.
  rewrite forallb_forall. intros Hl. apply Forall_forall. intros up Hup%list_elem_of_In. apply Hl in Hup as [H1%bool_decide_eq_true_1 H2%negb_true_iff]%andb_true_iff.
  destruct H1 as (? & ? & ? & ? & ? & ?). by repeat split.
Qed.

(** The session after a login with the right password. *)
Definition after_login : auth_sess Z :=
  match (svr_authinitialise plain_opts ;;; handle_requests plain_opts [password_packet (bob, carol); password_packet (bob, bob_password)])%prog first_session with
  | Ok (_, s) => s
  | _ => first_session
  end.

Lemma no_login_without_credentials_witness : authdone (a_authstate after_login) = true /\
  exists p, p ∈ [password_packet (bob, carol); password_packet (bob, bob_password)] /\ entitled plain_opts (a_session_id first_session) p.
Proof.
  assert (Hrun : (svr_authinitialise plain_opts ;;; handle_requests plain_opts [password_packet (bob, carol); password_packet (bob, bob_password)])%prog first_session =
    Ok (tt, after_login)) by (by vm_compute).
  assert (Hd : authdone (a_authstate after_login) = true) by (by vm_compute). split; [exact Hd|].
  exact (no_login_without_credentials plain_opts _ first_session after_login Hrun Hd).
Defined.

Definition login_session : auth_sess Z := set_a_payload (password_packet (bob, bob_password)) first_session.

Lemma password_request_decided_witness : right_password plain_opts bob bob_password = true /\
  exists b w, recv_msg_userauth_request plain_opts login_session =
    Ok (tt, logged_in (sent w [SSH_MSG_USERAUTH_SUCCESS] (set_a_payload b (set_a_authstate (look_up plain_opts bob (a_authstate login_session)) login_session)))).
Proof.
  assert (Hr : right_password plain_opts bob bob_password = true) by (by vm_compute). split; [exact Hr|].
  pose proof (password_request_decided plain_opts bob bob_password login_session [SSH_MSG_USERAUTH_REQUEST] [] 0) as Hd. rewrite Hr in Hd. apply Hd.
  - pose proof first_waiting as []. by split.
  - by apply (bool_decide_eq_true_1 _); vm_compute.
  - done.
  - rewrite app_nil_r. apply packet_payload_repr; [apply (bool_decide_eq_true_1 _)|]; by vm_compute.
Defined.

Lemma tenth_attempt_exits_witness :
  (exists s', handle_requests plain_opts (map (fun p => password_packet (bob, p)) (replicate 9 carol)) first_session = Ok (tt, s') /\ waiting s') /\
  handle_requests plain_opts (map (fun p => password_packet (bob, p)) (replicate 10 carol)) first_session = Exit "Max auth tries reached".
Proof.
  split; [refine (tenth_attempt_exits plain_opts bob (replicate 9 carol) first_session _ _ _)|refine (tenth_attempt_exits plain_opts bob (replicate 10 carol) first_session _ _ _)];
    try exact first_waiting; try done; apply (proj1 (List.Forall_map (pair bob) (wrong_packet plain_opts) _)), wrong_guesses; by vm_compute.
Defined.

Lemma alternating_names_are_not_limited_witness :
  exists s', handle_requests plain_opts (map password_packet (concat (replicate 30 [(bob, carol); (carol, bob)]))) first_session = Ok (tt, s') /\ waiting s' /\
    (concat (replicate 30 [(bob, carol); (carol, bob)]) <> [] -> failcount (a_authstate s') = 1).
Proof.
  apply (alternating_names_are_not_limited plain_opts (concat (replicate 30 [(bob, carol); (carol, bob)])) first_session first_waiting).
  - apply wrong_guesses. by vm_compute.
  - by cbn; repeat split.
Defined.

(** Only the length of the service's name is tested, or only its start: a
    request for another service of fourteen letters is answered. *)
Example other_service_passes :
  match recv_msg_userauth_request plain_opts (set_a_payload (packet_payload (str bob ++ str (chars "ssh-cinnection") ++ str AUTH_METHOD_NONE)) first_session) with
  | Ok (_, s') => a_sent s' = [failure_message 6 false]
  | _ => False
  end.
Proof. by vm_compute. Qed.

Lemma bob_lines_good : Forall good_line bob_lines.
Proof.
  apply Forall_app_2; [exact sample_good|]. apply Forall_cons_2; [|apply Forall_nil_2]. repeat split.
  - apply (bool_decide_eq_true_1 _). by vm_compute.
  - apply (bool_decide_eq_true_1 _). by vm_compute.
  - by left.
  - apply (bool_decide_eq_true_1 _). by vm_compute.
  - by left.
Qed.

#[local] Existing Instance exptmod_by_squaring_laws.
#[local] Instance counting_mpint : RandomMp Z := { gen_random_mpint max r := (r mod max, r + 1) }.

Lemma pubkey_login_succeeds_witness :
  let blob := pub_bytes toy_priv DROPBEAR_SIGNKEY_RSA in
  let req := pubkey_request bob (type_name DROPBEAR_SIGNKEY_RSA) blob in
  exists content c1 room1, SignKey.buf_put_sign toy_priv DROPBEAR_SIGNKEY_RSA (to_sign (replicate 20 7) req) 2 (empty_buffer 2000) = Ok (3, c1) /\
    buf_repr c1 ([] ++ str content) [] room1 /\
    (good_s toy_out DROPBEAR_SIGNKEY_RSA content -> forall (s : auth_sess Z) room, waiting s -> a_session_id s = replicate 20 7 -> close_fails (a_childpipe s) = false ->
      buf_repr (a_payload s) [SSH_MSG_USERAUTH_REQUEST] (req ++ str content) room ->
      exists s', recv_msg_userauth_request plain_opts s = Ok (tt, s') /\ authdone (a_authstate s') = true /\
        a_sent s' = a_sent s ++ [[SSH_MSG_USERAUTH_SUCCESS]] /\
        granted_options (type_name DROPBEAR_SIGNKEY_RSA) blob bob_lines (pubkey_options (look_up plain_opts bob (a_authstate s))) (pubkey_options (a_authstate s'))).
Proof.
  apply (pubkey_login_succeeds plain_opts toy_priv DROPBEAR_SIGNKEY_RSA toy_out bob_lines (mkpasswd bob 1000 1000 bob_home bob_shell (Some bob_password)) bob
    (replicate 20 7) 2 2 3 (empty_buffer 2000) [] 2000).
  - by vm_compute.
  - reflexivity.
  - apply (bool_decide_eq_true_1 _). by vm_compute.
  - by vm_compute.
  - assert (Hf : forall f, safe_file (mkpasswd bob 1000 1000 bob_home bob_shell (Some bob_password)) f) by (intros f; exists 1000, 493; split_and!; [done|by left|done]).
    split; [done|]. split_and!; apply Hf.
  - reflexivity.
  - exact bob_lines_good.
  - exact toy_has_key.
  - exact toy_readable.
  - exact toy_out_pair.
  - unfold bob_lines. apply Exists_app. right. apply Exists_cons_hd. exists None. apply grants_plain. by vm_compute.
  - by vm_compute.
  - lia.
  - by vm_compute.
  - by vm_compute.
  - apply (bool_decide_eq_true_1 _). by vm_compute.
  - by apply empty_buffer_repr.
  - by vm_compute.
Defined.

(** Options without a command: running anything crashes the session. *)
Example options_without_command_crash (s : auth_sess Z) o : pubkey_options (a_authstate s) = Some o -> forced_command o = None ->
  forall original cmd, exists e, svr_pubkey_set_forced_command original cmd s = Fault e.
Proof. intros E Ef original cmd. unfold svr_pubkey_set_forced_command. rewrite (bind_ok _ _ _ (a_authstate s) s) by reflexivity. rewrite E, Ef. by eexists. Qed.
