(* ===== verification/CliAuth.v ===== *)
(** The client's authentication: cli-auth.c, cli-authpubkey.c,
    cli-authpasswd.c, cli-authinteract.c, the requests to an agent of
    cli-agentfwd.c, and the part of cli-session.c that drives them.  One
    definition per C function.  The user at the terminal, the environment and
    the agent are state and a class; the list of keys is used through the
    interface of MList.v; encrypt_packet is what the packet layer does for its
    callers (Packet.encrypt_packet_ok). *)

From S2P Require Import Prelude Dbutil Buffer Ssh Algo Mpint Packet Kex SignCommon Dss Rsa SignKey AuthKeys SvrAuth MList.

Local Open Scope Z_scope.
Local Open Scope prog_scope.

(** ** Constants *)

Definition AUTH_TYPE_NONE : Z := 1.
Definition AUTH_TYPE_INTERACT : Z := Z.shiftl 1 3.
Definition AUTH_METHOD_INTERACT : list Z := Eval cbv in chars "keyboard-interactive".
Definition AUTH_METHOD_INTERACT_LEN : Z := 20.
Definition SSH_MSG_USERAUTH_INFO_RESPONSE : Z := 61.
Definition MAX_BANNER_SIZE : Z := 2000.
Definition MAX_BANNER_LINES : Z := 20.
Definition DROPBEAR_MAX_CLI_PASS : Z := 1024.
Definition DROPBEAR_MAX_CLI_INTERACT_PROMPTS : Z := 80.
Definition MAX_AGENT_REPLY : Z := 10000.
Definition SSH2_AGENTC_REQUEST_IDENTITIES : Z := 11.
Definition SSH2_AGENT_IDENTITIES_ANSWER : Z := 12.
Definition SSH2_AGENTC_SIGN_REQUEST : Z := 13.
Definition SSH2_AGENT_SIGN_RESPONSE : Z := 14.

(** ** The system *)

(** The path in SSH_AUTH_SOCK, connecting to a socket (a descriptor, or -1),
    what can be read from the agent after a list of requests ([None] when
    writing the last one fails), that closing a descriptor ends with an error
    that is not EBADF, and what realloc leaves in new memory. *)
Class ClientSystem := {
  ssh_auth_sock : option (list Z);
  connect_unix : list Z -> Z;
  agent_answers : list (list Z) -> option (list Z);
  cli_close_fails : Z -> bool;
  fresh_memory : Z -> Z
}.

(** The fields of [cli_opts] that stay as they are. *)
Record cli_runopts := mkcliopts { username : list Z; remotehost : list Z }.

(** ** The session *)

Inductive cli_state := STATE_NOTHING | USERAUTH_REQ_SENT | USERAUTH_FAIL_RCVD | USERAUTH_SUCCESS_RCVD | SESSION_RUNNING.

#[export] Instance cli_state_eq_dec : EqDecision cli_state.
Proof. solve_decision. Defined.

(** A key: the address of its structure, by which keys are compared, and what
    it holds. *)
Definition cli_key : Type := Z * sign_key.

(** What the code uses of [ses], [cli_ses] and [cli_opts].  [c_trans_none]: the
    transmitted packets are not encrypted; [c_privkeys]: the list of keys;
    [c_agent_in]: what the agent has sent and has not been read; [c_env]: the
    value of DROPBEAR_PASSWORD; [c_terminal]: what the next calls of getpass or
    fgets give; [c_printed]: what was written to the terminal; [c_next]: the
    address of the next key. *)
Record cli_sess (L R : Type) := mkc {
  c_payload : buffer; c_writepayload : buffer; c_sent : list (list Z); c_authstate : AuthState; c_session_id :
  list Z; c_trans_none : bool; c_state : cli_state; c_lastauthtype : Z; c_auth_interact_failed : bool;
  c_interact_request_received : bool; c_lastprivkey : option Z; c_privkeys : L; c_agent_keys_loaded : bool;
  c_agent_fd : Z; c_agent_asked : list (list Z); c_agent_in : list Z; c_env : option (list Z); c_terminal :
  list (option (list Z)); c_printed : list (list Z); c_closed : list Z; c_random : R; c_next : Z }.
Arguments mkc {L R}.
Arguments c_payload {L R}.
Arguments c_writepayload {L R}.
Arguments c_sent {L R}.
Arguments c_authstate {L R}.
Arguments c_session_id {L R}.
Arguments c_trans_none {L R}.
Arguments c_state {L R}.
Arguments c_lastauthtype {L R}.
Arguments c_auth_interact_failed {L R}.
Arguments c_interact_request_received {L R}.
Arguments c_lastprivkey {L R}.
Arguments c_privkeys {L R}.
Arguments c_agent_keys_loaded {L R}.
Arguments c_agent_fd {L R}.
Arguments c_agent_asked {L R}.
Arguments c_agent_in {L R}.
Arguments c_env {L R}.
Arguments c_terminal {L R}.
Arguments c_printed {L R}.
Arguments c_closed {L R}.
Arguments c_random {L R}.
Arguments c_next {L R}.

Definition set_c_payload {L R} (x : buffer) (s : cli_sess L R) : cli_sess L R :=
  mkc x (c_writepayload s) (c_sent s) (c_authstate s) (c_session_id s) (c_trans_none s) (c_state s) (c_lastauthtype s)
    (c_auth_interact_failed s) (c_interact_request_received s) (c_lastprivkey s) (c_privkeys s) (c_agent_keys_loaded
    s) (c_agent_fd s) (c_agent_asked s) (c_agent_in s) (c_env s) (c_terminal s) (c_printed s) (c_closed s) (c_random
    s) (c_next s).
Definition set_c_writepayload {L R} (x : buffer) (s : cli_sess L R) : cli_sess L R :=
  mkc (c_payload s) x (c_sent s) (c_authstate s) (c_session_id s) (c_trans_none s) (c_state s) (c_lastauthtype s)
    (c_auth_interact_failed s) (c_interact_request_received s) (c_lastprivkey s) (c_privkeys s) (c_agent_keys_loaded
    s) (c_agent_fd s) (c_agent_asked s) (c_agent_in s) (c_env s) (c_terminal s) (c_printed s) (c_closed s) (c_random
    s) (c_next s).
Definition set_c_sent {L R} (x : list (list Z)) (s : cli_sess L R) : cli_sess L R :=
  mkc (c_payload s) (c_writepayload s) x (c_authstate s) (c_session_id s) (c_trans_none s) (c_state s) (c_lastauthtype
    s) (c_auth_interact_failed s) (c_interact_request_received s) (c_lastprivkey s) (c_privkeys s)
    (c_agent_keys_loaded s) (c_agent_fd s) (c_agent_asked s) (c_agent_in s) (c_env s) (c_terminal s) (c_printed s)
    (c_closed s) (c_random s) (c_next s).
Definition set_c_authstate {L R} (x : AuthState) (s : cli_sess L R) : cli_sess L R :=
  mkc (c_payload s) (c_writepayload s) (c_sent s) x (c_session_id s) (c_trans_none s) (c_state s) (c_lastauthtype s)
    (c_auth_interact_failed s) (c_interact_request_received s) (c_lastprivkey s) (c_privkeys s) (c_agent_keys_loaded
    s) (c_agent_fd s) (c_agent_asked s) (c_agent_in s) (c_env s) (c_terminal s) (c_printed s) (c_closed s) (c_random
    s) (c_next s).
Definition set_c_state {L R} (x : cli_state) (s : cli_sess L R) : cli_sess L R :=
  mkc (c_payload s) (c_writepayload s) (c_sent s) (c_authstate s) (c_session_id s) (c_trans_none s) x (c_lastauthtype
    s) (c_auth_interact_failed s) (c_interact_request_received s) (c_lastprivkey s) (c_privkeys s)
    (c_agent_keys_loaded s) (c_agent_fd s) (c_agent_asked s) (c_agent_in s) (c_env s) (c_terminal s) (c_printed s)
    (c_closed s) (c_random s) (c_next s).
Definition set_c_lastauthtype {L R} (x : Z) (s : cli_sess L R) : cli_sess L R :=
  mkc (c_payload s) (c_writepayload s) (c_sent s) (c_authstate s) (c_session_id s) (c_trans_none s) (c_state s) x
    (c_auth_interact_failed s) (c_interact_request_received s) (c_lastprivkey s) (c_privkeys s) (c_agent_keys_loaded
    s) (c_agent_fd s) (c_agent_asked s) (c_agent_in s) (c_env s) (c_terminal s) (c_printed s) (c_closed s) (c_random
    s) (c_next s).
Definition set_c_auth_interact_failed {L R} (x : bool) (s : cli_sess L R) : cli_sess L R :=
  mkc (c_payload s) (c_writepayload s) (c_sent s) (c_authstate s) (c_session_id s) (c_trans_none s) (c_state s)
    (c_lastauthtype s) x (c_interact_request_received s) (c_lastprivkey s) (c_privkeys s) (c_agent_keys_loaded s)
    (c_agent_fd s) (c_agent_asked s) (c_agent_in s) (c_env s) (c_terminal s) (c_printed s) (c_closed s) (c_random s)
    (c_next s).
Definition set_c_interact_request_received {L R} (x : bool) (s : cli_sess L R) : cli_sess L R :=
  mkc (c_payload s) (c_writepayload s) (c_sent s) (c_authstate s) (c_session_id s) (c_trans_none s) (c_state s)
    (c_lastauthtype s) (c_auth_interact_failed s) x (c_lastprivkey s) (c_privkeys s) (c_agent_keys_loaded s)
    (c_agent_fd s) (c_agent_asked s) (c_agent_in s) (c_env s) (c_terminal s) (c_printed s) (c_closed s) (c_random s)
    (c_next s).
Definition set_c_lastprivkey {L R} (x : option Z) (s : cli_sess L R) : cli_sess L R :=
  mkc (c_payload s) (c_writepayload s) (c_sent s) (c_authstate s) (c_session_id s) (c_trans_none s) (c_state s)
    (c_lastauthtype s) (c_auth_interact_failed s) (c_interact_request_received s) x (c_privkeys s)
    (c_agent_keys_loaded s) (c_agent_fd s) (c_agent_asked s) (c_agent_in s) (c_env s) (c_terminal s) (c_printed s)
    (c_closed s) (c_random s) (c_next s).
Definition set_c_privkeys {L R} (x : L) (s : cli_sess L R) : cli_sess L R :=
  mkc (c_payload s) (c_writepayload s) (c_sent s) (c_authstate s) (c_session_id s) (c_trans_none s) (c_state s)
    (c_lastauthtype s) (c_auth_interact_failed s) (c_interact_request_received s) (c_lastprivkey s) x
    (c_agent_keys_loaded s) (c_agent_fd s) (c_agent_asked s) (c_agent_in s) (c_env s) (c_terminal s) (c_printed s)
    (c_closed s) (c_random s) (c_next s).
Definition set_c_agent_keys_loaded {L R} (x : bool) (s : cli_sess L R) : cli_sess L R :=
  mkc (c_payload s) (c_writepayload s) (c_sent s) (c_authstate s) (c_session_id s) (c_trans_none s) (c_state s)
    (c_lastauthtype s) (c_auth_interact_failed s) (c_interact_request_received s) (c_lastprivkey s) (c_privkeys s) x
    (c_agent_fd s) (c_agent_asked s) (c_agent_in s) (c_env s) (c_terminal s) (c_printed s) (c_closed s) (c_random s)
    (c_next s).
Definition set_c_agent_fd {L R} (x : Z) (s : cli_sess L R) : cli_sess L R :=
  mkc (c_payload s) (c_writepayload s) (c_sent s) (c_authstate s) (c_session_id s) (c_trans_none s) (c_state s)
    (c_lastauthtype s) (c_auth_interact_failed s) (c_interact_request_received s) (c_lastprivkey s) (c_privkeys s)
    (c_agent_keys_loaded s) x (c_agent_asked s) (c_agent_in s) (c_env s) (c_terminal s) (c_printed s) (c_closed s)
    (c_random s) (c_next s).
Definition set_c_agent_asked {L R} (x : list (list Z)) (s : cli_sess L R) : cli_sess L R :=
  mkc (c_payload s) (c_writepayload s) (c_sent s) (c_authstate s) (c_session_id s) (c_trans_none s) (c_state s)
    (c_lastauthtype s) (c_auth_interact_failed s) (c_interact_request_received s) (c_lastprivkey s) (c_privkeys s)
    (c_agent_keys_loaded s) (c_agent_fd s) x (c_agent_in s) (c_env s) (c_terminal s) (c_printed s) (c_closed s)
    (c_random s) (c_next s).
Definition set_c_agent_in {L R} (x : list Z) (s : cli_sess L R) : cli_sess L R :=
  mkc (c_payload s) (c_writepayload s) (c_sent s) (c_authstate s) (c_session_id s) (c_trans_none s) (c_state s)
    (c_lastauthtype s) (c_auth_interact_failed s) (c_interact_request_received s) (c_lastprivkey s) (c_privkeys s)
    (c_agent_keys_loaded s) (c_agent_fd s) (c_agent_asked s) x (c_env s) (c_terminal s) (c_printed s) (c_closed s)
    (c_random s) (c_next s).
Definition set_c_env {L R} (x : option (list Z)) (s : cli_sess L R) : cli_sess L R :=
  mkc (c_payload s) (c_writepayload s) (c_sent s) (c_authstate s) (c_session_id s) (c_trans_none s) (c_state s)
    (c_lastauthtype s) (c_auth_interact_failed s) (c_interact_request_received s) (c_lastprivkey s) (c_privkeys s)
    (c_agent_keys_loaded s) (c_agent_fd s) (c_agent_asked s) (c_agent_in s) x (c_terminal s) (c_printed s) (c_closed
    s) (c_random s) (c_next s).
Definition set_c_terminal {L R} (x : list (option (list Z))) (s : cli_sess L R) : cli_sess L R :=
  mkc (c_payload s) (c_writepayload s) (c_sent s) (c_authstate s) (c_session_id s) (c_trans_none s) (c_state s)
    (c_lastauthtype s) (c_auth_interact_failed s) (c_interact_request_received s) (c_lastprivkey s) (c_privkeys s)
    (c_agent_keys_loaded s) (c_agent_fd s) (c_agent_asked s) (c_agent_in s) (c_env s) x (c_printed s) (c_closed s)
    (c_random s) (c_next s).
Definition set_c_printed {L R} (x : list (list Z)) (s : cli_sess L R) : cli_sess L R :=
  mkc (c_payload s) (c_writepayload s) (c_sent s) (c_authstate s) (c_session_id s) (c_trans_none s) (c_state s)
    (c_lastauthtype s) (c_auth_interact_failed s) (c_interact_request_received s) (c_lastprivkey s) (c_privkeys s)
    (c_agent_keys_loaded s) (c_agent_fd s) (c_agent_asked s) (c_agent_in s) (c_env s) (c_terminal s) x (c_closed s)
    (c_random s) (c_next s).
Definition set_c_closed {L R} (x : list Z) (s : cli_sess L R) : cli_sess L R :=
  mkc (c_payload s) (c_writepayload s) (c_sent s) (c_authstate s) (c_session_id s) (c_trans_none s) (c_state s)
    (c_lastauthtype s) (c_auth_interact_failed s) (c_interact_request_received s) (c_lastprivkey s) (c_privkeys s)
    (c_agent_keys_loaded s) (c_agent_fd s) (c_agent_asked s) (c_agent_in s) (c_env s) (c_terminal s) (c_printed s) x
    (c_random s) (c_next s).
Definition set_c_random {L R} (x : R) (s : cli_sess L R) : cli_sess L R :=
  mkc (c_payload s) (c_writepayload s) (c_sent s) (c_authstate s) (c_session_id s) (c_trans_none s) (c_state s)
    (c_lastauthtype s) (c_auth_interact_failed s) (c_interact_request_received s) (c_lastprivkey s) (c_privkeys s)
    (c_agent_keys_loaded s) (c_agent_fd s) (c_agent_asked s) (c_agent_in s) (c_env s) (c_terminal s) (c_printed s)
    (c_closed s) x (c_next s).
Definition set_c_next {L R} (x : Z) (s : cli_sess L R) : cli_sess L R :=
  mkc (c_payload s) (c_writepayload s) (c_sent s) (c_authstate s) (c_session_id s) (c_trans_none s) (c_state s)
    (c_lastauthtype s) (c_auth_interact_failed s) (c_interact_request_received s) (c_lastprivkey s) (c_privkeys s)
    (c_agent_keys_loaded s) (c_agent_fd s) (c_agent_asked s) (c_agent_in s) (c_env s) (c_terminal s) (c_printed s)
    (c_closed s) (c_random s) x.

(** ** cleantext of cli-session.c

    The text is memory: the characters up to a zero, and what follows it. *)

Definition clean_char (c : Z) : bool := ((32 <=? c) && (c <=? 126)) || (c =? 10) || (c =? 9).

(** The loop with the index [i] of the character read and [j] of the next one
    kept. *)
Fixpoint clean_loop {S} (fuel i j : nat) (text : list Z) : prog S (list Z) :=
  match fuel with
  | O => fault "text without end"
  | S fuel =>
      match text !! i with
      | None => fault "read out of bounds"
      | Some c =>
          if c =? 0 then ret (<[j := 0]> text)
          else if clean_char c then clean_loop fuel (i + 1) (j + 1) (<[j := c]> text)
          else clean_loop fuel (i + 1) j text
      end
  end.

Definition cleantext {S} (dirtytext : list Z) : prog S (list Z) := clean_loop (length dirtytext + 1) 0 0 dirtytext.

(** The loop of recv_msg_userauth_banner over [n] more characters from [i] on. *)
Fixpoint limit_lines (n i : nat) (linecount : Z) (banner : list Z) : list Z :=
  match n with
  | O => banner
  | S n =>
      if znth banner (Z.of_nat i) =? 10 then
        if linecount >=? MAX_BANNER_LINES then <[i := 0]> banner else limit_lines n (i + 1) (linecount + 1) banner
      else limit_lines n (i + 1) linecount banner
  end.

(** The loop of recv_msg_userauth_failure: [n] more positions from [i] on, the
    current name starting at [tok]. *)
Fixpoint match_methods (n i tok : nat) (methods : list Z) (types : Z) : Z :=
  match n with
  | O => types
  | S n =>
      if znth methods (Z.of_nat i) =? 0 then
        let name := drop tok methods in
        let types := if strncmp_eq (Z.to_nat AUTH_METHOD_PUBKEY_LEN) AUTH_METHOD_PUBKEY name then Z.lor types AUTH_TYPE_PUBKEY else types in
        let types := if strncmp_eq (Z.to_nat AUTH_METHOD_INTERACT_LEN) AUTH_METHOD_INTERACT name then Z.lor types AUTH_TYPE_INTERACT else types in
        let types := if strncmp_eq (Z.to_nat AUTH_METHOD_PASSWORD_LEN) AUTH_METHOD_PASSWORD name then Z.lor types AUTH_TYPE_PASSWORD else types in
        match_methods n (i + 1) (i + 1) methods types
      else match_methods n (i + 1) tok methods types
  end.

Section CliAuth.
Context {L R : Type} `{MListOps L cli_key} `{RandomMp R} `{ExptMod} `{ClientSystem} (cli_opts : cli_runopts).
Abbreviation sess := (cli_sess L R).
Implicit Types (s : sess).

Definition on_payload {A} (m : prog buffer A) : prog sess A := zoom c_payload set_c_payload m.
Definition on_wp {A} (m : prog buffer A) : prog sess A := zoom c_writepayload set_c_writepayload m.
Definition on_keys {A} (m : prog L A) : prog sess A := zoom c_privkeys set_c_privkeys m.
Definition auth : prog sess AuthState := gets c_authstate.
Definition mod_auth (f : AuthState -> AuthState) : prog sess unit := modify (fun s => set_c_authstate (f (c_authstate s)) s).
Definition print (text : list Z) : prog sess unit := modify (fun s => set_c_printed (c_printed s ++ [text]) s).

Definition encrypt_packet : prog sess unit :=
  b <- gets c_writepayload ;;
  modify (fun s => set_c_sent (c_sent s ++ [ztake (b_len b) (b_data b)]) s) ;;;
  on_wp (buf_setpos 0) ;;;
  on_wp (buf_setlen 0).

Definition cli_m_close (fd : Z) : prog sess unit :=
  if cli_close_fails fd then dropbear_exit "Error closing fd" else modify (fun s => set_c_closed (c_closed s ++ [fd]) s).

(** The type, the user's name, the service and the method, with which every
    request starts. *)
Definition put_userauth_request (method : list Z) (len : Z) : prog sess unit :=
  on_wp (buf_putbyte SSH_MSG_USERAUTH_REQUEST) ;;;
  on_wp (buf_putstring (username cli_opts) (zlen (username cli_opts))) ;;;
  on_wp (buf_putstring SSH_SERVICE_CONNECTION SSH_SERVICE_CONNECTION_LEN) ;;;
  on_wp (buf_putstring method len).

(** ** cli-agentfwd.c *)

Definition connect_agent : prog sess Z :=
  match ssh_auth_sock with
  | None => ret (-1)
  | Some agent_sock => ret (connect_unix agent_sock)
  end.

(** [atomicio(write, ...)]: whether all of the request was written. *)
Definition agent_write (request : list Z) : prog sess bool :=
  asked <- gets c_agent_asked ;;
  match agent_answers (asked ++ [request]) with
  | None => ret false
  | Some answer =>
      modify (fun s => set_c_agent_in (c_agent_in s ++ answer) (set_c_agent_asked (asked ++ [request]) s)) ;;;
      ret true
  end.

(** [atomicio(read, ...)] of [n] bytes: what there is, at most [n] bytes. *)
Definition agent_read (n : Z) : prog sess (list Z) :=
  pending <- gets c_agent_in ;;
  modify (set_c_agent_in (zdrop n pending)) ;;;
  ret (ztake n pending).

(** Reading [n] bytes to the write pointer of a buffer: the number of bytes
    read and the buffer. *)
Definition agent_fill (n : Z) (b : buffer) : prog sess (Z * buffer) :=
  x <- on b (buf_getwriteptr n) ;;
  bytes <- agent_read n ;;
  x <- on (snd x) (store_bytes (fst x) bytes) ;;
  ret (zlen bytes, snd x).

(** [None] is a null pointer; the buffer after a failed read is returned as it
    is. *)
Definition agent_request (type : Z) (data : option buffer) : prog sess (option buffer) :=
  let data_len := match data with Some d => b_len d | None => 0 end in
  payload <- buf_new (u32 (4 + 1 + data_len)) ;;
  x <- on payload (
    buf_putint (u32 (1 + data_len)) ;;;
    buf_putbyte type ;;;
    match data with Some d => buf_putbytes (b_data d) (b_len d) | None => ret tt end ;;;
    buf_setpos 0 ;;;
    len <- gets b_len ;;
    getptr_bytes len) ;;
  ok <- agent_write (fst x) ;;
  if negb ok then ret None
  else
    inbuf <- buf_new 4 ;;
    x <- agent_fill 4 inbuf ;;
    let '(n, inbuf) := x in
    if negb (n =? 4) then ret (Some inbuf)
    else
      x <- on inbuf (buf_setpos 0 ;;; buf_setlen 4 ;;; buf_getint) ;;
      let '(readlen, inbuf) := x in
      if readlen >? MAX_AGENT_REPLY then ret (Some inbuf)
      else
        x <- on inbuf (buf_resize fresh_memory readlen ;;; buf_setpos 0) ;;
        x <- agent_fill readlen (snd x) ;;
        let '(n, inbuf) := x in
        if negb (n =? readlen) then ret (Some inbuf)
        else
          x <- on inbuf (buf_incrwritepos readlen ;;; buf_setpos 0) ;;
          ret (Some (snd x)).

(** The loop over the [n] keys of the agent's answer. *)
Fixpoint agent_keys (n : nat) (inbuf : buffer) : prog sess unit :=
  match n with
  | O => ret tt
  | S n =>
      x <- on inbuf buf_getstringbuf ;;
      let '(key_buf, inbuf) := x in
      x <- on key_buf (SignKey.buf_get_pub_key new_sign_key DROPBEAR_SIGNKEY_ANY) ;;
      let '(ok, pubkey, key_type) := fst x in
      if negb ok then dropbear_exit "Bad pubkey received from agent"
      else
        let pubkey := mksk key_type SIGNKEY_SOURCE_AGENT (sk_filename pubkey) (sk_dsskey pubkey) (sk_rsakey pubkey) in
        p <- gets c_next ;;
        modify (set_c_next (p + 1)) ;;;
        on_keys (l_append (p, pubkey)) ;;;
        x <- on inbuf buf_eatstring ;;
        agent_keys n (snd x)
  end.

Definition agent_get_key_list : prog sess unit :=
  inbuf <- agent_request SSH2_AGENTC_REQUEST_IDENTITIES None ;;
  match inbuf with
  | None => ret tt
  | Some inbuf =>
      x <- on inbuf buf_getbyte ;;
      if negb (fst x =? SSH2_AGENT_IDENTITIES_ANSWER) then ret tt
      else
        x <- on (snd x) buf_getint ;;
        agent_keys (Z.to_nat (fst x)) (snd x)
  end.

Definition cli_load_agent_keys : prog sess unit :=
  fd <- connect_agent ;;
  modify (set_c_agent_fd fd) ;;;
  if fd <? 0 then ret tt else agent_get_key_list.

(** The signature is put into [sigblob]. *)
Definition agent_buf_sign (sigblob : buffer) (key : sign_key) (data : list Z) (len : Z) : prog sess buffer :=
  request_data <- buf_new (u32 (MAX_PUBKEY_SIZE + len + 12)) ;;
  x <- on request_data (
    SignKey.buf_put_pub_key key (sk_type key) ;;;
    buf_putstring data len ;;;
    buf_putint 0) ;;
  response <- agent_request SSH2_AGENTC_SIGN_REQUEST (Some (snd x)) ;;
  match response with
  | None => dropbear_exit "Agent failed signing key"
  | Some response =>
      x <- on response buf_getbyte ;;
      if negb (fst x =? SSH2_AGENT_SIGN_RESPONSE) then dropbear_exit "Agent failed signing key"
      else
        x <- on (snd x) (siglen <- buf_getint ;; bytes <- getptr_bytes siglen ;; ret (siglen, bytes)) ;;
        let '(siglen, bytes) := fst x in
        x <- on sigblob (buf_putbytes bytes siglen) ;;
        ret (snd x)
  end.

(** ** cli-authpubkey.c *)

Definition key_at (p : option Z) (x : addr * cli_key) : bool := bool_decide (Some (fst (snd x)) = p).

Definition cli_pubkeyfail : prog sess unit :=
  keys <- on_keys l_walk ;;
  lastprivkey <- gets c_lastprivkey ;;
  match List.find (key_at lastprivkey) keys with
  | None => ret tt
  | Some (iter, _) => on_keys (l_remove iter) ;;; modify (set_c_lastprivkey None)
  end.

Definition cli_buf_put_sign (key : sign_key) (type : Z) (data : list Z) (len : Z) : prog sess unit :=
  match sk_source key with
  | SIGNKEY_SOURCE_AGENT =>
      sigblob <- buf_new MAX_PUBKEY_SIZE ;;
      sigblob <- agent_buf_sign sigblob key data len ;;
      x <- on sigblob (buf_setpos 0 ;;; n <- gets b_len ;; getptr_bytes n) ;;
      on_wp (buf_putstring (fst x) (b_len (snd x)))
  | _ =>
      rng <- gets c_random ;;
      rng <- on_wp (SignKey.buf_put_sign key type (ztake len data) rng) ;;
      modify (set_c_random rng)
  end.

Definition send_msg_userauth_pubkey (key : sign_key) (type : Z) (realsign : bool) : prog sess unit :=
  put_userauth_request AUTH_METHOD_PUBKEY AUTH_METHOD_PUBKEY_LEN ;;;
  on_wp (buf_putbyte (if realsign then 1 else 0)) ;;;
  x <- signkey_name_from_type type ;;
  let '(algoname, algolen) := x in
  on_wp (buf_putstring algoname algolen) ;;;
  on_wp (SignKey.buf_put_pub_key key type) ;;;
  when realsign (
    w <- gets c_writepayload ;;
    session_id <- gets c_session_id ;;
    sigbuf <- buf_new (u32 (4 + SHA1_HASH_SIZE + b_len w)) ;;
    x <- on sigbuf (
      buf_putstring session_id SHA1_HASH_SIZE ;;;
      buf_putbytes (b_data w) (b_len w)) ;;
    cli_buf_put_sign key type (b_data (snd x)) (b_len (snd x))) ;;;
  encrypt_packet.

(** The loop over the keys: the first one whose public half is what the server
    sent.  [keybuf] is used again for every key of the type. *)
Fixpoint match_key (keytype remotelen : Z) (keybuf : buffer) (keys : list (addr * cli_key)) : prog sess (option cli_key) :=
  match keys with
  | [] => ret None
  | (_, (p, key)) :: keys =>
      if negb (sk_type key =? keytype) then match_key keytype remotelen keybuf keys
      else
        x <- on (set_pos 0 (set_len 0 keybuf)) (SignKey.buf_put_pub_key key keytype ;;; buf_setpos 0 ;;; buf_incrpos 4) ;;
        let keybuf := snd x in
        if negb (u32 (b_len keybuf - 4) =? remotelen) then match_key keytype remotelen keybuf keys
        else
          a <- on keybuf (getptr_bytes remotelen) ;;
          b <- on_payload (getptr_bytes remotelen) ;;
          if bool_decide (fst a = b) then ret (Some (p, key)) else match_key keytype remotelen keybuf keys
  end.

Definition recv_msg_userauth_pk_ok : prog sess unit :=
  x <- on_payload buf_getstring ;;
  let '(algotype, algolen) := x in
  keytype <- signkey_type_from_name algotype algolen ;;
  keybuf <- buf_new MAX_PUBKEY_SIZE ;;
  remotelen <- on_payload buf_getint ;;
  keys <- on_keys l_walk ;;
  found <- match_key keytype remotelen keybuf keys ;;
  match found with
  | Some (_, key) => send_msg_userauth_pubkey key keytype true
  | None => ret tt
  end.

Definition cli_auth_pubkey : prog sess bool :=
  loaded <- gets c_agent_keys_loaded ;;
  when (negb loaded) (cli_load_agent_keys ;;; modify (set_c_agent_keys_loaded true)) ;;;
  first <- on_keys l_first ;;
  match first with
  | Some (_, (p, key)) =>
      send_msg_userauth_pubkey key (sk_type key) false ;;;
      modify (set_c_lastprivkey (Some p)) ;;;
      ret true
  | None => ret false
  end.

(** [while (privkeys->first)]: at most one turn for each of [n] keys. *)
Fixpoint free_keys (n : nat) : prog sess unit :=
  first <- on_keys l_first ;;
  match first, n with
  | None, _ => ret tt
  | Some _, O => fault "list without end"
  | Some (iter, _), S n => on_keys (l_remove iter) ;;; free_keys n
  end.

Definition cli_auth_pubkey_cleanup : prog sess unit :=
  fd <- gets c_agent_fd ;;
  cli_m_close fd ;;;
  modify (set_c_agent_fd (-1)) ;;;
  keys <- on_keys l_walk ;;
  free_keys (length keys).

(** ** Passwords *)

(** One answer of the user. *)
Definition read_terminal : prog sess (option (list Z)) :=
  t <- gets c_terminal ;;
  match t with
  | [] => ret None
  | answer :: t => modify (set_c_terminal t) ;;; ret answer
  end.

(** The password, and whether it is the environment's memory. *)
Definition getpass_or_cancel (prompt : list Z) : prog sess (list Z * bool) :=
  env <- gets c_env ;;
  match env with
  | Some password => ret (password, true)
  | None =>
      print prompt ;;;
      password <- read_terminal ;;
      match password with
      | None => dropbear_exit "Interrupted."
      | Some password => if bool_decide (3 ∈ password) then dropbear_exit "Interrupted." else ret (password, false)
      end
  end.

(** [m_burn(password, strlen(password))]: what the environment holds is
    overwritten with zeros, which leaves an empty string there. *)
Definition burn_password (in_env : bool) : prog sess unit := when in_env (modify (set_c_env (Some []))).

Definition cli_auth_password : prog sess unit :=
  x <- getpass_or_cancel (ztake 79 (username cli_opts ++ chars "@" ++ remotehost cli_opts ++ chars "'s password: ")) ;;
  let '(password, in_env) := x in
  put_userauth_request AUTH_METHOD_PASSWORD AUTH_METHOD_PASSWORD_LEN ;;;
  on_wp (buf_putbyte 0) ;;;
  on_wp (buf_putstring password (zlen password)) ;;;
  encrypt_packet ;;;
  burn_password in_env.

(** ** cli-authinteract.c *)

(** [fgets] gives a line of at most DROPBEAR_MAX_CLI_PASS - 1 characters. *)
Definition get_response (prompt : list Z) : prog sess (list Z) :=
  print prompt ;;;
  line <- read_terminal ;;
  match line with
  | None => ret []
  | Some line =>
      let buf := ztake (DROPBEAR_MAX_CLI_PASS - 1) line in
      let buflen := zlen buf in
      ret (if (buflen >? 0) && (znth buf (buflen - 1) =? 10) then ztake (buflen - 1) buf else buf)
  end.

Fixpoint answer_prompts (n : nat) : prog sess unit :=
  match n with
  | O => ret tt
  | S n =>
      x <- on_payload buf_getstring ;;
      prompt <- cleantext (fst x) ;;
      echo <- on_payload buf_getbool ;;
      response <- (if echo =? 0 then
                     x <- getpass_or_cancel (c_string prompt) ;;
                     burn_password (snd x) ;;;
                     ret (fst x)
                   else get_response (c_string prompt)) ;;
      on_wp (buf_putstring response (zlen response)) ;;;
      answer_prompts n
  end.

(** [if (strlen(text) > 0) { cleantext(text); fprintf(stderr, "%s", text); }] *)
Definition print_clean (text : list Z) : prog sess unit :=
  match c_string text with
  | [] => ret tt
  | _ => text <- cleantext text ;; print (c_string text)
  end.

Definition recv_msg_userauth_info_request : prog sess unit :=
  received <- gets c_interact_request_received ;;
  when (negb received) (print (chars "Login for " ++ username cli_opts ++ chars "@" ++ remotehost cli_opts ++ [10])) ;;;
  modify (set_c_interact_request_received true) ;;;
  name <- on_payload buf_getstring ;;
  instruction <- on_payload buf_getstring ;;
  on_payload buf_eatstring ;;;
  num_prompts <- on_payload buf_getint ;;
  if num_prompts >=? DROPBEAR_MAX_CLI_INTERACT_PROMPTS then dropbear_exit "Too many prompts received for keyboard-interactive"
  else
    on_wp (buf_putbyte SSH_MSG_USERAUTH_INFO_RESPONSE) ;;;
    on_wp (buf_putint num_prompts) ;;;
    print_clean (fst name) ;;;
    print_clean (fst instruction) ;;;
    answer_prompts (Z.to_nat num_prompts) ;;;
    encrypt_packet.

Definition cli_auth_interactive : prog sess unit :=
  put_userauth_request AUTH_METHOD_INTERACT AUTH_METHOD_INTERACT_LEN ;;;
  on_wp (buf_putstring [] 0) ;;;
  on_wp (buf_putstring [] 0) ;;;
  encrypt_packet ;;;
  modify (set_c_interact_request_received false).

(** ** cli-auth.c *)

Definition cli_authinitialise : prog sess unit :=
  mod_auth (fun _ => mkas None 0 0 false false 0 0 None None None None None).

Definition cli_auth_getmethods : prog sess unit :=
  put_userauth_request AUTH_METHOD_NONE AUTH_METHOD_NONE_LEN ;;;
  encrypt_packet.

Definition recv_msg_userauth_banner : prog sess unit :=
  a <- auth ;;
  if authdone a then ret tt
  else
    x <- on_payload buf_getstring ;;
    let '(banner, bannerlen) := x in
    on_payload buf_eatstring ;;;
    if bannerlen >? MAX_BANNER_SIZE then ret tt
    else
      banner <- cleantext banner ;;
      print (c_string (limit_lines (Z.to_nat bannerlen) 0 1 banner) ++ [10]).

Definition recv_msg_userauth_specific_60 : prog sess unit :=
  last <- gets c_lastauthtype ;;
  if last =? AUTH_TYPE_PUBKEY then recv_msg_userauth_pk_ok
  else if last =? AUTH_TYPE_INTERACT then recv_msg_userauth_info_request
  else if last =? AUTH_TYPE_PASSWORD then dropbear_exit "Your password has expired."
  else dropbear_exit "Unexpected userauth packet".

Definition recv_msg_userauth_failure : prog sess unit :=
  state <- gets c_state ;;
  if negb (bool_decide (state = USERAUTH_REQ_SENT)) then dropbear_exit "Unexpected userauth failure"
  else
    last <- gets c_lastauthtype ;;
    when (last =? AUTH_TYPE_PUBKEY) cli_pubkeyfail ;;;
    received <- gets c_interact_request_received ;;
    when ((last =? AUTH_TYPE_INTERACT) && negb received) (modify (set_c_auth_interact_failed true)) ;;;
    modify (set_c_lastauthtype AUTH_TYPE_NONE) ;;;
    x <- on_payload buf_getstring ;;
    let '(methods, methlen) := x in
    partial <- on_payload buf_getbool ;;
    when (partial =? 0) (mod_auth (fun a => set_failcount (u32 (failcount a + 1)) a)) ;;;
    mod_auth (fun a => set_authtypes 0 (set_authdone false a)) ;;;
    let methods := map (fun c => if c =? 44 then 0 else c) (ztake methlen methods) ++ zdrop methlen methods in
    mod_auth (fun a => set_authtypes (match_methods (Z.to_nat methlen + 1) 0 0 methods 0) a) ;;;
    modify (set_c_state USERAUTH_FAIL_RCVD).

Definition recv_msg_userauth_success : prog sess unit :=
  mod_auth (set_authdone true) ;;;
  modify (set_c_state USERAUTH_SUCCESS_RCVD) ;;;
  modify (set_c_lastauthtype AUTH_TYPE_NONE) ;;;
  cli_auth_pubkey_cleanup.

Definition cli_auth_try : prog sess bool :=
  a <- auth ;;
  let offers type := negb (Z.land (authtypes a) type =? 0) in
  finished <- (if offers AUTH_TYPE_PUBKEY then f <- cli_auth_pubkey ;; modify (set_c_lastauthtype AUTH_TYPE_PUBKEY) ;;; ret f else ret false) ;;
  none <- gets c_trans_none ;;
  finished <- (if negb finished && offers AUTH_TYPE_PASSWORD then
                 if none : bool then print (chars "Sorry, I won't let you use password auth unencrypted." ++ [10]) ;;; ret false
                 else cli_auth_password ;;; modify (set_c_lastauthtype AUTH_TYPE_PASSWORD) ;;; ret true
               else ret finished) ;;
  if negb finished && offers AUTH_TYPE_INTERACT then
    if none : bool then print (chars "Sorry, I won't let you use interactive auth unencrypted." ++ [10]) ;;; ret false
    else
      failed <- gets c_auth_interact_failed ;;
      if failed : bool then ret false
      else cli_auth_interactive ;;; modify (set_c_lastauthtype AUTH_TYPE_INTERACT) ;;; ret true
  else ret finished.

(** ** cli-session.c *)

Definition send_msg_service_request (servicename : list Z) : prog sess unit :=
  on_wp (buf_putbyte SSH_MSG_SERVICE_REQUEST) ;;;
  on_wp (buf_putstring servicename (zlen servicename)) ;;;
  encrypt_packet.

Definition recv_msg_service_accept : prog sess unit := ret tt.

(** The cases of cli_sessionloop that ask for a login. *)
Definition cli_sessionloop_auth : prog sess unit :=
  state <- gets c_state ;;
  match state with
  | STATE_NOTHING =>
      send_msg_service_request SSH_SERVICE_USERAUTH ;;;
      cli_auth_getmethods ;;;
      modify (set_c_state USERAUTH_REQ_SENT)
  | USERAUTH_FAIL_RCVD =>
      ok <- cli_auth_try ;;
      if ok : bool then modify (set_c_state USERAUTH_REQ_SENT) else dropbear_exit "No auth methods could be used."
  | _ => ret tt
  end.

(** The handlers of the authentication in cli_packettypes, by the type of a
    packet; [None]: not one of these. *)
Definition cli_packettypes (type : Z) : option (prog sess unit) :=
  if type =? SSH_MSG_USERAUTH_FAILURE then Some recv_msg_userauth_failure
  else if type =? SSH_MSG_USERAUTH_SUCCESS then Some recv_msg_userauth_success
  else if type =? SSH_MSG_SERVICE_ACCEPT then Some recv_msg_service_accept
  else if type =? SSH_MSG_USERAUTH_BANNER then Some recv_msg_userauth_banner
  else if type =? 60 then Some recv_msg_userauth_specific_60
  else None.
End CliAuth.

(** ** What cleantext and the limit on lines leave *)

Lemma insert_next {A} (l r : list A) x y : <[length l := x]> (l ++ y :: r) = l ++ x :: r.
Proof. by rewrite insert_app_r_alt, Nat.sub_diag by lia. Qed.

(** [kept] has been cleaned, [mid] has been read and is free to be written. *)
Lemma clean_loop_ok {S} kept mid l tail fuel i j text (s : S) :
  text = kept ++ mid ++ l ++ 0 :: tail -> j = length kept -> i = length (kept ++ mid) -> (0 ∉ l) -> (length l < fuel)%nat ->
  exists tail', clean_loop fuel i j text s = Ok (kept ++ List.filter clean_char l ++ 0 :: tail', s) /\
    length (kept ++ List.filter clean_char l ++ 0 :: tail') = length text.
Proof.
  revert kept mid fuel i j text. induction l as [|x l IH]; intros kept mid fuel i j text Et Ej Ei Hl Hf; destruct fuel as [|fuel]; try (cbn in Hf; lia); cbn [clean_loop].
  - assert (Hi : text !! i = Some 0) by (rewrite Et, Ei, app_assoc; by apply list_lookup_middle). rewrite Hi. cbn [Z.eqb List.filter app]. subst j.
    destruct mid as [|y mid]; rewrite Et; cbn [app]; rewrite insert_next; eexists; (split; [reflexivity|]); rewrite !length_app; cbn; rewrite ?length_app; cbn; lia.
  - apply not_elem_of_cons in Hl as [Hx Hl]. assert (Hi : text !! i = Some x) by (rewrite Et, Ei, app_assoc; by apply list_lookup_middle). rewrite Hi.
    rewrite (proj2 (Z.eqb_neq x 0)) by done. cbn [List.filter]. cbn in Hf. destruct (clean_char x).
    + assert (Hnext : exists mid', <[j := x]> text = (kept ++ [x]) ++ mid' ++ l ++ 0 :: tail /\ length mid' = length mid).
      { subst j. rewrite Et. destruct mid as [|y mid]; cbn [app]; rewrite insert_next.
        - exists []. by rewrite <-app_assoc.
        - exists (mid ++ [x]). rewrite <-!app_assoc. cbn [app]. rewrite length_app. cbn. split; [done|lia]. }
      destruct Hnext as (mid' & Et' & Hm). destruct (IH (kept ++ [x]) mid' fuel (i + 1)%nat (j + 1)%nat _ Et') as (tail' & E & Hlen); [rewrite length_app; cbn; lia| |done|lia|].
      { rewrite !length_app in *. cbn. lia. }
      exists tail'. rewrite E. rewrite <-!app_assoc in *. cbn [app] in *. split; [done|]. by rewrite Hlen, length_insert.
    + apply (IH kept (mid ++ [x])); [|done| |done|lia].
      * rewrite Et, <-!app_assoc. done.
      * rewrite Ei, !length_app. cbn. lia.
Qed.

(** The characters that print are kept, in the same memory. *)
Lemma cleantext_ok {S} l tail (s : S) : 0 ∉ l -> exists tail', cleantext (l ++ 0 :: tail) s = Ok (List.filter clean_char l ++ 0 :: tail', s) /\
  length (List.filter clean_char l ++ 0 :: tail') = length (l ++ 0 :: tail).
Proof.
  intros Hl. unfold cleantext. destruct (clean_loop_ok [] [] l tail (length (l ++ 0 :: tail) + 1) 0 0 (l ++ 0 :: tail) s eq_refl eq_refl eq_refl Hl) as (tail' & E & Hlen);
    [rewrite length_app; lia|]. by exists tail'.
Qed.

(** The number of line ends. *)
Definition newlines (l : list Z) : Z := zlen (List.filter (fun x => x =? 10) l).

Lemma newlines_app l k : newlines (l ++ k) = newlines l + newlines k.
Proof. unfold newlines. by rewrite List.filter_app, zlen_app. Qed.

(** Of the text up to the terminator, the first lines are left. *)
Lemma limit_lines_ok done_ todo n i lines text : text = done_ ++ todo -> i = length done_ -> (n <= length todo)%nat ->
  lines = 1 + newlines done_ -> lines <= MAX_BANNER_LINES ->
  exists shown rest, done_ ++ take n todo = (done_ ++ shown) ++ rest /\ newlines (done_ ++ shown) < MAX_BANNER_LINES /\
    ((rest = [] /\ limit_lines n i lines text = text) \/
     (newlines (done_ ++ shown) = MAX_BANNER_LINES - 1 /\ exists after, todo = shown ++ 10 :: after /\ limit_lines n i lines text = done_ ++ shown ++ 0 :: after)).
Proof.
  revert done_ todo i lines. induction n as [|n IH]; intros done_ todo i lines Et Ei Hn Hlines Hmax; cbn [limit_lines].
  - exists [], []. rewrite !app_nil_r. split; [done|]. split; [lia|]. by left.
  - destruct todo as [|x todo]; [cbn in Hn; lia|]. assert (Hx : znth text (Z.of_nat i) = x).
    { unfold znth. rewrite Et, Ei. change (Z.of_nat (length done_)) with (zlen done_). by rewrite zget_mid. }
    rewrite Hx. destruct (Z.eqb_spec x 10) as [->|N].
    + rewrite Z.geb_leb. destruct (Z.leb_spec MAX_BANNER_LINES lines) as [Hle|Hgt].
      * exists [], (10 :: take n todo). rewrite app_nil_r. split; [done|]. split; [lia|]. right. split; [lia|]. exists todo. split; [done|].
        rewrite Et, Ei. cbn [app]. apply insert_next.
      * destruct (IH (done_ ++ [10]) todo (i + 1)%nat (lines + 1)) as (shown & rest & E & Hc & Hcase); [by rewrite Et, <-app_assoc|rewrite length_app; cbn; lia|cbn in Hn; lia| |lia|].
        { rewrite newlines_app. change (newlines [10]) with 1. lia. }
        exists (10 :: shown), rest. cbn [take]. rewrite <-!app_assoc in *. cbn [app] in *. split; [done|]. split; [done|].
        destruct Hcase as [[Hr Hl]|(Hl & after & Ea & El)]; [by left|]. right. split; [done|]. exists after. split; [by rewrite Ea|by rewrite El, <-app_assoc].
    + destruct (IH (done_ ++ [x]) todo (i + 1)%nat lines) as (shown & rest & E & Hc & Hcase); [by rewrite Et, <-app_assoc|rewrite length_app; cbn; lia|cbn in Hn; lia| |lia|].
      { rewrite newlines_app. assert (E0 : newlines [x] = 0) by (unfold newlines; cbn; rewrite (proj2 (Z.eqb_neq _ _) N); done). lia. }
      exists (x :: shown), rest. cbn [take]. rewrite <-!app_assoc in *. cbn [app] in *. split; [done|]. split; [done|].
      destruct Hcase as [[Hr Hl]|(Hl & after & Ea & El)]; [by left|]. right. split; [done|]. exists after. split; [by rewrite Ea|by rewrite El, <-app_assoc].
Qed.

Lemma newlines_nonneg l : 0 <= newlines l.
Proof. apply zlen_nonneg. Qed.

Lemma c_string_split l : (0 ∉ c_string l) /\ exists tail, l ++ [0] = c_string l ++ 0 :: tail.
Proof.
  induction l as [|x l [IH1 (tail & IH2)]]; [by split; [apply not_elem_of_nil|exists []]|]. cbn [c_string app]. destruct (Z.eqb_spec x 0) as [->|N].
  - split; [apply not_elem_of_nil|]. by exists (l ++ [0]).
  - split; [by apply not_elem_of_cons|]. exists tail. by rewrite IH2.
Qed.

Lemma filter_clean l : 0 ∉ List.filter clean_char l.
Proof. intros [_ Hx]%list_elem_of_In%List.filter_In. by vm_compute in Hx. Qed.

(** What the banner [l] becomes: the characters that print, up to its first
    zero, and of these the first lines. *)
Lemma banner_text {S} (l : list Z) (s : S) : exists cleaned text, cleantext (l ++ [0]) s = Ok (cleaned, s) /\
  c_string (limit_lines (length l) 0 1 cleaned) = text /\
  let clean := List.filter clean_char (c_string l) in
  (exists cut, clean = text ++ cut) /\ newlines text < MAX_BANNER_LINES /\ (newlines clean < MAX_BANNER_LINES -> text = clean).
Proof.
  destruct (c_string_split l) as (Hu & tail & El). destruct (cleantext_ok (c_string l) tail s Hu) as (tail' & E & Hlen). rewrite <-El in E, Hlen.
  pose proof (filter_clean (c_string l)) as Hcl. pose proof (List.filter_length_le clean_char (c_string l)) as Hfl.
  assert (Hll : length l = (length (c_string l) + length tail)%nat) by (apply (f_equal length) in El; rewrite !length_app in El; cbn in El; lia).
  set (clean := List.filter clean_char (c_string l)) in *. set (cleaned := clean ++ 0 :: tail') in *. exists cleaned, (c_string (limit_lines (length l) 0 1 cleaned)).
  split; [done|]. split; [done|]. cbn zeta.
  assert (Hall : (length l <= length cleaned)%nat) by (rewrite Hlen, length_app; cbn; lia).
  assert (Ec : c_string cleaned = clean) by (by apply c_string_terminated).
  destruct (limit_lines_ok [] cleaned (length l) 0 1 cleaned eq_refl eq_refl Hall eq_refl ltac:(by vm_compute)) as (shown & rest & Et & Hc & [[-> Hl]|(Hc19 & after & Ea & Hl)]); cbn [app] in *; rewrite Hl.
  - rewrite Ec. split; [exists []; by rewrite app_nil_r|]. split; [|done].
    rewrite app_nil_r in Et. subst shown. unfold cleaned in Hc. rewrite take_app_ge in Hc by lia. rewrite newlines_app in Hc. pose proof (newlines_nonneg (take (length l - length clean) (0 :: tail'))). lia.
  - unfold cleaned in Ea. destruct (app_eq_inv _ _ _ _ Ea) as [(k & Es & Ek)|(k & Es & Ek)].
    + destruct k as [|x k]; [by injection Ek|]. injection Ek as <- _. assert (H0s : 0 ∉ shown) by (intros Hin; apply Hcl; rewrite Es; apply elem_of_app; by left).
      rewrite c_string_terminated by done. split; [by exists (10 :: k)|]. split; [done|]. intros Hn. rewrite Es, newlines_app in Hn.
      assert (E10 : newlines (10 :: k) = 1 + newlines k) by apply zlen_cons. pose proof (newlines_nonneg k). lia.
    + (* the cut is in what follows the terminator *)
      destruct k as [|x k]; [by injection Ek|]. injection Ek as <- ->. rewrite Es, <-app_assoc. cbn [app]. rewrite c_string_terminated by done.
      split; [exists []; by rewrite app_nil_r|]. split; [|done]. rewrite Es, newlines_app in Hc. pose proof (newlines_nonneg (0 :: k)). lia.
Qed.
