(* ===== verification/CliLogin.v ===== *)
(** Logging in: the client of CliAuth.v and the server of SvrAuth.v in one
    conversation, in which each side's messages are handled by the other in
    order. *)

From S2P Require Import Prelude Dbutil Buffer Ssh Algo Mpint Packet Kex KexHash SignCommon Dss Rsa SignKey Base64 AuthKeys SvrAuth MList CliAuth.

From stdpp Require Import gmap.

Local Open Scope Z_scope.
Local Open Scope prog_scope.

(** ** Messages *)

(** The payload of a message whose type has been read. *)
Definition message (m : list Z) : buffer := mkbuf m (zlen m) 1 (zlen m).

Lemma message_repr t l : bytes (t :: l) -> zlen (t :: l) <= BUF_MAX_SIZE -> buf_repr (message (t :: l)) [t] l 0.
Proof.
  unfold BUF_MAX_SIZE. intros Hl Hm. rewrite zlen_cons in Hm. pose proof (zlen_nonneg l).
  split; cbn [message b_data b_pos b_len b_size]; rewrite ?zlen_cons, ?zlen_nil; unfold BUF_MAX_SIZE; try done; try lia.
  exists []. rewrite app_nil_r. split; [done|by vm_compute].
Qed.

Lemma str_bytes l : bytes l -> bytes (str l).
Proof. intros Hl. apply Forall_app_2; [apply store32h_bytes|done]. Qed.

Lemma request_bytes user method rest : bytes user -> bytes method -> bytes rest -> bytes (request user method rest).
Proof.
  intros Hu Hm Hr. unfold request. apply Forall_app_2; [by apply str_bytes|]. apply Forall_app_2; [apply (bool_decide_eq_true_1 _); by vm_compute|].
  apply Forall_app_2; [by apply str_bytes|done].
Qed.

(** Each message is handled by the handler of its type. *)
Fixpoint deliver {S} (set_payload : buffer -> S -> S) (packettypes : Z -> option (prog S unit)) (msgs : list (list Z)) : prog S unit :=
  match msgs with
  | [] => ret tt
  | m :: msgs =>
      match packettypes (hd 0 m) with
      | None => dropbear_exit "no handler"
      | Some handler => modify (set_payload (message m)) ;;; handler ;;; deliver set_payload packettypes msgs
      end
  end.

Lemma deliver_twp {S} (set_payload : buffer -> S -> S) table t l msgs (handler : prog S unit) Q s :
  table t = Some handler -> twp handler (fun _ s' => twp (deliver set_payload table msgs) Q s') (set_payload (message (t :: l)) s) ->
  twp (deliver set_payload table ((t :: l) :: msgs)) Q s.
Proof. intros Ht Hw. cbn [deliver hd]. rewrite Ht. by apply twp_bind, twp_modify, twp_bind. Qed.

Lemma deliver_exit {S} (set_payload : buffer -> S -> S) table t l msgs (handler : prog S unit) (s : S) e :
  table t = Some handler -> handler (set_payload (message (t :: l)) s) = Exit e -> deliver set_payload table ((t :: l) :: msgs) s = Exit e.
Proof. intros Ht E. cbn [deliver hd]. rewrite Ht. rewrite (bind_ok _ _ _ tt (set_payload (message (t :: l)) s)) by reflexivity. by apply bind_exit. Qed.

(** ** A payload that is being written

    [held b content total]: the content so far, in a buffer of [total] bytes. *)

Definition held (b : buffer) (content : list Z) (total : Z) : Prop := buf_repr b content [] (total - zlen content).

Lemma held_putbyte b content total v Q : held b content total -> is_byte v -> zlen content + 1 <= total ->
  (forall b', held b' (content ++ [v]) total -> Q tt b') -> twp (buf_putbyte v) Q b.
Proof.
  intros Hb Hv Hr HQ. eapply append_putbyte; [exact Hb|done|lia|]. intros b' Hb'. apply HQ. unfold held.
  rewrite zlen_app. change (zlen [v]) with 1. by replace (total - (zlen content + 1)) with (total - zlen content - 1) by lia.
Qed.

Lemma held_putstring b content total l n Q : held b content total -> n = zlen l -> bytes l -> zlen content + 4 + zlen l <= total ->
  (forall b', held b' (content ++ str l) total -> Q tt b') -> twp (buf_putstring l n) Q b.
Proof.
  intros Hb -> Hl Hr HQ. eapply append_putstring; [exact Hb|done|done|lia|]. intros b' Hb'. apply HQ. unfold held, str.
  rewrite !zlen_app, zlen_store32h. by replace (total - (zlen content + (4 + zlen l))) with (total - zlen content - 4 - zlen l) by lia.
Qed.

Lemma held_pub_key b content total key type Q : has_key key type -> held b content total -> zlen content + 4 + zlen (pub_bytes key type) <= total ->
  (forall b', held b' (content ++ str (pub_bytes key type)) total -> Q tt b') -> twp (SignKey.buf_put_pub_key key type) Q b.
Proof.
  intros Hk Hb Hr HQ. eapply append_pub_key; [exact Hk|exact Hb|lia|]. intros b' Hb'. apply HQ. unfold held, str. set (l := pub_bytes key type) in *.
  rewrite !zlen_app, zlen_store32h. by replace (total - (zlen content + (4 + zlen l))) with (total - zlen content - 4 - zlen l) by lia.
Qed.

(** ** The client *)

Section Client.
Context {L R : Type} `{MListLaws L cli_key} `{RandomMp R} `{ExptMod} `{ClientSystem} (cli_opts : cli_runopts).
Abbreviation csess := (cli_sess L R).
Implicit Types (c : csess).

(** The client's message is handed over and the buffer is empty again. *)
Lemma encrypt_twp content total Q c : held (c_writepayload c) content total ->
  (forall w, held w [] total -> Q tt (set_c_writepayload w (set_c_sent (c_sent c ++ [content]) c))) -> twp (CliAuth.encrypt_packet (L := L) (R := R)) Q c.
Proof.
  intros Hb HQ. destruct (br_data _ _ _ _ Hb) as (rest & Hd & Hr). pose proof (br_len _ _ _ _ Hb) as Hl. rewrite zlen_nil, Z.add_0_r in Hl.
  destruct (repr_clear (c_writepayload c) _ (repr_sized _ _ _ _ Hb)) as (b1 & b2 & E1 & E2 & Hb2).
  unfold CliAuth.encrypt_packet. apply twp_bind, twp_gets.
  assert (Ec : ztake (b_len (c_writepayload c)) (b_data (c_writepayload c)) = content) by (rewrite Hl, Hd; cbn [app]; apply ztake_app_zlen).
  rewrite Ec. apply twp_bind, twp_modify. apply twp_bind, twp_zoom. eapply twp_ok; [exact E1|]. apply twp_zoom. eapply twp_ok; [exact E2|].
  apply HQ. unfold held. rewrite zlen_nil in *. by replace (total - 0) with (zlen content + 0 + (total - zlen content)) by lia.
Qed.

(** One put into the payload: the goal moves on to the buffer. *)
Ltac wp_put := first [apply twp_bind, twp_zoom | apply twp_zoom].

Context (user : list Z) (Huser : username cli_opts = user) (Hub : bytes user) (Hul : zlen user <= MAX_USERNAME_LEN).

Lemma put_request_twp method n total Q c : held (c_writepayload c) [] total -> n = zlen method -> bytes method -> 100 + zlen method <= total ->
  (forall b, held b (SSH_MSG_USERAUTH_REQUEST :: request user method []) total -> Q tt (set_c_writepayload b c)) ->
  twp (put_userauth_request (L := L) (R := R) cli_opts method n) Q c.
Proof.
  intros Hb -> Hm Hr HQ. unfold MAX_USERNAME_LEN in *. unfold put_userauth_request. rewrite Huser.
  wp_put. eapply held_putbyte; [exact Hb|by vm_compute|rewrite zlen_nil; pose proof (zlen_nonneg method); lia|]. intros b1 Hb1.
  wp_put. eapply held_putstring; [exact Hb1|done|done|cbn [app]; change (zlen [_]) with 1; pose proof (zlen_nonneg method); lia|]. intros b2 Hb2.
  wp_put. eapply held_putstring; [exact Hb2|done|by apply (bool_decide_eq_true_1 _); vm_compute| |intros b3 Hb3].
  { unfold str. rewrite !zlen_app, zlen_store32h, zlen_nil. change (zlen [_]) with 1. change (zlen SSH_SERVICE_CONNECTION) with 14. pose proof (zlen_nonneg method). lia. }
  wp_put. eapply held_putstring; [exact Hb3|done|done| |intros b4 Hb4].
  { unfold str. rewrite !zlen_app, !zlen_store32h, zlen_nil. change (zlen [_]) with 1. change (zlen SSH_SERVICE_CONNECTION) with 14. lia. }
  apply HQ. unfold request. rewrite app_nil_r. cbn [app] in Hb4. by rewrite <-!app_assoc in Hb4.
Qed.

(** ** What the client does with each message *)

Context (Hsock : ssh_auth_sock = None) (Hbadf : cli_close_fails (-1) = false).
Context (total : Z) (Htotal : 6000 <= total) (sid : list Z).

(** A client that is logging in, without an agent and a password in the
    environment: its keys, its state, what it tried last, the methods it may use
    and its random generator. *)
Record client (xs : list (addr * cli_key)) (st : cli_state) (last : Z) (lastkey : option Z) (types : Z) (rng : R) (answers : list (option (list Z))) c : Prop := {
  cl_wp : held (c_writepayload c) [] total;
  cl_keys : l_repr (c_privkeys c) xs;
  cl_sid : c_session_id c = sid;
  cl_state : c_state c = st;
  cl_last : c_lastauthtype c = last;
  cl_lastkey : c_lastprivkey c = lastkey;
  cl_types : authtypes (c_authstate c) = types;
  cl_rng : c_random c = rng;
  cl_answers : c_terminal c = answers;
  cl_fd : c_agent_fd c = -1;
  cl_done : authdone (c_authstate c) = false;
  cl_none : c_trans_none c = false;
  cl_env : c_env c = None
}.

(** The session is up: it asks for the service and for the methods. *)
Lemma client_starts xs last lastkey types rng answers c : client xs STATE_NOTHING last lastkey types rng answers c ->
  twp (cli_sessionloop_auth (L := L) (R := R) cli_opts) (fun _ c' => client xs USERAUTH_REQ_SENT last lastkey types rng answers c' /\
    c_sent c' = c_sent c ++ [SSH_MSG_SERVICE_REQUEST :: str SSH_SERVICE_USERAUTH; SSH_MSG_USERAUTH_REQUEST :: request user AUTH_METHOD_NONE []]) c.
Proof using H0 Hub Hul Huser Htotal.
  intros Hc. pose proof Hc as []. unfold cli_sessionloop_auth. apply twp_bind, twp_gets. rewrite cl_state0.
  apply twp_bind. unfold send_msg_service_request.
  wp_put. eapply held_putbyte; [exact cl_wp0|by vm_compute|rewrite zlen_nil; lia|]. intros b1 Hb1.
  wp_put. eapply held_putstring; [exact Hb1|done|by apply (bool_decide_eq_true_1 _); vm_compute|rewrite zlen_app, zlen_nil; change (zlen [_]) with 1; change (zlen SSH_SERVICE_USERAUTH) with 12; lia|]. intros b2 Hb2.
  eapply encrypt_twp; [exact Hb2|]. intros w Hw. apply twp_bind. unfold cli_auth_getmethods.
  apply twp_bind. apply (put_request_twp _ _ total); [exact Hw|done|by apply (bool_decide_eq_true_1 _); vm_compute|change (zlen AUTH_METHOD_NONE) with 4; lia|]. intros b3 Hb3.
  eapply encrypt_twp; [exact Hb3|]. intros w2 Hw2. apply twp_modify. split; [by split|]. cbn. by rewrite <-app_assoc.
Qed.

(** The methods an answer offers, as the client reads them. *)
Definition method_types (types : Z) : Z :=
  Z.lor (if Z.land types AUTH_TYPE_PUBKEY =? 0 then 0 else AUTH_TYPE_PUBKEY) (if Z.land types AUTH_TYPE_PASSWORD =? 0 then 0 else AUTH_TYPE_PASSWORD).

Lemma methods_read types : let ml := method_list types in
  match_methods (Z.to_nat (zlen ml) + 1) 0 0
    (map (fun x => if x =? 44 then 0 else x) (ztake (zlen ml) (ml ++ [0])) ++ zdrop (zlen ml) (ml ++ [0])) 0 = method_types types.
Proof.
  unfold method_list, method_types. destruct (Z.land types AUTH_TYPE_PUBKEY =? 0), (Z.land types AUTH_TYPE_PASSWORD =? 0); by vm_compute.
Qed.

(** The key that was tried is crossed off. *)
Lemma pubkeyfail_ok p q k xs c : l_repr (c_privkeys c) ((p, (q, k)) :: xs) -> c_lastprivkey c = Some q ->
  exists keys, l_repr keys xs /\ cli_pubkeyfail c = Ok (tt, set_c_lastprivkey None (set_c_privkeys keys c)).
Proof using H0.
  intros Hk Hq. destruct (l_remove_spec p (q, k) [] xs _ Hk) as (keys & E & Hkeys). exists keys. split; [done|].
  unfold cli_pubkeyfail. rewrite (bind_ok _ _ _ _ _ (zoom_ok c_privkeys set_c_privkeys l_walk c _ _ (l_walk_spec _ _ Hk))).
  rewrite (bind_ok _ _ _ (Some q) (set_c_privkeys (c_privkeys c) c)) by (rewrite <-Hq; by destruct c).
  cbn [List.find]. unfold key_at. cbn [fst snd]. rewrite bool_decide_eq_true_2 by done.
  assert (Ec : set_c_privkeys (c_privkeys c) c = c) by (by destruct c). rewrite Ec.
  by rewrite (bind_ok _ _ _ _ _ (zoom_ok c_privkeys set_c_privkeys (l_remove p) c _ _ E)).
Qed.

(** What is left to try after a failure. *)
Definition crossed_off (last : Z) (lastkey : option Z) (xs xs' : list (addr * cli_key)) (lastkey' : option Z) : Prop :=
  (last = AUTH_TYPE_PUBKEY /\ lastkey' = None /\ exists p q k, lastkey = Some q /\ xs = (p, (q, k)) :: xs') \/
  (last <> AUTH_TYPE_PUBKEY /\ lastkey' = lastkey /\ xs' = xs).

Lemma failure_message_repr types : buf_repr (message (failure_message types false)) [SSH_MSG_USERAUTH_FAILURE] (str (method_list types) ++ [0]) 0.
Proof.
  destruct (method_list_facts types) as [Hmb Hml]. unfold failure_message. revert Hmb Hml. generalize (method_list types). intros ml Hmb Hml. pose proof (zlen_nonneg ml).
  assert (E : store32h (zlen ml) ++ ml ++ [0] = str ml ++ [0]) by (unfold str; by rewrite <-app_assoc). rewrite E. apply message_repr.
  - unfold str. apply Forall_cons_2; [done|]. apply Forall_app_2; [apply Forall_app_2; [apply store32h_bytes|done]|by repeat constructor].
  - unfold str. rewrite zlen_cons, !zlen_app, zlen_store32h. change (zlen [_]) with 1. unfold BUF_MAX_SIZE. lia.
Qed.

Lemma client_fails xs last lastkey xs' lastkey' types rng answers offered c : client xs USERAUTH_REQ_SENT last lastkey types rng answers c ->
  last <> AUTH_TYPE_INTERACT -> crossed_off last lastkey xs xs' lastkey' ->
  twp (recv_msg_userauth_failure (L := L) (R := R)) (fun _ c' => client xs' USERAUTH_FAIL_RCVD AUTH_TYPE_NONE lastkey' (method_types offered) rng answers c' /\ c_sent c' = c_sent c)
    (set_c_payload (message (failure_message offered false)) c).
Proof using H0.
  intros Hc Hi Hx. pose proof Hc as []. set (c1 := set_c_payload _ c).
  pose proof (failure_message_repr offered) as Hb. destruct (method_list_facts offered) as [_ Hml]. set (ml := method_list offered) in *.
  unfold recv_msg_userauth_failure. apply twp_bind, twp_gets. change (c_state c1) with (c_state c). rewrite cl_state0.
  rewrite bool_decide_eq_true_2 by done. cbn [negb]. apply twp_bind, twp_gets. change (c_lastauthtype c1) with (c_lastauthtype c). rewrite cl_last0.
  assert (Hfail : exists keys, l_repr keys xs' /\ when (last =? AUTH_TYPE_PUBKEY) cli_pubkeyfail c1 = Ok (tt, set_c_lastprivkey lastkey' (set_c_privkeys keys c1))).
  { destruct Hx as [(-> & -> & p & q & k & -> & ->)|(Hne & -> & ->)].
    - exact (pubkeyfail_ok p q k xs' c1 cl_keys0 cl_lastkey0).
    - exists (c_privkeys c). split; [done|]. rewrite (proj2 (Z.eqb_neq _ _) Hne). cbn [when]. rewrite <-cl_lastkey0. by destruct c. }
  destruct Hfail as (keys & Hkeys & Efail). apply twp_bind. eapply twp_ok; [exact Efail|]. set (c2 := set_c_lastprivkey _ _).
  apply twp_bind, twp_gets. rewrite (proj2 (Z.eqb_neq last AUTH_TYPE_INTERACT) Hi). cbn [andb when]. apply twp_bind, twp_ret. apply twp_bind, twp_modify.
  destruct (repr_getstr _ _ ml [0] 0 ltac:(unfold MAX_STRING_LEN; lia) Hb) as (b1 & E1 & Hb1). apply twp_bind, twp_zoom. eapply twp_ok; [exact E1|]. cbv beta iota.
  destruct (repr_getbyte _ _ _ _ _ Hb1) as (b2 & E2 & Hb2). apply twp_bind, twp_zoom. eapply twp_ok; [unfold buf_getbool; rewrite (bind_ok _ _ _ _ _ E2); reflexivity|].
  cbn [Z.eqb when]. apply twp_bind, twp_modify. apply twp_bind, twp_modify. apply twp_bind, twp_modify. apply twp_modify. split; [|done].
  split; try done. exact (methods_read offered).
Qed.

(** *** Keys *)

(** A request with a key, without a signature or up to it. *)
Definition key_request (realsign : bool) (key : sign_key) (type : Z) : list Z :=
  SSH_MSG_USERAUTH_REQUEST :: request user AUTH_METHOD_PUBKEY ((if realsign then 1 else 0) :: str (type_name type) ++ str (pub_bytes key type)).

Lemma has_key_facts key type : has_key key type ->
  zlen (pub_bytes key type) <= MAX_PUBKEY_SIZE /\ type_name type ∈ key_names /\ forall S (s : S), signkey_name_from_type type s = Ok ((type_name type, 7), s).
Proof.
  intros [d Ed _ Hd|r Er _ Hr]; unfold pub_bytes, type_name; cbn [Z.eqb Pos.eqb DROPBEAR_SIGNKEY_DSS DROPBEAR_SIGNKEY_RSA].
  - rewrite Ed. split; [done|]. split; [by right; left|done].
  - rewrite Er. split; [done|]. split; [by left|done].
Qed.

Lemma key_request_length realsign key type : has_key key type -> zlen (key_request realsign key type) <= 2000.
Proof using Hul.
  intros Hk. destruct (has_key_facts _ _ Hk) as (Hl & Hn & _). destruct (key_name_facts _ Hn) as (Hn7 & _). unfold MAX_PUBKEY_SIZE, MAX_USERNAME_LEN in *.
  unfold key_request, request, str. rewrite zlen_cons, !zlen_app, zlen_cons, !zlen_app, !zlen_store32h, Hn7. change (zlen SSH_SERVICE_CONNECTION) with 14. change (zlen AUTH_METHOD_PUBKEY) with 9. lia.
Qed.

(** The part of send_msg_userauth_pubkey before the signature. *)
Lemma put_key_request_twp realsign key type (rest : prog csess unit) Q c : has_key key type -> held (c_writepayload c) [] total ->
  (forall b, held b (key_request realsign key type) total -> twp rest Q (set_c_writepayload b c)) ->
  twp (put_userauth_request (L := L) (R := R) cli_opts AUTH_METHOD_PUBKEY AUTH_METHOD_PUBKEY_LEN ;;;
    CliAuth.on_wp (buf_putbyte (if realsign then 1 else 0)) ;;;
    x <- signkey_name_from_type type ;;
    let '(algoname, algolen) := x in
    CliAuth.on_wp (buf_putstring algoname algolen) ;;;
    CliAuth.on_wp (SignKey.buf_put_pub_key key type) ;;; rest) Q c.
Proof using Hub Hul Huser Htotal.
  intros Hk Hb HQ. destruct (has_key_facts _ _ Hk) as (Hl & Hn & Hname). destruct (key_name_facts _ Hn) as (Hn7 & _ & _ & Hnb & _).
  pose proof (key_request_length realsign key type Hk) as Hlen. unfold MAX_PUBKEY_SIZE, MAX_USERNAME_LEN in *.
  set (head := SSH_MSG_USERAUTH_REQUEST :: request user AUTH_METHOD_PUBKEY []).
  assert (Hhead : zlen head <= 64).
  { unfold head, request, str. rewrite zlen_cons, !zlen_app, !zlen_store32h, zlen_nil. change (zlen SSH_SERVICE_CONNECTION) with 14. change (zlen AUTH_METHOD_PUBKEY) with 9. lia. }
  apply twp_bind. apply (put_request_twp _ _ total); [exact Hb|done|by apply (bool_decide_eq_true_1 _); vm_compute|change (zlen AUTH_METHOD_PUBKEY) with 9; lia|]. intros b1 Hb1. fold head in Hb1.
  wp_put. eapply held_putbyte; [exact Hb1|by destruct realsign|lia|]. intros b2 Hb2. apply twp_bind. eapply twp_ok; [apply Hname|].
  assert (H2l : zlen (head ++ [if realsign then 1 else 0]) <= 65) by (rewrite zlen_app; change (zlen [_]) with 1; lia).
  wp_put. eapply held_putstring; [exact Hb2|by rewrite Hn7|done|lia|]. intros b3 Hb3.
  assert (H3l : zlen ((head ++ [if realsign then 1 else 0]) ++ str (type_name type)) <= 76) by (unfold str; rewrite !zlen_app, zlen_store32h; change (zlen [_]) with 1; lia).
  wp_put. eapply held_pub_key; [exact Hk|exact Hb3|lia|]. intros b4 Hb4. apply (HQ b4).
  assert (E : key_request realsign key type = ((head ++ [if realsign then 1 else 0]) ++ str (type_name type)) ++ str (pub_bytes key type))
    by (unfold key_request, head, request; rewrite app_nil_r; cbn [app]; rewrite <-!app_assoc; cbn [app]; by rewrite <-?app_assoc).
  rewrite E. exact Hb4.
Qed.

(** There is no agent to ask for keys. *)
Lemma agent_loaded xs st last lastkey types rng answers c : client xs st last lastkey types rng answers c ->
  exists c1, when (negb (c_agent_keys_loaded c)) (cli_load_agent_keys ;;; modify (set_c_agent_keys_loaded true)) c = Ok (tt, c1) /\
    client xs st last lastkey types rng answers c1 /\ c_sent c1 = c_sent c.
Proof using Hsock.
  intros []. destruct (c_agent_keys_loaded c); [by exists c|]. eexists. split; [unfold cli_load_agent_keys, connect_agent; rewrite Hsock; reflexivity|].
  split; [by split|done].
Qed.

(** The first key is tried. *)
Lemma client_tries p q k xs lastkey types rng answers c : client ((p, (q, k)) :: xs) USERAUTH_FAIL_RCVD AUTH_TYPE_NONE lastkey types rng answers c ->
  Z.land types AUTH_TYPE_PUBKEY <> 0 -> has_key k (sk_type k) ->
  twp (cli_sessionloop_auth (L := L) (R := R) cli_opts) (fun _ c' => client ((p, (q, k)) :: xs) USERAUTH_REQ_SENT AUTH_TYPE_PUBKEY (Some q) types rng answers c' /\
    c_sent c' = c_sent c ++ [key_request false k (sk_type k)]) c.
Proof using H0 Hub Hul Huser Htotal Hsock.
  intros Hc Ht Hk. pose proof Hc as []. unfold cli_sessionloop_auth. apply twp_bind, twp_gets. rewrite cl_state0. unfold cli_auth_try. apply twp_bind, twp_bind, twp_gets. rewrite cl_types0.
  cbn zeta. rewrite (proj2 (Z.eqb_neq _ _) Ht). cbn [negb]. apply twp_bind, twp_bind. unfold cli_auth_pubkey. apply twp_bind, twp_gets.
  destruct (agent_loaded _ _ _ _ _ _ _ _ Hc) as (c1 & E1 & [] & Es). apply twp_bind. eapply twp_ok; [exact E1|]. clear E1.
  apply twp_bind, twp_zoom. eapply twp_ok; [by apply l_first_spec|]. cbn [head]. unfold send_msg_userauth_pubkey. apply twp_bind.
  apply (put_key_request_twp false); [done|done|]. intros b Hb. cbn [when]. apply twp_bind, twp_ret. eapply encrypt_twp; [exact Hb|]. intros w Hw.
  apply twp_bind, twp_modify. apply twp_ret. apply twp_bind, twp_modify. apply twp_ret.
  apply twp_bind, twp_gets. cbn [negb andb]. apply twp_bind, twp_ret. cbn [negb andb]. apply twp_ret, twp_modify.
  split; [by split|]. cbn. by rewrite Es.
Qed.

Lemma type_from_name key type S (s : S) : has_key key type -> signkey_type_from_name (type_name type ++ [0]) (zlen (type_name type)) s = Ok (type, s).
Proof. intros [d _ _ _|r _ _ _]; reflexivity. Qed.

(** The server's answer that it would take a key. *)
Definition pk_ok_message (key : sign_key) (type : Z) : list Z := SSH_MSG_USERAUTH_PK_OK :: str (type_name type) ++ str (pub_bytes key type).

Lemma on_twp {S A} (b : buffer) (m : prog buffer A) (Q : A * buffer -> S -> Prop) (s : S) : twp m (fun a b' => Q (a, b') s) b -> twp (on b m) Q s.
Proof. unfold twp, on. destruct (m b) as [[a b']| |]; done. Qed.

(** The first key of the list is the one the server names. *)
Lemma match_first p q k type xs keybuf pre room c : has_key k type -> sk_type k = type -> 4 + zlen (pub_bytes k type) <= MAX_PUBKEY_SIZE ->
  buf_repr keybuf [] [] MAX_PUBKEY_SIZE -> buf_repr (c_payload c) pre (pub_bytes k type) room ->
  match_key (L := L) (R := R) type (zlen (pub_bytes k type)) keybuf ((p, (q, k)) :: xs) c = Ok (Some (q, k), c).
Proof.
  intros Hk Et Hlen Hkb Hb. set (blob := pub_bytes k type) in *. pose proof (zlen_nonneg blob). unfold MAX_PUBKEY_SIZE in *. cbn [match_key]. rewrite Et, Z.eqb_refl. cbn [negb].
  assert (Ekb : set_pos 0 (set_len 0 keybuf) = keybuf).
  { pose proof (br_pos _ _ _ _ Hkb) as Hp. pose proof (br_len _ _ _ _ Hkb) as Hl. destruct keybuf as [d l po si]. cbn in Hp, Hl. by subst. }
  rewrite Ekb. assert (Hput : exists kb, (SignKey.buf_put_pub_key k type ;;; buf_setpos 0 ;;; buf_incrpos 4)%prog keybuf = Ok (tt, kb) /\ buf_repr kb (store32h (zlen blob)) blob (1696 - zlen blob)).
  { assert (Ht : twp (SignKey.buf_put_pub_key k type ;;; buf_setpos 0 ;;; buf_incrpos 4)%prog (fun _ kb => buf_repr kb (store32h (zlen blob)) blob (1696 - zlen blob)) keybuf).
    { apply twp_bind. eapply append_pub_key; [exact Hk|exact Hkb|fold blob; lia|]. intros b1 Hb1. fold blob in Hb1. cbn [app] in Hb1.
      destruct (repr_rewind _ _ _ _ Hb1) as (b2 & E2 & Hb2). rewrite app_nil_r in Hb2. apply twp_bind. eapply twp_ok; [exact E2|].
      destruct (repr_incrpos b2 [] (store32h (zlen blob)) blob _ 4 (eq_sym (zlen_store32h _)) Hb2) as (b3 & E3 & Hb3). eapply twp_ok; [exact E3|]. cbn [app] in Hb3.
      by replace (1696 - zlen blob) with (1700 - 4 - zlen blob) by lia. }
    apply twp_ex in Ht as ([] & kb & E & Hkb'). by exists kb. }
  destruct Hput as (kb & E & Hkb'). rewrite (bind_ok _ _ _ (tt, kb) c) by (unfold on; by rewrite E). cbn [snd].
  rewrite (br_len _ _ _ _ Hkb'), zlen_store32h. replace (4 + zlen blob - 4) with (zlen blob) by lia. rewrite u32_small by (unfold is_u32; lia). rewrite Z.eqb_refl. cbn [negb].
  rewrite (bind_ok _ _ _ (blob, kb) c) by (unfold on; rewrite <-(app_nil_r blob) in Hkb'; by rewrite (repr_getptr_bytes kb _ blob [] _ _ eq_refl Hkb')).
  assert (Eb : CliAuth.on_payload (getptr_bytes (zlen blob)) c = Ok (blob, c)).
  { rewrite <-(app_nil_r blob) in Hb. unfold CliAuth.on_payload. rewrite (zoom_ok c_payload set_c_payload _ c _ _ (repr_getptr_bytes _ pre blob [] room _ eq_refl Hb)). by destruct c. }
  rewrite (bind_ok _ _ _ _ _ Eb). cbn [fst]. by rewrite bool_decide_eq_true_2 by done.
Qed.

Lemma repr_bytes b pre post room : buf_repr b pre post room -> bytes (pre ++ post).
Proof. intros Hb. destruct (br_data _ _ _ _ Hb) as (rest & Hd & _). pose proof (br_bytes _ _ _ _ Hb) as Hby. rewrite Hd, app_assoc in Hby. by apply Forall_app in Hby as [? _]. Qed.

Lemma pub_bytes_bytes key type : has_key key type -> bytes (pub_bytes key type).
Proof.
  intros Hk. destruct (has_key_facts _ _ Hk) as (Hl & _). unfold MAX_PUBKEY_SIZE in Hl.
  destruct (repr_buf_new 2000 tt) as (b & _ & Hb); [by vm_compute|].
  assert (Ht : twp (SignKey.buf_put_pub_key key type) (fun _ b' => bytes (pub_bytes key type)) b).
  { eapply append_pub_key; [exact Hk|exact Hb|lia|]. intros b' Hb'%repr_bytes. rewrite app_nil_r in Hb'. cbn [app] in Hb'. by apply Forall_app in Hb' as [_ ?]. }
  by apply twp_ex in Ht as (_ & _ & _ & ?).
Qed.

Lemma pk_ok_repr key type : has_key key type -> buf_repr (message (pk_ok_message key type)) [SSH_MSG_USERAUTH_PK_OK] (str (type_name type) ++ str (pub_bytes key type)) 0.
Proof.
  intros Hk. destruct (has_key_facts _ _ Hk) as (Hl & Hn & _). destruct (key_name_facts _ Hn) as (Hn7 & _ & _ & Hnb & _). pose proof (pub_bytes_bytes _ _ Hk). apply message_repr.
  - unfold str. apply Forall_cons_2; [done|]. apply Forall_app_2; (apply Forall_app_2; [apply store32h_bytes|done]).
  - unfold str. rewrite zlen_cons, !zlen_app, !zlen_store32h, Hn7. unfold MAX_PUBKEY_SIZE, BUF_MAX_SIZE in *. lia.
Qed.

(** What is left to say of a client that has sent its signature. *)
Record awaiting (xs : list (addr * cli_key)) c : Prop := {
  aw_keys : l_repr (c_privkeys c) xs;
  aw_state : c_state c = USERAUTH_REQ_SENT;
  aw_fd : c_agent_fd c = -1
}.

(** The data that is signed is the session id and the request. *)
Lemma signed_buffer b req : held b req total -> zlen req <= 2000 -> zlen sid = SHA1_HASH_SIZE -> bytes sid ->
  forall c, exists sigbuf, buf_new (u32 (4 + SHA1_HASH_SIZE + b_len b)) c = Ok (sigbuf, c) /\
  exists sb, on sigbuf (buf_putstring sid SHA1_HASH_SIZE ;;; buf_putbytes (b_data b) (b_len b)) c = Ok ((tt, sb), c) /\
    ztake (b_len sb) (b_data sb) = store32h SHA1_HASH_SIZE ++ sid ++ req.
Proof.
  intros Hb Hreq Hsl Hsb c. unfold held in Hb. assert (Hbl : b_len b = zlen req) by (rewrite (br_len _ _ _ _ Hb), zlen_nil; lia).
  pose proof (zlen_nonneg req). rewrite Hbl. unfold SHA1_HASH_SIZE in *. rewrite u32_small by (unfold is_u32; lia).
  destruct (repr_buf_new (4 + 20 + zlen req) c) as (sigbuf & E & Hs); [unfold BUF_MAX_SIZE; lia|]. exists sigbuf. split; [done|].
  destruct (br_data _ _ _ _ Hb) as (rest & Hd & _). pose proof (br_bytes _ _ _ _ Hb) as Hby.
  destruct (repr_putstring sigbuf [] [] _ sid 20 (eq_sym Hsl) Hs Hsb) as (b1 & E1 & Hb1); [rewrite zlen_nil; lia|]. rewrite !append_post, !append_room in Hb1 by lia. cbn [app] in Hb1.
  assert (Hle : 0 <= zlen req <= zlen (b_data b)) by (rewrite Hd, zlen_app; cbn [app]; pose proof (zlen_nonneg rest); lia).
  destruct (repr_putprefix b1 _ [] _ (b_data b) (zlen req) Hle Hb1 Hby) as (b2 & E2 & Hb2); [rewrite zlen_nil; lia|].
  exists b2. split; [unfold on; by rewrite (bind_ok _ _ _ _ _ E1), E2|].
  assert (Et : ztake (zlen req) (b_data b) = req) by (rewrite Hd; apply ztake_app_zlen). rewrite Et, append_post, <-app_assoc in Hb2.
  destruct (br_data _ _ _ _ Hb2) as (rest2 & Hd2 & _). rewrite (br_len _ _ _ _ Hb2), zlen_nil, Z.add_0_r, Hd2. apply ztake_app_zlen.
Qed.

(** The server has accepted the first key: the client signs. *)
Lemma client_signs `{!ExptModLaws} p q k out xs types rng answers n rng' c :
  let type := sk_type k in
  let req := pubkey_request user (type_name type) (pub_bytes k type) in
  client ((p, (q, k)) :: xs) USERAUTH_REQ_SENT AUTH_TYPE_PUBKEY (Some q) types rng answers c ->
  sk_source k <> SIGNKEY_SOURCE_AGENT -> has_key k type -> 4 + zlen (pub_bytes k type) <= MAX_PUBKEY_SIZE -> key_pair k out type ->
  gen_random_mpint (random_modulus k type) rng = (n, rng') -> 0 <= n -> Z.gcd n (random_modulus k type) = 1 ->
  zlen sid = SHA1_HASH_SIZE -> bytes sid ->
  twp (recv_msg_userauth_specific_60 (L := L) (R := R) cli_opts) (fun _ c' => exists content,
      (good_s out type content -> forall b pre room, buf_repr b pre (str content) room -> exists b', SignKey.buf_verify out (to_sign sid req) b = Ok (true, b')) /\
      bytes (SSH_MSG_USERAUTH_REQUEST :: req ++ str content) /\ zlen (SSH_MSG_USERAUTH_REQUEST :: req ++ str content) <= BUF_MAX_SIZE /\
      awaiting ((p, (q, k)) :: xs) c' /\ c_sent c' = c_sent c ++ [SSH_MSG_USERAUTH_REQUEST :: req ++ str content])
    (set_c_payload (message (pk_ok_message k type)) c).
Proof using H0 Hub Hul Huser Htotal.
  intros type req Hc Hsrc Hk Hlen Hpair En Hn Hgcd Hsl Hsb. pose proof Hc as [].
  destruct (has_key_facts _ _ Hk) as (Hl & Hnm & Hname). destruct (key_name_facts _ Hnm) as (Hn7 & _ & _ & Hnb & _). pose proof (zlen_nonneg (pub_bytes k type)).
  set (c0 := set_c_payload _ c). unfold recv_msg_userauth_specific_60. apply twp_bind, twp_gets. change (c_lastauthtype c0) with (c_lastauthtype c). rewrite cl_last0.
  cbn [Z.eqb Pos.eqb]. change (AUTH_TYPE_PUBKEY =? AUTH_TYPE_PUBKEY) with true. cbn iota. unfold recv_msg_userauth_pk_ok.
  pose proof (pk_ok_repr k type Hk) as Hb. destruct (repr_getstr _ _ (type_name type) _ 0 ltac:(by rewrite Hn7) Hb) as (b1 & E1 & Hb1).
  apply twp_bind, twp_zoom. eapply twp_ok; [exact E1|]. cbv beta iota. apply twp_bind. eapply twp_ok; [by apply (type_from_name k)|].
  destruct (repr_buf_new MAX_PUBKEY_SIZE (set_c_payload b1 c0)) as (kb & Ek & Hkb); [by vm_compute|]. apply twp_bind. eapply twp_ok; [exact Ek|].
  unfold str at 2 in Hb1. destruct (repr_getint b1 _ (zlen (pub_bytes k type)) _ 0 ltac:(unfold is_u32, MAX_PUBKEY_SIZE in *; lia) Hb1) as (b2 & E2 & Hb2).
  apply twp_bind, twp_zoom. eapply twp_ok; [exact E2|]. apply twp_bind, twp_zoom. eapply twp_ok; [by apply l_walk_spec|].
  set (c1 := set_c_privkeys _ _). apply twp_bind. eapply twp_ok; [by eapply (match_first p q k type xs kb _ 0 c1)|]. cbn iota.
  unfold send_msg_userauth_pubkey. apply (put_key_request_twp true); [done|done|]. intros b Hbk. cbn [when].
  set (c2 := set_c_writepayload b c1). apply twp_bind. apply twp_bind, twp_gets. apply twp_bind, twp_gets. change (c_session_id c2) with (c_session_id c). rewrite cl_sid0.
  change (c_writepayload c2) with b. pose proof (key_request_length true k type Hk) as Hrl.
  destruct (signed_buffer b _ Hbk Hrl Hsl Hsb c2) as (sigbuf & Esb & sb & Eput & Edata). apply twp_bind. eapply twp_ok; [exact Esb|]. apply twp_bind. eapply twp_ok; [exact Eput|].
  cbn [snd]. unfold cli_buf_put_sign. change (key_request true k type) with (SSH_MSG_USERAUTH_REQUEST :: req) in *.
  assert (Hdata : ztake (b_len sb) (b_data sb) = to_sign sid req) by exact Edata. rewrite Hdata.
  destruct (sign_then_verify k out type (to_sign sid req) rng n rng' b (SSH_MSG_USERAUTH_REQUEST :: req) _ Hpair En Hn Hgcd Hbk) as (content & b3 & room3 & E3 & Hb3 & Hver);
    [unfold MAX_PUBKEY_SIZE; lia|].
  assert (Hby : bytes (SSH_MSG_USERAUTH_REQUEST :: req ++ str content)) by (apply repr_bytes in Hb3; rewrite app_nil_r in Hb3; exact Hb3).
  assert (Hmax : zlen (SSH_MSG_USERAUTH_REQUEST :: req ++ str content) <= BUF_MAX_SIZE).
  { pose proof (br_size _ _ _ _ Hb3) as Hsz. pose proof (br_max _ _ _ _ Hb3). pose proof (br_room _ _ _ _ Hb3). rewrite zlen_nil in Hsz.
    change (store32h (zlen content) ++ content) with (str content) in Hsz. change ((SSH_MSG_USERAUTH_REQUEST :: req) ++ str content) with (SSH_MSG_USERAUTH_REQUEST :: req ++ str content) in Hsz. lia. }
  assert (Hsign : forall Q, Q tt (set_c_random rng' (set_c_writepayload b3 c2)) ->
    twp (r <- gets c_random ;; r <- CliAuth.on_wp (SignKey.buf_put_sign k type (to_sign sid req) r) ;; modify (set_c_random r)) Q c2).
  { intros Q HQ. apply twp_bind, twp_gets. change (c_random c2) with (c_random c). rewrite cl_rng0. apply twp_bind, twp_zoom. eapply twp_ok; [exact E3|]. by apply twp_modify. }
  destruct (sk_source k) eqn:Es; [|done|]; apply Hsign; (eapply (encrypt_twp _ (zlen ((SSH_MSG_USERAUTH_REQUEST :: req) ++ str content) + room3));
    [unfold held; cbn [c_writepayload set_c_random set_c_writepayload]; rewrite Z.add_simpl_l; exact Hb3|]; intros w Hw;
    exists content; split; [exact Hver|]; split; [exact Hby|]; split; [exact Hmax|]; split; [by split|done]).
Qed.

(** The client is in: the keys are thrown away. *)
Lemma free_keys_ok xs c : l_repr (c_privkeys c) xs -> exists keys, l_repr keys [] /\ free_keys (L := L) (R := R) (length xs) c = Ok (tt, set_c_privkeys keys c).
Proof using H0.
  revert c. induction xs as [|[p k] xs IH]; intros c Hk; cbn [length free_keys].
  - exists (c_privkeys c). split; [done|]. rewrite (bind_ok _ _ _ _ _ (zoom_ok c_privkeys set_c_privkeys l_first c _ _ (l_first_spec _ _ Hk))). done.
  - rewrite (bind_ok _ _ _ _ _ (zoom_ok c_privkeys set_c_privkeys l_first c _ _ (l_first_spec _ _ Hk))). cbn [head].
    destruct (l_remove_spec p k [] xs _ Hk) as (keys & E & Hkeys). set (c1 := set_c_privkeys (c_privkeys c) c).
    rewrite (bind_ok _ _ _ _ _ (zoom_ok c_privkeys set_c_privkeys (l_remove p) c1 _ _ E)). destruct (IH (set_c_privkeys keys c1) Hkeys) as (keys' & Hk' & E').
    exists keys'. split; [done|]. exact E'.
Qed.

Lemma client_succeeds xs b c : awaiting xs c ->
  twp (recv_msg_userauth_success (L := L) (R := R)) (fun _ c' => authdone (c_authstate c') = true /\ c_state c' = USERAUTH_SUCCESS_RCVD /\
    l_repr (c_privkeys c') [] /\ c_sent c' = c_sent c) (set_c_payload b c).
Proof using H0 Hbadf.
  intros []. unfold recv_msg_userauth_success, cli_auth_pubkey_cleanup. apply twp_bind, twp_modify. apply twp_bind, twp_modify. apply twp_bind, twp_modify.
  apply twp_bind, twp_gets. set (c1 := set_c_lastauthtype _ _). change (c_agent_fd c1) with (c_agent_fd c). rewrite aw_fd0. unfold cli_m_close. rewrite Hbadf.
  apply twp_bind, twp_modify. apply twp_bind, twp_modify. apply twp_bind, twp_zoom. eapply twp_ok; [by apply l_walk_spec|].
  set (c2 := set_c_privkeys _ _). destruct (free_keys_ok xs c2 aw_keys0) as (keys & Hk & E). eapply twp_ok; [exact E|]. done.
Qed.

(** *** Passwords *)

Lemma no_keys last lastkey types rng answers c : client [] USERAUTH_FAIL_RCVD last lastkey types rng answers c ->
  exists c1, cli_auth_pubkey (L := L) (R := R) cli_opts c = Ok (false, c1) /\ client [] USERAUTH_FAIL_RCVD last lastkey types rng answers c1 /\ c_sent c1 = c_sent c.
Proof using H0 Hsock.
  intros Hc. destruct (agent_loaded _ _ _ _ _ _ _ _ Hc) as (c1 & E1 & Hc1 & Es). exists c1. split; [|done]. unfold cli_auth_pubkey.
  rewrite (bind_ok _ _ _ (c_agent_keys_loaded c) c) by reflexivity. rewrite (bind_ok _ _ _ _ _ E1).
  rewrite (bind_ok _ _ _ _ _ (zoom_ok c_privkeys set_c_privkeys l_first c1 _ _ (l_first_spec _ _ (cl_keys _ _ _ _ _ _ _ _ Hc1)))). by destruct c1.
Qed.

(** The request with a password, up to the burning of the password. *)
Lemma password_sent password in_env Q c : held (c_writepayload c) [] total -> bytes password -> zlen password <= MAX_STRING_LEN ->
  (forall w, held w [] total -> twp (burn_password (L := L) (R := R) in_env) Q
    (set_c_writepayload w (set_c_sent (c_sent c ++ [SSH_MSG_USERAUTH_REQUEST :: password_request user password]) c))) ->
  twp (put_userauth_request cli_opts AUTH_METHOD_PASSWORD AUTH_METHOD_PASSWORD_LEN ;;;
    CliAuth.on_wp (buf_putbyte 0) ;;;
    CliAuth.on_wp (buf_putstring password (zlen password)) ;;;
    CliAuth.encrypt_packet ;;;
    burn_password in_env) Q c.
Proof using Hub Hul Huser Htotal.
  intros Hwp Hp Hpl HQ. pose proof (zlen_nonneg password). unfold MAX_STRING_LEN, MAX_USERNAME_LEN in *.
  apply twp_bind. apply (put_request_twp _ _ total); [exact Hwp|done|by apply (bool_decide_eq_true_1 _); vm_compute|change (zlen AUTH_METHOD_PASSWORD) with 8; lia|]. intros b1 Hb1.
  assert (Hh : zlen (SSH_MSG_USERAUTH_REQUEST :: request user AUTH_METHOD_PASSWORD []) <= 80).
  { unfold request, str. rewrite zlen_cons, !zlen_app, !zlen_store32h, zlen_nil. change (zlen SSH_SERVICE_CONNECTION) with 14. change (zlen AUTH_METHOD_PASSWORD) with 8. lia. }
  wp_put. eapply held_putbyte; [exact Hb1|by vm_compute|lia|]. intros b2 Hb2.
  wp_put. eapply held_putstring; [exact Hb2|done|done|rewrite zlen_app; change (zlen [_]) with 1; lia|]. intros b3 Hb3.
  assert (E : ((SSH_MSG_USERAUTH_REQUEST :: request user AUTH_METHOD_PASSWORD []) ++ [0]) ++ str password = SSH_MSG_USERAUTH_REQUEST :: password_request user password)
    by (unfold password_request, request; rewrite app_nil_r; cbn [app]; rewrite <-!app_assoc; cbn [app]; by rewrite <-?app_assoc).
  rewrite E in Hb3. apply twp_bind. eapply encrypt_twp; [exact Hb3|]. intros w Hw. exact (HQ w Hw).
Qed.

Lemma client_asks lastkey types rng password answers c : client [] USERAUTH_FAIL_RCVD AUTH_TYPE_NONE lastkey types rng (Some password :: answers) c ->
  Z.land types AUTH_TYPE_PASSWORD <> 0 -> bytes password -> (3 ∉ password) -> zlen password <= MAX_STRING_LEN ->
  twp (cli_sessionloop_auth (L := L) (R := R) cli_opts) (fun _ c' => client [] USERAUTH_REQ_SENT AUTH_TYPE_PASSWORD lastkey types rng answers c' /\
    c_sent c' = c_sent c ++ [SSH_MSG_USERAUTH_REQUEST :: password_request user password]) c.
Proof using H0 Hub Hul Huser Htotal Hsock.
  intros Hc Ht Hp Hcc Hpl. unfold cli_sessionloop_auth. apply twp_bind, twp_gets. rewrite (cl_state _ _ _ _ _ _ _ _ Hc). unfold cli_auth_try. apply twp_bind, twp_bind, twp_gets.
  rewrite (cl_types _ _ _ _ _ _ _ _ Hc). cbn zeta.
  assert (Hkeys : exists c1 last, (if negb (Z.land types AUTH_TYPE_PUBKEY =? 0) then f <- cli_auth_pubkey cli_opts ;; modify (set_c_lastauthtype AUTH_TYPE_PUBKEY) ;;; ret f else ret false) c = Ok (false, c1) /\
    client [] USERAUTH_FAIL_RCVD last lastkey types rng (Some password :: answers) c1 /\ c_sent c1 = c_sent c).
  { destruct (Z.land types AUTH_TYPE_PUBKEY =? 0); cbn [negb]; [by exists c, AUTH_TYPE_NONE|]. destruct (no_keys _ _ _ _ _ _ Hc) as (c1 & E1 & [] & Es).
    exists (set_c_lastauthtype AUTH_TYPE_PUBKEY c1), AUTH_TYPE_PUBKEY. split; [by rewrite (bind_ok _ _ _ _ _ E1)|]. split; [by split|done]. }
  destruct Hkeys as (c1 & last & E1 & [] & Es). apply twp_bind. eapply twp_ok; [exact E1|]. apply twp_bind, twp_gets. rewrite (proj2 (Z.eqb_neq _ _) Ht), cl_none0. cbn [negb andb].
  apply twp_bind, twp_bind. unfold cli_auth_password, getpass_or_cancel. apply twp_bind, twp_bind, twp_gets. rewrite cl_env0. apply twp_bind, twp_modify. apply twp_bind. unfold read_terminal.
  set (c2 := set_c_printed _ c1). apply twp_bind, twp_gets. change (c_terminal c2) with (c_terminal c1). rewrite cl_answers0. apply twp_bind, twp_modify, twp_ret.
  rewrite bool_decide_eq_false_2 by done. apply twp_ret. cbv beta iota. set (c3 := set_c_terminal answers c2). apply password_sent; [exact cl_wp0|done|done|]. intros w Hw.
  unfold burn_password. apply twp_ret. apply twp_bind, twp_modify, twp_ret. cbn [negb andb]. apply twp_ret, twp_modify.
  split; [by split|]. cbn. by rewrite Es.
Qed.

(** A password from the environment is used once.  With DROPBEAR_PASSWORD
    set, the first attempt sends its value and then overwrites it, in the
    environment itself, with zeros; every attempt after that sends an empty
    password, without asking the user. *)
Theorem environment_password_used_once password attempts c : c_env c = Some password -> held (c_writepayload c) [] total ->
  bytes password -> zlen password <= MAX_STRING_LEN ->
  exists c', (cli_auth_password cli_opts ;;; Nat.iter attempts (fun m => cli_auth_password cli_opts ;;; m) (ret tt)) c = Ok (tt, c') /\
    c_sent c' = c_sent c ++ (SSH_MSG_USERAUTH_REQUEST :: password_request user password) :: replicate attempts (SSH_MSG_USERAUTH_REQUEST :: password_request user []) /\
    c_terminal c' = c_terminal c /\ c_printed c' = c_printed c.
Proof using Hub Hul Huser Htotal.
  assert (Hone : forall p Q c, c_env c = Some p -> held (c_writepayload c) [] total -> bytes p -> zlen p <= MAX_STRING_LEN ->
    (forall w, held w [] total -> Q tt (set_c_env (Some []) (set_c_writepayload w (set_c_sent (c_sent c ++ [SSH_MSG_USERAUTH_REQUEST :: password_request user p]) c)))) ->
    twp (cli_auth_password (L := L) (R := R) cli_opts) Q c).
  { clear c. intros p Q c He Hwp Hp Hpl HQ. unfold cli_auth_password, getpass_or_cancel. apply twp_bind, twp_bind, twp_gets. rewrite He. apply twp_ret. cbv beta iota.
    apply password_sent; [done..|]. intros w Hw. by apply twp_modify, HQ. }
  assert (Hrest : forall n c, c_env c = Some [] -> held (c_writepayload c) [] total ->
    twp (Nat.iter n (fun m => cli_auth_password (L := L) (R := R) cli_opts ;;; m) (ret tt)) (fun _ c' =>
      c_sent c' = c_sent c ++ replicate n (SSH_MSG_USERAUTH_REQUEST :: password_request user []) /\ c_terminal c' = c_terminal c /\ c_printed c' = c_printed c) c).
  { clear c. induction n as [|n IH]; intros c He Hwp; cbn [Nat.iter replicate]; [apply twp_ret; by rewrite app_nil_r|].
    apply twp_bind. apply (Hone []); [done|done|by constructor|by vm_compute|]. intros w Hw. eapply twp_mono; [by apply IH|]. intros [] c' (E1 & E2 & E3).
    cbn in E1. rewrite <-app_assoc in E1. done. }
  intros He Hwp Hp Hpl.
  assert (Hall : twp (cli_auth_password cli_opts ;;; Nat.iter attempts (fun m => cli_auth_password (L := L) (R := R) cli_opts ;;; m) (ret tt)) (fun _ c' =>
    c_sent c' = c_sent c ++ (SSH_MSG_USERAUTH_REQUEST :: password_request user password) :: replicate attempts (SSH_MSG_USERAUTH_REQUEST :: password_request user []) /\
    c_terminal c' = c_terminal c /\ c_printed c' = c_printed c) c).
  { apply twp_bind. apply (Hone password); [done..|]. intros w Hw. eapply twp_mono; [by apply Hrest|]. intros [] c' (E1 & E2 & E3). cbn in E1. rewrite <-app_assoc in E1. done. }
  apply twp_ex in Hall as ([] & c' & E & H'). by exists c'.
Qed.
End Client.

(** ** The server *)

(** Putting a string that is longer than what is put. *)
Lemma putstring_prefix l rest b : buf_putstring (l ++ rest) (zlen l) b = buf_putstring l (zlen l) b.
Proof.
  assert (E : forall c, buf_putbytes (l ++ rest) (zlen l) c = buf_putbytes l (zlen l) c).
  { intros c. unfold buf_putbytes, src_bytes. rewrite zlen_app, ztake_app_zlen, ztake_all. pose proof (zlen_nonneg l). pose proof (zlen_nonneg rest).
    unfold bind. destruct (buf_getwriteptr (zlen l) c) as [[p c']| |]; [|done|done]. by z_guards. }
  unfold buf_putstring, bind. destruct (buf_putint (zlen l) b) as [[[] c]| |]; [|done|done]. by rewrite E.
Qed.

Lemma append_putprefix l rest n pre room Q b : buf_repr b pre [] room -> n = zlen l -> bytes l -> 4 + zlen l <= room ->
  (forall b', buf_repr b' (pre ++ str l) [] (room - zlen (str l)) -> Q tt b') -> twp (buf_putstring (l ++ rest) n) Q b.
Proof.
  intros Hb -> Hl Hr HQ. unfold twp. rewrite putstring_prefix. eapply append_putstring; [exact Hb|done|done|lia|]. intros b' Hb'. apply HQ.
  unfold str. rewrite zlen_app, zlen_store32h. by replace (room - (4 + zlen l)) with (room - 4 - zlen l) by lia.
Qed.

Section Server.
Context {R : Type} `{Random R} `{ExptMod} `{AuthSystem} `{HL : !AuthSystemLaws} (svr_opts : svr_runopts).
Abbreviation ssess := (auth_sess R).
Implicit Types (s : ssess).
Context (user : list Z) (Hu : 0 ∉ user) (Hub : bytes user) (Hul : zlen user <= MAX_USERNAME_LEN) (sid : list Z).

Lemma svr_encrypt_twp content room Q s : buf_repr (a_writepayload s) content [] room ->
  (forall w, buf_repr w [] [] (zlen content + room) -> Q tt (sent w content s)) -> twp SvrAuth.encrypt_packet Q s.
Proof. intros Hb HQ. destruct (encrypt_run s content room Hb) as (w & E & Hw). eapply twp_ok; [exact E|]. by apply HQ. Qed.

(** A server that waits for a request of [user], who has [n] failures. *)
Record server (n : Z) s : Prop := {
  sv_waiting : waiting s;
  sv_types : authtypes (look_up svr_opts user (a_authstate s)) = offered_types svr_opts;
  sv_count : failcount (look_up svr_opts user (a_authstate s)) = n;
  sv_sid : a_session_id s = sid;
  sv_close : close_fails (a_childpipe s) = false
}.

Lemma look_up_again a o n : as_username a = Some user ->
  look_up svr_opts user (set_failcount n (set_pubkey_options o a)) = set_failcount n (set_pubkey_options o a).
Proof. intros E. unfold look_up. by rewrite bool_decide_eq_true_2. Qed.

(** After a request the account is the user's; its options and its count may
    have changed. *)
Lemma server_kept n n' o s s1 : server n s -> a_authstate s1 = set_failcount n' (set_pubkey_options o (look_up svr_opts user (a_authstate s))) -> 0 <= n' < MAX_AUTH_TRIES ->
  a_session_id s1 = a_session_id s -> a_childpipe s1 = a_childpipe s -> a_banner s1 = None -> ready s1 -> server n' s1.
Proof.
  intros [[Hd Hbn Ha Hr Hc] Ht Hn Hs Hcl] Ea Hn' Es Ep Ebn Hready. destruct (account_look_up svr_opts user _ Ha) as [Hac Hun].
  split; [split|..]; rewrite ?Ea, ?Es, ?Ep; try done; try (rewrite look_up_again by done; done). by apply look_up_done.
Qed.

(** The request for the service. *)
Definition service_accept : list Z := SSH_MSG_SERVICE_ACCEPT :: str SSH_SERVICE_USERAUTH.

Lemma server_accepts n s : server n s -> twp recv_msg_service_request (fun _ s' => server n s' /\ a_sent s' = a_sent s ++ [service_accept])
  (set_a_payload (message (SSH_MSG_SERVICE_REQUEST :: str SSH_SERVICE_USERAUTH)) s).
Proof.
  intros Hs. pose proof Hs as [Hw _ _ _ _]. pose proof (w_ready _ Hw) as (room & Hroom & Hb). unfold recv_msg_service_request.
  assert (Hp : buf_repr (message (SSH_MSG_SERVICE_REQUEST :: str SSH_SERVICE_USERAUTH)) [SSH_MSG_SERVICE_REQUEST] (str SSH_SERVICE_USERAUTH ++ []) 0)
    by (rewrite app_nil_r; apply message_repr; [apply (bool_decide_eq_true_1 _)|]; by vm_compute).
  destruct (repr_getstr _ _ SSH_SERVICE_USERAUTH [] 0 ltac:(by vm_compute) Hp) as (b1 & E1 & _). apply twp_bind, twp_zoom. eapply twp_ok; [exact E1|]. cbv beta iota.
  change (is_name (SSH_SERVICE_USERAUTH ++ [0]) (zlen SSH_SERVICE_USERAUTH) SSH_SERVICE_USERAUTH) with true. cbn iota. unfold send_msg_service_accept.
  apply twp_bind, twp_zoom. eapply append_putbyte; [exact Hb|by vm_compute|lia|]. intros b2 Hb2. apply twp_bind, twp_zoom.
  eapply (append_putprefix SSH_SERVICE_USERAUTH [0]); [exact Hb2|done|by apply (bool_decide_eq_true_1 _); vm_compute|change (zlen SSH_SERVICE_USERAUTH) with 12; lia|]. intros b3 Hb3.
  eapply svr_encrypt_twp; [exact Hb3|]. intros w Hwr. split; [|done]. change (zlen (str SSH_SERVICE_USERAUTH)) with 16 in Hwr. change (zlen _) with 17 in Hwr.
  replace (17 + (room - 1 - 16)) with room in Hwr by lia. destruct Hs as [[Hd Hbn Ha Hr Hc] Ht Hn Hss Hcl]. split; [split|..]; try done. by exists room.
Qed.

(** An answer with the methods, to a request that does not count. *)
Lemma server_refuses n o s s1 : server n s -> a_authstate s1 = set_pubkey_options o (look_up svr_opts user (a_authstate s)) ->
  a_session_id s1 = a_session_id s -> a_childpipe s1 = a_childpipe s -> a_banner s1 = None -> ready s1 ->
  twp (send_msg_userauth_failure false false) (fun _ s' => server n s' /\ a_sent s' = a_sent s1 ++ [failure_message (offered_types svr_opts) false]) s1.
Proof.
  intros Hs Ea Es Ep Ebn Hr. destruct (failure_run false false s1 Hr) as (w & Hw & E). cbn [refused] in E.
  assert (Et : authtypes (a_authstate s1) = offered_types svr_opts) by (rewrite Ea; exact (sv_types _ _ Hs)).
  assert (En : failcount (a_authstate s1) = n) by (rewrite Ea; exact (sv_count _ _ Hs)). rewrite Et in E.
  assert (Hc : 0 <= n < MAX_AUTH_TRIES) by (rewrite <-(sv_count _ _ Hs); by apply look_up_count, (w_count _ (sv_waiting _ _ Hs))).
  change (failcount (a_authstate (sent w (failure_message (offered_types svr_opts) false) s1))) with (failcount (a_authstate s1)) in E. rewrite En in E.
  rewrite Z.geb_leb, (proj2 (Z.leb_gt _ _)) in E by lia. eapply twp_ok; [exact E|]. split; [|done].
  eapply (server_kept n n o s); try done; [|by apply Hw]. cbn. rewrite Ea. rewrite <-(sv_count _ _ Hs). by destruct (look_up svr_opts user (a_authstate s)).
Qed.

(** A session with the payload of a request. *)
Definition with_request (msg : list Z) s : ssess := set_a_payload (message (SSH_MSG_USERAUTH_REQUEST :: msg)) s.

Lemma request_message_repr msg : bytes msg -> zlen msg < 1000000 -> buf_repr (message (SSH_MSG_USERAUTH_REQUEST :: msg)) [SSH_MSG_USERAUTH_REQUEST] msg 0.
Proof. intros Hb Hl. apply message_repr; [by apply Forall_cons_2|]. rewrite zlen_cons. unfold BUF_MAX_SIZE. lia. Qed.

Lemma waiting_payload b s : waiting s -> waiting (set_a_payload b s).
Proof. by intros [? ? ? ? ?]; split. Qed.

(** The request for the methods. *)
Lemma server_lists_methods n s : allowblankpass svr_opts = false -> server n s ->
  twp (recv_msg_userauth_request svr_opts) (fun _ s' => server n s' /\ a_sent s' = a_sent s ++ [failure_message (offered_types svr_opts) false])
    (with_request (request user AUTH_METHOD_NONE []) s).
Proof.
  intros Hblank Hs. assert (Hp : buf_repr (message (SSH_MSG_USERAUTH_REQUEST :: request user AUTH_METHOD_NONE [])) [SSH_MSG_USERAUTH_REQUEST] (request user AUTH_METHOD_NONE []) 0).
  { unfold MAX_USERNAME_LEN in *. apply request_message_repr.
    - apply request_bytes; [done|by apply (bool_decide_eq_true_1 _); vm_compute|by constructor].
    - unfold request, str. rewrite !zlen_app, !zlen_store32h, zlen_nil. change (zlen SSH_SERVICE_CONNECTION) with 14. change (zlen AUTH_METHOD_NONE) with 4. lia. }
  destruct (request_run svr_opts user AUTH_METHOD_NONE [] (with_request (request user AUTH_METHOD_NONE []) s) [SSH_MSG_USERAUTH_REQUEST] 0
    (waiting_payload _ _ (sv_waiting _ _ Hs)) Hu Hul ltac:(by vm_compute) Hp) as (b & _ & E).
  unfold twp. rewrite E. set (s1 := set_a_authstate _ _). unfold userauth_method. rewrite (bind_ok _ _ _ (a_authstate s1) s1) by reflexivity. cbn zeta.
  rewrite is_name_string by (apply (bool_decide_eq_true_1 _); by vm_compute). change (bool_decide (AUTH_METHOD_NONE = AUTH_METHOD_NONE)) with true. cbn iota.
  rewrite Hblank, andb_false_r. cbn [andb]. rewrite (bind_ok _ _ _ false s1) by reflexivity. cbn iota.
  change (a_sent s) with (a_sent s1). apply (server_refuses n (pubkey_options (look_up svr_opts user (a_authstate s))) s); try done.
  - subst s1. cbn. by destruct (look_up svr_opts user (a_authstate s)).
  - exact (w_banner _ (sv_waiting _ _ Hs)).
  - exact (w_ready _ (sv_waiting _ _ Hs)).
Qed.

(** *** Requests without a signature *)

Context (pw : passwd) (lines : list auth_line) (Hadm : admitted svr_opts user = true) (Hpw : getpwnam user = Some pw) (Hsafe : safe_keys pw)
  (Hfile : fopen (authorized_keys_of (passwd_dir pw)) = Some (file_text lines)) (Hgood : Forall good_line lines).

(** The account's file lists the key. *)
Definition listed (key : sign_key) (type : Z) : Prop := Exists (fun l => exists p, grants (type_name type) (pub_bytes key type) l p) lines.
Definition unlisted (key : sign_key) (type : Z) : Prop := Forall (fun l => forall p, ~ grants (type_name type) (pub_bytes key type) l p) lines.

Lemma checkpubkey_refuses key type s : logged_account (a_authstate s) pw -> type_name type ∈ key_names -> unlisted key type ->
  exists o, checkpubkey (type_name type ++ [0]) (zlen (type_name type)) (pub_bytes key type) s = Ok (false, set_a_authstate (set_pubkey_options o (a_authstate s)) s).
Proof using Hsafe Hfile Hgood.
  intros Hl Hname Hno. unfold checkpubkey. rewrite (have_key_name _ Hname). cbn [negb].
  rewrite (bind_ok _ _ _ _ _ (checkpubkeyperms_run pw s Hl Hsafe)). cbn [negb]. rewrite (bind_ok _ _ _ (a_authstate s) s) by reflexivity.
  pose proof Hl as (_ & Edir & _). rewrite Edir, (bind_ok _ _ _ (passwd_dir pw) s) by reflexivity. rewrite Hfile.
  destruct (search_authfile_ok (type_name type) (pub_bytes key type) lines s Hname Hgood) as (ok & opts & E & Hout & _). rewrite (bind_ok _ _ _ _ _ E). cbn [fst snd].
  destruct ok.
  - exfalso. destruct Hout as (before & l & after & El & _ & Hg). unfold unlisted in Hno. rewrite El in Hno. apply Forall_app in Hno as [_ Hno]. apply Forall_cons in Hno as [Hno _]. exact (Hno _ Hg).
  - destruct opts as [o|]; [by exists o|]. exists (pubkey_options (a_authstate s)).
    assert (Es : set_a_authstate (set_pubkey_options (pubkey_options (a_authstate s)) (a_authstate s)) s = s) by (by destruct s as [? ? ? []]). by rewrite Es.
Qed.

Lemma trial_run key type s pre room : type_name type ∈ key_names -> zlen (pub_bytes key type) <= MAX_PUBKEY_SIZE ->
  buf_repr (a_payload s) pre (0 :: str (type_name type) ++ str (pub_bytes key type)) room ->
  exists b, svr_auth_pubkey s =
    (ok <- checkpubkey (type_name type ++ [0]) (zlen (type_name type)) (pub_bytes key type) ;;
     if negb ok then send_msg_userauth_failure false false
     else send_msg_userauth_pk_ok (type_name type ++ [0]) (zlen (type_name type)) (pub_bytes key type) (zlen (pub_bytes key type))) (set_a_payload b s).
Proof.
  intros Hname Hlen Hb. destruct (key_name_facts _ Hname) as (Hn7 & _). set (blob := pub_bytes key type) in *. pose proof (zlen_nonneg blob).
  destruct (repr_getbyte _ _ _ _ _ Hb) as (b1 & E1 & Hb1). assert (E1' : buf_getbool (a_payload s) = Ok (0, b1)) by (unfold buf_getbool; by rewrite (bind_ok _ _ _ _ _ E1)).
  destruct (repr_getstr _ _ (type_name type) _ room ltac:(by rewrite Hn7) Hb1) as (b2 & E2 & Hb2). unfold str at 2 in Hb2.
  destruct (repr_getint _ _ (zlen blob) _ room ltac:(unfold is_u32, MAX_PUBKEY_SIZE in *; lia) Hb2) as (b3 & E3 & Hb3). rewrite <-(app_nil_r blob) in Hb3.
  pose proof (repr_getptr_bytes b3 _ blob [] room (zlen blob) eq_refl Hb3) as E4. exists b3. unfold svr_auth_pubkey.
  rewrite (bind_ok _ _ _ _ _ (on_payload_run buf_getbool s _ b1 E1')). cbn zeta. cbn [Z.eqb].
  rewrite (bind_ok _ _ _ _ _ (on_payload_run buf_getstring (set_a_payload b1 s) _ b2 E2)). cbv beta iota.
  rewrite (bind_ok _ _ _ _ _ (on_payload_run buf_getint (set_a_payload b2 (set_a_payload b1 s)) _ b3 E3)).
  change (set_a_payload b3 (set_a_payload b2 (set_a_payload b1 s))) with (set_a_payload b3 s).
  rewrite (bind_ok _ _ _ _ _ (on_payload_run (getptr_bytes (zlen blob)) (set_a_payload b3 s) _ b3 E4)).
  change (set_a_payload b3 (set_a_payload b3 s)) with (set_a_payload b3 s). unfold bind. by destruct (checkpubkey _ _ _ _) as [[[] ?]| |].
Qed.

(** The request of a client that tries a key. *)
Definition trial (key : sign_key) (type : Z) : list Z := request user AUTH_METHOD_PUBKEY (0 :: str (type_name type) ++ str (pub_bytes key type)).

Lemma trial_reaches n key type s : has_key key type -> server n s ->
  exists b, let s1 := set_a_authstate (look_up svr_opts user (a_authstate s)) (set_a_payload b s) in
    recv_msg_userauth_request svr_opts (with_request (trial key type) s) =
    (ok <- checkpubkey (type_name type ++ [0]) (zlen (type_name type)) (pub_bytes key type) ;;
     if negb ok then send_msg_userauth_failure false false
     else send_msg_userauth_pk_ok (type_name type ++ [0]) (zlen (type_name type)) (pub_bytes key type) (zlen (pub_bytes key type))) s1.
Proof using Hu Hub Hul Hadm.
  intros Hk Hs. destruct (has_key_facts _ _ Hk) as (Hl & Hname & _). destruct (key_name_facts _ Hname) as (Hn7 & _ & _ & Hnb & _). pose proof (pub_bytes_bytes _ _ Hk).
  assert (Hp : buf_repr (message (SSH_MSG_USERAUTH_REQUEST :: trial key type)) [SSH_MSG_USERAUTH_REQUEST] (trial key type) 0).
  { unfold MAX_USERNAME_LEN, MAX_PUBKEY_SIZE in *. apply request_message_repr.
    - apply request_bytes; [done|by apply (bool_decide_eq_true_1 _); vm_compute|]. apply Forall_cons_2; [done|]. by apply Forall_app_2; apply str_bytes.
    - unfold trial, request, str. rewrite !zlen_app, zlen_cons, !zlen_app, !zlen_store32h, Hn7. change (zlen SSH_SERVICE_CONNECTION) with 14. change (zlen AUTH_METHOD_PUBKEY) with 9. lia. }
  destruct (request_run svr_opts user AUTH_METHOD_PUBKEY _ (with_request (trial key type) s) [SSH_MSG_USERAUTH_REQUEST] 0
    (waiting_payload _ _ (sv_waiting _ _ Hs)) Hu Hul ltac:(by vm_compute) Hp) as (b & Hb & E).
  set (s0 := set_a_authstate _ _) in E. destruct (trial_run key type s0 _ 0 Hname Hl Hb) as (b1 & E1). exists b1. cbn zeta. rewrite E.
  unfold userauth_method. rewrite (bind_ok _ _ _ (a_authstate s0) s0) by reflexivity. cbn zeta.
  rewrite !is_name_string by (apply (bool_decide_eq_true_1 _); by vm_compute). change (bool_decide (AUTH_METHOD_PUBKEY = AUTH_METHOD_NONE)) with false.
  change (bool_decide (AUTH_METHOD_PUBKEY = AUTH_METHOD_PASSWORD)) with false. change (bool_decide (AUTH_METHOD_PUBKEY = AUTH_METHOD_PUBKEY)) with true.
  rewrite andb_false_r, Hadm. cbn [andb]. exact E1.
Qed.

(** A key the file does not list is refused, and the attempt does not count. *)
Lemma server_refuses_key n key type s : has_key key type -> unlisted key type -> server n s ->
  twp (recv_msg_userauth_request svr_opts) (fun _ s' => server n s' /\ a_sent s' = a_sent s ++ [failure_message (offered_types svr_opts) false])
    (with_request (trial key type) s).
Proof using Hu Hub Hul Hadm Hpw Hsafe Hfile Hgood.
  intros Hk Hno Hs. destruct (has_key_facts _ _ Hk) as (_ & Hname & _). destruct (trial_reaches n key type s Hk Hs) as (b & E). cbn zeta in E. unfold twp. rewrite E. set (s1 := set_a_authstate _ _).
  assert (Hlog : logged_account (a_authstate s1) pw) by exact (look_up_logged svr_opts user _ pw (w_account _ (sv_waiting _ _ Hs)) Hpw).
  destruct (checkpubkey_refuses key type s1 Hlog Hname Hno) as (o & E1). rewrite (bind_ok _ _ _ _ _ E1). cbn [negb]. set (s2 := set_a_authstate _ s1).
  change (a_sent s) with (a_sent s2). apply (server_refuses n o s); try done.
  - exact (w_banner _ (sv_waiting _ _ Hs)).
  - exact (w_ready _ (sv_waiting _ _ Hs)).
Qed.

(** A key the file lists is accepted for signing. *)
Lemma server_takes_key n key type s : has_key key type -> listed key type -> server n s ->
  twp (recv_msg_userauth_request svr_opts) (fun _ s' => server n s' /\ a_sent s' = a_sent s ++ [pk_ok_message key type])
    (with_request (trial key type) s).
Proof using Hu Hub Hul Hadm Hpw Hsafe Hfile Hgood.
  intros Hk Hyes Hs. destruct (has_key_facts _ _ Hk) as (Hl & Hname & _). destruct (key_name_facts _ Hname) as (Hn7 & _ & _ & Hnb & _). pose proof (pub_bytes_bytes _ _ Hk).
  destruct (trial_reaches n key type s Hk Hs) as (b & E). cbn zeta in E. unfold twp. rewrite E. set (s1 := set_a_authstate _ _).
  assert (Hlog : logged_account (a_authstate s1) pw) by exact (look_up_logged svr_opts user _ pw (w_account _ (sv_waiting _ _ Hs)) Hpw).
  destruct (checkpubkey_run (type_name type) (pub_bytes key type) lines pw s1 Hlog Hsafe Hname Hfile Hgood Hyes) as (o & E1 & _). rewrite (bind_ok _ _ _ _ _ E1). cbn [negb]. set (s2 := set_a_authstate _ s1).
  pose proof (w_ready _ (sv_waiting _ _ Hs)) as (room & Hroom & Hb). unfold send_msg_userauth_pk_ok. pose proof (zlen_nonneg (pub_bytes key type)). unfold MAX_PUBKEY_SIZE in Hl.
  apply twp_bind, twp_zoom. eapply append_putbyte; [exact Hb|by vm_compute|lia|]. intros b2 Hb2.
  apply twp_bind, twp_zoom. eapply append_putprefix; [exact Hb2|done|done|lia|]. intros b3 Hb3. unfold str at 2 in Hb3. rewrite zlen_app, zlen_store32h, Hn7 in Hb3.
  apply twp_bind, twp_zoom. eapply append_putstring; [exact Hb3|done|done|lia|]. intros b4 Hb4. eapply svr_encrypt_twp; [exact Hb4|]. intros w Hw. split; [|].
  - eapply (server_kept n n o s); try done.
    + cbn. rewrite <-(sv_count _ _ Hs). by destruct (look_up svr_opts user (a_authstate s)).
    + rewrite <-(sv_count _ _ Hs). by apply look_up_count, (w_count _ (sv_waiting _ _ Hs)).
    + exact (w_banner _ (sv_waiting _ _ Hs)).
    + exists room. split; [done|]. cbn. unfold str in Hw. rewrite !zlen_app, !zlen_store32h, Hn7 in Hw. change (zlen [_]) with 1 in Hw. rewrite zlen_nil in Hw.
      match type of Hw with buf_repr _ _ _ ?r => by replace r with room in Hw by lia end.
  - cbn. unfold pk_ok_message, str. by rewrite <-!app_assoc.
Qed.

(** *** Requests with a password *)

Lemma password_message password : bytes password -> zlen password <= MAX_STRING_LEN ->
  buf_repr (message (SSH_MSG_USERAUTH_REQUEST :: password_request user password)) [SSH_MSG_USERAUTH_REQUEST] (password_request user password ++ []) 0.
Proof using Hub Hul.
  intros Hp Hl. rewrite app_nil_r. unfold MAX_USERNAME_LEN, MAX_STRING_LEN in *. apply request_message_repr.
  - unfold password_request. apply request_bytes; [exact Hub|by apply (bool_decide_eq_true_1 _); vm_compute|]. apply Forall_cons_2; [by vm_compute|]. apply str_bytes. exact Hp.
  - unfold password_request, request, str. rewrite !zlen_app, zlen_cons, zlen_app, !zlen_store32h. change (zlen SSH_SERVICE_CONNECTION) with 14. change (zlen AUTH_METHOD_PASSWORD) with 8. lia.
Qed.

Lemma server_wrong_password n password s : fits_request user password -> bytes password -> right_password svr_opts user password = false -> server n s -> n + 1 < MAX_AUTH_TRIES ->
  twp (recv_msg_userauth_request svr_opts) (fun _ s' => server (n + 1) s' /\ a_sent s' = a_sent s ++ [failure_message (offered_types svr_opts) false])
    (with_request (password_request user password) s).
Proof using Hu Hub Hul HL.
  intros Hf Hp Hwrong Hs Hn. pose proof Hf as (_ & _ & _ & Hpl). set (s0 := with_request _ s).
  destruct (password_request_run svr_opts user password s0 [SSH_MSG_USERAUTH_REQUEST] [] 0 (waiting_payload _ _ (sv_waiting _ _ Hs)) Hf (password_message _ Hp Hpl)) as (b & E).
  rewrite Hwrong in E. set (s1 := set_a_payload b _) in E. destruct (failure_run false true s1 (w_ready _ (sv_waiting _ _ Hs))) as (w & Hw & E1). cbn zeta in E1. cbn [refused] in E1.
  set (s2 := sent w _ s1) in E1. assert (En : failcount (a_authstate s1) = n) by exact (sv_count _ _ Hs).
  assert (Hc : 0 <= n < MAX_AUTH_TRIES) by (rewrite <-(sv_count _ _ Hs); by apply look_up_count, (w_count _ (sv_waiting _ _ Hs))).
  assert (Eu : u32 (failcount (a_authstate s2) + 1) = n + 1).
  { change (failcount (a_authstate s2)) with (failcount (a_authstate s1)). rewrite En. apply u32_small. unfold is_u32, MAX_AUTH_TRIES in *. lia. }
  assert (Hcounted : a_authstate (counted s2) = set_failcount (n + 1) (look_up svr_opts user (a_authstate s)) /\ a_session_id (counted s2) = a_session_id s /\
    a_childpipe (counted s2) = a_childpipe s /\ a_banner (counted s2) = a_banner s /\ a_writepayload (counted s2) = w /\
    a_sent (counted s2) = a_sent s ++ [failure_message (authtypes (a_authstate s1)) false]).
  { unfold counted. rewrite Eu. destruct (genrandom 4 (a_random s2)) as [bs r]. split_and!; reflexivity. }
  destruct Hcounted as (Ea & Esid & Ecp & Ebn & Ewp & Esent). assert (Ecount : failcount (a_authstate (counted s2)) = n + 1) by (by rewrite Ea).
  rewrite Ecount, Z.geb_leb, (proj2 (Z.leb_gt _ _)) in E1 by lia. unfold twp. rewrite E, E1. split.
  - apply (server_kept n (n + 1) (pubkey_options (look_up svr_opts user (a_authstate s))) s); [exact Hs| |lia|exact Esid|exact Ecp| |].
    + rewrite Ea. by destruct (look_up svr_opts user (a_authstate s)).
    + rewrite Ebn. exact (w_banner _ (sv_waiting _ _ Hs)).
    + by apply Hw.
  - rewrite Esent. by rewrite (sv_types _ _ Hs : authtypes (a_authstate s1) = _).
Qed.

Lemma server_right_password n password s : fits_request user password -> bytes password -> right_password svr_opts user password = true -> server n s ->
  twp (recv_msg_userauth_request svr_opts) (fun _ s' => authdone (a_authstate s') = true /\ as_username (a_authstate s') = Some user /\ a_sent s' = a_sent s ++ [[SSH_MSG_USERAUTH_SUCCESS]])
    (with_request (password_request user password) s).
Proof using Hu Hub Hul HL.
  intros Hf Hp Hright Hs. pose proof Hf as (_ & _ & _ & Hpl). set (s0 := with_request _ s).
  destruct (password_request_run svr_opts user password s0 [SSH_MSG_USERAUTH_REQUEST] [] 0 (waiting_payload _ _ (sv_waiting _ _ Hs)) Hf (password_message _ Hp Hpl)) as (b & E).
  rewrite Hright in E. set (s1 := set_a_payload b _) in E. destruct (success_run s1 (w_ready _ (sv_waiting _ _ Hs)) (sv_close _ _ Hs)) as (w & _ & E1). unfold twp. rewrite E, E1.
  destruct (account_look_up svr_opts user _ (w_account _ (sv_waiting _ _ Hs))) as [_ Hun]. unfold logged_in. by destruct (pw_uid _ =? 0).
Qed.

(** The failure that makes it ten ends the server's session. *)
Lemma server_last_password n password s : fits_request user password -> bytes password -> right_password svr_opts user password = false -> server n s -> MAX_AUTH_TRIES <= n + 1 ->
  recv_msg_userauth_request svr_opts (with_request (password_request user password) s) = Exit "Max auth tries reached".
Proof using Hu Hub Hul HL.
  intros Hf Hp Hwrong Hs Hn. pose proof Hf as (_ & _ & _ & Hpl). set (s0 := with_request _ s).
  destruct (password_request_run svr_opts user password s0 [SSH_MSG_USERAUTH_REQUEST] [] 0 (waiting_payload _ _ (sv_waiting _ _ Hs)) Hf (password_message _ Hp Hpl)) as (b & E).
  rewrite Hwrong in E. set (s1 := set_a_payload b _) in E. destruct (failure_run false true s1 (w_ready _ (sv_waiting _ _ Hs))) as (w & Hw & E1). cbn zeta in E1. cbn [refused] in E1.
  set (s2 := sent w _ s1) in E1. assert (En : failcount (a_authstate s1) = n) by exact (sv_count _ _ Hs).
  assert (Hc : 0 <= n < MAX_AUTH_TRIES) by (rewrite <-(sv_count _ _ Hs); by apply look_up_count, (w_count _ (sv_waiting _ _ Hs))).
  assert (Ecount : failcount (a_authstate (counted s2)) = n + 1).
  { unfold counted. destruct (genrandom 4 (a_random s2)) as [bs r]. cbn [a_authstate set_a_authstate failcount set_failcount]. change (failcount (a_authstate s2)) with (failcount (a_authstate s1)).
    rewrite En. apply u32_small. unfold is_u32, MAX_AUTH_TRIES in *. lia. }
  rewrite Ecount, Z.geb_leb, (proj2 (Z.leb_le _ _)) in E1 by lia. by rewrite E, E1.
Qed.
End Server.

(** ** The conversation

    One round: the client's loop acts, the server handles what the client has
    sent, and the client handles the answers. *)

(** The handlers of the server's table that the login uses. *)
Definition svr_login_packettypes {R} `{Random R} `{ExptMod} `{AuthSystem} (svr_opts : svr_runopts) (type : Z) : option (prog (auth_sess R) unit) :=
  if type =? SSH_MSG_SERVICE_REQUEST then Some recv_msg_service_request
  else if type =? SSH_MSG_USERAUTH_REQUEST then Some (recv_msg_userauth_request svr_opts)
  else None.

Section Conversation.
Context {L R G : Type} `{MListLaws L cli_key} `{RandomMp G} `{Random R} `{ExptMod} `{ClientSystem} `{AuthSystem} `{HL : !AuthSystemLaws}.
Context (cli_opts : cli_runopts) (svr_opts : svr_runopts).
Abbreviation csess := (cli_sess L G).
Abbreviation ssess := (auth_sess R).

Definition set_cli (c : csess) (x : csess * ssess) : csess * ssess := (c, x.2).
Definition set_svr (s : ssess) (x : csess * ssess) : csess * ssess := (x.1, s).

Definition exchange : prog (csess * ssess) unit :=
  zoom fst set_cli (cli_sessionloop_auth cli_opts) ;;;
  x <- gets id ;;
  modify (fun x => set_cli (set_c_sent [] x.1) x) ;;;
  zoom snd set_svr (deliver set_a_payload (svr_login_packettypes svr_opts) (c_sent x.1)) ;;;
  x <- gets id ;;
  modify (fun x => set_svr (set_a_sent [] x.2) x) ;;;
  zoom fst set_cli (deliver set_c_payload (cli_packettypes cli_opts) (a_sent x.2)).

Fixpoint exchanges (n : nat) : prog (csess * ssess) unit :=
  match n with
  | O => ret tt
  | S n => exchange ;;; exchanges n
  end.

(** A round from what each side does. *)
Lemma exchange_twp (c : csess) (s : ssess) Q :
  twp (cli_sessionloop_auth cli_opts) (fun _ c1 =>
    twp (deliver set_a_payload (svr_login_packettypes svr_opts) (c_sent c1)) (fun _ s1 =>
      twp (deliver set_c_payload (cli_packettypes cli_opts) (a_sent s1)) (fun _ c2 => Q tt (c2, set_a_sent [] s1)) (set_c_sent [] c1)) s) c ->
  twp exchange Q (c, s).
Proof.
  intros Hw. unfold exchange. apply twp_bind, twp_zoom. cbn [fst]. eapply twp_mono; [exact Hw|]. intros [] c1 Hs. apply twp_bind, twp_gets. unfold id.
  apply twp_bind, twp_modify. apply twp_bind, twp_zoom. cbn [snd fst set_cli]. eapply twp_mono; [exact Hs|]. intros [] s1 Hc. apply twp_bind, twp_gets. unfold id.
  apply twp_bind, twp_modify. apply twp_zoom. cbn [snd fst set_cli set_svr]. eapply twp_mono; [exact Hc|]. intros [] c2 HQ. exact HQ.
Qed.

Lemma exchanges_add n m x : exchanges (n + m) x = (exchanges n ;;; exchanges m) x.
Proof.
  revert x. induction n as [|n IH]; intros x; [done|]. cbn [exchanges Nat.add]. unfold bind at 1 2 3. destruct (exchange x) as [[[] y]| |]; [|done|done]. apply IH.
Qed.

Context (user : list Z) (Huser : username cli_opts = user) (Hu : 0 ∉ user) (Hub : bytes user) (Hul : zlen user <= MAX_USERNAME_LEN).
Context (Hsock : ssh_auth_sock = None) (Hbadf : cli_close_fails (-1) = false).
Context (total : Z) (Htotal : 6000 <= total) (sid : list Z) (Hblank : allowblankpass svr_opts = false).

(** Between two rounds: the client is about to try what is left. *)
Definition idle (n : Z) (xs : list (addr * cli_key)) (rng : G) (answers : list (option (list Z))) (x : csess * ssess) : Prop :=
  (exists lastkey, client total sid xs USERAUTH_FAIL_RCVD AUTH_TYPE_NONE lastkey (method_types (offered_types svr_opts)) rng answers x.1) /\ c_sent x.1 = [] /\
  server svr_opts user sid n x.2 /\ a_sent x.2 = [].

Lemma pubkey_offered : Z.land (method_types (offered_types svr_opts)) AUTH_TYPE_PUBKEY <> 0.
Proof. unfold offered_types. by destruct (noauthpass svr_opts). Qed.

Lemma password_offered : noauthpass svr_opts = false -> Z.land (method_types (offered_types svr_opts)) AUTH_TYPE_PASSWORD <> 0.
Proof. unfold offered_types. by intros ->. Qed.

Lemma client_unsent xs st last lastkey types rng answers (c : csess) :
  client total sid xs st last lastkey types rng answers c -> client total sid xs st last lastkey types rng answers (set_c_sent [] c).
Proof. by intros []; split. Qed.

Lemma client_payload b xs st last lastkey types rng answers (c : csess) :
  client total sid xs st last lastkey types rng answers c -> client total sid xs st last lastkey types rng answers (set_c_payload b c).
Proof. by intros []; split. Qed.

Lemma server_unsent n (s : ssess) : server svr_opts user sid n s -> server svr_opts user sid n (set_a_sent [] s).
Proof. intros [[? ? ? ? ?] ? ? ? ?]. by split; [split|..]. Qed.

(** The answer with the methods ends a round. *)
Lemma refused_twp n xs last lastkey xs' lastkey' types rng answers (c : csess) (s : ssess) :
  client total sid xs USERAUTH_REQ_SENT last lastkey types rng answers c -> c_sent c = [] -> last <> AUTH_TYPE_INTERACT -> crossed_off last lastkey xs xs' lastkey' ->
  server svr_opts user sid n s ->
  twp (deliver set_c_payload (cli_packettypes cli_opts) [failure_message (offered_types svr_opts) false]) (fun _ c2 => idle n xs' rng answers (c2, set_a_sent [] s)) c.
Proof.
  intros Hc Hsent Hi Hx Hs. eapply deliver_twp; [reflexivity|]. eapply twp_mono; [by eapply client_fails|]. intros [] c2 [Hc2 Es2]. apply twp_ret.
  split; [by exists lastkey'|]. split; [cbn [fst]; by rewrite Es2|]. split; [by apply server_unsent|done].
Qed.

Lemma start_round n xs last lastkey types rng answers (c : csess) (s : ssess) :
  client total sid xs STATE_NOTHING last lastkey types rng answers c -> c_sent c = [] -> last <> AUTH_TYPE_PUBKEY -> last <> AUTH_TYPE_INTERACT ->
  server svr_opts user sid n s -> a_sent s = [] -> twp exchange (fun _ => idle n xs rng answers) (c, s).
Proof using All.
  intros Hc Hcs Hl1 Hl2 Hs Hss. apply exchange_twp. eapply twp_mono; [by eapply client_starts|]. intros [] c1 [Hc1 Es1]. rewrite Es1, Hcs. cbn [app].
  eapply deliver_twp; [reflexivity|]. eapply twp_mono; [by apply server_accepts|]. intros [] s1 [Hs1 E1]. rewrite Hss in E1. cbn [app] in E1.
  eapply deliver_twp; [reflexivity|]. eapply twp_mono; [by apply (server_lists_methods svr_opts user Hu Hub Hul sid n)|]. intros [] s2 [Hs2 E2]. apply twp_ret. rewrite E2, E1. cbn [app].
  eapply deliver_twp; [reflexivity|]. apply twp_ret. eapply (refused_twp n xs last lastkey); [by apply client_payload, client_unsent|done|done|by right|done].
Qed.

(** *** Keys *)

Context (pw : passwd) (lines : list auth_line) (Hadm : admitted svr_opts user = true) (Hpw : getpwnam user = Some pw) (Hsafe : safe_keys pw)
  (Hfile : fopen (authorized_keys_of (passwd_dir pw)) = Some (file_text lines)) (Hgood : Forall good_line lines).

Lemma refused_round n p q k xs rng answers x : idle n ((p, (q, k)) :: xs) rng answers x -> has_key k (sk_type k) -> unlisted lines k (sk_type k) ->
  twp exchange (fun _ => idle n xs rng answers) x.
Proof using All.
  destruct x as [c s]. intros ([lastkey Hc] & Hcs & Hs & Hss) Hk Hno. cbn [fst snd] in *. apply exchange_twp.
  eapply twp_mono; [eapply (client_tries cli_opts user Huser Hub Hul Hsock total Htotal sid); [exact Hc|exact pubkey_offered|done]|]. intros [] c1 [Hc1 Es1]. rewrite Es1, Hcs. cbn [app].
  eapply deliver_twp; [reflexivity|]. eapply twp_mono; [by eapply (server_refuses_key svr_opts user Hu Hub Hul sid pw lines Hadm Hpw Hsafe Hfile Hgood n k (sk_type k))|].
  intros [] s1 [Hs1 E1]. apply twp_ret. rewrite E1, Hss. cbn [app].
  eapply refused_twp; [by apply client_unsent|done|done| |done]. left. split; [done|]. split; [done|]. by exists p, q, k.
Qed.

(** The client has sent its signature of the first key of [xs]. *)
Definition signed_in (n : Z) (xs : list (addr * cli_key)) (req content : list Z) (x : csess * ssess) : Prop :=
  awaiting xs x.1 /\ c_sent x.1 = [SSH_MSG_USERAUTH_REQUEST :: req ++ str content] /\ server svr_opts user sid n x.2 /\ a_sent x.2 = [] /\
  bytes (SSH_MSG_USERAUTH_REQUEST :: req ++ str content) /\ zlen (SSH_MSG_USERAUTH_REQUEST :: req ++ str content) <= BUF_MAX_SIZE.

(** A key with which the client can sign. *)
Record usable (k out : sign_key) (rng : G) : Prop := {
  us_source : sk_source k <> SIGNKEY_SOURCE_AGENT;
  us_has : has_key k (sk_type k);
  us_fits : 4 + zlen (pub_bytes k (sk_type k)) <= MAX_PUBKEY_SIZE;
  us_pair : key_pair k out (sk_type k);
  us_random : let '(r, _) := gen_random_mpint (random_modulus k (sk_type k)) rng in 0 <= r /\ Z.gcd r (random_modulus k (sk_type k)) = 1
}.

Definition verifies (out : sign_key) (type : Z) (req content : list Z) : Prop :=
  good_s out type content -> forall b pre room, buf_repr b pre (str content) room -> exists b', SignKey.buf_verify out (to_sign sid req) b = Ok (true, b').

Lemma signing_round `{!ExptModLaws} n p q k out xs rng answers x : idle n ((p, (q, k)) :: xs) rng answers x -> usable k out rng -> listed lines k (sk_type k) ->
  zlen sid = SHA1_HASH_SIZE -> bytes sid ->
  let req := pubkey_request user (type_name (sk_type k)) (pub_bytes k (sk_type k)) in
  twp exchange (fun _ y => exists content, verifies out (sk_type k) req content /\ signed_in n ((p, (q, k)) :: xs) req content y) x.
Proof using All.
  destruct x as [c s]. intros ([lastkey Hc] & Hcs & Hs & Hss) [Hsrc Hk Hfits Hpair Hr] Hyes Hsl Hsb req. cbn [fst snd] in *. apply exchange_twp.
  eapply twp_mono; [eapply (client_tries cli_opts user Huser Hub Hul Hsock total Htotal sid); [exact Hc|exact pubkey_offered|done]|]. intros [] c1 [Hc1 Es1]. rewrite Es1, Hcs. cbn [app].
  eapply deliver_twp; [reflexivity|]. eapply twp_mono; [by eapply (server_takes_key svr_opts user Hu Hub Hul sid pw lines Hadm Hpw Hsafe Hfile Hgood n k (sk_type k))|].
  intros [] s1 [Hs1 E1]. apply twp_ret. rewrite E1, Hss. cbn [app]. eapply deliver_twp; [reflexivity|].
  destruct (gen_random_mpint (random_modulus k (sk_type k)) rng) as [r rng'] eqn:Er. destruct Hr as [Hr0 Hr1].
  eapply twp_mono; [eapply (client_signs cli_opts user Huser Hub Hul total Htotal sid p q k out xs); try done; by apply client_unsent|].
  intros [] c2 (content & Hver & Hby & Hmax & Haw & Es2). apply twp_ret. exists content. split; [exact Hver|]. split; [done|]. split; [exact Es2|]. split; [by apply server_unsent|]. done.
Qed.

(** Both sides say so. *)
Definition both_logged_in (x : csess * ssess) : Prop :=
  authdone (c_authstate x.1) = true /\ c_state x.1 = USERAUTH_SUCCESS_RCVD /\ l_repr (c_privkeys x.1) [] /\ authdone (a_authstate x.2) = true.

(** The server's success ends the conversation. *)
Lemma success_twp xs (c : csess) (s : ssess) : awaiting xs c -> authdone (a_authstate s) = true ->
  twp (deliver set_c_payload (cli_packettypes cli_opts) [[SSH_MSG_USERAUTH_SUCCESS]]) (fun _ c2 => both_logged_in (c2, set_a_sent [] s)) c.
Proof using Hbadf H0.
  intros Haw Hd. eapply deliver_twp; [reflexivity|]. eapply twp_mono; [by eapply (client_succeeds Hbadf xs)|]. intros [] c2 (Hd2 & Hst2 & Hk2 & _). apply twp_ret. by split_and!.
Qed.

Lemma accepted_round n p q k out xs content x :
  let req := pubkey_request user (type_name (sk_type k)) (pub_bytes k (sk_type k)) in
  has_key k (sk_type k) -> readable k (sk_type k) new_sign_key out -> listed lines k (sk_type k) -> zlen sid = SHA1_HASH_SIZE -> bytes sid ->
  verifies out (sk_type k) req content -> good_s out (sk_type k) content -> signed_in n ((p, (q, k)) :: xs) req content x ->
  twp exchange (fun _ y => both_logged_in y /\
    granted_options (type_name (sk_type k)) (pub_bytes k (sk_type k)) lines (pubkey_options (look_up svr_opts user (a_authstate x.2))) (pubkey_options (a_authstate y.2))) x.
Proof using All.
  destruct x as [c s]. intros req Hk Hread Hyes Hsl Hsb Hver Hgs (Haw & Hcs & Hs & Hss & Hby & Hmax). cbn [fst snd] in *. apply exchange_twp.
  assert (Eloop : cli_sessionloop_auth cli_opts c = Ok (tt, c)) by (unfold cli_sessionloop_auth; rewrite (bind_ok _ _ _ (c_state c) c) by reflexivity; by rewrite (aw_state _ _ Haw)).
  eapply twp_ok; [exact Eloop|]. rewrite Hcs. eapply deliver_twp; [reflexivity|].
  pose proof (message_repr SSH_MSG_USERAUTH_REQUEST (req ++ str content) Hby Hmax) as Hb. rewrite <-(sv_sid _ _ _ _ _ Hs) in Hsl, Hsb. unfold verifies in Hver. rewrite <-(sv_sid _ _ _ _ _ Hs) in Hver.
  set (s0 := set_a_payload _ s).
  destruct (signed_request_ok svr_opts k (sk_type k) out lines pw user content s0 0) as (s1 & E1 & Hd1 & Es1 & Ho1); try done.
  - exact (Hver Hgs).
  - apply waiting_payload, (sv_waiting _ _ _ _ _ Hs).
  - exact (sv_close _ _ _ _ _ Hs).
  - eapply twp_ok; [exact E1|]. apply twp_ret. rewrite Es1. change (a_sent s0) with (a_sent s). rewrite Hss. cbn [app].
    eapply twp_mono; [apply (success_twp ((p, (q, k)) :: xs)); [|exact Hd1]; by destruct Haw; split|]. intros [] c2 Hin. split; [done|exact Ho1].
Qed.

(** *** Passwords *)

(** What the user types, as the two sides need it. *)
Definition typed (password : list Z) : Prop := fits_request user password /\ bytes password /\ (3 ∉ password).

Lemma wrong_round n password rng answers x : noauthpass svr_opts = false -> typed password -> right_password svr_opts user password = false ->
  idle n [] rng (Some password :: answers) x ->
  if n + 1 <? MAX_AUTH_TRIES then twp exchange (fun _ => idle (n + 1) [] rng answers) x else exchange x = Exit "Max auth tries reached".
Proof using All.
  destruct x as [c s]. intros Hno (Hf & Hp & Hcc) Hwrong ([lastkey Hc] & Hcs & Hs & Hss). cbn [fst snd] in *. pose proof Hf as (_ & _ & _ & Hpl).
  pose proof (client_asks cli_opts user Huser Hub Hul Hsock total Htotal sid lastkey _ rng password answers c Hc (password_offered Hno) Hp Hcc Hpl) as Hask.
  destruct (Z.ltb_spec (n + 1) MAX_AUTH_TRIES) as [Hlt|Hge].
  - apply exchange_twp. eapply twp_mono; [exact Hask|]. intros [] c1 [Hc1 Es1]. rewrite Es1, Hcs. cbn [app].
    eapply deliver_twp; [reflexivity|]. eapply twp_mono; [by eapply (server_wrong_password svr_opts user Hu Hub Hul sid n password)|]. intros [] s1 [Hs1 E1]. apply twp_ret. rewrite E1, Hss. cbn [app].
    eapply refused_twp; [by apply client_unsent|done|done|by right|done].
  - apply twp_ex in Hask as ([] & c1 & E1 & _ & Es1). unfold exchange. rewrite (bind_ok _ _ _ _ _ (zoom_ok fst set_cli _ (c, s) tt c1 E1)).
    rewrite (bind_ok _ _ _ (c1, s) (c1, s)) by reflexivity. rewrite (bind_ok _ _ _ tt (set_c_sent [] c1, s)) by reflexivity. apply bind_exit. unfold zoom. cbn [fst snd]. rewrite Es1, Hcs. cbn [app].
    erewrite deliver_exit; [reflexivity|reflexivity|]. exact (server_last_password svr_opts user Hu Hub Hul sid n password s Hf Hp Hwrong Hs Hge).
Qed.

Lemma right_round n password rng answers x : noauthpass svr_opts = false -> typed password -> right_password svr_opts user password = true ->
  idle n [] rng (Some password :: answers) x -> twp exchange (fun _ y => both_logged_in y /\ as_username (a_authstate y.2) = Some user) x.
Proof using All.
  destruct x as [c s]. intros Hno (Hf & Hp & Hcc) Hright ([lastkey Hc] & Hcs & Hs & Hss). cbn [fst snd] in *. pose proof Hf as (_ & _ & _ & Hpl).
  apply exchange_twp. eapply twp_mono; [exact (client_asks cli_opts user Huser Hub Hul Hsock total Htotal sid lastkey _ rng password answers c Hc (password_offered Hno) Hp Hcc Hpl)|].
  intros [] c1 [Hc1 Es1]. rewrite Es1, Hcs. cbn [app].
  eapply deliver_twp; [reflexivity|]. eapply twp_mono; [by eapply (server_right_password svr_opts user Hu Hub Hul sid n password)|]. intros [] s1 (Hd1 & Hu1 & E1). apply twp_ret. rewrite E1, Hss. cbn [app].
  eapply twp_mono; [apply (success_twp []); [by destruct Hc1; split|exact Hd1]|]. intros [] c2 Hin. by split.
Qed.

(** ** The whole conversation *)

(** Keys that the server will not take. *)
Definition all_unlisted (xs : list (addr * cli_key)) : Prop := Forall (fun x => has_key x.2.2 (sk_type x.2.2) /\ unlisted lines x.2.2 (sk_type x.2.2)) xs.

Lemma exchanges_refused n refused xs rng answers x : all_unlisted refused -> idle n (refused ++ xs) rng answers x ->
  twp (exchanges (length refused)) (fun _ => idle n xs rng answers) x.
Proof using All.
  intros Hr. revert x. induction Hr as [|[p [q k]] refused [Hk Hno] _ IH]; intros x Hx; [done|]. cbn [length exchanges].
  apply twp_bind. eapply twp_mono; [by eapply refused_round|]. intros [] y Hy. by apply IH.
Qed.

Lemma exchanges_wrong n passwords rng answers x : noauthpass svr_opts = false -> Forall (fun p => typed p /\ right_password svr_opts user p = false) passwords ->
  0 <= n < MAX_AUTH_TRIES -> idle n [] rng (map Some passwords ++ answers) x ->
  if n + zlen passwords <? MAX_AUTH_TRIES then twp (exchanges (length passwords)) (fun _ => idle (n + zlen passwords) [] rng answers) x
  else exchanges (length passwords) x = Exit "Max auth tries reached".
Proof using All.
  intros Hno Hw. revert n x. induction Hw as [|p passwords [Ht Hp] _ IH]; intros n x Hn Hx.
  - rewrite zlen_nil, Z.add_0_r. rewrite (proj2 (Z.ltb_lt _ _)) by lia. exact Hx.
  - cbn [length exchanges map app] in *. pose proof (wrong_round n p rng _ x Hno Ht Hp Hx) as Hround. rewrite zlen_cons. pose proof (zlen_nonneg passwords).
    destruct (Z.ltb_spec (n + 1) MAX_AUTH_TRIES) as [Hlt|Hge].
    + apply twp_ex in Hround as ([] & y & E & Hy). specialize (IH (n + 1) y ltac:(lia) Hy). rewrite Z.add_assoc.
      destruct (n + 1 + zlen passwords <? MAX_AUTH_TRIES); [by apply twp_bind; eapply twp_ok; [exact E|]|by rewrite (bind_ok _ _ _ _ _ E)].
    + rewrite (proj2 (Z.ltb_ge _ _)) by lia. by apply bind_exit.
Qed.

(** A client and a server whose transport is up, and who have not said
    anything. *)
Definition connected (n : Z) (xs : list (addr * cli_key)) (rng : G) (answers : list (option (list Z))) (x : csess * ssess) : Prop :=
  (exists last lastkey types, client total sid xs STATE_NOTHING last lastkey types rng answers x.1 /\ last <> AUTH_TYPE_PUBKEY /\ last <> AUTH_TYPE_INTERACT) /\
  c_sent x.1 = [] /\ server svr_opts user sid n x.2 /\ a_sent x.2 = [].

Lemma first_rounds n refused xs rng answers x : all_unlisted refused -> connected n (refused ++ xs) rng answers x ->
  twp (exchanges (1 + length refused)) (fun _ => idle n xs rng answers) x.
Proof using All.
  destruct x as [c s]. intros Hr ((last & lastkey & types & Hc & Hl1 & Hl2) & Hcs & Hs & Hss). cbn [fst snd] in *. cbn [exchanges Nat.add]. apply twp_bind.
  eapply twp_mono; [by eapply start_round|]. intros [] y Hy. by apply (exchanges_refused n refused).
Qed.

(** C16: Logging in with a key, both sides.  A client whose transport is up and a
    server that admits the account start a conversation: the client's loop acts,
    each message is handled by the other side's handler of its type.  Let the
    client have any number of keys that the account's authorized_keys file does
    not list, then one that it lists.  Each round one more key is offered,
    refused and crossed off, without counting as a failure; then the server
    accepts the offer, the client signs, and in the round after that, if the
    signature is one FIPS 186 lets out (RSA ones always are), both sides regard
    the user as logged in, with the options of the first line that lists the
    key, and the client has thrown its keys away. *)
Theorem key_login_conversation `{!ExptModLaws} n refused p q k out rest rng answers x :
  connected n (refused ++ (p, (q, k)) :: rest) rng answers x -> all_unlisted refused ->
  usable k out rng -> readable k (sk_type k) new_sign_key out -> listed lines k (sk_type k) -> zlen sid = SHA1_HASH_SIZE -> bytes sid ->
  let blob := pub_bytes k (sk_type k) in
  let req := pubkey_request user (type_name (sk_type k)) blob in
  exists y content, exchanges (1 + length refused + 1) x = Ok (tt, y) /\
    c_sent y.1 = [SSH_MSG_USERAUTH_REQUEST :: req ++ str content] /\ authdone (a_authstate y.2) = false /\
    failcount (look_up svr_opts user (a_authstate y.2)) = n /\
    (good_s out (sk_type k) content -> exists z, exchange y = Ok (tt, z) /\ both_logged_in z /\
      granted_options (type_name (sk_type k)) blob lines (pubkey_options (look_up svr_opts user (a_authstate y.2))) (pubkey_options (a_authstate z.2))).
Proof using All.
  intros Hx Hr Hus Hread Hyes Hsl Hsb blob req. pose proof (first_rounds n refused _ rng answers x Hr Hx) as ([] & x1 & E1 & Hx1)%twp_ex.
  pose proof (signing_round n p q k out rest rng answers x1 Hx1 Hus Hyes Hsl Hsb) as ([] & y & E2 & content & Hver & Hy)%twp_ex.
  exists y, content. split; [rewrite exchanges_add; rewrite (bind_ok _ _ _ _ _ E1); cbn [exchanges]; by rewrite (bind_ok _ _ _ _ _ E2)|].
  pose proof Hy as (_ & Hcs & Hs & _). split; [done|]. split; [exact (w_done _ (sv_waiting _ _ _ _ _ Hs))|]. split; [exact (sv_count _ _ _ _ _ Hs)|].
  intros Hgs. pose proof (accepted_round n p q k out rest content y (us_has _ _ _ Hus) Hread Hyes Hsl Hsb Hver Hgs Hy) as ([] & z & E3 & Hz)%twp_ex. by exists z.
Qed.

(** C17: Logging in with a password, both sides.  Let the server list none of the
    client's keys and allow passwords for the account.  After the rounds in
    which the keys are refused the user is asked; while passwords are wrong the
    server counts, and the user is asked again.  If fewer than ten failures
    have been counted when the right one is typed, then both sides regard the
    user as logged in; if there are ten, the server ends the session at the
    tenth, whatever would have followed. *)
Theorem password_login_conversation n keys wrong right rng answers x :
  connected n keys rng (map Some wrong ++ Some right :: answers) x -> all_unlisted keys -> noauthpass svr_opts = false -> 0 <= n < MAX_AUTH_TRIES ->
  Forall (fun p => typed p /\ right_password svr_opts user p = false) wrong -> typed right -> right_password svr_opts user right = true ->
  if n + zlen wrong <? MAX_AUTH_TRIES
  then exists y, exchanges (1 + length keys + length wrong + 1) x = Ok (tt, y) /\ both_logged_in y /\ as_username (a_authstate y.2) = Some user
  else exchanges (1 + length keys + length wrong) x = Exit "Max auth tries reached".
Proof using All.
  intros Hx Hk Hno Hn Hw Ht Hright. rewrite <-(app_nil_r keys) in Hx. pose proof (first_rounds n keys [] rng _ x Hk Hx) as ([] & x1 & E1 & Hx1)%twp_ex.
  pose proof (exchanges_wrong n wrong rng _ x1 Hno Hw Hn Hx1) as Hwr. destruct (n + zlen wrong <? MAX_AUTH_TRIES).
  - apply twp_ex in Hwr as ([] & x2 & E2 & Hx2). pose proof (right_round _ right rng answers x2 Hno Ht Hright Hx2) as ([] & y & E3 & Hy)%twp_ex. exists y. split; [|exact Hy].
    rewrite exchanges_add. rewrite (bind_ok _ _ _ tt x2); [cbn [exchanges]; by rewrite (bind_ok _ _ _ _ _ E3)|]. by rewrite exchanges_add, (bind_ok _ _ _ _ _ E1).
  - by rewrite exchanges_add, (bind_ok _ _ _ _ _ E1).
Qed.
End Conversation.

(** ** The banner *)

Section Banner.
Context {L R G : Type} `{MListLaws L cli_key} `{RandomMp G} `{Random R} `{ExptMod} `{ClientSystem} `{AuthSystem} (cli_opts : cli_runopts).

Definition banner_message (l : list Z) : list Z := SSH_MSG_USERAUTH_BANNER :: str l ++ str (chars "en").

Lemma banner_sent l b rb room (s : auth_sess R) : buf_repr b [] l rb -> buf_repr (a_writepayload s) [] [] room -> zlen l <= MAX_BANNER_SIZE -> 2100 <= room ->
  twp (send_msg_userauth_banner b) (fun _ s' => a_sent s' = a_sent s ++ [banner_message l]) s.
Proof.
  intros Hb Hw Hl Hroom. unfold MAX_BANNER_SIZE in Hl. pose proof (zlen_nonneg l). pose proof (repr_bytes _ _ _ _ Hb) as Hby. cbn [app] in Hby.
  assert (Hlen : b_len b = zlen l) by (rewrite (br_len _ _ _ _ Hb), zlen_nil; lia). unfold send_msg_userauth_banner. rewrite Hlen.
  apply twp_bind, twp_zoom. eapply append_putbyte; [exact Hw|by vm_compute|lia|]. intros b1 Hb1.
  rewrite <-(app_nil_r l) in Hb. apply twp_bind, on_twp. eapply twp_ok; [exact (repr_getptr_bytes b [] l [] rb _ eq_refl Hb)|]. cbn [fst].
  apply twp_bind, twp_zoom. eapply append_putstring; [exact Hb1|done|done|lia|]. intros b2 Hb2.
  apply twp_bind, twp_zoom. eapply append_putstring; [exact Hb2|done|by apply (bool_decide_eq_true_1 _); vm_compute|lia|]. intros b3 Hb3.
  eapply svr_encrypt_twp; [exact Hb3|]. intros w _. cbn. by do 2 f_equal.
Qed.

Lemma banner_message_repr l : bytes l -> zlen l <= MAX_BANNER_SIZE -> buf_repr (message (banner_message l)) [SSH_MSG_USERAUTH_BANNER] (str l ++ str (chars "en")) 0.
Proof.
  intros Hl Hmax. unfold MAX_BANNER_SIZE in Hmax. apply message_repr.
  - apply Forall_cons_2; [by vm_compute|]. apply Forall_app_2; apply str_bytes; [done|by apply (bool_decide_eq_true_1 _); vm_compute].
  - unfold str. rewrite zlen_cons, !zlen_app, !zlen_store32h. change (zlen (chars "en")) with 2. unfold BUF_MAX_SIZE. lia.
Qed.

Lemma banner_received l (c : cli_sess L G) : bytes l -> authdone (c_authstate c) = false -> zlen l <= MAX_STRING_LEN ->
  twp recv_msg_userauth_banner (fun _ c' => exists text, c_printed c' = c_printed c ++ [text ++ [10]] /\
    let clean := List.filter clean_char (c_string l) in
    (exists cut, clean = text ++ cut) /\ newlines text < MAX_BANNER_LINES /\ (newlines clean < MAX_BANNER_LINES -> text = clean))
    (set_c_payload (message (banner_message l)) c).
Proof.
  intros Hl Hd Hlen. pose proof (zlen_nonneg l). unfold recv_msg_userauth_banner. apply twp_bind, twp_gets. set (c1 := set_c_payload _ c). change (authdone (c_authstate c1)) with (authdone (c_authstate c)). rewrite Hd.
  pose proof (banner_message_repr l Hl ltac:(unfold MAX_BANNER_SIZE, MAX_STRING_LEN in *; lia)) as Hb.
  destruct (repr_getstr _ _ l _ 0 Hlen Hb) as (b1 & E1 & Hb1). apply twp_bind, twp_zoom. eapply twp_ok; [exact E1|]. cbv beta iota.
  destruct (repr_eatstring b1 _ (chars "en") [] 0 2 eq_refl Hb1) as (b2 & E2 & _). apply twp_bind, twp_zoom. eapply twp_ok; [exact E2|].
  rewrite Z.gtb_ltb, (proj2 (Z.ltb_ge _ _)) by (unfold MAX_BANNER_SIZE, MAX_STRING_LEN in *; lia).
  set (c2 := set_c_payload b2 _). destruct (banner_text l c2) as (cleaned & text & E & Et & Htext). apply twp_bind. eapply twp_ok; [exact E|].
  apply twp_modify. exists text. split; [|exact Htext]. unfold zlen. by rewrite Nat2Z.id, Et.
Qed.

End Banner.

(** ** A conversation of bob's client with the server of SvrAuth.v *)

#[local] Existing Instance exptmod_by_squaring.
#[local] Existing Instance exptmod_by_squaring_laws.
#[local] Existing Instance small_system.
#[local] Existing Instance small_system_laws.
#[local] Instance counting_random : RandomMp Z := { gen_random_mpint max r := (r mod max, r + 1) }.

#[local] Instance no_agent : ClientSystem := {
  ssh_auth_sock := None; connect_unix _ := -1; agent_answers _ := None; cli_close_fails _ := false; fresh_memory _ := 0 }.

(** The keys are in a list of the heap. *)
Definition bob_list : addr := 1%positive.
#[local] Instance bob_keys_ops : MListOps (heap cli_key) cli_key := heap_list_ops bob_list.
#[local] Instance bob_keys_laws : MListLaws (heap cli_key) cli_key := heap_list_laws bob_list.

Definition bob_opts : cli_runopts := mkcliopts bob (chars "lab").

(** A DSS key that the file does not list, and the RSA key that it does. *)
Definition old_key : sign_key := mksk 2 SIGNKEY_SOURCE_RAW_FILE None (Some form_dss) None.
Definition bob_keys : list (addr * cli_key) := [(1%positive, (100, old_key)); (2%positive, (200, toy_priv))].

Definition bob_heap : heap cli_key :=
  mkheap (list_to_map [(1%positive, mkelem (100, old_key) (Some 2%positive) None bob_list); (2%positive, mkelem (200, toy_priv) None (Some 1%positive) bob_list)])
    {[bob_list := mklist (Some 1%positive) (Some 2%positive)]}.

Definition no_keys_heap : heap cli_key := mkheap ∅ {[bob_list := mklist None None]}.

Definition bob_client (h : heap cli_key) (answers : list (option (list Z))) : cli_sess (heap cli_key) Z :=
  mkc (empty_buffer 10) (empty_buffer 6000) [] (mkas None 0 0 false false 0 0 None None None None None) (replicate 20 7) false STATE_NOTHING 0 false false None h false (-1) [] []
    None answers [] [] 2 300.

Lemma bob_client_ok h xs answers (x : auth_sess Z) : mlist_repr bob_list h xs -> x = first_session ->
  connected plain_opts bob 6000 (replicate 20 7) 0 xs 2 answers (bob_client h answers, x).
Proof.
  intros Hh ->. split; [exists 0, None, 0; split; [|done]|].
  - split; try done. unfold held. rewrite zlen_nil. by apply empty_buffer_repr.
  - split; [done|]. split; [|done]. split; [exact first_waiting|by vm_compute..].
Qed.

Lemma bob_safe : safe_keys (mkpasswd bob 1000 1000 bob_home bob_shell (Some bob_password)).
Proof.
  assert (Hf : forall f, safe_file (mkpasswd bob 1000 1000 bob_home bob_shell (Some bob_password)) f) by (intros f; exists 1000, 493; split_and!; [done|by left|done]).
  split; [done|]. split_and!; apply Hf.
Qed.

Lemma old_key_unlisted : all_unlisted bob_lines [(1%positive, (100, old_key))].
Proof.
  apply Forall_cons_2; [|apply Forall_nil_2]. cbn [snd fst sk_type old_key]. split.
  - eapply has_dss; [reflexivity| |by vm_compute]. repeat split; apply is_mpint_small; by vm_compute.
  - unfold unlisted, bob_lines, sample_lines. cbn [app].
    repeat (apply Forall_cons_2; [intros p Hg; inversion Hg as [? ? E|? ? ? ? E]; vm_compute in E; discriminate E|]). apply Forall_nil_2.
Qed.

Lemma key_login_conversation_witness : exists y content z,
  exchanges bob_opts plain_opts 3 (bob_client bob_heap [], first_session) = Ok (tt, y) /\
  c_sent y.1 = [SSH_MSG_USERAUTH_REQUEST :: pubkey_request bob (type_name DROPBEAR_SIGNKEY_RSA) (pub_bytes toy_priv DROPBEAR_SIGNKEY_RSA) ++ str content] /\
  exchange bob_opts plain_opts y = Ok (tt, z) /\ both_logged_in z.
Proof.
  assert (Hx : connected plain_opts bob 6000 (replicate 20 7) 0 ([(1%positive, (100, old_key))] ++ (2%positive, (200, toy_priv)) :: []) 2 [] (bob_client bob_heap [], first_session)).
  { apply bob_client_ok; [|done]. split_and!; [by vm_compute| |by split_and!; vm_compute]. apply (bool_decide_eq_true_1 _). by vm_compute. }
  assert (Hus : usable toy_priv toy_out 2).
  { split; [done|exact toy_has_key|by vm_compute|exact toy_out_pair|]. by split; vm_compute. }
  assert (Hyes : listed bob_lines toy_priv DROPBEAR_SIGNKEY_RSA).
  { unfold listed, bob_lines. apply Exists_app. right. apply Exists_cons_hd. exists None. apply grants_plain. by vm_compute. }
  destruct (key_login_conversation bob_opts plain_opts bob eq_refl ltac:(by apply (bool_decide_eq_true_1 _); vm_compute) ltac:(by apply (bool_decide_eq_true_1 _); vm_compute) ltac:(by vm_compute)
    eq_refl eq_refl 6000 ltac:(lia) (replicate 20 7) eq_refl (mkpasswd bob 1000 1000 bob_home bob_shell (Some bob_password)) bob_lines ltac:(by vm_compute) eq_refl bob_safe eq_refl bob_lines_good
    0 [(1%positive, (100, old_key))] 2%positive 200 toy_priv toy_out [] 2 [] (bob_client bob_heap [], first_session) Hx old_key_unlisted Hus toy_readable Hyes ltac:(by vm_compute)
    ltac:(by apply (bool_decide_eq_true_1 _); vm_compute)) as (y & content & E & Hs & _ & _ & Hz).
  destruct Hz as (z & E2 & Hin & _); [by intros ?|]. exists y, content, z. by split_and!.
Defined.

(** The user mistypes the password twice. *)
Lemma password_login_conversation_witness : exists y,
  exchanges bob_opts plain_opts 4 (bob_client no_keys_heap [Some carol; Some carol; Some bob_password], first_session) = Ok (tt, y) /\
  both_logged_in y /\ as_username (a_authstate y.2) = Some bob.
Proof.
  assert (Hx : connected plain_opts bob 6000 (replicate 20 7) 0 [] 2 (map Some [carol; carol] ++ Some bob_password :: []) (bob_client no_keys_heap [Some carol; Some carol; Some bob_password], first_session)).
  { apply bob_client_ok; [|done]. split_and!; [by vm_compute|apply NoDup_nil_2|done]. }
  assert (Hcarol : typed bob carol /\ right_password plain_opts bob carol = false) by (split; [split_and!|]; by apply (bool_decide_eq_true_1 _); vm_compute).
  apply (password_login_conversation bob_opts plain_opts bob eq_refl ltac:(by apply (bool_decide_eq_true_1 _); vm_compute) ltac:(by apply (bool_decide_eq_true_1 _); vm_compute) ltac:(by vm_compute)
    eq_refl eq_refl 6000 ltac:(lia) (replicate 20 7) eq_refl (mkpasswd bob 1000 1000 bob_home bob_shell (Some bob_password)) bob_lines ltac:(by vm_compute) eq_refl bob_safe eq_refl bob_lines_good
    0 [] [carol; carol] bob_password 2 [] _ Hx).
  - apply Forall_nil_2.
  - reflexivity.
  - by vm_compute.
  - apply Forall_cons_2; [exact Hcarol|]. apply Forall_cons_2; [exact Hcarol|apply Forall_nil_2].
  - split_and!; by apply (bool_decide_eq_true_1 _); vm_compute.
  - by vm_compute.
Defined.

(** The same by evaluation, with the refused key first. *)
Example conversation_runs :
  match exchanges bob_opts plain_opts 4 (bob_client bob_heap [], first_session) with
  | Ok (_, (c, s)) => authdone (c_authstate c) && authdone (a_authstate s) && (failcount (a_authstate s) =? 0)
  | _ => false
  end = true.
Proof. by vm_compute. Qed.

Lemma environment_password_used_once_witness : exists c',
  (cli_auth_password bob_opts ;;; Nat.iter 2 (fun m => cli_auth_password bob_opts ;;; m) (ret tt))%prog
    (set_c_env (Some bob_password) (bob_client no_keys_heap [Some carol])) = Ok (tt, c') /\
  c_sent c' = [] ++ (SSH_MSG_USERAUTH_REQUEST :: password_request bob bob_password) :: replicate 2 (SSH_MSG_USERAUTH_REQUEST :: password_request bob []) /\
  c_terminal c' = [Some carol] /\ c_printed c' = [].
Proof.
  apply (environment_password_used_once bob_opts bob eq_refl ltac:(by apply (bool_decide_eq_true_1 _); vm_compute) ltac:(by vm_compute) 6000 ltac:(lia)
    bob_password 2 (set_c_env (Some bob_password) (bob_client no_keys_heap [Some carol]))); [done| |by apply (bool_decide_eq_true_1 _); vm_compute|by vm_compute].
  unfold held. rewrite zlen_nil. by apply empty_buffer_repr.
Defined.

