(* ===== verification/Pendulum.v ===== *)
(** Model of the single-pendulum evaluation of the ReconOS test program
    (data.h, data.c and the evaluation function of single_pendulum_simple.c):
    the state block, one evaluation step in IEEE double precision, the test
    data and the final comparison. *)

From S2P Require Import Prelude.
From Stdlib Require Import SpecFloat.

Local Open Scope Z_scope.

(** [typedef double real_t]: IEEE 754 binary64, by the Standard Library's
    executable specification of floating-point numbers. *)
Definition real_t : Type := spec_float.
Definition fmul (x y : real_t) : real_t := SFmul 53 1024 x y.
Definition fadd (x y : real_t) : real_t := SFadd 53 1024 x y.
Definition fsub (x y : real_t) : real_t := SFsub 53 1024 x y.
Definition fdiv (x y : real_t) : real_t := SFdiv 53 1024 x y.
Definition fopp (x : real_t) : real_t := SFopp x.
Definition fabs (x : real_t) : real_t := SFabs x.
(** The C comparison [x > y], false when an operand is a NaN. *)
Definition fgtb (x y : real_t) : bool := SFltb y x.

(** [single_pendulum_simple_state_t], a union whose member [all] overlays the
    named members: p0..p4 (Vp), u0 (Vu), x0 x1 (Vx), t (Vt), dx0 dx1 (Vdx). *)
Record block := mkblock {
  p0 : real_t; p1 : real_t; p2 : real_t; p3 : real_t; p4 : real_t;
  u0 : real_t; x0 : real_t; x1 : real_t; t : real_t;
  dx0 : real_t; dx1 : real_t }.

Definition all (b : block) : list real_t :=
  [p0 b; p1 b; p2 b; p3 b; p4 b; u0 b; x0 b; x1 b; t b; dx0 b; dx1 b].

Definition BLOCK_SIZE : Z := 88.
Definition REALS_PER_BLOCK : Z := BLOCK_SIZE / 8.

Section Evaluation.
(** The [sin] of libm. *)
Variable sin : real_t -> real_t.

Definition single_pendulum_simple (s : block) : block :=
  let s := mkblock (p0 s) (p1 s) (p2 s) (p3 s) (p4 s) (u0 s) (x0 s) (x1 s) (t s)
                   (x1 s) (dx1 s) in
  mkblock (p0 s) (p1 s) (p2 s) (p3 s) (p4 s) (u0 s) (x0 s) (x1 s) (t s) (dx0 s)
    (fdiv (fadd (fsub (fmul (fmul (fopp (p2 s)) (p1 s)) (sin (x0 s)))
                      (fmul (x1 s) (p3 s)))
                (u0 s))
          (p4 s)).
End Evaluation.

Definition test_data_0 : block :=
  mkblock (S754_finite false 7205759403792794 (-55)) (* 0.2 *)
          (S754_finite false 5522539043063071 (-49)) (* 9.81 *)
          (S754_finite false 4503599627370496 (-53)) (* 0.5 *)
          (S754_finite false 7205759403792794 (-55)) (* 0.2 *)
          (S754_finite false 7205759403792794 (-55)) (* 0.2 *)
          (S754_zero false)                          (* 0.0 *)
          (S754_finite false 9002691151513994 (-52)) (* 1.998999 *)
          (S754_finite true 7999545859714608 (-55))  (* -0.222032 *)
          (S754_zero false)                          (* 0.0 *)
          (S754_finite true 7999545859714608 (-55))  (* -0.222032 *)
          (S754_finite true 6217414186118306 (-48)). (* -22.08869242579079 *)

(** [1e-9]. *)
Definition tolerance : real_t := S754_finite false 4835703278458517 (-82).

(** Copying all but [Vdx] and clearing [Vdx] to zero bits. *)
Definition clear_vdx (b : block) : block :=
  mkblock (p0 b) (p1 b) (p2 b) (p3 b) (p4 b) (u0 b) (x0 b) (x1 b) (t b)
          (S754_zero false) (S754_zero false).

(** The arrays [data] and [expected]. *)
Definition generate_data (simulation_steps : nat) : list block * list block :=
  (replicate simulation_steps (clear_vdx test_data_0),
   replicate simulation_steps test_data_0).

(** The loop of check_data over the arrays seen as reals, from index [i];
    [None] stands for a read past an array. *)
Fixpoint check_loop (n : nat) (a b : list real_t) (i : Z) : option Z :=
  match n with
  | O => Some (-1)
  | S n =>
      match a, b with
      | x :: a, y :: b =>
          if fgtb (fabs (fsub x y)) tolerance then Some i else check_loop n a b (i + 1)
      | _, _ => None
      end
  end.

Definition reals (l : list block) : list real_t := concat (map all l).

Definition check_data (data expected : list block) (simulation_steps : Z) : option Z :=
  check_loop (Z.to_nat (simulation_steps * REALS_PER_BLOCK)) (reals data) (reals expected) 0.

(** The block index main prints for the failing word [ret]. *)
Definition reported_job (ret : Z) : Z := ret / BLOCK_SIZE.

(** ** Lemmas *)

Lemma length_all b : length (all b) = 11%nat.
Proof. reflexivity. Qed.

Lemma length_reals l : length (reals l) = (11 * length l)%nat.
Proof.
  induction l as [|b l IH]; [done|]. unfold reals in *. cbn [map concat].
  rewrite length_app, IH, length_all. simpl. lia.
Qed.

(** The evaluation reads only members it does not write. *)
Lemma single_pendulum_simple_idemp sin b :
  single_pendulum_simple sin (single_pendulum_simple sin b) = single_pendulum_simple sin b.
Proof. reflexivity. Qed.

Lemma single_pendulum_simple_iter sin b k :
  (0 < k)%nat -> Nat.iter k (single_pendulum_simple sin) b = single_pendulum_simple sin b.
Proof.
  induction k as [|k IH]; [lia|]. intros _. destruct k as [|k]; [done|].
  change (single_pendulum_simple sin (Nat.iter (S k) (single_pendulum_simple sin) b)
          = single_pendulum_simple sin b).
  rewrite IH by lia. apply single_pendulum_simple_idemp.
Qed.

(** What the loop answers, by position. *)
Definition differs (x y : real_t) : bool := fgtb (fabs (fsub x y)) tolerance.

Lemma check_loop_spec n a b i :
  (n <= length a)%nat -> (n <= length b)%nat -> 0 <= i ->
  (check_loop n a b i = Some (-1) /\
   forall k x y, (k < n)%nat -> a !! k = Some x -> b !! k = Some y -> differs x y = false) \/
  (exists k x y, (k < n)%nat /\ check_loop n a b i = Some (i + Z.of_nat k) /\
     a !! k = Some x /\ b !! k = Some y /\ differs x y = true /\
     forall k' x' y', (k' < k)%nat -> a !! k' = Some x' -> b !! k' = Some y' -> differs x' y' = false).
Proof.
  revert a b i. induction n as [|n IH]; intros a b i Ha Hb Hi.
  { left. split; [done|]. lia. }
  destruct a as [|x a], b as [|y b]; simpl in *; try lia.
  destruct (fgtb (fabs (fsub x y)) tolerance) eqn:E.
  { right. exists O, x, y. rewrite Z.add_0_r. split_and!; done || lia. }
  destruct (IH a b (i + 1)) as [[E1 H1]|(k & x' & y' & Hk & E1 & Hx & Hy & Hd & Hlt)]; [lia|lia|lia| |].
  - left. split; [done|]. intros [|k] x' y' Hk; simpl; [intros [= ->] [= ->]; done|].
    apply H1. lia.
  - right. exists (S k), x', y'. split_and!; try done; [lia| |].
    + rewrite E1. f_equal. lia.
    + intros [|k'] x'' y'' Hk'; simpl; [intros [= ->] [= ->]; done|]. apply Hlt. lia.
Qed.

Lemma lookup_reals_replicate n b k :
  (k < 11 * n)%nat -> reals (replicate n b) !! k = all b !! (k mod 11)%nat.
Proof.
  revert k. induction n as [|n IH]; intros k Hk; [lia|].
  unfold reals in *. cbn [replicate map concat].
  destruct (decide (k < 11)%nat) as [Hlt|Hge].
  - rewrite lookup_app_l by (rewrite length_all; lia). by rewrite Nat.mod_small by lia.
  - rewrite lookup_app_r, IH by (rewrite length_all; lia). rewrite length_all. f_equal.
    replace k with (k - 11 + 1 * 11)%nat at 2 by lia. by rewrite Nat.Div0.mod_add.
Qed.

Lemma map_replicate {A B} (f : A -> B) n a : map f (replicate n a) = replicate n (f a).
Proof. induction n as [|n IH]; simpl; [done|by rewrite IH]. Qed.

(** The position-wise comparison of two blocks. *)
Definition block_diff (b c : block) : list bool := zip_with differs (all b) (all c).

Lemma check_data_replicate n b c :
  check_data (replicate n b) (replicate n c) (Z.of_nat n) =
  Some (match n, list_find Is_true (block_diff b c) with
        | S _, Some (r, _) => Z.of_nat r
        | _, _ => -1
        end).
Proof.
  unfold check_data. 
  assert (Hn : Z.to_nat (Z.of_nat n * REALS_PER_BLOCK) = (11 * n)%nat)
    by (change REALS_PER_BLOCK with 11; lia).
  rewrite Hn.
  assert (Hdiff : forall k x y, (k < 11 * n)%nat -> reals (replicate n b) !! k = Some x ->
            reals (replicate n c) !! k = Some y ->
            block_diff b c !! (k mod 11)%nat = Some (differs x y)).
  { intros k x y Hk Hx Hy. rewrite lookup_reals_replicate in Hx, Hy by done.
    unfold block_diff. by rewrite lookup_zip_with, Hx, Hy. }
  assert (Hl : forall d, length (reals (replicate n d)) = (11 * n)%nat)
    by (intros; rewrite length_reals, length_replicate; done).
  destruct (check_loop_spec (11 * n) (reals (replicate n b)) (reals (replicate n c)) 0)
    as [[-> H]|(k & x & y & Hk & -> & Hx & Hy & Hd & Hlt)]; [by rewrite Hl|by rewrite Hl|done| |].
  - destruct n as [|n]; [done|].
    destruct (list_find Is_true (block_diff b c)) as [[r v]|] eqn:E; [exfalso|done].
    apply list_find_Some in E as (Hr & Hv & _).
    assert (Hr11 : (r < 11)%nat) by (apply lookup_lt_Some in Hr; by vm_compute in Hr).
    destruct (lookup_lt_is_Some_2 (reals (replicate (S n) b)) r) as [x Hx]; [rewrite Hl; lia|].
    destruct (lookup_lt_is_Some_2 (reals (replicate (S n) c)) r) as [y Hy]; [rewrite Hl; lia|].
    pose proof (Hdiff r x y ltac:(lia) Hx Hy) as E. rewrite Nat.mod_small in E by lia.
    rewrite (H r x y ltac:(lia) Hx Hy) in E. assert (v = false) as -> by congruence. exact Hv.
  - destruct n as [|n]; [lia|].
    assert (Hk11 : (k < 11)%nat).
    { destruct (decide (k < 11)%nat) as [|Hge]; [done|exfalso].
      pose proof (Nat.mod_upper_bound k 11 ltac:(lia)).
      assert (Hxk : reals (replicate (S n) b) !! (k mod 11)%nat = Some x)
        by (rewrite lookup_reals_replicate, Nat.Div0.mod_mod by lia;
            by rewrite lookup_reals_replicate in Hx by lia).
      assert (Hyk : reals (replicate (S n) c) !! (k mod 11)%nat = Some y)
        by (rewrite lookup_reals_replicate, Nat.Div0.mod_mod by lia;
            by rewrite lookup_reals_replicate in Hy by lia).
      rewrite (Hlt (k mod 11)%nat x y) in Hd; [done|lia|done|done]. }
    assert (E : list_find Is_true (block_diff b c) = Some (k, true)).
    { apply list_find_Some. split_and!; [|done|].
      - pose proof (Hdiff k x y Hk Hx Hy) as E. rewrite Nat.mod_small in E by lia. by rewrite Hd in E.
      - intros j v Hj Hjk.
        destruct (lookup_lt_is_Some_2 (reals (replicate (S n) b)) j) as [x' Hx']; [rewrite Hl; lia|].
        destruct (lookup_lt_is_Some_2 (reals (replicate (S n) c)) j) as [y' Hy']; [rewrite Hl; lia|].
        pose proof (Hdiff j x' y' ltac:(lia) Hx' Hy') as E. rewrite Nat.mod_small in E by lia.
        rewrite (Hlt j x' y' ltac:(lia) Hx' Hy'), Hj in E.
        assert (v = false) as -> by congruence. exact id. }
    rewrite E. done.
Qed.

(** ** Properties *)

(** The self-check of the test program accepts the computation and only
    the computation.  For any number of jobs generated by generate_data and
    any libm whose [sin] rounds sin(1.998999) correctly, check_data reports
    success after every job has been evaluated one or more times, and points
    at the first derivative (word 9) of the first job when no job has been
    evaluated. *)
Theorem pendulum_selfcheck (sin : real_t -> real_t) (n k : nat) :
  sin (x0 test_data_0) = S754_finite false 8193971067103544 (-53) ->
  let '(data, expected) := generate_data n in
  check_data (map (Nat.iter k (single_pendulum_simple sin)) data) expected (Z.of_nat n)
  = Some (if decide (n = O) then -1 else if decide (k = O) then 9 else -1).
Proof.
  intros Hsin. unfold generate_data.
  rewrite map_replicate, check_data_replicate. f_equal.
  destruct n as [|n]; [done|]. rewrite decide_False by done.
  destruct k as [|k]; [by vm_compute|].
  rewrite single_pendulum_simple_iter by lia. rewrite decide_False by done.
  assert (E : single_pendulum_simple sin (clear_vdx test_data_0) =
              single_pendulum_simple (fun _ => sin (x0 test_data_0)) (clear_vdx test_data_0))
    by reflexivity.
  rewrite E, Hsin. by vm_compute.
Qed.

Lemma pendulum_selfcheck_witness :
  let '(data, expected) := generate_data 3 in
  check_data (map (Nat.iter 2 (single_pendulum_simple
                (fun _ => S754_finite false 8193971067103544 (-53)))) data) expected 3 = Some (-1).
Proof.
  apply (pendulum_selfcheck (fun _ => S754_finite false 8193971067103544 (-53)) 3 2).
  reflexivity.
Defined.

(** Check_data returns the index of the first pair of reals further apart
    than 1e-9, and -1 exactly when there is none; a comparison with a NaN
    never counts as a difference. *)
Theorem check_data_first_difference (data expected : list block) :
  length data = length expected ->
  exists r, check_data data expected (Z.of_nat (length data)) = Some r /\
    (r = -1 <-> forall k x y, reals data !! k = Some x -> reals expected !! k = Some y ->
                  differs x y = false) /\
    (0 <= r -> exists x y, reals data !! Z.to_nat r = Some x /\
                 reals expected !! Z.to_nat r = Some y /\ differs x y = true /\
                 forall k x' y', (k < Z.to_nat r)%nat -> reals data !! k = Some x' ->
                   reals expected !! k = Some y' -> differs x' y' = false) /\
    (forall x, differs x S754_nan = false /\ differs S754_nan x = false).
Proof.
  intros Hlen. unfold check_data. change REALS_PER_BLOCK with 11.
  set (n := Z.to_nat _). pose proof (length_reals data) as Hd. pose proof (length_reals expected) as He.
  assert (Hnan : forall x, differs x S754_nan = false /\ differs S754_nan x = false)
    by (intros []; by vm_compute).
  destruct (check_loop_spec n (reals data) (reals expected) 0)
    as [[-> H]|(k & x & y & Hk & -> & Hx & Hy & Hxy & Hlt)]; [subst n; lia|subst n; lia|done| |].
  - exists (-1). split_and!; [done| |lia|done]. split; [|done]. intros _ k x y Hx Hy.
    eapply H; [|done|done]. apply lookup_lt_Some in Hx. subst n. lia.
  - exists (0 + Z.of_nat k). rewrite Z.add_0_l, Nat2Z.id. split_and!; [done| | |done].
    + split; [lia|]. intros Hall. by rewrite (Hall k x y Hx Hy) in Hxy.
    + intros _. eauto 10.
Qed.

Lemma check_data_first_difference_witness :
  exists r, check_data [clear_vdx test_data_0] [test_data_0] 1 = Some r /\
    (r = -1 <-> forall k x y, reals [clear_vdx test_data_0] !! k = Some x ->
                  reals [test_data_0] !! k = Some y -> differs x y = false) /\
    (0 <= r -> exists x y, reals [clear_vdx test_data_0] !! Z.to_nat r = Some x /\
                 reals [test_data_0] !! Z.to_nat r = Some y /\ differs x y = true /\
                 forall k x' y', (k < Z.to_nat r)%nat -> reals [clear_vdx test_data_0] !! k = Some x' ->
                   reals [test_data_0] !! k = Some y' -> differs x' y' = false) /\
    (forall x, differs x S754_nan = false /\ differs S754_nan x = false).
Proof.
  apply (check_data_first_difference [clear_vdx test_data_0] [test_data_0]). reflexivity.
Defined.

(** The job number in the failure report.  check_data counts reals, but
    main divides the index by the block size in bytes: a failure in real [r]
    of job [j] is reported as job [j] only when [j] is 0. *)
Theorem reported_job_wrong (j r : Z) :
  0 <= j -> 0 <= r < REALS_PER_BLOCK ->
  reported_job (REALS_PER_BLOCK * j + r) = j <-> j = 0.
Proof.
  unfold reported_job. change REALS_PER_BLOCK with 11. change BLOCK_SIZE with 88.
  intros Hj Hr. Z.div_mod_to_equations. lia.
Qed.

Lemma reported_job_wrong_witness : reported_job (REALS_PER_BLOCK * 3 + 9) = 3 <-> 3 = 0.
Proof. apply (reported_job_wrong 3 9); by vm_compute. Defined.
