(* ===== verification/Mbox.v ===== *)
(** The ReconOS mailboxes both test programs communicate through.  mbox.h is
    not part of the repository (it comes from the ReconOS submodule), so the
    programs are modelled over this interface: a mailbox is a bounded FIFO of
    32-bit words, put blocks while it is full and get blocks while it is
    empty. *)

From S2P Require Import Prelude.

Local Open Scope Z_scope.

(** [None] means that the call blocks. *)
Class MboxOps (M : Type) := {
  mbox_init : Z -> M;
  mbox_put : M -> Z -> option M;
  mbox_get : M -> option (Z * M)
}.

Class MboxLaws (M : Type) `{MboxOps M} := {
  mb_repr : M -> Z -> list Z -> Prop;
  mbox_init_spec n : 0 <= n -> mb_repr (mbox_init n) n [];
  mbox_put_room m n l v :
    mb_repr m n l -> zlen l < n -> exists m', mbox_put m v = Some m' /\ mb_repr m' n (l ++ [v]);
  mbox_put_full m n l v : mb_repr m n l -> n <= zlen l -> mbox_put m v = None;
  mbox_get_cons m n v l :
    mb_repr m n (v :: l) -> exists m', mbox_get m = Some (v, m') /\ mb_repr m' n l;
  mbox_get_nil m n : mb_repr m n [] -> mbox_get m = None
}.

(** A mailbox as its capacity and its contents, oldest word first. *)
Record list_mbox := mklmbox { lm_size : Z; lm_words : list Z }.

#[export] Instance list_mbox_ops : MboxOps list_mbox := {
  mbox_init n := mklmbox n [];
  mbox_put m v := if zlen (lm_words m) <? lm_size m
                  then Some (mklmbox (lm_size m) (lm_words m ++ [v])) else None;
  mbox_get m := match lm_words m with
                | [] => None
                | v :: l => Some (v, mklmbox (lm_size m) l)
                end }.

#[export] Program Instance list_mbox_laws : MboxLaws list_mbox := {
  mb_repr m n l := m = mklmbox n l }.
Next Obligation. intros. done. Qed.
Next Obligation. intros m n l v -> Hl. simpl. z_guards. eauto. Qed.
Next Obligation. intros m n l v -> Hl. simpl. by z_guards. Qed.
Next Obligation. intros m n v l ->. simpl. eauto. Qed.
Next Obligation. intros m n ->. done. Qed.

(** The inversion forms the step relations use. *)
Section Inversion.
Context {M : Type} `{MboxLaws M}.

Lemma mbox_put_inv m n l v m' :
  mb_repr m n l -> mbox_put m v = Some m' -> zlen l < n /\ mb_repr m' n (l ++ [v]).
Proof.
  intros Hm E. destruct (Z.lt_ge_cases (zlen l) n) as [Hl|Hl].
  - destruct (mbox_put_room m n l v Hm Hl) as (m2 & E2 & H2). split; [done|congruence].
  - by rewrite (mbox_put_full m n l v Hm Hl) in E.
Qed.

Lemma mbox_get_inv m n l v m' :
  mb_repr m n l -> mbox_get m = Some (v, m') -> exists l', l = v :: l' /\ mb_repr m' n l'.
Proof.
  intros Hm E. destruct l as [|w l].
  - by rewrite (mbox_get_nil m n Hm) in E.
  - destruct (mbox_get_cons m n w l Hm) as (m2 & E2 & H2). exists l. split; congruence.
Qed.
End Inversion.
