(* ===== verification/PendulumMain.v ===== *)
(** Model of the threads of single_pendulum_simple.c: option checks and
    start-up of main, its job loop, and the software threads, as a transition
    system over two mailboxes and the shared data blocks.  Every interleaving
    of the threads' mailbox calls is a path of the system. *)

From S2P Require Import Prelude Mbox Pendulum.

Local Open Scope Z_scope.

Definition MAX_THREADS : Z := 32.

(** The option variables, the two positional arguments and the pointer size
    of the platform. *)
Record config := mkconfig {
  iterations : Z; iterations_in_thread : Z;
  without_reconos : bool; without_memory : bool; only_print_help : bool;
  hw_threads : Z; sw_threads : Z; sizeof_ptr : Z }.

(** The checks of main between option parsing and start-up; [None] means that
    main goes on. *)
Definition check_options (c : config) : option string :=
  if only_print_help c then Some "usage"%string
  else if iterations c <? 1 then Some "The number of iterations must be at least 1."%string
  else if without_reconos c && (hw_threads c >? 0)
  then Some "We cannot use hardware threads without reconOS!"%string
  else if without_memory c && (sw_threads c >? 0)
  then Some "'--without-memory' only works with hardware threads!"%string
  else if (sizeof_ptr c >? 4) && (sw_threads c + hw_threads c >? 1)
  then Some "mboxes work with 4-byte values"%string
  else if (iterations_in_thread c >? 1) &&
          ((hw_threads c >? 0) && (hw_threads c + sw_threads c >? 1))
  then Some "'--iterations-in-thread' can only be used with software threads"%string
  else None.

(** ** Words of a pointer *)

(** The 32-bit parts of a pointer as the (little-endian) machine stores it. *)
Definition parts (c : config) (p : Z) : list Z :=
  map (fun i => u32 (Z.shiftr p (32 * Z.of_nat i))) (seq 0 (Z.to_nat (sizeof_ptr c / 4))).

Fixpoint of_parts (ws : list Z) : Z :=
  match ws with
  | [] => 0
  | w :: ws => w + 2 ^ 32 * of_parts ws
  end.

(** [((void * )-1)], [((void * )-2)] and [((uint32_t)-3)]. *)
Definition THREAD_EXIT (c : config) : Z := 2 ^ (8 * sizeof_ptr c) - 1.
Definition WITHOUT_MEMORY (c : config) : Z := 2 ^ (8 * sizeof_ptr c) - 2.
Definition SET_ITERATIONS : Z := 2 ^ 32 - 3.

(** ** The actions of main

    The words main gets are discarded, so its behaviour is a fixed sequence of
    mailbox calls and joins. *)

Inductive mb := MbStart | MbStop.

Inductive act :=
| Put (m : mb) (v : Z)
| Get (m : mb)
| JoinHw (i : nat)
| JoinSw (i : nat)
| AssertFail.

Definition mbox_put_data (m : mb) (p : list Z) (size : Z) : list act :=
  if size mod 4 =? 0 then map (Put m) (take (Z.to_nat (size / 4)) p) else [AssertFail].

Definition mbox_get_data (m : mb) (size : Z) : list act :=
  if size mod 4 =? 0 then replicate (Z.to_nat (size / 4)) (Get m) else [AssertFail].

Definition mbox_put_pointer (c : config) (m : mb) (p : Z) : list act :=
  mbox_put_data m (parts c p) (sizeof_ptr c).

Definition mbox_get_pointer (c : config) (m : mb) : list act :=
  mbox_get_data m (sizeof_ptr c).

Definition running_threads (c : config) : Z := hw_threads c + sw_threads c.
Definition simulation_steps (c : config) : Z := running_threads c.

(** [&data[i]] for the block array at address [base]. *)
Definition job_ptr (base : Z) (i : nat) : Z := base + BLOCK_SIZE * Z.of_nat i.

(** [for (i = 0; i < n; i++)]. *)
Definition for_upto (n : Z) (body : nat -> list act) : list act :=
  concat (map body (seq 0 (Z.to_nat n))).

Definition put_job (c : config) (base : Z) (i : nat) : list act :=
  (if (iterations_in_thread c >? 1) && (hw_threads c >? 0)
   then [Put MbStart SET_ITERATIONS; Put MbStart (u32 (iterations_in_thread c))] else []) ++
  mbox_put_pointer c MbStart
    (if without_memory c then WITHOUT_MEMORY c else job_ptr base i).

(** One pass of the loop over [iteration]. *)
Definition one_iteration (c : config) (base : Z) : list act :=
  for_upto (simulation_steps c) (put_job c base) ++
  for_upto (simulation_steps c) (fun _ => mbox_get_pointer c MbStop).

Definition terminate_threads (c : config) : list act :=
  for_upto (running_threads c) (fun _ => mbox_put_pointer c MbStart (THREAD_EXIT c)) ++
  for_upto (hw_threads c) (fun i => [JoinHw i]) ++
  for_upto (sw_threads c) (fun i => [JoinSw i]).

Definition main_script (c : config) (base : Z) : list act :=
  for_upto (iterations c) (fun _ => one_iteration c base) ++ terminate_threads c.

(** ** The software threads and the whole system *)

(** Where a software thread is: inside mbox_get_pointer with some parts read,
    inside mbox_put_pointer with some parts left, or gone. *)
Inductive tstate :=
| TGet (acc : list Z)
| TPut (ws : list Z)
| TExited.

Record sys (M : Type) := mksys {
  sy_main : list act;
  sy_threads : list tstate;
  sy_start : M;
  sy_stop : M;
  sy_data : list block }.
Arguments mksys {M}.
Arguments sy_main {M}.
Arguments sy_threads {M}.
Arguments sy_start {M}.
Arguments sy_stop {M}.
Arguments sy_data {M}.

Inductive actor := Main | Thread (i : nat).

Section System.
Context {M : Type} `{MboxOps M}.
Variable sin : real_t -> real_t.
Variables (c : config) (base : Z).

(** The block a pointer received from the mailbox addresses, if it is one. *)
Definition job_of (data : list block) (p : Z) : option nat :=
  if (base <=? p) && ((p - base) mod BLOCK_SIZE =? 0) &&
     ((p - base) / BLOCK_SIZE <? zlen data)
  then Some (Z.to_nat ((p - base) / BLOCK_SIZE)) else None.

(** The inner loop over [iterations_in_thread] on the block at [ret]. *)
Definition evaluate_job (data : list block) (ret : Z) : option (list block) :=
  j ← job_of data ret;
  b ← data !! j;
  Some (<[j := Nat.iter (Z.to_nat (iterations_in_thread c)) (single_pendulum_simple sin) b]> data).

(** software_thread, up to its next mailbox call; [None] blocks. *)
Definition software_thread (i : nat) (s : sys M) : option (res (sys M)) :=
  match sy_threads s !! i with
  | Some (TGet acc) =>
      match mbox_get (sy_start s) with
      | None => None
      | Some (w, start) =>
          let acc := acc ++ [w] in
          if zlen acc <? sizeof_ptr c / 4
          then Some (Ok (mksys (sy_main s) (<[i := TGet acc]> (sy_threads s)) start
                               (sy_stop s) (sy_data s)))
          else
            let ret := of_parts acc in
            if ret =? THREAD_EXIT c
            then Some (Ok (mksys (sy_main s) (<[i := TExited]> (sy_threads s)) start
                                 (sy_stop s) (sy_data s)))
            else
              match evaluate_job (sy_data s) ret with
              | None => Some (Fault "wild pointer")
              | Some data =>
                  Some (Ok (mksys (sy_main s) (<[i := TPut (parts c ret)]> (sy_threads s)) start
                                  (sy_stop s) data))
              end
      end
  | Some (TPut []) => Some (Ok (mksys (sy_main s) (<[i := TGet []]> (sy_threads s)) (sy_start s)
                                      (sy_stop s) (sy_data s)))
  | Some (TPut (w :: ws)) =>
      match mbox_put (sy_stop s) w with
      | None => None
      | Some stop =>
          Some (Ok (mksys (sy_main s)
                          (<[i := match ws with [] => TGet [] | _ => TPut ws end]> (sy_threads s))
                          (sy_start s) stop (sy_data s)))
      end
  | _ => None
  end.

(** The next action of main.  Hardware threads are VHDL and not modelled:
    joining one blocks. *)
Definition main_step (s : sys M) : option (res (sys M)) :=
  match sy_main s with
  | [] => None
  | a :: rest =>
      match a with
      | Put MbStart v =>
          start ← mbox_put (sy_start s) v;
          Some (Ok (mksys rest (sy_threads s) start (sy_stop s) (sy_data s)))
      | Put MbStop v =>
          stop ← mbox_put (sy_stop s) v;
          Some (Ok (mksys rest (sy_threads s) (sy_start s) stop (sy_data s)))
      | Get MbStart =>
          '(_, start) ← mbox_get (sy_start s);
          Some (Ok (mksys rest (sy_threads s) start (sy_stop s) (sy_data s)))
      | Get MbStop =>
          '(_, stop) ← mbox_get (sy_stop s);
          Some (Ok (mksys rest (sy_threads s) (sy_start s) stop (sy_data s)))
      | JoinHw _ => None
      | JoinSw i =>
          match sy_threads s !! i with
          | Some TExited => Some (Ok (mksys rest (sy_threads s) (sy_start s) (sy_stop s) (sy_data s)))
          | Some _ => None
          | None => Some (Fault "join of a thread that was not created")
          end
      | AssertFail => Some (Exit "assertion failed")
      end
  end.

Definition sys_step (a : actor) (s : sys M) : option (res (sys M)) :=
  match a with Main => main_step s | Thread i => software_thread i s end.

Definition step (s s' : sys M) : Prop := exists a, sys_step a s = Some (Ok s').

(** Start-up: the checks, the two mailboxes of [simulation_steps] words, the
    generated data and the software threads.  [swt] has MAX_THREADS entries. *)
Definition start_up : res (sys M) :=
  match check_options c with
  | Some e => Exit e
  | None =>
      if (hw_threads c >? MAX_THREADS) || (sw_threads c >? MAX_THREADS)
      then Fault "thread array out of bounds"
      else Ok (mksys (main_script c base) (replicate (Z.to_nat (sw_threads c)) (TGet []))
                     (mbox_init (simulation_steps c)) (mbox_init (simulation_steps c))
                     (if without_memory c then []
                      else fst (generate_data (Z.to_nat (simulation_steps c)))))
  end.

Definition final (s : sys M) : Prop :=
  sy_main s = [] /\ Forall (eq TExited) (sy_threads s).
End System.

(** ** The protocol on a 32-bit platform with software threads

    [n] software threads, no hardware thread, pointers of one word; the data
    array lies in the address space below the reserved pointer values. *)

Section Protocol.
Context {M : Type} `{MboxLaws M}.
Variable sin : real_t -> real_t.
Variables (c : config) (base : Z) (n : nat).

Record platform : Prop := {
  pl_ptr : sizeof_ptr c = 4;
  pl_hw : hw_threads c = 0;
  pl_sw : sw_threads c = Z.of_nat n;
  pl_mem : without_memory c = false;
  pl_base : 0 < base;
  pl_top : base + BLOCK_SIZE * Z.of_nat n <= 2 ^ 32 - 3 }.
Context (pl : platform) (Hn : (0 < n)%nat).

Implicit Types (s : sys M) (ts : list tstate).

Abbreviation P := (job_ptr base).
Abbreviation EXIT := (2 ^ 32 - 1).
Definition rounds : nat := Z.to_nat (iterations c).
Definition reps : nat := Z.to_nat (iterations_in_thread c).

Definition puts (i : nat) : list act := map (fun i => Put MbStart (P i)) (seq i (n - i)).
Definition waits (k : nat) : list act := replicate k (Get MbStop).
Definition exits (k : nat) : list act := replicate k (Put MbStart EXIT).
Definition joins (j : nat) : list act := map JoinSw (seq j (n - j)).
Definition script (it : nat) : list act :=
  concat (replicate it (puts 0 ++ waits n)) ++ exits n ++ joins 0.

Lemma ptr_range i : (i < n)%nat -> 0 < P i < 2 ^ 32 - 2.
Proof. intros. destruct pl as [_ _ _ _ Hb Ht]. unfold job_ptr, BLOCK_SIZE in *. lia. Qed.

Lemma ptr_inj i j : P i = P j -> i = j.
Proof. unfold job_ptr, BLOCK_SIZE. lia. Qed.

Lemma parts_one p : 0 <= p < 2 ^ 32 -> parts c p = [p].
Proof.
  intros Hp. unfold parts. rewrite (pl_ptr pl). change (Z.to_nat (4 / 4)) with 1%nat.
  cbn [seq map]. change (32 * Z.of_nat 0) with 0. rewrite Z.shiftr_0_r, u32_small by exact Hp. done.
Qed.

Lemma put_pointer_one m p : 0 <= p < 2 ^ 32 -> mbox_put_pointer c m p = [Put m p].
Proof.
  intros Hp. unfold mbox_put_pointer, mbox_put_data. rewrite parts_one by done.
  by rewrite (pl_ptr pl).
Qed.

Lemma get_pointer_one m : mbox_get_pointer c m = [Get m].
Proof. unfold mbox_get_pointer, mbox_get_data. by rewrite (pl_ptr pl). Qed.

Lemma main_script_eq : main_script c base = script rounds.
Proof.
  assert (Hsim : simulation_steps c = Z.of_nat n)
    by (unfold simulation_steps, running_threads; rewrite (pl_hw pl), (pl_sw pl); lia).
  assert (Hone : one_iteration c base = puts 0 ++ waits n).
  { unfold one_iteration, for_upto. rewrite Hsim, Nat2Z.id. f_equal.
    - unfold puts. rewrite Nat.sub_0_r, <-(concat_map_one (fun i => Put MbStart (P i))).
      apply concat_map_ext.
      intros i Hi. apply elem_of_seq in Hi. pose proof (ptr_range i ltac:(lia)).
      unfold put_job. rewrite (pl_hw pl), (pl_mem pl), andb_false_r.
      cbn [app]. apply put_pointer_one. lia.
    - rewrite get_pointer_one, concat_map_const, length_seq. apply concat_replicate_one. }
  assert (Hexit : terminate_threads c = exits n ++ joins 0).
  { unfold terminate_threads, for_upto, running_threads, THREAD_EXIT.
    rewrite (pl_hw pl), (pl_sw pl), (pl_ptr pl), Z.add_0_l, Nat2Z.id. f_equal.
    - rewrite put_pointer_one by lia. rewrite concat_map_const, length_seq. apply concat_replicate_one.
    - unfold joins. rewrite Nat.sub_0_r. cbn [app]. apply concat_map_one. }
  unfold main_script, script, for_upto. rewrite Hexit, Hone, concat_map_const, length_seq. done.
Qed.

(** ** Where the jobs are *)

(** The words threads still have to acknowledge. *)
Definition held ts : list Z :=
  concat (map (fun t => match t with TPut ws => ws | _ => [] end) ts).

Definition busy ts : nat := sum_list_with (fun t => match t with TPut _ => 1 | _ => 0 end)%nat ts.
Definition exited ts : nat := sum_list_with (fun t => match t with TExited => 1 | _ => 0 end)%nat ts.

Lemma held_insert ts i t t' :
  ts !! i = Some t ->
  (match t with TPut ws => ws | _ => [] end) ++ held (<[i := t']> ts) ≡ₚ
  (match t' with TPut ws => ws | _ => [] end) ++ held ts.
Proof.
  intros Hi. destruct (list_split_at ts i t t' Hi) as (l1 & l2 & -> & ->).
  unfold held. rewrite !map_app, !concat_app. cbn [map concat].
  rewrite !app_assoc. apply Permutation_app_tail.
  rewrite <-!app_assoc. rewrite (Permutation_app_comm (concat _)), (Permutation_app_comm _ (_ ++ _)).
  rewrite <-!app_assoc. solve_Permutation.
Qed.

Lemma held_idle ts : Forall (fun t => t = TGet [] \/ t = TExited) ts -> held ts = [].
Proof. induction 1 as [|t ts [->| ->] _ IH]; [done| |]; exact IH. Qed.

Lemma exited_le ts : (exited ts <= length ts)%nat.
Proof. unfold exited. induction ts as [|[] ts IH]; simpl; lia. Qed.

Lemma exited_all ts : exited ts = length ts -> Forall (eq TExited) ts.
Proof.
  unfold exited. induction ts as [|t ts IH]; simpl; intros E; [constructor|].
  pose proof (exited_le ts) as Hle. unfold exited in Hle.
  destruct t; try lia. constructor; [done|]. apply IH. lia.
Qed.

(** ** The invariant *)

Abbreviation eval := (single_pendulum_simple sin).
Definition after (k : nat) : block := Nat.iter (k * reps) eval (clear_vdx test_data_0).

(** How often job [j] has been evaluated in the current round when the jobs
    below [i] are out and those of [ws] are still in the start mailbox. *)
Definition evaluated (i : nat) (ws : list Z) (j : nat) : nat :=
  if decide (P j ∈ ws \/ (i <= j)%nat) then 0 else 1.

Definition measure (main : list act) (ws : list Z) ts : nat :=
  (3 * length main + 2 * length ws + busy ts)%nat.

(** [m] bounds the steps that are left.  In a round, main has sent the jobs
    below [i] and taken [got] back; every job that is out is in exactly one
    place.  Then the exit words are sent and the threads joined. *)
Inductive inv : nat -> sys M -> Prop :=
| inv_round it D i g got ws ks ts start stop data :
    (it + S D = rounds)%nat -> (i <= n)%nat -> (g < n)%nat -> (g = 0 \/ i = n)%nat ->
    length got = g ->
    mb_repr start (Z.of_nat n) ws -> mb_repr stop (Z.of_nat n) ks ->
    length ts = n ->
    Forall (fun t => t = TGet [] \/ exists w, t = TPut [w]) ts ->
    got ++ ws ++ held ts ++ ks ≡ₚ map P (seq 0 i) ->
    length data = n ->
    (forall j b, data !! j = Some b -> b = after (D + evaluated i ws j)) ->
    inv (measure (puts i ++ waits (n - g) ++ script it) ws ts)
        (mksys (puts i ++ waits (n - g) ++ script it) ts start stop data)
| inv_exit e j x ts start stop data :
    (e = 0 \/ j = 0)%nat -> (j <= n)%nat ->
    mb_repr start (Z.of_nat n) (replicate x EXIT) -> mb_repr stop (Z.of_nat n) [] ->
    length ts = n ->
    Forall (fun t => t = TGet [] \/ t = TExited) ts ->
    (x + exited ts + e = n)%nat ->
    data = replicate n (after rounds) ->
    inv (measure (exits e ++ joins j) (replicate x EXIT) ts)
        (mksys (exits e ++ joins j) ts start stop data).

Lemma puts_cons i : (i < n)%nat -> puts i = Put MbStart (P i) :: puts (S i).
Proof. intros Hi. unfold puts. replace (n - i)%nat with (S (n - S i)) by lia. done. Qed.

Lemma puts_nil : puts n = [].
Proof. unfold puts. by rewrite Nat.sub_diag. Qed.

Lemma joins_cons j : (j < n)%nat -> joins j = JoinSw j :: joins (S j).
Proof. intros Hi. unfold joins. replace (n - j)%nat with (S (n - S j)) by lia. done. Qed.

Lemma joins_nil : joins n = [].
Proof. unfold joins. by rewrite Nat.sub_diag. Qed.

Lemma jobs_NoDup i : NoDup (map P (seq 0 i)).
Proof.
  assert (Hinj : Inj (=) (=) P) by exact ptr_inj.
  apply (NoDup_fmap_2 P), NoDup_seq.
Qed.

Lemma elem_of_jobs w i : w ∈ map P (seq 0 i) <-> exists j, (j < i)%nat /\ w = P j.
Proof.
  rewrite list_elem_of_fmap. split.
  - intros (j & -> & Hj). apply elem_of_seq in Hj. exists j. split; [lia|done].
  - intros (j & Hj & ->). exists j. split; [done|]. apply elem_of_seq. lia.
Qed.

Lemma evaluated_put i ws j : evaluated (S i) (ws ++ [P i]) j = evaluated i ws j.
Proof.
  assert (E : P j ∈ ws ++ [P i] \/ (S i <= j)%nat <-> P j ∈ ws \/ (i <= j)%nat).
  { rewrite elem_of_app, list_elem_of_singleton. split.
    - intros [[?|?%ptr_inj]|?]; [by left|right; lia|right; lia].
    - intros [?|?]; [by left; left|]. destruct (decide (j = i)) as [->|]; [by left; right|right; lia]. }
  unfold evaluated. by rewrite (decide_ext _ _ _ _ E).
Qed.

Lemma evaluated_done j : (j < n)%nat -> evaluated n [] j = 1%nat.
Proof.
  intros Hj. unfold evaluated. rewrite decide_False; [done|].
  intros [?%elem_of_nil|?]; [done|lia].
Qed.

Lemma evaluated_start j : evaluated 0 [] j = 0%nat.
Proof. unfold evaluated. rewrite decide_True; [done|right; lia]. Qed.

Lemma round_over got ws ts ks :
  got ++ ws ++ held ts ++ ks ≡ₚ map P (seq 0 n) -> length got = n ->
  ws = [] /\ held ts = [] /\ ks = [].
Proof.
  intros E Hg. apply Permutation_length in E.
  rewrite !length_app, length_map, length_seq in E.
  split_and!; apply length_zero_iff_nil; lia.
Qed.

Lemma round_idle ts :
  Forall (fun t => t = TGet [] \/ exists w, t = TPut [w]) ts -> held ts = [] ->
  Forall (fun t => t = TGet []) ts.
Proof.
  induction 1 as [|t ts [->|[w ->]] _ IH]; intros E; [constructor| |done].
  constructor; [done|]. apply IH, E.
Qed.

Lemma no_exited ts : Forall (fun t => t = TGet []) ts -> exited ts = 0%nat.
Proof. induction 1 as [|t ts -> _ IH]; [done|exact IH]. Qed.

Lemma script_S it : script (S it) = puts 0 ++ waits n ++ script it.
Proof. unfold script. cbn [replicate concat]. by rewrite <-!app_assoc. Qed.

Lemma measure_put a rest ws ts w :
  (measure rest (ws ++ [w]) ts < measure (a :: rest) ws ts)%nat.
Proof. unfold measure. rewrite length_app. simpl. lia. Qed.

Lemma measure_main a rest ws ts : (measure rest ws ts < measure (a :: rest) ws ts)%nat.
Proof. unfold measure. simpl. lia. Qed.

(** When the last answer of a round has been taken, the next phase starts. *)
Lemma inv_next it D ts start stop data :
  (it + S D = rounds)%nat ->
  mb_repr start (Z.of_nat n) [] -> mb_repr stop (Z.of_nat n) [] -> length ts = n ->
  Forall (fun t => t = TGet []) ts -> length data = n ->
  (forall j b, data !! j = Some b -> b = after (S D)) ->
  inv (measure (script it) [] ts) (mksys (script it) ts start stop data).
Proof.
  intros Hit Hstart Hstop Hts Hidle Hdata Hafter. destruct it as [|it].
  - apply (inv_exit n 0 0); try done; [by right|lia| | |].
    + eapply Forall_impl; [exact Hidle|]. by left.
    + rewrite no_exited by done. lia.
    + apply list_eq. intros j. destruct (data !! j) as [b|] eqn:E.
      * rewrite (Hafter j b E), lookup_replicate_2; [f_equal; f_equal; lia|].
        apply lookup_lt_Some in E. lia.
      * symmetry. apply lookup_replicate_None. apply lookup_ge_None in E. lia.
  - rewrite script_S. replace (waits n) with (waits (n - 0)) by (f_equal; lia).
    apply (inv_round it (S D) 0 0 [] [] []); try done; [lia|lia|by left| | |].
    + eapply Forall_impl; [exact Hidle|]. by left.
    + rewrite held_idle; [done|]. eapply Forall_impl; [exact Hidle|]. by left.
    + intros j b E. rewrite evaluated_start, Nat.add_0_r. by apply (Hafter j).
Qed.

(** ** Every step keeps the invariant and goes forward *)

Lemma inv_main m s r :
  inv m s -> main_step s = Some r -> exists s' m', r = Ok s' /\ (m' < m)%nat /\ inv m' s'.
Proof.
  intros [it D i g got ws ks ts start stop data Hit Hi Hg Hgi Hgot Hstart Hstop Hts Hth Hperm Hdata Hev
         |e j x ts start stop data Hej Hj Hstart Hstop Hts Hth Hx Hdata] E.
  - destruct (decide (i < n)%nat) as [Hlt|Hge].
    + destruct Hgi as [->|]; [|lia]. rewrite puts_cons in * by done.
      cbn in E. destruct (mbox_put start (P i)) as [start'|] eqn:Eput; simplify_option_eq.
      destruct (mbox_put_inv _ _ _ _ _ Hstart Eput) as [_ Hstart'].
      eexists _, _. split; [done|].
      split; [|eapply (inv_round it D (S i) 0 [] _ ks); try done; [by left| |]].
      * apply measure_put.
      * destruct got; [|done]. rewrite seq_S, map_app, <-Hperm. cbn [map app Nat.add].
        rewrite <-!app_assoc. solve_Permutation.
      * intros j b Hjb. rewrite evaluated_put. by apply Hev.
    + assert (i = n) as -> by lia. rewrite puts_nil in *.
      destruct (n - g)%nat as [|k] eqn:Ek; [lia|]. cbn in E.
      destruct (mbox_get stop) as [[v stop']|] eqn:Eget; simplify_option_eq.
      destruct (mbox_get_inv _ _ _ _ _ Hstop Eget) as (ks' & -> & Hstop').
      eexists _, _. split; [done|]. split; [apply measure_main|].
      assert (Hperm' : (got ++ [v]) ++ ws ++ held ts ++ ks' ≡ₚ map P (seq 0 n))
        by (rewrite <-Hperm; rewrite <-!app_assoc; solve_Permutation).
      destruct (decide (k = 0)%nat) as [->|Hk].
      * destruct (round_over _ _ _ _ Hperm') as (-> & Hheld & ->); [rewrite length_app; simpl; lia|].
        apply (inv_next it D); try done; [by apply round_idle|].
        intros j b Hjb. rewrite (Hev j b Hjb), evaluated_done; [f_equal; lia|].
        apply lookup_lt_Some in Hjb. lia.
      * replace k with (n - S (length got))%nat by lia.
        change (inv (measure ([] ++ waits (n - S (length got)) ++ script it) ws ts)
          (mksys ([] ++ waits (n - S (length got)) ++ script it) ts start stop' data)).
        rewrite <-puts_nil.
        apply (inv_round it D n _ (got ++ [v]) ws ks'); try done; [lia|by right|].
        rewrite length_app. simpl. lia.
  - destruct e as [|e].
    + destruct (decide (j < n)%nat) as [Hlt|Hge].
      * rewrite joins_cons in * by done. cbn in E.
        destruct (ts !! j) as [t|] eqn:Ej; [|apply lookup_ge_None in Ej; lia].
        destruct t; simplify_eq. eexists _, _. split; [done|]. split; [apply measure_main|].
        apply (inv_exit 0 (S j) x); try done; by left.
      * assert (j = n) as -> by lia. rewrite joins_nil in E. done.
    + destruct Hej as [Hej|Hej]; [done|subst j]. cbn in E.
      destruct (mbox_put start EXIT) as [start'|] eqn:Eput; simplify_option_eq.
      destruct (mbox_put_inv _ _ _ _ _ Hstart Eput) as [_ Hstart'].
      eexists _, _. split; [done|]. split; [apply measure_put|].
      rewrite <-replicate_cons_app. apply (inv_exit e 0 (S x)); try done; [by right| |lia].
      cbn [replicate]. by rewrite replicate_cons_app.
Qed.

Lemma after_S k : Nat.iter reps eval (after k) = after (S k).
Proof. unfold after. rewrite <-Nat.iter_add. done. Qed.

Lemma evaluated_get i ws j j' :
  (j < i)%nat -> P j ∉ ws ->
  evaluated i (P j :: ws) j = 0%nat /\ evaluated i ws j = 1%nat /\
  (j' <> j -> evaluated i (P j :: ws) j' = evaluated i ws j').
Proof.
  intros Hj Hws. unfold evaluated. split_and!.
  - rewrite decide_True; [done|]. left. by left.
  - rewrite decide_False; [done|]. intros [?|?]; [done|lia].
  - intros Hne. apply decide_ext. rewrite elem_of_cons.
    split; [intros [[?%ptr_inj|?]|?]; auto; lia|intros [?|?]; auto].
Qed.

Lemma job_of_ptr data j : (j < length data)%nat -> job_of base data (P j) = Some j.
Proof.
  intros Hj. unfold job_of, job_ptr, BLOCK_SIZE.
  replace (base + 88 * Z.of_nat j - base) with (Z.of_nat j * 88) by lia.
  rewrite Z.mod_mul, Z.div_mul by lia.
  rewrite (proj2 (Z.leb_le base _)) by lia. rewrite (proj2 (Z.ltb_lt _ (zlen data))) by (unfold zlen; lia).
  cbn. by rewrite Nat2Z.id.
Qed.

Lemma evaluate_job_ptr data j b :
  data !! j = Some b ->
  evaluate_job sin c base data (P j) = Some (<[j := Nat.iter reps eval b]> data).
Proof.
  intros Hb. unfold evaluate_job. rewrite job_of_ptr by (by eapply lookup_lt_Some).
  cbn. rewrite Hb. done.
Qed.

(** A thread waiting at the start mailbox that finds a job there. *)
Lemma thread_takes_job k main ts start start' stop data w j b :
  ts !! k = Some (TGet []) -> mbox_get start = Some (w, start') ->
  w = P j -> (j < n)%nat -> data !! j = Some b ->
  software_thread sin c base k (mksys main ts start stop data) =
  Some (Ok (mksys main (<[k := TPut [w]]> ts) start' stop (<[j := Nat.iter reps eval b]> data))).
Proof.
  intros Hk Hget -> Hj Hb. pose proof (ptr_range j Hj) as Hr. unfold software_thread. cbn [sy_threads].
  rewrite Hk. cbn [sy_start]. rewrite Hget. cbn [app]. rewrite (pl_ptr pl).
  change (zlen [P j] <? 4 / 4) with false. cbn [of_parts].
  replace (P j + 2 ^ 32 * 0) with (P j) by lia.
  unfold THREAD_EXIT. rewrite (pl_ptr pl). cbn [sy_data].
  rewrite (proj2 (Z.eqb_neq (P j) (2 ^ (8 * 4) - 1))) by (change (2 ^ (8 * 4)) with (2 ^ 32); lia).
  rewrite (evaluate_job_ptr _ _ _ Hb), parts_one by lia. done.
Qed.

Lemma thread_takes_exit k main ts start start' stop data :
  ts !! k = Some (TGet []) -> mbox_get start = Some (EXIT, start') ->
  software_thread sin c base k (mksys main ts start stop data) =
  Some (Ok (mksys main (<[k := TExited]> ts) start' stop data)).
Proof.
  intros Hk Hget. unfold software_thread. cbn [sy_threads]. rewrite Hk. cbn [sy_start].
  rewrite Hget. cbn [app]. unfold THREAD_EXIT. rewrite (pl_ptr pl). done.
Qed.

Lemma thread_waits k main ts start stop data :
  ts !! k = Some (TGet []) -> mbox_get start = None ->
  software_thread sin c base k (mksys main ts start stop data) = None.
Proof.
  intros Hk Hget. unfold software_thread. cbn [sy_threads]. rewrite Hk. cbn [sy_start].
  by rewrite Hget.
Qed.

Lemma thread_answers k main ts start stop stop' data w :
  ts !! k = Some (TPut [w]) -> mbox_put stop w = Some stop' ->
  software_thread sin c base k (mksys main ts start stop data) =
  Some (Ok (mksys main (<[k := TGet []]> ts) start stop' data)).
Proof.
  intros Hk Hput. unfold software_thread. cbn [sy_threads]. rewrite Hk. cbn [sy_stop].
  by rewrite Hput.
Qed.

Lemma thread_full k main ts start stop data w :
  ts !! k = Some (TPut [w]) -> mbox_put stop w = None ->
  software_thread sin c base k (mksys main ts start stop data) = None.
Proof.
  intros Hk Hput. unfold software_thread. cbn [sy_threads]. rewrite Hk. cbn [sy_stop].
  by rewrite Hput.
Qed.

Lemma measure_get main ws ts k w t t' :
  ts !! k = Some t -> (busy [t'] <= busy [t] + 1)%nat ->
  (measure main ws (<[k := t']> ts) < measure main (w :: ws) ts)%nat.
Proof.
  intros Hk Ht. unfold measure. cbn [length].
  pose proof (sum_insert (fun t => match t with TPut _ => 1 | _ => 0 end)%nat ts k t t' Hk).
  unfold busy in *. simpl in Ht. lia.
Qed.

Lemma measure_answer main ws ts k w :
  ts !! k = Some (TPut w) -> (measure main ws (<[k := TGet []]> ts) < measure main ws ts)%nat.
Proof.
  intros Hk. unfold measure.
  pose proof (sum_insert (fun t => match t with TPut _ => 1 | _ => 0 end)%nat ts k _ (TGet []) Hk).
  unfold busy in *. simpl in *. lia.
Qed.

Lemma round_member i got ws ts ks w :
  got ++ ws ++ held ts ++ ks ≡ₚ map P (seq 0 i) -> w ∈ ws -> exists j, (j < i)%nat /\ w = P j.
Proof.
  intros Hperm Hin. apply elem_of_jobs. rewrite <-Hperm. rewrite !elem_of_app. auto.
Qed.

Lemma round_unique i got ws ts ks w :
  got ++ (w :: ws) ++ held ts ++ ks ≡ₚ map P (seq 0 i) -> w ∉ ws.
Proof.
  intros Hperm. pose proof (jobs_NoDup i) as Hnd. rewrite <-Hperm in Hnd.
  apply NoDup_app in Hnd as (_ & _ & Hnd). by apply NoDup_app in Hnd as [[? _]%NoDup_cons _].
Qed.

Lemma inv_thread k m s r :
  inv m s -> software_thread sin c base k s = Some r ->
  exists s' m', r = Ok s' /\ (m' < m)%nat /\ inv m' s'.
Proof.
  intros [it D i g got ws ks ts start stop data Hit Hi Hg Hgi Hgot Hstart Hstop Hts Hth Hperm Hdata Hev
         |e j x ts start stop data Hej Hj Hstart Hstop Hts Hth Hx Hdata] E.
  - destruct (ts !! k) as [t|] eqn:Ek; [|unfold software_thread in E; cbn in E; by rewrite Ek in E].
    destruct (Forall_lookup_1 _ _ _ _ Hth Ek) as [->|[w ->]].
    + destruct (mbox_get start) as [[w start']|] eqn:Eget; [|by rewrite thread_waits in E by done].
      destruct (mbox_get_inv _ _ _ _ _ Hstart Eget) as (ws' & -> & Hstart').
      destruct (round_member _ _ _ _ _ w Hperm) as (j & Hj & Ew); [by left|].
      pose proof (round_unique _ _ _ _ _ _ Hperm) as Hw.
      destruct (lookup_lt_is_Some_2 data j) as [b Hb]; [lia|].
      rewrite (thread_takes_job k _ _ _ _ _ _ _ _ _ Ek Eget Ew ltac:(lia) Hb) in E. simplify_eq.
      destruct (evaluated_get i ws' j j Hj Hw) as (Ev0 & Ev1 & _).
      eexists _, _. split; [done|]. split; [eapply (measure_get _ _ _ _ _ _ (TPut [P j])); [done|apply le_n]|].
      apply (inv_round it D i _ got ws' ks); try done.
      * by rewrite length_insert.
      * apply Forall_insert; [done|]. right. eauto.
      * pose proof (held_insert ts k _ (TPut [P j]) Ek) as Hheld. cbn [app] in Hheld.
        rewrite Hheld, <-Hperm. solve_Permutation.
      * by rewrite length_insert.
      * intros j' b' Hb'. destruct (decide (j' = j)) as [->|Hne].
        -- rewrite list_lookup_insert_eq in Hb' by (apply lookup_lt_Some in Hb; done).
           simplify_eq. rewrite (Hev j b Hb), Ev0, Ev1, after_S. f_equal. lia.
        -- rewrite list_lookup_insert_ne in Hb' by done. rewrite (Hev j' b' Hb').
           destruct (evaluated_get i ws' j j' Hj Hw) as (_ & _ & ->); done.
    + destruct (mbox_put stop w) as [stop'|] eqn:Eput; [|by rewrite (thread_full _ _ _ _ _ _ w) in E by done].
      destruct (mbox_put_inv _ _ _ _ _ Hstop Eput) as [_ Hstop'].
      rewrite (thread_answers k _ _ _ _ _ _ w Ek Eput) in E. simplify_eq.
      eexists _, _. split; [done|]. split; [by eapply measure_answer|].
      apply (inv_round it D i _ got ws (ks ++ [w])); try done.
      * by rewrite length_insert.
      * apply Forall_insert; [done|]. by left.
      * pose proof (held_insert ts k _ (TGet []) Ek) as Hheld. cbn [app] in Hheld.
        rewrite <-Hperm, <-Hheld. solve_Permutation.
  - destruct (ts !! k) as [t|] eqn:Ek; [|unfold software_thread in E; cbn in E; by rewrite Ek in E].
    destruct (Forall_lookup_1 _ _ _ _ Hth Ek) as [-> | ->];
      [|unfold software_thread in E; cbn in E; by rewrite Ek in E].
    destruct (mbox_get start) as [[w start']|] eqn:Eget; [|by rewrite thread_waits in E by done].
    destruct (mbox_get_inv _ _ _ _ _ Hstart Eget) as (ws' & Ews & Hstart').
    destruct x as [|x]; [done|]. simplify_eq/=.
    rewrite (thread_takes_exit k _ _ _ _ _ _ Ek Eget) in E. simplify_eq.
    eexists _, _. split; [done|]. split; [eapply (measure_get _ _ _ _ _ _ TExited); [done|apply Nat.le_0_l]|].
    apply (inv_exit e j x); try done.
    + by rewrite length_insert.
    + apply Forall_insert; [done|]. by right.
    + unfold exited in *. pose proof (sum_insert _ ts k _ TExited Ek
        : (sum_list_with (fun t => match t with TExited => 1 | _ => 0 end) _ + _ = _)%nat). simpl in *. lia.
Qed.

(** ** Progress *)

Lemma round_busy ts :
  Forall (fun t => t = TGet [] \/ exists w, t = TPut [w]) ts ->
  (exists k w, ts !! k = Some (TPut [w]) /\ (0 < length (held ts))%nat) \/ held ts = [].
Proof.
  induction 1 as [|t ts [->|[w ->]] _ IH]; [by right| |].
  - destruct IH as [(k & w & Hk & Hl)|IH]; [left; by exists (S k), w|by right].
  - left. exists O, w. split; [done|]. cbn. lia.
Qed.

Definition enabled s : Prop := exists a, is_Some (sys_step sin c base a s).

Lemma round_enabled i g got ws ks ts start stop data it :
  (i <= n)%nat -> (g < n)%nat -> (g = 0 \/ i = n)%nat -> length got = g ->
  mb_repr start (Z.of_nat n) ws -> mb_repr stop (Z.of_nat n) ks -> length ts = n ->
  Forall (fun t => t = TGet [] \/ exists w, t = TPut [w]) ts ->
  got ++ ws ++ held ts ++ ks ≡ₚ map P (seq 0 i) -> length data = n ->
  enabled (mksys (puts i ++ waits (n - g) ++ script it) ts start stop data).
Proof.
  intros Hi Hg Hgi Hgot Hstart Hstop Hts Hth Hperm Hdata.
  pose proof (Permutation_length Hperm) as Hlen.
  rewrite !length_app, length_map, length_seq in Hlen.
  destruct (round_busy ts Hth) as [(k & w & Hk & Hheld)|Hheld].
  { destruct (mbox_put_room stop _ ks w Hstop) as (stop' & Eput & _); [unfold zlen; lia|].
    exists (Thread k). eexists. apply (thread_answers k _ _ _ _ _ _ w Hk Eput). }
  rewrite Hheld in Hlen. cbn [length] in Hlen.
  destruct (decide (i < n)%nat) as [Hlt|Hge].
  { destruct (mbox_put_room start _ ws (P i) Hstart) as (start' & Eput & _); [unfold zlen; lia|].
    exists Main. eexists. simpl. rewrite puts_cons by done. cbn. rewrite Eput. done. }
  assert (i = n) as -> by lia. destruct ks as [|v ks].
  - destruct ws as [|w ws]; [simpl in Hlen; lia|].
    destruct (mbox_get_cons _ _ _ _ Hstart) as (start' & Eget & _).
    destruct (round_member _ _ _ _ _ w Hperm) as (j & Hjn & Ew); [by left|].
    destruct (lookup_lt_is_Some_2 data j) as [b Hb]; [lia|].
    destruct (lookup_lt_is_Some_2 ts 0) as [t Ht]; [lia|].
    pose proof (Forall_lookup_1 _ _ _ _ (round_idle _ Hth Hheld) Ht) as ->.
    exists (Thread 0). eexists. apply (thread_takes_job _ _ _ _ _ _ _ _ _ _ Ht Eget Ew Hjn Hb).
  - destruct (mbox_get_cons _ _ _ _ Hstop) as (stop' & Eget & _).
    exists Main. eexists. simpl. rewrite puts_nil. replace (n - g)%nat with (S (n - S g)) by lia.
    cbn. rewrite Eget. done.
Qed.

Lemma idle_or_exited ts :
  Forall (fun t => t = TGet [] \/ t = TExited) ts ->
  (exists k, ts !! k = Some (TGet [])) \/ exited ts = length ts.
Proof.
  unfold exited. induction 1 as [|t ts [->| ->] _ IH]; [by right|left; by exists O|].
  destruct IH as [[k Hk]|IH]; [left; by exists (S k)|right; simpl; lia].
Qed.

Lemma exit_enabled e j x ts start stop data :
  (e = 0 \/ j = 0)%nat -> (j <= n)%nat ->
  mb_repr start (Z.of_nat n) (replicate x EXIT) -> length ts = n ->
  Forall (fun t => t = TGet [] \/ t = TExited) ts -> (x + exited ts + e = n)%nat ->
  let s := mksys (exits e ++ joins j) ts start stop data in final s \/ enabled s.
Proof.
  intros Hej Hj Hstart Hts Hth Hx s.
  assert (Hwake : forall k, ts !! k = Some (TGet []) -> (0 < x)%nat -> enabled s).
  { intros k Hk Hx0. destruct x as [|x]; [lia|].
    destruct (mbox_get_cons _ _ _ _ Hstart) as (start' & Eget & _).
    exists (Thread k). eexists. apply (thread_takes_exit _ _ _ _ _ _ _ Hk Eget). }
  destruct e as [|e].
  - destruct (decide (exited ts = n)) as [Hall|Hsome].
    + assert (Hf : Forall (eq TExited) ts) by (apply exited_all; lia).
      destruct (decide (j < n)%nat) as [Hlt|Hge].
      * right. destruct (lookup_lt_is_Some_2 ts j) as [t Ht]; [lia|].
        pose proof (Forall_lookup_1 _ _ _ _ Hf Ht) as <-.
        exists Main. eexists. subst s. rewrite joins_cons by done. cbn. by rewrite Ht.
      * left. assert (j = n) as -> by lia. subst s. rewrite joins_nil. done.
    + right. destruct (idle_or_exited ts Hth) as [[k Hk]|Hall]; [|lia].
      apply (Hwake k Hk). lia.
  - right. destruct Hej as [Hej|Hej]; [done|subst j].
    destruct (mbox_put_room start _ _ EXIT Hstart) as (start' & Eput & _);
      [unfold zlen; rewrite length_replicate; lia|].
    exists Main. eexists. subst s. cbn. by rewrite Eput.
Qed.

Lemma inv_enabled m s : inv m s -> final s \/ enabled s.
Proof.
  intros []; [right; by eapply round_enabled|by eapply exit_enabled].
Qed.

Lemma inv_final m s :
  inv m s -> final s ->
  mb_repr (sy_start s) (Z.of_nat n) [] /\ mb_repr (sy_stop s) (Z.of_nat n) [] /\
  sy_data s = replicate n (after rounds).
Proof.
  intros [it D i g got ws ks ts start stop data Hit Hi Hg Hgi Hgot Hstart Hstop Hts Hth Hperm Hdata Hev
         |e j x ts start stop data Hej Hj Hstart Hstop Hts Hth Hx Hdata] [Hmain Hall]; cbn in *.
  - apply app_nil in Hmain as [_ Hmain]. replace (n - g)%nat with (S (n - S g)) in Hmain by lia. done.
  - assert (Hex : exited ts = length ts).
    { clear -Hall. unfold exited. induction Hall as [|t ts <- _ IH]; simpl; lia. }
    replace x with O in Hstart by lia. done.
Qed.

Lemma inv_steps k m s s' :
  inv m s -> nsteps (step sin c base) k s s' -> exists m', (m' + k <= m)%nat /\ inv m' s'.
Proof.
  intros Hinv Hs. revert m Hinv. induction Hs as [s|k s s1 s' [a Ha] _ IH]; intros m Hinv.
  - exists m. split; [lia|done].
  - assert (Hm : exists s2 m2, Ok s1 = Ok s2 /\ (m2 < m)%nat /\ inv m2 s2)
      by (destruct a; [eapply inv_main|eapply inv_thread]; done).
    destruct Hm as (? & m2 & [= <-] & Hlt & Hinv2).
    destruct (IH _ Hinv2) as (m' & Hle & Hinv'). exists m'. split; [lia|done].
Qed.

Lemma length_script it : length (script it) = (2 * n * S it)%nat.
Proof.
  induction it as [|it IH]; [|rewrite script_S]; unfold puts, waits, exits, joins in *.
  - unfold script, exits, joins. cbn [replicate concat app].
    rewrite length_app, length_replicate, length_map, length_seq. lia.
  - rewrite !length_app, IH, length_map, length_seq, length_replicate. lia.
Qed.

Lemma options_rounds : check_options c = None -> (0 < rounds)%nat.
Proof.
  unfold check_options, rounds. destruct (only_print_help c); [done|].
  destruct (iterations c <? 1) eqn:E; [done|]. bool_hyps. lia.
Qed.

Lemma busy_start k : busy (replicate k (TGet [])) = 0%nat.
Proof. induction k; [done|exact IHk]. Qed.

Lemma inv_start_up :
  check_options c = None -> Z.of_nat n <= MAX_THREADS ->
  exists s, start_up c base = Ok s /\ inv (6 * n * S rounds) s.
Proof.
  intros Hopt Hmax. pose proof (options_rounds Hopt) as Hr.
  unfold start_up. rewrite Hopt, !Z.gtb_ltb, (pl_hw pl), (pl_sw pl), (pl_mem pl).
  rewrite (proj2 (Z.ltb_ge MAX_THREADS (Z.of_nat n))) by done. cbn [orb Z.ltb Z.compare MAX_THREADS].
  assert (Hsim : simulation_steps c = Z.of_nat n)
    by (unfold simulation_steps, running_threads; rewrite (pl_hw pl), (pl_sw pl); lia).
  eexists. split; [done|]. rewrite Hsim, !Nat2Z.id, main_script_eq. cbn [generate_data fst].
  destruct rounds as [|it] eqn:Er; [lia|].
  replace (6 * n * S (S it))%nat with (measure (script (S it)) [] (replicate n (TGet []))).
  2: { unfold measure. rewrite length_script, busy_start. cbn [length]. lia. }
  rewrite script_S. replace (waits n) with (waits (n - 0)) by (f_equal; lia).
  pose proof (mbox_init_spec (Z.of_nat n) ltac:(lia)) as Hinit.
  assert (Hidle : Forall (fun t => t = TGet [] \/ t = TExited) (replicate n (TGet [])))
    by (apply Forall_replicate; by left).
  apply (inv_round it 0 0 0 [] [] []); try done;
    [lia|lia|by left|apply length_replicate| |by rewrite held_idle|by rewrite length_replicate|].
  - apply Forall_replicate. by left.
  - intros j b [-> _]%lookup_replicate_1. by rewrite evaluated_start.
Qed.
End Protocol.

(** ** Properties *)

(** C24: the job protocol of single_pendulum_simple is free of deadlocks, ends,
    and evaluates every job in every round exactly once.  On a 32-bit platform
    with [n] software threads (at most MAX_THREADS) and any mailbox that is a
    bounded FIFO, start-up succeeds, and in every interleaving of main and the
    threads: no action faults or exits; as long as main has not returned and
    some thread is left, some actor can act; after 6 n (iterations + 1)
    actions everything has ended; and then both mailboxes are empty and every
    block is the initial one evaluated iterations * iterations_in_thread
    times. *)
Theorem pendulum_protocol {M : Type} `{MboxLaws M} (sin : real_t -> real_t)
    (c : config) (base : Z) (n : nat) :
  platform c base n -> (0 < n)%nat -> Z.of_nat n <= MAX_THREADS -> check_options c = None ->
  exists s0, start_up (M := M) c base = Ok s0 /\
  forall k s, nsteps (step sin c base) k s0 s ->
    (k <= 6 * n * S (rounds c))%nat /\
    (forall a r, sys_step sin c base a s = Some r -> exists s', r = Ok s') /\
    (final s \/ exists s', step sin c base s s') /\
    (final s ->
       mb_repr (sy_start s) (Z.of_nat n) [] /\ mb_repr (sy_stop s) (Z.of_nat n) [] /\
       sy_data s = map (Nat.iter (rounds c * reps c) (single_pendulum_simple sin))
                       (fst (generate_data n))).
Proof.
  intros pl Hn Hmax Hopt.
  destruct (inv_start_up sin c base n pl Hn Hopt Hmax) as (s0 & Hs0 & Hinv0).
  exists s0. split; [done|]. intros k s Hsteps.
  destruct (inv_steps sin c base n pl Hn k _ _ _ Hinv0 Hsteps) as (m & Hm & Hinv).
  assert (Hok : forall a r, sys_step sin c base a s = Some r -> exists s', r = Ok s').
  { intros [|i] r E;
      [destruct (inv_main sin c base n Hn _ _ _ Hinv E) as (s' & ? & ? & ?)
      |destruct (inv_thread sin c base n pl Hn _ _ _ _ Hinv E) as (s' & ? & ? & ?)]; by exists s'. }
  split_and!; [lia|done| |].
  - destruct (inv_enabled sin c base n pl Hn _ _ Hinv) as [|[a [r E]]]; [by left|right].
    destruct (Hok a r E) as [s' ->]. by exists s', a.
  - intros Hf. destruct (inv_final sin c base n Hn _ _ Hinv Hf) as (? & ? & ->).
    cbn [generate_data fst]. by rewrite map_replicate.
Qed.

Lemma pendulum_protocol_witness :
  exists s0 : sys list_mbox, start_up (mkconfig 10 3 false false false 0 4 4) 4096 = Ok s0 /\
  forall k s, nsteps (step fabs (mkconfig 10 3 false false false 0 4 4) 4096) k s0 s ->
    (k <= 6 * 4 * 11)%nat /\
    (forall a r, sys_step fabs (mkconfig 10 3 false false false 0 4 4) 4096 a s = Some r ->
       exists s', r = Ok s') /\
    (final s \/ exists s', step fabs (mkconfig 10 3 false false false 0 4 4) 4096 s s') /\
    (final s -> mb_repr (sy_start s) 4 [] /\ mb_repr (sy_stop s) 4 [] /\
       sy_data s = map (Nat.iter 30 (single_pendulum_simple fabs)) (fst (generate_data 4))).
Proof.
  apply (pendulum_protocol fabs (mkconfig 10 3 false false false 0 4 4) 4096 4).
  - constructor; try reflexivity; vm_compute; congruence.
  - apply Nat.lt_0_succ.
  - vm_compute. congruence.
  - reflexivity.
Defined.
