(* ===== verification/MboxPutGet.v ===== *)
(** Model of the mailbox and semaphore benchmark mbox_put_get.c: the command
    words, the options, main's sequence of calls and the software threads, as
    a transition system over three mailboxes and a semaphore. *)

From S2P Require Import Prelude Mbox.

Local Open Scope Z_scope.

Definition MAX_THREADS : Z := 32.
Definition THREAD_EXIT : Z := 2 ^ 32 - 1.

Inductive TargetOperation :=
| opNOP | opMboxPut | opMboxGet | opSemPost | opSemWait | opMemRead | opMemWrite.

#[export] Instance TargetOperation_eq_dec : EqDecision TargetOperation.
Proof. solve_decision. Defined.

Definition op_value (op : TargetOperation) : Z :=
  match op with
  | opNOP => 0x00000000
  | opMboxPut => 0x01000000
  | opMboxGet => 0x02000000
  | opSemPost => 0x03000000
  | opSemWait => 0x04000000
  | opMemRead => 0x05000000
  | opMemWrite => 0x06000000
  end.

Definition opCodeMask : Z := 0xff000000.
Definition opArgMask : Z := 0x00ffffff.

Definition OP_WITH_ARG (op : TargetOperation) (arg : Z) : Z :=
  Z.lor (op_value op) (Z.land arg opArgMask).

Definition parseOperation (operation : string) : res TargetOperation :=
  if String.eqb operation "nop" then Ok opNOP
  else if String.eqb operation "mbox_put" then Ok opMboxPut
  else if String.eqb operation "mbox_get" then Ok opMboxGet
  else if String.eqb operation "sem_post" then Ok opSemPost
  else if String.eqb operation "sem_wait" then Ok opSemWait
  else if String.eqb operation "mem_read" then Ok opMemRead
  else if String.eqb operation "mem_write" then Ok opMemWrite
  else Exit "assertion failed".

(** The option variables, the two positional arguments and the pointer size
    of the platform. *)
Record config := mkconfig {
  iterations : Z; iterations_in_thread : Z; delta_iterations : Z;
  operation : TargetOperation; mbox_size : Z;
  without_reconos : bool; only_print_help : bool;
  hw_threads : Z; sw_threads : Z; sizeof_ptr : Z }.

(** The checks of main before start-up; [None] means that main goes on. *)
Definition check_options (c : config) : option string :=
  if only_print_help c then Some "usage"%string
  else if iterations c <? 1 then Some "The number of iterations must be at least 1."%string
  else if without_reconos c && (hw_threads c >? 0)
  then Some "We cannot use hardware threads without reconOS!"%string
  else if (sizeof_ptr c >? 4) && (sw_threads c + hw_threads c >? 1)
  then Some "mboxes work with 4-byte values"%string
  else if (iterations_in_thread c >? 1) &&
          ((hw_threads c >? 0) && (hw_threads c + sw_threads c >? 1))
  then Some "'--iterations-in-thread' can only be used with software threads"%string
  else if iterations_in_thread c >=? Z.shiftl 1 24
  then Some "'--iterations-in-thread' can not be larger then 2^24."%string
  else None.

Definition running_threads (c : config) : Z := hw_threads c + sw_threads c.
Definition simulation_steps (c : config) : Z := running_threads c.

(** ** The actions of main *)

Inductive mb := MbStart | MbStop | MbTest.

Inductive act :=
| Put (m : mb) (v : Z)
| Get (m : mb)
| SemPost
| SemWait
| JoinHw (i : nat)
| JoinSw (i : nat).

(** [for (i = 0; i < n; i++)]. *)
Definition for_upto (n : Z) (body : nat -> list act) : list act :=
  concat (map body (seq 0 (Z.to_nat n))).

(** [for (; count > 0; count--)]. *)
Definition count_down (count : Z) (body : Z -> act) : list act :=
  map (fun i => body (count - Z.of_nat i)) (seq 0 (Z.to_nat count)).

Definition command (c : config) : Z :=
  OP_WITH_ARG (operation c) (u32 (iterations_in_thread c - 1 + delta_iterations c)).

(** The switch of the loop that answers the threads; [buffer] is the address
    malloc returned. *)
Definition perform (c : config) (buffer : Z) : list act :=
  let count := iterations_in_thread c in
  match operation c with
  | opNOP => []
  | opMboxPut => count_down count (fun _ => Get MbTest)
  | opMboxGet => count_down count (fun count => Put MbTest count)
  | opSemPost => count_down count (fun _ => SemWait)
  | opSemWait => count_down count (fun _ => SemPost)
  | opMemRead | opMemWrite => [Put MbStart (u32 buffer); Put MbStart (u32 (mbox_size c))]
  end.

Definition one_iteration (c : config) (buffer : Z) : list act :=
  for_upto (simulation_steps c) (fun _ => [Put MbStart (command c)]) ++
  for_upto (simulation_steps c) (fun _ => perform c buffer) ++
  for_upto (simulation_steps c) (fun _ => [Get MbStop]).

Definition terminate_threads (c : config) : list act :=
  for_upto (running_threads c) (fun _ => [Put MbStart THREAD_EXIT]) ++
  for_upto (hw_threads c) (fun i => [JoinHw i]) ++
  for_upto (sw_threads c) (fun i => [JoinSw i]).

Definition main_script (c : config) (buffer : Z) : list act :=
  for_upto (iterations c) (fun _ => one_iteration c buffer) ++ terminate_threads c.

(** ** The threads and the whole system *)

(** A software thread waits for a command, is in one of the counting loops,
    acknowledges the command, or is gone. *)
Inductive tstate :=
| TIdle
| TLoop (ret count : Z)
| TAck (ret : Z)
| TExited.

Record resources (M : Type) := mkres { rs_start : M; rs_stop : M; rs_test : M; rs_sem : Z }.
Arguments mkres {M}.
Arguments rs_start {M}.
Arguments rs_stop {M}.
Arguments rs_test {M}.
Arguments rs_sem {M}.

Record sys (M : Type) := mksys {
  sy_main : list act; sy_threads : list tstate; sy_res : resources M }.
Arguments mksys {M}.
Arguments sy_main {M}.
Arguments sy_threads {M}.
Arguments sy_res {M}.

Inductive actor := Main | Thread (i : nat).

(** The case labels of the switch on [ret & opCodeMask]. *)
Definition decode (code : Z) : option TargetOperation :=
  if code =? op_value opNOP then Some opNOP
  else if code =? op_value opMboxPut then Some opMboxPut
  else if code =? op_value opMboxGet then Some opMboxGet
  else if code =? op_value opSemPost then Some opSemPost
  else if code =? op_value opSemWait then Some opSemWait
  else None.

Definition SEM_VALUE_MAX : Z := 2 ^ 31 - 1.

Section System.
Context {M : Type} `{MboxOps M}.

(** The calls on the resources; [None] blocks.  sem_post at SEM_VALUE_MAX
    fails and its result is not looked at. *)
Definition put_on (m : mb) (v : Z) (r : resources M) : option (resources M) :=
  match m with
  | MbStart => b ← mbox_put (rs_start r) v; Some (mkres b (rs_stop r) (rs_test r) (rs_sem r))
  | MbStop => b ← mbox_put (rs_stop r) v; Some (mkres (rs_start r) b (rs_test r) (rs_sem r))
  | MbTest => b ← mbox_put (rs_test r) v; Some (mkres (rs_start r) (rs_stop r) b (rs_sem r))
  end.

Definition get_from (m : mb) (r : resources M) : option (Z * resources M) :=
  match m with
  | MbStart => '(v, b) ← mbox_get (rs_start r); Some (v, mkres b (rs_stop r) (rs_test r) (rs_sem r))
  | MbStop => '(v, b) ← mbox_get (rs_stop r); Some (v, mkres (rs_start r) b (rs_test r) (rs_sem r))
  | MbTest => '(v, b) ← mbox_get (rs_test r); Some (v, mkres (rs_start r) (rs_stop r) b (rs_sem r))
  end.

Definition sem_post (r : resources M) : resources M :=
  if rs_sem r =? SEM_VALUE_MAX then r
  else mkres (rs_start r) (rs_stop r) (rs_test r) (rs_sem r + 1).

Definition sem_wait (r : resources M) : option (resources M) :=
  if rs_sem r =? 0 then None
  else Some (mkres (rs_start r) (rs_stop r) (rs_test r) (rs_sem r - 1)).

(** One pass of the counting loop a thread is in. *)
Definition thread_call (op : TargetOperation) (count : Z) (r : resources M) : option (resources M) :=
  match op with
  | opMboxPut => put_on MbTest count r
  | opMboxGet => '(_, r) ← get_from MbTest r; Some r
  | opSemPost => Some (sem_post r)
  | opSemWait => sem_wait r
  | _ => None
  end.

(** software_thread, up to the next call; [None] blocks. *)
Definition software_thread (t : tstate) (r : resources M) : option (tstate * resources M) :=
  match t with
  | TIdle =>
      '(ret, r) ← get_from MbStart r;
      if ret =? THREAD_EXIT then Some (TExited, r)
      else
        let count := Z.land ret opArgMask + 1 in
        match decode (Z.land ret opCodeMask) with
        | Some opNOP | None => Some (TAck ret, r)
        | Some _ => Some (TLoop ret count, r)
        end
  | TLoop ret count =>
      op ← decode (Z.land ret opCodeMask);
      r ← thread_call op count r;
      Some (if count - 1 >? 0 then TLoop ret (count - 1) else TAck ret, r)
  | TAck ret => r ← put_on MbStop ret r; Some (TIdle, r)
  | TExited => None
  end.

Definition thread_step (i : nat) (s : sys M) : option (sys M) :=
  t ← sy_threads s !! i;
  '(t, r) ← software_thread t (sy_res s);
  Some (mksys (sy_main s) (<[i := t]> (sy_threads s)) r).

(** The next action of main.  Hardware threads are VHDL and not modelled:
    joining one blocks. *)
Definition main_step (s : sys M) : option (sys M) :=
  match sy_main s with
  | [] => None
  | a :: rest =>
      let go := fun r => Some (mksys rest (sy_threads s) r) in
      match a with
      | Put m v => r ← put_on m v (sy_res s); go r
      | Get m => '(_, r) ← get_from m (sy_res s); go r
      | SemPost => go (sem_post (sy_res s))
      | SemWait => r ← sem_wait (sy_res s); go r
      | JoinHw _ => None
      | JoinSw i =>
          match sy_threads s !! i with
          | Some TExited => go (sy_res s)
          | _ => None
          end
      end
  end.

Definition sys_step (a : actor) (s : sys M) : option (sys M) :=
  match a with Main => main_step s | Thread i => thread_step i s end.

Definition step (s s' : sys M) : Prop := exists a, sys_step a s = Some s'.

(** Start-up; [unused] is the storage of mb_test when it is not initialised. *)
Definition start_up (c : config) (buffer : Z) (unused : M) : res (sys M) :=
  match check_options c with
  | Some e => Exit e
  | None =>
      if (hw_threads c >? MAX_THREADS) || (sw_threads c >? MAX_THREADS)
      then Fault "thread array out of bounds"
      else
        let test := match operation c with
                    | opMboxPut | opMboxGet => mbox_init (mbox_size c)
                    | _ => unused
                    end in
        Ok (mksys (main_script c buffer) (replicate (Z.to_nat (sw_threads c)) TIdle)
                  (mkres (mbox_init (simulation_steps c)) (mbox_init (simulation_steps c)) test 0))
  end.

Definition final (s : sys M) : Prop :=
  sy_main s = [] /\ Forall (eq TExited) (sy_threads s).
End System.

(** ** The command word *)

Lemma land_mask_disjoint x : Z.land (Z.land x opArgMask) opCodeMask = 0.
Proof. rewrite <-Z.land_assoc. change (Z.land opArgMask opCodeMask) with 0. apply Z.land_0_r. Qed.

Lemma op_with_arg_arg op a :
  0 <= a < 16777216 -> Z.land (OP_WITH_ARG op a) opArgMask = a.
Proof.
  intros Ha. unfold OP_WITH_ARG. rewrite Z.land_lor_distr_l.
  assert (E : Z.land (op_value op) opArgMask = 0) by (by destruct op).
  rewrite E, Z.lor_0_l, <-Z.land_assoc, Z.land_diag.
  change opArgMask with (Z.ones 24). rewrite Z.land_ones by lia. apply Z.mod_small. exact Ha.
Qed.

Lemma op_with_arg_code op a : Z.land (OP_WITH_ARG op a) opCodeMask = op_value op.
Proof.
  unfold OP_WITH_ARG. rewrite Z.land_lor_distr_l, land_mask_disjoint, Z.lor_0_r. by destruct op.
Qed.

Lemma op_with_arg_not_exit op a : (OP_WITH_ARG op a =? THREAD_EXIT) = false.
Proof.
  apply Z.eqb_neq. intros E. pose proof (op_with_arg_code op a) as Hc.
  rewrite E in Hc. by destruct op.
Qed.

Lemma length_count_down k body : length (count_down k body) = Z.to_nat k.
Proof. unfold count_down. by rewrite length_map, length_seq. Qed.

(** ** Matched runs on a 32-bit platform with software threads *)

Section Protocol.
Context {M : Type} `{MboxLaws M}.
Variables (c : config) (buffer : Z) (unused : M) (n : nat).

(** main and the threads agree on the number of calls per command. *)
Record matched : Prop := {
  ma_ptr : sizeof_ptr c = 4;
  ma_hw : hw_threads c = 0;
  ma_sw : sw_threads c = Z.of_nat n;
  ma_delta : delta_iterations c = 0;
  ma_count : 0 < iterations_in_thread c;
  ma_size : 0 < mbox_size c;
  ma_op : operation c <> opMemRead /\ operation c <> opMemWrite;
  ma_n : Z.of_nat n <= MAX_THREADS;
  ma_options : check_options c = None }.
Context (ma : matched) (Hn : (0 < n)%nat).

Implicit Types (r : resources M) (ts : list tstate).

Abbreviation op := (operation c).
Definition rounds : nat := Z.to_nat (iterations c).
(** Calls per command. *)
Definition calls : nat := Z.to_nat (iterations_in_thread c).
Definition units : nat := if decide (op = opNOP) then 0 else calls.

Lemma options_count : 0 < iterations_in_thread c < 16777216 /\ (0 < rounds)%nat.
Proof.
  pose proof (ma_options ma) as Hopt. pose proof (ma_count ma). unfold check_options, rounds in *.
  destruct (only_print_help c); [done|].
  destruct (iterations c <? 1) eqn:E1; [done|].
  destruct (_ && (hw_threads c >? 0)); [done|]. destruct (_ && (_ >? 1)); [done|].
  destruct (_ && _); [done|]. change (Z.shiftl 1 24) with 16777216 in Hopt.
  destruct (_ >=? _) eqn:E2; [done|]. bool_hyps. lia.
Qed.

Lemma command_count : Z.land (command c) opArgMask + 1 = iterations_in_thread c.
Proof.
  destruct options_count as [Hc _]. unfold command. rewrite (ma_delta ma), Z.add_0_r.
  rewrite u32_small by (unfold is_u32; lia). rewrite op_with_arg_arg by lia. lia.
Qed.

Lemma command_decode : decode (Z.land (command c) opCodeMask) = Some op.
Proof.
  unfold command. rewrite op_with_arg_code. destruct (ma_op ma) as [Hr Hw].
  by destruct op.
Qed.

Lemma command_not_exit : (command c =? THREAD_EXIT) = false.
Proof. apply op_with_arg_not_exit. Qed.

Lemma total_bound : Z.of_nat (n * units) < SEM_VALUE_MAX.
Proof.
  destruct options_count as [Hc _]. pose proof (ma_n ma). unfold units, calls, MAX_THREADS, SEM_VALUE_MAX in *.
  destruct (decide _); [by rewrite Nat.mul_0_r|]. rewrite Nat2Z.inj_mul, Z2Nat.id by lia. nia.
Qed.

(** ** The tested resource

    [transit r q]: [q] items are in the tested mailbox or semaphore.
    [balance a q b]: [a] calls of main, [q] items in transit and [b] calls of
    the threads cancel out. *)

Definition transit r (q : nat) : Prop :=
  match op with
  | opNOP => q = 0%nat
  | opMboxPut | opMboxGet => exists l, mb_repr (rs_test r) (mbox_size c) l /\ length l = q
  | opSemPost | opSemWait => rs_sem r = Z.of_nat q
  | _ => False
  end.

Definition balance (a q b : nat) : Prop :=
  match op with
  | opNOP => a = 0%nat /\ q = 0%nat /\ b = 0%nat
  | opMboxPut | opSemPost => (b + q = a)%nat
  | opMboxGet | opSemWait => (a + q = b)%nat
  | _ => False
  end.

(** The calls main makes in the loop that answers the threads. *)
Definition main_call (a : act) : Prop :=
  match op with
  | opMboxPut => a = Get MbTest
  | opMboxGet => exists v, a = Put MbTest v
  | opSemPost => a = SemWait
  | opSemWait => a = SemPost
  | _ => False
  end.

Lemma perform_calls : Forall main_call (perform c buffer) /\ length (perform c buffer) = units.
Proof.
  destruct (ma_op ma) as [Hr Hw]. unfold main_call, perform, units, calls, count_down.
  destruct op eqn:E; try done; rewrite ?length_map, ?length_seq; (split; [|done]);
    apply Forall_map, Forall_forall; eauto.
Qed.

(** Equal but for the tested resource. *)
Definition same_mailboxes r r' : Prop := rs_start r = rs_start r' /\ rs_stop r = rs_stop r'.

(** The four ways a call can go: an item more or an item less, in a mailbox
    or in the semaphore. *)
Lemma put_test_ok r l v r' :
  mb_repr (rs_test r) (mbox_size c) l -> put_on MbTest v r = Some r' ->
  same_mailboxes r r' /\ mb_repr (rs_test r') (mbox_size c) (l ++ [v]).
Proof.
  intros Hl E. cbn in E. destruct (mbox_put (rs_test r) v) as [b|] eqn:Eb; simplify_option_eq.
  destruct (mbox_put_inv _ _ _ _ _ Hl Eb). done.
Qed.

Lemma get_test_ok r l v r' :
  mb_repr (rs_test r) (mbox_size c) l -> get_from MbTest r = Some (v, r') ->
  same_mailboxes r r' /\ exists l', l = v :: l' /\ mb_repr (rs_test r') (mbox_size c) l'.
Proof.
  intros Hl E. cbn in E. destruct (mbox_get (rs_test r)) as [[w b]|] eqn:Eb; simplify_option_eq.
  destruct (mbox_get_inv _ _ _ _ _ Hl Eb) as (l' & -> & Hl'). split; [done|]. by exists l'.
Qed.

Lemma sem_post_ok r q :
  rs_sem r = Z.of_nat q -> Z.of_nat q < SEM_VALUE_MAX ->
  same_mailboxes r (sem_post r) /\ rs_sem (sem_post r) = Z.of_nat (S q).
Proof.
  intros Hq Hlt. unfold sem_post. rewrite (proj2 (Z.eqb_neq _ _)) by lia.
  split; [done|]. cbn. lia.
Qed.

Lemma sem_wait_ok r q r' :
  rs_sem r = Z.of_nat q -> sem_wait r = Some r' ->
  same_mailboxes r r' /\ exists q', q = S q' /\ rs_sem r' = Z.of_nat q'.
Proof.
  intros Hq E. unfold sem_wait in E. destruct (rs_sem r =? 0) eqn:E0; [done|]. bool_hyps.
  simplify_eq. split; [done|]. exists (pred q). cbn. split; lia.
Qed.

Lemma thread_call_ok count r r' a q b :
  transit r q -> balance a q (S b) -> (a <= n * units)%nat -> (S b <= n * units)%nat ->
  thread_call op count r = Some r' ->
  same_mailboxes r r' /\ exists q', transit r' q' /\ balance a q' b.
Proof.
  intros Ht Hb Ha Hbn E. pose proof total_bound.
  unfold transit, balance, thread_call in *. destruct op; try done.
  - destruct Ht as (l & Hl & <-). destruct (put_test_ok _ _ _ _ Hl E) as [Hs Hl'].
    split; [done|]. eexists. split; [by eexists|]. rewrite length_app. simpl. lia.
  - destruct Ht as (l & Hl & <-). destruct (get_from MbTest r) as [[v r1]|] eqn:Eg; simpl in E; simplify_eq.
    destruct (get_test_ok _ _ _ _ Hl Eg) as (Hs & l' & -> & Hl').
    split; [done|]. exists (length l'). split; [by eexists|]. simpl in *. lia.
  - simplify_eq. destruct (sem_post_ok r q Ht) as [Hs Hq]; [lia|].
    split; [done|]. exists (S q). split; [done|lia].
  - destruct (sem_wait_ok _ _ _ Ht E) as (Hs & q' & -> & Hq).
    split; [done|]. exists q'. split; [done|lia].
Qed.

Lemma main_call_ok act rest ts r s' a q b :
  transit r q -> balance (S a) q b -> (S a <= n * units)%nat -> (b <= n * units)%nat ->
  main_call act -> main_step (mksys (act :: rest) ts r) = Some s' ->
  exists r' q', s' = mksys rest ts r' /\ same_mailboxes r r' /\ transit r' q' /\ balance a q' b.
Proof.
  intros Ht Hb Ha Hbn Hact E. pose proof total_bound.
  unfold transit, balance, main_call in *. destruct op; try done.
  - subst act. cbn -[get_from] in E. destruct Ht as (l & Hl & <-).
    destruct (get_from MbTest r) as [[v r1]|] eqn:Eg; simpl in E; simplify_eq.
    destruct (get_test_ok _ _ _ _ Hl Eg) as (Hs & l' & -> & Hl').
    exists r1, (length l'). split_and!; try done; [by eexists|simpl in *; lia].
  - destruct Hact as [v ->]. cbn -[put_on] in E. destruct Ht as (l & Hl & <-).
    destruct (put_on MbTest v r) as [r1|] eqn:Eg; simpl in E; simplify_eq.
    destruct (put_test_ok _ _ _ _ Hl Eg) as [Hs Hl'].
    exists r1, (length (l ++ [v])). split_and!; try done; [by eexists|].
    rewrite length_app. simpl. lia.
  - subst act. cbn -[sem_wait] in E. destruct (sem_wait r) as [r1|] eqn:Eg; simpl in E; simplify_eq.
    destruct (sem_wait_ok _ _ _ Ht Eg) as (Hs & q' & -> & Hq).
    exists r1, q'. split_and!; try done. lia.
  - subst act. cbn -[sem_post] in E. simplify_eq.
    destruct (sem_post_ok r q Ht) as [Hs Hq]; [lia|].
    exists (sem_post r), (S q). split_and!; try done. lia.
Qed.

(** A call of a thread can only be waiting for a call of main, and a call of
    main only for a call of a thread. *)
Lemma thread_call_enabled count r a q b :
  transit r q -> balance a q b -> (0 < b)%nat ->
  is_Some (thread_call op count r) \/ (0 < a)%nat.
Proof.
  intros Ht Hb Hpos. unfold transit, balance, thread_call in *. destruct op; try done; try lia.
  - destruct Ht as (l & Hl & <-). destruct l as [|w l]; [right; simpl in *; lia|left].
    cbn. destruct (mbox_get_cons _ _ _ _ Hl) as (b' & -> & _). done.
  - destruct q as [|q]; [right; lia|left].
    unfold sem_wait. rewrite (proj2 (Z.eqb_neq _ _)) by lia. done.
Qed.

Lemma main_call_enabled count act rest ts r a q b :
  transit r q -> balance a q b -> main_call act -> (0 < a)%nat ->
  is_Some (main_step (mksys (act :: rest) ts r)) \/ (0 < b)%nat /\ is_Some (thread_call op count r).
Proof.
  intros Ht Hb Hact Hpos. pose proof (ma_size ma) as Hsz.
  unfold transit, balance, main_call, thread_call in *. destruct op; try done.
  - subst act. destruct Ht as (l & Hl & <-). cbn. destruct l as [|v l].
    + right. split; [simpl in *; lia|].
      destruct (mbox_put_room _ _ _ count Hl) as (b' & -> & _); [by unfold zlen|done].
    + left. destruct (mbox_get_cons _ _ _ _ Hl) as (b' & -> & _). done.
  - destruct Hact as [v ->]. destruct Ht as (l & Hl & <-). cbn. destruct l as [|w l].
    + left. destruct (mbox_put_room _ _ _ v Hl) as (b' & -> & _); [by unfold zlen|done].
    + right. split; [simpl in *; lia|]. destruct (mbox_get_cons _ _ _ _ Hl) as (b' & -> & _). done.
  - subst act. cbn. destruct q as [|q].
    + right. split; [lia|done].
    + left. unfold sem_wait. rewrite (proj2 (Z.eqb_neq _ _)) by lia. done.
  - subst act. by left.
Qed.

(** ** Main's sequence of calls *)

Definition puts (i : nat) : list act := replicate (n - i) (Put MbStart (command c)).
Definition answers : list act := concat (replicate n (perform c buffer)).
Definition waits (k : nat) : list act := replicate k (Get MbStop).
Definition exits (k : nat) : list act := replicate k (Put MbStart THREAD_EXIT).
Definition joins (j : nat) : list act := map JoinSw (seq j (n - j)).
Definition script (it : nat) : list act :=
  concat (replicate it (puts 0 ++ answers ++ waits n)) ++ exits n ++ joins 0.

Lemma mpg_main_script_eq : main_script c buffer = script rounds.
Proof.
  assert (Hsim : simulation_steps c = Z.of_nat n)
    by (unfold simulation_steps, running_threads; rewrite (ma_hw ma), (ma_sw ma); lia).
  unfold main_script, script, one_iteration, terminate_threads, for_upto.
  rewrite Hsim. unfold running_threads. rewrite (ma_hw ma), (ma_sw ma), Z.add_0_l, !Nat2Z.id.
  rewrite !concat_map_const, !length_seq, !concat_replicate_one. cbn [Z.to_nat seq map concat app].
  unfold puts, answers, waits, exits, joins. rewrite Nat.sub_0_r, !concat_map_one. done.
Qed.

Lemma mpg_script_S it : script (S it) = puts 0 ++ answers ++ waits n ++ script it.
Proof. unfold script. cbn [replicate concat]. by rewrite <-!app_assoc. Qed.

Lemma answers_calls : Forall main_call answers /\ length answers = (n * units)%nat.
Proof.
  destruct perform_calls as [Hc Hl]. unfold answers. clear Hn ma. induction n as [|k [IH1 IH2]]; [done|].
  cbn [replicate concat]. split; [by apply Forall_app|]. rewrite length_app, Hl, IH2. lia.
Qed.

(** ** The invariant *)

(** A command being worked on, the calls left for it, and the actions left. *)
Definition active (t : tstate) : nat := match t with TLoop _ _ | TAck _ => 1 | _ => 0 end.
Definition left (t : tstate) : nat := match t with TLoop _ k => Z.to_nat k | _ => 0 end.
Definition weight (t : tstate) : nat :=
  match t with TLoop _ k => S (Z.to_nat k) | TAck _ => 1 | _ => 0 end.
Definition is_exited (t : tstate) : nat := match t with TExited => 1 | _ => 0 end.
Abbreviation sum f ts := (sum_list_with f ts).

(** The state of a thread that has just received the command. *)
Definition begin : tstate :=
  if decide (op = opNOP) then TAck (command c) else TLoop (command c) (iterations_in_thread c).

Definition ok_thread (t : tstate) : Prop :=
  match t with
  | TIdle | TAck _ => True
  | TLoop ret k => ret = command c /\ 0 < k
  | TExited => False
  end.

Definition pending (i : nat) (ws : list Z) ts : nat := ((n - i + length ws) * units + sum left ts)%nat.

Definition measure (main : list act) (ws : list Z) ts : nat :=
  ((units + 3) * length main + (units + 2) * length ws + sum weight ts)%nat.

Inductive inv : nat -> sys M -> Prop :=
| inv_round it i g cs ws ks ts r q :
    (i <= n)%nat -> (g < n)%nat -> (i = n \/ g = 0)%nat -> (cs = [] \/ g = 0%nat) ->
    Forall main_call cs -> (length cs <= n * units)%nat ->
    mb_repr (rs_start r) (Z.of_nat n) ws -> mb_repr (rs_stop r) (Z.of_nat n) ks ->
    Forall (eq (command c)) ws ->
    length ts = n -> Forall ok_thread ts ->
    (i = g + length ws + sum active ts + length ks)%nat ->
    (pending i ws ts <= n * units)%nat ->
    transit r q -> balance (length cs) q (pending i ws ts) ->
    inv (measure (puts i ++ cs ++ waits (n - g) ++ script it) ws ts)
        (mksys (puts i ++ cs ++ waits (n - g) ++ script it) ts r)
| inv_exit e j x ts r :
    (e = 0 \/ j = 0)%nat -> (j <= n)%nat ->
    mb_repr (rs_start r) (Z.of_nat n) (replicate x THREAD_EXIT) ->
    mb_repr (rs_stop r) (Z.of_nat n) [] -> transit r 0 ->
    length ts = n -> Forall (fun t => t = TIdle \/ t = TExited) ts ->
    (x + sum is_exited ts + e = n)%nat ->
    inv (measure (exits e ++ joins j) (replicate x THREAD_EXIT) ts)
        (mksys (exits e ++ joins j) ts r).

Lemma transit_mailboxes r q start stop :
  transit r q -> transit (mkres start stop (rs_test r) (rs_sem r)) q.
Proof. unfold transit. by destruct op. Qed.

Lemma mpg_puts_cons i : (i < n)%nat -> puts i = Put MbStart (command c) :: puts (S i).
Proof. intros Hi. unfold puts. replace (n - i)%nat with (S (n - S i)) by lia. done. Qed.

Lemma mpg_puts_nil : puts n = [].
Proof. unfold puts. by rewrite Nat.sub_diag. Qed.

Lemma mpg_joins_cons j : (j < n)%nat -> joins j = JoinSw j :: joins (S j).
Proof. intros Hi. unfold joins. replace (n - j)%nat with (S (n - S j)) by lia. done. Qed.

Lemma mpg_joins_nil : joins n = [].
Proof. unfold joins. by rewrite Nat.sub_diag. Qed.

Lemma sum_zero_idle ts :
  Forall ok_thread ts -> sum active ts = 0%nat -> Forall (fun t => t = TIdle) ts.
Proof.
  induction 1 as [|t ts Ht _ IH]; simpl; [constructor|]. intros Hs.
  destruct t; simpl in *; try done; try lia. constructor; [done|]. by apply IH.
Qed.

Lemma idle_sums ts : Forall (fun t => t = TIdle) ts ->
  sum active ts = 0%nat /\ sum left ts = 0%nat /\ sum weight ts = 0%nat /\ sum is_exited ts = 0%nat /\
  Forall ok_thread ts.
Proof.
  induction 1 as [|t ts -> _ (?&?&?&?&?)]; [by split_and!|].
  simpl. split_and!; try lia. by constructor.
Qed.

Lemma mpg_inv_next it ts r :
  mb_repr (rs_start r) (Z.of_nat n) [] -> mb_repr (rs_stop r) (Z.of_nat n) [] -> transit r 0 ->
  length ts = n -> Forall (fun t => t = TIdle) ts ->
  inv (measure (script it) [] ts) (mksys (script it) ts r).
Proof.
  intros Hstart Hstop Ht Hts Hidle. destruct (idle_sums ts Hidle) as (Ha & Hl & _ & He & Hok).
  destruct it as [|it].
  - apply (inv_exit n 0 0); try done; [by right|lia| |by rewrite He; lia].
    eapply Forall_impl; [exact Hidle|]. by left.
  - rewrite mpg_script_S. replace (waits n) with (waits (n - 0)) by (f_equal; lia).
    destruct answers_calls as [Hcalls Hlen].
    assert (Hp : pending 0 [] ts = (n * units)%nat) by (unfold pending; simpl; rewrite Hl; lia).
    apply (inv_round it 0 0 answers [] [] ts r 0); try done; [lia|by right|by right|lia|simpl; lia|lia|].
    rewrite Hlen, Hp. unfold balance. unfold transit in Ht.
    unfold units. destruct (ma_op ma) as [? ?]. destruct op; done || (cbn; lia).
Qed.

(** ** Every step keeps the invariant and goes forward *)

Lemma mpg_measure_put a rest ws ts w :
  (measure rest (ws ++ [w]) ts < measure (a :: rest) ws ts)%nat.
Proof. unfold measure. rewrite length_app. simpl. lia. Qed.

Lemma mpg_measure_main a rest ws ts : (measure rest ws ts < measure (a :: rest) ws ts)%nat.
Proof. unfold measure. simpl. lia. Qed.

Lemma put_start_ok v rest ts r s' ws :
  mb_repr (rs_start r) (Z.of_nat n) ws ->
  main_step (mksys (Put MbStart v :: rest) ts r) = Some s' ->
  exists start, s' = mksys rest ts (mkres start (rs_stop r) (rs_test r) (rs_sem r)) /\
    mb_repr start (Z.of_nat n) (ws ++ [v]).
Proof.
  intros Hws E. cbn in E. destruct (mbox_put (rs_start r) v) as [start|] eqn:Ep; simplify_option_eq.
  destruct (mbox_put_inv _ _ _ _ _ Hws Ep). by exists start.
Qed.

Lemma get_stop_ok rest ts r s' ks :
  mb_repr (rs_stop r) (Z.of_nat n) ks ->
  main_step (mksys (Get MbStop :: rest) ts r) = Some s' ->
  exists v ks' stop, ks = v :: ks' /\ s' = mksys rest ts (mkres (rs_start r) stop (rs_test r) (rs_sem r)) /\
    mb_repr stop (Z.of_nat n) ks'.
Proof.
  intros Hks E. cbn in E. destruct (mbox_get (rs_stop r)) as [[v stop]|] eqn:Ep; simplify_option_eq.
  destruct (mbox_get_inv _ _ _ _ _ Hks Ep) as (ks' & -> & Hk). by exists v, ks', stop.
Qed.

Lemma balance_done q : balance 0 q 0 -> q = 0%nat.
Proof. unfold balance. destruct op; lia || done. Qed.

Lemma pending_idle ws ts :
  Forall ok_thread ts -> ws = [] -> sum active ts = 0%nat -> pending n ws ts = 0%nat.
Proof.
  intros Hok -> Ha. destruct (idle_sums ts (sum_zero_idle ts Hok Ha)) as (_ & Hl & _).
  unfold pending. rewrite Hl. simpl. lia.
Qed.

Lemma mpg_inv_main m s s' : inv m s -> main_step s = Some s' -> exists m', (m' < m)%nat /\ inv m' s'.
Proof.
  intros [it i g cs ws ks ts r q Hi Hg Hig Hcg Hcs Hcl Hstart Hstop Hws Hts Hok Hcount Hpend Ht Hb
         |e j x ts r Hej Hj Hstart Hstop Ht Hts Hth Hx] E.
  - destruct (decide (i < n)%nat) as [Hlt|Hge].
    + rewrite mpg_puts_cons in * by done.
      destruct (put_start_ok _ _ _ _ _ _ Hstart E) as (start & -> & Hs).
      eexists. split; [apply mpg_measure_put|].
      assert (Hp : pending (S i) (ws ++ [command c]) ts = pending i ws ts)
        by (unfold pending; rewrite length_app; simpl; f_equal; f_equal; lia).
      apply (inv_round it (S i) g cs (ws ++ [command c]) ks ts _ q); try done; rewrite ?Hp; try done;
        [right; lia|apply Forall_app_2; [done|by apply Forall_singleton]|
         rewrite length_app; simpl; lia].
    + assert (i = n) as -> by lia. rewrite mpg_puts_nil in *. destruct cs as [|a cs]; cbn [app] in *.
      * replace (n - g)%nat with (S (n - S g)) in * by lia.
        destruct (get_stop_ok _ _ _ _ _ Hstop E) as (v & ks' & stop & -> & -> & Hs).
        eexists. split; [apply mpg_measure_main|]. simpl in Hcount.
        apply (transit_mailboxes r q (rs_start r) stop) in Ht.
        destruct (decide (S g = n)) as [Hgn|Hgn].
        -- assert (ws = []) as -> by (apply length_zero_iff_nil; lia).
           assert (ks' = []) as -> by (apply length_zero_iff_nil; lia).
           rewrite pending_idle in Hb by (done || lia). apply balance_done in Hb as ->.
           replace (n - S g)%nat with 0%nat by lia.
           apply mpg_inv_next; try done. apply sum_zero_idle; [done|lia].
        -- pose proof (fun r => inv_round it n (S g) [] ws ks' ts r q) as Hnext. rewrite mpg_puts_nil in Hnext.
           apply Hnext; try done; (by left) || lia.
      * apply Forall_cons in Hcs as [Ha Hcs]. destruct Hcg as [Hcg|Hcg]; [done|subst g]. simpl in Hb, Hcl.
        destruct (main_call_ok _ _ _ _ _ _ _ _ Ht Hb Hcl Hpend Ha E)
          as (r' & q' & -> & [Hs1 Hs2] & Ht' & Hb').
        eexists. split; [apply mpg_measure_main|].
        rewrite Hs1 in Hstart. rewrite Hs2 in Hstop.
        pose proof (inv_round it n 0 cs ws ks ts r' q') as Hnext. rewrite mpg_puts_nil in Hnext.
        apply Hnext; try done; [by right|lia].
  - destruct e as [|e].
    + destruct (decide (j < n)%nat) as [Hlt|Hge].
      * rewrite mpg_joins_cons in * by done. cbn in E. destruct (ts !! j) as [[]|]; simplify_eq.
        eexists. split; [apply mpg_measure_main|]. apply (inv_exit 0 (S j) x); try done; by left.
      * assert (j = n) as -> by lia. by rewrite mpg_joins_nil in E.
    + destruct Hej as [Hej|Hej]; [done|subst j].
      destruct (put_start_ok _ _ _ _ _ _ Hstart E) as (start & -> & Hs).
      eexists. split; [apply mpg_measure_put|]. rewrite <-replicate_cons_app.
      apply (inv_exit e 0 (S x)); try done; [by right| |lia].
      cbn [replicate]. by rewrite replicate_cons_app.
Qed.

Lemma idle_ok r t' r' ws :
  mb_repr (rs_start r) (Z.of_nat n) ws -> software_thread TIdle r = Some (t', r') ->
  exists w ws' start, ws = w :: ws' /\ r' = mkres start (rs_stop r) (rs_test r) (rs_sem r) /\
    mb_repr start (Z.of_nat n) ws' /\
    (w = command c -> t' = begin) /\ (w = THREAD_EXIT -> t' = TExited).
Proof.
  intros Hws E. cbn in E. destruct (mbox_get (rs_start r)) as [[w start]|] eqn:Eg; [|done].
  destruct (mbox_get_inv _ _ _ _ _ Hws Eg) as (ws' & -> & Hws'). simpl in E.
  exists w, ws', start. split; [done|].
  destruct (w =? THREAD_EXIT) eqn:Ew.
  - simplify_eq. split_and!; try done. intros ->. by rewrite command_not_exit in Ew.
  - assert (Hne : w <> THREAD_EXIT) by (by apply Z.eqb_neq).
    assert (Er : r' = mkres start (rs_stop r) (rs_test r) (rs_sem r))
      by (destruct (decode _) as [[]|]; by simplify_eq).
    split_and!; try done. intros ->. rewrite command_decode, command_count in E. unfold begin.
    destruct (decide (op = opNOP)) as [Hop|Hop]; [rewrite Hop in E|]; [by simplify_eq|].
    destruct op; by simplify_eq.
Qed.

Lemma begin_spec :
  active begin = 1%nat /\ left begin = units /\ (weight begin <= S units)%nat /\ ok_thread begin.
Proof.
  pose proof (ma_count ma). unfold begin, units, calls.
  destruct (decide (op = opNOP)); simpl; split_and!; done || lia.
Qed.

Lemma loop_ok k r t' r' :
  0 < k -> software_thread (TLoop (command c) k) r = Some (t', r') ->
  thread_call op k r = Some r' /\ active t' = 1%nat /\ (S (left t') = Z.to_nat k)%nat /\
  (S (weight t') = weight (TLoop (command c) k))%nat /\ ok_thread t'.
Proof.
  intros Hk E. cbn -[thread_call] in E. rewrite command_decode in E. simpl in E.
  destruct (thread_call op k r) as [r1|] eqn:Ec; simpl in E; simplify_eq. split; [done|].
  destruct (k - 1 >? 0) eqn:Ek; bool_hyps; simpl; split_and!; done || lia.
Qed.

Lemma ack_ok w r t' r' ks :
  mb_repr (rs_stop r) (Z.of_nat n) ks -> software_thread (TAck w) r = Some (t', r') ->
  t' = TIdle /\ exists stop, r' = mkres (rs_start r) stop (rs_test r) (rs_sem r) /\
    mb_repr stop (Z.of_nat n) (ks ++ [w]).
Proof.
  intros Hks E. cbn in E. destruct (mbox_put (rs_stop r) w) as [stop|] eqn:Eg; simplify_option_eq.
  destruct (mbox_put_inv _ _ _ _ _ Hks Eg) as [_ Hks']. split; [done|]. by exists stop.
Qed.

(** What a step of thread [k] changes in the sums of the invariant. *)
Lemma sums_insert ts k t t' :
  ts !! k = Some t ->
  (sum active (<[k := t']> ts) + active t = sum active ts + active t' /\
   sum left (<[k := t']> ts) + left t = sum left ts + left t' /\
   sum weight (<[k := t']> ts) + weight t = sum weight ts + weight t' /\
   sum is_exited (<[k := t']> ts) + is_exited t = sum is_exited ts + is_exited t')%nat.
Proof. intros Hk. split_and!; by apply sum_insert. Qed.

Lemma inv_thread_round k it i g cs ws ks ts r q t t' r' :
  (i <= n)%nat -> (g < n)%nat -> (i = n \/ g = 0)%nat -> (cs = [] \/ g = 0%nat) ->
  Forall main_call cs -> (length cs <= n * units)%nat ->
  mb_repr (rs_start r) (Z.of_nat n) ws -> mb_repr (rs_stop r) (Z.of_nat n) ks ->
  Forall (eq (command c)) ws -> length ts = n -> Forall ok_thread ts ->
  (i = g + length ws + sum active ts + length ks)%nat ->
  (pending i ws ts <= n * units)%nat ->
  transit r q -> balance (length cs) q (pending i ws ts) ->
  ts !! k = Some t -> software_thread t r = Some (t', r') ->
  let main := puts i ++ cs ++ waits (n - g) ++ script it in
  exists m', (m' < measure main ws ts)%nat /\ inv m' (mksys main (<[k := t']> ts) r').
Proof.
  intros Hi Hg Hig Hcg Hcs Hcl Hstart Hstop Hws Hts Hok Hcount Hpend Ht Hb Hk E main.
  pose proof (Forall_lookup_1 _ _ _ _ Hok Hk) as Htok.
  destruct (sums_insert ts k t t' Hk) as (Sa & Sl & Sw & _).
  assert (Hts' : length (<[k := t']> ts) = n) by (by rewrite length_insert).
  destruct t as [|ret count|ret|]; [| | |done].
  - destruct (idle_ok _ _ _ _ Hstart E) as (w & ws' & start & -> & -> & Hs & Hbegin & _).
    apply Forall_cons in Hws as [<- Hws]. rewrite (Hbegin eq_refl) in *.
    destruct begin_spec as (Ba & Bl & Bw & Bok). rewrite Ba, Bl in *. cbn [active left weight length] in *.
    assert (Hp : pending i ws' (<[k := begin]> ts) = pending i (command c :: ws') ts)
      by (unfold pending; cbn [length]; lia).
    exists (measure main ws' (<[k := begin]> ts)). split; [unfold measure; cbn [length]; lia|].
    apply (inv_round it i g cs ws' ks _ _ q); try done; rewrite ?Hp; try done; [|lia].
    by apply Forall_insert.
  - destruct Htok as [-> Hpos]. destruct (loop_ok _ _ _ _ Hpos E) as (Hcall & La & Ll & Lw & Lok).
    cbn [active left] in *.
    assert (Hp : pending i ws ts = S (pending i ws (<[k := t']> ts))) by (unfold pending; lia).
    rewrite Hp in Hb, Hpend.
    destruct (thread_call_ok _ _ _ _ _ _ Ht Hb Hcl Hpend Hcall) as ([Hs1 Hs2] & q' & Ht' & Hb').
    exists (measure main ws (<[k := t']> ts)). split; [unfold measure; lia|].
    rewrite Hs1 in Hstart. rewrite Hs2 in Hstop.
    apply (inv_round it i g cs ws ks _ _ q'); try done; [by apply Forall_insert|lia|lia].
  - destruct (ack_ok _ _ _ _ _ Hstop E) as (-> & stop & -> & Hs). cbn [active left weight] in *.
    assert (Hp : pending i ws (<[k := TIdle]> ts) = pending i ws ts) by (unfold pending; lia).
    exists (measure main ws (<[k := TIdle]> ts)). split; [unfold measure; lia|].
    apply (inv_round it i g cs ws (ks ++ [ret]) _ _ q); try done; rewrite ?Hp; try done;
      [by apply Forall_insert|rewrite length_app; simpl; lia].
Qed.

Lemma mpg_inv_thread k m s s' : inv m s -> thread_step k s = Some s' -> exists m', (m' < m)%nat /\ inv m' s'.
Proof.
  intros Hinv E. unfold thread_step in E.
  destruct (sy_threads s !! k) as [t|] eqn:Hk; [|done].
  simpl in E. destruct (software_thread t (sy_res s)) as [[t' r']|] eqn:Et; simpl in E; simplify_eq.
  destruct Hinv as [it i g cs ws ks ts r q Hi Hg Hig Hcg Hcs Hcl Hstart Hstop Hws Hts Hok Hcount Hpend Ht Hb
         |e j x ts r Hej Hj Hstart Hstop Ht Hts Hth Hx]; cbn in *.
  - by eapply inv_thread_round.
  - destruct (Forall_lookup_1 _ _ _ _ Hth Hk) as [-> | ->]; [|done].
    destruct (idle_ok _ _ _ _ Hstart Et) as (w & ws' & start & Ew & -> & Hs & _ & Hexit).
    destruct x as [|x]; [done|]. cbn [replicate] in Ew. injection Ew as <- <-.
    rewrite (Hexit eq_refl) in *.
    destruct (sums_insert ts k _ TExited Hk) as (_ & _ & Sw & Se). cbn [weight is_exited] in *.
    exists (measure (exits e ++ joins j) (replicate x THREAD_EXIT) (<[k := TExited]> ts)).
    split; [unfold measure; cbn [replicate length]; lia|].
    apply (inv_exit e j x); try done; [by rewrite length_insert| |lia].
    apply Forall_insert; [done|]. by right.
Qed.

(** ** Progress *)

Definition enabled (s : sys M) : Prop := exists a, is_Some (sys_step a s).

Lemma thread_enabled main ts r k t :
  ts !! k = Some t -> is_Some (software_thread t r) -> enabled (mksys main ts r).
Proof.
  intros Hk [[t' r'] E]. exists (Thread k). simpl. unfold thread_step. cbn [sy_threads].
  rewrite Hk. cbn. rewrite E. done.
Qed.

Lemma idle_enabled r w ws :
  mb_repr (rs_start r) (Z.of_nat n) (w :: ws) -> is_Some (software_thread TIdle r).
Proof.
  intros Hws. cbn. destruct (mbox_get_cons _ _ _ _ Hws) as (start & -> & _). cbn.
  destruct (w =? THREAD_EXIT); [done|]. by destruct (decode _) as [[]|].
Qed.

Lemma put_start_enabled v rest ts r ws :
  mb_repr (rs_start r) (Z.of_nat n) ws -> (length ws < n)%nat ->
  enabled (mksys (Put MbStart v :: rest) ts r).
Proof.
  intros Hws Hl. destruct (mbox_put_room _ _ _ v Hws) as (start & E & _); [unfold zlen; lia|].
  exists Main. cbn. by rewrite E.
Qed.

Lemma ok_threads_cases ts :
  Forall ok_thread ts ->
  (exists k w, ts !! k = Some (TAck w) /\ (0 < sum active ts)%nat) \/
  (exists k j, ts !! k = Some (TLoop (command c) j) /\ (0 < sum left ts)%nat) \/
  Forall (fun t => t = TIdle) ts.
Proof.
  induction 1 as [|t ts Ht _ IH]; [by right; right|].
  destruct t as [|ret j|ret|]; simpl in Ht; [|destruct Ht as [-> Hj]| |done].
  - destruct IH as [(k & w & Hk & Hs)|[(k & w & Hk & Hs)|IH]].
    + left. by exists (S k), w.
    + right. left. by exists (S k), w.
    + right. right. by constructor.
  - right. left. exists 0%nat, j. split; [done|]. simpl. lia.
  - left. exists 0%nat, ret. split; [done|]. simpl. lia.
Qed.

Lemma mpg_round_enabled it i g cs ws ks ts r q :
  (i <= n)%nat -> (g < n)%nat -> Forall main_call cs ->
  mb_repr (rs_start r) (Z.of_nat n) ws -> mb_repr (rs_stop r) (Z.of_nat n) ks ->
  length ts = n -> Forall ok_thread ts ->
  (i = g + length ws + sum active ts + length ks)%nat ->
  transit r q -> balance (length cs) q (pending i ws ts) ->
  enabled (mksys (puts i ++ cs ++ waits (n - g) ++ script it) ts r).
Proof.
  intros Hi Hg Hcs Hstart Hstop Hts Hok Hcount Ht Hb.
  destruct (decide (i < n)%nat) as [Hlt|Hge].
  { rewrite mpg_puts_cons by done. eapply put_start_enabled; [done|lia]. }
  assert (i = n) as -> by lia. rewrite mpg_puts_nil. cbn [app].
  destruct (ok_threads_cases ts Hok) as [(k & w & Hk & Hs)|[(k & j & Hk & Hs)|Hidle]].
  - eapply thread_enabled; [exact Hk|].
    destruct (mbox_put_room _ _ _ w Hstop) as (stop & E & _); [unfold zlen; lia|].
    cbn. by rewrite E.
  - assert (Hgo : is_Some (thread_call op j r) -> enabled (mksys (cs ++ waits (n - g) ++ script it) ts r)).
    { intros [r' E]. eapply thread_enabled; [exact Hk|]. cbn -[thread_call].
      rewrite command_decode. cbn -[thread_call]. by rewrite E. }
    assert (Hp : (0 < pending n ws ts)%nat) by (unfold pending; lia).
    destruct (thread_call_enabled j _ _ _ _ Ht Hb Hp) as [E|Hpos]; [by apply Hgo|].
    destruct cs as [|a cs]; [simpl in Hpos; lia|]. apply Forall_cons in Hcs as [Ha _].
    destruct (main_call_enabled j a (cs ++ waits (n - g) ++ script it) ts _ _ _ _ Ht Hb Ha Hpos)
      as [E|[_ E]]; [by exists Main|by apply Hgo].
  - destruct (idle_sums ts Hidle) as (Ha0 & Hl0 & _).
    destruct ws as [|w ws].
    + assert (Hp : pending n [] ts = 0%nat) by (unfold pending; rewrite Hl0; simpl; lia).
      rewrite Hp in Hb. destruct cs as [|a cs].
      * simpl in Hcount. destruct ks as [|v ks]; [simpl in Hcount; lia|].
        replace (n - g)%nat with (S (n - S g)) by lia.
        destruct (mbox_get_cons _ _ _ _ Hstop) as (stop & E & _).
        exists Main. cbn. by rewrite E.
      * apply Forall_cons in Hcs as [Ha _].
        destruct (main_call_enabled 0 a (cs ++ waits (n - g) ++ script it) ts _ _ _ _ Ht Hb Ha)
          as [E|[? _]]; [simpl; lia|by exists Main|lia].
    + destruct (lookup_lt_is_Some_2 ts 0) as [t Hk]; [lia|].
      pose proof (Forall_lookup_1 _ _ _ _ Hidle Hk) as ->.
      eapply thread_enabled; [exact Hk|]. by eapply idle_enabled.
Qed.

Lemma mpg_idle_or_exited ts :
  Forall (fun t => t = TIdle \/ t = TExited) ts ->
  (exists k, ts !! k = Some TIdle) \/ (Forall (eq TExited) ts /\ sum is_exited ts = length ts).
Proof.
  induction 1 as [|t ts [->| ->] _ IH]; [by right|left; by exists 0%nat|].
  destruct IH as [[k Hk]|[IH Hs]]; [left; by exists (S k)|right; split; [by constructor|simpl; lia]].
Qed.

Lemma sum_is_exited_le ts : (sum is_exited ts <= length ts)%nat.
Proof. induction ts as [|[] ts IH]; simpl; lia. Qed.

Lemma mpg_exit_enabled e j x ts r :
  (e = 0 \/ j = 0)%nat -> (j <= n)%nat ->
  mb_repr (rs_start r) (Z.of_nat n) (replicate x THREAD_EXIT) -> length ts = n ->
  Forall (fun t => t = TIdle \/ t = TExited) ts -> (x + sum is_exited ts + e = n)%nat ->
  final (mksys (exits e ++ joins j) ts r) \/ enabled (mksys (exits e ++ joins j) ts r).
Proof.
  intros Hej Hj Hstart Hts Hth Hx. destruct e as [|e].
  - destruct (mpg_idle_or_exited ts Hth) as [[k Hk]|[Hall Hs]].
    + right. destruct x as [|x].
      * exfalso. destruct (sums_insert ts k _ TExited Hk) as (_ & _ & _ & Se). cbn [is_exited] in Se.
        pose proof (sum_is_exited_le (<[k := TExited]> ts)) as Hle. rewrite length_insert in Hle. lia.
      * eapply thread_enabled; [exact Hk|]. by eapply idle_enabled.
    + destruct (decide (j < n)%nat) as [Hlt|Hge].
      * right. destruct (lookup_lt_is_Some_2 ts j) as [t Ht]; [lia|].
        pose proof (Forall_lookup_1 _ _ _ _ Hall Ht) as <-.
        exists Main. rewrite mpg_joins_cons by done. cbn. by rewrite Ht.
      * left. assert (j = n) as -> by lia. rewrite mpg_joins_nil. done.
  - right. destruct Hej as [Hej|Hej]; [done|subst j].
    eapply put_start_enabled; [exact Hstart|]. rewrite length_replicate. lia.
Qed.

Lemma mpg_inv_enabled m s : inv m s -> final s \/ enabled s.
Proof. intros []; [right; by eapply mpg_round_enabled|by eapply mpg_exit_enabled]. Qed.

Lemma mpg_inv_final m s :
  inv m s -> final s ->
  mb_repr (rs_start (sy_res s)) (Z.of_nat n) [] /\ mb_repr (rs_stop (sy_res s)) (Z.of_nat n) [] /\
  transit (sy_res s) 0.
Proof.
  intros [it i g cs ws ks ts r q Hi Hg Hig Hcg Hcs Hcl Hstart Hstop Hws Hts Hok Hcount Hpend Ht Hb
         |e j x ts r Hej Hj Hstart Hstop Ht Hts Hth Hx] [Hmain Hall]; cbn in *.
  - apply app_nil in Hmain as [_ Hmain]. apply app_nil in Hmain as [_ Hmain].
    replace (n - g)%nat with (S (n - S g)) in Hmain by lia. done.
  - assert (Hex : sum is_exited ts = length ts) by (clear -Hall; induction Hall as [|t ts <- _ IH]; simpl; lia).
    replace x with 0%nat in Hstart by lia. done.
Qed.

Lemma mpg_inv_steps k m s s' :
  inv m s -> nsteps step k s s' -> exists m', (m' + k <= m)%nat /\ inv m' s'.
Proof.
  intros Hinv Hs. revert m Hinv. induction Hs as [s|k s s1 s' [a Ha] _ IH]; intros m Hinv.
  - exists m. split; [lia|done].
  - assert (Hm : exists m1, (m1 < m)%nat /\ inv m1 s1)
      by (destruct a; [by eapply mpg_inv_main|by eapply mpg_inv_thread]).
    destruct Hm as (m1 & Hlt & Hinv1). destruct (IH _ Hinv1) as (m' & Hle & Hinv').
    exists m'. split; [lia|done].
Qed.

(** How many actions a run takes at most. *)
Definition total : nat := ((units + 3) * (n * (units + 2) * rounds + 2 * n))%nat.

Lemma mpg_length_script it : length (script it) = (n * (units + 2) * it + 2 * n)%nat.
Proof.
  destruct answers_calls as [_ Hl].
  induction it as [|it IH]; [|rewrite mpg_script_S]; unfold puts, waits, exits, joins in *.
  - unfold script, exits, joins. cbn [replicate concat app].
    rewrite length_app, length_replicate, length_map, length_seq. lia.
  - rewrite !length_app, IH, Hl, !length_replicate. lia.
Qed.

Lemma start_up_threads k : Forall (fun t => t = TIdle) (replicate k TIdle).
Proof. apply Forall_replicate. done. Qed.

Lemma mpg_inv_start_up : exists s, start_up c buffer unused = Ok s /\ inv total s.
Proof.
  unfold start_up. rewrite (ma_options ma), !Z.gtb_ltb, (ma_hw ma), (ma_sw ma).
  rewrite (proj2 (Z.ltb_ge MAX_THREADS (Z.of_nat n))) by apply (ma_n ma).
  cbn [orb Z.ltb Z.compare MAX_THREADS].
  assert (Hsim : simulation_steps c = Z.of_nat n)
    by (unfold simulation_steps, running_threads; rewrite (ma_hw ma), (ma_sw ma); lia).
  eexists. split; [done|]. rewrite Hsim, Nat2Z.id, mpg_main_script_eq.
  destruct (idle_sums _ (start_up_threads n)) as (_ & _ & Hw & _).
  replace total with (measure (script rounds) [] (replicate n TIdle))
    by (unfold measure, total; rewrite mpg_length_script, Hw; cbn [length]; lia).
  pose proof (mbox_init_spec (Z.of_nat n) ltac:(lia)) as Hinit.
  apply mpg_inv_next; try done; [|by rewrite length_replicate|apply start_up_threads].
  pose proof (mbox_init_spec (mbox_size c) ltac:(pose proof (ma_size ma); lia)) as Htest.
  destruct (ma_op ma) as [? ?]. unfold transit. destruct op; try done; by eexists.
Qed.
End Protocol.

(** ** Runs with a count of zero

    check_options lets [--iterations-in-thread 0] pass; the argument of the
    command is then 2^24 - 1. *)

Section ZeroCount.
Context {M : Type} `{MboxLaws M}.
Variables (c : config) (buffer : Z) (unused : M) (n : nat).

Record zero_count : Prop := {
  zc_ptr : sizeof_ptr c = 4;
  zc_hw : hw_threads c = 0;
  zc_sw : sw_threads c = Z.of_nat n;
  zc_delta : delta_iterations c = 0;
  zc_count : iterations_in_thread c = 0;
  zc_op : operation c = opMboxPut;
  zc_size : 0 < mbox_size c < 2 ^ 24;
  zc_n : 0 < Z.of_nat n <= MAX_THREADS;
  zc_options : check_options c = None }.
Context (zc : zero_count).

Abbreviation cmd := 0x01ffffff.

(** Words a thread has put into the test mailbox. *)
Definition produced (t : tstate) : nat :=
  match t with TLoop _ k => Z.to_nat (2 ^ 24 - k) | _ => 0 end.

Definition zc_measure (p : nat) (ws l : list Z) : nat :=
  (2 * p + length ws + (Z.to_nat (mbox_size c) - length l))%nat.

Inductive zinv : nat -> sys M -> Prop :=
| zinv_intro p rest ts r ws l :
    mb_repr (rs_start r) (Z.of_nat n) ws -> Forall (eq cmd) ws ->
    mb_repr (rs_stop r) (Z.of_nat n) [] ->
    mb_repr (rs_test r) (mbox_size c) l -> sum_list_with produced ts = length l ->
    zlen l <= mbox_size c ->
    Forall (fun t => t = TIdle \/ exists k, t = TLoop cmd k /\ 0 < k <= 2 ^ 24) ts ->
    zinv (zc_measure p ws l)
         (mksys (replicate p (Put MbStart cmd) ++ Get MbStop :: rest) ts r).

Lemma zinv_main m s s' : zinv m s -> main_step s = Some s' -> exists m', (m' < m)%nat /\ zinv m' s'.
Proof.
  intros [p rest ts r ws l Hstart Hws Hstop Htest Hsum Hl Hth] E. destruct p as [|p]; cbn in E.
  - by rewrite (mbox_get_nil _ _ Hstop) in E.
  - destruct (mbox_put (rs_start r) cmd) as [start|] eqn:Ep; simplify_option_eq.
    destruct (mbox_put_inv _ _ _ _ _ Hstart Ep) as [_ Hs].
    exists (zc_measure p (ws ++ [cmd]) l). split; [unfold zc_measure; rewrite length_app; simpl; lia|].
    apply (zinv_intro p rest ts _ (ws ++ [cmd]) l); try done.
    apply Forall_app_2; [done|by apply Forall_singleton].
Qed.

Lemma zinv_thread k m s s' : zinv m s -> thread_step k s = Some s' -> exists m', (m' < m)%nat /\ zinv m' s'.
Proof.
  intros [p rest ts r ws l Hstart Hws Hstop Htest Hsum Hl Hth] E. unfold thread_step in E. cbn [sy_threads sy_res sy_main] in E.
  destruct (ts !! k) as [t|] eqn:Hk; [|done]. simpl in E.
  pose proof (fun t' => sum_insert produced ts k t t' Hk) as Hins.
  destruct (Forall_lookup_1 _ _ _ _ Hth Hk) as [->|(j & -> & Hj)]; simpl in E.
  - destruct (mbox_get (rs_start r)) as [[w start]|] eqn:Eg; [|done].
    destruct (mbox_get_inv _ _ _ _ _ Hstart Eg) as (ws' & -> & Hws').
    apply Forall_cons in Hws as [<- Hws]. simpl in E. simplify_eq.
    change (Z.land 33554431 opArgMask + 1) with 16777216. exists (zc_measure p ws' l). split; [unfold zc_measure; simpl; lia|].
    specialize (Hins (TLoop cmd 16777216)). cbn [produced] in Hins.
    apply (zinv_intro p rest _ _ ws' l); try done.
    + change (Z.to_nat (2 ^ 24 - 16777216)) with 0%nat in Hins. lia.
    + apply Forall_insert; [done|]. right. by exists 16777216.
  - destruct (mbox_put (rs_test r) j) as [test|] eqn:Ep; simpl in E; simplify_eq.
    destruct (mbox_put_inv _ _ _ _ _ Htest Ep) as [Hroom Ht].
    assert (Hle : (produced (TLoop cmd j) <= length l)%nat)
      by (rewrite <-Hsum; clear -Hk; revert k Hk; induction ts as [|t ts IH]; intros [|k] Hk; simplify_eq/=;
          [lia|]; specialize (IH k Hk); cbn [produced] in IH; lia).
    pose proof (zc_size zc) as Hsz. cbn [produced] in Hle. unfold zlen in *.
    assert (Hj1 : (j - 1 >? 0) = true) by (rewrite Z.gtb_ltb; apply Z.ltb_lt; lia).
    rewrite Hj1. exists (zc_measure p ws (l ++ [j])).
    split; [unfold zc_measure; rewrite length_app; simpl; lia|].
    specialize (Hins (TLoop cmd (j - 1))). cbn [produced] in Hins.
    apply (zinv_intro p rest _ _ ws (l ++ [j])); try done.
    + rewrite length_app. simpl. apply Z.gtb_lt in Hj1. lia.
    + unfold zlen. rewrite length_app. simpl. lia.
    + apply Forall_insert; [done|]. right. exists (j - 1). split; [done|]. apply Z.gtb_lt in Hj1. lia.
Qed.

Lemma zinv_steps k m s s' :
  zinv m s -> nsteps step k s s' -> exists m', (m' + k <= m)%nat /\ zinv m' s'.
Proof.
  intros Hinv Hs. revert m Hinv. induction Hs as [s|k s s1 s' [a Ha] _ IH]; intros m Hinv.
  - exists m. split; [lia|done].
  - assert (Hm : exists m1, (m1 < m)%nat /\ zinv m1 s1)
      by (destruct a; [by eapply zinv_main|by eapply zinv_thread]).
    destruct Hm as (m1 & Hlt & Hinv1). destruct (IH _ Hinv1) as (m' & Hle & Hinv').
    exists m'. split; [lia|done].
Qed.

Lemma zc_script : exists rest,
  main_script c buffer = replicate n (Put MbStart cmd) ++ Get MbStop :: rest.
Proof.
  pose proof (zc_options zc) as Hopt. unfold check_options in Hopt.
  destruct (only_print_help c); [done|]. destruct (iterations c <? 1) eqn:E; [done|]. bool_hyps. clear Hopt.
  pose proof (zc_n zc). unfold main_script, for_upto at 1.
  destruct (Z.to_nat (iterations c)) as [|it] eqn:Eit; [lia|]. cbn [seq map concat].
  unfold one_iteration at 1, for_upto at 1 2 3, simulation_steps, running_threads.
  rewrite (zc_hw zc), (zc_sw zc), Z.add_0_l, Nat2Z.id, !concat_map_const, !length_seq, !concat_replicate_one.
  assert (Hcmd : command c = cmd)
    by (unfold command; rewrite (zc_op zc), (zc_count zc), (zc_delta zc); reflexivity).
  assert (Hnil : perform c buffer = []) by (unfold perform; rewrite (zc_op zc), (zc_count zc); reflexivity).
  rewrite Hcmd, Hnil. destruct n as [|k]; [lia|].
  assert (Hempty : forall j, concat (replicate j (@nil act)) = []) by (induction j; done).
  rewrite Hempty. eexists. rewrite <-!app_assoc. cbn [app replicate]. done.
Qed.

Lemma zinv_start_up :
  exists s, start_up c buffer unused = Ok s /\ zinv (2 * n + Z.to_nat (mbox_size c)) s.
Proof.
  pose proof (zc_n zc). pose proof (zc_size zc).
  unfold start_up. rewrite (zc_options zc), !Z.gtb_ltb, (zc_hw zc), (zc_sw zc), (zc_op zc).
  rewrite (proj2 (Z.ltb_ge MAX_THREADS (Z.of_nat n))) by lia.
  cbn [orb Z.ltb Z.compare MAX_THREADS]. eexists. split; [done|].
  unfold simulation_steps, running_threads. rewrite (zc_hw zc), (zc_sw zc), Nat2Z.id, Z.add_0_l.
  destruct zc_script as [rest ->].
  replace (2 * n + Z.to_nat (mbox_size c))%nat with (zc_measure n [] []) by (unfold zc_measure; simpl; lia).
  pose proof (mbox_init_spec (Z.of_nat n) ltac:(lia)). pose proof (mbox_init_spec (mbox_size c) ltac:(lia)).
  apply (zinv_intro n rest _ _ [] []); try done.
  - clear. induction n; done.
  - change (zlen (@nil Z)) with 0. lia.
  - apply Forall_replicate. by left.
Qed.
End ZeroCount.

(** ** Properties *)

(** C29: every matched benchmark run of mbox_put_get.c ends without a
    deadlock.  For each of the operations nop, mbox_put, mbox_get, sem_post and
    sem_wait, any number of software threads up to MAX_THREADS, any test
    mailbox size from 1 on and any count from 1 to 2^24 - 1, in every
    interleaving: as long as main has not returned or a thread is left, some
    actor can act; after [total] actions everything has ended; and then the
    command mailboxes and the tested mailbox or semaphore are empty again. *)
Theorem mbox_put_get_protocol {M : Type} `{MboxLaws M} (c : config) (buffer : Z) (unused : M) (n : nat) :
  matched c n -> (0 < n)%nat ->
  exists s0, start_up c buffer unused = Ok s0 /\
  forall k s, nsteps step k s0 s ->
    (k <= total c n)%nat /\
    (final s \/ exists s', step s s') /\
    (final s ->
       mb_repr (rs_start (sy_res s)) (Z.of_nat n) [] /\
       mb_repr (rs_stop (sy_res s)) (Z.of_nat n) [] /\ transit c (sy_res s) 0).
Proof.
  intros ma Hn. destruct (mpg_inv_start_up c buffer unused n ma Hn) as (s0 & Hs0 & Hinv0).
  exists s0. split; [done|]. intros k s Hsteps.
  destruct (mpg_inv_steps c buffer n ma Hn k _ _ _ Hinv0 Hsteps) as (m & Hm & Hinv).
  split_and!; [lia| |by eapply mpg_inv_final].
  destruct (mpg_inv_enabled c buffer n ma Hn _ _ Hinv) as [|[a [s' E]]]; [by left|right].
  by exists s', a.
Qed.

Lemma mbox_put_get_protocol_witness :
  exists s0 : sys list_mbox,
  start_up (mkconfig 100 16777215 0 opMboxGet 5 true false 0 8 4) 0 (mklmbox 0 []) = Ok s0 /\
  forall k s, nsteps step k s0 s ->
    (k <= total (mkconfig 100 16777215 0 opMboxGet 5 true false 0 8 4) 8)%nat /\
    (final s \/ exists s', step s s') /\
    (final s ->
       mb_repr (rs_start (sy_res s)) 8 [] /\ mb_repr (rs_stop (sy_res s)) 8 [] /\
       transit (mkconfig 100 16777215 0 opMboxGet 5 true false 0 8 4) (sy_res s) 0).
Proof.
  apply (mbox_put_get_protocol (mkconfig 100 16777215 0 opMboxGet 5 true false 0 8 4) 0 (mklmbox 0 []) 8).
  - constructor; try reflexivity; vm_compute; try congruence. split; congruence.
  - apply Nat.lt_0_succ.
Defined.

(** The count 0, which the option checks let pass, hangs the benchmark.
    main subtracts 1 from it before it masks the argument, so every thread
    starts 2^24 mbox_put calls while main makes no mbox_get: with any number of
    threads, no interleaving ever ends, although each comes to a stop after at
    most 2 n + mbox_size actions. *)
Theorem zero_count_hangs {M : Type} `{MboxLaws M} (c : config) (buffer : Z) (unused : M) (n : nat) :
  zero_count c n ->
  exists s0, start_up c buffer unused = Ok s0 /\
  forall k s, nsteps step k s0 s -> (k <= 2 * n + Z.to_nat (mbox_size c))%nat /\ ~ final s.
Proof.
  intros zc. destruct (zinv_start_up c buffer unused n zc) as (s0 & Hs0 & Hinv0).
  exists s0. split; [done|]. intros k s Hsteps.
  destruct (zinv_steps c n zc k _ _ _ Hinv0 Hsteps) as (m & Hm & Hinv).
  split; [lia|]. destruct Hinv as [p rest ts r ws l _ _ _ _ _ _ _]. intros [Hmain _]. simpl in Hmain.
  by apply app_nil in Hmain as [_ ?].
Qed.

Lemma zero_count_hangs_witness :
  exists s0 : sys list_mbox,
  start_up (mkconfig 1 0 0 opMboxPut 32 true false 0 1 4) 0 (mklmbox 0 []) = Ok s0 /\
  forall k s, nsteps step k s0 s -> (k <= 2 * 1 + 32)%nat /\ ~ final s.
Proof.
  apply (zero_count_hangs (mkconfig 1 0 0 opMboxPut 32 true false 0 1 4) 0 (mklmbox 0 []) 1).
  constructor; try reflexivity; (split; vm_compute; congruence).
Defined.
